(* ===== verification/_CoqProject ===== *)
-Q . S2P
Prelude.v
RustInt.v
RustStr.v
XxHash.v
Float64.v
Fuse.v
FuseTables.v
FusePeel.v
FuseBuild.v
FuseTerm.v
FuseFormat.v
FuseSpec.v
Claim.v
ClaimSpec.v
Bucket.v
BucketSpec.v
Manager.v
ManagerSpec.v
Middleware.v
StreamMap.v
StreamMapSpec.v
Convert.v
Storage.v
Jobs.v
Handler.v
HandlerInv.v
HandlerPending.v
HandlerSpec.v
Routes.v
Names.v
Config.v
RoutesSpec.v
FilesSpec.v
MediaSpec.v
AccessSpec.v
ConfigSpec.v
StreamSpec.v
StreamSpecSpec.v
Flv.v
FlvSpec.v
Rtmp.v
RtmpSpec.v
Choke.v
ChokeSpec.v
Errors.v
Muxer.v
Binding.v
BindRoutes.v
BindConnect.v
BindingSpec.v
BindConvert.v
Metadata.v
MetadataSpec.v
Pipeline.v
Rescale.v
MuxTask.v
MuxTaskSpec.v
Handover.v
EncTask.v
EncTaskSpec.v
DemuxTimes.v
DemuxTask.v
DemuxSpec.v
Lifecycle.v
LifecycleSpec.v
DecTimes.v
DecTask.v
DecTimesSpec.v
DecSpec.v
HwDevice.v
HwSpec.v
FilterSync.v
FilterConfig.v
FilterOutput.v
FilterTask.v
FilterToy.v
FilterBuildSpec.v
FilterOutputSpec.v
FilterSpec.v
FilterGraphSpec.v
