(* ===== verification/Prelude.v ===== *)
(** * Video storage: a verified model of the server

    The program under [src/] receives videos over HTTP, converts them with ffmpeg
    to HLS files of several sizes and codecs, stores them locally or on S3, and
    serves them to bearers of claim tokens.  This library models the server's
    own crates and proves what they promise to each other and to their users.

    ** The parts of the program and their files

    - [crates/twox-hash]: the XXH3 hash.  [XxHash].
    - [crates/xorf]: the binary fuse filter over hashed strings, which a token
      carries as its list of assets.  [Fuse] (construction, lookup, wire format),
      [FuseTables], [FusePeel], [FuseBuild], [FuseTerm], [FuseFormat]
      (its theory), [FuseSpec] (its promises).  [libm] is the class [Libm].
    - [crates/claim]: tokens ([error.rs], [header.rs], [payload/],
      [create_request.rs]) in [Claim]/[ClaimSpec]; token buckets and connection
      permits ([bucket.rs]) in [Bucket]/[BucketSpec]; keys, signing, verification
      and the map of buckets ([manager.rs]) in [Manager]/[ManagerSpec]; the
      authorization of a request ([middleware.rs]) in [Middleware].
    - [crates/core]: the keyed task queue ([stream_map.rs]) in
      [StreamMap]/[StreamMapSpec]; conversions ([job/convert.rs], with the builder
      of ez-ffmpeg's [context/output.rs]) in [Convert]; storage backends
      ([opendal.rs]) in [Storage]; jobs, their JSON form and the pending set
      ([job/]) in [Jobs]; the job handler ([app_state.rs], [gen_task]) in
      [Handler], with invariants in [HandlerInv], [HandlerPending] and promises in
      [HandlerSpec]; the HTTP handlers ([api/]) in [Routes]; the configuration
      ([config.rs], the start of [lib.rs]) in [Config]/[ConfigSpec].
    - [crates/ez-ffmpeg]: stream specifiers ([core/metadata/stream_specifier.rs]) in
      [StreamSpec]/[StreamSpecSpec]; the input controller, the waiters of the demuxers
      and the controls of the scheduler ([core/scheduler/input_controller.rs],
      [util/sch_waiter.rs], parts of [core/scheduler/ffmpeg_scheduler.rs]) in
      [Choke]/[ChokeSpec]; the FLV buffer ([flv/]) in [Flv]/[FlvSpec]; the RTMP
      scheduler and its cache ([rtmp/rtmp_scheduler.rs], [rtmp/gop.rs]) in
      [Rtmp]/[RtmpSpec]; the streams, encoders and filters of a context
      ([core/context/muxer.rs], [demuxer.rs], [filter_graph.rs] and others) in [Muxer];
      their binding ([core/context/ffmpeg_context.rs]: filter graphs, stream maps,
      automatic choice, checks) in [Binding], with where every stream goes in
      [BindRoutes] and [BindConnect], and the promises in [BindingSpec]; the errors
      ([error.rs]) in [Errors]; the muxer's thread ([core/scheduler/mux_task.rs]) in
      [MuxTask]/[MuxTaskSpec], the queue before it starts in [Handover], and the
      encoder's thread ([core/scheduler/enc_task.rs]) in [EncTask]/[EncTaskSpec]; the
      demuxer's thread ([core/scheduler/demux_task.rs]) in [DemuxTimes] (timestamps),
      [DemuxTask] and [DemuxSpec]; the decoder's thread ([core/scheduler/dec_task.rs])
      in [DecTimes] (timestamps), [DecTask], [DecTimesSpec] and [DecSpec]; hardware
      devices ([core/hwaccel.rs]), the opening of a decoder and its pixel format
      ([dec_task.rs]), and the choice of decoders ([core/context/demuxer.rs]) in
      [HwDevice]/[HwSpec]; the thread of a filter graph
      ([core/scheduler/filter_task.rs]) in [FilterSync] (times), [FilterConfig]
      (arguments of filters, building and parsing a graph), [FilterOutput] (its sinks)
      and [FilterTask], with [FilterBuildSpec], [FilterOutputSpec], [FilterSpec] and
      [FilterGraphSpec] and a small executable libavfilter in [FilterToy]; the metadata
      and chapters of outputs ([core/metadata/], [process_metadata] of
      [ffmpeg_context.rs], the setters of [output.rs]) in [Metadata]/[MetadataSpec]; the
      user's frame pipelines ([core/filter/], [core/scheduler/frame_filter_pipeline.rs])
      in [Pipeline]; the port of libavutil's rescaling ([util/ffmpeg_utils.rs]) in
      [Rescale]; the calls of a job's owner and the end of its threads
      ([core/scheduler/ffmpeg_scheduler.rs], [util/thread_synchronizer.rs]) in
      [Lifecycle]/[LifecycleSpec].
    - Across components: [Names] (the names of files, from the converter through
      uploads to requests), [RoutesSpec], [FilesSpec], [MediaSpec], [AccessSpec];
      the converter's outputs in a context of ez-ffmpeg, [BindConvert].

    ** How the code is translated

    A Rust function is a function of the same name with the same branches in the
    same order.  [outcome] (this file) is what running it may come to: a value, a
    panic, or no end within the fuel; [result] is Rust's own.  Integers are [Z]
    with the width written at each operation ([RustInt]); the class [Profile] says
    whether a build checks overflow, so a theorem over it covers debug and release
    builds.  [f64] is the Standard Library's executable IEEE double ([Float64]).
    A [str] is the Rocq string of its UTF-8 bytes ([RustStr]).

    Shared and concurrent state: the atomics of a bucket are a record on which
    every caller's atomic operations are steps, and a run is any interleaving of
    them ([Bucket.run_schedule]); the buckets that requests and the manager share
    are addresses in a heap ([Manager]); the job handler is a state machine whose
    events are a request's submission, the loop's choices, the tasks' progress
    and the spawned writes, in any order ([Handler.run]); the retry counter that
    the clones of a job share is an address as well.

    The demuxers of ez-ffmpeg, their waiters and the scheduler's status are one state
    ([Choke.System]) with a step for each call; the fields of libavformat's structures
    that the code reads are records.  The thread that starts a muxer and the sends of an
    encoder are steps of [Handover.handover_step], in any order; what a task gets from
    its channel, and when, is the list that its loop runs over.  The owner of a job, its
    muxers and the tasks that fail are steps of [Lifecycle.job_step].

    Code of other crates is a parameter with the laws that its documentation
    states: AES-GCM and base64 ([Aead], [Base64]), tokio's semaphore ([Semaphore])
    and stream map ([TokioStreamMap]), opendal ([OpenDal]), serde's derived code
    ([Serde]), the sessions of rml_rtmp ([Rml]), ffmpeg's functions ([Av], [AvMux], [AvDemux], [AvEnc],
    [AvDec] with [RescaleLaws], [AvHw], [AvGraph], [AvFilter], [AvDict] with [DictLaws]),
    the user's frame filters ([FrameFilter]), [libm] and [atan2]; each law class has an
    instance, which the witnesses use.  Nothing is assumed of codecs, filter graphs and
    user filters: the theorems speak of any run of their calls, failures included
    ([DecSpec.driven], [EncTaskSpec.encoded], [FilterGraphSpec.given_to],
    [FilterBuildSpec.built], [Pipeline.through]).
    Clock readings, random bytes, file contents, request bodies and the results
    of calls to the outside are arguments.

    ** What is proved

    - The filter: no false negatives, and construction terminates, in every build that
      checks overflow and in the others unless an 8-bit counter of a cell wraps (then a
      release build can lose keys or probe for ever); serialization round trips and rejects what it
      cannot hold; the hash panics exactly on certain lengths and its middle
      routine is XXH3's.
    - Tokens: a payload is accepted iff all its restrictions hold; parsing never
      panics; both formats round trip; a signed token opens after key rotation
      and grants exactly its payload, if its filter has fewer than 65536 fingerprints.
    - Limits: the tokens granted are bounded under every interleaving,
      consumption is wait-free and, waiting as told, ends; at most the configured
      number of connections is open; one token has one bucket, and a cleanup only
      forgets tokens that are dead.
    - Access: the handler runs only behind a verified token and a permit, and a
      claim created for a video opens every file of that video it should (a list, under
      the conditions of its filter).
    - Jobs: the task queue refines one FIFO per id; permits are conserved and no
      job asks for more than there are; a job runs at most six times; pending
      jobs are the unfinished ones, and a restart resumes them.  The handler ends only
      when the tokio task of a job panics.
    - Names and files: every name the converter emits is read back by the
      middleware, the file handler, uploads and migrations; ranges are exact;
      served paths stay inside their directory unless absolute; uploads and
      migrations that succeed are complete; the master playlist lists the outputs.
    - Configuration: what loads can be run, and the keys of a file reach the
      manager.

    - ez-ffmpeg: a stream specifier that is written down parses to itself, what parses
      is well formed, and an index selects that match; an update of the input controller
      chokes exactly the inputs that are ahead, one of them may run, and the demuxers
      that it releases are awake; the FLV ring buffer is a queue, and a stream of tags
      passes through it unchanged; the RTMP scheduler's state stays consistent, so that
      it never panics, media reach the watchers of a channel, and the cache holds its
      last groups. A context that is set up has one source for every stream of an
      output, stream maps come in order and are connected to what they name; the
      converter's outputs get the audio of the input and the video made for them, and
      videos without audio are refused. The muxer's decoding times increase in its
      audio, video and subtitle streams, in formats with timestamps, and each packet of
      an encoder that arrives is written; what an encoder sends while the muxer starts
      arrives in order, but for a gap that the theorem names; all samples that arrive
      reach the codec, and all its packets the muxer, while no limit is set, the null
      frame comes and no call of the codec fails. Every destination of an input gets the
      packets of its stream and then an empty one; jumps of the timestamps are
      corrected; what a codec decodes goes to everyone who listens, through every flush
      and also when some of its calls fail, and the end is told while there is memory;
      the clock of decoded audio does not drift, and video frames without timestamps
      advance; the names of hardware devices are unique, and the chosen pixel format
      fits the device. What a filter graph gives is sent in its order, whatever is
      repeated or dropped, with a constant rate at consecutive times, and every output
      is told the end while there is memory and all of them listen; the frames that come
      before the graph is built reach it, reading it goes on only while it gives
      something, and exactly the filters at its ends are added to it, in a row; a graph
      is never rebuilt: a frame of other properties ends the task. In the metadata of an
      output the user's entries come before mapped ones, and those before copied ones,
      which no entry of the user removes; its chapters are those of the part that is
      recorded; a stream inherits from the stream that it is made of. The user's frame
      pipelines send what their filters make, those of an input in the reverse order,
      and lose a receiver when two others end at once. The port of the rescaling is
      exact in every mode. Calls that wait for a job return when its muxers are done,
      and only then.

    Theorems that show a defect or a race (a range behind the end, absolute keys,
    truncated bodies, racing duplicates, double refills, sleepers that a stop does not
    wake, and others) are stated
    like the others, as what the code does.

    ** Fuel

    Loops that are not structural take fuel and return [Diverge] without it.  The
    filter's loops have fuel from the sizes of their arrays, the retries of its
    construction the code's own bound of 1000 ([FuseTerm]: none runs out unless a counter
    wraps in a build that does not check it); the
    consumption loop of a bucket retries at most eleven times by its own counter;
    the walk over a directory needs one unit per directory ([upload_is_complete]);
    decimal printing has 20 digits for 64 bits; every round of the specifier parser
    consumes a character, and the FLV head moves back by the buffer's size.  The
    encoder's loop has fuel for its rounds and for the packets between two frames, the
    decoder's for the frames between two packets; that some amount is enough is part of
    their theorems.  The reading of a graph takes no more rounds than the graph gives
    answers; a filter of a pipeline that always has another frame takes any fuel.

    ** Not modelled

    Of ez-ffmpeg: opening files and encoders, and the subtitles of encoders;
    the sockets of its RTMP server and its OpenGL filters, optional features that the server does
    not enable.  An update of the input controller is one step, although it wakes the
    demuxers one after the other.  The conversion's thread
    pool, the fallback that remuxes unusual inputs and the progress callback.
    The router's table, sockets, logs, webhook calls, derived (de)serialization,
    and the test server. *)

From stdpp Require Import base list option strings gmap.

Declare Scope rust_scope.
Delimit Scope rust_scope with rust.

(** ** Outcomes of a Rust computation

    [Ret] is a normal return, [Panic] an unwinding panic (index out of range,
    [unwrap] on [None], arithmetic overflow when the build checks it) or undefined
    behaviour of foreign calls (a null pointer that is read), and
    [Diverge] stands for a loop that the model shows cannot finish within its
    fuel.  Rust's own [Result] is the separate type [result]. *)
Inductive outcome (A : Type) : Type :=
  | Ret (a : A)
  | Panic
  | Diverge.

Arguments Ret {A} a.
Arguments Panic {A}.
Arguments Diverge {A}.

Inductive result (A E : Type) : Type :=
  | Ok (a : A)
  | Err (e : E).

Arguments Ok {A E} a.
Arguments Err {A E} e.

#[export] Instance outcome_ret : MRet outcome := fun A a => Ret a.

#[export] Instance outcome_bind : MBind outcome := fun A B f m =>
  match m with
  | Ret a => f a
  | Panic => Panic
  | Diverge => Diverge
  end.

#[export] Instance outcome_fmap : FMap outcome := fun A B f m =>
  match m with
  | Ret a => Ret (f a)
  | Panic => Panic
  | Diverge => Diverge
  end.

(** The [?] operator on a computation that may also panic. *)
Definition try_bind {A B E : Type} (m : outcome (result A E))
    (k : A -> outcome (result B E)) : outcome (result B E) :=
  match m with
  | Ret (Ok a) => k a
  | Ret (Err e) => Ret (Err e)
  | Panic => Panic
  | Diverge => Diverge
  end.

(** The [?] operator on a plain [Result]. *)
Definition res_bind {A B E : Type} (m : result A E) (k : A -> result B E) : result B E :=
  match m with
  | Ok a => k a
  | Err e => Err e
  end.

Notation "'let?' x ':=' m 'in' k" := (try_bind m (fun x => k))
  (at level 10, x pattern, m at level 100, k at level 200) : rust_scope.
Notation "'let!' x ':=' m 'in' k" := (res_bind m (fun x => k))
  (at level 10, x pattern, m at level 100, k at level 200) : rust_scope.

Definition is_ok {A E : Type} (r : result A E) : bool :=
  match r with Ok _ => true | Err _ => false end.

Definition res_ok {A E : Type} (r : result A E) : option A :=
  match r with Ok a => Some a | Err _ => None end.

Definition map_err {A E F : Type} (f : E -> F) (r : result A E) : result A F :=
  match r with Ok a => Ok a | Err e => Err (f e) end.

Definition ok_or {A E : Type} (e : E) (o : option A) : result A E :=
  match o with Some a => Ok a | None => Err e end.

(** ** Slices and vectors: every access is checked, and panics out of range. *)
Definition index {A : Type} (l : list A) (i : nat) : outcome A :=
  match l !! i with Some x => Ret x | None => Panic end.

Definition update {A : Type} (l : list A) (i : nat) (x : A) : outcome (list A) :=
  if decide (i < length l) then Ret (<[i := x]> l) else Panic.

(** [&l[a..b]] *)
Definition slice {A : Type} (l : list A) (a b : nat) : outcome (list A) :=
  if decide (a <= b /\ b <= length l) then Ret (take (b - a) (drop a l)) else Panic.

(** [&l[a..]] *)
Definition slice_from {A : Type} (l : list A) (a : nat) : outcome (list A) :=
  slice l a (length l).

(** [for x in l { acc = f(acc, x) }] *)
Fixpoint foldM {A S : Type} (f : S -> A -> outcome S) (s : S) (l : list A) : outcome S :=
  match l with
  | [] => Ret s
  | x :: l => s' ← f s x; foldM f s' l
  end.

(** [l.map(f).collect()] for a closure that may panic. *)
Fixpoint mapM_out {A B : Type} (f : A -> outcome B) (l : list A) : outcome (list B) :=
  match l with
  | [] => Ret []
  | x :: l => y ← f x; ys ← mapM_out f l; Ret (y :: ys)
  end.

(** ** Build profiles

    Cargo's profiles decide whether integer overflow panics and whether
    [cfg(debug_assertions)] code is compiled; the release profile of this
    workspace does neither, the dev profile both. *)
Class Profile := {
  overflow_checks : bool;
  debug_assertions : bool
}.

Definition dev_profile : Profile := {| overflow_checks := true; debug_assertions := true |}.
Definition release_profile : Profile := {| overflow_checks := false; debug_assertions := false |}.

(** [m] returning a value forces [n] to return it as well: how a build with
    overflow checks relates to one without. *)
Definition refines {A : Type} (m n : outcome A) : Prop :=
  forall a, m = Ret a -> n = Ret a.

(** ** Lemmas on outcomes *)

Lemma bind_Ret {A B : Type} (m : outcome A) (f : A -> outcome B) b :
  (m ≫= f) = Ret b <-> exists a, m = Ret a /\ f a = Ret b.
Proof. destruct m; simpl; naive_solver. Qed.

Lemma Ret_inj {A : Type} (a b : A) : Ret a = Ret b -> a = b.
Proof. by intros [=]. Qed.

Lemma Ok_inj {A E : Type} (a b : A) : @Ok A E a = Ok b -> a = b.
Proof. by intros [=]. Qed.

Lemma bind_Diverge {A B : Type} (m : outcome A) (f : A -> outcome B) :
  (m ≫= f) = Diverge <-> m = Diverge \/ exists a, m = Ret a /\ f a = Diverge.
Proof. destruct m; simpl; naive_solver. Qed.

Lemma bind_not_Diverge {A B : Type} (m : outcome A) (f : A -> outcome B) :
  m <> Diverge -> (forall a, m = Ret a -> f a <> Diverge) -> (m ≫= f) <> Diverge.
Proof. destruct m; simpl; naive_solver. Qed.

Lemma index_Ret {A : Type} (l : list A) i x : index l i = Ret x <-> l !! i = Some x.
Proof. unfold index. destruct (l !! i); naive_solver. Qed.

Lemma index_not_Diverge {A : Type} (l : list A) i : index l i <> Diverge.
Proof. unfold index. by destruct (l !! i). Qed.

Lemma index_lt {A : Type} (l : list A) i :
  i < length l -> exists x, index l i = Ret x /\ l !! i = Some x.
Proof. intros [x Hx]%lookup_lt_is_Some_2. exists x. by rewrite index_Ret. Qed.

Lemma update_Ret {A : Type} (l : list A) i x l' :
  update l i x = Ret l' <-> i < length l /\ l' = <[i := x]> l.
Proof. unfold update. case_decide; naive_solver. Qed.

Lemma update_lt {A : Type} (l : list A) i x :
  i < length l -> update l i x = Ret (<[i := x]> l).
Proof. intros. by apply update_Ret. Qed.

Lemma update_not_Diverge {A : Type} (l : list A) i x : update l i x <> Diverge.
Proof. unfold update. by case_decide. Qed.

Lemma slice_Ret {A : Type} (l : list A) a b l' :
  slice l a b = Ret l' <-> a <= b /\ b <= length l /\ l' = take (b - a) (drop a l).
Proof. unfold slice. case_decide; naive_solver. Qed.

Lemma slice_ok {A : Type} (l : list A) a b :
  a <= b -> b <= length l -> slice l a b = Ret (take (b - a) (drop a l)).
Proof. intros. by apply slice_Ret. Qed.

Lemma slice_length {A : Type} (l l' : list A) a b :
  slice l a b = Ret l' -> length l' = b - a.
Proof. intros (?&?&->)%slice_Ret. rewrite length_take, length_drop. lia. Qed.

(** Reading back a segment of a concatenation. *)
Lemma slice_app_mid {A : Type} (p m s : list A) a b :
  a = length p -> b = length p + length m -> slice (p ++ m ++ s) a b = Ret m.
Proof.
  intros -> ->. apply slice_Ret. rewrite !length_app. repeat split; [lia..|].
  rewrite drop_app_length, Nat.add_comm, Nat.add_sub. by rewrite take_app_length.
Qed.

Lemma slice_from_Ret {A : Type} (l : list A) a l' :
  slice_from l a = Ret l' <-> a <= length l /\ l' = drop a l.
Proof.
  unfold slice_from. rewrite slice_Ret. split.
  - intros (?&?&->). split; [done|]. rewrite take_ge; [done|]. by rewrite length_drop.
  - intros [? ->]. repeat split; [done..|]. rewrite take_ge; [done|]. by rewrite length_drop.
Qed.

Lemma slice_from_ok {A : Type} (l : list A) a :
  a <= length l -> slice_from l a = Ret (drop a l).
Proof. intros. by apply slice_from_Ret. Qed.

(** A window of a prefix is a window of the whole list. *)
Lemma take_drop_take {A : Type} (n i m : nat) (l : list A) :
  i + n <= m -> take n (drop i (take m l)) = take n (drop i l).
Proof. intros. rewrite skipn_firstn_comm, take_take. f_equal. lia. Qed.

Lemma foldM_app {A S : Type} (f : S -> A -> outcome S) l1 l2 s :
  foldM f s (l1 ++ l2) = (s' ← foldM f s l1; foldM f s' l2).
Proof. revert s. induction l1 as [|x l1 IH]; intros s; simpl; [done|]. destruct (f s x); simpl; auto. Qed.

(** Loop invariants of a [for] loop, with the elements already consumed. *)
Lemma foldM_inv {A S : Type} (P : list A -> S -> Prop) (f : S -> A -> outcome S) l s s' :
  P [] s ->
  (forall done x rest s1 s2, l = done ++ x :: rest -> P done s1 -> f s1 x = Ret s2 -> P (done ++ [x]) s2) ->
  foldM f s l = Ret s' -> P l s'.
Proof.
  intros Hinit Hstep.
  assert (forall done rest s1, l = done ++ rest -> P done s1 -> foldM f s1 rest = Ret s' -> P l s') as H.
  { intros done rest. revert done. induction rest as [|x rest IH]; intros done s1 -> HP; simpl.
    - intros [= ->]. by rewrite app_nil_r.
    - intros (s2 & Hf & Hrest)%bind_Ret.
      eapply (IH (done ++ [x]) s2); [by rewrite <-app_assoc| |done]. by eapply Hstep. }
  intros. by eapply (H [] l).
Qed.

(** A [for] loop that keeps an invariant and whose body returns, returns. *)
Lemma foldM_total {A S : Type} (P : list A -> S -> Prop) (f : S -> A -> outcome S) l s :
  P [] s ->
  (forall done x rest s1, l = done ++ x :: rest -> P done s1 -> exists s2, f s1 x = Ret s2 /\ P (done ++ [x]) s2) ->
  exists s', foldM f s l = Ret s' /\ P l s'.
Proof.
  intros Hinit Hstep.
  assert (forall done rest s1, l = done ++ rest -> P done s1 -> exists s', foldM f s1 rest = Ret s' /\ P l s') as H.
  { intros done rest. revert done. induction rest as [|x rest IH]; intros done s1 -> HP; simpl.
    - exists s1. by rewrite app_nil_r.
    - destruct (Hstep done x rest s1 eq_refl HP) as (s2 & -> & HP2). simpl.
      eapply (IH (done ++ [x]) s2); [by rewrite <-app_assoc|done]. }
  by apply (H [] l).
Qed.

(** A loop whose body keeps an invariant or panics for a reason [B]: it returns
    with the invariant, or has panicked at an element, for that reason. *)
Lemma foldM_total_or {A S : Type} (P : S -> Prop) (B : S -> A -> Prop) (f : S -> A -> outcome S) l s :
  P s ->
  (forall s x, P s -> (exists s', f s x = Ret s' /\ P s') \/ (f s x = Panic /\ B s x)) ->
  (exists s', foldM f s l = Ret s' /\ P s') \/
  (foldM f s l = Panic /\
   exists done x rest s', l = done ++ x :: rest /\ foldM f s done = Ret s' /\ P s' /\ B s' x).
Proof.
  intros HP Hstep. revert s HP. induction l as [|x l IH]; intros s HP; simpl; [left; by exists s|].
  destruct (Hstep s x HP) as [(s1 & E & HP1)|[E HB]]; rewrite E; simpl.
  - destruct (IH s1 HP1) as [H|[H (done & y & rest & s2 & -> & Hd & HP2 & HB)]]; [by left|right].
    split; [done|]. exists (x :: done), y, rest, s2. split; [done|]. split; [|done]. simpl. by rewrite E.
  - right. split; [done|]. by exists [], x, l, s.
Qed.

Lemma foldM_not_Diverge {A S : Type} (f : S -> A -> outcome S) l s :
  (forall s x, f s x <> Diverge) -> foldM f s l <> Diverge.
Proof.
  intros Hf. revert s. induction l as [|x l IH]; intros s; simpl; [done|].
  apply bind_not_Diverge; [done|]. intros. apply IH.
Qed.

(** A [for] loop that keeps an invariant under which its body ends, ends. *)
Lemma foldM_ends {A S : Type} (P : list A -> S -> Prop) (f : S -> A -> outcome S) l s :
  P [] s ->
  (forall done x rest s1, l = done ++ x :: rest -> P done s1 ->
    f s1 x <> Diverge /\ forall s2, f s1 x = Ret s2 -> P (done ++ [x]) s2) ->
  foldM f s l <> Diverge.
Proof.
  intros Hinit Hstep.
  assert (forall done rest s1, l = done ++ rest -> P done s1 -> foldM f s1 rest <> Diverge) as H.
  { intros done rest. revert done. induction rest as [|x rest IH]; intros done s1 -> HP; simpl; [discriminate|].
    destruct (Hstep done x rest s1 eq_refl HP) as [Hd HP2].
    apply bind_not_Diverge; [exact Hd|]. intros s2 Hs2.
    apply (IH (done ++ [x])); [by rewrite <-app_assoc|by apply HP2]. }
  by apply (H [] l).
Qed.

Lemma mapM_out_Ret {A B : Type} (f : A -> outcome B) l ys :
  mapM_out f l = Ret ys -> Forall2 (fun x y => f x = Ret y) l ys.
Proof.
  revert ys. induction l as [|x l IH]; intros ys; simpl; [intros [= <-]; constructor|].
  intros H. apply bind_Ret in H as (y & Hy & H). apply bind_Ret in H as (zs & Hzs & [= <-]).
  constructor; [done|]. apply IH, Hzs.
Qed.

Lemma mapM_out_total {A B : Type} (f : A -> outcome B) (g : A -> B) l :
  (forall x, x ∈ l -> f x = Ret (g x)) -> mapM_out f l = Ret (g <$> l).
Proof.
  induction l as [|x l IH]; intros Hf; simpl; [done|].
  rewrite Hf by set_solver. simpl. rewrite IH by set_solver. done.
Qed.

(** ** Refinement between profiles is preserved by the combinators *)

Lemma refines_refl {A : Type} (m : outcome A) : refines m m.
Proof. by intros a. Qed.

Lemma refines_Panic {A : Type} (m : outcome A) : refines Panic m.
Proof. by intros a. Qed.

Lemma refines_bind {A B : Type} (m n : outcome A) (f g : A -> outcome B) :
  refines m n -> (forall a, refines (f a) (g a)) -> refines (m ≫= f) (n ≫= g).
Proof.
  intros Hmn Hfg b (a & Hm & Hf)%bind_Ret. apply bind_Ret. exists a.
  split; [by apply Hmn|by apply Hfg].
Qed.

Lemma refines_foldM {A S : Type} (f g : S -> A -> outcome S) l s :
  (forall s x, refines (f s x) (g s x)) -> refines (foldM f s l) (foldM g s l).
Proof.
  intros Hfg. revert s. induction l as [|x l IH]; intros s; simpl; [apply refines_refl|].
  apply refines_bind; [done|]. intros. apply IH.
Qed.

Create HintDb refine.
Create Rewrite HintDb outcome.
#[export] Hint Resolve refines_refl refines_Panic refines_bind refines_foldM : refine.
#[export] Hint Rewrite @index_Ret @update_Ret @slice_Ret @slice_from_Ret : outcome.

(** ** Tactics *)

(** Invert hypotheses saying that a computation returned. *)
Ltac inv_ret :=
  repeat match goal with
  | H : Ret _ = Ret _ |- _ => injection H as H; try subst
  | H : Ok _ = Ok _ |- _ => injection H as H; try subst
  | H : Err _ = Err _ |- _ => injection H as H; try subst
  | H : Ok _ = Err _ |- _ => discriminate H
  | H : Err _ = Ok _ |- _ => discriminate H
  | H : Panic = Ret _ |- _ => discriminate H
  | H : Diverge = Ret _ |- _ => discriminate H
  | H : mret _ = Ret _ |- _ => unfold mret, outcome_ret in H
  | H : (_ ≫= _) = Ret _ |- _ =>
      let a := fresh "v" in let Ha := fresh "Hv" in
      apply bind_Ret in H as (a & Ha & H)
  end.

(** Reduce the binds of computations known to return, and nothing else. *)
Ltac red_bind := cbn [mbind outcome_bind try_bind res_bind fmap outcome_fmap].

(** Give [lia] the quotient and remainder of a natural division. *)
Ltac nat_div a b :=
  pose proof (Nat.div_mod_eq a b); pose proof (Nat.mod_upper_bound a b).

(** Split every [&&] and boolean comparison in the context. *)
Ltac bool_hyps :=
  repeat match goal with
  | H : (_ && _)%bool = true |- _ => apply andb_true_iff in H as [? ?]
  | H : (_ || _)%bool = false |- _ => apply orb_false_iff in H as [? ?]
  | H : negb _ = true |- _ => apply negb_true_iff in H
  | H : negb _ = false |- _ => apply negb_false_iff in H
  | H : bool_decide _ = true |- _ => apply bool_decide_eq_true in H
  | H : bool_decide _ = false |- _ => apply bool_decide_eq_false in H
  end.
