(* ===== verification/RustInt.v ===== *)
(** * Machine integers: widths, wrap-around, checked operators, little-endian bytes. *)

From stdpp Require Import base list.
From Stdlib Require Import ZArith Lia.
From S2P Require Import Prelude.

Local Open Scope Z_scope.

(** A [w]-bit unsigned integer is a [Z] in [[0, 2^w)]. *)
Definition fits (w x : Z) : Prop := 0 <= x < 2 ^ w.

Definition fitsb (w x : Z) : bool := (0 <=? x) && (x <? 2 ^ w).

Definition umax (w : Z) : Z := 2 ^ w - 1.

(** [x as uW]: truncation to the low [w] bits. *)
Definition wrap (w x : Z) : Z := x mod 2 ^ w.

Definition wrapping_add (w a b : Z) : Z := wrap w (a + b).
Definition wrapping_sub (w a b : Z) : Z := wrap w (a - b).
Definition wrapping_mul (w a b : Z) : Z := wrap w (a * b).
Definition saturating_add (w a b : Z) : Z := Z.min (a + b) (umax w).
Definition saturating_sub (a b : Z) : Z := Z.max 0 (a - b).
Definition saturating_mul (w a b : Z) : Z := Z.min (a * b) (umax w).

(** The plain operators: a result that does not fit panics when the build
    checks overflow and wraps when it does not. *)
Definition arith `{Profile} (w x : Z) : outcome Z :=
  if fitsb w x then Ret x else if overflow_checks then Panic else Ret (wrap w x).

Definition uadd `{Profile} (w a b : Z) : outcome Z := arith w (a + b).
Definition usub `{Profile} (w a b : Z) : outcome Z := arith w (a - b).
Definition umul `{Profile} (w a b : Z) : outcome Z := arith w (a * b).

(** The operators of the signed types: [x] is the exact result. *)
Definition signed_fits (w x : Z) : Prop := - 2 ^ (w - 1) <= x < 2 ^ (w - 1).

Definition signed `{Profile} (w x : Z) : outcome Z :=
  if (- 2 ^ (w - 1) <=? x) && (x <? 2 ^ (w - 1)) then Ret x
  else if overflow_checks then Panic else Ret ((x + 2 ^ (w - 1)) mod 2 ^ w - 2 ^ (w - 1)).

(** [1 << n] at width [w]: a shift amount of [w] or more panics when checked,
    and is taken modulo [w] when not. *)
Definition ushl `{Profile} (w a n : Z) : outcome Z :=
  if (0 <=? n) && (n <? w) then Ret (wrap w (Z.shiftl a n))
  else if overflow_checks then Panic else Ret (wrap w (Z.shiftl a (n mod w))).

(** [a.div_ceil(b)]; division by zero panics in every profile. *)
Definition div_ceil (a b : Z) : outcome Z :=
  if b =? 0 then Panic else Ret (if a mod b =? 0 then a / b else a / b + 1).

(** [x.to_le_bytes()] for an [n]-byte integer. *)
Fixpoint to_le_bytes (n : nat) (x : Z) : list Z :=
  match n with
  | O => []
  | S n => x mod 256 :: to_le_bytes n (x / 256)
  end.

(** [uN::from_le_bytes(bytes)] *)
Fixpoint from_le_bytes (bs : list Z) : Z :=
  match bs with
  | [] => 0
  | b :: bs => b + 256 * from_le_bytes bs
  end.

(** [x.to_be_bytes()] and [uN::from_be_bytes] *)
Definition to_be_bytes (n : nat) (x : Z) : list Z := rev (to_le_bytes n x).
Definition from_be_bytes (bs : list Z) : Z := from_le_bytes (rev bs).

(** A byte string. *)
Definition bytes (l : list Z) : Prop := Forall (fits 8) l.

(** ** Lemmas *)

Lemma fitsb_spec w x : fitsb w x = true <-> fits w x.
Proof. unfold fitsb, fits. lia. Qed.

Lemma wrap_fits w x : 0 <= w -> fits w (wrap w x).
Proof. intros. unfold wrap, fits. apply Z.mod_pos_bound. apply Z.pow_pos_nonneg; lia. Qed.

Lemma wrap_id w x : fits w x -> wrap w x = x.
Proof. intros. apply Z.mod_small. done. Qed.

Lemma arith_fits `{Profile} w x : fits w x -> arith w x = Ret x.
Proof. intros Hf%fitsb_spec. unfold arith. by rewrite Hf. Qed.

Lemma signed_in `{Profile} w x : signed_fits w x -> signed w x = Ret x.
Proof. unfold signed_fits, signed. intros Hx. destruct (_ && _) eqn:E; [done|]. apply andb_false_iff in E as [E|E]; lia. Qed.

Lemma signed_out `{Profile} w x : ~ signed_fits w x -> signed w x = if overflow_checks then Panic else Ret ((x + 2 ^ (w - 1)) mod 2 ^ w - 2 ^ (w - 1)).
Proof. unfold signed_fits, signed. intros Hx. destruct (_ && _) eqn:E; [|done]. apply andb_true_iff in E as [E1 E2]. lia. Qed.

Lemma arith_not_Diverge `{Profile} w x : arith w x <> Diverge.
Proof. unfold arith. destruct (fitsb w x), overflow_checks; done. Qed.

Lemma arith_checked `{Profile} w x y :
  overflow_checks = true -> arith w x = Ret y -> fits w x /\ y = x.
Proof.
  unfold arith. intros ->. destruct (fitsb w x) eqn:E; [|done].
  apply fitsb_spec in E. intros. inv_ret. done.
Qed.

Lemma arith_Ret_fits `{Profile} w x y : 0 <= w -> arith w x = Ret y -> fits w y.
Proof.
  unfold arith. intros ?. destruct (fitsb w x) eqn:E.
  - apply fitsb_spec in E. intros. inv_ret. done.
  - destruct overflow_checks; intros; inv_ret. by apply wrap_fits.
Qed.

(** A build that checks overflow and returns agrees with every other build. *)
Lemma arith_refines (p q : Profile) w x :
  @overflow_checks p = true -> refines (@arith p w x) (@arith q w x).
Proof.
  intros Hp y Hy. apply arith_checked in Hy as [Hf ->]; [|done]. by apply arith_fits.
Qed.

Lemma ushl_refines (p q : Profile) w a n :
  @overflow_checks p = true -> refines (@ushl p w a n) (@ushl q w a n).
Proof.
  intros Hp y. unfold ushl. rewrite Hp. by destruct ((0 <=? n) && (n <? w)).
Qed.

#[export] Hint Resolve arith_refines ushl_refines : refine.

Lemma length_to_le_bytes n x : length (to_le_bytes n x) = n.
Proof. revert x. induction n; intros; simpl; auto. Qed.

Lemma length_to_be_bytes n x : length (to_be_bytes n x) = n.
Proof. unfold to_be_bytes. by rewrite length_rev, length_to_le_bytes. Qed.

Lemma to_le_bytes_bytes n x : bytes (to_le_bytes n x).
Proof.
  revert x. induction n; intros; simpl; constructor; [|apply IHn].
  unfold fits. change (2 ^ 8) with 256. apply Z.mod_pos_bound. lia.
Qed.

Lemma from_to_le_bytes n x : from_le_bytes (to_le_bytes n x) = x mod 2 ^ (8 * Z.of_nat n).
Proof.
  revert x. induction n as [|n IH]; intros x; simpl.
  - by rewrite Z.mod_1_r.
  - rewrite IH. replace (8 * Z.of_nat (S n)) with (8 + 8 * Z.of_nat n) by lia.
    rewrite Z.pow_add_r by lia. change (2 ^ 8) with 256.
    pose proof (Z.pow_pos_nonneg 2 (8 * Z.of_nat n)) as Hp.
    rewrite Z.rem_mul_r by lia. done.
Qed.

Lemma from_to_le_bytes_fits n x :
  fits (8 * Z.of_nat n) x -> from_le_bytes (to_le_bytes n x) = x.
Proof. intros. rewrite from_to_le_bytes. by apply Z.mod_small. Qed.

Lemma from_le_bytes_fits bs : bytes bs -> fits (8 * Z.of_nat (length bs)) (from_le_bytes bs).
Proof.
  induction 1 as [|b bs Hb Hbs IH]; simpl; [unfold fits; simpl; lia|].
  unfold fits in *. replace (8 * Z.of_nat (S (length bs))) with (8 + 8 * Z.of_nat (length bs)) by lia.
  rewrite Z.pow_add_r by lia. change (2 ^ 8) with 256 in *. lia.
Qed.

Lemma to_from_le_bytes bs : bytes bs -> to_le_bytes (length bs) (from_le_bytes bs) = bs.
Proof.
  induction 1 as [|b bs Hb Hbs IH]; simpl; [done|].
  unfold fits in Hb. change (2 ^ 8) with 256 in Hb.
  replace (b + 256 * from_le_bytes bs) with (b + from_le_bytes bs * 256) by lia.
  rewrite Z_mod_plus_full, Z.mod_small by lia.
  rewrite Z.div_add, Z.div_small, Z.add_0_l by lia. by rewrite IH.
Qed.

Lemma bytes_app l1 l2 : bytes (l1 ++ l2) <-> bytes l1 /\ bytes l2.
Proof. apply Forall_app. Qed.

Lemma bytes_take n l : bytes l -> bytes (take n l).
Proof. apply Forall_take. Qed.

Lemma bytes_drop n l : bytes l -> bytes (drop n l).
Proof. apply Forall_drop. Qed.

Create HintDb bytes.
Create Rewrite HintDb len.
#[export] Hint Resolve to_le_bytes_bytes bytes_take bytes_drop : bytes.
#[export] Hint Rewrite length_to_le_bytes length_to_be_bytes : len.
#[export] Hint Rewrite @length_app @length_take @length_drop : len.

(** Bit operations stay within the width. *)
Lemma fits_log2 w x : 0 < w -> (fits w x <-> 0 <= x /\ Z.log2 x < w).
Proof.
  intros Hw. unfold fits. destruct (decide (x <= 0)) as [Hx|Hx].
  - rewrite Z.log2_nonpos by lia. pose proof (Z.pow_pos_nonneg 2 w). lia.
  - rewrite Z.log2_lt_pow2 by lia. lia.
Qed.

Lemma lxor_fits w a b : 0 < w -> fits w a -> fits w b -> fits w (Z.lxor a b).
Proof.
  intros Hw. rewrite !fits_log2 by done. intros [Ha Hla] [Hb Hlb]. split.
  - apply Z.lxor_nonneg. tauto.
  - pose proof (Z.log2_lxor a b Ha Hb). lia.
Qed.

Lemma lor_fits w a b : 0 < w -> fits w a -> fits w b -> fits w (Z.lor a b).
Proof.
  intros Hw. rewrite !fits_log2 by done. intros [Ha Hla] [Hb Hlb]. split.
  - apply Z.lor_nonneg. tauto.
  - rewrite Z.log2_lor by done. lia.
Qed.

Lemma land_fits w a b : 0 < w -> fits w a -> 0 <= b -> fits w (Z.land a b).
Proof.
  intros Hw. rewrite !fits_log2 by done. intros [Ha Hla] Hb. split.
  - apply Z.land_nonneg. tauto.
  - pose proof (Z.log2_land a b Ha Hb). lia.
Qed.

Lemma shiftr_fits w a n : 0 <= n -> fits w a -> fits w (Z.shiftr a n).
Proof.
  unfold fits. intros Hn Ha. rewrite Z.shiftr_div_pow2 by done.
  pose proof (Z.pow_pos_nonneg 2 n). split; [apply Z.div_pos; lia|].
  apply Z.le_lt_trans with a; [|lia]. apply Z.div_le_upper_bound; [lia|]. nia.
Qed.

Lemma wrapping_mul_fits w a b : 0 <= w -> fits w (wrapping_mul w a b).
Proof. apply wrap_fits. Qed.

Lemma wrapping_add_fits w a b : 0 <= w -> fits w (wrapping_add w a b).
Proof. apply wrap_fits. Qed.

Lemma wrapping_sub_fits w a b : 0 <= w -> fits w (wrapping_sub w a b).
Proof. apply wrap_fits. Qed.

Create HintDb fits.
#[export] Hint Resolve wrap_fits lxor_fits lor_fits shiftr_fits
  wrapping_mul_fits wrapping_add_fits wrapping_sub_fits : fits.
#[export] Hint Extern 1 (_ < _)%Z => lia : fits.
#[export] Hint Extern 1 (_ <= _)%Z => lia : fits.

(** ** Reading fields one after the other

    [rest_at bs o r]: the bytes of [bs] from offset [o] on are [r]. *)
Definition rest_at (bs : list Z) (o : nat) (r : list Z) : Prop :=
  (o <= length bs)%nat /\ drop o bs = r.

Lemma rest_at_0 bs : rest_at bs 0 bs.
Proof. split; [lia|done]. Qed.

Lemma rest_at_length bs o r : rest_at bs o r -> length bs = (o + length r)%nat.
Proof. intros [Ho <-]. rewrite length_drop. lia. Qed.

Lemma rest_at_app bs o m r : rest_at bs o (m ++ r) -> rest_at bs (o + length m) r.
Proof.
  intros H. pose proof (rest_at_length _ _ _ H) as Hl. rewrite length_app in Hl. destruct H as [Ho E].
  split; [lia|]. rewrite <-drop_drop. rewrite E. apply drop_app_length.
Qed.

Lemma rest_at_slice bs o m r k :
  rest_at bs o (m ++ r) -> k = (o + length m)%nat -> slice bs o k = Ret m.
Proof.
  intros H ->. pose proof (rest_at_length _ _ _ H) as Hl. rewrite length_app in Hl. destruct H as [Ho E].
  apply slice_Ret. split_and!; [lia|lia|]. rewrite E, Nat.add_comm, Nat.add_sub. by rewrite take_app_length.
Qed.

Lemma rest_at_index bs o b r : rest_at bs o (b :: r) -> index bs o = Ret b.
Proof.
  intros [Ho E]. apply index_Ret. rewrite <-(Nat.add_0_r o), <-lookup_drop, E. done.
Qed.
