(* ===== verification/RustStr.v ===== *)
(** * Rust strings: the [str] methods the code calls, UTF-8 validity, decimal parsing and printing.

    A [str] is the sequence of its UTF-8 bytes, held as a Rocq [string] of
    8-bit characters.  Every pattern the code searches for is ASCII, and an
    ASCII byte never occurs inside a multi-byte UTF-8 sequence, so working on
    bytes and working on [char]s agree for the methods below. *)

From stdpp Require Import base list strings.
From Stdlib Require Import ZArith Lia Ascii String.
From S2P Require Import Prelude RustInt.

Local Open Scope string_scope.
Local Open Scope Z_scope.

Fixpoint slen (s : string) : nat :=
  match s with "" => O | String _ s => S (slen s) end.

Fixpoint stake (n : nat) (s : string) : string :=
  match n, s with
  | S n, String c s => String c (stake n s)
  | _, _ => ""
  end.

Fixpoint sdrop (n : nat) (s : string) : string :=
  match n, s with
  | S n, String _ s => sdrop n s
  | _, _ => s
  end.

Definition ascii_Z (c : ascii) : Z := Z.of_N (N_of_ascii c).
Definition Z_ascii (b : Z) : ascii := ascii_of_N (Z.to_N b).

(** [s.as_bytes()] *)
Fixpoint as_bytes (s : string) : list Z :=
  match s with "" => [] | String c s => ascii_Z c :: as_bytes s end.

Fixpoint of_bytes (l : list Z) : string :=
  match l with [] => "" | b :: l => String (Z_ascii b) (of_bytes l) end.

(** [core::str::from_utf8]'s acceptance: the well-formed byte sequences of
    the Unicode standard (table 3-7). *)
Definition in_range (lo hi b : Z) : bool := (lo <=? b) && (b <=? hi).
Definition cont (b : Z) : bool := in_range 0x80 0xBF b.

Fixpoint utf8_valid (l : list Z) : bool :=
  match l with
  | [] => true
  | b0 :: l0 =>
    if b0 <? 0x80 then utf8_valid l0 else
    match l0 with
    | [] => false
    | b1 :: l1 =>
      if in_range 0xC2 0xDF b0 then cont b1 && utf8_valid l1 else
      match l1 with
      | [] => false
      | b2 :: l2 =>
        if in_range 0xE0 0xEF b0 then
          (if b0 =? 0xE0 then in_range 0xA0 0xBF b1
           else if b0 =? 0xED then in_range 0x80 0x9F b1 else cont b1)
          && cont b2 && utf8_valid l2
        else match l2 with
        | [] => false
        | b3 :: l3 =>
          in_range 0xF0 0xF4 b0
          && (if b0 =? 0xF0 then in_range 0x90 0xBF b1
              else if b0 =? 0xF4 then in_range 0x80 0x8F b1 else cont b1)
          && cont b2 && cont b3 && utf8_valid l3
        end
      end
    end
  end.

(** [String::from_utf8] *)
Definition from_utf8 (l : list Z) : option string :=
  if utf8_valid l then Some (of_bytes l) else None.

(** The strings a Rust [String] can hold. *)
Definition is_str (s : string) : Prop := utf8_valid (as_bytes s) = true.

(** [s.contains(c)] for a character pattern. *)
Fixpoint contains_char (c : ascii) (s : string) : bool :=
  match s with "" => false | String d s => if Ascii.eqb c d then true else contains_char c s end.

Fixpoint forall_char (f : ascii -> bool) (s : string) : bool :=
  match s with "" => true | String d s => f d && forall_char f s end.

Definition is_ascii_digit (c : ascii) : bool := in_range 48 57 (ascii_Z c).

Definition is_empty (s : string) : bool := match s with "" => true | _ => false end.

(** [s.strip_prefix(p)], [s.starts_with(p)] *)
Fixpoint strip_prefix (p s : string) : option string :=
  match p, s with
  | "", _ => Some s
  | String c p, String d s => if Ascii.eqb c d then strip_prefix p s else None
  | String _ _, "" => None
  end.

Definition starts_with (p s : string) : bool :=
  match strip_prefix p s with Some _ => true | None => false end.

(** [s.strip_suffix(p)], [s.ends_with(p)] *)
Definition strip_suffix (p s : string) : option string :=
  let n := (slen s - slen p)%nat in
  if (slen p <=? slen s)%nat && (sdrop n s =? p)%string then Some (stake n s) else None.

Definition ends_with (p s : string) : bool :=
  match strip_suffix p s with Some _ => true | None => false end.

(** [s.trim_end_matches(p)]: strip the suffix as long as it occurs.  Every
    round shortens the string, so its length is fuel enough. *)
Fixpoint trim_end_fuel (n : nat) (p s : string) : string :=
  match n with
  | O => s
  | S n => match strip_suffix p s with Some t => trim_end_fuel n p t | None => s end
  end.

Definition trim_end_matches (p s : string) : string := trim_end_fuel (slen s) p s.

(** [s.split(c).collect()] *)
Fixpoint split (c : ascii) (s : string) : list string :=
  match s with
  | "" => [""]
  | String d s =>
    if Ascii.eqb c d then "" :: split c s
    else match split c s with
         | [] => [String d ""]
         | w :: ws => String d w :: ws
         end
  end.

(** [s.split_once(c)] *)
Fixpoint split_once (c : ascii) (s : string) : option (string * string) :=
  match s with
  | "" => None
  | String d s =>
    if Ascii.eqb c d then Some ("", s)
    else match split_once c s with
         | None => None
         | Some (a, b) => Some (String d a, b)
         end
  end.

(** [s.splitn(2, c).collect()] *)
Definition splitn2 (c : ascii) (s : string) : list string :=
  match split_once c s with None => [s] | Some (a, b) => [a; b] end.

(** [s.rsplit_once(c)]: split at the last occurrence. *)
Fixpoint rsplit_once (c : ascii) (s : string) : option (string * string) :=
  match s with
  | "" => None
  | String d s =>
    match rsplit_once c s with
    | Some (a, b) => Some (String d a, b)
    | None => if Ascii.eqb c d then Some ("", s) else None
    end
  end.

(** [s.rsplitn(2, c).collect()]: the pieces come last first. *)
Definition rsplitn2 (c : ascii) (s : string) : list string :=
  match rsplit_once c s with None => [s] | Some (a, b) => [b; a] end.

(** [c.to_ascii_lowercase()], [s.to_ascii_lowercase()] *)
Definition lower_char (c : ascii) : ascii :=
  if in_range 65 90 (ascii_Z c) then Z_ascii (ascii_Z c + 32) else c.

Fixpoint to_ascii_lowercase (s : string) : string :=
  match s with "" => "" | String c s => String (lower_char c) (to_ascii_lowercase s) end.

(** [s.replace(c, d)] for single-character patterns. *)
Fixpoint replace_char (c : ascii) (d : ascii) (s : string) : string :=
  match s with
  | "" => ""
  | String x s => String (if Ascii.eqb c x then d else x) (replace_char c d s)
  end.

(** [s.parse::<uW>()]: an optional [+], then one or more digits, below [2^W].
    The code's accumulator only grows, so overflowing midway and the whole
    value not fitting are the same. *)
Fixpoint digits_value (acc : Z) (s : string) : option Z :=
  match s with
  | "" => Some acc
  | String c s => if is_ascii_digit c then digits_value (10 * acc + (ascii_Z c - 48)) s else None
  end.

Definition parse_digits (w : Z) (s : string) : option Z :=
  if is_empty s then None
  else match digits_value 0 s with
       | Some v => if v <? 2 ^ w then Some v else None
       | None => None
       end.

Definition parse_uint (w : Z) (s : string) : option Z :=
  match s with
  | String "+" s => parse_digits w s
  | _ => parse_digits w s
  end.

(** [format!("{x}")] for a non-negative integer; 20 digits hold any [u64]. *)
Fixpoint dec_fuel (n : nat) (x : Z) (acc : string) : string :=
  match n with
  | O => acc
  | S n =>
    let acc := String (Z_ascii (48 + x mod 10)) acc in
    if x / 10 =? 0 then acc else dec_fuel n (x / 10) acc
  end.

Definition dec (x : Z) : string := dec_fuel 20 x "".

Definition sjoin (sep : string) (l : list string) : string := String.concat sep l.

(** ** Lemmas *)

#[global] Arguments String.append !s1 s2 : simpl nomatch.

Create HintDb strs.

Lemma slen_app s t : slen (s ++ t) = (slen s + slen t)%nat.
Proof. induction s; simpl; auto. Qed.

Lemma sapp_nil_r s : s ++ "" = s.
Proof. induction s; simpl; congruence. Qed.

Lemma sapp_assoc s t u : s ++ (t ++ u) = (s ++ t) ++ u.
Proof. induction s; simpl; congruence. Qed.

Lemma stake_app s t : stake (slen s) (s ++ t) = s.
Proof. induction s; simpl; congruence. Qed.

Lemma sdrop_app s t : sdrop (slen s) (s ++ t) = t.
Proof. induction s; simpl; congruence. Qed.

Lemma stake_sdrop n s : stake n s ++ sdrop n s = s.
Proof. revert s. induction n; intros [|c s]; simpl; try done. by rewrite IHn. Qed.

Lemma sapp_inj_r s s' t : s ++ t = s' ++ t -> s = s'.
Proof.
  intros H. assert (slen s = slen s') as Hl.
  { apply (f_equal slen) in H. rewrite !slen_app in H. lia. }
  apply (f_equal (stake (slen s))) in H. rewrite stake_app in H.
  rewrite Hl, stake_app in H. done.
Qed.

Lemma strip_suffix_Some p s t : strip_suffix p s = Some t <-> s = t ++ p.
Proof.
  unfold strip_suffix. split.
  - destruct (_ && _)%bool eqn:E; [|done]. intros [= <-].
    apply andb_true_iff in E as [_ E%String.eqb_eq].
    rewrite <-(stake_sdrop (slen s - slen p) s) at 1. by rewrite E.
  - intros ->. rewrite slen_app.
    replace (slen t + slen p - slen p)%nat with (slen t) by lia.
    rewrite stake_app, sdrop_app, String.eqb_refl.
    destruct (Nat.leb_spec (slen p) (slen t + slen p)); [done|lia].
Qed.

Lemma ends_with_app p t : ends_with p (t ++ p) = true.
Proof.
  unfold ends_with. by rewrite (proj2 (strip_suffix_Some p (t ++ p) t) eq_refl).
Qed.

Lemma strip_prefix_Some p s t : strip_prefix p s = Some t <-> s = p ++ t.
Proof.
  revert s. induction p as [|c p IH]; intros [|d s]; simpl; [naive_solver..|].
  destruct (Ascii.eqb_spec c d) as [->|]; rewrite ?IH; naive_solver.
Qed.

Lemma starts_with_spec p s : starts_with p s = true <-> exists t, s = p ++ t.
Proof.
  unfold starts_with. destruct (strip_prefix p s) as [t|] eqn:E.
  - apply strip_prefix_Some in E. naive_solver.
  - split; [done|]. intros [t Ht]. apply strip_prefix_Some in Ht. congruence.
Qed.

(** ** Bytes and strings *)

Lemma ascii_Z_fits c : fits 8 (ascii_Z c).
Proof.
  unfold ascii_Z, fits. pose proof (N_ascii_bounded c). change (2 ^ 8) with 256. lia.
Qed.

Lemma Z_ascii_Z c : Z_ascii (ascii_Z c) = c.
Proof. unfold Z_ascii, ascii_Z. rewrite N2Z.id. apply ascii_N_embedding. Qed.

Lemma ascii_Z_ascii b : fits 8 b -> ascii_Z (Z_ascii b) = b.
Proof.
  intros Hb. unfold fits in Hb. change (2 ^ 8) with 256 in Hb.
  unfold Z_ascii, ascii_Z. rewrite N_ascii_embedding by lia. lia.
Qed.

Lemma as_bytes_bytes s : bytes (as_bytes s).
Proof. induction s as [|c s IH]; cbn [as_bytes]; constructor; [apply ascii_Z_fits|done]. Qed.

Lemma of_as_bytes s : of_bytes (as_bytes s) = s.
Proof. induction s as [|c s IH]; cbn [as_bytes of_bytes]; [done|]. by rewrite IH, Z_ascii_Z. Qed.

Lemma as_of_bytes l : bytes l -> as_bytes (of_bytes l) = l.
Proof.
  induction 1 as [|b l Hb Hl IH]; cbn [as_bytes of_bytes]; [done|]. by rewrite IH, ascii_Z_ascii.
Qed.

Lemma from_utf8_as_bytes s : is_str s -> from_utf8 (as_bytes s) = Some s.
Proof. intros Hs. unfold from_utf8. by rewrite Hs, of_as_bytes. Qed.

Lemma from_utf8_Some l s : bytes l -> from_utf8 l = Some s -> is_str s /\ as_bytes s = l.
Proof.
  intros Hl. unfold from_utf8, is_str. destruct (utf8_valid l) eqn:E; [|done].
  intros [= <-]. by rewrite as_of_bytes.
Qed.

Lemma length_as_bytes s : Datatypes.length (as_bytes s) = slen s.
Proof. induction s as [|c s IH]; cbn [as_bytes Datatypes.length slen]; [done|]. by rewrite IH. Qed.

#[export] Hint Resolve as_bytes_bytes : bytes.

(** ** Splitting and matching concatenations *)

Lemma contains_char_app c s t : contains_char c (s ++ t) = contains_char c s || contains_char c t.
Proof. induction s as [|d s IH]; simpl; [done|]. by destruct (Ascii.eqb c d). Qed.

Lemma split_app c a b : contains_char c a = false -> split c (a ++ String c b) = a :: split c b.
Proof.
  induction a as [|d a IH]; simpl; [by rewrite Ascii.eqb_refl|].
  destruct (Ascii.eqb c d) eqn:E; [done|]. intros Ha. by rewrite IH.
Qed.

Lemma split_none c a : contains_char c a = false -> split c a = [a].
Proof.
  induction a as [|d a IH]; simpl; [done|].
  destruct (Ascii.eqb c d); [done|]. intros Ha. by rewrite IH.
Qed.

Lemma split_once_app c a b : contains_char c a = false -> split_once c (a ++ String c b) = Some (a, b).
Proof.
  induction a as [|d a IH]; simpl; [by rewrite Ascii.eqb_refl|].
  destruct (Ascii.eqb c d) eqn:E; [done|]. intros Ha. by rewrite IH.
Qed.

Lemma split_once_none c a : contains_char c a = false <-> split_once c a = None.
Proof.
  induction a as [|d a IH]; simpl; [done|]. destruct (Ascii.eqb c d); [done|].
  rewrite IH. by destruct (split_once c a) as [[??]|].
Qed.

Lemma split_once_Some c s a b : split_once c s = Some (a, b) -> s = a ++ String c b /\ contains_char c a = false.
Proof.
  revert a. induction s as [|d s IH]; intros a; simpl; [done|].
  destruct (Ascii.eqb c d) eqn:E.
  - apply Ascii.eqb_eq in E as ->. by intros [= <- <-].
  - destruct (split_once c s) as [[a' b']|]; [|done]. intros [= <- ->].
    destruct (IH a' eq_refl) as [-> Ha]. simpl. by rewrite E.
Qed.

Lemma rsplit_once_none c a : contains_char c a = false -> rsplit_once c a = None.
Proof.
  induction a as [|d a IH]; simpl; [done|].
  destruct (Ascii.eqb c d); [done|]. intros Ha. by rewrite IH.
Qed.

Lemma rsplit_once_app c a b : contains_char c b = false -> rsplit_once c (a ++ String c b) = Some (a, b).
Proof.
  intros Hb. induction a as [|d a IH]; simpl.
  - by rewrite rsplit_once_none, Ascii.eqb_refl.
  - by rewrite IH.
Qed.

Lemma sdrop_app_le n s t : (n <= slen s)%nat -> sdrop n (s ++ t) = sdrop n s ++ t.
Proof. revert s. induction n as [|n IH]; intros [|c s] Hn; simpl in *; [done..|lia|]. apply IH. lia. Qed.

Lemma sdrop_app_ge n s t : (slen s <= n)%nat -> sdrop n (s ++ t) = sdrop (n - slen s) t.
Proof. revert n. induction s as [|c s IH]; intros [|n] Hn; simpl in *; [done..|lia|]. apply IH. lia. Qed.

Lemma slen_sdrop n s : slen (sdrop n s) = (slen s - n)%nat.
Proof. revert s. induction n as [|n IH]; intros [|c s]; simpl; auto. Qed.

(** A suffix test that is decided by the known end of the string. *)
Lemma ends_with_long p s t : (slen p <= slen t)%nat -> ends_with p (s ++ t) = ends_with p t.
Proof.
  intros Hl. unfold ends_with, strip_suffix. rewrite slen_app.
  replace (slen p <=? slen s + slen t)%nat with true by (symmetry; apply Nat.leb_le; lia).
  replace (slen p <=? slen t)%nat with true by (symmetry; by apply Nat.leb_le).
  rewrite sdrop_app_ge by lia. replace (slen s + slen t - slen p - slen s)%nat with (slen t - slen p)%nat by lia.
  simpl. by destruct (sdrop (slen t - slen p) t =? p)%string.
Qed.

Lemma ends_with_short p s t :
  (slen t <= slen p)%nat -> (sdrop (slen p - slen t) p =? t)%string = false -> ends_with p (s ++ t) = false.
Proof.
  intros Hl Hne. unfold ends_with. destruct (strip_suffix p (s ++ t)) as [u|] eqn:E; [|done].
  apply strip_suffix_Some in E. exfalso.
  assert (slen u + slen p = slen s + slen t)%nat as Hlen by (by rewrite <-!slen_app, E).
  assert (sdrop (slen s) (u ++ p) = t) as Hd by (rewrite <-E; apply sdrop_app).
  rewrite sdrop_app_ge in Hd by lia. replace (slen s - slen u)%nat with (slen p - slen t)%nat in Hd by lia.
  rewrite Hd, String.eqb_refl in Hne. done.
Qed.

Lemma ends_with_false p s : ends_with p s = false <-> strip_suffix p s = None.
Proof. unfold ends_with. by destruct (strip_suffix p s). Qed.

(** A string without one of the pattern's characters does not end with it. *)
Lemma ends_with_not_contains c p s :
  contains_char c p = true -> contains_char c s = false -> ends_with p s = false.
Proof.
  intros Hp Hs. apply ends_with_false. destruct (strip_suffix p s) as [t|] eqn:E; [|done].
  apply strip_suffix_Some in E as ->. rewrite contains_char_app, Hp, orb_true_r in Hs. done.
Qed.

Lemma trim_end_matches_app p s : p <> "" -> ends_with p s = false -> trim_end_matches p (s ++ p) = s.
Proof.
  intros Hp Hs. unfold trim_end_matches. rewrite slen_app.
  destruct p as [|c p]; [done|]. simpl slen. rewrite Nat.add_succ_r. simpl.
  rewrite (proj2 (strip_suffix_Some (String c p) (s ++ String c p) s) eq_refl).
  apply ends_with_false in Hs. destruct (slen s + slen p)%nat; simpl; [done|]. by rewrite Hs.
Qed.

(** ** Decimal numbers *)

Lemma ascii_Z_digit x : ascii_Z (Z_ascii (48 + x mod 10)) = 48 + x mod 10.
Proof. apply ascii_Z_ascii. unfold fits. pose proof (Z.mod_pos_bound x 10). lia. Qed.

Lemma dec_fuel_digits n x acc :
  forall_char is_ascii_digit acc = true -> forall_char is_ascii_digit (dec_fuel n x acc) = true.
Proof.
  revert x acc. induction n as [|n IH]; intros x acc Hacc; cbn [dec_fuel]; [done|].
  assert (forall_char is_ascii_digit (String (Z_ascii (48 + x mod 10)) acc) = true) as Hs.
  { cbn [forall_char]. rewrite Hacc, andb_true_r. unfold is_ascii_digit, in_range. rewrite ascii_Z_digit.
    pose proof (Z.mod_pos_bound x 10). apply andb_true_iff. rewrite !Z.leb_le. lia. }
  destruct (x / 10 =? 0); [done|by apply IH].
Qed.

Lemma dec_fuel_value n x acc :
  0 <= x < 10 ^ Z.of_nat n ->
  (0 < n)%nat -> digits_value 0 (dec_fuel n x acc) = digits_value x acc.
Proof.
  revert x acc. induction n as [|n IH]; intros x acc Hx Hn; [lia|]. cbn [dec_fuel].
  assert (forall a, digits_value a (String (Z_ascii (48 + x mod 10)) acc) = digits_value (10 * a + x mod 10) acc) as Hd.
  { intros a. cbn [digits_value]. unfold is_ascii_digit, in_range. rewrite ascii_Z_digit.
    pose proof (Z.mod_pos_bound x 10).
    replace ((48 <=? 48 + x mod 10) && (48 + x mod 10 <=? 57)) with true
      by (symmetry; apply andb_true_iff; rewrite !Z.leb_le; lia).
    f_equal. lia. }
  pose proof (Z.div_mod x 10). destruct (Z.eqb_spec (x / 10) 0) as [E|E].
  - rewrite Hd. f_equal. lia.
  - rewrite Nat2Z.inj_succ, Z.pow_succ_r in Hx by lia.
    destruct n as [|n]; [exfalso; apply E; apply Z.div_small; lia|].
    rewrite IH, Hd; [f_equal; lia| |lia].
    split; [apply Z.div_pos; lia|apply Z.div_lt_upper_bound; lia].
Qed.

Lemma dec_not_empty x : exists c s, dec x = String c s.
Proof.
  assert (forall n x c acc, exists d s, dec_fuel n x (String c acc) = String d s) as H.
  { induction n as [|n IH]; intros y c acc; cbn [dec_fuel]; [eauto|]. destruct (y / 10 =? 0); eauto. }
  unfold dec. cbn [dec_fuel]. destruct (x / 10 =? 0); eauto. apply (H 19%nat).
Qed.

Lemma digit_not c d : is_ascii_digit c = false -> is_ascii_digit d = true -> Ascii.eqb c d = false.
Proof. intros Hc Hd. destruct (Ascii.eqb c d) eqn:E; [|done]. apply Ascii.eqb_eq in E. congruence. Qed.

Lemma digits_contain_no c s :
  is_ascii_digit c = false -> forall_char is_ascii_digit s = true -> contains_char c s = false.
Proof.
  intros Hc. induction s as [|d s IH]; cbn [forall_char contains_char]; [done|].
  intros [Hd Hs]%andb_true_iff. rewrite (digit_not c d Hc Hd). by apply IH.
Qed.

Lemma dec_digits x : forall_char is_ascii_digit (dec x) = true.
Proof. by apply dec_fuel_digits. Qed.

Lemma dec_contains c x : is_ascii_digit c = false -> contains_char c (dec x) = false.
Proof. intros. apply digits_contain_no; [done|apply dec_digits]. Qed.

(** Printing then parsing an integer of a width of at most 64 bits. *)
Lemma parse_digits_dec w x : w <= 64 -> fits w x -> parse_digits w (dec x) = Some x.
Proof.
  intros Hw Hx. unfold parse_digits. destruct (dec_not_empty x) as (c & s & Hcs). rewrite Hcs. cbn [is_empty]. rewrite <-Hcs.
  unfold dec. rewrite dec_fuel_value; [|split; [apply Hx|]|lia].
  - cbn [digits_value]. by rewrite (proj2 (Z.ltb_lt _ _) (proj2 Hx)).
  - apply Z.lt_le_trans with (2 ^ 64); [|by vm_compute].
    apply Z.lt_le_trans with (2 ^ w); [apply Hx|]. by apply Z.pow_le_mono_r.
Qed.

Lemma parse_dec w x : w <= 64 -> fits w x -> parse_uint w (dec x) = Some x.
Proof.
  intros Hw Hx. pose proof (parse_digits_dec w x Hw Hx) as H.
  unfold parse_uint. destruct (dec_not_empty x) as (c & s & Hcs). pose proof (dec_digits x) as Hd.
  rewrite Hcs in Hd, H |- *. cbn [forall_char] in Hd. apply andb_true_iff in Hd as [Hc _].
  assert (c <> "+"%char) as Hne by (intros ->; done).
  destruct c as [[][][][][][][][]]; try done. 
Qed.

#[export] Hint Resolve dec_contains : strs.

(** ** Paths: [Path::join], where an absolute operand replaces the base *)
Definition path_join (base p : string) : string :=
  match p with
  | String "/" _ => p
  | _ => if is_empty base || ends_with "/" base then base ++ p else base ++ "/" ++ p
  end.
