(* ===== verification/XxHash.v ===== *)
(** * The XxHash3_64 hasher of [crates/twox-hash/src/lib.rs].

    Bytes are lists of 8-bit integers and every slice or array access is
    checked, so the model says exactly on which inputs the hasher panics. *)

From stdpp Require Import base list sets.
From Stdlib Require Import ZArith Lia.
From S2P Require Import Prelude RustInt.

Local Open Scope Z_scope.

Definition PRIME64_1 : Z := 0x9E3779B185EBCA87.
Definition PRIME64_2 : Z := 0xC2B2AE3D27D4EB4F.
Definition PRIME_MX1 : Z := 0x165667919E3779F9.
Definition CUTOFF : nat := 240.
Definition DEFAULT_SEED : Z := 0.
Definition DEFAULT_SECRET_LENGTH : nat := 192.

Definition DEFAULT_SECRET_RAW : list Z := [
  0xb8; 0xfe; 0x6c; 0x39; 0x23; 0xa4; 0x4b; 0xbe; 0x7c; 0x01; 0x81; 0x2c; 0xf7; 0x21; 0xad; 0x1c;
  0xde; 0xd4; 0x6d; 0xe9; 0x83; 0x90; 0x97; 0xdb; 0x72; 0x40; 0xa4; 0xa4; 0xb7; 0xb3; 0x67; 0x1f;
  0xcb; 0x79; 0xe6; 0x4e; 0xcc; 0xc0; 0xe5; 0x78; 0x82; 0x5a; 0xd0; 0x7d; 0xcc; 0xff; 0x72; 0x21;
  0xb8; 0x08; 0x46; 0x74; 0xf7; 0x43; 0x24; 0x8e; 0xe0; 0x35; 0x90; 0xe6; 0x81; 0x3a; 0x26; 0x4c;
  0x3c; 0x28; 0x52; 0xbb; 0x91; 0xc3; 0x00; 0xcb; 0x88; 0xd0; 0x65; 0x8b; 0x1b; 0x53; 0x2e; 0xa3;
  0x71; 0x64; 0x48; 0x97; 0xa2; 0x0d; 0xf9; 0x4e; 0x38; 0x19; 0xef; 0x46; 0xa9; 0xde; 0xac; 0xd8;
  0xa8; 0xfa; 0x76; 0x3f; 0xe3; 0x9c; 0x34; 0x3f; 0xf9; 0xdc; 0xbb; 0xc7; 0xc7; 0x0b; 0x4f; 0x1d;
  0x8a; 0x51; 0xe0; 0x4b; 0xcd; 0xb4; 0x59; 0x31; 0xc8; 0x9f; 0x7e; 0xc9; 0xd9; 0x78; 0x73; 0x64;
  0xea; 0xc5; 0xac; 0x83; 0x34; 0xd3; 0xeb; 0xc3; 0xc5; 0x81; 0xa0; 0xff; 0xfa; 0x13; 0x63; 0xeb;
  0x17; 0x0d; 0xdd; 0x51; 0xb7; 0xf0; 0xda; 0x49; 0xd3; 0x16; 0x55; 0x26; 0x29; 0xd4; 0x68; 0x9e;
  0x2b; 0x16; 0xbe; 0x58; 0x7d; 0x47; 0xa1; 0xfc; 0x8f; 0xf8; 0xb8; 0xd1; 0x7a; 0xd0; 0x31; 0xce;
  0x45; 0xcb; 0x3a; 0x8f; 0x95; 0x16; 0x04; 0x28; 0xaf; 0xd7; 0xfb; 0xca; 0xbb; 0x4b; 0x40; 0x7e].

(** ** Chunking helpers *)

Fixpoint chunk_list (n k : nat) (l : list Z) : list (list Z) :=
  match k with
  | O => []
  | S k => take n l :: chunk_list n k (drop n l)
  end.

(** The whole [n]-byte chunks from the front, and the rest. *)
Definition as_chunks (n : nat) (slice : list Z) : list (list Z) * list Z :=
  let len := (length slice / n)%nat in
  (chunk_list n len (take (len * n) slice), drop (len * n) slice).

(** The rest, and the whole [n]-byte chunks aligned at the back. *)
Definition as_rchunks (n : nat) (slice : list Z) : list Z * list (list Z) :=
  let len := (length slice / n)%nat in
  (take (length slice - len * n) slice, chunk_list n len (drop (length slice - len * n) slice)).

Definition read_u32_le (bs : list Z) : outcome Z :=
  buf ← slice bs 0 4; Ret (from_le_bytes buf).

Definition read_u64_le (bs : list Z) : outcome Z :=
  buf ← slice bs 0 8; Ret (from_le_bytes buf).

Definition avalanche (x : Z) : Z :=
  let x := Z.lxor x (Z.shiftr x 37) in
  let x := wrapping_mul 64 x PRIME_MX1 in
  Z.lxor x (Z.shiftr x 32).

Definition mix_step (data secret : list Z) (seed : Z) : outcome Z :=
  data_lo ← (slice data 0 8 ≫= read_u64_le);
  data_hi ← (slice data 8 16 ≫= read_u64_le);
  secret_lo ← (slice secret 0 8 ≫= read_u64_le);
  secret_hi ← (slice secret 8 16 ≫= read_u64_le);
  let a := Z.lxor data_lo (wrapping_add 64 secret_lo seed) in
  let b := Z.lxor data_hi (wrapping_sub 64 secret_hi seed) in
  let mul_result := wrapping_mul 128 a b in
  Ret (Z.lxor (wrap 64 mul_result) (wrap 64 (Z.shiftr mul_result 64))).

(** [&as_chunks::<16>(&s[at..]).0[0]]: the 16 bytes of [s] at an offset. *)
Definition chunk16_at (s : list Z) (at_ : nat) : outcome (list Z) :=
  t ← slice_from s at_; index (fst (as_chunks 16 t)) 0.

(** [secret[i..i + 8].copy_from_slice(bs)] *)
Definition blit (l : list Z) (i : nat) (bs : list Z) : outcome (list Z) :=
  if decide (i + length bs <= length l)%nat
  then Ret (take i l ++ bs ++ drop (i + length bs) l)
  else Panic.

Definition derive_block (seed : Z) (secret : list Z) (i : nat) : outcome (list Z) :=
  a ← (slice secret i (i + 8) ≫= read_u64_le);
  b ← (slice secret (i + 8) (i + 16) ≫= read_u64_le);
  secret ← blit secret i (to_le_bytes 8 (wrapping_add 64 a seed));
  blit secret (i + 8) (to_le_bytes 8 (wrapping_sub 64 b seed)).

Definition derive_secret (seed : Z) (secret : list Z) : outcome (list Z) :=
  if seed =? DEFAULT_SEED then Ret secret
  else foldM (derive_block seed) secret ((fun k => 16 * k)%nat <$> seq 0 (DEFAULT_SECRET_LENGTH / 16)).

(** ** One routine per input length class *)

Definition impl_0_bytes (seed : Z) : outcome Z :=
  x ← (slice DEFAULT_SECRET_RAW 56 64 ≫= read_u64_le);
  y ← (slice DEFAULT_SECRET_RAW 64 72 ≫= read_u64_le);
  Ret (avalanche (Z.lxor (Z.lxor seed x) y)).

Definition impl_1_to_3_bytes (secret : list Z) (seed : Z) (input : list Z) : outcome Z :=
  let input_length := wrap 8 (Z.of_nat (length input)) in
  c_last ← index input (length input - 1);
  c_first ← index input 0;
  c_mid ← index input (length input / 2);
  let combined :=
    Z.lor (Z.lor (Z.lor c_last (wrap 32 (Z.shiftl input_length 8))) (wrap 32 (Z.shiftl c_first 16)))
          (wrap 32 (Z.shiftl c_mid 24)) in
  s ← (slice secret 0 4 ≫= read_u32_le);
  Ret (avalanche (Z.lxor combined (wrapping_add 64 s seed))).

Definition impl_4_to_8_bytes (secret : list Z) (seed : Z) (input : list Z) : outcome Z :=
  input_lo ← (slice input 0 4 ≫= read_u32_le);
  input_hi ← (slice_from input (length input - 4) ≫= read_u32_le);
  let input_64 := wrapping_add 64 input_lo (wrap 64 (Z.shiftl input_hi 32)) in
  s ← (slice secret 8 16 ≫= read_u64_le);
  Ret (avalanche (Z.lxor input_64 (wrapping_add 64 s seed))).

Definition impl_9_to_16_bytes (secret : list Z) (seed : Z) (input : list Z) : outcome Z :=
  input_lo ← (slice input 0 8 ≫= read_u64_le);
  input_hi ← (slice_from input (length input - 8) ≫= read_u64_le);
  s1 ← (slice secret 16 24 ≫= read_u64_le);
  let acc := wrapping_mul 64 (Z.lxor input_lo (wrapping_add 64 s1 seed)) PRIME64_1 in
  s2 ← (slice secret 24 32 ≫= read_u64_le);
  let acc := wrapping_mul 64 (Z.lxor (Z.lxor acc input_hi) (wrapping_sub 64 s2 seed)) PRIME64_2 in
  Ret (avalanche acc).

(** [acc = acc.wrapping_add(mix_step(chunk, secret at offset, seed))] *)
Definition add_mix (secret : list Z) (seed : Z) (acc : Z) (chunk : outcome (list Z)) (at_ : nat) : outcome Z :=
  c ← chunk;
  s ← chunk16_at secret at_;
  m ← mix_step c s seed;
  Ret (wrapping_add 64 acc m).

Definition impl_17_to_128_bytes (secret : list Z) (seed : Z) (input : list Z) : outcome Z :=
  let acc := wrapping_mul 64 (Z.of_nat (length input)) PRIME64_1 in
  let fwd := fst (as_chunks 16 input) in
  let bwd := snd (as_rchunks 16 input) in
  let q := length bwd in
  (* [bwd[q - k]]: the subtraction underflows, and the index panics, when [q < k] *)
  let bwd_at k := if (k <=? q)%nat then index bwd (q - k) else Panic in
  acc ← (if (32 <? length input)%nat then
           acc ← (if (64 <? length input)%nat then
                    acc ← (if (96 <? length input)%nat then
                             acc ← add_mix secret seed acc (index fwd 3) 96;
                             add_mix secret seed acc (bwd_at 4%nat) 112
                           else Ret acc);
                    acc ← add_mix secret seed acc (index fwd 2) 64;
                    add_mix secret seed acc (bwd_at 3%nat) 80
                  else Ret acc);
           acc ← add_mix secret seed acc (index fwd 1) 32;
           add_mix secret seed acc (bwd_at 2%nat) 48
         else Ret acc);
  acc ← add_mix secret seed acc (index fwd 0) 0;
  acc ← add_mix secret seed acc (bwd_at 1%nat) 16;
  Ret (avalanche acc).

Definition stripe_step (secret : list Z) (seed : Z) (acc : Z) (e : nat * list Z) : outcome Z :=
  let '(i, stripe) := e in
  let secret_start := (i * 16)%nat in
  if (secret_start + 32 <=? DEFAULT_SECRET_LENGTH)%nat then
    acc ← add_mix secret seed acc (index (fst (as_chunks 16 stripe)) 0) secret_start;
    add_mix secret seed acc (index (fst (as_chunks 16 stripe)) 1) (secret_start + 16)
  else Ret acc.

Definition enumerate {A : Type} (l : list A) : list (nat * A) := zip (seq 0 (length l)) l.

Definition impl_129_to_240_bytes (secret : list Z) (seed : Z) (input : list Z) : outcome Z :=
  let acc := wrapping_mul 64 (Z.of_nat (length input)) PRIME64_1 in
  let stripes := fst (as_chunks 32 input) in
  acc ← foldM (stripe_step secret seed) acc (enumerate stripes);
  let tail_start := (length stripes * 32)%nat in
  acc ← (if (tail_start <? length input)%nat then
           tail ← slice_from input tail_start;
           if (16 <=? length tail)%nat then
             foldM (fun acc chunk => add_mix secret seed acc (Ret chunk) 128) acc (fst (as_chunks 16 tail))
           else Ret acc
         else Ret acc);
  Ret (avalanche acc).

Definition wide_stripe_step (secret : list Z) (seed : Z) (acc : Z) (stripe : list Z) : outcome Z :=
  foldM (fun acc i => add_mix secret seed acc (chunk16_at stripe (i * 16)) (i * 16)) acc (seq 0 4).

Definition impl_241_plus_bytes (secret : list Z) (seed : Z) (input : list Z) : outcome Z :=
  let acc := wrapping_mul 64 (Z.of_nat (length input)) PRIME64_1 in
  let stripes := fst (as_chunks 64 input) in
  let last := snd (as_chunks 64 input) in
  acc ← foldM (wide_stripe_step secret seed) acc stripes;
  acc ← (match last with
         | [] => Ret acc
         | _ => t ← impl_17_to_128_bytes secret seed last; Ret (wrapping_add 64 acc t)
         end);
  Ret (avalanche acc).

Definition impl_oneshot (secret : list Z) (seed : Z) (input : list Z) : outcome Z :=
  let n := length input in
  if (n =? 0)%nat then impl_0_bytes seed
  else if (n <=? 3)%nat then impl_1_to_3_bytes secret seed input
  else if (n <=? 8)%nat then impl_4_to_8_bytes secret seed input
  else if (n <=? 16)%nat then impl_9_to_16_bytes secret seed input
  else if (n <=? 128)%nat then impl_17_to_128_bytes secret seed input
  else if (n <=? 240)%nat then impl_129_to_240_bytes secret seed input
  else impl_241_plus_bytes secret seed input.

Definition oneshot (input : list Z) : outcome Z :=
  impl_oneshot DEFAULT_SECRET_RAW DEFAULT_SEED input.

Definition oneshot_with_seed (seed : Z) (input : list Z) : outcome Z :=
  secret ← (if (CUTOFF <? length input)%nat then derive_secret seed DEFAULT_SECRET_RAW
            else Ret DEFAULT_SECRET_RAW);
  impl_oneshot secret seed input.

(** ** Reference: XXH3's medium-input loop, by byte offsets *)

Definition read64 (l : list Z) (i : nat) : Z := from_le_bytes (take 8 (drop i l)).

(** [XXH3_mix16B]: 16 input bytes against 16 secret bytes. *)
Definition mix16 (input : list Z) (i : nat) (secret : list Z) (j : nat) (seed : Z) : Z :=
  let a := Z.lxor (read64 input i) (wrapping_add 64 (read64 secret j) seed) in
  let b := Z.lxor (read64 input (i + 8)) (wrapping_sub 64 (read64 secret (j + 8)) seed) in
  let m := wrapping_mul 128 a b in
  Z.lxor (wrap 64 m) (wrap 64 (Z.shiftr m 64)).

(** Round [i] takes 16 bytes at [16 i] from the front and from the back. *)
Definition xxh3_round (input secret : list Z) (seed acc : Z) (i : nat) : Z :=
  let acc := wrapping_add 64 acc (mix16 input (16 * i) secret (32 * i) seed) in
  wrapping_add 64 acc (mix16 input (length input - 16 * (i + 1)) secret (32 * i + 16) seed).

Definition xxh3_17_to_128 (secret : list Z) (seed : Z) (input : list Z) : Z :=
  let rounds := ((length input - 1) / 32 + 1)%nat in
  avalanche (foldl (xxh3_round input secret seed)
    (wrapping_mul 64 (Z.of_nat (length input)) PRIME64_1) (rev (seq 0 rounds))).

(** ** Lemmas *)

Lemma avalanche_fits x : fits 64 (avalanche x).
Proof. unfold avalanche. eauto 10 with fits. Qed.

Lemma chunk_list_lookup n k l i :
  (i < k)%nat -> chunk_list n k l !! i = Some (take n (drop (i * n) l)).
Proof.
  revert l i. induction k as [|k IH]; intros l [|i] Hi; simpl; [lia..|done|].
  rewrite IH by lia. by rewrite drop_drop.
Qed.

Lemma length_chunk_list n k l : length (chunk_list n k l) = k.
Proof. revert l. induction k; intros; simpl; auto. Qed.

Lemma div_add_le (l n i : nat) : (0 < n -> (i + 1) * n <= l -> i < l / n)%nat.
Proof.
  intros. apply Nat.lt_le_trans with (i + 1)%nat; [lia|]. apply Nat.div_le_lower_bound; lia.
Qed.

Lemma as_chunks_index n l i :
  (0 < n)%nat -> ((i + 1) * n <= length l)%nat ->
  index (fst (as_chunks n l)) i = Ret (take n (drop (i * n) l)).
Proof.
  intros Hn Hi. pose proof (div_add_le _ _ _ Hn Hi) as Hlt.
  apply index_Ret. simpl. rewrite chunk_list_lookup by done. f_equal.
  apply take_drop_take. nia.
Qed.

Lemma as_rchunks_index n l i :
  (0 < n)%nat -> (i < length l / n)%nat ->
  index (snd (as_rchunks n l)) i
  = Ret (take n (drop (length l - (length l / n - i) * n) l)).
Proof.
  intros Hn Hi. apply index_Ret. simpl. rewrite chunk_list_lookup by done. f_equal.
  rewrite drop_drop. do 2 f_equal.
  pose proof (Nat.Div0.mul_div_le (length l) n). nia.
Qed.

Lemma length_as_chunks n l : length (fst (as_chunks n l)) = (length l / n)%nat.
Proof. apply length_chunk_list. Qed.

Lemma length_as_rchunks n l : length (snd (as_rchunks n l)) = (length l / n)%nat.
Proof. apply length_chunk_list. Qed.

Lemma read_u64_le_at l i :
  (i + 8 <= length l)%nat -> (slice l i (i + 8) ≫= read_u64_le) = Ret (read64 l i).
Proof.
  intros. rewrite slice_ok by lia. red_bind. unfold read_u64_le.
  replace (i + 8 - i)%nat with 8%nat by lia.
  rewrite slice_ok; [|lia|rewrite length_take, length_drop; lia].
  red_bind. by rewrite drop_0, take_take.
Qed.

Lemma chunk16_at_ok s i :
  (i + 16 <= length s)%nat -> chunk16_at s i = Ret (take 16 (drop i s)).
Proof.
  intros. unfold chunk16_at. rewrite slice_from_ok by lia. red_bind.
  rewrite as_chunks_index; [by rewrite drop_0|lia|rewrite length_drop; lia].
Qed.

Lemma read64_window l i k : (k + 8 <= 16)%nat -> read64 (take 16 (drop i l)) k = read64 l (i + k).
Proof. intros. unfold read64. rewrite take_drop_take by lia. by rewrite drop_drop. Qed.

Lemma mix_step_window input i secret j seed :
  (i + 16 <= length input)%nat -> (j + 16 <= length secret)%nat ->
  mix_step (take 16 (drop i input)) (take 16 (drop j secret)) seed = Ret (mix16 input i secret j seed).
Proof.
  intros Hi Hj. unfold mix_step.
  assert (forall (l : list Z) k, (k + 16 <= length l)%nat -> length (take 16 (drop k l)) = 16%nat) as Hlen
    by (intros; rewrite length_take, length_drop; lia).
  rewrite (read_u64_le_at _ 0), (read_u64_le_at _ 8), (read_u64_le_at _ 0), (read_u64_le_at _ 8)
    by (rewrite Hlen; lia).
  cbn -[Z.lxor wrap read64]. rewrite !read64_window by lia. by rewrite !Nat.add_0_r.
Qed.

(** One mixing round on a chunk known to be a window of the input. *)
Lemma add_mix_window secret seed acc chunk input i j :
  chunk = Ret (take 16 (drop i input)) ->
  (i + 16 <= length input)%nat -> (j + 16 <= length secret)%nat ->
  add_mix secret seed acc chunk j = Ret (wrapping_add 64 acc (mix16 input i secret j seed)).
Proof.
  intros -> Hi Hj. unfold add_mix. red_bind. rewrite chunk16_at_ok by done.
  red_bind. by rewrite mix_step_window.
Qed.

Lemma add_mix_front secret seed acc input i j :
  (16 * (i + 1) <= length input)%nat -> (j + 16 <= length secret)%nat ->
  add_mix secret seed acc (index (fst (as_chunks 16 input)) i) j
  = Ret (wrapping_add 64 acc (mix16 input (16 * i) secret j seed)).
Proof.
  intros. apply add_mix_window; [|lia..].
  rewrite as_chunks_index by lia. by rewrite Nat.mul_comm.
Qed.

Lemma add_mix_back secret seed acc input i j :
  (16 * (i + 1) <= length input)%nat -> (j + 16 <= length secret)%nat ->
  add_mix secret seed acc
    (if (i + 1 <=? length (snd (as_rchunks 16 input)))%nat
     then index (snd (as_rchunks 16 input)) (length (snd (as_rchunks 16 input)) - (i + 1))
     else Panic) j
  = Ret (wrapping_add 64 acc (mix16 input (length input - 16 * (i + 1)) secret j seed)).
Proof.
  intros Hi Hj. rewrite length_as_rchunks.
  assert (i < length input / 16)%nat by (apply div_add_le; lia).
  destruct (Nat.leb_spec (i + 1) (length input / 16)); [|lia].
  apply add_mix_window; [|lia..].
  rewrite as_rchunks_index by lia. do 3 f_equal. lia.
Qed.

(** One round of the reference is one front and one back mix of the code. *)
Lemma mix_pair secret seed acc input i :
  (16 * (i + 1) <= length input)%nat -> (32 * i + 32 <= length secret)%nat ->
  (acc ← add_mix secret seed acc (index (fst (as_chunks 16 input)) i) (32 * i);
   add_mix secret seed acc
    (if (i + 1 <=? length (snd (as_rchunks 16 input)))%nat
     then index (snd (as_rchunks 16 input)) (length (snd (as_rchunks 16 input)) - (i + 1))
     else Panic) (32 * i + 16))
  = Ret (xxh3_round input secret seed acc i).
Proof.
  intros. rewrite add_mix_front by lia. red_bind. by rewrite add_mix_back by lia.
Qed.

Lemma mix_pair_then {A} secret seed acc input i (k : Z -> outcome A) :
  (16 * (i + 1) <= length input)%nat -> (32 * i + 32 <= length secret)%nat ->
  (acc ← add_mix secret seed acc (index (fst (as_chunks 16 input)) i) (32 * i);
   acc ← add_mix secret seed acc
    (if (i + 1 <=? length (snd (as_rchunks 16 input)))%nat
     then index (snd (as_rchunks 16 input)) (length (snd (as_rchunks 16 input)) - (i + 1))
     else Panic) (32 * i + 16);
   k acc)
  = k (xxh3_round input secret seed acc i).
Proof.
  intros. rewrite add_mix_front by lia. red_bind. by rewrite add_mix_back by lia.
Qed.

(** The chunked loop is XXH3's, for 16 to 128 bytes. *)
Lemma impl_17_to_128_ref secret seed input :
  length secret = 192%nat -> (16 <= length input <= 128)%nat ->
  impl_17_to_128_bytes secret seed input = Ret (xxh3_17_to_128 secret seed input).
Proof.
  intros Hs Hn. unfold impl_17_to_128_bytes, xxh3_17_to_128. cbv zeta.
  assert (((length input - 1) / 32 + 1)%nat =
    if (32 <? length input)%nat then if (64 <? length input)%nat then
      if (96 <? length input)%nat then 4%nat else 3%nat else 2%nat else 1%nat) as ->.
  { destruct (Nat.ltb_spec 32 (length input)), (Nat.ltb_spec 64 (length input)),
      (Nat.ltb_spec 96 (length input)); try lia.
    all: nat_div (length input - 1)%nat 32%nat; lia. }
  pose proof (fun acc => mix_pair secret seed acc input 1) as H1.
  pose proof (fun acc => mix_pair secret seed acc input 2) as H2.
  pose proof (fun acc => mix_pair secret seed acc input 3) as H3.
  cbn [Nat.mul Nat.add] in H1, H2, H3.
  destruct (Nat.ltb_spec 32 (length input)), (Nat.ltb_spec 64 (length input)),
    (Nat.ltb_spec 96 (length input)); try lia; red_bind.
  all: rewrite ?H3 by lia; red_bind; rewrite ?H2 by lia; red_bind;
    rewrite ?H1 by lia; red_bind.
  all: rewrite (mix_pair_then _ _ _ _ 0) by lia.
  all: cbn [rev seq app foldl]; reflexivity.
Qed.

Lemma xxh3_17_to_128_fits secret seed input : fits 64 (xxh3_17_to_128 secret seed input).
Proof. apply avalanche_fits. Qed.

(** Fewer than 16 bytes is outside that routine: it indexes an empty chunk list. *)
Lemma impl_17_to_128_short secret seed input :
  (length input < 16)%nat -> impl_17_to_128_bytes secret seed input = Panic.
Proof.
  intros. unfold impl_17_to_128_bytes. cbv zeta.
  destruct (Nat.ltb_spec 32 (length input)); [lia|]. red_bind.
  assert (fst (as_chunks 16 input) = []) as ->; [|done].
  apply length_zero_iff_nil. rewrite length_as_chunks. by apply Nat.div_small.
Qed.

Lemma enumerate_elem {A : Type} (l : list A) done i x rest :
  enumerate l = done ++ (i, x) :: rest -> l !! i = Some x /\ (i < length l)%nat.
Proof.
  intros H. assert (enumerate l !! length done = Some (i, x)) as Hl
    by (rewrite H; apply list_lookup_middle; done).
  unfold enumerate in Hl. apply lookup_zip_with_Some in Hl as (i' & x' & [= <- <-] & Hi & Hx).
  apply lookup_seq in Hi as [-> Hi]. done.
Qed.

Lemma as_chunks_elem n l i c :
  fst (as_chunks n l) !! i = Some c -> (i < length l / n)%nat /\ c = take n (drop (i * n) (take (length l / n * n) l)).
Proof.
  intros Hc. assert (i < length l / n)%nat as Hi.
  { apply lookup_lt_Some in Hc. by rewrite length_as_chunks in Hc. }
  split; [done|]. simpl in Hc. rewrite chunk_list_lookup in Hc by done. congruence.
Qed.

Lemma as_chunks_elem_length n l i c :
  fst (as_chunks n l) !! i = Some c -> length c = n.
Proof.
  intros [Hi ->]%as_chunks_elem. rewrite length_take, length_drop, length_take.
  pose proof (Nat.Div0.mul_div_le (length l) n). nia.
Qed.

Lemma as_chunks_elem_in n (l : list Z) done c rest :
  fst (as_chunks n l) = done ++ c :: rest -> length c = n.
Proof.
  intros H. apply (as_chunks_elem_length n l (length done)).
  rewrite H. by apply list_lookup_middle.
Qed.

(** A mixing round on any 16-byte chunk returns. *)
Lemma add_mix_total secret seed acc c j :
  length c = 16%nat -> (j + 16 <= length secret)%nat ->
  exists acc', add_mix secret seed acc (Ret c) j = Ret acc'.
Proof.
  intros Hc Hj. eexists. apply (add_mix_window _ _ _ _ c 0); [|lia..].
  rewrite drop_0, take_ge by lia. done.
Qed.

Lemma stripe_step_total secret seed acc i stripe :
  length secret = 192%nat -> length stripe = 32%nat ->
  exists acc', stripe_step secret seed acc (i, stripe) = Ret acc'.
Proof.
  intros Hs Hl. unfold stripe_step, DEFAULT_SECRET_LENGTH.
  destruct (Nat.leb_spec (i * 16 + 32) 192); [|by eexists].
  rewrite (add_mix_front _ _ _ _ 0) by lia. red_bind.
  rewrite (add_mix_front _ _ _ _ 1) by lia. by eexists.
Qed.

Lemma impl_129_to_240_total secret seed input :
  length secret = 192%nat ->
  exists h, impl_129_to_240_bytes secret seed input = Ret h /\ fits 64 h.
Proof.
  intros Hs. unfold impl_129_to_240_bytes. cbv zeta.
  edestruct (foldM_total (fun _ _ => True) (stripe_step secret seed)) as (acc & -> & _); [done| |].
  { intros d [i stripe] rest acc He _. apply enumerate_elem in He as [Hx _].
    edestruct stripe_step_total as [acc' ->]; [done|by eapply as_chunks_elem_length|eauto]. }
  red_bind. destruct (Nat.ltb_spec (length (fst (as_chunks 32 input)) * 32) (length input)) as [Ht|];
    [|eauto using avalanche_fits].
  rewrite slice_from_ok by lia. red_bind.
  destruct (_ <=? _)%nat; [|eauto using avalanche_fits].
  edestruct (foldM_total (fun (_ : list (list Z)) (_ : Z) => True)) as (acc' & -> & _); [done| |red_bind; eauto using avalanche_fits].
  intros d c rest acc' Hc _. apply as_chunks_elem_in in Hc.
  edestruct add_mix_total as [acc2 ->]; [done| |eauto]. rewrite Hs. lia.
Qed.

Lemma wide_stripe_step_total secret seed acc stripe :
  length secret = 192%nat -> length stripe = 64%nat ->
  exists acc', wide_stripe_step secret seed acc stripe = Ret acc'.
Proof.
  intros Hs Hl. unfold wide_stripe_step.
  edestruct (foldM_total (fun (_ : list nat) (_ : Z) => True)) as (acc' & -> & _); [done| |by eexists].
  intros d i rest acc1 Hi _.
  assert (i < 4)%nat.
  { assert (i ∈ seq 0 4) as Hin by (rewrite Hi; set_solver). apply elem_of_seq in Hin. lia. }
  cbv beta. rewrite chunk16_at_ok by lia.
  edestruct add_mix_total as [acc2 ->]; [|lia|eauto].
  rewrite length_take, length_drop. lia.
Qed.

(** Exactly which inputs of more than 240 bytes the last routine hashes. *)
Lemma impl_241_plus_spec secret seed input :
  length secret = 192%nat ->
  if decide (0 < length input mod 64 < 16)%nat
  then impl_241_plus_bytes secret seed input = Panic
  else exists h, impl_241_plus_bytes secret seed input = Ret h /\ fits 64 h.
Proof.
  intros Hs. unfold impl_241_plus_bytes. cbv zeta.
  edestruct (foldM_total (fun _ _ => True) (wide_stripe_step secret seed)) as (acc & -> & _); [done| |].
  { intros d c rest acc1 Hc _. apply as_chunks_elem_in in Hc.
    destruct (wide_stripe_step_total secret seed acc1 c) as [? ->]; eauto. }
  red_bind. set (last := snd (as_chunks 64 input)).
  assert (length last = length input mod 64)%nat as Hlast.
  { unfold last, as_chunks. cbn [snd]. rewrite length_drop. nat_div (length input) 64%nat. lia. }
  rewrite <-Hlast. clearbody last. destruct last as [|b last'].
  { simpl. eauto using avalanche_fits. }
  set (last := b :: last') in *.
  assert (1 <= length last)%nat by (simpl; lia).
  case_decide.
  - by rewrite impl_17_to_128_short by lia.
  - nat_div (length input) 64%nat. rewrite impl_17_to_128_ref by lia. red_bind. eauto using avalanche_fits.
Qed.

Lemma read_at_total (f : list Z -> outcome Z) (k : nat) bs a b :
  (forall l, (k <= length l)%nat -> exists h, f l = Ret h) ->
  (b - a = k)%nat -> (a <= b)%nat -> (b <= length bs)%nat -> exists h, (slice bs a b ≫= f) = Ret h.
Proof.
  intros Hf Hk Ha Hb. rewrite slice_ok by lia. red_bind. apply Hf.
  rewrite length_take, length_drop. lia.
Qed.

Lemma read_u32_le_total l : (4 <= length l)%nat -> exists h, read_u32_le l = Ret h.
Proof. intros. unfold read_u32_le. rewrite slice_ok by lia. by eexists. Qed.

Lemma read_u64_le_total l : (8 <= length l)%nat -> exists h, read_u64_le l = Ret h.
Proof. intros. unfold read_u64_le. rewrite slice_ok by lia. by eexists. Qed.

Lemma length_DEFAULT_SECRET_RAW : length DEFAULT_SECRET_RAW = 192%nat.
Proof. reflexivity. Qed.

Lemma read64_total bs a b :
  b = (a + 8)%nat -> (b <= length bs)%nat -> exists h, (slice bs a b ≫= read_u64_le) = Ret h.
Proof. intros. apply (read_at_total _ 8); [apply read_u64_le_total|lia..]. Qed.

Lemma read32_total bs a b :
  b = (a + 4)%nat -> (b <= length bs)%nat -> exists h, (slice bs a b ≫= read_u32_le) = Ret h.
Proof. intros. apply (read_at_total _ 4); [apply read_u32_le_total|lia..]. Qed.

(** Step over the fixed-offset reads of a routine. *)
Ltac step_reads :=
  repeat (first
    [ edestruct read64_total as [? ->]; [| |red_bind]; [done|cbn; lia|]
    | edestruct read32_total as [? ->]; [| |red_bind]; [done|cbn; lia|] ]).

Lemma impl_0_bytes_total seed : exists h, impl_0_bytes seed = Ret h /\ fits 64 h.
Proof.
  unfold impl_0_bytes. pose proof length_DEFAULT_SECRET_RAW.
  step_reads. eauto using avalanche_fits.
Qed.

Lemma impl_1_to_3_total secret seed input :
  length secret = 192%nat -> (1 <= length input <= 3)%nat ->
  exists h, impl_1_to_3_bytes secret seed input = Ret h /\ fits 64 h.
Proof.
  intros Hs Hn. unfold impl_1_to_3_bytes. cbv zeta.
  destruct (index_lt input (length input - 1)) as (? & -> & _); [lia|]. red_bind.
  destruct (index_lt input 0) as (? & -> & _); [lia|]. red_bind.
  destruct (index_lt input (length input / 2)) as (? & -> & _).
  { nat_div (length input) 2%nat. lia. }
  red_bind. step_reads. eauto using avalanche_fits.
Qed.

Lemma impl_4_to_8_total secret seed input :
  length secret = 192%nat -> (4 <= length input <= 8)%nat ->
  exists h, impl_4_to_8_bytes secret seed input = Ret h /\ fits 64 h.
Proof.
  intros Hs Hn. unfold impl_4_to_8_bytes, slice_from.
  step_reads. edestruct (read32_total input) as [? ->]; [lia..|]. red_bind. step_reads.
  eauto using avalanche_fits.
Qed.

Lemma impl_9_to_16_total secret seed input :
  length secret = 192%nat -> (8 <= length input <= 16)%nat ->
  exists h, impl_9_to_16_bytes secret seed input = Ret h /\ fits 64 h.
Proof.
  intros Hs Hn. unfold impl_9_to_16_bytes, slice_from.
  step_reads. edestruct (read64_total input) as [? ->]; [lia..|]. red_bind. step_reads.
  eauto using avalanche_fits.
Qed.

(** The dispatcher, for a secret of the expected length. *)
Lemma impl_oneshot_spec secret seed input :
  length secret = 192%nat ->
  if decide (241 <= length input /\ 0 < length input mod 64 < 16)%nat
  then impl_oneshot secret seed input = Panic
  else exists h, impl_oneshot secret seed input = Ret h /\ fits 64 h.
Proof.
  intros Hs. unfold impl_oneshot. cbv zeta.
  destruct (Nat.eqb_spec (length input) 0).
  { rewrite decide_False by lia. apply impl_0_bytes_total. }
  destruct (Nat.leb_spec (length input) 3).
  { rewrite decide_False by lia. apply impl_1_to_3_total; [done|lia]. }
  destruct (Nat.leb_spec (length input) 8).
  { rewrite decide_False by lia. apply impl_4_to_8_total; [done|lia]. }
  destruct (Nat.leb_spec (length input) 16).
  { rewrite decide_False by lia. apply impl_9_to_16_total; [done|lia]. }
  destruct (Nat.leb_spec (length input) 128).
  { rewrite decide_False by lia. rewrite impl_17_to_128_ref by lia. eauto using avalanche_fits. }
  destruct (Nat.leb_spec (length input) 240).
  { rewrite decide_False by lia. by apply impl_129_to_240_total. }
  pose proof (impl_241_plus_spec secret seed input Hs) as Hl.
  case_decide as Hd; case_decide; try done; lia.
Qed.

(** *** The seeded secret *)

Lemma blit_length l i bs l' : blit l i bs = Ret l' -> length l' = length l.
Proof.
  unfold blit. case_decide; intros; inv_ret. rewrite !length_app, length_take, length_drop. lia.
Qed.

Lemma blit_ok l i bs :
  (i + length bs <= length l)%nat -> exists l', blit l i bs = Ret l' /\ length l' = length l.
Proof.
  intros. unfold blit. rewrite decide_True by done. eexists. split; [done|].
  rewrite !length_app, length_take, length_drop. lia.
Qed.

Lemma derive_block_total seed secret i :
  (i + 16 <= length secret)%nat ->
  exists secret', derive_block seed secret i = Ret secret' /\ length secret' = length secret.
Proof.
  intros Hi. unfold derive_block.
  edestruct (read64_total secret i) as [? ->]; [lia..|]. red_bind.
  edestruct (read64_total secret (i + 8)) as [? ->]; [lia..|]. red_bind.
  edestruct (blit_ok secret i) as (s1 & -> & Hs1); [rewrite length_to_le_bytes; lia|]. red_bind.
  edestruct (blit_ok s1 (i + 8)) as (s2 & -> & Hs2); [rewrite length_to_le_bytes; lia|].
  eexists. split; [done|]. lia.
Qed.

Lemma derive_secret_total seed secret :
  length secret = 192%nat ->
  exists secret', derive_secret seed secret = Ret secret' /\ length secret' = 192%nat.
Proof.
  intros Hs. unfold derive_secret. case_match; [eauto|].
  apply (foldM_total (fun _ s => length s = 192%nat)); [done|].
  intros d i rest s1 Hl Hs1.
  assert (exists k, i = (16 * k)%nat /\ (k < 12)%nat) as (k & -> & Hk).
  { assert (i ∈ (fun k => 16 * k)%nat <$> seq 0 (DEFAULT_SECRET_LENGTH / 16)) as Hin by (rewrite Hl; set_solver).
    apply list_elem_of_fmap in Hin as (k & -> & Hk%elem_of_seq). exists k. split; [done|].
    unfold DEFAULT_SECRET_LENGTH in Hk. change (192 / 16)%nat with 12%nat in Hk. lia. }
  destruct (derive_block_total seed s1 (16 * k)) as (s2 & -> & Hs2); [lia|].
  eexists. split; [done|]. congruence.
Qed.

(** ** Properties *)

(** The hash of any input is a 64-bit value, except for inputs of more than
    240 bytes whose length leaves a remainder of 1 to 15 modulo 64: on exactly
    those [oneshot] panics, whatever the bytes and the seed. *)
Theorem oneshot_with_seed_outcome (seed : Z) (input : list Z) :
  if decide (241 <= length input /\ 0 < length input mod 64 < 16)%nat
  then oneshot_with_seed seed input = Panic
  else exists h, oneshot_with_seed seed input = Ret h /\ fits 64 h.
Proof.
  unfold oneshot_with_seed. destruct (_ <? _)%nat; red_bind; [|by apply impl_oneshot_spec].
  destruct (derive_secret_total seed DEFAULT_SECRET_RAW) as (s & -> & Hs); [done|]. red_bind.
  by apply impl_oneshot_spec.
Qed.

(** From 17 to 128 bytes the chunk-indexed routine computes XXH3's
    offset-based loop: round [i] mixes the 16 bytes at [16 i] and the 16 bytes
    ending [16 i] before the end, the outermost round first. *)
Theorem oneshot_17_to_128_is_xxh3 (seed : Z) (input : list Z) :
  (17 <= length input <= 128)%nat ->
  oneshot_with_seed seed input = Ret (xxh3_17_to_128 DEFAULT_SECRET_RAW seed input).
Proof.
  intros Hn. unfold oneshot_with_seed, CUTOFF. destruct (Nat.ltb_spec 240 (length input)); [lia|].
  red_bind. unfold impl_oneshot. cbv zeta.
  destruct (Nat.eqb_spec (length input) 0), (Nat.leb_spec (length input) 3),
    (Nat.leb_spec (length input) 8), (Nat.leb_spec (length input) 16),
    (Nat.leb_spec (length input) 128); try lia.
  apply impl_17_to_128_ref; [done|lia].
Qed.

Lemma oneshot_17_to_128_is_xxh3_witness :
  let input := Z.of_nat <$> seq 0 100 in
  (17 <= length input <= 128)%nat /\
  oneshot_with_seed 7 input = Ret (xxh3_17_to_128 DEFAULT_SECRET_RAW 7 input).
Proof.
  split; [vm_compute; lia|]. apply (oneshot_17_to_128_is_xxh3 7). vm_compute. lia.
Defined.

(** The secret is only derived for a non-zero seed. *)
Lemma oneshot_is_seed_zero input : oneshot_with_seed 0 input = oneshot input.
Proof. unfold oneshot_with_seed. by destruct (_ <? _)%nat. Qed.
