(* ===== verification/Float64.v ===== *)
(** * Rust's [f64]: IEEE binary64 through the Standard Library's executable
    specification floats, the casts between [f64] and integers, and the methods that
    the code calls. *)

From Stdlib Require Import ZArith Lia SpecFloat.
From S2P Require Import Prelude RustInt.

Local Open Scope Z_scope.

Abbreviation f64 := spec_float.

Definition f64_prec : Z := 53.
Definition f64_emax : Z := 1024.

Definition fadd (a b : f64) : f64 := SFadd f64_prec f64_emax a b.
Definition fsub (a b : f64) : f64 := SFsub f64_prec f64_emax a b.
Definition fmul (a b : f64) : f64 := SFmul f64_prec f64_emax a b.
Definition fdiv (a b : f64) : f64 := SFdiv f64_prec f64_emax a b.

(** [x as f64] for an integer [x], rounded to nearest even. *)
Definition f64_of_Z (x : Z) : f64 := binary_normalize f64_prec f64_emax x 0 false.

(** The literal [n/d]: division is correctly rounded, so this is the double
    nearest to the decimal literal. *)
Definition f64_lit (n d : Z) : f64 := fdiv (f64_of_Z n) (f64_of_Z d).

(** The integer part of a finite float, towards zero. *)
Definition f64_trunc (m : positive) (e : Z) : Z :=
  if 0 <=? e then Z.pos m * 2 ^ e else Z.pos m / 2 ^ (- e).

(** [x as uW]: truncates towards zero and saturates; NaN gives 0. *)
Definition f64_to_uint (w : Z) (x : f64) : Z :=
  match x with
  | S754_zero _ => 0
  | S754_nan => 0
  | S754_infinity true => 0
  | S754_infinity false => umax w
  | S754_finite true _ _ => 0
  | S754_finite false m e => Z.min (f64_trunc m e) (umax w)
  end.

(** [x as iW]: towards zero and saturating; NaN gives 0. *)
Definition f64_to_sint (w : Z) (x : f64) : Z :=
  match x with
  | S754_zero _ => 0
  | S754_nan => 0
  | S754_infinity true => - 2 ^ (w - 1)
  | S754_infinity false => 2 ^ (w - 1) - 1
  | S754_finite true m e => Z.max (- f64_trunc m e) (- 2 ^ (w - 1))
  | S754_finite false m e => Z.min (f64_trunc m e) (2 ^ (w - 1) - 1)
  end.

Lemma f64_to_uint_fits w x : 0 <= w -> fits w (f64_to_uint w x).
Proof.
  intros Hw. assert (0 < 2 ^ w) by (apply Z.pow_pos_nonneg; lia).
  unfold f64_to_uint, umax, fits, f64_trunc. destruct x as [ |[]| |[] m e]; try lia.
  destruct (0 <=? e) eqn:He.
  - assert (0 < 2 ^ e) by (apply Z.pow_pos_nonneg; lia). nia.
  - assert (0 < 2 ^ (- e)) by (apply Z.pow_pos_nonneg; lia).
    assert (0 <= Z.pos m / 2 ^ (- e)) by (apply Z.div_pos; lia). lia.
Qed.

(** ** Comparisons and methods

    The rounded value of a float is again a float, so [f64_of_Z] is exact on it; a result
    that is zero keeps the sign. *)

Definition feq (a b : f64) : bool := SFeqb a b.
Definition flt (a b : f64) : bool := SFltb a b.
Definition fle (a b : f64) : bool := SFleb a b.

Definition fopp (a : f64) : f64 := SFopp a.
Definition f64_abs (a : f64) : f64 := SFabs a.
Definition f64_sqrt (a : f64) : f64 := SFsqrt f64_prec f64_emax a.

Definition f64_is_nan (a : f64) : bool := match a with S754_nan => true | _ => false end.

(** The integer nearest to [m * 2 ^ e], halves up, and the one below. *)
Definition round_half_up (m : positive) (e : Z) : Z :=
  if 0 <=? e then Z.pos m * 2 ^ e else (Z.pos m + 2 ^ (- e - 1)) / 2 ^ (- e).

Definition f64_signed (s : bool) (n : Z) : f64 :=
  if n =? 0 then S754_zero s else f64_of_Z (if s then - n else n).

(** Halves away from zero. *)
Definition f64_round (x : f64) : f64 :=
  match x with
  | S754_finite s m e => if 0 <=? e then x else f64_signed s (round_half_up m e)
  | _ => x
  end.

Definition f64_floor (x : f64) : f64 :=
  match x with
  | S754_finite s m e =>
    if 0 <=? e then x else f64_signed s (let t := f64_trunc m e in if andb s (negb (t * 2 ^ (- e) =? Z.pos m)) then t + 1 else t)
  | _ => x
  end.

(** One with the sign of the number, zeros included. *)
Definition f64_signum (x : f64) : f64 :=
  match x with
  | S754_nan => S754_nan
  | S754_zero s | S754_infinity s | S754_finite s _ _ => f64_of_Z (if s then - 1 else 1)
  end.

Example round_examples :
  f64_to_sint 64 (f64_round (f64_lit 5 2)) = 3 /\ f64_to_sint 64 (f64_round (f64_lit (-5) 2)) = - 3 /\
  f64_to_sint 64 (f64_round (f64_lit 49 100)) = 0 /\ f64_round (f64_lit (-1) 4) = S754_zero true.
Proof. repeat split. Qed.

Example floor_examples :
  f64_to_sint 64 (f64_floor (f64_lit 5 2)) = 2 /\ f64_to_sint 64 (f64_floor (f64_lit (-5) 2)) = - 3 /\ f64_floor (f64_lit (-3) 1) = f64_of_Z (-3).
Proof. repeat split. Qed.
