(* ===== verification/Fuse.v ===== *)
(** * The BinaryFuse16 filter of [crates/xorf/src/lib.rs]: definitions.

    The construction is translated loop by loop over the arrays the code
    allocates.  Integer arithmetic is at its width and follows the build
    profile; the functions of the [libm] crate and the random initial
    fingerprints are parameters. *)

From stdpp Require Import base list strings.
From Stdlib Require Import ZArith Lia SpecFloat.
From S2P Require Import Prelude RustInt RustStr XxHash Float64.

Local Open Scope Z_scope.

(** The third-party [libm] functions the sizing formulas call. *)
Class Libm := {
  libm_log : f64 -> f64;
  libm_floor : f64 -> f64;
  libm_round : f64 -> f64;
  libm_fmax : f64 -> f64 -> f64
}.

(** ** Hashing *)

Definition gen_key_int (k : Z) : Z := wrap 64 k.
Definition gen_key_str (s : string) : outcome Z := oneshot (as_bytes s).

Definition mix64 (k : Z) : Z :=
  let k := Z.lxor k (Z.shiftr k 33) in
  let k := wrapping_mul 64 k 0xff51afd7ed558ccd in
  let k := Z.lxor k (Z.shiftr k 33) in
  let k := wrapping_mul 64 k 0xc4ceb9fe1a85ec53 in
  Z.lxor k (Z.shiftr k 33).

(** Returns the drawn value and the advanced state. *)
Definition splitmix64 (seed : Z) : Z * Z :=
  let seed := wrapping_add 64 seed 0x9e3779b97f4a7c15 in
  let z := wrapping_mul 64 (Z.lxor seed (Z.shiftr seed 30)) 0xbf58476d1ce4e5b9 in
  let z := wrapping_mul 64 (Z.lxor z (Z.shiftr z 27)) 0x94d049bb133111eb in
  (Z.lxor z (Z.shiftr z 31), seed).

Definition mix (key seed : Z) : Z := mix64 (wrapping_add 64 key seed).

(** The 16-bit fingerprint of a hash: [(hash ^ (hash >> 32)) as u16]. *)
Definition fingerprint (hash : Z) : Z := wrap 16 (Z.lxor hash (Z.shiftr hash 32)).

Definition mod3 (x : Z) : Z := if 2 <? x then x - 3 else x.

Record Descriptor := {
  seed : Z;
  segment_length_ : Z;
  segment_length_mask : Z;
  segment_count_length : Z
}.

Definition Descriptor_LEN : nat := 20.

Record BinaryFuse16 := {
  descriptor : Descriptor;
  fingerprints : list Z
}.

(** The arrays of one construction attempt. *)
Record tables := {
  alone : list Z;
  t2count : list Z;
  t2hash : list Z;
  reverse_h : list Z;
  reverse_order : list Z
}.

(** What the sizing formulas fix for a set of keys. *)
Record geometry := {
  g_segment_length : Z;
  g_mask : Z;
  g_segment_count : Z;
  g_segment_count_length : Z;
  g_array_len : nat
}.

Definition MAX_ITER : nat := 1000.
Definition arity : Z := 3.

Section Filter.
  Context `{P : Profile}.

Definition hash_of_hash (hash segment_length mask count_length : Z) : outcome (Z * Z * Z) :=
  let hi := wrap 64 (Z.shiftr (hash * count_length) 64) in
  let h0 := wrap 32 hi in
  h1 ← uadd 32 h0 segment_length;
  h2 ← uadd 32 h1 segment_length;
  let h1 := Z.lxor h1 (Z.land (wrap 32 (Z.shiftr hash 18)) mask) in
  let h2 := Z.lxor h2 (Z.land (wrap 32 hash) mask) in
  Ret (h0, h1, h2).

(** ** Queries *)

Definition contains_u64 (f : BinaryFuse16) (key : Z) : outcome bool :=
  let d := descriptor f in
  let hash := mix key (seed d) in
  let fp := fingerprint hash in
  '(h0, h1, h2) ← hash_of_hash hash (segment_length_ d) (segment_length_mask d) (segment_count_length d);
  f0 ← index (fingerprints f) (Z.to_nat h0);
  f1 ← index (fingerprints f) (Z.to_nat h1);
  f2 ← index (fingerprints f) (Z.to_nat h2);
  Ret (Z.lxor fp (Z.lxor (Z.lxor f0 f1) f2) =? 0).

Definition contains_str (f : BinaryFuse16) (s : string) : outcome bool :=
  k ← gen_key_str s; contains_u64 f k.

(** ** Sizing *)

Context `{L : Libm}.

Definition segment_length (arity size : Z) : outcome Z :=
  if size =? 0 then Ret 4
  else if arity =? 3 then
    ushl 32 1 (f64_to_uint 32 (libm_floor
      (fadd (fdiv (libm_log (f64_of_Z size)) (libm_log (f64_lit 333 100))) (f64_lit 225 100))))
  else if arity =? 4 then
    ushl 32 1 (f64_to_uint 32 (libm_floor
      (fsub (fdiv (libm_log (f64_of_Z size)) (libm_log (f64_lit 291 100))) (f64_lit 5 10))))
  else Ret 65536.

Definition size_factor (arity size : Z) : f64 :=
  if arity =? 3 then
    libm_fmax (f64_lit 1125 1000)
      (fadd (f64_lit 875 1000)
        (fdiv (fmul (f64_lit 25 100) (libm_log (f64_of_Z 1000000))) (libm_log (f64_of_Z size))))
  else if arity =? 4 then
    libm_fmax (f64_lit 1075 1000)
      (fadd (f64_lit 77 100)
        (fdiv (fmul (f64_lit 305 1000) (libm_log (f64_of_Z 600000))) (libm_log (f64_of_Z size))))
  else f64_of_Z 2.

Definition geometry_of (size : nat) : outcome geometry :=
  let n := wrap 32 (Z.of_nat size) in
  sl ← segment_length arity n;
  let segment_length := Z.min sl 262144 in
  mask ← usub 32 segment_length 1;
  let factor := size_factor arity n in
  let capacity :=
    if (1 <? size)%nat then f64_to_uint 32 (libm_round (fmul (f64_of_Z (Z.of_nat size)) factor)) else 0 in
  init_segment_count ← div_ceil capacity segment_length;
  array_len ← umul 32 init_segment_count segment_length;
  proposed ← div_ceil array_len segment_length;
  segment_count ← (if proposed <? arity then Ret 1 else usub 32 proposed (arity - 1));
  t ← uadd 32 segment_count arity;
  t ← usub 32 t 1;
  array_len ← umul 32 t segment_length;
  count_length ← umul 32 segment_count segment_length;
  Ret {| g_segment_length := segment_length;
         g_mask := mask;
         g_segment_count := segment_count;
         g_segment_count_length := count_length;
         g_array_len := Z.to_nat array_len |}.

(** [while (1 << block_bits) < segment_count { block_bits += 1 }], from 1.  A
    32-bit [segment_count] is reached by [1 << 32] at the latest. *)
Fixpoint block_bits_loop (fuel : nat) (segment_count bits : Z) : outcome Z :=
  match fuel with
  | O => Diverge
  | S fuel =>
    b ← ushl 32 1 bits;
    if b <? segment_count then block_bits_loop fuel segment_count (bits + 1) else Ret bits
  end.

Definition block_bits_of (segment_count : Z) : outcome Z := block_bits_loop 33 segment_count 1.

(** ** Placing the hashes in segment order *)

Definition start_positions (size : nat) (bits : Z) : outcome (list Z) :=
  mapM_out (fun i => p ← umul 64 (Z.of_nat i) (Z.of_nat size); Ret (Z.shiftr p bits))
    (seq 0 (Z.to_nat (Z.shiftl 1 bits))).

(** The inner [while]: it walks the block starts cyclically until one points
    at a free entry.  A full round without success leaves the state as it was,
    so the loop would never end: that is [Diverge]. *)
Fixpoint probe (fuel : nat) (bits : Z) (order start : list Z) (segment_index : Z) : outcome Z :=
  match fuel with
  | O => Diverge
  | S fuel =>
    p ← index start (Z.to_nat segment_index);
    v ← index order (Z.to_nat p);
    if v =? 0 then Ret segment_index
    else probe fuel bits order start (Z.land (segment_index + 1) (Z.shiftl 1 bits - 1))
  end.

Definition place (bits : Z) (seed : Z) (st : list Z * list Z) (key : Z) : outcome (list Z * list Z) :=
  let '(order, start) := st in
  let hash := mix key seed in
  si ← probe (Z.to_nat (Z.shiftl 1 bits)) bits order start (Z.shiftr hash (64 - bits));
  p ← index start (Z.to_nat si);
  order ← update order (Z.to_nat p) hash;
  start ← update start (Z.to_nat si) (p + 1);
  Ret (order, start).

(** ** Counting the keys of each cell *)

(** [t2count[i] += 4; t2count[i] ^= tag; t2hash[i] ^= hash] *)
Definition bump (counts hashes : list Z) (i tag hash : Z) : outcome (list Z * list Z) :=
  c ← index counts (Z.to_nat i);
  c ← uadd 8 c 4;
  counts ← update counts (Z.to_nat i) (Z.lxor c tag);
  h ← index hashes (Z.to_nat i);
  hashes ← update hashes (Z.to_nat i) (Z.lxor h hash);
  Ret (counts, hashes).

(** [t2count[i] -= 4; t2count[i] ^= tag; t2hash[i] ^= hash] *)
Definition unbump (counts hashes : list Z) (i tag hash : Z) : outcome (list Z * list Z) :=
  c ← index counts (Z.to_nat i);
  c ← usub 8 c 4;
  counts ← update counts (Z.to_nat i) (Z.lxor c tag);
  h ← index hashes (Z.to_nat i);
  hashes ← update hashes (Z.to_nat i) (Z.lxor h hash);
  Ret (counts, hashes).

Record counting := {
  c_count : list Z;
  c_hash : list Z;
  c_error : bool;
  c_duplicates : nat
}.

Definition count_key (g : geometry) (order : list Z) (s : counting) (i : nat) : outcome counting :=
  hash ← index order i;
  '(i1, i2, i3) ← hash_of_hash hash (g_segment_length g) (g_mask g) (g_segment_count_length g);
  '(c, h) ← bump (c_count s) (c_hash s) i1 0 hash;
  '(c, h) ← bump c h i2 1 hash;
  '(c, h) ← bump c h i3 2 hash;
  h1 ← index h (Z.to_nat i1); h2 ← index h (Z.to_nat i2); h3 ← index h (Z.to_nat i3);
  c1 ← index c (Z.to_nat i1); c2 ← index c (Z.to_nat i2); c3 ← index c (Z.to_nat i3);
  let duplicate :=
    (Z.land (Z.land h1 h2) h3 =? 0)
    && (((h1 =? 0) && (c1 =? 8)) || ((h2 =? 0) && (c2 =? 8)) || ((h3 =? 0) && (c3 =? 8))) in
  '(c, h) ← (if duplicate then
               '(c, h) ← unbump c h i1 0 hash;
               '(c, h) ← unbump c h i2 1 hash;
               unbump c h i3 2 hash
             else Ret (c, h));
  c1 ← index c (Z.to_nat i1); c2 ← index c (Z.to_nat i2); c3 ← index c (Z.to_nat i3);
  Ret {| c_count := c;
         c_hash := h;
         c_error := (c1 <? 4) || (c2 <? 4) || (c3 <? 4);
         c_duplicates := c_duplicates s + (if duplicate then 1 else 0) |}.

(** ** Peeling: repeatedly remove a key that is alone in some cell *)

Definition enqueue_cell (counts : list Z) (s : list Z * nat) (i : nat) : outcome (list Z * nat) :=
  let '(alone, qsize) := s in
  alone ← update alone qsize (wrap 32 (Z.of_nat i));
  c ← index counts i;
  Ret (alone, if Z.shiftr c 2 =? 1 then S qsize else qsize).

Record peeling := {
  p_alone : list Z;
  p_qsize : nat;
  p_count : list Z;
  p_hash : list Z;
  p_reverse_h : list Z;
  p_order : list Z;
  p_stack : nat
}.

(** Take the key away from one of its other cells, queueing the cell when the
    key leaves a single one behind. *)
Definition remove_from (other tag hash : Z) (s : peeling) : outcome peeling :=
  alone ← update (p_alone s) (p_qsize s) (wrap 32 other);
  c ← index (p_count s) (Z.to_nat other);
  let q := if Z.shiftr c 2 =? 2 then S (p_qsize s) else p_qsize s in
  '(counts, hashes) ← unbump (p_count s) (p_hash s) other tag hash;
  Ret {| p_alone := alone; p_qsize := q; p_count := counts; p_hash := hashes;
         p_reverse_h := p_reverse_h s; p_order := p_order s; p_stack := p_stack s |}.

Definition peel_one (g : geometry) (s : peeling) : outcome peeling :=
  let q := (p_qsize s - 1)%nat in
  idx ← index (p_alone s) q;
  c ← index (p_count s) (Z.to_nat idx);
  let s := {| p_alone := p_alone s; p_qsize := q; p_count := p_count s; p_hash := p_hash s;
              p_reverse_h := p_reverse_h s; p_order := p_order s; p_stack := p_stack s |} in
  if negb (Z.shiftr c 2 =? 1) then Ret s else
  hash ← index (p_hash s) (Z.to_nat idx);
  let found := Z.land c 3 in
  rh ← update (p_reverse_h s) (p_stack s) found;
  ro ← update (p_order s) (p_stack s) hash;
  let s := {| p_alone := p_alone s; p_qsize := q; p_count := p_count s; p_hash := p_hash s;
              p_reverse_h := rh; p_order := ro; p_stack := S (p_stack s) |} in
  '(i1, i2, i3) ← hash_of_hash hash (g_segment_length g) (g_mask g) (g_segment_count_length g);
  let h012 := [0; i2; i3; i1; i2; 0] in
  o1 ← index h012 (Z.to_nat (found + 1));
  s ← remove_from o1 (mod3 (found + 1)) hash s;
  o2 ← index h012 (Z.to_nat (found + 2));
  remove_from o2 (mod3 (found + 2)) hash s.

Fixpoint peel_loop (fuel : nat) (g : geometry) (s : peeling) : outcome peeling :=
  if (p_qsize s =? 0)%nat then Ret s else
  match fuel with
  | O => Diverge
  | S fuel => s ← peel_one g s; peel_loop fuel g s
  end.

(** ** One attempt, and the retries *)

Inductive attempt_outcome :=
  | Built (ultimate_size : nat) (t : tables)
  | CountError (t : tables)
  | PeelFailed (t : tables).

(** Every round pops one entry and pushes at most two after a key is stacked;
    the stack array holds [size] keys. *)
Definition peel_fuel (capacity size : nat) : nat := (capacity + 2 * size + 1)%nat.

Definition attempt (g : geometry) (bits : Z) (keys : list Z) (seed : Z) (t : tables) : outcome attempt_outcome :=
  let size := length keys in
  let capacity := g_array_len g in
  start ← start_positions size bits;
  '(order, _) ← foldM (place bits seed) (reverse_order t, start) keys;
  cs ← foldM (count_key g order)
         {| c_count := t2count t; c_hash := t2hash t; c_error := false; c_duplicates := 0 |}
         (seq 0 size);
  if c_error cs then
    Ret (CountError {| alone := alone t; t2count := c_count cs; t2hash := c_hash cs;
                       reverse_h := reverse_h t; reverse_order := order |})
  else
  '(al, qsize) ← foldM (enqueue_cell (c_count cs)) (alone t, 0%nat) (seq 0 capacity);
  p ← peel_loop (peel_fuel capacity size) g
        {| p_alone := al; p_qsize := qsize; p_count := c_count cs; p_hash := c_hash cs;
           p_reverse_h := reverse_h t; p_order := order; p_stack := 0 |};
  let t := {| alone := p_alone p; t2count := p_count p; t2hash := p_hash p;
              reverse_h := p_reverse_h p; reverse_order := p_order p |} in
  Ret (if (p_stack p + c_duplicates cs =? size)%nat then Built (p_stack p) t else PeelFailed t).

(** The reset before a retry: the first [size] hashes and the whole tables. *)
Definition reset_tables (size capacity : nat) (t : tables) : tables :=
  {| alone := alone t;
     t2count := replicate capacity 0 ++ drop capacity (t2count t);
     t2hash := replicate capacity 0 ++ drop capacity (t2hash t);
     reverse_h := reverse_h t;
     reverse_order := replicate size 0 ++ drop size (reverse_order t) |}.

(** After a counting error the loop continues with the same seed and tables. *)
Fixpoint attempts (n : nat) (g : geometry) (bits : Z) (keys : list Z) (rng seed : Z) (t : tables)
    : outcome (option (Z * nat * tables)) :=
  match n with
  | O => Ret None
  | S n =>
    r ← attempt g bits keys seed t;
    match r with
    | Built u t => Ret (Some (seed, u, t))
    | CountError t => attempts n g bits keys rng seed t
    | PeelFailed t =>
      let '(seed, rng) := splitmix64 rng in
      attempts n g bits keys rng seed (reset_tables (length keys) (g_array_len g) t)
    end
  end.

(** ** Assigning the fingerprints, last peeled key first *)

Definition assign_one (g : geometry) (t : tables) (fps : list Z) (i : nat) : outcome (list Z) :=
  hash ← index (reverse_order t) i;
  let xor2 := fingerprint hash in
  '(i1, i2, i3) ← hash_of_hash hash (g_segment_length g) (g_mask g) (g_segment_count_length g);
  found ← index (reverse_h t) i;
  let h012 := [i1; i2; i3; i1; i2; 0] in
  slot ← index h012 (Z.to_nat found);
  a ← index h012 (Z.to_nat found + 1);
  fa ← index fps (Z.to_nat a);
  b ← index h012 (Z.to_nat found + 2);
  fb ← index fps (Z.to_nat b);
  update fps (Z.to_nat slot) (Z.lxor (Z.lxor xor2 fa) fb).

Definition assign_all (g : geometry) (t : tables) (ultimate_size : nat) (fps : list Z) : outcome (list Z) :=
  foldM (assign_one g t) fps (rev (seq 0 ultimate_size)).

(** ** Construction *)

(** [random_u16 i]: the [i]-th 16-bit value the thread's generator fills in. *)
Definition try_from_iterator (random_u16 : nat -> Z) (keys : list Z)
    : outcome (result BinaryFuse16 string) :=
  let size := length keys in
  if (size =? 0)%nat then
    Ret (Ok {| descriptor := {| seed := 0; segment_length_ := 0; segment_length_mask := 0;
                                segment_count_length := 0 |};
               fingerprints := [] |})
  else if debug_assertions && negb (bool_decide (NoDup keys)) then Panic
  else
  g ← geometry_of size;
  let fps := random_u16 <$> seq 0 (g_array_len g) in
  let '(s0, rng) := splitmix64 1 in
  let capacity := length fps in
  let t := {| alone := replicate capacity 0;
              t2count := replicate capacity 0;
              t2hash := replicate capacity 0;
              reverse_h := replicate size 0;
              reverse_order := replicate size 0 ++ [1] |} in
  bits ← block_bits_of (g_segment_count g);
  r ← attempts MAX_ITER g bits keys rng s0 t;
  match r with
  | None => Ret (Err "Failed to construct binary fuse filter."%string)
  | Some (seed, ultimate_size, t) =>
    fps ← assign_all g t ultimate_size fps;
    Ret (Ok {| descriptor := {| seed := seed;
                                segment_length_ := g_segment_length g;
                                segment_length_mask := g_mask g;
                                segment_count_length := g_segment_count_length g |};
               fingerprints := fps |})
  end.

(** [BinaryFuse16::try_from(&[String])] *)
Definition try_from_strings (random_u16 : nat -> Z) (keys : list string)
    : outcome (result BinaryFuse16 string) :=
  ks ← mapM_out gen_key_str keys;
  try_from_iterator random_u16 ks.

End Filter.

(** ** Wire format: u16 length, 20-byte descriptor, u16 fingerprints *)

Definition serialize (f : BinaryFuse16) : list Z :=
  let d := descriptor f in
  to_le_bytes 2 (wrap 16 (Z.of_nat (length (fingerprints f))))
  ++ to_le_bytes 8 (seed d)
  ++ to_le_bytes 4 (segment_length_ d)
  ++ to_le_bytes 4 (segment_length_mask d)
  ++ to_le_bytes 4 (segment_count_length d)
  ++ concat (to_le_bytes 2 <$> fingerprints f).

(** [len] little-endian u16s starting at [offset] *)
Fixpoint read_u16s (bs : list Z) (offset len : nat) : outcome (list Z) :=
  match len with
  | O => Ret []
  | S len =>
    w ← slice bs offset (offset + 2);
    ws ← read_u16s bs (offset + 2) len;
    Ret (from_le_bytes w :: ws)
  end.

Definition deserialize (bs : list Z) : outcome (result BinaryFuse16 string) :=
  if (length bs <? 22)%nat then Ret (Err "Input too short for BinaryFuse16"%string) else
  b0 ← index bs 0;
  b1 ← index bs 1;
  let len := Z.to_nat (from_le_bytes [b0; b1]) in
  let expected_size := (2 + Descriptor_LEN + len * 2)%nat in
  if negb (length bs =? expected_size)%nat then Ret (Err "Invalid BinaryFuse16 data length"%string) else
  sd ← slice bs 2 10;
  sl ← slice bs 10 14;
  sm ← slice bs 14 18;
  sc ← slice bs 18 22;
  fps ← read_u16s bs 22 len;
  Ret (Ok {| descriptor := {| seed := from_le_bytes sd;
                              segment_length_ := from_le_bytes sl;
                              segment_length_mask := from_le_bytes sm;
                              segment_count_length := from_le_bytes sc |};
             fingerprints := fps |}).
