(* ===== verification/FuseTables.v ===== *)
(** * The counting tables of the BinaryFuse16 construction.

    [t2count] and [t2hash] describe, cell by cell, a multiset of hashes: how
    many use the cell, the xor of their positions and the xor of the hashes.  First, where
    the filter looks: the sizing formulas give a power-of-two segment length whatever
    the [libm] functions return, and with it the three cells of every 64-bit hash lie in
    three consecutive segments: they are distinct and inside the array. *)

From stdpp Require Import base list strings sets.
From Stdlib Require Import ZArith Lia SpecFloat.
From S2P Require Import Prelude RustInt RustStr XxHash Float64 Fuse.

Local Open Scope Z_scope.

(** What the construction relies on about its geometry. *)
Record geometry_ok (g : geometry) : Prop := {
  gok_log : exists k, 0 <= k <= 18 /\ g_segment_length g = 2 ^ k /\ g_mask g = 2 ^ k - 1;
  gok_count : 1 <= g_segment_count g;
  gok_count_length : g_segment_count_length g = g_segment_count g * g_segment_length g;
  gok_array : Z.of_nat (g_array_len g) = (g_segment_count g + 2) * g_segment_length g;
  gok_bound : Z.of_nat (g_array_len g) < 2 ^ 32
}.

(** The cells as plain arithmetic. *)
Definition cell0 (g : geometry) (h : Z) : Z := Z.shiftr (h * g_segment_count_length g) 64.
Definition cell1 (g : geometry) (h : Z) : Z :=
  Z.lxor (cell0 g h + g_segment_length g) (Z.land (wrap 32 (Z.shiftr h 18)) (g_mask g)).
Definition cell2 (g : geometry) (h : Z) : Z :=
  Z.lxor (cell0 g h + g_segment_length g + g_segment_length g) (Z.land (wrap 32 h) (g_mask g)).

Lemma mix_fits key seed : fits 64 (mix key seed).
Proof. unfold mix, mix64. eauto 12 with fits. Qed.

Lemma fingerprint_fits h : fits 16 (fingerprint h).
Proof. apply wrap_fits. lia. Qed.

(** Xor with masked bits stays in the same power-of-two block. *)
Lemma lxor_mask_block a x k :
  0 <= a -> 0 <= k -> Z.lxor a (Z.land x (2 ^ k - 1)) / 2 ^ k = a / 2 ^ k.
Proof.
  intros Ha Hk. rewrite <-!Z.shiftr_div_pow2 by done. rewrite Z.shiftr_lxor.
  replace (2 ^ k - 1) with (Z.ones k) by (rewrite Z.ones_equiv; lia).
  rewrite Z.land_ones by done. rewrite (Z.shiftr_div_pow2 (x mod 2 ^ k)) by done.
  rewrite Z.div_small; [by rewrite Z.lxor_0_r|].
  apply Z.mod_pos_bound. apply Z.pow_pos_nonneg; lia.
Qed.

Lemma lxor_mask_nonneg a x k : 0 <= a -> 0 <= k -> 0 <= Z.lxor a (Z.land x (2 ^ k - 1)).
Proof.
  intros Ha Hk. apply Z.lxor_nonneg. split; [intros _|done].
  apply Z.land_nonneg. right. pose proof (Z.pow_pos_nonneg 2 k). lia.
Qed.

Section Cells.
  Context (g : geometry) (Hg : geometry_ok g).

Lemma cell0_range h : fits 64 h -> 0 <= cell0 g h < g_segment_count_length g.
Proof.
  intros Hh. destruct Hg as [(k & Hk & Hsl & _) Hc Hcl _ _]. unfold fits in Hh.
  pose proof (Z.pow_pos_nonneg 2 k). unfold cell0. rewrite Z.shiftr_div_pow2 by lia.
  split; [apply Z.div_pos; nia|]. apply Z.div_lt_upper_bound; nia.
Qed.

(** Segment [n] of the array, as a block number. *)
Lemma cell_blocks h :
  fits 64 h -> exists k b, 0 <= k /\ 0 <= b < g_segment_count g /\ g_segment_length g = 2 ^ k /\
    cell0 g h / 2 ^ k = b /\ cell1 g h / 2 ^ k = b + 1 /\ cell2 g h / 2 ^ k = b + 2 /\
    0 <= cell0 g h /\ 0 <= cell1 g h /\ 0 <= cell2 g h.
Proof.
  intros Hh. pose proof (cell0_range h Hh) as Hr.
  destruct Hg as [(k & Hk & Hsl & Hm) Hc Hcl _ _]. pose proof (Z.pow_pos_nonneg 2 k) as Hp.
  exists k, (cell0 g h / 2 ^ k). unfold cell1, cell2. rewrite Hm, Hsl in *.
  assert (0 <= cell0 g h / 2 ^ k < g_segment_count g).
  { split; [apply Z.div_pos; lia|]. apply Z.div_lt_upper_bound; nia. }
  rewrite !lxor_mask_block by lia.
  rewrite <-!Z.add_assoc, (Z.add_diag (2 ^ k)), Z.div_add by lia.
  replace (cell0 g h + 2 ^ k) with (cell0 g h + 1 * 2 ^ k) by lia. rewrite Z.div_add by lia.
  repeat split; try lia; apply lxor_mask_nonneg; lia.
Qed.

Lemma cells_distinct h :
  fits 64 h -> cell0 g h <> cell1 g h /\ cell0 g h <> cell2 g h /\ cell1 g h <> cell2 g h.
Proof.
  intros (k & b & ? & ? & _ & H0 & H1 & H2 & _)%cell_blocks. repeat split; intros E; rewrite E in *; lia.
Qed.

Lemma cells_bound h :
  fits 64 h ->
  (0 <= cell0 g h < Z.of_nat (g_array_len g)) /\ (0 <= cell1 g h < Z.of_nat (g_array_len g)) /\
  (0 <= cell2 g h < Z.of_nat (g_array_len g)).
Proof.
  intros (k & b & Hk & Hb & Hsl & H0 & H1 & H2 & ? & ? & ?)%cell_blocks.
  destruct Hg as [_ Hc _ Ha _]. rewrite Ha, Hsl. pose proof (Z.pow_pos_nonneg 2 k) as Hp.
  assert (forall x n, 0 <= x -> x / 2 ^ k = n -> n < g_segment_count g + 2 -> x < (g_segment_count g + 2) * 2 ^ k).
  { intros x n Hx <- Hn. pose proof (Z.mul_succ_div_gt x (2 ^ k)). nia. }
  repeat split; try lia; eauto with lia.
Qed.

Lemma hash_of_hash_cells `{Profile} h :
  fits 64 h ->
  hash_of_hash h (g_segment_length g) (g_mask g) (g_segment_count_length g)
  = Ret (cell0 g h, cell1 g h, cell2 g h).
Proof.
  intros Hh. pose proof (cell0_range h Hh) as Hr.
  destruct Hg as [(k & Hk & Hsl & Hm) Hc Hcl Ha Hb]. pose proof (Z.pow_pos_nonneg 2 k) as Hp.
  assert (cell0 g h + 2 * 2 ^ k < 2 ^ 32) as Hlt by nia.
  assert (wrap 32 (wrap 64 (Z.shiftr (h * g_segment_count_length g) 64)) = cell0 g h) as E.
  { fold (cell0 g h). change (2 ^ 32) with 4294967296 in Hlt.
    rewrite (wrap_id 64) by (unfold fits; lia).
    apply wrap_id. unfold fits. change (2 ^ 32) with 4294967296. lia. }
  unfold hash_of_hash. cbv zeta. rewrite E. unfold uadd.
  rewrite arith_fits by (unfold fits; rewrite Hsl; lia). red_bind.
  rewrite arith_fits by (unfold fits; rewrite Hsl; lia). done.
Qed.

End Cells.

(** The geometry of a build that checks overflow: the segment length is a power
    of two for every possible [libm]. *)
Lemma segment_length_pow2 `{P : Profile, L : Libm} a n sl :
  segment_length a n = Ret sl -> exists k, 0 <= k < 32 /\ sl = 2 ^ k.
Proof.
  unfold segment_length. case_match; [intros; inv_ret; by exists 2|].
  assert (forall x sl, fits 32 x -> ushl 32 1 x = Ret sl -> exists k, 0 <= k < 32 /\ sl = 2 ^ k) as Hs.
  { intros x sl' Hx. unfold ushl, wrap. unfold fits in Hx.
    assert (forall k, 0 <= k < 32 -> Z.shiftl 1 k mod 2 ^ 32 = 2 ^ k) as Hsh.
    { intros k Hk. rewrite Z.shiftl_1_l, Z.mod_small; [done|].
      split; [apply Z.pow_nonneg; lia|]. apply Z.pow_lt_mono_r; lia. }
    destruct (_ && _)%bool eqn:E.
    - rewrite Hsh by lia. intros; inv_ret. exists x. lia.
    - destruct overflow_checks; [done|]. rewrite Hsh by (apply Z.mod_pos_bound; lia).
      intros; inv_ret. exists (x mod 32). pose proof (Z.mod_pos_bound x 32). lia. }
  case_match; [apply Hs, f64_to_uint_fits; lia|].
  case_match; [apply Hs, f64_to_uint_fits; lia|].
  intros; inv_ret. by exists 16.
Qed.

Lemma geometry_of_ok `{P : Profile, L : Libm} size g :
  overflow_checks = true -> geometry_of size = Ret g -> geometry_ok g.
Proof.
  intros Hoc. unfold geometry_of, usub, uadd, umul, arity. cbv zeta. intros H.
  apply bind_Ret in H as (sl & Hsl & H). apply segment_length_pow2 in Hsl as (k & Hk & ->).
  assert (exists k', 0 <= k' <= 18 /\ Z.min (2 ^ k) 262144 = 2 ^ k') as (k' & Hk' & E).
  { destruct (decide (k <= 18)) as [Hle|Hgt].
    - exists k. split; [lia|]. assert (2 ^ k <= 2 ^ 18) by (apply Z.pow_le_mono_r; lia).
      change (2 ^ 18) with 262144 in *. lia.
    - exists 18. split; [lia|]. assert (2 ^ 18 < 2 ^ k) by (apply Z.pow_lt_mono_r; lia).
      change (2 ^ 18) with 262144 in *. lia. }
  rewrite E in H. clear E. pose proof (Z.pow_pos_nonneg 2 k') as Hp.
  apply bind_Ret in H as (mask & Hm & H). apply arith_checked in Hm as [_ ->]; [|done].
  apply bind_Ret in H as (init & _ & H). apply bind_Ret in H as (al0 & _ & H).
  apply bind_Ret in H as (prop & _ & H). apply bind_Ret in H as (sc & Hsc & H).
  assert (1 <= sc).
  { destruct (Z.ltb_spec prop 3); inv_ret; [lia|].
    apply arith_checked in Hsc as [_ ->]; [lia|done]. }
  apply bind_Ret in H as (t & Ht & H). apply arith_checked in Ht as [_ ->]; [|done].
  apply bind_Ret in H as (t & Ht & H). apply arith_checked in Ht as [_ ->]; [|done].
  apply bind_Ret in H as (al & Hal & H). apply arith_checked in Hal as [Hal ->]; [|done].
  apply bind_Ret in H as (cl & Hcl & H). apply arith_checked in Hcl as [_ ->]; [|done].
  inv_ret. unfold fits in Hal. split; simpl; [by exists k'|done|done|lia|lia].
Qed.


(** ** What a table of counts and xors says about a set of hashes *)

(** The position (0, 1, 2) at which hash [h] uses cell [c]. *)
Definition pos (g : geometry) (h c : Z) : option Z :=
  if cell0 g h =? c then Some 0 else if cell1 g h =? c then Some 1
  else if cell2 g h =? c then Some 2 else None.

Definition weight (o : option Z) : Z := match o with Some _ => 1 | None => 0 end.

Fixpoint cnt (g : geometry) (R : list Z) (c : Z) : Z :=
  match R with [] => 0 | h :: R => weight (pos g h c) + cnt g R c end.

Fixpoint tagx (g : geometry) (R : list Z) (c : Z) : Z :=
  match R with [] => 0 | h :: R => Z.lxor (default 0 (pos g h c)) (tagx g R c) end.

Fixpoint hashx (g : geometry) (R : list Z) (c : Z) : Z :=
  match R with [] => 0 | h :: R => Z.lxor (match pos g h c with Some _ => h | None => 0 end) (hashx g R c) end.

(** The pair of entries ([t2count], [t2hash]) the code holds for a cell. *)
Definition entry (g : geometry) (R : list Z) (c : Z) : Z * Z :=
  (4 * cnt g R c + tagx g R c, hashx g R c).

(** Reduce the table predicates without looking inside the cell arithmetic. *)
Ltac csimp := cbn [cnt tagx hashx weight default from_option fst snd id] in *.

(** The two tables hold the pairs of [f]. *)
Definition tab (cap : nat) (counts hashes : list Z) (f : Z -> Z * Z) : Prop :=
  length counts = cap /\ length hashes = cap /\
  forall c, 0 <= c < Z.of_nat cap ->
    counts !! Z.to_nat c = Some (fst (f c)) /\ hashes !! Z.to_nat c = Some (snd (f c)).

(** ** Bit arithmetic of the count encoding *)

Lemma lxor_tag n t s :
  0 <= n -> 0 <= t < 4 -> 0 <= s < 4 -> Z.lxor (4 * n + t) s = 4 * n + Z.lxor t s.
Proof.
  intros Hn Ht Hs.
  assert (t = 0 \/ t = 1 \/ t = 2 \/ t = 3) as [-> |[-> |[-> | ->]]] by lia;
  assert (s = 0 \/ s = 1 \/ s = 2 \/ s = 3) as [-> |[-> |[-> | ->]]] by lia;
  destruct n as [|p|p]; try lia; reflexivity.
Qed.

Lemma lxor_small t s : 0 <= t < 4 -> 0 <= s < 4 -> 0 <= Z.lxor t s < 4.
Proof. intros. change 4 with (2 ^ 2). apply (lxor_fits 2); done. Qed.

Lemma shiftr_tag n t : 0 <= t < 4 -> Z.shiftr (4 * n + t) 2 = n.
Proof.
  intros. rewrite Z.shiftr_div_pow2 by lia. change (2 ^ 2) with 4.
  rewrite Z.mul_comm, Z.div_add_l, Z.div_small by lia. lia.
Qed.

Lemma land_tag n t : 0 <= t < 4 -> Z.land (4 * n + t) 3 = t.
Proof.
  intros. change 3 with (Z.ones 2). rewrite Z.land_ones by lia. change (2 ^ 2) with 4.
  rewrite Z.mul_comm, Z.add_comm, Z_mod_plus_full. by apply Z.mod_small.
Qed.

Lemma lxor_cancel_l a b : Z.lxor a (Z.lxor a b) = b.
Proof. by rewrite <-Z.lxor_assoc, Z.lxor_nilpotent, Z.lxor_0_l. Qed.

Lemma lxor_cancel_r a b : Z.lxor (Z.lxor a b) b = a.
Proof. by rewrite Z.lxor_assoc, Z.lxor_nilpotent, Z.lxor_0_r. Qed.

Section Build.
  Context (g : geometry) (Hg : geometry_ok g).

Lemma pos_range h c j : pos g h c = Some j -> 0 <= j < 3.
Proof. unfold pos. repeat case_match; intros; simplify_eq; lia. Qed.

Lemma default_pos_range h c : 0 <= default 0 (pos g h c) < 4.
Proof. destruct (pos g h c) eqn:E; csimp; [apply pos_range in E|]; lia. Qed.

Lemma weight_range h c : 0 <= weight (pos g h c) <= 1.
Proof. by destruct (pos g h c). Qed.

Lemma cnt_nonneg R c : 0 <= cnt g R c.
Proof. induction R as [|h R IH]; csimp; [done|]. pose proof (weight_range h c). lia. Qed.

Lemma tagx_range R c : 0 <= tagx g R c < 4.
Proof.
  induction R as [|h R IH]; csimp; [lia|]. apply lxor_small; [apply default_pos_range|done].
Qed.

Lemma cnt_perm R1 R2 c : R1 ≡ₚ R2 -> cnt g R1 c = cnt g R2 c.
Proof. induction 1; csimp; lia. Qed.

Lemma tagx_perm R1 R2 c : R1 ≡ₚ R2 -> tagx g R1 c = tagx g R2 c.
Proof.
  induction 1; csimp; try congruence. rewrite <-!Z.lxor_assoc. f_equal. apply Z.lxor_comm.
Qed.

Lemma hashx_perm R1 R2 c : R1 ≡ₚ R2 -> hashx g R1 c = hashx g R2 c.
Proof.
  induction 1; csimp; try congruence. rewrite <-!Z.lxor_assoc. f_equal. apply Z.lxor_comm.
Qed.

Lemma entry_perm R1 R2 c : R1 ≡ₚ R2 -> entry g R1 c = entry g R2 c.
Proof. intros HR. unfold entry. by rewrite (cnt_perm _ _ c HR), (tagx_perm _ _ c HR), (hashx_perm _ _ c HR). Qed.

Lemma entry_count R c : Z.shiftr (fst (entry g R c)) 2 = cnt g R c.
Proof. apply shiftr_tag, tagx_range. Qed.

Lemma entry_tag R c : Z.land (fst (entry g R c)) 3 = tagx g R c.
Proof. apply land_tag, tagx_range. Qed.

Lemma cnt_pos R c h : h ∈ R -> pos g h c <> None -> 1 <= cnt g R c.
Proof.
  intros [R1 [R2 ->]]%list_elem_of_split Hp. rewrite (cnt_perm _ (h :: R1 ++ R2)) by (by rewrite Permutation_middle).
  csimp. pose proof (cnt_nonneg (R1 ++ R2) c). destruct (pos g h c); [csimp; lia|done].
Qed.

(** A cell that nothing uses. *)
Lemma cnt_zero R c : cnt g R c = 0 -> tagx g R c = 0 /\ hashx g R c = 0 /\ Forall (fun h => pos g h c = None) R.
Proof.
  induction R as [|h R IH]; csimp; intros Hc; [done|].
  pose proof (cnt_nonneg R c). pose proof (weight_range h c).
  destruct (pos g h c) eqn:E; csimp; [lia|].
  destruct IH as (-> & -> & HF); [lia|]. csimp. split_and!; [done..|]. by constructor.
Qed.

(** A cell used once: its table entries are the key and the position. *)
Lemma cnt_one R c :
  cnt g R c = 1 ->
  exists h R' j, R ≡ₚ h :: R' /\ pos g h c = Some j /\ cnt g R' c = 0 /\
    tagx g R c = j /\ hashx g R c = h.
Proof.
  induction R as [|h R IH]; csimp; intros Hc; [done|].
  destruct (pos g h c) as [j|] eqn:E; csimp.
  - destruct (cnt_zero R c) as (Ht & Hh & _); [lia|].
    exists h, R, j. rewrite E, Ht, Hh, !Z.lxor_0_r. csimp. split_and!; [done|done|lia|done|done].
  - destruct IH as (h' & R' & j & HR & Hp & Hz & Ht & Hh); [lia|].
    exists h', (h :: R'), j. csimp. rewrite ?E, ?Z.lxor_0_l. csimp.
    split_and!; [rewrite HR; apply perm_swap|done|lia|by rewrite ?Z.lxor_0_l..].
Qed.

(** A cell used twice whose xor of keys is zero is used by two equal keys. *)
Lemma cnt_two_equal R c h j :
  cnt g R c = 1 -> pos g h c = Some j -> Z.lxor h (hashx g R c) = 0 -> h ∈ R.
Proof.
  intros (h' & R' & j' & HR & _ & _ & _ & ->)%cnt_one _ Hx%Z.lxor_eq. subst. rewrite HR. set_solver.
Qed.

(** ** The table operations on the pairs *)

Definition upd (f : Z -> Z * Z) (i : Z) (v : Z * Z) : Z -> Z * Z :=
  fun c => if c =? i then v else f c.

Lemma tab_update cap counts hashes f i x y :
  0 <= i < Z.of_nat cap -> tab cap counts hashes f ->
  tab cap (<[Z.to_nat i := x]> counts) (<[Z.to_nat i := y]> hashes) (upd f i (x, y)).
Proof.
  intros Hi (Hc & Hh & Hf). split_and!; [by rewrite length_insert..|].
  intros c Hcr. unfold upd. destruct (Z.eqb_spec c i) as [->|Hne]; csimp.
  - rewrite !list_lookup_insert_eq by lia. done.
  - rewrite !list_lookup_insert_ne by lia. by apply Hf.
Qed.

Lemma tab_ext cap counts hashes f f' :
  (forall c, 0 <= c < Z.of_nat cap -> f c = f' c) -> tab cap counts hashes f -> tab cap counts hashes f'.
Proof. intros Hext (? & ? & Hf). split_and!; [done..|]. intros c Hc. rewrite <-Hext by done. by apply Hf. Qed.

Lemma tab_index_count cap counts hashes f i x :
  0 <= i < Z.of_nat cap -> tab cap counts hashes f ->
  index counts (Z.to_nat i) = Ret x -> x = fst (f i).
Proof. intros Hi (_ & _ & Hf) Hx%index_Ret. destruct (Hf i Hi). congruence. Qed.

Lemma tab_index_hash cap counts hashes f i x :
  0 <= i < Z.of_nat cap -> tab cap counts hashes f ->
  index hashes (Z.to_nat i) = Ret x -> x = snd (f i).
Proof. intros Hi (_ & _ & Hf) Hx%index_Ret. destruct (Hf i Hi). congruence. Qed.

Context `{P : Profile} (Hoc : overflow_checks = true).

Lemma bump_tab cap counts hashes f i tag hash c' h' :
  0 <= i < Z.of_nat cap -> tab cap counts hashes f ->
  bump counts hashes i tag hash = Ret (c', h') ->
  tab cap c' h' (upd f i (Z.lxor (fst (f i) + 4) tag, Z.lxor (snd (f i)) hash)).
Proof.
  intros Hi Ht H. unfold bump, uadd in H.
  apply bind_Ret in H as (c & Hc & H). apply (tab_index_count cap _ hashes f) in Hc as ->; [|done..].
  apply bind_Ret in H as (c & Hc & H). apply arith_checked in Hc as [_ ->]; [|done].
  apply bind_Ret in H as (l & Hl & H). apply update_Ret in Hl as [_ ->].
  apply bind_Ret in H as (h & Hh & H). apply (tab_index_hash cap counts _ f) in Hh as ->; [|done..].
  apply bind_Ret in H as (l & Hl & H). apply update_Ret in Hl as [_ ->].
  inv_ret. by apply tab_update.
Qed.

Lemma unbump_tab cap counts hashes f i tag hash c' h' :
  0 <= i < Z.of_nat cap -> tab cap counts hashes f ->
  unbump counts hashes i tag hash = Ret (c', h') ->
  tab cap c' h' (upd f i (Z.lxor (fst (f i) - 4) tag, Z.lxor (snd (f i)) hash)).
Proof.
  intros Hi Ht H. unfold unbump, usub in H.
  apply bind_Ret in H as (c & Hc & H). apply (tab_index_count cap _ hashes f) in Hc as ->; [|done..].
  apply bind_Ret in H as (c & Hc & H). apply arith_checked in Hc as [_ ->]; [|done].
  apply bind_Ret in H as (l & Hl & H). apply update_Ret in Hl as [_ ->].
  apply bind_Ret in H as (h & Hh & H). apply (tab_index_hash cap counts _ f) in Hh as ->; [|done..].
  apply bind_Ret in H as (l & Hl & H). apply update_Ret in Hl as [_ ->].
  inv_ret. by apply tab_update.
Qed.

(** What one bump, or one unbump, does to the encoded entry. *)
Lemma entry_bump R h c j :
  pos g h c = Some j ->
  entry g (h :: R) c = (Z.lxor (fst (entry g R c) + 4) j, Z.lxor (snd (entry g R c)) h).
Proof.
  intros Hp. pose proof (pos_range _ _ _ Hp). pose proof (tagx_range R c). pose proof (cnt_nonneg R c).
  unfold entry. csimp. rewrite Hp. csimp. f_equal; [|apply Z.lxor_comm].
  replace (4 * cnt g R c + tagx g R c + 4) with (4 * (1 + cnt g R c) + tagx g R c) by lia.
  rewrite lxor_tag by lia. by rewrite Z.lxor_comm.
Qed.

Lemma entry_unbump R h c j :
  pos g h c = Some j ->
  entry g R c = (Z.lxor (fst (entry g (h :: R) c) - 4) j, Z.lxor (snd (entry g (h :: R) c)) h).
Proof.
  intros Hp. pose proof (pos_range _ _ _ Hp). pose proof (tagx_range R c). pose proof (cnt_nonneg R c).
  pose proof (tagx_range (h :: R) c) as Ht. unfold entry. csimp. rewrite Hp in *. csimp. f_equal.
  - replace (4 * (1 + cnt g R c) + Z.lxor j (tagx g R c) - 4) with (4 * cnt g R c + Z.lxor j (tagx g R c)) by lia.
    rewrite lxor_tag by lia. rewrite (Z.lxor_comm j), lxor_cancel_r. done.
  - rewrite Z.lxor_comm. by rewrite lxor_cancel_l.
Qed.

Lemma entry_other R h c : pos g h c = None -> entry g (h :: R) c = entry g R c.
Proof. intros Hp. unfold entry. csimp. by rewrite Hp, !Z.lxor_0_l. Qed.

Lemma pos_cell0 h : pos g h (cell0 g h) = Some 0.
Proof. unfold pos. by rewrite Z.eqb_refl. Qed.

Lemma pos_cell1 h : fits 64 h -> pos g h (cell1 g h) = Some 1.
Proof.
  intros Hh. destruct (cells_distinct g Hg h Hh) as (H01 & H02 & H12). unfold pos.
  destruct (Z.eqb_spec (cell0 g h) (cell1 g h)); [done|]. by rewrite Z.eqb_refl.
Qed.

Lemma pos_cell2 h : fits 64 h -> pos g h (cell2 g h) = Some 2.
Proof.
  intros Hh. destruct (cells_distinct g Hg h Hh) as (H01 & H02 & H12). unfold pos.
  destruct (Z.eqb_spec (cell0 g h) (cell2 g h)), (Z.eqb_spec (cell1 g h) (cell2 g h)); try done.
  by rewrite Z.eqb_refl.
Qed.

Lemma pos_None h c : c <> cell0 g h -> c <> cell1 g h -> c <> cell2 g h -> pos g h c = None.
Proof.
  intros. unfold pos. destruct (Z.eqb_spec (cell0 g h) c), (Z.eqb_spec (cell1 g h) c), (Z.eqb_spec (cell2 g h) c); congruence.
Qed.

Lemma pos_cells h c : fits 64 h ->
  (c = cell0 g h /\ pos g h c = Some 0) \/ (c = cell1 g h /\ pos g h c = Some 1) \/
  (c = cell2 g h /\ pos g h c = Some 2) \/
  (c <> cell0 g h /\ c <> cell1 g h /\ c <> cell2 g h /\ pos g h c = None).
Proof.
  intros Hh. pose proof (pos_cell0 h). pose proof (pos_cell1 h Hh). pose proof (pos_cell2 h Hh).
  pose proof (pos_None h c).
  destruct (decide (c = cell0 g h)) as [->|]; [auto|].
  destruct (decide (c = cell1 g h)) as [->|]; [auto|].
  destruct (decide (c = cell2 g h)) as [->|]; [auto|]. tauto.
Qed.

Lemma upd_eq f i v : upd f i v i = v.
Proof. unfold upd. by rewrite Z.eqb_refl. Qed.

Lemma upd_ne f i v c : c <> i -> upd f i v c = f c.
Proof. intros. unfold upd. by destruct (Z.eqb_spec c i). Qed.

#[local] Abbreviation cap := (g_array_len g).

(** The three bumps of a key add it to the set the tables describe. *)
Lemma three_bumps counts hashes R h c1 h1 c2 h2 c3 h3 :
  fits 64 h -> tab cap counts hashes (entry g R) ->
  bump counts hashes (cell0 g h) 0 h = Ret (c1, h1) ->
  bump c1 h1 (cell1 g h) 1 h = Ret (c2, h2) ->
  bump c2 h2 (cell2 g h) 2 h = Ret (c3, h3) ->
  tab cap c3 h3 (entry g (h :: R)).
Proof.
  intros Hh Ht B1 B2 B3. destruct (cells_bound g Hg h Hh) as (b0 & b1 & b2).
  destruct (cells_distinct g Hg h Hh) as (d01 & d02 & d12).
  eapply bump_tab in B1; [|done..]. eapply bump_tab in B2; [|done..]. eapply bump_tab in B3; [|done..].
  eapply tab_ext; [|exact B3]. intros c _.
  destruct (pos_cells h c Hh) as [[-> Hp]|[[-> Hp]|[[-> Hp]|(n0 & n1 & n2 & Hp)]]].
  - rewrite !upd_ne by done. rewrite upd_eq. by rewrite (entry_bump _ _ _ 0).
  - rewrite upd_ne by done. rewrite upd_eq, upd_ne by done. by rewrite (entry_bump _ _ _ 1).
  - rewrite upd_eq, !upd_ne by done. by rewrite (entry_bump _ _ _ 2).
  - rewrite !upd_ne by done. by rewrite entry_other.
Qed.

Lemma three_unbumps counts hashes R h c1 h1 c2 h2 c3 h3 :
  fits 64 h -> tab cap counts hashes (entry g (h :: R)) ->
  unbump counts hashes (cell0 g h) 0 h = Ret (c1, h1) ->
  unbump c1 h1 (cell1 g h) 1 h = Ret (c2, h2) ->
  unbump c2 h2 (cell2 g h) 2 h = Ret (c3, h3) ->
  tab cap c3 h3 (entry g R).
Proof.
  intros Hh Ht B1 B2 B3. destruct (cells_bound g Hg h Hh) as (b0 & b1 & b2).
  destruct (cells_distinct g Hg h Hh) as (d01 & d02 & d12).
  eapply unbump_tab in B1; [|done..]. eapply unbump_tab in B2; [|done..]. eapply unbump_tab in B3; [|done..].
  eapply tab_ext; [|exact B3]. intros c _.
  destruct (pos_cells h c Hh) as [[-> Hp]|[[-> Hp]|[[-> Hp]|(n0 & n1 & n2 & Hp)]]].
  - rewrite !upd_ne by done. rewrite upd_eq. symmetry. by apply entry_unbump.
  - rewrite upd_ne by done. rewrite upd_eq, upd_ne by done. symmetry. by apply entry_unbump.
  - rewrite upd_eq, !upd_ne by done. symmetry. by apply entry_unbump.
  - rewrite !upd_ne by done. by apply entry_other.
Qed.

(** A cell with count byte 8 and zero xor holds the key twice. *)
Lemma duplicate_found R h c :
  fits 64 h -> pos g h c <> None -> snd (entry g (h :: R) c) = 0 -> fst (entry g (h :: R) c) = 8 -> h ∈ R.
Proof.
  intros Hh Hp Hx Hc. unfold entry in *. csimp. destruct (pos g h c) as [j|] eqn:E; [|done]. csimp.
  pose proof (tagx_range R c). pose proof (pos_range _ _ _ E).
  pose proof (lxor_small j (tagx g R c)). eapply cnt_two_equal; [|done|done]. lia.
Qed.

Lemma entry_present R h c : h ∈ R -> pos g h c <> None -> (fst (entry g R c) <? 4) = false.
Proof.
  intros Hh Hp. pose proof (cnt_pos R c h Hh Hp). pose proof (tagx_range R c).
  apply Z.ltb_ge. unfold entry. csimp. lia.
Qed.

Lemma count_key_spec order s i s' R h :
  tab cap (c_count s) (c_hash s) (entry g R) -> Forall (fits 64) order -> order !! i = Some h ->
  count_key g order s i = Ret s' ->
  exists R', tab cap (c_count s') (c_hash s') (entry g R') /\ c_error s' = false /\
    ((R' = h :: R /\ c_duplicates s' = c_duplicates s) \/
     (R' = R /\ h ∈ R /\ c_duplicates s' = S (c_duplicates s))).
Proof.
  intros Ht Hfits Hi H. assert (fits 64 h) as Hh by (by eapply Forall_lookup_1).
  destruct (cells_bound g Hg h Hh) as (b0 & b1 & b2).
  assert (pos g h (cell0 g h) <> None) as p0 by (by rewrite pos_cell0).
  assert (pos g h (cell1 g h) <> None) as p1 by (by rewrite pos_cell1).
  assert (pos g h (cell2 g h) <> None) as p2 by (by rewrite pos_cell2).
  unfold count_key in H.
  apply bind_Ret in H as (h' & Hh'%index_Ret & H). rewrite Hi in Hh'. injection Hh' as <-.
  rewrite (hash_of_hash_cells g Hg h Hh) in H. cbn [mbind outcome_bind] in H.
  apply bind_Ret in H as ([c1 h1] & B1 & H). apply bind_Ret in H as ([c2 h2] & B2 & H).
  apply bind_Ret in H as ([c3 h3] & B3 & H).
  pose proof (three_bumps _ _ _ _ _ _ _ _ _ _ Hh Ht B1 B2 B3) as Ht3. clear B1 B2 B3.
  do 3 (apply bind_Ret in H as (? & Hx & H); apply (tab_index_hash cap c3 _ (entry g (h :: R))) in Hx as ->; [|done..]).
  do 3 (apply bind_Ret in H as (? & Hx & H); apply (tab_index_count cap _ h3 (entry g (h :: R))) in Hx as ->; [|done..]).
  match type of H with context [if ?b then (_ ≫= _) else _] => set (dup := b) in H end.
  apply bind_Ret in H as ([c h'] & HD & H).
  assert (exists R', tab cap c h' (entry g R') /\ h ∈ R' /\
    ((R' = h :: R /\ dup = false) \/ (R' = R /\ h ∈ R /\ dup = true))) as (R' & Ht' & Hin & HR').
  { destruct dup eqn:Edup; cycle 1.
    { inv_ret. exists (h :: R). split_and!; [exact Ht3|constructor|left; split; reflexivity]. }
    assert (h ∈ R).
    { subst dup. apply andb_true_iff in Edup as [_ Edup].
      rewrite !orb_true_iff, !andb_true_iff, !Z.eqb_eq in Edup.
      destruct Edup as [[[Ex Ec]|[Ex Ec]]|[Ex Ec]]; (eapply duplicate_found; [exact Hh| |exact Ex|exact Ec]; assumption). }
    apply bind_Ret in HD as ([c4 h4] & B1 & HD). apply bind_Ret in HD as ([c5 h5] & B2 & B3).
    exists R. split_and!; [|assumption|right; split_and!; [reflexivity|assumption|reflexivity]].
    exact (three_unbumps _ _ _ _ _ _ _ _ _ _ Hh Ht3 B1 B2 B3). }
  do 3 (apply bind_Ret in H as (? & Hx & H); apply (tab_index_count cap _ h' (entry g R')) in Hx as ->; [|done..]).
  apply Ret_inj in H as <-. exists R'. cbn [c_count c_hash c_error c_duplicates]. split_and!; [exact Ht'| |].
  - by rewrite !(entry_present R' h) by assumption.
  - destruct HR' as [[-> ->]|(-> & ? & ->)]; [left|right]; (split_and!; [reflexivity|try assumption..]); lia.
Qed.

End Build.
