(* ===== verification/FusePeel.v ===== *)
(** * Placing, counting, queueing and peeling: the invariants of one
    construction attempt of the BinaryFuse16 filter. *)

From stdpp Require Import base list strings sets.
From Stdlib Require Import ZArith Lia SpecFloat.
From S2P Require Import Prelude RustInt RustStr XxHash Float64 Fuse FuseTables.

Local Open Scope Z_scope.

(** The cell at position [j] of a hash. *)
Definition cellf (g : geometry) (h j : Z) : Z :=
  if j =? 0 then cell0 g h else if j =? 1 then cell1 g h else cell2 g h.

(** The queue holds distinct cells, not yet peeled, that at most one key uses. *)
Record queue_ok (cap : nat) (f : Z -> Z * Z) (Pc : list Z) (alone : list Z) (qsize : nat) : Prop := {
  q_len : length alone = cap;
  q_size : (qsize <= cap)%nat;
  q_nodup : NoDup (take qsize alone);
  q_cells : forall c, c ∈ take qsize alone -> 0 <= c < Z.of_nat cap /\ (c ∉ Pc) /\ Z.shiftr (fst (f c)) 2 <= 1
}.

(** Every stacked key owns a cell that no later stacked key uses. *)
Definition stack_ok (g : geometry) (order revh : list Z) (n : nat) (Pc : list Z) : Prop :=
  forall i h, (i < n)%nat -> order !! i = Some h ->
    exists j, revh !! i = Some j /\ 0 <= j < 3 /\ cellf g h j ∈ Pc /\
      forall k h', (i < k < n)%nat -> order !! k = Some h' -> pos g h' (cellf g h j) = None.

(** The peeling loop, seen from its stack: [R] is still in the tables, the
    stack holds the rest of [R0], and [Pc] are the cells peeled so far. *)
Definition peel_base (g : geometry) (size : nat) (R0 : list Z) (s : peeling) (R Pc : list Z) : Prop :=
  R0 ≡ₚ (R ++ take (p_stack s) (p_order s)) /\
  (forall c, c ∈ Pc -> cnt g R c = 0) /\
  stack_ok g (p_order s) (p_reverse_h s) (p_stack s) Pc /\
  length (p_order s) = S size /\ p_order s !! size = Some 1 /\
  length (p_reverse_h s) = size /\ (p_stack s <= size)%nat.

(** The same with the tables, whose entries outside [Pc] describe [R], and the
    queue. *)
Record peel_inv (g : geometry) (size : nat) (R0 : list Z) (s : peeling) (R Pc : list Z) (f : Z -> Z * Z) : Prop := {
  pi_base : peel_base g size R0 s R Pc;
  pi_tab : tab (g_array_len g) (p_count s) (p_hash s) f;
  pi_out : forall c, 0 <= c < Z.of_nat (g_array_len g) -> (c ∉ Pc) -> f c = entry g R c;
  pi_queue : queue_ok (g_array_len g) f Pc (p_alone s) (p_qsize s)
}.

Lemma pos_cellf g h c j : pos g h c = Some j -> c = cellf g h j.
Proof.
  unfold pos, cellf. destruct (Z.eqb_spec (cell0 g h) c); [by intros [= <-]|].
  destruct (Z.eqb_spec (cell1 g h) c); [by intros [= <-]|].
  destruct (Z.eqb_spec (cell2 g h) c); [by intros [= <-]|done].
Qed.

(** ** The queue *)

Lemma take_snoc {A : Type} (l : list A) n x : l !! n = Some x -> take (S n) l = take n l ++ [x].
Proof. intros. by apply take_S_r. Qed.

Lemma take_insert_out {A : Type} (l : list A) n x : take n (<[n := x]> l) = take n l.
Proof. by rewrite take_insert_ge. Qed.

Lemma queue_push cap f Pc alone q c :
  queue_ok cap f Pc alone q -> (q < cap)%nat -> c ∉ take q alone ->
  0 <= c < Z.of_nat cap -> c ∉ Pc -> Z.shiftr (fst (f c)) 2 <= 1 ->
  queue_ok cap f Pc (<[q := c]> alone) (S q).
Proof.
  intros [Hl Hs Hn Hc] Hq Hnew Hr HP Hcount.
  assert (take (S q) (<[q := c]> alone) = take q alone ++ [c]) as E.
  { rewrite (take_snoc _ _ c) by (apply list_lookup_insert_eq; lia). by rewrite take_insert_out. }
  split; [by rewrite length_insert|lia| |]; rewrite E.
  - apply NoDup_app. split_and!; [done| |apply NoDup_singleton]. intros x Hx ->%list_elem_of_singleton. done.
  - intros x [Hx| ->%list_elem_of_singleton]%elem_of_app; [by apply Hc|done].
Qed.

Lemma queue_scratch cap f Pc alone q x :
  queue_ok cap f Pc alone q -> queue_ok cap f Pc (<[q := x]> alone) q.
Proof. intros [Hl Hs Hn Hc]. split; [by rewrite length_insert|done|..]; by rewrite take_insert_out. Qed.

Lemma queue_mono cap f f' Pc alone q :
  (forall c, c ∈ take q alone -> Z.shiftr (fst (f' c)) 2 <= Z.shiftr (fst (f c)) 2) ->
  queue_ok cap f Pc alone q -> queue_ok cap f' Pc alone q.
Proof.
  intros Hf [Hl Hs Hn Hc]. split; [done..|]. intros c Hin. destruct (Hc c Hin) as (? & ? & ?).
  specialize (Hf c Hin). split_and!; try done; lia.
Qed.

Lemma queue_pop cap f Pc alone q :
  queue_ok cap f Pc alone (S q) -> exists c, alone !! q = Some c /\ 0 <= c < Z.of_nat cap /\ (c ∉ Pc) /\
    Z.shiftr (fst (f c)) 2 <= 1 /\ queue_ok cap f (c :: Pc) alone q.
Proof.
  intros [Hl Hs Hn Hc]. destruct (lookup_lt_is_Some_2 alone q) as [c Hq]; [lia|].
  rewrite (take_snoc _ _ c Hq) in *. apply NoDup_app in Hn as (Hn & Hd & _).
  destruct (Hc c) as (? & ? & ?); [set_solver|]. exists c. split_and!; try done; [lia|lia|].
  split; [done|lia|done|]. intros x Hx. destruct (Hc x) as (? & ? & ?); [set_solver|].
  split_and!; try done; [lia|lia|]. intros [->|]%elem_of_cons; [|done]. apply (Hd c Hx). set_solver.
Qed.

Lemma queue_weaken cap f Pc Pc' alone q :
  Pc' ⊆ Pc -> queue_ok cap f Pc alone q -> queue_ok cap f Pc' alone q.
Proof. intros HP [Hl Hs Hn Hc]. split; [done..|]. intros c Hin. destruct (Hc c Hin) as (? & ? & ?). set_solver. Qed.

Section Peel.
  Context (g : geometry) (Hg : geometry_ok g).
  Context `{P : Profile} (Hoc : overflow_checks = true).
  #[local] Abbreviation cap := (g_array_len g).

Lemma remove_from_spec s s' f Pc R h o tag :
  tab cap (p_count s) (p_hash s) f -> queue_ok cap f Pc (p_alone s) (p_qsize s) ->
  0 <= o < Z.of_nat cap -> o ∉ Pc -> f o = entry g (h :: R) o -> pos g h o = Some tag ->
  remove_from o tag h s = Ret s' ->
  tab cap (p_count s') (p_hash s') (upd f o (entry g R o)) /\
  queue_ok cap (upd f o (entry g R o)) Pc (p_alone s') (p_qsize s') /\
  (p_qsize s' <= S (p_qsize s))%nat /\
  p_order s' = p_order s /\ p_reverse_h s' = p_reverse_h s /\ p_stack s' = p_stack s.
Proof.
  intros Ht Hq Ho HP Hfo Hp H. unfold remove_from in H.
  assert (wrap 32 o = o) as Hw.
  { apply wrap_id. pose proof (gok_bound g Hg). change (2 ^ 32) with 4294967296 in *. unfold fits.
    change (2 ^ 32) with 4294967296. lia. }
  rewrite Hw in H. clear Hw.
  apply bind_Ret in H as (al & [Hlt ->]%update_Ret & H).
  apply bind_Ret in H as (c & Hc & H).
  apply (tab_index_count cap _ (p_hash s) f) in Hc as ->; [|done..].
  apply bind_Ret in H as ([counts hashes] & Hu & H). apply Ret_inj in H as <-.
  cbn [p_count p_hash p_alone p_qsize p_order p_reverse_h p_stack].
  apply (unbump_tab Hoc cap _ _ f) in Hu; [|done..].
  rewrite Hfo, <-(entry_unbump g R h o tag Hp) in Hu.
  rewrite Hfo, entry_count.
  assert (Z.shiftr (fst (upd f o (entry g R o) o)) 2 = cnt g R o) as E1 by (by rewrite upd_eq, entry_count).
  assert (cnt g (h :: R) o = 1 + cnt g R o) as E2 by (csimp; rewrite Hp; csimp; lia).
  assert (queue_ok cap (upd f o (entry g R o)) Pc (p_alone s) (p_qsize s)) as Hq'.
  { eapply queue_mono; [|exact Hq]. intros c _. destruct (decide (c = o)) as [->|Hne].
    - rewrite E1, Hfo, entry_count. lia.
    - by rewrite upd_ne. }
  split; [exact Hu|]. split_and!; [|case_match; lia|reflexivity..].
  rewrite E2. destruct (Z.eqb_spec (1 + cnt g R o) 2) as [Heq|]; [|by apply queue_scratch].
  destruct Hq as [Hl Hs Hn Hcl]. rewrite Hl in Hlt.
  apply queue_push; [done|done| |done|done|lia]. intros Hin. destruct (Hcl o Hin) as (_ & _ & Hle).
  rewrite Hfo, entry_count in Hle. lia.
Qed.

(** The two other cells of a key found at position [j], with the tags the code
    computes. *)
Lemma other_cells h j i1 i2 i3 :
  fits 64 h -> 0 <= j < 3 -> i1 = cell0 g h -> i2 = cell1 g h -> i3 = cell2 g h ->
  exists o1 o2, index [0; i2; i3; i1; i2; 0] (Z.to_nat (j + 1)) = Ret o1 /\
    index [0; i2; i3; i1; i2; 0] (Z.to_nat (j + 2)) = Ret o2 /\
    pos g h o1 = Some (mod3 (j + 1)) /\ pos g h o2 = Some (mod3 (j + 2)) /\
    o1 <> o2 /\ o1 <> cellf g h j /\ o2 <> cellf g h j /\
    (forall c, c <> cellf g h j -> c <> o1 -> c <> o2 -> pos g h c = None) /\
    0 <= o1 < Z.of_nat cap /\ 0 <= o2 < Z.of_nat cap.
Proof.
  intros Hh Hj -> -> ->. destruct (cells_distinct g Hg h Hh) as (d01 & d02 & d12).
  destruct (cells_bound g Hg h Hh) as (b0 & b1 & b2).
  pose proof (pos_cell0 g h) as p0. pose proof (pos_cell1 g Hg h Hh) as p1. pose proof (pos_cell2 g Hg h Hh) as p2.
  pose proof (pos_None g h) as pn.
  assert (j = 0 \/ j = 1 \/ j = 2) as [-> |[-> | ->]] by lia; unfold cellf;
    eexists _, _; (split_and!; [reflexivity|reflexivity|assumption|assumption|auto; tauto..]).
Qed.

Lemma stack_ok_push order revh n Pc h j :
  (n < length order)%nat -> (n < length revh)%nat -> 0 <= j < 3 ->
  (forall c, c ∈ Pc -> pos g h c = None) -> stack_ok g order revh n Pc ->
  stack_ok g (<[n := h]> order) (<[n := j]> revh) (S n) (cellf g h j :: Pc).
Proof.
  intros Ho Hr Hj Hnone Hst i hi Hi Hlk. destruct (decide (i = n)) as [->|Hne].
  - rewrite list_lookup_insert_eq in Hlk by lia. injection Hlk as <-. exists j.
    rewrite list_lookup_insert_eq by lia. split_and!; [done|lia|lia|set_solver|].
    intros k h' Hk. lia.
  - rewrite list_lookup_insert_ne in Hlk by lia. destruct (Hst i hi) as (ji & Hrj & Hji & Hc & Hlater); [lia|done|].
    exists ji. rewrite list_lookup_insert_ne by lia. split_and!; [done|lia|lia|set_solver|].
    intros k h' Hk Hlk'. destruct (decide (k = n)) as [->|].
    + rewrite list_lookup_insert_eq in Hlk' by lia. injection Hlk' as <-. by apply Hnone.
    + rewrite list_lookup_insert_ne in Hlk' by lia. apply (Hlater k); [lia|done].
Qed.

Lemma cnt_zero_pos R c h : cnt g R c = 0 -> h ∈ R -> pos g h c = None.
Proof. intros (_ & _ & HF)%cnt_zero Hin. by eapply Forall_forall in HF. Qed.

(** Moving key [h] from the tables to the stack. *)
Lemma peel_inv_take size R0 s s' R R' Pc f' h j c :
  (length R0 <= size)%nat -> (p_stack s < size)%nat -> peel_base g size R0 s R Pc ->
  R ≡ₚ h :: R' -> pos g h c = Some j -> cnt g R' c = 0 ->
  p_order s' = <[p_stack s := h]> (p_order s) ->
  p_reverse_h s' = <[p_stack s := j]> (p_reverse_h s) ->
  p_stack s' = S (p_stack s) ->
  tab cap (p_count s') (p_hash s') f' ->
  queue_ok cap f' (c :: Pc) (p_alone s') (p_qsize s') ->
  (forall x, 0 <= x < Z.of_nat cap -> x ∉ c :: Pc -> f' x = entry g R' x) ->
  peel_inv g size R0 s' R' (c :: Pc) f'.
Proof.
  intros Hsize Hlt (Hperm & Hin & Hst & Holen & Hosz & Hrlen & Hssz) HR Hp Hz Eo Er Es Htab Hq Hout.
  pose proof (pos_range g _ _ _ Hp) as Hj. pose proof (pos_cellf _ _ _ _ Hp) as Ec.
  split; [|done..]. unfold peel_base. rewrite Eo, Er, Es. split_and!; [..|lia].
  - rewrite Hperm, HR. rewrite (take_snoc _ _ h) by (apply list_lookup_insert_eq; lia).
    rewrite take_insert_out. simpl. solve_Permutation.
  - intros x [->|Hx]%elem_of_cons; [done|]. specialize (Hin x Hx). rewrite (cnt_perm _ _ _ _ HR) in Hin.
    csimp. pose proof (weight_range g h x). pose proof (cnt_nonneg g R' x). lia.
  - rewrite Ec. apply stack_ok_push; [lia|lia|done| |done].
    intros x Hx. apply (cnt_zero_pos R); [by apply Hin|]. rewrite HR. constructor.
  - by rewrite length_insert.
  - by rewrite list_lookup_insert_ne by lia.
  - by rewrite length_insert.
Qed.

(** One round of the peeling loop keeps the invariant, and makes progress. *)
Lemma peel_one_inv size R0 s s' R Pc f :
  Forall (fits 64) R0 -> (length R0 <= size)%nat ->
  peel_inv g size R0 s R Pc f -> p_qsize s <> 0%nat -> peel_one g s = Ret s' ->
  exists R' Pc' f', peel_inv g size R0 s' R' Pc' f' /\
    (p_qsize s' + 2 * (size - p_stack s') < p_qsize s + 2 * (size - p_stack s))%nat.
Proof.
  intros Hfit Hsize [Hbase Htab Hout Hq] Hne H.
  pose proof Hbase as (Hperm & Hin & Hst & Holen & Hosz & Hrlen & Hssz).
  unfold peel_one in H. destruct (p_qsize s) as [|q] eqn:Eq; [done|]. clear Hne.
  replace (S q - 1)%nat with q in H by lia.
  apply queue_pop in Hq as (c & Hlk & Hcr & HcP & Hcnt & Hq).
  apply bind_Ret in H as (c' & Hc'%index_Ret & H). rewrite Hlk in Hc'. injection Hc' as <-.
  apply bind_Ret in H as (x & Hx & H).
  apply (tab_index_count cap _ (p_hash s) f) in Hx as ->; [|done..].
  cbn [p_qsize p_alone p_count p_hash p_reverse_h p_order p_stack] in H.
  destruct (Z.eqb_spec (Z.shiftr (fst (f c)) 2) 1) as [Hone|Hnone]; cbn [negb] in H.
  2:{ apply Ret_inj in H as <-. exists R, Pc, f. cbn. split; [|lia].
      split; cbn; try done. eapply queue_weaken; [|exact Hq]. set_solver. }
  rewrite Hout in Hone by done. rewrite entry_count in Hone.
  destruct (cnt_one g R c Hone) as (h & R' & j & HR & Hp & Hz & Htag & Hhash).
  apply bind_Ret in H as (h' & Hh' & H).
  apply (tab_index_hash cap (p_count s) _ f) in Hh' as ->; [|done..].
  pose proof (Hout c Hcr HcP) as Hfc. rewrite Hfc, entry_tag, Htag in H.
  cbn [entry snd] in H. rewrite Hhash in H.
  assert (fits 64 h) as Hh.
  { eapply Forall_forall; [exact Hfit|]. rewrite Hperm, HR. apply elem_of_app. left. constructor. }
  rewrite (hash_of_hash_cells g Hg h Hh) in H.
  apply bind_Ret in H as (rh & [Hrl ->]%update_Ret & H).
  apply bind_Ret in H as (ro & [Hol ->]%update_Ret & H). cbn [mbind outcome_bind] in H.
  pose proof (pos_range g _ _ _ Hp) as Hj. pose proof (pos_cellf _ _ _ _ Hp) as Ec.
  destruct (other_cells h j _ _ _ Hh Hj eq_refl eq_refl eq_refl)
    as (o1 & o2 & I1 & I2 & Hp1 & Hp2 & d12 & d1 & d2 & Hnone & Ho1 & Ho2).
  rewrite <-Ec in d1, d2, Hnone.
  apply bind_Ret in H as (o1' & I1' & H). rewrite I1 in I1'. apply Ret_inj in I1' as <-.
  apply bind_Ret in H as (s1 & H1 & H).
  apply bind_Ret in H as (o2' & I2' & H). rewrite I2 in I2'. apply Ret_inj in I2' as <-. clear I1 I2.
  assert (forall o, pos g h o <> None -> o ∉ Pc) as HoP.
  { intros o Hpo Hino. apply Hpo. apply (cnt_zero_pos R); [by apply Hin|]. rewrite HR. constructor. }
  assert ((o1 ∉ c :: Pc) /\ (o2 ∉ c :: Pc)) as [HP1 HP2].
  { split; (intros [->|Hino]%elem_of_cons; [done|]); (eapply HoP; [|exact Hino]); congruence. }
  assert (forall o, 0 <= o < Z.of_nat cap -> o ∉ c :: Pc -> f o = entry g (h :: R') o) as Hfo.
  { intros o Hor Hoc'. rewrite Hout by (done || set_solver). by apply entry_perm. }
  eapply (remove_from_spec _ _ f (c :: Pc) R' h o1) in H1;
    [|exact Htab|exact Hq|exact Ho1|exact HP1|by apply Hfo|exact Hp1].
  destruct H1 as (Htab1 & Hq1 & Hqs1 & Eo1 & Er1 & Es1).
  eapply (remove_from_spec _ _ _ (c :: Pc) R' h o2) in H;
    [|exact Htab1|exact Hq1|exact Ho2|exact HP2|rewrite upd_ne by done; by apply Hfo|exact Hp2].
  destruct H as (Htab2 & Hq2 & Hqs2 & Eo2 & Er2 & Es2).
  cbn [p_qsize p_alone p_count p_hash p_reverse_h p_order p_stack] in *.
  exists R', (c :: Pc), (upd (upd f o1 (entry g R' o1)) o2 (entry g R' o2)).
  assert (p_stack s < size)%nat by lia. split; [|lia].
  eapply peel_inv_take with (s := s) (R := R) (h := h) (j := j);
    [done|done|exact Hbase|exact HR|exact Hp|exact Hz|congruence..|exact Htab2|exact Hq2|].
  intros x Hx HxP. destruct (decide (x = o2)) as [->|]; [by rewrite upd_eq|]. rewrite upd_ne by done.
    destruct (decide (x = o1)) as [->|]; [by rewrite upd_eq|]. rewrite upd_ne by done.
    rewrite Hfo by done. apply entry_other, Hnone; [|done..]. intros ->. apply HxP. constructor.
Qed.

End Peel.
