(* ===== verification/FuseBuild.v ===== *)
(** * The BinaryFuse16 construction as a whole: every inserted key is found.

    One attempt places the hashes, counts them, queues the cells of single keys
    and peels; the retries reset the tables; the fingerprints are assigned in
    the reverse of the peeling order. *)

From stdpp Require Import base list strings sets.
From Stdlib Require Import ZArith Lia SpecFloat.
From S2P Require Import Prelude RustInt RustStr XxHash Float64 Fuse FuseTables FusePeel.

Local Open Scope Z_scope.

Section Attempt.
  Context (g : geometry) (Hg : geometry_ok g).
  Context `{P : Profile} (Hoc : overflow_checks = true).
  #[local] Abbreviation cap := (g_array_len g).

(** ** Placing *)

Definition placed (size : nat) (hs order : list Z) : Prop :=
  length order = S size /\ order !! size = Some 1 /\
  take size order ≡ₚ (hs ++ replicate (size - length hs) 0).

Lemma probe_free fuel bits order start si si' :
  probe fuel bits order start si = Ret si' ->
  exists p, index start (Z.to_nat si') = Ret p /\ order !! Z.to_nat p = Some 0.
Proof.
  revert si. induction fuel as [|fuel IH]; intros si; cbn [probe]; [done|].
  intros H. apply bind_Ret in H as (p & Hp & H). apply bind_Ret in H as (v & Hv & H).
  destruct (Z.eqb_spec v 0) as [->|]; [|by eapply IH].
  apply Ret_inj in H as <-. exists p. by rewrite index_Ret in Hv.
Qed.

Lemma take_insert_perm (l : list Z) size i h :
  (i < size)%nat -> (size <= length l)%nat -> l !! i = Some 0 ->
  exists rest, take size l ≡ₚ 0 :: rest /\ take size (<[i := h]> l) ≡ₚ h :: rest.
Proof.
  intros Hi Hs Hl. rewrite take_insert_lt by done.
  assert (take size l !! i = Some 0) as Hl' by (by rewrite lookup_take_lt by done).
  exists (delete i (take size l)). split; [by apply delete_Permutation|].
  rewrite insert_take_drop by (rewrite length_take; lia).
  rewrite delete_take_drop. symmetry. apply Permutation_middle.
Qed.

Lemma place_spec bits seed size hs order start order' start' key :
  (length hs < size)%nat -> placed size hs order ->
  place bits seed (order, start) key = Ret (order', start') ->
  placed size (hs ++ [mix key seed]) order'.
Proof.
  intros Hlt (Hlen & Hlast & Hperm) H. unfold place in H.
  apply bind_Ret in H as (si & Hsi & H). apply probe_free in Hsi as (p & Hp & Hfree).
  apply bind_Ret in H as (p' & Hp' & H). rewrite Hp in Hp'. apply Ret_inj in Hp' as <-.
  apply bind_Ret in H as (o & [Hlto ->]%update_Ret & H).
  apply bind_Ret in H as (st & Hst & H). apply Ret_inj in H. injection H as <- <-.
  assert (Z.to_nat p < size)%nat as Hps.
  { destruct (decide (Z.to_nat p = size)) as [E|]; [rewrite E in Hfree; congruence|lia]. }
  split_and!; [by rewrite length_insert|by rewrite list_lookup_insert_ne by lia|].
  destruct (take_insert_perm order size (Z.to_nat p) (mix key seed)) as (rest & E1 & ->); [lia..|done|].
  rewrite E1 in Hperm. rewrite length_app. cbn [length].
  replace (size - length hs)%nat with (S (size - (length hs + 1))) in Hperm by lia.
  cbn [replicate] in Hperm. rewrite <-Permutation_middle in Hperm.
  apply Permutation_cons_inv in Hperm. rewrite Hperm.
  rewrite <-app_assoc. cbn [app]. by rewrite Permutation_middle.
Qed.

Lemma place_all bits seed keys start order' start' :
  foldM (place bits seed) (replicate (length keys) 0 ++ [1], start) keys = Ret (order', start') ->
  placed (length keys) ((λ k, mix k seed) <$> keys) order'.
Proof.
  intros H.
  apply (foldM_inv (fun done st => placed (length keys) ((λ k, mix k seed) <$> done) (fst st))) in H; [done| |].
  - cbn [fmap list_fmap fst]. split_and!.
    + rewrite length_app, length_replicate. cbn. lia.
    + rewrite lookup_app_r; rewrite length_replicate; [by rewrite Nat.sub_diag|lia].
    + cbn [length app]. rewrite Nat.sub_0_r. by rewrite take_app_length' by (by rewrite length_replicate).
  - intros done x rest [o1 st1] [o2 st2] E HP Hpl. cbn [fst] in *. rewrite fmap_app. cbn [fmap list_fmap].
    eapply place_spec; [|exact HP|exact Hpl]. rewrite length_fmap, E, length_app. cbn. lia.
Qed.

Lemma placed_fits size keys seed order :
  placed size ((λ k, mix k seed) <$> keys) order -> Forall (fits 64) order.
Proof.
  intros (Hlen & Hlast & Hperm). rewrite <-(take_drop size order). apply Forall_app. split.
  - rewrite Hperm. apply Forall_app. split.
    + apply Forall_fmap, Forall_forall. intros k _. apply mix_fits.
    + apply Forall_replicate. by unfold fits.
  - rewrite (drop_S _ 1 size Hlast), drop_ge by lia. constructor; [by unfold fits|done].
Qed.

(** ** Counting *)

Lemma count_all order size s s' :
  tab cap (c_count s) (c_hash s) (entry g []) -> c_error s = false -> c_duplicates s = 0%nat ->
  Forall (fits 64) order -> (size <= length order)%nat ->
  foldM (count_key g order) s (seq 0 size) = Ret s' ->
  exists R, tab cap (c_count s') (c_hash s') (entry g R) /\ c_error s' = false /\
    (length R + c_duplicates s' = size)%nat /\ forall h, h ∈ R <-> h ∈ take size order.
Proof.
  intros Ht He Hd Hfit Hlen H.
  apply (foldM_inv (fun done s => exists R, tab cap (c_count s) (c_hash s) (entry g R) /\ c_error s = false /\
    (length R + c_duplicates s = length done)%nat /\ forall h, h ∈ R <-> h ∈ take (length done) order)) in H.
  - by rewrite length_seq in H.
  - exists []. cbn. split_and!; [done|done|lia|done].
  - clear s' H. intros done i rest s1 s2 E (R & Ht1 & He1 & Hl1 & Hin) Hc.
    assert (i = length done /\ (i < size)%nat) as [-> Hlt].
    { assert (seq 0 size !! length done = Some i) as Hi
        by (rewrite E, lookup_app_r, Nat.sub_diag by lia; done).
      apply lookup_seq in Hi. cbn in Hi. lia. }
    destruct (lookup_lt_is_Some_2 order (length done)) as [h Hh]; [lia|].
    eapply (count_key_spec g Hg Hoc _ _ _ _ R h) in Hc as (R' & Ht2 & He2 & HR); [|done..].
    exists R'. rewrite length_app. cbn [length]. rewrite Nat.add_1_r, (take_snoc _ _ h) by done.
    destruct HR as [[-> Hdup]|(-> & Hhin & Hdup)]; split_and!; try done; cbn [length]; try lia; set_solver.
Qed.

(** ** Queueing *)

Lemma enqueue_all counts hashes R alone alone' q :
  tab cap counts hashes (entry g R) -> length alone = cap ->
  foldM (enqueue_cell counts) (alone, 0%nat) (seq 0 cap) = Ret (alone', q) ->
  queue_ok cap (entry g R) [] alone' q.
Proof.
  intros Ht Hlen H.
  apply (foldM_inv (fun done st => queue_ok cap (entry g R) [] (fst st) (snd st) /\
    forall c, c ∈ take (snd st) (fst st) -> c < Z.of_nat (length done))) in H as [Hq _]; [done| |].
  - cbn. split; [|set_solver]. split; cbn; [done|lia|constructor|set_solver].
  - clear alone' q H. intros done i rest [a1 q1] [a2 q2] E [Hq Hlt] He. cbn [fst snd] in *.
    assert (i = length done /\ (i < cap)%nat) as [-> Hi].
    { assert (seq 0 cap !! length done = Some i) as Hi
        by (rewrite E, lookup_app_r, Nat.sub_diag by lia; done).
      apply lookup_seq in Hi. cbn in Hi. lia. }
    unfold enqueue_cell in He. rewrite wrap_id in He
      by (pose proof (gok_bound g Hg); unfold fits; lia).
    apply bind_Ret in He as (al & [Hql ->]%update_Ret & He).
    apply bind_Ret in He as (c & Hc & He). rewrite (q_len _ _ _ _ _ Hq) in Hql.
    rewrite <-(Nat2Z.id (length done)) in Hc.
    apply (tab_index_count cap _ hashes (entry g R)) in Hc as ->; [|lia|done].
    apply Ret_inj, pair_equal_spec in He as [<- <-]. rewrite length_app. cbn [length].
    destruct (Z.eqb_spec (Z.shiftr (entry g R (Z.of_nat (length done))).1 2) 1) as [E1|E1].
    + split.
      * apply queue_push; [done|done| |lia|set_solver|lia]. intros Hin. apply Hlt in Hin. lia.
      * intros c. rewrite (take_snoc _ _ (Z.of_nat (length done)))
          by (apply list_lookup_insert_eq; rewrite (q_len _ _ _ _ _ Hq); lia).
        rewrite take_insert_out. intros [Hin|Hin]%elem_of_app; [apply Hlt in Hin; lia|].
        apply list_elem_of_singleton in Hin. lia.
    + split; [by apply queue_scratch|]. rewrite take_insert_out. intros c Hin. apply Hlt in Hin. lia.
Qed.

(** ** Peeling *)

Lemma peel_loop_inv fuel size R0 s s' R Pc f :
  Forall (fits 64) R0 -> (length R0 <= size)%nat ->
  peel_inv g size R0 s R Pc f -> peel_loop fuel g s = Ret s' ->
  exists R' Pc' f', peel_inv g size R0 s' R' Pc' f'.
Proof.
  intros Hfit Hsize. revert s R Pc f. induction fuel as [|fuel IH]; intros s R Pc f Hinv H;
    cbn [peel_loop] in H; destruct (Nat.eqb_spec (p_qsize s) 0) as [Hq|Hq];
    [apply Ret_inj in H as <-; eauto|done|apply Ret_inj in H as <-; eauto|].
  apply bind_Ret in H as (s1 & H1 & H).
  destruct (peel_one_inv g Hg Hoc _ _ _ _ _ _ _ Hfit Hsize Hinv Hq H1) as (R1 & Pc1 & f1 & Hinv1 & _).
  by eapply IH.
Qed.

(** ** One attempt *)

(** The tables an attempt starts from. *)
Definition clean (size : nat) (t : tables) : Prop :=
  length (alone t) = cap /\ t2count t = replicate cap 0 /\ t2hash t = replicate cap 0 /\
  length (reverse_h t) = size /\ reverse_order t = replicate size 0 ++ [1].

(** A successful attempt: every key is on the stack, with a cell of its own. *)
Definition peeled (seed : Z) (keys : list Z) (u : nat) (t : tables) : Prop :=
  (exists Pc, stack_ok g (reverse_order t) (reverse_h t) u Pc) /\
  (forall key, key ∈ keys -> mix key seed ∈ take u (reverse_order t)) /\
  Forall (fits 64) (take u (reverse_order t)).

Lemma entry_nil c : entry g [] c = (0, 0).
Proof. done. Qed.

Lemma clean_tab size t : clean size t -> tab cap (t2count t) (t2hash t) (entry g []).
Proof.
  intros (_ & -> & -> & _). split_and!; [by rewrite length_replicate..|].
  intros c Hc. rewrite entry_nil. split; apply lookup_replicate; split; (done || lia).
Qed.

Lemma clean_reset size R0 s R Pc f :
  peel_inv g size R0 s R Pc f ->
  clean size (reset_tables size cap
    {| alone := p_alone s; t2count := p_count s; t2hash := p_hash s;
       reverse_h := p_reverse_h s; reverse_order := p_order s |}).
Proof.
  intros [(_ & _ & _ & Ho & Hlast & Hr & _) (Hc & Hh & _) _ Hq]. unfold clean, reset_tables.
  cbn [alone t2count t2hash reverse_h reverse_order].
  split_and!; [by eapply q_len| | |done|].
  - by rewrite drop_ge, app_nil_r by lia.
  - by rewrite drop_ge, app_nil_r by lia.
  - by rewrite (drop_S _ 1 size Hlast), (drop_ge _ (S size)) by lia.
Qed.

Lemma peel_inv_init size R0 order al q revh counts hashes :
  (forall h, h ∈ R0 -> fits 64 h) -> length order = S size -> order !! size = Some 1 -> length revh = size ->
  tab cap counts hashes (entry g R0) -> queue_ok cap (entry g R0) [] al q ->
  peel_inv g size R0 {| p_alone := al; p_qsize := q; p_count := counts; p_hash := hashes;
                        p_reverse_h := revh; p_order := order; p_stack := 0 |} R0 [] (entry g R0).
Proof.
  intros Hfit Ho Hl Hr Ht Hq. split; cbn; [|done..]. unfold peel_base. cbn.
  split_and!; [by rewrite app_nil_r|set_solver|intros i h Hi; lia|done|done|done|lia].
Qed.

Lemma peel_inv_done size R0 s R Pc f :
  peel_inv g size R0 s R Pc f -> p_stack s = length R0 -> take (p_stack s) (p_order s) ≡ₚ R0.
Proof.
  intros [(Hperm & _ & _ & Ho & _ & _ & Hs) _ _ _] E.
  pose proof (Permutation_length Hperm) as Hl. rewrite length_app, length_take in Hl.
  destruct R as [|r R]; [by rewrite Hperm|]. cbn [length] in Hl. lia.
Qed.

Lemma attempt_spec bits keys seed t r :
  clean (length keys) t -> attempt g bits keys seed t = Ret r ->
  match r with
  | Built u t' => peeled seed keys u t'
  | CountError _ => False
  | PeelFailed t' => clean (length keys) (reset_tables (length keys) cap t')
  end.
Proof.
  intros Hclean H. pose proof (clean_tab _ _ Hclean) as Htab0.
  destruct Hclean as (Hal & Hc0 & Hh0 & Hrl & Hro). unfold attempt in H.
  apply bind_Ret in H as (start & _ & H). rewrite Hro in H.
  apply bind_Ret in H as ([order start'] & Hplace & H). apply place_all in Hplace.
  pose proof (placed_fits _ _ _ _ Hplace) as Hfit. destruct Hplace as (Ho & Hlast & Hperm).
  rewrite length_fmap, Nat.sub_diag, app_nil_r in Hperm.
  apply bind_Ret in H as (cs & Hcs & H). apply count_all in Hcs; [|done..|lia].
  destruct Hcs as (R0 & Htab & Herr & Hlen & Hin). rewrite Herr in H.
  apply bind_Ret in H as ([al q] & Hq & H). eapply enqueue_all in Hq; [|done..].
  apply bind_Ret in H as (p & Hp & H). apply Ret_inj in H.
  assert (Forall (fits 64) R0) as Hfit0.
  { apply Forall_forall. intros h Hh%Hin%elem_of_take. destruct Hh as (i & Hi & _).
    by eapply Forall_lookup_1. }
  eapply peel_loop_inv in Hp; [|done| |eapply peel_inv_init; try done; by apply Forall_forall]; [|lia].
  destruct Hp as (R & Pc & f & Hinv).
  destruct (Nat.eqb_spec (p_stack p + c_duplicates cs) (length keys)) as [E|E]; subst r.
  - assert (take (p_stack p) (p_order p) ≡ₚ R0) as Hall by (eapply peel_inv_done; [done|lia]).
    split_and!; cbn [reverse_order reverse_h].
    + destruct Hinv as [(_ & _ & Hst & _) _ _ _]. by exists Pc.
    + intros key Hkey. rewrite Hall. apply Hin. rewrite Hperm.
      apply list_elem_of_fmap. by exists key.
    + by rewrite Hall.
  - by eapply clean_reset.
Qed.

Lemma attempts_spec n bits keys rng seed t r :
  clean (length keys) t -> attempts n g bits keys rng seed t = Ret r ->
  match r with Some (seed, u, t') => peeled seed keys u t' | None => True end.
Proof.
  revert rng seed t. induction n as [|n IH]; intros rng seed t Hcl H; cbn [attempts] in H.
  - by apply Ret_inj in H as <-.
  - apply bind_Ret in H as (a & Ha & H). apply attempt_spec in Ha; [|done]. destruct a as [u t'|t'|t'].
    + by apply Ret_inj in H as <-.
    + done.
    + destruct (splitmix64 rng) as [seed' rng']. by eapply IH.
Qed.

(** ** Assigning *)

(** The three cells of [h] xor to its fingerprint. *)
Definition holds (fps : list Z) (h : Z) : Prop :=
  exists a b c, fps !! Z.to_nat (cell0 g h) = Some a /\ fps !! Z.to_nat (cell1 g h) = Some b /\
    fps !! Z.to_nat (cell2 g h) = Some c /\ fingerprint h = Z.lxor (Z.lxor a b) c.

Lemma holds_keep fps h c x :
  fits 64 h -> 0 <= c -> pos g h c = None -> holds fps h -> holds (<[Z.to_nat c := x]> fps) h.
Proof.
  intros Hh Hc Hp (a & b & d & Ha & Hb & Hd & E). exists a, b, d.
  destruct (cells_bound g Hg h Hh) as (b0 & b1 & b2).
  destruct (pos_cells g Hg h c Hh) as [[_ Hp']|[[_ Hp']|[[_ Hp']|(n0 & n1 & n2 & _)]]];
    [by rewrite Hp in Hp'..|].
  rewrite !list_lookup_insert_ne by lia. done.
Qed.

Lemma contains_holds fps d key :
  segment_length_ d = g_segment_length g -> segment_length_mask d = g_mask g ->
  segment_count_length d = g_segment_count_length g -> holds fps (mix key (seed d)) ->
  contains_u64 {| descriptor := d; fingerprints := fps |} key = Ret true.
Proof.
  intros E1 E2 E3 (a & b & c & Ha & Hb & Hc & E). unfold contains_u64. cbn [descriptor fingerprints].
  rewrite E1, E2, E3, (hash_of_hash_cells g Hg) by apply mix_fits. cbn [mbind outcome_bind].
  unfold index. rewrite Ha, Hb, Hc. cbn [mbind outcome_bind].
  by rewrite E, Z.lxor_nilpotent.
Qed.

(** One assignment makes its own key hold and disturbs no key outside the cell
    it writes. *)
Lemma assign_one_spec t fps fps' i h j :
  fits 64 h -> reverse_order t !! i = Some h -> reverse_h t !! i = Some j -> 0 <= j < 3 ->
  assign_one g t fps i = Ret fps' ->
  holds fps' h /\
  forall h', fits 64 h' -> pos g h' (cellf g h j) = None -> holds fps h' -> holds fps' h'.
Proof.
  intros Hh Ho Hr Hj H. unfold assign_one in H.
  apply bind_Ret in H as (h0 & E%index_Ret & H). rewrite Ho in E. injection E as <-.
  rewrite (hash_of_hash_cells g Hg) in H by done. cbn [mbind outcome_bind] in H.
  apply bind_Ret in H as (j0 & E%index_Ret & H). rewrite Hr in E. injection E as <-.
  destruct (cells_bound g Hg h Hh) as (b0 & b1 & b2).
  destruct (cells_distinct g Hg h Hh) as (d01 & d02 & d12).
  assert (j = 0 \/ j = 1 \/ j = 2) as [-> |[-> | ->]] by lia;
    unfold cellf; cbn [Z.eqb Pos.eqb];
    apply bind_Ret in H as (slot & [= <-]%index_Ret & H);
    apply bind_Ret in H as (a & [= <-]%index_Ret & H); apply bind_Ret in H as (fa & Ha%index_Ret & H);
    apply bind_Ret in H as (b & [= <-]%index_Ret & H); apply bind_Ret in H as (fb & Hb%index_Ret & H);
    apply update_Ret in H as [Hlt ->]; (split; [|intros; apply holds_keep; (done || lia)]).
  - exists (Z.lxor (Z.lxor (fingerprint h) fa) fb), fa, fb.
    rewrite list_lookup_insert_eq by done. rewrite !list_lookup_insert_ne by lia. split_and!; [done..|].
    rewrite (Z.lxor_assoc (fingerprint h)), (Z.lxor_assoc (Z.lxor _ _)), lxor_cancel_r. done.
  - exists fb, (Z.lxor (Z.lxor (fingerprint h) fa) fb), fa.
    rewrite list_lookup_insert_eq by done. rewrite !list_lookup_insert_ne by lia. split_and!; [done..|].
    rewrite (Z.lxor_comm fb), lxor_cancel_r, lxor_cancel_r. done.
  - exists fa, fb, (Z.lxor (Z.lxor (fingerprint h) fa) fb).
    rewrite list_lookup_insert_eq by done. rewrite !list_lookup_insert_ne by lia. split_and!; [done..|].
    rewrite (Z.lxor_assoc (fingerprint h)), Z.lxor_comm, lxor_cancel_r. done.
Qed.

Lemma assign_from t u Pc n fps fps' :
  stack_ok g (reverse_order t) (reverse_h t) u Pc -> (n <= u)%nat ->
  Forall (fits 64) (take u (reverse_order t)) ->
  (forall k h, (n <= k < u)%nat -> reverse_order t !! k = Some h -> holds fps h) ->
  foldM (assign_one g t) fps (rev (seq 0 n)) = Ret fps' ->
  forall k h, (k < u)%nat -> reverse_order t !! k = Some h -> holds fps' h.
Proof.
  intros Hst Hn Hfit. revert fps. induction n as [|n IH]; intros fps Hdone H.
  - apply Ret_inj in H as <-. intros k h Hk. apply Hdone. lia.
  - rewrite seq_S, rev_app_distr in H. cbn [rev app foldM] in H. apply bind_Ret in H as (fps1 & H1 & H).
    assert (forall k h, (k < u)%nat -> reverse_order t !! k = Some h -> fits 64 h) as Hfk.
    { intros k h Hk Hl. eapply Forall_lookup_1; [exact Hfit|]. by rewrite lookup_take_lt. }
    assert (exists h, reverse_order t !! n = Some h) as [h Hl].
    { unfold assign_one in H1. apply bind_Ret in H1 as (h & ?%index_Ret & _). by exists h. }
    destruct (Hst n h) as (j & Hj & Hjr & _ & Hlater); [lia|done|].
    eapply assign_one_spec in H1 as [Hnew Hkeep]; [|eapply Hfk; [|done]; lia|done..].
    apply (IH ltac:(lia) fps1); [|done]. intros k h' Hk Hl'. destruct (decide (k = n)) as [->|].
    + congruence.
    + apply Hkeep; [eapply Hfk; [|done]; lia|apply (Hlater k); [lia|done]|apply (Hdone k); [lia|done]].
Qed.

Lemma assign_all_holds t seed keys u fps fps' key :
  peeled seed keys u t -> assign_all g t u fps = Ret fps' -> key ∈ keys -> holds fps' (mix key seed).
Proof.
  intros ([Pc Hst] & Hkeys & Hfit) H Hkey. apply Hkeys in Hkey.
  apply elem_of_take in Hkey as (i & Hi & Hlt).
  eapply (assign_from t u Pc u fps fps'); [done..| |done|exact Hlt|exact Hi]. intros; lia.
Qed.

End Attempt.

(** ** The main theorem *)

Section Main.
  Context `{P : Profile, L : Libm}.

Lemma try_from_iterator_contains random_u16 keys f key :
  overflow_checks = true -> try_from_iterator random_u16 keys = Ret (Ok f) -> key ∈ keys ->
  contains_u64 f key = Ret true.
Proof.
  intros Hoc H Hkey. unfold try_from_iterator in H.
  destruct (Nat.eqb_spec (length keys) 0) as [E|_]; [by apply nil_length_inv in E as ->; set_solver|].
  destruct (_ && _)%bool; [done|].
  apply bind_Ret in H as (g & Hgeo & H). apply geometry_of_ok in Hgeo; [|done].
  destruct (splitmix64 1) as [s0 rng].
  apply bind_Ret in H as (bits & _ & H). apply bind_Ret in H as (r & Hr & H).
  rewrite length_fmap, length_seq in Hr. apply (attempts_spec g Hgeo Hoc) in Hr.
  2:{ split_and!; cbn; [by rewrite length_replicate|done|done|by rewrite length_replicate|done]. }
  destruct r as [[[sd u] t]|]; [|by apply Ret_inj in H].
  apply bind_Ret in H as (fps & Hfps & H). apply Ret_inj in H. injection H as <-.
  eapply contains_holds; [done..|]. by eapply assign_all_holds.
Qed.

End Main.
