(* ===== verification/FuseTerm.v ===== *)
(** * The BinaryFuse16 construction terminates.

    In a build that checks overflow, none of the loops (the search for the
    block size, the cyclic probing, the peeling queue, the retries) runs
    forever: each ends, or panics, within the fuel of its definition. *)

From stdpp Require Import base list strings sets.
From Stdlib Require Import ZArith Lia SpecFloat.
From S2P Require Import Prelude RustInt RustStr XxHash Float64 Fuse FuseTables FusePeel FuseBuild.

Local Open Scope Z_scope.

(** Straight-line code cannot diverge. *)
Ltac ends :=
  repeat first
    [ done
    | assumption
    | apply index_not_Diverge
    | apply update_not_Diverge
    | apply arith_not_Diverge
    | apply bind_not_Diverge; [|intros ? _]
    | case_match ].

Lemma div_ceil_not_Diverge a b : div_ceil a b <> Diverge.
Proof. unfold div_ceil. ends. Qed.

Section Straight.
  Context `{P : Profile, L : Libm}.

Lemma ushl_not_Diverge w a n : ushl w a n <> Diverge.
Proof. unfold ushl. ends. Qed.

Lemma hash_of_hash_not_Diverge h sl m c : hash_of_hash h sl m c <> Diverge.
Proof. unfold hash_of_hash, uadd. ends. Qed.

Lemma bump_not_Diverge c h i t x : bump c h i t x <> Diverge.
Proof. unfold bump, uadd. ends. Qed.

Lemma unbump_not_Diverge c h i t x : unbump c h i t x <> Diverge.
Proof. unfold unbump, usub. ends. Qed.

Lemma segment_length_not_Diverge a n : segment_length a n <> Diverge.
Proof. unfold segment_length. repeat (case_match; [by (done || apply ushl_not_Diverge)|]). done. Qed.

Lemma geometry_of_not_Diverge n : geometry_of n <> Diverge.
Proof.
  unfold geometry_of, usub, uadd, umul. cbv zeta.
  repeat first [apply segment_length_not_Diverge | apply div_ceil_not_Diverge | progress ends].
Qed.

Lemma start_positions_not_Diverge n bits : start_positions n bits <> Diverge.
Proof.
  unfold start_positions, umul. generalize (seq 0 (Z.to_nat (Z.shiftl 1 bits))). intros l.
  induction l as [|i l IH]; cbn [mapM_out]; ends.
Qed.

Lemma count_key_not_Diverge g order s i : count_key g order s i <> Diverge.
Proof.
  unfold count_key.
  repeat first [apply hash_of_hash_not_Diverge | apply bump_not_Diverge | apply unbump_not_Diverge | progress ends].
Qed.

Lemma enqueue_not_Diverge c s i : enqueue_cell c s i <> Diverge.
Proof. unfold enqueue_cell. ends. Qed.

Lemma peel_one_not_Diverge g s : peel_one g s <> Diverge.
Proof.
  unfold peel_one, remove_from.
  repeat first [apply hash_of_hash_not_Diverge | apply unbump_not_Diverge | progress ends].
Qed.

Lemma assign_one_not_Diverge g t fps i : assign_one g t fps i <> Diverge.
Proof. unfold assign_one. repeat first [apply hash_of_hash_not_Diverge | progress ends]. Qed.

(** The block-size loop: [1 << 32] panics at the latest. *)
Lemma block_bits_loop_ends fuel sc bits :
  overflow_checks = true -> 1 <= bits <= 32 -> 32 < bits + Z.of_nat fuel ->
  block_bits_loop fuel sc bits <> Diverge /\
  forall b, block_bits_loop fuel sc bits = Ret b -> 1 <= b < 32.
Proof.
  intros Hoc. revert bits. induction fuel as [|fuel IH]; intros bits Hb Hf; [lia|]. cbn [block_bits_loop].
  unfold ushl. destruct (Z.leb_spec 0 bits), (Z.ltb_spec bits 32); try lia; cbn [andb mbind outcome_bind].
  - case_match; [apply IH; lia|]. split; [done|]. intros b [= <-]. lia.
  - rewrite Hoc. done.
Qed.

Lemma block_bits_of_ends sc :
  overflow_checks = true ->
  block_bits_of sc <> Diverge /\ forall b, block_bits_of sc = Ret b -> 1 <= b < 32.
Proof. intros Hoc. apply block_bits_loop_ends; [done|lia|lia]. Qed.

End Straight.

(** ** Probing finds a free entry

    [W] lists the entries written so far.  The entries of block [k] between its
    first position [s k] and its current one are written, and every written
    entry is accounted for by some block. *)
Section Probe.
  Context `{P : Profile} (bits : Z) (Hbits : 1 <= bits < 32).
  #[local] Abbreviation nblocks := (Z.to_nat (Z.shiftl 1 bits)).

Record probe_inv (size : nat) (s : list Z) (W : list Z) (n : nat) (order start : list Z) : Prop := {
  pr_first : s !! 0%nat = Some 0;
  pr_len : length s = nblocks /\ length start = nblocks;
  pr_count : length W = n;
  pr_nonzero : forall p v, 0 <= p -> order !! Z.to_nat p = Some v -> v <> 0 -> p <> Z.of_nat size -> p ∈ W;
  pr_blocks : forall k a p, s !! k = Some a -> start !! k = Some p -> 0 <= a <= p /\ forall x, a <= x < p -> x ∈ W;
  pr_written : forall x, x ∈ W -> exists k a p, s !! k = Some a /\ start !! k = Some p /\ a <= x < p
}.

Lemma nblocks_pow : Z.shiftl 1 bits = 2 ^ bits.
Proof. by rewrite Z.shiftl_1_l. Qed.

(** Failing to find a free entry means that every block points at a used one. *)
Lemma probe_Diverge fuel order start si :
  0 <= si < 2 ^ bits -> probe fuel bits order start si = Diverge ->
  forall n, (n < fuel)%nat -> exists p v, start !! Z.to_nat ((si + Z.of_nat n) mod 2 ^ bits) = Some p /\
    order !! Z.to_nat p = Some v /\ v <> 0.
Proof.
  revert si. induction fuel as [|fuel IH]; intros si Hsi H n Hn; [lia|]. cbn [probe] in H.
  apply bind_Diverge in H as [H|(p & Hp%index_Ret & H)]; [by apply index_not_Diverge in H|].
  apply bind_Diverge in H as [H|(v & Hv%index_Ret & H)]; [by apply index_not_Diverge in H|].
  destruct (Z.eqb_spec v 0) as [|Hv0]; [done|].
  destruct n as [|n]; [rewrite Z.add_0_r, Z.mod_small by done; by exists p, v|].
  rewrite nblocks_pow in H. replace (2 ^ bits - 1) with (Z.ones bits) in H by (rewrite Z.ones_equiv; lia).
  rewrite Z.land_ones in H by lia. pose proof (Z.pow_pos_nonneg 2 bits).
  replace ((si + Z.of_nat (S n)) mod 2 ^ bits) with (((si + 1) mod 2 ^ bits + Z.of_nat n) mod 2 ^ bits).
  - apply (IH ((si + 1) mod 2 ^ bits)); [by apply Z.mod_pos_bound; lia|done|lia].
  - rewrite Zplus_mod_idemp_l. f_equal. lia.
Qed.

Lemma missing_entry (W : list Z) size :
  (length W < size)%nat -> exists x, 0 <= x < Z.of_nat size /\ x ∉ W.
Proof.
  intros Hlt. destruct (decide (Forall (fun i => Z.of_nat i ∈ W) (seq 0 size))) as [Hall|Hnot].
  - exfalso. assert (Z.of_nat <$> seq 0 size ⊆+ W) as Hsub.
    { apply NoDup_submseteq; [apply NoDup_fmap_2; [apply _|apply NoDup_seq]|].
      intros x (i & -> & Hi)%list_elem_of_fmap. by eapply Forall_forall in Hall. }
    apply submseteq_length in Hsub. rewrite length_fmap, length_seq in Hsub. lia.
  - apply not_Forall_Exists in Hnot; [|apply _]. apply Exists_exists in Hnot as (i & Hi & Hn).
    apply elem_of_seq in Hi. exists (Z.of_nat i). split; [lia|done].
Qed.

Lemma probe_ends size s W n order start si :
  probe_inv size s W n order start -> (n < size)%nat -> 0 <= si < 2 ^ bits ->
  probe nblocks bits order start si <> Diverge.
Proof.
  intros [Hfirst [Hls Hlst] Hcount Hnz Hbl Hwr] Hn Hsi Hd. pose proof (Z.pow_pos_nonneg 2 bits).
  assert (forall k p, start !! k = Some p -> exists v, order !! Z.to_nat p = Some v /\ v <> 0) as Hfull.
  { intros k p Hk. pose proof (lookup_lt_Some _ _ _ Hk) as Hlt. rewrite Hlst, nblocks_pow in Hlt.
    destruct (probe_Diverge _ _ _ _ Hsi Hd (Z.to_nat ((Z.of_nat k - si) mod 2 ^ bits)))
      as (p' & v & Hp' & Hv & Hv0).
    - rewrite nblocks_pow. pose proof (Z.mod_pos_bound (Z.of_nat k - si) (2 ^ bits)). lia.
    - rewrite Z2Nat.id in Hp' by (apply Z.mod_pos_bound; lia). rewrite Zplus_mod_idemp_r in Hp'.
      replace (si + (Z.of_nat k - si)) with (Z.of_nat k) in Hp' by lia.
      rewrite Z.mod_small, Nat2Z.id in Hp' by lia. rewrite Hk in Hp'. injection Hp' as <-. eauto. }
  destruct (missing_entry W size) as (x & Hx & HxW); [lia|].
  assert (forall y, 0 <= y -> y <= x -> exists k a p, s !! k = Some a /\ start !! k = Some p /\ a <= x /\ y < p) as Hreach.
  { intros y Hy. pattern y. apply natlike_ind; [| |done]; clear y Hy.
    - intros _. destruct (lookup_lt_is_Some_2 start 0) as [p Hp]; [by apply lookup_lt_Some in Hfirst; lia|].
      destruct (Hbl _ _ _ Hfirst Hp) as [Hap _]. destruct (decide (p = 0)) as [->|]; [|exists 0%nat, 0, p; split_and!; (done || lia)].
      destruct (Hfull _ _ Hp) as (v & Hv & Hv0). assert (0 ∈ W) as HW by (eapply Hnz; (done || lia)).
      destruct (Hwr _ HW) as (k & a & p' & ? & ? & ?). exists k, a, p'. split_and!; (done || lia).
    - intros y Hy IH Hyx. destruct IH as (k & a & p & Hk & Hp & Ha & Hyp); [lia|].
      destruct (decide (p = Z.succ y)) as [->|]; [|exists k, a, p; split_and!; (done || lia)].
      destruct (Hfull _ _ Hp) as (v & Hv & Hv0). assert (Z.succ y ∈ W) as HW by (eapply Hnz; (done || lia)).
      destruct (Hwr _ HW) as (k' & a' & p' & ? & ? & ?). exists k', a', p'. split_and!; (done || lia). }
  destruct (Hreach x) as (k & a & p & Hk & Hp & Ha & Hxp); [lia..|].
  apply HxW. by eapply Hbl; [exact Hk|exact Hp|].
Qed.

Lemma place_probe_inv size s W n order start order' start' seed key :
  probe_inv size s W n order start ->
  place bits seed (order, start) key = Ret (order', start') ->
  exists W', probe_inv size s W' (S n) order' start'.
Proof.
  intros [Hfirst [Hls Hlst] Hcount Hnz Hbl Hwr] H. unfold place in H.
  apply bind_Ret in H as (si & Hsi & H). apply probe_free in Hsi as (p & Hp & Hfree).
  apply bind_Ret in H as (p' & Hp' & H). rewrite Hp in Hp'. apply Ret_inj in Hp' as <-.
  apply bind_Ret in H as (o & [Hlto ->]%update_Ret & H).
  apply bind_Ret in H as (st & [Hlts ->]%update_Ret & H). apply Ret_inj, pair_equal_spec in H as [<- <-].
  apply index_Ret in Hp. destruct (lookup_lt_is_Some_2 s (Z.to_nat si)) as [a Ha]; [lia|].
  destruct (Hbl _ _ _ Ha Hp) as [Hap Hax].
  exists (p :: W). split; [done|by rewrite length_insert|cbn; lia| | |].
  - intros q v Hq Hv Hv0 Hqs. destruct (decide (q = p)) as [->|]; [constructor|].
    rewrite list_lookup_insert_ne in Hv by lia. constructor. by eapply Hnz.
  - intros k b q Hk Hq. destruct (decide (k = Z.to_nat si)) as [->|].
    + rewrite list_lookup_insert_eq in Hq by done. injection Hq as <-. rewrite Ha in Hk. injection Hk as <-.
      split; [lia|]. intros x Hx. destruct (decide (x = p)) as [->|]; constructor. apply Hax. lia.
    + rewrite list_lookup_insert_ne in Hq by done. destruct (Hbl _ _ _ Hk Hq) as [? Hin].
      split; [done|]. intros x Hx. constructor. by apply Hin.
  - intros x [->|Hx]%elem_of_cons.
    + exists (Z.to_nat si), a, (p + 1). rewrite list_lookup_insert_eq by done. split_and!; (done || lia).
    + destruct (Hwr x Hx) as (k & b & q & Hk & Hq & Hbq). destruct (decide (k = Z.to_nat si)) as [->|].
      * exists (Z.to_nat si), a, (p + 1). rewrite list_lookup_insert_eq by done.
        rewrite Ha in Hk. injection Hk as <-. rewrite Hp in Hq. injection Hq as <-. split_and!; (done || lia).
      * exists k, b, q. rewrite list_lookup_insert_ne by done. done.
Qed.

Lemma probe_inv_init size s order :
  start_positions size bits = Ret s -> order = replicate size 0 ++ [1] ->
  overflow_checks = true -> probe_inv size s [] 0 order s.
Proof.
  intros H%mapM_out_Ret -> Hoc. pose proof (Forall2_length _ _ _ H) as Hlen. rewrite length_seq in Hlen.
  assert (forall k a, s !! k = Some a -> a = Z.shiftr (Z.of_nat k * Z.of_nat size) bits) as Hs.
  { intros k a Ha. destruct (Forall2_lookup_r _ _ _ _ _ H Ha) as (i & [Hi _]%lookup_seq & Hf).
    apply bind_Ret in Hf as (x & Hx & [= <-]). unfold umul in Hx. apply arith_checked in Hx as [_ ->]; [|done].
    by rewrite Hi. }
  pose proof (Z.pow_pos_nonneg 2 bits).
  split; [|done|done| | |set_solver].
  - destruct (lookup_lt_is_Some_2 s 0) as [a Ha]; [rewrite <-Hlen, nblocks_pow; lia|].
    rewrite Ha, (Hs _ _ Ha), Z.shiftr_0_l. done.
  - intros p v Hp Hv Hv0 Hne. exfalso. pose proof (lookup_lt_Some _ _ _ Hv) as Hlt.
    rewrite length_app, length_replicate in Hlt. cbn in Hlt.
    rewrite lookup_app_l in Hv by (rewrite length_replicate; lia).
    by apply lookup_replicate in Hv as [-> _].
  - intros k a p Ha Hp. rewrite Ha in Hp. injection Hp as <-. split; [|intros; lia].
    rewrite (Hs _ _ Ha). split; [|lia]. apply Z.shiftr_nonneg. lia.
Qed.

Lemma place_all_ends keys seed order start :
  start_positions (length keys) bits = Ret start -> order = replicate (length keys) 0 ++ [1] ->
  overflow_checks = true -> foldM (place bits seed) (order, start) keys <> Diverge.
Proof.
  intros Hstart Horder Hoc. pose proof (probe_inv_init _ _ _ Hstart Horder Hoc) as Hinit.
  apply (foldM_ends (fun done st => exists W, probe_inv (length keys) start W (length done) (fst st) (snd st)));
    [by exists []|].
  intros done key rest [o st] E [W HW]. cbn [fst snd] in *. split.
  - unfold place. apply bind_not_Diverge.
    + eapply probe_ends; [exact HW|rewrite E, length_app; cbn; lia|].
      pose proof (mix_fits key seed) as Hf. unfold fits in Hf.
      rewrite Z.shiftr_div_pow2 by lia. split; [apply Z.div_pos; [lia|apply Z.pow_pos_nonneg; lia]|].
      apply Z.div_lt_upper_bound; [apply Z.pow_pos_nonneg; lia|]. rewrite <-Z.pow_add_r by lia.
      replace (64 - bits + bits) with 64 by lia. lia.
    + intros si _. repeat (apply bind_not_Diverge; [by (apply index_not_Diverge || apply update_not_Diverge)|intros ? _]). done.
  - intros [o2 st2] Hpl. rewrite length_app, Nat.add_1_r. by eapply place_probe_inv.
Qed.

End Probe.

(** ** The whole construction *)
Section Whole.
  Context `{P : Profile, L : Libm} (Hoc : overflow_checks = true).

Lemma peel_loop_ends g (Hg : geometry_ok g) fuel size R0 s R Pc f :
  Forall (fits 64) R0 -> (length R0 <= size)%nat -> peel_inv g size R0 s R Pc f ->
  (p_qsize s + 2 * (size - p_stack s) <= fuel)%nat -> peel_loop fuel g s <> Diverge.
Proof.
  intros Hfit Hsize. revert s R Pc f. induction fuel as [|fuel IH]; intros s R Pc f Hinv Hfuel;
    cbn [peel_loop]; destruct (Nat.eqb_spec (p_qsize s) 0) as [Hq|Hq]; [done|lia|done|].
  apply bind_not_Diverge; [apply peel_one_not_Diverge|]. intros s1 H1.
  destruct (peel_one_inv g Hg Hoc _ _ _ _ _ _ _ Hfit Hsize Hinv Hq H1) as (R1 & Pc1 & f1 & Hinv1 & Hlt).
  eapply IH; [done|lia].
Qed.

Lemma attempt_ends g (Hg : geometry_ok g) bits keys seed t :
  1 <= bits < 32 -> clean g (length keys) t -> attempt g bits keys seed t <> Diverge.
Proof.
  intros Hbits Hclean. pose proof (clean_tab _ _ _ Hclean) as Htab0.
  destruct Hclean as (Hal & Hc0 & Hh0 & Hrl & Hro). unfold attempt. rewrite Hro.
  apply bind_not_Diverge; [apply start_positions_not_Diverge|]. intros start Hstart.
  apply bind_not_Diverge; [by apply place_all_ends|]. intros [order start'] Hplace%place_all.
  pose proof (placed_fits _ _ _ _ Hplace) as Hfit. destruct Hplace as (Ho & Hlast & _).
  apply bind_not_Diverge; [apply foldM_not_Diverge, count_key_not_Diverge|]. intros cs Hcs.
  apply count_all in Hcs as (R0 & Htab & Herr & Hlen & Hin); [|done..|lia]. rewrite Herr.
  apply bind_not_Diverge; [apply foldM_not_Diverge, enqueue_not_Diverge|]. intros [al q] Hq.
  eapply enqueue_all in Hq; [|done..].
  apply bind_not_Diverge; [|done].
  assert (forall h, h ∈ R0 -> fits 64 h) as Hfit0.
  { intros h Hh%Hin%elem_of_take. destruct Hh as (i & Hi & _). by eapply Forall_lookup_1. }
  eapply (peel_loop_ends g Hg _ (length keys) R0); [by apply Forall_forall|lia| |].
  - by eapply peel_inv_init.
  - cbn. pose proof (q_size _ _ _ _ _ Hq). unfold peel_fuel. lia.
Qed.

Lemma attempts_ends n g (Hg : geometry_ok g) bits keys rng seed t :
  1 <= bits < 32 -> clean g (length keys) t -> attempts n g bits keys rng seed t <> Diverge.
Proof.
  intros Hbits. revert rng seed t. induction n as [|n IH]; intros rng seed t Hcl; cbn [attempts]; [done|].
  apply bind_not_Diverge; [by apply attempt_ends|]. intros a Ha.
  apply (attempt_spec g Hg Hoc) in Ha; [|done]. destruct a as [u t'|t'|t']; [done..|].
  destruct (splitmix64 rng) as [seed' rng']. by apply IH.
Qed.

Lemma try_from_iterator_ends random_u16 keys : try_from_iterator random_u16 keys <> Diverge.
Proof.
  unfold try_from_iterator. case_match; [done|]. case_match; [done|].
  apply bind_not_Diverge; [apply geometry_of_not_Diverge|]. intros g Hg%geometry_of_ok; [|done].
  destruct (splitmix64 1) as [s0 rng]. rewrite length_fmap, length_seq.
  destruct (block_bits_of_ends (g_segment_count g) Hoc) as [Hb Hbr].
  apply bind_not_Diverge; [done|]. intros bits Hbits%Hbr.
  apply bind_not_Diverge.
  - apply attempts_ends; [done|done|]. split_and!; cbn; rewrite ?length_replicate; done.
  - intros [[[sd u] t]|] _; [|done]. apply bind_not_Diverge; [|done].
    apply foldM_not_Diverge, assign_one_not_Diverge.
Qed.

End Whole.
