(* ===== verification/FuseFormat.v ===== *)
(** * The BinaryFuse16 wire format, and the relation between build profiles. *)

From stdpp Require Import base list strings sets.
From Stdlib Require Import ZArith Lia SpecFloat.
From S2P Require Import Prelude RustInt RustStr XxHash Float64 Fuse FuseTables FusePeel FuseBuild.

Local Open Scope Z_scope.

(** The build that differs from [p] only in that it checks overflow. *)
Definition checked (p : Profile) : Profile :=
  {| overflow_checks := true; debug_assertions := @debug_assertions p |}.

(** ** Build profiles: a checked build that returns agrees with every other *)
Section Profiles.
  Context (p q : Profile) (Hp : @overflow_checks p = true).
  Context `{L : Libm}.

Ltac refine_step :=
  repeat first
    [ apply refines_refl
    | apply refines_Panic
    | apply arith_refines; exact Hp
    | apply ushl_refines; exact Hp
    | apply refines_foldM; intros
    | apply refines_bind; [|intros]
    | case_match ].

Lemma refines_mapM_out {A B : Type} (f f' : A -> outcome B) l :
  (forall x, refines (f x) (f' x)) -> refines (mapM_out f l) (mapM_out f' l).
Proof.
  intros Hf. induction l as [|x l IH]; cbn [mapM_out]; [apply refines_refl|].
  apply refines_bind; [apply Hf|]. intros y. apply refines_bind; [apply IH|]. intros; apply refines_refl.
Qed.

Lemma hash_of_hash_refines h sl m c : refines (@hash_of_hash p h sl m c) (@hash_of_hash q h sl m c).
Proof. unfold hash_of_hash, uadd. refine_step. Qed.

Lemma bump_refines c h i t x : refines (@bump p c h i t x) (@bump q c h i t x).
Proof. unfold bump, uadd. refine_step. Qed.

Lemma unbump_refines c h i t x : refines (@unbump p c h i t x) (@unbump q c h i t x).
Proof. unfold unbump, usub. refine_step. Qed.

Lemma segment_length_refines a n : refines (@segment_length p L a n) (@segment_length q L a n).
Proof. unfold segment_length. refine_step. Qed.

Lemma geometry_of_refines n : refines (@geometry_of p L n) (@geometry_of q L n).
Proof.
  unfold geometry_of, usub, uadd, umul. cbv zeta.
  repeat first [apply segment_length_refines | progress refine_step].
Qed.

Lemma block_bits_refines n sc b : refines (@block_bits_loop p n sc b) (@block_bits_loop q n sc b).
Proof.
  revert b. induction n as [|n IH]; intros b; cbn [block_bits_loop]; [apply refines_refl|].
  apply refines_bind; [by apply ushl_refines|]. intros x. case_match; [apply IH|apply refines_refl].
Qed.

Lemma count_key_refines g o s i : refines (@count_key p g o s i) (@count_key q g o s i).
Proof.
  unfold count_key.
  repeat first [apply hash_of_hash_refines | apply bump_refines | apply unbump_refines | progress refine_step].
Qed.

Lemma peel_loop_refines n g s : refines (@peel_loop p n g s) (@peel_loop q n g s).
Proof.
  revert s. induction n as [|n IH]; intros s; cbn [peel_loop]; [case_match; apply refines_refl|].
  case_match; [apply refines_refl|]. apply refines_bind; [|intros; apply IH].
  unfold peel_one, remove_from.
  repeat first [apply hash_of_hash_refines | apply unbump_refines | progress refine_step].
Qed.

Lemma attempt_refines g b keys s t : refines (@attempt p g b keys s t) (@attempt q g b keys s t).
Proof.
  unfold attempt. apply refines_bind.
  { unfold start_positions, umul. apply refines_mapM_out. intros. refine_step. }
  intros start. apply refines_bind; [apply refines_refl|]. intros [order start'].
  apply refines_bind; [apply refines_foldM, count_key_refines|]. intros cs.
  case_match; [apply refines_refl|]. apply refines_bind; [apply refines_refl|]. intros [al n].
  apply refines_bind; [apply peel_loop_refines|]. intros; apply refines_refl.
Qed.

Lemma attempts_refines n g b keys rng s t :
  refines (@attempts p n g b keys rng s t) (@attempts q n g b keys rng s t).
Proof.
  revert rng s t. induction n as [|n IH]; intros rng s t; cbn [attempts]; [apply refines_refl|].
  apply refines_bind; [apply attempt_refines|]. intros [u t'|t'|t'];
    [apply refines_refl|apply IH|]. destruct (splitmix64 rng). apply IH.
Qed.

Lemma try_from_iterator_refines random_u16 keys :
  (@debug_assertions q = true -> @debug_assertions p = true \/ NoDup keys) ->
  refines (@try_from_iterator p L random_u16 keys) (@try_from_iterator q L random_u16 keys).
Proof.
  intros Hdbg. unfold try_from_iterator. destruct (_ =? 0)%nat; [apply refines_refl|].
  assert (forall m n : outcome (result BinaryFuse16 string), refines m n ->
    refines (if @debug_assertions p && negb (bool_decide (NoDup keys)) then Panic else m)
            (if @debug_assertions q && negb (bool_decide (NoDup keys)) then Panic else n)) as Hif.
  { intros m n Hmn. case_bool_decide as Hnd; [by rewrite !andb_false_r|].
    destruct (@debug_assertions p); [apply refines_Panic|].
    destruct (@debug_assertions q); [by destruct Hdbg|done]. }
  apply Hif. apply refines_bind; [apply geometry_of_refines|]. intros g.
  destruct (splitmix64 1). apply refines_bind; [apply block_bits_refines|]. intros b.
  apply refines_bind; [apply attempts_refines|]. intros [[[sd u] t]|]; [|apply refines_refl].
  apply refines_bind; [|intros; apply refines_refl]. unfold assign_all. apply refines_foldM. intros.
  unfold assign_one. repeat first [apply hash_of_hash_refines | progress refine_step].
Qed.

Lemma contains_refines f key : refines (@contains_u64 p f key) (@contains_u64 q f key).
Proof. unfold contains_u64. repeat first [apply hash_of_hash_refines | progress refine_step]. Qed.

End Profiles.

(** ** Wire format *)

(** The values the fields of a filter can hold. *)
Record filter_wf (f : BinaryFuse16) : Prop := {
  fw_seed : fits 64 (seed (descriptor f));
  fw_segment_length : fits 32 (segment_length_ (descriptor f));
  fw_mask : fits 32 (segment_length_mask (descriptor f));
  fw_count_length : fits 32 (segment_count_length (descriptor f));
  fw_fingerprints : Forall (fits 16) (fingerprints f)
}.

Lemma length_u16s fps : length (concat (to_le_bytes 2 <$> fps)) = (length fps * 2)%nat.
Proof.
  induction fps as [|x fps IH]; [done|]; rewrite fmap_cons; cbn [concat].
  rewrite length_app, length_to_le_bytes. cbn [length]. lia.
Qed.

Lemma read_u16s_ok pre fps :
  Forall (fits 16) fps ->
  read_u16s (pre ++ concat (to_le_bytes 2 <$> fps)) (length pre) (length fps) = Ret fps.
Proof.
  intros Hf. revert pre. induction Hf as [|x fps Hx Hf IH]; intros pre; [done|].
  rewrite fmap_cons. cbn [length read_u16s concat].
  rewrite (slice_app_mid pre (to_le_bytes 2 x)) by (rewrite ?length_to_le_bytes; done).
  cbn [mbind outcome_bind]. rewrite app_assoc.
  replace (length pre + 2)%nat with (length (pre ++ to_le_bytes 2 x))
    by (by rewrite length_app, length_to_le_bytes).
  rewrite IH. cbn [mbind outcome_bind].
  rewrite (from_to_le_bytes_fits 2) by done. done.
Qed.

Lemma read_u16s_inv bs off n :
  bytes bs -> (off + 2 * n <= length bs)%nat ->
  exists ws, read_u16s bs off n = Ret ws /\ length ws = n /\ Forall (fits 16) ws /\
    concat (to_le_bytes 2 <$> ws) = take (2 * n) (drop off bs).
Proof.
  intros Hb. revert off. induction n as [|n IH]; intros off Hlen; [by exists []|]. cbn [read_u16s].
  rewrite slice_ok by lia. cbn [mbind outcome_bind]. replace (off + 2 - off)%nat with 2%nat by lia.
  destruct (IH (off + 2)%nat) as (ws & -> & Hl & Hf & Hc); [lia|]. cbn [mbind outcome_bind].
  assert (bytes (take 2 (drop off bs))) as Hw by auto with bytes.
  assert (length (take 2 (drop off bs)) = 2%nat) as Hw2 by (rewrite length_take, length_drop; lia).
  eexists. split_and!; [done|cbn; lia|constructor; [|done]|].
  - pose proof (from_le_bytes_fits _ Hw) as Hfit. by rewrite Hw2 in Hfit.
  - rewrite fmap_cons. cbn [concat]. rewrite Hc.
    pose proof (to_from_le_bytes _ Hw) as E. rewrite Hw2 in E. rewrite E.
    replace (2 * S n)%nat with (2 + 2 * n)%nat by lia. rewrite <-(drop_drop bs 2 off). by rewrite take_take_drop.
Qed.

Lemma length_serialize f : length (serialize f) = (22 + length (fingerprints f) * 2)%nat.
Proof. unfold serialize. rewrite !length_app, !length_to_le_bytes, length_u16s. lia. Qed.


(** Reading back the parts of a well-delimited input. *)
Lemma deserialize_layout b0 b1 sd sl sm sc fps :
  length sd = 8%nat -> length sl = 4%nat -> length sm = 4%nat -> length sc = 4%nat ->
  Forall (fits 16) fps -> from_le_bytes [b0; b1] = Z.of_nat (length fps) ->
  deserialize ([b0; b1] ++ sd ++ sl ++ sm ++ sc ++ concat (to_le_bytes 2 <$> fps))
  = Ret (Ok {| descriptor := {| seed := from_le_bytes sd;
                                segment_length_ := from_le_bytes sl;
                                segment_length_mask := from_le_bytes sm;
                                segment_count_length := from_le_bytes sc |};
               fingerprints := fps |}).
Proof.
  intros H1 H2 H3 H4 Hf Hn. unfold deserialize.
  set (bs := [b0; b1] ++ _). assert (length bs = 22 + length fps * 2)%nat as Hlen
    by (subst bs; rewrite !length_app, length_u16s; cbn; lia).
  rewrite Hlen. destruct (Nat.ltb_spec (22 + length fps * 2) 22); [lia|].
  assert (index bs 0 = Ret b0) as -> by done. assert (index bs 1 = Ret b1) as -> by done.
  cbn [mbind outcome_bind]. rewrite Hn, Nat2Z.id. unfold Descriptor_LEN.
  destruct (Nat.eqb_spec (22 + length fps * 2) (2 + 20 + length fps * 2)); [|lia]. cbn [negb].
  subst bs. rewrite (slice_app_mid [b0; b1] sd _ 2 10) by (cbn; lia). cbn [mbind outcome_bind].
  rewrite app_assoc, (slice_app_mid ([b0; b1] ++ sd) sl _ 10 14) by (rewrite ?length_app; cbn; lia). cbn [mbind outcome_bind].
  rewrite app_assoc, (slice_app_mid (([b0; b1] ++ sd) ++ sl) sm _ 14 18) by (rewrite ?length_app; cbn; lia). cbn [mbind outcome_bind].
  rewrite app_assoc, (slice_app_mid ((([b0; b1] ++ sd) ++ sl) ++ sm) sc _ 18 22) by (rewrite ?length_app; cbn; lia).
  cbn [mbind outcome_bind]. rewrite app_assoc.
  replace 22%nat with (length (((([b0; b1] ++ sd) ++ sl) ++ sm) ++ sc)) by (rewrite !length_app; cbn; lia).
  rewrite read_u16s_ok by done. done.
Qed.

Lemma deserialize_serialize f :
  filter_wf f -> Z.of_nat (length (fingerprints f)) < 65536 -> deserialize (serialize f) = Ret (Ok f).
Proof.
  intros [Hs Hsl Hm Hc Hf] Hn. unfold serialize.
  rewrite (wrap_id 16) by (unfold fits; lia).
  assert (forall n, to_le_bytes 2 n = [n mod 256; n / 256 mod 256]) as E2 by done. rewrite E2.
  rewrite deserialize_layout; [|by rewrite length_to_le_bytes..|done|].
  - rewrite (from_to_le_bytes_fits 8), !(from_to_le_bytes_fits 4) by done. by destruct f as [[] ?].
  - rewrite <-E2. apply (from_to_le_bytes_fits 2). unfold fits. lia.
Qed.

(** Over 65535 fingerprints the 16-bit length prefix wraps, and the reader
    rejects what the writer produced. *)
Lemma deserialize_serialize_long f :
  65536 <= Z.of_nat (length (fingerprints f)) ->
  deserialize (serialize f) = Ret (Err "Invalid BinaryFuse16 data length"%string).
Proof.
  intros Hn. unfold deserialize. rewrite length_serialize.
  destruct (Nat.ltb_spec (22 + length (fingerprints f) * 2) 22); [lia|].
  destruct (index_lt (serialize f) 0) as (b0 & -> & Hb0); [rewrite length_serialize; lia|].
  destruct (index_lt (serialize f) 1) as (b1 & -> & Hb1); [rewrite length_serialize; lia|].
  cbn [mbind outcome_bind]. unfold serialize in Hb0, Hb1. injection Hb0 as <-. injection Hb1 as <-.
  set (x := wrap 16 (Z.of_nat (length (fingerprints f)))).
  assert (fits 16 x) as Hx by (apply wrap_fits; lia).
  change [x mod 256; x / 256 mod 256] with (to_le_bytes 2 x).
  rewrite (from_to_le_bytes_fits 2) by done. unfold Descriptor_LEN. unfold fits in Hx.
  destruct (Nat.eqb_spec (22 + length (fingerprints f) * 2) (2 + 20 + Z.to_nat x * 2)); [lia|]. done.
Qed.

(** What the reader accepts, it reads faithfully. *)
Lemma serialize_deserialize bs f :
  bytes bs -> deserialize bs = Ret (Ok f) ->
  filter_wf f /\ Z.of_nat (length (fingerprints f)) < 65536 /\ serialize f = bs.
Proof.
  intros Hb H. unfold deserialize in H. destruct (Nat.ltb_spec (length bs) 22) as [|Hl]; [done|].
  apply bind_Ret in H as (b0 & H0%index_Ret & H). apply bind_Ret in H as (b1 & H1%index_Ret & H).
  destruct bs as [|c0 [|c1 bs]]; try done. cbn in H0, H1. injection H0 as ->. injection H1 as ->.
  pose proof (bytes_take 2 _ Hb) as Hb01. pose proof (bytes_drop 2 _ Hb) as Hbs. cbn [take drop] in Hb01, Hbs.
  pose proof (from_le_bytes_fits [b0; b1] Hb01) as Hn. cbn [length] in Hn.
  destruct (Nat.eqb_spec (length (b0 :: b1 :: bs)) (2 + Descriptor_LEN + Z.to_nat (from_le_bytes [b0; b1]) * 2))
    as [E|]; [|done]. cbn [negb length] in H, E. unfold Descriptor_LEN in E.
  set (n := Z.to_nat (from_le_bytes [b0; b1])) in *.
  do 4 (apply bind_Ret in H as (? & (_ & _ & ->)%slice_Ret & H)).
  apply bind_Ret in H as (fps & Hfps & H). apply Ret_inj in H. injection H as <-.
  destruct (read_u16s_inv (b0 :: b1 :: bs) 22 n) as (ws & Hws & Hwl & Hwf & Hwc);
    [done|cbn [length]; lia|].
  rewrite Hws in Hfps. apply Ret_inj in Hfps as <-.
  assert (forall a k, (a + k <= length bs)%nat -> length (take k (drop a bs)) = k) as Hlen
    by (intros; rewrite length_take, length_drop; lia).
  assert (forall a k, bytes (take k (drop a bs))) as Hbt by auto with bytes.
  assert (forall a k, (a + k <= length bs)%nat -> fits (8 * Z.of_nat k) (from_le_bytes (take k (drop a bs)))) as Hfit.
  { intros a k Hk. pose proof (from_le_bytes_fits _ (Hbt a k)) as Hf. by rewrite Hlen in Hf. }
  assert (forall a k, (a + k <= length bs)%nat -> to_le_bytes k (from_le_bytes (take k (drop a bs))) = take k (drop a bs)) as Hto.
  { intros a k Hk. pose proof (to_from_le_bytes _ (Hbt a k)) as Hf. by rewrite Hlen in Hf. }
  cbn [drop Nat.sub] in *. split_and!.
  - split; cbn [descriptor seed segment_length_ segment_length_mask segment_count_length fingerprints];
      [apply (Hfit 0%nat 8%nat)|apply (Hfit 8%nat 4%nat)|apply (Hfit 12%nat 4%nat)|apply (Hfit 16%nat 4%nat)|done]; lia.
  - cbn [fingerprints]. unfold fits in Hn. lia.
  - unfold serialize. cbn [descriptor seed segment_length_ segment_length_mask segment_count_length fingerprints].
    rewrite (Hto 0%nat 8%nat), (Hto 8%nat 4%nat), (Hto 12%nat 4%nat), (Hto 16%nat 4%nat), Hwc, Hwl by lia.
    rewrite wrap_id by (unfold fits in *; lia). unfold n. rewrite Z2Nat.id by (unfold fits in Hn; lia).
    pose proof (to_from_le_bytes [b0; b1] Hb01) as E2. cbn [length] in E2. rewrite E2. cbn [app]. do 2 f_equal.
    rewrite (take_ge (drop 20 bs)) by (rewrite length_drop; lia).
    change 20%nat with (16 + 4)%nat at 1. rewrite <-(drop_drop bs 4 16), take_drop.
    change 16%nat with (12 + 4)%nat at 1. rewrite <-(drop_drop bs 4 12), take_drop.
    change 12%nat with (8 + 4)%nat at 1. rewrite <-(drop_drop bs 4 8), take_drop.
    by rewrite (drop_0 bs), take_drop.
Qed.

Lemma deserialize_not_Panic bs : bytes bs -> exists r, deserialize bs = Ret r.
Proof.
  intros Hb. unfold deserialize. destruct (Nat.ltb_spec (length bs) 22) as [|Hl]; [eauto|].
  destruct (index_lt bs 0) as (b0 & -> & _); [lia|]. destruct (index_lt bs 1) as (b1 & -> & _); [lia|].
  cbn [mbind outcome_bind]. destruct (Nat.eqb_spec (length bs) (2 + Descriptor_LEN + Z.to_nat (from_le_bytes [b0; b1]) * 2))
    as [E|]; cbn [negb]; [|eauto]. unfold Descriptor_LEN in E.
  rewrite !slice_ok by lia. cbn [mbind outcome_bind].
  destruct (read_u16s_inv bs 22 (Z.to_nat (from_le_bytes [b0; b1])) Hb) as (ws & -> & _); [lia|]. eauto.
Qed.

(** ** Constructed filters are well formed *)
Section Constructed.
  Context `{P : Profile, L : Libm}.

Lemma splitmix64_fits s : fits 64 (fst (splitmix64 s)).
Proof. unfold splitmix64. cbn [fst]. eauto 12 with fits. Qed.

Lemma ushl_fits w a n x : 0 <= w -> ushl w a n = Ret x -> fits w x.
Proof.
  intros Hw. unfold ushl. repeat case_match; intros H'; inv_ret; by apply wrap_fits.
Qed.

Lemma geometry_of_fits n g :
  geometry_of n = Ret g -> fits 32 (g_segment_length g) /\ fits 32 (g_mask g) /\ fits 32 (g_segment_count_length g).
Proof.
  unfold geometry_of, usub, uadd, umul. cbv zeta. intros H.
  apply bind_Ret in H as (sl & Hsl & H).
  assert (0 <= sl) as Hsl0.
  { unfold segment_length in Hsl. destruct (wrap 32 (Z.of_nat n) =? 0); [inv_ret; lia|].
    destruct (arity =? 3); [apply ushl_fits in Hsl; unfold fits in Hsl; lia|].
    destruct (arity =? 4); [apply ushl_fits in Hsl; unfold fits in Hsl; lia|]. inv_ret. lia. }
  apply bind_Ret in H as (m & Hm%arith_Ret_fits & H); [|lia].
  do 5 (apply bind_Ret in H as (? & _ & H)).
  apply bind_Ret in H as (? & _ & H). apply bind_Ret in H as (? & _ & H).
  apply bind_Ret in H as (cl & Hcl%arith_Ret_fits & H); [|lia]. apply Ret_inj in H as <-. cbn.
  split_and!; [|done|done]. unfold fits. lia.
Qed.

Lemma attempts_seed n g bits keys rng s t r :
  fits 64 s -> attempts n g bits keys rng s t = Ret r ->
  match r with Some (s', _, _) => fits 64 s' | None => True end.
Proof.
  revert rng s t. induction n as [|n IH]; intros rng s t Hs H; cbn [attempts] in H; [by apply Ret_inj in H as <-|].
  apply bind_Ret in H as (a & _ & H). destruct a as [u t'|t'|t'].
  - by apply Ret_inj in H as <-.
  - by eapply IH.
  - pose proof (splitmix64_fits rng). destruct (splitmix64 rng) as [s' rng']. by eapply IH.
Qed.

Lemma assign_all_fits g t u fps fps' :
  Forall (fits 16) fps -> assign_all g t u fps = Ret fps' -> Forall (fits 16) fps'.
Proof.
  intros Hf. unfold assign_all. apply (foldM_inv (fun _ fps => Forall (fits 16) fps)); [done|].
  intros d i rest f1 f2 _ Hf1 H. unfold assign_one in H.
  apply bind_Ret in H as (h & _ & H). apply bind_Ret in H as ([[i1 i2] i3] & _ & H).
  apply bind_Ret in H as (j & _ & H). apply bind_Ret in H as (slot & _ & H).
  apply bind_Ret in H as (a & _ & H). apply bind_Ret in H as (fa & Ha%index_Ret & H).
  apply bind_Ret in H as (b & _ & H). apply bind_Ret in H as (fb & Hb%index_Ret & H).
  apply update_Ret in H as [_ ->]. apply Forall_insert; [done|].
  assert (fits 16 fa) by (by eapply Forall_lookup_1). assert (fits 16 fb) by (by eapply Forall_lookup_1).
  pose proof (fingerprint_fits h). auto with fits.
Qed.

Lemma constructed_wf random_u16 keys f :
  (forall i, fits 16 (random_u16 i)) -> try_from_iterator random_u16 keys = Ret (Ok f) -> filter_wf f.
Proof.
  intros Hr H. unfold try_from_iterator in H.
  destruct (length keys =? 0)%nat; [apply Ret_inj in H; injection H as <-; by split; cbn|].
  destruct (_ && _)%bool; [done|].
  apply bind_Ret in H as (g & Hgeo%geometry_of_fits & H). pose proof (splitmix64_fits 1) as Hs0.
  destruct (splitmix64 1) as [s0 rng]. apply bind_Ret in H as (bits & _ & H).
  apply bind_Ret in H as (r & Hat & H). apply attempts_seed in Hat; [|done].
  destruct r as [[[sd u] t]|]; [|done].
  apply bind_Ret in H as (fps & Hfps & H). apply Ret_inj in H. injection H as <-.
  split; cbn; [done|apply Hgeo..|]. eapply assign_all_fits; [|done].
  apply Forall_fmap, Forall_forall. intros i _. apply Hr.
Qed.

End Constructed.
