(* ===== verification/FuseSpec.v ===== *)
(** * What the BinaryFuse16 filter promises. *)

From stdpp Require Import base list strings sets.
From Stdlib Require Import ZArith Lia SpecFloat.
From S2P Require Import Prelude RustInt RustStr XxHash Float64 Fuse FuseTables FusePeel FuseBuild FuseTerm FuseFormat.

Local Open Scope Z_scope.

(** A coarse [libm] for concrete runs. *)
Definition libm_example : Libm := {|
  libm_log := fun x => f64_of_Z (Z.log2 (f64_to_uint 64 x));
  libm_floor := fun x => f64_of_Z (f64_to_uint 64 x);
  libm_round := fun x => f64_of_Z (f64_to_uint 64 (fadd x (f64_lit 1 2)));
  libm_fmax := fun a b => match SFcompare a b with Some Lt => b | _ => a end
|}.

(** A filter that the build [p] returns, when checking overflow would not have
    stopped it, is the one that the checked build makes. *)
Lemma returned_by_checked {L : Libm} (p : Profile) random_u16 keys r :
  @try_from_iterator p L random_u16 keys = Ret r ->
  @try_from_iterator (checked p) L random_u16 keys <> Panic ->
  @try_from_iterator (checked p) L random_u16 keys = Ret r.
Proof.
  intros H Hp.
  pose proof (try_from_iterator_ends (P := checked p) eq_refl random_u16 keys) as He.
  pose proof (try_from_iterator_refines (checked p) p eq_refl random_u16 keys (fun E => or_introl E)) as Hr.
  destruct (@try_from_iterator (checked p) L random_u16 keys) as [r'| |] eqn:E; [|done..].
  specialize (Hr r' eq_refl). rewrite H in Hr. by injection Hr as <-.
Qed.

(** C1. There are no false negatives, unless an 8-bit counter of a cell overflows
    while the filter is built: if a build of any profile returns a filter for the
    keys, and the same construction does not panic with overflow checks, then
    in every build each inserted key is reported as present, and every build
    (with debug assertions, for distinct keys) makes the same filter.  This
    holds whatever [libm] computes for the sizes and whatever the random initial
    fingerprints are.  That a build without overflow checks can return a filter
    that denies its keys when a counter wraps, at more than 63 keys in a cell, is
    [wrapped_counts_lose_keys]. *)
Theorem inserted_keys_are_found {L : Libm} (p : Profile) random_u16 keys f :
  @try_from_iterator p L random_u16 keys = Ret (Ok f) ->
  @try_from_iterator (checked p) L random_u16 keys <> Panic ->
  forall q : Profile,
    ((@debug_assertions q = true -> NoDup keys) -> @try_from_iterator q L random_u16 keys = Ret (Ok f)) /\
    forall key, key ∈ keys -> @contains_u64 q f key = Ret true.
Proof.
  intros H Hp q. apply returned_by_checked in H; [|done]. split.
  - intros Hq. apply (try_from_iterator_refines (checked p) q eq_refl random_u16 keys); [|done]. auto.
  - intros key Hkey. apply (contains_refines (checked p) q eq_refl f key).
    exact (try_from_iterator_contains (P := checked p) random_u16 keys f key eq_refl H Hkey).
Qed.

Definition example_random (i : nat) : Z := wrap 16 (40503 * Z.of_nat i + 7).

Lemma inserted_keys_are_found_witness :
  exists f, @try_from_iterator release_profile libm_example example_random [11; 22; 33; 44] = Ret (Ok f) /\
    @contains_u64 dev_profile f 33 = Ret true.
Proof.
  eexists. split; [vm_compute; reflexivity|].
  eapply (fun H Hp => proj2 (@inserted_keys_are_found libm_example release_profile example_random [11; 22; 33; 44] _ H Hp dev_profile) 33).
  - vm_compute. reflexivity.
  - vm_compute. discriminate.
  - do 2 apply list_elem_of_further. apply list_elem_of_here.
Defined.

(** *** Counters that wrap

    A key whose hash is given: the mixing of the first seed is undone. *)
Definition unmix64 (h : Z) : Z :=
  let h := Z.lxor h (Z.shiftr h 33) in
  let h := wrapping_mul 64 h 0x9cb4b2f8129337db in
  let h := Z.lxor h (Z.shiftr h 33) in
  let h := wrapping_mul 64 h 0x4f74430c22a54005 in
  Z.lxor h (Z.shiftr h 33).

Definition key_of_hash (h : Z) : Z := wrap 64 (unmix64 h - fst (splitmix64 1)).

(** Hashes of one first cell: 128 with other cells of their own, two that share all three. *)
Definition crowd_hash (n : nat) : Z :=
  let j := Z.of_nat n in
  let k := Z.min j 128 in
  3 * 2 ^ 55 + Z.shiftl j 30 + Z.shiftl ((k + 7) mod 512) 18 + (3 * k + 5) mod 512.

Definition crowd : list Z := (fun n => key_of_hash (crowd_hash n)) <$> seq 0 130.

(** Without overflow checks the counts of a crowded cell wrap: 130 distinct keys
    give a filter, but a key that was inserted is denied. *)
Theorem wrapped_counts_lose_keys :
  NoDup crowd /\
  exists f key, @try_from_iterator release_profile libm_example example_random crowd = Ret (Ok f) /\
    key ∈ crowd /\ @contains_u64 release_profile f key = Ret false /\
    @try_from_iterator dev_profile libm_example example_random crowd = Panic.
Proof.
  split; [by apply (bool_decide_unpack _); vm_compute|].
  eexists _, (key_of_hash (crowd_hash 129)). split; [vm_compute; reflexivity|].
  split; [by apply (bool_decide_unpack _); vm_compute|]. split; vm_compute; reflexivity.
Qed.

(** 64 hashes with the same cells. *)
Definition pile : list Z := (fun n => key_of_hash (3 * 2 ^ 55 + Z.shiftl (Z.of_nat n) 30)) <$> seq 0 64.

(** A count that has wrapped to zero is taken for an error, after which the next
    attempt starts with the arrays as they are: no entry is free, and the search
    for one never ends. *)
Theorem wrapped_counts_never_end :
  NoDup pile /\
  @try_from_iterator release_profile libm_example example_random pile = Diverge /\
  @try_from_iterator dev_profile libm_example example_random pile = Panic.
Proof. split; [by apply (bool_decide_unpack _); vm_compute|]. split; vm_compute; reflexivity. Qed.

Section Hashing.
  Context `{P : Profile, L : Libm}.

Lemma gen_key_str_not_Diverge s : gen_key_str s <> Diverge.
Proof.
  unfold gen_key_str, oneshot. pose proof (impl_oneshot_spec DEFAULT_SECRET_RAW DEFAULT_SEED (as_bytes s)) as H.
  specialize (H length_DEFAULT_SECRET_RAW). case_decide; [by rewrite H|]. by destruct H as (h & -> & _).
Qed.

Lemma mapM_out_not_Diverge {A B : Type} (f : A -> outcome B) l :
  (forall x, f x <> Diverge) -> mapM_out f l <> Diverge.
Proof.
  intros Hf. induction l as [|x l IH]; cbn [mapM_out]; [done|].
  apply bind_not_Diverge; [done|]. intros y _. by apply bind_not_Diverge.
Qed.

Lemma mapM_out_elem {A B : Type} (f : A -> outcome B) l ys x :
  mapM_out f l = Ret ys -> x ∈ l -> exists y, f x = Ret y /\ y ∈ ys.
Proof.
  intros H%mapM_out_Ret (i & Hi)%list_elem_of_lookup.
  destruct (Forall2_lookup_l _ _ _ _ _ H Hi) as (y & Hy & Hf). exists y. split; [done|].
  by apply list_elem_of_lookup_2 in Hy.
Qed.

Lemma contains_str_refines (p q : Profile) f s b :
  @overflow_checks p = true -> @contains_str p f s = Ret b -> @contains_str q f s = Ret b.
Proof.
  unfold contains_str. intros Hp H. apply bind_Ret in H as (k & Hk & H). rewrite Hk.
  by apply (contains_refines p q Hp f k).
Qed.

(** A filter built from strings answers [true] for each of them, in every build,
    when checking overflow would not have stopped its construction. *)
Lemma built_contains (p q : Profile) random_u16 keys f s :
  @try_from_strings p L random_u16 keys = Ret (Ok f) ->
  @try_from_strings (checked p) L random_u16 keys <> Panic -> s ∈ keys ->
  @contains_str q f s = Ret true.
Proof.
  intros H Hp Hs. unfold try_from_strings in H, Hp. apply bind_Ret in H as (ks & Hks & H). rewrite Hks in Hp.
  apply (returned_by_checked p) in H; [|done].
  destruct (mapM_out_elem _ _ _ _ Hks Hs) as (k & Hk & Hin).
  apply (contains_str_refines (checked p) q); [done|]. unfold contains_str. rewrite Hk.
  exact (try_from_iterator_contains (P := checked p) random_u16 ks f k eq_refl H Hin).
Qed.

(** The same for a filter built from strings, as the [filters] of a token
    are: querying an inserted string answers [true] in every build. *)
Theorem inserted_strings_are_found (p : Profile) random_u16 keys f s :
  @try_from_strings p L random_u16 keys = Ret (Ok f) ->
  @try_from_strings (checked p) L random_u16 keys <> Panic -> s ∈ keys ->
  forall q : Profile, @contains_str q f s = Ret true.
Proof. intros H Hp Hs q. by apply (built_contains p q random_u16 keys). Qed.

(** A build ends whenever the checked build of the same keys does not panic. *)
Lemma try_from_iterator_ends_unless (p : Profile) random_u16 keys :
  @try_from_iterator (checked p) L random_u16 keys <> Panic ->
  @try_from_iterator p L random_u16 keys <> Diverge.
Proof.
  intros Hp.
  pose proof (try_from_iterator_ends (P := checked p) eq_refl random_u16 keys) as He.
  pose proof (try_from_iterator_refines (checked p) p eq_refl random_u16 keys (fun E => or_introl E)) as Hr.
  destruct (@try_from_iterator (checked p) L random_u16 keys) as [r'| |]; [|done..].
  by rewrite (Hr r' eq_refl).
Qed.

(** C2. Construction finishes, for every list of keys or strings, hash values,
    random fingerprints and [libm], in every build that checks overflow, and in
    a build that does not check it unless the checked one would have panicked:
    the cyclic probing for a free entry, the block-size search, the peeling
    queue and the retries all end.  The condition is needed:
    64 keys of the same cells keep a release build probing for ever, which is
    [wrapped_counts_never_end]. *)
Theorem construction_terminates (p : Profile) random_u16 :
  (forall keys, @overflow_checks p = true \/ @try_from_iterator (checked p) L random_u16 keys <> Panic ->
     @try_from_iterator p L random_u16 keys <> Diverge) /\
  (forall keys, @overflow_checks p = true \/ @try_from_strings (checked p) L random_u16 keys <> Panic ->
     @try_from_strings p L random_u16 keys <> Diverge).
Proof.
  assert (forall keys, @overflow_checks p = true \/ @try_from_iterator (checked p) L random_u16 keys <> Panic ->
    @try_from_iterator p L random_u16 keys <> Diverge) as Hit.
  { intros keys [Hoc|Hp]; [by apply (try_from_iterator_ends (P := p))|by apply try_from_iterator_ends_unless]. }
  split; [done|]. intros keys H. unfold try_from_strings in *.
  apply bind_not_Diverge; [apply mapM_out_not_Diverge, gen_key_str_not_Diverge|].
  intros ks Hks. apply Hit. destruct H as [Hoc|H]; [by left|right]. by rewrite Hks in H.
Qed.

(** The filter of no keys can be built but not queried: every lookup indexes
    its empty fingerprint array and panics, in every build. *)
Theorem empty_filter_query_panics random_u16 :
  exists f, try_from_iterator random_u16 [] = Ret (Ok f) /\
    forall (q : Profile) key, @contains_u64 q f key = Panic.
Proof.
  eexists. split; [reflexivity|]. intros q key. unfold contains_u64, hash_of_hash, uadd.
  cbn [descriptor fingerprints segment_length_ segment_length_mask segment_count_length].
  rewrite Z.mul_0_r, Z.shiftr_0_l. rewrite !arith_fits by done. reflexivity.
Qed.

End Hashing.

Lemma inserted_strings_are_found_witness :
  exists f, @try_from_strings dev_profile libm_example example_random ["a.m3u8"; "b/c.ts"]%string = Ret (Ok f) /\
    @contains_str release_profile f "b/c.ts" = Ret true.
Proof.
  eexists. split; [vm_compute; reflexivity|].
  eapply (fun H1 H2 H3 => @inserted_strings_are_found libm_example dev_profile example_random ["a.m3u8"; "b/c.ts"]%string _ "b/c.ts" H1 H2 H3 release_profile).
  - vm_compute. reflexivity.
  - vm_compute. discriminate.
  - apply list_elem_of_further, list_elem_of_here.
Defined.

Lemma construction_terminates_witness :
  @try_from_iterator release_profile libm_example example_random [1; 2; 3] <> Diverge /\
  @try_from_strings dev_profile libm_example example_random ["a"; "b"]%string <> Diverge.
Proof.
  split.
  - apply (proj1 (@construction_terminates libm_example release_profile example_random) [1; 2; 3]).
    right. vm_compute. discriminate.
  - apply (proj2 (@construction_terminates libm_example dev_profile example_random) ["a"; "b"]%string).
    left. reflexivity.
Defined.

(** Writing a well-formed filter and reading it back gives the same filter
    up to 65535 fingerprints; from 65536 on the 16-bit length prefix wraps and
    the reader rejects the bytes the writer produced. *)
Theorem serialize_roundtrip f :
  filter_wf f ->
  deserialize (serialize f) =
    if Z.of_nat (length (fingerprints f)) <? 65536 then Ret (Ok f)
    else Ret (Err "Invalid BinaryFuse16 data length"%string).
Proof.
  intros Hf. destruct (Z.ltb_spec (Z.of_nat (length (fingerprints f))) 65536).
  - by apply deserialize_serialize.
  - by apply deserialize_serialize_long.
Qed.

Definition example_filter : BinaryFuse16 :=
  {| descriptor := {| seed := 77; segment_length_ := 4; segment_length_mask := 3; segment_count_length := 4 |};
     fingerprints := [1; 2; 3; 65535] |}.

Lemma example_filter_wf : filter_wf example_filter.
Proof. split; cbn; [done|done|done|done|by repeat constructor]. Defined.

Lemma serialize_roundtrip_witness : deserialize (serialize example_filter) = Ret (Ok example_filter).
Proof. exact (serialize_roundtrip example_filter example_filter_wf). Defined.

(** Reading never panics, whatever the bytes; and bytes that are accepted
    are exactly what writing the returned filter gives. *)
Theorem deserialize_faithful bs :
  bytes bs ->
  exists r, deserialize bs = Ret r /\ forall f, r = Ok f -> filter_wf f /\ serialize f = bs.
Proof.
  intros Hb. destruct (deserialize_not_Panic bs Hb) as [r Hr]. exists r. split; [done|].
  intros f ->. destruct (serialize_deserialize bs f Hb Hr) as (? & _ & ?). done.
Qed.

Lemma deserialize_faithful_witness :
  bytes (serialize example_filter) /\
  exists r, deserialize (serialize example_filter) = Ret r /\ forall f, r = Ok f -> filter_wf f /\ serialize f = serialize example_filter.
Proof.
  assert (bytes (serialize example_filter)) as Hb by (vm_compute; repeat constructor; discriminate).
  split; [exact Hb|]. exact (deserialize_faithful _ Hb).
Defined.
