(* ===== verification/Claim.v ===== *)
(** * Claims: errors, header, payloads and creation requests
    ([crates/claim/src/{error,header,create_request}.rs], [payload/]).

    A token is a binary header followed by an encrypted payload.  The two
    payload versions implement one interface, [Payload], against which the
    verification of a token is written and proved. *)

From stdpp Require Import base list strings.
From Stdlib Require Import ZArith Lia.
From S2P Require Import Prelude RustInt RustStr XxHash Fuse.

Local Open Scope Z_scope.

(** ** Errors *)

Inductive ClaimError :=
  | InvalidToken
  | UnsupportedVersion (v : Z)
  | TokenExpired
  | TokenNotYetValid
  | AeadFail
  | AssetMismatch
  | TimeWindowDeny
  | KeyNotFound (kid : Z)
  | InvalidHeader (msg : string)
  | InvalidPayload (msg : string).

(** The HTTP statuses the service answers with. *)
Definition UNAUTHORIZED : Z := 401.
Definition FORBIDDEN : Z := 403.

Definition to_err_code (e : ClaimError) : Z :=
  match e with
  | InvalidToken | UnsupportedVersion _ | TokenExpired | TokenNotYetValid | AeadFail
  | KeyNotFound _ | InvalidHeader _ | InvalidPayload _ => UNAUTHORIZED
  | AssetMismatch | TimeWindowDeny => FORBIDDEN
  end.

(** ** Header *)

Definition MAGIC : list Z := [0x56; 0x53; 0x43; 0x31].
Definition ALG_AES_256_GCM : Z := 1.
Definition HEADER_SIZE : nat := 36.
Definition TAG_SIZE : nat := 16.
Definition HLS_SEGMENT_DURATION : Z := 4.

Record ClaimHeader := {
  magic : list Z;
  version_ : Z;
  kid : Z;
  alg : Z;
  rsv : Z;
  nonce : list Z;
  create_at : Z
}.

(** [random_nonce] is what the thread's generator fills the nonce with, and
    [now_nanos] the system clock. *)
Definition ClaimHeader_new (random_nonce : list Z) (now_nanos : Z) (kid alg version : Z) : ClaimHeader :=
  {| magic := MAGIC; version_ := version; kid := kid; alg := alg; rsv := 0;
     nonce := random_nonce; create_at := now_nanos |}.

Definition bucket_key (h : ClaimHeader) : list Z := nonce h ++ to_le_bytes 16 (create_at h).

Definition header_to_bytes (h : ClaimHeader) : list Z :=
  magic h ++ [version_ h] ++ [kid h] ++ [alg h] ++ [rsv h] ++ nonce h ++ to_le_bytes 16 (create_at h).

Definition header_from_bytes (bs : list Z) : outcome (result ClaimHeader ClaimError) :=
  if (length bs <? HEADER_SIZE)%nat then Ret (Err (InvalidHeader "Invalid header size"))
  else
    m ← slice bs 0 4;
    if negb (bool_decide (m = MAGIC)) then Ret (Err (InvalidHeader "Invalid magic bytes"))
    else
      version ← index bs 4;
      if negb (version =? 1) && negb (version =? 2)
      then Ret (Err (InvalidHeader (String.append "Unsupported version: " (dec version))))
      else
        kid ← index bs 5;
        alg ← index bs 6;
        rsv ← index bs 7;
        n ← slice bs 8 20;
        c ← slice bs 20 36;
        Ret (Ok {| magic := m; version_ := version; kid := kid; alg := alg; rsv := rsv;
                   nonce := n; create_at := from_le_bytes c |}).

(** ** The payload interface *)

(** The methods of the [Payload] trait that each version supplies.  [anyhow]
    errors of [serialize] carry their message. *)
Class Payload (A : Type) := {
  version : A -> Z;
  verify_asset_id : A -> string -> outcome bool;
  nbf_unix : A -> Z;
  exp_unix : A -> Z;
  window_len_sec : A -> Z;
  max_kbps : A -> Z;
  max_concurrency : A -> Z;
  allowed_widths : A -> list Z;
  payload_serialize : A -> result (list Z) string;
  payload_deserialize : list Z -> outcome (result A ClaimError)
}.

(** [Payload::verify]; [now_secs] is the system clock in seconds. *)
Definition verify {A : Type} `{Payload A} (now_secs : Z) (data : list Z) (asset_id : string)
    (segment_index : option Z) (width : option Z) : outcome (result A ClaimError) :=
  r ← payload_deserialize data;
  match r with
  | Err e => Ret (Err e)
  | Ok payload =>
    let now := wrap 32 now_secs in
    if now <? nbf_unix payload then Ret (Err TokenNotYetValid)
    else if exp_unix payload <=? now then Ret (Err TokenExpired)
    else
      same ← verify_asset_id payload asset_id;
      if negb same then Ret (Err AssetMismatch)
      else if match segment_index with
              | Some seg_idx =>
                negb (window_len_sec payload =? 0)
                && (window_len_sec payload / HLS_SEGMENT_DURATION <? seg_idx)
              | None => false
              end
      then Ret (Err TimeWindowDeny)
      else if match width with
              | Some requested =>
                negb (bool_decide (allowed_widths payload = []))
                && negb (bool_decide (requested ∈ allowed_widths payload))
              | None => false
              end
      then Ret (Err AssetMismatch)
      else Ret (Ok payload)
  end.

(** ** Reading fixed-width fields *)

(** [uN::from_le_bytes(bytes[offset..offset + n].try_into()?)]: the slice has
    [n] bytes, so the conversion to an array cannot fail. *)
Definition read_le (bs : list Z) (offset n : nat) : outcome Z :=
  w ← slice bs offset (offset + n); Ret (from_le_bytes w).

(** The tail both versions share: the three limits and the list of widths. *)
Definition read_limits (bs : list Z) (offset : nat) : outcome (result (Z * Z * Z * list Z) ClaimError) :=
  window ← read_le bs offset 2;
  kbps ← read_le bs (offset + 2) 2;
  concurrency ← read_le bs (offset + 4) 2;
  let offset := (offset + 6)%nat in
  if (length bs <=? offset)%nat then Ret (Err (InvalidPayload "Missing allowed_widths data"))
  else
    n ← index bs offset;
    let allowed_widths_len := Z.to_nat n in
    let offset := S offset in
    if (length bs <? offset + allowed_widths_len * 2)%nat
    then Ret (Err (InvalidPayload "Invalid allowed_widths size"))
    else
      widths ← read_u16s bs offset allowed_widths_len;
      Ret (Ok (window, kbps, concurrency, widths)).

Definition write_limits (window kbps concurrency : Z) (widths : list Z) : result (list Z) string :=
  if (255 <? length widths)%nat then Err "Too many allowed widths"
  else
    Ok (to_le_bytes 2 window ++ to_le_bytes 2 kbps ++ to_le_bytes 2 concurrency
        ++ [wrap 8 (Z.of_nat (length widths))] ++ concat (to_le_bytes 2 <$> widths)).

(** ** Version 1: one asset, by name *)

Record ClaimPayloadV1 := {
  v1_exp_unix : Z;
  v1_nbf_unix : Z;
  v1_asset_id : string;
  v1_window_len_sec : Z;
  v1_max_kbps : Z;
  v1_max_concurrency : Z;
  v1_allowed_widths : list Z
}.

Definition v1_serialize (p : ClaimPayloadV1) : result (list Z) string :=
  let id_bytes := as_bytes (v1_asset_id p) in
  if (255 <? length id_bytes)%nat then Err "Asset ID too long"%string
  else
    match write_limits (v1_window_len_sec p) (v1_max_kbps p) (v1_max_concurrency p) (v1_allowed_widths p) with
    | Err e => Err e
    | Ok tail =>
      Ok (to_le_bytes 4 (v1_exp_unix p) ++ to_le_bytes 4 (v1_nbf_unix p)
          ++ [wrap 8 (Z.of_nat (length id_bytes))] ++ id_bytes ++ tail)
    end.

Definition v1_deserialize (bs : list Z) : outcome (result ClaimPayloadV1 ClaimError) :=
  if (length bs <? 13)%nat then Ret (Err (InvalidPayload "Payload too short"))
  else
    exp ← read_le bs 0 4;
    nbf ← read_le bs 4 4;
    n ← index bs 8;
    let id_len := Z.to_nat n in
    let offset := 9%nat in
    if (length bs <? offset + id_len + 6)%nat then Ret (Err (InvalidPayload "Invalid payload size"))
    else
      raw ← slice bs offset (offset + id_len);
      match from_utf8 raw with
      | None => Ret (Err (InvalidPayload "Invalid UTF-8 in asset_id"))
      | Some asset_id =>
        r ← read_limits bs (offset + id_len);
        match r with
        | Err e => Ret (Err e)
        | Ok (window, kbps, concurrency, widths) =>
          Ret (Ok {| v1_exp_unix := exp; v1_nbf_unix := nbf; v1_asset_id := asset_id;
                     v1_window_len_sec := window; v1_max_kbps := kbps;
                     v1_max_concurrency := concurrency; v1_allowed_widths := widths |})
        end
      end.

#[export] Instance payload_v1 : Payload ClaimPayloadV1 := {
  version _ := 1;
  verify_asset_id p asset_id := Ret (bool_decide (v1_asset_id p = asset_id));
  nbf_unix := v1_nbf_unix;
  exp_unix := v1_exp_unix;
  window_len_sec := v1_window_len_sec;
  max_kbps := v1_max_kbps;
  max_concurrency := v1_max_concurrency;
  allowed_widths := v1_allowed_widths;
  payload_serialize := v1_serialize;
  payload_deserialize := v1_deserialize
}.

(** ** Version 2: a set of assets, as a filter *)

Record ClaimPayloadV2 := {
  v2_exp_unix : Z;
  v2_nbf_unix : Z;
  v2_assets_filter : BinaryFuse16;
  v2_window_len_sec : Z;
  v2_max_kbps : Z;
  v2_max_concurrency : Z;
  v2_allowed_widths : list Z
}.

Definition v2_serialize (p : ClaimPayloadV2) : result (list Z) string :=
  match write_limits (v2_window_len_sec p) (v2_max_kbps p) (v2_max_concurrency p) (v2_allowed_widths p) with
  | Err e => Err e
  | Ok tail =>
    Ok (to_le_bytes 4 (v2_exp_unix p) ++ to_le_bytes 4 (v2_nbf_unix p)
        ++ serialize (v2_assets_filter p) ++ tail)
  end.

Definition v2_deserialize (bs : list Z) : outcome (result ClaimPayloadV2 ClaimError) :=
  if (length bs <? 10)%nat then Ret (Err (InvalidPayload "Payload too short"))
  else
    exp ← read_le bs 0 4;
    nbf ← read_le bs 4 4;
    let offset := 8%nat in
    if (length bs <? offset + 2)%nat then Ret (Err (InvalidPayload "Missing filter length"))
    else
      b0 ← index bs offset;
      b1 ← index bs (offset + 1);
      let filter_total_len := (2 + Descriptor_LEN + Z.to_nat (from_le_bytes [b0; b1]) * 2)%nat in
      if (length bs <? offset + filter_total_len)%nat then Ret (Err (InvalidPayload "Invalid filter size"))
      else
        raw ← slice bs offset (offset + filter_total_len);
        f ← deserialize raw;
        match f with
        | Err e => Ret (Err (InvalidPayload (String.append "Failed to deserialize filter: " e)))
        | Ok filter =>
          let offset := (offset + filter_total_len)%nat in
          if (length bs <? offset + 6)%nat
          then Ret (Err (InvalidPayload "Invalid payload size for remaining fields"))
          else
            r ← read_limits bs offset;
            match r with
            | Err e => Ret (Err e)
            | Ok (window, kbps, concurrency, widths) =>
              Ret (Ok {| v2_exp_unix := exp; v2_nbf_unix := nbf; v2_assets_filter := filter;
                         v2_window_len_sec := window; v2_max_kbps := kbps;
                         v2_max_concurrency := concurrency; v2_allowed_widths := widths |})
            end
        end.

#[export] Instance payload_v2 `{Profile} : Payload ClaimPayloadV2 := {
  version _ := 2;
  verify_asset_id p asset_id := contains_str (v2_assets_filter p) asset_id;
  nbf_unix := v2_nbf_unix;
  exp_unix := v2_exp_unix;
  window_len_sec := v2_window_len_sec;
  max_kbps := v2_max_kbps;
  max_concurrency := v2_max_concurrency;
  allowed_widths := v2_allowed_widths;
  payload_serialize := v2_serialize;
  payload_deserialize := v2_deserialize
}.

(** [new_filter] *)
Definition new_filter `{Profile, Libm} (random_u16 : nat -> Z) (assets : list string) : outcome (result BinaryFuse16 string) :=
  r ← try_from_strings random_u16 assets;
  Ret (map_err (String.append "Failed to create xorf filter: ") r).

(** ** Creation requests *)

Inductive AssetsFilter :=
  | One (id : string)
  | List (ids : list string).

Definition assets_is_empty (f : AssetsFilter) : bool :=
  match f with
  | One id => is_empty id
  | List ids => bool_decide (ids = []) || forallb is_empty ids
  end.

Record CreateClaimRequest := {
  r_asset_id : AssetsFilter;
  r_exp_unix : Z;
  r_nbf_unix : option Z;
  r_window_len_sec : option Z;
  r_max_kbps : option Z;
  r_max_concurrency : option Z;
  r_allowed_widths : option (list Z)
}.
