(* ===== verification/ClaimSpec.v ===== *)
(** * What tokens promise: the round trips of header and payloads, total
    parsing, and the exact conditions under which a payload is accepted. *)

From stdpp Require Import base list strings.
From Stdlib Require Import ZArith Lia.
From S2P Require Import Prelude RustInt RustStr XxHash Fuse FuseFormat Claim.

Local Open Scope Z_scope.

(** The values the fields of a payload can hold. *)
Record v1_wf (p : ClaimPayloadV1) : Prop := {
  v1w_exp : fits 32 (v1_exp_unix p);
  v1w_nbf : fits 32 (v1_nbf_unix p);
  v1w_id : is_str (v1_asset_id p);
  v1w_window : fits 16 (v1_window_len_sec p);
  v1w_kbps : fits 16 (v1_max_kbps p);
  v1w_concurrency : fits 16 (v1_max_concurrency p);
  v1w_widths : Forall (fits 16) (v1_allowed_widths p)
}.

Record v2_wf (p : ClaimPayloadV2) : Prop := {
  v2w_exp : fits 32 (v2_exp_unix p);
  v2w_nbf : fits 32 (v2_nbf_unix p);
  v2w_filter : filter_wf (v2_assets_filter p);
  v2w_window : fits 16 (v2_window_len_sec p);
  v2w_kbps : fits 16 (v2_max_kbps p);
  v2w_concurrency : fits 16 (v2_max_concurrency p);
  v2w_widths : Forall (fits 16) (v2_allowed_widths p)
}.

Record header_wf (h : ClaimHeader) : Prop := {
  hw_magic : magic h = MAGIC;
  hw_version : version_ h = 1 \/ version_ h = 2;
  hw_kid : fits 8 (kid h);
  hw_alg : fits 8 (alg h);
  hw_rsv : fits 8 (rsv h);
  hw_nonce : length (nonce h) = 12%nat /\ bytes (nonce h);
  hw_create_at : fits 128 (create_at h)
}.

(** ** Fields *)

Lemma read_le_at bs o n x r :
  rest_at bs o (to_le_bytes n x ++ r) -> fits (8 * Z.of_nat n) x -> read_le bs o n = Ret x.
Proof.
  intros H Hx. unfold read_le. rewrite (rest_at_slice _ _ (to_le_bytes n x) r) by (by rewrite ?length_to_le_bytes).
  red_bind. by rewrite from_to_le_bytes_fits.
Qed.

Lemma rest_at_le bs o n x r : rest_at bs o (to_le_bytes n x ++ r) -> rest_at bs (o + n) r.
Proof. intros H%rest_at_app. by rewrite length_to_le_bytes in H. Qed.

Lemma read_le_total bs o n :
  bytes bs -> (o + n <= length bs)%nat -> exists x, read_le bs o n = Ret x /\ fits (8 * Z.of_nat n) x.
Proof.
  intros Hb Hn. unfold read_le. rewrite slice_ok by lia. red_bind. eexists. split; [done|].
  assert (length (take (o + n - o) (drop o bs)) = n) as Hl by (rewrite length_take, length_drop; lia).
  rewrite <-Hl at 1. apply from_le_bytes_fits. auto with bytes.
Qed.

Lemma read_u16s_at bs o ws : Forall (fits 16) ws -> rest_at bs o (concat (to_le_bytes 2 <$> ws)) ->
  read_u16s bs o (length ws) = Ret ws.
Proof.
  intros Hw [Ho E]. rewrite <-(take_drop o bs), E.
  replace o with (length (take o bs)) at 2 by (rewrite length_take; lia). by apply read_u16s_ok.
Qed.

(** ** The limits both versions share *)

Lemma read_write_limits bs o window kbps conc widths tail :
  fits 16 window -> fits 16 kbps -> fits 16 conc -> Forall (fits 16) widths ->
  write_limits window kbps conc widths = Ok tail -> rest_at bs o tail ->
  read_limits bs o = Ret (Ok (window, kbps, conc, widths)).
Proof.
  intros Hw Hk Hc Hws Htail Ho. unfold write_limits in Htail.
  destruct (Nat.ltb_spec 255 (length widths)) as [|Hlen]; [done|]. apply Ok_inj in Htail as <-. unfold read_limits.
  rewrite (read_le_at _ _ 2 window _ Ho Hw). red_bind. apply rest_at_le in Ho.
  rewrite (read_le_at _ _ 2 kbps _ Ho Hk). red_bind. apply rest_at_le in Ho.
  replace (o + 2 + 2)%nat with (o + 4)%nat in Ho by lia.
  rewrite (read_le_at _ _ 2 conc _ Ho Hc). red_bind. apply rest_at_le in Ho.
  replace (o + 4 + 2)%nat with (o + 6)%nat in Ho by lia.
  pose proof (rest_at_length _ _ _ Ho) as Hl. rewrite length_app, length_u16s in Hl. cbn [length] in Hl.
  destruct (Nat.leb_spec (length bs) (o + 6)); [lia|].
  rewrite (rest_at_index _ _ _ _ Ho). red_bind.
  rewrite wrap_id by (unfold fits; lia). rewrite Nat2Z.id.
  destruct (Nat.ltb_spec (length bs) (S (o + 6) + length widths * 2)); [lia|].
  apply rest_at_app in Ho. cbn [length] in Ho. rewrite Nat.add_1_r in Ho. by rewrite read_u16s_at.
Qed.

Lemma length_write_limits window kbps conc widths tail :
  write_limits window kbps conc widths = Ok tail -> length tail = (7 + length widths * 2)%nat.
Proof.
  unfold write_limits. case_match; [done|]. intros <-%Ok_inj.
  rewrite !length_app, !length_to_le_bytes, length_u16s. cbn [length]. lia.
Qed.

Lemma read_limits_total bs o :
  bytes bs -> (o + 6 <= length bs)%nat -> exists r, read_limits bs o = Ret r /\
    forall w k c ws, r = Ok (w, k, c, ws) -> fits 16 w /\ fits 16 k /\ fits 16 c /\ Forall (fits 16) ws /\ (length ws <= 255)%nat.
Proof.
  intros Hb Hl. unfold read_limits.
  destruct (read_le_total bs o 2) as (w & -> & Hw); [done|lia|]. red_bind.
  destruct (read_le_total bs (o + 2) 2) as (k & -> & Hk); [done|lia|]. red_bind.
  destruct (read_le_total bs (o + 4) 2) as (c & -> & Hc); [done|lia|]. red_bind.
  destruct (Nat.leb_spec (length bs) (o + 6)); [eexists; split; [done|]; naive_solver|].
  destruct (index_lt bs (o + 6)) as (n & -> & Hn); [lia|]. red_bind.
  destruct (Nat.ltb_spec (length bs) (S (o + 6) + Z.to_nat n * 2)); [eexists; split; [done|]; naive_solver|].
  destruct (read_u16s_inv bs (S (o + 6)) (Z.to_nat n) Hb) as (ws & -> & Hlw & Hws & _); [lia|]. red_bind.
  eexists. split; [done|]. intros ? ? ? ? [= <- <- <- <-]. split_and!; try done.
  assert (fits 8 n) as Hn8 by (by eapply Forall_lookup_1). unfold fits in Hn8. lia.
Qed.

(** ** Version 1 *)

Lemma v1_deserialize_serialize p bs :
  v1_wf p -> v1_serialize p = Ok bs -> v1_deserialize bs = Ret (Ok p).
Proof.
  intros [He Hn Hid Hw Hk Hc Hws] H. unfold v1_serialize in H.
  destruct (Nat.ltb_spec 255 (length (as_bytes (v1_asset_id p)))) as [|Hlen]; [done|].
  destruct (write_limits _ _ _ _) as [tail|] eqn:Etail; [|done]. apply Ok_inj in H as <-.
  pose proof (length_write_limits _ _ _ _ _ Etail) as Ht.
  match goal with |- v1_deserialize ?b = _ => set (bs := b) end. pose proof (rest_at_0 bs) as Hat.
  unfold bs in Hat at 2. pose proof (rest_at_length _ _ _ Hat) as Hl.
  rewrite !length_app, !length_to_le_bytes, Ht in Hl. cbn [length] in Hl. clearbody bs.
  unfold v1_deserialize. destruct (Nat.ltb_spec (length bs) 13); [lia|].
  rewrite (read_le_at _ _ 4 _ _ Hat He). red_bind. apply rest_at_le in Hat. cbn [Nat.add] in Hat.
  rewrite (read_le_at _ _ 4 _ _ Hat Hn). red_bind. apply rest_at_le in Hat. cbn [Nat.add] in Hat.
  rewrite (rest_at_index _ _ _ _ Hat). red_bind. rewrite wrap_id by (unfold fits; lia). rewrite Nat2Z.id.
  apply rest_at_app in Hat. cbn [length Nat.add] in Hat.
  destruct (Nat.ltb_spec (length bs) (9 + length (as_bytes (v1_asset_id p)) + 6)); [lia|].
  rewrite (rest_at_slice _ _ _ _ _ Hat eq_refl). red_bind. rewrite from_utf8_as_bytes by done.
  apply rest_at_app in Hat. rewrite (read_write_limits _ _ _ _ _ _ _ Hw Hk Hc Hws Etail Hat). red_bind. by destruct p.
Qed.

(** ** Version 2 *)

Lemma v2_deserialize_serialize p bs :
  v2_wf p -> Z.of_nat (length (fingerprints (v2_assets_filter p))) < 65536 ->
  v2_serialize p = Ok bs -> v2_deserialize bs = Ret (Ok p).
Proof.
  intros [He Hn Hf Hw Hk Hc Hws] Hfl H. unfold v2_serialize in H.
  destruct (write_limits _ _ _ _) as [tail|] eqn:Etail; [|done]. apply Ok_inj in H as <-.
  pose proof (length_write_limits _ _ _ _ _ Etail) as Ht. pose proof (length_serialize (v2_assets_filter p)) as Hs.
  match goal with |- v2_deserialize ?b = _ => set (bs := b) end. pose proof (rest_at_0 bs) as Hat.
  unfold bs in Hat at 2. pose proof (rest_at_length _ _ _ Hat) as Hl.
  rewrite !length_app, !length_to_le_bytes, Ht, Hs in Hl. clearbody bs.
  unfold v2_deserialize. destruct (Nat.ltb_spec (length bs) 10); [lia|].
  rewrite (read_le_at _ _ 4 _ _ Hat He). red_bind. apply rest_at_le in Hat. cbn [Nat.add] in Hat.
  rewrite (read_le_at _ _ 4 _ _ Hat Hn). red_bind. apply rest_at_le in Hat. cbn [Nat.add] in Hat.
  destruct (Nat.ltb_spec (length bs) (8 + 2)); [lia|].
  destruct (serialize (v2_assets_filter p)) as [|b0 [|b1 fbs]] eqn:Efs; [cbn in Hs; lia|cbn in Hs; lia|].
  rewrite (rest_at_index _ _ _ _ Hat). red_bind.
  pose proof (rest_at_app _ _ [b0] ((b1 :: fbs) ++ tail) Hat) as Hat1. cbn [length] in Hat1.
  rewrite (rest_at_index _ _ _ _ Hat1). red_bind.
  assert ([b0; b1] = to_le_bytes 2 (wrap 16 (Z.of_nat (length (fingerprints (v2_assets_filter p)))))) as E2.
  { unfold serialize in Efs. cbn [to_le_bytes app] in Efs. cbn [to_le_bytes]. congruence. }
  rewrite E2, (from_to_le_bytes_fits 2) by (apply wrap_fits; lia).
  rewrite wrap_id by (unfold fits; lia). rewrite Nat2Z.id. unfold Descriptor_LEN.
  set (n := length (fingerprints (v2_assets_filter p))) in *.
  destruct (Nat.ltb_spec (length bs) (8 + (2 + 20 + n * 2))); [lia|].
  rewrite (rest_at_slice _ _ _ _ _ Hat) by lia. red_bind.
  rewrite <-Efs, deserialize_serialize by done. red_bind.
  destruct (Nat.ltb_spec (length bs) (8 + (2 + 20 + n * 2) + 6)); [lia|].
  apply rest_at_app in Hat. rewrite Hs in Hat.
  replace (8 + (22 + n * 2))%nat with (8 + (2 + 20 + n * 2))%nat in Hat by lia.
  rewrite (read_write_limits _ _ _ _ _ _ _ Hw Hk Hc Hws Etail Hat). red_bind. by destruct p.
Qed.

(** ** Parsing never panics *)

Lemma v1_deserialize_total bs :
  bytes bs -> exists r, v1_deserialize bs = Ret r /\ forall p, r = Ok p -> v1_wf p.
Proof.
  intros Hb. unfold v1_deserialize.
  destruct (Nat.ltb_spec (length bs) 13); [eexists; split; [done|]; naive_solver|].
  destruct (read_le_total bs 0 4) as (e & -> & He); [done|lia|]. red_bind.
  destruct (read_le_total bs 4 4) as (n & -> & Hn); [done|lia|]. red_bind.
  destruct (index_lt bs 8) as (k & -> & Hk); [lia|]. red_bind.
  destruct (Nat.ltb_spec (length bs) (9 + Z.to_nat k + 6)); [eexists; split; [done|]; naive_solver|].
  rewrite slice_ok by lia. red_bind.
  destruct (from_utf8 _) as [id|] eqn:Eid; [|eexists; split; [done|]; naive_solver].
  apply from_utf8_Some in Eid as [Hid _]; [|auto with bytes].
  destruct (read_limits_total bs (9 + Z.to_nat k)) as (r & -> & Hr); [done|lia|]. red_bind.
  destruct r as [[[[w kb] c] ws]|]; (eexists; split; [done|]); [|naive_solver].
  destruct (Hr _ _ _ _ eq_refl) as (? & ? & ? & ? & _). intros p [= <-]. by split.
Qed.

Lemma v2_deserialize_total bs :
  bytes bs -> exists r, v2_deserialize bs = Ret r /\ forall p, r = Ok p -> v2_wf p.
Proof.
  intros Hb. unfold v2_deserialize.
  destruct (Nat.ltb_spec (length bs) 10); [eexists; split; [done|]; naive_solver|].
  destruct (read_le_total bs 0 4) as (e & -> & He); [done|lia|]. red_bind.
  destruct (read_le_total bs 4 4) as (n & -> & Hn); [done|lia|]. red_bind.
  destruct (Nat.ltb_spec (length bs) (8 + 2)); [eexists; split; [done|]; naive_solver|].
  destruct (index_lt bs 8) as (b0 & -> & _); [lia|]. red_bind.
  destruct (index_lt bs (8 + 1)) as (b1 & -> & _); [lia|]. red_bind.
  set (len := (2 + Descriptor_LEN + Z.to_nat (from_le_bytes [b0; b1]) * 2)%nat).
  destruct (Nat.ltb_spec (length bs) (8 + len)); [eexists; split; [done|]; naive_solver|].
  rewrite slice_ok by lia. red_bind.
  assert (bytes (take (8 + len - 8) (drop 8 bs))) as Hraw by auto with bytes.
  destruct (deserialize_not_Panic _ Hraw) as [f Hf]. rewrite Hf. red_bind.
  destruct f as [f|]; [|eexists; split; [done|]; naive_solver].
  apply serialize_deserialize in Hf as (Hwf & _ & _); [|done].
  destruct (Nat.ltb_spec (length bs) (8 + len + 6)); [eexists; split; [done|]; naive_solver|].
  destruct (read_limits_total bs (8 + len)) as (r & -> & Hr); [done|lia|]. red_bind.
  destruct r as [[[[w kb] c] ws]|]; (eexists; split; [done|]); [|naive_solver].
  destruct (Hr _ _ _ _ eq_refl) as (? & ? & ? & ? & _). intros p [= <-]. by split.
Qed.

(** ** Header *)

Lemma length_header_to_bytes h :
  header_wf h -> length (header_to_bytes h) = HEADER_SIZE.
Proof.
  intros [Hm _ _ _ _ [Hn _] _]. unfold header_to_bytes.
  rewrite !length_app, length_to_le_bytes, Hn, Hm. done.
Qed.

Lemma header_from_to_bytes h rest :
  header_wf h -> header_from_bytes (header_to_bytes h ++ rest) = Ret (Ok h).
Proof.
  intros Hwf. pose proof (length_header_to_bytes h Hwf) as Hlen. destruct Hwf as [Hm Hv Hk Ha Hr [Hn Hnb] Hc].
  unfold header_from_bytes. rewrite length_app, Hlen. unfold HEADER_SIZE.
  destruct (Nat.ltb_spec (36 + length rest) 36); [lia|].
  pose proof (rest_at_0 (header_to_bytes h ++ rest)) as Hat.
  unfold header_to_bytes in Hat at 2. rewrite <-!app_assoc in Hat. rewrite Hm in Hat.
  rewrite (rest_at_slice _ _ _ _ _ Hat) by done. red_bind. rewrite bool_decide_true by done. cbn [negb].
  apply rest_at_app in Hat. cbn [length MAGIC Nat.add] in Hat.
  rewrite (rest_at_index _ _ _ _ Hat). red_bind. apply rest_at_app in Hat. cbn [length Nat.add] in Hat.
  assert (negb (version_ h =? 1) && negb (version_ h =? 2) = false) as -> by (by destruct Hv as [-> | ->]).
  do 3 (rewrite (rest_at_index _ _ _ _ Hat); red_bind; apply rest_at_app in Hat; cbn [length Nat.add] in Hat).
  rewrite (rest_at_slice _ _ _ _ _ Hat) by (by rewrite Hn). red_bind.
  apply rest_at_app in Hat. rewrite Hn in Hat. cbn [Nat.add] in Hat.
  rewrite (rest_at_slice _ _ _ _ _ Hat) by (by rewrite length_to_le_bytes). red_bind.
  rewrite (from_to_le_bytes_fits 16) by done. rewrite <-Hm. by destruct h.
Qed.

Lemma header_from_bytes_total bs :
  bytes bs -> exists r, header_from_bytes bs = Ret r /\
    forall h, r = Ok h -> header_wf h /\ header_to_bytes h = take HEADER_SIZE bs.
Proof.
  intros Hb. unfold header_from_bytes, HEADER_SIZE.
  destruct (Nat.ltb_spec (length bs) 36); [eexists; split; [done|]; naive_solver|].
  rewrite (slice_ok bs 0 4) by lia. red_bind. cbn [Nat.sub].
  match goal with |- context [bool_decide ?P] => destruct (bool_decide P) eqn:Em end; cbn [negb]; [|eexists; split; [done|]; naive_solver].
  apply bool_decide_eq_true in Em. cbn [drop] in Em.
  destruct (index_lt bs 4) as (v & -> & Hv); [lia|]. red_bind.
  destruct (negb (v =? 1) && negb (v =? 2)) eqn:Ev; [eexists; split; [done|]; naive_solver|].
  assert (v = 1 \/ v = 2) as Hv12 by (destruct (Z.eqb_spec v 1), (Z.eqb_spec v 2); try done; lia).
  destruct (index_lt bs 5) as (k & -> & Hk); [lia|]. red_bind.
  destruct (index_lt bs 6) as (a & -> & Ha); [lia|]. red_bind.
  destruct (index_lt bs 7) as (r & -> & Hr); [lia|]. red_bind.
  rewrite (slice_ok bs 8 20), (slice_ok bs 20 36) by lia. red_bind. cbn [Nat.sub].
  eexists. split; [done|]. intros h <-%Ok_inj.
  assert (forall o n, (o + n <= length bs)%nat -> length (take n (drop o bs)) = n) as Hlen
    by (intros; rewrite length_take, length_drop; lia).
  assert (bytes (take 16 (drop 20 bs))) as Hcb by auto with bytes.
  pose proof (Hlen 20%nat 16%nat ltac:(lia)) as H20. split.
  - split; cbn; [done|done|by eapply (Forall_lookup_1 _ _ _ _ Hb)..| |].
    + split; [apply Hlen; lia|auto with bytes].
    + pose proof (from_le_bytes_fits _ Hcb) as Hf. by rewrite H20 in Hf.
  - unfold header_to_bytes. cbn [magic version_ kid alg rsv nonce create_at].
    pose proof (to_from_le_bytes _ Hcb) as E16. rewrite H20 in E16. rewrite E16. change (drop 0 bs) with bs.
    change 36%nat with (4 + 32)%nat; rewrite <-(take_take_drop bs 4 32). f_equal.
    change 32%nat with (4 + 28)%nat; rewrite <-(take_take_drop (drop 4 bs) 4 28), drop_drop. cbn [Nat.add].
    assert (take 4 (drop 4 bs) = [v; k; a; r]) as ->.
    { rewrite (drop_S _ _ _ Hv), (drop_S _ _ _ Hk), (drop_S _ _ _ Ha), (drop_S _ _ _ Hr). done. }
    cbn [app]. do 4 f_equal. change 28%nat with (12 + 16)%nat. rewrite <-(take_take_drop (drop 8 bs) 12 16), drop_drop. done.
Qed.

(** ** Acceptance *)

Section Verify.
  Context {A : Type} `{Payload A}.

Definition accepts (now : Z) (p : A) (asset_id : string) (segment_index width : option Z) : Prop :=
  nbf_unix p <= wrap 32 now < exp_unix p /\
  verify_asset_id p asset_id = Ret true /\
  (forall seg, segment_index = Some seg -> window_len_sec p = 0 \/ seg * HLS_SEGMENT_DURATION <= window_len_sec p) /\
  (forall w, width = Some w -> allowed_widths p = [] \/ w ∈ allowed_widths p).

Lemma window_check window seg :
  negb (window =? 0) && (window / HLS_SEGMENT_DURATION <? seg) = false <->
  window = 0 \/ seg * HLS_SEGMENT_DURATION <= window.
Proof.
  unfold HLS_SEGMENT_DURATION. rewrite andb_false_iff, negb_false_iff, Z.eqb_eq, Z.ltb_ge.
  pose proof (Z.div_mod window 4). pose proof (Z.mod_pos_bound window 4). lia.
Qed.

Lemma width_check (ws : list Z) w :
  negb (bool_decide (ws = [])) && negb (bool_decide (w ∈ ws)) = false <-> ws = [] \/ w ∈ ws.
Proof. rewrite andb_false_iff, !negb_false_iff, !bool_decide_eq_true. done. Qed.

Lemma verify_accepts now data asset_id seg width p :
  verify now data asset_id seg width = Ret (Ok p) <->
  payload_deserialize data = Ret (Ok p) /\ accepts now p asset_id seg width.
Proof.
  unfold verify, accepts. destruct (payload_deserialize data) as [[q|e]| |]; red_bind; [|naive_solver..].
  split.
  - intros Hv. destruct (Z.ltb_spec (wrap 32 now) (nbf_unix q)); [done|].
    destruct (Z.leb_spec (exp_unix q) (wrap 32 now)); [done|].
    destruct (verify_asset_id q asset_id) as [[]| |] eqn:Eid; cbn [mbind outcome_bind negb] in Hv; [|done..].
    match type of Hv with (if ?a then _ else if ?b then _ else _) = _ => destruct a eqn:Ea, b eqn:Eb end; try done.
    injection Hv as ->. split_and!; [done|lia|lia|done| |].
    + intros s ->. by apply window_check.
    + intros w ->. by apply width_check.
  - intros ([= ->] & [Hn He] & Hid & Hseg & Hw).
    destruct (Z.ltb_spec (wrap 32 now) (nbf_unix p)); [lia|].
    destruct (Z.leb_spec (exp_unix p) (wrap 32 now)); [lia|]. rewrite Hid. red_bind. cbn [negb].
    assert (forall s, seg = Some s -> negb (window_len_sec p =? 0) && (window_len_sec p / HLS_SEGMENT_DURATION <? s) = false) as Hs
      by (intros; apply window_check; auto).
    assert (forall w, width = Some w -> negb (bool_decide (allowed_widths p = [])) && negb (bool_decide (w ∈ allowed_widths p)) = false) as Hww
      by (intros; apply width_check; auto).
    destruct seg as [s|], width as [w|]; rewrite ?(Hs _ eq_refl), ?(Hww _ eq_refl); done.
Qed.

End Verify.

(** ** The interface's laws, and their two implementations *)

Class PayloadLaws (A : Type) `{Payload A} := {
  payload_wf : A -> Prop;
  law_roundtrip p bs : payload_wf p -> payload_serialize p = Ok bs -> payload_deserialize bs = Ret (Ok p);
  law_total bs : bytes bs -> exists r, payload_deserialize bs = Ret r;
  law_bytes p bs : payload_wf p -> payload_serialize p = Ok bs -> bytes bs;
  law_version p : version p = 1 \/ version p = 2
}.

Lemma concat_u16s_bytes ws : bytes (concat (to_le_bytes 2 <$> ws)).
Proof.
  induction ws as [|w ws IH]; [constructor|]. rewrite fmap_cons. cbn [concat]. apply bytes_app. auto with bytes.
Qed.

Lemma write_limits_bytes w k c ws tail : write_limits w k c ws = Ok tail -> bytes tail.
Proof.
  unfold write_limits. case_match; [done|]. intros <-%Ok_inj.
  rewrite !bytes_app. split_and!; auto using concat_u16s_bytes with bytes.
  constructor; [apply wrap_fits; lia|constructor].
Qed.

Lemma serialize_bytes f : bytes (serialize f).
Proof. unfold serialize. rewrite !bytes_app. split_and!; auto using concat_u16s_bytes with bytes. Qed.

#[export] Program Instance payload_v1_laws : PayloadLaws ClaimPayloadV1 := {| payload_wf := v1_wf |}.
Next Obligation. intros p bs. apply v1_deserialize_serialize. Qed.
Next Obligation. intros bs Hb. destruct (v1_deserialize_total bs Hb) as (r & ? & _). by exists r. Qed.
Next Obligation.
  intros p bs _. cbn. unfold v1_serialize. case_match; [done|].
  destruct (write_limits _ _ _ _) as [tail|] eqn:E; [|done]. intros <-%Ok_inj. apply write_limits_bytes in E.
  rewrite !bytes_app. split_and!; auto with bytes. constructor; [apply wrap_fits; lia|constructor].
Qed.
Next Obligation. by left. Qed.

#[export] Program Instance payload_v2_laws `{Profile} : PayloadLaws ClaimPayloadV2 :=
  {| payload_wf p := v2_wf p /\ Z.of_nat (length (fingerprints (v2_assets_filter p))) < 65536 |}.
Next Obligation. intros P p bs [? ?]. by apply v2_deserialize_serialize. Qed.
Next Obligation. intros P bs Hb. destruct (v2_deserialize_total bs Hb) as (r & ? & _). by exists r. Qed.
Next Obligation.
  intros P p bs _. cbn. unfold v2_serialize.
  destruct (write_limits _ _ _ _) as [tail|] eqn:E; [|done]. intros <-%Ok_inj. apply write_limits_bytes in E.
  rewrite !bytes_app. split_and!; auto using serialize_bytes with bytes.
Qed.
Next Obligation. by right. Qed.

(** ** Properties *)

(** C4. Acceptance of a decrypted payload, for every payload version: a request
    is granted exactly when the bytes parse, the current time is within
    [nbf, exp), the asset matches, the segment starts at or before the end of
    the time window, and the width is among the allowed ones. *)
Theorem verify_accepts_iff {A : Type} `{Payload A} now data asset_id segment_index width p :
  verify now data asset_id segment_index width = Ret (Ok p) <->
  payload_deserialize data = Ret (Ok p) /\ accepts now p asset_id segment_index width.
Proof. apply verify_accepts. Qed.

(** A version 1 payload reads back as it was written; it can be written
    exactly when its asset id has at most 255 bytes and it lists at most 255
    widths. *)
Theorem payload_v1_roundtrip p :
  v1_wf p ->
  match v1_serialize p with
  | Ok bs => v1_deserialize bs = Ret (Ok p)
  | Err _ => (255 < slen (v1_asset_id p))%nat \/ (255 < length (v1_allowed_widths p))%nat
  end.
Proof.
  intros Hp. destruct (v1_serialize p) as [bs|e] eqn:E; [by apply v1_deserialize_serialize|].
  unfold v1_serialize, write_limits in E. rewrite length_as_bytes in E.
  destruct (Nat.ltb_spec 255 (slen (v1_asset_id p))); [by left|].
  destruct (Nat.ltb_spec 255 (length (v1_allowed_widths p))); [by right|done].
Qed.

Definition example_v1 : ClaimPayloadV1 :=
  {| v1_exp_unix := 2000000000; v1_nbf_unix := 1700000000; v1_asset_id := "test123";
     v1_window_len_sec := 180; v1_max_kbps := 4000; v1_max_concurrency := 10;
     v1_allowed_widths := [1920; 1280] |}.

Lemma example_v1_wf : v1_wf example_v1.
Proof. split; cbn; [done|done|done|done|done|done|by repeat constructor]. Defined.

Lemma payload_v1_roundtrip_witness :
  exists bs, v1_serialize example_v1 = Ok bs /\ v1_deserialize bs = Ret (Ok example_v1).
Proof. eexists. split; [reflexivity|]. exact (payload_v1_roundtrip example_v1 example_v1_wf). Defined.

(** A version 2 payload, with a filter of fewer than 65536 fingerprints,
    reads back as it was written. *)
Theorem payload_v2_roundtrip p bs :
  v2_wf p -> Z.of_nat (length (fingerprints (v2_assets_filter p))) < 65536 ->
  v2_serialize p = Ok bs -> v2_deserialize bs = Ret (Ok p).
Proof. apply v2_deserialize_serialize. Qed.

Definition example_v2 : ClaimPayloadV2 :=
  {| v2_exp_unix := 2000000000; v2_nbf_unix := 1700000000;
     v2_assets_filter :=
       {| descriptor := {| seed := 77; segment_length_ := 4; segment_length_mask := 3; segment_count_length := 4 |};
          fingerprints := [1; 2; 3; 65535] |};
     v2_window_len_sec := 180; v2_max_kbps := 4000; v2_max_concurrency := 10; v2_allowed_widths := [1920] |}.

Lemma payload_v2_roundtrip_witness :
  exists bs, v2_serialize example_v2 = Ok bs /\ v2_deserialize bs = Ret (Ok example_v2).
Proof.
  eexists. split; [reflexivity|].
  apply payload_v2_roundtrip; [split; cbn; try done; [split; cbn; try done; by repeat constructor|by repeat constructor]|done|reflexivity].
Defined.

(** Nothing an attacker sends makes the parsers panic: on any bytes, the
    header and both payload versions parse or are refused with an error, and
    what they return is within the range of its fields; an accepted header is
    exactly the 36 bytes read. *)
Theorem parsing_is_total bs :
  bytes bs ->
  (exists r, header_from_bytes bs = Ret r /\
     forall h, r = Ok h -> header_wf h /\ header_to_bytes h = take HEADER_SIZE bs) /\
  (exists r, v1_deserialize bs = Ret r /\ forall p, r = Ok p -> v1_wf p) /\
  (exists r, v2_deserialize bs = Ret r /\ forall p, r = Ok p -> v2_wf p).
Proof.
  intros Hb. split_and!; [by apply header_from_bytes_total|by apply v1_deserialize_total|by apply v2_deserialize_total].
Qed.

Lemma parsing_is_total_witness :
  exists r, v1_deserialize [1; 2; 3] = Ret r /\ forall p, r = Ok p -> v1_wf p.
Proof. apply (parsing_is_total [1; 2; 3]). by repeat constructor. Defined.

(** The bucket key of a header determines the nonce and the creation time it
    was made from: tokens share a bucket only if both agree. *)
Theorem bucket_key_injective h1 h2 :
  header_wf h1 -> header_wf h2 -> bucket_key h1 = bucket_key h2 ->
  nonce h1 = nonce h2 /\ create_at h1 = create_at h2.
Proof.
  intros [_ _ _ _ _ [Hn1 _] Hc1] [_ _ _ _ _ [Hn2 _] Hc2] E.
  apply app_inj_1 in E as [En Ec]; [|by rewrite Hn1, Hn2]. split; [done|].
  apply (f_equal from_le_bytes) in Ec. by rewrite !(from_to_le_bytes_fits 16) in Ec.
Qed.

Definition example_header : ClaimHeader :=
  ClaimHeader_new (repeat 7 12) 1700000000000000000 1 ALG_AES_256_GCM 2.

Lemma example_header_wf : header_wf example_header.
Proof. split; cbn; [done|by right|done|done|done|split; [done|by repeat constructor]|done]. Defined.

Lemma bucket_key_injective_witness :
  nonce example_header = nonce example_header /\ create_at example_header = create_at example_header.
Proof. exact (bucket_key_injective _ _ example_header_wf example_header_wf eq_refl). Defined.

(** The window check admits one segment too many: when the window is a
    multiple of the segment duration, the segment that starts exactly where the
    window ends, and so shares no instant with it, is still granted. *)
Theorem segment_after_window_is_granted {A : Type} `{Payload A} now data asset_id width p :
  verify now data asset_id None width = Ret (Ok p) ->
  window_len_sec p mod HLS_SEGMENT_DURATION = 0 ->
  let seg := window_len_sec p / HLS_SEGMENT_DURATION in
  window_len_sec p <= seg * HLS_SEGMENT_DURATION /\
  verify now data asset_id (Some seg) width = Ret (Ok p).
Proof.
  intros (Hd & Ht & Hid & _ & Hw)%verify_accepts Hmod seg. unfold HLS_SEGMENT_DURATION in *.
  assert (seg * 4 = window_len_sec p) as E by (subst seg; pose proof (Z.div_mod (window_len_sec p) 4); lia).
  split; [lia|]. apply verify_accepts. split; [done|]. split_and!; [apply Ht|apply Ht|done| |done].
  intros s [= <-]. right. unfold HLS_SEGMENT_DURATION. lia.
Qed.

Lemma segment_after_window_is_granted_witness :
  exists bs, v1_serialize example_v1 = Ok bs /\
    (v1_window_len_sec example_v1 <= 45 * 4 /\
     verify 1800000000 bs "test123" (Some 45) None = Ret (Ok example_v1)).
Proof.
  eexists. split; [reflexivity|].
  match goal with |- context [verify _ ?b _ _ _] =>
    exact (segment_after_window_is_granted 1800000000 b "test123" None example_v1 eq_refl eq_refl) end.
Defined.
