(* ===== verification/Bucket.v ===== *)
(** * Token buckets and connection permits ([crates/claim/src/bucket.rs]).

    The three atomics of a bucket are shared by every request made with the
    same token, so consuming tokens is a small program whose steps are the
    atomic operations: [consume_step] performs one of them, and any interleaving
    of several callers is a list of such steps. *)

From stdpp Require Import base list strings.
From Stdlib Require Import ZArith Lia SpecFloat.
From S2P Require Import Prelude RustInt Float64.

Local Open Scope Z_scope.

Definition MICRO_UNITS : Z := 1000000.

(** The atomics; [base_instant] only turns clock readings into milliseconds
    since the creation of the bucket, which is how times are given below. *)
Record TokenBucketInner := {
  tokens_micro : Z;
  refill_rate_micro : Z;
  last_refill_ms : Z
}.

Definition TokenBucketInner_new (init_tokens refill_rate : f64) : TokenBucketInner :=
  {| tokens_micro := f64_to_uint 64 (fmul init_tokens (f64_of_Z MICRO_UNITS));
     refill_rate_micro := f64_to_uint 64 (fmul refill_rate (f64_of_Z MICRO_UNITS));
     last_refill_ms := 0 |}.

Definition set_refill_rate (b : TokenBucketInner) (rate : f64) : TokenBucketInner :=
  {| tokens_micro := tokens_micro b;
     refill_rate_micro := f64_to_uint 64 (fmul rate (f64_of_Z MICRO_UNITS));
     last_refill_ms := last_refill_ms b |}.

Section Consume.
  Context `{P : Profile}.

Definition calculate_new_tokens (elapsed_ms refill_rate_micro : Z) : outcome Z :=
  if (elapsed_ms =? 0) || (refill_rate_micro =? 0) then Ret 0
  else if 1000000 <? elapsed_ms then umul 64 (elapsed_ms / 1000) refill_rate_micro
  else p ← umul 64 elapsed_ms refill_rate_micro; Ret (p / 1000).

(** [available_tokens]; the same refill arithmetic, in tokens. *)
Definition available_tokens (b : TokenBucketInner) (now_ms : Z) : outcome f64 :=
  let elapsed_ms := saturating_sub now_ms (last_refill_ms b) in
  new_tokens_micro ← (if (0 <? elapsed_ms) && (0 <? refill_rate_micro b) then
                        if 1000000 <? elapsed_ms then umul 64 (elapsed_ms / 1000) (refill_rate_micro b)
                        else p ← umul 64 elapsed_ms (refill_rate_micro b); Ret (p / 1000)
                      else Ret 0);
  let total_tokens := saturating_add 64 (tokens_micro b) new_tokens_micro in
  Ret (fdiv (f64_of_Z total_tokens) (f64_of_Z MICRO_UNITS)).

(** How long to wait for [needed_micro] more tokens. *)
Definition wait_time (needed_micro refill_rate_micro : Z) : outcome Z :=
  if 0 <? refill_rate_micro then
    p ← umul 64 needed_micro 1000; Ret (Z.max (p / refill_rate_micro) 1)
  else Ret 1000.

(** Where a caller of [try_consume_atomic] stands: the atomic operation it
    performs next. *)
Inductive consumer :=
  | LoadRate                                   (* [refill_rate_micro.load] *)
  | LoadLast (rate : Z)                        (* [last_refill_ms.load] *)
  | LoadTokens (rate new_tokens : Z) (retries : nat)
  | CasRefill (current updated wait_ms : Z)    (* the best-effort update *)
  | CasTake (rate new_tokens : Z) (retries : nat) (current final : Z)
  | StoreLast (r : result unit Z)              (* [last_refill_ms.store] *)
  | Done (r : result unit Z).

(** One atomic operation of a caller that wants [amount_micro] at time [now_ms];
    [spurious] says whether a weak compare-exchange fails although the value
    matches. *)
Definition consume_step (amount_micro now_ms : Z) (spurious : bool) (b : TokenBucketInner) (c : consumer)
    : outcome (TokenBucketInner * consumer) :=
  match c with
  | LoadRate => Ret (b, LoadLast (refill_rate_micro b))
  | LoadLast rate =>
    let elapsed_ms := saturating_sub now_ms (last_refill_ms b) in
    new_tokens ← calculate_new_tokens elapsed_ms rate;
    Ret (b, LoadTokens rate new_tokens 0)
  | LoadTokens rate new_tokens retries =>
    if (10 <? retries)%nat then Ret (b, Done (Err 1))
    else
      let current_tokens := tokens_micro b in
      let updated_tokens := saturating_add 64 current_tokens new_tokens in
      if updated_tokens <? amount_micro then
        wait_ms ← wait_time (amount_micro - updated_tokens) rate;
        Ret (b, CasRefill current_tokens updated_tokens wait_ms)
      else Ret (b, CasTake rate new_tokens retries current_tokens (updated_tokens - amount_micro))
  | CasRefill current updated wait_ms =>
    if (tokens_micro b =? current) && negb spurious then
      Ret ({| tokens_micro := updated; refill_rate_micro := refill_rate_micro b;
              last_refill_ms := last_refill_ms b |}, StoreLast (Err wait_ms))
    else Ret (b, StoreLast (Err wait_ms))
  | CasTake rate new_tokens retries current final =>
    if (tokens_micro b =? current) && negb spurious then
      Ret ({| tokens_micro := final; refill_rate_micro := refill_rate_micro b;
              last_refill_ms := last_refill_ms b |}, StoreLast (Ok tt))
    else Ret (b, LoadTokens rate new_tokens (S retries))
  | StoreLast r =>
    Ret ({| tokens_micro := tokens_micro b; refill_rate_micro := refill_rate_micro b;
            last_refill_ms := now_ms |}, Done r)
  | Done r => Ret (b, Done r)
  end.

Fixpoint consume_steps (fuel : nat) (amount_micro now_ms : Z) (b : TokenBucketInner) (c : consumer)
    : outcome (TokenBucketInner * result unit Z) :=
  match c with
  | Done r => Ret (b, r)
  | _ =>
    match fuel with
    | O => Diverge
    | S fuel =>
      '(b, c) ← consume_step amount_micro now_ms false b c;
      consume_steps fuel amount_micro now_ms b c
    end
  end.

(** [try_consume_atomic] called with nobody else at the bucket: five steps. *)
Definition try_consume_atomic (amount_micro now_ms : Z) (b : TokenBucketInner)
    : outcome (TokenBucketInner * result unit Z) :=
  consume_steps 5 amount_micro now_ms b LoadRate.

(** [consume]: retries, sleeping in between, until the tokens are there.
    [now_ms] holds what the clock reads at each attempt; [None] means that the
    readings were used up while still waiting. *)
Fixpoint consume_loop (amount_micro : Z) (now_ms : list Z) (b : TokenBucketInner)
    : outcome (TokenBucketInner * bool) :=
  match now_ms with
  | [] => Ret (b, false)
  | t :: ts =>
    '(b, r) ← try_consume_atomic amount_micro t b;
    match r with
    | Ok _ => Ret (b, true)
    | Err _ => consume_loop amount_micro ts b
    end
  end.

Definition consume (amount : Z) (now_ms : list Z) (b : TokenBucketInner) : outcome (TokenBucketInner * bool) :=
  if refill_rate_micro b =? 0 then Ret (b, true)
  else
    amount_micro ← umul 64 (wrap 64 amount) MICRO_UNITS;
    consume_loop amount_micro now_ms b.

(** ** Several callers

    Each caller has its amount, its reading of the clock and its position; a
    schedule says who moves and whether a weak compare-exchange fails. *)
Record caller := {
  c_amount : Z;
  c_now : Z;
  c_pos : consumer
}.

Record shared := {
  s_bucket : TokenBucketInner;
  s_callers : list caller
}.

Definition caller_step (s : shared) (i : nat) (spurious : bool) : outcome shared :=
  match s_callers s !! i with
  | None => Ret s
  | Some c =>
    '(b, p) ← consume_step (c_amount c) (c_now c) spurious (s_bucket s) (c_pos c);
    Ret {| s_bucket := b;
           s_callers := <[i := {| c_amount := c_amount c; c_now := c_now c; c_pos := p |}]> (s_callers s) |}
  end.

Definition run_schedule (s : shared) (sched : list (nat * bool)) : outcome shared :=
  foldM (fun s e => caller_step s (fst e) (snd e)) s sched.

End Consume.

(** ** A claim's bucket: rate limit, permits and expiry

    The semaphore is tokio's; what is used of it is its counting contract. *)
Class Semaphore := {
  sem : Type;
  sem_new : nat -> sem;
  sem_try_acquire : sem -> option sem;
  sem_release : sem -> sem
}.

Class SemaphoreLaws `{Semaphore} := {
  available_permits : sem -> nat;
  law_sem_new n : available_permits (sem_new n) = n;
  law_sem_none s : sem_try_acquire s = None <-> available_permits s = 0%nat;
  law_sem_some s s' : sem_try_acquire s = Some s' -> available_permits s = S (available_permits s');
  law_sem_release s : available_permits (sem_release s) = S (available_permits s)
}.

Section ClaimBucket.
  Context `{Sm : Semaphore}.

Record ClaimBucket := {
  permits : sem;
  bucket : TokenBucketInner;
  last_access : Z;
  b_exp_unix : Z;
  b_max_kbps : Z;
  b_max_concurrency : Z
}.

(** [elapsed_ms] is the reading of [Instant::now().elapsed().as_millis()]: the
    time between two consecutive readings of the clock. *)
Definition ClaimBucket_new (elapsed_ms : Z) (token_rate : f64) (exp_unix max_kbps max_concurrency : Z) : ClaimBucket :=
  {| permits := sem_new (Z.to_nat max_concurrency);
     bucket := TokenBucketInner_new token_rate token_rate;
     last_access := elapsed_ms;
     b_exp_unix := exp_unix;
     b_max_kbps := max_kbps;
     b_max_concurrency := max_concurrency |}.

Definition set_permits (b : ClaimBucket) (p : sem) : ClaimBucket :=
  {| permits := p; bucket := bucket b; last_access := last_access b; b_exp_unix := b_exp_unix b;
     b_max_kbps := b_max_kbps b; b_max_concurrency := b_max_concurrency b |}.

(** [Ok(None)]: unlimited; [Ok(Some(permit))]: a slot is taken until the permit
    is dropped ([release_connection]). *)
Definition try_acquire_connection (b : ClaimBucket) : ClaimBucket * result bool string :=
  if b_max_concurrency b =? 0 then (b, Ok false)
  else match sem_try_acquire (permits b) with
       | Some p => (set_permits b p, Ok true)
       | None => (b, Err "Max concurrency exceeded"%string)
       end.

(** The drop of an [OwnedSemaphorePermit]. *)
Definition release_connection (b : ClaimBucket) : ClaimBucket := set_permits b (sem_release (permits b)).

Definition touch (elapsed_ms : Z) (b : ClaimBucket) : ClaimBucket :=
  {| permits := permits b; bucket := bucket b; last_access := elapsed_ms; b_exp_unix := b_exp_unix b;
     b_max_kbps := b_max_kbps b; b_max_concurrency := b_max_concurrency b |}.

Definition is_expired (b : ClaimBucket) (now_unix : Z) : bool := b_exp_unix b <? now_unix.

Definition is_idle (b : ClaimBucket) (now_ms idle_threshold_ms : Z) : bool :=
  idle_threshold_ms <? saturating_sub now_ms (last_access b).

End ClaimBucket.

Record ClaimBucketStats := {
  total : nat;
  active : nat;
  expired : nat;
  unlimited : nat;
  limited : nat
}.
