(* ===== verification/BucketSpec.v ===== *)
(** * What the token bucket guarantees, alone and under contention. *)

From stdpp Require Import base list strings.
From Stdlib Require Import ZArith Lia SpecFloat.
From S2P Require Import Prelude RustInt Float64 Bucket.

Local Open Scope Z_scope.

(** ** Alone at the bucket *)

(** What one call does to the three atomics when nobody interferes. *)
Definition try_consume_ref `{Profile} (amount now_ms : Z) (b : TokenBucketInner)
    : outcome (TokenBucketInner * result unit Z) :=
  new ← calculate_new_tokens (saturating_sub now_ms (last_refill_ms b)) (refill_rate_micro b);
  let updated := saturating_add 64 (tokens_micro b) new in
  let after tokens := {| tokens_micro := tokens; refill_rate_micro := refill_rate_micro b; last_refill_ms := now_ms |} in
  if updated <? amount then
    wait_ms ← wait_time (amount - updated) (refill_rate_micro b);
    Ret (after updated, Err wait_ms)
  else Ret (after (updated - amount), Ok tt).

Lemma consume_steps_S `{Profile} fuel amount now_ms b c :
  (forall r, c <> Done r) ->
  consume_steps (S fuel) amount now_ms b c
  = ('(b, c) ← consume_step amount now_ms false b c; consume_steps fuel amount now_ms b c).
Proof. intros Hc. destruct c; try done. by destruct (Hc r). Qed.

Lemma try_consume_alone `{Profile} amount now_ms b :
  try_consume_atomic amount now_ms b = try_consume_ref amount now_ms b.
Proof.
  unfold try_consume_atomic, try_consume_ref.
  rewrite consume_steps_S by done. cbn [consume_step]. red_bind.
  rewrite consume_steps_S by done. cbn [consume_step].
  destruct (calculate_new_tokens _ _) as [new| |]; red_bind; [|done..].
  rewrite consume_steps_S by done. cbn [consume_step Nat.ltb Nat.leb].
  destruct (_ <? amount); [destruct (wait_time _ _) as [w| |]|]; red_bind; try done;
    rewrite consume_steps_S by done; cbn [consume_step]; rewrite Z.eqb_refl; cbn [negb andb]; red_bind;
    rewrite consume_steps_S by done; done.
Qed.

(** The refill of [e] milliseconds at [1000 r] micro-tokens per second. *)
Definition refill (e r : Z) : Z := if 1000000 <? e then e / 1000 * (1000 * r) else e * r.

Lemma calculate_refill `{Profile} e r :
  0 <= e -> 0 < r -> fits 64 (1000000 * (1000 * r)) -> fits 64 (e / 1000 * (1000 * r)) ->
  calculate_new_tokens e (1000 * r) = Ret (refill e r).
Proof.
  intros He Hr H1 H2. unfold calculate_new_tokens, refill, umul.
  destruct (Z.eqb_spec e 0) as [->|Hne]; cbn [orb].
  { destruct (Z.ltb_spec 1000000 0); [lia|]. done. }
  destruct (Z.eqb_spec (1000 * r) 0); [lia|].
  destruct (Z.ltb_spec 1000000 e); [by apply arith_fits|].
  rewrite arith_fits by (unfold fits in *; nia). red_bind.
  replace (e * (1000 * r)) with (e * r * 1000) by lia. by rewrite Z.div_mul.
Qed.

Lemma refill_bounds e r :
  0 <= e -> 0 < r -> (e <= 1000000 -> refill e r = e * r) /\ (1000000 < e -> (e - 999) * r <= refill e r).
Proof.
  intros He Hr. unfold refill. destruct (Z.ltb_spec 1000000 e); split; try lia.
  intros _. pose proof (Z.div_mod e 1000). pose proof (Z.mod_pos_bound e 1000). nia.
Qed.

(** ** Waiting is enough

    The readings of the clock respect the sleeps: the next attempt happens no
    earlier than the wait that the previous one returned. *)
Fixpoint respects_sleep `{Profile} (amount : Z) (times : list Z) (b : TokenBucketInner) : Prop :=
  match times with
  | t :: ((t' :: _) as ts) =>
    match try_consume_atomic amount t b with
    | Ret (b', Err w) => t + w <= t' /\ respects_sleep amount ts b'
    | _ => True
    end
  | _ => True
  end.

Section Wait.
  Context `{P : Profile}.
  Context (r amount : Z) (Hr : 0 < r <= 128000 * 65535) (Hamount : 0 <= amount) (Ha64 : amount * 1000 < 2 ^ 64).

(** Readings of the clock within 2^31 milliseconds (24 days) of the creation. *)
Definition timely (t : Z) : Prop := 0 <= t < 2 ^ 31.

Definition lacks (b : TokenBucketInner) (t n : Z) : Prop :=
  refill_rate_micro b = 1000 * r /\ last_refill_ms b = t /\ 0 <= tokens_micro b /\ amount - tokens_micro b = n.

Lemma attempt_outcome_cases b t t' n :
  lacks b t n -> 0 < n -> timely t -> timely t' -> t <= t' ->
  let left := n - refill (t' - t) r in
  if 0 <? left then
    exists b', try_consume_atomic amount t' b = Ret (b', Err (Z.max (left / r) 1)) /\ lacks b' t' left
  else exists b', try_consume_atomic amount t' b = Ret (b', Ok tt).
Proof.
  intros (Hrate & Hlast & Htok & Hn) Hpos [Ht0 Ht1] [Ht0' Ht1'] Hle left.
  change (2 ^ 31) with 2147483648 in *. change (2 ^ 64) with 18446744073709551616 in *.
  rewrite try_consume_alone. unfold try_consume_ref. rewrite Hrate, Hlast.
  replace (saturating_sub t' t) with (t' - t) by (unfold saturating_sub; lia).
  assert ((t' - t) / 1000 <= 2147483) as Hd.
  { apply (Z.div_le_mono (t' - t) 2147483647 1000); lia. }
  assert (0 <= (t' - t) / 1000) by (apply Z.div_pos; lia).
  rewrite calculate_refill; [|lia|lia|unfold fits; change (2 ^ 64) with 18446744073709551616; nia..].
  red_bind. assert (0 <= refill (t' - t) r) as Hrf by (unfold refill; case_match; nia).
  unfold saturating_add, umax. change (2 ^ 64 - 1) with 18446744073709551615.
  subst left. set (g := refill (t' - t) r) in *. clearbody g.
  destruct (Z.ltb_spec 0 (n - g)) as [Hs|Hs].
  - assert (Z.min (tokens_micro b + g) 18446744073709551615 = tokens_micro b + g) as -> by lia.
    destruct (Z.ltb_spec (tokens_micro b + g) amount); [|lia]. unfold wait_time.
    destruct (Z.ltb_spec 0 (1000 * r)); [|lia]. unfold umul.
    rewrite arith_fits by (unfold fits; change (2 ^ 64) with 18446744073709551616; lia). red_bind.
    replace (amount - (tokens_micro b + g)) with (n - g) by lia.
    rewrite (Z.mul_comm (n - g)), Z.div_mul_cancel_l by lia.
    eexists. split; [done|]. unfold lacks. cbn. split_and!; [done|done|lia|lia].
  - destruct (Z.ltb_spec (Z.min (tokens_micro b + g) 18446744073709551615) amount); [lia|]. by eexists.
Qed.

(** After one refused attempt three more are enough. *)
Lemma consume_after_refusal b t n t1 t2 t3 :
  lacks b t n -> 0 < n -> timely t -> timely t1 -> timely t2 -> timely t3 ->
  t + Z.max (n / r) 1 <= t1 -> respects_sleep amount [t1; t2; t3] b ->
  exists b', consume_loop amount [t1; t2; t3] b = Ret (b', true).
Proof.
  intros Hl Hn Ht H1 H2 H3 Hw1 Hs.
  pose proof (Z.mul_succ_div_gt n r ltac:(lia)) as Hn1.
  destruct (refill_bounds (t1 - t) r) as [B1 B1']; [lia..|].
  pose proof (attempt_outcome_cases b t t1 n Hl Hn Ht H1 ltac:(lia)) as A1. cbv zeta in A1.
  cbn [consume_loop]. destruct (Z.ltb_spec 0 (n - refill (t1 - t) r)) as [L1|L1];
    [|destruct A1 as (b1 & ->); red_bind; by eexists].
  destruct A1 as (b1 & E1 & Hl1). cbn [respects_sleep] in Hs. rewrite E1 in Hs |- *. red_bind.
  destruct Hs as [Hw2 Hs]. set (n1 := n - refill (t1 - t) r) in *.
  assert (n1 < 1000 * r) as Hn1b by nia.
  pose proof (Z.mul_succ_div_gt n1 r ltac:(lia)) as Hn2.
  destruct (refill_bounds (t2 - t1) r) as [B2 B2']; [lia..|].
  pose proof (attempt_outcome_cases b1 t1 t2 n1 Hl1 L1 H1 H2 ltac:(lia)) as A2. cbv zeta in A2.
  destruct (Z.ltb_spec 0 (n1 - refill (t2 - t1) r)) as [L2|L2];
    [|destruct A2 as (b2 & ->); red_bind; by eexists].
  destruct A2 as (b2 & E2 & Hl2). rewrite E2 in Hs |- *. red_bind.
  destruct Hs as [Hw3 _]. set (n2 := n1 - refill (t2 - t1) r) in *.
  assert (n2 < r) as Hn2b by nia.
  destruct (refill_bounds (t3 - t2) r) as [B3 B3']; [lia..|].
  pose proof (attempt_outcome_cases b2 t2 t3 n2 Hl2 L2 H2 H3 ltac:(lia)) as A3. cbv zeta in A3.
  destruct (Z.ltb_spec 0 (n2 - refill (t3 - t2) r)) as [L3|L3]; [exfalso; nia|].
  destruct A3 as (b3 & ->). red_bind. by eexists.
Qed.

(** The first attempt: granted, or refused with the state and the wait that
    [consume_after_refusal] starts from. *)
Lemma first_attempt b l t :
  refill_rate_micro b = 1000 * r -> last_refill_ms b = l -> 0 <= tokens_micro b -> timely l -> timely t ->
  (exists b', try_consume_atomic amount t b = Ret (b', Ok tt)) \/
  (exists b' n, try_consume_atomic amount t b = Ret (b', Err (Z.max (n / r) 1)) /\ lacks b' t n /\ 0 < n).
Proof.
  intros Hrate Hlast Htok Hl Ht.
  set (l' := Z.min l t).
  set (b0 := {| tokens_micro := tokens_micro b; refill_rate_micro := refill_rate_micro b; last_refill_ms := l' |}).
  assert (try_consume_atomic amount t b = try_consume_atomic amount t b0) as ->.
  { rewrite !try_consume_alone. unfold try_consume_ref, b0. cbn [last_refill_ms refill_rate_micro tokens_micro].
    rewrite Hlast. replace (saturating_sub t l) with (saturating_sub t l') by (unfold saturating_sub, l'; lia). done. }
  assert (timely l') as Hl' by (unfold timely, l' in *; lia).
  destruct (Z.lt_ge_cases 0 (amount - tokens_micro b)) as [Hn|Hn].
  - pose proof (attempt_outcome_cases b0 l' t (amount - tokens_micro b)) as A. cbv zeta in A.
    specialize (A ltac:(by split_and!) Hn Hl' Ht ltac:(lia)).
    destruct (Z.ltb_spec 0 (amount - tokens_micro b - refill (t - l') r)) as [L|L]; [right|by left].
    destruct A as (b' & E & Hb'). exists b'. eexists. split_and!; [exact E|exact Hb'|done].
  - left. rewrite try_consume_alone. unfold try_consume_ref, b0.
    cbn [last_refill_ms refill_rate_micro tokens_micro]. rewrite Hrate.
    assert (exists g, calculate_new_tokens (saturating_sub t l') (1000 * r) = Ret g /\ 0 <= g) as (g & -> & Hg).
    { unfold timely in *. change (2 ^ 31) with 2147483648 in *. rewrite calculate_refill; [|unfold saturating_sub; lia|lia|..].
      - eexists. split; [done|]. assert (0 <= saturating_sub t l') as He by (unfold saturating_sub; lia).
        unfold refill. pose proof (Z.div_pos _ 1000 He). case_match; nia.
      - unfold fits. change (2 ^ 64) with 18446744073709551616. lia.
      - assert (saturating_sub t l' / 1000 <= 2147483) as Hd.
        { apply (Z.div_le_mono _ 2147483647 1000); unfold saturating_sub; lia. }
        assert (0 <= saturating_sub t l' / 1000) by (apply Z.div_pos; unfold saturating_sub; lia).
        unfold fits. change (2 ^ 64) with 18446744073709551616. nia. }
    red_bind. change (2 ^ 64) with 18446744073709551616 in *.
    unfold saturating_add, umax. change (2 ^ 64 - 1) with 18446744073709551615.
    destruct (Z.ltb_spec (Z.min (tokens_micro b + g) 18446744073709551615) amount); [lia|]. by eexists.
Qed.

Lemma consume_four_attempts b l t0 t1 t2 t3 :
  refill_rate_micro b = 1000 * r -> last_refill_ms b = l -> 0 <= tokens_micro b -> timely l ->
  timely t0 -> timely t1 -> timely t2 -> timely t3 ->
  respects_sleep amount [t0; t1; t2; t3] b -> exists b', consume_loop amount [t0; t1; t2; t3] b = Ret (b', true).
Proof.
  intros Hrate Hlast Htok Hl H0 H1 H2 H3 Hs. cbn [respects_sleep] in Hs.
  destruct (first_attempt b l t0) as [(b' & E)|(b' & n & E & Hb' & Hn)]; [done..| |].
  - cbn [consume_loop]. rewrite E. red_bind. by eexists.
  - rewrite E in Hs. destruct Hs as [Hw Hs].
    destruct (consume_after_refusal b' t0 n t1 t2 t3) as (b3 & E3); [done..|].
    exists b3. change (consume_loop amount [t0; t1; t2; t3] b) with
      ('(b, r) ← try_consume_atomic amount t0 b;
       match r with Ok _ => Ret (b, true) | Err _ => consume_loop amount [t1; t2; t3] b end).
    by rewrite E.
Qed.

End Wait.

(** A caller that is alone at a bucket and sleeps at least as long as it is
    told gets its tokens within four attempts: [consume] cannot loop forever.
    The rate is any that a claim can ask for, the readings of the clock are
    within 24 days of the creation of the bucket. *)
Theorem consume_terminates `{Profile} kbps amount b t0 t1 t2 t3 :
  0 < kbps <= 65535 -> refill_rate_micro b = 128000000 * kbps ->
  0 <= tokens_micro b -> timely (last_refill_ms b) ->
  0 <= amount -> amount * 1000000000 < 2 ^ 64 ->
  timely t0 -> timely t1 -> timely t2 -> timely t3 ->
  respects_sleep (amount * 1000000) [t0; t1; t2; t3] b ->
  exists b', consume amount [t0; t1; t2; t3] b = Ret (b', true).
Proof.
  intros Hk Hrate Htok Hl Ha Ha64 H0 H1 H2 H3 Hs. unfold consume, umul, MICRO_UNITS.
  change (2 ^ 64) with 18446744073709551616 in *.
  destruct (Z.eqb_spec (refill_rate_micro b) 0); [lia|].
  rewrite wrap_id by (unfold fits; change (2 ^ 64) with 18446744073709551616; lia).
  rewrite arith_fits by (unfold fits; change (2 ^ 64) with 18446744073709551616; lia). red_bind.
  apply (consume_four_attempts (128000 * kbps) (amount * 1000000)) with (l := last_refill_ms b); try done;
    change (2 ^ 64) with 18446744073709551616; lia.
Qed.

Definition example_bucket : TokenBucketInner :=
  {| tokens_micro := 0; refill_rate_micro := 128000000 * 8; last_refill_ms := 0 |}.

Lemma consume_terminates_witness :
  exists b', @consume dev_profile 2000 [0; 2000; 2001; 2002] example_bucket = Ret (b', true).
Proof.
  apply (@consume_terminates dev_profile 8); unfold timely; cbn; try lia.
  vm_compute. split; [discriminate|exact I].
Defined.

(** ** Under contention *)

(** An upper bound on the steps a caller has left. *)
Definition rank (c : consumer) : nat :=
  match c with
  | LoadRate => 27
  | LoadLast _ => 26
  | LoadTokens _ _ retries => 2 * (11 - retries) + 3
  | CasTake _ _ retries _ _ => 2 * (11 - retries) + 2
  | CasRefill _ _ _ => 2
  | StoreLast _ => 1
  | Done _ => 0
  end.

(** Retries stay within the bound the code checks. *)
Definition retries_ok (c : consumer) : Prop :=
  match c with CasTake _ _ retries _ _ => (retries <= 10)%nat | _ => True end.

Lemma consume_step_rank `{Profile} amount now spurious b c b' c' :
  retries_ok c -> consume_step amount now spurious b c = Ret (b', c') ->
  retries_ok c' /\ (rank c' <= rank c - 1)%nat.
Proof.
  destruct c as [|rate|rate new k|cur upd w|rate new k cur fin|r|r]; cbn [consume_step retries_ok]; intros Hk H1.
  - apply Ret_inj, pair_equal_spec in H1 as [_ <-]. done.
  - apply bind_Ret in H1 as (n & _ & H1). apply Ret_inj, pair_equal_spec in H1 as [_ <-]. done.
  - destruct (Nat.ltb_spec 10 k); [apply Ret_inj, pair_equal_spec in H1 as [_ <-]; cbn; lia|].
    destruct (_ <? amount).
    + apply bind_Ret in H1 as (w & _ & H1). apply Ret_inj, pair_equal_spec in H1 as [_ <-]. cbn. lia.
    + apply Ret_inj, pair_equal_spec in H1 as [_ <-]. cbn. lia.
  - destruct (_ && _); apply Ret_inj, pair_equal_spec in H1 as [_ <-]; cbn; lia.
  - destruct (_ && _); apply Ret_inj, pair_equal_spec in H1 as [_ <-]; cbn; lia.
  - apply Ret_inj, pair_equal_spec in H1 as [_ <-]. cbn. lia.
  - apply Ret_inj, pair_equal_spec in H1 as [_ <-]. cbn. lia.
Qed.

(** How many of the steps of a schedule are caller [i]'s. *)
Definition turns (i : nat) (sched : list (nat * bool)) : nat :=
  length (filter (fun e => fst e = i) sched).

Lemma run_schedule_rank `{Profile} sched s s' i c :
  s_callers s !! i = Some c -> retries_ok (c_pos c) -> run_schedule s sched = Ret s' ->
  exists c', s_callers s' !! i = Some c' /\ (rank (c_pos c') <= rank (c_pos c) - turns i sched)%nat.
Proof.
  revert s c. induction sched as [|[j spurious] sched IH]; intros s c Hi Hk H1.
  - apply Ret_inj in H1 as <-. exists c. cbn. split; [done|lia].
  - cbn [run_schedule foldM] in H1. apply bind_Ret in H1 as (s1 & Hstep & H1).
    unfold caller_step in Hstep. cbn [fst snd] in Hstep.
    unfold turns. rewrite filter_cons. cbn [fst].
    destruct (s_callers s !! j) as [cj|] eqn:Ej.
    + apply bind_Ret in Hstep as ([b p] & Hc & Hstep). apply Ret_inj in Hstep as <-.
      destruct (decide (j = i)) as [->|Hne].
      * rewrite Hi in Ej. injection Ej as <-. apply consume_step_rank in Hc as [Hk' Hr]; [|done].
        eapply (IH _ {| c_amount := c_amount c; c_now := c_now c; c_pos := p |}) in H1 as (c' & Hc' & Hr'); [|..].
        -- exists c'. split; [done|]. cbn [c_pos length] in *. unfold turns in Hr'. lia.
        -- cbn [s_callers]. apply list_lookup_insert_eq. by eapply lookup_lt_Some.
        -- exact Hk'.
      * eapply IH; [|exact Hk|exact H1]. cbn [s_callers]. by rewrite list_lookup_insert_ne.
    + apply Ret_inj in Hstep as <-. destruct (decide (j = i)) as [->|Hne]; [congruence|]. by eapply IH.
Qed.

(** [try_consume_atomic] is wait-free: whatever the other callers do and
    whichever weak compare-exchanges fail spuriously, a caller that has been
    given 27 steps of its own has its answer. *)
Theorem try_consume_wait_free `{Profile} sched s s' i c :
  s_callers s !! i = Some c -> c_pos c = LoadRate -> run_schedule s sched = Ret s' ->
  (27 <= turns i sched)%nat ->
  exists c' r, s_callers s' !! i = Some c' /\ c_pos c' = Done r.
Proof.
  intros Hi Hp H1 Ht. destruct (run_schedule_rank sched s s' i c Hi) as (c' & Hc' & Hr); [by rewrite Hp|done|].
  rewrite Hp in Hr. cbn [rank] in Hr. destruct (c_pos c') eqn:E; cbn [rank] in Hr; try lia. eauto.
Qed.

(** ** Accounting *)

(** The refill of [elapsed] milliseconds. *)
Definition full_refill (rate elapsed : Z) : Z := elapsed * rate / 1000.

(** Below, [since] is a time that the stored [last_refill_ms] never goes behind. *)

(** What a caller can still take out of the tokens it was granted or may be
    credited with. *)
Definition claim_on (rate since : Z) (c : caller) : Z :=
  match c_pos c with
  | StoreLast (Ok _) | Done (Ok _) => c_amount c
  | StoreLast (Err _) | Done (Err _) => 0
  | _ => full_refill rate (c_now c - since)
  end.

(** The values a caller has loaded are within that bound. *)
Definition caller_ok (rate since : Z) (c : caller) : Prop :=
  since <= c_now c /\ 0 <= c_amount c /\
  match c_pos c with
  | LoadLast r => r = rate
  | LoadTokens r new _ => r = rate /\ new <= full_refill rate (c_now c - since)
  | CasRefill current updated _ => updated <= current + full_refill rate (c_now c - since)
  | CasTake r new _ current final => r = rate /\ new <= full_refill rate (c_now c - since) /\ final + c_amount c <= current + full_refill rate (c_now c - since)
  | _ => True
  end.

Definition granted (c : caller) : Z :=
  match c_pos c with StoreLast (Ok _) | Done (Ok _) => c_amount c | _ => 0 end.

Fixpoint total_of (f : caller -> Z) (l : list caller) : Z :=
  match l with [] => 0 | c :: l => f c + total_of f l end.

Lemma total_of_insert f l i c c' :
  l !! i = Some c -> total_of f (<[i := c']> l) = total_of f l - f c + f c'.
Proof.
  revert i. induction l as [|x l IH]; intros [|i] Hi; cbn in Hi |- *; try done.
  - injection Hi as ->. lia.
  - change (f x + total_of f (<[i := c']> l) = f x + total_of f l - f c + f c'). rewrite (IH i Hi). lia.
Qed.

Lemma total_of_mono f f' l : (forall c, c ∈ l -> f c <= f' c) -> total_of f l <= total_of f' l.
Proof.
  induction l as [|x l IH]; intros Hf; cbn; [lia|]. pose proof (Hf x ltac:(constructor)).
  specialize (IH (fun c Hc => Hf c (list_elem_of_further _ _ _ Hc))). lia.
Qed.

Lemma calculate_bound `{Profile} now last since rate new :
  since <= now -> since <= last -> 0 <= rate ->
  calculate_new_tokens (saturating_sub now last) rate = Ret new -> new <= full_refill rate (now - since).
Proof.
  intros Hn Hl Hr. set (e := saturating_sub now last).
  assert (0 <= e <= now - since) as He by (unfold e, saturating_sub; lia). clearbody e.
  generalize dependent (now - since). clear Hn Hl now. intros now He.
  assert (forall x y, umul 64 x y = Ret new -> 0 <= x -> 0 <= y -> new <= x * y) as Hmul.
  { intros x y H1 Hx Hy. unfold umul, arith in H1. destruct (fitsb 64 (x * y)); [inv_ret; lia|].
    destruct overflow_checks; [done|]. inv_ret. apply Z.mod_le; [nia|done]. }
  unfold calculate_new_tokens, full_refill. pose proof (Z.div_mod e 1000). pose proof (Z.mod_pos_bound e 1000).
  destruct (_ || _); [intros; inv_ret; apply Z.div_pos; nia|].
  destruct (Z.ltb_spec 1000000 e).
  - intros HU%Hmul; [|apply Z.div_pos; lia|lia]. apply Z.div_le_lower_bound; nia.
  - intros HU. apply bind_Ret in HU as (p & HU & [= <-]).
    assert (p <= e * rate) as Hp.
    { unfold umul, arith in HU. destruct (fitsb 64 (e * rate)); [inv_ret; lia|].
      destruct overflow_checks; [done|]. inv_ret. apply Z.mod_le; [nia|done]. }
    apply Z.div_le_mono; [lia|]. nia.
Qed.

Record accounted (rate since budget : Z) (s : shared) : Prop := {
  ac_rate : refill_rate_micro (s_bucket s) = rate;
  ac_last : since <= last_refill_ms (s_bucket s);
  ac_callers : Forall (caller_ok rate since) (s_callers s);
  ac_budget : tokens_micro (s_bucket s) + total_of (claim_on rate since) (s_callers s) <= budget
}.

Lemma full_refill_nonneg rate now : 0 <= rate -> 0 <= now -> 0 <= full_refill rate now.
Proof. intros. apply Z.div_pos; nia. Qed.

(** One step of one caller: the tokens and what it may still take do not grow. *)
Lemma consume_step_accounted `{Profile} rate since b b' c p spurious :
  0 <= rate -> refill_rate_micro b = rate -> since <= last_refill_ms b -> caller_ok rate since c ->
  consume_step (c_amount c) (c_now c) spurious b (c_pos c) = Ret (b', p) ->
  let c' := {| c_amount := c_amount c; c_now := c_now c; c_pos := p |} in
  refill_rate_micro b' = rate /\ since <= last_refill_ms b' /\ caller_ok rate since c' /\
  tokens_micro b' + claim_on rate since c' <= tokens_micro b + claim_on rate since c.
Proof.
  intros Hrate Hb Hl Hc H1. destruct c as [amount now pos]. unfold caller_ok, claim_on in *.
  cbn [c_amount c_now c_pos] in *. destruct Hc as (Hnow & Ham & Hpos).
  pose proof (full_refill_nonneg rate (now - since) Hrate ltac:(lia)) as Hf.
  destruct pos as [|r|r new k|cur upd w|r new k cur fin|r|r]; cbn [consume_step] in H1.
  - apply Ret_inj, pair_equal_spec in H1 as [<- <-]. split_and!; try done; lia.
  - apply bind_Ret in H1 as (n & Hn & H1). apply Ret_inj, pair_equal_spec in H1 as [<- <-]. subst r.
    apply (calculate_bound now _ since) in Hn; [|done..]. split_and!; try done; lia.
  - destruct Hpos as [-> Hnew].
    destruct (10 <? k)%nat; [apply Ret_inj, pair_equal_spec in H1 as [<- <-]; split_and!; try done; lia|].
    destruct (_ <? amount).
    + apply bind_Ret in H1 as (w & _ & H1). apply Ret_inj, pair_equal_spec in H1 as [<- <-].
      split_and!; try done; unfold saturating_add; lia.
    + apply Ret_inj, pair_equal_spec in H1 as [<- <-]. split_and!; try done; unfold saturating_add; lia.
  - destruct (Z.eqb_spec (tokens_micro b) cur) as [<-|]; cbn [andb] in H1;
      [destruct spurious; cbn [negb] in H1|]; apply Ret_inj, pair_equal_spec in H1 as [<- <-];
      cbn; split_and!; try done; lia.
  - destruct Hpos as (-> & Hnew & Hfin).
    destruct (Z.eqb_spec (tokens_micro b) cur) as [<-|]; cbn [andb] in H1;
      [destruct spurious; cbn [negb] in H1|]; apply Ret_inj, pair_equal_spec in H1 as [<- <-];
      cbn; split_and!; try done; lia.
  - apply Ret_inj, pair_equal_spec in H1 as [<- <-]. cbn. destruct r; split_and!; try done; lia.
  - apply Ret_inj, pair_equal_spec in H1 as [<- <-]. split_and!; try done; lia.
Qed.

Lemma caller_step_accounted `{Profile} rate since budget s s' i spurious :
  0 <= rate -> accounted rate since budget s -> caller_step s i spurious = Ret s' -> accounted rate since budget s'.
Proof.
  intros Hrate [Hr Hl Hc Hb] H1. unfold caller_step in H1.
  destruct (s_callers s !! i) as [c|] eqn:Ei; [|by apply Ret_inj in H1 as <-].
  apply bind_Ret in H1 as ([b p] & Hs & H1). apply Ret_inj in H1 as <-.
  assert (caller_ok rate since c) as Hci by (by eapply Forall_lookup_1).
  destruct (consume_step_accounted rate since _ _ _ _ _ Hrate Hr Hl Hci Hs) as (Hr' & Hl' & Hc' & Hb').
  split; cbn [s_bucket s_callers]; [done|done|by apply Forall_insert|].
  rewrite (total_of_insert _ _ _ _ _ Ei). lia.
Qed.

Lemma run_schedule_accounted `{Profile} rate since budget sched s s' :
  0 <= rate -> accounted rate since budget s -> run_schedule s sched = Ret s' -> accounted rate since budget s'.
Proof.
  intros Hrate. revert s. induction sched as [|e sched IH]; intros s Hs H1; [by apply Ret_inj in H1 as <-|].
  cbn [run_schedule foldM] in H1. apply bind_Ret in H1 as (s1 & Hstep & H1).
  eapply IH; [|exact H1]. by eapply caller_step_accounted.
Qed.

(** Callers that are about to start, with readings of the clock behind [since]. *)
Definition arriving (since : Z) (callers : list caller) : Prop :=
  Forall (fun c => c_pos c = LoadRate /\ since <= c_now c /\ 0 <= c_amount c) callers.

(** The refill of the time from [since] on, once for each caller. *)
Definition credit_since (rate since : Z) (callers : list caller) : Z :=
  total_of (fun c => full_refill rate (c_now c - since)) callers.

(** Calls that race, from any state of the bucket to any point of their run. *)
Lemma racing_calls_bounded `{Profile} since b callers sched s' :
  0 <= refill_rate_micro b -> since <= last_refill_ms b -> arriving since callers ->
  run_schedule {| s_bucket := b; s_callers := callers |} sched = Ret s' ->
  refill_rate_micro (s_bucket s') = refill_rate_micro b /\
  tokens_micro (s_bucket s') + total_of granted (s_callers s') <=
    tokens_micro b + credit_since (refill_rate_micro b) since callers.
Proof.
  intros Hr Hl Hc H1.
  assert (total_of (claim_on (refill_rate_micro b) since) callers
          <= credit_since (refill_rate_micro b) since callers) as Hinit.
  { apply total_of_mono. intros c Hin. eapply Forall_forall in Hc as (Hp & _); [|done].
    unfold claim_on. by rewrite Hp. }
  eapply (run_schedule_accounted (refill_rate_micro b) since
    (tokens_micro b + total_of (claim_on (refill_rate_micro b) since) callers)) in H1 as [Hrate _ Hok Hb]; [|done|].
  - split; [done|].
    assert (total_of granted (s_callers s') <= total_of (claim_on (refill_rate_micro b) since) (s_callers s')) as Hg; [|lia].
    apply total_of_mono. intros c Hin. eapply Forall_forall in Hok as (Hn & _ & _); [|done].
    pose proof (full_refill_nonneg _ (c_now c - since) Hr ltac:(lia)). unfold granted, claim_on. by destruct (c_pos c) as [| | | | |[]|[]].
  - split; cbn; [done|done| |lia]. eapply Forall_impl; [exact Hc|]. intros c (Hp & ? & ?). unfold caller_ok. by rewrite Hp.
Qed.

(** *** The time of the last refill

    When all calls of a race are over, the stored time is the reading of one of
    them: unless weak exchanges failed without a reason more than ten times, a
    call gives up only because another one was faster, and that one stores its
    time. *)
Definition finished (s : shared) : Prop := Forall (fun c => exists r, c_pos c = Done r) (s_callers s).
Definition reading_of (t : Z) (callers : list caller) : Prop := Exists (fun c => c_now c = t) callers.
Definition spurious_failures (sched : list (nat * bool)) : nat := length (filter (fun e => snd e = true) sched).

(** Where a caller is while nobody has changed the tokens [t]. *)
Definition untouched (t : Z) (k : nat) (c : caller) : Prop :=
  match c_pos c with
  | LoadRate | LoadLast _ => True
  | LoadTokens _ _ retries => (retries <= k)%nat
  | CasRefill current _ _ => current = t
  | CasTake _ _ retries current _ => current = t /\ (retries <= k)%nat
  | StoreLast _ | Done _ => False
  end.

Definition time_kept (t : Z) (k : nat) (s : shared) : Prop :=
  Exists (fun c => exists r, c_pos c = StoreLast r) (s_callers s) \/
  reading_of (last_refill_ms (s_bucket s)) (s_callers s) \/
  (tokens_micro (s_bucket s) = t /\ Forall (untouched t k) (s_callers s)).

Lemma Exists_insert_ne {A} (Q : A -> Prop) (l : list A) i x y :
  l !! i = Some x -> ~ Q x -> Exists Q l -> Exists Q (<[i := y]> l).
Proof.
  intros Hi Hx HQ. apply Exists_exists in HQ as (z & Hz & HQ). apply list_elem_of_lookup in Hz as [j Hj].
  destruct (decide (i = j)) as [->|Hne]; [congruence|].
  apply Exists_exists. exists z. split; [|done]. apply list_elem_of_lookup. exists j. by rewrite list_lookup_insert_ne.
Qed.

Lemma Exists_insert_new {A} (Q : A -> Prop) (l : list A) i x y : l !! i = Some x -> Q y -> Exists Q (<[i := y]> l).
Proof.
  intros Hi HQ. apply Exists_exists. exists y. split; [|done]. apply list_elem_of_lookup. exists i.
  apply list_lookup_insert_eq. by eapply lookup_lt_Some.
Qed.

Lemma reading_of_insert t l i c c' :
  l !! i = Some c -> c_now c' = c_now c -> reading_of t l -> reading_of t (<[i := c']> l).
Proof.
  intros Hi Hn HQ. destruct (decide (c_now c = t)) as [E|Hne]; [|by eapply Exists_insert_ne].
  eapply Exists_insert_new; [done|]. by rewrite Hn.
Qed.

Lemma untouched_mono t k c : untouched t k c -> untouched t (S k) c.
Proof. unfold untouched. destruct (c_pos c); try done; lia. Qed.

(** The step of a caller that has not been overtaken. *)
Lemma untouched_step `{Profile} t k b b' c p (spurious : bool) :
  (k <= 10)%nat -> tokens_micro b = t -> untouched t k c ->
  consume_step (c_amount c) (c_now c) spurious b (c_pos c) = Ret (b', p) ->
  (exists r, p = StoreLast r) \/
  (tokens_micro b' = t /\
   untouched t (if spurious then S k else k) {| c_amount := c_amount c; c_now := c_now c; c_pos := p |}).
Proof.
  intros Hk Ht Hu H1. assert (k <= (if spurious then S k else k))%nat as Hle by (destruct spurious; lia).
  unfold untouched in *. cbn [c_pos]. destruct (c_pos c) as [|r|r new n|cur upd w|r new n cur fin|r|r]; cbn [consume_step] in H1; [| | | | |done..].
  - inv_ret. by right.
  - apply bind_Ret in H1 as (n & _ & H1). injection H1 as <- <-. right. split; [done|lia].
  - destruct (Nat.ltb_spec 10 n); [lia|]. destruct (_ <? c_amount c).
    + apply bind_Ret in H1 as (w & _ & H1). injection H1 as <- <-. by right.
    + injection H1 as <- <-. right. split; [done|]. split; [done|lia].
  - destruct (_ && _); injection H1 as <- <-; left; by eexists.
  - destruct Hu as [-> Hn]. rewrite Ht, Z.eqb_refl in H1. destruct spurious; cbn [negb andb] in H1; injection H1 as <- <-.
    + right. split; [done|lia].
    + left. by eexists.
Qed.

Lemma caller_step_time_kept `{Profile} t k s s' i (spurious : bool) :
  (k <= 10)%nat -> time_kept t k s -> caller_step s i spurious = Ret s' ->
  time_kept t (if spurious then S k else k) s'.
Proof.
  intros Hk Ht H1. unfold caller_step in H1. destruct (s_callers s !! i) as [c|] eqn:Ei.
  2: { apply Ret_inj in H1 as <-. destruct Ht as [?|[?|[? Hu]]]; [by left|by right; left|]. right. right. split; [done|].
       eapply Forall_impl; [exact Hu|]. intros c Hc. destruct spurious; [by apply untouched_mono|done]. }
  apply bind_Ret in H1 as ([b p] & Hs & H1). apply Ret_inj in H1 as <-.
  destruct Ht as [Hst|[Hrd|[Ht Hu]]].
  - destruct (c_pos c) as [| | | | |r|] eqn:Ep.
    1-5,7: left; cbn [s_callers]; eapply Exists_insert_ne; [exact Ei| |exact Hst]; intros [r' Hr']; congruence.
    cbn [consume_step] in Hs. injection Hs as <- <-. right. left. cbn [s_bucket s_callers last_refill_ms].
    by eapply Exists_insert_new.
  - right. left. cbn [s_bucket s_callers].
    assert (last_refill_ms b = last_refill_ms (s_bucket s) \/ last_refill_ms b = c_now c) as [-> | ->].
    + destruct (c_pos c); cbn [consume_step] in Hs; repeat first [case_match | apply bind_Ret in Hs as (? & _ & Hs)];
        injection Hs as <- _; by (left + right).
    + by eapply reading_of_insert.
    + by eapply Exists_insert_new.
  - assert (untouched t k c) as Hc by (by eapply Forall_lookup_1).
    destruct (untouched_step t k _ _ _ _ _ Hk Ht Hc Hs) as [[r ->]|[Ht' Hu']].
    + left. cbn [s_callers]. eapply Exists_insert_new; [exact Ei|]. by eexists.
    + right. right. split; [done|]. cbn [s_callers]. apply Forall_insert; [|done].
      eapply Forall_impl; [exact Hu|]. intros x Hx. destruct spurious; [by apply untouched_mono|done].
Qed.

Lemma run_schedule_time_kept `{Profile} t k sched s s' :
  (k + spurious_failures sched <= 10)%nat -> time_kept t k s -> run_schedule s sched = Ret s' ->
  time_kept t (k + spurious_failures sched) s'.
Proof.
  revert k s. induction sched as [|[i sp] sched IH]; intros k s Hk Ht H1.
  { apply Ret_inj in H1 as <-. unfold spurious_failures. cbn. by rewrite Nat.add_0_r. }
  cbn [run_schedule foldM fst snd] in H1. apply bind_Ret in H1 as (s1 & Hstep & H1).
  unfold spurious_failures in *. rewrite filter_cons in *. cbn [snd] in *.
  pose proof (caller_step_time_kept t k s s1 i sp ltac:(lia) Ht Hstep) as Ht1.
  destruct sp; cbn [decide] in *.
  - rewrite decide_True in * by done. cbn [length] in *. rewrite Nat.add_succ_r in *. by apply (IH (S k) s1).
  - rewrite decide_False in * by done. by apply (IH k s1).
Qed.

(** So a race of calls that is over leaves one of their readings. *)
Lemma last_refill_is_a_reading `{Profile} b callers sched s' :
  callers <> [] -> Forall (fun c => c_pos c = LoadRate) callers -> (spurious_failures sched <= 10)%nat ->
  run_schedule {| s_bucket := b; s_callers := callers |} sched = Ret s' -> finished s' ->
  reading_of (last_refill_ms (s_bucket s')) (s_callers s').
Proof.
  intros Hne Hc Hsp H1 Hf.
  assert (length (s_callers s') = length callers) as Hlen.
  { revert H1. apply (foldM_inv (fun _ s => length (s_callers s) = length callers)); [done|].
    intros ? [i sp] ? s1 s2 _ Hl. cbn [fst snd]. unfold caller_step. destruct (s_callers s1 !! i); [|by intros <-%Ret_inj].
    intros ([b1 p1] & _ & <-%Ret_inj)%bind_Ret. cbn [s_callers]. by rewrite length_insert. }
  destruct (run_schedule_time_kept (tokens_micro b) 0 sched {| s_bucket := b; s_callers := callers |} s' Hsp)
    as [Hst|[Hrd|[_ Hu]]]; [|exact H1| |done|].
  - right. right. split; [done|]. cbn [s_callers]. eapply Forall_impl; [exact Hc|]. intros c E. unfold untouched. by rewrite E.
  - apply Exists_exists in Hst as (c & Hin & r & Hr). eapply Forall_forall in Hf as [r' Hr']; [|exact Hin]. congruence.
  - unfold finished in Hf. destruct (s_callers s') as [|c l]; [by destruct callers|]. apply Forall_cons in Hf as [[r Hr] _].
    apply Forall_cons in Hu as [Hu _]. unfold untouched in Hu. by rewrite Hr in Hu.
Qed.

(** *** Rounds of calls

    Calls that overlap form a round, in any interleaving; a round is over when
    all its calls have returned, and only then the next one begins. *)
Inductive rounds_run `{Profile} : TokenBucketInner -> list (list caller) -> TokenBucketInner -> Z -> Prop :=
  | rounds_none b : rounds_run b [] b 0
  | rounds_then b callers sched s rounds b' g :
      run_schedule {| s_bucket := b; s_callers := callers |} sched = Ret s ->
      finished s -> (spurious_failures sched <= 10)%nat ->
      rounds_run (s_bucket s) rounds b' g ->
      rounds_run b (callers :: rounds) b' (total_of granted (s_callers s) + g).

(** The earliest reading of a round. *)
Definition earliest (callers : list caller) : Z :=
  match callers with [] => 0 | c :: l => foldl (fun t c => Z.min t (c_now c)) (c_now c) l end.

(** The clock does not go back: the calls of a round read it behind the earliest
    reading of the round before. *)
Fixpoint chronological (since : Z) (rounds : list (list caller)) : Prop :=
  match rounds with
  | [] => True
  | callers :: rounds => callers <> [] /\ arriving since callers /\ chronological (earliest callers) rounds
  end.

(** What the rate allows: each call of a round is credited with the time since
    the round before. *)
Fixpoint allowance (rate since : Z) (rounds : list (list caller)) : Z :=
  match rounds with
  | [] => 0
  | callers :: rounds => credit_since rate since callers + allowance rate (earliest callers) rounds
  end.

Lemma earliest_le callers c : c ∈ callers -> earliest callers <= c_now c.
Proof.
  destruct callers as [|d l]; [by intros ?%not_elem_of_nil|]. cbn [earliest].
  assert (forall t, foldl (fun t c => Z.min t (c_now c)) t l <= t /\
    forall c, c ∈ l -> foldl (fun t c => Z.min t (c_now c)) t l <= c_now c) as H.
  { induction l as [|e l IH]; intros t; cbn [foldl]; [split; [done|]; by intros ? ?%not_elem_of_nil|].
    destruct (IH (Z.min t (c_now e))) as [H1 H2]. split; [lia|]. intros c' [->|Hc]%elem_of_cons; [lia|by apply H2]. }
  intros [->|Hc]%elem_of_cons; [exact (proj1 (H (c_now d)))|exact (proj2 (H (c_now d)) c Hc)].
Qed.

(** The readings of callers do not change while they run. *)
Lemma run_schedule_readings `{Profile} sched s s' :
  run_schedule s sched = Ret s' -> c_now <$> s_callers s' = c_now <$> s_callers s.
Proof.
  apply (foldM_inv (fun _ s1 => c_now <$> s_callers s1 = c_now <$> s_callers s)); [done|].
  intros ? [i sp] ? s1 s2 _ Hl. cbn [fst snd]. unfold caller_step. destruct (s_callers s1 !! i) as [c|] eqn:Ei; [|by intros <-%Ret_inj].
  intros ([b1 p1] & _ & <-%Ret_inj)%bind_Ret. cbn [s_callers]. rewrite list_fmap_insert. cbn [c_now].
  rewrite list_insert_id; [done|]. by rewrite list_lookup_fmap, Ei.
Qed.

Lemma rounds_bounded `{Profile} rounds : forall b b' g since,
  rounds_run b rounds b' g -> 0 <= refill_rate_micro b -> since <= last_refill_ms b -> chronological since rounds ->
  refill_rate_micro b' = refill_rate_micro b /\
  (rounds <> [] -> exists callers, last rounds = Some callers /\ earliest callers <= last_refill_ms b') /\
  tokens_micro b' + g <= tokens_micro b + allowance (refill_rate_micro b) since rounds.
Proof.
  induction rounds as [|callers rounds IH]; intros b b' g since Hrun Hr Hl Hch; inversion Hrun as [|? ? sched s ? ? g' Hs Hf Hsp Hrest]; subst.
  { split_and!; [done|done|cbn; lia]. }
  destruct Hch as (Hne & Harr & Hch).
  destruct (racing_calls_bounded since b callers sched s Hr Hl Harr Hs) as [Hrate Hb].
  assert (earliest callers <= last_refill_ms (s_bucket s)) as Hlast.
  { pose proof (last_refill_is_a_reading b callers sched s Hne) as Hrd.
    apply Exists_exists in Hrd as (c & Hin & <-); [|by eapply Forall_impl; [exact Harr|]; intros ? []|done..].
    apply run_schedule_readings in Hs. cbn [s_callers] in Hs.
    apply (list_elem_of_fmap_2 c_now) in Hin. rewrite Hs in Hin. apply list_elem_of_fmap in Hin as (d & -> & Hd).
    by apply earliest_le. }
  destruct (IH _ _ _ (earliest callers) Hrest ltac:(lia) Hlast Hch) as (Hrate' & Hlast' & Hb').
  rewrite Hrate in *. split_and!; [done| |cbn [allowance]; lia].
  intros _. destruct rounds as [|r rounds].
  - exists callers. split; [done|]. inversion Hrest; subst. done.
  - destruct Hlast' as (cs & Hcs & ?); [done|]. by exists cs.
Qed.

(** Calls one after another are credited no more than the time that passes. *)
Lemma allowance_alone rate since calls :
  0 <= rate -> chronological since ((fun c => [c]) <$> calls) ->
  allowance rate since ((fun c => [c]) <$> calls) <=
    match last calls with Some c => full_refill rate (c_now c - since) | None => 0 end.
Proof.
  intros Hr. revert since. induction calls as [|c calls IH]; intros since Hch; [done|].
  destruct Hch as (_ & Harr & Hch). apply Forall_cons in Harr as [(_ & Hc & _) _]. cbn [fmap list_fmap allowance].
  change (earliest [c]) with (c_now c) in *. specialize (IH _ Hch). unfold credit_since. cbn [total_of].
  destruct calls as [|d calls]; [cbn in *; lia|]. change (last (c :: d :: calls)) with (last (d :: calls)).
  destruct (last (d :: calls)) as [e|] eqn:Ee; [|by apply last_None in Ee].
  assert (forall x y, full_refill rate x + full_refill rate y <= full_refill rate (x + y)) as Hadd.
  { intros x y. unfold full_refill. rewrite Z.mul_add_distr_r.
    pose proof (Z.div_mod (x * rate) 1000). pose proof (Z.div_mod (y * rate) 1000).
    pose proof (Z.mod_pos_bound (x * rate) 1000). pose proof (Z.mod_pos_bound (y * rate) 1000).
    apply Z.div_le_lower_bound; lia. }
  specialize (Hadd (c_now c - since) (c_now e - c_now c)).
  replace (c_now c - since + (c_now e - c_now c)) with (c_now e - since) in Hadd by lia. lia.
Qed.

(** C11. What a bucket grants is bounded by its rate.  Calls come in rounds: those
    of one round overlap, in any interleaving of their atomic operations, and the
    clock does not go back between rounds.  At any point of the round that is
    running, what has been granted since the start, plus what is left, is at
    most the initial tokens plus, for every call, the refill of the time between
    the earliest reading of the round before (for the first round the stored
    time of the last refill) and its own reading.  So time is credited once by
    each call that races, and never again by a later round; and for calls that
    come one after another, the whole is at most the initial tokens plus the
    refill of the time that has passed.  (The rounds that are over had at
    most ten weak exchanges that failed without a reason: with more, a call may
    give up without storing its time.) *)
Theorem grants_are_bounded `{Profile} b rounds b1 g callers sched s' :
  0 <= refill_rate_micro b -> chronological (last_refill_ms b) (rounds ++ [callers]) ->
  rounds_run b rounds b1 g -> run_schedule {| s_bucket := b1; s_callers := callers |} sched = Ret s' ->
  tokens_micro (s_bucket s') + (g + total_of granted (s_callers s')) <=
    tokens_micro b + allowance (refill_rate_micro b) (last_refill_ms b) (rounds ++ [callers]) /\
  forall calls, rounds ++ [callers] = (fun c => [c]) <$> calls -> forall c, last calls = Some c ->
    tokens_micro (s_bucket s') + (g + total_of granted (s_callers s')) <=
      tokens_micro b + full_refill (refill_rate_micro b) (c_now c - last_refill_ms b).
Proof.
  intros Hr Hch Hrun Hs.
  assert (forall since, since <= last_refill_ms b -> chronological since (rounds ++ [callers]) ->
    tokens_micro (s_bucket s') + (g + total_of granted (s_callers s')) <=
      tokens_micro b + allowance (refill_rate_micro b) since (rounds ++ [callers])) as Hmain.
  { clear Hch. revert b g Hr Hrun. induction rounds as [|r rounds IH]; intros b g Hr Hrun since Hl Hch.
    - inversion Hrun; subst. destruct Hch as (_ & Harr & _). cbn [allowance app].
      destruct (racing_calls_bounded since b1 callers sched s' Hr Hl Harr Hs) as [_ Hb]. lia.
    - inversion Hrun as [|? ? sched0 s0 ? ? g' Hs0 Hf Hsp Hrest]; subst. destruct Hch as (Hne & Harr & Hch).
      assert (rounds_run b [r] (s_bucket s0) (total_of granted (s_callers s0) + 0)) as Hone
        by (econstructor; [done..|constructor]).
      destruct (rounds_bounded [r] b _ _ since Hone Hr Hl) as (Hrate & Hlast & Hb); [by split_and!|].
      destruct Hlast as (? & [= <-] & Hlast); [done|]. cbn [allowance] in Hb.
      pose proof (IH (s_bucket s0) g' ltac:(lia) Hrest (earliest r) Hlast Hch) as Hb'. rewrite Hrate in Hb'.
      cbn [app allowance]. lia. }
  pose proof (Hmain _ ltac:(done) Hch) as Hb. split; [done|]. intros calls Hcalls c Hc.
  rewrite Hcalls in Hb, Hch. pose proof (allowance_alone _ _ _ Hr Hch) as Ha. rewrite Hc in Ha. lia.
Qed.

Definition waiting_caller (amount now : Z) : caller := {| c_amount := amount; c_now := now; c_pos := LoadRate |}.

(** Both callers load the rate and the time of the last refill before either of
    them takes its tokens. *)
Definition racing_schedule : list (nat * bool) :=
  [(0, false); (0, false); (1, false); (1, false);
   (0, false); (0, false); (0, false); (1, false); (1, false); (1, false)]%nat.

Definition racing_start : shared :=
  {| s_bucket := {| tokens_micro := 0; refill_rate_micro := 1000000; last_refill_ms := 0 |};
     s_callers := [waiting_caller 1000000 1000; waiting_caller 1000000 1000] |}.

(** After the race, a third call a second later. *)
Definition after_race : TokenBucketInner :=
  match @run_schedule dev_profile racing_start racing_schedule with Ret s => s_bucket s | _ => s_bucket racing_start end.

Definition later_call : list caller := [waiting_caller 1000000 2000].
Definition later_schedule : list (nat * bool) := repeat (0%nat, false) 5.

Lemma grants_are_bounded_witness :
  exists s', @run_schedule dev_profile {| s_bucket := after_race; s_callers := later_call |} later_schedule = Ret s' /\
    total_of granted (s_callers s') = 1000000 /\
    tokens_micro (s_bucket s') + (2000000 + total_of granted (s_callers s')) <=
      0 + allowance 1000000 0 [s_callers racing_start; later_call] /\
    allowance 1000000 0 [s_callers racing_start; later_call] = 3000000.
Proof.
  assert (exists s, @run_schedule dev_profile racing_start racing_schedule = Ret s /\ s_bucket s = after_race /\
    finished s /\ total_of granted (s_callers s) = 2000000) as (s & Hs & Hb & Hf & Hg).
  { eexists. split; [vm_compute; reflexivity|]. split; [vm_compute; reflexivity|]. split; [|vm_compute; reflexivity].
    repeat constructor; eexists; reflexivity. }
  assert (exists s', @run_schedule dev_profile {| s_bucket := after_race; s_callers := later_call |} later_schedule = Ret s' /\
    total_of granted (s_callers s') = 1000000) as (s' & Hs' & Hg') by (eexists; split; vm_compute; reflexivity).
  exists s'. split; [exact Hs'|]. split; [exact Hg'|]. split; [|vm_compute; reflexivity].
  refine (proj1 (@grants_are_bounded dev_profile (s_bucket racing_start) [s_callers racing_start] after_race 2000000
    later_call later_schedule s' _ _ _ Hs')).
  - discriminate.
  - split_and!; repeat constructor; discriminate.
  - change 2000000 with (2000000 + 0). rewrite <-Hg, <-Hb.
    apply (rounds_then (s_bucket racing_start) (s_callers racing_start) racing_schedule s); [exact Hs|exact Hf|vm_compute; lia|constructor].
Defined.

Lemma try_consume_wait_free_witness :
  exists s' c' r, @run_schedule dev_profile racing_start (repeat (0%nat, true) 27) = Ret s' /\
    s_callers s' !! 0%nat = Some c' /\ c_pos c' = Done r.
Proof.
  assert (exists s', @run_schedule dev_profile racing_start (repeat (0%nat, true) 27) = Ret s') as [s' Hs]
    by (eexists; vm_compute; reflexivity).
  destruct (@try_consume_wait_free dev_profile (repeat (0%nat, true) 27) racing_start s' 0 (waiting_caller 1000000 1000))
    as (c' & r & Hc & Hr); [reflexivity|reflexivity|exact Hs|vm_compute; lia|]. exists s', c', r. exact (conj Hs (conj Hc Hr)).
Defined.

(** The bound is reached: the check of the clock and the update of the tokens
    are separate atomic operations, so two callers that race are each credited
    the same elapsed second, and together take twice what the rate allows. *)
Theorem refill_is_credited_twice :
  exists s', (forall P : Profile, @run_schedule P racing_start racing_schedule = Ret s') /\
    total_of granted (s_callers s') = 2000000 /\
    tokens_micro (s_bucket racing_start) + full_refill (refill_rate_micro (s_bucket racing_start)) 1000 = 1000000.
Proof. eexists. split; [intros P; vm_compute; reflexivity|]. split; vm_compute; reflexivity. Qed.

(** ** Connection permits *)

Section Permits.
  Context `{Sm : Semaphore, SL : !SemaphoreLaws}.

(** What happens to a bucket's permits: a request asks for one, or an earlier
    one is dropped. *)
Inductive permit_event :=
  | Acquire
  | Drop.

(** The bucket and the number of permits held. *)
Definition permit_step (s : ClaimBucket * nat) (e : permit_event) : ClaimBucket * nat :=
  let '(b, held) := s in
  match e with
  | Acquire =>
    match try_acquire_connection b with
    | (b, Ok true) => (b, S held)
    | (b, _) => (b, held)
    end
  | Drop => match held with O => (b, O) | S held => (release_connection b, held) end
  end.

Definition permits_ok (m : nat) (s : ClaimBucket * nat) : Prop :=
  b_max_concurrency (fst s) = Z.of_nat m /\ (available_permits (permits (fst s)) + snd s = m)%nat.

Lemma permit_step_ok m s e : (0 < m)%nat -> permits_ok m s -> permits_ok m (permit_step s e).
Proof.
  intros Hm. destruct s as [b held]. unfold permits_ok. cbn [fst snd]. intros [Hmax Hav]. destruct e; cbn [permit_step].
  - unfold try_acquire_connection. destruct (Z.eqb_spec (b_max_concurrency b) 0); [lia|].
    destruct (sem_try_acquire (permits b)) as [p|] eqn:E; cbn; [|done].
    apply law_sem_some in E. split; [done|lia].
  - destruct held as [|held]; cbn; [done|]. rewrite law_sem_release. split; [done|lia].
Qed.

Lemma permit_steps_ok m s es : (0 < m)%nat -> permits_ok m s -> permits_ok m (foldl permit_step s es).
Proof. intros Hm. revert s. induction es as [|e es IH]; intros s Hs; cbn [foldl]; [done|]. by apply IH, permit_step_ok. Qed.

(** A claim limited to [m] connections never has more than [m] of them open,
    whatever the order in which requests come and go; and a request is refused
    only when all [m] are in use. *)
Theorem concurrency_is_limited elapsed rate exp kbps (m : nat) es :
  (0 < m)%nat ->
  let '(b, held) := foldl permit_step (ClaimBucket_new elapsed rate exp kbps (Z.of_nat m), 0%nat) es in
  (held <= m)%nat /\ (snd (try_acquire_connection b) = Err "Max concurrency exceeded"%string <-> held = m).
Proof.
  intros Hm. pose proof (permit_steps_ok m (ClaimBucket_new elapsed rate exp kbps (Z.of_nat m), 0%nat) es Hm) as H.
  destruct (foldl _ _ _) as [b held]. destruct H as [Hmax Hav].
  { split; cbn; [done|]. rewrite law_sem_new. lia. }
  cbn [fst snd] in *. split; [lia|]. unfold try_acquire_connection.
  destruct (Z.eqb_spec (b_max_concurrency b) 0); [lia|].
  destruct (sem_try_acquire (permits b)) as [p|] eqn:E; cbn.
  - apply law_sem_some in E. split; [done|lia].
  - apply law_sem_none in E. split; [lia|done].
Qed.

End Permits.

(** The counter is the semaphore's specification. *)
Definition counter_semaphore : Semaphore := {|
  sem := nat;
  sem_new n := n;
  sem_try_acquire n := match n with O => None | S n => Some n end;
  sem_release n := S n
|}.

#[export] Instance counter_semaphore_laws : @SemaphoreLaws counter_semaphore.
Proof.
  refine (@Build_SemaphoreLaws counter_semaphore (fun n => n) _ _ _ _);
    [done|by intros [|n]|by intros [|n] s' [= <-]|done].
Defined.

Lemma concurrency_is_limited_witness :
  snd (foldl (@permit_step counter_semaphore)
         (@ClaimBucket_new counter_semaphore 0 (S754_zero false) 100 0 2, 0%nat)
         [Acquire; Acquire; Acquire; Drop; Acquire]) = 2%nat /\
  snd (@try_acquire_connection counter_semaphore
    (fst (foldl (@permit_step counter_semaphore)
         (@ClaimBucket_new counter_semaphore 0 (S754_zero false) 100 0 2, 0%nat)
         [Acquire; Acquire; Acquire; Drop; Acquire]))) = Err "Max concurrency exceeded"%string.
Proof.
  split; [reflexivity|].
  pose proof (@concurrency_is_limited counter_semaphore counter_semaphore_laws 0 (S754_zero false) 100 0 2
    [Acquire; Acquire; Acquire; Drop; Acquire]) as H.
  apply H; [lia|reflexivity].
Defined.
