(* ===== verification/Manager.v ===== *)
(** * The claim manager ([crates/claim/src/manager.rs]): keys, tokens, buckets.

    AES-256-GCM and base64url come from other crates and are parameters.  The
    buckets are reference-counted: the manager's map and every running request
    hold references to the same bucket, so buckets live in a heap and the map
    holds addresses.  Every operation takes the manager's lock once, except
    [get_or_create_bucket], which takes it twice; its two halves are separate
    definitions so that they can be interleaved. *)

From stdpp Require Import base list strings gmap.
From Stdlib Require Import ZArith Lia SpecFloat.
From S2P Require Import Prelude RustInt RustStr Float64 Claim Bucket.

Local Open Scope Z_scope.

(** The AEAD cipher: [encrypt key nonce msg aad], and [decrypt] likewise; the
    ciphertext includes the tag. *)
Class Aead := {
  aead_encrypt : list Z -> list Z -> list Z -> list Z -> option (list Z);
  aead_decrypt : list Z -> list Z -> list Z -> list Z -> option (list Z)
}.

Class AeadLaws `{Aead} := {
  law_decrypt key nonce msg aad ct :
    aead_encrypt key nonce msg aad = Some ct -> aead_decrypt key nonce ct aad = Some msg;
  law_ciphertext key nonce msg aad ct :
    aead_encrypt key nonce msg aad = Some ct -> length ct = (length msg + TAG_SIZE)%nat /\ (bytes msg -> bytes ct)
}.

(** base64url without padding. *)
Class Base64 := {
  b64_encode : list Z -> string;
  b64_decode : string -> option (list Z)
}.

Class Base64Laws `{Base64} := {
  law_b64 bs : bytes bs -> b64_decode (b64_encode bs) = Some bs
}.

Section Manager.
  Context `{P : Profile, Sm : Semaphore, Ae : Aead, Bs : Base64}.

Record ClaimManagerInner := {
  buckets : gmap (list Z) nat;
  keys : gmap Z (list Z);
  current_kid : Z;
  heap : list ClaimBucket
}.

(** ** Keys *)

Definition inner_new (random_key : list Z) : ClaimManagerInner :=
  {| buckets := ∅; keys := {[ 1 := random_key ]}; current_kid := 1; heap := [] |}.

Definition collect_keys (ks : list (Z * list Z)) : gmap Z (list Z) :=
  foldl (fun m kv => <[kv.1 := kv.2]> m) ∅ ks.

Definition min_key (ks : list Z) : option Z :=
  match ks with [] => None | k :: ks => Some (foldl Z.min k ks) end.

Definition from_keys (random_key : list Z) (ks : list (Z * list Z)) : outcome ClaimManagerInner :=
  match ks with
  | [] => Ret (inner_new random_key)
  | _ =>
    let keys := collect_keys ks in
    match min_key (map_to_list keys).*1 with
    | None => Panic
    | Some kid => Ret {| buckets := ∅; keys := keys; current_kid := kid; heap := [] |}
    end
  end.

Definition with_key (kid : Z) (key : list Z) : ClaimManagerInner :=
  {| buckets := ∅; keys := {[ kid := key ]}; current_kid := kid; heap := [] |}.

Definition add_key (kid : Z) (key : list Z) (m : ClaimManagerInner) : result ClaimManagerInner string :=
  match keys m !! kid with
  | Some _ => Err (String.append "Key ID " (String.append (dec kid) " already exists"))
  | None => Ok {| buckets := buckets m; keys := <[kid := key]> (keys m);
                  current_kid := current_kid m; heap := heap m |}
  end.

Definition set_current_kid (kid : Z) (m : ClaimManagerInner) : result ClaimManagerInner string :=
  match keys m !! kid with
  | None => Err (String.append "Key ID " (String.append (dec kid) " not found"))
  | Some _ => Ok {| buckets := buckets m; keys := keys m; current_kid := kid; heap := heap m |}
  end.

(** ** Signing *)

Definition sign_claim {A : Type} `{Payload A} (random_nonce : list Z) (now_nanos : Z)
    (payload : A) (m : ClaimManagerInner) : result string string :=
  match keys m !! current_kid m with
  | None => Err (String.append "Key ID " (String.append (dec (current_kid m)) " not found"))
  | Some key =>
    let header := ClaimHeader_new random_nonce now_nanos (current_kid m) ALG_AES_256_GCM (version payload) in
    let header_bytes := header_to_bytes header in
    match payload_serialize payload with
    | Err e => Err e
    | Ok payload_bytes =>
      match aead_encrypt key (nonce header) payload_bytes header_bytes with
      | None => Err "Encryption failed: aead::Error"%string
      | Some ciphertext => Ok (b64_encode (header_bytes ++ ciphertext))
      end
    end
  end.

(** ** Buckets *)

Definition token_rate (max_kbps : Z) : f64 :=
  if 0 <? max_kbps then fdiv (fmul (f64_of_Z max_kbps) (f64_of_Z 1024)) (f64_of_Z 8)
  else S754_zero false.

(** Allocates a bucket and (re)binds the key to it. *)
Definition create_bucket {A : Type} `{Payload A} (elapsed_ms : Z) (bucket_key : list Z)
    (claim_payload : A) (m : ClaimManagerInner) : ClaimManagerInner * nat :=
  let kbps := max_kbps claim_payload in
  let b := ClaimBucket_new elapsed_ms (token_rate kbps) (exp_unix claim_payload) kbps
             (max_concurrency claim_payload) in
  ({| buckets := <[bucket_key := length (heap m)]> (buckets m); keys := keys m;
      current_kid := current_kid m; heap := heap m ++ [b] |},
   length (heap m)).

Definition get_bucket (bucket_key : list Z) (m : ClaimManagerInner) : option nat := buckets m !! bucket_key.

Definition update_heap (f : ClaimBucket -> ClaimBucket) (a : nat) (m : ClaimManagerInner) : ClaimManagerInner :=
  {| buckets := buckets m; keys := keys m; current_kid := current_kid m; heap := alter f a (heap m) |}.

Definition touch_bucket (elapsed_ms : Z) (bucket_key : list Z) (m : ClaimManagerInner) : ClaimManagerInner :=
  match buckets m !! bucket_key with
  | Some a => update_heap (touch elapsed_ms) a m
  | None => m
  end.

(** The first half of [get_or_create_bucket], under the read lock. *)
Definition find_bucket (elapsed_ms : Z) (bucket_key : list Z) (m : ClaimManagerInner)
    : ClaimManagerInner * option nat :=
  match get_bucket bucket_key m with
  | Some a => (update_heap (touch elapsed_ms) a m, Some a)
  | None => (m, None)
  end.

Definition get_or_create_bucket {A : Type} `{Payload A} (elapsed_ms : Z) (bucket_key : list Z)
    (claim_payload : A) (m : ClaimManagerInner) : ClaimManagerInner * nat :=
  match find_bucket elapsed_ms bucket_key m with
  | (m, Some a) => (m, a)
  | (m, None) => create_bucket elapsed_ms bucket_key claim_payload m
  end.

(** Which entries the cleanup keeps. *)
Definition keeps (elapsed_ms now_unix : Z) (m : ClaimManagerInner) (a : nat) : bool :=
  match heap m !! a with
  | Some b => if is_expired b now_unix then false else if is_idle b elapsed_ms 600000 then false else true
  | None => true
  end.

Definition cleanup_expired (elapsed_ms now_secs : Z) (m : ClaimManagerInner) : ClaimManagerInner :=
  let now_unix := wrap 32 now_secs in
  {| buckets := filter (fun kv => keeps elapsed_ms now_unix m kv.2 = true) (buckets m);
     keys := keys m; current_kid := current_kid m; heap := heap m |}.

Definition bucket_satisfies (f : ClaimBucket -> bool) (m : ClaimManagerInner) (a : nat) : bool :=
  match heap m !! a with Some b => f b | None => false end.

Definition count_buckets (f : ClaimBucket -> bool) (m : ClaimManagerInner) : nat :=
  length (filter (fun kv => bucket_satisfies f m kv.2 = true) (map_to_list (buckets m))).

Definition bucket_stats (now_secs : Z) (m : ClaimManagerInner) : ClaimBucketStats :=
  let now_unix := wrap 32 now_secs in
  {| total := size (buckets m);
     active := count_buckets (fun b => negb (is_expired b now_unix)) m;
     expired := count_buckets (fun b => is_expired b now_unix) m;
     unlimited := count_buckets (fun b => b_max_kbps b =? 0) m;
     limited := count_buckets (fun b => negb (b_max_kbps b =? 0)) m |}.

(** ** Verification *)

(** Decoding, header, key and decryption: the header and the payload bytes. *)
Definition open_token (token : string) (m : ClaimManagerInner)
    : outcome (result (ClaimHeader * list Z) ClaimError) :=
  match b64_decode token with
  | None => Ret (Err InvalidToken)
  | Some token_bytes =>
    if (length token_bytes <? HEADER_SIZE + TAG_SIZE)%nat then Ret (Err InvalidToken)
    else
      hb ← slice token_bytes 0 HEADER_SIZE;
      r ← header_from_bytes hb;
      match r with
      | Err e => Ret (Err e)
      | Ok header =>
        match keys m !! kid header with
        | None => Ret (Err (KeyNotFound (kid header)))
        | Some key =>
          ciphertext ← slice_from token_bytes HEADER_SIZE;
          if negb (alg header =? ALG_AES_256_GCM)
          then Ret (Err (InvalidHeader (String.append "Unsupported algorithm: " (dec (alg header)))))
          else
            match aead_decrypt key (nonce header) ciphertext (header_to_bytes header) with
            | None => Ret (Err AeadFail)
            | Some payload_bytes => Ret (Ok (header, payload_bytes))
            end
        end
      end
  end.

(** Verification of the payload in one version, and the bucket it leads to. *)
Definition grant_access {A : Type} `{Payload A} (now_secs elapsed_ms : Z) (header : ClaimHeader)
    (payload_bytes : list Z) (asset_id : string) (segment_index width : option Z) (m : ClaimManagerInner)
    : outcome (ClaimManagerInner * result (nat * list Z) ClaimError) :=
  r ← verify (A := A) now_secs payload_bytes asset_id segment_index width;
  match r with
  | Err e => Ret (m, Err e)
  | Ok payload =>
    let '(m, a) := get_or_create_bucket elapsed_ms (bucket_key header) payload m in
    Ret (m, Ok (a, bucket_key header))
  end.

Definition verify_claim (now_secs elapsed_ms : Z) (token : string) (asset_id : string)
    (segment_index width : option Z) (m : ClaimManagerInner)
    : outcome (ClaimManagerInner * result (nat * list Z) ClaimError) :=
  r ← open_token token m;
  match r with
  | Err e => Ret (m, Err e)
  | Ok (header, payload_bytes) =>
    if version_ header =? 1 then
      grant_access (A := ClaimPayloadV1) now_secs elapsed_ms header payload_bytes asset_id segment_index width m
    else if version_ header =? 2 then
      grant_access (A := ClaimPayloadV2) now_secs elapsed_ms header payload_bytes asset_id segment_index width m
    else Ret (m, Err (UnsupportedVersion (version_ header)))
  end.

End Manager.
