(* ===== verification/ManagerSpec.v ===== *)
(** * What the claim manager guarantees. *)

From stdpp Require Import base list strings gmap.
From Stdlib Require Import ZArith Lia SpecFloat.
From S2P Require Import Prelude RustInt RustStr XxHash Float64 Fuse FuseFormat FuseSpec Claim ClaimSpec Bucket BucketSpec Manager.

Local Open Scope Z_scope.

Section Spec.
  Context `{P : Profile, Sm : Semaphore, Ae : Aead, Bs : Base64}.

(** The map only holds addresses of allocated buckets, and the current key
    exists. *)
Record manager_ok (m : ClaimManagerInner) : Prop := {
  mo_buckets k a : buckets m !! k = Some a -> (a < length (heap m))%nat;
  mo_current : is_Some (keys m !! current_kid m)
}.

(** ** The invariant is kept *)

Lemma inner_new_ok k : manager_ok (inner_new k).
Proof. split; cbn; [set_solver|]. rewrite lookup_singleton_eq. by eexists. Qed.

Lemma with_key_ok kid k : manager_ok (with_key kid k).
Proof. split; cbn; [set_solver|]. rewrite lookup_singleton_eq. by eexists. Qed.

Lemma foldl_min_in k ks : foldl Z.min k ks ∈ k :: ks /\ forall x, x ∈ k :: ks -> foldl Z.min k ks <= x.
Proof.
  revert k. induction ks as [|y ks IH]; intros k; cbn [foldl].
  - split; [constructor|]. intros x Hx%list_elem_of_singleton. lia.
  - destruct (IH (Z.min k y)) as [Hin Hle]. split.
    + apply elem_of_cons in Hin as [->|Hin]; [|by do 2 apply list_elem_of_further].
      destruct (Z.min_spec k y) as [[_ ->]|[_ ->]]; repeat constructor.
    + intros x [->|[->|Hx]%elem_of_cons]%elem_of_cons.
      * specialize (Hle (Z.min k y) ltac:(constructor)). lia.
      * specialize (Hle (Z.min k y) ltac:(constructor)). lia.
      * apply Hle. by constructor.
Qed.

Lemma collect_keys_lookup ks k : is_Some (collect_keys ks !! k) <-> k ∈ ks.*1.
Proof.
  unfold collect_keys. rewrite <-(rev_involutive ks). generalize (rev ks) as l. clear ks. intros l.
  induction l as [|[k' v] l IH]; cbn [rev].
  - cbn. rewrite lookup_empty, elem_of_nil. split; [by intros [? ?]|done].
  - rewrite foldl_app, fmap_app, elem_of_app. cbn [foldl fst snd fmap list_fmap].
    rewrite lookup_insert_is_Some', IH, list_elem_of_singleton. naive_solver.
Qed.

Lemma from_keys_spec random_key ks m :
  from_keys random_key ks = Ret m -> ks <> [] ->
  keys m = collect_keys ks /\ current_kid m ∈ ks.*1 /\ (forall k, k ∈ ks.*1 -> current_kid m <= k) /\
  buckets m = ∅ /\ heap m = [].
Proof.
  intros H Hne. destruct ks as [|kv ks]; [done|]. unfold from_keys in H.
  destruct (min_key _) as [kid|] eqn:E; [|done]. apply Ret_inj in H as <-. cbn [keys current_kid buckets heap].
  assert (forall k, k ∈ (map_to_list (collect_keys (kv :: ks))).*1 <-> k ∈ (kv :: ks).*1) as Hk.
  { intros k. rewrite <-(collect_keys_lookup (kv :: ks)), list_elem_of_fmap. split.
    - intros ([k' v] & -> & Hin%elem_of_map_to_list). by exists v.
    - intros [v Hv]. exists (k, v). split; [done|]. by apply elem_of_map_to_list. }
  destruct ((map_to_list (collect_keys (kv :: ks))).*1) as [|k0 l] eqn:El; [done|]. cbn [min_key] in E.
  injection E as <-. destruct (foldl_min_in k0 l) as [Hin Hle].
  split_and!; [done|by apply Hk|intros k Hkk; apply Hle; by apply Hk|done..].
Qed.

Lemma from_keys_ok random_key ks : exists m, from_keys random_key ks = Ret m /\ manager_ok m.
Proof.
  destruct ks as [|kv ks]; [eexists; split; [done|]; apply inner_new_ok|].
  destruct (from_keys random_key (kv :: ks)) as [m| |] eqn:E.
  - exists m. split; [done|]. apply from_keys_spec in E as (Ek & Hin & _ & Eb & _); [|done].
    split; [rewrite Eb; set_solver|]. rewrite Ek. by apply collect_keys_lookup.
  - exfalso. unfold from_keys in E. destruct (min_key _) eqn:Em; [done|].
    assert (kv.1 ∈ (map_to_list (collect_keys (kv :: ks))).*1) as Hin.
    { apply list_elem_of_fmap. destruct (proj2 (collect_keys_lookup (kv :: ks) kv.1)) as [v Hv]; [by constructor|].
      exists (kv.1, v). split; [done|]. by apply elem_of_map_to_list. }
    destruct ((map_to_list (collect_keys (kv :: ks))).*1); [set_solver|done].
  - unfold from_keys in E. by destruct (min_key _).
Qed.

Lemma add_key_ok kid k m m' : manager_ok m -> add_key kid k m = Ok m' -> manager_ok m' /\ keys m ⊆ keys m'.
Proof.
  intros [Hb Hc]. unfold add_key. destruct (keys m !! kid) eqn:E; [done|]. intros <-%Ok_inj.
  split; [|by apply insert_subseteq]. split; [done|]. cbn. rewrite lookup_insert_is_Some'. by right.
Qed.

Lemma set_current_kid_ok kid m m' : manager_ok m -> set_current_kid kid m = Ok m' -> manager_ok m' /\ keys m' = keys m.
Proof.
  intros [Hb Hc]. unfold set_current_kid. destruct (keys m !! kid) eqn:E; [|done]. intros <-%Ok_inj.
  split; [|done]. split; [done|]. by eexists.
Qed.

Lemma update_heap_ok f a m : manager_ok m -> manager_ok (update_heap f a m).
Proof. intros [Hb Hc]. split; [|done]. intros k a' Ha. cbn. rewrite length_alter. by eapply Hb. Qed.

Lemma touch_bucket_ok e k m : manager_ok m -> manager_ok (touch_bucket e k m).
Proof. intros Hm. unfold touch_bucket. destruct (buckets m !! k); [by apply update_heap_ok|done]. Qed.

Lemma create_bucket_ok {A} `{Payload A} e k (p : A) m : manager_ok m -> manager_ok (create_bucket e k p m).1.
Proof.
  intros [Hb Hc]. split; [|done]. cbn. intros k' a. rewrite length_app. cbn.
  destruct (decide (k = k')) as [->|]; [rewrite lookup_insert_eq; intros [= <-]; lia|].
  rewrite lookup_insert_ne by done. intros Ha%Hb. lia.
Qed.

Lemma get_or_create_ok {A} `{Payload A} e k (p : A) m :
  manager_ok m -> manager_ok (get_or_create_bucket e k p m).1.
Proof.
  intros Hm. unfold get_or_create_bucket, find_bucket. destruct (get_bucket k m).
  - by apply update_heap_ok.
  - by apply create_bucket_ok.
Qed.

Lemma cleanup_ok e now m : manager_ok m -> manager_ok (cleanup_expired e now m).
Proof.
  intros [Hb Hc]. split; [|done]. intros k a [Ha _]%map_lookup_filter_Some. by eapply Hb.
Qed.

Lemma admit_ok {A} `{Payload A} now e h pb id seg w m m' r :
  manager_ok m -> grant_access (A := A) now e h pb id seg w m = Ret (m', r) -> manager_ok m' /\ keys m' = keys m.
Proof.
  intros Hm H1. unfold grant_access in H1. apply bind_Ret in H1 as ([p|er] & _ & H1).
  - pose proof (get_or_create_ok e (bucket_key h) p m Hm) as Hok.
    destruct (get_or_create_bucket e (bucket_key h) p m) as [m1 a] eqn:E. apply Ret_inj in H1. injection H1 as <- <-.
    split; [done|]. unfold get_or_create_bucket, find_bucket in E. destruct (get_bucket _ m); by injection E as <- <-.
  - apply Ret_inj in H1. by injection H1 as <- <-.
Qed.

Lemma verify_claim_ok now e token id seg w m m' r :
  manager_ok m -> verify_claim now e token id seg w m = Ret (m', r) -> manager_ok m' /\ keys m' = keys m.
Proof.
  intros Hm H1. unfold verify_claim in H1. apply bind_Ret in H1 as ([[h pb]|er] & _ & H1).
  - destruct (version_ h =? 1); [by apply (admit_ok (A := ClaimPayloadV1)) in H1|]. destruct (version_ h =? 2); [by apply (admit_ok (A := ClaimPayloadV2)) in H1|].
    apply Ret_inj in H1. by injection H1 as <- <-.
  - apply Ret_inj in H1. by injection H1 as <- <-.
Qed.

(** ** Tokens *)

Context `{AL : !AeadLaws, BL : !Base64Laws}.

(** What the generator and the clock can put into a header. *)
Definition fresh_ok (random_nonce : list Z) (now_nanos : Z) : Prop :=
  length random_nonce = 12%nat /\ bytes random_nonce /\ fits 128 now_nanos.

Definition signed_header {A} `{Payload A} (random_nonce : list Z) (now_nanos : Z) (p : A) (m : ClaimManagerInner) : ClaimHeader :=
  ClaimHeader_new random_nonce now_nanos (current_kid m) ALG_AES_256_GCM (version p).

Lemma signed_header_wf {A} `{PayloadLaws A} n t (p : A) m :
  fresh_ok n t -> fits 8 (current_kid m) -> header_wf (signed_header n t p m).
Proof. intros (Hn & Hb & Ht) Hk. split; cbn; try done. apply law_version. Qed.

Lemma open_signed {A} `{PayloadLaws A} n t (p : A) m m' token :
  fresh_ok n t -> fits 8 (current_kid m) -> payload_wf p -> keys m ⊆ keys m' ->
  sign_claim n t p m = Ok token ->
  exists pb, payload_serialize p = Ok pb /\ open_token token m' = Ret (Ok (signed_header n t p m, pb)).
Proof.
  intros Hf Hk Hp Hsub Hs. pose proof (signed_header_wf n t p m Hf Hk) as Hwf. unfold sign_claim in Hs.
  fold (signed_header n t p m) in Hs. set (h := signed_header n t p m) in *.
  destruct (keys m !! current_kid m) as [key|] eqn:Ekey; [|done].
  destruct (payload_serialize p) as [pb|] eqn:Epb; [|done]. pose proof (law_bytes p pb Hp Epb) as Hpb.
  destruct (aead_encrypt _ _ _ _) as [ct|] eqn:Ect; [|done]. apply Ok_inj in Hs as <-.
  pose proof (law_ciphertext _ _ _ _ _ Ect) as [Hlen Hcb]. pose proof (length_header_to_bytes h Hwf) as Hhl.
  assert (bytes (header_to_bytes h)) as Hhb.
  { unfold header_to_bytes. destruct Hwf as [-> Hv ? ? ? [_ ?] ?]. rewrite !bytes_app.
    assert (forall x, fits 8 x -> bytes [x]) as Hone by (intros; constructor; [done|constructor]).
    split_and!; (try (by apply Hone)); [by repeat constructor|apply Hone; unfold fits; lia|done|auto with bytes]. }
  exists pb. split; [done|]. unfold open_token. rewrite law_b64 by (apply bytes_app; auto).
  rewrite length_app, Hhl, Hlen. destruct (Nat.ltb_spec (HEADER_SIZE + (length pb + TAG_SIZE)) (HEADER_SIZE + TAG_SIZE)); [lia|].
  assert (slice (header_to_bytes h ++ ct) 0 HEADER_SIZE = Ret (header_to_bytes h)) as Hsl
    by (apply (slice_app_mid [] (header_to_bytes h) ct); [done|by rewrite Hhl]).
  rewrite Hsl. red_bind.
  pose proof (header_from_to_bytes h [] Hwf) as Hpar. rewrite app_nil_r in Hpar. rewrite Hpar. red_bind.
  change (kid h) with (current_kid m). rewrite (lookup_weaken _ _ _ _ Ekey Hsub).
  rewrite slice_from_ok by (rewrite length_app; lia). red_bind. change (alg h) with ALG_AES_256_GCM. cbn [negb Z.eqb].
  rewrite <-Hhl, drop_app_length. by rewrite (law_decrypt _ _ _ _ _ Ect).
Qed.

(** Who gets in with a payload that was serialized correctly. *)
Lemma admit_iff {A} `{PayloadLaws A} now e h (p : A) pb id seg w m :
  payload_wf p -> payload_serialize p = Ok pb ->
  (exists m' a, grant_access (A := A) now e h pb id seg w m = Ret (m', Ok (a, bucket_key h))) <-> accepts now p id seg w.
Proof.
  intros Hp Hpb. unfold grant_access. pose proof (verify_accepts now pb id seg w p) as Hv.
  rewrite (law_roundtrip p pb Hp Hpb) in Hv. split.
  - intros (m' & a & Ha). apply bind_Ret in Ha as ([q|er] & Hq & Ha); [|by apply Ret_inj in Ha].
    pose proof Hq as Hq'. apply verify_accepts in Hq' as [Hd _]. rewrite (law_roundtrip p pb Hp Hpb) in Hd.
    injection Hd as ->. by apply Hv.
  - intros Hacc. destruct Hv as [_ Hv]. rewrite Hv by done. red_bind.
    destruct (get_or_create_bucket e (bucket_key h) p m) as [m' a]. by exists m', a.
Qed.

(** ** Buckets *)

Lemma find_bucket_keys e k m : buckets (find_bucket e k m).1 = buckets m /\ keys (find_bucket e k m).1 = keys m.
Proof. unfold find_bucket. by destruct (get_bucket k m). Qed.

Lemma get_or_create_binds {A} `{Payload A} e k (p : A) m m' a :
  get_or_create_bucket e k p m = (m', a) -> buckets m' !! k = Some a.
Proof.
  unfold get_or_create_bucket, find_bucket, get_bucket. destruct (buckets m !! k) eqn:E; intros [= <- <-]; cbn; [done|].
  apply lookup_insert_eq.
Qed.

Lemma get_or_create_bound {A} `{Payload A} e k (p : A) m a :
  buckets m !! k = Some a -> (get_or_create_bucket e k p m).2 = a.
Proof. intros E. unfold get_or_create_bucket, find_bucket, get_bucket. by rewrite E. Qed.

Lemma verify_claim_inv now e token id seg w m m' a k :
  verify_claim now e token id seg w m = Ret (m', Ok (a, k)) ->
  exists h pb, open_token token m = Ret (Ok (h, pb)) /\ k = bucket_key h /\
    ((version_ h = 1 /\ exists p : ClaimPayloadV1, verify now pb id seg w = Ret (Ok p) /\ get_or_create_bucket e k p m = (m', a)) \/
     (version_ h = 2 /\ exists p : ClaimPayloadV2, verify now pb id seg w = Ret (Ok p) /\ get_or_create_bucket e k p m = (m', a))).
Proof.
  intros H1. unfold verify_claim in H1. apply bind_Ret in H1 as ([[h pb]|er] & Ho & H1); [|by apply Ret_inj in H1].
  exists h, pb. split; [done|]. unfold grant_access in H1.
  destruct (Z.eqb_spec (version_ h) 1).
  - apply bind_Ret in H1 as ([p|er] & Hv & H1); [|by apply Ret_inj in H1].
    destruct (get_or_create_bucket e (bucket_key h) p m) as [m1 a1] eqn:E. apply Ret_inj in H1. injection H1 as <- <- <-.
    split; [done|]. left. split; [done|]. by exists p.
  - destruct (Z.eqb_spec (version_ h) 2); [|by apply Ret_inj in H1].
    apply bind_Ret in H1 as ([p|er] & Hv & H1); [|by apply Ret_inj in H1].
    destruct (get_or_create_bucket e (bucket_key h) p m) as [m1 a1] eqn:E. apply Ret_inj in H1. injection H1 as <- <- <-.
    split; [done|]. right. split; [done|]. by exists p.
Qed.

Lemma open_token_keys token m m' : keys m = keys m' -> open_token token m = open_token token m'.
Proof. intros E. unfold open_token. by rewrite E. Qed.

Lemma get_or_create_state {A} `{Payload A} e k (p : A) m m' a :
  get_or_create_bucket e k p m = (m', a) -> keys m' = keys m /\ buckets m' !! k = Some a.
Proof.
  intros E. split; [|by eapply get_or_create_binds].
  unfold get_or_create_bucket, find_bucket in E. destruct (get_bucket k m); by injection E as <- _.
Qed.

(** ** Properties *)

(** C3. A token that was signed grants access exactly under the restrictions of
    its payload: presented to any later state of the manager that still has the
    keys it had (rotation included), it is accepted if and only if the time, the
    asset, the segment and the width satisfy the payload.  This holds for every
    payload of version 1, and for a payload of version 2 whose filter has fewer
    than 65536 fingerprints: their number is written in 16 bits, and a larger
    filter is not read back as it was.  The values of the payload, of the header
    (a nonce of 12 bytes, 128 bits of nanoseconds) and of the key's id fit
    their fields. *)
Theorem signed_token_grants_its_payload n t m m' token now e id seg w :
  fresh_ok n t -> fits 8 (current_kid m) -> keys m ⊆ keys m' ->
  (forall p : ClaimPayloadV1, v1_wf p -> sign_claim n t p m = Ok token ->
    (exists m2 a, verify_claim now e token id seg w m' = Ret (m2, Ok (a, bucket_key (signed_header n t p m))))
    <-> accepts now p id seg w) /\
  (forall p : ClaimPayloadV2, v2_wf p -> Z.of_nat (length (fingerprints (v2_assets_filter p))) < 65536 ->
    sign_claim n t p m = Ok token ->
    (exists m2 a, verify_claim now e token id seg w m' = Ret (m2, Ok (a, bucket_key (signed_header n t p m))))
    <-> accepts now p id seg w).
Proof.
  intros Hf Hk Hsub. split.
  - intros p Hp Hs. pose proof (open_signed (A := ClaimPayloadV1) n t p m m' token Hf Hk) as Hop.
    destruct (Hop Hp Hsub Hs) as (pb & Hpb & Ho).
    unfold verify_claim. rewrite Ho. red_bind. change (version_ (signed_header n t p m)) with 1. cbn [Z.eqb Pos.eqb].
    by apply admit_iff.
  - intros p Hp Hl Hs. pose proof (open_signed (A := ClaimPayloadV2) n t p m m' token Hf Hk) as Hop.
    destruct (Hop (conj Hp Hl) Hsub Hs) as (pb & Hpb & Ho).
    unfold verify_claim. rewrite Ho. red_bind. change (version_ (signed_header n t p m)) with 2. cbn [Z.eqb Pos.eqb].
    by apply admit_iff.
Qed.

(** Every operation keeps the manager's invariant: the map only refers to
    live buckets and the signing key exists, from construction on, through key
    rotation, requests and cleanups; and keys are never lost. *)
Theorem manager_invariant :
  (forall k ks, exists m, from_keys k ks = Ret m /\ manager_ok m) /\
  (forall kid k m m', manager_ok m -> add_key kid k m = Ok m' -> manager_ok m' /\ keys m ⊆ keys m') /\
  (forall kid m m', manager_ok m -> set_current_kid kid m = Ok m' -> manager_ok m' /\ keys m' = keys m) /\
  (forall now e token id seg w m m' r, manager_ok m ->
     verify_claim now e token id seg w m = Ret (m', r) -> manager_ok m' /\ keys m' = keys m) /\
  (forall e k m, manager_ok m -> manager_ok (touch_bucket e k m)) /\
  (forall e now m, manager_ok m -> manager_ok (cleanup_expired e now m)).
Proof.
  split_and!; [apply from_keys_ok|apply add_key_ok|apply set_current_kid_ok|apply verify_claim_ok|
    intros; by apply touch_bucket_ok|intros; by apply cleanup_ok].
Qed.

(** Requests made with one token share one bucket: verified one after the
    other, whatever they ask for, they are given the same bucket. *)
Theorem same_token_same_bucket token now1 e1 id1 seg1 w1 now2 e2 id2 seg2 w2 m m1 m2 a1 a2 k1 k2 :
  verify_claim now1 e1 token id1 seg1 w1 m = Ret (m1, Ok (a1, k1)) ->
  verify_claim now2 e2 token id2 seg2 w2 m1 = Ret (m2, Ok (a2, k2)) ->
  k2 = k1 /\ a2 = a1.
Proof.
  intros (h & pb & Ho & -> & H1)%verify_claim_inv (h' & pb' & Ho' & -> & H2)%verify_claim_inv.
  assert (keys m1 = keys m /\ buckets m1 !! bucket_key h = Some a1) as [Hk Hb].
  { destruct H1 as [(_ & p & _ & E)|(_ & p & _ & E)]; by apply get_or_create_state in E. }
  rewrite (open_token_keys _ _ _ Hk), Ho in Ho'. injection Ho' as <- <-. split; [done|].
  destruct H2 as [(_ & p & _ & E)|(_ & p & _ & E)]; apply (f_equal snd) in E; cbn in E; subst a2;
    by apply get_or_create_bound.
Qed.

(** ... but two first requests that race do not: between the lookup and the
    creation the lock is released, so both miss, both create, and each gets a
    bucket of its own with the full budget; the map keeps the second. *)
Theorem racing_first_requests_get_two_buckets {A : Type} `{Payload A} e k (p : A) m :
  buckets m !! k = None ->
  let '(m1, r1) := find_bucket e k m in
  let '(m2, r2) := find_bucket e k m1 in
  let '(m3, a1) := create_bucket e k p m2 in
  let '(m4, a2) := create_bucket e k p m3 in
  r1 = None /\ r2 = None /\ a1 <> a2 /\ heap m4 !! a1 = heap m4 !! a2 /\ is_Some (heap m4 !! a1) /\
  buckets m4 !! k = Some a2.
Proof.
  intros Hk. unfold find_bucket, get_bucket. rewrite Hk. cbn -[ClaimBucket_new]. rewrite Hk. rewrite length_app. cbn -[ClaimBucket_new].
  split_and!; [done|done|lia| | |apply lookup_insert_eq].
  - rewrite (lookup_app_l (heap m ++ _)) by (rewrite length_app; cbn; lia).
    rewrite lookup_app_r by lia. rewrite Nat.sub_diag. symmetry. by apply list_lookup_middle; rewrite length_app.
  - rewrite (lookup_app_l (heap m ++ _)) by (rewrite length_app; cbn; lia).
    rewrite lookup_app_r, Nat.sub_diag by lia. by eexists.
Qed.

(** The cleanup of idle buckets never happens.  The idle time is computed from
    [Instant::now().elapsed()], the time between two consecutive readings of the
    clock: unless ten minutes pass between those, the cleanup removes exactly
    the buckets whose claim has expired, however long they have been unused. *)
Theorem idle_buckets_are_never_removed e now m k a :
  0 <= e <= 600000 -> manager_ok m -> Forall (fun b => 0 <= last_access b) (heap m) ->
  buckets (cleanup_expired e now m) !! k = Some a <->
  buckets m !! k = Some a /\ exists b, heap m !! a = Some b /\ wrap 32 now <= b_exp_unix b.
Proof.
  intros He [Hb _] Hla. cbn [cleanup_expired buckets]. rewrite map_lookup_filter_Some. cbn [snd].
  split; intros [Hka H1]; (split; [done|]).
  - destruct (lookup_lt_is_Some_2 (heap m) a (Hb _ _ Hka)) as [b Hba]. exists b. split; [done|].
    unfold keeps, is_expired in H1. rewrite Hba in H1. destruct (Z.ltb_spec (b_exp_unix b) (wrap 32 now)); [done|lia].
  - destruct H1 as (b & Hba & Hexp). assert (0 <= last_access b) by (by eapply Forall_lookup_1 in Hla).
    unfold keeps, is_expired, is_idle. rewrite Hba. destruct (Z.ltb_spec (b_exp_unix b) (wrap 32 now)); [lia|].
    destruct (Z.ltb_spec 600000 (saturating_sub e (last_access b))); [unfold saturating_sub in *; lia|done].
Qed.

(** The bucket a first request creates, and why a later cleanup removes it. *)
Lemma created_then_removed {A} `{Payload A} e1 k (p : A) m m1 a e now :
  0 <= e1 -> 0 <= e <= 600000 -> buckets m !! k = None -> get_or_create_bucket e1 k p m = (m1, a) ->
  buckets (cleanup_expired e now m1) !! k = None -> exp_unix p < wrap 32 now.
Proof.
  intros He1 He Hk E Hrem. unfold get_or_create_bucket, find_bucket, get_bucket in E. rewrite Hk in E.
  unfold create_bucket in E. injection E as <- <-. cbn [cleanup_expired buckets] in Hrem.
  apply map_lookup_filter_None in Hrem as [Hrem|Hrem]; [by rewrite lookup_insert_eq in Hrem|].
  specialize (Hrem (length (heap m)) (lookup_insert_eq _ _ _)). cbn [snd] in Hrem. unfold keeps in Hrem. cbn [heap] in Hrem.
  rewrite lookup_app_r, Nat.sub_diag in Hrem by lia. cbn [lookup list_lookup] in Hrem.
  unfold is_expired, is_idle in Hrem. cbn [b_exp_unix last_access ClaimBucket_new] in Hrem.
  destruct (Z.ltb_spec (exp_unix p) (wrap 32 now)); [done|].
  destruct (Z.ltb_spec 600000 (saturating_sub e e1)); [unfold saturating_sub in *; lia|done].
Qed.

Lemma verify_time {A} `{Payload A} now pb id seg w (p : A) now' id' seg' w' (p' : A) :
  verify now pb id seg w = Ret (Ok p) -> verify now' pb id' seg' w' = Ret (Ok p') -> p' = p /\ wrap 32 now' < exp_unix p.
Proof.
  intros [Hd _]%verify_accepts [Hd' [[_ Hl] _]]%verify_accepts. rewrite Hd in Hd'. injection Hd' as <-. done.
Qed.

(** The cleanup never gives a live token a fresh budget: once it has removed
    the bucket that a token's first request created, the token is refused from
    then on, so its rate and connection limits are never reset while it is
    valid. *)
Theorem cleanup_only_drops_dead_tokens token now1 e1 id1 seg1 w1 m m1 a k e now2 now3 e3 id3 seg3 w3 m3 r :
  0 <= e1 -> 0 <= e <= 600000 -> buckets m !! k = None ->
  verify_claim now1 e1 token id1 seg1 w1 m = Ret (m1, Ok (a, k)) ->
  buckets (cleanup_expired e now2 m1) !! k = None ->
  wrap 32 now2 <= wrap 32 now3 ->
  verify_claim now3 e3 token id3 seg3 w3 (cleanup_expired e now2 m1) <> Ret (m3, Ok r).
Proof.
  intros He1 He Hk H1 Hrem Hnow H3. destruct r as [a3 k3].
  pose proof H1 as (h & pb & Ho & -> & Hv1)%verify_claim_inv.
  pose proof H3 as (h' & pb' & Ho' & -> & Hv3)%verify_claim_inv.
  assert (keys (cleanup_expired e now2 m1) = keys m) as Hkeys.
  { cbn. by destruct Hv1 as [(_ & p & _ & E)|(_ & p & _ & E)]; apply get_or_create_state in E as [-> _]. }
  rewrite (open_token_keys _ _ _ Hkeys), Ho in Ho'. injection Ho' as <- <-.
  destruct Hv1 as [(V1 & p & Hp & E)|(V1 & p & Hp & E)], Hv3 as [(V3 & p' & Hp' & _)|(V3 & p' & Hp' & _)];
    try congruence; pose proof (created_then_removed _ _ _ _ _ _ _ _ He1 He Hk E Hrem);
    destruct (verify_time _ _ _ _ _ _ _ _ _ _ _ Hp Hp') as [_ Hexp]; lia.
Qed.

End Spec.

(** ** Concrete runs

    The identity cipher, with a tag of zeros, and raw bytes for base64 satisfy
    the laws. *)
Definition plain_aead : Aead := {|
  aead_encrypt key nonce msg aad := Some (msg ++ replicate TAG_SIZE 0);
  aead_decrypt key nonce ct aad := Some (take (length ct - TAG_SIZE) ct)
|}.

#[export] Instance plain_aead_laws : @AeadLaws plain_aead.
Proof.
  split; cbn [aead_encrypt aead_decrypt plain_aead]; intros key nonce msg aad ct <-%(inj Some).
  - rewrite length_app, length_replicate, Nat.add_sub. by rewrite take_app_length.
  - rewrite length_app, length_replicate. split; [done|]. intros Hm. apply bytes_app. split; [done|].
    by apply Forall_replicate.
Defined.

Definition plain_base64 : Base64 := {| b64_encode := of_bytes; b64_decode s := Some (as_bytes s) |}.

#[export] Instance plain_base64_laws : @Base64Laws plain_base64.
Proof. split. intros bs Hb. cbn. by rewrite as_of_bytes. Defined.

Definition example_key : list Z := repeat 9 32.
Definition example_nonce : list Z := repeat 5 12.

Section Examples.
  #[local] Existing Instance dev_profile.
  #[local] Existing Instance counter_semaphore.
  #[local] Existing Instance plain_aead.
  #[local] Existing Instance plain_base64.

Definition example_manager : ClaimManagerInner := with_key 3 example_key.

Definition example_token : string :=
  match sign_claim example_nonce 1700000000000000000 example_v1 example_manager with
  | Ok t => t
  | Err _ => ""%string
  end.

Lemma example_sign : sign_claim example_nonce 1700000000000000000 example_v1 example_manager = Ok example_token.
Proof. vm_compute. reflexivity. Qed.

(** The manager after a rotation: another key is added and signs from now on. *)
Definition example_rotated : ClaimManagerInner :=
  match add_key 4 (repeat 7 32) example_manager with
  | Ok m => match set_current_kid 4 m with Ok m => m | Err _ => example_manager end
  | Err _ => example_manager
  end.

Lemma example_rotated_keys : keys example_manager ⊆ keys example_rotated /\ current_kid example_rotated = 4.
Proof. split; [|reflexivity]. by apply insert_subseteq. Defined.

(** A list of two assets in a token of version 2. *)
Definition example_listed_filter : BinaryFuse16 :=
  Eval vm_compute in
    match @try_from_strings dev_profile libm_example example_random ["video1"; "test123"]%string with
    | Ret (Ok f) => f
    | _ => example_filter
    end.

Definition example_listed : ClaimPayloadV2 :=
  {| v2_exp_unix := 2000000000; v2_nbf_unix := 1700000000; v2_assets_filter := example_listed_filter;
     v2_window_len_sec := 0; v2_max_kbps := 4000; v2_max_concurrency := 3; v2_allowed_widths := [1280] |}.

Lemma example_listed_wf : v2_wf example_listed.
Proof. split; try done; [|by repeat constructor]. split; try done. by repeat constructor. Defined.

Definition example_listed_token : string :=
  match sign_claim example_nonce 1700000000000000000 example_listed example_manager with
  | Ok t => t
  | Err _ => ""%string
  end.

Lemma example_listed_sign :
  sign_claim example_nonce 1700000000000000000 example_listed example_manager = Ok example_listed_token.
Proof. vm_compute. reflexivity. Qed.

Lemma signed_token_grants_its_payload_witness :
  ((exists m2 a, verify_claim 1800000000 0 example_token "test123" (Some 45) (Some 1280) example_rotated
     = Ret (m2, Ok (a, bucket_key (signed_header example_nonce 1700000000000000000 example_v1 example_manager))))
   <-> accepts 1800000000 example_v1 "test123" (Some 45) (Some 1280)) /\
  ((exists m2 a, verify_claim 1800000000 0 example_listed_token "video1" (Some 45) (Some 1280) example_rotated
     = Ret (m2, Ok (a, bucket_key (signed_header example_nonce 1700000000000000000 example_listed example_manager))))
   <-> accepts 1800000000 example_listed "video1" (Some 45) (Some 1280)).
Proof.
  assert (fresh_ok example_nonce 1700000000000000000) as Hf by (split; [reflexivity|]; split; [by repeat constructor|done]).
  split.
  - apply (signed_token_grants_its_payload example_nonce 1700000000000000000 example_manager example_rotated
      example_token 1800000000 0 "test123" (Some 45) (Some 1280)
      Hf ltac:(done) (proj1 example_rotated_keys)); [exact example_v1_wf|exact example_sign].
  - apply (signed_token_grants_its_payload example_nonce 1700000000000000000 example_manager example_rotated
      example_listed_token 1800000000 0 "video1" (Some 45) (Some 1280)
      Hf ltac:(done) (proj1 example_rotated_keys));
      [exact example_listed_wf|vm_compute; reflexivity|exact example_listed_sign].
Defined.

Definition two_requests : bool :=
  match verify_claim 1800000000 0 example_token "test123" (Some 45) (Some 1280) example_manager with
  | Ret (m1, Ok _) =>
    match verify_claim 1800000001 0 example_token "test123" None None m1 with Ret (m2, Ok _) => true | _ => false end
  | _ => false
  end.

Lemma example_two_requests : two_requests = true.
Proof. vm_compute. reflexivity. Qed.

Definition request_then_cleanup : bool :=
  match verify_claim 1800000000 0 example_token "test123" None None example_manager with
  | Ret (m1, Ok (a, k)) =>
    bool_decide (buckets example_manager !! k = None) && bool_decide (buckets (cleanup_expired 0 2000000001 m1) !! k = None)
  | _ => false
  end.

Lemma example_request_then_cleanup : request_then_cleanup = true.
Proof. vm_compute. reflexivity. Qed.

Lemma same_token_same_bucket_witness :
  exists m1 a1 k1 m2 a2 k2,
    verify_claim 1800000000 0 example_token "test123" (Some 45) (Some 1280) example_manager = Ret (m1, Ok (a1, k1)) /\
    verify_claim 1800000001 0 example_token "test123" None None m1 = Ret (m2, Ok (a2, k2)) /\ k2 = k1 /\ a2 = a1.
Proof.
  pose proof example_two_requests as H1. unfold two_requests in H1.
  destruct (verify_claim 1800000000 0 example_token "test123" (Some 45) (Some 1280) example_manager)
    as [[m1 [[a1 k1]|]]| |] eqn:E1; try discriminate H1.
  destruct (verify_claim 1800000001 0 example_token "test123" None None m1)
    as [[m2 [[a2 k2]|]]| |] eqn:E2; try discriminate H1. clear H1.
  exists m1, a1, k1, m2, a2, k2. split; [reflexivity|]. split; [exact E2|].
  exact (same_token_same_bucket _ _ _ _ _ _ _ _ _ _ _ _ _ _ _ _ _ _ E1 E2).
Defined.

Lemma racing_first_requests_get_two_buckets_witness :
  let '(m1, r1) := find_bucket 0 [1] example_manager in
  let '(m2, r2) := find_bucket 0 [1] m1 in
  let '(m3, a1) := create_bucket 0 [1] example_v1 m2 in
  let '(m4, a2) := create_bucket 0 [1] example_v1 m3 in
  r1 = None /\ r2 = None /\ a1 <> a2 /\ heap m4 !! a1 = heap m4 !! a2 /\ is_Some (heap m4 !! a1) /\
  buckets m4 !! [1] = Some a2.
Proof. exact (racing_first_requests_get_two_buckets 0 [1] example_v1 example_manager eq_refl). Defined.

Definition example_bucketed : ClaimManagerInner :=
  {| buckets := {[ [1] := 0%nat ]}; keys := {[ 3 := example_key ]}; current_kid := 3;
     heap := [ClaimBucket_new 0 (S754_zero false) 2000000000 0 2] |}.

Lemma example_bucketed_ok : manager_ok example_bucketed.
Proof.
  split; cbn; [|by eexists]. intros k a [_ <-]%lookup_singleton_Some. cbn. lia.
Qed.

Lemma idle_buckets_are_never_removed_witness :
  buckets (cleanup_expired 1 1999999999 example_bucketed) !! [1] = Some 0%nat <->
  buckets example_bucketed !! [1] = Some 0%nat /\
  exists b, heap example_bucketed !! 0%nat = Some b /\ wrap 32 1999999999 <= b_exp_unix b.
Proof.
  apply (idle_buckets_are_never_removed 1 1999999999 example_bucketed [1] 0);
    [lia|exact example_bucketed_ok|by repeat constructor].
Defined.

Lemma cleanup_only_drops_dead_tokens_witness :
  exists m1 a k, verify_claim 1800000000 0 example_token "test123" None None example_manager = Ret (m1, Ok (a, k)) /\
    forall m3 r, verify_claim 2000000002 0 example_token "test123" None None (cleanup_expired 0 2000000001 m1) <> Ret (m3, Ok r).
Proof.
  pose proof example_request_then_cleanup as H1. unfold request_then_cleanup in H1.
  destruct (verify_claim 1800000000 0 example_token "test123" None None example_manager)
    as [[m1 [[a k]|]]| |] eqn:E1; try discriminate H1.
  apply andb_true_iff in H1 as [E2%bool_decide_eq_true E3%bool_decide_eq_true].
  exists m1, a, k. split; [reflexivity|]. intros m3 r.
  apply (cleanup_only_drops_dead_tokens example_token 1800000000 0 "test123" None None example_manager m1 a k);
    [lia|lia|exact E2|exact E1|exact E3|vm_compute; discriminate].
Defined.

End Examples.
