(* ===== verification/Middleware.v ===== *)
(** * Authorization of requests ([crates/claim/src/middleware.rs]). *)

From stdpp Require Import base list strings gmap.
From Stdlib Require Import ZArith Lia Ascii.
From S2P Require Import Prelude RustInt RustStr Float64 Claim Bucket Manager.

Local Open Scope Z_scope.
Local Open Scope string_scope.

(** ** File names *)

(** Removes the codec suffix from an asset id if present. *)
Definition remove_codec_suffix (asset_id : string) : string :=
  match strip_suffix "-h265" asset_id with
  | Some s => s
  | None => match strip_suffix "-h264" asset_id with Some s => s | None => asset_id end
  end.

(** The file and the width a path stands for: [file], [width/file] (or
    [bucket/file]) and [bucket/width/file]. *)
Definition path_parts (filename : string) : option (string * option Z) :=
  match split "/"%char filename with
  | [file] => Some (file, None)
  | [first; file] => Some (file, parse_uint 16 first)
  | [_; width; file] => Some (file, parse_uint 16 width)
  | _ => None
  end.

Definition parse_video_filename (filename : string) : option (string * option Z * option Z) :=
  match path_parts filename with
  | None => None
  | Some (file_part, width) =>
    if ends_with ".m3u8" file_part then
      Some (remove_codec_suffix (trim_end_matches ".m3u8" file_part), None, width)
    else if ends_with "-init.mp4" file_part then
      Some (remove_codec_suffix (trim_end_matches "-init.mp4" file_part), Some 0, width)
    else if contains_char "-"%char file_part && ends_with ".m4s" file_part then
      match rsplitn2 "-"%char (trim_end_matches ".m4s" file_part) with
      | [num; rest] =>
        match parse_uint 32 num with
        | Some segment_num => Some (remove_codec_suffix rest, Some segment_num, width)
        | None => None
        end
      | _ => None
      end
    else None
  end.

(** ** Responses *)

Record response := {
  status : Z;
  message : string
}.

Definition BAD_REQUEST : Z := 400.
Definition TOO_MANY_REQUESTS : Z := 429.

Definition err_response (status : Z) (message : string) : response := {| status := status; message := message |}.

(** [ClaimError]'s [Display]. *)
Definition claim_error_message (e : ClaimError) : string :=
  match e with
  | InvalidToken => "Invalid token format"
  | UnsupportedVersion v => "Unsupported claim version " ++ dec v
  | TokenExpired => "Token has expired"
  | TokenNotYetValid => "Token is not yet valid"
  | AeadFail => "AEAD decryption failed"
  | AssetMismatch => "Asset ID mismatch"
  | TimeWindowDeny => "Time window exceeded"
  | KeyNotFound k => "Key not found: " ++ dec k
  | InvalidHeader m => "Invalid header: " ++ m
  | InvalidPayload m => "Invalid payload: " ++ m
  end%string.

(** ** The middleware *)

Section Middleware.
  Context `{P : Profile, Sm : Semaphore, Ae : Aead, Bs : Base64}.

(** The token of an [Authorization: Bearer ...] header. *)
Definition bearer_token (authorization : option string) : option string :=
  match authorization with
  | Some header => if starts_with "Bearer " header then Some (sdrop 7 header) else None
  | None => None
  end.

(** [next] is the rest of the request's handling; it receives the address of the
    bucket that the middleware attaches to the request.  The permit is dropped
    when [next] has returned. *)
Definition claim_auth_middleware (now_secs elapsed_ms : Z) (authorization : option string) (filename : string)
    (next : nat -> ClaimManagerInner -> outcome (ClaimManagerInner * response)) (m : ClaimManagerInner)
    : outcome (ClaimManagerInner * response) :=
  match bearer_token authorization with
  | None => Ret (m, err_response UNAUTHORIZED "Missing or invalid Authorization header")
  | Some token =>
    match parse_video_filename filename with
    | None => Ret (m, err_response BAD_REQUEST "Invalid filename format")
    | Some (asset_id, segment_index, width) =>
      '(m, r) ← verify_claim now_secs elapsed_ms token asset_id segment_index width m;
      match r with
      | Err err => Ret (m, err_response (to_err_code err) (claim_error_message err))
      | Ok (a, key) =>
        b ← index (heap m) a;
        match try_acquire_connection b with
        | (_, Err _) => Ret (m, err_response TOO_MANY_REQUESTS "Too many concurrent connections")
        | (b, Ok guard) =>
          let m := update_heap (fun _ => b) a m in
          let m := touch_bucket elapsed_ms key m in
          '(m, resp) ← next a m;
          Ret (if guard then update_heap release_connection a m else m, resp)
        end
      end
    end
  end.

End Middleware.
