(* ===== verification/StreamMap.v ===== *)
(** * The keyed task queue ([crates/core/src/stream_map.rs]).

    At most one future per index is being polled; the others wait in a queue of
    that index.  [tokio_stream::StreamMap], which polls the futures, is an
    interface with the laws that its documentation states. *)

From stdpp Require Import base list option gmap.
From S2P Require Import Prelude.

Inductive Poll (A : Type) : Type :=
  | Ready (a : A)
  | Pending.

Arguments Ready {A} a.
Arguments Pending {A}.

(** [tokio_stream::StreamMap] over one-shot streams made of futures [Fut] with
    results in [R].  A [ctx] is what one poll meets: which futures have made
    enough progress. *)
Class TokioStreamMap (Index Fut R : Type) := {
  tmap : Type;
  ctx : Type;
  t_default : tmap;
  t_contains_key : Index -> tmap -> bool;
  t_insert : Index -> Fut -> tmap -> tmap;
  t_remove : Index -> tmap -> tmap;
  t_is_empty : tmap -> bool;
  t_poll_next : ctx -> tmap -> tmap * Poll (option (Index * R))
}.

(** The contract: the map holds the streams inserted under their keys; a poll
    yields a result of one of them, or ends when there is none. *)
Class TokioStreamMapLaws (Index Fut R : Type) `{Countable Index} `{!TokioStreamMap Index Fut R} := {
  streams : tmap -> gmap Index Fut;
  completes : Fut -> R -> Prop;
  law_default : streams t_default = ∅;
  law_contains_key i t : t_contains_key i t = bool_decide (is_Some (streams t !! i));
  law_insert i f t : streams (t_insert i f t) = <[i := f]> (streams t);
  law_remove i t : streams (t_remove i t) = delete i (streams t);
  law_is_empty t : t_is_empty t = bool_decide (streams t = ∅);
  law_poll_keeps c t : streams (fst (t_poll_next c t)) = streams t;
  law_poll_item c t t' i r :
    t_poll_next c t = (t', Ready (Some (i, r))) -> exists f, streams t !! i = Some f /\ completes f r;
  law_poll_end c t t' : t_poll_next c t = (t', Ready None) -> streams t = ∅
}.

Section StreamMap.
  Context {Index Fut R : Type} `{Countable Index} `{!TokioStreamMap Index Fut R}.

Record StreamMap := {
  in_progress : tmap;
  queue : gmap Index (list Fut)
}.

Definition StreamMap_default : StreamMap := {| in_progress := t_default; queue := ∅ |}.

Definition push (index : Index) (fut : Fut) (m : StreamMap) : StreamMap :=
  if t_contains_key index (in_progress m) then
    {| in_progress := in_progress m;
       queue := <[index := default [] (queue m !! index) ++ [fut]]> (queue m) |}
  else
    {| in_progress := t_insert index fut (in_progress m); queue := queue m |}.

Definition add_if_not_in_progress (index : Index) (fut : Fut) (m : StreamMap) : StreamMap * bool :=
  if t_contains_key index (in_progress m) then (m, false)
  else ({| in_progress := t_insert index fut (in_progress m); queue := queue m |}, true).

Definition process_queue (index : Index) (m : StreamMap) : StreamMap :=
  match queue m !! index with
  | None => m
  | Some task_queue =>
    let '(ip, task_queue) :=
      match task_queue with
      | fut :: task_queue => (t_insert index fut (in_progress m), task_queue)
      | [] => (in_progress m, [])
      end in
    {| in_progress := ip;
       queue := match task_queue with
                | [] => delete index (queue m)
                | _ => <[index := task_queue]> (queue m)
                end |}
  end.

(** [Panic] is the failed [assert!(self.queue.is_empty())]. *)
Definition poll_next_entry (cx : ctx) (m : StreamMap) : outcome (StreamMap * Poll (option (Index * R))) :=
  let '(ip, p) := t_poll_next cx (in_progress m) in
  let m := {| in_progress := ip; queue := queue m |} in
  match p with
  | Pending => Ret (m, Pending)
  | Ready (Some (index, res)) =>
    let m := {| in_progress := t_remove index (in_progress m); queue := queue m |} in
    Ret (process_queue index m, Ready (Some (index, res)))
  | Ready None =>
    if decide (queue m = ∅) then Ret (m, Ready None) else Panic
  end.

Definition is_terminated (m : StreamMap) : bool :=
  t_is_empty (in_progress m) && bool_decide (queue m = ∅).

(** ** Abstract view: a first-in first-out queue of futures per index *)
Context `{!TokioStreamMapLaws Index Fut R}.

Definition waiting (m : StreamMap) (i : Index) : list Fut :=
  match streams (in_progress m) !! i with Some f => [f] | None => [] end ++ default [] (queue m !! i).

(** A queue exists only behind a future in progress, and is never empty. *)
Definition stream_map_wf (m : StreamMap) : Prop :=
  forall i q, queue m !! i = Some q -> q <> [] /\ is_Some (streams (in_progress m) !! i).

Lemma queue_empty_wf m : stream_map_wf m -> streams (in_progress m) = ∅ -> queue m = ∅.
Proof.
  intros Hwf He. apply map_empty. intros i. destruct (queue m !! i) as [q|] eqn:E; [|done].
  destruct (Hwf i q E) as [_ [f Hf]]. rewrite He, lookup_empty in Hf. done.
Qed.

Lemma StreamMap_default_wf : stream_map_wf StreamMap_default.
Proof. intros i q. simpl. by rewrite lookup_empty. Qed.

Lemma StreamMap_default_waiting i : waiting StreamMap_default i = [].
Proof. unfold waiting, StreamMap_default. simpl. by rewrite law_default, !lookup_empty. Qed.

Lemma not_in_progress_waiting m i :
  stream_map_wf m -> streams (in_progress m) !! i = None -> queue m !! i = None.
Proof.
  intros Hwf Hn. destruct (queue m !! i) as [q|] eqn:E; [|done].
  destruct (Hwf i q E) as [_ [f Hf]]. congruence.
Qed.

Lemma in_progress_waiting m i :
  stream_map_wf m -> t_contains_key i (in_progress m) = negb (bool_decide (waiting m i = [])).
Proof.
  intros Hwf. rewrite law_contains_key. unfold waiting.
  destruct (streams (in_progress m) !! i) as [f|] eqn:E.
  - rewrite bool_decide_true by eauto. by rewrite bool_decide_false.
  - rewrite (not_in_progress_waiting m i Hwf E), bool_decide_false by (intros [? [=]]).
    by rewrite bool_decide_true.
Qed.

(** A new future goes behind the futures of its index. *)
Lemma push_spec i f m :
  stream_map_wf m ->
  stream_map_wf (push i f m) /\
  forall j, waiting (push i f m) j = if decide (j = i) then waiting m i ++ [f] else waiting m j.
Proof.
  intros Hwf. unfold push. rewrite law_contains_key. case_bool_decide as Hin.
  - destruct Hin as [g Hg]. split.
    + intros j q. simpl. intros [[-> <-]|[Hj Hq]]%lookup_insert_Some.
      * split; [by destruct (default [] (queue m !! j))|by eexists].
      * by apply Hwf.
    + intros j. unfold waiting. simpl. destruct (decide (j = i)) as [->|Hj].
      * by rewrite lookup_insert_eq, Hg.
      * by rewrite lookup_insert_ne.
  - apply eq_None_not_Some in Hin.
    pose proof (not_in_progress_waiting m i Hwf Hin) as Hq. split.
    + intros j q. simpl. rewrite law_insert. intros Hjq.
      destruct (Hwf j q Hjq) as [Hne [g Hg]]. split; [done|].
      exists g. rewrite lookup_insert_ne; [done|]. intros ->. congruence.
    + intros j. unfold waiting. simpl. rewrite law_insert. destruct (decide (j = i)) as [->|Hj].
      * by rewrite lookup_insert_eq, Hin, Hq.
      * by rewrite lookup_insert_ne.
Qed.

(** A future is accepted exactly when its index is idle. *)
Lemma add_if_not_in_progress_spec i f m :
  stream_map_wf m ->
  add_if_not_in_progress i f m =
    (if bool_decide (waiting m i = []) then push i f m else m, bool_decide (waiting m i = [])).
Proof.
  intros Hwf. unfold add_if_not_in_progress, push. rewrite in_progress_waiting by done.
  by case_bool_decide.
Qed.

(** Completing the front future of [i] starts the next one. *)
Lemma finish_spec i f m :
  stream_map_wf m -> streams (in_progress m) !! i = Some f ->
  let m' := process_queue i {| in_progress := t_remove i (in_progress m); queue := queue m |} in
  stream_map_wf m' /\ waiting m i = f :: waiting m' i /\ forall j, j <> i -> waiting m' j = waiting m j.
Proof.
  intros Hwf Hf m'. subst m'. unfold process_queue. cbn [queue in_progress].
  destruct (queue m !! i) as [q|] eqn:Eq.
  - destruct q as [|g q]; [by destruct (Hwf i _ Eq)|]. split; [|split].
    + intros j q'. cbn [in_progress queue]. rewrite law_insert, law_remove.
      destruct (decide (j = i)) as [->|Hne].
      * rewrite lookup_insert_eq. destruct q as [|h q]; [by rewrite lookup_delete_eq|].
        rewrite lookup_insert_eq. intros [= <-]. eauto.
      * rewrite lookup_insert_ne, lookup_delete_ne by done.
        destruct q; [rewrite lookup_delete_ne by done|rewrite lookup_insert_ne by done]; apply Hwf.
    + unfold waiting. cbn [in_progress queue]. rewrite Hf, Eq, law_insert, lookup_insert_eq. simpl.
      do 2 f_equal. destruct q; [by rewrite lookup_delete_eq|by rewrite lookup_insert_eq].
    + intros j Hj. unfold waiting. cbn [in_progress queue].
      rewrite law_insert, law_remove, lookup_insert_ne, lookup_delete_ne by done.
      destruct q; [by rewrite lookup_delete_ne|by rewrite lookup_insert_ne].
  - split; [|split].
    + intros j q'. cbn [in_progress queue]. destruct (decide (j = i)) as [->|Hne]; [congruence|].
      rewrite law_remove, lookup_delete_ne by done. apply Hwf.
    + unfold waiting. cbn [in_progress queue]. by rewrite Hf, Eq, law_remove, lookup_delete_eq.
    + intros j Hj. unfold waiting. cbn [in_progress queue]. by rewrite law_remove, lookup_delete_ne.
Qed.

(** What one poll does to the queues. *)
Lemma poll_next_entry_spec cx m :
  stream_map_wf m ->
  exists m' p, poll_next_entry cx m = Ret (m', p) /\ stream_map_wf m' /\
    match p with
    | Pending => forall j, waiting m' j = waiting m j
    | Ready (Some (i, r)) =>
        exists f, completes f r /\ waiting m i = f :: waiting m' i /\ forall j, j <> i -> waiting m' j = waiting m j
    | Ready None => is_terminated m' = true /\ forall j, waiting m j = [] /\ waiting m' j = []
    end.
Proof.
  intros Hwf. unfold poll_next_entry.
  destruct (t_poll_next cx (in_progress m)) as [ip p] eqn:Ep.
  pose proof (law_poll_keeps cx (in_progress m)) as Hk. rewrite Ep in Hk. cbn [fst] in Hk.
  assert (stream_map_wf {| in_progress := ip; queue := queue m |}) as Hwf'.
  { intros i q. cbn [queue in_progress]. rewrite Hk. apply Hwf. }
  destruct p as [[[i r]|]|].
  - destruct (law_poll_item _ _ _ _ _ Ep) as (f & Hf & Hr). cbn [in_progress queue].
    pose proof (finish_spec i f {| in_progress := ip; queue := queue m |} Hwf') as Hfin.
    cbn [in_progress queue] in Hfin. rewrite Hk in Hfin. specialize (Hfin Hf) as (Hw & Hi & Hj).
    eexists _, _. split; [reflexivity|]. split; [exact Hw|]. exists f. split; [done|].
    unfold waiting in Hi, Hj |- *. cbn [in_progress queue] in Hi, Hj |- *. rewrite Hk in Hi, Hj. done.
  - pose proof (law_poll_end _ _ _ Ep) as He. cbn [queue].
    rewrite decide_True by (by apply queue_empty_wf). eexists _, _. split; [reflexivity|].
    split; [exact Hwf'|]. pose proof (queue_empty_wf m Hwf He) as Hq. split.
    + unfold is_terminated. cbn [in_progress queue]. rewrite law_is_empty, Hk, He, Hq.
      by rewrite !bool_decide_true.
    + intros j. unfold waiting. cbn [in_progress queue]. by rewrite Hk, He, Hq, !lookup_empty.
  - eexists _, _. split; [reflexivity|]. split; [exact Hwf'|].
    intros j. unfold waiting. cbn [in_progress queue]. by rewrite Hk.
Qed.

Lemma is_terminated_spec m :
  stream_map_wf m -> is_terminated m = true <-> forall i, waiting m i = [].
Proof.
  intros Hwf. unfold is_terminated. rewrite law_is_empty, andb_true_iff, !bool_decide_eq_true. split.
  - intros [Hs Hq] i. unfold waiting. by rewrite Hs, Hq, !lookup_empty.
  - intros Hw. assert (streams (in_progress m) = ∅) as Hs.
    { apply map_empty. intros i. specialize (Hw i). unfold waiting in Hw.
      destruct (streams (in_progress m) !! i); [done|reflexivity]. }
    split; [done|]. by apply queue_empty_wf.
Qed.

(** ** Sequences of operations *)
Inductive smop :=
  | Push (i : Index) (f : Fut)
  | AddIfIdle (i : Index) (f : Fut)
  | PollNext (c : ctx).

(** The state, the accepted futures and the results, in order. *)
Record sm_run := {
  r_map : StreamMap;
  r_accepted : list (Index * Fut);
  r_results : list (Index * R)
}.

Definition sm_step (s : sm_run) (o : smop) : outcome sm_run :=
  match o with
  | Push i f => Ret {| r_map := push i f (r_map s); r_accepted := r_accepted s ++ [(i, f)]; r_results := r_results s |}
  | AddIfIdle i f =>
    let '(m, b) := add_if_not_in_progress i f (r_map s) in
    Ret {| r_map := m; r_accepted := if b then r_accepted s ++ [(i, f)] else r_accepted s; r_results := r_results s |}
  | PollNext c =>
    '(m, p) ← poll_next_entry c (r_map s);
    Ret {| r_map := m; r_accepted := r_accepted s;
           r_results := match p with Ready (Some x) => r_results s ++ [x] | _ => r_results s end |}
  end.

Definition sm_start : sm_run := {| r_map := StreamMap_default; r_accepted := []; r_results := [] |}.

Definition of_index {A : Type} (i : Index) (l : list (Index * A)) : list A :=
  snd <$> filter (fun x => fst x = i) l.

Lemma of_index_snoc {A : Type} i (l : list (Index * A)) j x :
  of_index i (l ++ [(j, x)]) = of_index i l ++ (if decide (j = i) then [x] else []).
Proof.
  unfold of_index. rewrite filter_app, fmap_app. f_equal.
  rewrite filter_cons. simpl. by destruct (decide (j = i)).
Qed.

(** The futures of an index are, in the order in which they were accepted,
    those whose results came out and those that still wait. *)
Definition sm_fifo (s : sm_run) : Prop :=
  stream_map_wf (r_map s) /\
  forall i, exists finished, of_index i (r_accepted s) = finished ++ waiting (r_map s) i /\
                        Forall2 completes finished (of_index i (r_results s)).

Lemma sm_fifo_start : sm_fifo sm_start.
Proof.
  split; [apply StreamMap_default_wf|]. intros i. exists []. simpl.
  by rewrite StreamMap_default_waiting.
Qed.

Lemma sm_fifo_push i f s :
  sm_fifo s ->
  sm_fifo {| r_map := push i f (r_map s); r_accepted := r_accepted s ++ [(i, f)]; r_results := r_results s |}.
Proof.
  intros [Hwf Hi]. destruct (push_spec i f _ Hwf) as [Hwf' Hw]. split; [done|].
  intros j. destruct (Hi j) as (fin & Hacc & Hres). exists fin. cbn [r_accepted r_map r_results].
  rewrite of_index_snoc, Hw, Hacc. split; [|done]. destruct (decide (i = j)) as [->|Hne].
  - by rewrite decide_True, app_assoc.
  - by rewrite app_nil_r, decide_False.
Qed.

Lemma sm_fifo_step o s : sm_fifo s -> exists s', sm_step s o = Ret s' /\ sm_fifo s'.
Proof.
  intros Hs. destruct Hs as [Hwf Hi] eqn:E. clear E. destruct o as [i f|i f|c]; simpl.
  - eexists. split; [reflexivity|]. by apply sm_fifo_push.
  - rewrite add_if_not_in_progress_spec by done. case_bool_decide; eexists; (split; [reflexivity|]).
    + by apply sm_fifo_push.
    + by destruct s.
  - destruct (poll_next_entry_spec c _ Hwf) as (m' & p & -> & Hwf' & Hp). simpl. eexists. split; [reflexivity|].
    split; [done|]. intros j. cbn [r_accepted r_map r_results]. destruct (Hi j) as (fin & Hacc & Hres).
    destruct p as [[[i r]|]|].
    + destruct Hp as (f & Hc & Hf & Hne). rewrite of_index_snoc. case_decide as Hij.
      * subst. exists (fin ++ [f]). rewrite Hacc, Hf, <-app_assoc. split; [done|].
        apply Forall2_app; [done|]. by repeat constructor.
      * exists fin. rewrite app_nil_r, Hne by done. done.
    + exists fin. destruct Hp as [_ Hp]. destruct (Hp j) as [Hj ->]. rewrite Hj in Hacc. done.
    + exists fin. by rewrite Hp.
Qed.

Lemma sm_fifo_run ops : exists s, foldM sm_step sm_start ops = Ret s /\ sm_fifo s.
Proof.
  apply (foldM_total (fun _ => sm_fifo)); [apply sm_fifo_start|].
  intros done_ o rest s _ Hs. by apply sm_fifo_step.
Qed.

End StreamMap.

Arguments StreamMap Index Fut R {_ _ _}.
Arguments sm_run Index Fut R {_ _ _}.
Arguments smop Index Fut R {_}.

(** ** An implementation of the interface: a list of tasks, the context picks one *)
Module ListStreamMap.

Definition pick (c : nat) (t : gmap nat (nat * nat)) : Poll (option (nat * nat)) :=
  if decide (t = ∅) then Ready None
  else match t !! c with Some (_, r) => Ready (Some (c, r)) | None => Pending end.

(** A task is its name and its result. *)
#[export] Instance list_stream_map : TokioStreamMap nat (nat * nat) nat := {|
  tmap := gmap nat (nat * nat);
  ctx := nat;
  t_default := ∅;
  t_contains_key i t := bool_decide (is_Some (t !! i));
  t_insert i f t := <[i := f]> t;
  t_remove i t := delete i t;
  t_is_empty t := bool_decide (t = ∅);
  t_poll_next c t := (t, pick c t)
|}.

#[export] Instance list_stream_map_laws : TokioStreamMapLaws nat (nat * nat) nat.
Proof.
  unshelve refine {| streams (t : tmap) := (t : gmap nat (nat * nat)); completes f r := snd f = r |}; simpl.
  all: try done.
  - intros t. by apply bool_decide_ext.
  - intros c t t' i r. unfold pick. intros [= <- Hp]. case_decide; [done|].
    destruct (t !! c) as [[n r']|] eqn:E; [|done]. injection Hp as <- <-. by exists (n, r').
  - intros c t t'. unfold pick. intros [= <- Hp]. case_decide; [done|].
    by destruct (t !! c) as [[n r']|] eqn:E.
Defined.

End ListStreamMap.
