(* ===== verification/StreamMapSpec.v ===== *)
(** * What the keyed task queue promises. *)

From stdpp Require Import base list option gmap.
From S2P Require Import Prelude StreamMap.

Section Spec.
  Context {Index Fut R : Type} `{Countable Index} `{!TokioStreamMap Index Fut R, !TokioStreamMapLaws Index Fut R}.

(** C10. Whatever sequence of [push], [add_if_not_in_progress] and [poll_next]
    is run on a new map, and whichever ready future each poll picks, no
    assertion fails, and the results of every index come out in the order in
    which its futures were accepted: the accepted futures of an index are those
    whose results were delivered followed by those that wait, of which exactly
    the first is being polled.  [add_if_not_in_progress] accepts exactly when
    the index is idle, and the map is terminated exactly when every accepted
    future was delivered. *)
Theorem stream_map_is_fifo (ops : list (smop Index Fut R)) :
  exists s : sm_run Index Fut R, foldM sm_step sm_start ops = Ret s /\
    (forall i, exists finished,
       of_index i (r_accepted s) = finished ++ waiting (r_map s) i /\
       Forall2 completes finished (of_index i (r_results s)) /\
       streams (in_progress (r_map s)) !! i = head (waiting (r_map s) i)) /\
    (forall i f, snd (add_if_not_in_progress i f (r_map s)) = bool_decide (waiting (r_map s) i = [])) /\
    (is_terminated (r_map s) = true <->
       forall i, length (of_index i (r_results s)) = length (of_index i (r_accepted s))).
Proof.
  destruct (sm_fifo_run ops) as (s & Hrun & Hwf & Hi). exists s. split; [done|]. repeat split.
  - intros i. destruct (Hi i) as (fin & Hacc & Hres). exists fin. repeat split; [done|done|].
    unfold waiting. destruct (streams (in_progress (r_map s)) !! i) eqn:E; [done|].
    by rewrite (not_in_progress_waiting _ _ Hwf E).
  - intros i f. by rewrite add_if_not_in_progress_spec.
  - rewrite is_terminated_spec by done. intros Hw i. destruct (Hi i) as (fin & Hacc & Hres).
    rewrite Hacc, Hw, app_nil_r. symmetry. by eapply Forall2_length.
  - rewrite is_terminated_spec by done. intros Hl i. destruct (Hi i) as (fin & Hacc & Hres).
    specialize (Hl i). rewrite Hacc, length_app, <-(Forall2_length _ _ _ Hres) in Hl.
    apply nil_length_inv. lia.
Qed.

End Spec.

Import ListStreamMap.

Definition example_ops : list (smop nat (nat * nat) nat) :=
  [Push 1 (3, 5); Push 1 (4, 6); Push 2 (0, 7); AddIfIdle 1 (1, 8);
   PollNext 2; PollNext 1; PollNext 2; PollNext 1].

(** Two futures of index 1 around one of index 2: the second of index 1 waits. *)
Example example_results :
  match foldM sm_step sm_start example_ops with
  | Ret s => (r_results s, is_terminated (r_map s))
  | _ => ([], false)
  end = ([(2, 7); (1, 5); (1, 6)], true).
Proof. vm_compute. reflexivity. Qed.

Lemma stream_map_is_fifo_witness :
  exists s : sm_run nat (nat * nat) nat, foldM sm_step sm_start example_ops = Ret s /\
    exists finished, of_index 1 (r_accepted s) = finished ++ waiting (r_map s) 1.
Proof.
  destruct (stream_map_is_fifo example_ops) as (s & Hs & Hf & _). exists s. split; [exact Hs|].
  destruct (Hf 1) as (finished & Ha & _). by exists finished.
Defined.
