(* ===== verification/Convert.v ===== *)
(** * Conversion jobs ([crates/core/src/job/convert.rs]).

    The scales and codecs of a job, the names of the files it produces, the
    outputs and the filter graph handed to ffmpeg, and the master playlist.
    ffmpeg itself, the thread pool and the file system calls around it are not
    modelled: [gen_job]'s result is an argument of the job runner ([Jobs.v]). *)

From stdpp Require Import base list option strings gmap.
From Stdlib Require Import ZArith Lia Ascii.
From S2P Require Import Prelude RustInt RustStr.

Local Open Scope Z_scope.
Local Open Scope string_scope.

(** ** Scales *)

Record Scale := { width : Z; height : Z }.

#[export] Instance Scale_eq_dec : EqDecision Scale.
Proof. solve_decision. Defined.

Definition Scale_new (width height : Z) : Scale := {| width := width; height := height |}.

Definition RESOLUTIONS : list Scale := [Scale_new 720 1280; Scale_new 540 960; Scale_new 480 854].

(** HLS segment duration in seconds. *)
Definition HLS_SEGMENT_DURATION : Z := 4.

Definition Scales : Type := list Scale.

Definition Scales_new : Scales := RESOLUTIONS.

Definition add_scale (width height : Z) (s : Scales) : Scales := (s ++ [Scale_new width height])%list.

Definition scales_skip_serialize (s : Scales) : bool := bool_decide (s = RESOLUTIONS) || bool_decide (s = []).

Definition bandwidth (width : Z) : Z :=
  if (720 <=? width)%Z then 735000 else if (540 <=? width)%Z then 495000 else 430000.

(** [Deref]: an empty list stands for the default one. *)
Definition scales_deref (s : Scales) : list Scale := match s with [] => RESOLUTIONS | _ => s end.

(** ** Codecs *)

Inductive ConvertCodec := Vp9 | H265 | H264.

#[export] Instance ConvertCodec_eq_dec : EqDecision ConvertCodec.
Proof. solve_decision. Defined.

Definition DEFAULT_CODECS : list ConvertCodec := [Vp9; H264].

Definition playlist_suffix (c : ConvertCodec) : string :=
  match c with Vp9 => "" | H265 => "-h265" | H264 => "-h264" end.

Definition playlist_filename (c : ConvertCodec) (job_id : string) : string :=
  job_id ++ playlist_suffix c ++ ".m3u8".

Definition segment_prefix (c : ConvertCodec) (job_id : string) : string :=
  match c with
  | Vp9 => job_id
  | H265 => job_id ++ "-h265"
  | H264 => job_id ++ "-h264"
  end.

Definition init_filename (c : ConvertCodec) (job_id : string) : string := segment_prefix c job_id ++ "-init.mp4".

Definition audio_encoder (c : ConvertCodec) : string :=
  match c with Vp9 => "libopus" | H265 | H264 => "aac" end.

Definition video_encoder (c : ConvertCodec) : string :=
  match c with Vp9 => "libvpx-vp9" | H265 => "libx265" | H264 => "libx264" end.

Definition codecs_attribute (c : ConvertCodec) : string :=
  match c with
  | Vp9 => "vp09.00.51.08.01.01.01.01.00,opus"
  | H265 => "hvc1.1.6.L90.B0,mp4a.40.2"
  | H264 => "avc1.4D401F,mp4a.40.2"
  end.

Definition ConvertCodecs : Type := list ConvertCodec.

Definition ConvertCodecs_new : ConvertCodecs := DEFAULT_CODECS.

Definition codecs_skip_serialize (c : ConvertCodecs) : bool :=
  bool_decide (c = []) || bool_decide (c = DEFAULT_CODECS).

Definition codecs_deref (c : ConvertCodecs) : list ConvertCodec := match c with [] => DEFAULT_CODECS | _ => c end.

(** ** The job *)

(** [retry_times] is the address of a counter that the clones of a job share. *)
Record ConvertJob := {
  cj_id : string;
  cj_crf : Z;
  cj_dst_bucket : option string;
  cj_scales : Scales;
  cj_codecs : ConvertCodecs;
  cj_retry_times : nat
}.

Definition ConvertJob_new (id : string) (crf : Z) (scales : Scales) (retry_times : nat) : ConvertJob :=
  {| cj_id := id; cj_crf := crf; cj_dst_bucket := None; cj_scales := scales;
     cj_codecs := ConvertCodecs_new; cj_retry_times := retry_times |}.

(** [usize] has 64 bits. *)
Definition convert_need_permit (job : ConvertJob) : Z :=
  saturating_mul 64 (Z.of_nat (length (codecs_deref (cj_codecs job)))) (Z.of_nat (length (scales_deref (cj_scales job)))).

Definition upload_path (uploads_dir : string) (job : ConvertJob) : string := path_join uploads_dir (cj_id job).

(** ** What ffmpeg is asked for

    [ez_ffmpeg]'s builder of an output ([context/output.rs]), with the parts
    the conversion sets. *)
Record Output := {
  url : string;
  frame_pipelines : option (list string);
  stream_map_specs : list string;
  format : option string;
  video_codec : option string;
  audio_codec : option string;
  video_codec_opts : option (gmap string string);
  audio_codec_opts : option (gmap string string);
  format_opts : option (gmap string string)
}.

Definition Output_from (u : string) : Output :=
  {| url := u; frame_pipelines := None; stream_map_specs := []; format := None; video_codec := None; audio_codec := None;
     video_codec_opts := None; audio_codec_opts := None; format_opts := None |}.

Definition add_frame_pipeline (p : string) (o : Output) : Output :=
  {| url := url o;
     frame_pipelines := match frame_pipelines o with None => Some [p] | Some l => Some (l ++ [p])%list end;
     stream_map_specs := stream_map_specs o; format := format o; video_codec := video_codec o; audio_codec := audio_codec o;
     video_codec_opts := video_codec_opts o; audio_codec_opts := audio_codec_opts o; format_opts := format_opts o |}.

Definition add_stream_map (linklabel : string) (o : Output) : Output :=
  {| url := url o; frame_pipelines := frame_pipelines o; stream_map_specs := (stream_map_specs o ++ [linklabel])%list;
     format := format o; video_codec := video_codec o; audio_codec := audio_codec o;
     video_codec_opts := video_codec_opts o; audio_codec_opts := audio_codec_opts o; format_opts := format_opts o |}.

Definition opt_insert (k v : string) (opts : option (gmap string string)) : option (gmap string string) :=
  match opts with
  | Some opts => Some (<[k := v]> opts)
  | None => Some (<[k := v]> ∅)
  end.

Definition set_video_codec_opt (k v : string) (o : Output) : Output :=
  {| url := url o; frame_pipelines := frame_pipelines o; stream_map_specs := stream_map_specs o; format := format o;
     video_codec := video_codec o; audio_codec := audio_codec o; video_codec_opts := opt_insert k v (video_codec_opts o);
     audio_codec_opts := audio_codec_opts o; format_opts := format_opts o |}.

Definition set_audio_codec_opt (k v : string) (o : Output) : Output :=
  {| url := url o; frame_pipelines := frame_pipelines o; stream_map_specs := stream_map_specs o; format := format o;
     video_codec := video_codec o; audio_codec := audio_codec o; video_codec_opts := video_codec_opts o;
     audio_codec_opts := opt_insert k v (audio_codec_opts o); format_opts := format_opts o |}.

Definition set_format_opt (k v : string) (o : Output) : Output :=
  {| url := url o; frame_pipelines := frame_pipelines o; stream_map_specs := stream_map_specs o; format := format o;
     video_codec := video_codec o; audio_codec := audio_codec o; video_codec_opts := video_codec_opts o;
     audio_codec_opts := audio_codec_opts o; format_opts := opt_insert k v (format_opts o) |}.

Definition set_format (f : string) (o : Output) : Output :=
  {| url := url o; frame_pipelines := frame_pipelines o; stream_map_specs := stream_map_specs o; format := Some f;
     video_codec := video_codec o; audio_codec := audio_codec o; video_codec_opts := video_codec_opts o;
     audio_codec_opts := audio_codec_opts o; format_opts := format_opts o |}.

Definition set_video_codec (c : string) (o : Output) : Output :=
  {| url := url o; frame_pipelines := frame_pipelines o; stream_map_specs := stream_map_specs o; format := format o;
     video_codec := Some c; audio_codec := audio_codec o; video_codec_opts := video_codec_opts o;
     audio_codec_opts := audio_codec_opts o; format_opts := format_opts o |}.

Definition set_audio_codec (c : string) (o : Output) : Output :=
  {| url := url o; frame_pipelines := frame_pipelines o; stream_map_specs := stream_map_specs o; format := format o;
     video_codec := video_codec o; audio_codec := Some c; video_codec_opts := video_codec_opts o;
     audio_codec_opts := audio_codec_opts o; format_opts := format_opts o |}.

Definition apply_codec_settings (c : ConvertCodec) (o : Output) : Output :=
  let o := match c with
           | H265 => set_video_codec_opt "sc_threshold" "0"
                       (set_video_codec_opt "keyint_min" "120" (set_video_codec_opt "g" "120" o))
           | _ => o
           end in
  set_video_codec (video_encoder c) (set_audio_codec (audio_encoder c) o).

(** The label of the video stream of scale [idx] for codec [c]. *)
Definition stream_label (idx : nat) (c : ConvertCodec) : string :=
  "v" ++ dec (Z.of_nat idx) ++ segment_prefix c "".

(** One output of [convert], in the directory of its scale. *)
Definition convert_output (job : ConvertJob) (out_dir : string) (idx : nat) (c : ConvertCodec) : Output :=
  let threads := dec (convert_need_permit job) in
  let playlist_path := path_join out_dir (playlist_filename c (cj_id job)) in
  let hls_segment_filename := out_dir ++ "/" ++ segment_prefix c (cj_id job) ++ "-%03d.m4s" in
  let o := add_stream_map (stream_label idx c)
             (add_stream_map "0:a?" (add_frame_pipeline "progress" (Output_from playlist_path))) in
  let o := set_audio_codec_opt "threads" threads (apply_codec_settings c o) in
  let o := set_video_codec_opt "crf" (dec (cj_crf job)) (set_video_codec_opt "threads" threads o) in
  let o := set_format_opt "hls_time" (dec HLS_SEGMENT_DURATION) (set_format "hls" o) in
  let o := set_format_opt "hls_segment_type" "fmp4" o in
  let o := set_format_opt "hls_playlist_type" "vod" o in
  let o := set_format_opt "hls_fmp4_init_filename" (init_filename c (cj_id job)) o in
  set_format_opt "hls_segment_filename" hls_segment_filename o.

Definition scale_dir (output : string) (s : Scale) : string := path_join output (dec (width s)).

(** The outputs, for every scale in order and every codec in order. *)
Definition convert_outputs (job : ConvertJob) (output : string) : list Output :=
  concat (imap (fun idx s => convert_output job (scale_dir output s) idx <$> codecs_deref (cj_codecs job))
               (scales_deref (cj_scales job))).

Definition bracket (l : string) : string := "[" ++ l ++ "]".

Definition scaled_label (idx : nat) : string := "scaled" ++ dec (Z.of_nat idx).
Definition base_label (idx : nat) : string := "v" ++ dec (Z.of_nat idx) ++ "_base".

(** The filter graph: one split of the input for the scales, a scaler per
    scale, and one split of each scaled video for the codecs. *)
Definition split_scales (target_scales : nat) : string :=
  bracket "0:v" ++ "split=" ++ dec (Z.of_nat target_scales)
  ++ sjoin "" ((fun i => bracket (scaled_label i)) <$> seq 0 target_scales).

Definition scale_filter (idx : nat) (s : Scale) : string :=
  bracket (scaled_label idx) ++ "scale=" ++ dec (width s) ++ ":" ++ dec (height s) ++ bracket (base_label idx).

Definition split_codecs (codecs : list ConvertCodec) (idx : nat) : string :=
  bracket (base_label idx) ++ "split=" ++ dec (Z.of_nat (length codecs))
  ++ sjoin "" ((fun c => bracket (stream_label idx c)) <$> codecs).

Definition filter_parts (job : ConvertJob) : list string :=
  let scales := scales_deref (cj_scales job) in
  let codecs := codecs_deref (cj_codecs job) in
  (split_scales (length scales)
   :: imap scale_filter scales ++ imap (fun idx _ => split_codecs codecs idx) scales)%list.

Definition filter_desc (job : ConvertJob) : string := sjoin ";" (filter_parts job).

(** ** The master playlist *)

Definition LF : string := String (ascii_of_nat 10) "".
Definition quote : string := String (ascii_of_nat 34) "".

Definition playlist_entry (job_id : string) (codec : ConvertCodec) (s : Scale) : string :=
  "#EXT-X-STREAM-INF:BANDWIDTH=" ++ dec (bandwidth (width s)) ++ ",RESOLUTION=" ++ dec (width s) ++ "x" ++ dec (height s)
  ++ ",CODECS=" ++ quote ++ codecs_attribute codec ++ quote ++ LF
  ++ dec (width s) ++ "/" ++ playlist_filename codec job_id ++ LF.

Definition master_playlist_path (output : string) (job : ConvertJob) : string :=
  path_join output (cj_id job ++ ".m3u8").

Definition master_playlist (job : ConvertJob) : string :=
  "#EXTM3U" ++ LF ++ "#EXT-X-VERSION:7" ++ LF ++ "#EXT-X-INDEPENDENT-SEGMENTS" ++ LF
  ++ sjoin "" (concat ((fun c => playlist_entry (cj_id job) c <$> scales_deref (cj_scales job))
                       <$> codecs_deref (cj_codecs job))).
