(* ===== verification/Storage.v ===== *)
(** * Storage backends ([crates/core/src/opendal.rs]).

    Which operator serves a bucket, and the upload of a directory: the walk
    over the local tree, the object keys and the accounting of failures.
    opendal's operators and one object's transfer are parameters. *)

From stdpp Require Import base list option strings gmap.
From Stdlib Require Import ZArith Lia Ascii.
From S2P Require Import Prelude RustInt RustStr.

Local Open Scope string_scope.

Inductive StorageBackend :=
  | Local
  | S3 (endpoint region default_bucket : option string) (access_key_id secret_access_key : string).

(** [anyhow] errors: their text. *)
Definition anyhow : Type := string.

(** opendal: how an operator for a bucket is built ([S3::default()...]). *)
Class OpenDal := {
  Operator : Type;
  s3_build : string -> option string -> option string -> string -> string -> result Operator anyhow
}.

Section Storage.
  Context `{OpenDal}.

Record StorageManager := {
  backend : StorageBackend;
  s3_operators : gmap string Operator
}.

Definition StorageManager_new (b : StorageBackend) : StorageManager := {| backend := b; s3_operators := ∅ |}.

Definition is_s3 (m : StorageManager) : bool := match backend m with S3 _ _ _ _ _ => true | Local => false end.

Definition default_bucket (m : StorageManager) : option string :=
  match backend m with S3 _ _ b _ _ => b | Local => None end.

Definition build_s3_operator (bucket : string) (endpoint region : option string) (access_key_id secret_access_key : string)
    : result Operator anyhow :=
  s3_build bucket endpoint region access_key_id secret_access_key.

(** The cached operator of a bucket; the second lookup under the write lock
    keeps an operator that another caller stored meanwhile. *)
Definition operator_for_bucket (bucket : string) (m : StorageManager) : StorageManager * result Operator anyhow :=
  if is_empty bucket || contains_char "/"%char bucket then (m, Err "Invalid bucket name")
  else match backend m with
       | Local => (m, Err "S3 operator requested but storage backend is not S3")
       | S3 endpoint region _ access_key_id secret_access_key =>
         match s3_operators m !! bucket with
         | Some op => (m, Ok op)
         | None =>
           match build_s3_operator bucket endpoint region access_key_id secret_access_key with
           | Err e => (m, Err e)
           | Ok op =>
             match s3_operators m !! bucket with
             | Some op => (m, Ok op)
             | None => ({| backend := backend m; s3_operators := <[bucket := op]> (s3_operators m) |}, Ok op)
             end
           end
         end
       end.

End Storage.

(** ** The local tree

    What [read_dir] delivers: the entries, with the kind that [file_type] (which
    does not follow links) reports; [fails] is an error of [read_dir] or of a
    later [next_entry]/[file_type], after the entries. *)
Inductive node :=
  | FileNode
  | DirNode (entries : list (string * node)) (fails : bool)
  | OtherNode.

Definition entry_path (dir : string) (e : string * node) : string * node := (path_join dir (fst e), snd e).

Definition is_dir (n : node) : bool := match n with DirNode _ _ => true | _ => false end.
Definition is_file (n : node) : bool := match n with FileNode => true | _ => false end.

(** The walk's queue holds directories to read; what it yields is a list of
    paths, ended by the first error. *)
Fixpoint walk_files_stream (fuel : nat) (q : list (string * node)) : outcome (list (result string anyhow)) :=
  match fuel with
  | O => Diverge
  | S fuel =>
    match q with
    | [] => Ret []
    | (dir, DirNode entries fails) :: q =>
      let paths := entry_path dir <$> entries in
      let files := (fun e => Ok (fst e)) <$> filter (fun e => is_file (snd e)) paths in
      if fails then Ret (files ++ [Err "read_dir"])%list
      else
        rest ← walk_files_stream fuel (q ++ filter (fun e => is_dir (snd e)) paths)%list;
        Ret (files ++ rest)%list
    | (_, _) :: _ => Ret [Err "read_dir"]
    end
  end.

(** [Path::strip_prefix] for a path made by joining names to [root]. *)
Definition path_strip_prefix (root file : string) : option string :=
  if (file =? root)%string then Some ""
  else strip_prefix (if ends_with "/" root then root else root ++ "/") file.

Definition to_s3_key (local_root file prefix : string) : result string anyhow :=
  match path_strip_prefix local_root file with
  | None => Err (file ++ " not under " ++ local_root)
  | Some rel =>
    let rel := replace_char "\"%char "/"%char rel in
    Ok (if is_empty prefix then rel else trim_end_matches "/" prefix ++ "/" ++ rel)
  end.

Section Upload.
  (** [transfer key path]: opening the file and writing the object. *)
  Variable transfer : string -> string -> bool.

Definition upload_one (local_root file prefix : string) : result unit anyhow :=
  match to_s3_key local_root file prefix with
  | Err e => Err e
  | Ok key => if transfer key file then Ok tt else Err "upload"
  end.

(** The counters do not depend on the order in which concurrent uploads end. *)
Definition upload_item (local_root prefix : string) (counts : nat * nat) (item : result string anyhow) : nat * nat :=
  match item with
  | Ok path =>
    match upload_one local_root path prefix with
    | Ok _ => (S (fst counts), snd counts)
    | Err _ => (fst counts, S (snd counts))
    end
  | Err _ => (fst counts, S (snd counts))
  end.

Definition upload_tree_streaming (fuel : nat) (local_root : string) (tree : node) (prefix : string) : outcome (result unit anyhow) :=
  items ← walk_files_stream fuel [(local_root, tree)];
  let '(final_success, final_errors) := foldl (upload_item local_root prefix) (0%nat, 0%nat) items in
  if (0 <? final_errors)%nat then Ret (Err ("Upload failed with " ++ dec (Z.of_nat final_errors) ++ " errors"))
  else Ret (Ok tt).

End Upload.

(** [upload_directory_to_bucket]; [transfer op] uploads with the bucket's operator. *)
Definition upload_directory_to_bucket `{OpenDal} (transfer : Operator -> string -> string -> bool) (fuel : nat)
    (bucket local_path : string) (tree : node) (remote_prefix : string) (m : StorageManager)
    : outcome (StorageManager * result unit anyhow) :=
  if negb (is_s3 m) then Ret (m, Ok tt)
  else match operator_for_bucket bucket m with
       | (m, Err e) => Ret (m, Err e)
       | (m, Ok op) =>
         r ← upload_tree_streaming (transfer op) fuel local_path tree remote_prefix;
         Ret (m, r)
       end.

(** ** Lemmas *)

(** The directories and files of a tree, in any order. *)
Fixpoint node_size (n : node) : nat :=
  match n with
  | DirNode entries _ => S (list_sum (node_size ∘ snd <$> entries))
  | _ => 1
  end.

Fixpoint node_readable (n : node) : bool :=
  match n with
  | DirNode entries fails => negb fails && forallb (node_readable ∘ snd) entries
  | _ => true
  end.

Fixpoint node_files (dir : string) (n : node) : list string :=
  match n with
  | FileNode => [dir]
  | DirNode entries _ => concat ((fun e => node_files (path_join dir (fst e)) (snd e)) <$> entries)
  | OtherNode => []
  end.

Definition queue_size (q : list (string * node)) : nat := list_sum (node_size ∘ snd <$> q).
Definition queue_files (q : list (string * node)) : list string := concat ((fun e => node_files (fst e) (snd e)) <$> q).

Lemma queue_size_app q1 q2 : queue_size (q1 ++ q2)%list = (queue_size q1 + queue_size q2)%nat.
Proof. unfold queue_size. by rewrite fmap_app, list_sum_app. Qed.

Lemma queue_files_app q1 q2 : queue_files (q1 ++ q2)%list = (queue_files q1 ++ queue_files q2)%list.
Proof. unfold queue_files. by rewrite fmap_app, concat_app. Qed.

Lemma queue_size_cons p n q : queue_size ((p, n) :: q) = (node_size n + queue_size q)%nat.
Proof. done. Qed.

Lemma queue_files_cons p n q : queue_files ((p, n) :: q) = (node_files p n ++ queue_files q)%list.
Proof. done. Qed.

Lemma queue_size_paths dir es : queue_size (entry_path dir <$> es) = list_sum (node_size ∘ snd <$> es).
Proof. unfold queue_size. by rewrite <-list_fmap_compose. Qed.

Lemma queue_files_paths dir es b : queue_files (entry_path dir <$> es) = node_files dir (DirNode es b).
Proof. unfold queue_files. by rewrite <-list_fmap_compose. Qed.

Lemma queue_size_dirs l : (queue_size (filter (fun e => is_dir (snd e)) l) <= queue_size l)%nat.
Proof.
  induction l as [|[p n] l IH]; [done|]. rewrite filter_cons, queue_size_cons.
  case_decide; rewrite ?queue_size_cons; lia.
Qed.

(** The files directly in a directory and those of its subdirectories. *)
Lemma queue_files_split l :
  queue_files l ≡ₚ ((fst <$> filter (fun e => is_file (snd e)) l) ++ queue_files (filter (fun e => is_dir (snd e)) l))%list.
Proof.
  induction l as [|[p n] l IH]; [done|]. rewrite !filter_cons, (queue_files_cons p n l). destruct n as [|es b|]; cbn [is_file is_dir node_files].
  - rewrite decide_True, decide_False by (done || by intros []). rewrite fmap_cons. cbn [fst app]. f_equiv. exact IH.
  - rewrite decide_False, decide_True by (done || by intros []). rewrite IH.
    rewrite (queue_files_cons p (DirNode es b)), !app_assoc. f_equiv. apply Permutation_app_comm.
  - rewrite !decide_False by (by intros []). exact IH.
Qed.

Definition all_dirs (q : list (string * node)) : Prop := Forall (fun e => is_dir (snd e) = true) q.
Definition all_readable (q : list (string * node)) : Prop := Forall (fun e => node_readable (snd e) = true) q.

Lemma all_dirs_filter l : all_dirs (filter (fun e => is_dir (snd e)) l).
Proof. apply Forall_forall. intros e [He _]%list_elem_of_filter. by apply Is_true_true. Qed.

Lemma readable_dirs dir es :
  forallb (node_readable ∘ snd) es = true <->
  all_readable (filter (fun e => is_dir (snd e)) (entry_path dir <$> es)).
Proof.
  unfold all_readable. induction es as [|[name n] es IH]; [done|]. rewrite fmap_cons, filter_cons.
  cbn [forallb entry_path fst snd]. unfold compose at 1. cbn [snd]. rewrite andb_true_iff, IH.
  destruct n as [|es' b|]; cbn [is_dir].
  - rewrite decide_False by (by intros []). naive_solver.
  - rewrite decide_True by done. rewrite Forall_cons. done.
  - rewrite decide_False by (by intros []). naive_solver.
Qed.

Lemma ok_paths (l : list (string * node)) :
  (fun e => @Ok string anyhow (fst e)) <$> l = Ok <$> (fst <$> l).
Proof. by rewrite <-list_fmap_compose. Qed.

(** The walk ends, and yields every file once, or an error. *)
Lemma walk_spec fuel q :
  (queue_size q < fuel)%nat -> all_dirs q ->
  exists items, walk_files_stream fuel q = Ret items /\
    ((all_readable q /\ exists paths, items = Ok <$> paths /\ paths ≡ₚ queue_files q) \/
     (~ all_readable q /\ exists e, Err e ∈ items)).
Proof.
  revert q. induction fuel as [|fuel IH]; intros q Hs Hd; [lia|].
  destruct q as [|[dir n] q]; cbn [walk_files_stream].
  { exists []. split; [done|]. left. split; [constructor|]. by exists []. }
  apply Forall_cons in Hd as [Hn Hd]. destruct n as [|es fails|]; [done| |done].
  pose proof (queue_size_dirs (entry_path dir <$> es)) as Hsz. rewrite queue_size_paths in Hsz.
  rewrite queue_size_cons in Hs. cbn [node_size] in Hs.
  destruct fails.
  { eexists. split; [reflexivity|]. right. split.
    - intros Hr. apply Forall_cons in Hr as [Hr _]. done.
    - exists "read_dir". set_solver. }
  set (dirs := filter (fun e => is_dir (snd e)) (entry_path dir <$> es)) in *.
  destruct (IH (q ++ dirs)%list) as (rest & Hrest & Hcase).
  { rewrite queue_size_app. lia. }
  { apply Forall_app. split; [done|]. apply all_dirs_filter. }
  rewrite Hrest. cbn. eexists. split; [reflexivity|].
  assert (all_readable ((dir, DirNode es false) :: q) <-> all_readable (q ++ dirs)%list) as Hread.
  { unfold all_readable. rewrite Forall_cons, Forall_app. cbn [snd node_readable negb andb].
    rewrite (readable_dirs dir es). unfold all_readable, dirs. tauto. }
  destruct Hcase as [[Hr (paths & -> & Hp)]|[Hr [e He]]].
  - left. split; [by apply Hread|]. eexists. split.
    + rewrite ok_paths, <-fmap_app. reflexivity.
    + cbn [fst snd]. transitivity (node_files dir (DirNode es false) ++ queue_files q)%list; [|done].
      rewrite Hp, queue_files_app.
      rewrite <-(queue_files_paths dir es false), (queue_files_split (entry_path dir <$> es)). fold dirs.
      rewrite <-!app_assoc. f_equiv. rewrite Permutation_app_comm. done.
  - right. split; [by rewrite Hread|]. exists e. set_solver.
Qed.

Lemma upload_counts transfer root prefix items c :
  let c' := foldl (upload_item transfer root prefix) c items in
  (snd c <= snd c')%nat /\
  (snd c' = snd c <-> forall i, i ∈ items -> exists p, i = Ok p /\ upload_one transfer root p prefix = Ok tt).
Proof.
  revert c. induction items as [|i items IH]; intros c; cbn [foldl].
  { split; [done|]. split; [|done]. intros _ i Hi. by apply not_elem_of_nil in Hi. }
  destruct (IH (upload_item transfer root prefix c i)) as [Hle Hiff]. clear IH. revert Hle Hiff.
  set (c' := foldl _ _ items). unfold upload_item. destruct i as [p|e].
  - destruct (upload_one transfer root p prefix) as [[]|e] eqn:E; cbn [snd]; intros Hle Hiff; split; [done| |lia|].
    + rewrite Hiff. split.
      * intros Hall i [->|Hi]%elem_of_cons; eauto.
      * intros Hall i Hi. apply Hall. by right.
    + split; [lia|]. intros Hall. destruct (Hall (Ok p)) as (p' & [= <-] & ?); [by left|congruence].
  - cbn [snd]. intros Hle Hiff. split; [lia|]. split; [lia|].
    intros Hall. destruct (Hall (Err e)) as (p' & [=] & _). by left.
Qed.

Section OperatorLemmas.
  Context `{OpenDal}.

(** The cached operators are those the backend builds. *)
Definition storage_wf (m : StorageManager) : Prop :=
  forall b op, s3_operators m !! b = Some op ->
    is_empty b = false /\ contains_char "/"%char b = false /\
    exists e r d a s, backend m = S3 e r d a s /\ s3_build b e r a s = Ok op.

Lemma StorageManager_new_wf b : storage_wf (StorageManager_new b).
Proof. intros ? ?. cbn. by rewrite lookup_empty. Qed.

(** The cache is not observable: an operator is what the backend builds. *)
Lemma operator_for_bucket_spec bucket m :
  storage_wf m ->
  storage_wf (fst (operator_for_bucket bucket m)) /\
  backend (fst (operator_for_bucket bucket m)) = backend m /\
  forall op, snd (operator_for_bucket bucket m) = Ok op <->
    is_empty bucket = false /\ contains_char "/"%char bucket = false /\
    exists e r d a s, backend m = S3 e r d a s /\ s3_build bucket e r a s = Ok op.
Proof.
  intros Hwf. unfold operator_for_bucket, build_s3_operator.
  destruct (is_empty bucket) eqn:E1; [naive_solver|]. destruct (contains_char "/"%char bucket) eqn:E2; [naive_solver|].
  cbn [orb]. destruct (backend m) as [|e r d a s] eqn:Eb; [naive_solver|].
  destruct (s3_operators m !! bucket) as [op|] eqn:Eo.
  - cbn [fst snd]. split; [done|]. split; [done|]. intros op'. destruct (Hwf _ _ Eo) as (_ & _ & e' & r' & d' & a' & s' & Hb & Hop).
    rewrite Eb in Hb. injection Hb as <- <- <- <- <-. split.
    + intros [= <-]. by eauto 10.
    + intros (_ & _ & ? & ? & ? & ? & ? & [= <- <- <- <- <-] & ?). congruence.
  - destruct (s3_build bucket e r a s) as [op|err] eqn:Es; cbn [fst snd].
    + split; [|split; [done|]].
      * intros b op'. cbn [s3_operators backend]. intros [[<- <-]|[_ Hb]]%lookup_insert_Some; [by eauto 10|].
        pose proof (Hwf b op' Hb) as Hw. rewrite Eb in Hw. exact Hw.
      * intros op'. split; [intros [= <-]; by eauto 10|].
        intros (_ & _ & ? & ? & ? & ? & ? & [= <- <- <- <- <-] & ?). congruence.
    + split; [done|]. split; [done|]. intros op'. split; [done|].
      intros (_ & _ & ? & ? & ? & ? & ? & [= <- <- <- <- <-] & ?). congruence.
Qed.

End OperatorLemmas.
