(* ===== verification/Jobs.v ===== *)
(** * Jobs ([crates/core/src/job/{mod,raw,convert,upload,migrate,manager}.rs]).

    The job interface and its three implementations, type-erased jobs and
    their persisted form, the set of pending jobs.  serde's derived
    (de)serialisers are an interface with the laws that the attributes on the
    structs state. *)

From stdpp Require Import base list option strings gmap sorting.
From Stdlib Require Import ZArith Lia Ascii.
From S2P Require Import Prelude RustInt RustStr Convert Storage.

Local Open Scope Z_scope.
Local Open Scope string_scope.

(** ** Kinds, actions, failures *)

Definition JobKind : Type := string.
Definition UPLOAD_KIND : JobKind := "upload".
Definition CONVERT_KIND : JobKind := "convert".
Definition MIGRATE_KIND : JobKind := "migrate".

Inductive Action :=
  | Silent
  | Cleanup
  | Webhook (message : string).

Record FailureJob := {
  fj_job_id : string;
  fj_kind : JobKind;
  fj_actions : list Action
}.

Definition FailureJob_new (job_id : string) (kind : JobKind) (actions : list Action) : FailureJob :=
  {| fj_job_id := job_id; fj_kind := kind; fj_actions := actions |}.

(** ** The other two jobs *)

Record UploadJob := {
  uj_id : string;
  uj_dst_bucket : option string
}.

Definition UploadJob_new (id : string) (dst_bucket : option string) : UploadJob :=
  {| uj_id := id; uj_dst_bucket := dst_bucket |}.

Definition video_path (videos_dir : string) (j : UploadJob) : string := path_join videos_dir (uj_id j).

Record MigrateJob := {
  mj_id : string;
  mj_src_bucket : string;
  mj_dst_bucket : string;
  mj_widths : list Z;
  mj_retry_times : nat
}.

Definition MigrateJob_new (id src_bucket dst_bucket : string) (widths : list Z) (retry_times : nat) : MigrateJob :=
  {| mj_id := id; mj_src_bucket := src_bucket; mj_dst_bucket := dst_bucket; mj_widths := widths;
     mj_retry_times := retry_times |}.

(** [u16::try_from(w).expect(..)] *)
Definition default_widths : outcome (list Z) :=
  mapM_out (fun s => if fitsb 16 (width s) then Ret (width s) else Panic) RESOLUTIONS.

Definition resolved_widths (widths : option (list Z)) : outcome (list Z) :=
  match widths with Some w => Ret w | None => default_widths end.

(** The prefixes of the keys that belong to the job's video. *)
Definition object_prefixes (j : MigrateJob) : list string :=
  ("videos/" ++ mj_id j) :: ((fun w => "videos/" ++ dec w ++ "/" ++ mj_id j) <$> mj_widths j).

(** Which listed objects are copied: those where the prefix ends the id. *)
Definition selects (prefix path : string) : bool :=
  match strip_prefix prefix path with
  | Some rest => starts_with "." rest || starts_with "-" rest
  | None => false
  end.

(** ** Type erasure: a [RawJob] behaves as the job in it *)
Inductive RawJob :=
  | RawConvert (j : ConvertJob)
  | RawUpload (j : UploadJob)
  | RawMigrate (j : MigrateJob).

(** The retry counters, shared by the clones of a job. *)
Definition counters : Type := gmap nat Z.
Definition load (a : nat) (c : counters) : Z := default 0 (c !! a).

(** The interface of a job; [is_s3] is what [next_job] asks of the state, and
    [wait_for_retry] works on the counters (its result in seconds). *)
Class Job (J : Type) := {
  kind : J -> JobKind;
  need_permit : J -> Z;
  id : J -> string;
  next_job : bool -> J -> option UploadJob;
  wait_for_retry : J -> counters -> counters * option Z;
  on_final_failure : J -> FailureJob
}.

(** At most [max] retries, [secs] seconds apart. *)
Definition bounded_retry (max secs : Z) (a : nat) (c : counters) : counters * option Z :=
  let retry_times := load a c in
  if (retry_times <? max)%Z then (<[a := retry_times + 1]> c, Some secs) else (c, None).

Definition MAX_RETRIES : Z := 5.

#[export] Instance convert_job : Job ConvertJob := {|
  kind _ := CONVERT_KIND;
  need_permit := convert_need_permit;
  id := cj_id;
  next_job is_s3 j := if is_s3 : bool then Some (UploadJob_new (cj_id j) (cj_dst_bucket j)) else None;
  wait_for_retry j := bounded_retry 5 15 (cj_retry_times j);
  on_final_failure j :=
    FailureJob_new (cj_id j) CONVERT_KIND [Cleanup; Webhook "Convert job failed after all retries"]
|}.

#[export] Instance upload_job : Job UploadJob := {|
  kind _ := UPLOAD_KIND;
  need_permit _ := 1;
  id := uj_id;
  next_job _ _ := None;
  wait_for_retry _ c := (c, Some 30);
  on_final_failure j :=
    FailureJob_new (uj_id j) UPLOAD_KIND [Cleanup; Webhook "Upload job failed after all retries"]
|}.

#[export] Instance migrate_job : Job MigrateJob := {|
  kind _ := MIGRATE_KIND;
  need_permit _ := 1;
  id := mj_id;
  next_job _ _ := None;
  wait_for_retry j := bounded_retry MAX_RETRIES 30 (mj_retry_times j);
  on_final_failure j := FailureJob_new (mj_id j) MIGRATE_KIND []
|}.

#[export] Instance raw_job : Job RawJob := {|
  kind r := match r with RawConvert j => kind j | RawUpload j => kind j | RawMigrate j => kind j end;
  need_permit r := match r with RawConvert j => need_permit j | RawUpload j => need_permit j | RawMigrate j => need_permit j end;
  id r := match r with RawConvert j => id j | RawUpload j => id j | RawMigrate j => id j end;
  next_job b r := match r with RawConvert j => next_job b j | RawUpload j => next_job b j | RawMigrate j => next_job b j end;
  wait_for_retry r := match r with RawConvert j => wait_for_retry j | RawUpload j => wait_for_retry j | RawMigrate j => wait_for_retry j end;
  on_final_failure r :=
    match r with RawConvert j => on_final_failure j | RawUpload j => on_final_failure j | RawMigrate j => on_final_failure j end
|}.

(** ** What an upload job and a migration do *)

(** [UploadJob::gen_job] up to the upload itself; [upload b path] is
    [upload_directory_to_bucket] to ["videos"] and [Some path] the directory
    removed afterwards. *)
Definition is_pure_ascii_digits (s : string) : bool := negb (is_empty s) && forall_char is_ascii_digit s.

Definition upload_gen_job (is_s3 : bool) (videos_dir : string) (upload : string -> string -> result unit anyhow)
    (j : UploadJob) : result (option string) anyhow :=
  let upload_path := video_path videos_dir j in
  if negb is_s3 then Ok None
  else match uj_dst_bucket j with
       | None | Some "" => Err "dst_bucket is required for upload job when storage backend is S3"
       | Some dst_bucket =>
         if contains_char "/"%char dst_bucket then Err "Invalid dst_bucket: contains '/'"
         else if is_pure_ascii_digits dst_bucket then Err "Invalid dst_bucket: numeric-only bucket is not allowed"
         else match upload dst_bucket upload_path with
              | Ok _ => Ok (Some upload_path)
              | Err e => Err e
              end
       end.

Record MigrateStats := {
  objects_total : Z;
  objects_copied : Z;
  bytes_copied : Z
}.

(** [BTreeSet<String>] is iterated in key order. *)
Definition string_le (a b : string) : Prop := Is_true (a <=? b)%string.

#[export] Instance string_le_dec : RelDecision string_le.
Proof. intros a b. unfold string_le. apply _. Defined.

Definition btree_iter (keys : gset string) : list string := merge_sort string_le (elements keys).

Section Migrate.
  Context `{Profile, OpenDal}.
  (** One listing of a prefix: paths with whether they are files, or a failure
      after some entries; stat of an object, and its streaming copy between two
      buckets with the number of bytes. *)
  Variable list_prefix : Operator -> string -> list (string * bool) * bool.
  Variable stat : Operator -> string -> bool.
  Variable copy_object : Operator -> Operator -> string -> result Z anyhow.

Fixpoint list_entries (prefix : string) (entries : list (string * bool)) (keys : gset string) : gset string :=
  match entries with
  | [] => keys
  | (path, is_file) :: entries =>
    list_entries prefix entries
      (if negb is_file then keys else if selects prefix path then {[path]} ∪ keys else keys)
  end.

Fixpoint list_prefixes (src_op : Operator) (prefixes : list string) (keys : gset string) : result (gset string) anyhow :=
  match prefixes with
  | [] => Ok keys
  | prefix :: prefixes =>
    let '(entries, fails) := list_prefix src_op prefix in
    if fails then Err ("list source prefix `" ++ prefix ++ "`")
    else list_prefixes src_op prefixes (list_entries prefix entries keys)
  end.

Definition list_object_keys (src_op : Operator) (j : MigrateJob) : result (gset string) anyhow :=
  list_prefixes src_op (object_prefixes j) ∅.

Fixpoint copy_keys (src_op dst_op : Operator) (keys : list string) (stats : MigrateStats)
    : outcome (result MigrateStats anyhow) :=
  match keys with
  | [] => Ret (Ok stats)
  | key :: keys =>
    if negb (stat src_op key) then Ret (Err ("stat source object `" ++ key ++ "`"))
    else match copy_object src_op dst_op key with
         | Err e => Ret (Err e)
         | Ok copied =>
           copied_objects ← uadd 64 (objects_copied stats) 1;
           copied_bytes ← uadd 64 (bytes_copied stats) copied;
           copy_keys src_op dst_op keys {| objects_total := objects_total stats; objects_copied := copied_objects;
                                           bytes_copied := copied_bytes |}
         end
  end.

Definition migrate_run (j : MigrateJob) (m : StorageManager) : outcome (StorageManager * result MigrateStats anyhow) :=
  match operator_for_bucket (mj_src_bucket j) m with
  | (m, Err e) => Ret (m, Err e)
  | (m, Ok src_op) =>
    match operator_for_bucket (mj_dst_bucket j) m with
    | (m, Err e) => Ret (m, Err e)
    | (m, Ok dst_op) =>
      match list_object_keys src_op j with
      | Err e => Ret (m, Err e)
      | Ok keys =>
        r ← copy_keys src_op dst_op (btree_iter keys)
              {| objects_total := Z.of_nat (size keys); objects_copied := 0; bytes_copied := 0 |};
        Ret (m, r)
      end
    end
  end.

End Migrate.

(** ** Persistence *)

(** [serde_json::Value]. *)
Inductive json :=
  | JNull
  | JBool (b : bool)
  | JNumber (n : Z)
  | JString (s : string)
  | JArray (l : list json)
  | JObject (m : list (string * json)).

(** [value.get(key)] and [as_str]. *)
Fixpoint assoc (key : string) (m : list (string * json)) : option json :=
  match m with
  | [] => None
  | (k, v) :: m => if (k =? key)%string then Some v else assoc key m
  end.

Definition get (key : string) (v : json) : option json :=
  match v with JObject m => assoc key m | _ => None end.

Definition as_str (v : json) : option string := match v with JString s => Some s | _ => None end.

(** The derived [Serialize] and [Deserialize]; a deserialised job gets a retry
    counter of its own at the address given. *)
Class Serde (J : Type) := {
  to_value : J -> json;
  from_value : nat -> json -> result J anyhow
}.

(** What the attributes make of a job that is written and read again: skipped
    fields take their [Default]. *)
Definition reload_convert (a : nat) (j : ConvertJob) : ConvertJob :=
  {| cj_id := cj_id j; cj_crf := cj_crf j; cj_dst_bucket := cj_dst_bucket j;
     cj_scales := if scales_skip_serialize (cj_scales j) then Scales_new else cj_scales j;
     cj_codecs := if codecs_skip_serialize (cj_codecs j) then ConvertCodecs_new else cj_codecs j;
     cj_retry_times := a |}.

Definition reload_migrate (a : nat) (j : MigrateJob) : MigrateJob :=
  {| mj_id := mj_id j; mj_src_bucket := mj_src_bucket j; mj_dst_bucket := mj_dst_bucket j;
     mj_widths := mj_widths j; mj_retry_times := a |}.

Class SerdeLaws `{Serde ConvertJob, Serde UploadJob, Serde MigrateJob} := {
  law_convert a j : from_value a (to_value j) = Ok (reload_convert a j);
  law_upload a (j : UploadJob) : from_value a (to_value j) = Ok j;
  law_migrate a j : from_value a (to_value j) = Ok (reload_migrate a j);
  (* a struct is an object with its fields' names *)
  law_no_kind_convert (j : ConvertJob) : get "kind" (to_value j) = None;
  law_no_kind_upload (j : UploadJob) : get "kind" (to_value j) = None;
  law_crf_convert (j : ConvertJob) : is_Some (get "crf" (to_value j));
  law_crf_upload (j : UploadJob) : get "crf" (to_value j) = None;
  (* the counter is skipped: whatever was read, it is a new one *)
  law_fresh_convert a v (j : ConvertJob) : from_value a v = Ok j -> cj_retry_times j = a;
  law_fresh_migrate a v (j : MigrateJob) : from_value a v = Ok j -> mj_retry_times j = a
}.

Section Persistence.
  Context `{Sc : Serde ConvertJob, Su : Serde UploadJob, Sm : Serde MigrateJob}.

Definition payload_json (r : RawJob) : json :=
  match r with RawConvert j => to_value j | RawUpload j => to_value j | RawMigrate j => to_value j end.

Definition to_json (r : RawJob) : json := JObject [("kind", JString (kind r)); ("job", payload_json r)].

Definition from_kind_and_payload (a : nat) (k : string) (payload : json) : result RawJob anyhow :=
  if (k =? CONVERT_KIND)%string then
    match from_value a payload with Ok j => Ok (RawConvert j) | Err e => Err e end
  else if (k =? UPLOAD_KIND)%string then
    match from_value a payload with Ok j => Ok (RawUpload j) | Err e => Err e end
  else if (k =? MIGRATE_KIND)%string then
    match from_value a payload with Ok j => Ok (RawMigrate j) | Err e => Err e end
  else Err ("unsupported job kind `" ++ k ++ "`").

Definition from_legacy_json (a : nat) (value : json) : result RawJob anyhow :=
  match get "crf" value with
  | Some _ => match from_value a value with Ok j => Ok (RawConvert j) | Err e => Err e end
  | None => match from_value a value with Ok j => Ok (RawUpload j) | Err e => Err e end
  end.

Definition from_json (a : nat) (value : json) : result RawJob anyhow :=
  match get "kind" value with
  | Some v =>
    match as_str v with
    | Some k =>
      match get "job" value with
      | Some payload => from_kind_and_payload a k payload
      | None => Err "stored job payload missing `job` field"
      end
    | None => from_legacy_json a value
    end
  | None => from_legacy_json a value
  end.

(** ** The set of pending jobs

    [file] is the content of [pending-jobs.json]. *)
Record JobSetManager := {
  jobs : list RawJob;
  file : option (list json)
}.

(** [collect::<Result<Vec<_>, _>>()]: the first error decides; job number [i]
    gets the counter at [a + i]. *)
Fixpoint from_json_all (a : nat) (values : list json) : result (list RawJob) anyhow :=
  match values with
  | [] => Ok []
  | v :: values =>
    match from_json a v with
    | Err e => Err e
    | Ok j => match from_json_all (S a) values with Ok js => Ok (j :: js) | Err e => Err e end
    end
  end.

(** [JobSetManager::new] on the file left by an earlier run: the manager and
    the jobs it sends to the handler.  A file that does not parse counts as
    empty. *)
Definition JobSetManager_new (a : nat) (f : option (list json)) : JobSetManager * list RawJob :=
  let js := match f with
            | None => []
            | Some values => match from_json_all a values with Ok js => js | Err _ => [] end
            end in
  ({| jobs := js; file := f |}, js).

(** Writing the file may fail; the set in memory is changed all the same. *)
Definition save (writes : bool) (js : list RawJob) (m : JobSetManager) : JobSetManager :=
  {| jobs := js; file := if writes then Some (to_json <$> js) else file m |}.

Definition retain (keep : RawJob -> bool) (js : list RawJob) : list RawJob := filter (fun j => keep j) js.

Definition add (writes : bool) (job : RawJob) (m : JobSetManager) : JobSetManager :=
  save writes (retain (fun j => negb (id j =? id job)%string) (jobs m) ++ [job])%list m.

Definition remove (writes : bool) (i : string) (m : JobSetManager) : JobSetManager :=
  save writes (retain (fun j => negb (id j =? i)%string) (jobs m)) m.

(** ** Lemmas *)

Definition ids (js : list RawJob) : list string := id <$> js.

Lemma elem_of_retain keep j js : j ∈ retain keep js <-> keep j = true /\ j ∈ js.
Proof. unfold retain. rewrite list_elem_of_filter. by rewrite Is_true_true. Qed.

Lemma ids_retain_ne i js k : k ∈ ids (retain (fun j => negb (id j =? i)%string) js) <-> k <> i /\ k ∈ ids js.
Proof.
  unfold ids. rewrite !list_elem_of_fmap. setoid_rewrite elem_of_retain. setoid_rewrite negb_true_iff.
  setoid_rewrite String.eqb_neq. naive_solver.
Qed.

Lemma NoDup_ids_retain keep js : NoDup (ids js) -> NoDup (ids (retain keep js)).
Proof.
  unfold ids, retain. induction js as [|j js IH]; [done|]. rewrite fmap_cons, filter_cons. intros [Hn Hd]%NoDup_cons.
  case_decide; [|by apply IH]. rewrite fmap_cons. apply NoDup_cons. split; [|by apply IH].
  contradict Hn. apply list_elem_of_fmap in Hn as (k & Hk & Hin). apply list_elem_of_filter in Hin as [_ Hin].
  rewrite Hk. by apply list_elem_of_fmap_2.
Qed.

Lemma ids_add w job m k : k ∈ ids (jobs (add w job m)) <-> k = id job \/ k ∈ ids (jobs m).
Proof.
  cbn [jobs add save]. unfold ids. rewrite fmap_app, elem_of_app. fold (ids (retain (fun j => negb (id j =? id job)%string) (jobs m))).
  rewrite ids_retain_ne, list_elem_of_fmap. setoid_rewrite list_elem_of_singleton.
  destruct (decide (k = id job)); naive_solver.
Qed.

Lemma NoDup_ids_add w job m : NoDup (ids (jobs m)) -> NoDup (ids (jobs (add w job m))).
Proof.
  intros Hd. cbn [jobs add save]. unfold ids. rewrite fmap_app. apply NoDup_app. repeat split.
  - by apply NoDup_ids_retain.
  - intros k Hk Hj. apply list_elem_of_singleton in Hj as ->. apply ids_retain_ne in Hk as [? _]. done.
  - apply NoDup_singleton.
Qed.

Lemma ids_remove w i m k : k ∈ ids (jobs (remove w i m)) <-> k <> i /\ k ∈ ids (jobs m).
Proof. apply ids_retain_ne. Qed.

Lemma NoDup_ids_remove w i m : NoDup (ids (jobs m)) -> NoDup (ids (jobs (remove w i m))).
Proof. apply NoDup_ids_retain. Qed.

Context `{!SerdeLaws}.

Definition reload (a : nat) (r : RawJob) : RawJob :=
  match r with
  | RawConvert j => RawConvert (reload_convert a j)
  | RawUpload j => RawUpload j
  | RawMigrate j => RawMigrate (reload_migrate a j)
  end.

Lemma from_to_json a r : from_json a (to_json r) = Ok (reload a r).
Proof.
  destruct r as [j|j|j]; unfold from_json, to_json; cbn [get assoc kind raw_job];
    cbv [kind convert_job upload_job migrate_job]; cbn [String.eqb Ascii.eqb Bool.eqb as_str];
    unfold from_kind_and_payload; cbn [payload_json].
  - change (CONVERT_KIND =? CONVERT_KIND)%string with true. cbn iota. by rewrite law_convert.
  - change (UPLOAD_KIND =? CONVERT_KIND)%string with false. change (UPLOAD_KIND =? UPLOAD_KIND)%string with true.
    cbn iota. by rewrite law_upload.
  - change (MIGRATE_KIND =? CONVERT_KIND)%string with false. change (MIGRATE_KIND =? UPLOAD_KIND)%string with false.
    change (MIGRATE_KIND =? MIGRATE_KIND)%string with true. cbn iota. by rewrite law_migrate.
Qed.

(** Jobs written by earlier versions, without a kind. *)
Lemma from_legacy_payload a r :
  match r with RawMigrate _ => True | _ => from_json a (payload_json r) = Ok (reload a r) end.
Proof.
  destruct r as [j|j|j]; [| |done]; unfold from_json; cbn [payload_json]; unfold from_legacy_json.
  - rewrite law_no_kind_convert. destruct (law_crf_convert j) as [v ->]. by rewrite law_convert.
  - by rewrite law_no_kind_upload, law_crf_upload, law_upload.
Qed.

Lemma from_json_all_saved a js :
  from_json_all a (to_json <$> js) = Ok (imap (fun i j => reload (a + i) j) js).
Proof.
  revert a. induction js as [|j js IH]; intros a; [done|]. rewrite fmap_cons. cbn [from_json_all imap].
  rewrite from_to_json, IH, Nat.add_0_r. do 2 f_equal. apply imap_ext. intros i x _. cbn. f_equal. lia.
Qed.

End Persistence.
