(* ===== verification/Handler.v ===== *)
(** * The job handler ([crates/core/src/app_state.rs], [gen_task] of [job/mod.rs]).

    A state machine: the channel of jobs, the tasks in progress (one per job
    id), the three semaphores, the pending jobs, the retry counters and the
    files that failure actions remove.  An event is one step of the handler's
    loop, of a task, of a request handler or of a spawned task; the events that
    are not possible in a state leave it unchanged. *)

From stdpp Require Import base list option strings gmap.
From Stdlib Require Import ZArith Lia Ascii.
From S2P Require Import Prelude RustInt RustStr Convert Storage Jobs.

Local Open Scope Z_scope.

(** ** Results of tasks *)
Inductive JobResult :=
  | Done
  | Next (j : RawJob)
  | Retry (j : RawJob)
  | JobErr (f : FailureJob).

(** [From<Option<N>>], after [into_raw]. *)
Definition from_option (o : option UploadJob) : JobResult :=
  match o with Some job => Next (RawUpload job) | None => Done end.

(** ** Semaphores: one per kind of job *)
Inductive pool := ConvertPool | UploadPool | MigratePool.

#[export] Instance pool_eq_dec : EqDecision pool.
Proof. solve_decision. Defined.

Definition for_kind (k : JobKind) : pool :=
  if (k =? UPLOAD_KIND)%string then UploadPool
  else if (k =? MIGRATE_KIND)%string then MigratePool
  else ConvertPool.

(** The configuration the handler is started with. *)
Record AppConfig := {
  cfg_is_s3 : bool;
  permits : nat;
  migrate_permits : nat;
  uploads_dir : string;
  videos_dir : string
}.

Definition pool_limit (c : AppConfig) (p : pool) : nat :=
  match p with UploadPool => 1 | MigratePool => migrate_permits c | ConvertPool => permits c end.

(** The number of permits a job acquires: [None] when it needs none;
    [u32::try_from(..).expect(..)]. *)
Definition acquire_count (c : AppConfig) (j : RawJob) : outcome nat :=
  if (0 <? need_permit j)%Z then
    let n := Z.min (need_permit j) (Z.of_nat (pool_limit c (for_kind (kind j)))) in
    if fitsb 32 n then Ret (Z.to_nat n) else Panic
  else Ret 0%nat.

(** Where a task is: waiting for its permits, running the job with the permits
    it holds, sleeping before a retry (still holding them), or finished with a
    result that the loop has not taken yet. *)
Inductive task :=
  | Waiting (j : RawJob)
  | Running (j : RawJob) (held : nat)
  | Sleeping (j : RawJob) (held : nat)
  | Finished (r : JobResult).

(** What the handle of a job's tokio task gives: the job's own result, or the
    error of a job that panicked. *)
Inductive joined :=
  | Joined (ok : bool)
  | JoinError.

Section Handler.
  Context `{Sc : Serde ConvertJob, Su : Serde UploadJob, Sm : Serde MigrateJob}.
  Variable cfg : AppConfig.

Record world := {
  in_flight : list RawJob;      (* added by a request handler, not yet sent *)
  channel : list RawJob;        (* [job_tx]/[rx] *)
  tasks : gmap string task;     (* [StreamMap]: at most one task per id, no queue *)
  available : pool -> nat;      (* the semaphores *)
  spawned : list UploadJob;     (* [next_job]'s spawned [jobs_manager.add] *)
  manager : JobSetManager;
  retry_counters : counters;
  next_counter : nat;
  files : gset string;          (* uploads and video directories *)
  started : list RawJob         (* the log line "job started" *)
}.

(** Updates of one field. *)
Definition set_in_flight (l : list RawJob) (w : world) : world :=
  {| in_flight := l; channel := channel w; tasks := tasks w; available := available w; spawned := spawned w;
     manager := manager w; retry_counters := retry_counters w; next_counter := next_counter w; files := files w; started := started w |}.
Definition set_channel (l : list RawJob) (w : world) : world :=
  {| in_flight := in_flight w; channel := l; tasks := tasks w; available := available w; spawned := spawned w;
     manager := manager w; retry_counters := retry_counters w; next_counter := next_counter w; files := files w; started := started w |}.
Definition set_tasks (t : gmap string task) (w : world) : world :=
  {| in_flight := in_flight w; channel := channel w; tasks := t; available := available w; spawned := spawned w;
     manager := manager w; retry_counters := retry_counters w; next_counter := next_counter w; files := files w; started := started w |}.
Definition set_available (a : pool -> nat) (w : world) : world :=
  {| in_flight := in_flight w; channel := channel w; tasks := tasks w; available := a; spawned := spawned w;
     manager := manager w; retry_counters := retry_counters w; next_counter := next_counter w; files := files w; started := started w |}.
Definition set_spawned (l : list UploadJob) (w : world) : world :=
  {| in_flight := in_flight w; channel := channel w; tasks := tasks w; available := available w; spawned := l;
     manager := manager w; retry_counters := retry_counters w; next_counter := next_counter w; files := files w; started := started w |}.
Definition set_manager (m : JobSetManager) (w : world) : world :=
  {| in_flight := in_flight w; channel := channel w; tasks := tasks w; available := available w; spawned := spawned w;
     manager := m; retry_counters := retry_counters w; next_counter := next_counter w; files := files w; started := started w |}.
Definition set_counters (c : counters) (w : world) : world :=
  {| in_flight := in_flight w; channel := channel w; tasks := tasks w; available := available w; spawned := spawned w;
     manager := manager w; retry_counters := c; next_counter := next_counter w; files := files w; started := started w |}.
Definition set_files (f : gset string) (w : world) : world :=
  {| in_flight := in_flight w; channel := channel w; tasks := tasks w; available := available w; spawned := spawned w;
     manager := manager w; retry_counters := retry_counters w; next_counter := next_counter w; files := f; started := started w |}.
Definition log_started (j : RawJob) (w : world) : world :=
  {| in_flight := in_flight w; channel := channel w; tasks := tasks w; available := available w; spawned := spawned w;
     manager := manager w; retry_counters := retry_counters w; next_counter := next_counter w; files := files w;
     started := (started w ++ [j])%list |}.

Definition add_available (p : pool) (n : nat) (a : pool -> nat) : pool -> nat :=
  fun q => if decide (q = p) then (a q + n)%nat else a q.
Definition sub_available (p : pool) (n : nat) (a : pool -> nat) : pool -> nat :=
  fun q => if decide (q = p) then (a q - n)%nat else a q.

Definition set_task (i : string) (t : task) (w : world) : world := set_tasks (<[i := t]> (tasks w)) w.

(** ** Tasks: [gen_task] *)

(** The permits arrive and the job starts. *)
Definition task_acquire (i : string) (w : world) : outcome world :=
  match tasks w !! i with
  | Some (Waiting j) =>
    n ← acquire_count cfg j;
    let p := for_kind (kind j) in
    if (n <=? available w p)%nat then
      Ret (log_started j (set_task i (Running j n) (set_available (sub_available p n (available w)) w)))
    else Ret w
  | _ => Ret w
  end.

(** The job's handle is ready.  A job that returned is done ([ok]) or has failed;
    the permits are dropped with the task's future, when its result is out.  When
    the job itself panicked the handle gives a join error, on which
    [result.expect("Tokio task Join failed")] panics: the future is polled by the
    handler's loop, so it is the handler that ends. *)
Definition task_finish (i : string) (result : joined) (w : world) : outcome world :=
  match tasks w !! i with
  | Some (Running j n) =>
    match result with JoinError => Panic | Joined ok =>
    let release := set_available (add_available (for_kind (kind j)) n (available w)) in
    if ok then
      let next := next_job (cfg_is_s3 cfg) j in
      let w := match next with Some u => set_spawned (spawned w ++ [u])%list w | None => w end in
      Ret (set_task i (Finished (from_option next)) (release w))
    else
      let '(c, retry) := wait_for_retry j (retry_counters w) in
      let w := set_counters c w in
      match retry with
      | Some _ => Ret (set_task i (Sleeping j n) w)
      | None => Ret (set_task i (Finished (JobErr (on_final_failure j))) (release w))
      end
    end
  | _ => Ret w
  end.

(** The retry interval is over. *)
Definition task_wake (i : string) (w : world) : outcome world :=
  match tasks w !! i with
  | Some (Sleeping j n) =>
    Ret (set_task i (Finished (Retry j)) (set_available (add_available (for_kind (kind j)) n (available w)) w))
  | _ => Ret w
  end.

(** ** Failure actions *)
Definition execute_action (a : Action) (job_id : string) (k : JobKind) (w : world) : world :=
  match a with
  | Silent => w
  | Cleanup =>
    if (k =? CONVERT_KIND)%string then set_files (files w ∖ {[path_join (uploads_dir cfg) job_id]}) w
    else if (k =? UPLOAD_KIND)%string then set_files (files w ∖ {[path_join (videos_dir cfg) job_id]}) w
    else w
  | Webhook _ => w
  end.

Definition execute_actions (writes : bool) (f : FailureJob) (w : world) : world :=
  foldl (fun w a => execute_action a (fj_job_id f) (fj_kind f) w)
        (set_manager (remove writes (fj_job_id f) (manager w)) w) (fj_actions f).

(** ** The loop *)

(** [rx.next()]: the job becomes a task unless its id is in progress. *)
Definition receive (w : world) : outcome world :=
  match channel w with
  | [] => Ret w
  | job :: rest =>
    let w := set_channel rest w in
    match tasks w !! id job with
    | Some _ => Ret w
    | None => Ret (set_task (id job) (Waiting job) w)
    end
  end.

(** [jobs.select_next_some()]: the result of a finished task. *)
Definition handle_result (writes : bool) (i : string) (w : world) : outcome world :=
  match tasks w !! i with
  | Some (Finished result) =>
    let w := set_tasks (delete i (tasks w)) w in
    match result with
    | Done => Ret (set_manager (remove writes i (manager w)) w)
    | Next next_job => Ret (set_channel (channel w ++ [next_job])%list w)
    | Retry job => Ret (set_channel (channel w ++ [job])%list w)
    | JobErr failure_job => Ret (execute_actions writes failure_job w)
    end
  | _ => Ret w
  end.

(** A request handler's [jobs_manager.add(&job)], then its [job_tx.send(job)]. *)
Definition with_counter (a : nat) (j : RawJob) : RawJob :=
  match j with
  | RawConvert j => RawConvert {| cj_id := cj_id j; cj_crf := cj_crf j; cj_dst_bucket := cj_dst_bucket j;
                                  cj_scales := cj_scales j; cj_codecs := cj_codecs j; cj_retry_times := a |}
  | RawMigrate j => RawMigrate (reload_migrate a j)
  | RawUpload j => RawUpload j
  end.

Definition submit (writes : bool) (j : RawJob) (w : world) : outcome world :=
  let a := next_counter w in
  let j := with_counter a j in
  Ret {| in_flight := (in_flight w ++ [j])%list; channel := channel w; tasks := tasks w; available := available w;
         spawned := spawned w; manager := add writes j (manager w); retry_counters := <[a := 0]> (retry_counters w);
         next_counter := S a; files := files w; started := started w |}.

Definition send (n : nat) (w : world) : outcome world :=
  match in_flight w !! n with
  | Some j => Ret (set_channel (channel w ++ [j])%list (set_in_flight (list_delete n (in_flight w)) w))
  | None => Ret w
  end.

(** A spawned [state_c.jobs_manager.add(&next_c)]. *)
Definition run_spawned (writes : bool) (n : nat) (w : world) : outcome world :=
  match spawned w !! n with
  | Some u => Ret (set_manager (add writes (RawUpload u) (manager w)) (set_spawned (list_delete n (spawned w)) w))
  | None => Ret w
  end.

Inductive event :=
  | Submit (j : RawJob) (writes : bool)
  | Send (n : nat)
  | Receive
  | Acquire (i : string)
  | Finish (i : string) (result : joined)
  | Wake (i : string)
  | HandleResult (i : string) (writes : bool)
  | RunSpawned (n : nat) (writes : bool).

Definition step (w : world) (e : event) : outcome world :=
  match e with
  | Submit j writes => submit writes j w
  | Send n => send n w
  | Receive => receive w
  | Acquire i => task_acquire i w
  | Finish i result => task_finish i result w
  | Wake i => task_wake i w
  | HandleResult i writes => handle_result writes i w
  | RunSpawned n writes => run_spawned writes n w
  end.

(** [Panic] is the end of the handler: its loop, its channel and its tasks are gone. *)
Definition run (w : world) (events : list event) : outcome world := foldM step w events.

(** [AppState::new] on the file of an earlier run. *)
Definition start (f : option (list json)) (fs : gset string) : world :=
  let '(m, js) := JobSetManager_new 0 f in
  {| in_flight := []; channel := js; tasks := ∅; available := pool_limit cfg; spawned := [];
     manager := m; retry_counters := ∅; next_counter := length js; files := fs; started := [] |}.

End Handler.

Arguments world : clear implicits.

(** The event is the end of a running job that panicked. *)
Definition job_panics `{Serde ConvertJob, Serde UploadJob, Serde MigrateJob} (w : world) (e : event) : Prop :=
  exists i j n, e = Finish i JoinError /\ tasks w !! i = Some (Running j n).
