(* ===== verification/HandlerInv.v ===== *)
(** * Invariants of the job handler: permits, runs per job, places of a job. *)

From stdpp Require Import base list option strings gmap.
From Stdlib Require Import ZArith Lia Ascii.
From S2P Require Import Prelude RustInt RustStr Convert Storage Jobs Handler.

Local Open Scope nat_scope.

(** ** Sums over the tasks *)
Definition tsum (f : task -> nat) (m : gmap string task) : nat := map_fold (fun _ t acc => f t + acc) 0 m.

Lemma tsum_insert f i t m : m !! i = None -> tsum f (<[i := t]> m) = f t + tsum f m.
Proof. intros Hi. unfold tsum. rewrite map_fold_insert_L; [done|intros; lia|done]. Qed.

Lemma tsum_delete f i t m : m !! i = Some t -> tsum f m = f t + tsum f (delete i m).
Proof. intros Hi. rewrite <-(insert_delete_id m i t) at 1 by done. by rewrite tsum_insert by apply lookup_delete_eq. Qed.

Lemma tsum_replace f i t t' m : m !! i = Some t -> tsum f (<[i := t']> m) + f t = tsum f m + f t'.
Proof.
  intros Hi. rewrite (tsum_delete f i t m) by done. rewrite (tsum_delete f i t' (<[i := t']> m)) by apply lookup_insert_eq.
  rewrite delete_insert_eq. lia.
Qed.

Lemma tsum_empty f : tsum f ∅ = 0.
Proof. done. Qed.

Lemma tsum_le f g m : (forall i t, m !! i = Some t -> f t <= g t) -> tsum f m <= tsum g m.
Proof.
  induction m as [|i t m Hi IH] using map_ind; intros Hfg; [done|].
  rewrite !tsum_insert by done. apply Nat.add_le_mono.
  - apply (Hfg i). apply lookup_insert_eq.
  - apply IH. intros j u Hj. apply (Hfg j). rewrite lookup_insert_ne by congruence. done.
Qed.

(** ** The permits a job asks for *)

Lemma convert_need_permit_pos j : (0 < convert_need_permit j)%Z.
Proof.
  unfold convert_need_permit, saturating_mul, umax.
  assert (0 < length (codecs_deref (cj_codecs j))) as H1 by (destruct (cj_codecs j); cbn; lia).
  assert (0 < length (scales_deref (cj_scales j))) as H2 by (destruct (cj_scales j); cbn; lia).
  apply Z.min_glb_lt; [|by vm_compute]. apply Z.mul_pos_pos; lia.
Qed.

Lemma need_permit_pos (j : RawJob) : (0 < need_permit j)%Z.
Proof. destruct j as [j|j|j]; [apply convert_need_permit_pos|done..]. Qed.

Section Permits.
  Variable cfg : AppConfig.

Definition small_pools : Prop := forall p, fits 32 (Z.of_nat (pool_limit cfg p)).

Lemma acquire_count_spec j n :
  acquire_count cfg j = Ret n ->
  n <= pool_limit cfg (for_kind (kind j)) /\ (0 < pool_limit cfg (for_kind (kind j)) -> 0 < n).
Proof.
  unfold acquire_count. pose proof (need_permit_pos j) as Hn. rewrite (proj2 (Z.ltb_lt _ _) Hn).
  destruct (fitsb 32 _); [|done]. intros <-%Ret_inj. lia.
Qed.

Lemma acquire_count_total j : small_pools -> exists n, acquire_count cfg j = Ret n.
Proof.
  intros Hs. unfold acquire_count. pose proof (need_permit_pos j) as Hn. rewrite (proj2 (Z.ltb_lt _ _) Hn).
  specialize (Hs (for_kind (kind j))). unfold fits in Hs.
  replace (fitsb 32 _) with true; [by eexists|]. symmetry. apply fitsb_spec. unfold fits. lia.
Qed.

(** The permits of pool [p] that a task holds, and whether it occupies [p]. *)
Definition held (p : pool) (t : task) : nat :=
  match t with
  | Running j n | Sleeping j n => if decide (for_kind (kind j) = p) then n else 0
  | _ => 0
  end.

Definition occupies (p : pool) (t : task) : nat :=
  match t with
  | Running j _ | Sleeping j _ => if decide (for_kind (kind j) = p) then 1 else 0
  | _ => 0
  end.

Definition task_ok (t : task) : Prop :=
  match t with Running j n | Sleeping j n => acquire_count cfg j = Ret n | _ => True end.

Definition permits_inv (w : world) : Prop :=
  (forall p, available w p + tsum (held p) (tasks w) = pool_limit cfg p) /\
  (forall i t, tasks w !! i = Some t -> task_ok t).

Lemma occupies_held p t : task_ok t -> 0 < pool_limit cfg p -> occupies p t <= held p t.
Proof.
  destruct t as [j|j n|j n|r]; cbn [task_ok occupies held]; intros Hok Hl; [lia| | |lia];
    case_decide as Hp; [|lia| |lia]; apply acquire_count_spec in Hok as [_ Hok]; rewrite Hp in Hok; lia.
Qed.

(** Replacing the task of an id. *)
Lemma permits_inv_set w i t t' :
  permits_inv w -> tasks w !! i = Some t -> task_ok t' ->
  (forall p, held p t' = held p t) -> permits_inv (set_task i t' w).
Proof.
  intros [Hsum Hok] Hi Ht' Hh. split.
  - intros p. cbn [available tasks set_task set_tasks]. pose proof (tsum_replace (held p) i t t' _ Hi) as Hr.
    rewrite Hh in Hr. specialize (Hsum p). lia.
  - intros k u. cbn [tasks set_task set_tasks]. intros [[-> <-]|[_ Hk]]%lookup_insert_Some; [done|by eapply Hok].
Qed.

(** Giving the permits of a task back. *)
Lemma permits_inv_release w i t j n r :
  permits_inv w -> tasks w !! i = Some t -> (t = Running j n \/ t = Sleeping j n) ->
  permits_inv (set_task i (Finished r) (set_available (add_available (for_kind (kind j)) n (available w)) w)).
Proof.
  intros [Hsum Hok] Hi Ht. split.
  - intros p. cbn [available tasks set_task set_tasks set_available].
    pose proof (tsum_replace (held p) i t (Finished r) _ Hi) as Hr. specialize (Hsum p).
    cbn [held] in Hr. assert (held p t = if decide (for_kind (kind j) = p) then n else 0) as Hh by (by destruct Ht as [-> | ->]).
    rewrite Hh in Hr. unfold add_available. repeat case_decide; subst; try done; lia.
  - intros k u. cbn [tasks set_task set_tasks]. intros [[-> <-]|[_ Hk]]%lookup_insert_Some; [done|by eapply Hok].
Qed.

Lemma permits_inv_same w w' :
  available w' = available w -> tasks w' = tasks w -> permits_inv w -> permits_inv w'.
Proof. intros Ha Ht [H1 H2]. split; rewrite ?Ha, ?Ht; done. Qed.

(** Fields that failure actions leave alone. *)
Lemma execute_actions_frame (Sc : Serde ConvertJob) (Su : Serde UploadJob) (Sm : Serde MigrateJob) writes f w :
  let w' := execute_actions cfg writes f w in
  in_flight w' = in_flight w /\ channel w' = channel w /\ tasks w' = tasks w /\ available w' = available w /\
  spawned w' = spawned w /\ manager w' = remove writes (fj_job_id f) (manager w) /\
  retry_counters w' = retry_counters w /\ next_counter w' = next_counter w /\ started w' = started w.
Proof.
  unfold execute_actions. set (w0 := set_manager _ w).
  assert (forall l v, in_flight v = in_flight w0 /\ channel v = channel w0 /\ tasks v = tasks w0 /\ available v = available w0 /\
            spawned v = spawned w0 /\ manager v = manager w0 /\ retry_counters v = retry_counters w0 /\
            next_counter v = next_counter w0 /\ started v = started w0 ->
          let v' := foldl (fun w a => execute_action cfg a (fj_job_id f) (fj_kind f) w) v l in
          in_flight v' = in_flight w0 /\ channel v' = channel w0 /\ tasks v' = tasks w0 /\ available v' = available w0 /\
            spawned v' = spawned w0 /\ manager v' = manager w0 /\ retry_counters v' = retry_counters w0 /\
            next_counter v' = next_counter w0 /\ started v' = started w0) as H.
  { induction l as [|a l IH]; intros v Hv; [done|]. cbn [foldl]. apply IH. unfold execute_action.
    destruct a; [done| |done]. repeat case_match; done. }
  apply H. done.
Qed.

Context `{Sc : Serde ConvertJob, Su : Serde UploadJob, Sm : Serde MigrateJob}.

Lemma permits_inv_step w e :
  small_pools -> permits_inv w ->
  (exists w', step cfg w e = Ret w' /\ permits_inv w') \/ (step cfg w e = Panic /\ job_panics w e).
Proof.
  intros Hs Hinv.
  assert (forall i, e = Finish i JoinError -> (exists w', step cfg w e = Ret w' /\ permits_inv w') \/
    (step cfg w e = Panic /\ job_panics w e)) as Hpanic.
  { intros i ->. cbn [step]. unfold task_finish, job_panics.
    destruct (tasks w !! i) as [[j|j n|j n|r]|] eqn:Ei; [by eauto| |by eauto..].
    right. split; [done|]. by exists i, j, n. }
  destruct (match e with Finish _ JoinError => true | _ => false end) eqn:Hj.
  { destruct e as [| | | |i [|]| | |]; try discriminate Hj. by apply (Hpanic i). }
  left. clear Hpanic. destruct e as [j wr|n| |i|i ok|i|i wr|n wr]; cbn [step].
  - eexists. split; [reflexivity|]. by apply (permits_inv_same w).
  - unfold send. case_match; eexists; (split; [reflexivity|]); by apply (permits_inv_same w).
  - unfold receive. destruct (channel w) as [|j rest]; [by eauto|]. cbn [tasks set_channel].
    destruct (tasks w !! id j) as [t|] eqn:Ei; eexists; (split; [reflexivity|]); [by apply (permits_inv_same w)|].
    destruct Hinv as [Hsum Hok]. split.
    + intros p. cbn [available tasks set_task set_tasks set_channel]. rewrite tsum_insert by done. apply Hsum.
    + intros k u. cbn [tasks set_task set_tasks set_channel]. intros [[<- <-]|[_ Hk]]%lookup_insert_Some; [done|by eapply Hok].
  - unfold task_acquire. destruct (tasks w !! i) as [[j|j n|j n|r]|] eqn:Ei; [|by eauto..].
    destruct (acquire_count_total j Hs) as [n Hn]. rewrite Hn. cbn [mbind outcome_bind].
    destruct (n <=? available w (for_kind (kind j)))%nat eqn:El; [|by eauto]. apply Nat.leb_le in El.
    eexists. split; [reflexivity|]. destruct Hinv as [Hsum Hok]. split.
    + intros p. cbn [available tasks set_task set_tasks set_available log_started].
      pose proof (tsum_replace (held p) i (Waiting j) (Running j n) _ Ei) as Hr. specialize (Hsum p).
      cbn [held] in Hr. unfold sub_available. repeat case_decide; subst; try done; lia.
    + intros k u. cbn [tasks set_task set_tasks set_available log_started].
      intros [[-> <-]|[_ Hk]]%lookup_insert_Some; [done|by eapply Hok].
  - unfold task_finish. destruct (tasks w !! i) as [[j|j n|j n|r]|] eqn:Ei; [by eauto| |by eauto..].
    destruct ok as [[]|]; [| |discriminate Hj].
    + eexists. split; [reflexivity|].
      apply (permits_inv_same (set_task i (Finished (from_option (next_job (cfg_is_s3 cfg) j)))
               (set_available (add_available (for_kind (kind j)) n (available w)) w))).
      1, 2: by destruct (next_job (cfg_is_s3 cfg) j).
      by apply (permits_inv_release w i (Running j n) j n); [done|done|left].
    + destruct (wait_for_retry j (retry_counters w)) as [c [s|]].
      * eexists. split; [reflexivity|]. eapply (permits_inv_set _ i (Running j n)); [by apply (permits_inv_same w)|done| |done].
        destruct Hinv as [_ Hok]. exact (Hok i _ Ei).
      * eexists. split; [reflexivity|].
        by apply (permits_inv_release (set_counters c w) i (Running j n) j n); [apply (permits_inv_same w)|done|left].
  - unfold task_wake. destruct (tasks w !! i) as [[j|j n|j n|r]|] eqn:Ei; [by eauto|by eauto| |by eauto..].
    eexists. split; [reflexivity|]. apply (permits_inv_release w i (Sleeping j n) j n); [done|done|by right].
  - unfold handle_result. destruct (tasks w !! i) as [[j|j n|j n|r]|] eqn:Ei; [by eauto..| |by eauto].
    assert (permits_inv (set_tasks (delete i (tasks w)) w)) as Hdel.
    { destruct Hinv as [Hsum Hok]. split.
      - intros p. cbn [available tasks set_tasks]. specialize (Hsum p). rewrite (tsum_delete _ i _ _ Ei) in Hsum. exact Hsum.
      - intros k u. cbn [tasks set_tasks]. intros [_ Hk]%lookup_delete_Some. by eapply Hok. }
    destruct r as [|j|j|f]; eexists; (split; [reflexivity|]); [by apply (permits_inv_same (set_tasks (delete i (tasks w)) w))..|].
    destruct (execute_actions_frame Sc Su Sm wr f (set_tasks (delete i (tasks w)) w)) as (_ & _ & Ht & Ha & _).
    by apply (permits_inv_same (set_tasks (delete i (tasks w)) w)).
  - unfold run_spawned. case_match; eexists; (split; [reflexivity|]); by apply (permits_inv_same w).
Qed.

Lemma permits_inv_start f fs : permits_inv (start cfg f fs).
Proof.
  unfold start. destruct (JobSetManager_new 0 f) as [m js]. split; cbn [available tasks].
  - intros p. rewrite tsum_empty. lia.
  - intros i t. by rewrite lookup_empty.
Qed.

Lemma permits_inv_run w events :
  small_pools -> permits_inv w ->
  (exists w', run cfg w events = Ret w' /\ permits_inv w') \/
  (run cfg w events = Panic /\
   exists done e rest w', events = (done ++ e :: rest)%list /\ run cfg w done = Ret w' /\ permits_inv w' /\ job_panics w' e).
Proof. intros Hs Hinv. apply foldM_total_or; [done|]. intros v e Hv. by apply permits_inv_step. Qed.

End Permits.

(** ** How often a job runs

    Jobs with a bounded number of retries are identified by the address of
    their counter. *)
Definition addr (j : RawJob) : option nat :=
  match j with
  | RawConvert j => Some (cj_retry_times j)
  | RawMigrate j => Some (mj_retry_times j)
  | RawUpload _ => None
  end.

Definition is_at (a : nat) (j : RawJob) : nat := if decide (addr j = Some a) then 1 else 0.

Fixpoint count (a : nat) (l : list RawJob) : nat :=
  match l with [] => 0 | j :: l => is_at a j + count a l end.

Lemma count_app a l1 l2 : count a (l1 ++ l2) = count a l1 + count a l2.
Proof. induction l1; simpl; lia. Qed.

Lemma count_snoc a l j : count a (l ++ [j]) = count a l + is_at a j.
Proof. rewrite count_app. simpl. lia. Qed.

Lemma count_delete a l n j : l !! n = Some j -> count a l = is_at a j + count a (list_delete n l).
Proof.
  revert n. induction l as [|k l IH]; intros [|n]; [done|done| |].
  - by intros [= ->].
  - intros Hn. change (list_delete (S n) (k :: l)) with (k :: list_delete n l). cbn [count]. rewrite (IH n Hn). lia.
Qed.

(** Whether a task will start the job again without a further retry. *)
Definition will_start (a : nat) (t : task) : nat :=
  match t with
  | Waiting j | Sleeping j _ | Finished (Retry j) | Finished (Next j) => is_at a j
  | Running _ _ | Finished _ => 0
  end.

Definition before_start (a : nat) (w : world) : nat :=
  count a (in_flight w) + count a (channel w) + tsum (will_start a) (tasks w).

Definition starts (a : nat) (w : world) : nat := count a (started w).

Definition task_addr (t : task) : option nat :=
  match t with
  | Waiting j | Running j _ | Sleeping j _ | Finished (Retry j) | Finished (Next j) => addr j
  | Finished _ => None
  end.

Definition known (n : nat) (o : option nat) : Prop := forall a, o = Some a -> a < n.

(** Every counter is below the next address, and each start is paid for by the
    submission or by a retry. *)
Definition runs_inv (w : world) : Prop :=
  (forall a, next_counter w <= a -> starts a w + before_start a w = 0) /\
  (forall i t, tasks w !! i = Some t -> known (next_counter w) (task_addr t)) /\
  (forall a, (0 <= load a (retry_counters w) <= 5)%Z /\
             (Z.of_nat (starts a w + before_start a w) <= load a (retry_counters w) + 1)%Z).

Lemma is_at_known n j a : known n (addr j) -> n <= a -> is_at a j = 0.
Proof. intros Hk Ha. unfold is_at. case_decide as E; [|done]. specialize (Hk a E). lia. Qed.

Lemma is_at_addr a j : 0 < is_at a j -> addr j = Some a.
Proof. unfold is_at. case_decide; [done|lia]. Qed.

(** Jobs in a place are known when the places hold no unknown address. *)
Lemma known_of_place w j (place : nat -> nat) :
  (forall a, next_counter w <= a -> starts a w + before_start a w = 0) ->
  (forall a, place a <= starts a w + before_start a w) -> (forall a, is_at a j <= place a) ->
  known (next_counter w) (addr j).
Proof.
  intros Hf Hp Hj a Ha. destruct (decide (a < next_counter w)) as [|Hge]; [done|]. exfalso.
  specialize (Hf a ltac:(lia)). specialize (Hp a). specialize (Hj a). unfold is_at in Hj. rewrite decide_True in Hj by done. lia.
Qed.

(** A change that moves jobs between places and starts, or loses some. *)
Lemma runs_inv_le w w' :
  runs_inv w ->
  (forall a, starts a w' + before_start a w' <= starts a w + before_start a w) ->
  (forall i t, tasks w' !! i = Some t -> known (next_counter w) (task_addr t)) ->
  retry_counters w' = retry_counters w -> next_counter w' = next_counter w -> runs_inv w'.
Proof.
  intros (Hf & Hk & Hb) Hle Hk' Hc Hn. unfold runs_inv. rewrite Hc, Hn. split; [|split; [done|]].
  - intros a Ha. specialize (Hf a Ha). specialize (Hle a). lia.
  - intros a. destruct (Hb a) as [H1 H2]. specialize (Hle a). lia.
Qed.

Lemma known_set w i t t' :
  runs_inv w -> tasks w !! i = Some t -> known (next_counter w) (task_addr t') ->
  forall k u, <[i := t']> (tasks w) !! k = Some u -> known (next_counter w) (task_addr u).
Proof. intros (_ & Hk & _) _ Ht' k u [[<- <-]|[_ Hu]]%lookup_insert_Some; [done|by eapply Hk]. Qed.

Lemma known_delete w i :
  runs_inv w -> forall k u, delete i (tasks w) !! k = Some u -> known (next_counter w) (task_addr u).
Proof. intros (_ & Hk & _) k u [_ Hu]%lookup_delete_Some. by eapply Hk. Qed.

(** What a failed run does to the counters. *)
Lemma retry_counter j c c' s :
  wait_for_retry j c = (c', Some s) ->
  match addr j with
  | None => c' = c
  | Some a => (load a c < 5)%Z /\ c' = <[a := (load a c + 1)%Z]> c
  end.
Proof.
  destruct j as [j|j|j]; cbn [wait_for_retry raw_job convert_job migrate_job upload_job addr].
  - unfold bounded_retry. destruct (load (cj_retry_times j) c <? 5)%Z eqn:E; [|done]. intros [= <- _]. split; [lia|done].
  - by intros [= <- _].
  - unfold bounded_retry, MAX_RETRIES. destruct (load (mj_retry_times j) c <? 5)%Z eqn:E; [|done]. intros [= <- _]. split; [lia|done].
Qed.

Lemma no_retry_counter j c c' : wait_for_retry j c = (c', None) -> c' = c /\ is_Some (addr j).
Proof.
  destruct j as [j|j|j]; cbn [wait_for_retry raw_job convert_job migrate_job upload_job addr]; [| |].
  - unfold bounded_retry. destruct (_ <? 5)%Z; [done|]. intros [= <-]. by eauto.
  - done.
  - unfold bounded_retry. destruct (_ <? MAX_RETRIES)%Z; [done|]. intros [= <-]. by eauto.
Qed.

Lemma load_insert a b v c : load b (<[a := v]> c) = if decide (a = b) then v else load b c.
Proof. unfold load, counters in *. case_decide; subst; [by rewrite (lookup_insert_eq (M := gmap nat))|by rewrite (lookup_insert_ne (M := gmap nat))]. Qed.

Section Runs.
  Context `{Sc : Serde ConvertJob, Su : Serde UploadJob, Sm : Serde MigrateJob}.
  Variable cfg : AppConfig.

Lemma is_at_with_counter a b j : is_at a (with_counter b j) = if decide (a = b) then is_at a (with_counter a j) else 0.
Proof.
  unfold is_at. destruct j as [j|j|j]; cbn [with_counter addr cj_retry_times mj_retry_times reload_migrate];
    repeat case_decide; subst; try done; congruence.
Qed.

Lemma is_at_le a j : is_at a j <= 1.
Proof. unfold is_at. case_decide; lia. Qed.

Lemma known_with_counter n a j : a < n -> known n (addr (with_counter a j)).
Proof. intros Ha b. destruct j; cbn [with_counter addr cj_retry_times mj_retry_times reload_migrate]; by intros [= <-]. Qed.

Lemma known_mono n m o : known n o -> n <= m -> known m o.
Proof. intros Hk Hle a Ha. specialize (Hk a Ha). lia. Qed.

Lemma known_S n i t (m : gmap string task) :
  (forall i t, m !! i = Some t -> known n (task_addr t)) -> m !! i = Some t -> known (S n) (task_addr t).
Proof. intros Hk Hi. eapply known_mono; [by eapply Hk|lia]. Qed.

Lemma runs_inv_submit w j wr w' : runs_inv w -> submit wr j w = Ret w' -> runs_inv w'.
Proof.
  intros (Hf & Hk & Hb) [= <-]. split; [|split].
  - intros a Ha. cbn [next_counter] in Ha. specialize (Hf a ltac:(lia)). revert Hf.
    unfold starts, before_start. cbn [started in_flight channel tasks]. rewrite count_snoc, is_at_with_counter.
    rewrite decide_False by lia. lia.
  - intros i t. cbn [tasks next_counter]. by apply known_S.
  - intros a. cbn [retry_counters]. rewrite load_insert.
    destruct (Hb a) as [H1 H2]. revert H2. unfold starts, before_start. cbn [started in_flight channel tasks].
    rewrite count_snoc, is_at_with_counter. destruct (decide (a = next_counter w)) as [->|Hne].
    + rewrite decide_True by done. pose proof (Hf (next_counter w) ltac:(lia)) as Hz. revert Hz. unfold starts, before_start.
      pose proof (is_at_le (next_counter w) (with_counter (next_counter w) j)). lia.
    + rewrite decide_False by congruence. lia.
Qed.

Lemma runs_inv_send w n w' : runs_inv w -> send n w = Ret w' -> runs_inv w'.
Proof.
  intros Hinv. unfold send. destruct (in_flight w !! n) as [j|] eqn:E; intros <-%Ret_inj; [|done].
  apply (runs_inv_le w); [done| |apply Hinv|done..].
  intros a. unfold starts, before_start. cbn [started in_flight channel tasks set_in_flight set_channel].
  rewrite count_snoc, (count_delete a _ _ _ E). lia.
Qed.

Lemma runs_inv_receive w w' : runs_inv w -> receive w = Ret w' -> runs_inv w'.
Proof.
  intros Hinv. unfold receive. destruct (channel w) as [|j rest] eqn:Ec; [by intros <-%Ret_inj|].
  cbn [tasks set_channel]. destruct (tasks w !! id j) as [t|] eqn:Ei; intros <-%Ret_inj.
  - apply (runs_inv_le w); [done| |apply Hinv|done..].
    intros a. unfold starts, before_start. cbn [started in_flight channel tasks set_channel]. rewrite Ec. cbn [count]. lia.
  - apply (runs_inv_le w); [done| | |done..].
    + intros a. unfold starts, before_start. cbn [started in_flight channel tasks set_channel set_task set_tasks].
      rewrite tsum_insert, Ec by done. cbn [count will_start]. lia.
    + intros k u. cbn [tasks set_channel set_task set_tasks]. intros [[<- <-]|[_ Hu]]%lookup_insert_Some.
      * apply (known_of_place w j (fun a => count a (channel w))); [apply Hinv| |].
        -- intros a. unfold before_start. lia.
        -- intros a. rewrite Ec. cbn [count]. lia.
      * destruct Hinv as (_ & Hk & _). by eapply Hk.
Qed.

Lemma runs_inv_acquire w i w' : runs_inv w -> task_acquire cfg i w = Ret w' -> runs_inv w'.
Proof.
  intros Hinv. unfold task_acquire. destruct (tasks w !! i) as [[j|j n|j n|r]|] eqn:Ei; try by intros <-%Ret_inj.
  intros (n & _ & H)%bind_Ret. revert H. case_match; intros <-%Ret_inj; [|done].
  apply (runs_inv_le w); [done| | |done..].
  - intros a. unfold starts, before_start. cbn [started in_flight channel tasks set_available set_task set_tasks log_started].
    rewrite count_snoc. pose proof (tsum_replace (will_start a) i _ (Running j n) _ Ei) as Hr. cbn [will_start] in Hr. lia.
  - cbn [tasks log_started set_task set_tasks set_available]. apply (known_set w i (Waiting j)); [done|done|].
    destruct Hinv as (_ & Hk & _). exact (Hk i _ Ei).
Qed.

Lemma runs_inv_finish w i ok w' : runs_inv w -> task_finish cfg i ok w = Ret w' -> runs_inv w'.
Proof.
  intros Hinv. unfold task_finish. destruct (tasks w !! i) as [[j|j n|j n|r]|] eqn:Ei; try by intros <-%Ret_inj.
  pose proof Hinv as (Hf & Hk & Hb). destruct ok as [[]|]; [| |done].
  - intros <-%Ret_inj. set (r := from_option _).
    assert (task_addr (Finished r) = None /\ forall a, will_start a (Finished r) = 0) as [Hr0 Hr1].
    { subst r. destruct (next_job _ j); split; try done; intros a; cbn; unfold is_at; by rewrite decide_False. }
    assert (forall a, starts a w + before_start a w =
      starts a (set_task i (Finished r) w) + before_start a (set_task i (Finished r) w)) as Heq.
    { intros a. unfold starts, before_start. cbn [started in_flight channel tasks set_task set_tasks].
      pose proof (tsum_replace (will_start a) i _ (Finished r) _ Ei) as Hr. rewrite Hr1 in Hr. cbn [will_start] in Hr. lia. }
    assert (forall k u, <[i := Finished r]> (tasks w) !! k = Some u -> known (next_counter w) (task_addr u)) as Hk'.
    { apply (known_set w i (Running j n)); [done|done|]. by rewrite Hr0. }
    destruct (next_job (cfg_is_s3 cfg) j); (apply (runs_inv_le w); [done| |exact Hk'|done..]);
      intros a; rewrite (Heq a); done.
  - destruct (wait_for_retry j (retry_counters w)) as [c [s|]] eqn:Er; intros <-%Ret_inj.
    + apply retry_counter in Er. destruct (addr j) as [a0|] eqn:Ea.
      * destruct Er as [Hlt ->]. split; [|split].
        -- intros a Ha. cbn [next_counter set_task set_tasks set_counters] in Ha. specialize (Hf a Ha). revert Hf.
           unfold starts, before_start. cbn [started in_flight channel tasks set_task set_tasks set_counters].
           pose proof (tsum_replace (will_start a) i _ (Sleeping j n) _ Ei) as Hr. cbn [will_start] in Hr.
           rewrite (is_at_known (next_counter w) j a) in Hr; [lia| |done]. exact (Hk i _ Ei).
        -- cbn [tasks next_counter set_task set_tasks set_counters]. apply (known_set w i (Running j n)); [done|done|].
           exact (Hk i _ Ei).
        -- intros a. cbn [retry_counters set_task set_tasks set_counters]. rewrite load_insert.
           destruct (Hb a) as [H1 H2]. revert H2. unfold starts, before_start.
           cbn [started in_flight channel tasks set_task set_tasks set_counters].
           pose proof (tsum_replace (will_start a) i _ (Sleeping j n) _ Ei) as Hr. cbn [will_start] in Hr.
           pose proof (is_at_le a j). destruct (decide (a0 = a)) as [->|Hne]; [lia|].
           assert (is_at a j = 0) as Hz by (unfold is_at; rewrite decide_False; congruence). lia.
      * subst c. apply (runs_inv_le w); [done| | |done..].
        -- intros a. unfold starts, before_start. cbn [started in_flight channel tasks set_task set_tasks set_counters].
           pose proof (tsum_replace (will_start a) i _ (Sleeping j n) _ Ei) as Hr. cbn [will_start] in Hr.
           assert (is_at a j = 0) as Hz by (unfold is_at; rewrite decide_False; congruence). lia.
        -- cbn [tasks set_task set_tasks set_counters]. apply (known_set w i (Running j n)); [done|done|]. exact (Hk i _ Ei).
    + apply no_retry_counter in Er as [-> _]. apply (runs_inv_le w); [done| | |done..].
      * intros a. unfold starts, before_start. cbn [started in_flight channel tasks set_task set_tasks set_counters set_available].
        pose proof (tsum_replace (will_start a) i _ (Finished (JobErr (on_final_failure j))) _ Ei) as Hr. cbn [will_start] in Hr. lia.
      * cbn [tasks set_task set_tasks set_counters set_available]. by apply (known_set w i (Running j n)).
Qed.

Lemma runs_inv_wake w i w' : runs_inv w -> task_wake i w = Ret w' -> runs_inv w'.
Proof.
  intros Hinv. unfold task_wake. destruct (tasks w !! i) as [[j|j n|j n|r]|] eqn:Ei; try by intros <-%Ret_inj.
  intros <-%Ret_inj. apply (runs_inv_le w); [done| | |done..].
  - intros a. unfold starts, before_start. cbn [started in_flight channel tasks set_task set_tasks set_available].
    pose proof (tsum_replace (will_start a) i _ (Finished (Retry j)) _ Ei) as Hr. cbn [will_start] in Hr. lia.
  - cbn [tasks set_task set_tasks set_available]. apply (known_set w i (Sleeping j n)); [done|done|].
    destruct Hinv as (_ & Hk & _). exact (Hk i _ Ei).
Qed.

Lemma runs_inv_handle w wr i w' : runs_inv w -> handle_result cfg wr i w = Ret w' -> runs_inv w'.
Proof.
  intros Hinv. unfold handle_result. destruct (tasks w !! i) as [[j|j n|j n|r]|] eqn:Ei; try by intros <-%Ret_inj.
  assert (forall a, tsum (will_start a) (tasks w) = will_start a (Finished r) + tsum (will_start a) (delete i (tasks w))) as Hd
    by (intros a; by apply tsum_delete).
  pose proof (known_delete w i Hinv) as Hk.
  destruct r as [|j|j|f]; intros <-%Ret_inj.
  - apply (runs_inv_le w); [done| |exact Hk|done..]. intros a. unfold starts, before_start.
    cbn [started in_flight channel tasks set_manager set_tasks]. specialize (Hd a). lia.
  - apply (runs_inv_le w); [done| |exact Hk|done..]. intros a. unfold starts, before_start.
    cbn [started in_flight channel tasks set_channel set_tasks]. rewrite count_snoc. specialize (Hd a). cbn [will_start] in Hd. lia.
  - apply (runs_inv_le w); [done| |exact Hk|done..]. intros a. unfold starts, before_start.
    cbn [started in_flight channel tasks set_channel set_tasks]. rewrite count_snoc. specialize (Hd a). cbn [will_start] in Hd. lia.
  - destruct (execute_actions_frame cfg Sc Su Sm wr f (set_tasks (delete i (tasks w)) w)) as (H1 & H2 & H3 & H4 & H5 & H6 & H7 & H8 & H9).
    apply (runs_inv_le w); [done| | |done..].
    + intros a. unfold starts, before_start. rewrite H1, H2, H3, H9. cbn [started in_flight channel tasks set_tasks].
      specialize (Hd a). lia.
    + rewrite H3. exact Hk.
Qed.

Lemma runs_inv_step w e w' : runs_inv w -> step cfg w e = Ret w' -> runs_inv w'.
Proof.
  intros Hinv. destruct e as [j wr|n| |i|i ok|i|i wr|n wr]; cbn [step].
  - by apply runs_inv_submit.
  - by apply runs_inv_send.
  - by apply runs_inv_receive.
  - by apply runs_inv_acquire.
  - by apply runs_inv_finish.
  - by apply runs_inv_wake.
  - by apply runs_inv_handle.
  - unfold run_spawned. case_match; intros <-%Ret_inj; [|done].
    apply (runs_inv_le w); [done|done|apply Hinv|done..].
Qed.

Context `{!SerdeLaws}.

Lemma from_json_addr a v j : from_json a v = Ok j -> forall b, is_at b j <= if decide (b = a) then 1 else 0.
Proof.
  assert ((exists k v', from_kind_and_payload a k v' = Ok j) \/ from_legacy_json a v = Ok j ->
          addr j = None \/ addr j = Some a) as Haddr.
  { intros [(k & v' & Hj)|Hj]; revert Hj.
    - unfold from_kind_and_payload. repeat case_match; intros [= <-]; [right|left|right]; try done; cbn [addr]; f_equal.
      + by eapply law_fresh_convert.
      + by eapply law_fresh_migrate.
    - unfold from_legacy_json. repeat case_match; intros [= <-]; [right|by left]. cbn [addr]. f_equal.
      by eapply law_fresh_convert. }
  intros Hj b. assert (addr j = None \/ addr j = Some a) as Ha.
  { revert Hj. unfold from_json. repeat case_match; intros Hj; try done; apply Haddr; eauto. }
  unfold is_at. repeat case_decide; destruct Ha; congruence || lia.
Qed.

Lemma from_json_all_count a vs js b :
  from_json_all a vs = Ok js -> count b js <= if decide (a <= b < a + length js) then 1 else 0.
Proof.
  revert a js. induction vs as [|v vs IH]; intros a js; cbn [from_json_all].
  { intros [= <-]. cbn. lia. }
  destruct (from_json a v) as [j|] eqn:Ej; [|done]. destruct (from_json_all (S a) vs) as [js'|] eqn:Ejs; [|done].
  intros [= <-]. cbn [count length]. pose proof (from_json_addr a v j Ej b) as H1. pose proof (IH (S a) js' Ejs) as H2.
  repeat case_decide; lia.
Qed.

Lemma runs_inv_start f fs : runs_inv (start cfg f fs).
Proof.
  unfold start, JobSetManager_new. set (js := match f with Some _ => _ | None => _ end).
  assert (forall b, count b js <= if decide (b < length js) then 1 else 0) as Hjs.
  { intros b. subst js. destruct f as [vs|]; [|cbn; lia]. destruct (from_json_all 0 vs) as [js|] eqn:E; [|cbn; lia].
    pose proof (from_json_all_count 0 vs js b E). repeat case_decide; lia. }
  split; [|split].
  - intros a. cbn [next_counter]. intros Ha. unfold starts, before_start. cbn [started in_flight channel tasks count].
    rewrite tsum_empty. specialize (Hjs a). case_decide; lia.
  - intros i t. cbn [tasks]. by rewrite lookup_empty.
  - intros a. cbn [retry_counters]. unfold starts, before_start. cbn [started in_flight channel tasks count].
    rewrite tsum_empty. specialize (Hjs a). change (load a ∅) with 0%Z. case_decide; lia.
Qed.

Lemma runs_inv_run w events w' : runs_inv w -> run cfg w events = Ret w' -> runs_inv w'.
Proof.
  intros Hinv. apply (foldM_inv (fun _ => runs_inv)); [done|].
  intros ? e ? w1 w2 _ Hw1. by apply runs_inv_step.
Qed.

End Runs.
