(* ===== verification/HandlerPending.v ===== *)
(** * The pending jobs and the jobs that are still to be done.

    When a request handler's check and its submission are not interleaved with
    another submission of the same id, and the record that [next_job] spawns is
    written at once, the set of pending jobs is the set of unfinished jobs and
    every unfinished job is in exactly one place. *)

From stdpp Require Import base list option strings gmap.
From Stdlib Require Import ZArith Lia Ascii.
From S2P Require Import Prelude RustInt RustStr Convert Storage Jobs Handler HandlerInv.

Local Open Scope nat_scope.

Section Pending.
  Context `{Sc : Serde ConvertJob, Su : Serde UploadJob, Sm : Serde MigrateJob}.
  Variable cfg : AppConfig.

(** How often an id occurs in a list of jobs. *)
Fixpoint occurs (k : string) (l : list RawJob) : nat :=
  match l with [] => 0 | j :: l => (if decide (id j = k) then 1 else 0) + occurs k l end.

Definition in_tasks (k : string) (w : world) : nat := match tasks w !! k with Some _ => 1 | None => 0 end.

(** In how many places a job with this id waits or runs. *)
Definition places (k : string) (w : world) : nat :=
  occurs k (in_flight w) + occurs k (channel w) + in_tasks k w.

Definition pending (w : world) : list string := ids (jobs (manager w)).

(** The job in a task has the task's id. *)
Definition task_id_ok (i : string) (t : task) : Prop :=
  match t with
  | Waiting j | Running j _ | Sleeping j _ | Finished (Retry j) | Finished (Next j) => id j = i
  | Finished (JobErr f) => fj_job_id f = i
  | Finished Done => True
  end.

Definition pending_inv (w : world) : Prop :=
  (forall k, places k w = if decide (k ∈ pending w) then 1 else 0) /\
  (forall i t, tasks w !! i = Some t -> task_id_ok i t) /\
  spawned w = [].

(** The request handlers' check (the id is not pending) together with the
    submission, and the spawned record written before anything else. *)
Definition step_atomic (w : world) (e : event) : outcome world :=
  match e with
  | Submit j _ => if decide (id j ∈ pending w) then Ret w else step cfg w e
  | _ => w' ← step cfg w e; run_spawned true 0 w'
  end.

Definition run_atomic (w : world) (events : list event) : outcome world := foldM step_atomic w events.

Lemma occurs_snoc k l j : occurs k (l ++ [j]) = occurs k l + (if decide (id j = k) then 1 else 0).
Proof. induction l as [|h l IH]; cbn [occurs app]; lia. Qed.

Lemma occurs_delete k l n j :
  l !! n = Some j -> occurs k l = (if decide (id j = k) then 1 else 0) + occurs k (list_delete n l).
Proof.
  revert n. induction l as [|h l IH]; intros [|n]; [done|done| |].
  - by intros [= ->].
  - intros Hn. change (list_delete (S n) (h :: l)) with (h :: list_delete n l). cbn [occurs]. rewrite (IH n Hn). lia.
Qed.

Lemma occurs_elem k l : 0 < occurs k l <-> k ∈ ids l.
Proof.
  unfold ids. induction l as [|h l IH]; cbn [occurs].
  - split; [lia|]. by intros ?%not_elem_of_nil.
  - rewrite fmap_cons, elem_of_cons, <-IH. case_decide as E.
    + split; [by left|lia].
    + split; [right; lia|intros [Hk|Hk]; [congruence|lia]].
Qed.

Lemma id_with_counter a j : id (with_counter a j) = id j.
Proof. by destruct j. Qed.

Lemma pending_add w k j wr :
  k ∈ ids (jobs (add wr j (manager w))) <-> k = id j \/ k ∈ pending w.
Proof. apply ids_add. Qed.

(** Nothing recorded changes, and no job moves to another place count. *)
Lemma pending_inv_same w w' :
  pending_inv w -> jobs (manager w') = jobs (manager w) -> spawned w' = [] ->
  (forall k, places k w' = places k w) ->
  (forall i t, tasks w' !! i = Some t -> task_id_ok i t) -> pending_inv w'.
Proof.
  intros (Hp & _ & _) Hm Hs Hpl Ht. split; [|done]. intros k. rewrite Hpl, Hp. unfold pending. by rewrite Hm.
Qed.

Lemma run_spawned_nil w wr n : spawned w = [] -> run_spawned wr n w = Ret w.
Proof. intros Hs. unfold run_spawned. by rewrite Hs, lookup_nil. Qed.

Lemma task_ids_set w i t t' :
  pending_inv w -> tasks w !! i = Some t -> task_id_ok i t' ->
  forall k u, <[i := t']> (tasks w) !! k = Some u -> task_id_ok k u.
Proof. intros (_ & Ht & _) _ Ht' k u [[<- <-]|[_ Hu]]%lookup_insert_Some; [done|by apply Ht]. Qed.

Lemma in_tasks_set w i t t' k :
  tasks w !! i = Some t -> (match <[i := t']> (tasks w) !! k with Some _ => 1 | None => 0 end) = in_tasks k w.
Proof.
  intros Hi. unfold in_tasks. destruct (decide (i = k)) as [->|Hne].
  - by rewrite lookup_insert_eq, Hi.
  - by rewrite lookup_insert_ne.
Qed.

(** A task changes its state, with no other effect on jobs. *)
Lemma pending_inv_set w w' i t t' :
  pending_inv w -> tasks w !! i = Some t -> task_id_ok i t' ->
  in_flight w' = in_flight w -> channel w' = channel w -> tasks w' = <[i := t']> (tasks w) ->
  manager w' = manager w -> spawned w' = [] -> pending_inv w'.
Proof.
  intros Hinv Hi Ht' Hf Hc Ht Hm Hs. apply (pending_inv_same w); [done|by rewrite Hm|done| |].
  - intros k. unfold places, in_tasks at 1. rewrite Hf, Hc, Ht. by rewrite (in_tasks_set w i t).
  - rewrite Ht. by apply (task_ids_set w i t).
Qed.

Lemma bind_run_spawned w' : spawned w' = [] -> pending_inv w' ->
  exists w'', (Ret w' ≫= run_spawned true 0) = Ret w'' /\ pending_inv w''.
Proof. intros Hs Hp. exists w'. cbn. by rewrite run_spawned_nil. Qed.

Lemma pending_inv_submit w j wr :
  pending_inv w -> id j ∉ pending w -> exists w', submit wr j w = Ret w' /\ pending_inv w'.
Proof.
  intros (Hp & Ht & Hs) Hn. eexists. split; [reflexivity|]. split; [|done]. intros k.
  unfold places, pending, in_tasks. cbn [in_flight channel tasks manager]. rewrite occurs_snoc, id_with_counter.
  specialize (Hp k). unfold places, in_tasks in Hp.
  assert (k ∈ ids (jobs (add wr (with_counter (next_counter w) j) (manager w))) <-> k = id j \/ k ∈ pending w) as Hadd
    by (by rewrite pending_add, id_with_counter).
  rewrite (decide_ext _ _ 1 0 Hadd).
  destruct (decide (id j = k)) as [<-|Hne].
  - rewrite decide_False in Hp by done. rewrite decide_True by auto. lia.
  - destruct (decide (k ∈ pending w)); [rewrite decide_True by auto|rewrite decide_False by naive_solver]; lia.
Qed.

Lemma pending_inv_receive w : pending_inv w -> exists w', receive w = Ret w' /\ pending_inv w'.
Proof.
  intros Hinv. unfold receive. destruct (channel w) as [|j rest] eqn:Ec; [by eauto|]. cbn [tasks set_channel].
  pose proof Hinv as (Hp & Ht & Hs).
  assert (tasks w !! id j = None) as Hi.
  { specialize (Hp (id j)). unfold places, in_tasks in Hp. rewrite Ec in Hp. cbn [occurs] in Hp.
    rewrite decide_True in Hp by done. destruct (tasks w !! id j); [|done]. case_decide; lia. }
  rewrite Hi. eexists. split; [reflexivity|]. apply (pending_inv_same w); [done..| |].
  - intros k. unfold places, in_tasks. cbn [in_flight channel tasks set_task set_tasks set_channel]. rewrite Ec. cbn [occurs].
    destruct (decide (id j = k)) as [<-|Hne].
    + rewrite lookup_insert_eq, Hi. lia.
    + rewrite lookup_insert_ne by done. lia.
  - intros k t. cbn [tasks set_task set_tasks set_channel]. intros [[<- <-]|[_ Hk]]%lookup_insert_Some; [done|by apply Ht].
Qed.

Lemma occurs_in_task w i t :
  pending_inv w -> tasks w !! i = Some t ->
  occurs i (in_flight w) = 0 /\ occurs i (channel w) = 0 /\ i ∈ pending w.
Proof.
  intros (Hp & _ & _) Hi. specialize (Hp i). unfold places, in_tasks in Hp. rewrite Hi in Hp.
  case_decide; [|lia]. repeat split; [lia..|done].
Qed.

(** A task leaves, and its id leaves the pending jobs. *)
Lemma pending_inv_removed w w' i t :
  pending_inv w -> tasks w !! i = Some t ->
  in_flight w' = in_flight w -> channel w' = channel w -> tasks w' = delete i (tasks w) ->
  (forall k, k ∈ pending w' <-> k <> i /\ k ∈ pending w) -> spawned w' = [] -> pending_inv w'.
Proof.
  intros Hinv Hi Hf Hc Ht Hm Hs. destruct (occurs_in_task w i t Hinv Hi) as (H1 & H2 & H3).
  destruct Hinv as (Hp & Hok & _). split; [|split; [|done]].
  - intros k. specialize (Hp k). unfold places, in_tasks in *. rewrite Hf, Hc, Ht.
    rewrite (decide_ext _ _ 1 0 (Hm k)). destruct (decide (i = k)) as [<-|Hne].
    + rewrite lookup_delete_eq, decide_False by naive_solver. lia.
    + rewrite lookup_delete_ne by done. rewrite Hp.
      destruct (decide (k ∈ pending w)); [rewrite decide_True by auto|rewrite decide_False by naive_solver]; done.
  - intros k u. rewrite Ht. intros [_ Hk]%lookup_delete_Some. by apply Hok.
Qed.

(** A task's job goes back to the channel. *)
Lemma pending_inv_requeued w i t j :
  pending_inv w -> tasks w !! i = Some t -> id j = i ->
  pending_inv (set_channel (channel w ++ [j])%list (set_tasks (delete i (tasks w)) w)).
Proof.
  intros Hinv Hi Hj. pose proof Hinv as (Hp & Hok & Hs). apply (pending_inv_same w); [done..| |].
  - intros k. unfold places, in_tasks. cbn [in_flight channel tasks set_tasks set_channel]. rewrite occurs_snoc, Hj.
    destruct (decide (i = k)) as [<-|Hne].
    + rewrite lookup_delete_eq, Hi. lia.
    + rewrite lookup_delete_ne by done. lia.
  - intros k u. cbn [tasks set_tasks set_channel]. intros [_ Hk]%lookup_delete_Some. by apply Hok.
Qed.

Lemma pending_inv_handle w wr i :
  pending_inv w -> exists w', handle_result cfg wr i w = Ret w' /\ pending_inv w'.
Proof.
  intros Hinv. unfold handle_result. destruct (tasks w !! i) as [[j|j n|j n|r]|] eqn:Ei; [by eauto..| |by eauto].
  pose proof Hinv as (_ & Hok & Hs). pose proof (Hok i _ Ei) as Hid.
  destruct r as [|j|j|f]; eexists; (split; [reflexivity|]).
  - apply (pending_inv_removed w _ i _ Hinv Ei); [done..| |done]. intros k. apply ids_remove.
  - exact (pending_inv_requeued w i _ j Hinv Ei Hid).
  - exact (pending_inv_requeued w i _ j Hinv Ei Hid).
  - destruct (execute_actions_frame cfg Sc Su Sm wr f (set_tasks (delete i (tasks w)) w)) as (H1 & H2 & H3 & _ & H5 & H6 & _).
    apply (pending_inv_removed w _ i _ Hinv Ei); [done..| |by rewrite H5].
    intros k. unfold pending. rewrite H6. cbn [task_id_ok] in Hid. rewrite Hid. apply ids_remove.
Qed.

Lemma pending_inv_finish w i ok w' :
  pending_inv w -> task_finish cfg i ok w = Ret w' -> exists w'', run_spawned true 0 w' = Ret w'' /\ pending_inv w''.
Proof.
  intros Hinv. pose proof Hinv as (Hp & Hok & Hs). unfold task_finish.
  destruct (tasks w !! i) as [[j|j n|j n|r]|] eqn:Ei; try by (intros <-%Ret_inj; exists w; by rewrite run_spawned_nil).
  pose proof (Hok i _ Ei) as Hid. cbn [task_id_ok] in Hid. destruct ok as [[]|]; [| |done].
  - destruct (next_job (cfg_is_s3 cfg) j) as [u|] eqn:En; intros <-%Ret_inj.
    + assert (uj_id u = i) as Hu.
      { destruct j as [j|j|j]; cbn in En; [|done..]. destruct (cfg_is_s3 cfg); [|done]. by injection En as <-. }
      unfold run_spawned. cbn [spawned set_task set_tasks set_available set_spawned]. rewrite Hs.
      eexists. split; [reflexivity|]. destruct (occurs_in_task w i _ Hinv Ei) as (_ & _ & Hin).
      assert (pending_inv (set_task i (Finished (Next (RawUpload u))) w)) as (Hp' & Hok' & _).
      { apply (pending_inv_set w _ i (Running j n) (Finished (Next (RawUpload u)))); done. }
      split; [|done]. intros k. specialize (Hp' k).
      unfold places, in_tasks, pending in *. cbn [in_flight channel tasks manager set_task set_tasks set_available set_spawned set_manager from_option] in *.
      rewrite Hp'. apply decide_ext. rewrite ids_add. change (id (RawUpload u)) with (uj_id u). rewrite Hu. unfold pending in Hin. naive_solver.
    + eexists. split; [by apply run_spawned_nil|]. by apply (pending_inv_set w _ i (Running j n) (Finished Done)).
  - assert (on_final_failure j = on_final_failure j /\ fj_job_id (on_final_failure j) = i) as [_ Hf] by (split; [done|by destruct j]).
    destruct (wait_for_retry j (retry_counters w)) as [c [s|]]; intros <-%Ret_inj;
      (eexists; split; [by apply run_spawned_nil|]).
    + by apply (pending_inv_set w _ i (Running j n) (Sleeping j n)).
    + by apply (pending_inv_set w _ i (Running j n) (Finished (JobErr (on_final_failure j)))).
Qed.

Lemma pending_inv_step w e :
  small_pools cfg -> pending_inv w ->
  (exists w', step_atomic w e = Ret w' /\ pending_inv w') \/ (step_atomic w e = Panic /\ job_panics w e).
Proof.
  intros Hsm Hinv. pose proof Hinv as (Hp & Hok & Hs).
  destruct (match e with Finish _ JoinError => true | _ => false end) eqn:Hj.
  { destruct e as [| | | |i [|]| | |]; try discriminate Hj. cbn [step_atomic step]. unfold task_finish, job_panics.
    destruct (tasks w !! i) as [[j|j n|j n|r]|] eqn:Ei; [left; by apply (bind_run_spawned _)| |left; by apply (bind_run_spawned _)..].
    right. split; [done|]. by exists i, j, n. }
  left. destruct e as [j wr|n| |i|i ok|i|i wr|n wr]; cbn [step_atomic step].
  - case_decide; [by eauto|]. by apply pending_inv_submit.
  - unfold send. destruct (in_flight w !! n) as [j|] eqn:E; [|by apply (bind_run_spawned _)].
    apply (bind_run_spawned _); [done|]. apply (pending_inv_same w); [done..| |done].
    intros k. unfold places, in_tasks. cbn [in_flight channel tasks set_in_flight set_channel].
    rewrite occurs_snoc, (occurs_delete k _ _ _ E). lia.
  - destruct (pending_inv_receive w Hinv) as (w' & Hr & Hinv'). rewrite Hr.
    apply (bind_run_spawned _); [apply Hinv'|done].
  - unfold task_acquire. destruct (tasks w !! i) as [[j|j n|j n|r]|] eqn:Ei; try by apply (bind_run_spawned _).
    destruct (acquire_count_total cfg j Hsm) as [n Hn]. rewrite Hn. cbn [mbind outcome_bind].
    case_match; [|by apply (bind_run_spawned _)].
    eexists. split; [by apply run_spawned_nil|]. apply (pending_inv_set w _ i (Waiting j) (Running j n)); try done. exact (Hok i _ Ei).
  - destruct (task_finish cfg i ok w) as [w'| |] eqn:Ef.
    + cbn. by eapply pending_inv_finish.
    + exfalso. revert Ef. unfold task_finish. repeat case_match; done.
    + exfalso. revert Ef. unfold task_finish. repeat case_match; done.
  - unfold task_wake. destruct (tasks w !! i) as [[j|j n|j n|r]|] eqn:Ei; try by apply (bind_run_spawned _).
    apply (bind_run_spawned _); [done|]. apply (pending_inv_set w _ i (Sleeping j n) (Finished (Retry j))); try done. exact (Hok i _ Ei).
  - destruct (pending_inv_handle w wr i Hinv) as (w' & Hr & Hinv'). rewrite Hr.
    apply (bind_run_spawned _); [apply Hinv'|done].
  - rewrite run_spawned_nil by done. by apply (bind_run_spawned _).
Qed.

Lemma pending_inv_run w events :
  small_pools cfg -> pending_inv w ->
  (exists w', run_atomic w events = Ret w' /\ pending_inv w') \/
  (run_atomic w events = Panic /\
   exists done e rest w', events = (done ++ e :: rest)%list /\ run_atomic w done = Ret w' /\ pending_inv w' /\ job_panics w' e).
Proof. intros Hsm Hinv. apply foldM_total_or; [done|]. intros v e Hv. by apply pending_inv_step. Qed.

(** The start on the file of an earlier run. *)
Lemma occurs_NoDup k l : NoDup (ids l) -> occurs k l = if decide (k ∈ ids l) then 1 else 0.
Proof.
  unfold ids. induction l as [|h l IH]; cbn [occurs]; [by rewrite decide_False by apply not_elem_of_nil|].
  rewrite fmap_cons. intros [Hn Hd]%NoDup_cons. rewrite (IH Hd).
  destruct (decide (id h = k)) as [<-|Hne].
  - by rewrite decide_False, decide_True by (done || left).
  - apply decide_ext. rewrite elem_of_cons. naive_solver.
Qed.

Lemma pending_inv_start f fs : NoDup (ids (JobSetManager_new 0 f).2) -> pending_inv (start cfg f fs).
Proof.
  unfold start, JobSetManager_new. cbn [snd]. set (js := match f with Some _ => _ | None => _ end). intros Hd.
  split; [|split]; [|by intros i t; cbn; rewrite lookup_empty|done].
  intros k. unfold places, pending, in_tasks. cbn [in_flight channel tasks manager jobs occurs]. rewrite lookup_empty.
  rewrite Nat.add_0_r, Nat.add_0_l. by apply occurs_NoDup.
Qed.

End Pending.
