(* ===== verification/HandlerSpec.v ===== *)
(** * What the job handler promises. *)

From stdpp Require Import base list option strings gmap.
From Stdlib Require Import ZArith Lia Ascii.
From S2P Require Import Prelude RustInt RustStr Convert Storage Jobs Handler HandlerInv HandlerPending.

Local Open Scope nat_scope.

Section Spec.
  Context `{Sc : Serde ConvertJob, Su : Serde UploadJob, Sm : Serde MigrateJob}.

(** C7. With pools below [2^32] permits, after any sequence of events the free
    permits of every pool and those held by its tasks add up to the pool's size,
    as long as the handler runs.  So a non-empty pool never has more running
    jobs than permits (in particular at most one upload runs at a time), and a
    waiting job can start whenever its pool is free: no job asks for more
    permits than there are.  The handler stops for one reason only: the tokio
    task of a running job panicked, and the join error panics in the handler's
    loop; the same holds of its state at that moment. *)
Theorem permits_are_respected (cfg : AppConfig) f fs events :
  small_pools cfg ->
  let respected w :=
    (forall p, available w p + tsum (held p) (tasks w) = pool_limit cfg p) /\
    (forall p, 0 < pool_limit cfg p -> tsum (occupies p) (tasks w) <= pool_limit cfg p) /\
    (forall i j, tasks w !! i = Some (Waiting j) ->
       available w (for_kind (kind j)) = pool_limit cfg (for_kind (kind j)) ->
       exists w' n, step cfg w (Acquire i) = Ret w' /\ tasks w' !! i = Some (Running j n)) in
  (exists w, run cfg (start cfg f fs) events = Ret w /\ respected w) \/
  (run cfg (start cfg f fs) events = Panic /\
   exists before i rest w j n, events = (before ++ Finish i JoinError :: rest)%list /\
     run cfg (start cfg f fs) before = Ret w /\ tasks w !! i = Some (Running j n) /\ respected w).
Proof.
  intros Hs respected. assert (forall w, permits_inv cfg w -> respected w) as Hr.
  { intros w [Hsum Hok]. split; [done|]. split.
    - intros p Hp. specialize (Hsum p).
      pose proof (tsum_le (occupies p) (held p) (tasks w) (fun i t Hi => occupies_held cfg p t (Hok i t Hi) Hp)). lia.
    - intros i j Hi Ha. cbn [step]. unfold task_acquire. rewrite Hi.
      destruct (acquire_count_total cfg j Hs) as [n Hn]. pose proof (acquire_count_spec cfg j n Hn) as [Hle _].
      rewrite Hn. cbn [mbind outcome_bind]. rewrite Ha, (proj2 (Nat.leb_le _ _) Hle).
      eexists _, n. split; [reflexivity|]. cbn [tasks log_started set_task set_tasks]. by rewrite lookup_insert_eq. }
  destruct (permits_inv_run cfg _ events Hs (permits_inv_start cfg f fs)) as [(w & Hw & Hinv)|[Hp (l & e & rest & w & -> & Hw & Hinv & i & j & n & -> & Hi)]].
  - left. exists w. auto.
  - right. split; [done|]. exists l, i, rest, w, j, n. auto.
Qed.

(** A pool with zero permits does not hold jobs back: a waiting job of that
    pool starts at once, holding nothing. *)
Theorem zero_permits_do_not_block (cfg : AppConfig) (w : world) i j :
  pool_limit cfg (for_kind (kind j)) = 0 -> tasks w !! i = Some (Waiting j) ->
  exists w', step cfg w (Acquire i) = Ret w' /\ tasks w' !! i = Some (Running j 0).
Proof.
  intros Hz Hi. cbn [step]. unfold task_acquire, acquire_count.
  rewrite Hi, (proj2 (Z.ltb_lt _ _) (need_permit_pos j)), Hz.
  replace (Z.min (need_permit j) (Z.of_nat 0)) with 0%Z by (pose proof (need_permit_pos j); lia).
  cbn [mbind outcome_bind fitsb Z.to_nat Nat.leb]. eexists. split; [reflexivity|].
  cbn [tasks log_started set_task set_tasks]. by rewrite lookup_insert_eq.
Qed.

(** A convert or migrate job that was submitted (or loaded) once runs at
    most six times, the first time and five retries, whatever happens in
    between: all clones of the job share its retry counter. *)
Theorem bounded_runs `{!SerdeLaws} (cfg : AppConfig) f fs events w a :
  run cfg (start cfg f fs) events = Ret w -> starts a w <= 6.
Proof.
  intros Hrun. destruct (runs_inv_run cfg _ events w (runs_inv_start cfg f fs) Hrun) as (_ & _ & Hb).
  specialize (Hb a). lia.
Qed.

(** A finished upload never is a final failure. *)
Definition upload_alive (w : world) : Prop :=
  forall i f, tasks w !! i = Some (Finished (JobErr f)) -> fj_kind f <> UPLOAD_KIND.

Lemma upload_alive_step cfg w e w' : upload_alive w -> step cfg w e = Ret w' -> upload_alive w'.
Proof.
  intros Hw. assert (forall i t, tasks w' = <[i := t]> (tasks w) ->
    (forall f, t = Finished (JobErr f) -> fj_kind f <> UPLOAD_KIND) -> upload_alive w') as Hset.
  { intros i t Ht Hf k f. rewrite Ht. intros [[<- Hk]|[_ Hk]]%lookup_insert_Some; [by apply Hf|by eapply Hw]. }
  assert (tasks w' = tasks w -> upload_alive w') as Hsame by (unfold upload_alive; by intros ->).
  assert (forall i, tasks w' = delete i (tasks w) -> upload_alive w') as Hdel.
  { intros i Ht k f. rewrite Ht. intros [_ Hk]%lookup_delete_Some. by eapply Hw. }
  destruct e as [j wr|n| |i|i ok|i|i wr|n wr]; cbn [step].
  - intros <-%Ret_inj. by apply Hsame.
  - unfold send. case_match; intros <-%Ret_inj; by apply Hsame.
  - unfold receive. destruct (channel w) as [|j rest]; [by intros <-%Ret_inj|]. cbn [tasks set_channel].
    destruct (tasks w !! id j); intros <-%Ret_inj; [by apply Hsame|]. by eapply (Hset (id j) (Waiting j)).
  - unfold task_acquire. destruct (tasks w !! i) as [[j|j n|j n|r]|]; try by intros <-%Ret_inj.
    intros (n & _ & H)%bind_Ret. revert H. case_match; intros <-%Ret_inj; [|done]. by eapply (Hset i (Running j n)).
  - unfold task_finish. destruct (tasks w !! i) as [[j|j n|j n|r]|]; try by intros <-%Ret_inj.
    destruct ok as [[]|]; [| |done].
    + intros <-%Ret_inj. eapply (Hset i (Finished (from_option (next_job (cfg_is_s3 cfg) j)))).
      * by destruct (next_job _ j).
      * intros f. by destruct (next_job _ j).
    + destruct (wait_for_retry j (retry_counters w)) as [c [s|]] eqn:Er; intros <-%Ret_inj.
      * by eapply (Hset i (Sleeping j n)).
      * eapply (Hset i); [reflexivity|]. intros f [= <-]. destruct j as [j|j|j]; done.
  - unfold task_wake. destruct (tasks w !! i) as [[j|j n|j n|r]|]; try by intros <-%Ret_inj.
    intros <-%Ret_inj. by eapply (Hset i (Finished (Retry j))).
  - unfold handle_result. destruct (tasks w !! i) as [[j|j n|j n|r]|]; try by intros <-%Ret_inj.
    destruct r as [|j|j|f]; intros <-%Ret_inj; [by apply (Hdel i)..|].
    destruct (execute_actions_frame cfg Sc Su Sm wr f (set_tasks (delete i (tasks w)) w)) as (_ & _ & Ht & _).
    by apply (Hdel i).
  - unfold run_spawned. case_match; intros <-%Ret_inj; by apply Hsame.
Qed.

(** A failing upload is retried forever: no sequence of events ends an
    upload job in a final failure, so the cleanup and the webhook message that
    [UploadJob::on_final_failure] prepares are never executed. *)
Theorem uploads_never_give_up (cfg : AppConfig) f fs events w i fj :
  run cfg (start cfg f fs) events = Ret w ->
  tasks w !! i = Some (Finished (JobErr fj)) -> fj_kind fj <> UPLOAD_KIND.
Proof.
  intros Hrun. assert (upload_alive w) as Hw; [|apply Hw].
  revert Hrun. apply (foldM_inv (fun _ => upload_alive)).
  - unfold start. destruct (JobSetManager_new 0 f) as [m js]. intros k g. cbn [tasks]. by rewrite lookup_empty.
  - intros ? e ? w1 w2 _ Hw1. by apply upload_alive_step.
Qed.

(** C8. Where a submission follows its duplicate check without another
    submission of the id in between, and the record of the follow-up job is
    written at once, the pending jobs are exactly the unfinished ones: with pools
    below [2^32] permits, from a start with a saved file that names no id
    twice (or without one), after any sequence of events an id is pending iff a
    job with it waits to be sent, is in the channel or is a task, and then it is
    in exactly one of these places, once.  So while the handler runs no accepted
    job is lost and none is done twice.  It ends only when the tokio task of a
    running job has panicked; that job and all others that were unfinished are
    still recorded as pending then. *)
Theorem pending_jobs_are_the_unfinished_jobs (cfg : AppConfig) f fs events :
  small_pools cfg -> NoDup (ids (JobSetManager_new 0 f).2) ->
  (exists w, run_atomic cfg (start cfg f fs) events = Ret w /\
    forall k, places k w = if decide (k ∈ pending w) then 1 else 0) \/
  (run_atomic cfg (start cfg f fs) events = Panic /\
   exists before i rest w j n, events = (before ++ Finish i JoinError :: rest)%list /\
     run_atomic cfg (start cfg f fs) before = Ret w /\ tasks w !! i = Some (Running j n) /\ i ∈ pending w /\
     forall k, places k w = if decide (k ∈ pending w) then 1 else 0).
Proof.
  intros Hs Hd. destruct (pending_inv_run cfg _ events Hs (pending_inv_start cfg f fs Hd))
    as [(w & Hw & Hinv)|[Hp (l & e & rest & w & -> & Hw & Hinv & i & j & n & -> & Hi)]].
  - left. exists w. split; [done|apply Hinv].
  - right. split; [done|]. exists l, i, rest, w, j, n. split_and!; [done..| |apply Hinv].
    by destruct (occurs_in_task w i _ Hinv Hi) as (_ & _ & ?).
Qed.

(** C9. A restart resumes the work: the file that [add] and [remove] leave is
    read back into the same pending jobs, in order, all of them are sent to the
    handler, and each keeps its id, its kind, the permits it needs and the
    scales and codecs it converts to. *)
Theorem restart_resumes_jobs `{!SerdeLaws} a (m : JobSetManager) (j : RawJob) i :
  let saved := [add true j m; remove true i m] in
  Forall (fun m' =>
    let '(m'', sent) := JobSetManager_new a (file m') in
    sent = jobs m'' /\ jobs m'' = imap (fun k j => reload (a + k) j) (jobs m') /\
    Forall2 (fun j' j => kind j' = kind j /\ id j' = id j /\ need_permit j' = need_permit j /\
      match j', j with
      | RawConvert c', RawConvert c =>
          scales_deref (cj_scales c') = scales_deref (cj_scales c) /\ codecs_deref (cj_codecs c') = codecs_deref (cj_codecs c)
          /\ cj_crf c' = cj_crf c /\ cj_dst_bucket c' = cj_dst_bucket c
      | RawUpload u', RawUpload u => u' = u
      | RawMigrate g', RawMigrate g => mj_widths g' = mj_widths g /\ mj_src_bucket g' = mj_src_bucket g /\ mj_dst_bucket g' = mj_dst_bucket g
      | _, _ => False
      end) (jobs m'') (jobs m')) saved.
Proof.
  assert (forall js, Forall2 (fun j' j => kind j' = kind j /\ id j' = id j /\ need_permit j' = need_permit j /\
      match j', j with
      | RawConvert c', RawConvert c =>
          scales_deref (cj_scales c') = scales_deref (cj_scales c) /\ codecs_deref (cj_codecs c') = codecs_deref (cj_codecs c)
          /\ cj_crf c' = cj_crf c /\ cj_dst_bucket c' = cj_dst_bucket c
      | RawUpload u', RawUpload u => u' = u
      | RawMigrate g', RawMigrate g => mj_widths g' = mj_widths g /\ mj_src_bucket g' = mj_src_bucket g /\ mj_dst_bucket g' = mj_dst_bucket g
      | _, _ => False
      end) (imap (fun k j => reload (a + k) j) js) js) as Hkeep.
  { intros js. apply Forall2_same_length_lookup. split; [by rewrite length_imap|].
    intros k j' j0. rewrite list_lookup_imap. intros Hj' Hj0. rewrite Hj0 in Hj'. injection Hj' as <-.
    destruct j0 as [c|u|g]; [|done|done].
    assert (scales_deref (if scales_skip_serialize (cj_scales c) then Scales_new else cj_scales c) = scales_deref (cj_scales c)) as Hsc.
    { unfold scales_skip_serialize. case_bool_decide as E1; [by rewrite E1|]. case_bool_decide as E2; [by rewrite E2|done]. }
    assert (codecs_deref (if codecs_skip_serialize (cj_codecs c) then ConvertCodecs_new else cj_codecs c) = codecs_deref (cj_codecs c)) as Hcc.
    { unfold codecs_skip_serialize. case_bool_decide as E1; [by rewrite E1|]. case_bool_decide as E2; [by rewrite E2|done]. }
    split; [done|]. split; [done|]. split; [|done].
    cbn [need_permit raw_job convert_job reload]. unfold convert_need_permit.
    cbn [reload_convert cj_scales cj_codecs]. by rewrite Hsc, Hcc. }
  intros saved. subst saved. repeat constructor; cbn [JobSetManager_new file add remove save jobs];
    rewrite from_json_all_saved; repeat split; apply Hkeep.
Qed.

(** Configurations for the runs below. *)
Definition local_config : AppConfig :=
  {| cfg_is_s3 := false; permits := 10; migrate_permits := 1; uploads_dir := "uploads"; videos_dir := "videos" |}.
Definition s3_config : AppConfig :=
  {| cfg_is_s3 := true; permits := 10; migrate_permits := 1; uploads_dir := "uploads"; videos_dir := "videos" |}.

Definition convert_x (crf : Z) (a : nat) : RawJob := RawConvert (ConvertJob_new "x" crf [] a).

(** Two requests for one id that both passed the duplicate check. *)
Definition duplicate_events : list event :=
  [Submit (convert_x 20 0) true; Submit (convert_x 30 0) true; Send 0; Receive; Acquire "x"; Send 0; Receive;
   Finish "x" (Joined true); HandleResult "x" true].

(** A job that panics takes the handler with it, and stays pending. *)
Theorem a_panicking_job_ends_the_handler :
  let events := [Submit (convert_x 20 0) true; Send 0; Receive; Acquire "x"] in
  exists w, run local_config (start local_config None ∅) events = Ret w /\ pending w = ["x"] /\
    run local_config (start local_config None ∅) (events ++ [Finish "x" JoinError; Receive])%list = Panic.
Proof. eexists. split; [vm_compute; reflexivity|]. split; vm_compute; reflexivity. Qed.

(** The check for an existing job and the submission are separate steps: of
    two requests for one id that interleave, both are accepted, the second job
    replaces the record of the first, is skipped because the first is in
    progress, and disappears with the first one's record: it never ran and
    nothing is left of it. *)
Theorem racing_duplicate_is_lost :
  exists w, run local_config (start local_config None ∅) duplicate_events = Ret w /\
    started w = [convert_x 20 0] /\ pending w = [] /\ places "x" w = 0.
Proof. eexists. split; [vm_compute; reflexivity|]. repeat split; vm_compute; reflexivity. Qed.

(** The record of the follow-up upload is written after the upload is done. *)
Definition late_record_events : list event :=
  [Submit (convert_x 20 0) true; Send 0; Receive; Acquire "x"; Finish "x" (Joined true); HandleResult "x" true;
   Receive; Acquire "x"; Finish "x" (Joined true); HandleResult "x" true; RunSpawned 0 true].

(** [next_job] writes the record of the upload in a task of its own: when
    that task runs after the upload has finished, the id stays pending although
    no job with it exists any more, so later requests for it are turned away. *)
Theorem late_record_stays_pending :
  exists w, run s3_config (start s3_config None ∅) late_record_events = Ret w /\
    pending w = ["x"] /\ places "x" w = 0 /\ spawned w = [].
Proof. eexists. split; [vm_compute; reflexivity|]. repeat split; vm_compute; reflexivity. Qed.

End Spec.

(** ** An instance of the derived (de)serialisers, for the witnesses *)
Module ExampleSerde.

Definition field {A} (key : string) (parse : json -> option A) (v : json) : result A anyhow :=
  match get key v with
  | Some v => match parse v with Some a => Ok a | None => Err ("invalid type: " ++ key)%string end
  | None => Err ("missing field " ++ key)%string
  end.

Definition field_or {A} (d : A) (key : string) (parse : json -> option A) (v : json) : result A anyhow :=
  match get key v with
  | Some v => match parse v with Some a => Ok a | None => Err ("invalid type: " ++ key)%string end
  | None => Ok d
  end.

Definition as_number (v : json) : option Z := match v with JNumber n => Some n | _ => None end.
Definition as_array {A} (parse : json -> option A) (v : json) : option (list A) :=
  match v with JArray l => mapM parse l | _ => None end.

Definition scale_json (s : Scale) : json := JObject [("w", JNumber (width s)); ("h", JNumber (height s))].
Definition as_scale (v : json) : option Scale :=
  match get "w" v, get "h" v with
  | Some (JNumber w), Some (JNumber h) => Some {| width := w; height := h |}
  | _, _ => None
  end.

Definition codec_json (c : ConvertCodec) : json :=
  JString match c with Vp9 => "vp9" | H265 => "h265" | H264 => "h264" end.
Definition as_codec (v : json) : option ConvertCodec :=
  match v with JString "vp9" => Some Vp9 | JString "h265" => Some H265 | JString "h264" => Some H264 | _ => None end.

Definition opt_field {A} (key : string) (to : A -> json) (o : option A) : list (string * json) :=
  match o with Some a => [(key, to a)] | None => [] end.

#[export] Instance convert_serde : Serde ConvertJob := {|
  to_value j := JObject
    ([("id", JString (cj_id j)); ("crf", JNumber (cj_crf j))] ++ opt_field "dst_bucket" JString (cj_dst_bucket j)
     ++ (if scales_skip_serialize (cj_scales j) then [] else [("scales", JArray (scale_json <$> cj_scales j))])
     ++ (if codecs_skip_serialize (cj_codecs j) then [] else [("codecs", JArray (codec_json <$> cj_codecs j))]))%list;
  from_value a v :=
    match field "id" as_str v, field "crf" as_number v, field_or None "dst_bucket" (fun v => Some <$> as_str v) v,
          field_or Scales_new "scales" (as_array as_scale) v, field_or ConvertCodecs_new "codecs" (as_array as_codec) v with
    | Ok i, Ok crf, Ok b, Ok s, Ok c =>
      Ok {| cj_id := i; cj_crf := crf; cj_dst_bucket := b; cj_scales := s; cj_codecs := c; cj_retry_times := a |}
    | _, _, _, _, _ => Err "invalid job"
    end
|}.

#[export] Instance upload_serde : Serde UploadJob := {|
  to_value j := JObject ([("id", JString (uj_id j))] ++ opt_field "dst_bucket" JString (uj_dst_bucket j))%list;
  from_value a v :=
    match field "id" as_str v, field_or None "dst_bucket" (fun v => Some <$> as_str v) v with
    | Ok i, Ok b => Ok {| uj_id := i; uj_dst_bucket := b |}
    | _, _ => Err "invalid job"
    end
|}.

#[export] Instance migrate_serde : Serde MigrateJob := {|
  to_value j := JObject
    ([("id", JString (mj_id j)); ("src_bucket", JString (mj_src_bucket j)); ("dst_bucket", JString (mj_dst_bucket j))]
     ++ opt_field "widths" (fun w => JArray (JNumber <$> w)) (match mj_widths j with [] => None | w => Some w end))%list;
  from_value a v :=
    match field "id" as_str v, field "src_bucket" as_str v, field "dst_bucket" as_str v,
          field_or [] "widths" (as_array as_number) v with
    | Ok i, Ok s, Ok d, Ok w => Ok {| mj_id := i; mj_src_bucket := s; mj_dst_bucket := d; mj_widths := w; mj_retry_times := a |}
    | _, _, _, _ => Err "invalid job"
    end
|}.

Lemma mapM_fmap {A} (to : A -> json) (parse : json -> option A) l :
  (forall x, parse (to x) = Some x) -> mapM parse (to <$> l) = Some l.
Proof. intros Hp. induction l as [|x l IH]; [done|]. cbn. rewrite Hp. cbn. cbn in IH. by rewrite IH. Qed.

#[export] Instance example_serde_laws : SerdeLaws.
Proof.
  split.
  - intros a [i c [b|] s co r]; unfold reload_convert; cbn [to_value from_value convert_serde cj_id cj_crf cj_dst_bucket cj_scales cj_codecs];
      destruct (scales_skip_serialize s), (codecs_skip_serialize co); cbn;
      rewrite ?(mapM_fmap scale_json as_scale) by (by intros []); rewrite ?(mapM_fmap codec_json as_codec) by (by intros []); done.
  - by intros a [i [b|]].
  - intros a [i s d [|w ws] r]; [done|]. cbn [to_value from_value migrate_serde mj_id mj_src_bucket mj_dst_bucket mj_widths].
    unfold reload_migrate. cbn [opt_field app]. cbn -[fmap list_fmap].
    by rewrite (mapM_fmap JNumber as_number).
  - intros [i c [b|] s co r]; cbn [to_value convert_serde cj_scales cj_codecs];
      by destruct (scales_skip_serialize s), (codecs_skip_serialize co).
  - by intros [i [b|]].
  - intros [i c [b|] s co r]; by eexists.
  - by intros [i [b|]].
  - intros a v j. cbn. repeat case_match; intros [= <-]; done.
  - intros a v j. cbn. repeat case_match; intros [= <-]; done.
Defined.

End ExampleSerde.

Import ExampleSerde.

Lemma small_pools_local : small_pools local_config.
Proof. intros []; vm_compute; split; congruence. Defined.

Definition panicking_events : list event :=
  [Submit (convert_x 20 0) true; Send 0; Receive; Acquire "x"; Finish "x" JoinError; Receive].

Definition returned {A : Type} (m : outcome A) : bool := match m with Ret _ => true | _ => false end.

Lemma permits_are_respected_witness :
  (exists w, run local_config (start local_config None ∅) [Submit (convert_x 20 0) true; Send 0; Receive; Acquire "x"] = Ret w /\
    available w ConvertPool + tsum (held ConvertPool) (tasks w) = 10) /\
  (exists before w, run local_config (start local_config None ∅) before = Ret w /\
    available w ConvertPool + tsum (held ConvertPool) (tasks w) = 10 /\
    run local_config (start local_config None ∅) panicking_events = Panic).
Proof.
  split.
  - destruct (permits_are_respected local_config None ∅
      [Submit (convert_x 20 0) true; Send 0; Receive; Acquire "x"] small_pools_local) as [(w & Hw & Hs & _)|[Hp _]].
    + exists w. split; [exact Hw|exact (Hs ConvertPool)].
    + exfalso. apply (f_equal returned) in Hp. vm_compute in Hp. discriminate Hp.
  - destruct (permits_are_respected local_config None ∅ panicking_events small_pools_local)
      as [(w & Hw & _)|[Hp (before & i & rest & w & j & n & _ & Hw & _ & Hs & _)]].
    + exfalso. apply (f_equal returned) in Hw. vm_compute in Hw. discriminate Hw.
    + exists before, w. split; [exact Hw|]. split; [exact (Hs ConvertPool)|exact Hp].
Defined.

Definition zero_config : AppConfig :=
  {| cfg_is_s3 := false; permits := 0; migrate_permits := 1; uploads_dir := "uploads"; videos_dir := "videos" |}.

Definition waiting_world : world :=
  {| in_flight := []; channel := []; tasks := {[ "x" := Waiting (convert_x 20 0) ]}; available := pool_limit zero_config;
     spawned := []; manager := {| jobs := []; file := None |}; retry_counters := ∅; next_counter := 1; files := ∅; started := [] |}.

Lemma zero_permits_do_not_block_witness :
  exists w', step zero_config waiting_world (Acquire "x") = Ret w' /\ tasks w' !! "x" = Some (Running (convert_x 20 0) 0).
Proof. apply (zero_permits_do_not_block zero_config waiting_world "x" (convert_x 20 0)); vm_compute; reflexivity. Defined.

(** Six failures of one job: it is started six times, then given up. *)
Definition failing_round : list event := [Receive; Acquire "x"; Finish "x" (Joined false); Wake "x"; HandleResult "x" true].
Definition failing_events : list event :=
  ([Submit (convert_x 20 0) true; Send 0] ++ concat (replicate 8 failing_round))%list.

Definition run_starts (events : list event) : option nat :=
  match run local_config (start local_config None ∅) events with Ret w => Some (starts 0 w) | _ => None end.

Example failing_starts : run_starts failing_events = Some 6.
Proof. vm_compute. reflexivity. Qed.

Lemma bounded_runs_witness :
  exists w, run local_config (start local_config None ∅) failing_events = Ret w /\ starts 0 w = 6 /\ starts 0 w <= 6.
Proof.
  pose proof failing_starts as E. unfold run_starts in E.
  destruct (run local_config (start local_config None ∅) failing_events) as [w| |] eqn:Hrun; [|discriminate E..].
  injection E as E. exists w. split; [reflexivity|]. split; [exact E|].
  exact (bounded_runs local_config None ∅ failing_events w 0 Hrun).
Defined.

(** A conversion that fails for good ends in a failure of its own kind. *)
Definition given_up_events : list event :=
  ([Submit (convert_x 20 0) true; Send 0] ++ concat (replicate 5 failing_round) ++ [Receive; Acquire "x"; Finish "x" (Joined false)])%list.

Definition failure_of (events : list event) : option JobKind :=
  match run local_config (start local_config None ∅) events with
  | Ret w => match tasks w !! "x" with Some (Finished (JobErr f)) => Some (fj_kind f) | _ => None end
  | _ => None
  end.

Example given_up_kind : failure_of given_up_events = Some CONVERT_KIND.
Proof. vm_compute. reflexivity. Qed.

Lemma uploads_never_give_up_witness :
  exists w f, run local_config (start local_config None ∅) given_up_events = Ret w /\
    tasks w !! "x" = Some (Finished (JobErr f)) /\ fj_kind f <> UPLOAD_KIND.
Proof.
  pose proof given_up_kind as E. unfold failure_of in E.
  destruct (run local_config (start local_config None ∅) given_up_events) as [w| |] eqn:Hrun; [|discriminate E..].
  destruct (tasks w !! "x") as [[| | |[| | |f]]|] eqn:Ht; try discriminate E.
  exists w, f. split; [reflexivity|]. split; [exact Ht|].
  exact (uploads_never_give_up local_config None ∅ given_up_events w "x" f Hrun Ht).
Defined.

(** A start with a saved job, which runs and is done; and one whose job panics. *)
Definition saved_file : option (list json) := file (add true (convert_x 20 7) {| jobs := []; file := None |}).
Definition saved_events : list event := [Receive; Acquire "x"; Finish "x" (Joined true); HandleResult "x" true].

Definition no_pending (m : outcome (world)) : bool := match m with Ret w => bool_decide (pending w = []) | _ => false end.

Lemma pending_jobs_are_the_unfinished_jobs_witness :
  (exists w, run_atomic local_config (start local_config saved_file ∅) saved_events = Ret w /\ places "x" w = 0 /\ pending w = []) /\
  (exists before i w, run_atomic local_config (start local_config None ∅) before = Ret w /\ i ∈ pending w /\
    run_atomic local_config (start local_config None ∅) panicking_events = Panic).
Proof.
  split.
  - assert (no_pending (run_atomic local_config (start local_config saved_file ∅) saved_events) = true) as He
      by (vm_compute; reflexivity).
    destruct (pending_jobs_are_the_unfinished_jobs local_config saved_file ∅ saved_events small_pools_local) as [(w & Hw & Hp)|[Hp _]].
    + vm_compute. constructor; [by apply not_elem_of_nil|constructor].
    + rewrite Hw in He. apply bool_decide_eq_true in He. exists w. split; [exact Hw|]. rewrite Hp, He. split; [|reflexivity].
      reflexivity.
    + exfalso. rewrite Hp in He. discriminate He.
  - destruct (pending_jobs_are_the_unfinished_jobs local_config None ∅ panicking_events small_pools_local)
      as [(w & Hw & _)|[Hp (before & i & rest & w & j & n & _ & Hw & _ & Hi & _)]].
    + constructor.
    + exfalso. apply (f_equal returned) in Hw. vm_compute in Hw. discriminate Hw.
    + exists before, i, w. split; [exact Hw|]. split; [exact Hi|exact Hp].
Defined.

Lemma restart_resumes_jobs_witness :
  (let '(m, sent) := JobSetManager_new 0 (file (add true (convert_x 20 7) {| jobs := []; file := None |})) in ids sent) = ["x"]
  /\ Forall (fun m' => let '(m'', sent) := JobSetManager_new 0 (file m') in sent = jobs m'')
       [add true (convert_x 20 7) {| jobs := []; file := None |}; remove true "x" {| jobs := []; file := None |}].
Proof.
  split; [vm_compute; reflexivity|].
  eapply Forall_impl; [exact (restart_resumes_jobs 0 {| jobs := []; file := None |} (convert_x 20 7) "x")|].
  intros m' [Hm _]. exact Hm.
Defined.
