(* ===== verification/Routes.v ===== *)
(** * The HTTP handlers ([crates/core/src/api/{routes,middleware}.rs]).

    Each handler is the whole function: its checks in the code's order, its
    effects on the storage manager and on the job handler's world, its response.
    The bodies, headers and files that axum, tokio and opendal deliver are
    arguments. *)

From stdpp Require Import base list option strings gmap.
From Stdlib Require Import ZArith Lia Ascii SpecFloat.
From S2P Require Import Prelude RustInt RustStr Float64 Fuse Claim Bucket Manager Middleware Storage Convert Jobs Handler.

Local Open Scope Z_scope.
Local Open Scope string_scope.

Definition OK : Z := 200.
Definition ACCEPTED : Z := 202.
Definition PARTIAL_CONTENT : Z := 206.
Definition NOT_FOUND : Z := 404.
Definition INTERNAL_SERVER_ERROR : Z := 500.

(** [UploadResponse], [MigrateAcceptedResponse] and [MigrateErrorResponse]: all
    carry a job id and a message. *)
Record JobResponse := { job_id : string; job_message : string }.

Definition job_response (status : Z) (id message : string) : Z * JobResponse :=
  (status, {| job_id := id; job_message := message |}).

(** ** Names and buckets *)

Definition is_valid_job_id (job_id : string) : bool :=
  negb (is_empty job_id) && negb (contains_char "/"%char job_id) && negb (contains_char "-"%char job_id)
  && negb (contains_char "."%char job_id) && negb (contains_char " "%char job_id) && (slen job_id <=? 128)%nat.

Definition validate_bucket_for_write (bucket : string) : result unit string :=
  if is_empty bucket then Err "Invalid bucket: empty"
  else if contains_char "/"%char bucket then Err "Invalid bucket: contains '/'"
  else if is_pure_ascii_digits bucket then Err "Invalid bucket: numeric-only bucket is not allowed"
  else Ok tt.

Definition split_bucket_and_key (filename : string) : result (option string * string) string :=
  match split_once "/"%char filename with
  | None => Ok (None, filename)
  | Some (first, rest) =>
    if forall_char is_ascii_digit first then Ok (None, filename)
    else if is_empty rest then Err "Invalid /videos path"
    else Ok (Some first, rest)
  end.

Definition choose_bucket_for_s3 (bucket_prefix default_bucket : option string) : result string string :=
  ok_or "Missing bucket" (match bucket_prefix with Some b => Some b | None => default_bucket end).

(** [path_and_suffix[0]] and [vals[0]] are in range: [split] yields at least one piece. *)
Definition extract_job_id_from_key (key : string) : result string string :=
  match split "."%char key with
  | [path; _] =>
    match split "-"%char path with
    | (v0 :: _) as vals =>
      if (1 <=? length vals)%nat && (length vals <=? 3)%nat then
        Ok match split_once "/"%char v0 with Some (_, jid) => jid | None => v0 end
      else Err "Invalid filename"
    | [] => Err "Invalid filename"
    end
  | _ => Err "Invalid filename"
  end.

Definition file_not_found : response := err_response NOT_FOUND "File not found".

(** [Path::extension]; a trailing separator is not part of the file name. *)
Definition extension (path : string) : option string :=
  let path := trim_end_matches "/" path in
  let name := match rsplit_once "/"%char path with Some (_, name) => name | None => path end in
  match rsplit_once "."%char name with
  | None | Some ("", _) => None
  | Some (_, ext) => Some ext
  end.

Definition hls_content_type (path : string) : string :=
  match default "" (to_ascii_lowercase <$> extension path) with
  | "m3u8" => "application/vnd.apple.mpegurl"
  | "m4s" => "video/iso.segment"
  | "mp4" => "video/mp4"
  | _ => "application/octet-stream"
  end.

(** ** The waiting list *)

Record WaitlistResponse := {
  pending_convert_jobs : nat;
  pending_upload_jobs : nat;
  pending_migrate_jobs : nat;
  total_pending_jobs : nat
}.

Definition count_kind (k : JobKind) (kinds : list JobKind) : nat :=
  length (filter (fun k' => (k' =? k)%string) kinds).

Definition waitlist (w : world) : Z * WaitlistResponse :=
  let kinds := kind <$> jobs (manager w) in
  let convert_jobs := count_kind CONVERT_KIND kinds in
  let upload_jobs := count_kind UPLOAD_KIND kinds in
  let migrate_jobs := count_kind MIGRATE_KIND kinds in
  (OK, {| pending_convert_jobs := convert_jobs; pending_upload_jobs := upload_jobs; pending_migrate_jobs := migrate_jobs;
          total_pending_jobs := convert_jobs + upload_jobs + migrate_jobs |}).

(** ** Uploads *)

(** What the request's body stream and the disk do: a chunk that is written, a
    chunk that is not, an error of the stream. *)
Inductive body_item :=
  | Chunk (data : list Z) (written : bool)
  | BodyError.

(** The loop over the body: the bytes written, or [None] when a write failed.  An
    error of the stream ends the loop like its end does. *)
Fixpoint write_body (body : list body_item) : option (list Z) :=
  match body with
  | [] => Some []
  | Chunk data true :: body => app data <$> write_body body
  | Chunk _ false :: _ => None
  | BodyError :: _ => Some []
  end.

Section Handlers.
  Context `{OpenDal}.
  Context `{Sc : Serde ConvertJob, Su : Serde UploadJob, Sm : Serde MigrateJob}.
  Variable cfg : AppConfig.

(** Checks before the body is read. *)
Definition upload_checks (job : ConvertJob) (m : StorageManager) (w : world) : option (Z * JobResponse) :=
  let dst := match cj_dst_bucket job with Some "" => None | b => b end in
  let bad := job_response BAD_REQUEST (cj_id job) in
  match (if is_s3 m then
           match dst with
           | None => Some (bad "Missing dst_bucket (required when storage_backend is s3)")
           | Some b => match validate_bucket_for_write b with Err message => Some (bad message) | Ok _ => None end
           end
         else None) with
  | Some r => Some r
  | None =>
    if (63 <? cj_crf job)%Z then Some (bad "Invalid parameters: crf can only be set in the range 0-63")
    else if negb (is_valid_job_id (cj_id job)) then Some (bad "Invalid job ID format")
    else if existsb (fun existing => (id existing =? cj_id job)%string) (jobs (manager w))
    then Some (bad "already in-progress")
    else None
  end.

(** [add] then [unbounded_send], nothing in between. *)
Definition accept (j : RawJob) (w : world) : outcome world :=
  w ← submit true j w;
  send (length (in_flight w) - 1) w.

(** The upload directory's content: path and bytes.  [create] and [flush] say
    whether these calls succeed. *)
Definition uploads : Type := gmap string (list Z).

Definition upload_mp4_raw (query : result ConvertJob string) (create flush : bool) (body : list body_item)
    (m : StorageManager) (disk : uploads) (w : world) : outcome (uploads * world * (Z * JobResponse)) :=
  match query with
  | Err err => Ret (disk, w, job_response BAD_REQUEST "unknown" ("Failed to parse query parameters: " ++ err))
  | Ok job =>
    match upload_checks job m w with
    | Some r => Ret (disk, w, r)
    | None =>
      let path := upload_path (uploads_dir cfg) job in
      let failed := job_response INTERNAL_SERVER_ERROR (cj_id job) in
      if negb create then Ret (disk, w, failed "Failed to create upload file")
      else match write_body body with
           | None => Ret (delete path disk, w, failed "Failed to write upload file")
           | Some data =>
             if negb flush then Ret (delete path disk, w, failed "Failed to submit convert job")
             else
               w ← accept (RawConvert job) w;
               Ret (<[path := data]> disk, w, job_response ACCEPTED (cj_id job) "Processing in background")
           end
    end
  end.

(** ** Migrations *)

Record MigrateRequest := {
  mr_job_id : string;
  mr_src_bucket : string;
  mr_dst_bucket : string;
  mr_widths : option (list Z)
}.

Definition migrate_videos (request : MigrateRequest) (m : StorageManager) (w : world)
    : outcome (StorageManager * world * (Z * JobResponse)) :=
  let job_id := mr_job_id request in
  let migrate_err m message := Ret (m, w, job_response BAD_REQUEST job_id message) in
  if negb (is_s3 m) then migrate_err m "storage_backend is not s3"
  else if negb (is_valid_job_id job_id) then migrate_err m "Invalid job ID format"
  else match validate_bucket_for_write (mr_src_bucket request) with
  | Err message => migrate_err m ("Invalid src_bucket: " ++ message)
  | Ok _ =>
  match validate_bucket_for_write (mr_dst_bucket request) with
  | Err message => migrate_err m ("Invalid dst_bucket: " ++ message)
  | Ok _ =>
    if existsb (fun existing => (id existing =? job_id)%string) (jobs (manager w))
    then migrate_err m "Migration already in-progress"
    else match operator_for_bucket (mr_src_bucket request) m with
    | (m, Err _) => migrate_err m "Invalid src_bucket"
    | (m, Ok _) =>
    match operator_for_bucket (mr_dst_bucket request) m with
    | (m, Err _) => migrate_err m "Invalid dst_bucket"
    | (m, Ok _) =>
      widths ← resolved_widths (mr_widths request);
      w ← accept (RawMigrate (MigrateJob_new job_id (mr_src_bucket request) (mr_dst_bucket request) widths 0)) w;
      Ret (m, w, job_response ACCEPTED job_id "Processing in background")
    end end
  end end.

End Handlers.

(** ** Serving files *)

Section Serve.
  Context `{Profile, OpenDal}.
  Variable cfg : AppConfig.

  (** Files and objects.  [s3_read op key start end] is a ranged read, and
      [reader_chunks] how [ReaderStream] cuts a file's bytes. *)
  Variable local_file : string -> option (list Z).
  Variable s3_stat : Operator -> string -> option Z.
  Variable s3_read : Operator -> string -> Z -> Z -> option (list Z).
  Variable reader_chunks : list Z -> list (list Z).

(** Status, first and last byte.  [file_size - 1] is computed in any case. *)
Definition parse_range (range : option string) (file_size : Z) : outcome (Z * Z * Z) :=
  match (match range with
         | None => None
         | Some s =>
           match strip_prefix "bytes=" s with
           | None => None
           | Some stripped =>
             match split "-"%char stripped with
             | [] => None
             | p0 :: rest =>
               match parse_uint 64 p0 with
               | None => None
               | Some start => Some (start, head rest ≫= parse_uint 64)
               end
             end
           end
         end) with
  | Some (start, end_) =>
    last ← usub 64 file_size 1;
    Ret (PARTIAL_CONTENT, start, Z.min (default last end_) last)
  | None =>
    last ← usub 64 file_size 1;
    Ret (OK, 0, last)
  end.

(** [end - start + 1] *)
Definition range_len (start end_ : Z) : outcome Z :=
  d ← usub 64 end_ start;
  uadd 64 d 1.

(** What is charged to the claim's bucket before a chunk is sent. *)
Definition throttled (chunks : list (list Z)) : list (Z * list Z) :=
  (fun chunk => (Z.of_nat (length chunk), chunk)) <$> chunks.

(** [data.chunks(n)], [n > 0]: the list's length is fuel enough. *)
Fixpoint chunks_fuel (fuel n : nat) (data : list Z) : list (list Z) :=
  match fuel, data with
  | S fuel, _ :: _ => take n data :: chunks_fuel fuel n (drop n data)
  | _, _ => []
  end.

Definition chunks (n : nat) (data : list Z) : list (list Z) := chunks_fuel (length data) n data.

(** [seek] then [take]: reading starts at [start] and ends after [len] bytes or
    at the end of the file. *)
Definition try_serve_from_filesystem (path : string) (start end_ : Z) : outcome (result (list (Z * list Z)) anyhow) :=
  match local_file path with
  | None => Ret (Err "open")
  | Some data =>
    len ← range_len start end_;
    Ret (Ok (throttled (reader_chunks (take (Z.to_nat len) (drop (Z.to_nat start) data)))))
  end.

(** 8 MiB; a parameter so that it need not be a unary number. *)
Variable s3_chunk : nat.

Definition try_serve_from_s3 (s3_key : string) (start end_ : Z) (operator : Operator) : result (list (Z * list Z)) anyhow :=
  match s3_read operator s3_key start end_ with
  | None => Err "read"
  | Some data => Ok (throttled (chunks s3_chunk data))
  end.

Record file_response := {
  fr_status : Z;
  fr_content_type : string;
  fr_content_length : string;
  fr_content_range : option string;
  fr_body : list (Z * list Z)
}.

Inductive served :=
  | File (r : file_response)
  | Refused (r : response).

Definition server_file_with_bucket (local_path s3_key filename : string) (range : option string)
    (operator : option Operator) : outcome served :=
  let maybe_filesize :=
    match local_file local_path with
    | Some data => Some (Z.of_nat (length data), false)
    | None =>
      match operator with
      | Some op => match s3_stat op s3_key with Some n => Some (n, true) | None => None end
      | None => None
      end
    end in
  match maybe_filesize with
  | None => Ret (Refused file_not_found)
  | Some (size, read_from_s3) =>
    '(status, start, end_) ← parse_range range size;
    len ← range_len start end_;
    maybe_res ← (if read_from_s3 : bool then
                   match operator with
                   | Some op => Ret (try_serve_from_s3 s3_key start end_ op)
                   | None => Panic
                   end
                 else try_serve_from_filesystem local_path start end_);
    match maybe_res with
    | Err _ => Ret (Refused file_not_found)
    | Ok body =>
      Ret (File {| fr_status := status;
                   fr_content_type := hls_content_type filename;
                   fr_content_length := dec len;
                   fr_content_range :=
                     if (status =? PARTIAL_CONTENT)%Z
                     then Some ("bytes " ++ dec start ++ "-" ++ dec end_ ++ "/" ++ dec size) else None;
                   fr_body := body |})
    end
  end.

Definition local_path (job_id key : string) : string := path_join (path_join (videos_dir cfg) job_id) key.
Definition s3_key (key : string) : string := "videos/" ++ key.

Definition serve_video (filename : string) (range : option string) (m : StorageManager)
    : outcome (StorageManager * served) :=
  match split_bucket_and_key filename with
  | Err msg => Ret (m, Refused (err_response BAD_REQUEST msg))
  | Ok (bucket_prefix, key) =>
    let '(m, operator) :=
      if is_s3 m then
        match choose_bucket_for_s3 bucket_prefix (default_bucket m) with
        | Err msg => (m, Err msg)
        | Ok bucket_name =>
          match operator_for_bucket bucket_name m with
          | (m, Ok op) => (m, Ok (Some op))
          | (m, Err _) => (m, Err "Invalid bucket")
          end
        end
      else (m, Ok None) in
    match operator with
    | Err msg => Ret (m, Refused (err_response BAD_REQUEST msg))
    | Ok operator =>
      match extract_job_id_from_key key with
      | Err msg => Ret (m, Refused (err_response BAD_REQUEST msg))
      | Ok job_id =>
        r ← server_file_with_bucket (local_path job_id key) (s3_key key) key range operator;
        Ret (m, r)
      end
    end
  end.

End Serve.

(** ** Claims *)

Section Claims.
  Context `{P : Profile, L : Libm, Sm : Semaphore, Ae : Aead, Bs : Base64}.

Inductive create_response :=
  | Created (token : string)
  | NotCreated (r : response).

Definition create_claim (random_u16 : nat -> Z) (random_nonce : list Z) (now_secs now_nanos : Z)
    (request : CreateClaimRequest) (m : ClaimManagerInner) : outcome create_response :=
  if assets_is_empty (r_asset_id request) then Ret (NotCreated (err_response BAD_REQUEST "asset_id is required"))
  else
    let nbf := default (wrap 32 now_secs) (r_nbf_unix request) in
    if (r_exp_unix request <=? nbf)%Z then
      Ret (NotCreated (err_response BAD_REQUEST "exp_unix must be greater than nbf_unix"))
    else
      let window_len_sec := default 0 (r_window_len_sec request) in
      let max_kbps := default 0 (r_max_kbps request) in
      let max_concurrency := default 0 (r_max_concurrency request) in
      let allowed_widths := default [] (r_allowed_widths request) in
      let answer r :=
        match r with
        | Ok token => Created token
        | Err _ => NotCreated (err_response INTERNAL_SERVER_ERROR "Failed to create claim")
        end in
      match r_asset_id request with
      | One asset_id =>
        Ret (answer (sign_claim random_nonce now_nanos
          {| v1_exp_unix := r_exp_unix request; v1_nbf_unix := nbf; v1_asset_id := asset_id;
             v1_window_len_sec := window_len_sec; v1_max_kbps := max_kbps; v1_max_concurrency := max_concurrency;
             v1_allowed_widths := allowed_widths |} m))
      | List filter =>
        r ← try_from_strings random_u16 filter;
        match r with
        | Err _ => Ret (NotCreated (err_response BAD_REQUEST "Invalid assets filter"))
        | Ok assets_filter =>
          Ret (answer (sign_claim random_nonce now_nanos
            {| v2_exp_unix := r_exp_unix request; v2_nbf_unix := nbf; v2_assets_filter := assets_filter;
               v2_window_len_sec := window_len_sec; v2_max_kbps := max_kbps; v2_max_concurrency := max_concurrency;
               v2_allowed_widths := allowed_widths |} m))
        end
      end.

(** [no_auth_middleware]: every request gets an unlimited bucket of its own. *)
Definition no_auth_middleware {A : Type} (elapsed_ms : Z) (next : ClaimBucket -> A) : A :=
  next (ClaimBucket_new elapsed_ms (S754_zero false) 0 0 0).

End Claims.
