(* ===== verification/Names.v ===== *)
(** * Names across the program.

    The converter names files ([Convert.v]), the middleware reads the asset,
    segment and width of a request out of its path ([Middleware.v]), the handler
    the bucket, key and job id ([Routes.v]), uploads and migrations derive object
    keys ([Storage.v], [Jobs.v]).  Lemmas about these names and paths. *)

From stdpp Require Import base list option strings gmap.
From Stdlib Require Import ZArith Lia Ascii.
From S2P Require Import Prelude RustInt RustStr Middleware Storage Convert Jobs Routes.

Local Open Scope Z_scope.
Local Open Scope string_scope.

(** ** Job ids *)

Record id_ok (i : string) : Prop := {
  id_slash : contains_char "/"%char i = false;
  id_dash : contains_char "-"%char i = false;
  id_dot : contains_char "."%char i = false;
  id_not_empty : is_empty i = false
}.

Lemma valid_id_ok i : is_valid_job_id i = true -> id_ok i.
Proof. unfold is_valid_job_id. intros H. bool_hyps. by split. Qed.

(** ** The files of a conversion, relative to its directory

    ffmpeg writes a playlist, an init segment and numbered segments per scale and
    codec, under the names it was given; [%03d] is replaced by the number.  The
    indices are what a request for the file stands for: segment and width. *)
Inductive emitted (job : ConvertJob) : string -> option Z -> option Z -> Prop :=
  | emitted_master : emitted job (cj_id job ++ ".m3u8") None None
  | emitted_playlist s c :
      s ∈ scales_deref (cj_scales job) -> c ∈ codecs_deref (cj_codecs job) ->
      emitted job (dec (width s) ++ "/" ++ playlist_filename c (cj_id job)) None (Some (width s))
  | emitted_init s c :
      s ∈ scales_deref (cj_scales job) -> c ∈ codecs_deref (cj_codecs job) ->
      emitted job (dec (width s) ++ "/" ++ init_filename c (cj_id job)) (Some 0) (Some (width s))
  | emitted_segment s c num n :
      s ∈ scales_deref (cj_scales job) -> c ∈ codecs_deref (cj_codecs job) ->
      forall_char is_ascii_digit num = true -> parse_uint 32 num = Some n ->
      emitted job (dec (width s) ++ "/" ++ segment_prefix c (cj_id job) ++ "-" ++ num ++ ".m4s") (Some n) (Some (width s)).

(** ** Pieces of names *)

Lemma playlist_filename_prefix c i : playlist_filename c i = segment_prefix c i ++ ".m3u8".
Proof. unfold playlist_filename. destruct c; cbn [playlist_suffix segment_prefix]; [done|by rewrite sapp_assoc..]. Qed.

Lemma segment_prefix_tail c i : segment_prefix c i = i ++ playlist_suffix c.
Proof. destruct c; cbn [playlist_suffix segment_prefix]; [by rewrite sapp_nil_r|done..]. Qed.

Lemma prefix_contains ch c i :
  contains_char ch (playlist_suffix c) = false -> contains_char ch i = false ->
  contains_char ch (segment_prefix c i) = false.
Proof. intros Hc Hi. by rewrite segment_prefix_tail, contains_char_app, Hi, Hc. Qed.

Lemma prefix_slash c i : id_ok i -> contains_char "/"%char (segment_prefix c i) = false.
Proof. intros Hi. apply prefix_contains; [by destruct c|apply Hi]. Qed.

Lemma prefix_dot c i : id_ok i -> contains_char "."%char (segment_prefix c i) = false.
Proof. intros Hi. apply prefix_contains; [by destruct c|apply Hi]. Qed.

Lemma remove_codec_prefix c i : id_ok i -> remove_codec_suffix (segment_prefix c i) = i.
Proof.
  intros Hi. unfold remove_codec_suffix. destruct c; cbn [segment_prefix].
  - pose proof (ends_with_not_contains "-"%char "-h265" i eq_refl (id_dash i Hi)) as H5.
    pose proof (ends_with_not_contains "-"%char "-h264" i eq_refl (id_dash i Hi)) as H4.
    apply ends_with_false in H5, H4. by rewrite H5, H4.
  - by rewrite (proj2 (strip_suffix_Some "-h265" (i ++ "-h265") i) eq_refl).
  - pose proof (ends_with_long "-h265" i "-h264" (le_n _)) as H5.
    change (ends_with "-h265" "-h264") with false in H5. apply ends_with_false in H5.
    by rewrite H5, (proj2 (strip_suffix_Some "-h264" (i ++ "-h264") i) eq_refl).
Qed.

(** ** The middleware's reading *)

(** Of a file name alone. *)
Definition parse_file_part (file_part : string) (width : option Z) : option (string * option Z * option Z) :=
  if ends_with ".m3u8" file_part then
    Some (remove_codec_suffix (trim_end_matches ".m3u8" file_part), None, width)
  else if ends_with "-init.mp4" file_part then
    Some (remove_codec_suffix (trim_end_matches "-init.mp4" file_part), Some 0, width)
  else if contains_char "-"%char file_part && ends_with ".m4s" file_part then
    match rsplitn2 "-"%char (trim_end_matches ".m4s" file_part) with
    | [num; rest] =>
      match parse_uint 32 num with
      | Some segment_num => Some (remove_codec_suffix rest, Some segment_num, width)
      | None => None
      end
    | _ => None
    end
  else None.

Lemma parse_video_filename_parts f part w :
  path_parts f = Some (part, w) -> parse_video_filename f = parse_file_part part w.
Proof. intros H. unfold parse_video_filename. by rewrite H. Qed.

Lemma parse_playlist_part c i w : id_ok i -> parse_file_part (segment_prefix c i ++ ".m3u8") w = Some (i, None, w).
Proof.
  intros Hi. unfold parse_file_part. rewrite ends_with_app, trim_end_matches_app, remove_codec_prefix; [done|done|done|].
  by apply (ends_with_not_contains "."%char), prefix_dot.
Qed.

Lemma parse_init_part c i w : id_ok i -> parse_file_part (segment_prefix c i ++ "-init.mp4") w = Some (i, Some 0, w).
Proof.
  intros Hi. unfold parse_file_part. rewrite ends_with_long by (cbn; lia). change (ends_with ".m3u8" "-init.mp4") with false.
  cbn iota. rewrite ends_with_app, trim_end_matches_app, remove_codec_prefix; [done|done|done|].
  by apply (ends_with_not_contains "."%char), prefix_dot.
Qed.

Lemma parse_segment_part c i num n w :
  id_ok i -> forall_char is_ascii_digit num = true -> parse_uint 32 num = Some n ->
  parse_file_part (segment_prefix c i ++ "-" ++ num ++ ".m4s") w = Some (i, Some n, w).
Proof.
  intros Hi Hd Hn. rewrite !sapp_assoc. unfold parse_file_part.
  rewrite ends_with_short by (cbn; lia || done). rewrite ends_with_short by (cbn; lia || done). cbn iota.
  rewrite ends_with_app, andb_true_r.
  replace (contains_char "-"%char (((segment_prefix c i ++ "-") ++ num) ++ ".m4s")) with true
    by (by rewrite !contains_char_app, orb_true_r).
  cbn iota. rewrite trim_end_matches_app; [|done|].
  - unfold rsplitn2. rewrite <-sapp_assoc. change ("-" ++ num) with (String "-" num).
    rewrite rsplit_once_app by (by apply digits_contain_no). by rewrite Hn, remove_codec_prefix.
  - apply (ends_with_not_contains "."%char); [done|]. rewrite !contains_char_app, prefix_dot by done.
    by rewrite (digits_contain_no _ num).
Qed.

(** ** The handler's reading *)

Lemma extract_simple p t ext i :
  contains_char "."%char p = false -> contains_char "-"%char p = false -> contains_char "."%char t = false ->
  contains_char "."%char ext = false -> (length (split "-"%char t) <= 2)%nat ->
  (split_once "/"%char p = None /\ p = i \/ exists h, split_once "/"%char p = Some (h, i)) ->
  extract_job_id_from_key (p ++ "." ++ ext) = Ok i /\
  extract_job_id_from_key (p ++ "-" ++ t ++ "." ++ ext) = Ok i.
Proof.
  intros Hp Hd Ht He Hl Hi. unfold extract_job_id_from_key. split.
  - change ("." ++ ext) with (String "." ext). rewrite split_app, split_none by done. cbn iota.
    rewrite split_none by done. cbn. destruct Hi as [[-> ->]|[h ->]]; done.
  - rewrite !sapp_assoc. rewrite <-(sapp_assoc _ "." ext). change ("." ++ ext) with (String "." ext).
    rewrite split_app, split_none by (try done; by rewrite !contains_char_app, Hp, Ht). cbn iota.
    rewrite <-sapp_assoc. change ("-" ++ t) with (String "-" t). rewrite split_app by done. cbn [length].
    replace (S (length (split "-"%char t)) <=? 3)%nat with true by (symmetry; apply Nat.leb_le; lia).
    cbn. destruct Hi as [[-> ->]|[h ->]]; done.
Qed.

Lemma digits_not_dash num : forall_char is_ascii_digit num = true -> contains_char "-"%char num = false.
Proof. by apply digits_contain_no. Qed.

Lemma digits_not_dot num : forall_char is_ascii_digit num = true -> contains_char "."%char num = false.
Proof. by apply digits_contain_no. Qed.

(** The part of a file name after the job id. *)
Lemma extract_emitted p i c rest ext :
  contains_char "."%char p = false -> contains_char "-"%char p = false ->
  (split_once "/"%char p = None /\ p = i \/ exists h, split_once "/"%char p = Some (h, i)) ->
  contains_char "."%char ext = false ->
  rest = "" \/ (exists t, rest = "-" ++ t /\ contains_char "-"%char t = false /\ contains_char "."%char t = false) ->
  extract_job_id_from_key (p ++ playlist_suffix c ++ rest ++ "." ++ ext) = Ok i.
Proof.
  intros Hp Hd Hi He Hr.
  assert (forall t, contains_char "."%char t = false -> (length (split "-"%char t) <= 2)%nat ->
            extract_job_id_from_key (p ++ "-" ++ t ++ "." ++ ext) = Ok i) as Hx
    by (intros t Ht Hl; by apply extract_simple).
  destruct Hr as [->|(t & -> & Htd & Htp)].
  - destruct c; cbn [playlist_suffix].
    + apply (extract_simple p "" ext i); try done. cbn. lia.
    + apply (Hx "h265"); [done|cbn; lia].
    + apply (Hx "h264"); [done|cbn; lia].
  - destruct c; cbn [playlist_suffix].
    + change ("" ++ ("-" ++ t) ++ "." ++ ext) with ("-" ++ t ++ "." ++ ext). apply Hx; [done|]. rewrite split_none by done. cbn. lia.
    + change ("-h265" ++ ("-" ++ t) ++ "." ++ ext) with ("-" ++ ("h265" ++ String "-" t) ++ "." ++ ext).
      apply Hx; [by rewrite contains_char_app|]. rewrite split_app, split_none by done. cbn. lia.
    + change ("-h264" ++ ("-" ++ t) ++ "." ++ ext) with ("-" ++ ("h264" ++ String "-" t) ++ "." ++ ext).
      apply Hx; [by rewrite contains_char_app|]. rewrite split_app, split_none by done. cbn. lia.
Qed.

(** ** Directories in front of the file name *)

Lemma path_parts_file f : contains_char "/"%char f = false -> path_parts f = Some (f, None).
Proof. intros Hf. unfold path_parts. by rewrite split_none. Qed.

Lemma path_parts_dir d f :
  contains_char "/"%char d = false -> contains_char "/"%char f = false ->
  path_parts (d ++ "/" ++ f) = Some (f, parse_uint 16 d).
Proof. intros Hd Hf. unfold path_parts. change ("/" ++ f) with (String "/" f). by rewrite split_app, split_none. Qed.

Lemma path_parts_dirs b d f :
  contains_char "/"%char b = false -> contains_char "/"%char d = false -> contains_char "/"%char f = false ->
  path_parts (b ++ "/" ++ d ++ "/" ++ f) = Some (f, parse_uint 16 d).
Proof.
  intros Hb Hd Hf. unfold path_parts. change ("/" ++ d ++ "/" ++ f) with (String "/" (d ++ String "/" f)).
  by rewrite split_app, split_app, split_none.
Qed.

Lemma split_bucket_file f : contains_char "/"%char f = false -> split_bucket_and_key f = Ok (None, f).
Proof. intros Hf%split_once_none. unfold split_bucket_and_key. by rewrite Hf. Qed.

Lemma split_bucket_numeric d f :
  forall_char is_ascii_digit d = true -> split_bucket_and_key (d ++ "/" ++ f) = Ok (None, d ++ "/" ++ f).
Proof.
  intros Hd. unfold split_bucket_and_key. change ("/" ++ f) with (String "/" f).
  rewrite split_once_app by (by apply digits_contain_no). by rewrite Hd.
Qed.

Lemma split_bucket_prefixed b f :
  validate_bucket_for_write b = Ok tt -> is_empty f = false ->
  split_bucket_and_key (b ++ "/" ++ f) = Ok (Some b, f).
Proof.
  unfold validate_bucket_for_write, is_pure_ascii_digits. intros Hb Hf.
  destruct (is_empty b) eqn:E1; [done|]. destruct (contains_char "/"%char b) eqn:E2; [done|].
  destruct (forall_char is_ascii_digit b) eqn:E3; [done|].
  unfold split_bucket_and_key. change ("/" ++ f) with (String "/" f). rewrite split_once_app by done. by rewrite E3, Hf.
Qed.

(** The same width as a directory. *)
Definition with_width (w : option Z) (f : string) : string :=
  match w with Some w => dec w ++ "/" ++ f | None => f end.

(** How every emitted name is put together. *)
Lemma emitted_shape job rel seg w :
  emitted job rel seg w ->
  exists c rest ext, rel = with_width w (segment_prefix c (cj_id job) ++ rest ++ "." ++ ext) /\
    contains_char "/"%char (rest ++ "." ++ ext) = false /\ contains_char "."%char ext = false /\
    (rest = "" \/ exists t, rest = "-" ++ t /\ contains_char "-"%char t = false /\ contains_char "."%char t = false) /\
    (w = None -> c = Vp9 /\ rest = "") /\
    (id_ok (cj_id job) -> forall w', parse_file_part (segment_prefix c (cj_id job) ++ rest ++ "." ++ ext) w' = Some (cj_id job, seg, w')) /\
    match w with Some x => exists s, s ∈ scales_deref (cj_scales job) /\ width s = x | None => True end.
Proof.
  intros [|s c Hs Hc|s c Hs Hc|s c num n Hs Hc Hd Hn].
  - exists Vp9, "", "m3u8". split_and!; try done; [by left|]. intros Hi w'. by apply (parse_playlist_part Vp9).
  - exists c, "", "m3u8". cbn [with_width]. rewrite playlist_filename_prefix. split_and!; try done; [by left| |by eauto].
    intros Hi w'. by apply parse_playlist_part.
  - exists c, "-init", "mp4". split_and!; try done; [right; by exists "init"| |by eauto].
    intros Hi w'. by apply parse_init_part.
  - exists c, ("-" ++ num), "m4s". cbn [with_width]. rewrite <-!sapp_assoc. split_and!; try done.
    + rewrite !contains_char_app, (digits_contain_no _ num) by done. done.
    + right. exists num. split; [done|]. split; [by apply digits_not_dash|by apply digits_not_dot].
    + intros Hi w'. change ("." ++ "m4s") with ".m4s". by apply parse_segment_part.
    + by eauto.
Qed.

(** The middleware reads every emitted name back. *)
Lemma parse_emitted job rel seg w :
  id_ok (cj_id job) -> (forall s, s ∈ scales_deref (cj_scales job) -> fits 16 (width s)) -> emitted job rel seg w ->
  parse_video_filename rel = Some (cj_id job, seg, w).
Proof.
  intros Hi Hws He. destruct (emitted_shape _ _ _ _ He) as (c & rest & ext & -> & Hsl & _ & _ & _ & Hpart & Hw).
  assert (contains_char "/"%char (segment_prefix c (cj_id job) ++ rest ++ "." ++ ext) = false) as Hf
    by (by rewrite contains_char_app, (prefix_slash c _ Hi), Hsl).
  destruct w as [w|]; cbn [with_width].
  - erewrite parse_video_filename_parts by (apply path_parts_dir; [by apply dec_contains|done]).
    destruct Hw as (s & Hs & <-). rewrite (Hpart Hi), parse_dec by (lia || by apply Hws). done.
  - erewrite parse_video_filename_parts by (by apply path_parts_file). by apply Hpart.
Qed.

(** ** Objects of a video *)

Definition special (c : ascii) : bool := Ascii.eqb "/"%char c || Ascii.eqb "."%char c || Ascii.eqb "-"%char c.
Definition plain (s : string) : bool := forall_char (fun c => negb (special c)) s.

(** A string has one decomposition at its first special character. *)
Lemma plain_split a x s b y t :
  plain a = true -> plain b = true -> special x = true -> special y = true ->
  a ++ String x s = b ++ String y t -> a = b /\ x = y /\ s = t.
Proof.
  unfold plain. revert b. induction a as [|c a IH]; intros [|d b] Ha Hb Hx Hy; cbn.
  - by intros [= -> ->].
  - intros [= -> _]. cbn in Hb. by rewrite Hx in Hb.
  - intros [= <- _]. cbn in Ha. by rewrite Hy in Ha.
  - intros [= -> E]. cbn in Ha, Hb. apply andb_true_iff in Ha as [_ Ha], Hb as [_ Hb].
    destruct (IH b Ha Hb Hx Hy E) as (-> & -> & ->). done.
Qed.

Lemma plain_not_contains s :
  contains_char "/"%char s = false -> contains_char "."%char s = false -> contains_char "-"%char s = false -> plain s = true.
Proof.
  unfold plain. induction s as [|c s IH]; [done|]. cbn [contains_char forall_char]. unfold special.
  destruct (Ascii.eqb "/" c), (Ascii.eqb "." c), (Ascii.eqb "-" c); try done.
Qed.

Lemma plain_id i : id_ok i -> plain i = true.
Proof. intros Hi. by apply plain_not_contains; apply Hi. Qed.

Lemma plain_dec w : plain (dec w) = true.
Proof. apply plain_not_contains; by apply dec_contains. Qed.

Lemma starts_special r : starts_with "." r || starts_with "-" r = true -> exists x t, r = String x t /\ special x = true /\ x <> "/"%char.
Proof.
  intros [H|H]%orb_true_iff; apply starts_with_spec in H as [t ->]; by eexists _, t.
Qed.

Lemma selects_Some prefix path :
  selects prefix path = true <-> exists x t, path = prefix ++ String x t /\ (x = "."%char \/ x = "-"%char).
Proof.
  unfold selects. split.
  - destruct (strip_prefix prefix path) as [r|] eqn:E; [|done]. apply strip_prefix_Some in E as ->.
    intros [H|H]%orb_true_iff; apply starts_with_spec in H as [t ->]; eexists _, t; by eauto.
  - intros (x & t & -> & Hx). rewrite (proj2 (strip_prefix_Some prefix (prefix ++ String x t) (String x t)) eq_refl).
    apply orb_true_iff. rewrite !starts_with_spec. destruct Hx as [-> | ->]; [left|right]; by exists t.
Qed.

(** What follows the id in an emitted name. *)
Lemma tail_special c rest ext :
  (rest = "" \/ exists t, rest = "-" ++ t /\ contains_char "-"%char t = false /\ contains_char "."%char t = false) ->
  exists x t, playlist_suffix c ++ rest ++ "." ++ ext = String x t /\ (x = "."%char \/ x = "-"%char).
Proof. intros [->|(t & -> & _)]; destruct c; cbn; by eauto. Qed.

Lemma with_width_app w f g : with_width w (f ++ g) = with_width w f ++ g.
Proof. destruct w as [w|]; cbn [with_width]; [|done]. by rewrite !sapp_assoc. Qed.

(** The key of an emitted file belongs to a prefix exactly when id and width agree. *)
Lemma selects_emitted job rel seg w i w' :
  emitted job rel seg w -> id_ok (cj_id job) -> id_ok i ->
  selects ("videos/" ++ with_width w' i) ("videos/" ++ rel) = true <->
  cj_id job = i /\ with_width w i = with_width w' i.
Proof.
  intros He Hj Hi. destruct (emitted_shape _ _ _ _ He) as (c & rest & ext & -> & _ & _ & Hrest & _).
  destruct (tail_special c rest ext Hrest) as (x & t & Hxt & Hx).
  rewrite segment_prefix_tail, <-sapp_assoc, Hxt, with_width_app, selects_Some. split.
  - intros (y & u & Heq & Hy). rewrite <-sapp_assoc in Heq. cbn in Heq.
    assert (with_width w (cj_id job) ++ String x t = with_width w' i ++ String y u) as E by congruence. clear Heq.
    assert (special x = true /\ special y = true) as [Hsx Hsy] by (destruct Hx as [-> | ->], Hy as [-> | ->]; done).
    destruct w as [w|], w' as [w'|]; cbn [with_width] in E; rewrite <-?sapp_assoc in E.
    + change ("/" ++ cj_id job ++ String x t) with (String "/" (cj_id job ++ String x t)) in E.
      change ("/" ++ i ++ String y u) with (String "/" (i ++ String y u)) in E.
      apply plain_split in E as (Hw & _ & E); [|apply plain_dec|apply plain_dec|done|done].
      apply plain_split in E as (-> & _); [|by apply plain_id|by apply plain_id|done|done]. cbn [with_width]. by rewrite Hw.
    + change ("/" ++ cj_id job ++ String x t) with (String "/" (cj_id job ++ String x t)) in E.
      apply plain_split in E as (_ & <- & _); [|apply plain_dec|by apply plain_id|done|done]. by destruct Hy.
    + change ("/" ++ i ++ String y u) with (String "/" (i ++ String y u)) in E.
      apply plain_split in E as (_ & -> & _); [|by apply plain_id|apply plain_dec|done|done]. by destruct Hx.
    + apply plain_split in E as (-> & _); [done|by apply plain_id|by apply plain_id|done|done].
  - intros [<- ->]. exists x, t. by rewrite <-sapp_assoc.
Qed.

Lemma object_prefixes_elem g p :
  p ∈ object_prefixes g <-> exists w, p = "videos/" ++ with_width w (mj_id g) /\ (w = None \/ exists x, w = Some x /\ x ∈ mj_widths g).
Proof.
  unfold object_prefixes. rewrite elem_of_cons, list_elem_of_fmap. split.
  - intros [->|(x & -> & Hx)]; [by exists None; eauto|exists (Some x); eauto].
  - intros (w & -> & [->|(x & -> & Hx)]); [by left|right; by exists x].
Qed.

Lemma with_width_inj w w' i : id_ok i -> with_width w i = with_width w' i -> dec <$> w = dec <$> w'.
Proof.
  intros Hi. destruct w as [w|], w' as [w'|]; cbn [with_width fmap option_fmap option_map]; intros E; [|exfalso|exfalso|done].
  - f_equal. change ("/" ++ i) with (String "/" i) in E. by apply plain_split in E as (-> & _); [|apply plain_dec|apply plain_dec|..].
  - pose proof (f_equal (contains_char "/"%char) E) as Hc. rewrite !contains_char_app, (id_slash i Hi), orb_true_r in Hc. done.
  - pose proof (f_equal (contains_char "/"%char) E) as Hc. rewrite !contains_char_app, (id_slash i Hi), orb_true_r in Hc. done.
Qed.

(** ** An example *)

Definition example_job : ConvertJob := ConvertJob_new "video1" 30 [] 0.
Definition example_segment : string := "720/video1-h264-007.m4s".

Lemma example_emitted : emitted example_job example_segment (Some 7) (Some 720).
Proof. apply (emitted_segment example_job (Scale_new 720 1280) H264 "007" 7); (by left) || (by right; left) || done. Defined.

Lemma example_widths s : s ∈ scales_deref (cj_scales example_job) -> fits 16 (width s).
Proof. intros H%list_elem_of_In. cbn in H. by destruct H as [<-|[<-|[<-|[]]]]. Defined.
