(* ===== verification/Config.v ===== *)
(** * Configuration ([crates/core/src/config.rs], start of [lib.rs]'s [run]).

    Merging of command line and file, the claim keys of both, validation, and what
    [run] makes of a configuration.  clap, toml's derived code and the standard
    base64 alphabet are parameters. *)

From stdpp Require Import base list option strings gmap sorting.
From Stdlib Require Import ZArith Lia Ascii SpecFloat.
From S2P Require Import Prelude RustInt RustStr Float64 Storage Jobs Handler.

Local Open Scope Z_scope.
Local Open Scope string_scope.

Record Config := {
  listen_on_port : Z;
  internal_port : Z;
  c_permits : Z;
  c_migrate_permits : Z;
  token_rate : f64;
  workspace : string;
  config : option string;
  storage_backend : string;
  s3_endpoint : option string;
  s3_region : option string;
  s3_bucket : option string;
  s3_access_key_id : option string;
  s3_secret_access_key : option string;
  webhook_url : option string;
  claim_keys : list (Z * list Z)
}.

(** ** Defaults *)

Definition default_port : Z := 32145.
Definition MIN_PERMITS : Z := 10.
Definition default_permits : Z := MIN_PERMITS.
Definition default_migrate_permits : Z := 1.
Definition default_token_rate : f64 := S754_zero false.
Definition default_workspace : string := ".".
Definition default_storage_backend : string := "local".
Definition default_internal_port : Z := 32146.

Definition Config_default : Config :=
  {| listen_on_port := default_port; internal_port := default_internal_port; c_permits := default_permits;
     c_migrate_permits := default_migrate_permits; token_rate := default_token_rate; workspace := default_workspace;
     config := None; storage_backend := default_storage_backend; s3_endpoint := None; s3_region := None; s3_bucket := None;
     s3_access_key_id := None; s3_secret_access_key := None; webhook_url := None; claim_keys := [] |}.

(** ** Claim keys *)

Section Keys.
  (** [STANDARD.decode], with the text of its error. *)
  Variable std_decode : string -> result (list Z) string.

Definition parse_claim_key (s : string) : result (Z * list Z) string :=
  match split_once ":"%char s with
  | None => Err "Invalid format. Use kid:base64_key"
  | Some (kid, key) =>
    match parse_uint 8 kid with
    | None => Err ("Invalid kid '" ++ kid ++ "'. Must be a number between 0-255")
    | Some kid =>
      match std_decode key with
      | Err error => Err ("Failed to decode base64 key for " ++ dec kid ++ ": " ++ error)
      | Ok key_bytes =>
        if (length key_bytes =? 32)%nat then Ok (kid, key_bytes)
        else Err ("Invalid key length for kid " ++ dec kid ++ ": expected 32 bytes, got " ++ dec (Z.of_nat (length key_bytes)))
      end
    end
  end.

(** The loop over the map of the file; [HashMap] delivers its entries in any order. *)
Fixpoint collect_claim_keys (repr : list (string * string)) : result (list (Z * list Z)) string :=
  match repr with
  | [] => Ok []
  | (kstr, v) :: repr =>
    match parse_uint 8 kstr with
    | None => Err "invalid kid"
    | Some kid =>
      match std_decode v with
      | Err error => Err error
      | Ok bytes =>
        if (length bytes =? 32)%nat then
          match collect_claim_keys repr with
          | Ok out => Ok ((kid, bytes) :: out)
          | Err e => Err e
          end
        else Err ("claim_keys[" ++ dec kid ++ "] length " ++ dec (Z.of_nat (length bytes)) ++ ", expect 32")
      end
    end
  end.

Definition key_le (a b : Z * list Z) : Prop := a.1 <= b.1.

#[export] Instance key_le_dec : RelDecision key_le.
Proof. intros a b. unfold key_le. apply _. Defined.

(** [dedup_by_key]: of consecutive entries with one key the first stays. *)
Fixpoint dedup_by_key (l : list (Z * list Z)) : list (Z * list Z) :=
  match l with
  | [] => []
  | a :: l =>
    match dedup_by_key l with
    | b :: l' => if (a.1 =? b.1)%Z then a :: l' else a :: b :: l'
    | [] => [a]
    end
  end.

(** Which of several entries of one kid comes first is left open by
    [sort_unstable_by_key], and by the order of the map. *)
Definition de_claim_keys (repr : option (list (string * string))) : result (list (Z * list Z)) string :=
  match repr with
  | None => Ok []
  | Some repr =>
    match collect_claim_keys repr with
    | Err e => Err e
    | Ok out => Ok (dedup_by_key (merge_sort key_le out))
    end
  end.

End Keys.

Definition get_claim_key (kid : Z) (c : Config) : option (list Z) :=
  snd <$> find (fun k => (k.1 =? kid)%Z) (claim_keys c).

(** ** Loading *)

Definition with_permits (n : Z) (c : Config) : Config :=
  {| listen_on_port := listen_on_port c; internal_port := internal_port c; c_permits := n;
     c_migrate_permits := c_migrate_permits c; token_rate := token_rate c; workspace := workspace c; config := config c;
     storage_backend := storage_backend c; s3_endpoint := s3_endpoint c; s3_region := s3_region c; s3_bucket := s3_bucket c;
     s3_access_key_id := s3_access_key_id c; s3_secret_access_key := s3_secret_access_key c; webhook_url := webhook_url c;
     claim_keys := claim_keys c |}.

Definition enforce_permit_floor (c : Config) : Config :=
  if (c_permits c <? MIN_PERMITS)%Z then with_permits MIN_PERMITS c else c.

(** A field of the command line that has its default value is taken from the file. *)
Definition unless {A} (is_default : A -> bool) (cli file : A) : A := if is_default cli then file else cli.
Definition or_file {A} (cli file : option A) : option A := match cli with None => file | Some _ => cli end.

Definition merge_with_file (file c : Config) : Config :=
  enforce_permit_floor
    {| listen_on_port := unless (Z.eqb default_port) (listen_on_port c) (listen_on_port file);
       internal_port := unless (Z.eqb default_internal_port) (internal_port c) (internal_port file);
       c_permits := unless (Z.eqb default_permits) (c_permits c) (c_permits file);
       c_migrate_permits := unless (Z.eqb default_migrate_permits) (c_migrate_permits c) (c_migrate_permits file);
       token_rate := unless (fun r => SFeqb r default_token_rate) (token_rate c) (token_rate file);
       workspace := unless (String.eqb default_workspace) (workspace c) (workspace file);
       config := config c;
       storage_backend := unless (String.eqb default_storage_backend) (storage_backend c) (storage_backend file);
       s3_endpoint := or_file (s3_endpoint c) (s3_endpoint file);
       s3_region := or_file (s3_region c) (s3_region file);
       s3_bucket := or_file (s3_bucket c) (s3_bucket file);
       s3_access_key_id := or_file (s3_access_key_id c) (s3_access_key_id file);
       s3_secret_access_key := or_file (s3_secret_access_key c) (s3_secret_access_key file);
       webhook_url := or_file (webhook_url c) (webhook_url file);
       claim_keys := unless (fun l => bool_decide (l = [])) (claim_keys c) (claim_keys file) |}.

(** [read_to_string] and [toml::from_str]. *)
Definition from_file (read : string -> result string anyhow) (toml : string -> result Config anyhow) (path : string)
    : result Config anyhow :=
  match read path with
  | Err e => Err e
  | Ok content =>
    match toml content with
    | Err e => Err e
    | Ok c => Ok (enforce_permit_floor c)
    end
  end.

(** ** Validation *)

Definition check (bad : bool) (message : string) (rest : result unit anyhow) : result unit anyhow :=
  if bad then Err message else rest.

Definition opt_empty (o : option string) : bool := match o with Some s => is_empty s | None => true end.

Definition validate_storage (c : Config) : result unit anyhow :=
  if (storage_backend c =? "local")%string then Ok tt
  else if (storage_backend c =? "s3")%string then
    let rest :=
      check (opt_empty (s3_access_key_id c)) "S3 access key ID is required when backend is 's3'"
      (check (opt_empty (s3_secret_access_key c)) "S3 secret access key is required when backend is 's3'" (Ok tt)) in
    match s3_bucket c with
    | None => rest
    | Some bucket =>
      check (is_empty bucket) "S3 bucket cannot be empty"
      (check (contains_char "/"%char bucket) "S3 bucket must not contain '/'"
      (check (is_pure_ascii_digits bucket) "S3 bucket must not be numeric-only (e.g. '123')" rest))
    end
  else Err ("Unsupported storage backend: " ++ storage_backend c ++ ". Use 'local' or 's3'").

Definition validate (c : Config) : result unit anyhow :=
  match validate_storage c with
  | Err e => Err e
  | Ok _ =>
    let rest := check (c_migrate_permits c =? 0)%Z "migrate_permits must be greater than 0" (Ok tt) in
    match webhook_url c with
    | None => rest
    | Some url =>
      check (is_empty url) "Webhook URL cannot be empty"
      (check (negb (starts_with "http://" url) && negb (starts_with "https://" url))
         "Webhook URL must start with http:// or https://" rest)
    end
  end.

Definition load (read : string -> result string anyhow) (toml : string -> result Config anyhow) (cli : Config)
    : result Config anyhow :=
  match (match config cli with
         | None => Ok cli
         | Some path =>
           match from_file read toml path with
           | Err e => Err e
           | Ok file => Ok (merge_with_file file cli)
           end
         end) with
  | Err e => Err e
  | Ok c =>
    let c := enforce_permit_floor c in
    match validate c with
    | Err e => Err e
    | Ok _ => Ok c
    end
  end.

(** ** What [run] makes of it *)

Record S3Config := {
  endpoint : option string;
  region : option string;
  bucket : option string;
  access_key_id : string;
  secret_access_key : string
}.

Definition to_s3_config (c : Config) : option S3Config :=
  if negb (storage_backend c =? "s3")%string then None
  else match s3_access_key_id c, s3_secret_access_key c with
       | Some i, Some k => Some {| endpoint := s3_endpoint c; region := s3_region c; bucket := s3_bucket c;
                                   access_key_id := i; secret_access_key := k |}
       | _, _ => None
       end.

(** The [match] on the backend's name: [expect] and [panic!] are its other ends. *)
Definition run_backend (c : Config) : outcome StorageBackend :=
  if (storage_backend c =? "local")%string then Ret Local
  else if (storage_backend c =? "s3")%string then
    match to_s3_config c with
    | Some s => Ret (S3 (endpoint s) (region s) (bucket s) (access_key_id s) (secret_access_key s))
    | None => Panic
    end
  else Panic.

Definition TEMP_DIR : string := "temp".
Definition UPLOADS_DIR : string := "uploads".
Definition VIDEOS_DIR : string := "videos".

(** The part of [AppState::new] that the handlers read: permits and directories. *)
Definition run_config (c : Config) : outcome AppConfig :=
  b ← run_backend c;
  Ret {| cfg_is_s3 := match b with S3 _ _ _ _ _ => true | Local => false end;
         permits := Z.to_nat (c_permits c); migrate_permits := Z.to_nat (c_migrate_permits c);
         uploads_dir := path_join (workspace c) UPLOADS_DIR; videos_dir := path_join (workspace c) VIDEOS_DIR |}.
