(* ===== verification/RoutesSpec.v ===== *)
(** * What the handlers promise about names, uploads, migrations and files. *)

From stdpp Require Import base list option strings gmap.
From Stdlib Require Import ZArith Lia Ascii.
From S2P Require Import Prelude RustInt RustStr Middleware Storage Convert Jobs Handler HandlerPending Routes Names.

Local Open Scope Z_scope.
Local Open Scope string_scope.

(** The names agree across the program.  For a job with a valid id and 16-bit
    widths, every file the conversion emits is read back from its request path,
    with or without a bucket in front, as this job's asset with the segment
    number and width it was written for, and the file handler finds the same
    job id and key. *)
Theorem emitted_names_parse_back job rel seg w :
  is_valid_job_id (cj_id job) = true -> (forall s, s ∈ scales_deref (cj_scales job) -> fits 16 (width s)) ->
  emitted job rel seg w ->
  parse_video_filename rel = Some (cj_id job, seg, w) /\
  split_bucket_and_key rel = Ok (None, rel) /\
  extract_job_id_from_key rel = Ok (cj_id job) /\
  forall b, validate_bucket_for_write b = Ok tt ->
    split_bucket_and_key (b ++ "/" ++ rel) = Ok (Some b, rel) /\
    parse_video_filename (b ++ "/" ++ rel) =
      Some (cj_id job, seg, match w with Some w => Some w | None => parse_uint 16 b end).
Proof.
  intros Hv Hws He. pose proof (valid_id_ok _ Hv) as Hi.
  pose proof (parse_emitted job rel seg w Hi Hws He) as Hparse.
  destruct (emitted_shape _ _ _ _ He) as (c & rest & ext & -> & Hsl & Hext & Hrest & Hmaster & Hpart & Hw).
  specialize (Hpart Hi). set (f := segment_prefix c (cj_id job) ++ rest ++ "." ++ ext) in *.
  assert (contains_char "/"%char f = false) as Hf.
  { unfold f. by rewrite contains_char_app, (prefix_slash c _ Hi), Hsl. }
  assert (is_empty f = false) as Hne.
  { unfold f. rewrite segment_prefix_tail. pose proof (id_not_empty _ Hi). by destruct (cj_id job). }
  assert (contains_char "/"%char (cj_id job) = false) as His by apply Hi.
  split; [|split; [|split]].
  - exact Hparse.
  - destruct w as [w|]; cbn [with_width]; [apply split_bucket_numeric, dec_digits|by apply split_bucket_file].
  - unfold f. rewrite segment_prefix_tail, <-sapp_assoc. destruct w as [w|]; cbn [with_width].
    + rewrite !sapp_assoc, <-(sapp_assoc _ "." ext), <-(sapp_assoc _ rest), <-(sapp_assoc _ (playlist_suffix c)).
      apply extract_emitted; [| | |done|done].
      * rewrite !contains_char_app, (id_dot _ Hi), dec_contains by done. done.
      * rewrite !contains_char_app, (id_dash _ Hi), dec_contains by done. done.
      * right. exists (dec w). rewrite <-sapp_assoc. change ("/" ++ cj_id job) with (String "/" (cj_id job)).
        apply split_once_app. by apply dec_contains.
    + apply extract_emitted; try done; [apply Hi|apply Hi|]. left. split; [|done]. by apply split_once_none.
  - intros b Hb. split.
    + apply split_bucket_prefixed; [done|]. destruct w as [w|]; cbn [with_width]; [|done].
      destruct (dec_not_empty w) as (x & t & ->). done.
    + assert (contains_char "/"%char b = false) as Hbs.
      { revert Hb. unfold validate_bucket_for_write. destruct (is_empty b), (contains_char "/"%char b); done. }
      destruct w as [w|]; cbn [with_width].
      * erewrite parse_video_filename_parts by (apply path_parts_dirs; [done|by apply dec_contains|done]).
        destruct Hw as (s & Hs & <-). rewrite Hpart, parse_dec by (lia || by apply Hws). done.
      * erewrite parse_video_filename_parts by (by apply path_parts_dir). apply Hpart.
Qed.

(** Scales wider than 16 bits are accepted by the converter, but the
    middleware does not read their width: a request for their files carries no
    width, and the token's width restriction does not apply to it. *)
Theorem wide_scales_escape_the_width_check w i c num n :
  65536 <= w < 2 ^ 64 -> id_ok i -> forall_char is_ascii_digit num = true -> parse_uint 32 num = Some n ->
  parse_video_filename (dec w ++ "/" ++ segment_prefix c i ++ "-" ++ num ++ ".m4s") = Some (i, Some n, None).
Proof.
  intros Hw Hi Hd Hn. assert (parse_uint 16 (dec w) = None) as Hp.
  { assert (parse_uint 64 (dec w) = Some w) as H64 by (apply parse_dec; [lia|unfold fits; lia]).
    assert (forall v s, parse_digits 64 s = Some v -> 65536 <= v -> parse_digits 16 s = None) as Hx.
    { intros v s. unfold parse_digits. destruct (is_empty s); [done|]. destruct (digits_value 0 s) as [u|]; [|done].
      destruct (u <? 2 ^ 64)%Z eqn:E; [|done]. intros [= ->] Hge. change (2 ^ 16) with 65536.
      by rewrite (proj2 (Z.ltb_ge v 65536) Hge). }
    revert H64. unfold parse_uint. destruct (dec w) as [|ch s]; [done|].
    destruct ch as [[][][][][][][][]]; intros H64; eapply Hx; (exact H64 || lia). }
  assert (contains_char "/"%char (segment_prefix c i ++ "-" ++ num ++ ".m4s") = false) as Hs
    by (by rewrite !contains_char_app, (prefix_slash c i Hi), (digits_contain_no _ num)).
  pose proof (path_parts_dir (dec w) _ (dec_contains "/"%char w eq_refl) Hs) as Hpp. rewrite Hp in Hpp.
  rewrite (parse_video_filename_parts _ _ _ Hpp). by apply parse_segment_part.
Qed.

(** A migration copies a video's files and no other video's: of the objects
    that conversions emit, the ones under the prefixes of a migration are those
    of the job with the migration's id, in the root and in the widths listed. *)
Theorem migration_selects_the_video job g rel seg w :
  is_valid_job_id (cj_id job) = true -> is_valid_job_id (mj_id g) = true ->
  Forall (fits 32) (mj_widths g) -> (forall x, w = Some x -> fits 32 x) ->
  emitted job rel seg w ->
  (exists p, p ∈ object_prefixes g /\ selects p ("videos/" ++ rel) = true) <->
  cj_id job = mj_id g /\ (w = None \/ exists x, w = Some x /\ x ∈ mj_widths g).
Proof.
  intros Hj%valid_id_ok Hg%valid_id_ok Hws Hw He. split.
  - intros (p & Hp & Hs). apply object_prefixes_elem in Hp as (w' & -> & Hw').
    apply (selects_emitted job rel seg w (mj_id g) w' He Hj Hg) in Hs as [Hid Hww]. split; [done|].
    apply with_width_inj in Hww; [|done]. destruct Hw' as [->|(x & -> & Hx)].
    + left. by destruct w.
    + right. destruct w as [y|]; [|done]. change (Some (dec y) = Some (dec x)) in Hww. apply (inj Some) in Hww as Hd. exists y. split; [done|].
      rewrite Forall_forall in Hws. specialize (Hws x Hx). specialize (Hw y eq_refl).
      pose proof (parse_dec 32 x ltac:(lia) Hws) as H1. pose proof (parse_dec 32 y ltac:(lia) Hw) as H2.
      assert (x = y) as <- by congruence. done.
  - intros [Hid Hww]. exists ("videos/" ++ with_width w (mj_id g)). split.
    + apply object_prefixes_elem. by exists w.
    + by apply (selects_emitted job rel seg w (mj_id g) w He Hj Hg).
Qed.

(** ** Uploads *)

Section Uploads.
  Context `{OpenDal}.
  Context `{Sc : Serde ConvertJob, Su : Serde UploadJob, Sm : Serde MigrateJob}.

Lemma existsb_id (i : string) js : existsb (fun existing => (id existing =? i)%string) js = true <-> i ∈ ids js.
Proof.
  unfold ids. rewrite existsb_exists, list_elem_of_fmap. split.
  - intros (j & Hj & E). apply String.eqb_eq in E as <-. exists j. split; [done|]. by apply list_elem_of_In.
  - intros (j & -> & Hj). exists j. split; [by apply list_elem_of_In|apply String.eqb_refl].
Qed.

(** [accept]: the job gets a counter, is pending, and is in the channel. *)
Lemma accept_spec j (w : world) :
  exists w', accept j w = Ret w' /\
    channel w' = (channel w ++ [with_counter (next_counter w) j])%list /\
    in_flight w' = in_flight w /\ tasks w' = tasks w /\
    jobs (manager w') = (retain (fun k => negb (id k =? id j)%string) (jobs (manager w)) ++ [with_counter (next_counter w) j])%list.
Proof.
  unfold accept, submit. red_bind. unfold send. cbn [in_flight]. rewrite length_app. cbn [length].
  rewrite Nat.add_sub, lookup_app_r, Nat.sub_diag by lia. cbn [lookup list_lookup].
  eexists. split; [reflexivity|]. cbn [channel in_flight tasks manager set_channel set_in_flight jobs add save].
  rewrite id_with_counter. split_and!; [done| |done|done].
  change (list_delete (length (in_flight w))) with (delete (M := list RawJob) (length (in_flight w))).
  rewrite delete_take_drop, take_app_length, drop_ge by (rewrite length_app; cbn; lia). by rewrite app_nil_r.
Qed.

Definition acceptable (cfg : AppConfig) (job : ConvertJob) (m : StorageManager) (w : world) : Prop :=
  (is_s3 m = true -> exists b, cj_dst_bucket job = Some b /\ validate_bucket_for_write b = Ok tt) /\
  cj_crf job <= 63 /\ is_valid_job_id (cj_id job) = true /\ cj_id job ∉ pending w.

Lemma upload_checks_None cfg job m w : upload_checks job m w = None <-> acceptable cfg job m w.
Proof.
  unfold upload_checks, acceptable, pending. cbv zeta.
  set (s3_check := if is_s3 m then _ else _).
  assert (s3_check = None <-> (is_s3 m = true -> exists b, cj_dst_bucket job = Some b /\ validate_bucket_for_write b = Ok tt)) as Hs3.
  { subst s3_check. destruct (is_s3 m); [|done]. destruct (cj_dst_bucket job) as [[|ch b]|].
    - split; [done|]. intros Hx. destruct (Hx eq_refl) as (b & [= <-] & Hb). by cbn in Hb.
    - destruct (validate_bucket_for_write (String ch b)) as [[]|e] eqn:Ev.
      + split; [intros _ _; by eauto|done].
      + split; [done|]. intros Hx. destruct (Hx eq_refl) as (c & [= <-] & Hb). congruence.
    - split; [done|]. intros Hx. by destruct (Hx eq_refl) as (b & [=] & _). }
  rewrite <-Hs3. destruct s3_check as [r|]; [split; [intros [=]|intros [[=] _]]|].
  destruct (Z.ltb_spec 63 (cj_crf job)); [split; [intros [=]|intros (_ & ? & _); lia]|].
  destruct (is_valid_job_id (cj_id job)) eqn:Ei; cbn [negb]; [|split; [intros [=]|intros (_ & _ & [=] & _)]].
  destruct (existsb _ _) eqn:Ee.
  - apply existsb_id in Ee. split; [intros [=]|by intros (_ & _ & _ & ?)].
  - rewrite <-not_true_iff_false, existsb_id in Ee. split; [|done]. intros _. by split_and!.
Qed.

Lemma upload_checks_status job m w r : upload_checks job m w = Some r -> fst r = BAD_REQUEST.
Proof. unfold upload_checks. cbv zeta. repeat case_match; intros Hr; simplify_eq; done. Qed.

(** An upload is accepted (202) exactly when the query parses, the S3
    destination, [crf] and the id are valid, no job with the id is pending and the
    body could be stored.  Then the body is in the upload directory and the job is
    pending and in the channel, with a retry counter of its own; a refused request
    leaves the jobs alone. *)
Theorem upload_accepted_iff cfg query create flush body m disk w :
  exists disk' w' r, upload_mp4_raw cfg query create flush body m disk w = Ret (disk', w', r) /\
    (fst r = ACCEPTED <->
       exists job data, query = Ok job /\ acceptable cfg job m w /\ create = true /\ flush = true /\ write_body body = Some data) /\
    (fst r <> ACCEPTED -> w' = w) /\
    (forall job data, query = Ok job -> write_body body = Some data -> fst r = ACCEPTED ->
       disk' !! upload_path (uploads_dir cfg) job = Some data /\
       channel w' = (channel w ++ [with_counter (next_counter w) (RawConvert job)])%list /\
       cj_id job ∈ pending w').
Proof.
  unfold upload_mp4_raw. destruct query as [job|e].
  2: { eexists _, _, _. split; [reflexivity|]. split_and!; [|done|done]. split; [done|]. by intros (? & ? & [=] & _). }
  destruct (upload_checks job m w) as [r|] eqn:Ec.
  { pose proof (upload_checks_status _ _ _ _ Ec) as Hr. eexists _, _, _. split; [reflexivity|].
    rewrite Hr. split_and!; [|done|done]. split; [done|]. intros (j & d & [= <-] & Hacc & _).
    apply upload_checks_None in Hacc. congruence. }
  apply (upload_checks_None cfg) in Ec.
  destruct create; cbn [negb].
  2: { eexists _, _, _. split; [reflexivity|]. split_and!; [|done|done]. split; [done|]. by intros (? & ? & _ & _ & [=] & _). }
  destruct (write_body body) as [data|] eqn:Eb.
  2: { eexists _, _, _. split; [reflexivity|]. split_and!; [|done|done]. split; [done|]. by intros (? & ? & _ & _ & _ & _ & [=]). }
  destruct flush; cbn [negb].
  2: { eexists _, _, _. split; [reflexivity|]. split_and!; [|done|done]. split; [done|]. by intros (? & ? & _ & _ & _ & [=] & _). }
  destruct (accept_spec (RawConvert job) w) as (w' & Hw & Hc & Hf & Ht & Hj). rewrite Hw. red_bind.
  eexists _, _, _. split; [reflexivity|]. cbn [fst job_response]. split_and!; [split; [intros _; exists job, data; by split_and!|done]|done|].
  intros j d [= <-] [= <-] _. split_and!; [apply lookup_insert_eq|done|].
  unfold pending, ids. rewrite Hj, fmap_app, elem_of_app. right. by apply list_elem_of_singleton.
Qed.

(** An error of the request's body stream (a client that goes away) is taken
    for its end: the upload of the truncated body is accepted like a complete
    one, whatever the rest of the body would have been. *)
Theorem truncated_upload_is_accepted cfg query create flush body rest m disk w :
  upload_mp4_raw cfg query create flush (body ++ BodyError :: rest)%list m disk w =
  upload_mp4_raw cfg query create flush body m disk w.
Proof.
  assert (write_body (body ++ BodyError :: rest)%list = write_body body) as Hb.
  { induction body as [|[d [|]|] body IH]; cbn [write_body app]; [done|by rewrite IH|done|done]. }
  unfold upload_mp4_raw. by rewrite Hb.
Qed.

End Uploads.

(** ** Examples *)

Lemma emitted_names_parse_back_witness :
  parse_video_filename ("bucket/" ++ example_segment) = Some ("video1", Some 7, Some 720).
Proof.
  destruct (emitted_names_parse_back example_job example_segment (Some 7) (Some 720) eq_refl example_widths example_emitted)
    as (_ & _ & _ & H). exact (proj2 (H "bucket" eq_refl)).
Defined.

Lemma wide_scales_escape_the_width_check_witness :
  parse_video_filename "65536/video1-h264-007.m4s" = Some ("video1", Some 7, None).
Proof. apply (wide_scales_escape_the_width_check 65536 "video1" H264 "007" 7); [lia|by apply valid_id_ok|done|done]. Defined.

Definition example_migration : MigrateJob := MigrateJob_new "video1" "from" "to" [720; 480] 0.

Lemma migration_selects_the_video_witness :
  exists p, p ∈ object_prefixes example_migration /\ selects p ("videos/" ++ example_segment) = true.
Proof.
  apply (migration_selects_the_video example_job example_migration example_segment (Some 7) (Some 720) eq_refl eq_refl).
  - by repeat constructor.
  - by intros x [= <-].
  - exact example_emitted.
  - split; [done|]. right. exists 720. split; [done|]. by left.
Defined.
