(* ===== verification/FilesSpec.v ===== *)
(** * What is promised about files: ranges, paths, keys, uploads of directories, playlists. *)

From stdpp Require Import base list option strings gmap.
From Stdlib Require Import ZArith Lia Ascii.
From S2P Require Import Prelude RustInt RustStr Middleware Storage Convert Jobs Handler Routes Names.

Local Open Scope Z_scope.
Local Open Scope string_scope.

(** ** Ranges *)

(** The header of a request for the bytes from [a], to [b] if given. *)
Definition range_header (r : option (Z * option Z)) : option string :=
  match r with
  | None => None
  | Some (a, None) => Some ("bytes=" ++ dec a ++ "-")
  | Some (a, Some b) => Some ("bytes=" ++ dec a ++ "-" ++ dec b)
  end.

(** First and last byte of the answer for a file of [size > 0] bytes. *)
Definition first_byte (r : option (Z * option Z)) : Z := match r with None => 0 | Some (a, _) => a end.
Definition last_byte (r : option (Z * option Z)) (size : Z) : Z :=
  match r with Some (_, Some b) => Z.min b (size - 1) | _ => size - 1 end.

Definition range_fits (r : option (Z * option Z)) : Prop :=
  match r with None => True | Some (a, b) => fits 64 a /\ forall b', b = Some b' -> fits 64 b' end.

Definition range_status (r : option (Z * option Z)) : Z := match r with None => OK | Some _ => PARTIAL_CONTENT end.

Lemma strip_prefix_app p s : strip_prefix p (p ++ s) = Some s.
Proof. by apply strip_prefix_Some. Qed.

Lemma parse_range_header `{Profile} r size last :
  range_fits r -> usub 64 size 1 = Ret last ->
  parse_range (range_header r) size = Ret (range_status r, first_byte r, match r with Some (_, Some b) => Z.min b last | _ => last end).
Proof.
  intros Hr Hl. destruct r as [[a [b|]]|]; cbn [range_header range_fits range_status first_byte] in *.
  - destruct Hr as [Ha Hb]. unfold parse_range. rewrite strip_prefix_app.
    change (dec a ++ "-" ++ dec b) with (dec a ++ String "-" (dec b)).
    rewrite split_app, split_none by (by apply dec_contains). rewrite (parse_dec 64 a) by (lia || done).
    cbn [head mbind option_bind]. rewrite (parse_dec 64 b) by (lia || by apply Hb). rewrite Hl. red_bind.
    cbn [default]. reflexivity.
  - destruct Hr as [Ha _]. unfold parse_range. rewrite strip_prefix_app.
    change (dec a ++ "-") with (dec a ++ String "-" ""). rewrite split_app by (by apply dec_contains).
    rewrite (parse_dec 64 a) by (lia || done). cbn [split head mbind option_bind]. rewrite Hl. red_bind.
    change (default last (parse_uint 64 "")) with last. by rewrite Z.min_id.
  - unfold parse_range. rewrite Hl. reflexivity.
Qed.

Lemma range_len_underflow `{Profile} start end_ :
  0 <= end_ -> end_ + 1 < start < 2 ^ 63 ->
  range_len start end_ = if overflow_checks then Panic else Ret (2 ^ 64 + end_ - start + 1).
Proof.
  intros He Hs. unfold range_len, usub, arith.
  assert (fitsb 64 (end_ - start) = false) as ->.
  { destruct (fitsb 64 (end_ - start)) eqn:E; [|done]. apply fitsb_spec in E. unfold fits in E. lia. }
  destruct overflow_checks; [done|]. red_bind.
  assert (wrap 64 (end_ - start) = 2 ^ 64 + (end_ - start)) as ->.
  { unfold wrap. symmetry. apply (Z.mod_unique_pos _ _ (-1)); lia. }
  unfold uadd. rewrite arith_fits by (unfold fits; lia). f_equal. lia.
Qed.

Section Files.
  Context `{OpenDal}.
  Variable cfg : AppConfig.
  Variable local_file : string -> option (list Z).
  Variable s3_stat : Operator -> string -> option Z.
  Variable s3_read : Operator -> string -> Z -> Z -> option (list Z).
  Variable reader_chunks : list Z -> list (list Z).
  Variable s3_chunk : nat.

  (** [ReaderStream] delivers the bytes of the file in order. *)
  Hypothesis reader_chunks_concat : forall data, concat (reader_chunks data) = data.

Definition body_bytes (body : list (Z * list Z)) : list Z := concat (snd <$> body).
Definition charged (body : list (Z * list Z)) : Z := foldr Z.add 0 (fst <$> body).

Lemma throttled_bytes chunks : body_bytes (throttled chunks) = concat chunks.
Proof. unfold body_bytes, throttled. rewrite <-list_fmap_compose. f_equal. by apply list_fmap_id. Qed.

Lemma throttled_charged chunks : charged (throttled chunks) = Z.of_nat (length (concat chunks)).
Proof.
  unfold charged, throttled. induction chunks as [|c l IH]; [done|].
  rewrite !fmap_cons. cbn [foldr concat fst]. rewrite IH, length_app. lia.
Qed.

(** C14. A satisfiable request gets exactly what it asks for: for a non-empty
    file, whole or a range whose first byte exists and is not behind its last,
    the answer is 200 or 206, the body is the requested bytes (a range that goes
    beyond the end is cut), [Content-Length] is their number, [Content-Range] names
    them, and the claim's bucket is charged for every byte. *)
Theorem ranges_are_exact `{Profile} path key filename r op data :
  local_file path = Some data -> 0 < Z.of_nat (length data) < 2 ^ 63 -> range_fits r ->
  first_byte r <= last_byte r (Z.of_nat (length data)) ->
  let size := Z.of_nat (length data) in
  let len := last_byte r size - first_byte r + 1 in
  exists body,
    server_file_with_bucket local_file s3_stat s3_read reader_chunks s3_chunk path key filename (range_header r) op =
    Ret (File {| fr_status := range_status r; fr_content_type := hls_content_type filename; fr_content_length := dec len;
                 fr_content_range := match r with
                   | None => None
                   | Some _ => Some ("bytes " ++ dec (first_byte r) ++ "-" ++ dec (last_byte r size) ++ "/" ++ dec size)
                   end;
                 fr_body := body |}) /\
    body_bytes body = take (Z.to_nat len) (drop (Z.to_nat (first_byte r)) data) /\
    Z.of_nat (length (body_bytes body)) = len /\ charged body = len.
Proof.
  intros Hf Hsz Hr Hle size len.
  assert (usub 64 size 1 = Ret (size - 1)) as Hl by (apply arith_fits; unfold fits; lia).
  assert (0 <= first_byte r) as Hpos.
  { destruct r as [[a b]|]; cbn in *; [|lia]. destruct Hr as [[? ?] _]. lia. }
  assert (last_byte r size <= size - 1) as Hlast by (destruct r as [[a [b|]]|]; cbn; lia).
  assert (match r with Some (_, Some b) => Z.min b (size - 1) | _ => size - 1 end = last_byte r size) as Hlb
    by (by destruct r as [[a [b|]]|]).
  assert (range_len (first_byte r) (last_byte r size) = Ret len) as Hlen.
  { unfold range_len. unfold usub. rewrite arith_fits by (unfold fits; fold size in Hle; lia). red_bind.
    apply arith_fits. unfold fits, len. fold size in Hle. lia. }
  unfold server_file_with_bucket. rewrite Hf. fold size.
  rewrite (parse_range_header r size (size - 1) Hr Hl), Hlb. red_bind. rewrite Hlen. red_bind.
  unfold try_serve_from_filesystem. rewrite Hf, Hlen. red_bind.
  eexists. split; [|split; [|split]].
  - do 2 f_equal. destruct r as [[a b]|]; reflexivity.
  - by rewrite throttled_bytes, reader_chunks_concat.
  - rewrite throttled_bytes, reader_chunks_concat, length_take, length_drop. fold size in Hle. unfold len, size in *. lia.
  - rewrite throttled_charged, reader_chunks_concat, length_take, length_drop. fold size in Hle. unfold len, size in *. lia.
Qed.

(** A range that starts behind the end of the file is not refused: a build
    with overflow checks panics, and one without answers 206 with an empty body
    and a [Content-Length] of almost [2^64]. *)
Theorem unsatisfiable_range_underflows `{Profile} path key filename a op data :
  local_file path = Some data -> 0 < Z.of_nat (length data) < a -> a < 2 ^ 63 ->
  let r := server_file_with_bucket local_file s3_stat s3_read reader_chunks s3_chunk path key filename
             (range_header (Some (a, None))) op in
  if overflow_checks then r = Panic
  else exists f, r = Ret (File f) /\ fr_status f = PARTIAL_CONTENT /\
         fr_content_length f = dec (2 ^ 64 + Z.of_nat (length data) - a) /\ body_bytes (fr_body f) = [].
Proof.
  intros Hf Hsz Ha r. subst r. set (size := Z.of_nat (length data)) in *.
  assert (usub 64 size 1 = Ret (size - 1)) as Hl by (apply arith_fits; unfold fits; lia).
  unfold server_file_with_bucket. rewrite Hf. fold size.
  rewrite (parse_range_header (Some (a, None)) size (size - 1)); [|split; [unfold fits; lia|done]|done].
  cbn [range_status first_byte]. red_bind. unfold try_serve_from_filesystem. rewrite Hf.
  rewrite range_len_underflow by lia. destruct overflow_checks; [done|]. red_bind.
  eexists. split; [reflexivity|]. split; [done|]. cbn [fr_content_length fr_body]. split; [f_equal; lia|].
  rewrite throttled_bytes, reader_chunks_concat. rewrite drop_ge by lia. by rewrite take_nil.
Qed.

End Files.

(** ** Paths *)

Lemma path_join_rel base p :
  starts_with "/" p = false -> exists sep, path_join base p = base ++ sep ++ p /\ (sep = "" \/ sep = "/").
Proof.
  intros Hp. unfold path_join.
  assert (forall X, match p with String "/" _ => p | _ => X end = X) as Hm.
  { intros X. destruct p as [|c p]; [done|]. destruct c as [[][][][][][][][]]; try done. }
  rewrite Hm. destruct (is_empty base || ends_with "/" base); [by exists ""; eauto|by exists "/"; eauto].
Qed.

Lemma path_join_abs base p : starts_with "/" p = true -> path_join base p = p.
Proof. intros [t ->]%starts_with_spec. done. Qed.

Lemma contains_char_split c s : contains_char c s = true -> exists a b, s = a ++ String c b /\ contains_char c a = false.
Proof.
  intros H. destruct (split_once c s) as [[a b]|] eqn:E.
  - apply split_once_Some in E as [-> Ha]. by eauto.
  - apply split_once_none in E. congruence.
Qed.

Lemma split_not_nil c s : split c s <> [].
Proof. destruct s as [|d s]; cbn [split]; [done|]. destruct (Ascii.eqb c d); [done|]. by destruct (split c s). Qed.

(** What the handler's check of a key amounts to. *)
Lemma extract_ok key i :
  extract_job_id_from_key key = Ok i ->
  exists path ext, key = path ++ String "." ext /\ contains_char "."%char path = false /\ contains_char "."%char ext = false /\
    contains_char "."%char i = false /\ contains_char "-"%char i = false /\
    exists v0 rest, split "-"%char path = v0 :: rest /\
      (split_once "/"%char v0 = None /\ i = v0 \/ exists h, split_once "/"%char v0 = Some (h, i)).
Proof.
  unfold extract_job_id_from_key. intros H.
  destruct (split "."%char key) as [|path [|ext [|]]] eqn:Es; try done.
  assert (contains_char "."%char key = true) as Hc.
  { destruct (contains_char "."%char key) eqn:E; [done|]. by rewrite split_none in Es. }
  apply contains_char_split in Hc as (a & b & -> & Ha). rewrite split_app in Es by done. injection Es as -> Eb.
  assert (contains_char "."%char b = false) as Hb.
  { destruct (contains_char "."%char b) eqn:E; [|done]. apply contains_char_split in E as (u & v & -> & Hu).
    rewrite split_app in Eb by done. injection Eb as _ Eb. by apply split_not_nil in Eb. }
  rewrite split_none in Eb by done. injection Eb as ->.
  destruct (split "-"%char path) as [|v0 rest] eqn:Ev; [done|].
  destruct ((1 <=? length (v0 :: rest))%nat && (length (v0 :: rest) <=? 3)%nat); [|done]. injection H as Hi.
  assert (contains_char "-"%char v0 = false /\ exists u, path = v0 ++ u) as [Hd [u Hu]].
  { destruct (contains_char "-"%char path) eqn:E.
    - apply contains_char_split in E as (u & v & -> & Hu). rewrite split_app in Ev by done. injection Ev as <- _. by eauto.
    - rewrite split_none in Ev by done. injection Ev as <- _. split; [done|]. exists "". by rewrite sapp_nil_r. }
  assert (contains_char "."%char v0 = false) as Hv.
  { rewrite Hu, contains_char_app in Ha. by apply orb_false_iff in Ha as [? _]. }
  exists path, ext. do 3 (split; [done|]). destruct (split_once "/"%char v0) as [[h j]|] eqn:E; subst i.
  - apply split_once_Some in E as E'. destruct E' as [-> _]. rewrite contains_char_app in Hv, Hd.
    apply orb_false_iff in Hv as [_ Hv], Hd as [_ Hd]. cbn in Hv, Hd. split; [done|]. split; [done|].
    exists (h ++ String "/" j), rest. split; [done|]. right. by exists h.
  - split; [done|]. split; [done|]. exists v0, rest. split; [done|]. by left.
Qed.

(** The names in a path: what stands between its separators. *)
Definition path_names (s : string) : list string := filter (fun x => is_empty x = false) (split "/"%char s).

Lemma split_cut c a b : split c (a ++ String c b) = (split c a ++ split c b)%list.
Proof.
  induction a as [|d a IH]; cbn; [by rewrite Ascii.eqb_refl|].
  destruct (Ascii.eqb c d); [by rewrite IH|]. rewrite IH. pose proof (split_not_nil c a). by destruct (split c a).
Qed.

Lemma path_names_cut a b : path_names (a ++ "/" ++ b) = (path_names a ++ path_names b)%list.
Proof. unfold path_names. change ("/" ++ b) with (String "/" b). by rewrite split_cut, filter_app. Qed.

(** Joining a relative path puts its names behind those of the base. *)
Lemma path_names_join base p :
  starts_with "/" p = false -> path_names (path_join base p) = (path_names base ++ path_names p)%list.
Proof.
  intros Hp. unfold path_join.
  assert (forall X, match p with String "/" _ => p | _ => X end = X) as Hm.
  { intros X. destruct p as [|c p]; [done|]. destruct c as [[][][][][][][][]]; try done. }
  rewrite Hm. destruct (is_empty base) eqn:Eb; cbn [orb]; [destruct base; [reflexivity|discriminate Eb]|].
  destruct (ends_with "/" base) eqn:Ee; [|apply path_names_cut].
  unfold ends_with in Ee. destruct (strip_suffix "/" base) as [u|] eqn:Es; [|done].
  apply strip_suffix_Some in Es as ->. rewrite <-sapp_assoc, path_names_cut.
  change (u ++ "/") with (u ++ "/" ++ ""). by rewrite path_names_cut, app_nil_r.
Qed.

(** How often a character occurs, in a string and in its parts. *)
Fixpoint chars (d : ascii) (s : string) : nat :=
  match s with "" => 0%nat | String c s => if Ascii.eqb d c then S (chars d s) else chars d s end.

Lemma chars_app d a b : chars d (a ++ b) = (chars d a + chars d b)%nat.
Proof. induction a as [|c a IH]; cbn; [done|]. rewrite IH. destruct (Ascii.eqb d c); lia. Qed.

Lemma chars_none d a : contains_char d a = false -> chars d a = 0%nat.
Proof. induction a as [|c a IH]; cbn; [done|]. destruct (Ascii.eqb d c); [done|]. auto. Qed.

Lemma chars_split d c s x : x ∈ split c s -> (chars d x <= chars d s)%nat.
Proof.
  revert x. induction s as [|e s IH]; intros x; cbn.
  { intros ->%list_elem_of_singleton. done. }
  destruct (Ascii.eqb c e).
  - intros [->|Hx]%elem_of_cons; [cbn; lia|]. specialize (IH x Hx). destruct (Ascii.eqb d e); lia.
  - pose proof (split_not_nil c s). destruct (split c s) as [|w ws]; [done|].
    intros [->|Hx]%elem_of_cons.
    + specialize (IH w ltac:(constructor)). cbn. destruct (Ascii.eqb d e); lia.
    + specialize (IH x ltac:(by apply list_elem_of_further)). destruct (Ascii.eqb d e); lia.
Qed.

Lemma no_parent_name s : (chars "."%char s < 2)%nat -> ".." ∉ path_names s.
Proof. intros Hd [_ Hx]%list_elem_of_filter. apply (chars_split "."%char) in Hx. change (chars "."%char "..") with 2%nat in Hx. lia. Qed.

(** C15. Where the handler looks for a file: as long as neither the key nor the
    job id in it begins with a separator, the path begins with the videos
    directory, its names are those of this directory, followed by those of
    the job id and those of the key, and none of the latter is the parent: the
    path is the key's file in the job's directory below the videos directory,
    and nothing outside can be named. *)
Theorem served_paths_stay_inside cfg key i :
  extract_job_id_from_key key = Ok i -> starts_with "/" key = false -> starts_with "/" i = false ->
  (path_names (local_path cfg i key) = path_names (videos_dir cfg) ++ path_names i ++ path_names key)%list /\
  (exists rest, local_path cfg i key = videos_dir cfg ++ rest) /\
  (".." ∉ path_names i) /\ (".." ∉ path_names key).
Proof.
  intros He Hk Hi. apply extract_ok in He as (p & e & -> & Hp & He & Hid & _). unfold local_path. split; [|split; [|split]].
  - by rewrite !path_names_join, app_assoc.
  - destruct (path_join_rel (videos_dir cfg) i Hi) as (s1 & -> & _).
    destruct (path_join_rel (videos_dir cfg ++ s1 ++ i) _ Hk) as (s2 & -> & _).
    rewrite <-!sapp_assoc. eexists. reflexivity.
  - apply no_parent_name. rewrite chars_none by done. lia.
  - apply no_parent_name. rewrite chars_app. change (chars "."%char (String "." e)) with (S (chars "."%char e)).
    rewrite !chars_none by done. lia.
Qed.

(** A key that begins with a separator replaces the videos directory
    ([Path::join]): for a path [/dir/name.ext] with [dir] and [name] free of dots
    and dashes and [dir] free of separators, the check of the bucket (an empty
    first segment counts as numeric) and of the file name pass, and the file
    handler of a server without S3 serves the absolute path itself. *)
Theorem absolute_keys_escape `{Profile, OpenDal} cfg local_file s3_stat s3_read reader_chunks s3_chunk m dir name ext data :
  is_s3 m = false -> plain dir = true -> plain name = true -> contains_char "."%char ext = false ->
  let path := "/" ++ dir ++ "/" ++ name ++ "." ++ ext in
  local_file path = Some data -> 0 < Z.of_nat (length data) < 2 ^ 63 ->
  exists f, serve_video cfg local_file s3_stat s3_read reader_chunks s3_chunk path None m = Ret (m, File f) /\
    fr_body f = throttled (reader_chunks data).
Proof.
  intros Hm Hd Hn He path Hf Hl. subst path. set (path := "/" ++ dir ++ "/" ++ name ++ "." ++ ext) in *.
  assert (forall s, plain s = true -> contains_char "/"%char s = false /\ contains_char "."%char s = false /\ contains_char "-"%char s = false) as Hplain.
  { unfold plain, special. induction s as [|c s IH]; [done|]. cbn [forall_char contains_char].
    destruct (Ascii.eqb "/" c), (Ascii.eqb "." c), (Ascii.eqb "-" c); try done. }
  destruct (Hplain dir Hd) as (Hd1 & Hd2 & Hd3). destruct (Hplain name Hn) as (Hn1 & Hn2 & Hn3).
  assert (split_bucket_and_key path = Ok (None, path)) as Hsplit by done.
  assert (extract_job_id_from_key path = Ok (dir ++ "/" ++ name)) as Hex.
  { replace path with ((("/" ++ dir) ++ "/" ++ name) ++ String "." ext) by (unfold path; by rewrite <-!sapp_assoc).
    unfold extract_job_id_from_key. rewrite split_app, split_none;
      [|done|by rewrite !contains_char_app, Hd2, Hn2]. cbn iota.
    rewrite split_none by (by rewrite !contains_char_app, Hd3, Hn3). done. }
  assert (local_path cfg (dir ++ "/" ++ name) path = path) as Hpath by (by apply path_join_abs).
  set (size := Z.of_nat (length data)) in *.
  assert (usub 64 size 1 = Ret (size - 1)) as Hs by (apply arith_fits; unfold fits; lia).
  assert (range_len 0 (size - 1) = Ret size) as Hrl.
  { unfold range_len, usub. rewrite arith_fits by (unfold fits; lia). red_bind. unfold uadd.
    rewrite arith_fits by (unfold fits; lia). f_equal. lia. }
  unfold serve_video. rewrite Hsplit, Hm. rewrite Hex, Hpath.
  unfold server_file_with_bucket. rewrite Hf. fold size. unfold parse_range. rewrite Hs. red_bind. rewrite Hrl. red_bind.
  unfold try_serve_from_filesystem. rewrite Hf, Hrl. red_bind. cbn iota.
  eexists. split; [reflexivity|]. cbn [fr_body]. change (drop (Z.to_nat 0) data) with data.
  by rewrite take_ge by (unfold size; lia).
Qed.

(** ** Object keys *)

Lemma path_join_seg base p q :
  starts_with "/" p = false -> is_empty p = false -> ends_with "/" p = false -> starts_with "/" q = false ->
  path_join (path_join base p) q = path_join base (p ++ "/" ++ q).
Proof.
  intros Hp Hne He Hq.
  assert (forall x r, starts_with "/" r = false -> path_join x r = if is_empty x || ends_with "/" x then x ++ r else x ++ "/" ++ r) as Hj.
  { intros x r Hr. unfold path_join. destruct r as [|ch r]; [done|]. by destruct ch as [[][][][][][][][]]. }
  assert (starts_with "/" (p ++ "/" ++ q) = false) as Hpq.
  { destruct p as [|ch p]; [done|]. destruct ch as [[][][][][][][][]]; done. }
  rewrite (Hj (path_join base p) q Hq), (Hj base p Hp), (Hj base _ Hpq).
  assert (forall x, is_empty (x ++ p) = false /\ ends_with "/" (x ++ p) = false) as Hx.
  { intros x. split; [destruct x, p; done|]. rewrite ends_with_long; [done|]. destruct p; [done|cbn; lia]. }
  destruct (is_empty base || ends_with "/" base).
  - destruct (Hx base) as [-> ->]. cbn [orb]. by rewrite <-!sapp_assoc.
  - destruct (Hx (base ++ "/")) as [Hx1 Hx2]. rewrite <-!sapp_assoc in Hx1, Hx2. rewrite Hx1, Hx2. cbn [orb]. by rewrite <-!sapp_assoc.
Qed.

Lemma starts_with_not_contains c s : contains_char c s = false -> starts_with (String c "") s = false.
Proof. destruct s as [|d s]; [done|]. cbn [contains_char]. unfold starts_with. cbn [strip_prefix]. by destruct (Ascii.eqb c d). Qed.

Lemma replace_char_none c d s : contains_char c s = false -> replace_char c d s = s.
Proof. induction s as [|x s IH]; cbn [contains_char replace_char]; [done|]. destruct (Ascii.eqb c x); [done|]. intros Hs. by rewrite IH. Qed.

Lemma emitted_contains job rel seg w ch :
  emitted job rel seg w -> is_ascii_digit ch = false -> contains_char ch (cj_id job) = false ->
  contains_char ch ("-/.init.mp4.m3u8.m4s-h264-h265") = false -> contains_char ch rel = false.
Proof.
  intros He Hd Hi Hc.
  assert (forall c, contains_char ch (segment_prefix c (cj_id job)) = false) as Hp.
  { intros c. apply prefix_contains; [|done]. revert Hc. destruct c; cbn -[Ascii.eqb]; repeat case_match; done. }
  assert (contains_char ch "/" = false /\ contains_char ch ".m3u8" = false /\ contains_char ch "-init.mp4" = false /\
          contains_char ch "-" = false /\ contains_char ch ".m4s" = false) as (H1 & H2 & H3 & H4 & H5).
  { revert Hc. cbn -[Ascii.eqb]. repeat case_match; done. }
  destruct He as [|s c Hs Hcd|s c Hs Hcd|s c num n Hs Hcd Hn _].
  - by rewrite contains_char_app, Hi, H2.
  - by rewrite playlist_filename_prefix, !contains_char_app, dec_contains, H1, Hp, H2.
  - unfold init_filename. by rewrite !contains_char_app, dec_contains, H1, Hp, H3.
  - by rewrite !contains_char_app, dec_contains, H1, Hp, H4, (digits_contain_no ch num), H5.
Qed.

Lemma starts_with_dec w s : starts_with "/" (dec w ++ s) = false.
Proof.
  pose proof (dec_contains "/"%char w eq_refl) as Hc. destruct (dec_not_empty w) as (d & t & Hw). rewrite Hw in *.
  cbn [contains_char] in Hc. cbn -[Ascii.eqb]. unfold starts_with. cbn [strip_prefix]. by destruct (Ascii.eqb "/" d).
Qed.

Lemma emitted_relative job rel seg w : id_ok (cj_id job) -> emitted job rel seg w -> starts_with "/" rel = false.
Proof.
  intros Hi He. destruct He; try apply starts_with_dec.
  apply starts_with_not_contains. by rewrite contains_char_app, (id_slash _ Hi).
Qed.

(** C12. What a conversion wrote is uploaded under the key from which it is
    served: for a valid job id without a backslash, the object key made from the
    file's place in the job's directory is the key that the file handler asks S3
    for when that file is requested. *)
Theorem uploaded_keys_are_served_keys cfg job rel seg w :
  is_valid_job_id (cj_id job) = true -> contains_char "\"%char (cj_id job) = false -> emitted job rel seg w ->
  to_s3_key (video_path (videos_dir cfg) (UploadJob_new (cj_id job) (cj_dst_bucket job))) (local_path cfg (cj_id job) rel) "videos"
  = Ok (s3_key rel).
Proof.
  intros Hv Hb He. pose proof (valid_id_ok _ Hv) as Hi. set (i := cj_id job) in *.
  pose proof (emitted_relative _ _ _ _ Hi He) as Hrel.
  pose proof (emitted_contains _ _ _ _ "\"%char He eq_refl Hb eq_refl) as Hbs.
  unfold video_path, local_path. cbn [uj_id UploadJob_new].
  destruct (path_join_rel (videos_dir cfg) i) as (sep & -> & _); [apply starts_with_not_contains, Hi|].
  set (root := videos_dir cfg ++ sep ++ i).
  assert (is_empty root = false /\ ends_with "/" root = false) as [Hr1 Hr2].
  { pose proof (id_not_empty _ Hi). pose proof (id_slash _ Hi). unfold root. rewrite sapp_assoc. split.
    - destruct (videos_dir cfg ++ sep); [by destruct i|done].
    - rewrite ends_with_long by (destruct i; [done|cbn; lia]). by apply (ends_with_not_contains "/"%char). }
  assert (path_join root rel = root ++ "/" ++ rel) as ->.
  { unfold path_join. rewrite Hr1, Hr2. destruct rel as [|ch r]; [done|]. by destruct ch as [[][][][][][][][]]. }
  unfold to_s3_key, path_strip_prefix. rewrite Hr2.
  assert ((root ++ "/" ++ rel =? root) = false)%string as ->.
  { apply String.eqb_neq. intros E. apply (f_equal slen) in E. rewrite !slen_app in E. cbn in E. lia. }
  rewrite sapp_assoc, strip_prefix_app. by rewrite replace_char_none.
Qed.

(** ** Uploads of directories *)

(** C13. An upload succeeds only if everything was uploaded: on S3, with the
    bucket's operator built, the walk over a finite directory ends, and the
    result is [Ok] exactly when every directory could be read and every file in
    the tree, at any depth, was transferred. *)
Theorem upload_is_complete `{OpenDal} transfer fuel bucket path es fails prefix m m' op :
  is_s3 m = true -> operator_for_bucket bucket m = (m', Ok op) ->
  (node_size (DirNode es fails) < fuel)%nat ->
  exists r, upload_directory_to_bucket transfer fuel bucket path (DirNode es fails) prefix m = Ret (m', r) /\
    (r = Ok tt <-> node_readable (DirNode es fails) = true /\
       forall f, f ∈ node_files path (DirNode es fails) -> upload_one (transfer op) path f prefix = Ok tt).
Proof.
  intros Hs Hop Hfuel. unfold upload_directory_to_bucket. rewrite Hs, Hop. cbn [negb].
  unfold upload_tree_streaming. set (n := DirNode es fails) in *.
  destruct (walk_spec fuel [(path, n)]) as (items & Hw & Hcase).
  { rewrite queue_size_cons. change (queue_size []) with 0%nat. lia. }
  { by constructor. }
  rewrite Hw. red_bind. pose proof (upload_counts (transfer op) path prefix items (0%nat, 0%nat)) as [_ Hc].
  destruct (foldl _ _ items) as [succ errs]. cbn [snd] in Hc.
  assert (all_readable [(path, n)] <-> node_readable n = true) as Hread by (unfold all_readable; rewrite Forall_singleton; done).
  destruct (Nat.ltb_spec 0 errs) as [Hlt|Hge]; red_bind; (eexists; split; [reflexivity|]).
  - split; [done|]. intros [Hr Hall]. exfalso. destruct Hcase as [[_ (paths & -> & Hp)]|[Hnr _]]; [|by apply Hnr, Hread].
    rewrite queue_files_cons, app_nil_r in Hp. assert (errs = 0%nat); [|lia]. apply Hc.
    intros i' (f & -> & Hf)%list_elem_of_fmap. exists f. split; [done|]. apply Hall. by rewrite <-Hp.
  - split; [|done]. intros _. assert (errs = 0%nat) as He0 by lia. pose proof (proj1 Hc He0) as He.
    destruct Hcase as [[Hr (paths & -> & Hp)]|[_ [e Hin]]].
    + split; [by apply Hread|]. intros f Hf. rewrite queue_files_cons, app_nil_r in Hp. rewrite <-Hp in Hf.
      destruct (He (Ok f)) as (g & [= <-] & Hg); [by apply list_elem_of_fmap_2|done].
    + by destruct (He _ Hin) as (p & [=] & _).
Qed.

(** ** Examples *)

Definition no_opendal : OpenDal := {| Operator := unit; s3_build _ _ _ _ _ := Ok tt |}.

Definition checked : Profile := {| overflow_checks := true; debug_assertions := true |}.

(** Chunks of two bytes. *)
Fixpoint pairs (data : list Z) : list (list Z) :=
  match data with
  | a :: b :: data => [a; b] :: pairs data
  | [] => []
  | rest => [rest]
  end.

Lemma pairs_concat data : concat (pairs data) = data.
Proof.
  assert (forall n d, (length d <= n)%nat -> concat (pairs d) = d) as H; [|by apply (H (length data))].
  induction n as [|n IH]; intros [|a [|b d]] Hl; cbn in *; try done; try lia. by rewrite IH by lia.
Defined.

Definition ten_bytes : list Z := [0; 1; 2; 3; 4; 5; 6; 7; 8; 9].
Definition one_file (path : string) : string -> option (list Z) := fun p => if (p =? path)%string then Some ten_bytes else None.

Lemma ranges_are_exact_witness :
  exists body, body_bytes body = [3; 4; 5] /\ charged body = 3 /\
    @server_file_with_bucket checked no_opendal (one_file "f") (fun _ _ => None) (fun _ _ _ _ => None) pairs 4 "f" "k" "a.m4s" (Some "bytes=3-5") None =
    Ret (File {| fr_status := 206; fr_content_type := hls_content_type "a.m4s"; fr_content_length := "3";
                 fr_content_range := Some "bytes 3-5/10"; fr_body := body |}).
Proof.
  destruct (@ranges_are_exact no_opendal (one_file "f") (fun _ _ => None) (fun _ _ _ _ => None) pairs 4 pairs_concat
    checked "f" "k" "a.m4s" (Some (3, Some 5)) None ten_bytes)
    as (body & Hr & Hb & _ & Hc); [done|done| |done|].
  - split; [done|]. by intros b [= <-].
  - exists body. split; [exact Hb|]. split; [exact Hc|]. exact Hr.
Defined.

Lemma unsatisfiable_range_underflows_witness :
  @server_file_with_bucket checked no_opendal (one_file "f") (fun _ _ => None) (fun _ _ _ _ => None) pairs 4 "f" "k" "a.m4s" (Some "bytes=12-") None = Panic.
Proof.
  apply (@unsatisfiable_range_underflows no_opendal (one_file "f") (fun _ _ => None) (fun _ _ _ _ => None) pairs 4 pairs_concat
    checked "f" "k" "a.m4s" 12 None ten_bytes); done.
Defined.

Definition example_config : AppConfig :=
  {| cfg_is_s3 := false; permits := 10; migrate_permits := 1; uploads_dir := "uploads"; videos_dir := "videos" |}.

Lemma served_paths_stay_inside_witness :
  local_path example_config "video1" example_segment = "videos/video1/720/video1-h264-007.m4s" /\
  path_names (local_path example_config "video1" example_segment) =
    (path_names "videos" ++ path_names "video1" ++ path_names example_segment)%list /\
  ".." ∉ path_names example_segment.
Proof.
  split; [vm_compute; reflexivity|].
  destruct (served_paths_stay_inside example_config example_segment "video1" eq_refl eq_refl eq_refl) as (H1 & _ & _ & H2).
  split; [exact H1|exact H2].
Defined.

Definition local_manager : @StorageManager no_opendal := @StorageManager_new no_opendal Local.

Lemma absolute_keys_escape_witness :
  exists f, @serve_video checked no_opendal example_config (one_file "/etc/host.conf") (fun _ _ => None) (fun _ _ _ _ => None) pairs 4 "/etc/host.conf" None local_manager = Ret (local_manager, File f) /\
    fr_body f = throttled (pairs ten_bytes).
Proof.
  apply (@absolute_keys_escape checked no_opendal example_config
    (one_file "/etc/host.conf") (fun _ _ => None) (fun _ _ _ _ => None) pairs 4 local_manager "etc" "host" "conf" ten_bytes); done.
Defined.

Lemma uploaded_keys_are_served_keys_witness :
  to_s3_key "videos/video1" "videos/video1/720/video1-h264-007.m4s" "videos" = Ok "videos/720/video1-h264-007.m4s".
Proof.
  exact (uploaded_keys_are_served_keys example_config example_job example_segment (Some 7) (Some 720) eq_refl eq_refl example_emitted).
Defined.

Definition s3_manager : @StorageManager no_opendal := @StorageManager_new no_opendal (S3 None None None "id" "key").
Definition example_tree : node := DirNode [("video1.m3u8", FileNode); ("720", DirNode [("a.m4s", FileNode)] false)] false.

Lemma upload_is_complete_witness :
  exists m', @upload_directory_to_bucket no_opendal (fun _ _ _ => true) 9 "b" "videos/video1" example_tree "videos" s3_manager =
    Ret (m', Ok tt).
Proof.
  destruct (@upload_is_complete no_opendal (fun _ _ _ => true) 9 "b" "videos/video1"
    [("video1.m3u8", FileNode); ("720", DirNode [("a.m4s", FileNode)] false)] false "videos" s3_manager
    (fst (@operator_for_bucket no_opendal "b" s3_manager)) tt eq_refl eq_refl ltac:(vm_compute; lia)) as (r & Hr & Hok).
  eexists. etransitivity; [exact Hr|]. do 2 f_equal. apply Hok. split; [done|]. intros f Hf%list_elem_of_In. cbn in Hf.
  by destruct Hf as [<-|[<-|[]]].
Defined.
