(* ===== verification/MediaSpec.v ===== *)
(** * What is promised about migrations and the master playlist. *)

From stdpp Require Import base list option strings gmap sorting.
From Stdlib Require Import ZArith Lia Ascii.
From S2P Require Import Prelude RustInt RustStr Storage Convert Jobs Handler Routes Names FilesSpec.

Local Open Scope Z_scope.
Local Open Scope string_scope.

(** ** Migrations *)

Section Migrate.
  Context `{P : Profile, O : OpenDal}.
  Variable list_prefix : Operator -> string -> list (string * bool) * bool.
  Variable stat : Operator -> string -> bool.
  Variable copy_object : Operator -> Operator -> string -> result Z anyhow.

Lemma list_entries_elem p es keys k :
  k ∈ list_entries p es keys <-> k ∈ keys \/ ((k, true) ∈ es /\ selects p k = true).
Proof.
  revert keys. induction es as [|[path f] es IH]; intros keys; cbn [list_entries]; [set_solver|].
  rewrite IH, elem_of_cons. destruct f; cbn [negb].
  - destruct (selects p path) eqn:E.
    + rewrite elem_of_union, elem_of_singleton. split.
      * intros [[->|?]|[? ?]]; [right; by split; [left|]|by left|right; by split; [right|]].
      * intros [?|[[[= ->]|?] ?]]; [by left; right|by left; left|by right].
    + split; intros [?|[Hk ?]]; [by left|right; by split; [right|]|by left|].
      destruct Hk as [[= ->]|?]; [congruence|by right].
  - split; intros [?|[Hk ?]]; [by left|right; by split; [right|]|by left|].
    destruct Hk as [[=]|?]; by right.
Qed.

Lemma list_prefixes_elem src ps keys keys' :
  list_prefixes list_prefix src ps keys = Ok keys' ->
  forall k, k ∈ keys' <-> k ∈ keys \/ exists p, p ∈ ps /\ (k, true) ∈ fst (list_prefix src p) /\ selects p k = true.
Proof.
  revert keys. induction ps as [|p ps IH]; intros keys; cbn [list_prefixes].
  - intros [= ->] k. split; [by left|]. intros [?|(p & Hp & _)]; [done|]. by apply not_elem_of_nil in Hp.
  - destruct (list_prefix src p) as [es fails] eqn:El. destruct fails; [done|]. intros H k.
    rewrite (IH _ H k), list_entries_elem. setoid_rewrite elem_of_cons. split.
    + intros [[?|[? ?]]|(q & ? & ?)]; [by left|right; exists p; rewrite El; auto|right; exists q; tauto].
    + intros [?|(q & [->|?] & Hq)]; [by left; left| |right; by exists q]. rewrite El in Hq. by left; right.
Qed.

(** A copy loop that ends well has copied every key and counted each. *)
Lemma copy_keys_ok src dst ks s s' :
  copy_keys stat copy_object src dst ks s = Ret (Ok s') -> 0 <= objects_copied s ->
  objects_copied s + Z.of_nat (length ks) < 2 ^ 64 ->
  objects_total s' = objects_total s /\ objects_copied s' = objects_copied s + Z.of_nat (length ks) /\
  Forall (fun k => stat src k = true /\ exists n, copy_object src dst k = Ok n) ks.
Proof.
  revert s. induction ks as [|k ks IH]; intros s; cbn [copy_keys length].
  - intros [= <-] _ _. split; [done|]. split; [lia|constructor].
  - destruct (stat src k) eqn:Es; cbn [negb]; [|done]. destruct (copy_object src dst k) as [n|e] eqn:Ek; [|done].
    intros H Hp Hl. apply bind_Ret in H as (c & Hc & H). apply bind_Ret in H as (b & _ & H).
    unfold uadd in Hc. rewrite arith_fits in Hc by (unfold fits; lia). apply Ret_inj in Hc as <-.
    apply IH in H as (H1 & H2 & H3); cbn [objects_total objects_copied] in *; [|lia..].
    split; [done|]. split; [lia|]. constructor; [by eauto|done].
Qed.

Lemma copy_keys_total src dst ks s s' :
  copy_keys stat copy_object src dst ks s = Ret (Ok s') -> objects_total s' = objects_total s.
Proof.
  revert s. induction ks as [|k ks IH]; intros s; cbn [copy_keys]; [by intros [= <-]|].
  destruct (stat src k); cbn [negb]; [|done]. destruct (copy_object src dst k); [|done]. intros Hr.
  apply bind_Ret in Hr as (? & _ & Hr). apply bind_Ret in Hr as (? & _ & Hr). by apply IH in Hr.
Qed.

Lemma btree_iter_elements keys : btree_iter keys ≡ₚ elements keys.
Proof. apply merge_sort_Permutation. Qed.

(** A migration that reports success has copied everything it selected: both
    buckets have operators, the statistics count every object, and each listed
    file under one of the job's prefixes that belongs to the video was read from
    the source and copied to the destination. *)
Theorem completed_migration_copied_everything (j : MigrateJob) m m' stats :
  migrate_run list_prefix stat copy_object j m = Ret (m', Ok stats) -> objects_total stats < 2 ^ 64 ->
  exists src dst m1, operator_for_bucket (mj_src_bucket j) m = (m1, Ok src) /\
    operator_for_bucket (mj_dst_bucket j) m1 = (m', Ok dst) /\
    objects_copied stats = objects_total stats /\
    forall p k, p ∈ object_prefixes j -> (k, true) ∈ fst (list_prefix src p) -> selects p k = true ->
      stat src k = true /\ exists n, copy_object src dst k = Ok n.
Proof.
  unfold migrate_run. destruct (operator_for_bucket (mj_src_bucket j) m) as [m1 [src|e]] eqn:Es; [|done].
  destruct (operator_for_bucket (mj_dst_bucket j) m1) as [m2 [dst|e]] eqn:Ed; [|done].
  unfold list_object_keys. destruct (list_prefixes _ _ _ _) as [keys|e] eqn:El; [|done]. intros H Hl.
  apply bind_Ret in H as (r & H & Hr). apply Ret_inj in Hr. injection Hr as <- ->.
  pose proof (Permutation_length (btree_iter_elements keys)) as Hsz.
  assert (Z.of_nat (length (elements keys)) = Z.of_nat (size keys)) as He by done.
  pose proof (copy_keys_total _ _ _ _ _ H) as Ht. cbn [objects_total] in Ht.
  apply copy_keys_ok in H as (H1 & H2 & H3); cbn [objects_copied objects_total] in *; [|lia|lia].
  exists src, dst, m1. split; [done|]. split; [done|]. split; [lia|].
  intros p k Hp Hk Hs. rewrite Forall_forall in H3. apply H3. rewrite btree_iter_elements. apply elem_of_elements.
  apply (list_prefixes_elem _ _ _ _ El). right. by exists p.
Qed.

End Migrate.

(** ** The master playlist *)

Lemma sjoin_cons x l : sjoin "" (x :: l) = x ++ sjoin "" l.
Proof. unfold sjoin. destruct l; cbn [String.concat]; [by rewrite sapp_nil_r|done]. Qed.

Lemma sjoin_app l1 l2 : sjoin "" (l1 ++ l2)%list = sjoin "" l1 ++ sjoin "" l2.
Proof. induction l1 as [|x l1 IH]; [done|]. cbn [app]. by rewrite !sjoin_cons, IH, <-sapp_assoc. Qed.

Definition LFc : ascii := ascii_of_nat 10.

(** A text of lines, each ended by a line feed. *)
Definition lines (l : list string) : string := sjoin "" ((fun x => x ++ LF) <$> l).

Lemma lines_cons x l : lines (x :: l) = x ++ LF ++ lines l.
Proof. unfold lines. rewrite fmap_cons, sjoin_cons. by rewrite <-sapp_assoc. Qed.

Lemma lines_app l1 l2 : lines (l1 ++ l2)%list = lines l1 ++ lines l2.
Proof. unfold lines. by rewrite fmap_app, sjoin_app. Qed.

Lemma split_lines l : Forall (fun x => contains_char LFc x = false) l -> split LFc (lines l) = (l ++ [""])%list.
Proof.
  induction 1 as [|x l Hx _ IH]; [done|]. rewrite lines_cons. change (LF ++ lines l) with (String LFc (lines l)).
  rewrite split_app by done. by rewrite IH.
Qed.

(** The two lines of a variant. *)
Definition stream_inf (c : ConvertCodec) (s : Scale) : string :=
  "#EXT-X-STREAM-INF:BANDWIDTH=" ++ dec (bandwidth (width s)) ++ ",RESOLUTION=" ++ dec (width s) ++ "x" ++ dec (height s)
  ++ ",CODECS=" ++ quote ++ codecs_attribute c ++ quote.

Definition variant_uri (job_id : string) (c : ConvertCodec) (s : Scale) : string :=
  dec (width s) ++ "/" ++ playlist_filename c job_id.

Lemma playlist_entry_lines i c s : playlist_entry i c s = lines [stream_inf c s; variant_uri i c s].
Proof.
  unfold playlist_entry, lines, stream_inf, variant_uri. rewrite !fmap_cons, !sjoin_cons.
  change (sjoin "" ((fun x => x ++ LF) <$> [])) with "". by rewrite sapp_nil_r, <-!sapp_assoc.
Qed.

Lemma concat_entries_lines {A} (f : A -> string) (g : A -> list string) l :
  (forall x, f x = lines (g x)) -> sjoin "" (f <$> l) = lines (concat (g <$> l)).
Proof.
  intros Hfg. induction l as [|x l IH]; [done|]. rewrite !fmap_cons, sjoin_cons. cbn [concat].
  by rewrite lines_app, IH, Hfg.
Qed.

Definition variant_lines (job : ConvertJob) : list string :=
  concat ((fun c => concat ((fun s => [stream_inf c s; variant_uri (cj_id job) c s]) <$> scales_deref (cj_scales job)))
    <$> codecs_deref (cj_codecs job)).

Definition playlist_header : list string := ["#EXTM3U"; "#EXT-X-VERSION:7"; "#EXT-X-INDEPENDENT-SEGMENTS"].

Lemma sjoin_concat ls : sjoin "" (concat ls) = sjoin "" (sjoin "" <$> ls).
Proof. induction ls as [|l ls IH]; [done|]. rewrite fmap_cons, sjoin_cons. cbn [concat]. by rewrite sjoin_app, IH. Qed.

Lemma master_playlist_lines job : master_playlist job = lines (playlist_header ++ variant_lines job)%list.
Proof.
  unfold master_playlist. rewrite lines_app, sjoin_concat, <-list_fmap_compose.
  rewrite (concat_entries_lines _ (fun c => concat ((fun s => [stream_inf c s; variant_uri (cj_id job) c s]) <$> scales_deref (cj_scales job)))).
  - fold (variant_lines job). unfold playlist_header. rewrite !lines_cons. change (lines []) with "". by rewrite <-!sapp_assoc.
  - intros c. unfold compose. apply concat_entries_lines. intros s. apply playlist_entry_lines.
Qed.

Lemma fmap_of_concat {A B} (f : A -> B) (ls : list (list A)) : fmap (M := list) f (concat ls) = concat (fmap (M := list) (fmap (M := list) f) ls).
Proof. induction ls as [|l ls IH]; [done|]. rewrite fmap_cons. cbn [concat]. by rewrite fmap_app, IH. Qed.

(** Rows and columns of a table hold the same entries. *)
Lemma concat_swap {A B C} (f : A -> B -> C) (l1 : list A) (l2 : list B) :
  concat ((fun a => f a <$> l2) <$> l1) ≡ₚ concat ((fun b => (fun a => f a b) <$> l1) <$> l2).
Proof.
  revert l2. induction l1 as [|a l1 IH]; intros l2.
  - cbn. induction l2 as [|b l2 IH2]; [done|]. exact IH2.
  - rewrite fmap_cons. cbn [concat]. rewrite IH. clear IH. induction l2 as [|b l2 IH2]; [done|].
    rewrite !fmap_cons. cbn [concat]. cbn [app]. f_equiv. rewrite <-IH2, !app_assoc. f_equiv. apply Permutation_app_comm.
Qed.

Lemma url_convert_output job dir idx c : url (convert_output job dir idx c) = path_join dir (playlist_filename c (cj_id job)).
Proof. unfold convert_output, apply_codec_settings. by destruct c. Qed.

Lemma outputs_urls job out :
  url <$> convert_outputs job out =
  concat ((fun s => (fun c => path_join (scale_dir out s) (playlist_filename c (cj_id job))) <$> codecs_deref (cj_codecs job))
    <$> scales_deref (cj_scales job)).
Proof.
  unfold convert_outputs. generalize (scales_deref (cj_scales job)). intros l.
  assert (forall n, url <$> concat (imap (fun idx s => convert_output job (scale_dir out s) (n + idx) <$> codecs_deref (cj_codecs job)) l) =
    concat ((fun s => (fun c => path_join (scale_dir out s) (playlist_filename c (cj_id job))) <$> codecs_deref (cj_codecs job)) <$> l)) as H.
  { induction l as [|s l IH]; intros n; [done|]. cbn [imap]. rewrite fmap_cons. cbn [concat]. rewrite fmap_app. f_equal.
    - rewrite <-list_fmap_compose. apply list_fmap_ext. intros i c _. apply url_convert_output.
    - rewrite <-(IH (S n)). do 2 f_equal. apply imap_ext. intros i x _. cbn. by rewrite Nat.add_succ_r. }
  exact (H 0%nat).
Qed.

Lemma playlist_name_relative c i : id_ok i -> starts_with "/" (playlist_filename c i) = false.
Proof.
  intros Hi. apply starts_with_not_contains. rewrite playlist_filename_prefix, contains_char_app, prefix_slash by done. done.
Qed.

(** The URIs among the lines of the variants. *)
Definition variant_uris (job : ConvertJob) : list string :=
  concat ((fun c => variant_uri (cj_id job) c <$> scales_deref (cj_scales job)) <$> codecs_deref (cj_codecs job)).

(** The master playlist lists what the conversion produces: for a valid job
    id without a line feed its lines are the header and, per codec and scale, the
    description of a variant followed by its URI; and the URIs, resolved against
    the output directory, are exactly the playlists of the outputs handed to
    ffmpeg, each once. *)
Theorem master_playlist_lists_the_outputs job out :
  is_valid_job_id (cj_id job) = true -> contains_char LFc (cj_id job) = false ->
  split LFc (master_playlist job) = (playlist_header ++ variant_lines job ++ [""])%list /\
  (path_join out <$> variant_uris job) ≡ₚ (url <$> convert_outputs job out).
Proof.
  intros Hv Hlf. pose proof (valid_id_ok _ Hv) as Hi. split.
  - rewrite master_playlist_lines, split_lines; [by rewrite <-app_assoc|].
    apply Forall_app. split; [by repeat constructor|]. apply Forall_concat, Forall_fmap, Forall_forall. intros c _.
    cbn [compose]. apply Forall_concat, Forall_fmap, Forall_forall. intros s _. cbn [compose]. repeat constructor.
    + unfold stream_inf. rewrite !contains_char_app, !(dec_contains LFc) by done. by destruct c.
    + unfold variant_uri. rewrite playlist_filename_prefix, !contains_char_app, (dec_contains LFc) by done.
      rewrite (prefix_contains LFc c _) by (done || by destruct c). done.
  - rewrite outputs_urls. unfold variant_uris. rewrite fmap_of_concat, <-list_fmap_compose.
    rewrite <-(concat_swap (fun c s => path_join (scale_dir out s) (playlist_filename c (cj_id job)))).
    erewrite list_fmap_ext; [reflexivity|]. intros n c _. unfold compose. rewrite <-list_fmap_compose.
    apply list_fmap_ext. intros k s _. unfold compose, variant_uri, scale_dir.
    pose proof (dec_contains "/"%char (width s) eq_refl) as Hd.
    rewrite path_join_seg; [done| | | |by apply playlist_name_relative].
    + by apply starts_with_not_contains.
    + destruct (dec_not_empty (width s)) as (x & t & ->). done.
    + by apply (ends_with_not_contains "/"%char).
Qed.

(** ** Examples *)

Definition example_listing (prefix : string) : list (string * bool) * bool :=
  ([("videos/video1.m3u8", true); ("videos/video10.m3u8", true); ("videos/720", false)], false).

Lemma completed_migration_copied_everything_witness :
  exists m' stats, @migrate_run checked no_opendal (fun _ => example_listing) (fun _ _ => true) (fun _ _ _ => Ok 5)
      (MigrateJob_new "video1" "from" "to" [] 0) s3_manager = Ret (m', Ok stats) /\ objects_copied stats = objects_total stats.
Proof.
  eexists _, _. split; [vm_compute; reflexivity|].
  edestruct (@completed_migration_copied_everything checked no_opendal (fun _ => example_listing) (fun _ _ => true)
    (fun _ _ _ => Ok 5) (MigrateJob_new "video1" "from" "to" [] 0) s3_manager) as (? & ? & ? & _ & _ & H & _);
    [vm_compute; reflexivity|done|exact H].
Defined.

Lemma master_playlist_lists_the_outputs_witness :
  (path_join "videos/video1" <$> variant_uris example_job) ≡ₚ (url <$> convert_outputs example_job "videos/video1").
Proof. exact (proj2 (master_playlist_lists_the_outputs example_job "videos/video1" eq_refl eq_refl)). Defined.
