(* ===== verification/AccessSpec.v ===== *)
(** * Access to files: what the claim middleware promises, and the whole path
    from a created claim to the bearer's request. *)

From stdpp Require Import base list option strings gmap.
From Stdlib Require Import ZArith Lia Ascii.
From S2P Require Import Prelude RustInt RustStr XxHash Float64 Fuse FuseFormat FuseSpec Claim ClaimSpec Bucket BucketSpec.
From S2P Require Import Manager ManagerSpec Middleware Storage Convert Jobs Handler Routes Names.

Local Open Scope Z_scope.
Local Open Scope string_scope.

Section Access.
  Context `{P : Profile, L : Libm, Sm : Semaphore, Ae : Aead, Bs : Base64}.

Lemma to_err_code_client e : 400 <= to_err_code e < 500.
Proof. by destruct e. Qed.

(** C5. The file handler runs only behind a verified token and a connection
    permit.  Every request that passes has a bearer token which the manager
    accepted for the asset, segment and width of the request's path, took a permit
    of the token's bucket if that is limited, and gives exactly that permit back
    when the handler is done; every other request is answered with a client error
    that the handler has no part in. *)
Theorem middleware_guards_the_handler now e authorization filename next m m' resp :
  claim_auth_middleware now e authorization filename next m = Ret (m', resp) ->
  (exists token asset seg w m1 a key b b' limited m2,
     bearer_token authorization = Some token /\ parse_video_filename filename = Some (asset, seg, w) /\
     verify_claim now e token asset seg w m = Ret (m1, Ok (a, key)) /\
     heap m1 !! a = Some b /\ try_acquire_connection b = (b', Ok limited) /\
     next a (touch_bucket e key (update_heap (fun _ => b') a m1)) = Ret (m2, resp) /\
     m' = if limited : bool then update_heap release_connection a m2 else m2) \/
  (400 <= status resp < 500 /\ forall next', claim_auth_middleware now e authorization filename next' m = Ret (m', resp)).
Proof.
  unfold claim_auth_middleware. destruct (bearer_token authorization) as [token|] eqn:Et.
  2: { intros H%Ret_inj. injection H as <- <-. right. by split. }
  destruct (parse_video_filename filename) as [[[asset seg] w]|] eqn:Ep.
  2: { intros H%Ret_inj. injection H as <- <-. right. by split. }
  destruct (verify_claim now e token asset seg w m) as [[m1 r]| |] eqn:Ev; red_bind; [|done..].
  destruct r as [[a key]|err].
  2: { intros H%Ret_inj. injection H as <- <-. right. split; [apply to_err_code_client|done]. }
  destruct (index (heap m1) a) as [b| |] eqn:Eb; red_bind; [|done..]. apply index_Ret in Eb.
  destruct (try_acquire_connection b) as [b' [limited|er]] eqn:Ea.
  2: { intros H%Ret_inj. injection H as <- <-. right. by split. }
  intros H. left. apply bind_Ret in H as ([m2 resp'] & Hn & H). apply Ret_inj in H. injection H as <- <-.
  exists token, asset, seg, w, m1, a, key, b, b', limited, m2. by split_and!.
Qed.

(** ** From a created claim to the handler *)

Context `{AL : !AeadLaws, BL : !Base64Laws, SL : !SemaphoreLaws}.

(** A bucket that was just created has a permit to give. *)
Lemma new_bucket_admits e r exp kbps conc : 0 <= conc ->
  exists b' limited, try_acquire_connection (ClaimBucket_new e r exp kbps conc) = (b', Ok limited).
Proof.
  intros Hc. unfold try_acquire_connection, ClaimBucket_new. cbn [b_max_concurrency Bucket.permits].
  destruct (Z.eqb_spec conc 0); [eexists _, _; reflexivity|].
  destruct (sem_try_acquire (sem_new (Z.to_nat conc))) as [p|] eqn:E; [eexists _, _; reflexivity|].
  apply law_sem_none in E. rewrite law_sem_new in E. lia.
Qed.

(** Verification of a token nobody used yet creates its bucket. *)
Lemma admit_fresh {A} `{PayloadLaws A} now e h (p : A) pb id seg w m :
  payload_wf p -> payload_serialize p = Ok pb -> accepts now p id seg w -> buckets m !! bucket_key h = None ->
  grant_access (A := A) now e h pb id seg w m = (let '(m', a) := create_bucket e (bucket_key h) p m in Ret (m', Ok (a, bucket_key h))).
Proof.
  intros Hp Hpb Hacc Hb. unfold grant_access. pose proof (verify_accepts now pb id seg w p) as [_ Hv].
  rewrite Hv by (split; [by apply law_roundtrip|done]). red_bind.
  unfold get_or_create_bucket, find_bucket, get_bucket. by rewrite Hb.
Qed.

(** The header of the token is determined by the fresh values. *)
Definition token_key (n : list Z) (t : Z) (version : Z) (m : ClaimManagerInner) : list Z :=
  bucket_key (ClaimHeader_new n t (current_kid m) ALG_AES_256_GCM version).

Lemma bearer_token_of token : bearer_token (Some ("Bearer " ++ token)) = Some token.
Proof. reflexivity. Qed.

(** What lets a request through to the handler. *)
Lemma middleware_passes now e token filename asset seg w next m m1 a key b b' limited :
  parse_video_filename filename = Some (asset, seg, w) ->
  verify_claim now e token asset seg w m = Ret (m1, Ok (a, key)) -> heap m1 !! a = Some b ->
  try_acquire_connection b = (b', Ok limited) ->
  claim_auth_middleware now e (Some ("Bearer " ++ token)) filename next m =
    ('(m2, resp) ← next a (touch_bucket e key (update_heap (fun _ => b') a m1));
     Ret (if limited : bool then update_heap release_connection a m2 else m2, resp)).
Proof.
  intros Hp Hv Hb Ha. unfold claim_auth_middleware. rewrite bearer_token_of, Hp, Hv. red_bind.
  unfold index. rewrite Hb. red_bind. by rewrite Ha.
Qed.

(** [create_bucket] allocates at the end of the heap. *)
Lemma create_bucket_spec {A} `{Payload A} e k (p : A) m m' a :
  create_bucket e k p m = (m', a) ->
  exists r exp kbps conc, heap m' !! a = Some (ClaimBucket_new e r exp kbps conc) /\ conc = max_concurrency p.
Proof.
  unfold create_bucket. intros [= <- <-]. cbn [heap]. eexists _, _, _, _. split; [|reflexivity].
  by rewrite lookup_app_r, Nat.sub_diag by done.
Qed.

(** The request's numbers are of the widths of its fields. *)
Record request_wf (r : CreateClaimRequest) : Prop := {
  rw_exp : fits 32 (r_exp_unix r);
  rw_nbf n : r_nbf_unix r = Some n -> fits 32 n;
  rw_window n : r_window_len_sec r = Some n -> fits 16 n;
  rw_kbps n : r_max_kbps r = Some n -> fits 16 n;
  rw_concurrency n : r_max_concurrency r = Some n -> fits 16 n;
  rw_widths ws : r_allowed_widths r = Some ws -> Forall (fits 16) ws
}.

(** What a request's restrictions say about an access at time [now]. *)
Definition request_allows (created now : Z) (r : CreateClaimRequest) (seg w : option Z) : Prop :=
  default (wrap 32 created) (r_nbf_unix r) <= wrap 32 now < r_exp_unix r /\
  (forall s, seg = Some s -> default 0 (r_window_len_sec r) = 0 \/ s * HLS_SEGMENT_DURATION <= default 0 (r_window_len_sec r)) /\
  (forall x, w = Some x -> default [] (r_allowed_widths r) = [] \/ x ∈ default [] (r_allowed_widths r)).

(** The asset is the one named, or one of those listed (when no counter overflows
    while the filter of the list is built, and the token can hold its length). *)
Definition request_names (random_u16 : nat -> Z) (r : CreateClaimRequest) (asset : string) : Prop :=
  match r_asset_id r with
  | One id => id = asset /\ is_str id
  | List ids => asset ∈ ids /\ @try_from_strings (checked P) L random_u16 ids <> Panic /\ (forall i, fits 16 (random_u16 i)) /\
      forall f, try_from_strings random_u16 ids = Ret (Ok f) -> Z.of_nat (length (fingerprints f)) < 65536
  end.

Lemma default_fits {w d} (o : option Z) : fits w d -> (forall n, o = Some n -> fits w n) -> fits w (default d o).
Proof. intros Hd Ho. destruct o; cbn [default]; [by apply Ho|done]. Qed.

Lemma default_Forall (o : option (list Z)) : (forall ws, o = Some ws -> Forall (fits 16) ws) -> Forall (fits 16) (default [] o).
Proof. intros Ho. destruct o; cbn [default]; [by apply Ho|constructor]. Qed.

(** The token of a created claim, opened by a later manager, admits the asset. *)
Lemma created_token_admits random_u16 n t created now e r m m' token asset seg w :
  request_wf r -> fresh_ok n t -> fits 8 (current_kid m) -> keys m ⊆ keys m' ->
  create_claim random_u16 n created t r m = Ret (Created token) ->
  request_names random_u16 r asset -> request_allows created now r seg w ->
  buckets m' !! token_key n t (match r_asset_id r with One _ => 1 | List _ => 2 end) m = None ->
  exists m1 a b, verify_claim now e token asset seg w m' =
      Ret (m1, Ok (a, token_key n t (match r_asset_id r with One _ => 1 | List _ => 2 end) m)) /\
    heap m1 !! a = Some b /\ exists rate exp kbps conc, b = ClaimBucket_new e rate exp kbps conc /\ 0 <= conc.
Proof.
  intros Hwf Hf Hk Hsub Hc Hn (Ht & Hseg & Hw) Hb. unfold create_claim in Hc.
  destruct (assets_is_empty (r_asset_id r)); [done|].
  destruct (Z.leb_spec (r_exp_unix r) (default (wrap 32 created) (r_nbf_unix r))) as [|Hlt]; [done|].
  assert (fits 32 (default (wrap 32 created) (r_nbf_unix r))) as Hnbf
    by (apply default_fits; [apply wrap_fits; lia|apply Hwf]).
  pose proof (default_fits (w := 16) (d := 0) _ ltac:(by unfold fits) (rw_window r Hwf)) as Hwin.
  pose proof (default_fits (w := 16) (d := 0) _ ltac:(by unfold fits) (rw_kbps r Hwf)) as Hkb.
  pose proof (default_fits (w := 16) (d := 0) _ ltac:(by unfold fits) (rw_concurrency r Hwf)) as Hco.
  pose proof (default_Forall _ (rw_widths r Hwf)) as Hws. unfold request_names in Hn.
  destruct (r_asset_id r) as [aid|ids].
  - destruct Hn as [-> Hstr].
    set (p := {| v1_exp_unix := _ |}) in Hc.
    destruct (sign_claim n t p m) as [tok|er] eqn:Es; apply Ret_inj in Hc; [|done]. injection Hc as ->.
    assert (v1_wf p) as Hp by (split; [apply Hwf|done|done|done|done|done|done]).
    pose proof (open_signed (A := ClaimPayloadV1) n t p m m' token Hf Hk) as Hop.
    destruct (Hop Hp Hsub Es) as (pb & Hpb & Ho). clear Hop.
    assert (accepts now p asset seg w) as Hacc by (split; [done|]; split; [by cbn; rewrite bool_decide_true|]; by split).
    unfold verify_claim. rewrite Ho. red_bind. change (version_ (signed_header n t p m)) with 1. cbn [Z.eqb Pos.eqb].
    pose proof (admit_fresh (A := ClaimPayloadV1) now e (signed_header n t p m) p pb asset seg w m') as Had.
    rewrite (Had Hp Hpb Hacc Hb). clear Had.
    destruct (create_bucket e (bucket_key (signed_header n t p m)) p m') as [m1 a] eqn:Ec.
    apply create_bucket_spec in Ec as (? & ? & ? & ? & Hh & ->). eexists m1, a, _. split; [reflexivity|]. split; [exact Hh|].
    eexists _, _, _, _. split; [reflexivity|]. apply Hco.
  - destruct Hn as (Hin & Hoc & Hr16 & Hlen).
    pose proof (fun f Hb => built_contains P P random_u16 ids f asset Hb Hoc Hin) as Hfound. clear Hoc.
    destruct (try_from_strings random_u16 ids) as [[f|er]| |] eqn:Ef; cbn [mbind outcome_bind] in Hc; [|done..].
    specialize (Hlen f eq_refl). set (p := {| v2_exp_unix := _ |}) in Hc.
    destruct (sign_claim n t p m) as [tok|er] eqn:Es; apply Ret_inj in Hc; [|done]. injection Hc as ->.
    assert (filter_wf f) as Hfw.
    { unfold try_from_strings in Ef. apply bind_Ret in Ef as (ks & _ & Ef). by eapply constructed_wf. }
    assert (v2_wf p) as Hp by (split; [apply Hwf|done|done|done|done|done|done]).
    pose proof (open_signed (A := ClaimPayloadV2) n t p m m' token Hf Hk) as Hop.
    destruct (Hop (conj Hp Hlen) Hsub Es) as (pb & Hpb & Ho). clear Hop.
    assert (accepts now p asset seg w) as Hacc
      by (split; [done|]; split; [by apply Hfound|]; by split).
    unfold verify_claim. rewrite Ho. red_bind. change (version_ (signed_header n t p m)) with 2. cbn [Z.eqb Pos.eqb].
    pose proof (admit_fresh (A := ClaimPayloadV2) now e (signed_header n t p m) p pb asset seg w m') as Had.
    rewrite (Had (conj Hp Hlen) Hpb Hacc Hb). clear Had.
    destruct (create_bucket e (bucket_key (signed_header n t p m)) p m') as [m1 a] eqn:Ec.
    apply create_bucket_spec in Ec as (? & ? & ? & ? & Hh & ->). eexists m1, a, _. split; [reflexivity|]. split; [exact Hh|].
    eexists _, _, _, _. split; [reflexivity|]. apply Hco.
Qed.

(** C6. A created claim opens the video it was created for.  A job with a valid id
    and 16-bit widths is converted; a claim is created for its id, alone or in a
    list; then a request with the token for any file of the job that the claim's
    time, window and widths allow passes the middleware of a manager that still
    has the signing key, and reaches the handler with the token's new bucket.
    A claim with a list needs more: no counter overflows while the filter of the
    list is built (the construction does not panic with overflow checks), the
    random fingerprints have 16 bits, and the filter has fewer than 65536 of them,
    since the token holds no more.  The request's numbers fit their fields, the header's values
    theirs, and no bucket of this token exists yet. *)
Theorem created_claim_opens_the_video random_u16 n t created now e r m m' token job rel seg w next :
  is_valid_job_id (cj_id job) = true -> (forall s, s ∈ scales_deref (cj_scales job) -> fits 16 (width s)) ->
  emitted job rel seg w ->
  request_wf r -> fresh_ok n t -> fits 8 (current_kid m) -> keys m ⊆ keys m' ->
  create_claim random_u16 n created t r m = Ret (Created token) ->
  request_names random_u16 r (cj_id job) -> request_allows created now r seg w ->
  let key := token_key n t (match r_asset_id r with One _ => 1 | List _ => 2 end) m in
  buckets m' !! key = None ->
  exists m1 a b b' limited,
    heap m1 !! a = Some b /\ try_acquire_connection b = (b', Ok limited) /\
    claim_auth_middleware now e (Some ("Bearer " ++ token)) rel next m' =
      ('(m2, resp) ← next a (touch_bucket e key (update_heap (fun _ => b') a m1));
       Ret (if limited : bool then update_heap release_connection a m2 else m2, resp)).
Proof.
  intros Hv Hws He Hwf Hf Hk Hsub Hc Hn Ha key Hb. pose proof (valid_id_ok _ Hv) as Hi.
  destruct (created_token_admits random_u16 n t created now e r m m' token (cj_id job) seg w Hwf Hf Hk Hsub Hc Hn Ha Hb)
    as (m1 & a & b & Hver & Hh & rate & exp & kbps & conc & -> & Hconc).
  destruct (new_bucket_admits e rate exp kbps conc Hconc) as (b' & limited & Hacq).
  exists m1, a, (ClaimBucket_new e rate exp kbps conc), b', limited. split; [exact Hh|]. split; [exact Hacq|].
  apply (middleware_passes now e token rel (cj_id job) seg w next m' m1 a _ _ b' limited
    (parse_emitted job rel seg w Hi Hws He) Hver Hh Hacq).
Qed.

End Access.

(** ** Examples *)

Section Examples.
  #[local] Existing Instance dev_profile.
  #[local] Existing Instance libm_example.
  #[local] Existing Instance counter_semaphore.
  #[local] Existing Instance plain_aead.
  #[local] Existing Instance plain_base64.

Definition example_next (a : nat) (m : ClaimManagerInner) : outcome (ClaimManagerInner * response) :=
  Ret (m, {| status := 200; message := "video" |}).

Definition example_pass : outcome (ClaimManagerInner * response) :=
  claim_auth_middleware 1800000000 0 (Some ("Bearer " ++ example_token)) "720/test123-h264-007.m4s" example_next example_manager.

Lemma middleware_guards_the_handler_witness :
  exists m' resp, example_pass = Ret (m', resp) /\
  ((exists token, bearer_token (Some ("Bearer " ++ example_token)) = Some token) \/ 400 <= status resp < 500).
Proof.
  destruct example_pass as [[m' resp]| |] eqn:E; [|exfalso; by vm_compute in E..].
  exists m', resp. split; [reflexivity|].
  destruct (middleware_guards_the_handler _ _ _ _ _ _ _ _ E) as [(token & ? & ? & ? & ? & ? & ? & ? & ? & ? & ? & Ht & _)|[Hs _]].
  - left. by exists token.
  - by right.
Defined.

Definition example_request : CreateClaimRequest :=
  {| r_asset_id := One "video1"; r_exp_unix := 2000000000; r_nbf_unix := None; r_window_len_sec := Some 60;
     r_max_kbps := None; r_max_concurrency := Some 2; r_allowed_widths := Some [720] |}.

Lemma example_request_wf : request_wf example_request.
Proof. by split; cbn; repeat (intros ? [= <-]); repeat constructor. Defined.

Definition example_created : string :=
  match create_claim (fun _ => 0) example_nonce 1700000000 1700000000000000000 example_request example_manager with
  | Ret (Created token) => token
  | _ => ""
  end.

Lemma created_claim_opens_the_video_witness :
  exists m1 a b b' limited,
    heap m1 !! a = Some b /\ try_acquire_connection b = (b', Ok limited) /\
    claim_auth_middleware 1800000000 0 (Some ("Bearer " ++ example_created)) example_segment example_next example_manager =
      ('(m2, resp) ← example_next a (touch_bucket 0 (token_key example_nonce 1700000000000000000 1 example_manager)
                       (update_heap (fun _ => b') a m1));
       Ret (if limited : bool then update_heap release_connection a m2 else m2, resp)).
Proof.
  apply (created_claim_opens_the_video (fun _ => 0) example_nonce 1700000000000000000 1700000000 1800000000 0 example_request
    example_manager example_manager example_created example_job example_segment (Some 7) (Some 720) example_next).
  - reflexivity.
  - exact example_widths.
  - exact example_emitted.
  - exact example_request_wf.
  - split; [reflexivity|]. split; [by repeat constructor|done].
  - done.
  - reflexivity.
  - vm_compute. reflexivity.
  - by split.
  - split; [vm_compute; by split|]. split; [intros s [= <-]; right; vm_compute; discriminate|].
    intros x [= <-]. right. by left.
  - reflexivity.
Defined.

End Examples.
