(* ===== verification/ConfigSpec.v ===== *)
(** * What a loaded configuration guarantees to the rest of the program. *)

From stdpp Require Import base list option strings gmap sorting.
From Stdlib Require Import ZArith Lia Ascii SpecFloat.
From S2P Require Import Prelude RustInt RustStr Float64 Bucket BucketSpec Manager ManagerSpec Storage Jobs Handler Routes Config.

Local Open Scope Z_scope.
Local Open Scope string_scope.

(** ** Validation *)

Lemma check_Ok b e rest : check b e rest = Ok tt <-> b = false /\ rest = Ok tt.
Proof. unfold check. destruct b; naive_solver. Qed.

Lemma validate_Ok c : validate c = Ok tt -> validate_storage c = Ok tt /\ c_migrate_permits c <> 0.
Proof.
  unfold validate. destruct (validate_storage c) as [[]|]; [|done]. intros H. split; [done|].
  assert ((c_migrate_permits c =? 0)%Z = false) as Hm%Z.eqb_neq; [|done].
  destruct (webhook_url c); rewrite ?check_Ok in H; naive_solver.
Qed.

Lemma floor_permits c : MIN_PERMITS <= c_permits (enforce_permit_floor c).
Proof. unfold enforce_permit_floor. destruct (Z.ltb_spec (c_permits c) MIN_PERMITS); cbn [with_permits c_permits]; lia. Qed.

Lemma load_Ok read toml cli c : load read toml cli = Ok c -> validate c = Ok tt /\ MIN_PERMITS <= c_permits c.
Proof.
  unfold load. destruct (match config cli with None => _ | Some _ => _ end) as [c0|]; [|done].
  pose proof (floor_permits c0) as Hf. destruct (validate (enforce_permit_floor c0)) as [[]|] eqn:Ev; [|done].
  intros <-%Ok_inj. done.
Qed.

(** A valid storage section: local, or S3 with credentials and a bucket that
    requests may name. *)
Lemma validate_storage_Ok c :
  validate_storage c = Ok tt ->
  run_backend c = Ret Local \/
  exists i k, run_backend c = Ret (S3 (s3_endpoint c) (s3_region c) (s3_bucket c) i k) /\
    forall b, s3_bucket c = Some b -> validate_bucket_for_write b = Ok tt.
Proof.
  unfold validate_storage, run_backend, to_s3_config.
  destruct (storage_backend c =? "local")%string; [by left|].
  destruct (storage_backend c =? "s3")%string; [|done]. cbn [negb]. intros H. right.
  assert (check (opt_empty (s3_access_key_id c)) "S3 access key ID is required when backend is 's3'"
    (check (opt_empty (s3_secret_access_key c)) "S3 secret access key is required when backend is 's3'" (Ok tt)) = Ok tt /\
    forall b, s3_bucket c = Some b -> validate_bucket_for_write b = Ok tt) as [Hk Hb].
  { destruct (s3_bucket c) as [b|]; [|done]. rewrite !check_Ok in H. destruct H as (H1 & H2 & H3 & H).
    split; [by rewrite !check_Ok|]. intros ? [= <-]. unfold validate_bucket_for_write. by rewrite H1, H2, H3. }
  rewrite !check_Ok in Hk. destruct Hk as (Hi & Hk & _).
  destruct (s3_access_key_id c) as [i|]; [|done]. destruct (s3_secret_access_key c) as [k|]; [|done].
  exists i, k. done.
Qed.

(** A configuration that loads can be run: the backend is set up without a
    panic, every pool of permits has at least one (conversions ten), so no job
    waits for a permit that cannot come, and a default bucket is one that a
    request could name as well. *)
Theorem loaded_config_is_usable `{OpenDal} read toml cli c :
  load read toml cli = Ok c -> 0 <= c_migrate_permits c ->
  exists backend cfg, run_backend c = Ret backend /\ run_config c = Ret cfg /\
    cfg_is_s3 cfg = is_s3 (StorageManager_new backend) /\
    (10 <= permits cfg)%nat /\ (forall p, 0 < pool_limit cfg p)%nat /\
    (forall b, default_bucket (StorageManager_new backend) = Some b -> validate_bucket_for_write b = Ok tt).
Proof.
  intros Hl Hm. apply load_Ok in Hl as [Hv Hp]. apply validate_Ok in Hv as [Hs Hn]. unfold MIN_PERMITS in Hp.
  assert (exists backend, run_backend c = Ret backend /\
    forall b, default_bucket (StorageManager_new backend) = Some b -> validate_bucket_for_write b = Ok tt) as (backend & Hb & Hd).
  { apply validate_storage_Ok in Hs as [Hr|(i & k & Hr & Hb)]; [exists Local|eexists]; split; done. }
  exists backend. eexists. split; [done|]. split; [unfold run_config; rewrite Hb; red_bind; reflexivity|].
  split; [by destruct backend|]. split; [cbn [permits]; lia|]. split; [|done].
  intros []; cbn [pool_limit permits migrate_permits]; lia.
Qed.

(** ** Claim keys *)

(** An entry of the file that can be read. *)
Definition readable (std_decode : string -> result (list Z) string) (e : string * string) (k : Z * list Z) : Prop :=
  parse_uint 8 e.1 = Some k.1 /\ std_decode e.2 = Ok k.2 /\ length k.2 = 32%nat.

Lemma collect_claim_keys_Ok dec_ repr out :
  collect_claim_keys dec_ repr = Ok out <-> Forall2 (readable dec_) repr out.
Proof.
  revert out. induction repr as [|[kstr v] repr IH]; intros out; cbn [collect_claim_keys].
  { split; [by intros <-%Ok_inj; constructor|by intros ->%Forall2_nil_inv_l]. }
  unfold readable at 1. split.
  - destruct (parse_uint 8 kstr) as [kid|] eqn:Ek; [|done]. destruct (dec_ v) as [bs|] eqn:Ev; [|done].
    destruct (Nat.eqb_spec (length bs) 32); [|done]. destruct (collect_claim_keys dec_ repr) as [out'|]; [|done].
    intros <-%Ok_inj. constructor; [done|]. by apply IH.
  - intros H. inversion H as [|? [kid bs] ? out' (Hk & Hv & Hl) Hr]; subst. cbn in Hk, Hv, Hl. rewrite Hk, Hv, Hl. cbn.
    by rewrite (proj2 (IH out') Hr).
Qed.

#[export] Instance key_le_total : Total key_le.
Proof. intros a b. unfold key_le. lia. Qed.
#[export] Instance key_le_trans : Transitive key_le.
Proof. intros a b c. unfold key_le. lia. Qed.

Definition key_lt (a b : Z * list Z) : Prop := a.1 < b.1.

(** Deduplicating a sorted list keeps its kids, each once. *)
Lemma dedup_head a l : exists k l', dedup_by_key (a :: l) = (a.1, k) :: l'.
Proof. destruct a as [a ka]. cbn [dedup_by_key]. destruct (dedup_by_key l) as [|b l']; [by eauto|]. cbn. case_match; eauto. Qed.

Lemma dedup_elem l x : x ∈ dedup_by_key l -> x ∈ l.
Proof.
  revert x. induction l as [|a l IH]; intros x; cbn [dedup_by_key]; [done|].
  destruct (dedup_by_key l) as [|b l'] eqn:E; [set_solver|]. case_match; set_solver.
Qed.

Lemma dedup_kids l k : k ∈ l.*1 <-> k ∈ (dedup_by_key l).*1.
Proof.
  induction l as [|a l IH]; cbn [dedup_by_key]; [done|]. rewrite fmap_cons, elem_of_cons, IH.
  destruct (dedup_by_key l) as [|b l']; [set_solver|]. destruct (Z.eqb_spec a.1 b.1) as [E|]; [|set_solver].
  rewrite !fmap_cons, !elem_of_cons, E. tauto.
Qed.

Lemma dedup_sorted l : StronglySorted key_le l -> StronglySorted key_lt (dedup_by_key l).
Proof.
  induction 1 as [|a l Hs IH Ha]; cbn [dedup_by_key]; [constructor|].
  assert (Forall (key_le a) (dedup_by_key l)) as Hd.
  { rewrite Forall_forall in *. intros x Hx. apply Ha. by apply dedup_elem. }
  destruct (dedup_by_key l) as [|b l']; [by repeat constructor|].
  inversion IH as [|? ? Hl' Hb]; subst. inversion Hd as [|? ? Hab Hal]; subst. unfold key_le, key_lt in *.
  rewrite !Forall_forall in *. destruct (Z.eqb_spec a.1 b.1) as [E|E]; constructor; try done.
  - rewrite Forall_forall. intros x Hx. specialize (Hb x Hx). lia.
  - constructor; [|rewrite Forall_forall]; [lia|]. intros x Hx. specialize (Hb x Hx). lia.
Qed.

Lemma sorted_NoDup l : StronglySorted key_lt l -> NoDup l.*1.
Proof.
  induction 1 as [|a l _ IH Ha]; [constructor|]. rewrite fmap_cons. constructor; [|done].
  intros (x & E & Hx)%list_elem_of_fmap. rewrite Forall_forall in Ha. specialize (Ha x Hx). unfold key_lt in Ha. lia.
Qed.

(** The manager's map and a search of the list agree when no kid occurs twice. *)
Lemma collect_keys_notin ks m k : k ∉ ks.*1 -> foldl (fun m kv => <[kv.1 := kv.2]> m) m ks !! k = (m : gmap Z (list Z)) !! k.
Proof.
  revert m. induction ks as [|a ks IH]; intros m; [done|]. rewrite fmap_cons, not_elem_of_cons. intros [Hne Hk].
  cbn [foldl]. rewrite IH by done. by rewrite lookup_insert_ne.
Qed.

Lemma collect_keys_find ks m k :
  NoDup ks.*1 ->
  foldl (fun m kv => <[kv.1 := kv.2]> m) m ks !! k =
  match find (fun x : Z * list Z => (x.1 =? k)%Z) ks with Some x => Some x.2 | None => (m : gmap Z (list Z)) !! k end.
Proof.
  revert m. induction ks as [|a ks IH]; intros m; [done|]. rewrite fmap_cons, NoDup_cons. intros [Ha Hnd].
  cbn [foldl find]. destruct (Z.eqb_spec a.1 k) as [<-|E].
  - rewrite collect_keys_notin by done. by rewrite lookup_insert_eq.
  - rewrite IH by done. destruct (find _ ks); [done|]. by rewrite lookup_insert_ne.
Qed.

Lemma min_key_spec l k : min_key l = Some k -> k ∈ l /\ forall x, x ∈ l -> k <= x.
Proof.
  assert (forall l a, (foldl Z.min a l = a \/ foldl Z.min a l ∈ l) /\ foldl Z.min a l <= a /\
    forall x, x ∈ l -> foldl Z.min a l <= x) as H.
  { clear. induction l as [|b l IH]; intros a; cbn [foldl].
    - split; [by left|]. split; [lia|]. by intros x ?%not_elem_of_nil.
    - destruct (IH (Z.min a b)) as ([E|E] & Hle & Hall).
      + rewrite E in *. split; [destruct (Z.min_spec a b) as [[_ ->]|[_ ->]]; [by left|right; left]|].
        split; [lia|]. intros x [->|Hx]%elem_of_cons; [lia|by apply Hall].
      + split; [right; by right|]. split; [lia|]. intros x [->|Hx]%elem_of_cons; [lia|by apply Hall]. }
  destruct l as [|a l]; [done|]. cbn [min_key]. intros [= <-]. destruct (H l a) as ([E|E] & Hle & Hall).
  - split; [rewrite E; by left|]. intros x [->|Hx]%elem_of_cons; [done|by apply Hall].
  - split; [by right|]. intros x [->|Hx]%elem_of_cons; [done|by apply Hall].
Qed.

Lemma manager_keys `{Semaphore} random ks :
  ks <> [] -> NoDup ks.*1 ->
  exists m, from_keys random ks = Ret m /\ (forall k, keys m !! k = snd <$> find (fun x => (x.1 =? k)%Z) ks) /\
    current_kid m ∈ ks.*1 /\ forall k, k ∈ ks.*1 -> current_kid m <= k.
Proof.
  intros Hne Hnd. unfold from_keys. destruct ks as [|k0 ks]; [done|]. set (l := k0 :: ks) in *.
  assert (forall k, collect_keys l !! k = snd <$> find (fun x => (x.1 =? k)%Z) l) as Hk.
  { intros k. unfold collect_keys. rewrite collect_keys_find by done. by destruct (find _ l). }
  assert (forall k, k ∈ (map_to_list (collect_keys l)).*1 <-> k ∈ l.*1) as Hdom.
  { intros k. rewrite !list_elem_of_fmap. split.
    - intros ([k' v] & -> & Hv%elem_of_map_to_list). rewrite Hk in Hv.
      destruct (find _ l) as [x|] eqn:E; [|done]. apply find_some in E as [Hin Heq%Z.eqb_eq].
      exists x. split; [done|]. by apply list_elem_of_In.
    - intros (x & -> & Hx). destruct (find (fun y => (y.1 =? x.1)%Z) l) as [y|] eqn:E.
      + exists (x.1, y.2). split; [done|]. apply elem_of_map_to_list. by rewrite Hk, E.
      + apply list_elem_of_In in Hx. apply (find_none _ _ E) in Hx. by rewrite Z.eqb_refl in Hx. }
  destruct (min_key (map_to_list (collect_keys l)).*1) as [kid|] eqn:Em.
  - eexists. split; [reflexivity|]. apply min_key_spec in Em as [Hin Hmin]. cbn [keys current_kid].
    split; [done|]. split; [by apply Hdom|]. intros k Hx. apply Hmin. by apply Hdom.
  - exfalso. assert (k0.1 ∈ (map_to_list (collect_keys l)).*1) as Hx by (apply Hdom; by left).
    unfold min_key in Em. destruct ((map_to_list (collect_keys l)).*1); [by apply not_elem_of_nil in Hx|done].
Qed.

(** The claim keys of a configuration file reach the manager.  The keys read
    are ordered by kid, each kid once; each comes from an entry of the file with
    a key of 32 bytes, and every kid of the file is there; and the manager built
    from them has, for every kid, the key that the configuration has, and signs
    with the smallest kid. *)
Theorem file_keys_reach_the_manager `{Semaphore} std_decode repr c random :
  de_claim_keys std_decode (Some repr) = Ok (claim_keys c) ->
  StronglySorted key_lt (claim_keys c) /\
  (forall k, k ∈ claim_keys c -> exists e, e ∈ repr /\ readable std_decode e k) /\
  (forall e, e ∈ repr -> exists k, k ∈ claim_keys c /\ parse_uint 8 e.1 = Some k.1) /\
  (claim_keys c <> [] -> exists m, from_keys random (claim_keys c) = Ret m /\
     (forall kid, keys m !! kid = get_claim_key kid c) /\
     forall k, k ∈ claim_keys c -> current_kid m <= k.1).
Proof.
  unfold de_claim_keys. destruct (collect_claim_keys std_decode repr) as [out|] eqn:Ec; [|done].
  intros E%Ok_inj. apply collect_claim_keys_Ok in Ec as Hc.
  assert (StronglySorted key_lt (claim_keys c)) as Hs by (rewrite <-E; apply dedup_sorted, (StronglySorted_merge_sort key_le)).
  pose proof (merge_sort_Permutation key_le out) as Hp.
  split; [done|]. split; [|split].
  - intros k Hk. rewrite <-E in Hk. apply dedup_elem in Hk. rewrite Hp in Hk.
    apply list_elem_of_lookup in Hk as [i Hi]. destruct (Forall2_lookup_r _ _ _ _ _ Hc Hi) as (e & He & Hr).
    exists e. split; [|done]. by eapply list_elem_of_lookup_2.
  - intros e He. apply list_elem_of_lookup in He as [i Hi]. destruct (Forall2_lookup_l _ _ _ _ _ Hc Hi) as (k & Hk & Hr & _).
    assert (k.1 ∈ (claim_keys c).*1) as (k' & Hk1 & Hin)%list_elem_of_fmap.
    { rewrite <-E, <-dedup_kids, Hp. apply list_elem_of_fmap_2. by eapply list_elem_of_lookup_2. }
    exists k'. by rewrite <-Hk1.
  - intros Hne. destruct (manager_keys random (claim_keys c) Hne (sorted_NoDup _ Hs)) as (m & Hm & Hk & _ & Hmin).
    exists m. split; [done|]. split; [done|]. intros k Hin. apply Hmin. by apply list_elem_of_fmap_2.
Qed.

Lemma Forall2_perm {A B} (R : A -> B -> Prop) l1 l1' l2 :
  Forall2 R l1 l2 -> l1 ≡ₚ l1' -> exists l2', l2 ≡ₚ l2' /\ Forall2 R l1' l2'.
Proof.
  intros H Hp. revert l2 H. induction Hp as [|x l l' _ IH|x y l|l l' l'' _ IH1 _ IH2]; intros l2 H.
  - apply Forall2_nil_inv_l in H as ->. by exists [].
  - apply Forall2_cons_inv_l in H as (b & k & Hb & Hk & ->). destruct (IH k Hk) as (k' & Hp & Hk').
    exists (b :: k'). by split; [rewrite Hp|constructor].
  - apply Forall2_cons_inv_l in H as (b & k & Hb & Hk & ->). apply Forall2_cons_inv_l in Hk as (c & k' & Hc & Hk & ->).
    exists (c :: b :: k'). split; [constructor|by repeat constructor].
  - destruct (IH1 l2 H) as (k & Hp1 & Hk). destruct (IH2 k Hk) as (k' & Hp2 & Hk'). exists k'. by rewrite Hp1.
Qed.

(** A file that names a kid once gives the same keys in whatever order its map
    is iterated. *)
Lemma file_keys_order std_decode repr repr' ks :
  de_claim_keys std_decode (Some repr) = Ok ks -> NoDup ((fun e => parse_uint 8 e.1) <$> repr) -> repr ≡ₚ repr' ->
  de_claim_keys std_decode (Some repr') = Ok ks.
Proof.
  unfold de_claim_keys. destruct (collect_claim_keys std_decode repr) as [out|] eqn:Ec; [|done]. intros <-%Ok_inj Hnd Hp.
  apply collect_claim_keys_Ok in Ec as Hc.
  destruct (Forall2_perm _ _ _ _ Hc Hp) as (out' & Ho & Hc').
  assert (NoDup out.*1) as Hn.
  { apply (NoDup_fmap_1 Some). replace (Some <$> out.*1) with ((fun e => parse_uint 8 e.1) <$> repr); [done|].
    rewrite <-list_fmap_compose. clear -Hc. induction Hc as [|e k l l' (H & _) _ IH]; [done|]. by rewrite !fmap_cons, IH, H. }
  apply collect_claim_keys_Ok in Hc' as ->. do 2 f_equal. apply (StronglySorted_unique_strong key_le).
  - intros x y Hx Hy Hxy Hyx. rewrite merge_sort_Permutation in Hx, Hy. rewrite <-Ho in Hx.
    assert (x.1 = y.1) as E by (unfold key_le in *; lia). clear -Hn Hx Hy E.
    apply list_elem_of_lookup in Hx as [i Hi], Hy as [j Hj].
    assert (i = j) as <-; [|congruence]. apply (NoDup_lookup out.*1 i j x.1 Hn); rewrite list_lookup_fmap.
    + by rewrite Hi.
    + by rewrite Hj, E.
  - apply (StronglySorted_merge_sort key_le).
  - apply (StronglySorted_merge_sort key_le).
  - by rewrite !merge_sort_Permutation.
Qed.

(** Two spellings of one kid: the order of the map decides which key is used. *)
Example two_spellings_of_a_kid :
  let dec_ s := Ok (replicate 32 (if (s =? "a")%string then 1 else 2)) in
  de_claim_keys dec_ (Some [("1", "a"); ("01", "b")]) = Ok [(1, replicate 32 1)] /\
  de_claim_keys dec_ (Some [("01", "b"); ("1", "a")]) = Ok [(1, replicate 32 2)].
Proof. by vm_compute. Qed.

(** A value given on the command line gives way to the file's when it is the
    default, and the same key given twice: the last reaches the manager, the
    first is what the configuration reports. *)
Example explicit_default_gives_way :
  c_permits (merge_with_file (with_permits 20 Config_default) (with_permits 10 Config_default)) = 20.
Proof. reflexivity. Qed.

(** ** Examples *)

Definition example_keys : list (string * string) := [("7", "b"); ("3", "a")].
Definition example_decode (s : string) : result (list Z) string :=
  Ok (replicate 32 (if (s =? "a")%string then 1 else 2)).

Definition example_file : Config :=
  {| listen_on_port := default_port; internal_port := default_internal_port; c_permits := 4;
     c_migrate_permits := 2; token_rate := default_token_rate; workspace := "/data";
     config := None; storage_backend := "s3"; s3_endpoint := None; s3_region := None; s3_bucket := Some "video";
     s3_access_key_id := Some "id"; s3_secret_access_key := Some "secret"; webhook_url := Some "https://example.com";
     claim_keys := [(3, replicate 32 1); (7, replicate 32 2)] |}.

Definition example_cli : Config :=
  {| listen_on_port := 80; internal_port := default_internal_port; c_permits := default_permits;
     c_migrate_permits := default_migrate_permits; token_rate := default_token_rate; workspace := default_workspace;
     config := Some "a.toml"; storage_backend := default_storage_backend; s3_endpoint := None; s3_region := None; s3_bucket := None;
     s3_access_key_id := None; s3_secret_access_key := None; webhook_url := None; claim_keys := [] |}.

Definition example_loaded : Config :=
  match load (fun _ => Ok "") (fun _ => Ok example_file) example_cli with Ok c => c | Err _ => Config_default end.

Lemma loaded_config_is_usable_witness :
  exists cfg, run_config example_loaded = Ret cfg /\ (forall p, 0 < pool_limit cfg p)%nat.
Proof.
  destruct (@loaded_config_is_usable {| Operator := unit; s3_build _ _ _ _ _ := Ok tt |} (fun _ => Ok "") (fun _ => Ok example_file)
    example_cli example_loaded eq_refl ltac:(vm_compute; discriminate)) as (b & cfg & _ & Hc & _ & _ & Hp & _).
  by exists cfg.
Defined.

Lemma file_keys_reach_the_manager_witness :
  exists m, @from_keys counter_semaphore [] (claim_keys example_file) = Ret m /\ current_kid m = 3.
Proof.
  destruct (@file_keys_reach_the_manager counter_semaphore example_decode example_keys example_file [])
    as (_ & _ & _ & H); [vm_compute; reflexivity|]. destruct H as (m & Hm & _); [done|]. exists m. split; [exact Hm|].
  vm_compute in Hm. apply Ret_inj in Hm. by rewrite <-Hm.
Defined.
