(* ===== verification/StreamSpec.v ===== *)
(** * Stream specifiers ([ez-ffmpeg/src/core/metadata/stream_specifier.rs]) and
    [strtol] of [core/context/ffmpeg_context.rs].

    A stream map such as [0:a?] names a file and a specifier of its streams.  The
    parser is the code's loop over a peekable iterator of characters; the match
    walks over the structures of libavformat, of which the records below hold the
    fields that are read ([None] for a null pointer).  [av_dict_get] is a
    parameter. *)

From stdpp Require Import base list option strings.
From Stdlib Require Import ZArith Lia Ascii.
From S2P Require Import Prelude RustInt RustStr.

Local Open Scope Z_scope.
Local Open Scope string_scope.

(** ** Characters of a [str] *)

(** The rest of the current character's bytes. *)
Fixpoint drop_cont (s : string) : string :=
  match s with String c t => if cont (ascii_Z c) then drop_cont t else s | "" => "" end.

(** [chars.next()] *)
Definition next_char (s : string) : string := match s with String _ t => drop_cont t | "" => "" end.

Fixpoint span (p : ascii -> bool) (s : string) : string * string :=
  match s with
  | "" => ("", "")
  | String c t => if p c then let '(a, b) := span p t in (String c a, b) else ("", s)
  end.

(** [chars.by_ref().take_while(p).collect()]: the character that ends the run is
    taken from the iterator as well. *)
Definition take_while (p : ascii -> bool) (s : string) : string * string :=
  let '(a, b) := span p s in (a, next_char b).

(** [chars.clone().nth(1)] where the current character is ASCII. *)
Definition second (s : string) : option ascii := match s with String _ (String c _) => Some c | _ => None end.

Definition is_ascii_alphanumeric (c : ascii) : bool :=
  is_ascii_digit c || in_range 65 90 (ascii_Z c) || in_range 97 122 (ascii_Z c).

Definition is_ascii_hexdigit (c : ascii) : bool :=
  is_ascii_digit c || in_range 65 70 (ascii_Z c) || in_range 97 102 (ascii_Z c).

Definition hex_digit (c : ascii) : option Z :=
  if is_ascii_digit c then Some (ascii_Z c - 48)
  else if in_range 65 70 (ascii_Z c) then Some (ascii_Z c - 55)
  else if in_range 97 102 (ascii_Z c) then Some (ascii_Z c - 87)
  else None.

Fixpoint hex_value (acc : Z) (s : string) : option Z :=
  match s with
  | "" => Some acc
  | String c s => match hex_digit c with Some d => hex_value (16 * acc + d) s | None => None end
  end.

(** [parse::<i32>()], [parse::<i64>()], [i64::from_str_radix(s, 16)] of a string
    without a sign. *)
Definition parse_i32 (s : string) : option Z := parse_digits 31 s.
Definition parse_i64 (s : string) : option Z := parse_digits 63 s.
Definition parse_hex_i64 (s : string) : option Z :=
  if is_empty s then None
  else match hex_value 0 s with Some v => if (v <? 2 ^ 63)%Z then Some v else None | None => None end.

(** [x as i32] *)
Definition as_i32 (x : Z) : Z := let y := wrap 32 x in if (y <? 2 ^ 31)%Z then y else y - 2 ^ 32.

(** ** Specifiers *)

Inductive AVMediaType := AVMEDIA_TYPE_UNKNOWN | AVMEDIA_TYPE_VIDEO | AVMEDIA_TYPE_AUDIO | AVMEDIA_TYPE_DATA
  | AVMEDIA_TYPE_SUBTITLE | AVMEDIA_TYPE_ATTACHMENT.

#[export] Instance AVMediaType_eq_dec : EqDecision AVMediaType.
Proof. solve_decision. Defined.

Inductive StreamListType := All | Program | GroupId | GroupIdx | StreamId.

#[export] Instance StreamListType_eq_dec : EqDecision StreamListType.
Proof. solve_decision. Defined.

Record StreamSpecifier := {
  media_type : option AVMediaType;
  no_apic : bool;
  idx : option Z;
  list_type : StreamListType;
  list_id : Z;
  meta_key : option string;
  meta_val : option string;
  usable_only : bool;
  disposition : option string
}.

Definition specifier_default : StreamSpecifier :=
  {| media_type := None; no_apic := false; idx := None; list_type := All; list_id := 0; meta_key := None; meta_val := None;
     usable_only := false; disposition := None |}.

(** Assignments to fields. *)
Definition set_media (m : AVMediaType) (ss : StreamSpecifier) : StreamSpecifier :=
  {| media_type := Some m; no_apic := no_apic ss; idx := idx ss; list_type := list_type ss; list_id := list_id ss;
     meta_key := meta_key ss; meta_val := meta_val ss; usable_only := usable_only ss; disposition := disposition ss |}.
Definition set_no_apic (ss : StreamSpecifier) : StreamSpecifier :=
  {| media_type := media_type ss; no_apic := true; idx := idx ss; list_type := list_type ss; list_id := list_id ss;
     meta_key := meta_key ss; meta_val := meta_val ss; usable_only := usable_only ss; disposition := disposition ss |}.
Definition set_idx (n : Z) (ss : StreamSpecifier) : StreamSpecifier :=
  {| media_type := media_type ss; no_apic := no_apic ss; idx := Some n; list_type := list_type ss; list_id := list_id ss;
     meta_key := meta_key ss; meta_val := meta_val ss; usable_only := usable_only ss; disposition := disposition ss |}.
Definition set_list (t : StreamListType) (n : Z) (ss : StreamSpecifier) : StreamSpecifier :=
  {| media_type := media_type ss; no_apic := no_apic ss; idx := idx ss; list_type := t; list_id := n;
     meta_key := meta_key ss; meta_val := meta_val ss; usable_only := usable_only ss; disposition := disposition ss |}.
Definition set_meta (k : string) (v : option string) (ss : StreamSpecifier) : StreamSpecifier :=
  {| media_type := media_type ss; no_apic := no_apic ss; idx := idx ss; list_type := list_type ss; list_id := list_id ss;
     meta_key := Some k; meta_val := v; usable_only := usable_only ss; disposition := disposition ss |}.
Definition set_usable (ss : StreamSpecifier) : StreamSpecifier :=
  {| media_type := media_type ss; no_apic := no_apic ss; idx := idx ss; list_type := list_type ss; list_id := list_id ss;
     meta_key := meta_key ss; meta_val := meta_val ss; usable_only := true; disposition := disposition ss |}.
Definition set_disposition (d : string) (ss : StreamSpecifier) : StreamSpecifier :=
  {| media_type := media_type ss; no_apic := no_apic ss; idx := idx ss; list_type := list_type ss; list_id := list_id ss;
     meta_key := meta_key ss; meta_val := meta_val ss; usable_only := usable_only ss; disposition := Some d |}.

(** ** Parsing *)

Definition parse_id_number (num_str context : string) : result Z string :=
  if is_empty num_str then Err ("Expected " ++ context)
  else if starts_with "0x" num_str || starts_with "0X" num_str then
    match parse_hex_i64 (sdrop 2 num_str) with
    | Some n => Ok n
    | None => Err ("Invalid hex " ++ context ++ ": " ++ num_str)
    end
  else match parse_i64 num_str with
       | Some n => Ok n
       | None => Err ("Invalid " ++ context ++ ": " ++ num_str)
       end.

(** What one round of the loop does: go on, leave the loop, return an error. *)
Inductive flow :=
  | Continue (ss : StreamSpecifier) (chars : string)
  | Break (ss : StreamSpecifier) (chars : string)
  | Fail (e : string).

Definition number_char (c : ascii) : bool :=
  is_ascii_digit c || Ascii.eqb c "x" || Ascii.eqb c "X" || is_ascii_hexdigit c.

Definition disp_char (c : ascii) : bool := is_ascii_alphanumeric c || Ascii.eqb c "_" || Ascii.eqb c "+".

Definition not_colon (c : ascii) : bool := negb (Ascii.eqb c ":").

Definition none_or_not_alnum (o : option ascii) : bool :=
  match o with None => true | Some c => negb (is_ascii_alphanumeric c) end.

Definition is_colon (o : option ascii) : bool := match o with Some c => Ascii.eqb c ":" | None => false end.

Definition combined : string := "Cannot combine multiple program/group designators".
Definition twice : string := "Stream type specified multiple times".

(** [v], [a], [s], [t], [V], and [d] when it is not [disp:]. *)
Definition parse_media (m : AVMediaType) (apic : bool) (ss : StreamSpecifier) (chars : string) : flow :=
  if none_or_not_alnum (second chars) then
    match media_type ss with
    | Some _ => Fail twice
    | None => Continue (if apic then set_media m ss else set_no_apic (set_media m ss)) (next_char chars)
    end
  else Break ss chars.

(** A designator of a list with its number, after the prefix was consumed. *)
Definition parse_list (t : StreamListType) (p : ascii -> bool) (context : string) (stop : bool) (ss : StreamSpecifier)
    (chars : string) : flow :=
  let '(num_str, chars) := take_while p chars in
  match parse_id_number num_str context with
  | Err e => Fail e
  | Ok n => if stop then Break (set_list t n ss) chars else Continue (set_list t n ss) chars
  end.

Definition skip_colon (s : string) : string := match strip_prefix ":" s with Some t => t | None => s end.

Definition is_all (ss : StreamSpecifier) : bool := bool_decide (list_type ss = All).

Definition parse_step (ss : StreamSpecifier) (chars : string) : flow :=
  match chars with
  | "" => Break ss chars
  | String ch rest =>
    if is_ascii_digit ch then
      let '(num_str, chars) := take_while is_ascii_digit chars in
      match parse_i32 num_str with
      | None => Fail ("Invalid index: " ++ num_str)
      | Some n => Break (set_idx n ss) chars
      end
    else match ch with
    | "v"%char => parse_media AVMEDIA_TYPE_VIDEO true ss chars
    | "a"%char => parse_media AVMEDIA_TYPE_AUDIO true ss chars
    | "s"%char => parse_media AVMEDIA_TYPE_SUBTITLE true ss chars
    | "t"%char => parse_media AVMEDIA_TYPE_ATTACHMENT true ss chars
    | "V"%char => parse_media AVMEDIA_TYPE_VIDEO false ss chars
    | "d"%char =>
      match strip_prefix "disp:" chars with
      | Some chars =>
        match disposition ss with
        | Some _ => Fail "Multiple disposition specifiers"
        | None =>
          let '(disp, chars) := take_while disp_char chars in
          if is_empty disp then Fail "Expected disposition value" else Continue (set_disposition disp ss) chars
        end
      | None => parse_media AVMEDIA_TYPE_DATA true ss chars
      end
    | "g"%char =>
      if is_colon (second chars) then
        if negb (is_all ss) then Fail combined
        else
          let chars := sdrop 2 chars in
          let by_id := starts_with "#" chars || starts_with "i:" chars in
          let chars := if by_id then skip_colon (sdrop 1 chars) else chars in
          parse_list (if by_id then GroupId else GroupIdx) number_char "stream group idx/ID" false ss chars
      else Break ss chars
    | "p"%char =>
      if is_colon (second chars) then
        if negb (is_all ss) then Fail combined
        else parse_list Program is_ascii_digit "program ID" false ss (sdrop 2 chars)
      else Break ss chars
    | "#"%char =>
      if negb (is_all ss) then Fail combined
      else parse_list StreamId number_char "stream ID" true ss rest
    | "i"%char =>
      if is_colon (second chars) then
        if negb (is_all ss) then Fail combined
        else parse_list StreamId number_char "stream ID" true ss (sdrop 2 chars)
      else Break ss chars
    | "m"%char =>
      if is_colon (second chars) then
        let '(key, chars) := take_while not_colon (sdrop 2 chars) in
        if is_empty key then Fail "Expected metadata key"
        else
          let '(val, chars) := take_while not_colon chars in
          Break (set_meta key (if is_empty val then meta_val ss else Some val) ss) chars
      else Break ss chars
    | "u"%char =>
      match second chars with
      | None => Break (set_usable ss) rest
      | Some c => if Ascii.eqb c ":" then Break (set_usable ss) rest else Break ss chars
      end
    | ":"%char => Continue ss rest
    | _ => Break ss chars
    end
  end.

Fixpoint parse_loop (fuel : nat) (ss : StreamSpecifier) (chars : string) : outcome (result (StreamSpecifier * string) string) :=
  match fuel with
  | O => Diverge
  | S fuel =>
    match chars with
    | "" => Ret (Ok (ss, ""))
    | _ =>
      match parse_step ss chars with
      | Continue ss chars => parse_loop fuel ss chars
      | Break ss chars => Ret (Ok (ss, chars))
      | Fail e => Ret (Err e)
      end
    end
  end.

Definition meaningless (ss : StreamSpecifier) : bool :=
  match media_type ss, idx ss, meta_key ss, disposition ss with
  | None, None, None, None => is_all ss && (list_id ss =? 0)%Z && negb (usable_only ss)
  | _, _, _, _ => false
  end.

(** Every round consumes a character, so the length and one are fuel enough. *)
Definition parse (spec : string) : outcome (result StreamSpecifier string) :=
  if is_empty spec then Ret (Err "Stream specifier cannot be empty")
  else
    r ← parse_loop (S (slen spec)) specifier_default spec;
    match r with
    | Err e => Ret (Err e)
    | Ok (ss, chars) =>
      if negb (is_empty chars) then
        Ret (Err ("Invalid stream specifier: unexpected characters after parsing '" ++ spec ++ "'"))
      else if meaningless ss then
        Ret (Err ("Invalid stream specifier: no valid components parsed from '" ++ spec ++ "'"))
      else Ret (Ok ss)
    end.

(** [strtol]: a number, and what follows it. *)
Definition strtol (input : string) : option (Z * string) :=
  let '(negative, digits) :=
    match input with
    | String "-" rest => (true, rest)
    | _ => (false, input)
    end in
  let '(number_str, remainder) := span is_ascii_digit digits in
  match parse_i64 number_str with
  | None => None
  | Some number => Some (if negative : bool then (- number)%Z else number, remainder)
  end.

(** ** Matching *)

Record AVCodecParameters := {
  codec_type : AVMediaType;
  sample_rate : Z;
  nb_channels : Z;
  format_is_none : bool;   (* [AV_SAMPLE_FMT_NONE] and [AV_PIX_FMT_NONE] are both -1 *)
  width : Z;
  height : Z
}.

Section Matching.
  (** [AVDictionary] and [av_dict_get(d, key, NULL, 0)]. *)
  Context {Dict : Type} (av_dict_get : Dict -> string -> option string).

Record AVStream := {
  st_id : Z;
  st_disposition : Z;
  st_codecpar : option AVCodecParameters;
  st_metadata : Dict
}.

Record AVProgram := { prog_id : Z; stream_index : list nat }.

(** A group points to streams; libavformat sets the index of a stream to its place
    in the context. *)
Record AVStreamGroup := { group_id : Z; group_streams : list (option nat) }.

Record AVFormatContext := {
  streams : list (option AVStream);
  programs : list (option AVProgram);
  stream_groups : list (option AVStreamGroup)
}.

Definition AV_DISPOSITION_ATTACHED_PIC : Z := 0x0400.

(** The checks on one candidate, up to the count; [None] is a panic of
    [CString::new] on a key with a zero byte. *)
Definition check_media (ss : StreamSpecifier) (c : AVStream) : bool :=
  match media_type ss, st_codecpar c with
  | Some m, Some par =>
    bool_decide (codec_type par = m) && negb (no_apic ss && negb (Z.land (st_disposition c) AV_DISPOSITION_ATTACHED_PIC =? 0)%Z)
  | _, _ => true
  end.

Definition check_meta (ss : StreamSpecifier) (c : AVStream) : outcome bool :=
  match meta_key ss with
  | None => Ret true
  | Some key =>
    if contains_char "000"%char key then Panic
    else match av_dict_get (st_metadata c) key with
         | None => Ret false
         | Some entry_val => Ret (match meta_val ss with None => true | Some v => (entry_val =? v)%string end)
         end
  end.

Definition usable (par : AVCodecParameters) : bool :=
  match codec_type par with
  | AVMEDIA_TYPE_AUDIO => (0 <? sample_rate par)%Z && (0 <? nb_channels par)%Z && negb (format_is_none par)
  | AVMEDIA_TYPE_VIDEO => (0 <? width par)%Z && (0 <? height par)%Z && negb (format_is_none par)
  | AVMEDIA_TYPE_UNKNOWN => false
  | _ => true
  end.

Definition check_usable (ss : StreamSpecifier) (c : AVStream) : bool :=
  match usable_only ss, st_codecpar c with
  | true, Some par => usable par
  | _, _ => true
  end.

Definition check_disposition (ss : StreamSpecifier) (c : AVStream) : bool :=
  match disposition ss with
  | None => true
  | Some d =>
    if (d =? "default")%string then negb (Z.land (st_disposition c) 0x0001 =? 0)%Z
    else if (d =? "forced")%string then negb (Z.land (st_disposition c) 0x0040 =? 0)%Z
    else false
  end.

(** The loop over the candidates' places, with the count of earlier matches. *)
Fixpoint match_loop (ss : StreamSpecifier) (f : AVFormatContext) (st : nat) (candidates : list (option nat)) (nb_matched : Z)
    : outcome bool :=
  match candidates with
  | [] => Ret false
  | None :: candidates => match_loop ss f st candidates nb_matched
  | Some i :: candidates =>
    match streams f !! i with
    | None | Some None => match_loop ss f st candidates nb_matched
    | Some (Some c) =>
      if negb (check_media ss c) then match_loop ss f st candidates nb_matched
      else
        m ← check_meta ss c;
        if negb (m && check_usable ss c && check_disposition ss c) then match_loop ss f st candidates nb_matched
        else if (st =? i)%nat then Ret (match idx ss with None => true | Some n => (n =? nb_matched)%Z end)
        else match_loop ss f st candidates (nb_matched + 1)
    end
  end.

(** The first entry that is no null pointer and satisfies [p]. *)
Fixpoint find_some {A} (p : A -> bool) (l : list (option A)) : option A :=
  match l with
  | [] => None
  | Some a :: l => if p a then Some a else find_some p l
  | None :: l => find_some p l
  end.

(** Which places are looked at, or [None] when nothing can match.  [st] is the
    place of the stream in question. *)
Definition candidates (ss : StreamSpecifier) (f : AVFormatContext) (st : nat) (s : AVStream) : option (list (option nat)) :=
  match list_type ss with
  | StreamId => if (st_id s =? as_i32 (list_id ss))%Z then Some [Some st] else None
  | All => Some (match idx ss with Some _ => Some <$> seq 0 (S st) | None => [Some st] end)
  | Program =>
    match find_some (fun p => (prog_id p =? as_i32 (list_id ss))%Z) (programs f) with
    | Some p => Some (Some <$> stream_index p)
    | None => None
    end
  | GroupId =>
    match find_some (fun g => (group_id g =? list_id ss)%Z) (stream_groups f) with
    | Some g => Some (group_streams g)
    | None => None
    end
  | GroupIdx =>
    if (0 <=? list_id ss)%Z && (list_id ss <? Z.of_nat (length (stream_groups f)))%Z then
      match stream_groups f !! Z.to_nat (list_id ss) with
      | Some (Some g) => Some (group_streams g)
      | _ => None
      end
    else None
  end.

Definition matches (ss : StreamSpecifier) (f : AVFormatContext) (st : nat) : outcome bool :=
  match streams f !! st with
  | None | Some None => Ret false
  | Some (Some s) =>
    match candidates ss f st s with
    | None => Ret false
    | Some l => match_loop ss f st l 0
    end
  end.

End Matching.
