(* ===== verification/StreamSpecSpec.v ===== *)
(** * What stream specifiers promise: parsing ends, what is written reads back,
    and a specifier selects the streams it describes. *)

From stdpp Require Import base list option strings.
From Stdlib Require Import ZArith Lia Ascii.
From S2P Require Import Prelude RustInt RustStr StreamSpec.

Local Open Scope Z_scope.
Local Open Scope string_scope.

(** ** The characters taken *)

Lemma slen_drop_cont s : (slen (drop_cont s) <= slen s)%nat.
Proof. induction s as [|c s IH]; [done|]. cbn [drop_cont]. destruct (cont (ascii_Z c)); cbn [slen]; lia. Qed.

Lemma slen_next_char s : (slen (next_char s) <= pred (slen s))%nat.
Proof. destruct s as [|c s]; [done|]. cbn [next_char slen pred]. apply slen_drop_cont. Qed.

Lemma slen_sdrop_le n s : (slen (sdrop n s) <= slen s - n)%nat.
Proof. revert s. induction n as [|n IH]; intros [|c s]; cbn [sdrop slen]; try lia. specialize (IH s). lia. Qed.

Lemma span_app p s : fst (span p s) ++ snd (span p s) = s.
Proof.
  induction s as [|c s IH]; [done|]. cbn [span]. destruct (p c); [|done]. destruct (span p s) as [a b].
  cbn [fst snd] in *. cbn. by rewrite IH.
Qed.

Lemma slen_take_while p s a b : take_while p s = (a, b) -> (slen b <= slen s)%nat.
Proof.
  unfold take_while. pose proof (f_equal slen (span_app p s)) as E. rewrite slen_app in E.
  destruct (span p s) as [x y]. cbn [fst snd] in E. intros [= <- <-]. pose proof (slen_next_char y). lia.
Qed.

Lemma parse_list_shorter t p ctx stop ss chars n ss' chars' :
  (slen chars < n)%nat -> parse_list t p ctx stop ss chars = Continue ss' chars' -> (slen chars' < n)%nat.
Proof.
  unfold parse_list. intros Hn. destruct (take_while p chars) as [a b] eqn:E. apply slen_take_while in E.
  destruct (parse_id_number a ctx); [|done]. destruct stop; [done|]. intros [= _ <-]. lia.
Qed.

Lemma parse_media_shorter m apic ss chars ss' chars' :
  (0 < slen chars)%nat -> parse_media m apic ss chars = Continue ss' chars' -> (slen chars' < slen chars)%nat.
Proof.
  unfold parse_media. intros Hc. destruct (none_or_not_alnum _); [|done]. destruct (media_type ss); [done|].
  intros [= _ <-]. pose proof (slen_next_char chars). lia.
Qed.

Lemma slen_skip_colon s : (slen (skip_colon s) <= slen s)%nat.
Proof. unfold skip_colon. destruct (strip_prefix ":" s) as [t|] eqn:E; [|done]. apply strip_prefix_Some in E as ->. rewrite slen_app. lia. Qed.

(** What each letter leads to: the match on the character, one case at a time. *)
Lemma parse_step_shorter ss chars ss' chars' :
  parse_step ss chars = Continue ss' chars' -> (slen chars' < slen chars)%nat.
Proof.
  destruct chars as [|ch rest]; [done|]. unfold parse_step.
  destruct (is_ascii_digit ch); [destruct (take_while _ _); by destruct (parse_i32 _)|].
  pose proof (slen_sdrop_le 2 (String ch rest)) as H2. cbn [slen] in H2.
  assert (0 < slen (String ch rest))%nat as Hpos by (cbn; lia).
  set (c := String ch rest) in *. assert (slen c = S (slen rest)) as Hc by done.
  destruct ch as [[][][][][][][][]]; try (intros [=]; fail); try (by apply parse_media_shorter).
  all: try (intros [= _ <-]; lia).
  all: try (destruct (negb (is_all ss)); [done|]; apply parse_list_shorter; lia).
  all: try (destruct (is_colon (second c)); [|done]).
  all: try (destruct (negb (is_all ss)); [done|]; apply parse_list_shorter; lia).
  - (* g *) destruct (negb (is_all ss)); [done|]. apply parse_list_shorter.
    pose proof (slen_skip_colon (sdrop 1 (sdrop 2 c))). pose proof (slen_sdrop_le 1 (sdrop 2 c)).
    destruct (starts_with "#" _ || _); lia.
  - (* m *) destruct (take_while _ _) as [key k]. destruct (is_empty key); [done|]. by destruct (take_while _ _).
  - (* u *) destruct (second c) as [x|]; [|done]. by destruct (Ascii.eqb x ":").
  - (* d *) destruct (strip_prefix "disp:" c) as [t|] eqn:Ep; [|by apply parse_media_shorter].
    apply strip_prefix_Some in Ep. assert (slen c = 5 + slen t)%nat as Hl by (by rewrite Ep, slen_app).
    destruct (disposition ss); [done|]. destruct (take_while disp_char t) as [disp k] eqn:Et. apply slen_take_while in Et.
    destruct (is_empty disp); [done|]. intros [= _ <-]. lia.
Qed.

Lemma parse_loop_ends fuel ss chars : (slen chars < fuel)%nat -> exists r, parse_loop fuel ss chars = Ret r.
Proof.
  revert ss chars. induction fuel as [|fuel IH]; intros ss chars Hf; [lia|]. cbn [parse_loop].
  destruct chars as [|c s]; [by eexists|]. destruct (parse_step ss (String c s)) as [ss' k|ss' k|e] eqn:E; [|by eexists..].
  apply IH. apply parse_step_shorter in E. lia.
Qed.

(** Enough fuel gives one result. *)
Lemma parse_loop_mono fuel fuel' ss chars r :
  parse_loop fuel ss chars = Ret r -> (fuel <= fuel')%nat -> parse_loop fuel' ss chars = Ret r.
Proof.
  revert fuel' ss chars. induction fuel as [|fuel IH]; intros [|fuel'] ss chars H Hle; try done; [lia|].
  cbn [parse_loop] in *. destruct chars as [|c s]; [done|].
  destruct (parse_step ss (String c s)) as [ss' k|ss' k|e]; [|done..]. apply IH; [done|lia].
Qed.

(** ** What is written reads back *)

(** Reading [s] in state [ss] to its end leads to [ss']. *)
Definition reads (ss : StreamSpecifier) (s : string) (ss' : StreamSpecifier) : Prop :=
  exists fuel, parse_loop fuel ss s = Ret (Ok (ss', "")).

Lemma reads_nil ss : reads ss "" ss.
Proof. by exists 1%nat. Qed.

Lemma reads_continue ss s ss1 k ss' : parse_step ss s = Continue ss1 k -> reads ss1 k ss' -> reads ss s ss'.
Proof.
  intros E [fuel H]. exists (S fuel). cbn [parse_loop]. destruct s as [|c s]; [done|]. by rewrite E.
Qed.

Lemma reads_break ss s ss' : parse_step ss s = Break ss' "" -> s <> "" -> reads ss s ss'.
Proof. intros E Hs. exists 1%nat. cbn [parse_loop]. destruct s as [|c s]; [done|]. by rewrite E. Qed.

Lemma reads_colon ss k ss' : reads ss k ss' -> reads ss (":" ++ k) ss'.
Proof. by apply reads_continue. Qed.

Lemma parse_reads s ss :
  s <> "" -> reads specifier_default s ss -> meaningless ss = false -> parse s = Ret (Ok ss).
Proof.
  intros Hs [fuel Hf] Hm. unfold parse. destruct (parse_loop_ends (S (slen s)) specifier_default s (le_n _)) as [r Hr].
  assert (is_empty s = false) as -> by (by destruct s). rewrite Hr. red_bind.
  pose proof (parse_loop_mono _ (max fuel (S (slen s))) _ _ _ Hf ltac:(lia)) as E1.
  pose proof (parse_loop_mono _ (max fuel (S (slen s))) _ _ _ Hr ltac:(lia)) as E2.
  assert (r = Ok (ss, "")) as -> by congruence. cbn [is_empty negb]. by rewrite Hm.
Qed.

(** A string that begins with a character, not in the middle of one. *)
Definition starts_char (s : string) : Prop := match s with String c _ => cont (ascii_Z c) = false | "" => True end.

Lemma drop_cont_start s : starts_char s -> drop_cont s = s.
Proof. destruct s as [|c s]; [done|]. cbn. by intros ->. Qed.

(** The separator before the parts that follow. *)
Definition tail (k : string) : string := if is_empty k then "" else ":" ++ k.

Lemma span_run p d k :
  forall_char p d = true -> match k with String c _ => p c = false | "" => True end -> span p (d ++ k) = (d, k).
Proof.
  intros Hd Hk. induction d as [|c d IH]; cbn [forall_char] in Hd.
  - change ("" ++ k) with k. destruct k as [|x k]; [done|]. cbn [span]. by rewrite Hk.
  - apply andb_true_iff in Hd as [Hc Hd]. change (String c d ++ k) with (String c (d ++ k)). cbn [span]. by rewrite Hc, (IH Hd).
Qed.

Lemma take_while_tail p d k :
  forall_char p d = true -> p ":"%char = false -> starts_char k -> take_while p (d ++ tail k) = (d, k).
Proof.
  intros Hd Hp Hk. unfold take_while, tail. destruct k as [|c k]; cbn [is_empty].
  - by rewrite (span_run p d "" Hd I).
  - rewrite (span_run p d (":" ++ String c k)) by done. change (":" ++ String c k) with (String ":" (String c k)). cbn [next_char]. by rewrite drop_cont_start.
Qed.

Lemma reads_tail ss k ss' : reads ss k ss' -> reads ss (tail k) ss'.
Proof. unfold tail. destruct k; cbn [is_empty]; [done|apply reads_colon]. Qed.

(** ** A printer, and the specifiers it is for *)

Definition media_letter (m : AVMediaType) (apic : bool) : string :=
  match m with
  | AVMEDIA_TYPE_VIDEO => if apic then "v" else "V"
  | AVMEDIA_TYPE_AUDIO => "a"
  | AVMEDIA_TYPE_SUBTITLE => "s"
  | AVMEDIA_TYPE_ATTACHMENT => "t"
  | AVMEDIA_TYPE_DATA => "d"
  | AVMEDIA_TYPE_UNKNOWN => ""
  end.

Definition show_end (ss : StreamSpecifier) : string :=
  match list_type ss, idx ss, meta_key ss with
  | StreamId, _, _ => "#" ++ dec (list_id ss)
  | _, Some n, _ => dec n
  | _, _, Some k => "m:" ++ k ++ tail (match meta_val ss with Some v => v | None => "" end)
  | _, _, None => if usable_only ss then "u" else ""
  end.

Definition show_media (ss : StreamSpecifier) (k : string) : string :=
  match media_type ss with Some m => media_letter m (negb (no_apic ss)) ++ tail k | None => k end.

Definition list_prefix (t : StreamListType) : string :=
  match t with Program => "p:" | GroupId => "g:#" | GroupIdx => "g:" | All | StreamId => "" end.

Definition show_list (ss : StreamSpecifier) (k : string) : string :=
  let p := list_prefix (list_type ss) in if is_empty p then k else p ++ dec (list_id ss) ++ tail k.

Definition show_disposition (ss : StreamSpecifier) (k : string) : string :=
  match disposition ss with Some d => "disp:" ++ d ++ tail k | None => k end.

(** [disp:default:p:1:v:0] *)
Definition show (ss : StreamSpecifier) : string := show_disposition ss (show_list ss (show_media ss (show_end ss))).

Definition word (p : ascii -> bool) (s : string) : bool := negb (is_empty s) && forall_char p s.

Definition b2n (b : bool) : nat := if b then 1 else 0.

Definition has {A} (o : option A) : bool := match o with Some _ => true | None => false end.

(** How many of the parts that end a specifier it has. *)
Definition ends (ss : StreamSpecifier) : nat :=
  b2n (match list_type ss with StreamId => true | _ => false end) + b2n (has (idx ss)) + b2n (has (meta_key ss))
  + b2n (usable_only ss).

Record well_formed (ss : StreamSpecifier) : Prop := {
  wf_media : match media_type ss with
             | Some AVMEDIA_TYPE_UNKNOWN => False
             | Some AVMEDIA_TYPE_VIDEO => True
             | _ => no_apic ss = false
             end;
  wf_disposition : forall d, disposition ss = Some d -> word disp_char d = true;
  wf_list : match list_type ss with All => list_id ss = 0 | _ => fits 63 (list_id ss) end;
  wf_idx : forall n, idx ss = Some n -> fits 31 n;
  wf_key : forall k, meta_key ss = Some k -> word not_colon k = true;
  wf_val : forall v, meta_val ss = Some v -> is_Some (meta_key ss) /\ word not_colon v = true /\ starts_char v;
  wf_end : (ends ss <= 1)%nat
}.

Lemma word_inv p s : word p s = true -> s <> "" /\ forall_char p s = true.
Proof. unfold word. rewrite andb_true_iff. intros [Hs Hp]. split; [|done]. by destruct s. Qed.

Lemma forall_char_impl (p q : ascii -> bool) s :
  (forall c, p c = true -> q c = true) -> forall_char p s = true -> forall_char q s = true.
Proof.
  intros Hpq. induction s as [|c s IH]; [done|]. cbn [forall_char]. rewrite !andb_true_iff. intros [? ?]. auto.
Qed.

Lemma is_ascii_digit_bounds c : is_ascii_digit c = true <-> 48 <= ascii_Z c <= 57.
Proof. unfold is_ascii_digit, in_range. rewrite andb_true_iff. lia. Qed.

Lemma digit_number c : is_ascii_digit c = true -> number_char c = true.
Proof. unfold number_char. by intros ->. Qed.

(** A decimal number is read as itself: it cannot start with [0x]. *)
Lemma parse_id_number_dec n ctx : fits 63 n -> parse_id_number (dec n) ctx = Ok n.
Proof.
  intros Hn. unfold parse_id_number, parse_i64. rewrite parse_digits_dec by (done || lia).
  pose proof (dec_digits n) as Hd. destruct (dec_not_empty n) as (c & s & E). rewrite E in *. cbn [is_empty].
  assert (starts_with "0x" (String c s) || starts_with "0X" (String c s) = false) as ->; [|done].
  cbn [forall_char] in Hd. apply andb_true_iff in Hd as [Hc Hs].
  apply not_true_iff_false. intros [(t & Ht)%starts_with_spec|(t & Ht)%starts_with_spec]%orb_true_iff;
    injection Ht as -> ->; done.
Qed.

Lemma starts_char_tail k : starts_char (tail k).
Proof. by destruct k. Qed.

Lemma starts_char_dec n k : starts_char (dec n ++ k).
Proof.
  pose proof (dec_digits n) as Hd. destruct (dec_not_empty n) as (c & s & E). rewrite E in *. cbn [forall_char] in Hd.
  apply andb_true_iff in Hd as [Hc%is_ascii_digit_bounds _]. change (cont (ascii_Z c) = false).
  unfold cont, in_range. apply andb_false_iff. lia.
Qed.

Lemma reads_disposition ss d k ss' :
  disposition ss = None -> word disp_char d = true -> starts_char k ->
  reads (set_disposition d ss) k ss' -> reads ss ("disp:" ++ d ++ tail k) ss'.
Proof.
  intros Hd [Hne Hw]%word_inv Hk. apply reads_continue.
  change ("disp:" ++ d ++ tail k) with (String "d" ("isp:" ++ d ++ tail k)). cbn [parse_step].
  change (is_ascii_digit "d"%char) with false. cbn iota.
  change (strip_prefix "disp:" (String "d" ("isp:" ++ d ++ tail k))) with (Some (d ++ tail k)). cbn iota.
  rewrite Hd, take_while_tail by done. by destruct d.
Qed.

Lemma reads_media ss m apic k ss' :
  media_type ss = None -> m <> AVMEDIA_TYPE_UNKNOWN -> starts_char k -> (m <> AVMEDIA_TYPE_VIDEO -> apic = true) ->
  reads (if apic then set_media m ss else set_no_apic (set_media m ss)) k ss' ->
  reads ss (media_letter m apic ++ tail k) ss'.
Proof.
  intros Hm Hu Hk Hv Hr.
  assert (reads (if apic then set_media m ss else set_no_apic (set_media m ss)) (tail k) ss') as Ht by (by apply reads_tail).
  revert Ht. apply reads_continue. pose proof (starts_char_tail k) as Hc.
  assert (forall c, none_or_not_alnum (second (String c (tail k))) = true) as Hn by (intros c; by destruct k).
  assert (forall c, parse_media m apic ss (String c (tail k))
    = Continue (if apic then set_media m ss else set_no_apic (set_media m ss)) (tail k)) as H.
  { intros c. unfold parse_media. rewrite Hn, Hm. cbn [next_char]. by rewrite drop_cont_start. }
  destruct m; try done; try (rewrite Hv in * by done); try exact (H _).
  - destruct apic; exact (H _).
  - cbn [media_letter]. change ("d" ++ tail k) with (String "d" (tail k)). cbn [parse_step].
    change (is_ascii_digit "d"%char) with false. cbn iota.
    assert (strip_prefix "disp:" (String "d" (tail k)) = None) as -> by (by destruct k). apply H.
Qed.

Lemma parse_list_dec t p ctx stop ss n k :
  fits 63 n -> (forall c, is_ascii_digit c = true -> p c = true) -> p ":"%char = false -> starts_char k ->
  parse_list t p ctx stop ss (dec n ++ tail k) = (if stop then Break (set_list t n ss) k else Continue (set_list t n ss) k).
Proof.
  intros Hn Hp Hc Hk. unfold parse_list.
  rewrite take_while_tail; [|by eapply forall_char_impl; [exact Hp|apply dec_digits]|done|done].
  by rewrite parse_id_number_dec.
Qed.

Lemma starts_group n k : starts_with "#" (dec n ++ tail k) || starts_with "i:" (dec n ++ tail k) = false.
Proof.
  pose proof (dec_digits n) as Hd. destruct (dec_not_empty n) as (c & s & E). rewrite E in *. cbn [forall_char] in Hd.
  apply andb_true_iff in Hd as [Hc _]. apply not_true_iff_false.
  intros [(t & Ht)%starts_with_spec|(t & Ht)%starts_with_spec]%orb_true_iff; injection Ht as -> _; done.
Qed.

Lemma reads_list ss k ss' t n :
  list_prefix t <> "" -> is_all ss = true -> starts_char k -> fits 63 n ->
  reads (set_list t n ss) k ss' -> reads ss (list_prefix t ++ dec n ++ tail k) ss'.
Proof.
  intros Ht Hall Hk Hn. apply reads_continue. destruct t; try done; cbn [list_prefix].
  - change (parse_step ss ("p:" ++ dec n ++ tail k)) with
      (if negb (is_all ss) then Fail combined else parse_list Program is_ascii_digit "program ID" false ss (dec n ++ tail k)).
    rewrite Hall. cbn [negb]. by rewrite parse_list_dec.
  - change (parse_step ss ("g:#" ++ dec n ++ tail k)) with
      (if negb (is_all ss) then Fail combined
       else parse_list GroupId number_char "stream group idx/ID" false ss (skip_colon (dec n ++ tail k))).
    rewrite Hall. cbn [negb].
    assert (skip_colon (dec n ++ tail k) = dec n ++ tail k) as ->.
    { pose proof (dec_digits n) as Hd. destruct (dec_not_empty n) as (c & s & E). rewrite E in *. cbn [forall_char] in Hd.
      apply andb_true_iff in Hd as [Hc _]. unfold skip_colon. change (String c s ++ tail k) with (String c (s ++ tail k)).
      destruct (strip_prefix ":" (String c (s ++ tail k))) as [u|] eqn:Es; [|done].
      apply strip_prefix_Some in Es. injection Es as -> _. done. }
    by rewrite parse_list_dec by (done || apply digit_number).
  - change (parse_step ss ("g:" ++ dec n ++ tail k)) with
      (if negb (is_all ss) then Fail combined
       else let c := dec n ++ tail k in
            let by_id := starts_with "#" c || starts_with "i:" c in
            parse_list (if by_id then GroupId else GroupIdx) number_char "stream group idx/ID" false ss
              (if by_id then skip_colon (sdrop 1 c) else c)).
    rewrite Hall. cbn [negb]. cbv zeta. rewrite starts_group. by rewrite parse_list_dec by (done || apply digit_number).
Qed.

(** The part that ends the specifier, after the others were read into [ss]. *)
Lemma reads_idx ss n : fits 31 n -> reads ss (dec n) (set_idx n ss).
Proof.
  intros Hn. pose proof (dec_digits n) as Hd. destruct (dec_not_empty n) as (c & s & E).
  apply reads_break; [|by rewrite E]. rewrite E in *. cbn [forall_char] in Hd. pose proof Hd as [Hc _]%andb_true_iff.
  unfold parse_step. rewrite Hc. rewrite <-(sapp_nil_r (String c s)). change "" with (tail "") at 1.
  rewrite take_while_tail by done. rewrite <-E. unfold parse_i32. by rewrite parse_digits_dec by (done || lia).
Qed.

Lemma reads_stream_id ss n : is_all ss = true -> fits 63 n -> reads ss ("#" ++ dec n) (set_list StreamId n ss).
Proof.
  intros Hall Hn. apply reads_break; [|done]. change (parse_step ss ("#" ++ dec n)) with
    (if negb (is_all ss) then Fail combined else parse_list StreamId number_char "stream ID" true ss (dec n)).
  rewrite Hall. cbn [negb]. rewrite <-(sapp_nil_r (dec n)). change "" with (tail "").
  by rewrite parse_list_dec by (done || apply digit_number).
Qed.

Lemma reads_meta ss k v :
  word not_colon k = true -> starts_char v -> forall_char not_colon v = true ->
  reads ss ("m:" ++ k ++ tail v) (set_meta k (if is_empty v then meta_val ss else Some v) ss).
Proof.
  intros [Hne Hk]%word_inv Hs Hv. apply reads_break; [|done].
  change (parse_step ss ("m:" ++ k ++ tail v)) with
    (let '(key, chars) := take_while not_colon (k ++ tail v) in
     if is_empty key then Fail "Expected metadata key"
     else let '(val, chars) := take_while not_colon chars in
          Break (set_meta key (if is_empty val then meta_val ss else Some val) ss) chars).
  rewrite take_while_tail by done. assert (is_empty k = false) as -> by (by destruct k).
  rewrite <-(sapp_nil_r v) at 1. change "" with (tail "") at 1. by rewrite take_while_tail.
Qed.

Lemma reads_usable ss : reads ss "u" (set_usable ss).
Proof. by apply reads_break. Qed.

(** [ss] without the part that ends it. *)
Definition before_end (ss : StreamSpecifier) : StreamSpecifier :=
  {| media_type := media_type ss; no_apic := no_apic ss; idx := None;
     list_type := if bool_decide (list_type ss = StreamId) then All else list_type ss;
     list_id := if bool_decide (list_type ss = StreamId) then 0 else list_id ss;
     meta_key := None; meta_val := None; usable_only := false; disposition := disposition ss |}.

Lemma reads_end ss : well_formed ss -> reads (before_end ss) (show_end ss) ss.
Proof.
  intros [_ _ Hl Hi Hk Hv He]. destruct ss as [m na i lt li mk mv u d]. unfold ends, is_all in *. cbn in *.
  destruct (decide (lt = StreamId)) as [->|Hne].
  { destruct i; [cbn in He; lia|]. destruct mk; [cbn in He; lia|]. destruct u; [cbn in He; lia|].
    destruct mv as [v|]; [by destruct (Hv v eq_refl) as [[? [=]] _]|]. match goal with |- reads ?e _ _ => by apply (reads_stream_id e li) end. }
  unfold before_end. cbn. rewrite bool_decide_false by done.
  assert (show_end {| media_type := m; no_apic := na; idx := i; list_type := lt; list_id := li; meta_key := mk;
      meta_val := mv; usable_only := u; disposition := d |}
    = match i, mk with
      | Some n, _ => dec n
      | None, Some k => "m:" ++ k ++ tail (match mv with Some v => v | None => "" end)
      | None, None => if u then "u" else ""
      end) as ->.
  { unfold show_end. cbn. by destruct lt. }
  destruct i as [n|].
  - destruct mk; [cbn in He; lia|]. destruct u; [cbn in He; lia|].
    destruct mv as [v|]; [by destruct (Hv v eq_refl) as [[? [=]] _]|]. match goal with |- reads ?e _ _ => apply (reads_idx e n); auto end.
  - destruct mk as [k|].
    + destruct u; [cbn in He; lia|]. destruct mv as [v|].
      * destruct (Hv v eq_refl) as (_ & [Hn Hw]%word_inv & Hs).
        pose proof (reads_meta {| media_type := m; no_apic := na; idx := None; list_type := lt; list_id := li; meta_key := None;
          meta_val := None; usable_only := false; disposition := d |} k v (Hk k eq_refl) Hs Hw) as H. by destruct v.
      * by apply (reads_meta {| media_type := m; no_apic := na; idx := None; list_type := lt; list_id := li; meta_key := None;
          meta_val := None; usable_only := false; disposition := d |} k "" (Hk k eq_refl)).
    + destruct mv as [v|]; [by destruct (Hv v eq_refl) as [[? [=]] _]|]. destruct u; [apply reads_usable|apply reads_nil].
Qed.

Lemma starts_char_end ss : starts_char (show_end ss).
Proof.
  unfold show_end. destruct (list_type ss); try done; destruct (idx ss) as [n|].
  all: try (rewrite <-(sapp_nil_r (dec n)); apply starts_char_dec).
  all: destruct (meta_key ss); [done|]; by destruct (usable_only ss).
Qed.

Lemma starts_char_media ss k : starts_char k -> starts_char (show_media ss k).
Proof.
  intros Hk. unfold show_media. destruct (media_type ss) as [[]|]; cbn [media_letter]; try done.
  - by destruct k.
  - by destruct (no_apic ss).
Qed.

Lemma starts_char_list ss k : starts_char k -> starts_char (show_list ss k).
Proof. intros Hk. unfold show_list. by destruct (list_type ss). Qed.

(** What is read before the part that ends it, in the order of [show]. *)
Definition with_disposition (ss : StreamSpecifier) : StreamSpecifier :=
  match disposition ss with Some d => set_disposition d specifier_default | None => specifier_default end.
Definition with_list (ss : StreamSpecifier) : StreamSpecifier :=
  if is_empty (list_prefix (list_type ss)) then with_disposition ss else set_list (list_type ss) (list_id ss) (with_disposition ss).
Definition with_media (ss : StreamSpecifier) : StreamSpecifier :=
  match media_type ss with
  | Some m => if negb (no_apic ss) then set_media m (with_list ss) else set_no_apic (set_media m (with_list ss))
  | None => with_list ss
  end.

Lemma with_media_before_end ss : well_formed ss -> with_media ss = before_end ss.
Proof.
  intros [Hm _ Hl _ _ _ _]. destruct ss as [m na i lt li mk mv u d].
  unfold with_media, with_list, with_disposition, before_end, is_all in *. cbn in *.
  destruct m as [[]|]; cbn in Hm; try done; try (subst na); destruct lt; cbn in Hl; try (subst li); destruct d; try done; by destruct na.
Qed.

Lemma reads_show_media ss k ss' :
  well_formed ss -> starts_char k -> reads (with_media ss) k ss' -> reads (with_list ss) (show_media ss k) ss'.
Proof.
  intros [Hm _ _ _ _ _ _] Hk Hr. unfold show_media, with_media in *. destruct (media_type ss) as [m|]; [|done].
  assert (media_type (with_list ss) = None).
  { unfold with_list, with_disposition. destruct (is_empty _), (disposition ss); done. }
  apply reads_media; try done; [by intros ->|]. intros Hv. destruct m; try done; by rewrite Hm.
Qed.

Lemma reads_show_list ss k ss' :
  well_formed ss -> starts_char k -> reads (with_list ss) k ss' -> reads (with_disposition ss) (show_list ss k) ss'.
Proof.
  intros [_ _ Hl _ _ _ _] Hk Hr. unfold show_list, with_list in *. cbv zeta.
  destruct (is_empty (list_prefix (list_type ss))) eqn:E; [done|]. apply reads_list; try done.
  - intros E'. by rewrite E' in E.
  - unfold with_disposition. by destruct (disposition ss).
  - unfold is_all in Hl. by destruct (list_type ss).
Qed.

Lemma reads_show ss : well_formed ss -> reads specifier_default (show ss) ss.
Proof.
  intros Hw. pose proof (starts_char_end ss) as He. pose proof (starts_char_media ss _ He) as Hm.
  pose proof (starts_char_list ss _ Hm) as Hl. pose proof (reads_end ss Hw) as Hr.
  rewrite <-with_media_before_end in Hr by done.
  apply (reads_show_media ss _ _ Hw He), (reads_show_list ss _ _ Hw Hm) in Hr.
  unfold show, show_disposition, with_disposition in *. pose proof (wf_disposition ss Hw) as Hd.
  destruct (disposition ss) as [d|]; [|done]. apply reads_disposition; auto.
Qed.

Lemma meaningless_not_shown ss : well_formed ss -> show ss = "" -> meaningless ss = true.
Proof.
  intros Hw. pose proof (reads_show ss Hw) as [[|fuel] H]; [done|]. intros E. rewrite E in H. cbn [parse_loop] in H.
  injection H as <-. done.
Qed.

(** A specifier that is written out reads back as itself: a disposition, a program
    or group, a media type, and an index, stream ID, metadata filter or [u] at the
    end. *)
Theorem shown_specifier_parses (ss : StreamSpecifier) :
  well_formed ss -> meaningless ss = false -> parse (show ss) = Ret (Ok ss).
Proof.
  intros Hw Hm. apply parse_reads; [|by apply reads_show|done]. intros E. by rewrite meaningless_not_shown in Hm.
Qed.

(** ** What the parser returns *)

(** The state of the loop: well-formed, and nothing that ends it was read. *)
Definition loop_inv (ss : StreamSpecifier) : Prop := well_formed ss /\ ends ss = 0%nat /\ meta_val ss = None.

Definition flow_ok (f : flow) : Prop :=
  match f with Continue ss _ => loop_inv ss | Break ss _ => well_formed ss | Fail _ => True end.

Lemma digits_value_nonneg s : forall acc v, 0 <= acc -> digits_value acc s = Some v -> 0 <= v.
Proof.
  induction s as [|c s IH]; intros acc v Ha; cbn [digits_value]; [by intros [= <-]|].
  destruct (is_ascii_digit c) eqn:Hc; [|done]. apply is_ascii_digit_bounds in Hc. apply IH. lia.
Qed.

Lemma hex_value_nonneg s : forall acc v, 0 <= acc -> hex_value acc s = Some v -> 0 <= v.
Proof.
  induction s as [|c s IH]; intros acc v Ha; cbn [hex_value]; [by intros [= <-]|].
  destruct (hex_digit c) as [d|] eqn:Hc; [|done]. apply IH. assert (0 <= d); [|lia].
  unfold hex_digit, is_ascii_digit, in_range in Hc. repeat case_match; simplify_eq;
    repeat match goal with H : _ && _ = true |- _ => apply andb_true_iff in H as [??] end; lia.
Qed.

Lemma parse_digits_fits w s n : parse_digits w s = Some n -> fits w n.
Proof.
  unfold parse_digits. destruct (is_empty s); [done|]. destruct (digits_value 0 s) as [v|] eqn:E; [|done].
  apply digits_value_nonneg in E; [|done]. destruct (v <? 2 ^ w)%Z eqn:Hv; [|done]. intros [= <-].
  split; [done|]. by apply Z.ltb_lt.
Qed.

Lemma parse_id_number_fits s ctx n : parse_id_number s ctx = Ok n -> fits 63 n.
Proof.
  unfold parse_id_number. destruct (is_empty s); [done|]. destruct (starts_with "0x" s || starts_with "0X" s).
  - unfold parse_hex_i64. destruct (is_empty (sdrop 2 s)); [done|].
    destruct (hex_value 0 (sdrop 2 s)) as [v|] eqn:E; [|done]. apply hex_value_nonneg in E; [|done].
    destruct (v <? 2 ^ 63)%Z eqn:Hv; [|done]. intros [= <-]. split; [done|]. by apply Z.ltb_lt.
  - destruct (parse_i64 s) as [v|] eqn:E; [|done]. intros [= <-]. by apply parse_digits_fits in E.
Qed.

Lemma span_fst p s : forall_char p (fst (span p s)) = true.
Proof.
  induction s as [|c s IH]; [done|]. cbn [span]. destruct (p c) eqn:Hc; [|done]. destruct (span p s) as [a b].
  cbn [fst forall_char] in *. by rewrite Hc.
Qed.

Lemma starts_char_drop s : starts_char (drop_cont s).
Proof. induction s as [|c s IH]; [done|]. cbn [drop_cont]. destruct (cont (ascii_Z c)) eqn:E; done. Qed.

Lemma starts_char_next s : starts_char (next_char s).
Proof. destruct s as [|c s]; [done|]. apply starts_char_drop. Qed.

Lemma take_while_spec p s a b : take_while p s = (a, b) -> forall_char p a = true /\ starts_char b.
Proof.
  unfold take_while. pose proof (span_fst p s) as H. destruct (span p s) as [x y]. intros [= <- <-].
  split; [done|apply starts_char_next].
Qed.

(** A prefix of a string that begins with a character begins with one. *)
Lemma starts_char_prefix a b : starts_char (a ++ b) -> starts_char a.
Proof. by destruct a. Qed.

Lemma word_ok p a : forall_char p a = true -> is_empty a = false -> word p a = true.
Proof. unfold word. by intros -> ->. Qed.

Lemma ends_all ss : ends ss = 0%nat -> idx ss = None /\ meta_key ss = None /\ usable_only ss = false /\ list_type ss <> StreamId.
Proof. unfold ends. destruct (list_type ss), (idx ss), (meta_key ss), (usable_only ss); cbn; by intros. Qed.

(** Assignments that keep the specifier well-formed. *)
Lemma wf_default : loop_inv specifier_default.
Proof. split; [|done]. split; cbn; by eauto. Qed.

Lemma wf_set_media m apic ss :
  loop_inv ss -> media_type ss = None -> m <> AVMEDIA_TYPE_UNKNOWN -> (m <> AVMEDIA_TYPE_VIDEO -> apic = true) ->
  loop_inv (if apic then set_media m ss else set_no_apic (set_media m ss)).
Proof.
  intros [[Hm Hd Hl Hi Hk Hv He] [H0 Hn]] Hmt Hu Ha. rewrite Hmt in Hm. destruct apic.
  - split; [|done]. split; cbn; try done. by destruct m.
  - split; [|done]. split; cbn; try done. destruct m; try done; by specialize (Ha ltac:(done)).
Qed.

Lemma wf_set_list t n ss :
  loop_inv ss -> is_all ss = true -> t <> All -> fits 63 n -> well_formed (set_list t n ss).
Proof.
  intros [[Hm Hd Hl Hi Hk Hv He] [H0 Hn]] Hall Ht Hf. destruct (ends_all ss H0) as (E1 & E2 & E3 & _).
  split; try done; cbn; [by destruct t|]. unfold ends. cbn. rewrite E1, E2, E3. by destruct t; cbn; lia.
Qed.

Lemma inv_set_list t n ss :
  loop_inv ss -> is_all ss = true -> t <> All -> t <> StreamId -> fits 63 n -> loop_inv (set_list t n ss).
Proof.
  intros Hi Hall Ht Hs Hf. split; [by apply wf_set_list|]. destruct Hi as [_ [H0 Hn]]. split; [|done].
  destruct (ends_all ss H0) as (E1 & E2 & E3 & _). unfold ends. cbn. rewrite E1, E2, E3. by destruct t.
Qed.

Lemma wf_set_idx n ss : loop_inv ss -> fits 31 n -> well_formed (set_idx n ss).
Proof.
  intros [[Hm Hd Hl Hi Hk Hv He] [H0 Hn]] Hf. destruct (ends_all ss H0) as (E1 & E2 & E3 & E4).
  split; try done; cbn; [by intros ? [= <-]|]. unfold ends. cbn. rewrite E2, E3. destruct (list_type ss); cbn; done || lia.
Qed.

Lemma wf_set_meta k v ss :
  loop_inv ss -> word not_colon k = true -> (forall w, v = Some w -> word not_colon w = true /\ starts_char w) ->
  well_formed (set_meta k v ss).
Proof.
  intros [[Hm Hd Hl Hi Hk Hv He] [H0 Hn]] Hw Hwv. destruct (ends_all ss H0) as (E1 & E2 & E3 & E4).
  split; try done; cbn; [by intros ? [= <-]|intros w Hx; by destruct (Hwv w Hx)|].
  unfold ends. cbn. rewrite E1, E3. destruct (list_type ss); cbn; done || lia.
Qed.

Lemma wf_set_usable ss : loop_inv ss -> well_formed (set_usable ss).
Proof.
  intros [[Hm Hd Hl Hi Hk Hv He] [H0 Hn]]. destruct (ends_all ss H0) as (E1 & E2 & E3 & E4).
  split; try done; cbn. unfold ends. cbn. rewrite E1, E2. destruct (list_type ss); cbn; done || lia.
Qed.

Lemma inv_set_disposition d ss : loop_inv ss -> word disp_char d = true -> loop_inv (set_disposition d ss).
Proof. intros [[Hm Hd Hl Hi Hk Hv He] [H0 Hn]] Hw. split; [|done]. split; try done. by intros ? [= <-]. Qed.

Lemma flow_parse_media m apic ss chars :
  loop_inv ss -> m <> AVMEDIA_TYPE_UNKNOWN -> (m <> AVMEDIA_TYPE_VIDEO -> apic = true) ->
  flow_ok (parse_media m apic ss chars).
Proof.
  intros Hi Hu Ha. unfold parse_media. destruct (none_or_not_alnum _); [|apply Hi].
  destruct (media_type ss) eqn:E; [done|]. by apply wf_set_media.
Qed.

Lemma flow_parse_list t p ctx stop ss chars :
  loop_inv ss -> is_all ss = true -> t <> All -> (t = StreamId -> stop = true) ->
  flow_ok (parse_list t p ctx stop ss chars).
Proof.
  intros Hi Hall Ht Hs. unfold parse_list. destruct (take_while p chars) as [a b].
  destruct (parse_id_number a ctx) as [n|e] eqn:E; [|done]. apply parse_id_number_fits in E. destruct stop.
  - by apply wf_set_list.
  - apply inv_set_list; try done. intros ->. by specialize (Hs eq_refl).
Qed.

Lemma flow_list_guard t p ctx stop ss chars :
  loop_inv ss -> t <> All -> (t = StreamId -> stop = true) ->
  flow_ok (if negb (is_all ss) then Fail combined else parse_list t p ctx stop ss chars).
Proof. intros Hi Ht Hs. destruct (is_all ss) eqn:E; cbn [negb]; [by apply flow_parse_list|done]. Qed.

Lemma parse_step_ok ss chars : loop_inv ss -> flow_ok (parse_step ss chars).
Proof.
  intros Hi. destruct chars as [|ch rest]; [apply Hi|]. unfold parse_step.
  destruct (is_ascii_digit ch).
  { destruct (take_while _ _) as [a b]. destruct (parse_i32 a) as [n|] eqn:E; [|done]. apply wf_set_idx; [done|].
    by apply parse_digits_fits in E. }
  set (c := String ch rest) in *. assert (flow_ok (Break ss c)) as Hb by apply Hi.
  destruct ch as [[][][][][][][][]]; try exact Hb; try exact Hi; try (by apply flow_parse_media).
  all: try (by apply flow_list_guard).
  all: try (destruct (is_colon (second c)); [|exact Hb]).
  all: try (by apply flow_list_guard).
  - (* g *) apply flow_list_guard; [done|by destruct (_ || _)..].
  - (* m *) destruct (take_while not_colon (sdrop 2 c)) as [key k] eqn:Ek. apply take_while_spec in Ek as [Ek Hk].
    destruct (is_empty key) eqn:En; [done|]. unfold take_while. pose proof (span_fst not_colon k) as Hs.
    pose proof (span_app not_colon k) as Happ. destruct (span not_colon k) as [val r]. cbn [fst snd] in *.
    apply wf_set_meta; [done|by apply word_ok|]. intros w Hw. destruct (is_empty val) eqn:Ev.
    + destruct Hi as (_ & _ & Hn). congruence.
    + injection Hw as <-. split; [by apply word_ok|]. rewrite <-Happ in Hk. by apply starts_char_prefix in Hk.
  - (* u *) destruct (second c) as [x|]; [destruct (Ascii.eqb x ":"); [|exact Hb]|]; by apply wf_set_usable.
  - (* d *) destruct (strip_prefix "disp:" c) as [t|]; [|by apply flow_parse_media].
    destruct (disposition ss); [done|]. destruct (take_while disp_char t) as [disp k] eqn:Et.
    apply take_while_spec in Et as [Et _]. destruct (is_empty disp) eqn:En; [done|].
    apply inv_set_disposition; [done|by apply word_ok].
Qed.

Lemma parse_loop_ok fuel ss chars ss' k :
  loop_inv ss -> parse_loop fuel ss chars = Ret (Ok (ss', k)) -> well_formed ss'.
Proof.
  revert ss chars. induction fuel as [|fuel IH]; intros ss chars Hi; [done|]. cbn [parse_loop].
  destruct chars as [|c s]; [intros [= <- <-]; apply Hi|].
  pose proof (parse_step_ok ss (String c s) Hi) as Hf. destruct (parse_step ss (String c s)) as [ss1 k1|ss1 k1|e]; [|..|done].
  - by apply IH.
  - by intros [= <- <-].
Qed.

(** Whatever the parser accepts is a well-formed specifier that says something:
    the numbers fit their types, names are not empty and hold no separator, and at
    most one of a stream ID, an index, a metadata filter and [u] ends it. *)
Theorem parsed_specifier_is_well_formed (spec : string) (ss : StreamSpecifier) :
  parse spec = Ret (Ok ss) -> well_formed ss /\ meaningless ss = false.
Proof.
  unfold parse. destruct (is_empty spec); [done|].
  destruct (parse_loop (S (slen spec)) specifier_default spec) as [[[ss' k]|e]| |] eqn:E; red_bind; try done.
  apply parse_loop_ok in E; [|apply wf_default]. destruct (negb (is_empty k)); [done|].
  destruct (meaningless ss') eqn:Em; [done|]. intros <-%Ret_inj%Ok_inj. done.
Qed.

(** The parser returns on every string, with a specifier or an error. *)
Theorem specifier_parser_returns (spec : string) : exists r, parse spec = Ret r.
Proof.
  unfold parse. destruct (is_empty spec); [by eexists|].
  destruct (parse_loop_ends (S (slen spec)) specifier_default spec (le_n _)) as [[[ss k]|e] ->]; red_bind; [|by eexists].
  destruct (negb (is_empty k)); [by eexists|]. destruct (meaningless ss); by eexists.
Qed.

(** ** Which streams a specifier selects *)

Section Selection.
  Context {Dict : Type} (av_dict_get : Dict -> string -> option string).
  Context (f : AVFormatContext (Dict:=Dict)).

(** A key that [CString::new] takes. *)
Definition c_key (ss : StreamSpecifier) : bool :=
  match meta_key ss with Some k => negb (contains_char "000"%char k) | None => true end.

(** The stream at a place has the attributes that the specifier asks for. *)
Definition has_attributes (ss : StreamSpecifier) (i : nat) : bool :=
  match streams f !! i with
  | Some (Some c) =>
    check_media ss c
    && match meta_key ss with
       | None => true
       | Some k => match av_dict_get (st_metadata c) k with
                   | None => false
                   | Some e => match meta_val ss with None => true | Some v => (e =? v)%string end
                   end
       end
    && check_usable ss c && check_disposition ss c
  | _ => false
  end.

(** The reference: among the places in [l] with the attributes, [st] comes first
    after as many others as the index says. *)
Definition selected (ss : StreamSpecifier) (l : list nat) (st : nat) : bool :=
  match list_find (eq st) l with
  | Some (n, _) =>
    has_attributes ss st
    && match idx ss with
       | None => true
       | Some k => (k =? Z.of_nat (length (filter (fun i => has_attributes ss i = true) (take n l))))%Z
       end
  | None => false
  end.

Lemma match_loop_step ss st i l n :
  c_key ss = true ->
  match_loop av_dict_get ss f st (Some i :: l) n =
    if has_attributes ss i then
      if (st =? i)%nat then Ret (match idx ss with None => true | Some k => (k =? n)%Z end)
      else match_loop av_dict_get ss f st l (n + 1)
    else match_loop av_dict_get ss f st l n.
Proof.
  intros Hk. cbn [match_loop]. unfold has_attributes, check_meta, c_key in *.
  destruct (streams f !! i) as [[c|]|]; try done. destruct (check_media ss c); cbn [negb andb]; [|done].
  destruct (meta_key ss) as [k|]; red_bind.
  - apply negb_true_iff in Hk. rewrite Hk. destruct (av_dict_get (st_metadata c) k); red_bind; [|done].
    rewrite <-!andb_assoc. by destruct (_ && _).
  - by destruct (_ && _).
Qed.

Lemma match_loop_without ss st l n :
  c_key ss = true -> has_attributes ss st = false -> match_loop av_dict_get ss f st (Some <$> l) n = Ret false.
Proof.
  intros Hk Hf. revert n. induction l as [|i l IH]; intros n; [done|]. cbn [fmap list_fmap]. rewrite match_loop_step by done.
  destruct (has_attributes ss i) eqn:Ei; [|apply IH]. destruct (Nat.eqb_spec st i) as [->|]; [congruence|apply IH].
Qed.

Lemma match_loop_selected ss st l (n : nat) :
  c_key ss = true -> has_attributes ss st = true ->
  match_loop av_dict_get ss f st (Some <$> l) (Z.of_nat n) =
    Ret (match list_find (eq st) l with
         | Some (j, _) =>
           match idx ss with
           | None => true
           | Some k => (k =? Z.of_nat (n + length (filter (fun i => has_attributes ss i = true) (take j l))))%Z
           end
         | None => false
         end).
Proof.
  intros Hk Ha. revert n. induction l as [|i l IH]; intros n; [done|]. cbn [fmap list_fmap]. rewrite match_loop_step by done.
  cbn [list_find]. destruct (Nat.eqb_spec st i) as [->|Hne].
  - rewrite Ha, decide_True by done. cbn. by rewrite Nat.add_0_r.
  - rewrite decide_False by done. destruct (has_attributes ss i) eqn:Ei.
    + replace (Z.of_nat n + 1)%Z with (Z.of_nat (S n)) by lia. rewrite IH.
      destruct (list_find (eq st) l) as [[j x]|]; [|done]. unfold fmap, option_fmap, option_map, prod_map. cbn iota beta. rewrite firstn_cons, filter_cons_True by done. cbn [Datatypes.length].
      by rewrite Nat.add_succ_r.
    + rewrite IH. destruct (list_find (eq st) l) as [[j x]|]; [|done]. unfold fmap, option_fmap, option_map, prod_map. cbn iota beta. by rewrite firstn_cons, filter_cons_False by congruence.
Qed.

(** A specifier of a program selects among the program's streams. *)
Lemma program_specifier_selects ss st p :
  list_type ss = Program -> c_key ss = true ->
  find_some (fun p => (prog_id p =? as_i32 (list_id ss))%Z) (programs f) = Some p ->
  matches av_dict_get ss f st = Ret (selected ss (stream_index p) st).
Proof.
  intros Hl Hk Hp. unfold matches, candidates, selected. rewrite Hl, Hp.
  destruct (streams f !! st) as [[s|]|] eqn:Es.
  2,3: unfold has_attributes at 1; rewrite Es; by destruct (list_find _ _) as [[??]|].
  destruct (has_attributes ss st) eqn:Ha.
  - by rewrite (match_loop_selected ss st _ 0).
  - rewrite match_loop_without by done. by destruct (list_find _ _) as [[??]|].
Qed.

(** The places a specifier of the whole file looks at when it has an index. *)
Lemma list_find_seq (st : nat) : list_find (eq st) (seq 0 (S st)) = Some (st, st).
Proof.
  apply list_find_Some. split; [apply lookup_seq; lia|]. split; [done|]. intros j y Hy Hj.
  apply lookup_seq in Hy as [-> _]. lia.
Qed.

Lemma take_seq' (st : nat) : take st (seq 0 (S st)) = seq 0 st.
Proof. rewrite seq_S. cbn. rewrite take_app_le by (by rewrite length_seq). apply take_ge. by rewrite length_seq. Qed.

(** A specifier of the whole file selects a stream exactly when the stream has the
    attributes it asks for and, where it has an index, as many streams with these
    attributes come before. *)
Theorem specifier_selects_the_nth (ss : StreamSpecifier) (st : nat) :
  list_type ss = All -> c_key ss = true ->
  matches av_dict_get ss f st =
    Ret (has_attributes ss st
         && match idx ss with
            | None => true
            | Some k => (k =? Z.of_nat (length (filter (fun i => has_attributes ss i = true) (seq 0 st))))%Z
            end).
Proof.
  intros Hl Hk. unfold matches, candidates. rewrite Hl.
  destruct (streams f !! st) as [[s|]|] eqn:Es; [|by unfold has_attributes; rewrite Es..].
  destruct (has_attributes ss st) eqn:Ha; cbn [andb]; destruct (idx ss) as [k|] eqn:Ek.
  - pose proof (match_loop_selected ss st (seq 0 (S st)) 0 Hk Ha) as H. rewrite list_find_seq, Ek, take_seq' in H. exact H.
  - pose proof (match_loop_selected ss st [st] 0 Hk Ha) as H. cbn [list_find] in H. rewrite decide_True, Ek in H by done. exact H.
  - by apply (match_loop_without ss st (seq 0 (S st)) 0).
  - by apply (match_loop_without ss st [st] 0).
Qed.

(** For an index, at most one stream of the file is selected. *)
Theorem indexed_specifier_is_unique (ss : StreamSpecifier) (k : Z) (i j : nat) :
  list_type ss = All -> c_key ss = true -> idx ss = Some k ->
  matches av_dict_get ss f i = Ret true -> matches av_dict_get ss f j = Ret true -> i = j.
Proof.
  intros Hl Hc Hk. rewrite !specifier_selects_the_nth, !Hk by done.
  set (p := fun i => has_attributes ss i = true).
  assert (forall a b, (a < b)%nat -> has_attributes ss a = true ->
    (length (filter p (seq 0 a)) < length (filter p (seq 0 b)))%nat) as Hlt.
  { intros a b Hab Ha. replace b with (a + S (b - S a))%nat by lia. rewrite seq_app, filter_app, length_app. cbn [seq].
    rewrite filter_cons_True by done. cbn [Datatypes.length]. lia. }
  intros [= [Hi Hki%Z.eqb_eq]%andb_true_iff] [= [Hj Hkj%Z.eqb_eq]%andb_true_iff].
  destruct (lt_eq_lt_dec i j) as [[H|H]|H]; [|done|]; eapply Hlt in H; eauto; lia.
Qed.

End Selection.

(** ** The code on concrete specifiers *)

(** The character after an index is taken with it: [0a] is read as [0], although
    the parser checks that nothing is left. *)
Lemma character_after_index_is_swallowed (n : Z) (c : ascii) :
  fits 31 n -> is_ascii_digit c = false -> parse (dec n ++ String c "") = Ret (Ok (set_idx n specifier_default)).
Proof.
  intros Hn Hc. pose proof (dec_digits n) as Hd. destruct (dec_not_empty n) as (x & s & E).
  apply parse_reads; [by rewrite E| |done]. apply reads_break; [|by rewrite E].
  assert (is_ascii_digit x = true) as Hx by (rewrite E in Hd; cbn [forall_char] in Hd; by apply andb_true_iff in Hd as [? _]).
  assert (take_while is_ascii_digit (dec n ++ String c "") = (dec n, "")) as Ht.
  { unfold take_while. by rewrite (span_run is_ascii_digit (dec n) (String c "")). }
  rewrite E in Ht |- *. change (String x s ++ String c "") with (String x (s ++ String c "")) in *.
  unfold parse_step. rewrite Hx, Ht, <-E. unfold parse_i32. by rewrite parse_digits_dec by (done || lia).
Qed.

(** A program number in hexadecimal is read as program 0 and an index. *)
Example hexadecimal_program :
  parse "p:0x10" = Ret (Ok (set_idx 10 (set_list Program 0 specifier_default))).
Proof. by vm_compute. Qed.

(** A stream ID outside 32 bits is compared by its low bits. *)
Example wide_stream_id : as_i32 (2 ^ 32 + 1) = 1.
Proof. by vm_compute. Qed.

Definition example_specifier : StreamSpecifier :=
  set_idx 1 (set_media AVMEDIA_TYPE_AUDIO (set_list Program 5 (set_disposition "default" specifier_default))).

Example example_shown : show example_specifier = "disp:default:p:5:a:1".
Proof. by vm_compute. Qed.

Lemma example_well_formed : well_formed example_specifier.
Proof. split; cbn; try done; by intros ? [= <-]. Qed.

Lemma shown_specifier_parses_witness :
  well_formed example_specifier /\ parse "disp:default:p:5:a:1" = Ret (Ok example_specifier).
Proof.
  split; [exact example_well_formed|]. rewrite <-example_shown.
  exact (shown_specifier_parses example_specifier example_well_formed eq_refl).
Defined.

Lemma example_parses : parse "m:language:eng" = Ret (Ok (set_meta "language" (Some "eng") specifier_default)).
Proof. by vm_compute. Qed.

Lemma parsed_specifier_is_well_formed_witness :
  parse "m:language:eng" = Ret (Ok (set_meta "language" (Some "eng") specifier_default)) /\
  well_formed (set_meta "language" (Some "eng") specifier_default).
Proof.
  split; [exact example_parses|]. exact (proj1 (parsed_specifier_is_well_formed _ _ example_parses)).
Defined.

(** A video stream and two audio streams, the first in English. *)
Definition example_par (m : AVMediaType) : AVCodecParameters :=
  {| codec_type := m; sample_rate := 48000; nb_channels := 2; format_is_none := false; width := 1920; height := 1080 |}.

Definition example_stream (m : AVMediaType) (language : string) : AVStream (Dict := list (string * string)) :=
  {| st_id := 0; st_disposition := 1; st_codecpar := Some (example_par m); st_metadata := [("language", language)] |}.

Definition example_file : AVFormatContext (Dict := list (string * string)) :=
  {| streams := [Some (example_stream AVMEDIA_TYPE_VIDEO "und"); Some (example_stream AVMEDIA_TYPE_AUDIO "eng");
                 Some (example_stream AVMEDIA_TYPE_AUDIO "deu")];
     programs := []; stream_groups := [] |}.

(** [av_dict_get] of a dictionary kept as a list. *)
Fixpoint example_get (d : list (string * string)) (k : string) : option string :=
  match d with (k', v) :: d => if (k' =? k)%string then Some v else example_get d k | [] => None end.

Definition second_audio : StreamSpecifier := set_idx 1 (set_media AVMEDIA_TYPE_AUDIO specifier_default).

Lemma specifier_selects_the_nth_witness :
  parse "a:1" = Ret (Ok second_audio) /\ matches example_get second_audio example_file 2 = Ret true /\
  matches example_get second_audio example_file 1 = Ret false.
Proof.
  split; [by vm_compute|]. split.
  - rewrite (specifier_selects_the_nth example_get example_file second_audio 2 eq_refl eq_refl). reflexivity.
  - rewrite (specifier_selects_the_nth example_get example_file second_audio 1 eq_refl eq_refl). reflexivity.
Defined.

Lemma indexed_specifier_is_unique_witness :
  matches example_get second_audio example_file 2 = Ret true /\
  (forall i, matches example_get second_audio example_file i = Ret true -> i = 2%nat).
Proof.
  split; [reflexivity|]. intros i Hi.
  exact (indexed_specifier_is_unique example_get example_file second_audio 1 i 2 eq_refl eq_refl eq_refl Hi eq_refl).
Defined.
