(* ===== verification/Flv.v ===== *)
(** * FLV streams ([ez-ffmpeg/src/flv]) and the write callback that feeds them to
    the RTMP server ([rtmp/embed_rtmp_server.rs]).

    [FlvBuffer] keeps the bytes that the muxer wrote in a ring buffer whose size is
    a power of two, and takes tags from it.  A position is a [nat]: a [Vec] holds
    less than [2^63] bytes, so the sums of positions do not reach the width of
    [usize]; the differences that the code lets wrap are computed on 64 bits.
    [copy_nonoverlapping] outside of a buffer is undefined behaviour, here [Panic].
    Serialization and the channel are the [rml_rtmp] and [crossbeam] crates. *)

From stdpp Require Import base list option.
From Stdlib Require Import ZArith Lia.
From S2P Require Import Prelude RustInt.

Local Open Scope Z_scope.

Definition PREVIOUS_TAG_SIZE_LENGTH : nat := 4.
Definition FLV_HEADER_LENGTH : nat := 9.
Definition FLV_TAG_HEADER_LENGTH : nat := 11.

(** ** Headers and tags *)

Record FlvHeader := { flags : Z }.

Definition FlvHeader_as_bytes (h : FlvHeader) : list Z :=
  [0x46; 0x4C; 0x56; 1; flags h; 0x00; 0x00; 0x00; 0x09].

Definition header_as_bytes_with_previous_tag_size (h : FlvHeader) : list Z :=
  FlvHeader_as_bytes h ++ replicate PREVIOUS_TAG_SIZE_LENGTH 0.

Definition has_audio (h : FlvHeader) : bool := negb (Z.land (flags h) 0x04 =? 0).
Definition has_video (h : FlvHeader) : bool := negb (Z.land (flags h) 0x01 =? 0).

Record FlvTagHeader := {
  tag_type : Z;
  data_size : Z;
  timestamp : Z;
  timestamp_ext : Z;
  stream_id : Z
}.

(** The low three bytes of a [u32]. *)
Definition be24 (x : Z) : list Z := drop 1 (to_be_bytes 4 x).

Definition FlvTagHeader_as_bytes (h : FlvTagHeader) : list Z :=
  [tag_type h] ++ be24 (data_size h) ++ be24 (timestamp h) ++ [timestamp_ext h] ++ be24 (stream_id h).

Record FlvTag := { header : FlvTagHeader; data : list Z; previous_tag_size : Z }.

Definition tag_as_bytes_with_previous_tag_size (t : FlvTag) : list Z :=
  FlvTagHeader_as_bytes (header t) ++ data t ++ to_be_bytes 4 (previous_tag_size t).

Definition is_audio (t : FlvTag) : bool := tag_type (header t) =? 0x08.
Definition is_video (t : FlvTag) : bool := tag_type (header t) =? 0x09.
Definition is_script_data (t : FlvTag) : bool := tag_type (header t) =? 0x12.

Definition is_video_sequence_header (t : FlvTag) : bool :=
  if negb (is_video t) then false else match data t with a :: b :: _ => (a =? 0x17) && (b =? 0x00) | _ => false end.
Definition is_audio_sequence_header (t : FlvTag) : bool :=
  if negb (is_audio t) then false else match data t with a :: b :: _ => (a =? 0xaf) && (b =? 0x00) | _ => false end.
Definition is_video_keyframe (t : FlvTag) : bool :=
  if negb (is_video t) then false else match data t with a :: b :: _ => (a =? 0x17) && negb (b =? 0x00) | _ => false end.

(** ** Memory *)

Definition copy_nonoverlapping (src : list Z) (s : nat) (dst : list Z) (d n : nat) : outcome (list Z) :=
  if decide (s + n <= length src /\ d + n <= length dst)%nat
  then Ret (take d dst ++ take n (drop s src) ++ drop (d + n) dst) else Panic.

(** [dst[..n].copy_from_slice(src)] *)
Definition copy_from_slice (dst : list Z) (n : nat) (src : list Z) : outcome (list Z) :=
  if decide (n <= length dst /\ length src = n)%nat then Ret (src ++ drop n dst) else Panic.

(** [vec![0; n]] panics for more than [isize::MAX] bytes. *)
Definition vec_zero (n : Z) : outcome (list Z) := if n <? 2 ^ 63 then Ret (replicate (Z.to_nat n) 0) else Panic.

Definition is_power_of_two (n : Z) : bool := (0 <? n) && (Z.land n (n - 1) =? 0).

Definition checked_next_power_of_two (n : Z) : option Z :=
  let p := 2 ^ Z.log2_up n in if p <? 2 ^ 64 then Some p else None.

(** ** The ring buffer *)

Record FlvBuffer := {
  buffer : list Z;
  head : nat;
  tail : nat;
  flv_header : option FlvHeader;
  header_parsed : bool;
  initial_capacity : Z
}.

Definition with_capacity (capacity : Z) : outcome FlvBuffer :=
  let capacity := if is_power_of_two capacity then capacity else default (umax 64) (checked_next_power_of_two capacity) in
  buffer ← vec_zero capacity;
  Ret {| buffer := buffer; head := 0; tail := 0; flv_header := None; header_parsed := false; initial_capacity := capacity |}.

Definition FlvBuffer_new : outcome FlvBuffer := with_capacity (1024 * 1024).

Definition cap (b : FlvBuffer) : nat := length (buffer b).

Definition len (b : FlvBuffer) : nat :=
  Z.to_nat (Z.land (wrapping_sub 64 (Z.of_nat (tail b)) (Z.of_nat (head b))) (Z.of_nat (cap b) - 1)).

Definition available_space (b : FlvBuffer) : nat :=
  Z.to_nat (Z.land (wrapping_sub 64 (wrapping_sub 64 (Z.of_nat (head b)) (Z.of_nat (tail b))) 1) (Z.of_nat (cap b) - 1)).

Definition set_ring (buf : list Z) (h t : nat) (b : FlvBuffer) : FlvBuffer :=
  {| buffer := buf; head := h; tail := t; flv_header := flv_header b; header_parsed := header_parsed b;
     initial_capacity := initial_capacity b |}.

Definition resize_buffer (new_capacity : Z) (b : FlvBuffer) : outcome FlvBuffer :=
  let new_capacity := Z.max (default (umax 64) (checked_next_power_of_two new_capacity)) (initial_capacity b) in
  new_buffer ← vec_zero new_capacity;
  let current_len := len b in
  new_buffer ←
    (if (head b <? tail b)%nat then
       part ← slice (buffer b) (head b) (tail b);
       new_buffer ← copy_from_slice new_buffer current_len part;
       copy_nonoverlapping (buffer b) (head b) new_buffer 0 current_len
     else if (0 <? current_len)%nat then
       let first_part := (cap b - head b)%nat in
       new_buffer ← copy_nonoverlapping (buffer b) (head b) new_buffer 0 first_part;
       copy_nonoverlapping (buffer b) 0 new_buffer first_part (current_len - first_part)
     else Ret new_buffer);
  Ret (set_ring new_buffer 0 current_len b).

(** The copies of [write_data], once there is room. *)
Definition write_ring (d : list Z) (b : FlvBuffer) : outcome FlvBuffer :=
  let data_len := length d in
  b ←
    (if (head b <=? tail b)%nat then
       let available_at_end := (cap b - tail b)%nat in
       if (data_len <=? available_at_end)%nat then
         buf ← copy_nonoverlapping d 0 (buffer b) (tail b) data_len;
         Ret (set_ring buf (head b) (tail b + data_len) b)
       else
         buf ← (if (0 <? available_at_end)%nat then copy_nonoverlapping d 0 (buffer b) (tail b) available_at_end
                else Ret (buffer b));
         buf ← copy_nonoverlapping d available_at_end buf 0 (data_len - available_at_end);
         Ret (set_ring buf (head b) (data_len - available_at_end) b)
     else
       buf ← copy_nonoverlapping d 0 (buffer b) (tail b) data_len;
       Ret (set_ring buf (head b) (tail b + data_len) b));
  Ret (if (tail b =? cap b)%nat then set_ring (buffer b) (head b) 0 b else b).

Definition write_data (d : list Z) (b : FlvBuffer) : outcome FlvBuffer :=
  if (length d =? 0)%nat then Ret b
  else
    b ← (if (available_space b <? length d)%nat
         then resize_buffer (Z.of_nat (len b) + Z.of_nat (length d) + 1) b else Ret b);
    write_ring d b.

Definition set_head (h : nat) (b : FlvBuffer) : FlvBuffer := set_ring (buffer b) h (tail b) b.

Definition skip_previous_tag_size (b : FlvBuffer) : FlvBuffer :=
  let h := (head b + PREVIOUS_TAG_SIZE_LENGTH)%nat in
  set_head (if (cap b <=? h)%nat then (h - cap b)%nat else h) b.

(** [read_data]: [n] bytes from [start], in at most two copies. *)
Definition read_data (b : FlvBuffer) (start n : nat) : outcome (list Z) :=
  let buffer_size := cap b in
  let out := replicate n 0 in
  if (buffer_size =? 0)%nat || (n =? 0)%nat then Ret out
  else
    let normalized_start := Nat.modulo start buffer_size in
    let safe_len := Nat.min n buffer_size in
    let '(first_len, second_len) :=
      if (normalized_start + safe_len <=? buffer_size)%nat then (safe_len, O)
      else ((buffer_size - normalized_start)%nat, (safe_len - (buffer_size - normalized_start))%nat) in
    out ← copy_nonoverlapping (buffer b) normalized_start out 0 first_len;
    if (0 <? second_len)%nat then copy_nonoverlapping (buffer b) 0 out first_len second_len else Ret out.

(** [CursorRing]: one [read] into a buffer of [n] bytes; the new position. *)
Definition ring_read (buf : list Z) (position n : nat) : outcome (list Z * nat) :=
  let buffer_end := length buf in
  let out := replicate n 0 in
  '(out, position, bytes_read) ←
    (if (buffer_end <? position + n)%nat then
       if (buffer_end <? position)%nat then Panic
       else
         let first_part_len := (buffer_end - position)%nat in
         out ← copy_nonoverlapping buf position out 0 first_part_len;
         Ret (out, O, first_part_len)
     else Ret (out, position, O));
  let remaining_len := (n - bytes_read)%nat in
  out ← (if (0 <? remaining_len)%nat then copy_nonoverlapping buf position out bytes_read remaining_len else Ret out);
  let position := (position + remaining_len)%nat in
  Ret (out, if (position =? buffer_end)%nat then O else position).

(** ** The file header *)

Definition header_done (h : option FlvHeader) (b : FlvBuffer) : FlvBuffer :=
  {| buffer := buffer b; head := head b; tail := tail b; flv_header := h; header_parsed := true;
     initial_capacity := initial_capacity b |}.

(** What the nine bytes say: the flags of a valid header. *)
Definition valid_header (l : list Z) : option Z :=
  let flags := from_be_bytes (take 1 (drop 4 l)) in
  if negb (from_be_bytes (take 3 l) =? 0x464C56) then None
  else if negb (from_be_bytes (take 1 (drop 3 l)) =? 1) then None
  else if negb ((flags =? 0x01) || (flags =? 0x04) || (flags =? 0x05)) then None
  else if negb (from_be_bytes (take 4 (drop 5 l)) =? 9) then None
  else Some flags.

Definition parse_flv_header (b : FlvBuffer) : outcome FlvBuffer :=
  if header_parsed b then Ret b
  else if (len b <? FLV_HEADER_LENGTH)%nat then Ret b
  else
    temp_buffer ← read_data b (head b) FLV_HEADER_LENGTH;
    match valid_header temp_buffer with
    | None => Ret (header_done (flv_header b) (skip_previous_tag_size b))
    | Some flags =>
      Ret (skip_previous_tag_size (set_head (head b + FLV_HEADER_LENGTH) (header_done (Some {| flags := flags |}) b)))
    end.

(** ** Tags *)

(** [while self.head >= self.buffer.len()] *)
Fixpoint wrap_head (fuel h size : nat) : outcome nat :=
  match fuel with
  | O => Diverge
  | S fuel => if (size <=? h)%nat then wrap_head fuel (h - size) size else Ret h
  end.

(** A big-endian number of [n] bytes from a cursor. *)
Definition read_be (buf : list Z) (position n : nat) : outcome (Z * nat) :=
  '(l, position) ← ring_read buf position n; Ret (from_be_bytes l, position).

Definition get_flv_tag (b : FlvBuffer) : outcome (option FlvTag * FlvBuffer) :=
  if (len b <? FLV_TAG_HEADER_LENGTH)%nat then Ret (None, b)
  else
    b ← parse_flv_header b;
    '(tag_type, pos) ← read_be (buffer b) (head b) 1;
    '(data_size, pos) ← read_be (buffer b) pos 3;
    '(timestamp, pos) ← read_be (buffer b) pos 3;
    '(timestamp_ext, pos) ← read_be (buffer b) pos 1;
    '(_stream_id, pos) ← read_be (buffer b) pos 3;
    let size := Z.to_nat data_size in
    let total_tag_size := (FLV_TAG_HEADER_LENGTH + size + PREVIOUS_TAG_SIZE_LENGTH)%nat in
    if (len b <? total_tag_size)%nat then Ret (None, b)
    else
      data ← read_data b (head b + FLV_TAG_HEADER_LENGTH) size;
      let flv_tag :=
        {| header := {| tag_type := tag_type; data_size := data_size; timestamp := timestamp; timestamp_ext := timestamp_ext;
                        stream_id := 0 |};
           data := data;
           previous_tag_size := wrap 32 (Z.of_nat (FLV_TAG_HEADER_LENGTH + size)) |} in
      h ← wrap_head (S (head b + total_tag_size)) (head b + total_tag_size) (cap b);
      Ret (Some flv_tag, set_head h b).

(** ** The write callback of [create_rtmp_input]: the tag that it sends. *)

Definition set_stream_id (n : Z) (t : FlvTag) : FlvTag :=
  {| header := {| tag_type := tag_type (header t); data_size := data_size (header t); timestamp := timestamp (header t);
                  timestamp_ext := timestamp_ext (header t); stream_id := n |};
     data := data t; previous_tag_size := previous_tag_size t |}.

Definition write_callback (buf : list Z) (b : FlvBuffer) : outcome (option FlvTag * FlvBuffer) :=
  b ← write_data buf b;
  r ← get_flv_tag b;
  Ret (option_map (set_stream_id 1) (fst r), snd r).

(** The calls of the muxer, one after the other, and the tags that are sent. *)
Fixpoint callbacks (chunks : list (list Z)) (b : FlvBuffer) : outcome (list FlvTag * FlvBuffer) :=
  match chunks with
  | [] => Ret ([], b)
  | buf :: chunks =>
    r ← write_callback buf b;
    rs ← callbacks chunks (snd r);
    Ret (match fst r with Some t => t :: fst rs | None => fst rs end, snd rs)
  end.
