(* ===== verification/FlvSpec.v ===== *)
(** * What the FLV buffer promises: it is a queue of bytes, its copies stay inside
    the buffer, and the tags written to it come out again, however the muxer cuts
    them. *)

From stdpp Require Import base list option.
From Stdlib Require Import ZArith Lia.
From S2P Require Import Prelude RustInt Flv.

Local Open Scope Z_scope.

(** ** Windows of a ring *)

(** [n] bytes of a ring from position [h] on. *)
Definition window (buf : list Z) (h n : nat) : list Z := (fun i => nth (Nat.modulo (h + i) (length buf)) buf 0) <$> seq 0 n.

Lemma length_window buf h n : length (window buf h n) = n.
Proof. unfold window. by rewrite length_fmap, length_seq. Qed.

Lemma window_ext buf buf' h h' n :
  (forall i, (i < n)%nat -> nth (Nat.modulo (h + i) (length buf)) buf 0 = nth (Nat.modulo (h' + i) (length buf')) buf' 0) ->
  window buf h n = window buf' h' n.
Proof.
  intros H. unfold window. apply list_fmap_ext. intros _ i Hi%list_elem_of_lookup_2%elem_of_seq. apply H. lia.
Qed.

Lemma window_add buf h n m : window buf h (n + m) = window buf h n ++ window buf (h + n) m.
Proof.
  unfold window. rewrite seq_app, fmap_app. f_equal. rewrite Nat.add_0_l.
  rewrite <-(Nat.add_0_r n) at 1. rewrite <-fmap_add_seq, <-list_fmap_compose. apply list_fmap_ext. intros _ i _.
  cbn [compose]. by rewrite Nat.add_assoc.
Qed.

Lemma window_mod buf h n : length buf <> O -> window buf (Nat.modulo h (length buf)) n = window buf h n.
Proof. intros H. apply window_ext. intros i _. by rewrite Nat.Div0.add_mod_idemp_l. Qed.

(** The place of a position less than two turns away. *)
Lemma turn a c : (a < c + c)%nat -> Nat.modulo a c = (if decide (a < c)%nat then a else a - c)%nat.
Proof.
  intros H. destruct (decide _); [by apply Nat.mod_small|].
  replace a with ((a - c) + 1 * c)%nat at 1 by lia. rewrite Nat.Div0.mod_add. apply Nat.mod_small. lia.
Qed.

Lemma turn_idemp a c : (a < c + c)%nat -> Nat.modulo (if decide (a < c)%nat then a else a - c)%nat c = Nat.modulo a c.
Proof. intros H. rewrite (turn a c) by done. destruct (decide _); apply Nat.mod_small; lia. Qed.

Lemma window_linear buf h n : (h + n <= length buf)%nat -> window buf h n = take n (drop h buf).
Proof.
  intros H. apply list_eq. intros i. destruct (decide (i < n)%nat) as [Hi|Hi].
  - unfold window. rewrite list_lookup_fmap, lookup_seq_lt, lookup_take, lookup_drop by done. cbn [fmap option_fmap option_map].
    rewrite decide_True by done. rewrite Nat.mod_small by lia.
    destruct (lookup_lt_is_Some_2 buf (h + i)) as [x Hx]; [lia|]. rewrite Hx. by rewrite (nth_lookup_Some _ _ _ _ Hx).
  - rewrite !lookup_ge_None_2; [done|rewrite length_take, length_drop; lia|rewrite length_window; lia].
Qed.

Lemma take_window buf h n m : (m <= n)%nat -> take m (window buf h n) = window buf h m.
Proof.
  intros H. replace n with (m + (n - m))%nat by lia. rewrite window_add. rewrite take_app_le by (rewrite length_window; lia).
  apply take_ge. rewrite length_window. lia.
Qed.

Lemma drop_window buf h n m : (m <= n)%nat -> drop m (window buf h n) = window buf (h + m) (n - m).
Proof.
  intros H. replace n with (m + (n - m))%nat at 1 by lia. rewrite window_add. apply drop_app_length'. by rewrite length_window.
Qed.

(** ** Writing into memory *)

Definition put (buf : list Z) (t : nat) (d : list Z) : list Z := take t buf ++ d ++ drop (t + length d) buf.

Lemma length_put buf t d : (t + length d <= length buf)%nat -> length (put buf t d) = length buf.
Proof. intros H. unfold put. rewrite !length_app, length_take, length_drop. lia. Qed.

Lemma copy_put src s dst d n :
  (s + n <= length src)%nat -> (d + n <= length dst)%nat ->
  copy_nonoverlapping src s dst d n = Ret (put dst d (take n (drop s src))).
Proof.
  intros Hs Hd. unfold copy_nonoverlapping, put. rewrite decide_True by done. rewrite length_take, length_drop.
  by replace (n `min` (length src - s))%nat with n by lia.
Qed.

Lemma nth_put buf t d p :
  (t + length d <= length buf)%nat ->
  nth p (put buf t d) 0 = (if decide (t <= p < t + length d)%nat then nth (p - t) d 0 else nth p buf 0).
Proof.
  intros H. unfold put. destruct (decide (p < t)%nat).
  - rewrite app_nth1 by (rewrite length_take; lia). rewrite decide_False by lia. rewrite !nth_lookup, lookup_take.
    by rewrite decide_True.
  - rewrite app_nth2 by (rewrite length_take; lia). rewrite length_take. replace (p - t `min` length buf)%nat with (p - t)%nat by lia.
    destruct (decide (p < t + length d)%nat).
    + rewrite decide_True by lia. by rewrite app_nth1 by lia.
    + rewrite decide_False by lia. rewrite app_nth2 by lia. rewrite !nth_lookup, lookup_drop. do 2 f_equal. lia.
Qed.

Lemma window_put buf t d : (t + length d <= length buf)%nat -> window (put buf t d) t (length d) = d.
Proof.
  intros H. rewrite window_linear by (by rewrite length_put). unfold put. rewrite drop_app_length' by (rewrite length_take; lia).
  apply take_app_length'. done.
Qed.

(** A window that a write does not touch. *)
Lemma window_other buf t d h n :
  (t + length d <= length buf)%nat -> (h < length buf)%nat -> (n <= length buf)%nat ->
  (forall i, (i < n)%nat -> let p := Nat.modulo (h + i) (length buf) in (p < t \/ t + length d <= p)%nat) ->
  window (put buf t d) h n = window buf h n.
Proof.
  intros H Hh Hn Hd. apply window_ext. intros i Hi. rewrite length_put by done. rewrite nth_put by done.
  specialize (Hd i Hi). cbv zeta in Hd. by rewrite decide_False by lia.
Qed.

(** ** The invariant *)

Record inv (b : FlvBuffer) : Prop := {
  inv_cap : exists k, 0 <= k <= 62 /\ Z.of_nat (cap b) = 2 ^ k;
  inv_head : (head b < cap b)%nat;
  inv_tail : (tail b < cap b)%nat;
  inv_initial : exists j, 0 <= j <= 62 /\ initial_capacity b = 2 ^ j
}.

Definition content (b : FlvBuffer) : list Z := window (buffer b) (head b) (len b).

Lemma mask x k : 0 <= k <= 64 -> Z.land (wrap 64 x) (2 ^ k - 1) = x mod 2 ^ k.
Proof.
  intros Hk. replace (2 ^ k - 1) with (Z.ones k) by (rewrite Z.ones_equiv; lia). rewrite Z.land_ones by lia. unfold wrap.
  apply Z.mod_mod_divide.
  exists (2 ^ (64 - k)). rewrite <-Z.pow_add_r by lia. f_equal. lia.
Qed.

Lemma mod_turn a c : 0 < c -> - c <= a < c -> a mod c = if decide (0 <= a) then a else a + c.
Proof.
  intros Hc Ha. destruct (decide _); [apply Z.mod_small; lia|].
  rewrite <-(Z_mod_plus_full a 1 c), Z.mul_1_l. apply Z.mod_small. lia.
Qed.

(** The two readings of the length: with the bit mask, and by cases. *)
Lemma len_spec b : inv b -> len b = (if decide (head b <= tail b)%nat then tail b - head b else cap b - head b + tail b)%nat.
Proof.
  intros [(k & Hk & Hc) Hh Ht _]. unfold len, wrapping_sub. rewrite Hc, mask by lia. rewrite <-Hc, mod_turn by lia.
  repeat destruct (decide _); lia.
Qed.

Lemma available_spec b : inv b -> available_space b = (cap b - len b - 1)%nat.
Proof.
  intros Hi. rewrite len_spec by done. destruct Hi as [(k & Hk & Hc) Hh Ht _].
  unfold available_space, wrapping_sub. rewrite Hc.
  replace (wrap 64 (wrap 64 (Z.of_nat (head b) - Z.of_nat (tail b)) - 1)) with (wrap 64 (Z.of_nat (head b) - Z.of_nat (tail b) - 1))
    by (unfold wrap; by rewrite Zminus_mod_idemp_l).
  rewrite mask by lia. rewrite <-Hc, mod_turn by lia. repeat destruct (decide _); lia.
Qed.

Lemma len_lt b : inv b -> (len b < cap b)%nat.
Proof. intros Hi. rewrite len_spec by done. destruct Hi as [_ Hh Ht _]. destruct (decide _); lia. Qed.

Lemma length_content b : length (content b) = len b.
Proof. apply length_window. Qed.

(** ** Writing *)

(** A state of the ring with the content [c]. *)
Definition holds (b b' : FlvBuffer) (c : list Z) : Prop :=
  inv b' /\ content b' = c /\ flv_header b' = flv_header b /\ header_parsed b' = header_parsed b /\
  initial_capacity b' = initial_capacity b.

Lemma set_ring_holds b buf h t n c :
  inv b -> (exists k, 0 <= k <= 62 /\ Z.of_nat (length buf) = 2 ^ k) -> (h < length buf)%nat -> (n < length buf)%nat ->
  t = Nat.modulo (h + n) (length buf) -> window buf h n = c -> holds b (set_ring buf h t b) c.
Proof.
  intros Hi Hk Hh Hn Ht Hc. assert (inv (set_ring buf h t b)) as Hi'.
  { split; [done|done| |apply Hi]. cbn. subst t. apply Nat.mod_upper_bound. lia. }
  split; [done|]. split; [|done]. unfold content. rewrite len_spec by done. cbn [head tail buffer set_ring].
  unfold cap. cbn [buffer set_ring]. rewrite <-Hc. f_equal. rewrite Ht, turn by lia. repeat destruct (decide _); lia.
Qed.

(** What every case of a write establishes: the old content and the new bytes,
    one after the other. *)
Lemma set_tail_holds b d buf t :
  inv b -> (len b + length d < cap b)%nat -> length buf = cap b -> t = Nat.modulo (head b + (len b + length d)) (cap b) ->
  window buf (head b) (len b) = content b -> window buf (head b + len b) (length d) = d ->
  holds b (set_ring buf (head b) t b) (content b ++ d).
Proof.
  intros Hi Hl Hb Htt Hw Hw'. pose proof Hi as [Hk Hh Ht _].
  eapply (set_ring_holds b buf (head b) t (len b + length d)); rewrite ?Hb; try done.
  rewrite window_add. by rewrite Hw, Hw'.
Qed.

Lemma wrap_tail_holds b d buf t (c := set_ring buf (head b) t b) :
  inv b -> (len b + length d < cap b)%nat -> length buf = cap b -> (t <= cap b)%nat ->
  Nat.modulo t (cap b) = Nat.modulo (head b + (len b + length d)) (cap b) ->
  window buf (head b) (len b) = content b -> window buf (head b + len b) (length d) = d ->
  holds b (if (tail c =? cap c)%nat then set_ring (buffer c) (head c) 0 c else c) (content b ++ d).
Proof.
  intros Hi Hl Hb Ht Hm Hw Hw'. pose proof (inv_head b Hi).
  change (set_ring (buffer c) (head c) 0 c) with (set_ring buf (head b) 0 b). destruct (Nat.eqb_spec (tail c) (cap c)) as [E|E];
    unfold cap in E at 1; cbn [c tail set_ring buffer] in E; apply set_tail_holds; try done.
  - rewrite <-Hm. rewrite E, Hb. by rewrite Nat.Div0.mod_same.
  - rewrite <-Hm. symmetry. apply Nat.mod_small. lia.
Qed.

(** The free part behind the tail is long enough. *)
Lemma write_fits b d (buf := put (buffer b) (tail b) d) :
  inv b -> (len b + length d < cap b)%nat -> (head b <= tail b)%nat -> (length d <= cap b - tail b)%nat ->
  length buf = cap b /\ window buf (head b) (len b) = content b /\ window buf (head b + len b) (length d) = d.
Proof.
  intros Hi Hl Hle Hfit. pose proof (len_spec b Hi) as Hlen. pose proof Hi as [_ Hh Ht _]. unfold cap in *.
  rewrite decide_True in Hlen by done. assert (head b + len b = tail b)%nat as Htl by lia. split_and!.
  - apply length_put. lia.
  - apply window_other; [lia..|]. intros i Hin. cbv zeta. rewrite Nat.mod_small by lia. lia.
  - rewrite Htl. apply window_put. lia.
Qed.

(** It is not: the rest goes to the front. *)
Lemma write_wraps b d (n := (cap b - tail b)%nat) (buf1 := put (buffer b) (tail b) (take n d)) (buf := put buf1 0 (drop n d)) :
  inv b -> (len b + length d < cap b)%nat -> (head b <= tail b)%nat -> (n < length d)%nat ->
  length buf1 = cap b /\ length buf = cap b /\ window buf (head b) (len b) = content b /\
  window buf (head b + len b) (length d) = d.
Proof.
  intros Hi Hl Hle Hn. pose proof (len_spec b Hi) as Hlen. pose proof Hi as [_ Hh Ht _]. unfold cap in *.
  rewrite decide_True in Hlen by done. assert (head b + len b = tail b)%nat as Htl by lia.
  assert (length (take n d) = n) as Ln by (rewrite length_take; lia).
  assert (length buf1 = length (buffer b)) as Hb1 by (apply length_put; lia).
  assert (length (drop n d) = length d - n)%nat as Lm by (by rewrite length_drop).
  assert (length buf = length (buffer b)) as Hb by (unfold buf; rewrite length_put; lia).
  split_and!; [done|done| |].
  - unfold buf. rewrite window_other; [|lia..|].
    + apply window_other; [lia..|]. intros i Hin. cbv zeta. rewrite Nat.mod_small by lia. lia.
    + intros i Hin. cbv zeta. rewrite Hb1, Nat.mod_small by lia. lia.
  - rewrite Htl. transitivity (take n d ++ drop n d); [|apply take_drop].
    replace (length d) with (n + (length d - n))%nat by lia. rewrite window_add. f_equal.
    + unfold buf. rewrite window_other; [|lia..|].
      * transitivity (window buf1 (tail b) (length (take n d))); [by rewrite Ln|]. apply window_put. lia.
      * intros i Hin. cbv zeta. rewrite Hb1, Nat.mod_small by lia. lia.
    + rewrite <-window_mod by lia. replace (Nat.modulo (tail b + n) (length buf)) with O.
      * rewrite <-Lm. apply window_put. lia.
      * rewrite turn by lia. destruct (decide _); lia.
Qed.

(** The content itself is wrapped: the free part is between the tail and the head. *)
Lemma write_behind b d (buf := put (buffer b) (tail b) d) :
  inv b -> (len b + length d < cap b)%nat -> (tail b < head b)%nat ->
  length buf = cap b /\ window buf (head b) (len b) = content b /\ window buf (head b + len b) (length d) = d.
Proof.
  intros Hi Hl Hgt. pose proof (len_spec b Hi) as Hlen. pose proof Hi as [_ Hh Ht _]. unfold cap in *.
  rewrite decide_False in Hlen by lia.
  assert (length buf = length (buffer b)) as Hb by (apply length_put; lia). split_and!; [done| |].
  - apply window_other; [lia..|]. intros i Hin. cbv zeta. rewrite turn by lia. destruct (decide _); lia.
  - rewrite <-window_mod, Hb by lia. replace (Nat.modulo (head b + len b) (length (buffer b))) with (tail b).
    + apply window_put. lia.
    + rewrite turn by lia. destruct (decide _); lia.
Qed.

Lemma write_ring_holds b d :
  inv b -> (0 < length d)%nat -> (len b + length d < cap b)%nat ->
  exists b', write_ring d b = Ret b' /\ holds b b' (content b ++ d).
Proof.
  intros Hi Hd Hl. pose proof (len_spec b Hi) as Hlen. pose proof Hi as [Hk Hh Ht _]. pose proof (len_lt b Hi).
  unfold write_ring. destruct (Nat.leb_spec (head b) (tail b)) as [Hle|Hgt];
    [rewrite decide_True in Hlen by done|rewrite decide_False in Hlen by lia].
  - destruct (Nat.leb_spec (length d) (cap b - tail b)) as [Hfit|Hwrap].
    + destruct (write_fits b d) as (Hb & Hw & Hw'); [done..|].
      rewrite copy_put by (unfold cap in *; lia). rewrite drop_0, take_ge by done. red_bind.
      eexists. split; [reflexivity|]. apply wrap_tail_holds; try done; [lia|]. f_equal. lia.
    + destruct (write_wraps b d) as (Hb1 & Hb & Hw & Hw'); [done..|].
      destruct (Nat.ltb_spec 0 (cap b - tail b)) as [Hn|Hn]; [|lia].
      rewrite copy_put by (unfold cap in *; lia). red_bind. rewrite drop_0. rewrite copy_put by (unfold cap in *; lia). red_bind.
      rewrite (take_ge (drop _ d)) by (rewrite length_drop; lia).
      eexists. split; [reflexivity|]. apply wrap_tail_holds; try done; [lia|].
      rewrite <-(turn_idemp (head b + (len b + length d))%nat) by lia. rewrite decide_False by lia. f_equal. lia.
  - destruct (write_behind b d) as (Hb & Hw & Hw'); [done..|].
    rewrite copy_put by (unfold cap in *; lia). rewrite drop_0, take_ge by done. red_bind.
    eexists. split; [reflexivity|]. apply wrap_tail_holds; try done; [lia|].
    rewrite <-(turn_idemp (head b + (len b + length d))%nat) by lia. rewrite decide_False by lia. f_equal. lia.
Qed.

(** ** Growing *)

Lemma next_power n : 0 <= n <= 2 ^ 62 ->
  checked_next_power_of_two n = Some (2 ^ Z.log2_up n) /\ n <= 2 ^ Z.log2_up n /\ 0 <= Z.log2_up n <= 62.
Proof.
  intros Hn. pose proof (Z.log2_up_nonneg n). assert (Z.log2_up n <= 62) as Hl.
  { transitivity (Z.log2_up (2 ^ 62)); [apply Z.log2_up_le_mono; apply Hn|]. rewrite Z.log2_up_pow2; lia. }
  split; [|split; [|done]].
  - unfold checked_next_power_of_two. cbv zeta. rewrite (proj2 (Z.ltb_lt _ _)); [done|].
    apply Z.lt_le_trans with (2 ^ 63); [apply Z.pow_lt_mono_r; lia|by apply Z.pow_le_mono_r].
  - destruct (decide (1 < n)); [apply Z.log2_up_spec; lia|].
    pose proof (Z.pow_pos_nonneg 2 (Z.log2_up n)). lia.
Qed.

Lemma max_pow2 i j : 0 <= i -> 0 <= j -> Z.max (2 ^ i) (2 ^ j) = 2 ^ Z.max i j.
Proof.
  intros Hi Hj. destruct (Z.max_spec i j) as [[H ->]|[H ->]].
  - apply Z.max_r. apply Z.pow_le_mono_r; lia.
  - apply Z.max_l. apply Z.pow_le_mono_r; lia.
Qed.

Lemma vec_zero_pow2 k : 0 <= k <= 62 ->
  vec_zero (2 ^ k) = Ret (replicate (Z.to_nat (2 ^ k)) 0) /\ Z.of_nat (length (replicate (Z.to_nat (2 ^ k)) 0)) = 2 ^ k.
Proof.
  intros Hk. pose proof (Z.pow_pos_nonneg 2 k). split.
  - unfold vec_zero. rewrite (proj2 (Z.ltb_lt _ _)); [done|]. apply Z.pow_lt_mono_r; lia.
  - rewrite length_replicate. lia.
Qed.

Lemma with_capacity_ok c : 0 <= c <= 2 ^ 62 ->
  exists b, with_capacity c = Ret b /\ inv b /\ content b = [] /\ flv_header b = None /\ header_parsed b = false /\
    initial_capacity b <= Z.max 1 (2 * c).
Proof.
  intros Hc. destruct (next_power c Hc) as (Hn & Hle & Hl). unfold with_capacity.
  assert (exists k, 0 <= k <= 62 /\ 2 ^ k <= Z.max 1 (2 * c) /\
    (if is_power_of_two c then c else default (umax 64) (checked_next_power_of_two c)) = 2 ^ k) as (k & Hk & Hkc & ->).
  { destruct (is_power_of_two c) eqn:E.
    - exists (Z.log2 c). unfold is_power_of_two in E. apply andb_true_iff in E as [Hp%Z.ltb_lt E%Z.eqb_eq].
      assert (c = 2 ^ Z.log2 c) as Hcc.
      { pose proof (Z.log2_spec c Hp) as [H1 H2]. destruct (decide (c = 2 ^ Z.log2 c)) as [|Hne]; [done|exfalso].
        assert (Z.testbit c (Z.log2 c) = true) as Hb1 by (by apply Z.bit_log2).
        assert (Z.testbit (c - 1) (Z.log2 c) = true) as Hb2.
        { pose proof (Z.log2_nonneg c). pose proof (Z.pow_pos_nonneg 2 (Z.log2 c)).
          replace (Z.log2 c) with (Z.log2 (c - 1)); [apply Z.bit_log2; lia|]. apply Z.log2_unique; lia. }
        assert (Z.testbit (Z.land c (c - 1)) (Z.log2 c) = true) as Hb3 by (by rewrite Z.land_spec, Hb1, Hb2).
        rewrite E, Z.bits_0 in Hb3. done. }
      split_and!; [apply Z.log2_nonneg| |lia|done].
      pose proof (Z.log2_le_mono _ _ (proj2 Hc)) as Hlog. by rewrite Z.log2_pow2 in Hlog.
    - exists (Z.log2_up c). rewrite Hn. split_and!; [lia|lia| |done]. destruct (decide (1 < c)).
      + pose proof (Z.log2_up_spec c ltac:(lia)) as [H1 _]. pose proof (Z.log2_up_pos c ltac:(lia)).
        replace (Z.log2_up c) with (Z.succ (Z.pred (Z.log2_up c))) by lia. rewrite Z.pow_succ_r by lia. lia.
      + rewrite Z.log2_up_eqn0 by lia. lia. }
  destruct (vec_zero_pow2 k Hk) as [Hv Hlen]. rewrite Hv. red_bind.
  eexists. split; [reflexivity|]. split_and!; try done.
  - split; cbn; [by exists k| | |by exists k]; unfold cap; cbn [buffer]; pose proof (Z.pow_pos_nonneg 2 k); lia.
Qed.

Lemma resize_holds b n :
  inv b -> 0 <= n <= 2 ^ 62 -> Z.of_nat (len b) < n ->
  exists b', resize_buffer n b = Ret b' /\ holds b b' (content b) /\ n <= Z.of_nat (cap b').
Proof.
  intros Hi Hn Hl. pose proof (len_spec b Hi) as Hlen. pose proof (len_lt b Hi) as Hlt.
  destruct (next_power n Hn) as (Hp & Hle & Hk). destruct (inv_initial b Hi) as (j & Hj & Hj').
  pose proof Hi as [_ Hh Ht _]. unfold resize_buffer. rewrite Hp. cbn [default from_option id]. rewrite Hj', max_pow2 by lia.
  set (k := Z.max (Z.log2_up n) j). assert (0 <= k <= 62) as Hk' by lia.
  assert (n <= 2 ^ k) as Hnk by (transitivity (2 ^ Z.log2_up n); [done|apply Z.pow_le_mono_r; lia]).
  destruct (vec_zero_pow2 k Hk') as [Hv Hvl]. rewrite Hv. red_bind. clear Hv.
  set (new := replicate (Z.to_nat (2 ^ k)) 0) in *. clearbody new.
  assert (forall buf, length buf = length new -> window buf 0 (len b) = content b ->
    holds b (set_ring buf 0 (len b) b) (content b) /\ n <= Z.of_nat (cap (set_ring buf 0 (len b) b))) as Hset.
  { intros buf Hb Hw. split; [|unfold cap; cbn [buffer set_ring]; lia].
    eapply (set_ring_holds b buf 0 (len b) (len b)); try done; [exists k; split; [done|lia]|lia|lia|].
    symmetry. apply Nat.mod_small. lia. }
  destruct (Nat.ltb_spec (head b) (tail b)) as [Hht|Hht].
  - rewrite decide_True in Hlen by lia. unfold cap in *.
    assert (content b = take (tail b - head b) (drop (head b) (buffer b))) as Hcon.
    { unfold content. rewrite window_linear by lia. by rewrite Hlen. }
    rewrite (proj2 (slice_Ret (buffer b) (head b) (tail b) _)) by (split_and!; [lia|lia|reflexivity]). red_bind.
    rewrite <-Hcon. unfold copy_from_slice. rewrite decide_True by (rewrite length_content; lia). red_bind.
    rewrite copy_put by (rewrite ?length_app, ?length_drop, ?length_content; lia). red_bind.
    assert (take (len b) (drop (head b) (buffer b)) = content b) as Htk by (by rewrite Hcon, Hlen).
    rewrite Htk. eexists. split; [reflexivity|]. apply Hset.
    + rewrite length_put; rewrite ?length_app, ?length_drop, ?length_content; lia.
    + rewrite <-length_content. apply window_put. rewrite !length_app, length_drop, length_content. lia.
  - destruct (Nat.ltb_spec 0 (len b)) as [H0|H0].
    + destruct (decide (head b <= tail b)%nat); [lia|]. unfold cap in *. set (m := (length (buffer b) - head b)%nat) in *.
      rewrite copy_put by lia. red_bind. rewrite copy_put; [|lia|rewrite length_put; rewrite ?length_take, ?length_drop; lia].
      red_bind. rewrite drop_0. rewrite (take_ge (drop (head b) (buffer b))) by (rewrite length_drop; lia).
      eexists. split; [reflexivity|]. set (x := drop (head b) (buffer b)). set (y := take (len b - m) (buffer b)).
      assert (length x = m) as Lx by (unfold x; rewrite length_drop; lia).
      assert (length y = len b - m)%nat as Ly by (unfold y; rewrite length_take; lia).
      assert (length (put new 0 x) = length new) as L1 by (apply length_put; lia).
      apply Hset; [rewrite length_put; lia|]. unfold content. replace (len b) with (m + (len b - m))%nat by lia.
      rewrite !window_add. f_equal.
      * rewrite window_other by (try lia; intros i Hin; cbv zeta; rewrite L1, Nat.mod_small by lia; lia).
        rewrite <-Lx at 1. rewrite window_put by lia. symmetry. rewrite window_linear by lia. apply take_ge. lia.
      * rewrite Nat.add_0_l. rewrite <-Ly at 1. rewrite window_put by lia. symmetry.
        rewrite <-window_mod by lia. replace (Nat.modulo (head b + m) (length (buffer b))) with O.
        -- rewrite window_linear by lia. by rewrite drop_0.
        -- rewrite turn by lia. destruct (decide _); lia.
    + eexists. split; [reflexivity|]. apply Hset; [done|]. assert (len b = O) as E by lia. unfold content. by rewrite E.
Qed.

Lemma holds_inv b b' c : holds b b' c -> inv b'.
Proof. by intros [? _]. Qed.

Lemma holds_trans b b' b'' c c' : holds b b' c -> holds b' b'' c' -> holds b b'' c'.
Proof. intros (_ & _ & H1 & H2 & H3) (? & ? & H4 & H5 & H6). split_and!; congruence. Qed.

Lemma holds_refl b : inv b -> holds b b (content b).
Proof. done. Qed.

Lemma write_data_holds b d :
  inv b -> Z.of_nat (len b) + Z.of_nat (length d) < 2 ^ 62 ->
  exists b', write_data d b = Ret b' /\ holds b b' (content b ++ d).
Proof.
  intros Hi Hsz. unfold write_data. destruct (Nat.eqb_spec (length d) 0) as [E|E].
  { apply length_zero_iff_nil in E as ->. rewrite app_nil_r. eexists. split; [reflexivity|by apply holds_refl]. }
  rewrite available_spec by done. destruct (Nat.ltb_spec (cap b - len b - 1) (length d)) as [Hr|Hr].
  - destruct (resize_holds b (Z.of_nat (len b) + Z.of_nat (length d) + 1)) as (b1 & Hb1 & Hh & Hc); [done|lia|lia|].
    rewrite Hb1. red_bind. pose proof Hh as (Hi1 & Hc1 & _).
    assert (len b1 = len b) as Hl by (by rewrite <-!length_content, Hc1).
    destruct (write_ring_holds b1 d) as (b2 & Hb2 & Hh2); [done|lia|lia|]. rewrite Hb2. eexists. split; [reflexivity|].
    rewrite Hc1 in Hh2. by eapply holds_trans.
  - red_bind. pose proof (len_lt b Hi). apply write_ring_holds; [done|lia|lia].
Qed.

(** ** Reading *)

Lemma window_zero buf h : window buf h 0 = [].
Proof. done. Qed.

Lemma put_all (buf d : list Z) : length d = length buf -> put buf 0 d = d.
Proof. intros H. unfold put. rewrite Nat.add_0_l, H, drop_all, app_nil_r. done. Qed.

(** Two copies into a fresh buffer. *)
Lemma put_two (out d1 d2 : list Z) m :
  m = length d1 -> length out = (length d1 + length d2)%nat -> put (put out 0 d1) m d2 = d1 ++ d2.
Proof.
  intros -> H. unfold put. rewrite take_0, Nat.add_0_l. cbn [app]. rewrite take_app_length. f_equal.
  rewrite drop_ge, app_nil_r; [done|]. rewrite length_app, length_drop. lia.
Qed.

(** A window that wraps around, in two pieces. *)
Lemma window_wraps buf h n :
  (h < length buf)%nat -> (length buf <= h + n)%nat -> (n <= length buf)%nat ->
  window buf h n = drop h buf ++ take (n - (length buf - h)) buf.
Proof.
  intros Hh Hw Hn. set (m := (length buf - h)%nat). replace n with (m + (n - m))%nat at 1 by lia. rewrite window_add. f_equal.
  - rewrite window_linear by lia. apply take_ge. rewrite length_drop. lia.
  - rewrite <-window_mod by lia. replace (Nat.modulo (h + m) (length buf)) with O.
    + rewrite window_linear by lia. by rewrite drop_0.
    + rewrite turn by lia. destruct (decide _); lia.
Qed.

Lemma read_data_window b start n :
  (n <= cap b)%nat -> cap b <> O -> read_data b start n = Ret (window (buffer b) start n).
Proof.
  intros Hn Hc. unfold read_data. rewrite (proj2 (Nat.eqb_neq _ _) Hc). cbn [orb].
  destruct (Nat.eqb_spec n 0) as [->|Hn0]; [done|]. pose proof (Nat.mod_upper_bound start (cap b) Hc) as Hs.
  rewrite <-window_mod by done. unfold cap in *. set (s := Nat.modulo start (length (buffer b))) in *. clearbody s.
  rewrite Nat.min_l by done. destruct (Nat.leb_spec (s + n) (length (buffer b))) as [Hf|Hw]; cbv iota beta.
  - rewrite copy_put by (rewrite ?length_replicate; lia). red_bind. cbn [Nat.ltb Nat.leb].
    rewrite window_linear by done. rewrite put_all; [done|]. rewrite length_take, length_drop, length_replicate. lia.
  - rewrite copy_put by (rewrite ?length_replicate; lia). red_bind. rewrite (proj2 (Nat.ltb_lt _ _)) by lia.
    rewrite (take_ge (drop s _)) by (rewrite length_drop; lia).
    rewrite copy_put; [|lia|rewrite length_put; rewrite ?length_drop, ?length_replicate; lia].
    rewrite drop_0. assert (length (drop s (buffer b)) = length (buffer b) - s)%nat as Ld by apply length_drop.
    rewrite put_two by (rewrite ?length_replicate, ?length_take; lia). by rewrite window_wraps by lia.
Qed.

Lemma ring_read_window buf pos n :
  (pos < length buf)%nat -> (n <= length buf)%nat ->
  ring_read buf pos n = Ret (window buf pos n, Nat.modulo (pos + n) (length buf)).
Proof.
  intros Hp Hn. unfold ring_read. rewrite turn by lia.
  destruct (Nat.ltb_spec (length buf) (pos + n)) as [Hw|Hw].
  - rewrite (proj2 (Nat.ltb_ge _ _)) by lia. rewrite copy_put by (rewrite ?length_replicate; lia). red_bind. cbv iota beta.
    assert (length (drop pos buf) = length buf - pos)%nat as Ld by apply length_drop.
    rewrite (take_ge (drop pos buf)) by lia. rewrite (proj2 (Nat.ltb_lt _ _)) by lia.
    rewrite copy_put; [|lia|rewrite length_put; rewrite ?length_replicate; lia]. red_bind. rewrite drop_0.
    rewrite put_two by (rewrite ?length_replicate, ?length_take; lia).
    rewrite window_wraps by lia. rewrite decide_False by lia. rewrite (proj2 (Nat.eqb_neq _ _)) by lia.
    do 2 f_equal. lia.
  - red_bind. cbv iota beta. rewrite Nat.sub_0_r. destruct (Nat.ltb_spec 0 n) as [H0|H0].
    + rewrite copy_put by (rewrite ?length_replicate; lia). red_bind. rewrite window_linear by lia.
      rewrite put_all by (rewrite length_take, length_drop, length_replicate; lia).
      destruct (Nat.eqb_spec (pos + n) (length buf)), (decide (pos + n < length buf)%nat); try lia; repeat f_equal; lia.
    + red_bind. assert (n = O) as -> by lia. rewrite window_zero.
      rewrite (proj2 (Nat.eqb_neq _ _)), decide_True by lia. done.
Qed.

Lemma read_be_window buf pos n :
  (pos < length buf)%nat -> (n <= length buf)%nat ->
  read_be buf pos n = Ret (from_be_bytes (window buf pos n), Nat.modulo (pos + n) (length buf)).
Proof. intros Hp Hn. unfold read_be. by rewrite ring_read_window. Qed.

(** ** The abstract buffer: a queue of bytes *)

Record queue := { q_header : option FlvHeader; q_parsed : bool; q_bytes : list Z }.

Definition abs (b : FlvBuffer) : queue := {| q_header := flv_header b; q_parsed := header_parsed b; q_bytes := content b |}.

Definition q_write (d : list Z) (q : queue) : queue :=
  {| q_header := q_header q; q_parsed := q_parsed q; q_bytes := q_bytes q ++ d |}.

Definition q_parse (q : queue) : queue :=
  if q_parsed q || (length (q_bytes q) <? FLV_HEADER_LENGTH)%nat then q
  else match valid_header (take FLV_HEADER_LENGTH (q_bytes q)) with
       | None => {| q_header := q_header q; q_parsed := true; q_bytes := drop PREVIOUS_TAG_SIZE_LENGTH (q_bytes q) |}
       | Some f => {| q_header := Some {| flags := f |}; q_parsed := true;
                      q_bytes := drop (FLV_HEADER_LENGTH + PREVIOUS_TAG_SIZE_LENGTH) (q_bytes q) |}
       end.

(** The tag at the front of some bytes, and the bytes behind it. *)
Definition tag_of (c : list Z) : option (FlvTag * list Z) :=
  let field o n := from_be_bytes (take n (drop o c)) in
  let size := Z.to_nat (field 1 3)%nat in
  let total := (FLV_TAG_HEADER_LENGTH + size + PREVIOUS_TAG_SIZE_LENGTH)%nat in
  if (length c <? FLV_TAG_HEADER_LENGTH)%nat || (length c <? total)%nat then None
  else Some ({| header := {| tag_type := field 0 1; data_size := field 1 3; timestamp := field 4 3;
                             timestamp_ext := field 7 1; stream_id := 0 |}%nat;
                data := take size (drop FLV_TAG_HEADER_LENGTH c);
                previous_tag_size := wrap 32 (Z.of_nat (FLV_TAG_HEADER_LENGTH + size)) |}, drop total c).

Definition q_get (q : queue) : option FlvTag * queue :=
  if (length (q_bytes q) <? FLV_TAG_HEADER_LENGTH)%nat then (None, q)
  else
    let q := q_parse q in
    match tag_of (q_bytes q) with
    | None => (None, q)
    | Some (t, rest) => (Some t, {| q_header := q_header q; q_parsed := q_parsed q; q_bytes := rest |})
    end.

(** The bytes of a file header and of the field behind it are there, or less than a
    tag header is. *)
Definition header_safe (q : queue) : Prop :=
  q_parsed q = true \/ (length (q_bytes q) < 11)%nat \/ (13 <= length (q_bytes q))%nat.

Lemma tail_spec b : inv b -> tail b = Nat.modulo (head b + len b) (cap b).
Proof.
  intros Hi. pose proof (len_lt b Hi). pose proof (len_spec b Hi) as ->. pose proof Hi as [_ Hh Ht _].
  destruct (decide _); rewrite turn by lia; destruct (decide _); lia.
Qed.

Lemma advance b n h :
  inv b -> (n <= len b)%nat -> h = Nat.modulo (head b + n) (cap b) -> holds b (set_head h b) (drop n (content b)).
Proof.
  intros Hi Hn ->. pose proof (len_lt b Hi). pose proof Hi as [Hk Hh Ht _]. unfold set_head, cap in *.
  eapply (set_ring_holds b (buffer b) _ (tail b) (len b - n)); try done; [apply Nat.mod_upper_bound; lia|lia| |].
  - rewrite Nat.Div0.add_mod_idemp_l, (tail_spec b Hi). f_equal. lia.
  - rewrite window_mod by lia. unfold content. by rewrite drop_window.
Qed.

Lemma skip_spec b : (head b + 4 < cap b + cap b)%nat -> skip_previous_tag_size b = set_head (Nat.modulo (head b + 4) (cap b)) b.
Proof.
  intros H. unfold skip_previous_tag_size, PREVIOUS_TAG_SIZE_LENGTH. cbv zeta. f_equal. rewrite turn by done.
  destruct (Nat.leb_spec (cap b) (head b + 4)), (decide (head b + 4 < cap b)%nat); lia.
Qed.

Lemma header_done_inv h b : inv b -> inv (header_done h b).
Proof. intros [H1 H2 H3 H4]. by split. Qed.

Lemma parse_flv_header_spec b :
  inv b -> (11 <= len b)%nat -> header_safe (abs b) ->
  exists b', parse_flv_header b = Ret b' /\ inv b' /\ abs b' = q_parse (abs b) /\ buffer b' = buffer b.
Proof.
  intros Hi Hl Hs. pose proof (len_lt b Hi). pose proof (inv_head b Hi) as Hh. unfold parse_flv_header, q_parse.
  cbn [q_parsed q_bytes abs q_header]. destruct (header_parsed b) eqn:Hp; cbn [orb]; [by eexists|].
  rewrite length_content. rewrite (proj2 (Nat.ltb_ge _ _)) by (unfold FLV_HEADER_LENGTH; lia).
  rewrite read_data_window by (unfold FLV_HEADER_LENGTH; lia). red_bind.
  assert (window (buffer b) (head b) FLV_HEADER_LENGTH = take FLV_HEADER_LENGTH (content b)) as ->
    by (unfold content; rewrite take_window; [done|unfold FLV_HEADER_LENGTH; lia]).
  destruct Hs as [Hs|Hs]; cbn [q_parsed q_bytes abs] in Hs; [congruence|]. rewrite length_content in Hs.
  destruct (valid_header _) as [f|].
  - set (b1 := header_done (Some {| flags := f |}) b).
    destruct (advance b1 (9 + 4) _ (header_done_inv _ _ Hi) ltac:(change (len b1) with (len b); lia) eq_refl)
      as (Hi' & Hc & E1 & E2 & _).
    rewrite skip_spec by (unfold cap, FLV_HEADER_LENGTH in *; cbn; lia). eexists. split; [reflexivity|].
    change (set_head _ (set_head _ b1)) with (set_head (Nat.modulo (head b1 + 9 + 4) (cap b1)) b1).
    rewrite <-Nat.add_assoc. split; [done|]. split; [|done]. unfold abs. by rewrite Hc, E1, E2.
  - set (b1 := header_done (flv_header b) b).
    destruct (advance b1 4 _ (header_done_inv _ _ Hi) ltac:(change (len b1) with (len b); lia) eq_refl)
      as (Hi' & Hc & E1 & E2 & _).
    rewrite skip_spec by (unfold cap in *; lia). eexists. split; [reflexivity|].
    change (header_done _ (set_head _ b)) with (set_head (Nat.modulo (head b1 + 4) (cap b1)) b1).
    split; [done|]. split; [|done]. unfold abs. by rewrite Hc, E1, E2.
Qed.

(** ** Taking a tag *)

Lemma wrap_head_mod fuel h c : (h < fuel)%nat -> c <> O -> wrap_head fuel h c = Ret (Nat.modulo h c).
Proof.
  revert h. induction fuel as [|fuel IH]; intros h Hf Hc; [lia|]. cbn [wrap_head].
  destruct (Nat.leb_spec c h) as [Hle|Hlt]; [|by rewrite Nat.mod_small]. rewrite IH by lia.
  f_equal. replace h with ((h - c) + 1 * c)%nat at 2 by lia. by rewrite Nat.Div0.mod_add.
Qed.

(** A field of the content, read through the ring. *)
Lemma field_window b o n :
  (o + n <= len b)%nat -> take n (drop o (content b)) = window (buffer b) (head b + o) n.
Proof. intros H. unfold content. rewrite drop_window by lia. apply take_window. lia. Qed.

Lemma tag_of_None c : (length c < 15)%nat -> tag_of c = None.
Proof.
  intros H. unfold tag_of, FLV_TAG_HEADER_LENGTH, PREVIOUS_TAG_SIZE_LENGTH. cbv zeta. destruct (_ <? _)%nat; [done|].
  by rewrite (proj2 (Nat.ltb_lt _ _)) by lia.
Qed.

(** [get_flv_tag] once the header is done with. *)
Definition take_tag (b : FlvBuffer) : outcome (option FlvTag * FlvBuffer) :=
  '(tag_type, pos) ← read_be (buffer b) (head b) 1;
  '(data_size, pos) ← read_be (buffer b) pos 3;
  '(timestamp, pos) ← read_be (buffer b) pos 3;
  '(timestamp_ext, pos) ← read_be (buffer b) pos 1;
  '(_stream_id, pos) ← read_be (buffer b) pos 3;
  let size := Z.to_nat data_size in
  let total_tag_size := (FLV_TAG_HEADER_LENGTH + size + PREVIOUS_TAG_SIZE_LENGTH)%nat in
  if (len b <? total_tag_size)%nat then Ret (None, b)
  else
    data ← read_data b (head b + FLV_TAG_HEADER_LENGTH) size;
    let flv_tag :=
      {| header := {| tag_type := tag_type; data_size := data_size; timestamp := timestamp; timestamp_ext := timestamp_ext;
                      stream_id := 0 |};
         data := data;
         previous_tag_size := wrap 32 (Z.of_nat (FLV_TAG_HEADER_LENGTH + size)) |} in
    h ← wrap_head (S (head b + total_tag_size)) (head b + total_tag_size) (cap b);
    Ret (Some flv_tag, set_head h b).

(** The five fields of a tag header at consecutive places of the ring. *)
Lemma read_fields buf h (k : Z -> Z -> Z -> Z -> outcome (option FlvTag * FlvBuffer)) (f := fun o n => from_be_bytes (window buf (h + o) n)) :
  (h < length buf)%nat -> (3 <= length buf)%nat ->
  ('(tag_type, pos) ← read_be buf h 1; '(data_size, pos) ← read_be buf pos 3; '(timestamp, pos) ← read_be buf pos 3;
   '(timestamp_ext, pos) ← read_be buf pos 1; '(_stream_id, pos) ← read_be buf pos 3;
   k tag_type data_size timestamp timestamp_ext) = k (f 0%nat 1%nat) (f 1%nat 3%nat) (f 4%nat 3%nat) (f 7%nat 1%nat).
Proof.
  intros Hh Hb. assert (forall x, Nat.modulo x (length buf) < length buf)%nat as Hm by (intros x; apply Nat.mod_upper_bound; lia).
  rewrite read_be_window by lia. red_bind. cbv iota beta.
  repeat (rewrite read_be_window by (try apply Hm; lia); red_bind; cbv iota beta;
          rewrite ?window_mod, ?Nat.Div0.add_mod_idemp_l by lia; rewrite <-?Nat.add_assoc; cbn [Nat.add]).
  subst f. cbv beta. by rewrite Nat.add_0_r.
Qed.

Lemma take_tag_spec b :
  inv b -> (12 <= cap b)%nat ->
  exists r b', take_tag b = Ret (r, b') /\ inv b' /\
    (r, abs b') = match tag_of (content b) with
                  | None => (None, abs b)
                  | Some (t, rest) => (Some t, {| q_header := flv_header b; q_parsed := header_parsed b; q_bytes := rest |})
                  end.
Proof.
  intros Hi Hcap. pose proof (inv_head b Hi). pose proof (len_lt b Hi). unfold take_tag.
  rewrite (read_fields (buffer b) (head b)) by (unfold cap in *; lia).
  set (size := Z.to_nat (from_be_bytes (window (buffer b) (head b + 1) 3))). cbv zeta.
  destruct (Nat.ltb_spec (len b) (FLV_TAG_HEADER_LENGTH + size + PREVIOUS_TAG_SIZE_LENGTH)) as [Hs|Hs].
  - exists None, b. split; [done|]. split; [done|]. replace (tag_of (content b)) with (@None (FlvTag * list Z)); [done|].
    symmetry. unfold tag_of. destruct (Nat.ltb_spec (length (content b)) FLV_TAG_HEADER_LENGTH) as [|Hl]; [done|].
    rewrite length_content in *. cbv zeta. cbn [orb]. unfold FLV_TAG_HEADER_LENGTH in Hl. rewrite field_window by lia.
    fold size. by rewrite (proj2 (Nat.ltb_lt _ _)).
  - unfold FLV_TAG_HEADER_LENGTH, PREVIOUS_TAG_SIZE_LENGTH in *.
    rewrite read_data_window by lia. red_bind. rewrite wrap_head_mod by lia. red_bind.
    destruct (advance b (11 + size + 4) _ Hi Hs eq_refl) as (Hi' & Hc & E1 & E2 & _).
    do 2 eexists. split; [reflexivity|]. split; [done|]. unfold abs. rewrite Hc, E1, E2.
    unfold tag_of, FLV_TAG_HEADER_LENGTH, PREVIOUS_TAG_SIZE_LENGTH. cbv zeta. rewrite length_content.
    rewrite (proj2 (Nat.ltb_ge _ _)) by lia. cbn [orb]. rewrite !field_window by lia. fold size.
    rewrite (proj2 (Nat.ltb_ge _ _)) by lia. done.
Qed.

Lemma ring_is_queue (b : FlvBuffer) :
  inv b ->
  (forall d, Z.of_nat (len b) + Z.of_nat (length d) < 2 ^ 62 ->
     exists b', write_data d b = Ret b' /\ inv b' /\ abs b' = q_write d (abs b)) /\
  (header_safe (abs b) -> exists r b', get_flv_tag b = Ret (r, b') /\ inv b' /\ (r, abs b') = q_get (abs b)).
Proof.
  intros Hi. split.
  - intros d Hd. destruct (write_data_holds b d Hi Hd) as (b' & Hb & Hi' & Hc & E1 & E2 & _).
    exists b'. split_and!; [done|done|]. unfold abs, q_write. cbn. by rewrite Hc, E1, E2.
  - intros Hs. unfold get_flv_tag, q_get. cbn [q_bytes abs]. rewrite length_content.
    destruct (Nat.ltb_spec (len b) FLV_TAG_HEADER_LENGTH) as [Hl|Hl]; [by exists None, b|].
    destruct (parse_flv_header_spec b Hi Hl Hs) as (b1 & Hb1 & Hi1 & Ha1 & Hbuf). rewrite Hb1. red_bind.
    pose proof (len_lt b Hi). destruct (take_tag_spec b1 Hi1) as (r & b2 & Hb2 & Hi2 & Ha2).
    { unfold cap in *. rewrite Hbuf. unfold FLV_TAG_HEADER_LENGTH in Hl. lia. }
    exists r, b2. split_and!; [exact Hb2|done|]. rewrite Ha2. cbv zeta. rewrite <-Ha1. cbn [abs q_bytes q_header q_parsed].
    by destruct (tag_of (content b1)) as [[t rest]|].
Qed.

(** The ring buffer is a queue of bytes.  Writing appends, whatever the position of
    the content and whether the buffer has to grow; taking a tag removes it from the
    front.  No copy leaves the buffer.  The one condition is on the first tag: at
    that time the field behind the file header has to be there. *)
Theorem ring_buffer_is_a_queue (b : FlvBuffer) :
  inv b ->
  (forall d, Z.of_nat (len b) + Z.of_nat (length d) < 2 ^ 62 ->
     exists b', write_data d b = Ret b' /\ inv b' /\ abs b' = q_write d (abs b)) /\
  (header_safe (abs b) -> exists r b', get_flv_tag b = Ret (r, b') /\ inv b' /\ (r, abs b') = q_get (abs b)).
Proof. apply ring_is_queue. Qed.

(** ** Streams *)

Record well_formed (t : FlvTag) : Prop := {
  wf_type : fits 8 (tag_type (header t));
  wf_data : Z.of_nat (length (data t)) < 2 ^ 24;
  wf_size : data_size (header t) = Z.of_nat (length (data t));
  wf_timestamp : fits 24 (timestamp (header t));
  wf_ext : fits 8 (timestamp_ext (header t));
  wf_stream : stream_id (header t) = 0;
  wf_previous : previous_tag_size t = 11 + data_size (header t)
}.

Definition stream (ts : list FlvTag) : list Z := concat (tag_as_bytes_with_previous_tag_size <$> ts).

Lemma from_be24 x : fits 24 x -> from_be_bytes (be24 x) = x.
Proof.
  intros H. change (be24 x) with (to_be_bytes 3 x). unfold from_be_bytes, to_be_bytes. rewrite rev_involutive.
  by apply from_to_le_bytes_fits.
Qed.

Lemma from_be1 x : from_be_bytes [x] = x.
Proof. unfold from_be_bytes. cbn. lia. Qed.

Lemma length_be24 x : length (be24 x) = 3%nat.
Proof. reflexivity. Qed.

Lemma length_encode t : length (tag_as_bytes_with_previous_tag_size t) = (15 + length (data t))%nat.
Proof.
  unfold tag_as_bytes_with_previous_tag_size, FlvTagHeader_as_bytes. rewrite !length_app, length_to_be_bytes, !length_be24.
  cbn. lia.
Qed.

(** The fields of the header of an encoded tag. *)
Lemma encoded_fields t rest (c := tag_as_bytes_with_previous_tag_size t ++ rest) (h := header t) :
  take 1 (drop 0 c) = [tag_type h] /\ take 3 (drop 1 c) = be24 (data_size h) /\ take 3 (drop 4 c) = be24 (timestamp h) /\
  take 1 (drop 7 c) = [timestamp_ext h] /\ drop 11 c = data t ++ to_be_bytes 4 (previous_tag_size t) ++ rest.
Proof.
  subst c h. unfold tag_as_bytes_with_previous_tag_size, FlvTagHeader_as_bytes. destruct (header t) as [ty sz ti te sid].
  cbn [tag_type data_size timestamp timestamp_ext stream_id].
  assert (forall x, exists a b c, be24 x = [a; b; c]) as H3 by (intros x; by do 3 eexists).
  destruct (H3 sz) as (? & ? & ? & ->), (H3 ti) as (? & ? & ? & ->), (H3 sid) as (? & ? & ? & ->).
  split_and!; try done. cbn [app drop]. by rewrite <-app_assoc.
Qed.

Lemma tag_of_encoded t rest :
  well_formed t -> tag_of (tag_as_bytes_with_previous_tag_size t ++ rest) = Some (t, rest).
Proof.
  intros [Hty Hda Hsz Hti Hte Hst Hpr]. destruct (encoded_fields t rest) as (E0 & E1 & E4 & E7 & E11).
  unfold tag_of. rewrite E0, E1, E4, E7, !from_be1. unfold FLV_TAG_HEADER_LENGTH, PREVIOUS_TAG_SIZE_LENGTH. rewrite E11.
  assert (fits 24 (data_size (header t))) as Hf by (unfold fits; lia). rewrite !from_be24 by done. cbv zeta.
  rewrite Hsz, Nat2Z.id, length_app, length_encode. rewrite !(proj2 (Nat.ltb_ge _ _)) by lia. cbn [orb].
  rewrite take_app_length. rewrite drop_app_length' by (rewrite length_encode; lia). do 2 f_equal.
  destruct t as [[ty sz ti te sid] d pt]. cbn in *. subst sid. f_equal; [by rewrite Hsz|].
  rewrite wrap_id; [lia|]. unfold fits. cbn. lia.
Qed.

(** A tag that is not complete is not taken. *)
Lemma tag_of_partial t c x :
  well_formed t -> c ++ x = tag_as_bytes_with_previous_tag_size t -> x <> [] -> tag_of c = None.
Proof.
  intros Hw Hc Hx. pose proof (length_encode t) as Hl. rewrite <-Hc, length_app in Hl.
  assert (0 < length x)%nat by (destruct x; [done|cbn; lia]).
  destruct (decide (length c < 11)%nat); [apply tag_of_None; lia|].
  destruct (encoded_fields t []) as (_ & E1 & _). rewrite app_nil_r, <-Hc in E1.
  rewrite drop_app_le, take_app_le in E1 by (rewrite ?length_drop; lia).
  unfold tag_of. rewrite E1. unfold FLV_TAG_HEADER_LENGTH, PREVIOUS_TAG_SIZE_LENGTH.
  destruct Hw as [_ Hd Hs _ _ _ _]. assert (fits 24 (data_size (header t))) as Hf by (unfold fits; lia).
  rewrite from_be24 by done. cbv zeta. rewrite Hs, Nat2Z.id.
  by rewrite orb_comm, (proj2 (Nat.ltb_lt _ (11 + length (data t) + 4))) by lia.
Qed.

(** The front of a cut stream: no tag, or the first one. *)
Lemma tag_of_stream ts c rest :
  Forall well_formed ts -> c ++ rest = stream ts ->
  tag_of c = None \/ exists t ts' c', ts = t :: ts' /\ tag_of c = Some (t, c') /\ c' ++ rest = stream ts'.
Proof.
  intros Hw Hc. destruct Hw as [|t ts Ht Hts]; [left; apply app_eq_nil in Hc as [-> _]; done|].
  change (stream (t :: ts)) with (tag_as_bytes_with_previous_tag_size t ++ stream ts) in Hc.
  apply app_eq_inv in Hc as [(k & Hk1 & Hk2)|(k & Hk1 & Hk2)].
  - right. exists t, ts, k. split; [done|]. rewrite Hk1. split; [by apply tag_of_encoded|done].
  - destruct k as [|x k]; [|left; by eapply tag_of_partial].
    right. rewrite app_nil_r in Hk1. exists t, ts, []. split; [done|]. split; [|done].
    rewrite <-Hk1, <-(app_nil_r (tag_as_bytes_with_previous_tag_size t)). by apply tag_of_encoded.
Qed.

Lemma q_get_parsed q : q_parsed q = true ->
  q_get q = match tag_of (q_bytes q) with
            | None => (None, q)
            | Some (t, rest) => (Some t, {| q_header := q_header q; q_parsed := q_parsed q; q_bytes := rest |})
            end.
Proof.
  intros Hp. unfold q_get. destruct (Nat.ltb_spec (length (q_bytes q)) FLV_TAG_HEADER_LENGTH) as [H|H].
  - rewrite tag_of_None; [done|]. unfold FLV_TAG_HEADER_LENGTH in H. lia.
  - assert (q_parse q = q) as -> by (unfold q_parse; by rewrite Hp). done.
Qed.

(** The first call parses the header, and goes on as every other. *)
Lemma q_get_first q : (11 <= length (q_bytes q))%nat -> q_get q = q_get (q_parse q).
Proof.
  intros H. assert (q_parsed (q_parse q) = true) as Hp.
  { unfold q_parse. destruct (q_parsed q) eqn:E; [done|]. rewrite (proj2 (Nat.ltb_ge _ _)) by (unfold FLV_HEADER_LENGTH; lia).
    cbn [orb]. by destruct (valid_header _). }
  rewrite (q_get_parsed (q_parse q)) by done. unfold q_get. by rewrite (proj2 (Nat.ltb_ge _ _)) by (unfold FLV_TAG_HEADER_LENGTH; lia).
Qed.

Lemma q_parse_header f c :
  f = 0x01 \/ f = 0x04 \/ f = 0x05 ->
  q_parse {| q_header := None; q_parsed := false; q_bytes := header_as_bytes_with_previous_tag_size {| flags := f |} ++ c |}
    = {| q_header := Some {| flags := f |}; q_parsed := true; q_bytes := c |}.
Proof. by intros [->|[->| ->]]. Qed.

(** One call of the write callback. *)
Lemma write_callback_spec b d :
  inv b -> Z.of_nat (len b) + Z.of_nat (length d) < 2 ^ 62 -> header_safe (q_write d (abs b)) ->
  exists r b', write_callback d b = Ret (option_map (set_stream_id 1) r, b') /\ inv b' /\ (r, abs b') = q_get (q_write d (abs b)).
Proof.
  intros Hi Hsz Hs. destruct (proj1 (ring_is_queue b Hi) d Hsz) as (b1 & Hb1 & Hi1 & Ha1).
  destruct (proj2 (ring_is_queue b1 Hi1)) as (r & b2 & Hb2 & Hi2 & Ha2); [by rewrite Ha1|].
  exists r, b2. unfold write_callback. rewrite Hb1. red_bind. rewrite Hb2. red_bind. cbn [fst snd].
  split_and!; [done|done|]. by rewrite Ha2, Ha1.
Qed.

(** What the calls send, and what is left. *)
Definition sent (h : option FlvHeader) (ts : list FlvTag) (n : nat) (out : list FlvTag) (rest : list Z) (b : FlvBuffer) : Prop :=
  inv b /\ header_parsed b = true /\ flv_header b = h /\ out = (set_stream_id 1 <$> take n ts) /\
  content b ++ rest = stream (drop n ts).

Lemma call_sends h ts d rest b b' r :
  Forall well_formed ts -> inv b' ->
  (exists c, q_get (q_write d (abs b)) = q_get {| q_header := h; q_parsed := true; q_bytes := c |} /\ c ++ rest = stream ts) ->
  (r, abs b') = q_get (q_write d (abs b)) ->
  exists n, (n <= 1)%nat /\ sent h ts n (match r with Some t => [set_stream_id 1 t] | None => [] end) rest b'.
Proof.
  intros Hw Hi (c & Eq & Hs) Hr. rewrite Eq in *. rewrite q_get_parsed in Hr by done. cbn [q_bytes q_header q_parsed] in Hr.
  assert (forall q, abs b' = q -> header_parsed b' = q_parsed q /\ flv_header b' = q_header q /\ content b' = q_bytes q) as Habs
    by (by intros q <-).
  destruct (tag_of_stream ts c rest Hw Hs) as [E|(t & ts' & c' & -> & E & Hc)]; rewrite E in Hr;
    apply pair_eq in Hr as [-> (Hp & Hh & Hcc)%Habs].
  - exists 0%nat. split; [lia|]. split_and!; [done|done|done|done|]. by rewrite Hcc.
  - exists 1%nat. split; [done|]. split_and!; [done|done|done|done|]. by rewrite Hcc.
Qed.

Lemma stream_length_drop ts n : (length (stream (drop n ts)) <= length (stream ts))%nat.
Proof.
  rewrite <-(take_drop n ts) at 2. unfold stream. rewrite fmap_app, concat_app, length_app. lia.
Qed.

(** Calls after the first one. *)
Lemma callbacks_send chunks rest : forall ts b,
  Forall well_formed ts -> inv b -> header_parsed b = true -> content b ++ concat chunks ++ rest = stream ts ->
  Z.of_nat (length (stream ts)) < 2 ^ 62 ->
  exists n out b', callbacks chunks b = Ret (out, b') /\ (n <= length chunks)%nat /\ sent (flv_header b) ts n out rest b'.
Proof.
  induction chunks as [|d chunks IH]; intros ts b Hw Hi Hp Hc Hsz.
  { by exists 0%nat, [], b. }
  cbn [callbacks concat]. assert (Z.of_nat (len b) + Z.of_nat (length d) < 2 ^ 62) as Hd.
  { rewrite <-Hc in Hsz. cbn [concat] in Hsz. rewrite !length_app, length_content in Hsz. lia. }
  destruct (write_callback_spec b d Hi Hd) as (r & b1 & Hb1 & Hi1 & Hr); [by left|].
  destruct (call_sends (flv_header b) ts d (concat chunks ++ rest) b b1 r Hw Hi1) as (n & Hn & Hi1' & Hp1 & Hh1 & Ho & Hc1); [|done|].
  { exists (content b ++ d). unfold q_write, abs. cbn [q_header q_parsed q_bytes]. rewrite Hp. split; [done|].
    rewrite <-Hc. cbn [concat]. by rewrite <-!app_assoc. }
  destruct (IH (drop n ts) b1) as (m & out & b2 & Hb2 & Hm & Hi2 & Hp2 & Hh2 & Ho2 & Hc2); [by apply Forall_drop|done|done|done|..].
  { pose proof (stream_length_drop ts n). lia. }
  rewrite Hb1. red_bind. cbn [fst snd]. rewrite Hb2. red_bind. cbn [fst snd].
  exists (n + m)%nat. do 2 eexists. split; [reflexivity|]. split; [cbn [length]; lia|]. split_and!; [done|done|congruence| |].
  - rewrite Ho2. rewrite <-take_take_drop, fmap_app, <-Ho. by destruct r.
  - by rewrite <-drop_drop.
Qed.

(** Calls without new bytes send what is left, a tag each. *)
Lemma flush_sends m : forall ts b,
  Forall well_formed ts -> inv b -> header_parsed b = true -> content b = stream ts ->
  Z.of_nat (length (stream ts)) < 2 ^ 62 ->
  exists b', callbacks (replicate m []) b = Ret (set_stream_id 1 <$> take m ts, b') /\ content b' = stream (drop m ts).
Proof.
  induction m as [|m IH]; intros ts b Hw Hi Hp Hc Hsz.
  { exists b. by rewrite take_0. }
  cbn [replicate callbacks].
  destruct (write_callback_spec b [] Hi) as (r & b1 & Hb1 & Hi1 & Hr); [rewrite <-length_content, Hc; cbn; lia|by left|].
  assert (q_bytes (q_write [] (abs b)) = stream ts) as Hq by (cbn [q_bytes q_write abs]; by rewrite app_nil_r).
  rewrite q_get_parsed, Hq in Hr by done. rewrite Hb1. red_bind. cbn [fst snd].
  destruct Hw as [|t ts Ht Hts].
  - rewrite tag_of_None in Hr by (cbn; lia). apply pair_eq in Hr as [-> Ha].
    destruct (IH [] b1) as (b2 & Hb2 & Hc2); [done|done| | |done|].
    + change (header_parsed b1) with (q_parsed (abs b1)). by rewrite Ha.
    + change (content b1) with (q_bytes (abs b1)). by rewrite Ha.
    + rewrite Hb2. exists b2. red_bind. cbn [fst snd option_map]. by destruct m.
  - change (stream (t :: ts)) with (tag_as_bytes_with_previous_tag_size t ++ stream ts) in Hr, Hsz.
    rewrite tag_of_encoded in Hr by done. apply pair_eq in Hr as [-> Ha].
    destruct (IH ts b1) as (b2 & Hb2 & Hc2); [done|done| | |rewrite length_app in Hsz; lia|].
    + change (header_parsed b1) with (q_parsed (abs b1)). by rewrite Ha.
    + change (content b1) with (q_bytes (abs b1)). by rewrite Ha.
    + rewrite Hb2. exists b2. by red_bind.
Qed.

(** C40. The muxer's file arrives: a header and tags, cut into writes anywhere behind the
    first 13 bytes, in a buffer of any size.  The callback sends the first tags, in
    order and unchanged but for the stream, at most one for each write; the rest
    stays in the buffer, complete, and further calls send it a tag at a time. *)
Theorem flv_stream_is_forwarded (capacity f : Z) (ts : list FlvTag) (first : list Z) (chunks : list (list Z)) :
  0 <= capacity <= 2 ^ 62 -> f = 0x01 \/ f = 0x04 \/ f = 0x05 -> Forall well_formed ts ->
  first ++ concat chunks = header_as_bytes_with_previous_tag_size {| flags := f |} ++ stream ts ->
  (13 <= length first)%nat -> Z.of_nat (length (stream ts)) + 13 < 2 ^ 62 ->
  exists b b' n,
    with_capacity capacity = Ret b /\
    callbacks (first :: chunks) b = Ret (set_stream_id 1 <$> take n ts, b') /\ (n <= S (length chunks))%nat /\
    flv_header b' = Some {| flags := f |} /\ content b' = stream (drop n ts) /\
    (forall m, exists b'', callbacks (replicate m []) b' = Ret (set_stream_id 1 <$> take m (drop n ts), b'')).
Proof.
  intros Hcap Hf Hw Hc H13 Hsz. destruct (with_capacity_ok capacity Hcap) as (b & Hb & Hi & Hc0 & Hh0 & Hp0 & _).
  assert (exists c, first = header_as_bytes_with_previous_tag_size {| flags := f |} ++ c /\ c ++ concat chunks = stream ts)
    as (c & Hfc & Hcc).
  { apply app_eq_inv in Hc as [(k & -> & Hk)|(k & Hk & ->)]; [by exists k|]. exists [].
    assert (k = []) as ->; [|by rewrite app_nil_r in *]. apply (f_equal length) in Hk. rewrite length_app in Hk.
    destruct k; [done|]. cbn in Hk. lia. }
  assert (Z.of_nat (len b) + Z.of_nat (length first) < 2 ^ 62) as Hl.
  { rewrite <-length_content, Hc0, Hfc, length_app. rewrite <-Hcc, length_app in Hsz. cbn [length] in *.
    change (length (header_as_bytes_with_previous_tag_size _)) with 13%nat. lia. }
  assert (q_write first (abs b) = {| q_header := None; q_parsed := false; q_bytes := first |}) as Hq.
  { unfold q_write, abs. cbn. by rewrite Hc0, Hh0, Hp0. }
  destruct (write_callback_spec b first Hi Hl) as (r & b1 & Hb1 & Hi1 & Hr); [rewrite Hq; by right; right|].
  destruct (call_sends (Some {| flags := f |}) ts first (concat chunks) b b1 r Hw Hi1) as (n & Hn & _ & Hp1 & Hh1 & Ho & Hc1);
    [|done|].
  { exists c. split; [|done]. rewrite Hq, q_get_first by (cbn [q_bytes]; lia). by rewrite Hfc, q_parse_header. }
  assert (Forall well_formed (drop n ts)) as Hwn by (by apply Forall_drop).
  pose proof (stream_length_drop ts n) as Hln.
  destruct (callbacks_send chunks [] (drop n ts) b1) as (m & out & b2 & Hb2 & Hm & Hi2 & Hp2 & Hh2 & Ho2 & Hc2);
    [done|done|done|by rewrite app_nil_r|lia|]. rewrite app_nil_r, drop_drop in Hc2.
  exists b, b2, (n + m)%nat. cbn [callbacks]. rewrite Hb1. red_bind. cbn [fst snd]. rewrite Hb2. red_bind. cbn [fst snd].
  split_and!; [done| |lia|congruence|done|].
  - rewrite Ho2, <-take_take_drop, fmap_app, <-Ho. by destruct r.
  - intros k. pose proof (stream_length_drop ts (n + m)).
    destruct (flush_sends k (drop (n + m) ts) b2) as (b3 & Hb3 & _); [by apply Forall_drop|done..|lia|]. by exists b3.
Qed.

(** ** The code on a small stream *)

Definition example_tag (ty ts : Z) (d : list Z) : FlvTag :=
  {| header := {| tag_type := ty; data_size := Z.of_nat (length d); timestamp := ts; timestamp_ext := 0; stream_id := 0 |};
     data := d; previous_tag_size := 11 + Z.of_nat (length d) |}.

Definition example_tags : list FlvTag := [example_tag 8 0 [0xaf; 0x00]; example_tag 9 40 [0x17; 0x01; 0x02; 0x03]].

Lemma example_tags_well_formed : Forall well_formed example_tags.
Proof. repeat constructor; cbn; lia. Qed.

Definition example_file : list Z := header_as_bytes_with_previous_tag_size {| flags := 5 |} ++ stream example_tags.

Definition sent_by (capacity : Z) (chunks : list (list Z)) : outcome (list FlvTag) :=
  b ← with_capacity capacity; r ← callbacks chunks b; Ret (fst r).

(** A write that holds several tags sends one; the others wait for later writes, and
    at the end of the stream they are never sent. *)
Example one_tag_for_each_write :
  sent_by 16 [example_file] = Ret [set_stream_id 1 (example_tag 8 0 [0xaf; 0x00])].
Proof. by vm_compute. Qed.

(** A first write of 11 or 12 bytes: the header is taken with the field behind it,
    the head passes the tail, and the buffer counts as full.  A tag that was never
    written is sent. *)
Example short_first_write_invents_a_tag :
  sent_by 32 [take 12 example_file] = Ret [set_stream_id 1 (example_tag 0 0 [])].
Proof. by vm_compute. Qed.

Lemma ring_buffer_is_a_queue_witness :
  exists b, with_capacity 16 = Ret b /\ inv b /\
    exists b', write_data [1; 2; 3] b = Ret b' /\ inv b' /\ abs b' = q_write [1; 2; 3] (abs b).
Proof.
  destruct (with_capacity_ok 16) as (b & Hb & Hi & Hc & _); [lia|]. exists b. split; [exact Hb|]. split; [exact Hi|].
  apply (proj1 (ring_buffer_is_a_queue b Hi) [1; 2; 3]). rewrite <-length_content, Hc. cbn. lia.
Defined.

Lemma flv_stream_is_forwarded_witness :
  exists b b' n,
    with_capacity 16 = Ret b /\
    callbacks [take 20 example_file; take 5 (drop 20 example_file); drop 25 example_file] b
      = Ret (set_stream_id 1 <$> take n example_tags, b') /\ (n <= 3)%nat.
Proof.
  destruct (flv_stream_is_forwarded 16 5 example_tags (take 20 example_file)
              [take 5 (drop 20 example_file); drop 25 example_file]) as (b & b' & n & Hb & Hc & Hn & _).
  - lia.
  - by right; right.
  - exact example_tags_well_formed.
  - reflexivity.
  - cbn. lia.
  - cbn. lia.
  - exists b, b', n. split; [exact Hb|]. split; [exact Hc|exact Hn].
Defined.
