(* ===== verification/Rtmp.v ===== *)
(** * The RTMP scheduler ([ez-ffmpeg/src/rtmp]: [rtmp_scheduler.rs], [gop.rs]).

    It joins publishers and watchers of streams: it keeps the clients in a slab,
    forwards the media of a stream to its watchers, and caches the latest groups of
    pictures for those who come later.  The protocol itself is the crate [rml_rtmp],
    an interface here; a method on [&mut self] returns the new session, also when it
    fails.  The key that the slab gives to a new client and the order in which a
    [HashSet] is visited are arguments. *)

From stdpp Require Import base list option strings gmap.
From Stdlib Require Import ZArith Lia.
From S2P Require Import Prelude.

Local Open Scope Z_scope.

(** ** [rml_rtmp] *)

(** The events that the scheduler reads; the others are only logged. *)
Inductive SessionEvent (Metadata : Type) :=
  | ConnectionRequested (request_id : Z) (app_name : string)
  | PublishStreamRequested (request_id : Z) (app_name stream_key : string)
  | PublishStreamFinished (app_name stream_key : string)
  | PlayStreamRequested (request_id : Z) (app_name stream_key : string) (stream_id : Z)
  | StreamMetadataChanged (app_name stream_key : string) (metadata : Metadata)
  | AudioDataReceived (app_name stream_key : string) (data : list Z) (timestamp : Z)
  | VideoDataReceived (app_name stream_key : string) (data : list Z) (timestamp : Z)
  | OtherEvent.

Inductive SessionResult (Packet Metadata : Type) :=
  | OutboundResponse (packet : Packet)
  | RaisedEvent (event : SessionEvent Metadata)
  | UnhandleableMessageReceived.

Arguments ConnectionRequested {Metadata}.
Arguments PublishStreamRequested {Metadata}.
Arguments PublishStreamFinished {Metadata}.
Arguments PlayStreamRequested {Metadata}.
Arguments StreamMetadataChanged {Metadata}.
Arguments AudioDataReceived {Metadata}.
Arguments VideoDataReceived {Metadata}.
Arguments OtherEvent {Metadata}.
Arguments OutboundResponse {Packet Metadata}.
Arguments RaisedEvent {Packet Metadata}.
Arguments UnhandleableMessageReceived {Packet Metadata}.

(** A [ServerSession] and its methods. *)
Class Rml := {
  Session : Type;
  Packet : Type;
  Metadata : Type;
  session_new : result (Session * list (SessionResult Packet Metadata)) string;
  handle_input : Session -> list Z -> Session * result (list (SessionResult Packet Metadata)) string;
  accept_request : Session -> Z -> Session * result (list (SessionResult Packet Metadata)) string;
  send_metadata : Session -> Z -> Metadata -> Session * result Packet string;
  send_video_data : Session -> Z -> list Z -> Z -> bool -> Session * result Packet string;
  send_audio_data : Session -> Z -> list Z -> Z -> bool -> Session * result Packet string;
  finish_playing : Session -> Z -> Session * result Packet string
}.

(** ** Groups of pictures *)

Inductive FrameData := Video (timestamp : Z) (data : list Z) | Audio (timestamp : Z) (data : list Z).

Definition Gop : Type := list FrameData.

Record Gops := { gops : list Gop; size : nat }.

Definition Gops_new (size : nat) : Gops := {| gops := [[]]; size := size |}.

(** [back_mut] and a push. *)
Definition push_back_frame (d : FrameData) (l : list Gop) : list Gop :=
  match last l with Some g => removelast l ++ [g ++ [d]] | None => l end.

Definition save_frame_data (d : FrameData) (is_key_frame : bool) (g : Gops) : Gops :=
  if (size g =? 0)%nat then g
  else
    let l := if is_key_frame
             then (if (length (gops g) =? size g)%nat then tail (gops g) else gops g) ++ [[]]
             else gops g in
    {| gops := push_back_frame d l; size := size g |}.

Definition get_gops (g : Gops) : list Gop := gops g.

(** ** The scheduler's state *)

Section Scheduler.
  Context `{R : Rml}.

Inductive ClientAction :=
  | Waiting
  | Publishing (stream_key : string)
  | Watching (stream_key : string) (stream_id : Z).

Record Client := {
  session : Session;
  current_action : ClientAction;
  connection_id : Z;
  has_received_video_keyframe : bool
}.

Definition get_active_stream_id (c : Client) : option Z :=
  match current_action c with
  | Waiting | Publishing _ => None
  | Watching _ stream_id => Some stream_id
  end.

Record MediaChannel := {
  publishing_client_id : option nat;
  watching_client_ids : gset nat;
  metadata : option Metadata;
  video_sequence_header : option (list Z);
  video_timestamp : Z;
  audio_sequence_header : option (list Z);
  audio_timestamp : Z;
  channel_gops : Gops
}.

Definition MediaChannel_new (gop_limit : nat) : MediaChannel :=
  {| publishing_client_id := None; watching_client_ids := ∅; metadata := None; video_sequence_header := None;
     video_timestamp := 0; audio_sequence_header := None; audio_timestamp := 0; channel_gops := Gops_new gop_limit |}.

Inductive ServerResult :=
  | DisconnectConnection (connection : Z)
  | OutboundPacket (target_connection : Z) (packet : Packet).

Record RtmpScheduler := {
  clients : gmap nat Client;
  connection_to_client_map : gmap Z nat;
  publisher_to_client_map : gmap Z nat;
  channels : gmap string MediaChannel;
  gop_limit : nat
}.

Definition RtmpScheduler_new (gop_limit : nat) : RtmpScheduler :=
  {| clients := ∅; connection_to_client_map := ∅; publisher_to_client_map := ∅; channels := ∅; gop_limit := gop_limit |}.

(** Assignments. *)
Definition set_session (x : Session) (c : Client) : Client :=
  {| session := x; current_action := current_action c; connection_id := connection_id c;
     has_received_video_keyframe := has_received_video_keyframe c |}.
Definition set_action (a : ClientAction) (c : Client) : Client :=
  {| session := session c; current_action := a; connection_id := connection_id c;
     has_received_video_keyframe := has_received_video_keyframe c |}.
Definition set_keyframe (c : Client) : Client :=
  {| session := session c; current_action := current_action c; connection_id := connection_id c;
     has_received_video_keyframe := true |}.
Definition set_watching (w : gset nat) (m : MediaChannel) : MediaChannel :=
  {| publishing_client_id := publishing_client_id m; watching_client_ids := w; metadata := metadata m;
     video_sequence_header := video_sequence_header m; video_timestamp := video_timestamp m;
     audio_sequence_header := audio_sequence_header m; audio_timestamp := audio_timestamp m; channel_gops := channel_gops m |}.
Definition set_publisher (p : option nat) (md : option Metadata) (m : MediaChannel) : MediaChannel :=
  {| publishing_client_id := p; watching_client_ids := watching_client_ids m; metadata := md;
     video_sequence_header := video_sequence_header m; video_timestamp := video_timestamp m;
     audio_sequence_header := audio_sequence_header m; audio_timestamp := audio_timestamp m; channel_gops := channel_gops m |}.
Definition set_clients (cs : gmap nat Client) (s : RtmpScheduler) : RtmpScheduler :=
  {| clients := cs; connection_to_client_map := connection_to_client_map s; publisher_to_client_map := publisher_to_client_map s;
     channels := channels s; gop_limit := gop_limit s |}.
Definition set_channels (ch : gmap string MediaChannel) (s : RtmpScheduler) : RtmpScheduler :=
  {| clients := clients s; connection_to_client_map := connection_to_client_map s;
     publisher_to_client_map := publisher_to_client_map s; channels := ch; gop_limit := gop_limit s |}.
Definition set_connections (m : gmap Z nat) (s : RtmpScheduler) : RtmpScheduler :=
  {| clients := clients s; connection_to_client_map := m; publisher_to_client_map := publisher_to_client_map s;
     channels := channels s; gop_limit := gop_limit s |}.
Definition set_publishers (m : gmap Z nat) (s : RtmpScheduler) : RtmpScheduler :=
  {| clients := clients s; connection_to_client_map := connection_to_client_map s; publisher_to_client_map := m;
     channels := channels s; gop_limit := gop_limit s |}.

Definition put_client (k : nat) (c : Client) (s : RtmpScheduler) : RtmpScheduler := set_clients (<[k := c]> (clients s)) s.

(** [unwrap()] *)
Definition unwrap {A : Type} (o : option A) : outcome A := match o with Some a => Ret a | None => Panic end.

(** [self.channels.entry(key).or_insert(MediaChannel::new(limit))] *)
Definition or_insert (key : string) (s : RtmpScheduler) : RtmpScheduler :=
  match channels s !! key with
  | Some _ => s
  | None => set_channels (<[key := MediaChannel_new (gop_limit s)]> (channels s)) s
  end.

(** ** Publishers and connections *)

(** [new_channel]; [k] is the key of the slab's next entry. *)
Definition new_channel (k : nat) (stream_key : string) (publisher_connection_id : Z) (s : RtmpScheduler) : bool * RtmpScheduler :=
  let taken := match channels s !! stream_key with
               | Some channel => bool_decide (is_Some (publishing_client_id channel))
               | None => false
               end in
  if taken then (false, s)
  else match session_new with
       | Err _ => (false, s)
       | Ok (session, _) =>
         let client := {| session := session; current_action := Publishing stream_key;
                          connection_id := publisher_connection_id; has_received_video_keyframe := false |} in
         let s := put_client k client s in
         let s := set_publishers (<[publisher_connection_id := k]> (publisher_to_client_map s)) s in
         (true, or_insert stream_key s)
       end.

Definition play_ended (client_id : nat) (stream_key : string) (s : RtmpScheduler) : RtmpScheduler :=
  match channels s !! stream_key with
  | None => s
  | Some channel =>
    set_channels (<[stream_key := set_watching (watching_client_ids channel ∖ {[client_id]}) channel]> (channels s)) s
  end.

Definition publishing_ended (stream_key : string) (s : RtmpScheduler) : RtmpScheduler :=
  match channels s !! stream_key with
  | None => s
  | Some channel => set_channels (<[stream_key := set_publisher None None channel]> (channels s)) s
  end.

(** [Slab::remove] panics when there is no such entry. *)
Definition remove_client (k : nat) (s : RtmpScheduler) : outcome (Client * RtmpScheduler) :=
  match clients s !! k with
  | Some c => Ret (c, set_clients (delete k (clients s)) s)
  | None => Panic
  end.

Definition notify_connection_closed (conn : Z) (s : RtmpScheduler) : outcome RtmpScheduler :=
  match connection_to_client_map s !! conn with
  | None => Ret s
  | Some client_id =>
    let s := set_connections (delete conn (connection_to_client_map s)) s in
    '(client, s) ← remove_client client_id s;
    match current_action client with
    | Watching stream_key _ => Ret (play_ended client_id stream_key s)
    | _ => Ret s
    end
  end.

Definition notify_publisher_closed (conn : Z) (s : RtmpScheduler) : outcome RtmpScheduler :=
  match publisher_to_client_map s !! conn with
  | None => Ret s
  | Some client_id =>
    let s := set_publishers (delete conn (publisher_to_client_map s)) s in
    '(client, s) ← remove_client client_id s;
    match current_action client with
    | Publishing stream_key => Ret (publishing_ended stream_key s)
    | _ => Ret s
    end
  end.

(** ** Media *)

Definition byte_at (i : nat) (v : Z) (data : list Z) : bool := match data !! i with Some b => b =? v | None => false end.

Definition is_video_sequence_header (data : list Z) : bool :=
  (2 <=? length data)%nat && byte_at 0 0x17 data && byte_at 1 0x00 data.
Definition is_audio_sequence_header (data : list Z) : bool :=
  (2 <=? length data)%nat && byte_at 0 0xaf data && byte_at 1 0x00 data.
Definition is_video_keyframe (data : list Z) : bool :=
  (2 <=? length data)%nat && byte_at 0 0x17 data && negb (byte_at 1 0x00 data).

Inductive ReceivedDataType := AudioData | VideoData.

(** The order in which a set is visited. *)
Context (order : gset nat -> list nat).

Abbreviation state := (RtmpScheduler * list ServerResult)%type.

(** A packet for a client, or its end. *)
Definition push_result (conn : Z) (r : result Packet string) (out : list ServerResult) : list ServerResult :=
  out ++ [match r with Ok packet => OutboundPacket conn packet | Err _ => DisconnectConnection conn end].

(** A loop over the watchers that exist and watch: [f] is the body, on the client
    and its stream. *)
Definition for_watchers (f : Z -> Client -> list ServerResult -> Client * list ServerResult) (ids : list nat) (st : state) : state :=
  foldl (fun '(s, out) client_id =>
    match clients s !! client_id with
    | None => (s, out)
    | Some client =>
      match get_active_stream_id client with
      | None => (s, out)
      | Some active_stream_id =>
        let '(client, out) := f active_stream_id client out in (put_client client_id client s, out)
      end
    end) st ids.

Definition handle_publish_finished (stream_key : string) (st : state) : state :=
  let '(s, out) := st in
  match channels s !! stream_key with
  | None => (s, out)
  | Some channel =>
    for_watchers (fun stream_id client out =>
      let '(x, r) := finish_playing (session client) stream_id in
      (set_session x client,
       match r with Ok packet => out ++ [OutboundPacket (connection_id client) packet] | Err _ => out end
         ++ [DisconnectConnection (connection_id client)]))
      (order (watching_client_ids channel)) (s, out)
  end.

Definition set_metadata (md : Metadata) (m : MediaChannel) : MediaChannel := set_publisher (publishing_client_id m) (Some md) m.

Definition handle_metadata_received (stream_key : string) (md : Metadata) (st : state) : state :=
  let '(s, out) := st in
  match channels s !! stream_key with
  | None => (s, out)
  | Some channel =>
    let s := set_channels (<[stream_key := set_metadata md channel]> (channels s)) s in
    for_watchers (fun stream_id client out =>
      let '(x, r) := send_metadata (session client) stream_id md in
      (set_session x client, push_result (connection_id client) r out))
      (order (watching_client_ids channel)) (s, out)
  end.

(** What a channel keeps of the data. *)
Definition record_media (t : ReceivedDataType) (timestamp : Z) (data : list Z) (m : MediaChannel) : MediaChannel :=
  match t with
  | VideoData =>
    let header := is_video_sequence_header data in
    {| publishing_client_id := publishing_client_id m; watching_client_ids := watching_client_ids m; metadata := metadata m;
       video_sequence_header := if header then Some data else video_sequence_header m;
       video_timestamp := if header then timestamp else video_timestamp m;
       audio_sequence_header := audio_sequence_header m; audio_timestamp := audio_timestamp m;
       channel_gops := save_frame_data (Video timestamp data) (is_video_keyframe data) (channel_gops m) |}
  | AudioData =>
    let header := is_audio_sequence_header data in
    {| publishing_client_id := publishing_client_id m; watching_client_ids := watching_client_ids m; metadata := metadata m;
       video_sequence_header := video_sequence_header m; video_timestamp := video_timestamp m;
       audio_sequence_header := if header then Some data else audio_sequence_header m;
       audio_timestamp := if header then timestamp else audio_timestamp m;
       channel_gops := save_frame_data (Audio timestamp data) false (channel_gops m) |}
  end.

Definition should_send (t : ReceivedDataType) (data : list Z) (c : Client) : bool :=
  match t with
  | VideoData => has_received_video_keyframe c || is_video_sequence_header data || is_video_keyframe data
  | AudioData => has_received_video_keyframe c || is_audio_sequence_header data
  end.

Definition send_to_client (t : ReceivedDataType) (timestamp : Z) (data : list Z) (stream_id : Z) (client : Client)
    (out : list ServerResult) : Client * list ServerResult :=
  if negb (should_send t data client) then (client, out)
  else
    let '(client, (x, r)) :=
      match t with
      | AudioData => (client, send_audio_data (session client) stream_id data timestamp true)
      | VideoData =>
        let client := if is_video_keyframe data then set_keyframe client else client in
        (client, send_video_data (session client) stream_id data timestamp true)
      end in
    (set_session x client, push_result (connection_id client) r out).

Definition handle_audio_video_data_received (stream_key : string) (timestamp : Z) (data : list Z) (t : ReceivedDataType)
    (st : state) : state :=
  let '(s, out) := st in
  match channels s !! stream_key with
  | None => (s, out)
  | Some channel =>
    let channel := record_media t timestamp data channel in
    let s := set_channels (<[stream_key := channel]> (channels s)) s in
    for_watchers (send_to_client t timestamp data) (order (watching_client_ids channel)) (s, out)
  end.

(** ** A new watcher *)

(** What was sent before a failure, with the session; the failure is told apart by
    the caller. *)
Definition results := list (SessionResult Packet Metadata).

(** One packet of the state of the channel: [None] ends the handler. *)
Definition send_one (send : Session -> Session * result Packet string) (client : Client) (rs : results) : Client * option results :=
  let '(x, r) := send (session client) in
  (set_session x client, match r with Ok packet => Some (rs ++ [OutboundResponse packet]) | Err _ => None end).

Definition send_opt {A : Type} (o : option A) (send : A -> Session -> Session * result Packet string) (r : Client * option results)
    : Client * option results :=
  match o, r with
  | Some a, (client, Some rs) => send_one (send a) client rs
  | _, _ => r
  end.

(** A frame of the cache: a failure disconnects, and the loop goes on. *)
Definition send_frame (conn stream_id : Z) (st : Client * results * list ServerResult) (d : FrameData)
    : Client * results * list ServerResult :=
  let '(client, rs, out) := st in
  let '(x, r) := match d with
                 | Video timestamp data => send_video_data (session client) stream_id data timestamp false
                 | Audio timestamp data => send_audio_data (session client) stream_id data timestamp false
                 end in
  match r with
  | Ok packet => (set_session x client, rs ++ [OutboundResponse packet], out)
  | Err _ => (set_session x client, rs, out ++ [DisconnectConnection conn])
  end.

Definition send_gop (conn stream_id : Z) (st : Client * results * list ServerResult) (g : Gop)
    : Client * results * list ServerResult :=
  let '(client, rs, out) := st in
  let client := if (0 <? length g)%nat then set_keyframe client else client in
  foldl (send_frame conn stream_id) (client, rs, out) g.

(** The whole answer to an accepted request: the client, what there is to handle
    ([None] when a part failed), and the results so far. *)
Definition greet (conn stream_id : Z) (channel : MediaChannel) (client : Client) (rs : results) (out : list ServerResult)
    : Client * option results * list ServerResult :=
  let r := (client, Some rs) in
  let r := send_opt (metadata channel) (fun md x => send_metadata x stream_id md) r in
  let r := send_opt (video_sequence_header channel)
             (fun data x => send_video_data x stream_id data (video_timestamp channel) false) r in
  let r := send_opt (audio_sequence_header channel)
             (fun data x => send_audio_data x stream_id data (audio_timestamp channel) false) r in
  match r with
  | (client, None) => (client, None, out ++ [DisconnectConnection conn])
  | (client, Some rs) =>
    let '(client, rs, out) := foldl (send_gop conn stream_id) (client, rs, out) (get_gops (channel_gops channel)) in
    (client, Some rs, out)
  end.

(** ** Events *)

Definition handle_connection_requested (handle : Z -> results -> state -> outcome state) (conn request_id : Z) (st : state)
    : outcome state :=
  let '(s, out) := st in
  client_id ← unwrap (connection_to_client_map s !! conn);
  client ← unwrap (clients s !! client_id);
  let '(x, r) := accept_request (session client) request_id in
  let s := put_client client_id (set_session x client) s in
  match r with
  | Err _ => Ret (s, out ++ [DisconnectConnection conn])
  | Ok rs => handle conn rs (s, out)
  end.

Definition handle_publish_requested (conn : Z) (st : state) : state :=
  let '(s, out) := st in (s, out ++ [DisconnectConnection conn]).

Definition handle_play_requested (handle : Z -> results -> state -> outcome state) (conn request_id : Z) (stream_key : string)
    (stream_id : Z) (st : state) : outcome state :=
  let '(s, out) := st in
  client_id ← unwrap (connection_to_client_map s !! conn);
  client ← unwrap (clients s !! client_id);
  let client := set_action (Watching stream_key stream_id) client in
  let s := or_insert stream_key s in
  channel ← unwrap (channels s !! stream_key);
  let channel := set_watching ({[client_id]} ∪ watching_client_ids channel) channel in
  let s := set_channels (<[stream_key := channel]> (channels s)) s in
  let '(x, r) := accept_request (session client) request_id in
  let client := set_session x client in
  match r with
  | Err _ => Ret (put_client client_id client s, out ++ [DisconnectConnection conn])
  | Ok rs =>
    match greet conn stream_id channel client rs out with
    | (client, None, out) => Ret (put_client client_id client s, out)
    | (client, Some rs, out) => handle conn rs (put_client client_id client s, out)
    end
  end.

Definition handle_raised_event (handle : Z -> results -> state -> outcome state) (conn : Z) (event : SessionEvent Metadata)
    (st : state) : outcome state :=
  match event with
  | ConnectionRequested request_id _ => handle_connection_requested handle conn request_id st
  | PublishStreamRequested _ _ _ => Ret (handle_publish_requested conn st)
  | PublishStreamFinished _ stream_key => Ret (handle_publish_finished stream_key st)
  | PlayStreamRequested request_id _ stream_key stream_id => handle_play_requested handle conn request_id stream_key stream_id st
  | StreamMetadataChanged _ stream_key md => Ret (handle_metadata_received stream_key md st)
  | VideoDataReceived _ stream_key data timestamp => Ret (handle_audio_video_data_received stream_key timestamp data VideoData st)
  | AudioDataReceived _ stream_key data timestamp => Ret (handle_audio_video_data_received stream_key timestamp data AudioData st)
  | OtherEvent => Ret st
  end.

(** The handlers of requests handle the results of the session's answer in turn:
    [fuel] bounds the depth. *)
Fixpoint handle_session_results (fuel : nat) (conn : Z) (rs : results) (st : state) : outcome state :=
  match fuel with
  | O => Diverge
  | S fuel =>
    foldM (fun st r =>
      match r with
      | OutboundResponse packet => Ret (fst st, snd st ++ [OutboundPacket conn packet])
      | RaisedEvent event => handle_raised_event (handle_session_results fuel) conn event st
      | UnhandleableMessageReceived => Ret st
      end) st rs
  end.

(** ** Bytes *)

(** [bytes_received]; [k] is the key of the slab's next entry. *)
Definition bytes_received (fuel k : nat) (conn : Z) (bytes : list Z) (s : RtmpScheduler)
    : outcome (RtmpScheduler * result (list ServerResult) string) :=
  r ← (match connection_to_client_map s !! conn with
       | Some _ => Ret (Ok (s, []))
       | None =>
         match session_new with
         | Err e => Ret (Err e)
         | Ok (session, initial) =>
           '(s, out) ← handle_session_results fuel conn initial (s, []);
           let client := {| session := session; current_action := Waiting; connection_id := conn;
                            has_received_video_keyframe := false |} in
           let s := put_client k client s in
           Ret (Ok (set_connections (<[conn := k]> (connection_to_client_map s)) s, out))
         end
       end);
  match r with
  | Err e => Ret (s, Err e)
  | Ok (s, out) =>
    client_id ← unwrap (connection_to_client_map s !! conn);
    client ← unwrap (clients s !! client_id);
    let '(x, r) := handle_input (session client) bytes in
    let s := put_client client_id (set_session x client) s in
    match r with
    | Err e => Ret (s, Err e)
    | Ok rs => '(s, out) ← handle_session_results fuel conn rs (s, out); Ret (s, Ok out)
    end
  end.

(** [usize::MAX], the connection named to the handlers of a publisher's events. *)
Definition NO_CONNECTION : Z := 2 ^ 64 - 1.

(** [let _ = client.session.accept_request(request_id)] on the publisher's client. *)
Definition accept_publisher (conn request_id : Z) (s : RtmpScheduler) : outcome RtmpScheduler :=
  client_id ← unwrap (publisher_to_client_map s !! conn);
  client ← unwrap (clients s !! client_id);
  Ret (put_client client_id (set_session (fst (accept_request (session client) request_id)) client) s).

Definition publisher_result (fuel : nat) (conn : Z) (st : state) (r : SessionResult Packet Metadata) : outcome state :=
  match r with
  | RaisedEvent (ConnectionRequested request_id _) | RaisedEvent (PublishStreamRequested request_id _ _) =>
    s ← accept_publisher conn request_id (fst st); Ret (s, snd st)
  | RaisedEvent (PlayStreamRequested _ _ _ _) => Ret st
  | RaisedEvent event => handle_raised_event (handle_session_results fuel) NO_CONNECTION event st
  | OutboundResponse _ | UnhandleableMessageReceived => Ret st
  end.

Definition publish_bytes_received (fuel : nat) (conn : Z) (bytes : list Z) (s : RtmpScheduler)
    : outcome (RtmpScheduler * result (list ServerResult) string) :=
  match publisher_to_client_map s !! conn with
  | None => Ret (s, Ok [])
  | Some client_id =>
    client ← unwrap (clients s !! client_id);
    let '(x, r) := handle_input (session client) bytes in
    let s := put_client client_id (set_session x client) s in
    match r with
    | Err e => Ret (s, Err e)
    | Ok rs => '(s, out) ← foldM (publisher_result fuel conn) (s, []) rs; Ret (s, Ok out)
    end
  end.

End Scheduler.
