(* ===== verification/RtmpSpec.v ===== *)
(** * What the RTMP scheduler promises: its maps agree and nothing panics, the media
    of a stream reaches its watchers, and the cache holds the latest groups. *)

From stdpp Require Import base list option strings gmap.
From Stdlib Require Import ZArith Lia.
From S2P Require Import Prelude Rtmp.

Local Open Scope Z_scope.

(** ** The cache *)

(** The frames that arrive, each with the mark of a key frame. *)
Definition saves (l : list (FrameData * bool)) (g : Gops) : Gops := foldl (fun g '(d, k) => save_frame_data d k g) g l.

(** The reference: all groups, cut at the key frames. *)
Definition groups (l : list (FrameData * bool)) : list Gop :=
  foldl (fun acc '(d, k) => if k : bool then acc ++ [[d]] else push_back_frame d acc) [[]] l.

Definition lastn {A : Type} (n : nat) (l : list A) : list A := drop (length l - n) l.

Lemma push_back_snoc d l g : push_back_frame d (l ++ [g]) = l ++ [g ++ [d]].
Proof. unfold push_back_frame. rewrite last_snoc, removelast_last. done. Qed.

Lemma length_push_back d l : length (push_back_frame d l) = length l.
Proof.
  destruct l as [|g l] using rev_ind; [done|]. rewrite push_back_snoc, !length_app. done.
Qed.

Lemma lastn_push d n l : (0 < n)%nat -> push_back_frame d (lastn n l) = lastn n (push_back_frame d l).
Proof.
  intros Hn. destruct l as [|g l _] using rev_ind; [done|].
  rewrite push_back_snoc. unfold lastn. rewrite !length_app. cbn [length].
  rewrite !drop_app_le by lia. by rewrite push_back_snoc.
Qed.

Lemma lastn_snoc {A : Type} n (l : list A) x :
  (0 < n)%nat ->
  lastn n (l ++ [x]) = (if (length (lastn n l) =? n)%nat then tail (lastn n l) else lastn n l) ++ [x].
Proof.
  intros Hn. unfold lastn. rewrite length_drop, length_app. cbn [length].
  destruct (Nat.eqb_spec (length l - (length l - n)) n) as [E|E].
  - rewrite drop_app_le by lia. f_equal. replace (length l + 1 - n)%nat with (S (length l - n)) by lia.
    rewrite <-Nat.add_1_r, <-drop_drop. by destruct (drop (length l - n) l).
  - replace (length l + 1 - n)%nat with O by lia. by replace (length l - n)%nat with O by lia.
Qed.

Lemma groups_not_nil l : groups l <> [].
Proof.
  induction l as [|[d k] l IH] using rev_ind; [done|]. unfold groups in *. rewrite foldl_app. cbn [foldl].
  destruct k; [by destruct (foldl _ _ l)|]. intros E. apply (f_equal length) in E. rewrite length_push_back in E.
  by destruct (foldl _ _ l).
Qed.

(** The cache holds the last groups of pictures, as many as it is set to, with
    every frame since their key frames in the order of arrival. *)
Theorem cache_holds_the_last_groups (n : nat) (l : list (FrameData * bool)) :
  get_gops (saves l (Gops_new n)) = if (n =? 0)%nat then [[]] else lastn n (groups l).
Proof.
  assert (size (saves l (Gops_new n)) = n /\
    gops (saves l (Gops_new n)) = if (n =? 0)%nat then [[]] else lastn n (groups l)) as [_ H]; [|exact H].
  induction l as [|[d k] l [IHs IHg]] using rev_ind.
  { split; [done|]. cbn. destruct n as [|[|n]]; done. }
  unfold saves, groups in *. rewrite !foldl_app. cbn [foldl]. unfold save_frame_data at 1 3. rewrite IHs, IHg.
  destruct (Nat.eqb_spec n 0) as [->|Hn]; [by rewrite IHs, IHg|]. cbn [size gops]. split; [done|].
  set (gs := foldl _ [[]] l) in *. destruct k.
  - rewrite lastn_snoc by lia. rewrite push_back_snoc. done.
  - apply lastn_push. lia.
Qed.

(** Every cached group but the very first of a stream begins with a key frame. *)
Lemma groups_begin_with_keys l :
  Forall (fun g => exists d, head g = Some d /\ (d, true) ∈ l) (tail (groups l)).
Proof.
  induction l as [|[d k] l IH] using rev_ind; [constructor|]. unfold groups in *. rewrite foldl_app. cbn [foldl].
  pose proof (groups_not_nil l) as Hne. unfold groups in Hne. destruct (foldl _ [[]] l) as [|g0 gs]; [done|]. cbn [tail] in IH.
  assert (Forall (fun g => exists d', head g = Some d' /\ (d', true) ∈ (l ++ [(d, k)])) gs) as IH'.
  { eapply Forall_impl; [exact IH|]. intros g (d' & Hd & Hin). exists d'. split; [done|]. apply elem_of_app. by left. }
  destruct k; cbn [tail app].
  - apply Forall_app. split; [done|]. constructor; [|constructor]. exists d. split; [done|].
    apply elem_of_app. right. by apply list_elem_of_singleton.
  - destruct gs as [|g gs _] using rev_ind; [constructor|].
    change (g0 :: gs ++ [g]) with ((g0 :: gs) ++ [g]). rewrite push_back_snoc. cbn [app tail].
    apply Forall_app in IH' as [H1 H2]. apply Forall_app. split; [done|]. constructor; [|constructor].
    apply Forall_inv in H2 as (d' & Hd & Hin). exists d'. split; [|done]. by destruct g.
Qed.

Section Scheduler.
  Context `{R : Rml}.

(** ** Who gets the media of a stream *)

(** The result for one watcher in state [s], if there is one. *)
Definition delivery (t : ReceivedDataType) (timestamp : Z) (data : list Z) (s : RtmpScheduler) (k : nat) : list ServerResult :=
  match clients s !! k with
  | Some c =>
    match get_active_stream_id c with
    | Some stream_id => snd (send_to_client t timestamp data stream_id c [])
    | None => []
    end
  | None => []
  end.

(** The body of a loop over the watchers appends to the results and does not read
    them. *)
Definition appends (f : Z -> Client -> list ServerResult -> Client * list ServerResult) : Prop :=
  forall i c out, f i c out = (fst (f i c []), out ++ snd (f i c [])).

Lemma push_result_appends conn r out : push_result conn r out = out ++ push_result conn r [].
Proof. done. Qed.

Lemma send_to_client_appends t timestamp data : appends (send_to_client t timestamp data).
Proof.
  intros i c out. unfold send_to_client. destruct (negb (should_send t data c)); [by rewrite app_nil_r|].
  destruct t.
  - by destruct (send_audio_data _ _ _ _ _) as [x r].
  - cbv zeta. by destruct (send_video_data _ _ _ _ _) as [x r].
Qed.

(** Each watcher is visited once, so what happens to it depends on the state before
    the loop. *)
Lemma for_watchers_out f ids s out :
  appends f -> NoDup ids ->
  snd (for_watchers f ids (s, out)) =
    out ++ concat ((fun k => match clients s !! k with
                             | Some c => match get_active_stream_id c with Some i => snd (f i c []) | None => [] end
                             | None => []
                             end) <$> ids).
Proof.
  intros Hf. revert s out. induction ids as [|k ids IH]; intros s out Hnd; [by rewrite app_nil_r|].
  apply NoDup_cons in Hnd as [Hk Hnd]. unfold for_watchers. cbn [foldl fmap list_fmap concat].
  destruct (clients s !! k) as [c|] eqn:Ec; [|by apply IH].
  destruct (get_active_stream_id c) as [i|]; [|by apply IH].
  rewrite (Hf i c out). fold (for_watchers f ids (put_client k (fst (f i c [])) s, out ++ snd (f i c []))).
  rewrite IH by done. rewrite <-app_assoc. do 3 f_equal. apply list_fmap_ext. intros _ j Hj%list_elem_of_lookup_2.
  cbn [put_client set_clients clients]. by rewrite lookup_insert_ne by (by intros ->).
Qed.

(** Media of a stream leads to the results of the watchers of its channel, each at
    most one: a packet on the stream that the watcher plays, when a key frame
    was sent to it before or this is a header or a key frame, and its end where the session fails. *)
Theorem media_goes_to_the_watchers (order : gset nat -> list nat) (t : ReceivedDataType) (stream_key : string)
    (timestamp : Z) (data : list Z) (s : RtmpScheduler) (out : list ServerResult) (channel : MediaChannel) :
  (forall X, order X ≡ₚ elements X) -> channels s !! stream_key = Some channel ->
  snd (handle_audio_video_data_received order stream_key timestamp data t (s, out)) ≡ₚ
    out ++ concat (delivery t timestamp data s <$> elements (watching_client_ids channel)).
Proof.
  intros Ho Hc. unfold handle_audio_video_data_received. rewrite Hc.
  assert (watching_client_ids (record_media t timestamp data channel) = watching_client_ids channel) as -> by (by destruct t).
  rewrite for_watchers_out; [|apply send_to_client_appends|rewrite Ho; apply NoDup_elements].
  cbn [clients set_channels]. apply Permutation_app_head. unfold delivery. by rewrite Ho.
Qed.

(** ** The invariant *)

Definition is_publishing (c : Client) : Prop := exists key, current_action c = Publishing key.

Record inv (s : RtmpScheduler) : Prop := {
  inv_connection : forall conn k, connection_to_client_map s !! conn = Some k ->
    exists c, clients s !! k = Some c /\ connection_id c = conn /\ ~ is_publishing c;
  inv_publisher : forall conn k, publisher_to_client_map s !! conn = Some k ->
    exists c, clients s !! k = Some c /\ connection_id c = conn /\ is_publishing c;
  inv_client : forall k c, clients s !! k = Some c ->
    connection_to_client_map s !! connection_id c = Some k \/ publisher_to_client_map s !! connection_id c = Some k;
  inv_watching : forall k c key i, clients s !! k = Some c -> current_action c = Watching key i ->
    exists m, channels s !! key = Some m /\ k ∈ watching_client_ids m;
  inv_unpublished : forall key m, channels s !! key = Some m -> publishing_client_id m = None
}.

Lemma inv_new limit : inv (RtmpScheduler_new limit).
Proof. split; cbn; intros *; rewrite lookup_empty; done. Qed.

(** Changes of a client that the maps do not see. *)
Definition same_client (c c' : Client) : Prop := current_action c' = current_action c /\ connection_id c' = connection_id c.

Lemma inv_put k c c' s : inv s -> clients s !! k = Some c -> same_client c c' -> inv (put_client k c' s).
Proof.
  intros [Hc Hp Hl Hw Hn] Hk [Ha Hi].
  assert (forall j d, <[k := c']> (clients s) !! j = Some d ->
    exists d0, clients s !! j = Some d0 /\ current_action d = current_action d0 /\ connection_id d = connection_id d0) as Hback.
  { intros j d. destruct (decide (j = k)) as [->|]; [rewrite lookup_insert_eq|rewrite lookup_insert_ne by done].
    - intros [= <-]. by exists c.
    - intros H. by exists d. }
  assert (forall j d0, clients s !! j = Some d0 ->
    exists d, <[k := c']> (clients s) !! j = Some d /\ current_action d = current_action d0 /\ connection_id d = connection_id d0) as Hforth.
  { intros j d0 H. destruct (decide (j = k)) as [->|]; [rewrite lookup_insert_eq|rewrite lookup_insert_ne by done].
    - exists c'. split; [done|]. by simplify_eq.
    - by exists d0. }
  split; cbn [clients connection_to_client_map publisher_to_client_map channels put_client set_clients].
  - intros conn j H. destruct (Hc conn j H) as (d0 & H1 & H2 & H3). destruct (Hforth j d0 H1) as (d & ? & E1 & E2).
    exists d. split; [done|]. split; [congruence|]. unfold is_publishing. by rewrite E1.
  - intros conn j H. destruct (Hp conn j H) as (d0 & H1 & H2 & H3). destruct (Hforth j d0 H1) as (d & ? & E1 & E2).
    exists d. split; [done|]. split; [congruence|]. unfold is_publishing. by rewrite E1.
  - intros j d H. destruct (Hback j d H) as (d0 & H1 & _ & ->). eauto.
  - intros j d key i H Hd. destruct (Hback j d H) as (d0 & H1 & E & _). apply (Hw j d0 key i H1). congruence.
  - done.
Qed.

(** Changes of a channel that keep its watchers. *)
Lemma inv_put_channel key m m' s :
  inv s -> channels s !! key = Some m -> watching_client_ids m ⊆ watching_client_ids m' -> publishing_client_id m' = None ->
  inv (set_channels (<[key := m']> (channels s)) s).
Proof.
  intros [Hc Hp Hl Hw Hn] Hk Hsub Hnone.
  split; cbn [clients connection_to_client_map publisher_to_client_map channels set_channels]; try done.
  - intros j d key' i H Hd. destruct (Hw j d key' i H Hd) as (m0 & Hm0 & Hin).
    destruct (decide (key' = key)) as [->|]; [rewrite lookup_insert_eq|rewrite lookup_insert_ne by done; by exists m0].
    exists m'. split; [done|]. simplify_eq. set_solver.
  - intros key' m0. destruct (decide (key' = key)) as [->|]; [rewrite lookup_insert_eq|rewrite lookup_insert_ne by done; eauto].
    by intros [= <-].
Qed.

Lemma inv_or_insert key s : inv s -> inv (or_insert key s) /\ clients (or_insert key s) = clients s /\
  connection_to_client_map (or_insert key s) = connection_to_client_map s /\
  publisher_to_client_map (or_insert key s) = publisher_to_client_map s /\ is_Some (channels (or_insert key s) !! key).
Proof.
  intros Hi. unfold or_insert. destruct (channels s !! key) as [m|] eqn:E; [by rewrite E|].
  split; [|split; [done|split; [done|split; [done|]]]]; [|cbn; by rewrite lookup_insert_eq].
  destruct Hi as [Hc Hp Hl Hw Hn].
  split; cbn [clients connection_to_client_map publisher_to_client_map channels set_channels]; try done.
  - intros j d key' i H Hd. destruct (Hw j d key' i H Hd) as (m0 & Hm0 & Hin).
    exists m0. rewrite lookup_insert_ne; [done|]. congruence.
  - intros key' m0. destruct (decide (key' = key)) as [->|]; [rewrite lookup_insert_eq|rewrite lookup_insert_ne by done; eauto].
    by intros [= <-].
Qed.

(** ** No handler panics *)

Context (order : gset nat -> list nat).

(** The answers of the session that the proofs rely on: a new session and an accepted
    request lead to packets and to no further request. *)
Definition calm (r : SessionResult Packet Metadata) : Prop :=
  match r with
  | RaisedEvent (ConnectionRequested _ _) | RaisedEvent (PlayStreamRequested _ _ _ _) => False
  | _ => True
  end.

Definition calm_rml : Prop :=
  (forall x rs, session_new = Ok (x, rs) -> Forall calm rs) /\
  (forall x i rs, snd (accept_request x i) = Ok rs -> Forall calm rs).

Abbreviation state := (RtmpScheduler * list ServerResult)%type.

(** Handlers keep the invariant and the maps. *)
Definition preserves (s : RtmpScheduler) (st : state) : Prop :=
  inv (fst st) /\ connection_to_client_map (fst st) = connection_to_client_map s /\
  publisher_to_client_map (fst st) = publisher_to_client_map s /\
  forall k, clients s !! k = None -> clients (fst st) !! k = None.

Lemma keeps_refl s out : inv s -> preserves s (s, out).
Proof. done. Qed.

Lemma keeps_trans s s1 out st : preserves s (s1, out) -> preserves s1 st -> preserves s st.
Proof. intros (_ & E1 & E2 & H) (? & E3 & E4 & H'). cbn [fst] in *. split_and!; [done|congruence|congruence|auto]. Qed.

Lemma put_preserves s k c c' out : inv s -> clients s !! k = Some c -> same_client c c' -> preserves s (put_client k c' s, out).
Proof.
  intros Hi Hk Hs. split; [by eapply inv_put|]. split; [done|]. split; [done|]. intros j Hj. cbn.
  rewrite lookup_insert_ne; [done|]. congruence.
Qed.

Lemma for_watchers_keeps f ids s out :
  (forall i c o, same_client c (fst (f i c o))) -> inv s -> preserves s (for_watchers f ids (s, out)).
Proof.
  intros Hf. revert s out. induction ids as [|k ids IH]; intros s out Hi; [by apply keeps_refl|].
  unfold for_watchers. cbn [foldl]. destruct (clients s !! k) as [c|] eqn:Ec; [|by apply IH].
  destruct (get_active_stream_id c) as [i|]; [|by apply IH].
  pose proof (Hf i c out) as Hs. destruct (f i c out) as [c' out']. cbn [fst] in Hs.
  apply (keeps_trans _ (put_client k c' s) out'); [|apply IH].
  - by eapply put_preserves.
  - by eapply inv_put.
Qed.

Lemma same_set_session x c : same_client c (set_session x c).
Proof. done. Qed.

Lemma publish_finished_keeps key s out : inv s -> preserves s (handle_publish_finished order key (s, out)).
Proof.
  intros Hi. unfold handle_publish_finished. destruct (channels s !! key); [|by apply keeps_refl].
  apply for_watchers_keeps; [|done]. intros i c o. by destruct (finish_playing (session c) i).
Qed.

Lemma metadata_keeps key md s out : inv s -> preserves s (handle_metadata_received order key md (s, out)).
Proof.
  intros Hi. unfold handle_metadata_received. destruct (channels s !! key) as [m|] eqn:E; [|by apply keeps_refl].
  apply (keeps_trans _ (set_channels (<[key := set_metadata md m]> (channels s)) s) out); [|apply for_watchers_keeps].
  - split; [|done]. cbn [fst]. eapply (inv_put_channel key m); [done|done|done|exact (inv_unpublished s Hi key m E)].
  - intros i c o. by destruct (send_metadata (session c) i md).
  - eapply (inv_put_channel key m); [done|done|done|exact (inv_unpublished s Hi key m E)].
Qed.

Lemma send_to_client_same t timestamp data i c o : same_client c (fst (send_to_client t timestamp data i c o)).
Proof.
  unfold send_to_client. destruct (negb (should_send t data c)); [done|]. destruct t.
  - by destruct (send_audio_data _ _ _ _ _).
  - cbv zeta. destruct (send_video_data _ _ _ _ _). by destruct (is_video_keyframe data).
Qed.

Lemma media_keeps t key timestamp data s out :
  inv s -> preserves s (handle_audio_video_data_received order key timestamp data t (s, out)).
Proof.
  intros Hi. unfold handle_audio_video_data_received. destruct (channels s !! key) as [m|] eqn:E; [|by apply keeps_refl].
  assert (inv (set_channels (<[key := record_media t timestamp data m]> (channels s)) s)) as Hi'.
  { eapply (inv_put_channel key m); [done|done|by destruct t|]. pose proof (inv_unpublished s Hi key m E). by destruct t. }
  apply (keeps_trans _ (set_channels (<[key := record_media t timestamp data m]> (channels s)) s) out);
    [|apply for_watchers_keeps; [apply send_to_client_same|done]].
  by split.
Qed.

(** The answer to a play request. *)
Lemma send_one_same send c rs : same_client c (fst (send_one send c rs)).
Proof. unfold send_one. by destruct (send (session c)). Qed.

Lemma send_opt_same {A} (o : option A) send c r : same_client c (fst r) -> same_client c (fst (send_opt o send r)).
Proof.
  destruct r as [c' rs]. cbn [fst]. intros [H1 H2]. unfold send_opt. destruct o as [a|], rs as [rs|]; try done.
  destruct (send_one_same (send a) c' rs) as [H3 H4]. split; congruence.
Qed.

Lemma send_frame_same conn i c st d : same_client c (fst (fst st)) -> same_client c (fst (fst (send_frame conn i st d))).
Proof.
  destruct st as [[c' rs] out]. cbn [fst]. intros [H1 H2]. unfold send_frame.
  destruct d; [destruct (send_video_data _ _ _ _ _) as [x [p|e]]|destruct (send_audio_data _ _ _ _ _) as [x [p|e]]]; by split.
Qed.

Lemma send_gop_same conn i c st g : same_client c (fst (fst st)) -> same_client c (fst (fst (send_gop conn i st g))).
Proof.
  destruct st as [[c' rs] out]. cbn [fst]. intros H. unfold send_gop.
  assert (same_client c (if (0 <? length g)%nat then set_keyframe c' else c')) as Hk by (by destruct (0 <? length g)%nat).
  revert Hk. generalize (if (0 <? length g)%nat then set_keyframe c' else c') as c1. clear H c'. intros c1. revert c1 rs out.
  induction g as [|d g IH]; intros c1 rs out H; [done|]. cbn [foldl].
  pose proof (send_frame_same conn i c (c1, rs, out) d H) as H'. destruct (send_frame conn i (c1, rs, out) d) as [[c2 rs2] o2].
  by apply IH.
Qed.

Lemma greet_same conn i m c rs out : same_client c (fst (fst (greet conn i m c rs out))).
Proof.
  unfold greet. cbv zeta.
  set (r := send_opt (audio_sequence_header m) _ _).
  assert (same_client c (fst r)) as Hr by (do 3 apply send_opt_same; done).
  destruct r as [c1 [rs1|]]; [|done]. cbn [fst] in Hr.
  assert (forall l st, same_client c (fst (fst st)) -> same_client c (fst (fst (foldl (send_gop conn i) st l)))) as Hl.
  { induction l as [|g l IH]; intros st H; [done|]. cbn [foldl]. apply IH. by apply send_gop_same. }
  specialize (Hl (get_gops (channel_gops m)) (c1, rs1, out) Hr).
  by destruct (foldl _ _ _) as [[c2 rs2] o2].
Qed.

(** A client begins to watch. *)
Lemma inv_watch key i k c c' m s :
  inv s -> clients s !! k = Some c -> ~ is_publishing c -> channels s !! key = Some m ->
  current_action c' = Watching key i -> connection_id c' = connection_id c ->
  inv (put_client k c' (set_channels (<[key := set_watching ({[k]} ∪ watching_client_ids m) m]> (channels s)) s)).
Proof.
  intros Hi Hk Hnp Hm Ha Hid.
  assert (inv (set_channels (<[key := set_watching ({[k]} ∪ watching_client_ids m) m]> (channels s)) s)) as Hi1.
  { eapply (inv_put_channel key m); [done|done|cbn; set_solver|]. exact (inv_unpublished s Hi key m Hm). }
  destruct Hi1 as [Hc Hp Hl Hw Hn].
  split; cbn [clients connection_to_client_map publisher_to_client_map channels put_client set_clients set_channels] in *.
  - intros conn j Hj. destruct (Hc conn j Hj) as (d & H1 & H2 & H3). destruct (decide (j = k)) as [->|].
    + exists c'. rewrite lookup_insert_eq. split; [done|]. split; [congruence|]. intros [key' E]. congruence.
    + exists d. by rewrite lookup_insert_ne.
  - intros conn j Hj. destruct (Hp conn j Hj) as (d & H1 & H2 & H3). destruct (decide (j = k)) as [->|]; [|exists d; by rewrite lookup_insert_ne].
    congruence.
  - intros j d. destruct (decide (j = k)) as [->|]; [rewrite lookup_insert_eq|rewrite lookup_insert_ne by done; eauto].
    intros [= <-]. rewrite Hid. eauto.
  - intros j d key' i'. destruct (decide (j = k)) as [->|]; [rewrite lookup_insert_eq|rewrite lookup_insert_ne by done; eauto].
    intros [= <-] E. assert (key' = key) as -> by congruence. rewrite lookup_insert_eq. eexists. split; [done|]. cbn. set_solver.
  - exact Hn.
Qed.

(** A handler returns and preserves what it has to. *)
Definition good (s : RtmpScheduler) (m : outcome state) : Prop := exists st, m = Ret st /\ preserves s st.

(** The connection is known. *)
Definition known (conn : Z) (s : RtmpScheduler) : Prop := is_Some (connection_to_client_map s !! conn).

Definition handles (handle : Z -> results -> state -> outcome state) : Prop :=
  forall conn rs s out, Forall calm rs -> inv s -> good s (handle conn rs (s, out)).

Lemma connection_requested_good handle conn i s out :
  calm_rml -> handles handle -> inv s -> known conn s -> good s (handle_connection_requested handle conn i (s, out)).
Proof.
  intros [_ Hacc] Hh Hi [k Hk]. unfold handle_connection_requested. destruct (inv_connection s Hi conn k Hk) as (c & Hc & _ & _).
  rewrite Hk. cbn [unwrap]. red_bind. rewrite Hc. cbn [unwrap]. red_bind. specialize (Hacc (session c) i).
  destruct (accept_request (session c) i) as [x [rs|e]]; cbn [snd] in Hacc;
    assert (inv (put_client k (set_session x c) s)) as Hi' by (by eapply inv_put).
  - destruct (Hh conn rs (put_client k (set_session x c) s) out) as (st & -> & Hkeep); [by apply Hacc|done|].
    eexists. split; [done|]. apply (keeps_trans _ (put_client k (set_session x c) s) out); [by eapply put_preserves|done].
  - eexists. split; [done|]. by eapply put_preserves.
Qed.

Lemma outbound_calm (rs rs' : results) : Forall calm rs -> Forall (fun r => exists p, r = OutboundResponse p) rs' -> Forall calm (rs ++ rs').
Proof. intros H H'. apply Forall_app. split; [done|]. eapply Forall_impl; [exact H'|]. by intros r [p ->]. Qed.

Lemma send_opt_calm {A} (o : option A) send (r : Client * option results) :
  (forall rs, snd r = Some rs -> Forall calm rs) -> forall rs, snd (send_opt o send r) = Some rs -> Forall calm rs.
Proof.
  destruct r as [c rs0]. intros H rs. unfold send_opt. destruct o as [a|], rs0 as [rs0|]; try (by apply H).
  unfold send_one. destruct (send a (session c)) as [x [p|e]]; [|done]. intros [= <-].
  apply outbound_calm; [by apply H|]. constructor; [by eexists|constructor].
Qed.

Lemma send_gop_calm conn i st g : Forall calm (snd (fst st)) -> Forall calm (snd (fst (send_gop conn i st g))).
Proof.
  destruct st as [[c rs] out]. cbn [fst snd]. unfold send_gop. generalize (if (0 <? length g)%nat then set_keyframe c else c) as c1.
  intros c1. revert c1 rs out. induction g as [|d g IH]; intros c1 rs out H; [done|]. cbn [foldl].
  unfold send_frame at 2. destruct d; [destruct (send_video_data _ _ _ _ _) as [x [p|e]]|destruct (send_audio_data _ _ _ _ _) as [x [p|e]]];
    apply IH; try done; apply Forall_app; (split; [done|]); by repeat constructor.
Qed.

Lemma greet_calm conn i m c rs out c' rs' out' :
  Forall calm rs -> greet conn i m c rs out = (c', Some rs', out') -> Forall calm rs'.
Proof.
  intros H. unfold greet. cbv zeta. set (r := send_opt (audio_sequence_header m) _ _).
  assert (forall rs, snd r = Some rs -> Forall calm rs) as Hr by (do 3 apply send_opt_calm; by intros ? [= <-]).
  destruct r as [c1 [rs1|]]; [|done]. specialize (Hr rs1 eq_refl).
  assert (forall l st, Forall calm (snd (fst st)) -> Forall calm (snd (fst (foldl (send_gop conn i) st l)))) as Hl.
  { induction l as [|g l IH]; intros st Hst; [done|]. cbn [foldl]. apply IH. by apply send_gop_calm. }
  specialize (Hl (get_gops (channel_gops m)) (c1, rs1, out) Hr). destruct (foldl _ _ _) as [[c2 rs2] o2].
  by intros [= _ <- _].
Qed.

Lemma play_requested_good handle conn i key sid s out :
  calm_rml -> handles handle -> inv s -> known conn s -> good s (handle_play_requested handle conn i key sid (s, out)).
Proof.
  intros [_ Hacc] Hh Hi [k Hk]. unfold handle_play_requested. destruct (inv_connection s Hi conn k Hk) as (c & Hc & _ & Hnp).
  rewrite Hk. cbn [unwrap]. red_bind. rewrite Hc. cbn [unwrap]. red_bind. cbv zeta.
  destruct (inv_or_insert key s Hi) as (Hi1 & E1 & E2 & E3 & [m Hm]). set (s1 := or_insert key s) in *. clearbody s1.
  rewrite Hm. cbn [unwrap]. red_bind. set (m1 := set_watching _ m). set (s2 := set_channels _ s1).
  set (c1 := set_action (Watching key sid) c) in *.
  assert (forall c2, same_client c1 c2 -> inv (put_client k c2 s2)) as Hput.
  { intros c2 [H1 H2]. eapply (inv_watch key sid k c c2 m s1); try done. by rewrite E1. }
  assert (forall c2 out2, same_client c1 c2 -> preserves s (put_client k c2 s2, out2)) as Hkeep.
  { intros c2 out2 H. split; [by apply Hput|]. split; [exact E2|split; [exact E3|]]. intros j Hj. cbn. rewrite E1.
    rewrite lookup_insert_ne; [done|]. congruence. }
  specialize (Hacc (session c1) i). destruct (accept_request (session c1) i) as [x [rs|e]]; cbn [snd] in Hacc.
  2: { eexists. split; [done|]. by apply Hkeep. }
  pose proof (greet_same conn sid m1 (set_session x c1) rs out) as Hs.
  destruct (greet conn sid m1 (set_session x c1) rs out) as [[c2 [rs2|]] out2] eqn:Eg; cbn [fst] in Hs.
  - apply greet_calm in Eg; [|by apply Hacc].
    destruct (Hh conn rs2 (put_client k c2 s2) out2) as (st & -> & Hst); [done|by apply Hput|].
    eexists. split; [done|]. apply (keeps_trans _ (put_client k c2 s2) out2); [by apply Hkeep|done].
  - eexists. split; [done|]. by apply Hkeep.
Qed.

Lemma known_keeps conn s st : known conn s -> preserves s st -> known conn (fst st).
Proof. intros H (_ & E & _). unfold known. by rewrite E. Qed.

Lemma raised_event_good handle conn e s out :
  calm_rml -> inv s -> (calm (RaisedEvent e) \/ handles handle /\ known conn s) ->
  good s (handle_raised_event order handle conn e (s, out)).
Proof.
  intros Hr Hi Hk. destruct e; cbn [handle_raised_event]; try (eexists; split; [done|]).
  - destruct Hk as [[]|[Hh Hk]]. by apply connection_requested_good.
  - by apply keeps_refl.
  - by apply publish_finished_keeps.
  - destruct Hk as [[]|[Hh Hk]]. by apply play_requested_good.
  - by apply metadata_keeps.
  - by apply media_keeps.
  - by apply media_keeps.
  - by apply keeps_refl.
Qed.

Lemma session_results_good fuel conn rs s out :
  calm_rml -> inv s -> (Forall calm rs \/ handles (handle_session_results order fuel) /\ known conn s) ->
  good s (handle_session_results order (S fuel) conn rs (s, out)).
Proof.
  intros Hr Hi Hk. cbn [handle_session_results].
  destruct (foldM_total (fun _ st => preserves s st)
    (fun st r => match r with
                 | OutboundResponse packet => Ret (fst st, snd st ++ [OutboundPacket conn packet])
                 | RaisedEvent event => handle_raised_event order (handle_session_results order fuel) conn event st
                 | UnhandleableMessageReceived => Ret st
                 end) rs (s, out)) as (st & Hst & Hkeep); [by apply keeps_refl| |by exists st].
  intros before r rest [s1 out1] -> Hks. destruct r as [packet|event|].
  - eexists. split; [done|exact Hks].
  - destruct (raised_event_good (handle_session_results order fuel) conn event s1 out1) as (st & -> & Hst); [done|apply Hks| |].
    + destruct Hk as [Hk|[Hh Hk]]; [left|right; split; [done|exact (known_keeps conn s (s1, out1) Hk Hks)]].
      apply Forall_app in Hk as [_ Hk]. by apply Forall_inv in Hk.
    + eexists. split; [done|]. by eapply keeps_trans.
  - by eexists.
Qed.

Lemma handles_one : calm_rml -> handles (handle_session_results order 1).
Proof. intros Hr conn rs s out Hc Hi. apply session_results_good; [done|done|by left]. Qed.

(** A depth of two is enough, whatever the peer sends. *)
Lemma session_results_two conn rs s out : calm_rml -> inv s -> known conn s -> good s (handle_session_results order 2 conn rs (s, out)).
Proof. intros Hr Hi Hk. apply session_results_good; [done|done|right]. split; [by apply handles_one|done]. Qed.

(** ** The calls from outside *)

(** A client that was not there, with its entry in one of the maps. *)
Lemma inv_add_connection k conn c s :
  inv s -> clients s !! k = None -> connection_to_client_map s !! conn = None ->
  connection_id c = conn -> current_action c = Waiting ->
  inv (set_connections (<[conn := k]> (connection_to_client_map s)) (put_client k c s)).
Proof.
  intros [Hc Hp Hl Hw Hn] Hk Hfree Hid Ha.
  assert (forall j d, clients s !! j = Some d -> j <> k) as Hne by (by intros j d H ->; congruence).
  split; cbn [clients connection_to_client_map publisher_to_client_map channels put_client set_clients set_connections].
  - intros conn' j. destruct (decide (conn' = conn)) as [->|]; [rewrite lookup_insert_eq|rewrite lookup_insert_ne by done].
    + intros [= <-]. exists c. rewrite lookup_insert_eq. split; [done|]. split; [done|]. intros [key E]. congruence.
    + intros H. destruct (Hc conn' j H) as (d & H1 & H2 & H3). exists d. rewrite lookup_insert_ne by (by apply not_eq_sym, (Hne j d)). done.
  - intros conn' j H. destruct (Hp conn' j H) as (d & H1 & H2 & H3). exists d.
    rewrite lookup_insert_ne by (by apply not_eq_sym, (Hne j d)). done.
  - intros j d. destruct (decide (j = k)) as [->|]; [rewrite lookup_insert_eq|rewrite lookup_insert_ne by done].
    + intros [= <-]. left. by rewrite Hid, lookup_insert_eq.
    + intros H. destruct (Hl j d H) as [H1|H1]; [left|by right]. rewrite lookup_insert_ne; [done|]. congruence.
  - intros j d key i. destruct (decide (j = k)) as [->|]; [rewrite lookup_insert_eq; congruence|rewrite lookup_insert_ne by done; eauto].
  - done.
Qed.

Lemma inv_add_publisher k conn c s key :
  inv s -> clients s !! k = None -> publisher_to_client_map s !! conn = None ->
  connection_id c = conn -> current_action c = Publishing key ->
  inv (set_publishers (<[conn := k]> (publisher_to_client_map s)) (put_client k c s)).
Proof.
  intros [Hc Hp Hl Hw Hn] Hk Hfree Hid Ha.
  assert (forall j d, clients s !! j = Some d -> j <> k) as Hne by (by intros j d H ->; congruence).
  split; cbn [clients connection_to_client_map publisher_to_client_map channels put_client set_clients set_publishers].
  - intros conn' j H. destruct (Hc conn' j H) as (d & H1 & H2 & H3). exists d.
    rewrite lookup_insert_ne by (by apply not_eq_sym, (Hne j d)). done.
  - intros conn' j. destruct (decide (conn' = conn)) as [->|]; [rewrite lookup_insert_eq|rewrite lookup_insert_ne by done].
    + intros [= <-]. exists c. rewrite lookup_insert_eq. split; [done|]. split; [done|]. by exists key.
    + intros H. destruct (Hp conn' j H) as (d & H1 & H2 & H3). exists d. rewrite lookup_insert_ne by (by apply not_eq_sym, (Hne j d)). done.
  - intros j d. destruct (decide (j = k)) as [->|]; [rewrite lookup_insert_eq|rewrite lookup_insert_ne by done].
    + intros [= <-]. right. by rewrite Hid, lookup_insert_eq.
    + intros H. destruct (Hl j d H) as [H1|H1]; [by left|right]. rewrite lookup_insert_ne; [done|]. congruence.
  - intros j d key' i. destruct (decide (j = k)) as [->|]; [rewrite lookup_insert_eq; congruence|rewrite lookup_insert_ne by done; eauto].
  - done.
Qed.

Lemma new_channel_inv k key conn s :
  inv s -> clients s !! k = None -> publisher_to_client_map s !! conn = None -> inv (snd (new_channel k key conn s)).
Proof.
  intros Hi Hk Hp. unfold new_channel. destruct (match channels s !! key with Some _ => _ | None => _ end); [done|].
  destruct session_new as [[x rs]|e]; [|done]. cbn [snd]. apply inv_or_insert. by apply (inv_add_publisher k conn _ s key).
Qed.

(** Since the field is never set, a stream that is already published gets another
    publisher. *)
Lemma second_publisher_is_accepted k key conn s x rs :
  inv s -> session_new = Ok (x, rs) -> fst (new_channel k key conn s) = true.
Proof.
  intros Hi Hx. unfold new_channel. destruct (channels s !! key) as [m|] eqn:E.
  - rewrite (inv_unpublished s Hi key m E), bool_decide_false by (by intros [? [=]]). by rewrite Hx.
  - by rewrite Hx.
Qed.

(** Closing. *)
Lemma inv_remove k c conn s s' :
  inv s -> clients s !! k = Some c -> connection_id c = conn ->
  (connection_to_client_map s !! conn = Some k /\ s' = set_clients (delete k (clients s)) (set_connections (delete conn (connection_to_client_map s)) s) \/
   publisher_to_client_map s !! conn = Some k /\ s' = set_clients (delete k (clients s)) (set_publishers (delete conn (publisher_to_client_map s)) s)) ->
  inv s'.
Proof.
  intros Hi Hk Hid Hs. pose proof Hi as [Hc Hp Hl Hw Hn].
  destruct Hs as [[Hm ->]|[Hm ->]];
    split; cbn [clients connection_to_client_map publisher_to_client_map channels set_clients set_connections set_publishers].
  - intros conn' j [Hne H]%lookup_delete_Some. destruct (Hc conn' j H) as (d & H1 & H2 & H3). exists d.
    rewrite lookup_delete_ne; [done|]. intros ->. congruence.
  - intros conn' j H. destruct (Hp conn' j H) as (d & H1 & H2 & H3). exists d.
    rewrite lookup_delete_ne; [done|]. intros ->. destruct (Hc conn j Hm) as (c0 & ? & ? & ?). by simplify_eq.
  - intros j d [Hne H]%lookup_delete_Some. destruct (Hl j d H) as [H1|H1]; [left|by right].
    rewrite lookup_delete_ne; [done|]. congruence.
  - intros j d key i [Hne H]%lookup_delete_Some. eauto.
  - done.
  - intros conn' j H. destruct (Hc conn' j H) as (d & H1 & H2 & H3). exists d.
    rewrite lookup_delete_ne; [done|]. intros ->. destruct (Hp conn j Hm) as (c0 & ? & ? & ?). by simplify_eq.
  - intros conn' j [Hne H]%lookup_delete_Some. destruct (Hp conn' j H) as (d & H1 & H2 & H3). exists d.
    rewrite lookup_delete_ne; [done|]. intros ->. congruence.
  - intros j d [Hne H]%lookup_delete_Some. destruct (Hl j d H) as [H1|H1]; [by left|right].
    rewrite lookup_delete_ne; [done|]. congruence.
  - intros j d key i [Hne H]%lookup_delete_Some. eauto.
  - done.
Qed.

Lemma play_ended_inv k key s : inv s -> clients s !! k = None -> inv (play_ended k key s).
Proof.
  intros [Hc Hp Hl Hw Hn] Hk. unfold play_ended. destruct (channels s !! key) as [m|] eqn:E; [|by split].
  split; cbn [clients connection_to_client_map publisher_to_client_map channels set_channels]; try done.
  - intros j d key' i H Hd. destruct (Hw j d key' i H Hd) as (m0 & Hm0 & Hin).
    destruct (decide (key' = key)) as [->|]; [rewrite lookup_insert_eq|rewrite lookup_insert_ne by done; by exists m0].
    simplify_eq. eexists. split; [done|]. cbn. apply elem_of_difference. split; [done|]. intros ->%elem_of_singleton. congruence.
  - intros key' m0. destruct (decide (key' = key)) as [->|]; [rewrite lookup_insert_eq|rewrite lookup_insert_ne by done; eauto].
    intros [= <-]. exact (Hn key m E).
Qed.

Lemma publishing_ended_inv key s : inv s -> inv (publishing_ended key s).
Proof.
  intros Hi. unfold publishing_ended. destruct (channels s !! key) as [m|] eqn:E; [|done].
  by apply (inv_put_channel key m).
Qed.

Lemma connection_closed_good conn s : inv s -> exists s', notify_connection_closed conn s = Ret s' /\ inv s'.
Proof.
  intros Hi. unfold notify_connection_closed. destruct (connection_to_client_map s !! conn) as [k|] eqn:E; [|by eexists].
  destruct (inv_connection s Hi conn k E) as (c & Hc & Hid & Hnp). unfold remove_client. cbn [clients set_connections].
  rewrite Hc. red_bind. cbv iota beta.
  assert (inv (set_clients (delete k (clients s)) (set_connections (delete conn (connection_to_client_map s)) s))) as Hi'
    by (eapply (inv_remove k c conn s); [done..|by left]).
  destruct (current_action c); (eexists; split; [reflexivity|]); [exact Hi'|exact Hi'|].
  apply play_ended_inv; [exact Hi'|]. cbn. apply lookup_delete_eq.
Qed.

Lemma publisher_closed_good conn s : inv s -> exists s', notify_publisher_closed conn s = Ret s' /\ inv s'.
Proof.
  intros Hi. unfold notify_publisher_closed. destruct (publisher_to_client_map s !! conn) as [k|] eqn:E; [|by eexists].
  destruct (inv_publisher s Hi conn k E) as (c & Hc & Hid & Hnp). unfold remove_client. cbn [clients set_publishers].
  rewrite Hc. red_bind. cbv iota beta.
  assert (inv (set_clients (delete k (clients s)) (set_publishers (delete conn (publisher_to_client_map s)) s))) as Hi'
    by (eapply (inv_remove k c conn s); [done..|by right]).
  destruct (current_action c); (eexists; split; [reflexivity|]); [exact Hi'| |exact Hi'].
  by apply publishing_ended_inv.
Qed.

(** The second half of [bytes_received]. *)
Lemma input_good conn bytes s out :
  calm_rml -> inv s -> known conn s ->
  exists s' r,
    (client_id ← unwrap (connection_to_client_map s !! conn);
     client ← unwrap (clients s !! client_id);
     let '(x, r) := handle_input (session client) bytes in
     let s := put_client client_id (set_session x client) s in
     match r with
     | Err e => Ret (s, Err e)
     | Ok rs => '(s, out) ← handle_session_results order 2 conn rs (s, out); Ret (s, Ok out)
     end) = Ret (s', r) /\ inv s'.
Proof.
  intros Hr Hi [k Hk]. destruct (inv_connection s Hi conn k Hk) as (c & Hc & _). rewrite Hk. cbn [unwrap]. red_bind.
  rewrite Hc. cbn [unwrap]. red_bind. destruct (handle_input (session c) bytes) as [x [rs|e]];
    assert (inv (put_client k (set_session x c) s)) as Hi' by (by eapply inv_put); [|by do 2 eexists].
  destruct (session_results_two conn rs (put_client k (set_session x c) s) out) as ([s' out'] & -> & Hi2 & _);
    [done|done|by exists k|]. red_bind. by do 2 eexists.
Qed.

Lemma bytes_received_good k conn bytes s :
  calm_rml -> inv s -> clients s !! k = None ->
  exists s' r, bytes_received order 2 k conn bytes s = Ret (s', r) /\ inv s'.
Proof.
  intros Hr Hi Hk. unfold bytes_received. destruct (connection_to_client_map s !! conn) as [j|] eqn:E.
  - red_bind. apply input_good; [done|done|by exists j].
  - destruct session_new as [[x rs]|e] eqn:Ex; [|red_bind; by do 2 eexists].
    destruct (session_results_good 1 conn rs s []) as ([s1 out1] & -> & Hi1 & E1 & E2 & E3); [done|done|left; exact (proj1 Hr _ _ Ex)|].
    red_bind. cbv iota beta. cbn [fst] in *.
    specialize (E3 k Hk). apply input_good; [done| |].
    + eapply (inv_add_connection k conn _ s1); try done; congruence.
    + exists k. cbn. apply lookup_insert_eq.
Qed.

Lemma publish_bytes_received_good conn bytes s :
  calm_rml -> inv s -> exists s' r, publish_bytes_received order 2 conn bytes s = Ret (s', r) /\ inv s'.
Proof.
  intros Hr Hi. unfold publish_bytes_received. destruct (publisher_to_client_map s !! conn) as [k|] eqn:E; [|by do 2 eexists].
  destruct (inv_publisher s Hi conn k E) as (c & Hc & _). rewrite Hc. cbn [unwrap]. red_bind.
  destruct (handle_input (session c) bytes) as [x [rs|e]];
    assert (preserves s (put_client k (set_session x c) s, [])) as Hk by (by eapply put_preserves); [|do 2 eexists; split; [done|apply Hk]].
  destruct (foldM_total (fun _ st => preserves s st) (publisher_result order 2 conn) rs (put_client k (set_session x c) s, []))
    as ([s' out'] & -> & Hi' & _); [done| |red_bind; by do 2 eexists].
  intros before r rest [s1 out1] -> Hks. assert (inv s1) as Hi1 by apply Hks.
  assert (exists k1 c1, publisher_to_client_map s1 !! conn = Some k1 /\ clients s1 !! k1 = Some c1) as (k1 & c1 & Hk1 & Hc1).
  { destruct Hks as (_ & _ & E2 & _). cbn [fst] in E2. rewrite <-E2 in E. destruct (inv_publisher s1 Hi1 conn k E) as (c1 & H1 & _). by exists k, c1. }
  assert (forall i, exists s2, accept_publisher conn i s1 = Ret s2 /\ preserves s1 (s2, out1)) as Hacc.
  { intros i. unfold accept_publisher. rewrite Hk1. cbn [unwrap]. red_bind. rewrite Hc1. cbn [unwrap]. red_bind.
    eexists. split; [done|]. by eapply put_preserves. }
  assert (forall st, preserves s1 st -> preserves s st) as Ht by (intros st; by apply (keeps_trans s s1 out1)).
  destruct r as [packet|event|]; cbn [publisher_result]; [by eexists| |by eexists].
  destruct event; try (by eexists).
  1,2: cbn iota beta; destruct (Hacc request_id) as (s2 & Hs2 & Hk2); cbn [fst]; rewrite Hs2; red_bind; eexists; split; [done|by apply Ht].
  all: cbn iota beta; match goal with |- context [handle_raised_event _ _ _ ?e _] =>
         destruct (raised_event_good (handle_session_results order 2) NO_CONNECTION e s1 out1) as (st & Hst & Hk2); [done|done|by left|]
       end; exists st; split; [exact Hst|exact (Ht st Hk2)].
Qed.

End Scheduler.

(** ** Steps: the calls of the server's loop, in any order

    Connections and publishers are numbered by two slabs, so one number can stand
    for both. *)

Section Steps.
  Context `{R : Rml}.

Inductive rtmp_step : RtmpScheduler -> RtmpScheduler -> Prop :=
  | NewChannel s k key conn :
      clients s !! k = None -> publisher_to_client_map s !! conn = None ->
      rtmp_step s (snd (new_channel k key conn s))
  | BytesReceived order s k conn bytes s' r :
      clients s !! k = None -> bytes_received order 2 k conn bytes s = Ret (s', r) -> rtmp_step s s'
  | PublishBytesReceived order s conn bytes s' r :
      publish_bytes_received order 2 conn bytes s = Ret (s', r) -> rtmp_step s s'
  | ConnectionClosed s conn s' : notify_connection_closed conn s = Ret s' -> rtmp_step s s'
  | PublisherClosed s conn s' : notify_publisher_closed conn s = Ret s' -> rtmp_step s s'.

Lemma rtmp_step_inv s s' : calm_rml -> inv s -> rtmp_step s s' -> inv s'.
Proof.
  intros Hr Hi H. destruct H as [s k key conn H1 H2|order s k conn bytes s' r H1 H|order s conn bytes s' r H|s conn s' H|s conn s' H].
  - by apply new_channel_inv.
  - destruct (bytes_received_good order k conn bytes s) as (s1 & r1 & E & Hi1); [done..|]. rewrite H in E. apply Ret_inj in E. by simplify_eq.
  - destruct (publish_bytes_received_good order conn bytes s) as (s1 & r1 & E & Hi1); [done..|]. rewrite H in E. apply Ret_inj in E. by simplify_eq.
  - destruct (connection_closed_good conn s Hi) as (s1 & E & Hi1). rewrite H in E. apply Ret_inj in E. by simplify_eq.
  - destruct (publisher_closed_good conn s Hi) as (s1 & E & Hi1). rewrite H in E. apply Ret_inj in E. by simplify_eq.
Qed.

Lemma reachable_inv limit s : calm_rml -> rtc rtmp_step (RtmpScheduler_new limit) s -> inv s.
Proof.
  intros Hr H. pose proof (inv_new limit) as Hi. revert Hi.
  induction H as [|s0 s1 s2 H1 _ IH]; intros Hi; [done|]. apply IH. by eapply rtmp_step_inv.
Qed.

(** C37. In every state that the server can reach, the maps of connections and publishers
    and the clients agree, every client that watches is in the set of its channel,
    and whatever bytes arrive next and whoever leaves, the handlers return: none of
    their [unwrap]s and removals panics. *)
Theorem rtmp_scheduler_never_panics (limit : nat) (s : RtmpScheduler) :
  calm_rml -> rtc rtmp_step (RtmpScheduler_new limit) s ->
  inv s /\
  (forall order k conn bytes, clients s !! k = None ->
     exists s' r, bytes_received order 2 k conn bytes s = Ret (s', r)) /\
  (forall order conn bytes, exists s' r, publish_bytes_received order 2 conn bytes s = Ret (s', r)) /\
  (forall conn, exists s', notify_connection_closed conn s = Ret s') /\
  (forall conn, exists s', notify_publisher_closed conn s = Ret s').
Proof.
  intros Hr H. pose proof (reachable_inv limit s Hr H) as Hi. split_and!; [done|..].
  - intros order k conn bytes Hk. destruct (bytes_received_good order k conn bytes s Hr Hi Hk) as (s' & r & E & _). by exists s', r.
  - intros order conn bytes. destruct (publish_bytes_received_good order conn bytes s Hr Hi) as (s' & r & E & _). by exists s', r.
  - intros conn. destruct (connection_closed_good conn s Hi) as (s' & E & _). by exists s'.
  - intros conn. destruct (publisher_closed_good conn s Hi) as (s' & E & _). by exists s'.
Qed.

End Steps.

(** ** A session that reads one event from each input *)

Definition toy_event (bytes : list Z) : SessionEvent () :=
  match bytes with
  | [1] => PlayStreamRequested 0 "live" "a" 1
  | [2] => PlayStreamRequested 0 "live" "b" 2
  | 3 :: data => VideoDataReceived "live" "a" data 40
  | 4 :: data => VideoDataReceived "live" "b" data 40
  | _ => OtherEvent
  end.

#[local] Instance toy : Rml := {|
  Session := ();
  Packet := Z * list Z;
  Metadata := ();
  session_new := Ok ((), []);
  handle_input := fun _ bytes => ((), Ok [RaisedEvent (toy_event bytes)]);
  accept_request := fun _ _ => ((), Ok []);
  send_metadata := fun _ i _ => ((), Ok (i, []));
  send_video_data := fun _ i data _ _ => ((), Ok (i, data));
  send_audio_data := fun _ i data _ _ => ((), Ok (i, data));
  finish_playing := fun _ i => ((), Ok (i, []))
|}.

Lemma toy_calm : calm_rml.
Proof. split; [by intros ? ? [= <- <-]|by intros ? ? ? [= <-]]. Qed.

(** A publisher of [a] on connection 7, with the slab's key 0. *)
Definition with_publisher (key : string) (k : nat) (conn : Z) (s : RtmpScheduler) : outcome RtmpScheduler := Ret (snd (new_channel k key conn s)).

Definition feed (k : nat) (conn : Z) (bytes : list Z) (s : RtmpScheduler) : outcome RtmpScheduler :=
  r ← bytes_received elements 2 k conn bytes s; Ret (fst r).

(** Who gets a key frame of [a]. *)
Definition publish_a (s : RtmpScheduler) : outcome (list ServerResult) :=
  r ← publish_bytes_received elements 2 7 [3; 0x17; 0x01] s; Ret (match snd r with Ok out => out | Err _ => [] end).

(** A connection that plays a second stream stays among the watchers of the first:
    the media of [a] is sent to it on the stream of [b]. *)
Example second_play_mixes_streams :
  (s ← with_publisher "a" 0 7 (RtmpScheduler_new 1); s ← feed 1 50 [1] s; s ← feed 1 50 [2] s; publish_a s)
    = Ret [OutboundPacket 50 (2, [0x17; 0x01])].
Proof. by vm_compute. Qed.

(** It stays there when it has left, and the next client with its key, which plays
    [b] only, gets the media of [a]. *)
Example stale_watcher_gets_foreign_media :
  (s ← with_publisher "a" 0 7 (RtmpScheduler_new 1); s ← feed 1 50 [1] s; s ← feed 1 50 [2] s;
   s ← notify_connection_closed 50 s; s ← feed 1 60 [2] s; publish_a s)
    = Ret [OutboundPacket 60 (2, [0x17; 0x01])].
Proof. by vm_compute. Qed.

(** A frame that is no key frame opens the cache: a new watcher gets it, and counts
    as one that has a key frame. *)
Example cache_before_a_key_frame :
  (s ← with_publisher "a" 0 7 (RtmpScheduler_new 1);
   r ← publish_bytes_received elements 2 7 [3; 0x27; 0x01] s;
   r ← bytes_received elements 2 1 50 [1] (fst r); Ret (snd r))
    = Ret (Ok [OutboundPacket 50 (1, [0x27; 0x01])]).
Proof. by vm_compute. Qed.

Lemma rtmp_scheduler_never_panics_witness :
  exists s, rtc rtmp_step (RtmpScheduler_new 1) s /\ publisher_to_client_map s !! 7 = Some 0%nat /\
    exists s' r, publish_bytes_received elements 2 7 [3; 0x17; 0x01] s = Ret (s', r).
Proof.
  exists (snd (new_channel 0 "a" 7 (RtmpScheduler_new 1))).
  assert (rtc rtmp_step (RtmpScheduler_new 1) (snd (new_channel 0 "a" 7 (RtmpScheduler_new 1)))) as H
    by (apply rtc_once; by apply NewChannel).
  split; [exact H|]. split; [reflexivity|].
  exact (proj1 (proj2 (proj2 (rtmp_scheduler_never_panics 1 _ toy_calm H))) elements 7 [3; 0x17; 0x01]).
Defined.

Definition example_channel (s : RtmpScheduler) : MediaChannel := default (MediaChannel_new 1) (channels s !! "a").

Definition example_watched : RtmpScheduler :=
  match (s ← with_publisher "a" 0 7 (RtmpScheduler_new 1); feed 1 50 [1] s) with Ret s => s | _ => RtmpScheduler_new 1 end.

Lemma media_goes_to_the_watchers_witness :
  channels example_watched !! "a" = Some (example_channel example_watched) /\
  snd (handle_audio_video_data_received elements "a" 40 [0x17; 0x01] VideoData (example_watched, []))
    ≡ₚ [OutboundPacket 50 (1, [0x17; 0x01])].
Proof.
  assert (channels example_watched !! "a" = Some (example_channel example_watched)) as H by (by vm_compute).
  split; [exact H|].
  rewrite (media_goes_to_the_watchers elements VideoData "a" 40 [0x17; 0x01] example_watched [] _ (fun X => reflexivity _) H).
  reflexivity.
Defined.
