(* ===== verification/Choke.v ===== *)
(** * Which inputs may run ([ez-ffmpeg/src/core/scheduler/input_controller.rs], with
    the flags of [util/sch_waiter.rs]).

    The muxed streams know the decoding time of their last packet.  The controller
    lets those demuxers run that feed a stream which is not ahead of the others, and
    chokes the rest.  The counters of the streams are atomics that other threads
    write; [update_locked] reads them twice, so its model takes two readings. *)

From stdpp Require Import base list option.
From Stdlib Require Import ZArith Lia.
From S2P Require Import Prelude RustInt.

Local Open Scope Z_scope.

Definition AV_NOPTS_VALUE : Z := - 2 ^ 63.
Definition SCHEDULE_TOLERANCE : Z := 100 * 1000.

Definition STATUS_INIT : Z := 0.
Definition STATUS_RUN : Z := 1.
Definition STATUS_PAUSE : Z := 2.
Definition STATUS_ABORT : Z := 3.
Definition STATUS_END : Z := 4.

Definition is_stopping (status : Z) : bool := (status =? STATUS_END) || (status =? STATUS_ABORT).

(** [SchWaiter]: a demuxer waits while [choked]. *)
Record SchWaiter := { choked : bool; choked_prev : bool; choked_next : bool }.

Definition SchWaiter_new : SchWaiter := {| choked := false; choked_prev := false; choked_next := false |}.

Definition set (c : bool) (w : SchWaiter) : SchWaiter :=
  {| choked := c; choked_prev := choked_prev w; choked_next := choked_next w |}.
Definition set_choked_prev (c : bool) (w : SchWaiter) : SchWaiter :=
  {| choked := choked w; choked_prev := c; choked_next := choked_next w |}.
Definition set_choked_next (c : bool) (w : SchWaiter) : SchWaiter :=
  {| choked := choked w; choked_prev := choked_prev w; choked_next := c |}.

Record DemuxNode := { waiter : SchWaiter; task_exited : bool }.

Definition set_waiter (w : SchWaiter) (d : DemuxNode) : DemuxNode := {| waiter := w; task_exited := task_exited d |}.

(** A source: a demuxer, by its place among those the controller was given, or a
    filter graph with the input it wants.  A demuxer that the controller was not given
    has a place behind the last: its flags are written, and nobody reads them. *)
Inductive SchNode :=
  | Demux (d : nat)
  | Filter (inputs : list SchNode) (best_input : nat).

(** A stream of a muxer, as one reading shows it. *)
Record MuxStream := { src : SchNode; last_dts : Z; source_finished : bool }.

(** [a - b] on [i64]. *)
Definition i64_sub `{Profile} (a b : Z) : outcome Z :=
  let x := a - b in
  if (- 2 ^ 63 <=? x) && (x <? 2 ^ 63) then Ret x
  else if overflow_checks then Panic else Ret ((x + 2 ^ 63) mod 2 ^ 64 - 2 ^ 63).

Definition trailing_dts (streams : list MuxStream) : Z :=
  match omap (fun s => if source_finished s then None
                       else if last_dts s =? AV_NOPTS_VALUE then None else Some (last_dts s)) streams with
  | [] => AV_NOPTS_VALUE
  | x :: l => foldl Z.min x l
  end.

(** The demuxer at the end of the chain of wanted inputs; an index out of range
    panics. *)
Fixpoint source (n : SchNode) : outcome nat :=
  match n with
  | Demux d => Ret d
  | Filter inputs best_input =>
    (fix go (l : list SchNode) (i : nat) : outcome nat :=
       match l, i with
       | [], _ => Panic
       | n :: _, O => source n
       | _ :: l, S i => go l i
       end) inputs best_input
  end.

(** [set_choked_next(false)] on a demuxer. *)
Definition unchoke (d : nat) (demuxs : list DemuxNode) : list DemuxNode :=
  alter (fun n => set_waiter (set_choked_next false (waiter n)) n) d demuxs.

Definition unchoke_for_stream (n : SchNode) (demuxs : list DemuxNode) : outcome (list DemuxNode) :=
  d ← source n; Ret (unchoke d demuxs).

(** Whether the loop gets to the source of a stream. *)
Definition wanted `{Profile} (dts : Z) (s : MuxStream) : outcome bool :=
  if source_finished s then Ret false
  else if (dts =? AV_NOPTS_VALUE) && negb (last_dts s =? AV_NOPTS_VALUE) then Ret false
  else if negb (dts =? AV_NOPTS_VALUE) then
    x ← i64_sub (last_dts s) dts; Ret (negb (SCHEDULE_TOLERANCE <=? x))
  else Ret true.

Fixpoint first_alive (demuxs : list DemuxNode) (i : nat) : option nat :=
  match demuxs with
  | [] => None
  | d :: demuxs => if task_exited d then first_alive demuxs (S i) else Some i
  end.

Definition prepare (d : DemuxNode) : DemuxNode :=
  set_waiter (set_choked_next true (set_choked_prev (choked (waiter d)) (waiter d))) d.

Definition apply_choke (d : DemuxNode) : DemuxNode :=
  let w := waiter d in
  if negb (Bool.eqb (choked_prev w) (choked_next w)) then set_waiter (set (choked_next w) w) d else d.

(** [update_locked]: [first] is what [trailing_dts] reads, [second] what the loop
    reads. *)
Definition update_locked `{Profile} (status : Z) (first second : list MuxStream) (demuxs : list DemuxNode)
    : outcome (list DemuxNode) :=
  if is_stopping status then Ret demuxs
  else
    let dts := trailing_dts first in
    let demuxs := prepare <$> demuxs in
    '(demuxs, have_unchoked) ←
      foldM (fun '(demuxs, have_unchoked) s =>
        w ← wanted dts s;
        if w : bool then demuxs ← unchoke_for_stream (src s) demuxs; Ret (demuxs, true)
        else Ret (demuxs, have_unchoked)) (demuxs, false) second;
    let demuxs := if have_unchoked : bool then demuxs
                  else match first_alive demuxs 0 with Some d => unchoke d demuxs | None => demuxs end in
    Ret (apply_choke <$> demuxs).

(** ** Demuxers that sleep

    A demuxer that comes to [wait_with_scheduler_status] while it is choked sleeps on
    the condition variable of its waiter; [set] wakes it, and it looks again.  The
    flag is written and the sleeper notified under the lock that the sleeper gives up
    when it falls asleep, so both are one step here. *)

(** The condition of the loop in [wait_with_scheduler_status]. *)
Definition keeps_waiting (status : Z) (w : SchWaiter) : bool := choked w && negb (status =? STATUS_END).

(** Whether [update_locked], when it is done, has called [set]. *)
Definition notified (w : SchWaiter) : bool := negb (Bool.eqb (choked_prev w) (choked_next w)).

(** The status, the demuxers, and which of them sleep. *)
Record System := { status : Z; demuxs : list DemuxNode; asleep : list bool }.

Definition set_status (s : Z) (r : System) : System := {| status := s; demuxs := demuxs r; asleep := asleep r |}.
Definition set_asleep (l : list bool) (r : System) : System := {| status := status r; demuxs := demuxs r; asleep := l |}.

(** The controls of a scheduler, without the waiting for its threads. *)
Definition is_ended (r : System) : bool := is_stopping (status r).
Definition pause (r : System) : System := if is_stopping (status r) then r else set_status STATUS_PAUSE r.
Definition resume (r : System) : System := if is_stopping (status r) then r else set_status STATUS_RUN r.
Definition abort (r : System) : System := set_status STATUS_ABORT r.
Definition signal_stop (r : System) : System := set_status STATUS_END r.
Definition drop_guard (r : System) : System := if is_stopping (status r) then r else set_status STATUS_END r.

(** [wait_with_scheduler_status] of a demuxer that is awake, up to the point where it
    sleeps or returns. *)
Definition wait_with_scheduler_status (i : nat) (r : System) : System :=
  match demuxs r !! i with
  | Some d => if keeps_waiting (status r) (waiter d) then set_asleep (<[i := true]> (asleep r)) r else r
  | None => r
  end.

(** A sleeper that looks at the flag again: it sleeps on, or returns. *)
Definition look (status : Z) (a : bool) (d : DemuxNode) : bool := a && keeps_waiting status (waiter d).

(** [update_locked], and the demuxers that it notifies. *)
Definition update `{Profile} (first second : list MuxStream) (r : System) : outcome System :=
  l ← update_locked (status r) first second (demuxs r);
  if is_stopping (status r) then Ret {| status := status r; demuxs := l; asleep := asleep r |}
  else Ret {| status := status r; demuxs := l;
              asleep := zip_with (fun a d => if notified (waiter d) then look (status r) a d else a) (asleep r) l |}.

Inductive Event :=
  | Pause | Resume | Abort_ | Stop | Drop_
  | Wait (i : nat)
  | Update (first second : list MuxStream)
  | Exit (i : nat)
  | Spurious (i : nat).

(** A spurious wake-up makes the sleeper look. *)
Definition spurious (i : nat) (r : System) : System :=
  match demuxs r !! i with
  | Some d => set_asleep (alter (fun a => look (status r) a d) i (asleep r)) r
  | None => r
  end.

Definition exit_task (i : nat) (r : System) : System :=
  {| status := status r; demuxs := alter (fun d => {| waiter := waiter d; task_exited := true |}) i (demuxs r); asleep := asleep r |}.

Definition system_step `{Profile} (r : System) (e : Event) : outcome System :=
  match e with
  | Pause => Ret (pause r)
  | Resume => Ret (resume r)
  | Abort_ => Ret (abort r)
  | Stop => Ret (signal_stop r)
  | Drop_ => Ret (drop_guard r)
  | Wait i => Ret (wait_with_scheduler_status i r)
  | Update first second => update first second r
  | Exit i => Ret (exit_task i r)
  | Spurious i => Ret (spurious i r)
  end.

(** [n] demuxers that a scheduler has started. *)
Definition started (n : nat) : System :=
  {| status := STATUS_RUN; demuxs := replicate n {| waiter := SchWaiter_new; task_exited := false |}; asleep := replicate n false |}.
