(* ===== verification/ChokeSpec.v ===== *)
(** * What the input controller promises: the demuxers that are let run are exactly
    the sources of the streams that are not ahead, and there is one.  Choked demuxers
    sleep, released ones are awake, and a stop wakes nobody: the waiting of the demuxers
    ([util/sch_waiter.rs]) composed with the input controller and the controls of the
    scheduler ([ffmpeg_scheduler.rs]). *)

From stdpp Require Import base list option sets.
From Stdlib Require Import ZArith Lia.
From S2P Require Import Prelude RustInt Choke.

Local Open Scope Z_scope.

(** The streams that the loop feeds, in a build that returns. *)
Definition wants `{Profile} (dts : Z) (s : MuxStream) : Prop := wanted dts s = Ret true.

(** The demuxers that are to run, after [first] and [second] were read: the sources
    of the streams that are fed, or the first that is alive. *)
Definition runs `{Profile} (first second : list MuxStream) (demuxs : list DemuxNode) (d : nat) : Prop :=
  (exists s, s ∈ second /\ wants (trailing_dts first) s /\ source (src s) = Ret d) \/
  (forall s, s ∈ second -> ~ wants (trailing_dts first) s) /\ first_alive demuxs 0 = Some d.

Lemma length_unchoke d l : length (unchoke d l) = length l.
Proof. apply length_alter. Qed.

Lemma unchoke_lookup d l i :
  unchoke d l !! i = if decide (i = d) then (fun n => set_waiter (set_choked_next false (waiter n)) n) <$> l !! i else l !! i.
Proof.
  unfold unchoke. destruct (decide (i = d)) as [->|]; [apply list_lookup_alter_eq|by apply list_lookup_alter_ne].
Qed.

(** The loop over the streams: it keeps all but [choked_next], which it clears for
    the sources. *)
Definition marked (P : nat -> Prop) (l l' : list DemuxNode) : Prop :=
  length l' = length l /\
  forall i d, l !! i = Some d -> exists d', l' !! i = Some d' /\ task_exited d' = task_exited d /\
    choked (waiter d') = choked (waiter d) /\ choked_prev (waiter d') = choked_prev (waiter d) /\
    (choked_next (waiter d') = false <-> choked_next (waiter d) = false \/ P i).

Lemma marked_refl l : marked (fun _ => False) l l.
Proof. split; [done|]. intros i d H. exists d. split_and!; try done. tauto. Qed.

Lemma marked_unchoke P l l' d :
  marked P l l' -> marked (fun i => P i \/ i = d) l (unchoke d l').
Proof.
  intros [Hlen H]. split; [by rewrite length_unchoke|]. intros i n Hn. destruct (H i n Hn) as (n' & Hn' & He & Hc & Hp & Hx).
  rewrite unchoke_lookup, Hn'. destruct (decide (i = d)) as [->|Hne]; cbn [fmap option_fmap option_map].
  - eexists. split; [done|]. cbn. split_and!; try done. tauto.
  - exists n'. split_and!; try done. rewrite Hx. tauto.
Qed.

Lemma marked_ext (P Q : nat -> Prop) l l' : (forall i, P i <-> Q i) -> marked P l l' -> marked Q l l'.
Proof.
  intros HPQ [Hlen H]. split; [done|]. intros i n Hn. destruct (H i n Hn) as (n' & Hn' & He & Hc & Hp & Hx).
  exists n'. split_and!; try done. by rewrite Hx, HPQ.
Qed.

Lemma first_alive_ext l l' i :
  length l' = length l -> (forall j d, l !! j = Some d -> exists d', l' !! j = Some d' /\ task_exited d' = task_exited d) ->
  first_alive l' i = first_alive l i.
Proof.
  revert l' i. induction l as [|d l IH]; intros [|d' l'] i Hlen H; try done. cbn [first_alive].
  destruct (H 0%nat d eq_refl) as (? & [= <-] & ->). destruct (task_exited d); [|done]. apply IH; [by injection Hlen|].
  intros j. apply (H (S j)).
Qed.

Section Update.
  Context `{Prof : Profile}.

Lemma loop_marks dts l0 second l b l1 b1 P :
  foldM (fun '(demuxs, have_unchoked) s =>
    w ← wanted dts s;
    if w : bool then demuxs ← unchoke_for_stream (src s) demuxs; Ret (demuxs, true)
    else Ret (demuxs, have_unchoked)) (l, b) second = Ret (l1, b1) ->
  marked P l0 l ->
  marked (fun i => P i \/ exists s, s ∈ second /\ wants dts s /\ source (src s) = Ret i) l0 l1 /\
  (b1 = true <-> b = true \/ exists s, s ∈ second /\ wants dts s) /\
  (forall s, s ∈ second -> wants dts s -> exists d, source (src s) = Ret d).
Proof.
  revert l b P. induction second as [|s second IH]; intros l b P.
  { cbn [foldM]. intros [= <- <-] Hm. split; [|split].
    - eapply marked_ext; [|exact Hm]. intros i. set_solver.
    - set_solver.
    - set_solver. }
  cbn [foldM]. intros (st & Hst & Hrest)%bind_Ret Hm. apply bind_Ret in Hst as ([] & Hw & Hst).
  - apply bind_Ret in Hst as (l' & Hl' & Hst). apply Ret_inj in Hst as <-.
    unfold unchoke_for_stream in Hl'. apply bind_Ret in Hl' as (d & Hd & Hl').
    apply Ret_inj in Hl' as <-.
    destruct (IH _ _ _ Hrest (marked_unchoke P l0 l d Hm)) as (H1 & H2 & H3). split; [|split].
    + eapply marked_ext; [|exact H1]. intros i. split.
      * intros [[HP| ->]|(s' & Hin & Hs')]; [by left|right; exists s; set_solver|right; exists s'; set_solver].
      * intros [HP|(s' & [->|Hin]%elem_of_cons & Hw' & Hs')]; [by left; left|left; right; congruence|right; by exists s'].
    + rewrite H2. split; [intros _; right; exists s; set_solver|by left].
    + intros s' [->|Hin]%elem_of_cons Hw'; [by exists d|by apply H3].
  - apply Ret_inj in Hst as <-. destruct (IH _ _ _ Hrest Hm) as (H1 & H2 & H3). split; [|split].
    + eapply marked_ext; [|exact H1]. intros i. split.
      * intros [HP|(s' & Hin & Hs')]; [by left|right; exists s'; set_solver].
      * intros [HP|(s' & [->|Hin]%elem_of_cons & Hw' & Hs')]; [by left|unfold wants in Hw'; congruence|right; by exists s'].
    + rewrite H2. split; (intros [Hb|(s' & Hin & Hw')]; [by left|right]); [exists s'; set_solver|].
      apply elem_of_cons in Hin as [->|Hin]; [unfold wants in Hw'; congruence|by exists s'].
    + intros s' [->|Hin]%elem_of_cons Hw'; [unfold wants in Hw'; congruence|by apply H3].
Qed.

Lemma first_alive_lt l : forall i d, first_alive l i = Some d -> (i <= d < i + length l)%nat.
Proof.
  induction l as [|n l IH]; intros i d; [done|]. cbn [first_alive length]. destruct (task_exited n).
  - intros H%IH. lia.
  - intros [= <-]. lia.
Qed.

Lemma apply_choke_spec d : choked (waiter (apply_choke d)) = if Bool.eqb (choked_prev (waiter d)) (choked_next (waiter d)) then choked (waiter d) else choked_next (waiter d).
Proof. unfold apply_choke. by destruct (Bool.eqb _ _). Qed.

(** After an update the demuxers that wait are exactly those that are not to run,
    whatever was choked before and whatever the other threads wrote between the two
    readings. *)
Theorem update_chokes_exactly (status : Z) (first second : list MuxStream) (demuxs demuxs' : list DemuxNode) (i : nat)
    (d : DemuxNode) :
  is_stopping status = false -> update_locked status first second demuxs = Ret demuxs' -> demuxs' !! i = Some d ->
  (choked (waiter d) = false <-> runs first second demuxs i).
Proof.
  intros Hst. unfold update_locked. rewrite Hst. cbv zeta. intros ([l1 b1] & Hloop & H)%bind_Ret Hd.
  apply Ret_inj in H as <-. rewrite list_lookup_fmap in Hd. cbv iota beta in Hd.
  destruct (loop_marks _ (prepare <$> demuxs) _ _ _ _ _ _ Hloop (marked_refl _)) as (Hm & Hb & Hsrc).
  set (final := if b1 then l1 else match first_alive l1 0 with Some d => unchoke d l1 | None => l1 end) in *.
  assert (marked (runs first second demuxs) (prepare <$> demuxs) final) as Hfinal.
  { assert (first_alive l1 0 = first_alive demuxs 0) as Hfa.
    { destruct Hm as [Hlen Hm]. apply first_alive_ext; [by rewrite Hlen, length_fmap|]. intros j n Hn.
      destruct (Hm j (prepare n)) as (n' & Hn' & He & _); [by rewrite list_lookup_fmap, Hn|]. by exists n'. }
    unfold final. destruct b1.
    - eapply marked_ext; [|exact Hm]. intros j. unfold runs. split; [intros [[]|H]; by left|].
      intros [H|[Hno _]]; [by right|]. destruct Hb as [Hb _]. destruct (Hb eq_refl) as [|(s & Hin & Hw)]; [done|].
      by destruct (Hno s Hin).
    - assert (forall s, s ∈ second -> ~ wants (trailing_dts first) s) as Hno.
      { intros s Hin Hw. destruct Hb as [_ Hb]. by specialize (Hb (or_intror (ex_intro _ s (conj Hin Hw)))). }
      rewrite Hfa. destruct (first_alive demuxs 0) as [k|] eqn:Ek.
      + eapply marked_ext; [|exact (marked_unchoke _ _ _ k Hm)]. intros j. unfold runs. split.
        * intros [[[]|(s & Hin & Hw & Hs)]| ->]; [left; by exists s|right; split; [done|by rewrite Ek]].
        * intros [(s & Hin & Hw & Hs)|[_ Hj]]; [left; right; by exists s|right; congruence].
      + eapply marked_ext; [|exact Hm]. intros j. unfold runs. split.
        * intros [[]|(s & Hin & Hw & Hs)]. left. by exists s.
        * intros [(s & Hin & Hw & Hs)|[_ Hj]]; [right; by exists s|congruence]. }
  destruct (final !! i) as [n|] eqn:Ei; [|done]. injection Hd as <-.
  destruct Hfinal as [Hlen Hf]. destruct (demuxs !! i) as [n0|] eqn:E0.
  2: { apply lookup_lt_Some in Ei. rewrite Hlen, length_fmap in Ei. apply lookup_ge_None in E0. lia. }
  destruct (Hf i (prepare n0)) as (n' & Hn' & _ & Hc & Hp & Hx); [by rewrite list_lookup_fmap, E0|].
  rewrite Ei in Hn'. injection Hn' as <-. rewrite apply_choke_spec, Hp, Hc. cbn in Hc, Hp, Hx |- *.
  assert (choked_next (waiter n) = false <-> runs first second demuxs i) as Hx' by (rewrite Hx; naive_solver).
  rewrite <-Hx'. by destruct (choked (waiter n0)), (choked_next (waiter n)).
Qed.

(** ** Somebody runs *)

Lemma foldl_min_le l : forall x, foldl Z.min x l <= x /\ (forall y, y ∈ l -> foldl Z.min x l <= y) /\ (foldl Z.min x l = x \/ foldl Z.min x l ∈ l).
Proof.
  induction l as [|y l IH]; intros x; cbn [foldl]; [split; [lia|split; [set_solver|by left]]|].
  destruct (IH (Z.min x y)) as (H1 & H2 & H3). split_and!; [lia| |].
  - intros z [->|Hz]%elem_of_cons; [lia|by apply H2].
  - destruct H3 as [H3|H3]; [|right; set_solver]. rewrite H3. destruct (Z.min_spec x y) as [[_ ->]|[_ ->]]; [by left|right; set_solver].
Qed.

(** The trailing stream is not ahead of itself; when no stream has a time yet, none
    is ahead. *)
Lemma trailing_wants streams s :
  s ∈ streams -> source_finished s = false -> exists s', s' ∈ streams /\ wants (trailing_dts streams) s'.
Proof.
  intros Hin Hf. unfold trailing_dts.
  set (f := fun s => if source_finished s then None else if last_dts s =? AV_NOPTS_VALUE then None else Some (last_dts s)).
  destruct (omap f streams) as [|x l] eqn:E.
  - exists s. split; [done|]. unfold wants, wanted. rewrite Hf.
    assert (f s = None) as Hn. { destruct (f s) as [y|] eqn:Ey; [|done]. assert (y ∈ omap f streams) as Hy by (apply list_elem_of_omap; by exists s). rewrite E in Hy. set_solver. }
    unfold f in Hn. rewrite Hf in Hn. destruct (last_dts s =? AV_NOPTS_VALUE) eqn:En; [|done]. done.
  - destruct (foldl_min_le l x) as (_ & _ & Hm). set (m := foldl Z.min x l) in *.
    assert (m ∈ omap f streams) as Hin' by (rewrite E; destruct Hm as [->|Hm]; set_solver).
    apply list_elem_of_omap in Hin' as (s' & Hs' & Hfs). exists s'. split; [done|]. unfold f in Hfs.
    destruct (source_finished s') eqn:Ef; [done|]. destruct (last_dts s' =? AV_NOPTS_VALUE) eqn:En; [done|]. injection Hfs as Hm'.
    unfold wants, wanted. rewrite Ef, <-Hm', En. cbn [negb andb]. unfold i64_sub. by rewrite Z.sub_diag.
Qed.

(** Times that the controller can compare: in a build that checks overflow they have 62
    bits, and none is missing (the muxer stores none that is). *)
Definition comparable (streams : list MuxStream) : Prop := overflow_checks = false \/ Forall (fun s => Z.abs (last_dts s) <= 2 ^ 61) streams.

Lemma trailing_bound streams :
  Forall (fun s => Z.abs (last_dts s) <= 2 ^ 61) streams -> trailing_dts streams = AV_NOPTS_VALUE \/ Z.abs (trailing_dts streams) <= 2 ^ 61.
Proof.
  intros Hs. unfold trailing_dts. destruct (omap _ streams) as [|x l] eqn:E; [by left|right].
  destruct (foldl_min_le l x) as (_ & _ & Hm). set (m := foldl Z.min x l) in *.
  assert (m ∈ x :: l) as Hin by (destruct Hm as [->|Hm]; set_solver). rewrite <-E in Hin. apply list_elem_of_omap in Hin as (s & Hin & Hm').
  rewrite Forall_forall in Hs. specialize (Hs s Hin). destruct (source_finished s); [done|]. destruct (_ =? _); [done|]. by injection Hm' as <-.
Qed.

Lemma wanted_returns first s :
  overflow_checks = false \/ (Z.abs (last_dts s) <= 2 ^ 61 /\ Forall (fun s => Z.abs (last_dts s) <= 2 ^ 61) first) -> exists b, wanted (trailing_dts first) s = Ret b.
Proof.
  intros Hfit. unfold wanted. destruct (source_finished s); [by eexists|]. destruct (_ && _); [by eexists|]. destruct (trailing_dts first =? AV_NOPTS_VALUE) eqn:E; [by eexists|].
  cbn [negb]. assert (exists x, i64_sub (last_dts s) (trailing_dts first) = Ret x) as [x ->]; [|by eexists]. unfold i64_sub. cbv zeta.
  destruct Hfit as [->|[Hs Hf]]; [destruct (_ && _); by eexists|]. apply Z.eqb_neq in E. destruct (trailing_bound _ Hf) as [?|Ht]; [done|].
  assert ((- 2 ^ 63 <=? last_dts s - trailing_dts first) && (last_dts s - trailing_dts first <? 2 ^ 63) = true) as ->; [|by eexists]. apply andb_true_iff. lia.
Qed.

(** An update of streams whose sources can be found returns. *)
Lemma update_returns status first second demuxs :
  comparable first -> comparable second -> Forall (fun s => exists i, source (src s) = Ret i /\ (i < length demuxs)%nat) second ->
  exists demuxs', update_locked status first second demuxs = Ret demuxs'.
Proof.
  intros Hf Hfit Hs. unfold update_locked. destruct (is_stopping status); [by eexists|]. cbv zeta.
  match goal with |- context [foldM ?f ?s ?l] => destruct (foldM_total (fun _ _ => True) f l s) as ([l1 b1] & -> & _); [done| |by eexists] end.
  intros done_ s rest [l1 b1] Heq _. assert (s ∈ second) as Hin by (rewrite Heq; set_solver). rewrite Forall_forall in Hs.
  destruct (Hs s Hin) as (i & Hi & _). destruct (wanted_returns first s) as [b ->].
  { destruct Hf as [?|Hf]; [by left|]. destruct Hfit as [?|Hsec]; [by left|right]. rewrite Forall_forall in Hsec. split; [by apply Hsec|done]. }
  cbn [mbind outcome_bind]. destruct b; [|by eexists]. unfold unchoke_for_stream. rewrite Hi. cbn [mbind outcome_bind]. by eexists.
Qed.

(** C39. While the scheduler is not stopping: when both readings of the times agree and the
    times can be compared, each stream's source is one of the listed demuxers, and some
    stream is not finished or some demuxer is alive, then the update returns, and some
    demuxer may run.  (A scheduler that stops leaves the demuxers as they are; and a
    stream without a time would overflow, in a checked build.) *)
Theorem some_input_runs (status : Z) (streams : list MuxStream) (demuxs : list DemuxNode) :
  is_stopping status = false -> comparable streams ->
  Forall (fun s => exists i, source (src s) = Ret i /\ (i < length demuxs)%nat) streams ->
  Exists (fun s => source_finished s = false) streams \/ Exists (fun d => task_exited d = false) demuxs ->
  exists demuxs', update_locked status streams streams demuxs = Ret demuxs' /\ exists i d, demuxs' !! i = Some d /\ choked (waiter d) = false.
Proof.
  intros Hst Hfit Hsrcs Hsome. destruct (update_returns status streams streams demuxs Hfit Hfit Hsrcs) as [demuxs' Hup]. exists demuxs'. split; [done|].
  assert (Forall (fun s => forall i, source (src s) = Ret i -> (i < length demuxs)%nat) streams) as Hlisted.
  { eapply Forall_impl; [exact Hsrcs|]. intros s (k & Hk & Hlt) i Hi. rewrite Hk in Hi. by apply Ret_inj in Hi as <-. }
  assert (exists i, runs streams streams demuxs i /\ (i < length demuxs')%nat) as (i & Hr & Hi).
  { pose proof Hup as Hup'. unfold update_locked in Hup'. rewrite Hst in Hup'. cbv zeta in Hup'.
    apply bind_Ret in Hup' as ([l1 b1] & Hloop & H). apply Ret_inj in H as <-.
    destruct (loop_marks _ (prepare <$> demuxs) _ _ _ _ _ _ Hloop (marked_refl _)) as ([Hlen _] & Hb & Hsrc).
    rewrite length_fmap in *. cbv iota beta.
    assert (length (if b1 then l1 else match first_alive l1 0 with Some d => unchoke d l1 | None => l1 end) = length demuxs) as ->.
    { destruct b1; [by rewrite Hlen|]. destruct (first_alive l1 0); [rewrite length_unchoke|]; by rewrite Hlen. }
    destruct b1.
    - destruct (proj1 Hb eq_refl) as [|(s & Hin & Hw)]; [done|]. destruct (Hsrc s Hin Hw) as (k & Hk). exists k.
      split; [left; by exists s|]. rewrite Forall_forall in Hlisted. by apply (Hlisted s).
    - assert (forall s, s ∈ streams -> ~ wants (trailing_dts streams) s) as Hno.
      { intros s Hin H. by specialize (proj2 Hb (or_intror (ex_intro _ s (conj Hin H)))). }
      destruct Hsome as [Hs|Hd].
      + apply Exists_exists in Hs as (s & Hin & Hf). destruct (trailing_wants streams s Hin Hf) as (s' & Hin' & Hw'). by destruct (Hno s').
      + assert (exists k, first_alive demuxs 0 = Some k) as [k Hk].
        { clear -Hd. generalize 0%nat. induction Hd as [d l Hd|d l _ IH]; intros i; cbn [first_alive]; [rewrite Hd; by eexists|].
          destruct (task_exited d); [apply IH|by eexists]. }
        exists k. split; [right; by split|]. apply first_alive_lt in Hk. lia. }
  destruct (lookup_lt_is_Some_2 demuxs' i Hi) as [d Hd]. exists i, d. split; [done|].
  by apply (update_chokes_exactly status streams streams demuxs demuxs' i d).
Qed.

End Update.

(** ** The code on small inputs *)

Definition running : DemuxNode := {| waiter := SchWaiter_new; task_exited := false |}.

(** Two inputs, the first far ahead of the second. *)
Definition ahead : list MuxStream :=
  [{| src := Filter [Demux 0] 0; last_dts := 5000000; source_finished := false |};
   {| src := Demux 1; last_dts := 1000000; source_finished := false |}].

Definition dev_update (streams : list MuxStream) (n : nat) : outcome (list bool) :=
  l ← @update_locked dev_profile STATUS_RUN streams streams (replicate n running); Ret (map (fun d => choked (waiter d)) l).
Definition release_update (streams : list MuxStream) (n : nat) : outcome (list bool) :=
  l ← @update_locked release_profile STATUS_RUN streams streams (replicate n running); Ret (map (fun d => choked (waiter d)) l).

Example the_trailing_input_runs : dev_update ahead 2 = Ret [true; false].
Proof. by vm_compute. Qed.

(** A filter graph without inputs: the place of the wanted input is out of range. *)
Example source_graph_panics : dev_update [{| src := Filter [] 0; last_dts := AV_NOPTS_VALUE; source_finished := false |}] 1 = Panic.
Proof. by vm_compute. Qed.

(** The controller has a case for streams without a time, which the muxer never
    stores: [new_stream] starts at 0.  If it did, the smallest [i64] minus the
    trailing time would overflow. *)
Definition one_started : list MuxStream :=
  [{| src := Demux 0; last_dts := 40000; source_finished := false |};
   {| src := Demux 1; last_dts := AV_NOPTS_VALUE; source_finished := false |}].

Example unstarted_stream_overflows : dev_update one_started 2 = Panic /\ release_update one_started 2 = Ret [false; true].
Proof. by vm_compute. Qed.

(** The result of the first example, for the witnesses. *)
Definition ahead_result : list DemuxNode :=
  match @update_locked dev_profile STATUS_RUN ahead ahead [running; running] with Ret l => l | _ => [] end.

Lemma update_chokes_exactly_witness :
  exists d, ahead_result !! 1%nat = Some d /\ choked (waiter d) = false /\ @runs dev_profile ahead ahead [running; running] 1.
Proof.
  eexists. split; [reflexivity|]. split; [reflexivity|].
  apply (proj1 (@update_chokes_exactly dev_profile STATUS_RUN ahead ahead [running; running] ahead_result 1 _ eq_refl eq_refl eq_refl)).
  reflexivity.
Defined.

Lemma some_input_runs_witness :
  @update_locked dev_profile STATUS_RUN ahead ahead [running; running] = Ret ahead_result /\
  exists i d, ahead_result !! i = Some d /\ choked (waiter d) = false.
Proof.
  split; [reflexivity|].
  destruct (@some_input_runs dev_profile STATUS_RUN ahead [running; running] eq_refl) as (l & Hl & H).
  - right. repeat (apply Forall_cons; split; [cbn; lia|]). by apply Forall_nil.
  - repeat (apply Forall_cons; split; [eexists; split; [reflexivity|cbn; lia]|]). by apply Forall_nil.
  - left. by constructor.
  - unfold ahead_result. rewrite Hl. exact H.
Defined.


Section Sleep.
  Context `{Prof : Profile}.

(** What an update does to the flags of a demuxer: without a notification [choked]
    stays. *)
Lemma update_flags status first second l l' :
  is_stopping status = false -> update_locked status first second l = Ret l' ->
  length l' = length l /\
  forall i d', l' !! i = Some d' -> exists d, l !! i = Some d /\
    (notified (waiter d') = false -> choked (waiter d') = choked (waiter d)).
Proof.
  intros Hst. unfold update_locked. rewrite Hst. cbv zeta. intros ([l1 b1] & Hloop & H)%bind_Ret.
  apply Ret_inj in H as <-. cbv iota beta.
  destruct (loop_marks _ (prepare <$> l) _ _ _ _ _ _ Hloop (marked_refl _)) as (Hm & _).
  set (final := if b1 then l1 else match first_alive l1 0 with Some d => unchoke d l1 | None => l1 end).
  assert (exists P, marked P (prepare <$> l) final) as (P & Hlen & Hf).
  { unfold final. destruct b1; [by eexists|]. destruct (first_alive l1 0); [|by eexists].
    eexists. by apply marked_unchoke. }
  rewrite length_fmap in Hlen |- *. split; [done|]. intros i d' Hd. rewrite list_lookup_fmap in Hd.
  destruct (final !! i) as [n|] eqn:Ei; [|done]. injection Hd as <-.
  destruct (l !! i) as [n0|] eqn:E0.
  2: { apply lookup_lt_Some in Ei. apply lookup_ge_None in E0. lia. }
  destruct (Hf i (prepare n0)) as (n' & Hn' & _ & Hc & Hp & Hx); [by rewrite list_lookup_fmap, E0|].
  rewrite Ei in Hn'. injection Hn' as <-. exists n0. split; [done|]. unfold notified, apply_choke.
  cbn in Hc, Hp. destruct (Bool.eqb (choked_prev (waiter n)) (choked_next (waiter n))) eqn:E; cbn; [done|]. by rewrite E.
Qed.

(** A sleeper is choked. *)
Definition sleepers_choked (r : System) : Prop :=
  length (asleep r) = length (demuxs r) /\
  forall i, asleep r !! i = Some true -> exists d, demuxs r !! i = Some d /\ choked (waiter d) = true.

Lemma look_true status d a : look status a d = true -> a = true /\ choked (waiter d) = true.
Proof. unfold look, keeps_waiting. destruct a, (choked (waiter d)); naive_solver. Qed.

Lemma set_status_keeps s r : sleepers_choked r -> sleepers_choked (set_status s r).
Proof. done. Qed.

Lemma update_keeps first second r r' : sleepers_choked r -> update first second r = Ret r' -> sleepers_choked r'.
Proof.
  intros [Hlen Hs]. unfold update. intros (l & Hl & H)%bind_Ret. destruct (is_stopping (status r)) eqn:Est.
  { apply Ret_inj in H as <-. unfold update_locked in Hl. rewrite Est in Hl. by apply Ret_inj in Hl as <-. }
  apply Ret_inj in H as <-. destruct (update_flags _ _ _ _ _ Est Hl) as [Hlen' Hf]. split; cbn [demuxs asleep].
  - rewrite length_zip_with. lia.
  - intros i Hi. apply lookup_zip_with_Some in Hi as (a & d & Ha & Ea & Ed). exists d. split; [done|].
    destruct (notified (waiter d)) eqn:En; [symmetry in Ha; by apply look_true in Ha as []|].
    destruct (Hf i d Ed) as (d0 & Hd0 & Hc). rewrite Hc by done. subst a.
    destruct (Hs i Ea) as (d1 & Hd1 & Hch). congruence.
Qed.

Lemma wait_keeps i r : sleepers_choked r -> sleepers_choked (wait_with_scheduler_status i r).
Proof.
  intros [Hlen Hs]. unfold wait_with_scheduler_status. destruct (demuxs r !! i) as [d|] eqn:Ed; [|done].
  destruct (keeps_waiting _ _) eqn:Ek; [|done]. split; cbn [set_asleep asleep demuxs]; [by rewrite length_insert|].
  intros j. destruct (decide (i = j)) as [<-|].
  - intros _. exists d. split; [done|]. by apply andb_prop in Ek as [].
  - rewrite list_lookup_insert_ne by done. apply Hs.
Qed.

Lemma spurious_keeps i r : sleepers_choked r -> sleepers_choked (spurious i r).
Proof.
  intros [Hlen Hs]. unfold spurious. destruct (demuxs r !! i) as [d|] eqn:Ed; [|done].
  split; cbn [set_asleep asleep demuxs]; [by rewrite length_alter|]. intros j. destruct (decide (i = j)) as [<-|].
  - rewrite list_lookup_alter_eq. intros (a & _ & Ha%eq_sym)%fmap_Some. apply look_true in Ha as []. by exists d.
  - rewrite list_lookup_alter_ne by done. apply Hs.
Qed.

Lemma exit_keeps i r : sleepers_choked r -> sleepers_choked (exit_task i r).
Proof.
  intros [Hlen Hs]. split; cbn [exit_task asleep demuxs]; [by rewrite length_alter|]. intros j Hj.
  destruct (Hs j Hj) as (d & Hd & Hc). destruct (decide (i = j)) as [<-|].
  - rewrite list_lookup_alter_eq, Hd. by eexists.
  - rewrite list_lookup_alter_ne by done. by exists d.
Qed.

Lemma system_step_keeps r e r' : sleepers_choked r -> system_step r e = Ret r' -> sleepers_choked r'.
Proof.
  intros H. destruct e; cbn [system_step]; try (intros <-%Ret_inj).
  - unfold pause. by destruct (is_stopping _).
  - unfold resume. by destruct (is_stopping _).
  - done.
  - done.
  - unfold drop_guard. by destruct (is_stopping _).
  - by apply wait_keeps.
  - by apply update_keeps.
  - by apply exit_keeps.
  - by apply spurious_keeps.
Qed.

Lemma started_sleepers n : sleepers_choked (started n).
Proof.
  split; cbn [started asleep demuxs]; [by rewrite !length_replicate|]. intros i [? _]%lookup_replicate. done.
Qed.

Lemma run_keeps events r n : foldM system_step (started n) events = Ret r -> sleepers_choked r.
Proof.
  intros H. apply (foldM_inv (fun _ r => sleepers_choked r) system_step events (started n) r (started_sleepers n)); [|done].
  intros done x rest r1 r2 _ H1 H2. by eapply system_step_keeps.
Qed.

(** Whatever happened before - waits, updates, pauses, spurious wake-ups in any order
    - an update of a scheduler that is not stopping leaves awake every demuxer that is
    to run, and sends to sleep every other that comes to wait: no wake-up is lost. *)
Theorem released_demuxers_are_awake (n : nat) (events : list Event) (first second : list MuxStream) (r r' : System) (i : nat) :
  foldM system_step (started n) events = Ret r -> is_stopping (status r) = false ->
  update first second r = Ret r' -> (i < length (demuxs r'))%nat ->
  (runs first second (demuxs r) i -> asleep r' !! i = Some false) /\
  (~ runs first second (demuxs r) i -> asleep (wait_with_scheduler_status i r') !! i = Some true).
Proof.
  intros Hrun Hst Hup Hi. pose proof (run_keeps _ _ _ Hrun) as Hs. pose proof (update_keeps _ _ _ _ Hs Hup) as [Hlen Hs'].
  assert (status r' = status r /\ update_locked (status r) first second (demuxs r) = Ret (demuxs r')) as [Est Hul].
  { unfold update in Hup. rewrite Hst in Hup. apply bind_Ret in Hup as (l & Hl & <-%Ret_inj). by split. }
  destruct (lookup_lt_is_Some_2 (demuxs r') i Hi) as [d Hd].
  destruct (lookup_lt_is_Some_2 (asleep r') i) as [a Ha]; [lia|].
  pose proof (update_chokes_exactly _ _ _ _ _ i d Hst Hul Hd) as Hex. split.
  - intros Hr%Hex. destruct a; [|done]. destruct (Hs' i Ha) as (d' & Hd' & Hc). congruence.
  - intros Hr. unfold wait_with_scheduler_status. rewrite Hd, Est. unfold keeps_waiting.
    destruct (choked (waiter d)) eqn:Ec; [|by destruct Hr; apply Hex].
    assert ((status r =? STATUS_END) = false) as ->.
    { unfold is_stopping in Hst. by apply orb_false_elim in Hst as []. }
    cbn [negb andb set_asleep asleep]. apply list_lookup_insert_eq. lia.
Qed.

(** ** Stopping *)

Definition is_spurious (e : Event) : bool := match e with Spurious _ => true | _ => false end.

(** A step from a stopping scheduler that is no spurious wake-up wakes nobody. *)
Lemma stopped_step r e r' i :
  is_stopping (status r) = true -> is_spurious e = false -> system_step r e = Ret r' -> asleep r !! i = Some true ->
  is_stopping (status r') = true /\ asleep r' !! i = Some true.
Proof.
  intros Hst Hsp Hstep Ha. destruct e; cbn [system_step] in Hstep; try (apply Ret_inj in Hstep as <-).
  - unfold pause. by rewrite Hst.
  - unfold resume. by rewrite Hst.
  - by split.
  - by split.
  - unfold drop_guard. by rewrite Hst.
  - unfold wait_with_scheduler_status. destruct (demuxs r !! _); [|done]. destruct (keeps_waiting _ _); [|done].
    split; [done|]. cbn [set_asleep asleep]. destruct (decide (i0 = i)) as [->|].
    + apply list_lookup_insert_eq. by eapply lookup_lt_Some.
    + by rewrite list_lookup_insert_ne.
  - unfold update in Hstep. apply bind_Ret in Hstep as (l & _ & H). rewrite Hst in H. by apply Ret_inj in H as <-.
  - by split.
  - done.
Qed.

(** A stop - [stop], [abort], or the drop of the scheduler - wakes no demuxer: the
    ones that sleep sleep on, through every later call of the scheduler and the
    controller, until the condition variable wakes them by chance. *)
Theorem stop_wakes_nobody (r r' : System) (events : list Event) (i : nat) :
  is_stopping (status r) = true -> asleep r !! i = Some true -> Forall (fun e => is_spurious e = false) events ->
  foldM system_step r events = Ret r' -> is_stopping (status r') = true /\ asleep r' !! i = Some true.
Proof.
  intros Hst Ha Hev. revert r Hst Ha. induction Hev as [|e events He _ IH]; intros r Hst Ha; cbn [foldM].
  - by intros <-%Ret_inj.
  - intros (r1 & H1 & H2)%bind_Ret. destruct (stopped_step _ _ _ i Hst He H1 Ha). by apply (IH r1).
Qed.

End Sleep.

(** ** The code on small inputs *)

(** The first of two demuxers is far ahead: it is choked, comes to wait, and sleeps. *)
Definition history : list Event := [Update ahead ahead; Wait 0; Wait 1].

Definition after (events : list Event) : System :=
  match foldM (@system_step dev_profile) (started 2) events with Ret r => r | _ => started 0 end.

Example the_one_ahead_sleeps : asleep (after history) = [true; false].
Proof. by vm_compute. Qed.

(** The other one has caught up. *)
Definition level : list MuxStream :=
  [{| src := Filter [Demux 0] 0; last_dts := 5000000; source_finished := false |};
   {| src := Demux 1; last_dts := 5000000; source_finished := false |}].

Example it_is_woken : asleep (after (history ++ [Update level level])) = [false; false].
Proof. by vm_compute. Qed.

(** Stopped before that, it sleeps for ever. *)
Example it_is_not_woken : asleep (after (history ++ [Stop; Update level level; Drop_])) = [true; false].
Proof. by vm_compute. Qed.

Lemma released_demuxers_are_awake_witness :
  asleep (after (history ++ [Update level level])) !! 0%nat = Some false.
Proof.
  apply (proj1 (@released_demuxers_are_awake dev_profile 2 history level level (after history) (after (history ++ [Update level level])) 0
    eq_refl eq_refl eq_refl ltac:(vm_compute; lia))).
  left. exists {| src := Filter [Demux 0] 0; last_dts := 5000000; source_finished := false |}.
  split; [left|]. split; reflexivity.
Defined.

Lemma stop_wakes_nobody_witness :
  asleep (after (history ++ [Stop])) !! 0%nat = Some true /\
  asleep (after (history ++ [Stop; Update level level; Drop_])) !! 0%nat = Some true.
Proof.
  split; [reflexivity|].
  apply (@stop_wakes_nobody dev_profile (after (history ++ [Stop])) (after (history ++ [Stop; Update level level; Drop_])) [Update level level; Drop_] 0).
  - reflexivity.
  - reflexivity.
  - repeat constructor.
  - reflexivity.
Defined.
