(* ===== verification/Errors.v ===== *)
(** * The errors of ez-ffmpeg ([error.rs])

    One Module per enum: its variants, the conversion from the codes of libav where
    there is one, and the message of each error.  The errors of other crates that two
    variants carry are their messages.  A conversion keeps the code: two different
    codes never give the same error.  The equality of [Error] is not reflexive. *)

From stdpp Require Import base list option strings.
From Stdlib Require Import ZArith Lia Ascii.
From S2P Require Import Prelude RustInt RustStr.


Local Open Scope string_scope.
Local Open Scope Z_scope.

(** ** Codes

    [AVERROR(e)] is [-e], for the numbers of Linux; the codes of libav are tags of four
    characters. *)

Definition AVERROR (e : Z) : Z := - e.
Definition FFERRTAG (a b c d : Z) : Z := - Z.lor (Z.lor a (Z.shiftl b 8)) (Z.lor (Z.shiftl c 16) (Z.shiftl d 24)).
Definition AVERROR_EOF : Z := FFERRTAG 69 79 70 32.
Definition AVERROR_INVALIDDATA : Z := FFERRTAG 73 78 68 65.
Definition AVERROR_OPTION_NOT_FOUND : Z := FFERRTAG 248 79 80 84.
Definition AVERROR_ENCODER_NOT_FOUND : Z := FFERRTAG 248 69 78 67.

Definition AVERROR_OUT_OF_MEMORY : Z := AVERROR 12.
Definition AVERROR_INVALID_ARGUMENT : Z := AVERROR 22.
Definition AVERROR_NOT_FOUND : Z := AVERROR 2.
Definition AVERROR_IO_ERROR : Z := AVERROR 5.
Definition AVERROR_PIPE_ERROR : Z := AVERROR 32.
Definition AVERROR_BAD_FILE_DESCRIPTOR : Z := AVERROR 9.
Definition AVERROR_NOT_IMPLEMENTED : Z := AVERROR 38.
Definition AVERROR_OPERATION_NOT_PERMITTED : Z := AVERROR 1.
Definition AVERROR_PERMISSION_DENIED : Z := AVERROR 13.
Definition AVERROR_TIMEOUT : Z := AVERROR 110.
Definition AVERROR_NOT_SOCKET : Z := AVERROR 88.
Definition AVERROR_AGAIN : Z := AVERROR 11.

(** [{0}] of an [i32]. *)
Definition dec_i32 (x : Z) : string := if x <? 0 then "-" ++ dec (- x) else dec x.

(** [match err_code], with its arms in order. *)
Fixpoint match_code {E} (arms : list (Z * E)) (unknown : Z -> E) (err_code : Z) : E :=
  match arms with
  | [] => unknown err_code
  | (code, e) :: arms => if err_code =? code then e else match_code arms unknown err_code
  end.

(** ** The enums *)

Module DemuxingError.

Inductive DemuxingError :=
  | OutOfMemory | InvalidArgument | IOError | EndOfFile | TryAgain | NotImplemented | OperationNotPermitted
  | BadFileDescriptor | InvalidData | UnknownError (a : Z).

Definition DemuxingError_codes : list (Z * DemuxingError) :=
  [(AVERROR_OUT_OF_MEMORY, OutOfMemory); (AVERROR_INVALID_ARGUMENT, InvalidArgument);
   (AVERROR_IO_ERROR, IOError); (AVERROR_EOF, EndOfFile);
   (AVERROR_AGAIN, TryAgain); (AVERROR_NOT_IMPLEMENTED, NotImplemented);
   (AVERROR_OPERATION_NOT_PERMITTED, OperationNotPermitted); (AVERROR_BAD_FILE_DESCRIPTOR, BadFileDescriptor);
   (AVERROR_INVALIDDATA, InvalidData)].

Definition DemuxingError_from (err_code : Z) : DemuxingError := match_code DemuxingError_codes UnknownError err_code.

Definition DemuxingError_to_string (e : DemuxingError) : string :=
  match e with
  | OutOfMemory => "Memory allocation error"
  | InvalidArgument => "Invalid argument provided"
  | IOError => "I/O error occurred during demuxing"
  | EndOfFile => "End of file reached during demuxing"
  | TryAgain => "Resource temporarily unavailable"
  | NotImplemented => "Functionality not implemented or unsupported"
  | OperationNotPermitted => "Operation not permitted"
  | BadFileDescriptor => "Bad file descriptor encountered"
  | InvalidData => "Invalid data found when processing input"
  | UnknownError a => "An unknown error occurred. ret:" ++ dec_i32 a
  end.

End DemuxingError.

Module DemuxingOperationError.

Inductive DemuxingOperationError :=
  | ReadFrameError (a : DemuxingError.DemuxingError) | PacketRefError (a : DemuxingError.DemuxingError)
  | SeekFileError (a : DemuxingError.DemuxingError) | ThreadExited.

Definition DemuxingOperationError_to_string (e : DemuxingOperationError) : string :=
  match e with
  | ReadFrameError a => "while reading frame: " ++ DemuxingError.DemuxingError_to_string a
  | PacketRefError a => "while referencing packet: " ++ DemuxingError.DemuxingError_to_string a
  | SeekFileError a => "while seeking file: " ++ DemuxingError.DemuxingError_to_string a
  | ThreadExited => "Thread exited"
  end.

End DemuxingOperationError.

Module DecodingError.

Inductive DecodingError :=
  | OutOfMemory | InvalidArgument | IOError | Timeout | PipeError | BadFileDescriptor | NotImplemented
  | OperationNotPermitted | TryAgain | UnknownError (a : Z).

Definition DecodingError_codes : list (Z * DecodingError) :=
  [(AVERROR_OUT_OF_MEMORY, OutOfMemory); (AVERROR_INVALID_ARGUMENT, InvalidArgument);
   (AVERROR_IO_ERROR, IOError); (AVERROR_TIMEOUT, Timeout);
   (AVERROR_PIPE_ERROR, PipeError); (AVERROR_BAD_FILE_DESCRIPTOR, BadFileDescriptor);
   (AVERROR_NOT_IMPLEMENTED, NotImplemented); (AVERROR_OPERATION_NOT_PERMITTED, OperationNotPermitted);
   (AVERROR_AGAIN, TryAgain)].

Definition DecodingError_from (err_code : Z) : DecodingError := match_code DecodingError_codes UnknownError err_code.

Definition DecodingError_to_string (e : DecodingError) : string :=
  match e with
  | OutOfMemory => "Memory allocation error"
  | InvalidArgument => "Invalid argument provided"
  | IOError => "I/O error occurred during decoding"
  | Timeout => "Timeout occurred during decoding"
  | PipeError => "Broken pipe encountered during decoding"
  | BadFileDescriptor => "Bad file descriptor encountered during decoding"
  | NotImplemented => "Unsupported functionality or format encountered"
  | OperationNotPermitted => "Operation not permitted"
  | TryAgain => "Resource temporarily unavailable"
  | UnknownError a => "An unknown decoding error occurred. ret:" ++ dec_i32 a
  end.

End DecodingError.

Module DecodingOperationError.

Inductive DecodingOperationError :=
  | FrameRefError (a : DecodingError.DecodingError) | FrameCopyPropsError (a : DecodingError.DecodingError)
  | DecodeSubtitleError (a : DecodingError.DecodingError) | CopySubtitleError (a : DecodingError.DecodingError)
  | SendPacketError (a : DecodingError.DecodingError) | ReceiveFrameError (a : DecodingError.DecodingError)
  | FrameAllocationError (a : DecodingError.DecodingError) | PacketAllocationError (a : DecodingError.DecodingError)
  | SubtitleAllocationError (a : DecodingError.DecodingError) | CorruptFrame
  | HWRetrieveDataError (a : DecodingError.DecodingError) | CroppingError (a : DecodingError.DecodingError).

Definition DecodingOperationError_to_string (e : DecodingOperationError) : string :=
  match e with
  | FrameRefError a => "during frame reference creation: " ++ DecodingError.DecodingError_to_string a
  | FrameCopyPropsError a => "during frame properties copy: " ++ DecodingError.DecodingError_to_string a
  | DecodeSubtitleError a => "during subtitle decoding: " ++ DecodingError.DecodingError_to_string a
  | CopySubtitleError a => "during subtitle copy: " ++ DecodingError.DecodingError_to_string a
  | SendPacketError a => "during packet submission to decoder: " ++ DecodingError.DecodingError_to_string a
  | ReceiveFrameError a => "during frame reception from decoder: " ++ DecodingError.DecodingError_to_string a
  | FrameAllocationError a => "during frame allocation: " ++ DecodingError.DecodingError_to_string a
  | PacketAllocationError a => "during packet allocation: " ++ DecodingError.DecodingError_to_string a
  | SubtitleAllocationError a => "during AVSubtitle allocation: " ++ DecodingError.DecodingError_to_string a
  | CorruptFrame => "corrupt decoded frame"
  | HWRetrieveDataError a => "during retrieve data on hw: " ++ DecodingError.DecodingError_to_string a
  | CroppingError a => "during cropping: " ++ DecodingError.DecodingError_to_string a
  end.

End DecodingOperationError.

Module OpenDecoderError.

Inductive OpenDecoderError :=
  | OutOfMemory | InvalidArgument | NotImplemented | TryAgain | IOError | UnknownError (a : Z).

Definition OpenDecoderError_codes : list (Z * OpenDecoderError) :=
  [(AVERROR_OUT_OF_MEMORY, OutOfMemory); (AVERROR_INVALID_ARGUMENT, InvalidArgument);
   (AVERROR_NOT_IMPLEMENTED, NotImplemented); (AVERROR_AGAIN, TryAgain);
   (AVERROR_IO_ERROR, IOError)].

Definition OpenDecoderError_from (err_code : Z) : OpenDecoderError := match_code OpenDecoderError_codes UnknownError err_code.

Definition OpenDecoderError_to_string (e : OpenDecoderError) : string :=
  match e with
  | OutOfMemory => "Memory allocation error during decoder initialization"
  | InvalidArgument => "Invalid argument provided during decoder initialization"
  | NotImplemented => "Functionality not implemented or unsupported during decoder initialization"
  | TryAgain => "Resource temporarily unavailable during decoder initialization"
  | IOError => "I/O error occurred during decoder initialization"
  | UnknownError a => "An unknown error occurred during decoder initialization: " ++ dec_i32 a
  end.

End OpenDecoderError.

Module OpenDecoderOperationError.

Inductive OpenDecoderOperationError :=
  | ContextAllocationError (a : OpenDecoderError.OpenDecoderError)
  | ParameterApplicationError (a : OpenDecoderError.OpenDecoderError)
  | DecoderOpenError (a : OpenDecoderError.OpenDecoderError)
  | ChannelLayoutCopyError (a : OpenDecoderError.OpenDecoderError)
  | HwSetupError (a : OpenDecoderError.OpenDecoderError) | InvalidName | ThreadExited.

Definition OpenDecoderOperationError_to_string (e : OpenDecoderOperationError) : string :=
  match e with
  | ContextAllocationError a => "during context allocation: " ++ OpenDecoderError.OpenDecoderError_to_string a
  | ParameterApplicationError a => "while applying parameters to context: " ++ OpenDecoderError.OpenDecoderError_to_string a
  | DecoderOpenError a => "while opening decoder: " ++ OpenDecoderError.OpenDecoderError_to_string a
  | ChannelLayoutCopyError a => "while copying channel layout: " ++ OpenDecoderError.OpenDecoderError_to_string a
  | HwSetupError a => "while Hw setup: " ++ OpenDecoderError.OpenDecoderError_to_string a
  | InvalidName => "Invalid decoder name"
  | ThreadExited => "Thread exited"
  end.

End OpenDecoderOperationError.

Module FilterGraphError.

Inductive FilterGraphError :=
  | OutOfMemory | InvalidArgument | IOError | PipeError | BadFileDescriptor | NotImplemented | OperationNotPermitted
  | TryAgain | EOF | UnknownError (a : Z).

Definition FilterGraphError_codes : list (Z * FilterGraphError) :=
  [(AVERROR_OUT_OF_MEMORY, OutOfMemory); (AVERROR_INVALID_ARGUMENT, InvalidArgument);
   (AVERROR_IO_ERROR, IOError); (AVERROR_PIPE_ERROR, PipeError);
   (AVERROR_BAD_FILE_DESCRIPTOR, BadFileDescriptor); (AVERROR_NOT_IMPLEMENTED, NotImplemented);
   (AVERROR_OPERATION_NOT_PERMITTED, OperationNotPermitted); (AVERROR_AGAIN, TryAgain);
   (AVERROR_EOF, EOF)].

Definition FilterGraphError_from (err_code : Z) : FilterGraphError := match_code FilterGraphError_codes UnknownError err_code.

Definition FilterGraphError_to_string (e : FilterGraphError) : string :=
  match e with
  | OutOfMemory => "Memory allocation error during filter graph processing"
  | InvalidArgument => "Invalid argument provided to filter graph processing"
  | IOError => "I/O error occurred during filter graph processing"
  | PipeError => "Broken pipe during filter graph processing"
  | BadFileDescriptor => "Bad file descriptor encountered during filter graph processing"
  | NotImplemented => "Functionality not implemented or unsupported during filter graph processing"
  | OperationNotPermitted => "Operation not permitted during filter graph processing"
  | TryAgain => "Resource temporarily unavailable during filter graph processing"
  | EOF => "EOF"
  | UnknownError a => "An unknown error occurred during filter graph processing. ret:" ++ dec_i32 a
  end.

End FilterGraphError.

Module FilterGraphParseError.

Inductive FilterGraphParseError :=
  | OutOfMemory | InvalidArgument | EndOfFile | IOError | InvalidData | NotImplemented | PermissionDenied | NotSocket
  | OptionNotFound | InvalidFileIndexInFg (a : Z) (b : string) | InvalidFileIndexInOutput (a : Z) (b : string)
  | InvalidFilterSpecifier (a : string) | OutputUnconnected (a : string) (b : Z) (c : string) | UnknownError (a : Z).

Definition FilterGraphParseError_codes : list (Z * FilterGraphParseError) :=
  [(AVERROR_OUT_OF_MEMORY, OutOfMemory); (AVERROR_INVALID_ARGUMENT, InvalidArgument);
   (AVERROR_EOF, EndOfFile); (AVERROR_IO_ERROR, IOError);
   (AVERROR_INVALIDDATA, InvalidData); (AVERROR_NOT_IMPLEMENTED, NotImplemented);
   (AVERROR_OPTION_NOT_FOUND, OptionNotFound)].

Definition FilterGraphParseError_from (err_code : Z) : FilterGraphParseError := match_code FilterGraphParseError_codes UnknownError err_code.

Definition FilterGraphParseError_to_string (e : FilterGraphParseError) : string :=
  match e with
  | OutOfMemory => "Memory allocation error"
  | InvalidArgument => "Invalid argument provided"
  | EndOfFile => "End of file reached during parsing"
  | IOError => "I/O error occurred during parsing"
  | InvalidData => "Invalid data encountered during parsing"
  | NotImplemented => "Functionality not implemented or unsupported filter format"
  | PermissionDenied => "Permission denied during filter graph parsing"
  | NotSocket => "Socket operation on non-socket during filter graph parsing"
  | OptionNotFound => "Option not found during filter graph configuration"
  | InvalidFileIndexInFg a b => "Invalid file index " ++ dec a ++ " in filtergraph description " ++ b
  | InvalidFileIndexInOutput a b => "Invalid file index " ++ dec a ++ " in output url: " ++ b
  | InvalidFilterSpecifier a => "Invalid filter specifier " ++ a
  | OutputUnconnected a b c => "Filter '" ++ a ++ "' has output " ++ dec b ++ " (" ++ c ++ ") unconnected"
  | UnknownError a => "An unknown error occurred. ret: " ++ dec_i32 a
  end.

End FilterGraphParseError.

Module FilterGraphOperationError.

Inductive FilterGraphOperationError :=
  | RequestOldestError (a : FilterGraphError.FilterGraphError)
  | ProcessFramesError (a : FilterGraphError.FilterGraphError)
  | SendFramesError (a : FilterGraphError.FilterGraphError)
  | ChannelLayoutCopyError (a : FilterGraphError.FilterGraphError)
  | BufferSourceAddFrameError (a : FilterGraphError.FilterGraphError)
  | BufferSourceCloseError (a : FilterGraphError.FilterGraphError)
  | BufferReplaceoseError (a : FilterGraphError.FilterGraphError)
  | ParseError (a : FilterGraphParseError.FilterGraphParseError) | InvalidData | ThreadExited.

Definition FilterGraphOperationError_to_string (e : FilterGraphOperationError) : string :=
  match e with
  | RequestOldestError a => "during requesting oldest frame: " ++ FilterGraphError.FilterGraphError_to_string a
  | ProcessFramesError a => "during process frames: " ++ FilterGraphError.FilterGraphError_to_string a
  | SendFramesError a => "during send frames: " ++ FilterGraphError.FilterGraphError_to_string a
  | ChannelLayoutCopyError a => "during copying channel layout: " ++ FilterGraphError.FilterGraphError_to_string a
  | BufferSourceAddFrameError a => "during buffer source add frame: " ++ FilterGraphError.FilterGraphError_to_string a
  | BufferSourceCloseError a => "during closing buffer source: " ++ FilterGraphError.FilterGraphError_to_string a
  | BufferReplaceoseError a => "during replace buffer: " ++ FilterGraphError.FilterGraphError_to_string a
  | ParseError a => "during parse: " ++ FilterGraphParseError.FilterGraphParseError_to_string a
  | InvalidData => "The data in the frame is invalid or corrupted"
  | ThreadExited => "Thread exited"
  end.

End FilterGraphOperationError.

Module EncodingError.

Inductive EncodingError :=
  | OutOfMemory | InvalidArgument | IOError | PipeError | BadFileDescriptor | NotImplemented | OperationNotPermitted
  | TryAgain | EndOfStream | UnknownError (a : Z).

Definition EncodingError_codes : list (Z * EncodingError) :=
  [(AVERROR_OUT_OF_MEMORY, OutOfMemory); (AVERROR_INVALID_ARGUMENT, InvalidArgument);
   (AVERROR_IO_ERROR, IOError); (AVERROR_PIPE_ERROR, PipeError);
   (AVERROR_BAD_FILE_DESCRIPTOR, BadFileDescriptor); (AVERROR_NOT_IMPLEMENTED, NotImplemented);
   (AVERROR_OPERATION_NOT_PERMITTED, OperationNotPermitted); (AVERROR_AGAIN, TryAgain);
   (AVERROR_EOF, EndOfStream)].

Definition EncodingError_from (err_code : Z) : EncodingError := match_code EncodingError_codes UnknownError err_code.

Definition EncodingError_to_string (e : EncodingError) : string :=
  match e with
  | OutOfMemory => "Memory allocation error during encoding"
  | InvalidArgument => "Invalid argument provided to encoder"
  | IOError => "I/O error occurred during encoding"
  | PipeError => "Broken pipe encountered during encoding"
  | BadFileDescriptor => "Bad file descriptor encountered during encoding"
  | NotImplemented => "Functionality not implemented or unsupported encoding feature"
  | OperationNotPermitted => "Operation not permitted for encoder"
  | TryAgain => "Resource temporarily unavailable, try again later"
  | EndOfStream => "End of stream reached or no more frames to encode"
  | UnknownError a => "An unknown error occurred during encoding. ret: " ++ dec_i32 a
  end.

End EncodingError.

Module EncodeSubtitleError.

Inductive EncodeSubtitleError :=
  | OutOfMemory | InvalidArgument | OperationNotPermitted | NotImplemented | TryAgain | UnknownError (a : Z).

Definition EncodeSubtitleError_codes : list (Z * EncodeSubtitleError) :=
  [(AVERROR_OUT_OF_MEMORY, OutOfMemory); (AVERROR_INVALID_ARGUMENT, InvalidArgument);
   (AVERROR_OPERATION_NOT_PERMITTED, OperationNotPermitted); (AVERROR_NOT_IMPLEMENTED, NotImplemented);
   (AVERROR_AGAIN, TryAgain)].

Definition EncodeSubtitleError_from (err_code : Z) : EncodeSubtitleError := match_code EncodeSubtitleError_codes UnknownError err_code.

Definition EncodeSubtitleError_to_string (e : EncodeSubtitleError) : string :=
  match e with
  | OutOfMemory => "Memory allocation error while encoding subtitle"
  | InvalidArgument => "Invalid argument provided for subtitle encoding"
  | OperationNotPermitted => "Operation not permitted while encoding subtitle"
  | NotImplemented => "The encoding functionality is not implemented or unsupported"
  | TryAgain => "Encoder temporarily unable to process, please retry"
  | UnknownError a => "Subtitle encoding failed with unknown error. ret: " ++ dec_i32 a
  end.

End EncodeSubtitleError.

Module AllocPacketError.

Inductive AllocPacketError :=
  | OutOfMemory.

Definition AllocPacketError_to_string (e : AllocPacketError) : string :=
  match e with
  | OutOfMemory => "Memory allocation error while alloc packet"
  end.

End AllocPacketError.

Module EncodingOperationError.

Inductive EncodingOperationError :=
  | SendFrameError (a : EncodingError.EncodingError) | ReceivePacketError (a : EncodingError.EncodingError)
  | ReceiveAudioError (a : EncodingError.EncodingError) | SubtitleNotPts | MuxerFinished
  | EncodeSubtitle (a : EncodeSubtitleError.EncodeSubtitleError) | AllocPacket (a : AllocPacketError.AllocPacketError).

Definition EncodingOperationError_to_string (e : EncodingOperationError) : string :=
  match e with
  | SendFrameError a => "during frame submission: " ++ EncodingError.EncodingError_to_string a
  | ReceivePacketError a => "during packet retrieval: " ++ EncodingError.EncodingError_to_string a
  | ReceiveAudioError a => "during audio frame receive: " ++ EncodingError.EncodingError_to_string a
  | SubtitleNotPts => ": Subtitle packets must have a pts"
  | MuxerFinished => ": Muxer already finished"
  | EncodeSubtitle a => "Encode subtitle error: " ++ EncodeSubtitleError.EncodeSubtitleError_to_string a
  | AllocPacket a => ": " ++ AllocPacketError.AllocPacketError_to_string a
  end.

End EncodingOperationError.

Module WriteHeaderError.

Inductive WriteHeaderError :=
  | OutOfMemory | InvalidArgument | NotFound | IOError | PipeError | BadFileDescriptor | NotImplemented
  | OperationNotPermitted | PermissionDenied | Timeout | UnknownError (a : Z).

Definition WriteHeaderError_codes : list (Z * WriteHeaderError) :=
  [(AVERROR_OUT_OF_MEMORY, OutOfMemory); (AVERROR_INVALID_ARGUMENT, InvalidArgument);
   (AVERROR_NOT_FOUND, NotFound); (AVERROR_IO_ERROR, IOError);
   (AVERROR_PIPE_ERROR, PipeError); (AVERROR_BAD_FILE_DESCRIPTOR, BadFileDescriptor);
   (AVERROR_NOT_IMPLEMENTED, NotImplemented); (AVERROR_OPERATION_NOT_PERMITTED, OperationNotPermitted);
   (AVERROR_PERMISSION_DENIED, PermissionDenied); (AVERROR_TIMEOUT, Timeout)].

Definition WriteHeaderError_from (err_code : Z) : WriteHeaderError := match_code WriteHeaderError_codes UnknownError err_code.

Definition WriteHeaderError_to_string (e : WriteHeaderError) : string :=
  match e with
  | OutOfMemory => "Memory allocation error"
  | InvalidArgument => "Invalid argument provided"
  | NotFound => "File or stream not found"
  | IOError => "I/O error occurred while writing the header"
  | PipeError => "Pipe error, possibly the stream or data connection was broken"
  | BadFileDescriptor => "Invalid file descriptor"
  | NotImplemented => "Functionality not implemented or unsupported output format"
  | OperationNotPermitted => "Operation not permitted to write the header"
  | PermissionDenied => "Permission denied while writing the header"
  | Timeout => "The connection timed out while trying to write the header"
  | UnknownError a => "An unknown error occurred. ret:" ++ dec_i32 a
  end.

End WriteHeaderError.

Module MuxingError.

Inductive MuxingError :=
  | OutOfMemory | InvalidArgument | IOError | PipeError | BadFileDescriptor | NotImplemented | OperationNotPermitted
  | TryAgain | UnknownError (a : Z).

Definition MuxingError_codes : list (Z * MuxingError) :=
  [(AVERROR_OUT_OF_MEMORY, OutOfMemory); (AVERROR_INVALID_ARGUMENT, InvalidArgument);
   (AVERROR_IO_ERROR, IOError); (AVERROR_PIPE_ERROR, PipeError);
   (AVERROR_BAD_FILE_DESCRIPTOR, BadFileDescriptor); (AVERROR_NOT_IMPLEMENTED, NotImplemented);
   (AVERROR_OPERATION_NOT_PERMITTED, OperationNotPermitted); (AVERROR_AGAIN, TryAgain)].

Definition MuxingError_from (err_code : Z) : MuxingError := match_code MuxingError_codes UnknownError err_code.

Definition MuxingError_to_string (e : MuxingError) : string :=
  match e with
  | OutOfMemory => "Memory allocation error"
  | InvalidArgument => "Invalid argument provided"
  | IOError => "I/O error occurred during muxing"
  | PipeError => "Broken pipe during muxing"
  | BadFileDescriptor => "Bad file descriptor encountered"
  | NotImplemented => "Functionality not implemented or unsupported"
  | OperationNotPermitted => "Operation not permitted"
  | TryAgain => "Resource temporarily unavailable"
  | UnknownError a => "An unknown error occurred. ret:" ++ dec_i32 a
  end.

End MuxingError.

Module MuxingOperationError.

Inductive MuxingOperationError :=
  | WriteHeader (a : WriteHeaderError.WriteHeaderError) | InterleavedWriteError (a : MuxingError.MuxingError)
  | TrailerWriteError (a : MuxingError.MuxingError) | IOCloseError (a : MuxingError.MuxingError) | ThreadExited.

Definition MuxingOperationError_to_string (e : MuxingOperationError) : string :=
  match e with
  | WriteHeader a => "during write header: " ++ WriteHeaderError.WriteHeaderError_to_string a
  | InterleavedWriteError a => "during interleaved write: " ++ MuxingError.MuxingError_to_string a
  | TrailerWriteError a => "during trailer write: " ++ MuxingError.MuxingError_to_string a
  | IOCloseError a => "during closing IO: " ++ MuxingError.MuxingError_to_string a
  | ThreadExited => "Thread exited"
  end.

End MuxingOperationError.

Module OpenEncoderError.

Inductive OpenEncoderError :=
  | OutOfMemory | InvalidArgument | IOError | PipeError | BadFileDescriptor | NotImplemented | OperationNotPermitted
  | TryAgain | UnknownError (a : Z).

Definition OpenEncoderError_codes : list (Z * OpenEncoderError) :=
  [(AVERROR_OUT_OF_MEMORY, OutOfMemory); (AVERROR_INVALID_ARGUMENT, InvalidArgument);
   (AVERROR_IO_ERROR, IOError); (AVERROR_PIPE_ERROR, PipeError);
   (AVERROR_BAD_FILE_DESCRIPTOR, BadFileDescriptor); (AVERROR_NOT_IMPLEMENTED, NotImplemented);
   (AVERROR_OPERATION_NOT_PERMITTED, OperationNotPermitted); (AVERROR_AGAIN, TryAgain)].

Definition OpenEncoderError_from (err_code : Z) : OpenEncoderError := match_code OpenEncoderError_codes UnknownError err_code.

Definition OpenEncoderError_to_string (e : OpenEncoderError) : string :=
  match e with
  | OutOfMemory => "Memory allocation error occurred during encoder initialization"
  | InvalidArgument => "Invalid argument provided to encoder"
  | IOError => "I/O error occurred while opening encoder"
  | PipeError => "Broken pipe encountered during encoder initialization"
  | BadFileDescriptor => "Bad file descriptor used in encoder"
  | NotImplemented => "Encoder functionality not implemented or unsupported"
  | OperationNotPermitted => "Operation not permitted while configuring encoder"
  | TryAgain => "Resource temporarily unavailable during encoder setup"
  | UnknownError a => "An unknown error occurred in encoder setup. ret:" ++ dec_i32 a
  end.

End OpenEncoderError.

Module OpenEncoderOperationError.

Inductive OpenEncoderOperationError :=
  | FrameSideDataCloneError (a : OpenEncoderError.OpenEncoderError)
  | ChannelLayoutCopyError (a : OpenEncoderError.OpenEncoderError)
  | CodecOpenError (a : OpenEncoderError.OpenEncoderError)
  | CodecParametersError (a : OpenEncoderError.OpenEncoderError) | UnknownFrameFormat
  | SettingSubtitleError (a : OpenEncoderError.OpenEncoderError)
  | HwSetupError (a : OpenEncoderError.OpenEncoderError)
  | ContextAllocationError (a : OpenEncoderError.OpenEncoderError) | ThreadExited.

Definition OpenEncoderOperationError_to_string (e : OpenEncoderOperationError) : string :=
  match e with
  | FrameSideDataCloneError a => "during frame side data cloning: " ++ OpenEncoderError.OpenEncoderError_to_string a
  | ChannelLayoutCopyError a => "during channel layout copying: " ++ OpenEncoderError.OpenEncoderError_to_string a
  | CodecOpenError a => "during codec opening: " ++ OpenEncoderError.OpenEncoderError_to_string a
  | CodecParametersError a => "while setting codec parameters: " ++ OpenEncoderError.OpenEncoderError_to_string a
  | UnknownFrameFormat => ": unknown format of the frame"
  | SettingSubtitleError a => "while setting subtitle: " ++ OpenEncoderError.OpenEncoderError_to_string a
  | HwSetupError a => "while Hw setup: " ++ OpenEncoderError.OpenEncoderError_to_string a
  | ContextAllocationError a => "during context allocation: " ++ OpenEncoderError.OpenEncoderError_to_string a
  | ThreadExited => "Thread exited"
  end.

End OpenEncoderOperationError.

Module UrlError.

Inductive UrlError :=
  | NullByteError (a : Z).

Definition UrlError_to_string (e : UrlError) : string :=
  match e with
  | NullByteError a => "Null byte found in string at position " ++ dec a
  end.

End UrlError.

Module OpenInputError.

Inductive OpenInputError :=
  | OutOfMemory | InvalidArgument | NotFound | IOError | PipeError | BadFileDescriptor | NotImplemented
  | OperationNotPermitted | InvalidData | Timeout | UnknownError (a : Z) | InvalidSource | InvalidFormat (a : string)
  | SeekFunctionMissing.

Definition OpenInputError_codes : list (Z * OpenInputError) :=
  [(AVERROR_OUT_OF_MEMORY, OutOfMemory); (AVERROR_INVALID_ARGUMENT, InvalidArgument);
   (AVERROR_NOT_FOUND, NotFound); (AVERROR_IO_ERROR, IOError);
   (AVERROR_PIPE_ERROR, PipeError); (AVERROR_BAD_FILE_DESCRIPTOR, BadFileDescriptor);
   (AVERROR_NOT_IMPLEMENTED, NotImplemented); (AVERROR_OPERATION_NOT_PERMITTED, OperationNotPermitted);
   (AVERROR_INVALIDDATA, InvalidData); (AVERROR_TIMEOUT, Timeout)].

Definition OpenInputError_from (err_code : Z) : OpenInputError := match_code OpenInputError_codes UnknownError err_code.

Definition OpenInputError_to_string (e : OpenInputError) : string :=
  match e with
  | OutOfMemory => "Memory allocation error"
  | InvalidArgument => "Invalid argument provided"
  | NotFound => "File or stream not found"
  | IOError => "I/O error occurred while opening the file or stream"
  | PipeError => "Pipe error, possibly the stream or data connection was broken"
  | BadFileDescriptor => "Invalid file descriptor"
  | NotImplemented => "Functionality not implemented or unsupported input format"
  | OperationNotPermitted => "Operation not permitted to access the file or stream"
  | InvalidData => "The data in the file or stream is invalid or corrupted"
  | Timeout => "The connection timed out while trying to open the stream"
  | UnknownError a => "An unknown error occurred. ret:" ++ dec_i32 a
  | InvalidSource => "Invalid source provided"
  | InvalidFormat a => "Invalid source format:" ++ a
  | SeekFunctionMissing => "No seek callback is provided"
  end.

End OpenInputError.

Module FindStreamError.

Inductive FindStreamError :=
  | OutOfMemory | InvalidArgument | EndOfFile | Timeout | IOError | InvalidData | NotImplemented
  | OperationNotPermitted | NoStreamFound | NoCodecparFound | UnknownError (a : Z).

Definition FindStreamError_codes : list (Z * FindStreamError) :=
  [(AVERROR_OUT_OF_MEMORY, OutOfMemory); (AVERROR_INVALID_ARGUMENT, InvalidArgument);
   (AVERROR_EOF, EndOfFile); (AVERROR_TIMEOUT, Timeout);
   (AVERROR_IO_ERROR, IOError); (AVERROR_INVALIDDATA, InvalidData);
   (AVERROR_NOT_IMPLEMENTED, NotImplemented); (AVERROR_OPERATION_NOT_PERMITTED, OperationNotPermitted)].

Definition FindStreamError_from (err_code : Z) : FindStreamError := match_code FindStreamError_codes UnknownError err_code.

Definition FindStreamError_to_string (e : FindStreamError) : string :=
  match e with
  | OutOfMemory => "Memory allocation error"
  | InvalidArgument => "Invalid argument provided"
  | EndOfFile => "Reached end of file while looking for stream info"
  | Timeout => "Timeout occurred while reading stream info"
  | IOError => "I/O error occurred while reading stream info"
  | InvalidData => "The data in the stream is invalid or corrupted"
  | NotImplemented => "Functionality not implemented or unsupported stream format"
  | OperationNotPermitted => "Operation not permitted to access the file or stream"
  | NoStreamFound => "No Stream found"
  | NoCodecparFound => "No codec parameters found"
  | UnknownError a => "An unknown error occurred. ret:" ++ dec_i32 a
  end.

End FindStreamError.

Module AllocOutputContextError.

Inductive AllocOutputContextError :=
  | OutOfMemory | InvalidArgument | NotFound | IOError | PipeError | BadFileDescriptor | NotImplemented
  | OperationNotPermitted | PermissionDenied | Timeout | UnknownError (a : Z).

Definition AllocOutputContextError_codes : list (Z * AllocOutputContextError) :=
  [(AVERROR_OUT_OF_MEMORY, OutOfMemory); (AVERROR_INVALID_ARGUMENT, InvalidArgument);
   (AVERROR_NOT_FOUND, NotFound); (AVERROR_IO_ERROR, IOError);
   (AVERROR_PIPE_ERROR, PipeError); (AVERROR_BAD_FILE_DESCRIPTOR, BadFileDescriptor);
   (AVERROR_NOT_IMPLEMENTED, NotImplemented); (AVERROR_OPERATION_NOT_PERMITTED, OperationNotPermitted);
   (AVERROR_PERMISSION_DENIED, PermissionDenied); (AVERROR_TIMEOUT, Timeout)].

Definition AllocOutputContextError_from (err_code : Z) : AllocOutputContextError := match_code AllocOutputContextError_codes UnknownError err_code.

Definition AllocOutputContextError_to_string (e : AllocOutputContextError) : string :=
  match e with
  | OutOfMemory => "Memory allocation error"
  | InvalidArgument => "Invalid argument provided"
  | NotFound => "File or stream not found"
  | IOError => "I/O error occurred while allocating the output context"
  | PipeError => "Pipe error, possibly the stream or data connection was broken"
  | BadFileDescriptor => "Invalid file descriptor"
  | NotImplemented => "Functionality not implemented or unsupported output format"
  | OperationNotPermitted => "Operation not permitted to allocate the output context"
  | PermissionDenied => "Permission denied while allocating the output context"
  | Timeout => "The connection timed out while trying to allocate the output context"
  | UnknownError a => "An unknown error occurred. ret:" ++ dec_i32 a
  end.

End AllocOutputContextError.

Module OpenOutputError.

Inductive OpenOutputError :=
  | OutOfMemory | InvalidArgument | NotFound | IOError | PipeError | BadFileDescriptor | NotImplemented
  | OperationNotPermitted | PermissionDenied | Timeout | EncoderNotFound | MatchesNoStreams (a : string)
  | InvalidLabel (a : string) | NotContainStream | UnknownFrameFormat | InvalidFileIndexInIntput (a : Z) (b : string)
  | UnknownError (a : Z) | InvalidSink | SeekFunctionMissing | FormatUnsupported (a : string).

Definition OpenOutputError_codes : list (Z * OpenOutputError) :=
  [(AVERROR_OUT_OF_MEMORY, OutOfMemory); (AVERROR_INVALID_ARGUMENT, InvalidArgument);
   (AVERROR_NOT_FOUND, NotFound); (AVERROR_IO_ERROR, IOError);
   (AVERROR_PIPE_ERROR, PipeError); (AVERROR_BAD_FILE_DESCRIPTOR, BadFileDescriptor);
   (AVERROR_NOT_IMPLEMENTED, NotImplemented); (AVERROR_OPERATION_NOT_PERMITTED, OperationNotPermitted);
   (AVERROR_PERMISSION_DENIED, PermissionDenied); (AVERROR_TIMEOUT, Timeout);
   (AVERROR_ENCODER_NOT_FOUND, EncoderNotFound)].

Definition OpenOutputError_from (err_code : Z) : OpenOutputError := match_code OpenOutputError_codes UnknownError err_code.

Definition OpenOutputError_to_string (e : OpenOutputError) : string :=
  match e with
  | OutOfMemory => "Memory allocation error"
  | InvalidArgument => "Invalid argument provided"
  | NotFound => "File or stream not found"
  | IOError => "I/O error occurred while opening the file or stream"
  | PipeError => "Pipe error, possibly the stream or data connection was broken"
  | BadFileDescriptor => "Invalid file descriptor"
  | NotImplemented => "Functionality not implemented or unsupported output format"
  | OperationNotPermitted => "Operation not permitted to open the file or stream"
  | PermissionDenied => "Permission denied while opening the file or stream"
  | Timeout => "The connection timed out while trying to open the file or stream"
  | EncoderNotFound => "encoder not found"
  | MatchesNoStreams a => "Stream map '" ++ a ++ "' matches no streams;"
  | InvalidLabel a => "Invalid label " ++ a
  | NotContainStream => "not contain any stream"
  | UnknownFrameFormat => "unknown format of the frame"
  | InvalidFileIndexInIntput a b => "Invalid file index " ++ dec a ++ " in input url: " ++ b
  | UnknownError a => "An unknown error occurred. ret:" ++ dec_i32 a
  | InvalidSink => "Invalid sink provided"
  | SeekFunctionMissing => "No seek callback is provided"
  | FormatUnsupported a => "Format '" ++ a ++ "' is unsupported"
  end.

End OpenOutputError.

Module FindDevicesError.

Inductive FindDevicesError :=
  | AVCaptureDeviceNotFound | MediaTypeSupported (a : Z) | OsNotSupported | UTF8Error | OutOfMemory | InvalidArgument
  | NotFound | IOError | OperationNotPermitted | PermissionDenied | NotImplemented | BadFileDescriptor
  | UnknownError (a : Z).

Definition FindDevicesError_codes : list (Z * FindDevicesError) :=
  [(AVERROR_OUT_OF_MEMORY, OutOfMemory); (AVERROR_INVALID_ARGUMENT, InvalidArgument);
   (AVERROR_NOT_FOUND, NotFound); (AVERROR_IO_ERROR, IOError);
   (AVERROR_OPERATION_NOT_PERMITTED, OperationNotPermitted); (AVERROR_PERMISSION_DENIED, PermissionDenied);
   (AVERROR_NOT_IMPLEMENTED, NotImplemented); (AVERROR_BAD_FILE_DESCRIPTOR, BadFileDescriptor)].

Definition FindDevicesError_from (err_code : Z) : FindDevicesError := match_code FindDevicesError_codes UnknownError err_code.

Definition FindDevicesError_to_string (e : FindDevicesError) : string :=
  match e with
  | AVCaptureDeviceNotFound => "AVCaptureDevice class not found in macOS"
  | MediaTypeSupported a => "current media_type(" ++ dec_i32 a ++ ") is not supported"
  | OsNotSupported => "current OS is not supported"
  | UTF8Error => "device_description can not to string"
  | OutOfMemory => "Memory allocation error"
  | InvalidArgument => "Invalid argument provided"
  | NotFound => "Device or stream not found"
  | IOError => "I/O error occurred while accessing the device or stream"
  | OperationNotPermitted => "Operation not permitted for this device or stream"
  | PermissionDenied => "Permission denied while accessing the device or stream"
  | NotImplemented => "This functionality is not implemented"
  | BadFileDescriptor => "Bad file descriptor"
  | UnknownError a => "An unknown error occurred. ret:" ++ dec_i32 a
  end.

End FindDevicesError.

Module WriteFrameError.

Inductive WriteFrameError :=
  | OutOfMemory | InvalidArgument | EndOfFile | Timeout | IOError | BadFileDescriptor | PipeError | NotImplemented
  | OperationNotPermitted | PermissionDenied | NotSocket | UnknownError (a : Z).

Definition WriteFrameError_codes : list (Z * WriteFrameError) :=
  [(AVERROR_OUT_OF_MEMORY, OutOfMemory); (AVERROR_INVALID_ARGUMENT, InvalidArgument);
   (AVERROR_EOF, EndOfFile); (AVERROR_TIMEOUT, Timeout);
   (AVERROR_IO_ERROR, IOError); (AVERROR_BAD_FILE_DESCRIPTOR, BadFileDescriptor);
   (AVERROR_PIPE_ERROR, PipeError); (AVERROR_NOT_IMPLEMENTED, NotImplemented);
   (AVERROR_OPERATION_NOT_PERMITTED, OperationNotPermitted); (AVERROR_PERMISSION_DENIED, PermissionDenied);
   (AVERROR_NOT_SOCKET, NotSocket)].

Definition WriteFrameError_from (err_code : Z) : WriteFrameError := match_code WriteFrameError_codes UnknownError err_code.

Definition WriteFrameError_to_string (e : WriteFrameError) : string :=
  match e with
  | OutOfMemory => "Memory allocation error"
  | InvalidArgument => "Invalid argument provided"
  | EndOfFile => "Reached end of file while writing data"
  | Timeout => "Timeout occurred while writing data"
  | IOError => "I/O error occurred while writing data"
  | BadFileDescriptor => "Bad file descriptor"
  | PipeError => "Pipe error occurred"
  | NotImplemented => "Functionality not implemented or unsupported operation"
  | OperationNotPermitted => "Operation not permitted"
  | PermissionDenied => "Permission denied"
  | NotSocket => "Not a valid socket"
  | UnknownError a => "An unknown error occurred. ret: " ++ dec_i32 a
  end.

End WriteFrameError.

Module AllocFrameError.

Inductive AllocFrameError :=
  | OutOfMemory.

Definition AllocFrameError_to_string (e : AllocFrameError) : string :=
  match e with
  | OutOfMemory => "Memory allocation error while alloc frame"
  end.

End AllocFrameError.

Module DecoderError.

Inductive DecoderError :=
  | NotFound.

Definition DecoderError_to_string (e : DecoderError) : string :=
  match e with
  | NotFound => "not found."
  end.

End DecoderError.

Module Error.

Inductive Error :=
  | NotStarted | Url (a : UrlError.UrlError) | OpenInputStream (a : OpenInputError.OpenInputError)
  | FindStream (a : FindStreamError.FindStreamError) | Decoder (a : DecoderError.DecoderError)
  | FilterGraphParse (a : FilterGraphParseError.FilterGraphParseError) | FilterDescUtf8 | FilterNameUtf8
  | FilterZeroOutputs | ParseInteger | AllocOutputContext (a : AllocOutputContextError.AllocOutputContextError)
  | OpenOutput (a : OpenOutputError.OpenOutputError) | FileSameAsInput (a : string)
  | FindDevices (a : FindDevicesError.FindDevicesError) | AllocFrame (a : AllocFrameError.AllocFrameError)
  | AllocPacket (a : AllocPacketError.AllocPacketError) | Muxing (a : MuxingOperationError.MuxingOperationError)
  | OpenEncoder (a : OpenEncoderOperationError.OpenEncoderOperationError)
  | Encoding (a : EncodingOperationError.EncodingOperationError)
  | FilterGraph (a : FilterGraphOperationError.FilterGraphOperationError)
  | OpenDecoder (a : OpenDecoderOperationError.OpenDecoderOperationError)
  | Decoding (a : DecodingOperationError.DecodingOperationError)
  | Demuxing (a : DemuxingOperationError.DemuxingOperationError) | FrameFilterInit (a : string)
  | FrameFilterProcess (a : string) | FrameFilterRequest (a : string)
  | FrameFilterTypeNoMatched (a : string) (b : string)
  | FrameFilterStreamTypeNoMatched (a : string) (b : Z) (c : string) | FrameFilterDstFinished | FrameFilterSendOOM
  | FrameFilterThreadExited | RtmpStreamAlreadyExists (a : string) | RtmpCreateStream | RtmpServerSession (a : string)
  | RtmpThreadExited | IO (a : string) | EOF | Exit | Bug.

Definition Error_to_string (e : Error) : string :=
  match e with
  | NotStarted => "Scheduler is not started"
  | Url a => "URL error: " ++ UrlError.UrlError_to_string a
  | OpenInputStream a => "Open input stream error: " ++ OpenInputError.OpenInputError_to_string a
  | FindStream a => "Find stream info error: " ++ FindStreamError.FindStreamError_to_string a
  | Decoder a => "Decoder error: " ++ DecoderError.DecoderError_to_string a
  | FilterGraphParse a => "Filter graph parse error: " ++ FilterGraphParseError.FilterGraphParseError_to_string a
  | FilterDescUtf8 => "Ffilter description converted to utf8 string error"
  | FilterNameUtf8 => "Filter name converted to utf8 string error"
  | FilterZeroOutputs => "A filtergraph has zero outputs, this is not supported"
  | ParseInteger => "Input is not a valid number"
  | AllocOutputContext a => "Alloc output context error: " ++ AllocOutputContextError.AllocOutputContextError_to_string a
  | OpenOutput a => "Open output error: " ++ OpenOutputError.OpenOutputError_to_string a
  | FileSameAsInput a => "Output file '" ++ a ++ "' is the same as an input file"
  | FindDevices a => "Find devices error: " ++ FindDevicesError.FindDevicesError_to_string a
  | AllocFrame a => "Alloc frame error: " ++ AllocFrameError.AllocFrameError_to_string a
  | AllocPacket a => "Alloc packet error: " ++ AllocPacketError.AllocPacketError_to_string a
  | Muxing a => "Muxing operation failed " ++ MuxingOperationError.MuxingOperationError_to_string a
  | OpenEncoder a => "Open encoder operation failed " ++ OpenEncoderOperationError.OpenEncoderOperationError_to_string a
  | Encoding a => "Encoding operation failed " ++ EncodingOperationError.EncodingOperationError_to_string a
  | FilterGraph a => "Filter graph operation failed " ++ FilterGraphOperationError.FilterGraphOperationError_to_string a
  | OpenDecoder a => "Open decoder operation failed " ++ OpenDecoderOperationError.OpenDecoderOperationError_to_string a
  | Decoding a => "Decoding operation failed " ++ DecodingOperationError.DecodingOperationError_to_string a
  | Demuxing a => "Demuxing operation failed " ++ DemuxingOperationError.DemuxingOperationError_to_string a
  | FrameFilterInit a => "Frame filter init failed: " ++ a
  | FrameFilterProcess a => "Frame filter process failed: " ++ a
  | FrameFilterRequest a => "Frame filter request failed: " ++ a
  | FrameFilterTypeNoMatched a b => "No " ++ a ++ " stream of the type:" ++ b ++ " were found while build frame pipeline"
  | FrameFilterStreamTypeNoMatched a b c => a ++ " stream:" ++ dec b ++ " of the type:" ++ c ++ " were mismatched while build frame pipeline"
  | FrameFilterDstFinished => "Frame filter pipeline destination already finished"
  | FrameFilterSendOOM => "Frame filter pipeline send frame failed, out of memory"
  | FrameFilterThreadExited => "Frame filter pipeline thread exited"
  | RtmpStreamAlreadyExists a => "Rtmp stream already exists with key: " ++ a
  | RtmpCreateStream => "Rtmp create stream failed. Check whether the server is stopped."
  | RtmpServerSession a => "Rtmp server session error: " ++ a
  | RtmpThreadExited => "Rtmp server thread exited"
  | IO a => "IO error:" ++ a
  | EOF => "EOF"
  | Exit => "Exit"
  | Bug => "Bug"
  end.

End Error.

Abbreviation Error := Error.Error.

(** [impl PartialEq for Error]: only three errors are equal to themselves. *)
Definition error_eq (self other : Error.Error) : bool :=
  match self, other with
  | Error.EOF, Error.EOF | Error.Exit, Error.Exit | Error.Bug, Error.Bug => true
  | _, _ => false
  end.

(** [From<NulError>]: the place of the first zero byte. *)
Definition NUL : ascii := "000"%char.

Definition nul_error (s : string) : Error.Error :=
  Error.Url (UrlError.NullByteError (match String.index 0 (String NUL "") s with Some n => Z.of_nat n | None => 0 end)).

(** ** Theorems *)

Lemma match_code_result {E} (arms : list (Z * E)) unknown c : match_code arms unknown c ∈ arms.*2 \/ match_code arms unknown c = unknown c.
Proof.
  induction arms as [|[k e] arms IH]; [by right|]. cbn [match_code]. destruct (_ =? _); [left; by left|].
  destruct IH as [IH|IH]; [left; by right|by right].
Qed.

Lemma match_code_inj {E} (arms : list (Z * E)) unknown a b :
  NoDup arms.*2 -> Forall (fun e => forall c, e <> unknown c) arms.*2 -> (forall x y, unknown x = unknown y -> x = y) ->
  match_code arms unknown a = match_code arms unknown b -> a = b.
Proof.
  intros Hnd Hun Hinj. induction arms as [|[k e] arms IH]; [apply Hinj|]. cbn [match_code].
  apply NoDup_cons in Hnd as [He Hnd]. apply Forall_cons in Hun as [Hue Hun].
  assert (forall c, e <> match_code arms unknown c) as Hno.
  { intros c ->. destruct (match_code_result arms unknown c) as [H|H]; [done|by apply (Hue c)]. }
  destruct (a =? k) eqn:Ea, (b =? k) eqn:Eb; [lia| | |by apply IH].
  - intros H. by apply Hno in H.
  - intros H. symmetry in H. by apply Hno in H.
Qed.

Ltac keeps_codes :=
  intros a b; apply match_code_inj;
  [repeat (constructor; [rewrite !list_elem_of_In; cbn; intuition discriminate|]); constructor|repeat constructor; discriminate|intros x y H; by injection H].

Definition keeps_codes {E} (from : Z -> E) : Prop := forall a b, from a = from b -> a = b.

(** Every conversion from the codes of libav keeps the code: two codes that give the
    same error are the same, so what a failed call returned can be told from the
    error. *)
Theorem error_codes_are_kept :
  keeps_codes OpenInputError.OpenInputError_from /\
  keeps_codes FindStreamError.FindStreamError_from /\
  keeps_codes FilterGraphParseError.FilterGraphParseError_from /\
  keeps_codes AllocOutputContextError.AllocOutputContextError_from /\
  keeps_codes OpenOutputError.OpenOutputError_from /\
  keeps_codes FindDevicesError.FindDevicesError_from /\
  keeps_codes WriteHeaderError.WriteHeaderError_from /\
  keeps_codes WriteFrameError.WriteFrameError_from /\
  keeps_codes EncodeSubtitleError.EncodeSubtitleError_from /\
  keeps_codes MuxingError.MuxingError_from /\
  keeps_codes OpenEncoderError.OpenEncoderError_from /\
  keeps_codes EncodingError.EncodingError_from /\
  keeps_codes FilterGraphError.FilterGraphError_from /\
  keeps_codes OpenDecoderError.OpenDecoderError_from /\
  keeps_codes DecodingError.DecodingError_from /\
  keeps_codes DemuxingError.DemuxingError_from.
Proof. split_and!; keeps_codes. Qed.

(** [impl Eq for Error] promises an equality that is reflexive, but only three errors
    are equal to themselves. *)
Theorem few_errors_equal_themselves (e : Error) : error_eq e e = true <-> e = Error.EOF \/ e = Error.Exit \/ e = Error.Bug.
Proof. destruct e; cbn; intuition discriminate. Qed.
