(* ===== verification/Muxer.v ===== *)
(** * The streams of inputs and outputs ([ez-ffmpeg/src/core/context/muxer.rs],
    [demuxer.rs], [decoder_stream.rs], [encoder_stream.rs], [filter_graph.rs],
    [input_filter.rs], [output_filter.rs]).

    Of libavformat and libavcodec the model has the fields that the code reads, and
    the functions it calls as the class [Av].  A null pointer is [None]; a read behind
    the end of an array of C, which is undefined, is a panic here.  A channel is known
    by where its receiver is: the sender of frames to an encoder by the output's
    context and the stream, the sender to a filter graph by the graph's number. *)

From stdpp Require Import base list option strings.
From Stdlib Require Import ZArith Lia Ascii.
From S2P Require Import Choke.
From S2P Require Import Prelude RustInt RustStr Errors StreamSpec.

Local Open Scope Z_scope.
Local Open Scope string_scope.
Local Open Scope rust_scope.

Record AVRational := { num : Z; den : Z }.

Inductive VSyncMethod := VsyncAuto | VsyncCfr | VsyncVfr | VsyncPassthrough | VsyncVscfr.

#[export] Instance VSyncMethod_eq_dec : EqDecision VSyncMethod.
Proof. solve_decision. Defined.

(** [OpenOutputError::from(ret).into()] and [FilterGraphParseError::from(ret).into()]. *)
Definition open_output_error (ret : Z) : Error := Error.OpenOutput (OpenOutputError.OpenOutputError_from ret).
Definition graph_parse_error (ret : Z) : Error := Error.FilterGraphParse (FilterGraphParseError.FilterGraphParseError_from ret).

(** A fold whose body may fail. *)
Fixpoint try_fold {A S} (f : S -> A -> outcome (result S Error)) (s : S) (l : list A) : outcome (result S Error) :=
  match l with
  | [] => Ret (Ok s)
  | x :: l => let? s := f s x in try_fold f s l
  end.

(** [Vec::insert] *)
Definition vec_insert {A} (i : nat) (x : A) (l : list A) : outcome (list A) :=
  if (i <=? length l)%nat then Ret (take i l ++ x :: drop i l)%list else Panic.

(** ** The C libraries *)

Definition AV_CODEC_ID_NONE : Z := 0.
Definition AV_CODEC_ID_MP3 : Z := 0x15001.
Definition AV_CODEC_ID_AC3 : Z := 0x15003.
Definition AVFMT_NOTIMESTAMPS : Z := 0x0080.
Definition AVFMT_VARIABLE_FPS : Z := 0x0400.
Definition AVFMT_NOSTREAMS : Z := 0x1000.
Definition AV_CODEC_PROP_BITMAP_SUB : Z := 0x10000.
Definition AV_CODEC_PROP_TEXT_SUB : Z := 0x20000.
Definition AV_CHANNEL_ORDER_UNSPEC : Z := 0.
Definition AV_PIX_FMT_NONE : Z := - 1.
Definition AV_SAMPLE_FMT_NONE : Z := - 1.
Definition AVCOL_SPC_UNSPECIFIED : Z := 2.
Definition AVCOL_RANGE_UNSPECIFIED : Z := 0.

(** The numbers of the types of media, and the shift that makes flags of them. *)
Definition media_i32 (t : AVMediaType) : Z :=
  match t with
  | AVMEDIA_TYPE_UNKNOWN => - 1 | AVMEDIA_TYPE_VIDEO => 0 | AVMEDIA_TYPE_AUDIO => 1
  | AVMEDIA_TYPE_DATA => 2 | AVMEDIA_TYPE_SUBTITLE => 3 | AVMEDIA_TYPE_ATTACHMENT => 4
  end.

(** [{:?}] of a type. *)
Definition media_debug (t : AVMediaType) : string :=
  match t with
  | AVMEDIA_TYPE_UNKNOWN => "AVMEDIA_TYPE_UNKNOWN" | AVMEDIA_TYPE_VIDEO => "AVMEDIA_TYPE_VIDEO" | AVMEDIA_TYPE_AUDIO => "AVMEDIA_TYPE_AUDIO"
  | AVMEDIA_TYPE_DATA => "AVMEDIA_TYPE_DATA" | AVMEDIA_TYPE_SUBTITLE => "AVMEDIA_TYPE_SUBTITLE"
  | AVMEDIA_TYPE_ATTACHMENT => "AVMEDIA_TYPE_ATTACHMENT"
  end.

Definition media_flag (t : AVMediaType) : Z := Z.shiftl 1 (media_i32 t).

Record AVCodec := { enc_id : Z; enc_type : AVMediaType }.

Record AVChannelLayout := { layout_order : Z; layout_channels : Z; layout_mask : Z }.

(** [AVOutputFormat]: its [name] as [CStr::to_str] gives it. *)
Record AVOutputFormat := {
  format_name : option string;
  format_flags : Z;
  subtitle_codec : Z;
  has_codec_tags : bool
}.

(** The parameters of a codec, as far as a copied stream changes them. *)
Record Par := {
  par_type : AVMediaType;
  par_codec_id : Z;
  par_codec_tag : Z;
  par_block_align : Z;
  par_sar : AVRational;
  par_side_data : list (Z * list Z)
}.

(** The fields of an [AVStream] that a copy reads or writes. *)
Record CopyStream := {
  codecpar : Par;
  r_frame_rate : AVRational;
  avg_frame_rate : AVRational;
  stream_time_base : AVRational;
  stream_sar : AVRational;
  stream_duration : Z
}.

(** The context that [avcodec_alloc_context3] makes. *)
Record AVCodecContext := {
  dec_type : AVMediaType;
  dec_format : Z;
  dec_sample_rate : Z;
  dec_ch_layout : AVChannelLayout;
  dec_width : Z;
  dec_height : Z;
  dec_sar : AVRational;
  dec_colorspace : Z;
  dec_color_range : Z;
  dec_pkt_timebase : AVRational
}.

(** An open end of a parsed filter graph: its label, if there is one and if it is
    UTF-8, the type of its pad, the filter's name, the number of the filter's pads
    and the pad's name. *)
Record AVFilterInOut := {
  inout_name : option (option string);
  inout_type : AVMediaType;
  inout_filter : option string;
  inout_pads : nat;
  inout_pad : option string
}.

Class Av := {
  Dict : Type;
  av_dict_get : Dict -> string -> option string;
  av_guess_codec : AVOutputFormat -> option string -> AVMediaType -> Z;
  avcodec_find_encoder : Z -> option AVCodec;
  avcodec_find_encoder_by_name : string -> option AVCodec;
  (** the id of the descriptor with a name, the properties of that with an id *)
  avcodec_descriptor_get_by_name : string -> option Z;
  avcodec_descriptor_get : Z -> option Z;
  av_get_exact_bits_per_sample : Z -> Z;
  av_rescale_q : Z -> AVRational -> AVRational -> Z;
  av_inv_q : AVRational -> AVRational;
  av_add_q : AVRational -> AVRational -> AVRational;
  av_guess_frame_rate : AVFormatContext (Dict := Dict) -> nat -> AVRational;
  (** a new stream of an output with so many streams, or no memory *)
  avformat_new_stream : AVOutputFormat -> nat -> option CopyStream;
  avcodec_alloc_context3 : option AVCodec -> option AVCodecContext;
  (** parameters into a context and out of it, with the code of an error *)
  parameters_via_context : Par -> result Par Z;
  av_codec_get_id : Z -> Z;
  av_codec_get_tag2 : Z -> bool;
  av_packet_side_data_new : list (Z * list Z) -> Z -> list Z -> option (list (Z * list Z));
  av_channel_layout_copy : AVChannelLayout -> result AVChannelLayout Z;
  av_channel_layout_default : Z -> AVChannelLayout;
  (** [avcodec_get_supported_config]: the array, or null, or the code of an error *)
  supported_pix_formats : AVCodec -> result (option (list Z)) Z;
  supported_frame_rates : AVCodec -> result (option (list AVRational)) Z;
  supported_color_spaces : AVCodec -> result (option (list Z)) Z;
  supported_color_ranges : AVCodec -> result (option (list Z)) Z;
  supported_sample_formats : AVCodec -> result (option (list Z)) Z;
  supported_sample_rates : AVCodec -> result (option (list Z)) Z;
  supported_ch_layouts : AVCodec -> result (option (list AVChannelLayout)) Z;
  (** a filter graph's description, parsed, its filters created, their options set
      and applied: the open inputs and outputs *)
  avfilter_graph_segment : string -> result (list AVFilterInOut * list AVFilterInOut) Z;
  frame_alloc : bool
}.

Section Streams.
  Context `{Lib : Av} `{Prof : Profile}.

(** [a + b] on [i64]. *)
Definition i64_add (a b : Z) : outcome Z := i64_sub a (- b).

(** ** Destinations *)

Inductive FrameDst := ToEncoder (ctx stream : nat) | ToGraph (fg : nat).
Inductive PacketDst := ToMuxer (ctx : nat) | ToDecoder (stream : nat).

(** ** Decoders and inputs *)

Record DecoderStream := {
  ds_index : nat;
  ds_stream : CopyStream;
  ds_type : AVMediaType;
  ds_codec_id : Z;
  ds_codec : option AVCodec;
  ds_duration : Z;
  ds_time_base : AVRational;
  have_sub2video : bool;
  ds_src : bool;
  ds_dsts : list (FrameDst * Z)
}.

Definition is_used (s : DecoderStream) : bool := ds_src s.

Definition set_src (s : DecoderStream) : DecoderStream :=
  {| ds_index := ds_index s; ds_stream := ds_stream s; ds_type := ds_type s; ds_codec_id := ds_codec_id s; ds_codec := ds_codec s;
     ds_duration := ds_duration s; ds_time_base := ds_time_base s; have_sub2video := have_sub2video s; ds_src := true;
     ds_dsts := ds_dsts s |}.

Definition set_sub2video (s : DecoderStream) : DecoderStream :=
  {| ds_index := ds_index s; ds_stream := ds_stream s; ds_type := ds_type s; ds_codec_id := ds_codec_id s; ds_codec := ds_codec s;
     ds_duration := ds_duration s; ds_time_base := ds_time_base s; have_sub2video := true; ds_src := ds_src s;
     ds_dsts := ds_dsts s |}.

Definition add_fg_dst (d : FrameDst) (fg_input_index : Z) (s : DecoderStream) : DecoderStream :=
  {| ds_index := ds_index s; ds_stream := ds_stream s; ds_type := ds_type s; ds_codec_id := ds_codec_id s; ds_codec := ds_codec s;
     ds_duration := ds_duration s; ds_time_base := ds_time_base s; have_sub2video := have_sub2video s; ds_src := ds_src s;
     ds_dsts := (ds_dsts s ++ [(d, fg_input_index)])%list |}.

(** [usize::MAX] for no filter graph. *)
Definition add_dst (d : FrameDst) (s : DecoderStream) : DecoderStream := add_fg_dst d (umax 64) s.

(** The types that a frame pipeline filters, all of an input or output or one stream. *)
Record FramePipeline := { pipeline_type : AVMediaType; pipeline_stream : option nat }.

(** The fields of the input's [AVFormatContext] that the start times come from:
    with each stream's [discard == AVDISCARD_ALL], start time and time base. *)
Record InputTimes := {
  fmt_start_time : Z;
  fmt_ts_discont : bool;
  fmt_streams : list (bool * Z * AVRational)
}.

Record Demuxer := {
  in_fmt_ctx : AVFormatContext (Dict := Dict);
  in_times : InputTimes;
  ts_offset : Z;
  dem_frame_pipelines : option (list FramePipeline);
  dem_start_time_us : option Z;
  dem_recording_time_us : option Z;
  dem_copy_ts : bool;
  start_time_effective : Z;
  dem_node : SchNode;
  dem_streams : list DecoderStream;
  dem_dsts : list (PacketDst * nat * option nat)
}.

Definition set_streams (l : list DecoderStream) (dsts : list (PacketDst * nat * option nat)) (d : Demuxer) : Demuxer :=
  {| in_fmt_ctx := in_fmt_ctx d; in_times := in_times d; ts_offset := ts_offset d; dem_frame_pipelines := dem_frame_pipelines d;
     dem_start_time_us := dem_start_time_us d; dem_recording_time_us := dem_recording_time_us d; dem_copy_ts := dem_copy_ts d;
     start_time_effective := start_time_effective d; dem_node := dem_node d; dem_streams := l; dem_dsts := dsts |}.

Definition set_start_times (effective offset : Z) (d : Demuxer) : Demuxer :=
  {| in_fmt_ctx := in_fmt_ctx d; in_times := in_times d; ts_offset := offset; dem_frame_pipelines := dem_frame_pipelines d;
     dem_start_time_us := dem_start_time_us d; dem_recording_time_us := dem_recording_time_us d; dem_copy_ts := dem_copy_ts d;
     start_time_effective := effective; dem_node := dem_node d; dem_streams := dem_streams d; dem_dsts := dem_dsts d |}.

(** [get_stream], and [get_stream_mut] with what is done to the stream. *)
Definition get_stream (i : nat) (d : Demuxer) : outcome DecoderStream := index (dem_streams d) i.

Definition with_stream (f : DecoderStream -> DecoderStream) (i : nat) (d : Demuxer) : outcome Demuxer :=
  s ← get_stream i d; Ret (set_streams (<[i := f s]> (dem_streams d)) (dem_dsts d) d).

Definition add_packet_dst (dst : PacketDst) (input_stream_index output_stream_index : nat) (d : Demuxer) : Demuxer :=
  set_streams (dem_streams d) (dem_dsts d ++ [(dst, input_stream_index, Some output_stream_index)])%list d.

Definition connect_stream (i : nat) (d : Demuxer) : outcome Demuxer :=
  s ← get_stream i d;
  if is_used s then Ret d
  else with_stream set_src i (set_streams (dem_streams d) (dem_dsts d ++ [(ToDecoder i, i, None)])%list d).

(** ** Which input stream an output stream comes from *)

Record StreamSource := { input_file_index : nat; input_stream_index : nat; encoded : bool }.

Definition StreamSourceRegistry : Type := list (option StreamSource).

Definition register (output_idx file stream : nat) (enc : bool) (r : StreamSourceRegistry) : StreamSourceRegistry :=
  let r := if (length r <=? output_idx)%nat then (r ++ replicate (output_idx + 1 - length r) None)%list else r in
  <[output_idx := Some {| input_file_index := file; input_stream_index := stream; encoded := enc |}]> r.

Definition stream_input_mapping (r : StreamSourceRegistry) : list (nat * (nat * nat)) :=
  omap id (imap (fun idx entry => (fun s => (idx, (input_file_index s, input_stream_index s))) <$> entry) r).

Definition encoding_streams (r : StreamSourceRegistry) : list nat :=
  omap id (imap (fun idx (entry : option StreamSource) =>
    match entry with Some s => if encoded s then Some idx else None | None => None end) r).

(** ** Encoders and outputs *)

Record EncoderStream := {
  es_index : nat;
  es_type : AVMediaType;
  encoder : AVCodec;
  es_vsync_method : option VSyncMethod;
  qscale : option Z
}.

(** [StreamMapSpec], and [StreamMap], what it expands to. *)
Record StreamMapSpec := { spec_linklabel : string; spec_copy : bool }.

Definition StreamMapSpec_from (label : string) : StreamMapSpec := {| spec_linklabel := label; spec_copy := false |}.

Record StreamMap := {
  disabled : bool;
  file_index : nat;
  map_stream_index : nat;
  linklabel : option string;
  copy : bool
}.

(** The fields of a [Muxer] that the binding reads and does not write. *)
Record MuxSettings := {
  url : string;
  out_fmt_ctx : nat;               (* which context *)
  oformat : AVOutputFormat;
  ctx_url : option string;
  mux_frame_pipelines : option (list FramePipeline);
  stream_map_specs : list StreamMapSpec;
  video_codec : option string;
  audio_codec : option string;
  subtitle_codec_name : option string;
  start_time_us : option Z;
  recording_time_us : option Z;
  framerate : option AVRational;
  vsync_method : VSyncMethod;
  audio_sample_rate : option Z;
  audio_channels : option Z;
  audio_sample_fmt : option Z;
  video_qscale : option Z;
  audio_qscale : option Z;
  copy_ts : bool
}.

(** A [Muxer]; [queue] says whether the channel of its packets has been made. *)
Record Muxer := {
  settings : MuxSettings;
  stream_maps : list StreamMap;
  out_streams : list CopyStream;   (* of [out_fmt_ctx] *)
  enc_streams : list EncoderStream;
  queue : bool;
  nb_streams : nat;
  nb_streams_ready : nat;
  mux_stream_nodes : list MuxStream;
  stream_sources : StreamSourceRegistry
}.

Definition Muxer_new (s : MuxSettings) (maps : list StreamMap) : Muxer :=
  {| settings := s; stream_maps := maps; out_streams := []; enc_streams := []; queue := false; nb_streams := 0;
     nb_streams_ready := 0; mux_stream_nodes := []; stream_sources := [] |}.

Definition set_stream_maps (l : list StreamMap) (m : Muxer) : Muxer :=
  {| settings := settings m; stream_maps := l; out_streams := out_streams m; enc_streams := enc_streams m; queue := queue m;
     nb_streams := nb_streams m; nb_streams_ready := nb_streams_ready m; mux_stream_nodes := mux_stream_nodes m;
     stream_sources := stream_sources m |}.

Definition set_out_streams (l : list CopyStream) (m : Muxer) : Muxer :=
  {| settings := settings m; stream_maps := stream_maps m; out_streams := l; enc_streams := enc_streams m; queue := queue m;
     nb_streams := nb_streams m; nb_streams_ready := nb_streams_ready m; mux_stream_nodes := mux_stream_nodes m;
     stream_sources := stream_sources m |}.

Definition push_enc (e : EncoderStream) (m : Muxer) : Muxer :=
  {| settings := settings m; stream_maps := stream_maps m; out_streams := out_streams m; enc_streams := (enc_streams m ++ [e])%list;
     queue := queue m; nb_streams := nb_streams m; nb_streams_ready := nb_streams_ready m; mux_stream_nodes := mux_stream_nodes m;
     stream_sources := stream_sources m |}.

Definition register_stream_source (output_stream_index file stream : nat) (enc : bool) (m : Muxer) : Muxer :=
  {| settings := settings m; stream_maps := stream_maps m; out_streams := out_streams m; enc_streams := enc_streams m;
     queue := queue m; nb_streams := nb_streams m; nb_streams_ready := nb_streams_ready m; mux_stream_nodes := mux_stream_nodes m;
     stream_sources := register output_stream_index file stream enc (stream_sources m) |}.

Definition stream_ready (m : Muxer) : Muxer :=
  {| settings := settings m; stream_maps := stream_maps m; out_streams := out_streams m; enc_streams := enc_streams m;
     queue := queue m; nb_streams := nb_streams m; nb_streams_ready := S (nb_streams_ready m);
     mux_stream_nodes := mux_stream_nodes m; stream_sources := stream_sources m |}.

Definition is_ready (m : Muxer) : bool := (nb_streams m =? nb_streams_ready m)%nat.

Definition has_src (m : Muxer) : bool := queue m.

(** [new_stream]: the place of the stream, whose packets go to the muxer's queue. *)
Definition new_stream (source : SchNode) (m : Muxer) : outcome (result (nat * Muxer) Error) :=
  let i := nb_streams m in
  nodes ← vec_insert i {| src := source; last_dts := 0; source_finished := false |} (mux_stream_nodes m);
  match avformat_new_stream (oformat (settings m)) (length (out_streams m)) with
  | None => Ret (Err (Error.OpenOutput OpenOutputError.OutOfMemory))
  | Some st =>
    Ret (Ok (i, {| settings := settings m; stream_maps := stream_maps m; out_streams := (out_streams m ++ [st])%list;
                   enc_streams := enc_streams m; queue := true; nb_streams := S i; nb_streams_ready := nb_streams_ready m;
                   mux_stream_nodes := nodes; stream_sources := stream_sources m |}))
  end.

Definition determine_vsync_method (vsync : VSyncMethod) (rate : option AVRational) (f : AVOutputFormat) (copy_ts : bool) : VSyncMethod :=
  if negb (bool_decide (vsync = VsyncAuto)) then vsync
  else
    let vsync :=
      if match rate with Some fr => negb (num fr =? 0)%Z | None => false end then VsyncCfr
      else if match format_name f with Some s => (s =? "avi")%string | None => false end then VsyncVfr
      else if negb (Z.land (format_flags f) AVFMT_VARIABLE_FPS =? 0)%Z then
        if negb (Z.land (format_flags f) AVFMT_NOTIMESTAMPS =? 0)%Z then VsyncPassthrough else VsyncVfr
      else VsyncCfr in
    if bool_decide (vsync = VsyncCfr) && copy_ts then VsyncVscfr else vsync.

Definition add_enc_stream (media_type : AVMediaType) (enc : AVCodec) (src_node : SchNode) (m : Muxer)
    : outcome (result (FrameDst * nat * Muxer) Error) :=
  let? (i, m) := new_stream src_node m in
  let s := settings m in
  let vsync := if bool_decide (media_type = AVMEDIA_TYPE_VIDEO)
               then Some (determine_vsync_method (vsync_method s) (framerate s) (oformat s) (copy_ts s)) else None in
  let q := if bool_decide (media_type = AVMEDIA_TYPE_VIDEO) then video_qscale s
           else if bool_decide (media_type = AVMEDIA_TYPE_AUDIO) then audio_qscale s else None in
  Ret (Ok (ToEncoder (out_fmt_ctx s) i, i,
           push_enc {| es_index := i; es_type := media_type; encoder := enc; es_vsync_method := vsync; qscale := q |} m)).

(** ** Copied streams *)

Definition set_codecpar (p : Par) (s : CopyStream) : CopyStream :=
  {| codecpar := p; r_frame_rate := r_frame_rate s; avg_frame_rate := avg_frame_rate s; stream_time_base := stream_time_base s;
     stream_sar := stream_sar s; stream_duration := stream_duration s |}.

(** [for i in 0..nb_coded_side_data] *)
Fixpoint copy_side_data (l : list (Z * list Z)) (dst : list (Z * list Z)) : result (list (Z * list Z)) Error :=
  match l with
  | [] => Ok dst
  | (t, data) :: l => match av_packet_side_data_new dst t data with Some dst => copy_side_data l dst | None => Err (Error.OpenOutput OpenOutputError.OutOfMemory) end
  end.

(** [streamcopy_init], up to the last [match]: what both kinds of stream get. *)
Definition streamcopy_common (f : AVOutputFormat) (input output : CopyStream) : result CopyStream Error :=
  if negb (bool_decide (is_Some (avcodec_alloc_context3 None))) then Err (Error.OpenOutput OpenOutputError.OutOfMemory)
  else match parameters_via_context (codecpar input) with
  | Err ret => Err (open_output_error ret)
  | Ok par =>
    let tag := par_codec_tag par in
    let tag := if (tag =? 0)%Z then
                 if negb (has_codec_tags f) || (av_codec_get_id tag =? par_codec_id par)%Z || negb (av_codec_get_tag2 (par_codec_id par))
                 then par_codec_tag par else tag
               else tag in
    let fr := if (num (r_frame_rate output) =? 0)%Z then r_frame_rate input else r_frame_rate output in
    let avg := if negb (num fr =? 0)%Z then fr else avg_frame_rate input in
    let tb := if (num (stream_time_base output) <=? 0)%Z || (den (stream_time_base output) <=? 0)%Z then
                if negb (num fr =? 0)%Z then av_inv_q fr else av_add_q (stream_time_base input) {| num := 0; den := 1 |}
              else stream_time_base output in
    let! side := copy_side_data (par_side_data (codecpar input)) (par_side_data par) in
    Ok {| codecpar := {| par_type := par_type par; par_codec_id := par_codec_id par; par_codec_tag := tag;
                         par_block_align := par_block_align par; par_sar := par_sar par; par_side_data := side |};
          r_frame_rate := r_frame_rate output; avg_frame_rate := avg; stream_time_base := tb;
          stream_sar := stream_sar output; stream_duration := stream_duration output |}
  end.

Definition set_block_align (n : Z) (p : Par) : Par :=
  {| par_type := par_type p; par_codec_id := par_codec_id p; par_codec_tag := par_codec_tag p; par_block_align := n;
     par_sar := par_sar p; par_side_data := par_side_data p |}.
Definition set_par_sar (r : AVRational) (p : Par) : Par :=
  {| par_type := par_type p; par_codec_id := par_codec_id p; par_codec_tag := par_codec_tag p; par_block_align := par_block_align p;
     par_sar := r; par_side_data := par_side_data p |}.

Definition streamcopy_init (f : AVOutputFormat) (input output : CopyStream) : result CopyStream Error :=
  let! out := streamcopy_common f input output in
  let par := codecpar out in
  Ok match par_type par with
     | AVMEDIA_TYPE_AUDIO =>
       let b := par_block_align par in
       let par := if ((b =? 1) || (b =? 1152) || (b =? 576))%Z && (par_codec_id par =? AV_CODEC_ID_MP3)%Z then set_block_align 0 par else par in
       set_codecpar (if (par_codec_id par =? AV_CODEC_ID_AC3)%Z then set_block_align 0 par else par) out
     | AVMEDIA_TYPE_VIDEO =>
       let sar := if negb (num (stream_sar input) =? 0)%Z then stream_sar input else par_sar par in
       {| codecpar := set_par_sar sar par; r_frame_rate := r_frame_rate input; avg_frame_rate := avg_frame_rate out;
          stream_time_base := stream_time_base out; stream_sar := sar; stream_duration := stream_duration out |}
     | _ => out
     end.

(** [rescale_duration] on a stream of the output. *)
Definition rescale_duration (duration : Z) (time_base : AVRational) (i : nat) (m : Muxer) : outcome Muxer :=
  st ← index (out_streams m) i;
  Ret (set_out_streams (<[i := {| codecpar := codecpar st; r_frame_rate := r_frame_rate st; avg_frame_rate := avg_frame_rate st;
                                  stream_time_base := stream_time_base st; stream_sar := stream_sar st;
                                  stream_duration := av_rescale_q duration time_base (stream_time_base st) |}]> (out_streams m)) m).

(** The steps that copy a stream of an input to a new stream of the output: the same
    three places of the source. *)
Definition copy_stream (demux_idx stream_idx : nat) (m : Muxer) (d : Demuxer) : outcome (result (Muxer * Demuxer) Error) :=
  s ← get_stream stream_idx d;
  let? (i, m) := new_stream (dem_node d) m in
  let d := add_packet_dst (ToMuxer (out_fmt_ctx (settings m))) stream_idx i d in
  let m := register_stream_source i demux_idx stream_idx false m in
  out ← index (out_streams m) i;
  match streamcopy_init (oformat (settings m)) (ds_stream s) out with
  | Err e => Ret (Err e)
  | Ok out =>
    m ← rescale_duration (ds_duration s) (ds_time_base s) i (set_out_streams (<[i := out]> (out_streams m)) m);
    Ret (Ok (stream_ready m, d))
  end.

(** ** The encoder of an output *)

Definition choose_encoder (m : Muxer) (t : AVMediaType) : outcome (result (option (Z * AVCodec)) Error) :=
  let s := settings m in
  let choose (name : option string) :=
    match name with
    | None =>
      if contains_char NUL (url s) then Panic
      else
        let id := av_guess_codec (oformat s) (Some (url s)) t in
        match avcodec_find_encoder id with
        | None => Ret (Err (open_output_error AVERROR_ENCODER_NOT_FOUND))
        | Some enc => Ret (Ok (Some (id, enc)))
        end
    | Some name =>
      if (name =? "copy")%string then Ret (Ok None)
      else if contains_char NUL name then Ret (Err (nul_error name))
      else
        let enc := match avcodec_find_encoder_by_name name, avcodec_descriptor_get_by_name name with
                   | None, Some id => avcodec_find_encoder id
                   | enc, _ => enc
                   end in
        match enc with
        | None => Ret (Err (open_output_error AVERROR_ENCODER_NOT_FOUND))
        | Some enc =>
          if negb (bool_decide (enc_type enc = t)) then Ret (Err (Error.OpenOutput OpenOutputError.InvalidArgument))
          else Ret (Ok (Some (enc_id enc, enc)))
        end
    end in
  match t with
  | AVMEDIA_TYPE_VIDEO => choose (video_codec s)
  | AVMEDIA_TYPE_AUDIO => choose (audio_codec s)
  | AVMEDIA_TYPE_SUBTITLE => choose (subtitle_codec_name s)
  | _ => Ret (Ok None)
  end.

(** ** Filter graphs *)

Record InputFilterOptions := {
  ifo_name : string;
  ifo_trim_start_us : option Z;
  ifo_trim_end_us : option Z;
  ifo_framerate : AVRational;
  sub2video_width : Z;
  sub2video_height : Z;
  autorotate : bool;               (* [IFILTER_FLAG_AUTOROTATE], the flag that is set *)
  fallback : option AVCodecContext (* whose format the fallback frame has *)
}.

Record InputFilter := { if_linklabel : string; if_media : AVMediaType; if_name : string; if_opts : InputFilterOptions }.

Definition InputFilter_new (label : string) (t : AVMediaType) (name opts_name : string) : InputFilter :=
  {| if_linklabel := label; if_media := t; if_name := name;
     if_opts := {| ifo_name := opts_name; ifo_trim_start_us := None; ifo_trim_end_us := None; ifo_framerate := {| num := 0; den := 0 |};
                   sub2video_width := 0; sub2video_height := 0; autorotate := false; fallback := None |} |}.

Record OutputFilterOptions := {
  ofo_name : string;
  ofo_enc : option AVCodec;
  formats : option (list Z);
  audio_format : Z;
  audio_formats : option (list Z);
  ofo_framerate : AVRational;
  framerates : option (list AVRational);
  color_spaces : option (list Z);
  color_ranges : option (list Z);
  ofo_vsync_method : option VSyncMethod;
  ofo_sample_rate : Z;
  sample_rates : option (list Z);
  ch_layout : AVChannelLayout;
  ch_layouts : option (list AVChannelLayout);
  trim_start_us : option Z;
  trim_duration_us : option Z;
  ofo_ts_offset : option Z;
  ofo_flags : Z
}.

Definition OutputFilterOptions_new : OutputFilterOptions :=
  {| ofo_name := ""; ofo_enc := None; formats := None; audio_format := AV_SAMPLE_FMT_NONE; audio_formats := None;
     ofo_framerate := {| num := 0; den := 0 |}; framerates := None; color_spaces := None; color_ranges := None;
     ofo_vsync_method := None; ofo_sample_rate := 0; sample_rates := None;
     ch_layout := {| layout_order := AV_CHANNEL_ORDER_UNSPEC; layout_channels := 0; layout_mask := 0 |}; ch_layouts := None;
     trim_start_us := None; trim_duration_us := None; ofo_ts_offset := None; ofo_flags := 0 |}.

(** An output; its [finished_flag_list] belongs to the graph that [dst] leads to. *)
Record OutputFilter := {
  of_linklabel : string;
  of_media : AVMediaType;
  of_name : string;
  of_opts : OutputFilterOptions;
  of_fg_input_index : nat;
  dst : option FrameDst
}.

Definition OutputFilter_new (label : string) (t : AVMediaType) (name : string) : OutputFilter :=
  {| of_linklabel := label; of_media := t; of_name := name; of_opts := OutputFilterOptions_new; of_fg_input_index := 0; dst := None |}.

Definition has_dst (o : OutputFilter) : bool := bool_decide (is_Some (dst o)).

Definition set_dst (d : FrameDst) (o : OutputFilter) : OutputFilter :=
  {| of_linklabel := of_linklabel o; of_media := of_media o; of_name := of_name o; of_opts := of_opts o;
     of_fg_input_index := of_fg_input_index o; dst := Some d |}.
Definition set_fg_input_index (i : nat) (o : OutputFilter) : OutputFilter :=
  {| of_linklabel := of_linklabel o; of_media := of_media o; of_name := of_name o; of_opts := of_opts o; of_fg_input_index := i; dst := dst o |}.
Definition set_opts (p : OutputFilterOptions) (o : OutputFilter) : OutputFilter :=
  {| of_linklabel := of_linklabel o; of_media := of_media o; of_name := of_name o; of_opts := p; of_fg_input_index := of_fg_input_index o; dst := dst o |}.

(** A graph; [fg_index] stands for the channel that its frames come from. *)
Record FilterGraph := {
  graph_desc : string;
  hw_device : option string;
  fg_index : nat;
  fg_inputs : list InputFilter;
  fg_outputs : list OutputFilter;
  fg_node : SchNode
}.

Definition FilterGraph_new (fg_index : nat) (desc : string) (hw : option string) (inputs : list InputFilter) (outputs : list OutputFilter)
    : FilterGraph :=
  {| graph_desc := desc; hw_device := hw; fg_index := fg_index; fg_inputs := inputs; fg_outputs := outputs; fg_node := Filter [] 0 |}.

Definition get_src_sender (g : FilterGraph) : FrameDst := ToGraph (fg_index g).

Definition set_outputs (l : list OutputFilter) (g : FilterGraph) : FilterGraph :=
  {| graph_desc := graph_desc g; hw_device := hw_device g; fg_index := fg_index g; fg_inputs := fg_inputs g; fg_outputs := l; fg_node := fg_node g |}.
Definition set_inputs (l : list InputFilter) (n : SchNode) (g : FilterGraph) : FilterGraph :=
  {| graph_desc := graph_desc g; hw_device := hw_device g; fg_index := fg_index g; fg_inputs := l; fg_outputs := fg_outputs g; fg_node := n |}.

(** ** What an encoder supports *)

(** The loops over an array of C: until its terminator, null, or [max] entries. *)
Fixpoint collect {A} (stop : A -> bool) (max : nat) (l : list A) : list A :=
  match max, l with
  | S max, x :: l => if stop x then [] else x :: collect stop max l
  | _, _ => []
  end.

Definition supported {A} (r : result (option (list A)) Z) (stop : A -> bool) (max : nat) : result (list A) Error :=
  match r with
  | Err ret => Err (open_output_error ret)
  | Ok p => Ok (collect stop max (default [] p))
  end.

Definition OFILTER_FLAG_DISABLE_CONVERT : Z := 1.
Definition OFILTER_FLAG_AUDIO_24BIT : Z := 2.
Definition OFILTER_FLAG_AUTOSCALE : Z := 4.

Fixpoint find_layout (nb_channels : Z) (l : list AVChannelLayout) : option AVChannelLayout :=
  match l with
  | [] => None
  | x :: l => if (layout_channels x =? nb_channels)%Z then Some x else find_layout nb_channels l
  end.

Definition set_channel_layout (layouts : option (list AVChannelLayout)) (requested : AVChannelLayout) : result AVChannelLayout Error :=
  let copied x := map_err open_output_error (av_channel_layout_copy x) in
  if negb (layout_order requested =? AV_CHANNEL_ORDER_UNSPEC)%Z then copied requested
  else match layouts with
       | None => Ok (av_channel_layout_default (layout_channels requested))
       | Some layouts =>
         match find_layout (layout_channels requested) layouts with
         | Some layout => copied layout
         | None => Ok (av_channel_layout_default (layout_channels requested))
         end
       end.

(** The branch of [configure_output_filter_opts] for video. *)
Definition configure_video (m : Muxer) (enc : AVCodec) (output_stream_index : nat) (o : OutputFilterOptions)
    : outcome (result OutputFilterOptions Error) :=
  let? fs := Ret (supported (supported_pix_formats enc) (fun x => x =? AV_PIX_FMT_NONE)%Z 512) in
  let? rs := Ret (supported (supported_frame_rates enc) (fun x => (num x =? 0)%Z || (den x =? 0)%Z) 64) in
  let? cs := Ret (supported (supported_color_spaces enc) (fun x => x =? AVCOL_SPC_UNSPECIFIED)%Z 128) in
  let? cr := Ret (supported (supported_color_ranges enc) (fun x => x =? AVCOL_RANGE_UNSPECIFIED)%Z 64) in
  stream ← index (enc_streams m) output_stream_index;
  Ret (Ok {| ofo_name := ofo_name o; ofo_enc := ofo_enc o; formats := Some fs; audio_format := audio_format o;
             audio_formats := audio_formats o; ofo_framerate := default (ofo_framerate o) (framerate (settings m)); framerates := Some rs;
             color_spaces := Some cs; color_ranges := Some cr; ofo_vsync_method := es_vsync_method stream;
             ofo_sample_rate := ofo_sample_rate o; sample_rates := sample_rates o; ch_layout := ch_layout o; ch_layouts := ch_layouts o;
             trim_start_us := trim_start_us o; trim_duration_us := trim_duration_us o; ofo_ts_offset := ofo_ts_offset o;
             ofo_flags := ofo_flags o |}).

(** The branch for the other types. *)
Definition configure_audio (m : Muxer) (enc : AVCodec) (o : OutputFilterOptions) : outcome (result OutputFilterOptions Error) :=
  let s := settings m in
  let? fs := Ret (supported (supported_sample_formats enc) (fun x => x =? AV_SAMPLE_FMT_NONE)%Z 32) in
  let? rs := Ret (supported (supported_sample_rates enc) (fun x => x =? 0)%Z 64) in
  let requested := match audio_channels s with
                   | Some n => {| layout_order := layout_order (ch_layout o); layout_channels := n; layout_mask := layout_mask (ch_layout o) |}
                   | None => ch_layout o
                   end in
  let? ls := Ret (supported (supported_ch_layouts enc) (fun x => layout_order x =? AV_CHANNEL_ORDER_UNSPEC)%Z 128) in
  let? layout := Ret (if (0 <? layout_channels requested)%Z then set_channel_layout (Some ls) requested else Ok requested) in
  Ret (Ok {| ofo_name := ofo_name o; ofo_enc := ofo_enc o; formats := formats o; audio_format := default (audio_format o) (audio_sample_fmt s);
             audio_formats := Some fs; ofo_framerate := ofo_framerate o; framerates := framerates o; color_spaces := color_spaces o;
             color_ranges := color_ranges o; ofo_vsync_method := ofo_vsync_method o;
             ofo_sample_rate := default (ofo_sample_rate o) (audio_sample_rate s); sample_rates := Some rs; ch_layout := layout;
             ch_layouts := Some ls; trim_start_us := trim_start_us o; trim_duration_us := trim_duration_us o;
             ofo_ts_offset := ofo_ts_offset o; ofo_flags := ofo_flags o |}).

Definition configure_output_filter_opts (mux_index : nat) (m : Muxer) (f : OutputFilter) (id : Z) (enc : AVCodec) (output_stream_index : nat)
    : outcome (result OutputFilter Error) :=
  let s := settings m in
  let o := of_opts f in
  let o := {| ofo_name := "#" ++ dec (Z.of_nat mux_index) ++ ":" ++ dec (Z.of_nat output_stream_index); ofo_enc := Some enc;
              formats := formats o; audio_format := audio_format o; audio_formats := audio_formats o; ofo_framerate := ofo_framerate o;
              framerates := framerates o; color_spaces := color_spaces o; color_ranges := color_ranges o;
              ofo_vsync_method := ofo_vsync_method o; ofo_sample_rate := ofo_sample_rate o; sample_rates := sample_rates o;
              ch_layout := ch_layout o; ch_layouts := ch_layouts o; trim_start_us := start_time_us s;
              trim_duration_us := recording_time_us s; ofo_ts_offset := start_time_us s;
              ofo_flags := Z.lor (Z.lor OFILTER_FLAG_DISABLE_CONVERT OFILTER_FLAG_AUTOSCALE)
                                 (if (av_get_exact_bits_per_sample id =? 24)%Z then OFILTER_FLAG_AUDIO_24BIT else 0) |} in
  if negb (bool_decide (is_Some (avcodec_alloc_context3 (Some enc)))) then Ret (Err (Error.OpenOutput OpenOutputError.OutOfMemory))
  else
    let? o := if bool_decide (of_media f = AVMEDIA_TYPE_VIDEO) then configure_video m enc output_stream_index o
              else configure_audio m enc o in
    Ret (Ok (set_opts o f)).

(** ** What the user's times mean for an input and an output *)

(** [recording_time_us] of [open_input_file] and [open_output_file]. *)
Definition recording_time (start_time_us stop_time_us recording_time_us : option Z) : outcome (result (option Z) Error) :=
  match stop_time_us with
  | None => Ret (Ok recording_time_us)
  | Some stop =>
    let start := default 0 start_time_us in
    if (stop <=? start)%Z then Ret (Err (Error.OpenOutput OpenOutputError.InvalidArgument))
    else r ← i64_sub stop start; Ret (Ok (Some r))
  end.

(** The time that [open_input_file] starts from, the time that it seeks, and the
    offset of the input's timestamps. *)
Definition start_timestamp (start : option Z) (fmt_start : Z) : outcome Z :=
  if (fmt_start =? AV_NOPTS_VALUE)%Z then Ret (default 0 start) else i64_add (default 0 start) fmt_start.

Definition AV_TIME_BASE : Z := 1000000.

(** [video_delays]: of the input's streams; [seek_to_pts]: a flag of its format. *)
Definition seek_timestamp (timestamp : Z) (seek_to_pts : bool) (video_delays : list Z) : outcome Z :=
  if negb seek_to_pts && bool_decide (Exists (fun d => d <> 0) video_delays)
  then i64_sub timestamp (3 * AV_TIME_BASE / 23) else Ret timestamp.

Definition initial_ts_offset (timestamp : Z) (copy_ts : bool) : outcome Z := i64_sub 0 (if copy_ts then 0 else timestamp).

End Streams.
