(* ===== verification/Binding.v ===== *)
(** * How inputs, filter graphs and outputs are connected
    ([ez-ffmpeg/src/core/context/ffmpeg_context.rs]).

    [new_with_options] opens the inputs and outputs, parses the filter graphs and
    binds their ends: the inputs of the graphs to streams of the inputs, the outputs
    of the graphs and the mapped streams to encoders of the outputs, or without a
    mapping one stream of each type.  Opening is an argument here: it gives the
    demuxers and muxers as [Demuxer::new] and [Muxer::new] make them.  The metadata of
    the outputs are written in between and do not matter to the connections. *)

From stdpp Require Import base list option strings.
From Stdlib Require Import ZArith Lia Ascii.
From S2P Require Import Choke.
From S2P Require Import Prelude RustInt RustStr Errors StreamSpec Muxer.

Local Open Scope Z_scope.
Local Open Scope string_scope.
Local Open Scope rust_scope.

Section Binding.
  Context `{Lib : Av} `{Prof : Profile}.

Abbreviation Demuxer := (@Demuxer Lib).

(** ** Parsing filter graphs *)

(** The text of a name of libavfilter. *)
Definition utf8 (e : Error) (s : option string) : result string Error := ok_or e s.

Definition describe_filter_link (c : AVFilterInOut) : result string Error :=
  let! name := utf8 Error.FilterNameUtf8 (inout_filter c) in
  if (1 <? inout_pads c)%nat then Ok name
  else let! pad := utf8 Error.FilterNameUtf8 (inout_pad c) in Ok (name ++ ":" ++ pad).

Definition inout_label (c : AVFilterInOut) : result string Error :=
  match inout_name c with None => Ok "" | Some s => utf8 Error.FilterDescUtf8 s end.

Fixpoint inouts_to_input_filters (fg filter_index : nat) (l : list AVFilterInOut) : result (list InputFilter) Error :=
  match l with
  | [] => Ok []
  | c :: l =>
    let! label := inout_label c in
    let! name := describe_filter_link c in
    let! _ := (if frame_alloc then Ok tt else Err (Error.AllocFrame AllocFrameError.OutOfMemory)) in
    let! rest := inouts_to_input_filters fg (S filter_index) l in
    Ok (InputFilter_new label (inout_type c) name ("fg:" ++ dec (Z.of_nat fg) ++ ":" ++ dec (Z.of_nat filter_index)) :: rest)
  end.

Fixpoint inouts_to_output_filters (l : list AVFilterInOut) : result (list OutputFilter) Error :=
  match l with
  | [] => Ok []
  | c :: l =>
    let! label := inout_label c in
    let! name := describe_filter_link c in
    let! rest := inouts_to_output_filters l in
    Ok (OutputFilter_new label (inout_type c) name :: rest)
  end.

Definition init_filter_graph (fg : nat) (desc : string) (hw : option string) : result FilterGraph Error :=
  if contains_char NUL desc then Err (nul_error desc)
  else match avfilter_graph_segment desc with
  | Err ret => Err (graph_parse_error ret)
  | Ok (inputs, outputs) =>
    let! ins := inouts_to_input_filters fg 0 inputs in
    let! outs := inouts_to_output_filters outputs in
    match outs with
    | [] => Err Error.FilterZeroOutputs
    | _ => Ok (FilterGraph_new fg desc hw ins outs)
    end
  end.

Definition FilterComplex : Type := string * option string.

Fixpoint init_filter_graphs (i : nat) (l : list FilterComplex) : result (list FilterGraph) Error :=
  match l with
  | [] => Ok []
  | (desc, hw) :: l =>
    let! g := init_filter_graph i desc hw in
    let! gs := init_filter_graphs (S i) l in
    Ok (g :: gs)
  end.

(** ** The inputs of the graphs *)

(** The parameters of a stream of the input's context, dereferenced. *)
Definition stream_par (f : AVFormatContext (Dict := Dict)) (i : nat) : outcome AVCodecParameters :=
  s ← index (streams f) i;
  match s with
  | Some s => match st_codecpar s with Some p => Ret p | None => Panic end
  | None => Panic
  end.

(** The size that subtitles get: their own, that of the largest video, or 720x576. *)
Definition sub2video_size (f : AVFormatContext (Dict := Dict)) (p : AVCodecParameters) : outcome (Z * Z) :=
  let missing w h := ((w <=? 0) || (h <=? 0))%Z in
  let w := width p in
  let h := height p in
  '(w, h) ← (if missing w h
             then foldM (fun '(w, h) j => p ← stream_par f j;
                         Ret (if bool_decide (codec_type p = AVMEDIA_TYPE_VIDEO) then (Z.max w (width p), Z.max h (height p)) else (w, h)))
                        (w, h) (seq 0 (length (streams f)))
             else Ret (w, h));
  Ret (if missing w h then (Z.max w 720, Z.max h 576) else (w, h)).

(** [tsoffset] of [ifilter_bind_ist]. *)
Definition input_tsoffset (d : Demuxer) : outcome Z :=
  if dem_copy_ts d then start_timestamp (dem_start_time_us d) (fmt_start_time (in_times d)) else Ret 0.

Definition ifilter_bind_ist (g : FilterGraph) (input_index stream_idx : nat) (d : Demuxer) : outcome (result (FilterGraph * Demuxer) Error) :=
  f ← index (fg_inputs g) input_index;
  par ← stream_par (in_fmt_ctx d) stream_idx;
  let o := if_opts f in
  let is_type t := bool_decide (codec_type par = t) in
  size ← (if is_type AVMEDIA_TYPE_SUBTITLE then sub2video_size (in_fmt_ctx d) par else Ret (sub2video_width o, sub2video_height o));
  d ← (if is_type AVMEDIA_TYPE_SUBTITLE then with_stream set_sub2video stream_idx d else Ret d);
  st ← get_stream stream_idx d;
  match avcodec_alloc_context3 (ds_codec st) with
  | None => Ret (Err (Error.FilterGraphParse FilterGraphParseError.OutOfMemory))
  | Some dec_ctx =>
    let? fb := Ret (if bool_decide (dec_type dec_ctx = AVMEDIA_TYPE_AUDIO)
                    then map_err graph_parse_error (let! _ := av_channel_layout_copy (dec_ch_layout dec_ctx) in Ok dec_ctx)
                    else Ok dec_ctx) in
    ts ← input_tsoffset d;
    let o := {| ifo_name := ifo_name o;
                ifo_trim_start_us := match dem_start_time_us d with Some _ => Some ts | None => ifo_trim_start_us o end;
                ifo_trim_end_us := dem_recording_time_us d;
                ifo_framerate := if is_type AVMEDIA_TYPE_VIDEO then av_guess_frame_rate (in_fmt_ctx d) stream_idx else ifo_framerate o;
                sub2video_width := fst size; sub2video_height := snd size; autorotate := true; fallback := Some fb |} in
    let f := {| if_linklabel := if_linklabel f; if_media := if_media f; if_name := if_name f; if_opts := o |} in
    d ← with_stream (add_fg_dst (get_src_sender g) (Z.of_nat input_index)) stream_idx d;
    node ← match fg_node g with
           | Filter inputs best_input => inputs ← vec_insert input_index (dem_node d) inputs; Ret (Filter inputs best_input)
           | Demux _ => Panic
           end;
    d ← connect_stream stream_idx d;
    Ret (Ok (set_inputs (<[input_index := f]> (fg_inputs g)) node g, d))
  end.

(** The specifier that a label leaves after the number of the file. *)
Definition label_specifier (remainder : string) (t : AVMediaType) : outcome (result StreamSpecifier Error) :=
  let spec_str := match strip_prefix ":" remainder with Some s => s | None => remainder end in
  if is_empty spec_str then Ret (Ok (set_media t specifier_default))
  else r ← parse spec_str; Ret (map_err (fun _ => Error.FilterGraphParse FilterGraphParseError.InvalidArgument) r).

(** The first stream that matches and has the type. *)
Fixpoint first_match (ss : StreamSpecifier) (f : AVFormatContext (Dict := Dict)) (t : AVMediaType) (l : list nat) : outcome (option nat) :=
  match l with
  | [] => Ret None
  | i :: l =>
    m ← matches av_dict_get ss f i;
    if m : bool then p ← stream_par f i; if bool_decide (codec_type p = t) then Ret (Some i) else first_match ss f t l
    else first_match ss f t l
  end.

(** A label without its brackets. *)
Definition strip_brackets (label desc : string) : result string Error :=
  if starts_with "[" label && ends_with "]" label then
    if (slen label <=? 2)%nat then Err (Error.FilterGraphParse (FilterGraphParseError.InvalidFilterSpecifier desc))
    else Ok (stake (slen label - 2) (sdrop 1 label))
  else Ok label.

Definition fg_find_input_idx_by_linklabel (label : string) (t : AVMediaType) (demuxs : list Demuxer) (desc : string)
    : outcome (result (nat * nat) Error) :=
  let? label := Ret (strip_brackets label desc) in
  match strtol label with
  | None => Ret (Err (Error.FilterGraphParse FilterGraphParseError.InvalidArgument))
  | Some (file_idx, remainder) =>
    if (file_idx <? 0)%Z || (Z.of_nat (length demuxs) <=? file_idx)%Z then Ret (Err (Error.FilterGraphParse (FilterGraphParseError.InvalidFileIndexInFg (wrap 64 file_idx) desc)))
    else
      let file_idx := Z.to_nat file_idx in
      let? ss := label_specifier remainder t in
      d ← index demuxs file_idx;
      m ← first_match ss (in_fmt_ctx d) t (seq 0 (length (dem_streams d)));
      match m with
      | Some i => Ret (Ok (file_idx, i))
      | None => Ret (Err (Error.FilterGraphParse FilterGraphParseError.InvalidArgument))
      end
  end.

(** The first stream of a type that nothing uses yet. *)
Fixpoint first_unused (t : AVMediaType) (l : list DecoderStream) (i : nat) : option nat :=
  match l with
  | [] => None
  | s :: l => if negb (is_used s) && bool_decide (ds_type s = t) then Some i else first_unused t l (S i)
  end.

Fixpoint find_unused (t : AVMediaType) (l : list Demuxer) (d_idx : nat) : option (nat * nat) :=
  match l with
  | [] => None
  | d :: l => match first_unused t (dem_streams d) 0 with Some i => Some (d_idx, i) | None => find_unused t l (S d_idx) end
  end.

Definition fg_complex_bind_input (g : FilterGraph) (i : nat) (demuxs : list Demuxer) : outcome (result (FilterGraph * list Demuxer) Error) :=
  f ← index (fg_inputs g) i;
  let? (demux_idx, stream_idx) :=
    if negb (is_empty (if_linklabel f)) && negb (if_linklabel f =? "in")%string
    then fg_find_input_idx_by_linklabel (if_linklabel f) (if_media f) demuxs (graph_desc g)
    else Ret (ok_or (Error.FilterGraphParse FilterGraphParseError.InvalidArgument) (find_unused (if_media f) demuxs 0)) in
  d ← index demuxs demux_idx;
  let? (g, d) := ifilter_bind_ist g i stream_idx d in
  Ret (Ok (g, <[demux_idx := d]> demuxs)).

(** *** Graphs that feed graphs *)

(** The labels of all outputs, with their graph and place, as they were before. *)
Definition output_labels (graphs : list FilterGraph) : list (nat * nat * string * AVMediaType) :=
  concat (imap (fun j g => imap (fun k o => (j, k, of_linklabel o, of_media o)) (fg_outputs g)) graphs).

(** The first output of another graph with the label, of the same type and free. *)
Fixpoint find_link (graphs : list FilterGraph) (i : nat) (label : string) (t : AVMediaType) (l : list (nat * nat * string * AVMediaType))
    : outcome (result (option (nat * nat)) Error) :=
  match l with
  | [] => Ret (Ok None)
  | (j, k, label', t') :: l =>
    if (j =? i)%nat || negb (label' =? label)%string then find_link graphs i label t l
    else if negb (bool_decide (t' = t)) then Ret (Err (Error.FilterGraphParse FilterGraphParseError.InvalidArgument))
    else g ← index graphs j; o ← index (fg_outputs g) k;
         if has_dst o then find_link graphs i label t l else Ret (Ok (Some (j, k)))
  end.

Definition link_input (outs : list (nat * nat * string * AVMediaType)) (graphs : list FilterGraph) (x : nat * string * AVMediaType)
    : outcome (result (list FilterGraph) Error) :=
  let '(i, label, t) := x in
  if is_empty label then Ret (Ok graphs)
  else
    let? found := find_link graphs i label t outs in
    match found with
    | None => Ret (Ok graphs)
    | Some (j, k) =>
      dest ← index graphs i;
      g ← index graphs j; o ← index (fg_outputs g) k;
      let o := set_fg_input_index i (set_dst (get_src_sender dest) o) in
      Ret (Ok (<[j := set_outputs (<[k := o]> (fg_outputs g)) g]> graphs))
    end.

Definition bind_fg_inputs_by_fg (graphs : list FilterGraph) : outcome (result (list FilterGraph) Error) :=
  let inputs := concat (imap (fun i g => (fun f => (i, if_linklabel f, if_media f)) <$> fg_inputs g) graphs) in
  try_fold (link_input (output_labels graphs)) graphs inputs.

(** The loops over the graphs and their inputs. *)
Definition bind_inputs_of (g : nat) (s : list FilterGraph * list Demuxer) : outcome (result (list FilterGraph * list Demuxer) Error) :=
  let '(graphs, demuxs) := s in
  fg ← index graphs g;
  let? (fg, demuxs) := try_fold (fun '(fg, demuxs) i => fg_complex_bind_input fg i demuxs) (fg, demuxs) (seq 0 (length (fg_inputs fg))) in
  Ret (Ok (<[g := fg]> graphs, demuxs)).

Definition fg_bind_inputs (graphs : list FilterGraph) (demuxs : list Demuxer) : outcome (result (list FilterGraph * list Demuxer) Error) :=
  match graphs with
  | [] => Ret (Ok (graphs, demuxs))
  | _ =>
    let? graphs := bind_fg_inputs_by_fg graphs in
    try_fold (fun s g => bind_inputs_of g s) (graphs, demuxs) (seq 0 (length graphs))
  end.

(** ** The stream maps of an output *)

Definition is_filter_output_linklabel (label : string) : bool := starts_with "[" label.

(** What is between the brackets. *)
Definition pure_linklabel (label : string) : result string Error :=
  let '(inside, rest) := span (fun c => negb (Ascii.eqb c "]"%char)) (sdrop 1 label) in
  if is_empty rest then Err (Error.OpenOutput OpenOutputError.InvalidArgument)
  else if is_empty inside then Err (Error.OpenOutput OpenOutputError.InvalidArgument) else Ok inside.

Definition filter_map (label : string) (cp : bool) : StreamMap :=
  {| disabled := false; file_index := 0; map_stream_index := 0; linklabel := Some label; copy := cp |}.

Definition file_map (cp : bool) (file stream : nat) : StreamMap :=
  {| disabled := false; file_index := file; map_stream_index := stream; linklabel := None; copy := cp |}.

(** The specifier and whether a [?] allows it to match nothing. *)
Definition map_specifier (remainder : string) : outcome (result (StreamSpecifier * bool) Error) :=
  let '(spec_str, allow_unused) := match strip_suffix "?" remainder with Some s => (s, true) | None => (remainder, false) end in
  if is_empty spec_str then Ret (Ok (specifier_default, allow_unused))
  else
    let spec_str := match strip_prefix ":" spec_str with Some s => s | None => spec_str end in
    r ← parse spec_str;
    Ret (map_err (fun _ => Error.OpenOutput OpenOutputError.InvalidArgument) (let! ss := r in Ok (ss, allow_unused))).

(** A negative map disables the maps of the file that it matches. *)
Definition disable_map (ss : StreamSpecifier) (file : nat) (d : Demuxer) (x : StreamMap) : outcome StreamMap :=
  if negb (bool_decide (linklabel x = None)) || negb (file_index x =? file)%nat then Ret x
  else
    m ← matches av_dict_get ss (in_fmt_ctx d) (map_stream_index x);
    Ret (if m : bool then {| disabled := true; file_index := file_index x; map_stream_index := map_stream_index x;
                             linklabel := linklabel x; copy := copy x |} else x).

(** The places that match, in order. *)
Fixpoint matching (ss : StreamSpecifier) (f : AVFormatContext (Dict := Dict)) (l : list nat) : outcome (list nat) :=
  match l with
  | [] => Ret []
  | i :: l => m ← matches av_dict_get ss f i; r ← matching ss f l; Ret (if m : bool then i :: r else r)
  end.

Definition expand_stream_map (demuxs : list Demuxer) (maps : list StreamMap) (spec : StreamMapSpec) : outcome (result (list StreamMap) Error) :=
  let '(label, is_negative) :=
    match strip_prefix "-" (spec_linklabel spec) with Some s => (s, true) | None => (spec_linklabel spec, false) end in
  if is_filter_output_linklabel label then
    let? pure := Ret (pure_linklabel label) in
    Ret (Ok (maps ++ [filter_map pure (spec_copy spec)])%list)
  else
    match strtol label with
    | None => Ret (Ok (maps ++ [filter_map label (spec_copy spec)])%list)
    | Some (file_idx, remainder) =>
      if (file_idx <? 0)%Z || (Z.of_nat (length demuxs) <=? file_idx)%Z then Ret (Err (Error.OpenOutput OpenOutputError.InvalidArgument))
      else
        let file_idx := Z.to_nat file_idx in
        let? (ss, allow_unused) := map_specifier remainder in
        d ← index demuxs file_idx;
        if is_negative : bool then maps ← mapM_out (disable_map ss file_idx d) maps; Ret (Ok maps)
        else
          found ← matching ss (in_fmt_ctx d) (seq 0 (length (dem_streams d)));
          match found with
          | [] => if allow_unused : bool then Ret (Ok maps) else Ret (Err (Error.OpenOutput (OpenOutputError.MatchesNoStreams label)))
          | _ => Ret (Ok (maps ++ map (file_map (spec_copy spec) file_idx) found)%list)
          end
    end.

(** The specifications are taken from the muxer; nothing reads them again. *)
Definition expand_stream_maps (demuxs : list Demuxer) (m : Muxer) : outcome (result Muxer Error) :=
  let? maps := try_fold (expand_stream_map demuxs) (stream_maps m) (stream_map_specs (settings m)) in
  Ret (Ok (set_stream_maps maps m)).

(** ** Binding an output *)

(** A stream that is encoded without a filter graph: the same four places. *)
Definition encode_stream (t : AVMediaType) (enc : AVCodec) (demux_idx stream_idx : nat) (m : Muxer) (d : Demuxer)
    : outcome (result (Muxer * Demuxer) Error) :=
  let? (sender, i, m) := add_enc_stream t enc (dem_node d) m in
  d ← with_stream (add_dst sender) stream_idx d;
  d ← connect_stream stream_idx d;
  let m := register_stream_source i demux_idx stream_idx true m in
  s ← get_stream stream_idx d;
  m ← rescale_duration (ds_duration s) (ds_time_base s) i m;
  Ret (Ok (m, d)).

Definition ofilter_bind_ost (mux_index : nat) (m : Muxer) (g : FilterGraph) (k : nat) (id : Z) (enc : AVCodec)
    (stream_source : option (nat * nat)) : outcome (result (Muxer * FilterGraph) Error) :=
  o ← index (fg_outputs g) k;
  let? (sender, i, m) := add_enc_stream (of_media o) enc (fg_node g) m in
  let o := set_dst sender o in
  let m := match stream_source with Some (file, stream) => register_stream_source i file stream true m | None => m end in
  let? o := configure_output_filter_opts mux_index m o id enc i in
  Ret (Ok (m, set_outputs (<[k := o]> (fg_outputs g)) g)).

Definition init_simple_filtergraph (demux_idx : nat) (d : Demuxer) (stream_idx : nat) (id : Z) (enc : AVCodec) (mux_index : nat) (m : Muxer)
    (graphs : list FilterGraph) : outcome (result (Muxer * list FilterGraph * Demuxer) Error) :=
  s ← get_stream stream_idx d;
  let desc := if bool_decide (ds_type s = AVMEDIA_TYPE_VIDEO) then "null" else "anull" in
  let? g := Ret (init_filter_graph (length graphs) desc None) in
  let? (g, d) := ifilter_bind_ist g 0 stream_idx d in
  let? (m, g) := ofilter_bind_ost mux_index m g 0 id enc (Some (demux_idx, stream_idx)) in
  Ret (Ok (m, graphs ++ [g], d)%list).

(** What the binding of one output changes. *)
Definition Bound : Type := Muxer * list FilterGraph * list Demuxer.

(** A stream of an input to the output, by way of [f]. *)
Definition on_demux (demux_idx : nat) (demuxs : list Demuxer) (f : Demuxer -> outcome (result (Muxer * list FilterGraph * Demuxer) Error))
    : outcome (result Bound Error) :=
  d ← index demuxs demux_idx;
  let? (m, graphs, d) := f d in
  Ret (Ok (m, graphs, <[demux_idx := d]> demuxs)).

Definition keep_graphs (graphs : list FilterGraph) (r : outcome (result (Muxer * Demuxer) Error))
    : outcome (result (Muxer * list FilterGraph * Demuxer) Error) :=
  let? (m, d) := r in Ret (Ok (m, graphs, d)).

(** The outputs of the graphs that a label may mean, in order: the first for which
    there is an encoder is bound. *)
Fixpoint bind_label (mux_index : nat) (label : string) (b : Bound) (l : list (nat * nat)) : outcome (result Bound Error) :=
  match l with
  | [] => Ret (Err (Error.OpenOutput OpenOutputError.InvalidArgument))
  | (j, k) :: l =>
    let '(m, graphs, demuxs) := b in
    g ← index graphs j; o ← index (fg_outputs g) k;
    if has_dst o || is_empty (of_linklabel o) || negb (of_linklabel o =? label)%string then bind_label mux_index label b l
    else
      let? choice := choose_encoder m (of_media o) in
      match choice with
      | None => bind_label mux_index label b l
      | Some (id, enc) =>
        let? (m, g) := ofilter_bind_ost mux_index m g k id enc None in
        Ret (Ok (m, <[j := g]> graphs, demuxs))
      end
  end.

(** The places of all outputs of the graphs. *)
Definition output_places (graphs : list FilterGraph) : list (nat * nat) :=
  concat (imap (fun j g => (fun k => (j, k)) <$> seq 0 (length (fg_outputs g))) graphs).

Definition map_manual (mux_index : nat) (b : Bound) (x : StreamMap) : outcome (result Bound Error) :=
  let '(m, graphs, demuxs) := b in
  if disabled x then Ret (Ok b)
  else match linklabel x with
  | Some label => bind_label mux_index label b (output_places graphs)
  | None =>
    on_demux (file_index x) demuxs (fun d =>
      s ← get_stream (map_stream_index x) d;
      let? choice := choose_encoder m (ds_type s) in
      match choice with
      | None => keep_graphs graphs (copy_stream (file_index x) (map_stream_index x) m d)
      | Some (id, enc) =>
        if copy x then keep_graphs graphs (copy_stream (file_index x) (map_stream_index x) m d)
        else if bool_decide (ds_type s = AVMEDIA_TYPE_VIDEO) || bool_decide (ds_type s = AVMEDIA_TYPE_AUDIO) then
          init_simple_filtergraph (file_index x) d (map_stream_index x) id enc mux_index m graphs
        else keep_graphs graphs (encode_stream (ds_type s) enc (file_index x) (map_stream_index x) m d)
      end)
  end.

(** *** Without stream maps *)

Definition bind_unlabeled (mux_index : nat) (s : Bound * Z) (jk : nat * nat) : outcome (result (Bound * Z) Error) :=
  let '((m, graphs, demuxs), auto_disable) := s in
  let '(j, k) := jk in
  g ← index graphs j; o ← index (fg_outputs g) k;
  if (negb (is_empty (of_linklabel o)) && negb (of_linklabel o =? "out")%string) || has_dst o then Ret (Ok s)
  else
    let? choice := choose_encoder m (of_media o) in
    match choice with
    | None => Ret (Ok s)
    | Some (id, enc) =>
      let? (m, g) := ofilter_bind_ost mux_index m g k id enc None in
      Ret (Ok ((m, <[j := g]> graphs, demuxs), Z.lor auto_disable (media_flag (of_media o))))
    end.

Definition output_bind_by_unlabeled_filter (mux_index : nat) (b : Bound) : outcome (result (Bound * Z) Error) :=
  let '(m, graphs, demuxs) := b in
  try_fold (bind_unlabeled mux_index) (b, 0) (output_places graphs).

Fixpoint find_type (t : AVMediaType) (p : DecoderStream -> bool) (l : list DecoderStream) (i : nat) : option nat :=
  match l with
  | [] => None
  | s :: l => if bool_decide (ds_type s = t) && p s then Some i else find_type t p l (S i)
  end.

Definition auto_disabled (auto_disable : Z) (t : AVMediaType) : bool := negb (Z.land auto_disable (media_flag t) =? 0)%Z.

(** The loop of [map_auto_stream]: [l] are the inputs that are left. *)
Fixpoint auto_stream_loop (mux_index : nat) (t : AVMediaType) (b : Bound) (l : list nat) : outcome (result Bound Error) :=
  match l with
  | [] => Ret (Ok b)
  | demux_idx :: l =>
    let '(m, graphs, demuxs) := b in
    d ← index demuxs demux_idx;
    match find_type t (fun _ => true) (dem_streams d) 0 with
    | None => auto_stream_loop mux_index t b l
    | Some stream_idx =>
      let? choice := choose_encoder m t in
      match choice with
      | Some (id, enc) =>
        on_demux demux_idx demuxs (fun d =>
          if bool_decide (t = AVMEDIA_TYPE_VIDEO) || bool_decide (t = AVMEDIA_TYPE_AUDIO)
          then init_simple_filtergraph demux_idx d stream_idx id enc mux_index m graphs
          else keep_graphs graphs (encode_stream t enc demux_idx stream_idx m d))
      | None =>
        let? b := on_demux demux_idx demuxs (fun d => keep_graphs graphs (copy_stream demux_idx stream_idx m d)) in
        auto_stream_loop mux_index t b l
      end
    end
  end.

Definition map_auto_stream (mux_index : nat) (t : AVMediaType) (auto_disable : Z) (b : Bound) : outcome (result Bound Error) :=
  let '(m, _, demuxs) := b in
  if auto_disabled auto_disable t then Ret (Ok b)
  else if bool_decide (t ∈ [AVMEDIA_TYPE_VIDEO; AVMEDIA_TYPE_AUDIO; AVMEDIA_TYPE_DATA])
          && (av_guess_codec (oformat (settings m)) (ctx_url (settings m)) t =? AV_CODEC_ID_NONE)%Z then Ret (Ok b)
  else auto_stream_loop mux_index t b (seq 0 (length demuxs)).

(** The properties of a subtitle codec that its descriptor has. *)
Definition subtitle_props (desc : option Z) : Z :=
  match desc with Some props => Z.land props (Z.lor AV_CODEC_PROP_TEXT_SUB AV_CODEC_PROP_BITMAP_SUB) | None => 0 end.

Definition subtitle_fits (input_desc output_desc : option Z) : bool :=
  negb (Z.land (subtitle_props input_desc) (subtitle_props output_desc) =? 0)%Z
  || match input_desc, output_desc with Some i, Some o => (i =? 0)%Z || (o =? 0)%Z | _, _ => false end.

(** The first input with a stream for [p]: the code's loops break after it. *)
Fixpoint first_with (t : AVMediaType) (p : DecoderStream -> bool) (l : list Demuxer) (i : nat) : option (nat * nat) :=
  match l with
  | [] => None
  | d :: l => match find_type t p (dem_streams d) 0 with Some s => Some (i, s) | None => first_with t p l (S i) end
  end.

(** An encoder for a stream without a graph, which there must be. *)
Definition auto_encode (t : AVMediaType) (demux_idx stream_idx : nat) (b : Bound) : outcome (result Bound Error) :=
  let '(m, graphs, demuxs) := b in
  let? choice := choose_encoder m t in
  match choice with
  | Some (_, enc) => on_demux demux_idx demuxs (fun d => keep_graphs graphs (encode_stream t enc demux_idx stream_idx m d))
  | None => Ret (Err (open_output_error AVERROR_ENCODER_NOT_FOUND))
  end.

Definition map_auto_subtitle (auto_disable : Z) (b : Bound) : outcome (result Bound Error) :=
  let '(m, graphs, demuxs) := b in
  if auto_disabled auto_disable AVMEDIA_TYPE_SUBTITLE then Ret (Ok b)
  else match avcodec_find_encoder (subtitle_codec (oformat (settings m))) with
  | None => Ret (Ok b)
  | Some output_codec =>
    match first_with AVMEDIA_TYPE_SUBTITLE (fun _ => true) demuxs 0 with
    | None => Ret (Ok b)
    | Some (demux_idx, stream_idx) =>
      d ← index demuxs demux_idx;
      s ← get_stream stream_idx d;
      if subtitle_fits (avcodec_descriptor_get (ds_codec_id s)) (avcodec_descriptor_get (enc_id output_codec))
      then auto_encode AVMEDIA_TYPE_SUBTITLE demux_idx stream_idx b
      else Ret (Ok b)
    end
  end.

Definition map_auto_data (auto_disable : Z) (b : Bound) : outcome (result Bound Error) :=
  let '(m, graphs, demuxs) := b in
  if auto_disabled auto_disable AVMEDIA_TYPE_DATA then Ret (Ok b)
  else
    let id := av_guess_codec (oformat (settings m)) (ctx_url (settings m)) AVMEDIA_TYPE_DATA in
    if (id =? AV_CODEC_ID_NONE)%Z then Ret (Ok b)
    else match first_with AVMEDIA_TYPE_DATA (fun s => ds_codec_id s =? id)%Z demuxs 0 with
         | None => Ret (Ok b)
         | Some (demux_idx, stream_idx) => auto_encode AVMEDIA_TYPE_DATA demux_idx stream_idx b
         end.

Definition map_auto_streams (mux_index : nat) (auto_disable : Z) (b : Bound) : outcome (result Bound Error) :=
  let? b := map_auto_stream mux_index AVMEDIA_TYPE_VIDEO auto_disable b in
  let? b := map_auto_stream mux_index AVMEDIA_TYPE_AUDIO auto_disable b in
  let? b := map_auto_subtitle auto_disable b in
  map_auto_data auto_disable b.

(** ** All outputs *)

Definition output_bind (mux_index : nat) (b : Bound) : outcome (result Bound Error) :=
  let '(m, _, _) := b in
  match stream_maps m with
  | [] =>
    let? (b, auto_disable) := output_bind_by_unlabeled_filter mux_index b in
    map_auto_streams mux_index auto_disable b
  | maps => try_fold (map_manual mux_index) b maps
  end.

Definition bind_mux (s : list Muxer * list FilterGraph * list Demuxer) (i : nat)
    : outcome (result (list Muxer * list FilterGraph * list Demuxer) Error) :=
  let '(muxs, graphs, demuxs) := s in
  m ← index muxs i;
  let? (m, graphs, demuxs) := output_bind i (m, graphs, demuxs) in
  Ret (Ok (<[i := m]> muxs, graphs, demuxs)).

Definition expand_all (demuxs : list Demuxer) (muxs : list Muxer) : outcome (result (list Muxer) Error) :=
  try_fold (fun done m => let? m := expand_stream_maps demuxs m in Ret (Ok (done ++ [m])%list)) [] muxs.

Definition outputs_bind (muxs : list Muxer) (graphs : list FilterGraph) (demuxs : list Demuxer)
    : outcome (result (list Muxer * list FilterGraph * list Demuxer) Error) :=
  let? muxs := expand_all demuxs muxs in
  try_fold bind_mux (muxs, graphs, demuxs) (seq 0 (length muxs)).

(** ** Checks and corrections *)

(** The urls of the inputs and outputs; [None] for those with callbacks. *)
Definition check_duplicate_inputs_outputs (inputs outputs : list (option string)) : result unit Error :=
  match omap (fun o => match o with
                       | Some u => if bool_decide (Some u ∈ inputs) then Some u else None
                       | None => None
                       end) outputs with
  | u :: _ => Err (Error.FileSameAsInput u)
  | [] => Ok tt
  end.

Definition AV_TIME_BASE_Q : AVRational := {| num := 1; den := 1000000 |}.

Definition i64_max : Z := 2 ^ 63 - 1.

(** The earliest start of the streams that are not discarded. *)
Definition new_start_time (l : list (bool * Z * AVRational)) : Z :=
  foldl (fun acc '(discarded, start, tb) =>
    if discarded || (start =? AV_NOPTS_VALUE)%Z then acc else Z.min acc (av_rescale_q start tb AV_TIME_BASE_Q)) i64_max l.

Definition START_AT_ZERO : bool := false.

Definition correct_input_start_time (copy_ts : bool) (d : Demuxer) : outcome Demuxer :=
  let t := in_times d in
  let start := fmt_start_time t in
  if (start =? AV_NOPTS_VALUE)%Z || negb (fmt_ts_discont t) then Ret (set_start_times start (ts_offset d) d)
  else
    let new_start := new_start_time (fmt_streams t) in
    diff ← i64_sub new_start start;
    if (diff =? 0)%Z then Ret (set_start_times start (ts_offset d) d)
    else if copy_ts && START_AT_ZERO then off ← i64_sub 0 new_start; Ret (set_start_times new_start off d)
    else if negb copy_ts then
      abs_start_seek ← i64_add start (default 0 (dem_start_time_us d));
      off ← i64_sub 0 (if (new_start <? abs_start_seek)%Z then abs_start_seek else new_start);
      Ret (set_start_times new_start off d)
    else Ret (set_start_times new_start 0 d).

Fixpoint check_output_streams (muxs : list Muxer) : result unit Error :=
  match muxs with
  | [] => Ok tt
  | m :: muxs =>
    if negb (has_src m) && (Z.land (format_flags (oformat (settings m))) AVFMT_NOSTREAMS =? 0)%Z then Err (Error.OpenOutput OpenOutputError.NotContainStream)
    else check_output_streams muxs
  end.

(** The first output of a graph that leads nowhere. *)
Fixpoint unconnected (l : list OutputFilter) (i : nat) : option (string * nat * string) :=
  match l with
  | [] => None
  | o :: l =>
    if has_dst o then unconnected l (S i)
    else Some (of_name o, i, if is_empty (of_linklabel o) then "unlabeled" else of_linklabel o)
  end.

Fixpoint check_fg_bindings (graphs : list FilterGraph) : result unit Error :=
  match graphs with
  | [] => Ok tt
  | g :: graphs =>
    match unconnected (fg_outputs g) 0 with
    | Some (name, i, label) => Err (Error.FilterGraphParse (FilterGraphParseError.OutputUnconnected name (Z.of_nat i) label))
    | None => check_fg_bindings graphs
    end
  end.

(** [check_pipeline]: every pipeline has a stream of its type. *)
Fixpoint check_pipeline (pipelines : list FramePipeline) (streams : list (nat * AVMediaType)) (tag tag_cap : string) : result unit Error :=
  match pipelines with
  | [] => Ok tt
  | p :: pipelines =>
    match pipeline_stream p with
    | Some i =>
      if existsb (fun '(j, t) => (j =? i)%nat && bool_decide (t = pipeline_type p)) streams then check_pipeline pipelines streams tag tag_cap
      else Err (Error.FrameFilterStreamTypeNoMatched tag_cap (Z.of_nat i) (media_debug (pipeline_type p)))
    | None =>
      if existsb (fun '(_, t) => bool_decide (t = pipeline_type p)) streams then check_pipeline pipelines streams tag tag_cap
      else Err (Error.FrameFilterTypeNoMatched tag (media_debug (pipeline_type p)))
    end
  end.

Fixpoint check_muxs (muxs : list Muxer) : result unit Error :=
  match muxs with
  | [] => Ok tt
  | m :: muxs =>
    let! _ := check_pipeline (default [] (mux_frame_pipelines (settings m))) ((fun s => (es_index s, es_type s)) <$> enc_streams m) "output" "Output" in
    check_muxs muxs
  end.

Fixpoint check_demuxs (demuxs : list Demuxer) : result unit Error :=
  match demuxs with
  | [] => Ok tt
  | d :: demuxs =>
    let! _ := check_pipeline (default [] (dem_frame_pipelines d)) ((fun s => (ds_index s, ds_type s)) <$> dem_streams d) "input" "Input" in
    check_demuxs demuxs
  end.

Definition check_frame_filter_pipeline (muxs : list Muxer) (demuxs : list Demuxer) : result unit Error :=
  let! _ := check_muxs muxs in check_demuxs demuxs.

(** ** The context *)

Record FfmpegContext := {
  independent_readrate : bool;
  ctx_demuxs : list Demuxer;
  ctx_filter_graphs : list FilterGraph;
  ctx_muxs : list Muxer
}.

(** [new_with_options]: [open_inputs] and [open_outputs] are what
    [open_input_files] and [open_output_files] return for the inputs and outputs. *)
Definition new_with_options (independent : bool) (input_urls output_urls : list (option string)) (filter_complexs : list FilterComplex)
    (open_inputs : result (list Demuxer) Error) (open_outputs : result (list Muxer) Error) (copy_ts : bool)
    : outcome (result FfmpegContext Error) :=
  let? _ := Ret (check_duplicate_inputs_outputs input_urls output_urls) in
  let? demuxs := Ret open_inputs in
  let independent := if (length demuxs <=? 1)%nat then false else independent in
  let? (graphs, demuxs) :=
    match filter_complexs with
    | [] => Ret (Ok ([], demuxs))
    | _ => let? graphs := Ret (init_filter_graphs 0 filter_complexs) in fg_bind_inputs graphs demuxs
    end in
  let? muxs := Ret open_outputs in
  let? (muxs, graphs, demuxs) := outputs_bind muxs graphs demuxs in
  demuxs ← mapM_out (correct_input_start_time copy_ts) demuxs;
  let? _ := Ret (check_output_streams muxs) in
  let? _ := Ret (check_fg_bindings graphs) in
  let? _ := Ret (check_frame_filter_pipeline muxs demuxs) in
  Ret (Ok {| independent_readrate := independent; ctx_demuxs := demuxs; ctx_filter_graphs := graphs; ctx_muxs := muxs |}).

End Binding.
