(* ===== verification/BindRoutes.v ===== *)
(** * Where the frames and packets of a bound context go: every operation of the
    binding adds as many routes as streams, and each route leads to its own stream. *)

From stdpp Require Import base list option strings.
From Stdlib Require Import ZArith Lia Ascii.
From S2P Require Import Choke.
From S2P Require Import Prelude RustInt RustStr Errors StreamSpec Muxer Binding.

Local Open Scope Z_scope.
Local Open Scope rust_scope.

Lemma try_bind_Ok {A B E} (m : outcome (result A E)) (k : A -> outcome (result B E)) b :
  try_bind m k = Ret (Ok b) <-> exists a, m = Ret (Ok a) /\ k a = Ret (Ok b).
Proof. destruct m as [[a|e]| |]; cbn; naive_solver. Qed.

(** Splits a [let?] or [←] that returned. *)
Ltac step H x Hx :=
  first [apply try_bind_Ok in H | apply bind_Ret in H]; destruct H as (x & Hx & H).

(** An invariant of [try_fold] along its elements. *)
Lemma try_fold_inv {A S} (P : list A -> S -> Prop) (f : S -> A -> outcome (result S Error)) l s s' :
  P [] s ->
  (forall done x rest s1 s2, l = done ++ x :: rest -> P done s1 -> f s1 x = Ret (Ok s2) -> P (done ++ [x]) s2) ->
  try_fold f s l = Ret (Ok s') -> P l s'.
Proof.
  intros Hinit Hstep.
  assert (forall done rest s1, l = done ++ rest -> P done s1 -> try_fold f s1 rest = Ret (Ok s') -> P l s') as H.
  { intros done rest. revert done. induction rest as [|x rest IH]; intros done s1 -> HP; cbn [try_fold].
    - intros [= ->]. by rewrite app_nil_r.
    - intros H. step H s2 Hf. apply (IH (done ++ [x]) s2); [by rewrite <-app_assoc| |done].
      by apply (Hstep done x rest s1 s2). }
  by apply (H [] l).
Qed.

Lemma insert_concat {A B} (f : A -> list B) (l : list A) i x x' new :
  l !! i = Some x -> f x' ≡ₚ f x ++ new -> concat (f <$> <[i := x']> l) ≡ₚ concat (f <$> l) ++ new.
Proof.
  intros Hi Hf. rewrite insert_take_drop by (by eapply lookup_lt_Some).
  rewrite <-(take_drop_middle l i x Hi) at 3. rewrite !fmap_app, !fmap_cons, !concat_app. cbn [concat].
  rewrite Hf. solve_Permutation.
Qed.

Section Routes.
  Context `{Lib : Av} `{Prof : Profile}.

Abbreviation Demuxer := (@Demuxer Lib).

(** ** Routes: the output streams that something is sent to, as the number of the
    output's context and the place of the stream. *)

Definition frame_route (d : FrameDst) : list (nat * nat) := match d with ToEncoder c k => [(c, k)] | ToGraph _ => [] end.

Definition output_route (o : OutputFilter) : list (nat * nat) := match dst o with Some d => frame_route d | None => [] end.

Definition graph_routes (g : FilterGraph) : list (nat * nat) := concat (output_route <$> fg_outputs g).

Definition decoder_routes (s : DecoderStream) : list (nat * nat) := concat ((fun x => frame_route (fst x)) <$> ds_dsts s).

Definition packet_route (x : PacketDst * nat * option nat) : list (nat * nat) :=
  match x with (ToMuxer c, _, Some k) => [(c, k)] | _ => [] end.

Definition demuxer_routes (d : Demuxer) : list (nat * nat) :=
  concat (packet_route <$> dem_dsts d) ++ concat (decoder_routes <$> dem_streams d).

Definition routes (graphs : list FilterGraph) (demuxs : list Demuxer) : list (nat * nat) :=
  concat (graph_routes <$> graphs) ++ concat (demuxer_routes <$> demuxs).

(** The streams of an output, from the [a]th. *)
Definition addresses (m : Muxer) (a n : nat) : list (nat * nat) := (fun k => (out_fmt_ctx (settings m), k)) <$> seq a n.

(** What holds of every muxer: as many nodes, streams and encoded or copied streams
    as it counts, encoders at different places, and a queue when there is a stream. *)
Record mux_ok (m : Muxer) : Prop := {
  ok_nodes : length (mux_stream_nodes m) = nb_streams m;
  ok_out : length (out_streams m) = nb_streams m;
  ok_count : (length (enc_streams m) + nb_streams_ready m)%nat = nb_streams m;
  ok_places : NoDup (es_index <$> enc_streams m);
  ok_bound : Forall (fun e => (es_index e < nb_streams m)%nat) (enc_streams m);
  ok_queue : queue m = negb (nb_streams m =? 0)%nat;
  ok_sources : (length (stream_sources m) <= nb_streams m)%nat
}.

(** From [m] to [m'], [n] streams were added, and the routes to them: [R] before,
    [R'] after. *)
Definition adds (n : nat) (m m' : Muxer) (R R' : list (nat * nat)) : Prop :=
  settings m' = settings m /\ stream_maps m' = stream_maps m /\ nb_streams m' = (nb_streams m + n)%nat /\
  R' ≡ₚ R ++ addresses m (nb_streams m) n /\ (mux_ok m -> mux_ok m').

Lemma adds_refl m R : adds 0 m m R R.
Proof. split_and!; try done; by rewrite app_nil_r. Qed.

Lemma adds_trans n1 n2 m1 m2 m3 R1 R2 R3 :
  adds n1 m1 m2 R1 R2 -> adds n2 m2 m3 R2 R3 -> adds (n1 + n2) m1 m3 R1 R3.
Proof.
  intros (Hs & Hm & Hn & HR & Hok) (Hs' & Hm' & Hn' & HR' & Hok').
  split_and!; [congruence|congruence|lia| |auto]. rewrite HR', HR, <-app_assoc. f_equiv.
  unfold addresses. rewrite Hs, Hn, seq_app, fmap_app. done.
Qed.

Lemma adds_perm n m m' R R1 R' R1' : R1 ≡ₚ R -> R1' ≡ₚ R' -> adds n m m' R R' -> adds n m m' R1 R1'.
Proof. intros H1 H2 (Hs & Hm & Hn & HR & Hok). split_and!; try done. by rewrite H1, H2. Qed.

Lemma adds_frame n m m' R R' X : adds n m m' R R' -> adds n m m' (X ++ R) (X ++ R').
Proof. intros (Hs & Hm & Hn & HR & Hok). split_and!; try done. by rewrite HR, app_assoc. Qed.

Lemma adds_frame_r n m m' R R' X : adds n m m' R R' -> adds n m m' (R ++ X) (R' ++ X).
Proof. intros H. eapply adds_perm; [apply Permutation_app_comm|apply Permutation_app_comm|by apply adds_frame]. Qed.

(** The same routes, moved into place. *)
Lemma adds_new n m m' R R' : adds n m m' [] R' -> adds n m m' R (R ++ R').
Proof. intros H. apply (adds_frame _ _ _ _ _ R) in H. by rewrite app_nil_r in H. Qed.

(** ** Muxers *)

Lemma length_register i f s e r : length (register i f s e r) = Nat.max (length r) (S i).
Proof.
  unfold register. rewrite length_insert. destruct (length r <=? i)%nat eqn:E.
  - apply Nat.leb_le in E. rewrite length_app, length_replicate. lia.
  - apply Nat.leb_gt in E. lia.
Qed.

Lemma register_adds i f s e m R : (i < nb_streams m)%nat -> adds 0 m (register_stream_source i f s e m) R R.
Proof.
  intros Hi. split_and!; cbn [register_stream_source settings stream_maps nb_streams]; try done; [by rewrite app_nil_r|].
  intros []. split; cbn [register_stream_source mux_stream_nodes out_streams enc_streams nb_streams nb_streams_ready queue stream_sources]; try done.
  rewrite length_register. lia.
Qed.

Lemma set_out_streams_adds l m R : length l = length (out_streams m) -> adds 0 m (set_out_streams l m) R R.
Proof.
  intros Hl. split_and!; cbn [set_out_streams settings stream_maps nb_streams]; try done; [by rewrite app_nil_r|].
  intros []. split; cbn [set_out_streams mux_stream_nodes out_streams enc_streams nb_streams nb_streams_ready queue stream_sources]; try done. lia.
Qed.

Lemma rescale_adds du tb i m m' R : rescale_duration du tb i m = Ret m' -> adds 0 m m' R R.
Proof.
  unfold rescale_duration. intros H. step H st Hst. apply Ret_inj in H as <-. apply set_out_streams_adds. by rewrite length_insert.
Qed.

(** A new stream, before it is counted as an encoder's or a copy. *)
Lemma new_stream_spec src m i m' :
  new_stream src m = Ret (Ok (i, m')) ->
  i = nb_streams m /\ settings m' = settings m /\ stream_maps m' = stream_maps m /\ nb_streams m' = S (nb_streams m) /\
  enc_streams m' = enc_streams m /\ nb_streams_ready m' = nb_streams_ready m /\ stream_sources m' = stream_sources m /\
  queue m' = true /\ length (out_streams m') = S (length (out_streams m)) /\
  length (mux_stream_nodes m') = S (length (mux_stream_nodes m)).
Proof.
  unfold new_stream. cbv zeta. intros H. step H nodes Hn. destruct (avformat_new_stream _ _) as [st|]; [|done].
  apply Ret_inj, Ok_inj in H as [= <- <-]. cbn [settings stream_maps nb_streams enc_streams nb_streams_ready stream_sources queue out_streams mux_stream_nodes].
  unfold vec_insert in Hn. destruct (_ <=? _)%nat eqn:E; [|done]. apply Ret_inj in Hn as <-. apply Nat.leb_le in E.
  split_and!; try done; rewrite ?length_app, ?length_take; cbn [length]; rewrite ?length_drop; lia.
Qed.

Lemma addresses_one m : addresses m (nb_streams m) 1 = [(out_fmt_ctx (settings m), nb_streams m)].
Proof. done. Qed.

Lemma add_enc_stream_adds t enc src m dest i m' :
  add_enc_stream t enc src m = Ret (Ok (dest, i, m')) ->
  dest = ToEncoder (out_fmt_ctx (settings m)) i /\ i = nb_streams m /\ adds 1 m m' [] (frame_route dest).
Proof.
  unfold add_enc_stream. intros H. step H x Hx. destruct x as [j m1].
  apply new_stream_spec in Hx as (-> & Hs & Hmaps & Hnb & He & Hr & Hsrc & Hq & Hout & Hnodes).
  apply Ret_inj, Ok_inj in H as [= <- <- <-]. rewrite Hs. split; [done|]. split; [done|].
  split_and!; cbn [push_enc settings stream_maps nb_streams]; try done; [lia|].
  intros []. split; cbn [push_enc mux_stream_nodes out_streams enc_streams nb_streams nb_streams_ready queue stream_sources].
  - lia.
  - lia.
  - rewrite length_app, He. cbn [length]. lia.
  - rewrite fmap_app, He. apply NoDup_app. split; [done|]. split; [|apply NoDup_singleton].
    intros k Hk [->|[]%elem_of_nil]%elem_of_cons. cbn in Hk. apply list_elem_of_fmap in Hk as (e & Hke & Hin).
    rewrite Forall_forall in ok_bound0. specialize (ok_bound0 e Hin). lia.
  - apply Forall_app. rewrite He, Hnb. split; [|constructor; [cbn; lia|done]].
    eapply Forall_impl; [exact ok_bound0|]. cbn. lia.
  - by rewrite Hq, Hnb.
  - rewrite Hsrc, Hnb. lia.
Qed.

Lemma stream_ready_counts m m0 R R' :
  settings m = settings m0 -> stream_maps m = stream_maps m0 -> nb_streams m = S (nb_streams m0) ->
  R' ≡ₚ R ++ addresses m0 (nb_streams m0) 1 ->
  (mux_ok m0 -> length (mux_stream_nodes m) = nb_streams m /\ length (out_streams m) = nb_streams m /\ enc_streams m = enc_streams m0 /\
     nb_streams_ready m = nb_streams_ready m0 /\ queue m = true /\ (length (stream_sources m) <= nb_streams m)%nat) ->
  adds 1 m0 (stream_ready m) R R'.
Proof.
  intros Hs Hmaps Hnb HR Hok. split_and!; cbn [stream_ready settings stream_maps nb_streams]; try done; [lia|].
  intros Hok0. destruct (Hok Hok0) as (Hn & Ho & He & Hr & Hq & Hsrc). destruct Hok0.
  split; cbn [stream_ready mux_stream_nodes out_streams enc_streams nb_streams nb_streams_ready queue stream_sources]; try done.
  - rewrite He, Hr. lia.
  - by rewrite He.
  - rewrite He, Hnb. eapply Forall_impl; [exact ok_bound0|]. cbn. lia.
  - by rewrite Hq, Hnb.
Qed.

(** ** Inputs *)

Lemma with_stream_routes f i d d' new :
  with_stream f i d = Ret d' -> (forall s, decoder_routes (f s) ≡ₚ decoder_routes s ++ new) ->
  demuxer_routes d' ≡ₚ demuxer_routes d ++ new.
Proof.
  unfold with_stream, get_stream. intros H Hf. step H s Hs. apply index_Ret in Hs. apply Ret_inj in H as <-.
  unfold demuxer_routes. cbn [set_streams dem_streams dem_dsts]. by rewrite (insert_concat _ _ _ _ _ _ Hs (Hf s)), app_assoc.
Qed.

Lemma with_stream_same f i d d' :
  with_stream f i d = Ret d' -> (forall s, decoder_routes (f s) = decoder_routes s) -> demuxer_routes d' ≡ₚ demuxer_routes d.
Proof.
  intros H Hf. rewrite <-(app_nil_r (demuxer_routes d)). eapply with_stream_routes; [exact H|]. intros s. by rewrite Hf, app_nil_r.
Qed.

Lemma add_fg_dst_routes dest i s : decoder_routes (add_fg_dst dest i s) ≡ₚ decoder_routes s ++ frame_route dest.
Proof. unfold decoder_routes. cbn [add_fg_dst ds_dsts]. rewrite fmap_app, concat_app. cbn. by rewrite app_nil_r. Qed.

Lemma push_packet_routes x d : demuxer_routes (set_streams (dem_streams d) (dem_dsts d ++ [x]) d) ≡ₚ demuxer_routes d ++ packet_route x.
Proof.
  unfold demuxer_routes. cbn [set_streams dem_dsts dem_streams]. rewrite fmap_app, concat_app. cbn [fmap list_fmap concat].
  rewrite app_nil_r. solve_Permutation.
Qed.

Lemma connect_stream_routes i d d' : connect_stream i d = Ret d' -> demuxer_routes d' ≡ₚ demuxer_routes d.
Proof.
  unfold connect_stream. intros H. step H s Hs. destruct (is_used s); [by apply Ret_inj in H as <-|].
  etransitivity; [by eapply with_stream_same|]. by rewrite push_packet_routes, app_nil_r.
Qed.

Lemma copy_stream_adds di si m d m' d' :
  copy_stream di si m d = Ret (Ok (m', d')) -> adds 1 m m' (demuxer_routes d) (demuxer_routes d').
Proof.
  unfold copy_stream. intros H. step H s Hs. step H x Hx. destruct x as [i m1]. cbv zeta in H.
  apply new_stream_spec in Hx as (-> & Hset & Hmaps & Hnb & He & Hr & Hsrc & Hq & Hout & Hnodes).
  step H out Ho. destruct (streamcopy_init _ _ _) as [out'|]; [|done]. step H m2 Hm2. apply Ret_inj, Ok_inj in H as [= <- <-].
  set (m1r := register_stream_source _ _ _ _ _) in *.
  assert (settings m2 = settings m /\ stream_maps m2 = stream_maps m /\ nb_streams m2 = S (nb_streams m) /\
          length (out_streams m2) = length (out_streams m1) /\ enc_streams m2 = enc_streams m1 /\
          nb_streams_ready m2 = nb_streams_ready m1 /\ queue m2 = true /\ mux_stream_nodes m2 = mux_stream_nodes m1 /\
          stream_sources m2 = stream_sources m1r) as (Hs2 & Hm2' & Hnb2 & Ho2 & He2 & Hr2 & Hq2 & Hn2 & Hsrc2).
  { unfold rescale_duration in Hm2. step Hm2 st Hst. apply Ret_inj in Hm2 as <-.
    cbn [set_out_streams settings stream_maps nb_streams out_streams enc_streams nb_streams_ready queue mux_stream_nodes stream_sources].
    rewrite !length_insert. done. }
  apply stream_ready_counts; [done|done|done| |].
  - unfold add_packet_dst. rewrite push_packet_routes. by rewrite addresses_one, <-Hset.
  - intros []. split_and!; try congruence.
    rewrite Hsrc2. unfold m1r. cbn [register_stream_source stream_sources]. rewrite length_register, Hsrc, Hnb2. lia.
Qed.

Lemma encode_stream_adds t enc di si m d m' d' :
  encode_stream t enc di si m d = Ret (Ok (m', d')) -> adds 1 m m' (demuxer_routes d) (demuxer_routes d').
Proof.
  unfold encode_stream. intros H. step H x Hx. destruct x as [[dest i] m1].
  apply add_enc_stream_adds in Hx as (-> & -> & Hadd). step H d1 Hd1. step H d2 Hd2. cbv zeta in H. step H s Hs. step H m2 Hm2.
  apply Ret_inj, Ok_inj in H as [= <- <-]. pose proof Hadd as (_ & _ & Hnb & _).
  apply (adds_trans 1 0 _ (register_stream_source (nb_streams m) di si true m1) _ _ (demuxer_routes d2)).
  - eapply (adds_trans 1 0 _ m1); [|apply register_adds; lia].
    eapply adds_perm; [reflexivity| |by apply (adds_new _ _ _ (demuxer_routes d))].
    rewrite (connect_stream_routes _ _ _ Hd2). eapply with_stream_routes; [exact Hd1|]. intros s0. apply add_fg_dst_routes.
  - by eapply rescale_adds.
Qed.

(** ** Graphs *)

Lemma ifilter_keeps_outputs g i si d g' d' :
  ifilter_bind_ist g i si d = Ret (Ok (g', d')) ->
  fg_outputs g' = fg_outputs g /\ fg_index g' = fg_index g /\ demuxer_routes d' ≡ₚ demuxer_routes d.
Proof.
  unfold ifilter_bind_ist. intros H. step H f Hf. step H par Hpar. cbv zeta in H. step H wh Hwh. step H d1 Hd1. step H st Hst.
  destruct (avcodec_alloc_context3 _); [|done]. step H fb Hfb. step H ts Hts. step H d2 Hd2. step H node Hnode. step H d3 Hd3.
  apply Ret_inj, Ok_inj in H as [= <- <-]. split; [done|]. split; [done|].
  rewrite (connect_stream_routes _ _ _ Hd3).
  etransitivity; [eapply with_stream_routes; [exact Hd2|]; intros s; apply add_fg_dst_routes|]. cbn [get_src_sender frame_route].
  rewrite app_nil_r. destruct (bool_decide _); [|by apply Ret_inj in Hd1 as <-]. by eapply with_stream_same.
Qed.

Lemma configure_keeps mi m f id enc i f' : configure_output_filter_opts mi m f id enc i = Ret (Ok f') -> dst f' = dst f.
Proof.
  unfold configure_output_filter_opts. cbv zeta. destruct (negb _); [done|]. intros H. step H o Ho. by apply Ret_inj, Ok_inj in H as <-.
Qed.

Lemma ofilter_bind_ost_adds mi m g k id enc src o m' g' :
  fg_outputs g !! k = Some o -> has_dst o = false ->
  ofilter_bind_ost mi m g k id enc src = Ret (Ok (m', g')) -> adds 1 m m' (graph_routes g) (graph_routes g').
Proof.
  intros Hk Hd. unfold ofilter_bind_ost. intros H. step H o' Ho'. apply index_Ret in Ho'. rewrite Hk in Ho'. injection Ho' as <-.
  step H x Hx. destruct x as [[dest i] m1]. apply add_enc_stream_adds in Hx as (-> & -> & Hadd). cbv zeta in H. step H o2 Ho2.
  apply Ret_inj, Ok_inj in H as [= <- <-]. apply configure_keeps in Ho2. pose proof Hadd as (_ & _ & Hnb & _).
  apply (adds_perm _ _ _ (graph_routes g) _ (graph_routes g ++ frame_route (ToEncoder (out_fmt_ctx (settings m)) (nb_streams m))));
    [reflexivity| |].
  - unfold graph_routes. cbn [set_outputs fg_outputs]. apply (insert_concat _ _ _ _ _ _ Hk).
    unfold has_dst in Hd. apply bool_decide_eq_false in Hd. unfold output_route. rewrite Ho2. cbn [set_dst dst].
    destruct (dst o); [by destruct Hd|done].
  - destruct src as [[f s]|]; [|by apply adds_new]. apply (adds_trans 1 0 _ m1 _ _ _ _ (adds_new _ _ _ _ _ Hadd)). apply register_adds. lia.
Qed.

Lemma inouts_unbound l outs : inouts_to_output_filters l = Ok outs -> Forall (fun o => dst o = None) outs.
Proof.
  revert outs. induction l as [|c l IH]; intros outs; cbn [inouts_to_output_filters]; [by intros [= <-]|].
  destruct (inout_label c); [|done]. cbn [res_bind]. destruct (describe_filter_link c); [|done]. cbn [res_bind].
  destruct (inouts_to_output_filters l) as [rest|]; [|done]. intros [= <-]. constructor; [done|by apply IH].
Qed.

Lemma unbound_routes l : Forall (fun o => dst o = None) l -> concat (output_route <$> l) = [].
Proof. induction 1 as [|o l Ho _ IH]; [done|]. cbn. unfold output_route at 1. by rewrite Ho, IH. Qed.

Lemma init_filter_graph_spec i desc hw g :
  init_filter_graph i desc hw = Ok g -> fg_index g = i /\ Forall (fun o => dst o = None) (fg_outputs g).
Proof.
  unfold init_filter_graph. destruct (contains_char _ _); [done|]. destruct (avfilter_graph_segment desc) as [[ins outs]|]; [|done].
  destruct (inouts_to_input_filters i 0 ins); [|done]. cbn [res_bind].
  destruct (inouts_to_output_filters outs) as [[|o l]|] eqn:E; [done| |done]. intros [= <-]. split; [done|]. by apply inouts_unbound in E.
Qed.

Lemma init_filter_graph_routes i desc hw g : init_filter_graph i desc hw = Ok g -> graph_routes g = [].
Proof. intros [_ H]%init_filter_graph_spec. by apply unbound_routes. Qed.

(** ** What binding an output changes *)

Lemma concat_focus {A B} (f : A -> list B) (l : list A) i x :
  l !! i = Some x -> exists rest, concat (f <$> l) ≡ₚ f x ++ rest /\ forall x', concat (f <$> <[i := x']> l) ≡ₚ f x' ++ rest.
Proof.
  intros Hi. exists (concat (f <$> take i l) ++ concat (f <$> drop (S i) l)). split.
  - rewrite <-(take_drop_middle l i x Hi) at 1. rewrite fmap_app, fmap_cons, concat_app. cbn [concat]. solve_Permutation.
  - intros x'. rewrite insert_take_drop by (by eapply lookup_lt_Some). rewrite fmap_app, fmap_cons, concat_app. cbn [concat]. solve_Permutation.
Qed.

Definition bound_routes (b : Bound) : list (nat * nat) := let '(m, graphs, demuxs) := b in routes graphs demuxs.

(** [n] streams of the output were added, and their routes. *)
Definition binds (n : nat) (b b' : Bound) : Prop :=
  adds n (b.1.1) (b'.1.1) (bound_routes b) (bound_routes b') /\ length b'.2 = length b.2.

Lemma binds_refl b : binds 0 b b.
Proof. split; [apply adds_refl|done]. Qed.

Lemma binds_trans n1 n2 b1 b2 b3 : binds n1 b1 b2 -> binds n2 b2 b3 -> binds (n1 + n2) b1 b3.
Proof. intros [H1 L1] [H2 L2]. split; [by eapply adds_trans|congruence]. Qed.

(** What one demuxer's part of it changes. *)
Definition local_adds (n : nat) (m : Muxer) (graphs : list FilterGraph) (d : Demuxer)
    (r : outcome (result (Muxer * list FilterGraph * Demuxer) Error)) : Prop :=
  forall m' graphs' d', r = Ret (Ok (m', graphs', d')) ->
  adds n m m' (concat (graph_routes <$> graphs) ++ demuxer_routes d) (concat (graph_routes <$> graphs') ++ demuxer_routes d').

Lemma on_demux_binds n i m graphs demuxs f b' :
  (forall d, local_adds n m graphs d (f d)) -> on_demux i demuxs f = Ret (Ok b') -> binds n (m, graphs, demuxs) b'.
Proof.
  intros Hf. unfold on_demux. intros H. step H d Hd. apply index_Ret in Hd. step H x Hx. destruct x as [[m' graphs'] d'].
  apply Ret_inj, Ok_inj in H as <-. specialize (Hf d _ _ _ Hx). split; [|apply length_insert].
  cbn [fst]. unfold bound_routes, routes. destruct (concat_focus demuxer_routes _ _ _ Hd) as (rest & H1 & H2).
  eapply adds_perm; [| |apply (adds_frame_r _ _ _ _ _ rest Hf)]; [rewrite H1|rewrite H2]; by rewrite app_assoc.
Qed.

Lemma keep_graphs_adds n m graphs d r :
  (forall m' d', r = Ret (Ok (m', d')) -> adds n m m' (demuxer_routes d) (demuxer_routes d')) -> local_adds n m graphs d (keep_graphs graphs r).
Proof.
  intros Hr m' graphs' d'. unfold keep_graphs. intros H. step H x Hx. destruct x as [m1 d1]. apply Ret_inj, Ok_inj in H as [= <- <- <-].
  by apply adds_frame, Hr.
Qed.

Lemma init_simple_adds di d si id enc mi m graphs : local_adds 1 m graphs d (init_simple_filtergraph di d si id enc mi m graphs).
Proof.
  intros m' graphs' d'. unfold init_simple_filtergraph. intros H. step H s Hs. cbv zeta in H. step H g Hg. step H x Hx. destruct x as [g1 d1].
  step H y Hy. destruct y as [m1 g2]. apply Ret_inj, Ok_inj in H as [= <- <- <-].
  injection Hg as Hg. apply ifilter_keeps_outputs in Hx as (Hout & _ & Hd). pose proof (init_filter_graph_routes _ _ _ _ Hg) as Hr.
  apply init_filter_graph_spec in Hg as [_ Hu]. rewrite <-Hout in Hu.
  assert (exists o, fg_outputs g1 !! 0%nat = Some o /\ has_dst o = false) as (o & Ho & Hno).
  { unfold ofilter_bind_ost in Hy. step Hy o Ho. apply index_Ret in Ho. exists o. split; [done|]. rewrite Forall_lookup in Hu.
    unfold has_dst. by rewrite (Hu _ _ Ho). }
  pose proof (ofilter_bind_ost_adds _ _ _ _ _ _ _ _ _ _ Ho Hno Hy) as Ha.
  assert (graph_routes g1 = []) as Hr1 by (unfold graph_routes; by rewrite Hout). rewrite Hr1 in Ha.
  rewrite fmap_app, concat_app. cbn [fmap list_fmap concat]. rewrite app_nil_r.
  eapply adds_perm; [reflexivity| |exact (adds_new _ _ _ (concat (graph_routes <$> graphs) ++ demuxer_routes d) _ Ha)].
  rewrite Hd. solve_Permutation.
Qed.

(** An output of a graph, bound in place. *)
Lemma bind_output_binds mi m graphs demuxs j k g o id enc src m' g' :
  graphs !! j = Some g -> fg_outputs g !! k = Some o -> has_dst o = false ->
  ofilter_bind_ost mi m g k id enc src = Ret (Ok (m', g')) -> binds 1 (m, graphs, demuxs) (m', <[j := g']> graphs, demuxs).
Proof.
  intros Hg Ho Hno H. pose proof (ofilter_bind_ost_adds _ _ _ _ _ _ _ _ _ _ Ho Hno H) as Ha. split; [|done].
  cbn [fst]. unfold bound_routes, routes. destruct (concat_focus graph_routes _ _ _ Hg) as (rest & H1 & H2).
  eapply adds_perm; [| |apply (adds_frame_r _ _ _ _ _ (rest ++ concat (demuxer_routes <$> demuxs)) Ha)]; [rewrite H1|rewrite H2]; by rewrite app_assoc.
Qed.

Lemma bind_label_binds mi label b l b' : bind_label mi label b l = Ret (Ok b') -> binds 1 b b'.
Proof.
  induction l as [|[j k] l IH]; [done|]. cbn [bind_label]. destruct b as [[m graphs] demuxs]. intros H.
  step H g Hg. apply index_Ret in Hg. step H o Ho. apply index_Ret in Ho.
  destruct (has_dst o) eqn:Ed; [by apply IH|]. cbn [orb] in H. destruct (_ || _); [by apply IH|].
  step H c Hc. destruct c as [[id enc]|]; [|by apply IH]. step H x Hx. destruct x as [m1 g1]. apply Ret_inj, Ok_inj in H as <-.
  by eapply bind_output_binds.
Qed.

Lemma copy_local di si m graphs d : local_adds 1 m graphs d (keep_graphs graphs (copy_stream di si m d)).
Proof. apply keep_graphs_adds. intros. by eapply copy_stream_adds. Qed.

Lemma encode_local t enc di si m graphs d : local_adds 1 m graphs d (keep_graphs graphs (encode_stream t enc di si m d)).
Proof. apply keep_graphs_adds. intros. by eapply encode_stream_adds. Qed.

Lemma map_manual_binds mi b x b' : map_manual mi b x = Ret (Ok b') -> binds (if disabled x then 0 else 1) b b'.
Proof.
  unfold map_manual. destruct b as [[m graphs] demuxs]. destruct (disabled x).
  { intros [= <-]. apply binds_refl. }
  destruct (linklabel x) as [label|]; [apply bind_label_binds|]. apply on_demux_binds. intros d m' graphs' d' H.
  step H s Hs. step H c Hc. destruct c as [[id enc]|]; [|by eapply copy_local].
  destruct (copy x); [by eapply copy_local|]. destruct (_ || _); [by eapply init_simple_adds|by eapply encode_local].
Qed.

Lemma bind_unlabeled_binds mi s jk s' : bind_unlabeled mi s jk = Ret (Ok s') -> exists n, binds n (fst s) (fst s').
Proof.
  unfold bind_unlabeled. destruct s as [[[m graphs] demuxs] ad], jk as [j k]. intros H.
  step H g Hg. apply index_Ret in Hg. step H o Ho. apply index_Ret in Ho. destruct (has_dst o) eqn:Ed.
  { rewrite orb_true_r in H. injection H as <-. exists 0%nat. apply binds_refl. }
  rewrite orb_false_r in H. destruct (_ && _). { injection H as <-. exists 0%nat. apply binds_refl. }
  step H c Hc. destruct c as [[id enc]|]. 2: { injection H as <-. exists 0%nat. apply binds_refl. }
  step H x Hx. destruct x as [m1 g1]. apply Ret_inj, Ok_inj in H as <-. exists 1%nat. by eapply bind_output_binds.
Qed.

Lemma auto_stream_loop_binds mi t l : forall b b', auto_stream_loop mi t b l = Ret (Ok b') -> exists n, binds n b b'.
Proof.
  induction l as [|i l IH]; intros b b'; cbn [auto_stream_loop]. { intros [= <-]. exists 0%nat. apply binds_refl. }
  destruct b as [[m graphs] demuxs]. intros H. step H d Hd. destruct (find_type _ _ _ _) as [si|]; [|by apply IH].
  step H c Hc. destruct c as [[id enc]|].
  - exists 1%nat. eapply on_demux_binds; [|exact H]. intros d1. destruct (_ || _); [apply init_simple_adds|apply encode_local].
  - step H b1 Hb1. apply (on_demux_binds 1 i m graphs) in Hb1; [|intros; apply copy_local].
    destruct (IH _ _ H) as [n Hn]. exists (1 + n)%nat. by eapply binds_trans.
Qed.

Lemma auto_encode_binds t i si b b' : auto_encode t i si b = Ret (Ok b') -> exists n, binds n b b'.
Proof.
  unfold auto_encode. destruct b as [[m graphs] demuxs]. intros H. step H c Hc. destruct c as [[id enc]|]; [|done].
  exists 1%nat. eapply on_demux_binds; [|exact H]. intros. apply encode_local.
Qed.

Lemma map_auto_stream_binds mi t ad b b' : map_auto_stream mi t ad b = Ret (Ok b') -> exists n, binds n b b'.
Proof.
  unfold map_auto_stream. destruct b as [[m graphs] demuxs]. destruct (auto_disabled _ _). { intros [= <-]. exists 0%nat. apply binds_refl. }
  destruct (_ && _). { intros [= <-]. exists 0%nat. apply binds_refl. } apply auto_stream_loop_binds.
Qed.

Lemma map_auto_subtitle_binds ad b b' : map_auto_subtitle ad b = Ret (Ok b') -> exists n, binds n b b'.
Proof.
  unfold map_auto_subtitle. destruct b as [[m graphs] demuxs]. destruct (auto_disabled _ _). { intros [= <-]. exists 0%nat. apply binds_refl. }
  destruct (avcodec_find_encoder _). 2: { intros [= <-]. exists 0%nat. apply binds_refl. }
  destruct (first_with _ _ _ _) as [[i si]|]. 2: { intros [= <-]. exists 0%nat. apply binds_refl. }
  intros H. step H d Hd. step H s Hs. destruct (subtitle_fits _ _). 2: { injection H as <-. exists 0%nat. apply binds_refl. }
  by eapply auto_encode_binds.
Qed.

Lemma map_auto_data_binds ad b b' : map_auto_data ad b = Ret (Ok b') -> exists n, binds n b b'.
Proof.
  unfold map_auto_data. destruct b as [[m graphs] demuxs]. destruct (auto_disabled _ _). { intros [= <-]. exists 0%nat. apply binds_refl. }
  cbv zeta. destruct (_ =? _). { intros [= <-]. exists 0%nat. apply binds_refl. }
  destruct (first_with _ _ _ _) as [[i si]|]. 2: { intros [= <-]. exists 0%nat. apply binds_refl. } apply auto_encode_binds.
Qed.

Lemma output_bind_binds mi b b' : output_bind mi b = Ret (Ok b') -> exists n, binds n b b'.
Proof.
  unfold output_bind. destruct b as [[m graphs] demuxs]. destruct (stream_maps m) as [|x maps].
  - intros H. step H y Hy. destruct y as [b1 ad].
    assert (exists n, binds n (m, graphs, demuxs) b1) as [n1 H1].
    { unfold output_bind_by_unlabeled_filter in Hy.
      apply (try_fold_inv (fun _ s => exists n, binds n (m, graphs, demuxs) (fst s))) in Hy; [exact Hy|exists 0%nat; apply binds_refl|].
      intros _ jk _ s1 s2 _ [n Hn] Hs. apply bind_unlabeled_binds in Hs as [n2 Hn2]. exists (n + n2)%nat. by eapply binds_trans. }
    unfold map_auto_streams in H. step H b2 H2. apply map_auto_stream_binds in H2 as [n2 H2]. step H b3 H3.
    apply map_auto_stream_binds in H3 as [n3 H3]. step H b4 H4. apply map_auto_subtitle_binds in H4 as [n4 H4].
    apply map_auto_data_binds in H as [n5 H5]. exists (n1 + (n2 + (n3 + (n4 + n5))))%nat. eauto using binds_trans.
  - intros H. apply (try_fold_inv (fun _ b => exists n, binds n (m, graphs, demuxs) b)) in H; [exact H|exists 0%nat; apply binds_refl|].
    intros _ y _ b1 b2 _ [n Hn] Hs. apply map_manual_binds in Hs. eexists. by eapply binds_trans.
Qed.

End Routes.
