(* ===== verification/BindConnect.v ===== *)
(** * What is connected stays connected: every operation of the binding only adds
    destinations, and a stream map's stream ends where it should. *)

From stdpp Require Import base list option strings sets.
From Stdlib Require Import ZArith Lia Ascii.
From S2P Require Import Choke.
From S2P Require Import Prelude RustInt RustStr Errors StreamSpec Muxer Binding BindRoutes.

Local Open Scope rust_scope.

(** Lists of which each place of the first is related to the same place of the
    second, which may be longer. *)
Definition pointwise {A} (R : A -> A -> Prop) (l l' : list A) : Prop :=
  forall i x, l !! i = Some x -> exists x', l' !! i = Some x' /\ R x x'.

Section Pointwise.
  Context {A : Type} (R : A -> A -> Prop).

Lemma pointwise_refl l : (forall x, R x x) -> pointwise R l l.
Proof. intros HR i x Hx. by exists x. Qed.

Lemma pointwise_trans l1 l2 l3 : (forall x y z, R x y -> R y z -> R x z) -> pointwise R l1 l2 -> pointwise R l2 l3 -> pointwise R l1 l3.
Proof. intros HR H1 H2 i x Hx. destruct (H1 i x Hx) as (y & Hy & Hxy). destruct (H2 i y Hy) as (z & Hz & Hyz). exists z. eauto. Qed.

Lemma pointwise_insert l i x x' : (forall x, R x x) -> l !! i = Some x -> R x x' -> pointwise R l (<[i := x']> l).
Proof.
  intros HR Hi Hx j y Hy. destruct (decide (i = j)) as [<-|Hne].
  - exists x'. rewrite Hi in Hy. injection Hy as <-. rewrite list_lookup_insert_eq by (by eapply lookup_lt_Some). done.
  - exists y. by rewrite list_lookup_insert_ne.
Qed.

Lemma pointwise_app l l2 : (forall x, R x x) -> pointwise R l (l ++ l2).
Proof. intros HR i x Hx. exists x. split; [|done]. rewrite lookup_app_l; [done|by eapply lookup_lt_Some]. Qed.

End Pointwise.

Section Connect.
  Context `{Lib : Av} `{Prof : Profile}.

Abbreviation Demuxer := (@Demuxer Lib).

(** The maps that no negative map has disabled. *)
Definition enabled (maps : list StreamMap) : list StreamMap := filter (fun x => disabled x = false) maps.

(** ** Growing *)

Definition output_grows (o o' : OutputFilter) : Prop :=
  of_linklabel o' = of_linklabel o /\ forall x, dst o = Some x -> dst o' = Some x.

Definition graph_grows (g g' : FilterGraph) : Prop := fg_index g' = fg_index g /\ pointwise output_grows (fg_outputs g) (fg_outputs g').

Definition stream_grows (s s' : DecoderStream) : Prop :=
  ds_type s' = ds_type s /\ (forall x, x ∈ ds_dsts s -> x ∈ ds_dsts s') /\ (ds_src s = true -> ds_src s' = true).

Definition demuxer_grows (d d' : Demuxer) : Prop :=
  (forall x, x ∈ dem_dsts d -> x ∈ dem_dsts d') /\ pointwise stream_grows (dem_streams d) (dem_streams d').

Definition grows (b b' : Bound) : Prop :=
  settings b'.1.1 = settings b.1.1 /\ pointwise graph_grows b.1.2 b'.1.2 /\ pointwise demuxer_grows b.2 b'.2.

Lemma output_grows_refl o : output_grows o o. Proof. done. Qed.
Lemma stream_grows_refl s : stream_grows s s. Proof. done. Qed.
Lemma graph_grows_refl g : graph_grows g g. Proof. split; [done|]. apply pointwise_refl, output_grows_refl. Qed.
Lemma demuxer_grows_refl d : demuxer_grows d d. Proof. split; [done|]. apply pointwise_refl, stream_grows_refl. Qed.
Lemma grows_refl b : grows b b.
Proof. split_and!; [done|apply pointwise_refl, graph_grows_refl|apply pointwise_refl, demuxer_grows_refl]. Qed.

Lemma output_grows_trans o1 o2 o3 : output_grows o1 o2 -> output_grows o2 o3 -> output_grows o1 o3.
Proof. intros [H1 H2] [H3 H4]. split; [congruence|auto]. Qed.
Lemma stream_grows_trans s1 s2 s3 : stream_grows s1 s2 -> stream_grows s2 s3 -> stream_grows s1 s3.
Proof. intros (H1 & H2 & H3) (H4 & H5 & H6). split_and!; [congruence|auto|auto]. Qed.
Lemma graph_grows_trans g1 g2 g3 : graph_grows g1 g2 -> graph_grows g2 g3 -> graph_grows g1 g3.
Proof. intros [H1 H2] [H3 H4]. split; [congruence|]. eapply pointwise_trans; [exact output_grows_trans|done..]. Qed.
Lemma demuxer_grows_trans d1 d2 d3 : demuxer_grows d1 d2 -> demuxer_grows d2 d3 -> demuxer_grows d1 d3.
Proof. intros [H1 H2] [H3 H4]. split; [auto|]. eapply pointwise_trans; [exact stream_grows_trans|done..]. Qed.
Lemma grows_trans b1 b2 b3 : grows b1 b2 -> grows b2 b3 -> grows b1 b3.
Proof.
  intros (H1 & H2 & H3) (H4 & H5 & H6). split_and!; [congruence| |];
    (eapply pointwise_trans; [first [exact graph_grows_trans|exact demuxer_grows_trans]|done..]).
Qed.

(** ** The operations *)

Lemma with_stream_grows f i d d' : with_stream f i d = Ret d' -> (forall s, stream_grows s (f s)) -> demuxer_grows d d'.
Proof.
  unfold with_stream, get_stream. intros H Hf. step H s Hs. apply index_Ret in Hs. apply Ret_inj in H as <-. split; [done|].
  cbn [set_streams dem_streams]. by apply (pointwise_insert _ _ _ s); [apply stream_grows_refl| |].
Qed.

Lemma add_fg_dst_grows x i s : stream_grows s (add_fg_dst x i s).
Proof. split_and!; try done. intros y Hy. cbn [add_fg_dst ds_dsts]. set_solver. Qed.

Lemma push_packet_grows x d : demuxer_grows d (set_streams (dem_streams d) (dem_dsts d ++ [x])%list d).
Proof. split; [cbn; set_solver|apply pointwise_refl, stream_grows_refl]. Qed.

Lemma connect_grows i d d' :
  connect_stream i d = Ret d' -> demuxer_grows d d' /\ exists s', dem_streams d' !! i = Some s' /\ ds_src s' = true.
Proof.
  unfold connect_stream, get_stream. intros H. step H s Hs. apply index_Ret in Hs. destruct (is_used s) eqn:E.
  - apply Ret_inj in H as <-. split; [apply demuxer_grows_refl|]. by exists s.
  - split.
    + eapply demuxer_grows_trans; [apply push_packet_grows|]. eapply with_stream_grows; [exact H|]. done.
    + unfold with_stream, get_stream in H. step H s1 Hs1. apply index_Ret in Hs1. apply Ret_inj in H as <-. cbn [set_streams dem_streams].
      eexists. split; [apply list_lookup_insert_eq; by eapply lookup_lt_Some|done].
Qed.

(** A stream of a demuxer that has a destination, and is decoded. *)
Definition decodes_to (d : Demuxer) (s : nat) (x : FrameDst * Z) : Prop :=
  exists st, dem_streams d !! s = Some st /\ x ∈ ds_dsts st /\ ds_src st = true.

Lemma decodes_grows d d' s x : demuxer_grows d d' -> decodes_to d s x -> decodes_to d' s x.
Proof.
  intros [_ H] (st & Hst & Hx & Hsrc). destruct (H _ _ Hst) as (st' & Hst' & _ & Hd & Hs'). exists st'. split_and!; auto.
Qed.

(** Adding a destination and connecting the stream. *)
Lemma add_and_connect x i s d d1 d2 :
  with_stream (add_fg_dst x i) s d = Ret d1 -> connect_stream s d1 = Ret d2 -> demuxer_grows d d2 /\ decodes_to d2 s (x, i).
Proof.
  intros H1 H2. destruct (connect_grows _ _ _ H2) as [Hg (s' & Hs' & Hsrc)]. split.
  - eapply demuxer_grows_trans; [|exact Hg]. eapply with_stream_grows; [exact H1|]. apply add_fg_dst_grows.
  - exists s'. split; [done|]. split; [|done]. unfold with_stream, get_stream in H1. step H1 s0 Hs0. apply index_Ret in Hs0. apply Ret_inj in H1 as <-.
    destruct Hg as [_ Hg]. destruct (Hg s (add_fg_dst x i s0)) as (s1 & Hs1 & _ & Hd & _).
    { cbn [set_streams dem_streams]. apply list_lookup_insert_eq. by eapply lookup_lt_Some. }
    rewrite Hs' in Hs1. injection Hs1 as ->. apply Hd. cbn [add_fg_dst ds_dsts]. set_solver.
Qed.

Lemma copy_connects di s m d m' d' :
  copy_stream di s m d = Ret (Ok (m', d')) ->
  settings m' = settings m /\ demuxer_grows d d' /\ (ToMuxer (out_fmt_ctx (settings m)), s, Some (nb_streams m)) ∈ dem_dsts d'.
Proof.
  intros H. split; [by apply copy_stream_adds in H as (? & _)|]. unfold copy_stream in H. step H st Hst. step H x Hx. destruct x as [i m1]. cbv zeta in H.
  apply new_stream_spec in Hx as (-> & Hset & _). step H out Ho. destruct (streamcopy_init _ _ _); [|done].
  step H m2 Hm2. apply Ret_inj, Ok_inj in H as [= <- <-]. unfold add_packet_dst. split; [apply push_packet_grows|].
  cbn [set_streams dem_dsts]. rewrite Hset. set_solver.
Qed.

Lemma encode_connects t enc di s m d m' d' :
  encode_stream t enc di s m d = Ret (Ok (m', d')) ->
  settings m' = settings m /\ demuxer_grows d d' /\ decodes_to d' s (ToEncoder (out_fmt_ctx (settings m)) (nb_streams m), umax 64).
Proof.
  intros H. split; [by apply encode_stream_adds in H as (? & _)|]. unfold encode_stream in H. step H x Hx. destruct x as [[dest i] m1].
  apply add_enc_stream_adds in Hx as (-> & -> & _). step H d1 Hd1. step H d2 Hd2. cbv zeta in H. step H st Hst. step H m2 Hm2.
  apply Ret_inj, Ok_inj in H as [= <- <-]. by eapply add_and_connect.
Qed.

Lemma ifilter_connects g i s d g' d' :
  ifilter_bind_ist g i s d = Ret (Ok (g', d')) -> demuxer_grows d d' /\ decodes_to d' s (ToGraph (fg_index g), Z.of_nat i).
Proof.
  unfold ifilter_bind_ist. intros H. step H f Hf. step H par Hpar. cbv zeta in H. step H wh Hwh. step H d1 Hd1. step H st Hst.
  destruct (avcodec_alloc_context3 _); [|done]. step H fb Hfb. step H ts Hts. step H d2 Hd2. step H node Hnode. step H d3 Hd3.
  apply Ret_inj, Ok_inj in H as [= <- <-]. destruct (add_and_connect _ _ _ _ _ _ Hd2 Hd3) as [H1 H2]. split; [|done].
  eapply demuxer_grows_trans; [|exact H1]. destruct (bool_decide _); [|apply Ret_inj in Hd1 as <-; apply demuxer_grows_refl].
  eapply with_stream_grows; [exact Hd1|]. done.
Qed.

Lemma ofilter_connects mi m g k id enc src o m' g' :
  fg_outputs g !! k = Some o -> has_dst o = false -> ofilter_bind_ost mi m g k id enc src = Ret (Ok (m', g')) ->
  settings m' = settings m /\ graph_grows g g' /\ exists o', fg_outputs g' !! k = Some o' /\ of_linklabel o' = of_linklabel o /\
    dst o' = Some (ToEncoder (out_fmt_ctx (settings m)) (nb_streams m)).
Proof.
  intros Hk Hd H. split; [by destruct (ofilter_bind_ost_adds _ _ _ _ _ _ _ _ _ _ Hk Hd H)|]. unfold ofilter_bind_ost in H.
  step H o1 Ho1. apply index_Ret in Ho1. rewrite Hk in Ho1. injection Ho1 as <-. step H x Hx. destruct x as [[dest i] m1].
  apply add_enc_stream_adds in Hx as (-> & -> & _). cbv zeta in H. step H o2 Ho2. apply Ret_inj, Ok_inj in H as [= <- <-].
  assert (of_linklabel o2 = of_linklabel o /\ dst o2 = Some (ToEncoder (out_fmt_ctx (settings m)) (nb_streams m))) as [Hl Hdst].
  { unfold configure_output_filter_opts in Ho2. cbv zeta in Ho2. destruct (negb _); [done|]. step Ho2 p Hp. by apply Ret_inj, Ok_inj in Ho2 as <-. }
  cbn [set_outputs fg_outputs]. split.
  - split; [done|]. cbn [set_outputs fg_outputs]. apply (pointwise_insert _ _ _ o); [apply output_grows_refl|done|]. split; [done|].
    intros x Hx. unfold has_dst in Hd. rewrite Hx in Hd. by apply bool_decide_eq_false in Hd as [].
  - exists o2. split; [|done]. apply list_lookup_insert_eq. by eapply lookup_lt_Some.
Qed.

(** ** Where a stream map leads *)

(** An output of a graph leads to stream [k] of context [ctx]. *)
Definition leads_to (o : OutputFilter) (ctx k : nat) : Prop := dst o = Some (ToEncoder ctx k).

(** The map's stream reaches the output's stream [k]: the output of a graph with the
    label, or the stream of the input - copied, encoded, or through a graph whose first
    output is encoded. *)
Definition connected (graphs : list FilterGraph) (demuxs : list Demuxer) (ctx k : nat) (x : StreamMap) : Prop :=
  match linklabel x with
  | Some label => exists j g i o, graphs !! j = Some g /\ fg_outputs g !! i = Some o /\ of_linklabel o = label /\ leads_to o ctx k
  | None => exists d, demuxs !! file_index x = Some d /\
      let s := map_stream_index x in
      ((ToMuxer ctx, s, Some k) ∈ dem_dsts d \/ decodes_to d s (ToEncoder ctx k, umax 64) \/
       exists j g o, graphs !! j = Some g /\ decodes_to d s (ToGraph (fg_index g), 0%Z) /\ fg_outputs g !! 0 = Some o /\ leads_to o ctx k)
  end.

Lemma output_grows_lookup graphs graphs' j g i o :
  pointwise graph_grows graphs graphs' -> graphs !! j = Some g -> fg_outputs g !! i = Some o ->
  exists g' o', graphs' !! j = Some g' /\ fg_index g' = fg_index g /\ fg_outputs g' !! i = Some o' /\ output_grows o o'.
Proof.
  intros H Hj Hi. destruct (H _ _ Hj) as (g' & Hg' & Hidx & Hp). destruct (Hp _ _ Hi) as (o' & Ho' & Hoo). by exists g', o'.
Qed.

Lemma connected_grows graphs demuxs graphs' demuxs' ctx k x :
  pointwise graph_grows graphs graphs' -> pointwise demuxer_grows demuxs demuxs' ->
  connected graphs demuxs ctx k x -> connected graphs' demuxs' ctx k x.
Proof.
  intros Hg Hd. unfold connected, leads_to. destruct (linklabel x) as [label|].
  - intros (j & g & i & o & Hj & Hi & Hl & Ho). destruct (output_grows_lookup _ _ _ _ _ _ Hg Hj Hi) as (g' & o' & Hj' & _ & Hi' & Hl' & Hdst).
    exists j, g', i, o'. split_and!; try done; [congruence|by apply Hdst].
  - intros (d & Hdx & H). destruct (Hd _ _ Hdx) as (d' & Hd' & Hgr). exists d'. split; [done|]. destruct H as [H|[H|H]].
    + left. destruct Hgr as [Hgr _]. by apply Hgr.
    + right; left. by eapply decodes_grows.
    + right; right. destruct H as (j & g & o & Hj & Hdec & Ho & Hdst).
      destruct (output_grows_lookup _ _ _ _ _ _ Hg Hj Ho) as (g' & o' & Hj' & Hidx & Ho' & _ & Hk). exists j, g', o'.
      rewrite Hidx. split_and!; try done; [by eapply decodes_grows|by apply Hk].
Qed.

(** What one demuxer's part of a binding does. *)
Definition local_grows (m : Muxer) (graphs : list FilterGraph) (d : Demuxer) (m' : Muxer) (graphs' : list FilterGraph) (d' : Demuxer) : Prop :=
  settings m' = settings m /\ pointwise graph_grows graphs graphs' /\ demuxer_grows d d'.

Lemma simple_connects di d s id enc mi m graphs m' graphs' d' :
  init_simple_filtergraph di d s id enc mi m graphs = Ret (Ok (m', graphs', d')) ->
  local_grows m graphs d m' graphs' d' /\
  exists j g o, graphs' !! j = Some g /\ decodes_to d' s (ToGraph (fg_index g), 0%Z) /\ fg_outputs g !! 0 = Some o /\
    leads_to o (out_fmt_ctx (settings m)) (nb_streams m).
Proof.
  unfold init_simple_filtergraph. intros H. step H st Hst. cbv zeta in H. step H g Hg. step H x Hx. destruct x as [g1 d1].
  step H y Hy. destruct y as [m1 g2]. apply Ret_inj, Ok_inj in H as [= <- <- <-]. apply Ret_inj in Hg.
  pose proof (ifilter_keeps_outputs _ _ _ _ _ _ Hx) as (Hout & Hidx & _). apply ifilter_connects in Hx as [Hgrow Hdec].
  apply init_filter_graph_spec in Hg as [Hi Hu]. rewrite <-Hout in Hu.
  assert (exists o, fg_outputs g1 !! 0%nat = Some o /\ has_dst o = false) as (o & Ho & Hno).
  { unfold ofilter_bind_ost in Hy. step Hy o Ho. apply index_Ret in Ho. exists o. split; [done|]. rewrite Forall_lookup in Hu.
    unfold has_dst. by rewrite (Hu _ _ Ho). }
  destruct (ofilter_connects _ _ _ _ _ _ _ _ _ _ Ho Hno Hy) as (Hset & [Hidx2 _] & o' & Ho' & _ & Hdst). split.
  - split_and!; [done|apply pointwise_app, graph_grows_refl|done].
  - exists (length graphs), g2, o'. split; [apply list_lookup_middle; done|]. split; [|done]. rewrite Hidx2, Hidx. exact Hdec.
Qed.

Lemma local_grows_copy m m' graphs d d' :
  settings m' = settings m -> demuxer_grows d d' -> local_grows m graphs d m' graphs d'.
Proof. intros. split_and!; try done. apply pointwise_refl, graph_grows_refl. Qed.

Lemma on_demux_grows i m graphs demuxs f b' :
  on_demux i demuxs f = Ret (Ok b') ->
  (forall d m' graphs' d', f d = Ret (Ok (m', graphs', d')) -> local_grows m graphs d m' graphs' d') -> grows (m, graphs, demuxs) b'.
Proof.
  unfold on_demux. intros H Hf. step H d Hd. apply index_Ret in Hd. step H x Hx. destruct x as [[m1 graphs1] d1].
  apply Ret_inj, Ok_inj in H as <-. destruct (Hf _ _ _ _ Hx) as (H1 & H2 & H3). split_and!; try done.
  by apply (pointwise_insert _ _ _ d); [apply demuxer_grows_refl| |].
Qed.

(** An output of a graph, bound in place. *)
Lemma bind_output_grows mi m graphs demuxs j k g o id enc src m' g' :
  graphs !! j = Some g -> fg_outputs g !! k = Some o -> has_dst o = false ->
  ofilter_bind_ost mi m g k id enc src = Ret (Ok (m', g')) -> grows (m, graphs, demuxs) (m', <[j := g']> graphs, demuxs).
Proof.
  intros Hg Ho Hno H. destruct (ofilter_connects _ _ _ _ _ _ _ _ _ _ Ho Hno H) as (Hs & Hgr & _). split_and!; [done| |].
  - by apply (pointwise_insert _ _ _ g); [apply graph_grows_refl| |].
  - apply pointwise_refl, demuxer_grows_refl.
Qed.

Lemma bind_label_connects mi label l m graphs demuxs b' :
  bind_label mi label (m, graphs, demuxs) l = Ret (Ok b') ->
  grows (m, graphs, demuxs) b' /\ exists j g i o, b'.1.2 !! j = Some g /\ fg_outputs g !! i = Some o /\ of_linklabel o = label /\
    leads_to o (out_fmt_ctx (settings m)) (nb_streams m).
Proof.
  induction l as [|[j k] l IH]; [done|]. cbn [bind_label]. intros H. step H g Hg. apply index_Ret in Hg. step H o Ho. apply index_Ret in Ho.
  destruct (has_dst o) eqn:Ed; [by apply IH|]. cbn [orb] in H. destruct (is_empty _ || _) eqn:El; [by apply IH|]. step H c Hc.
  destruct c as [[id enc]|]; [|by apply IH]. step H x Hx. destruct x as [m1 g1]. apply Ret_inj, Ok_inj in H as <-.
  split; [by eapply bind_output_grows|]. destruct (ofilter_connects _ _ _ _ _ _ _ _ _ _ Ho Ed Hx) as (_ & _ & o' & Ho' & Hl & Hdst).
  exists j, g1, k, o'. split; [apply list_lookup_insert_eq; by eapply lookup_lt_Some|]. split; [done|]. split; [|done].
  rewrite Hl. apply orb_false_elim in El as [_ El]. by apply negb_false_iff, String.eqb_eq in El.
Qed.

(** A stream map that is not disabled connects its stream to the next of the output. *)
Lemma map_manual_connects mi m graphs demuxs x b' :
  map_manual mi (m, graphs, demuxs) x = Ret (Ok b') ->
  grows (m, graphs, demuxs) b' /\
  (disabled x = false -> connected b'.1.2 b'.2 (out_fmt_ctx (settings m)) (nb_streams m) x).
Proof.
  unfold map_manual, connected. destruct (disabled x); [intros <-%Ret_inj%Ok_inj; split; [apply grows_refl|done]|].
  destruct (linklabel x) as [label|]. { intros H%bind_label_connects. naive_solver. }
  intros H. split.
  - eapply on_demux_grows; [exact H|]. intros d m' graphs' d' Hf. cbv beta in Hf. step Hf s Hs. step Hf c Hc. unfold keep_graphs in Hf.
    destruct c as [[id enc]|]; [destruct (copy x); [|destruct (_ || _)]|].
    + step Hf z Hz. destruct z as [m2 d2]. apply Ret_inj, Ok_inj in Hf as [= <- <- <-]. apply copy_connects in Hz as (? & ? & _). by apply local_grows_copy.
    + by apply simple_connects in Hf as [? _].
    + step Hf z Hz. destruct z as [m2 d2]. apply Ret_inj, Ok_inj in Hf as [= <- <- <-]. apply encode_connects in Hz as (? & ? & _). by apply local_grows_copy.
    + step Hf z Hz. destruct z as [m2 d2]. apply Ret_inj, Ok_inj in Hf as [= <- <- <-]. apply copy_connects in Hz as (? & ? & _). by apply local_grows_copy.
  - intros _. unfold on_demux in H. step H d Hd. apply index_Ret in Hd. step H y Hy. destruct y as [[m1 graphs1] d1].
    apply Ret_inj, Ok_inj in H as <-. cbn [fst snd]. exists d1. split; [apply list_lookup_insert_eq; by eapply lookup_lt_Some|].
    step Hy s Hs. step Hy c Hc. unfold keep_graphs in Hy. destruct c as [[id enc]|]; [destruct (copy x); [|destruct (_ || _)]|].
    + step Hy z Hz. destruct z as [m2 d2]. apply Ret_inj, Ok_inj in Hy as [= <- <- <-]. apply copy_connects in Hz as (_ & _ & ?). by left.
    + apply simple_connects in Hy as [_ Hy]. right; right. exact Hy.
    + step Hy z Hz. destruct z as [m2 d2]. apply Ret_inj, Ok_inj in Hy as [= <- <- <-]. apply encode_connects in Hz as (_ & _ & ?). by right; left.
    + step Hy z Hz. destruct z as [m2 d2]. apply Ret_inj, Ok_inj in Hy as [= <- <- <-]. apply copy_connects in Hz as (_ & _ & ?). by left.
Qed.

(** ** Without stream maps *)

Lemma copy_local_grows di s m graphs d m' graphs' d' :
  keep_graphs graphs (copy_stream di s m d) = Ret (Ok (m', graphs', d')) -> local_grows m graphs d m' graphs' d'.
Proof.
  unfold keep_graphs. intros H. step H z Hz. destruct z as [m2 d2]. apply Ret_inj, Ok_inj in H as [= <- <- <-].
  apply copy_connects in Hz as (? & ? & _). by apply local_grows_copy.
Qed.

Lemma encode_local_grows t enc di s m graphs d m' graphs' d' :
  keep_graphs graphs (encode_stream t enc di s m d) = Ret (Ok (m', graphs', d')) -> local_grows m graphs d m' graphs' d'.
Proof.
  unfold keep_graphs. intros H. step H z Hz. destruct z as [m2 d2]. apply Ret_inj, Ok_inj in H as [= <- <- <-].
  apply encode_connects in Hz as (? & ? & _). by apply local_grows_copy.
Qed.

Lemma bind_unlabeled_grows mi s jk s' : bind_unlabeled mi s jk = Ret (Ok s') -> grows s.1 s'.1.
Proof.
  unfold bind_unlabeled. destruct s as [[[m graphs] demuxs] ad], jk as [j k]. intros H.
  step H g Hg. apply index_Ret in Hg. step H o Ho. apply index_Ret in Ho. destruct (has_dst o) eqn:Ed.
  { rewrite orb_true_r in H. apply Ret_inj, Ok_inj in H as <-. apply grows_refl. }
  rewrite orb_false_r in H. destruct (_ && _). { apply Ret_inj, Ok_inj in H as <-. apply grows_refl. }
  step H c Hc. destruct c as [[id enc]|]. 2: { apply Ret_inj, Ok_inj in H as <-. apply grows_refl. }
  step H x Hx. destruct x as [m1 g1]. apply Ret_inj, Ok_inj in H as <-. by eapply bind_output_grows.
Qed.

Lemma auto_stream_loop_grows mi t l : forall b b', auto_stream_loop mi t b l = Ret (Ok b') -> grows b b'.
Proof.
  induction l as [|i l IH]; intros b b'; cbn [auto_stream_loop]. { intros <-%Ret_inj%Ok_inj. apply grows_refl. }
  destruct b as [[m graphs] demuxs]. intros H. step H d Hd. destruct (find_type _ _ _ _) as [si|]; [|by apply IH].
  step H c Hc. destruct c as [[id enc]|].
  - eapply on_demux_grows; [exact H|]. intros d1 m1 graphs1 d1' Hf. cbv beta in Hf.
    destruct (_ || _); [by apply simple_connects in Hf as [? _]|by eapply encode_local_grows].
  - step H b1 Hb1. eapply grows_trans; [|by eapply IH]. eapply on_demux_grows; [exact Hb1|].
    intros d1 m1 graphs1 d1' Hf. cbv beta in Hf. exact (copy_local_grows _ _ _ _ _ _ _ _ Hf).
Qed.

Lemma auto_encode_grows t i si b b' : auto_encode t i si b = Ret (Ok b') -> grows b b'.
Proof.
  unfold auto_encode. destruct b as [[m graphs] demuxs]. intros H. step H c Hc. destruct c as [[id enc]|]; [|done].
  eapply on_demux_grows; [exact H|].
  intros d1 m1 graphs1 d1' Hf. cbv beta in Hf. exact (encode_local_grows _ _ _ _ _ _ _ _ _ _ Hf).
Qed.

(** A branch that leaves everything as it was. *)
Ltac unchanged H := first [apply Ret_inj, Ok_inj in H as <-; apply grows_refl].

Lemma map_auto_streams_grows mi ad b b' : map_auto_streams mi ad b = Ret (Ok b') -> grows b b'.
Proof.
  assert (forall t b b', map_auto_stream mi t ad b = Ret (Ok b') -> grows b b') as Hs.
  { intros t [[m graphs] demuxs] b1. unfold map_auto_stream. intros H. destruct (auto_disabled _ _); [unchanged H|].
    destruct (_ && _); [unchanged H|]. by apply auto_stream_loop_grows in H. }
  unfold map_auto_streams. intros H. step H b1 H1. apply Hs in H1. step H b2 H2. apply Hs in H2. step H b3 H3.
  eapply grows_trans; [exact H1|]. eapply grows_trans; [exact H2|]. eapply (grows_trans _ b3).
  - unfold map_auto_subtitle in H3. destruct b2 as [[m graphs] demuxs]. destruct (auto_disabled _ _); [unchanged H3|].
    destruct (avcodec_find_encoder _); [|unchanged H3]. destruct (first_with _ _ _ _) as [[i si]|]; [|unchanged H3].
    step H3 d Hd. step H3 s Hs'. destruct (subtitle_fits _ _); [|unchanged H3]. by eapply auto_encode_grows.
  - unfold map_auto_data in H. destruct b3 as [[m graphs] demuxs]. destruct (auto_disabled _ _); [unchanged H|]. cbv zeta in H.
    destruct (_ =? _)%Z; [unchanged H|]. destruct (first_with _ _ _ _) as [[i si]|]; [|unchanged H]. by eapply auto_encode_grows.
Qed.

(** Binding an output: nothing is lost, and each of its maps leads to its stream. *)
Lemma output_bind_connects mi s maps graphs demuxs b' :
  output_bind mi (Muxer_new s maps, graphs, demuxs) = Ret (Ok b') ->
  grows (Muxer_new s maps, graphs, demuxs) b' /\
  forall k x, enabled maps !! k = Some x -> connected b'.1.2 b'.2 (out_fmt_ctx s) k x.
Proof.
  unfold output_bind. cbn [Muxer_new stream_maps]. destruct maps as [|x0 maps0].
  - intros H. split; [|done]. step H y Hy. destruct y as [b1 ad]. apply map_auto_streams_grows in H. eapply grows_trans; [|exact H].
    unfold output_bind_by_unlabeled_filter in Hy.
    apply (try_fold_inv (fun _ st => grows (Muxer_new s [], graphs, demuxs) st.1)) in Hy; [exact Hy|apply grows_refl|].
    intros _ jk _ s1 s2 _ H1 H2%bind_unlabeled_grows. by eapply grows_trans.
  - set (maps := x0 :: maps0). intros H. apply (try_fold_inv (fun done b => grows (Muxer_new s maps, graphs, demuxs) b /\
      nb_streams b.1.1 = length (enabled done) /\ forall k x, enabled done !! k = Some x -> connected b.1.2 b.2 (out_fmt_ctx s) k x)) in H.
    + by destruct H as (? & _ & ?).
    + split; [apply grows_refl|]. done.
    + intros done x rest [[m gs] ds] b2 _ (Hg & Hn & Hc) Hs. pose proof (map_manual_binds _ _ _ _ Hs) as [(_ & _ & Hnb & _) _].
      apply map_manual_connects in Hs as [Hg2 Hx]. destruct Hg as (Hset & Hg3 & Hg4). cbn [fst snd] in *. split.
      { eapply grows_trans; [|exact Hg2]. done. }
      unfold enabled in *. rewrite filter_app, filter_cons, filter_nil. destruct Hg2 as (_ & Hg5 & Hg6). cbn [fst snd] in *.
      assert (forall k y, filter (fun x => disabled x = false) done !! k = Some y -> connected b2.1.2 b2.2 (out_fmt_ctx s) k y) as Hc2.
      { intros k y Hy. eapply connected_grows; [exact Hg5|exact Hg6|by apply Hc]. }
      destruct (disabled x) eqn:Ed; (destruct (decide _) as [?|?]; [try done|try done]).
      * rewrite app_nil_r. split; [lia|done].
      * rewrite length_app. cbn [length]. split; [lia|]. intros k y [Hk|[Hk Hy]]%lookup_app_Some; [by apply Hc2|].
        apply list_lookup_singleton_Some in Hy as [Hk0 <-]. rewrite Hset in Hx. cbn [Muxer_new settings] in Hx.
        replace k with (nb_streams m) by lia. by apply Hx.
Qed.

End Connect.
