(* ===== verification/BindingSpec.v ===== *)
(** * What a bound context promises: every stream of an output has one source, mapped
    streams come in the order of their maps, and what the set-up refuses. *)

From stdpp Require Import base list option strings sets.
From Stdlib Require Import ZArith Lia Ascii.
From S2P Require Import Choke.
From S2P Require Import Prelude RustInt RustStr Errors StreamSpec Muxer Binding BindRoutes BindConnect.

Local Open Scope string_scope.
Local Open Scope Z_scope.
Local Open Scope list_scope.
Local Open Scope rust_scope.

Section Context.
  Context `{Lib : Av} `{Prof : Profile}.

Abbreviation Demuxer := (@Demuxer Lib).

(** A demuxer as [Demuxer::new] makes it: nothing is sent anywhere. *)
Definition fresh_demuxer (d : Demuxer) : Prop := dem_dsts d = [] /\ Forall (fun s => ds_dsts s = []) (dem_streams d).

Definition fresh_muxer (m : Muxer) : Prop := exists s maps, m = Muxer_new s maps.

Lemma fresh_demuxer_routes d : fresh_demuxer d -> demuxer_routes d = [].
Proof.
  intros [H1 H2]. unfold demuxer_routes. rewrite H1. cbn. induction H2 as [|s l Hs _ IH]; [done|].
  cbn. rewrite IH, app_nil_r. unfold decoder_routes. by rewrite Hs.
Qed.

Lemma concat_nil {A B} (f : A -> list B) l : Forall (fun x => f x = []) l -> concat (f <$> l) = [].
Proof. induction 1 as [|x l Hx _ IH]; [done|]. cbn. by rewrite Hx. Qed.

Lemma fresh_mux_ok m : fresh_muxer m -> mux_ok m.
Proof. intros (s & maps & ->). split; try done; constructor. Qed.

(** All streams of the outputs. *)
Definition all_addresses (muxs : list Muxer) : list (nat * nat) := concat ((fun m => addresses m 0 (nb_streams m)) <$> muxs).

Definition contexts (muxs : list Muxer) : list nat := (fun m => out_fmt_ctx (settings m)) <$> muxs.

(** ** Binding the inputs of the graphs makes no routes *)

Definition unrouted (graphs : list FilterGraph) : Prop := Forall (fun g => graph_routes g = []) graphs.

Lemma routes_nil graphs demuxs : routes graphs demuxs = [] <-> unrouted graphs /\ Forall (fun d => demuxer_routes d = []) demuxs.
Proof.
  unfold routes, unrouted. split.
  - intros [H1 H2]%app_nil. split; [clear H2; rename H1 into H; induction graphs as [|x l IH]|clear H1; rename H2 into H; induction demuxs as [|x l IH]];
      try done; cbn in H; apply app_nil in H as [Hx Hl]; constructor; auto.
  - intros [H1 H2]. by rewrite (concat_nil _ _ H1), (concat_nil _ _ H2).
Qed.

Lemma link_input_unrouted outs graphs x graphs' : link_input outs graphs x = Ret (Ok graphs') -> unrouted graphs -> unrouted graphs' /\ length graphs' = length graphs.
Proof.
  unfold link_input. destruct x as [[i label] t]. intros H Hu. destruct (is_empty label); [by injection H as <-|].
  step H found Hf. destruct found as [[j k]|]; [|by injection H as <-]. step H dest Hd. step H g Hg. apply index_Ret in Hg.
  step H o Ho. apply index_Ret in Ho. cbv zeta in H. apply Ret_inj, Ok_inj in H as <-. split; [|apply length_insert].
  unfold unrouted in *. apply Forall_insert; [done|]. rewrite Forall_lookup in Hu. specialize (Hu _ _ Hg). unfold graph_routes in *.
  cbn [set_outputs fg_outputs]. destruct (concat_focus output_route _ _ _ Ho) as (rest & H1 & H2). rewrite Hu in H1.
  symmetry in H1. apply Permutation_nil_r, app_nil in H1 as [_ ->].
  specialize (H2 (set_fg_input_index i (set_dst (get_src_sender dest) o))). apply Permutation_nil_r. by rewrite H2.
Qed.

Lemma fg_complex_unrouted g i demuxs g' demuxs' :
  fg_complex_bind_input g i demuxs = Ret (Ok (g', demuxs')) ->
  graph_routes g' = graph_routes g /\ length demuxs' = length demuxs /\
  (Forall (fun d => demuxer_routes d = []) demuxs -> Forall (fun d => demuxer_routes d = []) demuxs').
Proof.
  unfold fg_complex_bind_input. intros H. step H f Hf. step H x Hx. destruct x as [di si]. step H d Hd. apply index_Ret in Hd.
  step H y Hy. destruct y as [g1 d1]. apply Ret_inj, Ok_inj in H as [= <- <-]. apply ifilter_keeps_outputs in Hy as (Ho & _ & Hr).
  split; [unfold graph_routes; by rewrite Ho|]. split; [apply length_insert|]. intros HF. apply Forall_insert; [done|].
  rewrite Forall_lookup in HF. rewrite (HF _ _ Hd) in Hr. by apply Permutation_nil_r.
Qed.

Lemma bind_inputs_unrouted g graphs demuxs graphs' demuxs' :
  bind_inputs_of g (graphs, demuxs) = Ret (Ok (graphs', demuxs')) -> routes graphs demuxs = [] -> routes graphs' demuxs' = [].
Proof.
  intros H [Hg Hd]%routes_nil. unfold bind_inputs_of in H. step H fg Hfg. apply index_Ret in Hfg. step H x Hx. destruct x as [fg1 demuxs1].
  apply Ret_inj, Ok_inj in H as [= <- <-].
  apply (try_fold_inv (fun _ s => graph_routes (fst s) = graph_routes fg /\ Forall (fun d => demuxer_routes d = []) (snd s))) in Hx.
  - destruct Hx as [Hx1 Hx2]. cbn in Hx1, Hx2. apply routes_nil. split; [|done]. apply Forall_insert; [done|].
    rewrite Hx1. unfold unrouted in Hg. rewrite Forall_lookup in Hg. by eapply Hg.
  - done.
  - intros _ i _ [g1 d1] [g2 d2] _ [H1 H2] Hs. cbn in *. apply fg_complex_unrouted in Hs as (Hs1 & _ & Hs2). split; [congruence|auto].
Qed.

Lemma fg_bind_unrouted graphs demuxs graphs' demuxs' :
  fg_bind_inputs graphs demuxs = Ret (Ok (graphs', demuxs')) -> routes graphs demuxs = [] -> routes graphs' demuxs' = [].
Proof.
  unfold fg_bind_inputs. destruct graphs as [|g0 graphs0]; [by intros [= <- <-]|]. set (graphs := g0 :: graphs0). intros H [Hg Hd]%routes_nil.
  step H graphs1 H1. assert (unrouted graphs1) as Hg1.
  { unfold bind_fg_inputs_by_fg in H1. cbv zeta in H1. apply (try_fold_inv (fun _ gs => unrouted gs)) in H1; [done|done|].
    intros _ x _ s1 s2 _ Hs1 Hs. by eapply link_input_unrouted. }
  apply (try_fold_inv (fun _ s => routes (fst s) (snd s) = [])) in H; [done|by apply routes_nil|].
  intros _ x _ [gs1 ds1] [gs2 ds2] _ Hs1 Hs. by eapply bind_inputs_unrouted.
Qed.

Lemma init_graphs_unrouted l : forall i graphs, init_filter_graphs i l = Ok graphs -> unrouted graphs.
Proof.
  induction l as [|[desc hw] l IH]; intros i graphs; cbn [init_filter_graphs]; [intros [= <-]; constructor|].
  destruct (init_filter_graph i desc hw) as [g|] eqn:Eg; [|done]. cbn [res_bind].
  destruct (init_filter_graphs (S i) l) as [gs|] eqn:El; [|done]. intros [= <-]. constructor; [by eapply init_filter_graph_routes|by eapply IH].
Qed.

(** ** All outputs *)

(** What holds while the outputs are bound one after the other. *)
Definition routed (muxs : list Muxer) (graphs : list FilterGraph) (demuxs : list Demuxer) : Prop :=
  Forall mux_ok muxs /\ routes graphs demuxs ≡ₚ all_addresses muxs.

Lemma addresses_app m n1 n2 : addresses m 0 (n1 + n2) = addresses m 0 n1 ++ addresses m n1 n2.
Proof. unfold addresses. by rewrite seq_app, fmap_app. Qed.

Lemma bind_mux_routed muxs graphs demuxs i muxs' graphs' demuxs' :
  bind_mux (muxs, graphs, demuxs) i = Ret (Ok (muxs', graphs', demuxs')) -> routed muxs graphs demuxs ->
  routed muxs' graphs' demuxs' /\ contexts muxs' = contexts muxs.
Proof.
  unfold bind_mux. intros H [Hok Hr]. step H m Hm. apply index_Ret in Hm. step H x Hx. destruct x as [[m1 graphs1] demuxs1].
  apply Ret_inj, Ok_inj in H as [= <- <- <-]. apply output_bind_binds in Hx as (n & (Hs & _ & Hn & HR & Hok1) & _).
  cbn [fst bound_routes] in Hs, Hn, HR, Hok1. split; [split|].
  - apply Forall_insert; [done|]. apply Hok1. rewrite Forall_lookup in Hok. by eapply Hok.
  - rewrite HR, Hr. symmetry. apply (insert_concat (fun m => addresses m 0 (nb_streams m)) _ _ _ _ _ Hm).
    rewrite Hn. replace (addresses m1 0) with (addresses m 0) by (unfold addresses; by rewrite Hs). by rewrite addresses_app.
  - unfold contexts. rewrite list_fmap_insert, Hs. apply list_insert_id. by rewrite list_lookup_fmap, Hm.
Qed.

Lemma expand_all_fresh demuxs muxs muxs' :
  expand_all demuxs muxs = Ret (Ok muxs') -> Forall fresh_muxer muxs -> Forall fresh_muxer muxs' /\ contexts muxs' = contexts muxs.
Proof.
  unfold expand_all. intros H Hf.
  apply (try_fold_inv (fun done s => Forall fresh_muxer s /\ contexts s = contexts done)) in H; [done|done|].
  intros done m rest s1 s2 -> [H1 H2] Hs. step Hs m1 Hm. apply Ret_inj, Ok_inj in Hs as <-.
  unfold expand_stream_maps in Hm. step Hm maps Hmaps. apply Ret_inj, Ok_inj in Hm as <-.
  apply Forall_app in Hf as [_ Hf]. apply Forall_cons in Hf as [(st & mp & ->) _]. split.
  - apply Forall_app. split; [done|]. apply Forall_singleton. by exists st, maps.
  - unfold contexts in *. by rewrite !fmap_app, H2.
Qed.

Lemma fresh_routed muxs graphs demuxs : Forall fresh_muxer muxs -> routes graphs demuxs = [] -> routed muxs graphs demuxs.
Proof.
  intros Hf Hr. split; [eapply Forall_impl; [exact Hf|apply fresh_mux_ok]|]. rewrite Hr. unfold all_addresses.
  rewrite concat_nil; [done|]. eapply Forall_impl; [exact Hf|]. by intros m (s & maps & ->).
Qed.

Lemma outputs_bind_routed muxs graphs demuxs muxs' graphs' demuxs' :
  outputs_bind muxs graphs demuxs = Ret (Ok (muxs', graphs', demuxs')) -> Forall fresh_muxer muxs -> routes graphs demuxs = [] ->
  routed muxs' graphs' demuxs' /\ contexts muxs' = contexts muxs.
Proof.
  unfold outputs_bind. intros H Hf Hr. step H muxs1 H1. apply expand_all_fresh in H1 as [Hf1 Hc]; [|done]. rewrite <-Hc.
  apply (try_fold_inv (fun _ s => routed s.1.1 s.1.2 s.2 /\ contexts s.1.1 = contexts muxs1)) in H; [done| |].
  - split; [by apply fresh_routed|done].
  - intros _ i _ [[ms gs] ds] [[ms' gs'] ds'] _ [Hs1 Hs2] Hs. cbn [fst snd] in *. apply bind_mux_routed in Hs as [? ?]; [|done].
    split; [done|congruence].
Qed.

Lemma all_addresses_NoDup muxs : NoDup (contexts muxs) -> NoDup (all_addresses muxs).
Proof.
  unfold all_addresses, contexts. induction muxs as [|m muxs IH]; cbn; [intros; constructor|]. intros [Hm Hnd]%NoDup_cons. apply NoDup_app.
  split; [|split; [|auto]].
  - unfold addresses. apply NoDup_fmap; [by intros ? ? [= ->]|apply NoDup_seq].
  - intros [c k] [k' [[= -> ->] _]]%list_elem_of_fmap Hin. apply Hm. apply list_elem_of_In, in_concat in Hin as (l & Hl & Hin).
    apply list_elem_of_In in Hl, Hin. apply list_elem_of_fmap in Hl as (m' & -> & Hm'). apply list_elem_of_fmap in Hin as (k2 & [= Hc _] & _).
    apply list_elem_of_fmap. exists m'. by rewrite Hc.
Qed.

Lemma check_fg_bindings_Ok graphs : check_fg_bindings graphs = Ok tt -> Forall (fun g => Forall (fun o => has_dst o = true) (fg_outputs g)) graphs.
Proof.
  induction graphs as [|g graphs IH]; cbn [check_fg_bindings]; [constructor|].
  destruct (unconnected _ _) as [[[? ?] ?]|] eqn:E; [done|]. intros H. constructor; [|by apply IH]. revert E. generalize 0%nat.
  induction (fg_outputs g) as [|o l IHl]; intros i; cbn [unconnected]; [constructor|]. destruct (has_dst o) eqn:Ed; [|done]. intros E.
  constructor; [done|by eapply IHl].
Qed.

Lemma correct_keeps_routes c d d' : correct_input_start_time c d = Ret d' -> demuxer_routes d' = demuxer_routes d.
Proof.
  unfold correct_input_start_time. cbv zeta. destruct (_ || _); [by intros <-%Ret_inj|]. intros H. step H diff Hd.
  destruct (_ =? _)%Z; [by apply Ret_inj in H as <-|]. destruct (c && START_AT_ZERO). { step H off Ho. by apply Ret_inj in H as <-. }
  destruct (negb c); [|by apply Ret_inj in H as <-]. step H a Ha. step H off Ho. by apply Ret_inj in H as <-.
Qed.

Lemma correct_all_routes c demuxs : forall demuxs', mapM_out (correct_input_start_time c) demuxs = Ret demuxs' -> (demuxer_routes <$> demuxs') = (demuxer_routes <$> demuxs).
Proof.
  induction demuxs as [|d demuxs IH]; cbn [mapM_out]; intros demuxs' H; [by apply Ret_inj in H as <-|].
  step H d1 H1. step H ds1 H2. apply Ret_inj in H as <-. cbn. by rewrite (IH _ H2), (correct_keeps_routes _ _ _ H1).
Qed.

(** C17. Of a context that was set up: every stream of every output is fed by exactly one
    sender - of a filter graph, a decoder or a demuxer -, every output of every graph
    leads somewhere, and the muxers' books are in order. *)
Theorem every_stream_has_one_source (independent : bool) (input_urls output_urls : list (option string)) (fcs : list FilterComplex)
    (demuxs : list Demuxer) (muxs : list Muxer) (cts : bool) (c : FfmpegContext) :
  Forall fresh_demuxer demuxs -> Forall fresh_muxer muxs -> NoDup (contexts muxs) ->
  new_with_options independent input_urls output_urls fcs (Ok demuxs) (Ok muxs) cts = Ret (Ok c) ->
  routes (ctx_filter_graphs c) (ctx_demuxs c) ≡ₚ all_addresses (ctx_muxs c) /\
  NoDup (routes (ctx_filter_graphs c) (ctx_demuxs c)) /\
  Forall (fun g => Forall (fun o => has_dst o = true) (fg_outputs g)) (ctx_filter_graphs c) /\
  Forall mux_ok (ctx_muxs c).
Proof.
  intros Hd Hm Hnd. unfold new_with_options. intros H. step H u Hu. step H ds Hds. injection Hds as <-. cbv zeta in H.
  step H x Hx. destruct x as [graphs demuxs1]. step H ms Hms. injection Hms as <-. step H y Hy. destruct y as [[muxs2 graphs2] demuxs2].
  step H demuxs3 H3. step H u1 Hu1. step H u2 Hu2. step H u3 Hu3. apply Ret_inj, Ok_inj in H as <-.
  cbn [ctx_filter_graphs ctx_demuxs ctx_muxs].
  assert (routes [] demuxs = []) as Hr0.
  { apply routes_nil. split; [constructor|]. eapply Forall_impl; [exact Hd|apply fresh_demuxer_routes]. }
  assert (routes graphs demuxs1 = []) as Hr1.
  { destruct fcs as [|fc fcs]; [by apply Ret_inj, Ok_inj in Hx as [= <- <-]|]. step Hx gs Hgs. apply Ret_inj in Hgs. eapply fg_bind_unrouted; [exact Hx|].
    apply routes_nil. split; [apply (init_graphs_unrouted _ _ _ Hgs)|by apply routes_nil in Hr0 as []]. }
  apply outputs_bind_routed in Hy as [[Hok Hr] Hc]; [|done|done].
  assert (routes graphs2 demuxs3 = routes graphs2 demuxs2) as Hr3 by (unfold routes; by rewrite (correct_all_routes _ _ _ H3)).
  rewrite Hr3. split; [done|]. split; [rewrite Hr; apply all_addresses_NoDup; by rewrite Hc|].
  split; [destruct u2; injection Hu2 as Hu2; by apply check_fg_bindings_Ok|done].
Qed.

(** ** Mapped streams come in order *)

(** The input stream that is registered for an output stream. *)
Definition view (r : StreamSourceRegistry) (k : nat) : option (nat * nat) :=
  match r !! k with Some (Some s) => Some (input_file_index s, input_stream_index s) | _ => None end.

Lemma view_register i f s e r k : view (register i f s e r) k = if decide (k = i) then Some (f, s) else view r k.
Proof.
  unfold view, register, StreamSourceRegistry in *. cbv zeta. set (r1 := if (length r <=? i)%nat then (r ++ replicate (i + 1 - length r) None)%list else r).
  assert (i < length r1)%nat as Hi.
  { unfold r1. destruct (_ <=? _)%nat eqn:E; [|apply Nat.leb_gt in E; lia].
    apply Nat.leb_le in E. rewrite length_app, length_replicate. lia. }
  destruct (decide (k = i)) as [->|Hk]; [by rewrite list_lookup_insert_eq|]. rewrite list_lookup_insert_ne by done.
  unfold r1. destruct (_ <=? _)%nat; [|done]. destruct (decide (k < length r)%nat) as [Hl|Hl]; [by rewrite lookup_app_l|].
  rewrite lookup_app_r, (proj2 (lookup_ge_None r k)) by lia. by destruct (replicate _ None !! _) as [?|] eqn:E; [apply lookup_replicate in E as [-> _]|].
Qed.

Lemma elem_of_mapping r k p : (k, p) ∈ stream_input_mapping r <-> view r k = Some p.
Proof.
  unfold stream_input_mapping, view, StreamSourceRegistry in *. rewrite list_elem_of_omap. split.
  - intros (x & Hx & Hid). cbn in Hid. subst x. apply elem_of_lookup_imap in Hx as (j & e & He & Hj).
    destruct e as [s|]; [|done]. injection He as -> ->. by rewrite Hj.
  - destruct (r !! k) as [[s|]|] eqn:E; [|done|done]. intros [= <-]. eexists. split; [|done].
    apply elem_of_lookup_imap. exists k, (Some s). done.
Qed.

Lemma view_ge r k : (length r <= k)%nat -> view r k = None.
Proof. intros H. unfold view, StreamSourceRegistry in *. by rewrite (proj2 (lookup_ge_None r k)). Qed.

(** One more stream, which comes from [src]. *)
Definition sources_step (src : option (nat * nat)) (m m' : Muxer) : Prop :=
  nb_streams m' = S (nb_streams m) /\
  forall k, view (stream_sources m') k = if decide (k = nb_streams m ) then src else view (stream_sources m) k.

Lemma rescale_sources du tb i m m' : rescale_duration du tb i m = Ret m' -> stream_sources m' = stream_sources m /\ nb_streams m' = nb_streams m.
Proof. unfold rescale_duration. intros H. step H st Hst. by apply Ret_inj in H as <-. Qed.

Lemma add_enc_sources t enc src m dest i m' :
  add_enc_stream t enc src m = Ret (Ok (dest, i, m')) -> i = nb_streams m /\ nb_streams m' = S (nb_streams m)  /\ stream_sources m' = stream_sources m.
Proof.
  unfold add_enc_stream. intros H. step H x Hx. destruct x as [j m1].
  apply new_stream_spec in Hx as (-> & _ & _ & Hnb & _ & _ & Hsrc & _). by apply Ret_inj, Ok_inj in H as [= <- <- <-].
Qed.

Lemma copy_sources di si m d m' d' : copy_stream di si m d = Ret (Ok (m', d')) -> sources_step (Some (di, si)) m m'.
Proof.
  unfold copy_stream. intros H. step H s Hs. step H x Hx. destruct x as [i m1]. cbv zeta in H.
  apply new_stream_spec in Hx as (-> & _ & _ & Hnb & _ & _ & Hsrc & _). step H out Ho. destruct (streamcopy_init _ _ _); [|done].
  step H m2 Hm2. apply Ret_inj, Ok_inj in H as [= <- <-]. apply rescale_sources in Hm2 as [H1 H2]. split.
  - cbn [stream_ready nb_streams]. by rewrite H2.
  - intros k. cbn [stream_ready stream_sources]. rewrite H1. cbn [set_out_streams register_stream_source stream_sources]. by rewrite view_register, Hsrc.
Qed.

Lemma encode_sources t enc di si m d m' d' : encode_stream t enc di si m d = Ret (Ok (m', d')) -> sources_step (Some (di, si)) m m'.
Proof.
  unfold encode_stream. intros H. step H x Hx. destruct x as [[dest i] m1]. apply add_enc_sources in Hx as (-> & Hnb & Hsrc).
  step H d1 Hd1. step H d2 Hd2. cbv zeta in H. step H s Hs. step H m2 Hm2. apply Ret_inj, Ok_inj in H as [= <- <-].
  apply rescale_sources in Hm2 as [H1 H2]. split; [by rewrite H2|]. intros k. rewrite H1. cbn [register_stream_source stream_sources].
  by rewrite view_register, Hsrc.
Qed.

Lemma ofilter_sources mi m g k id enc src m' g' :
  (length (stream_sources m) <= nb_streams m)%nat ->
  ofilter_bind_ost mi m g k id enc src = Ret (Ok (m', g')) -> sources_step src m m'.
Proof.
  intros Hle. unfold ofilter_bind_ost. intros H. step H o Ho. step H x Hx. destruct x as [[dest i] m1]. cbv zeta in H.
  apply add_enc_sources in Hx as (-> & Hnb & Hsrc). step H o2 Ho2. apply Ret_inj, Ok_inj in H as [= <- <-]. split.
  - destruct src as [[f s]|]; exact Hnb.
  - intros j. destruct src as [[f s]|]; cbn [register_stream_source stream_sources]; [by rewrite view_register, Hsrc|].
    rewrite Hsrc. destruct (decide (j = nb_streams m)) as [->|]; [by apply view_ge|done].
Qed.

Lemma simple_sources di d si id enc mi m graphs m' graphs' d' :
  (length (stream_sources m) <= nb_streams m)%nat ->
  init_simple_filtergraph di d si id enc mi m graphs = Ret (Ok (m', graphs', d')) -> sources_step (Some (di, si)) m m'.
Proof.
  intros Hle. unfold init_simple_filtergraph. intros H. step H s Hs. cbv zeta in H. step H g Hg. step H x Hx. destruct x as [g1 d1].
  step H y Hy. destruct y as [m1 g2]. apply Ret_inj, Ok_inj in H as [= <- <- <-]. by eapply ofilter_sources.
Qed.

Lemma bind_label_sources mi label l m graphs demuxs b' :
  (length (stream_sources m) <= nb_streams m)%nat ->
  bind_label mi label (m, graphs, demuxs) l = Ret (Ok b') -> sources_step None m b'.1.1.
Proof.
  intros Hle. induction l as [|[j k] l IH]; [done|]. cbn [bind_label]. intros H. step H g Hg. step H o Ho.
  destruct (_ || _); [by apply IH|]. step H c Hc. destruct c as [[id enc]|]; [|by apply IH]. step H x Hx. destruct x as [m1 g1].
  apply Ret_inj, Ok_inj in H as <-. by eapply ofilter_sources.
Qed.

(** What a stream map names. *)
Definition map_source (x : StreamMap) : option (nat * nat) :=
  match linklabel x with Some _ => None | None => Some (file_index x, map_stream_index x) end.

Lemma map_manual_sources mi m graphs demuxs x b' :
  (length (stream_sources m) <= nb_streams m)%nat -> disabled x = false ->
  map_manual mi (m, graphs, demuxs) x = Ret (Ok b') -> sources_step (map_source x) m b'.1.1.
Proof.
  intros Hle Hdis. unfold map_manual, map_source. rewrite Hdis. destruct (linklabel x) as [label|]; [by apply bind_label_sources|].
  unfold on_demux. intros H. step H d Hd. step H y Hy. destruct y as [[m1 graphs1] d1]. apply Ret_inj, Ok_inj in H as <-. cbn [fst].
  step Hy s Hs. step Hy c Hc. unfold keep_graphs in Hy. destruct c as [[id enc]|].
  - destruct (copy x); [|destruct (_ || _)].
    + step Hy z Hz. destruct z as [m2 d2]. apply Ret_inj, Ok_inj in Hy as [= <- <- <-]. by eapply copy_sources.
    + by eapply simple_sources.
    + step Hy z Hz. destruct z as [m2 d2]. apply Ret_inj, Ok_inj in Hy as [= <- <- <-]. by eapply encode_sources.
  - step Hy z Hz. destruct z as [m2 d2]. apply Ret_inj, Ok_inj in Hy as [= <- <- <-]. by eapply copy_sources.
Qed.

(** C18. An output with stream maps gets one stream for each that is not disabled, in
    their order, and its registry names for each of them the input stream that the
    map asked for; the outputs of filter graphs have no entry. *)
Theorem mapped_streams_come_in_order (mi : nat) (s : MuxSettings) (maps : list StreamMap) (graphs : list FilterGraph) (demuxs : list Demuxer)
    (b : Bound) :
  maps <> [] -> output_bind mi (Muxer_new s maps, graphs, demuxs) = Ret (Ok b) ->
  nb_streams b.1.1 = length (enabled maps) /\
  forall k p, (k, p) ∈ stream_input_mapping (stream_sources b.1.1) <-> (enabled maps !! k ≫= map_source) = Some p.
Proof.
  intros Hne. unfold output_bind. cbn [Muxer_new stream_maps]. destruct maps as [|x0 maps0]; [done|]. set (maps := x0 :: maps0). intros H.
  apply (try_fold_inv (fun done b => mux_ok b.1.1 /\ nb_streams b.1.1 = length (enabled done) /\
    forall k, view (stream_sources b.1.1) k = (enabled done !! k ≫= map_source))) in H.
  - destruct H as (_ & Hn & Hv). split; [done|]. intros k p. by rewrite elem_of_mapping, Hv.
  - split; [apply fresh_mux_ok; by exists s, maps|]. split; [done|]. intros k. cbn. by rewrite view_ge by (cbn; lia).
  - intros done x rest [[m gs] ds] b2 _ (Hok & Hn & Hv) Hs. cbn [fst] in *.
    pose proof (map_manual_binds _ _ _ _ Hs) as [(_ & _ & Hnb & _ & Hok2) _]. cbn [fst] in *. split; [by apply Hok2|].
    unfold enabled in *. rewrite filter_app, filter_cons, filter_nil. destruct (disabled x) eqn:Ed; cbn [fst] in *.
    + destruct (decide _) as [|_]; [done|]. rewrite app_nil_r. cbn in Hs. unfold map_manual in Hs. rewrite Ed in Hs. apply Ret_inj, Ok_inj in Hs as <-.
      by split.
    + destruct (decide _) as [_|]; [|done]. destruct (map_manual_sources _ _ _ _ _ _ (ok_sources _ Hok) Ed Hs) as [H1 H2].
      rewrite length_app. cbn [length]. split; [lia|]. intros k. rewrite H2, Hv, Hn. destruct (decide _) as [->|Hk].
      * by rewrite list_lookup_middle.
      * destruct (decide (k < length (filter (fun x => disabled x = false) done))%nat) as [Hl|Hl]; [by rewrite lookup_app_l|].
        rewrite (proj2 (lookup_ge_None (filter _ done) k)) by lia. rewrite (proj2 (lookup_ge_None (filter _ done ++ [x]) k)); [done|].
        rewrite length_app. cbn. lia.
Qed.

(** ** Mapped streams are connected *)

Definition mux_connected (m : Muxer) (graphs : list FilterGraph) (demuxs : list Demuxer) : Prop :=
  forall k x, enabled (stream_maps m) !! k = Some x -> connected graphs demuxs (out_fmt_ctx (settings m)) k x.

Lemma mux_connected_grows m graphs demuxs graphs' demuxs' :
  pointwise graph_grows graphs graphs' -> pointwise demuxer_grows demuxs demuxs' -> mux_connected m graphs demuxs -> mux_connected m graphs' demuxs'.
Proof. intros Hg Hd H k x Hx. eapply connected_grows; [exact Hg|exact Hd|by apply H]. Qed.

(** What is known of the muxers when those at the places [done] are bound. *)
Definition partly_connected (done : list nat) (muxs0 muxs : list Muxer) (graphs : list FilterGraph) (demuxs : list Demuxer) : Prop :=
  length muxs = length muxs0 /\
  forall i m0, muxs0 !! i = Some m0 -> exists m, muxs !! i = Some m /\ (i ∉ done -> m = m0) /\
    (i ∈ done -> settings m = settings m0 /\ stream_maps m = stream_maps m0 /\ nb_streams m = nb_streams m /\ mux_connected m graphs demuxs).

Lemma bind_mux_connects done i muxs0 muxs graphs demuxs muxs' graphs' demuxs' :
  Forall fresh_muxer muxs0 -> i ∉ done -> bind_mux (muxs, graphs, demuxs) i = Ret (Ok (muxs', graphs', demuxs')) ->
  partly_connected done muxs0 muxs graphs demuxs -> partly_connected (done ++ [i]) muxs0 muxs' graphs' demuxs'.
Proof.
  intros Hfresh Hi. unfold bind_mux. intros H [Hlen Hp]. step H m Hm. apply index_Ret in Hm. step H x Hx. destruct x as [[m1 graphs1] demuxs1].
  apply Ret_inj, Ok_inj in H as [= <- <- <-]. split; [by rewrite length_insert|].
  destruct (lookup_lt_is_Some_2 muxs0 i) as [mi Hmi]; [rewrite <-Hlen; by eapply lookup_lt_Some|].
  assert (m = mi) as ->. { destruct (Hp _ _ Hmi) as (m2 & Hm2 & Hnot & _). rewrite Hm in Hm2. injection Hm2 as <-. by apply Hnot. }
  pose proof (output_bind_binds _ _ _ Hx) as (n & (Hset & Hmaps & _) & _). cbn [fst] in Hset, Hmaps.
  assert (fresh_muxer mi) as (s & maps & ->) by (rewrite Forall_lookup in Hfresh; by eapply Hfresh).
  apply output_bind_connects in Hx as [(_ & Hg & Hd) Hc]. cbn [fst snd] in *.
  intros j m0 Hj. destruct (decide (i = j)) as [<-|Hne].
  - rewrite Hmi in Hj. injection Hj as <-. exists m1. split; [apply list_lookup_insert_eq; by eapply lookup_lt_Some|].
    split; [set_solver|]. intros _. split_and!; try done. intros k x Hk. rewrite Hset. cbn [Muxer_new settings]. rewrite Hmaps in Hk. by apply Hc.
  - destruct (Hp _ _ Hj) as (m2 & Hm2 & Hnot & Hin). exists m2. rewrite list_lookup_insert_ne by done. split; [done|]. split; [set_solver|].
    intros [Hjd|[->|[]%elem_of_nil]%elem_of_cons]%elem_of_app; [|done]. destruct (Hin Hjd) as (H1 & H2 & H3 & H4). split_and!; try done.
    by eapply mux_connected_grows.
Qed.

Lemma outputs_bind_connects muxs graphs demuxs muxs' graphs' demuxs' :
  Forall fresh_muxer muxs -> outputs_bind muxs graphs demuxs = Ret (Ok (muxs', graphs', demuxs')) ->
  exists muxs1, expand_all demuxs muxs = Ret (Ok muxs1) /\ length muxs' = length muxs1 /\
    forall i m1, muxs1 !! i = Some m1 -> exists m, muxs' !! i = Some m /\ settings m = settings m1 /\ stream_maps m = stream_maps m1 /\
      mux_connected m graphs' demuxs'.
Proof.
  intros Hf. unfold outputs_bind. intros H. step H muxs1 H1. pose proof (expand_all_fresh _ _ _ H1 Hf) as [Hf1 _]. exists muxs1. split; [done|].
  apply (try_fold_inv (fun done s => (exists n, done = seq 0 n) /\ partly_connected done muxs1 s.1.1 s.1.2 s.2)) in H.
  - destruct H as [_ [Hlen Hp]]. cbn [fst snd] in *. split; [done|]. intros i m1 Hi. destruct (Hp _ _ Hi) as (m & Hm & _ & Hin).
    assert (i ∈ seq 0 (length muxs1)) as Hseq by (apply elem_of_seq; apply lookup_lt_Some in Hi; lia). destruct (Hin Hseq) as (? & ? & _ & ?).
    by exists m.
  - split; [by exists 0%nat|]. split; [done|]. intros i m0 Hi. exists m0. split_and!; [done|done|set_solver].
  - intros done i rest [[ms gs] ds] [[ms' gs'] ds'] Hsplit [[n ->] Hp] Hs. cbn [fst snd] in *.
    pose proof (NoDup_seq 0 (length muxs1)) as Hnd. rewrite Hsplit in Hnd. apply NoDup_app in Hnd as (_ & Hno & _). split.
    + exists (S n). rewrite seq_S. f_equal. assert (seq 0 (length muxs1) !! n = Some i) as Hi.
      { rewrite Hsplit. apply list_lookup_middle. by rewrite length_seq. }
      apply lookup_seq in Hi as [-> _]. done.
    + eapply bind_mux_connects; [done| |exact Hs|exact Hp]. intros Hin. destruct (Hno i Hin). set_solver.
Qed.

Lemma correct_grows c d d' : correct_input_start_time c d = Ret d' -> demuxer_grows d d'.
Proof.
  unfold correct_input_start_time. cbv zeta. pose proof (demuxer_grows_refl d) as Hr.
  destruct (_ || _); [by intros <-%Ret_inj|]. intros H. step H diff Hd.
  destruct (_ =? _)%Z; [by apply Ret_inj in H as <-|]. destruct (c && START_AT_ZERO). { step H off Ho. by apply Ret_inj in H as <-. }
  destruct (negb c); [|by apply Ret_inj in H as <-]. step H a Ha. step H off Ho. by apply Ret_inj in H as <-.
Qed.

Lemma correct_all_grows c demuxs : forall demuxs', mapM_out (correct_input_start_time c) demuxs = Ret demuxs' -> pointwise demuxer_grows demuxs demuxs'.
Proof.
  induction demuxs as [|d demuxs IH]; cbn [mapM_out]; intros demuxs' H; [by intros i x Hx|].
  step H d1 H1. step H ds1 H2. apply Ret_inj in H as <-. intros [|i] x Hx; cbn in Hx |- *.
  - injection Hx as <-. exists d1. split; [done|]. by eapply correct_grows.
  - by apply (IH _ H2).
Qed.

(** Of a context that was set up: the stream maps of each output that are not
    disabled lead, the k-th to the k-th stream - from the stream of the input that
    the map names, copied, encoded or filtered and encoded, or from the output of a
    graph that bears its label. *)
Theorem mapped_streams_are_connected (independent : bool) (input_urls output_urls : list (option string)) (fcs : list FilterComplex)
    (demuxs : list Demuxer) (muxs : list Muxer) (cts : bool) (c : FfmpegContext) (i : nat) (m : Muxer) :
  Forall fresh_muxer muxs ->
  new_with_options independent input_urls output_urls fcs (Ok demuxs) (Ok muxs) cts = Ret (Ok c) -> ctx_muxs c !! i = Some m ->
  mux_connected m (ctx_filter_graphs c) (ctx_demuxs c).
Proof.
  intros Hm. unfold new_with_options. intros H. step H u Hu. step H ds Hds. cbv zeta in H.
  step H x Hx. destruct x as [graphs demuxs1]. step H ms Hms. injection Hms as <-. step H y Hy. destruct y as [[muxs2 graphs2] demuxs2].
  step H demuxs3 H3. step H u1 Hu1. step H u2 Hu2. step H u3 Hu3. apply Ret_inj, Ok_inj in H as <-.
  cbn [ctx_filter_graphs ctx_demuxs ctx_muxs]. intros Hi. apply outputs_bind_connects in Hy as (muxs1 & _ & Hlen & Hc); [|done].
  destruct (lookup_lt_is_Some_2 muxs1 i) as [m1 Hm1]; [rewrite <-Hlen; by eapply lookup_lt_Some|].
  destruct (Hc _ _ Hm1) as (m' & Hm' & _ & _ & Hcon). rewrite Hi in Hm'. injection Hm' as <-.
  eapply mux_connected_grows; [apply pointwise_refl, graph_grows_refl|by eapply correct_all_grows|done].
Qed.

(** ** What is refused *)

Lemma try_fold_reach {A S} (Inv : S -> Prop) (f : S -> A -> outcome (result S Error)) l s s' x :
  Inv s -> (forall s1 y s2, Inv s1 -> f s1 y = Ret (Ok s2) -> Inv s2) -> try_fold f s l = Ret (Ok s') -> x ∈ l ->
  exists s1 s2, Inv s1 /\ f s1 x = Ret (Ok s2).
Proof.
  intros Hs Hf H Hx. apply (try_fold_inv (fun done s => Inv s /\ forall y, y ∈ done -> exists s1 s2, Inv s1 /\ f s1 y = Ret (Ok s2))) in H.
  - destruct H as [_ H]. by apply H.
  - split; [done|set_solver].
  - intros done y rest s1 s2 _ [H1 H2] Hy. split; [by eapply Hf|]. intros z [Hz|[->|[]%elem_of_nil]%elem_of_cons]%elem_of_app; [by apply H2|eauto].
Qed.

(** The labels of the inputs of the graphs. *)
Definition input_labels (graphs : list FilterGraph) : list (list string) := (fun g => if_linklabel <$> fg_inputs g) <$> graphs.

(** A label that is neither empty nor a stream of an input, such as the label of an
    output of another graph. *)
Definition names_no_stream (label : string) : Prop :=
  label <> "" /\ label <> "in" /\ forall desc l, strip_brackets label desc = Ok l -> strtol l = None.

Lemma link_input_labels outs graphs x graphs' : link_input outs graphs x = Ret (Ok graphs') -> input_labels graphs' = input_labels graphs.
Proof.
  unfold link_input. destruct x as [[i label] t]. intros H. destruct (is_empty label); [by apply Ret_inj, Ok_inj in H as <-|].
  step H found Hf. destruct found as [[j k]|]; [|by apply Ret_inj, Ok_inj in H as <-]. step H dest Hd. step H g Hg. apply index_Ret in Hg.
  step H o Ho. apply Ret_inj, Ok_inj in H as <-. unfold input_labels. rewrite list_fmap_insert. cbn [set_outputs fg_inputs].
  apply list_insert_id. by rewrite list_lookup_fmap, Hg.
Qed.

Lemma ifilter_labels g i s d g' d' :
  ifilter_bind_ist g i s d = Ret (Ok (g', d')) -> (if_linklabel <$> fg_inputs g') = (if_linklabel <$> fg_inputs g).
Proof.
  unfold ifilter_bind_ist. intros H. step H f Hf. apply index_Ret in Hf. step H par Hpar. cbv zeta in H. step H wh Hwh. step H d1 Hd1. step H st Hst.
  destruct (avcodec_alloc_context3 _); [|done]. step H fb Hfb. step H ts Hts. step H d2 Hd2. step H node Hnode. step H d3 Hd3.
  apply Ret_inj, Ok_inj in H as [= <- <-]. cbn [set_inputs fg_inputs]. rewrite list_fmap_insert. apply list_insert_id.
  by rewrite list_lookup_fmap, Hf.
Qed.

Lemma fg_complex_labels g i demuxs g' demuxs' :
  fg_complex_bind_input g i demuxs = Ret (Ok (g', demuxs')) ->
  (if_linklabel <$> fg_inputs g') = (if_linklabel <$> fg_inputs g) /\
  forall label, (if_linklabel <$> fg_inputs g) !! i = Some label -> ~ names_no_stream label.
Proof.
  unfold fg_complex_bind_input. intros H. step H f Hf. apply index_Ret in Hf. step H x Hx. destruct x as [di si]. step H d Hd.
  step H y Hy. destruct y as [g1 d1]. apply Ret_inj, Ok_inj in H as [= <- <-]. apply ifilter_labels in Hy. split; [done|].
  intros label Hl (Hne & Hin & Hno). rewrite list_lookup_fmap, Hf in Hl. injection Hl as <-.
  assert (is_empty (if_linklabel f) = false) as Ee by (by destruct (if_linklabel f)). rewrite Ee in Hx.
  assert ((if_linklabel f =? "in")%string = false) as Ei by (by apply String.eqb_neq). rewrite Ei in Hx. cbn [negb andb] in Hx.
  unfold fg_find_input_idx_by_linklabel in Hx. step Hx l Hl. apply Ret_inj in Hl. by rewrite (Hno _ _ Hl) in Hx.
Qed.

Lemma bind_inputs_labels g graphs demuxs graphs' demuxs' :
  bind_inputs_of g (graphs, demuxs) = Ret (Ok (graphs', demuxs')) ->
  input_labels graphs' = input_labels graphs /\
  forall ls, input_labels graphs !! g = Some ls -> Forall (fun l => ~ names_no_stream l) ls.
Proof.
  unfold bind_inputs_of. intros H. step H fg Hfg. apply index_Ret in Hfg. step H x Hx. destruct x as [fg1 demuxs1].
  apply Ret_inj, Ok_inj in H as [= <- <-].
  set (Inv := fun s : FilterGraph * list Demuxer => (if_linklabel <$> fg_inputs s.1) = (if_linklabel <$> fg_inputs fg)).
  assert (forall s1 y s2, Inv s1 -> (fun '(fg, demuxs) i => fg_complex_bind_input fg i demuxs) s1 y = Ret (Ok s2) -> Inv s2) as Hstep.
  { intros [g1 d1] y [g2 d2] H1 H2. unfold Inv in *. cbn [fst] in *. apply fg_complex_labels in H2 as [H2 _]. congruence. }
  split.
  - pose proof (try_fold_inv (fun _ s => Inv s) _ _ _ _ (eq_refl : Inv (fg, demuxs)) (fun _ y _ s1 s2 _ => Hstep s1 y s2) Hx) as HI.
    unfold Inv in HI. cbn [fst] in HI. unfold input_labels. rewrite list_fmap_insert, HI. apply list_insert_id. by rewrite list_lookup_fmap, Hfg.
  - intros ls Hls. unfold input_labels in Hls. rewrite list_lookup_fmap, Hfg in Hls. injection Hls as <-. apply Forall_lookup. intros i l Hl.
    destruct (try_fold_reach Inv _ _ _ _ i (eq_refl : Inv (fg, demuxs)) Hstep Hx) as ([g1 d1] & [g2 d2] & HI & H2).
    { apply elem_of_seq. apply lookup_lt_Some in Hl. rewrite length_fmap in Hl. lia. }
    apply fg_complex_labels in H2 as [_ H2]. apply H2. unfold Inv in HI. cbn [fst] in HI. by rewrite HI.
Qed.

(** Filter graphs cannot be chained by labels: [bind_fg_inputs_by_fg] connects an
    output to the input of another graph, but every input is then looked for among the
    streams of the files, and the set-up fails. *)
Theorem linked_graphs_are_refused (graphs : list FilterGraph) (demuxs : list Demuxer) (r : list FilterGraph * list Demuxer) :
  Exists (fun ls => Exists names_no_stream ls) (input_labels graphs) -> fg_bind_inputs graphs demuxs <> Ret (Ok r).
Proof.
  intros Hex. unfold fg_bind_inputs. destruct graphs as [|g0 graphs0]; [by apply Exists_nil in Hex|]. set (graphs := g0 :: graphs0) in *. intros H.
  step H graphs1 H1.
  assert (input_labels graphs1 = input_labels graphs) as Hl1.
  { unfold bind_fg_inputs_by_fg in H1. cbv zeta in H1. apply (try_fold_inv (fun _ gs => input_labels gs = input_labels graphs)) in H1; [done|done|].
    intros _ x _ s1 s2 _ Hs1 Hs. apply link_input_labels in Hs. congruence. }
  apply Exists_exists in Hex as (ls & Hin & Hbad). apply list_elem_of_lookup in Hin as [g Hg].
  set (Inv := fun s : list FilterGraph * list Demuxer => input_labels s.1 = input_labels graphs).
  destruct (try_fold_reach Inv (fun s g => bind_inputs_of g s) (seq 0 (length graphs1)) (graphs1, demuxs) r g) as ([gs ds] & [gs2 ds2] & HI & H2);
    [exact Hl1| |exact H| |].
  - intros [gs ds] y [gs2 ds2] HI Hs. unfold Inv in *. cbn [fst] in *. apply bind_inputs_labels in Hs as [Hs _]. congruence.
  - apply elem_of_seq. apply lookup_lt_Some in Hg. rewrite <-Hl1 in Hg. unfold input_labels in Hg. rewrite length_fmap in Hg. lia.
  - cbv beta in H2. apply bind_inputs_labels in H2 as [_ H2]. unfold Inv in HI. cbn [fst] in HI. rewrite <-HI in Hg.
    specialize (H2 _ Hg). apply Exists_exists in Hbad as (l & Hl & Hbad). rewrite Forall_forall in H2. by apply (H2 l).
Qed.

End Context.

(** ** The code on small inputs *)

(** Libraries that know some codecs, in which no memory runs out; [graph] parses
    filter graphs. *)
Definition h264 : AVCodec := {| enc_id := 27; enc_type := AVMEDIA_TYPE_VIDEO |}.
Definition vp9 : AVCodec := {| enc_id := 167; enc_type := AVMEDIA_TYPE_VIDEO |}.
Definition aac : AVCodec := {| enc_id := 0x15002; enc_type := AVMEDIA_TYPE_AUDIO |}.
Definition opus : AVCodec := {| enc_id := 0x1503C; enc_type := AVMEDIA_TYPE_AUDIO |}.
Definition mov_text : AVCodec := {| enc_id := 0x17005; enc_type := AVMEDIA_TYPE_SUBTITLE |}.

Definition rational (n d : Z) : AVRational := {| num := n; den := d |}.

Definition no_layout : AVChannelLayout := {| layout_order := 0; layout_channels := 0; layout_mask := 0 |}.

Definition a_par (t : AVMediaType) : Par :=
  {| par_type := t; par_codec_id := 27; par_codec_tag := 0; par_block_align := 0; par_sar := rational 0 1; par_side_data := [] |}.

Definition a_stream (t : AVMediaType) : CopyStream :=
  {| codecpar := a_par t; r_frame_rate := rational 25 1; avg_frame_rate := rational 25 1; stream_time_base := rational 1 90000;
     stream_sar := rational 0 1; stream_duration := 0 |}.

(** An open end of a graph; the end of a filter with one pad. *)
Definition an_end (label : option string) (t : AVMediaType) (filter : string) : AVFilterInOut :=
  {| inout_name := Some <$> label; inout_type := t; inout_filter := Some filter; inout_pads := 1; inout_pad := Some "default" |}.

Definition simple_graphs (desc : string) : result (list AVFilterInOut * list AVFilterInOut) Z :=
  if (desc =? "null")%string then Ok ([an_end None AVMEDIA_TYPE_VIDEO "null"], [an_end None AVMEDIA_TYPE_VIDEO "null"])
  else if (desc =? "anull")%string then Ok ([an_end None AVMEDIA_TYPE_AUDIO "anull"], [an_end None AVMEDIA_TYPE_AUDIO "anull"])
  else Err (- 22).

Definition libs (graph : string -> result (list AVFilterInOut * list AVFilterInOut) Z) : Av := {|
  Dict := unit;
  av_dict_get := fun _ _ => None;
  av_guess_codec := fun _ _ t => match t with AVMEDIA_TYPE_VIDEO => 27 | AVMEDIA_TYPE_AUDIO => 0x15002 | _ => 0 end;
  avcodec_find_encoder := fun id => find (fun c => enc_id c =? id)%Z [h264; vp9; aac; opus; mov_text];
  avcodec_find_encoder_by_name := fun n =>
    if (n =? "libx264")%string then Some h264 else if (n =? "libvpx-vp9")%string then Some vp9
    else if (n =? "aac")%string then Some aac else if (n =? "libopus")%string then Some opus else None;
  avcodec_descriptor_get_by_name := fun _ => None;
  avcodec_descriptor_get := fun _ => Some AV_CODEC_PROP_TEXT_SUB;
  av_get_exact_bits_per_sample := fun _ => 0;
  av_rescale_q := fun x _ _ => x;
  av_inv_q := fun q => rational (den q) (num q);
  av_add_q := fun q _ => q;
  av_guess_frame_rate := fun _ _ => rational 25 1;
  avformat_new_stream := fun _ _ => Some (a_stream AVMEDIA_TYPE_UNKNOWN);
  avcodec_alloc_context3 := fun c =>
    Some {| dec_type := match c with Some c => enc_type c | None => AVMEDIA_TYPE_UNKNOWN end; dec_format := - 1; dec_sample_rate := 0;
            dec_ch_layout := no_layout; dec_width := 0; dec_height := 0; dec_sar := rational 0 1; dec_colorspace := 2; dec_color_range := 0;
            dec_pkt_timebase := rational 0 1 |};
  parameters_via_context := Ok;
  av_codec_get_id := fun _ => 0;
  av_codec_get_tag2 := fun _ => true;
  av_packet_side_data_new := fun l t d => Some (l ++ [(t, d)])%list;
  av_channel_layout_copy := Ok;
  av_channel_layout_default := fun n => {| layout_order := 1; layout_channels := n; layout_mask := 0 |};
  supported_pix_formats := fun _ => Ok (Some [0; - 1]);
  supported_frame_rates := fun _ => Ok None;
  supported_color_spaces := fun _ => Ok None;
  supported_color_ranges := fun _ => Ok None;
  supported_sample_formats := fun _ => Ok (Some [8; - 1]);
  supported_sample_rates := fun _ => Ok None;
  supported_ch_layouts := fun _ => Ok None;
  avfilter_graph_segment := graph;
  frame_alloc := true |}.

(** An input with the given streams. *)
Definition a_codecpar (t : AVMediaType) : AVCodecParameters :=
  {| codec_type := t; sample_rate := 48000; nb_channels := 2; format_is_none := false; width := 640; height := 360 |}.

Definition codec_for (t : AVMediaType) : option AVCodec :=
  match t with AVMEDIA_TYPE_VIDEO => Some h264 | AVMEDIA_TYPE_AUDIO => Some aac | _ => None end.

Definition input_of (graph : string -> result (list AVFilterInOut * list AVFilterInOut) Z) (place : nat) (types : list AVMediaType) :
    Muxer.Demuxer (Lib := libs graph) :=
  {| in_fmt_ctx := {| streams := (fun t => Some {| st_id := 0; st_disposition := 0; st_codecpar := Some (a_codecpar t);
                                                    st_metadata := tt |}) <$> types;
                      programs := []; stream_groups := [] |};
     in_times := {| fmt_start_time := 0; fmt_ts_discont := false; fmt_streams := [] |};
     ts_offset := 0; dem_frame_pipelines := None; dem_start_time_us := None; dem_recording_time_us := None; dem_copy_ts := false;
     start_time_effective := 0; dem_node := Demux place;
     dem_streams := imap (fun i t => {| ds_index := i; ds_stream := a_stream t; ds_type := t; ds_codec_id := 27; ds_codec := codec_for t;
                                        ds_duration := 1000; ds_time_base := rational 1 1000; have_sub2video := false; ds_src := false;
                                        ds_dsts := [] |}) types;
     dem_dsts := [] |}.

Definition an_input : nat -> list AVMediaType -> Muxer.Demuxer (Lib := libs simple_graphs) := input_of simple_graphs.

(** An output with stream maps and codecs for video, audio and subtitles. *)
Definition an_output (specs : list StreamMapSpec) (v a s : option string) : Muxer :=
  Muxer_new {| url := "out.mp4"; out_fmt_ctx := 0; oformat := {| format_name := Some "mp4"; format_flags := 0; subtitle_codec := 0x17005;
                                                                  has_codec_tags := true |};
               ctx_url := Some "out.mp4"; mux_frame_pipelines := None; stream_map_specs := specs; video_codec := v; audio_codec := a;
               subtitle_codec_name := s; start_time_us := None; recording_time_us := None; framerate := None; vsync_method := VsyncAuto;
               audio_sample_rate := None; audio_channels := None; audio_sample_fmt := None; video_qscale := None; audio_qscale := None;
               copy_ts := false |} [].

Definition copy_spec (label : string) : StreamMapSpec := {| spec_linklabel := label; spec_copy := true |}.

Definition set_up (inputs : list (list AVMediaType)) (o : Muxer) : outcome (result (FfmpegContext (Lib := libs simple_graphs)) Error) :=
  new_with_options (Lib := libs simple_graphs) (Prof := dev_profile) false [Some "in.mp4"] [Some "out.mp4"] [] (Ok (imap an_input inputs)) (Ok [o]) false.

Definition av : list AVMediaType := [AVMEDIA_TYPE_VIDEO; AVMEDIA_TYPE_AUDIO].

(** The input streams of the first output, in order. *)
Definition mapping_of (r : outcome (result (FfmpegContext (Lib := libs simple_graphs)) Error)) : option (list (nat * (nat * nat))) :=
  match r with
  | Ret (Ok c) => match ctx_muxs c with m :: _ => Some (stream_input_mapping (stream_sources m)) | [] => None end
  | _ => None
  end.

Example automatic_mapping : mapping_of (set_up [av] (an_output [] None None None)) = Some [(0, (0, 0)); (1, (0, 1))]%nat.
Proof. by vm_compute. Qed.

Example mapped_in_order : mapping_of (set_up [av] (an_output [StreamMapSpec_from "0:a"; copy_spec "0:v"; StreamMapSpec_from "0:a"] None None None)) =
  Some [(0, (0, 1)); (1, (0, 0)); (2, (0, 1))]%nat.
Proof. by vm_compute. Qed.

(** A video that is encoded behind a copied stream: the encoders are counted without
    the copies, and the place is out of range. *)
Example video_behind_a_copy_panics : set_up [av] (an_output [copy_spec "0:a"; StreamMapSpec_from "0:v"] None None None) = Panic.
Proof. by vm_compute. Qed.

(** Copying without stream maps takes a stream of every input instead of one. *)
Example automatic_copies_take_every_input :
  mapping_of (set_up [av; av] (an_output [] (Some "copy") (Some "copy") None)) = Some [(0, (0, 0)); (1, (1, 0)); (2, (0, 1)); (3, (1, 1))]%nat.
Proof. by vm_compute. Qed.

(** Subtitles cannot be copied without a stream map. *)
Example automatic_subtitle_copy_fails :
  set_up [av ++ [AVMEDIA_TYPE_SUBTITLE]] (an_output [] None None (Some "copy")) = Ret (Err (open_output_error AVERROR_ENCODER_NOT_FOUND)).
Proof. by vm_compute. Qed.

(** Two graphs, the second of which takes what the first gives. *)
Definition first_graph : FilterGraph :=
  FilterGraph_new 0 "[0:v]scale=640:360[small]" None [InputFilter_new "0:v" AVMEDIA_TYPE_VIDEO "scale:default" "fg:0:0"]
    [OutputFilter_new "small" AVMEDIA_TYPE_VIDEO "scale:default"].
Definition second_graph : FilterGraph :=
  FilterGraph_new 1 "[small]hflip[out]" None [InputFilter_new "small" AVMEDIA_TYPE_VIDEO "hflip:default" "fg:1:0"]
    [OutputFilter_new "out" AVMEDIA_TYPE_VIDEO "hflip:default"].

Lemma linked_graphs_are_refused_witness :
  ~ fg_bind_inputs (Lib := libs simple_graphs) (Prof := dev_profile) [first_graph; second_graph] [an_input 0 av] = Ret (Ok ([first_graph; second_graph], [])).
Proof.
  apply (@linked_graphs_are_refused (libs simple_graphs) dev_profile [first_graph; second_graph] [an_input 0 av] ([first_graph; second_graph], [])).
  right. left. left. split; [discriminate|]. split; [discriminate|]. intros desc l [= <-]. reflexivity.
Defined.

(** ** Witnesses *)

Definition two_maps : Muxer := an_output [StreamMapSpec_from "0:a"; copy_spec "0:v"] None None None.

Definition the_context : FfmpegContext (Lib := libs simple_graphs) :=
  match set_up [av] two_maps with
  | Ret (Ok c) => c
  | _ => {| independent_readrate := false; ctx_demuxs := []; ctx_filter_graphs := []; ctx_muxs := [] |}
  end.

Lemma set_up_two_maps :
  new_with_options (Lib := libs simple_graphs) (Prof := dev_profile) false [Some "in.mp4"] [Some "out.mp4"] [] (Ok (imap an_input [av])) (Ok [two_maps]) false =
  Ret (Ok the_context).
Proof. vm_compute. reflexivity. Qed.

Lemma fresh_inputs : Forall (fresh_demuxer (Lib := libs simple_graphs)) (imap an_input [av]).
Proof. repeat constructor. Qed.

Lemma fresh_outputs : Forall fresh_muxer [two_maps].
Proof. repeat constructor. by eexists _, _. Qed.

Lemma every_stream_has_one_source_witness :
  routes (Lib := libs simple_graphs) (ctx_filter_graphs the_context) (ctx_demuxs the_context) ≡ₚ all_addresses (ctx_muxs the_context) /\
  all_addresses (ctx_muxs the_context) = [(0, 0); (0, 1)]%nat.
Proof.
  split; [|vm_compute; reflexivity].
  apply (@every_stream_has_one_source (libs simple_graphs) dev_profile false [Some "in.mp4"] [Some "out.mp4"] [] (imap an_input [av]) [two_maps]
    false the_context fresh_inputs fresh_outputs (NoDup_singleton _) set_up_two_maps).
Defined.

Lemma mapped_streams_are_connected_witness :
  exists m, ctx_muxs the_context !! 0%nat = Some m /\ length (enabled (stream_maps m)) = 2%nat /\
    mux_connected (Lib := libs simple_graphs) m (ctx_filter_graphs the_context) (ctx_demuxs the_context).
Proof.
  destruct (ctx_muxs the_context !! 0%nat) as [m|] eqn:E; [|vm_compute in E; discriminate].
  exists m. split; [reflexivity|]. split; [vm_compute in E; injection E as <-; reflexivity|].
  apply (@mapped_streams_are_connected (libs simple_graphs) dev_profile false [Some "in.mp4"] [Some "out.mp4"] [] (imap an_input [av]) [two_maps]
    false the_context 0 m fresh_outputs set_up_two_maps E).
Defined.

(** The maps that the two specifications expand to, bound. *)
Definition two_file_maps : list StreamMap := [file_map false 0 1; file_map true 0 0].

Definition the_bound : Bound (Lib := libs simple_graphs) :=
  match output_bind (Lib := libs simple_graphs) (Prof := dev_profile) 0 (Muxer_new (settings two_maps) two_file_maps, [], imap an_input [av]) with
  | Ret (Ok b) => b
  | _ => (two_maps, [], [])
  end.

Lemma mapped_streams_come_in_order_witness :
  nb_streams the_bound.1.1 = 2%nat /\ (0%nat, (0%nat, 1%nat)) ∈ stream_input_mapping (stream_sources the_bound.1.1).
Proof.
  destruct (@mapped_streams_come_in_order (libs simple_graphs) dev_profile 0 (settings two_maps) two_file_maps [] (imap an_input [av]) the_bound
    ltac:(discriminate) ltac:(vm_compute; reflexivity)) as [Hn Hm].
  split; [exact Hn|]. apply Hm. reflexivity.
Defined.
