(* ===== verification/BindConvert.v ===== *)
(** * The converter's outputs ([core/job/convert.rs]) in a context of ez-ffmpeg
    ([core/context/ffmpeg_context.rs]): one input, one filter graph with an output for
    every scale and codec, and outputs that map the audio of the input and one label
    each. *)

From stdpp Require Import base list option strings sets.
From Stdlib Require Import ZArith Lia Ascii.
From S2P Require Import Convert.
From S2P Require Import Choke.
From S2P Require Import Prelude RustInt RustStr Errors StreamSpec Muxer Binding BindRoutes BindConnect BindingSpec.

Local Open Scope string_scope.
Local Open Scope list_scope.
Local Open Scope rust_scope.

Section Converter.
  Context `{Lib : Av} `{Prof : Profile}.

Abbreviation Demuxer := (@Muxer.Demuxer Lib).

(** The frame pipeline that reports the progress filters audio. *)
Definition progress_pipeline : FramePipeline := {| pipeline_type := AVMEDIA_TYPE_AUDIO; pipeline_stream := None |}.

(** [open_output_file] for an output of the converter, up to opening the file: [i] is
    its context, [f] its format. *)
Definition open_output (f : AVOutputFormat) (i : nat) (o : Convert.Output) : Muxer :=
  Muxer_new {| url := Convert.url o; out_fmt_ctx := i; oformat := f; ctx_url := Some (Convert.url o);
               mux_frame_pipelines := map (fun _ => progress_pipeline) <$> Convert.frame_pipelines o;
               stream_map_specs := StreamMapSpec_from <$> Convert.stream_map_specs o;
               video_codec := Convert.video_codec o; audio_codec := Convert.audio_codec o; subtitle_codec_name := None;
               start_time_us := None; recording_time_us := None; framerate := None; vsync_method := VsyncAuto;
               audio_sample_rate := None; audio_channels := None; audio_sample_fmt := None; video_qscale := None; audio_qscale := None;
               copy_ts := false |} [].

(** [convert], up to the start of the context: the input [d] has been opened. *)
Definition convert_context (job : ConvertJob) (input output : string) (f : AVOutputFormat) (d : Demuxer) : outcome (result FfmpegContext Error) :=
  let outputs := convert_outputs job output in
  new_with_options false [Some input] (Some ∘ Convert.url <$> outputs) [(filter_desc job, None)] (Ok [d])
    (Ok (imap (open_output f) outputs)) false.

(** What [Demuxer::new] establishes: the types of the streams are those of their
    parameters. *)
Definition typed_input (d : Demuxer) : Prop :=
  forall i st, dem_streams d !! i = Some st ->
    exists s p, streams (in_fmt_ctx d) !! i = Some (Some s) /\ st_codecpar s = Some p /\ codec_type p = ds_type st.

(** The places of the audio streams. *)
Definition audio_places (d : Demuxer) : list nat :=
  filter (fun i => (ds_type <$> dem_streams d !! i) = Some AVMEDIA_TYPE_AUDIO) (seq 0 (length (dem_streams d))).

(** ** Expanding the stream maps *)

Definition audio_spec : StreamSpecifier := set_media AVMEDIA_TYPE_AUDIO specifier_default.

Lemma audio_map_specifier : map_specifier ":a?" = Ret (Ok (audio_spec, true)).
Proof. reflexivity. Qed.

Lemma matches_audio d i st :
  typed_input d -> dem_streams d !! i = Some st ->
  matches av_dict_get audio_spec (in_fmt_ctx d) i = Ret (bool_decide (ds_type st = AVMEDIA_TYPE_AUDIO)).
Proof.
  intros Ht Hi. destruct (Ht _ _ Hi) as (s & p & Hs & Hp & Hty). unfold matches, audio_spec, set_media, specifier_default.
  rewrite Hs. cbn [candidates list_type idx match_loop]. rewrite Hs. unfold check_media. cbn [media_type no_apic]. rewrite Hp, Hty.
  cbn [andb negb]. rewrite andb_true_r. destruct (bool_decide _); cbn [negb]; [|done].
  cbn [check_meta meta_key mbind outcome_bind]. unfold check_usable, check_disposition. cbn [usable_only disposition andb negb idx].
  by rewrite Nat.eqb_refl.
Qed.

Lemma matching_audio d l :
  typed_input d -> Forall (fun i => (i < length (dem_streams d))%nat) l ->
  matching audio_spec (in_fmt_ctx d) l = Ret (filter (fun i => (ds_type <$> dem_streams d !! i) = Some AVMEDIA_TYPE_AUDIO) l).
Proof.
  intros Ht. induction 1 as [|i l Hi _ IH]; [done|]. cbn [matching]. apply lookup_lt_is_Some_2 in Hi as [st Hst].
  rewrite (matches_audio _ _ _ Ht Hst). cbn [mbind outcome_bind]. rewrite IH. cbn [mbind outcome_bind]. rewrite filter_cons, Hst. cbn [fmap option_fmap option_map].
  destruct (decide _) as [[= H]|H]; [by rewrite bool_decide_eq_true_2|]. rewrite bool_decide_eq_false_2; [done|]. congruence.
Qed.

Lemma expand_audio d maps :
  typed_input d -> expand_stream_map [d] maps (StreamMapSpec_from "0:a?") = Ret (Ok (maps ++ map (file_map false 0) (audio_places d))).
Proof.
  intros Ht. unfold expand_stream_map. cbn [StreamMapSpec_from spec_linklabel spec_copy].
  change (strip_prefix "-" "0:a?") with (@None string). cbv iota beta. change (is_filter_output_linklabel "0:a?") with false. cbv iota.
  change (strtol "0:a?") with (Some (0%Z, ":a?")). cbv iota beta. cbn [length]. change ((0 <? 0)%Z || (Z.of_nat 1 <=? 0)%Z) with false. cbv iota zeta.
  rewrite audio_map_specifier. cbn [try_bind]. change (Z.to_nat 0) with 0%nat. change (index [d] 0) with (Ret d). cbn [mbind outcome_bind].
  rewrite (matching_audio d); [|done|apply Forall_forall; intros i Hi%elem_of_seq; lia]. cbn [mbind outcome_bind]. fold (audio_places d).
  destruct (audio_places d); [by rewrite app_nil_r|done].
Qed.

Lemma expand_label ds maps idx c :
  expand_stream_map ds maps (StreamMapSpec_from (stream_label idx c)) = Ret (Ok (maps ++ [filter_map (stream_label idx c) false])).
Proof. reflexivity. Qed.

(** The stream maps of an output of the converter. *)
Definition converter_maps (d : Demuxer) (idx : nat) (c : ConvertCodec) : list StreamMap :=
  map (file_map false 0) (audio_places d) ++ [filter_map (stream_label idx c) false].

Lemma expand_converter d f i job dir idx c :
  typed_input d -> exists m, expand_stream_maps [d] (open_output f i (convert_output job dir idx c)) = Ret (Ok m) /\
    settings m = settings (open_output f i (convert_output job dir idx c)) /\ stream_maps m = converter_maps d idx c.
Proof.
  intros Ht. set (m := open_output f i (convert_output job dir idx c)).
  assert (try_fold (expand_stream_map [d]) (stream_maps m) (stream_map_specs (settings m)) = Ret (Ok (converter_maps d idx c))) as Hmaps.
  { assert (stream_map_specs (settings m) = [StreamMapSpec_from "0:a?"; StreamMapSpec_from (stream_label idx c)]) as -> by (destruct c; reflexivity).
    change (stream_maps m) with (@nil StreamMap). cbn [try_fold]. rewrite (expand_audio _ _ Ht). cbn [try_bind app]. by rewrite expand_label. }
  unfold expand_stream_maps. rewrite Hmaps. cbn [try_bind]. eexists. split; [reflexivity|]. split; reflexivity.
Qed.

(** ** Binding the graph's inputs keeps the streams *)

Definition same_streams (d d' : Demuxer) : Prop := in_fmt_ctx d' = in_fmt_ctx d /\ (ds_type <$> dem_streams d') = (ds_type <$> dem_streams d).

Lemma same_streams_trans d1 d2 d3 : same_streams d1 d2 -> same_streams d2 d3 -> same_streams d1 d3.
Proof. intros [H1 H2] [H3 H4]. split; congruence. Qed.

Lemma with_stream_same_streams f i d d' : with_stream f i d = Ret d' -> (forall s, ds_type (f s) = ds_type s) -> same_streams d d'.
Proof.
  unfold with_stream, get_stream. intros H Hf. step H s Hs. apply index_Ret in Hs. apply Ret_inj in H as <-. split; [done|].
  cbn [set_streams dem_streams]. rewrite list_fmap_insert, Hf. apply list_insert_id. by rewrite list_lookup_fmap, Hs.
Qed.

Lemma connect_same_streams i d d' : connect_stream i d = Ret d' -> same_streams d d'.
Proof.
  unfold connect_stream. intros H. step H s Hs. destruct (is_used s); [by apply Ret_inj in H as <-|].
  by apply with_stream_same_streams in H.
Qed.

Lemma ifilter_same_streams g i s d g' d' : ifilter_bind_ist g i s d = Ret (Ok (g', d')) -> same_streams d d'.
Proof.
  unfold ifilter_bind_ist. intros H. step H f Hf. step H par Hpar. cbv zeta in H. step H wh Hwh. step H d1 Hd1. step H st Hst.
  destruct (avcodec_alloc_context3 _); [|done]. step H fb Hfb. step H ts Hts. step H d2 Hd2. step H node Hnode. step H d3 Hd3.
  apply Ret_inj, Ok_inj in H as [= <- <-]. apply (same_streams_trans _ d1).
  - destruct (bool_decide _); [by apply with_stream_same_streams in Hd1|by apply Ret_inj in Hd1 as <-].
  - apply (same_streams_trans _ d2); [by apply with_stream_same_streams in Hd2|by apply connect_same_streams in Hd3].
Qed.

(** The demuxers are those before, one by one. *)
Definition all_same (ds ds' : list Demuxer) : Prop := Forall2 same_streams ds ds'.

Lemma all_same_refl ds : all_same ds ds.
Proof. induction ds; by constructor. Qed.

Lemma all_same_trans ds1 ds2 ds3 : all_same ds1 ds2 -> all_same ds2 ds3 -> all_same ds1 ds3.
Proof.
  intros H. revert ds3. induction H as [|x y l l' Hxy _ IH]; intros ds3 H3; inversion H3; subst; constructor; [by eapply same_streams_trans|by apply IH].
Qed.

Lemma fg_complex_same g i ds g' ds' : fg_complex_bind_input g i ds = Ret (Ok (g', ds')) -> all_same ds ds'.
Proof.
  unfold fg_complex_bind_input. intros H. step H f Hf. step H x Hx. destruct x as [di si]. step H d Hd. apply index_Ret in Hd.
  step H y Hy. destruct y as [g1 d1]. apply Ret_inj, Ok_inj in H as [= <- <-]. apply ifilter_same_streams in Hy.
  rewrite <-(list_insert_id ds di d Hd) at 1. apply Forall2_insert; [apply all_same_refl|done].
Qed.

Lemma fg_bind_same graphs ds graphs' ds' :
  fg_bind_inputs graphs ds = Ret (Ok (graphs', ds')) -> all_same ds ds'.
Proof.
  unfold fg_bind_inputs. destruct graphs as [|g0 graphs0]. { intros [= <- <-]. apply all_same_refl. }
  intros H. step H graphs1 H1. apply (try_fold_inv (fun _ s => all_same ds s.2)) in H; [done|apply all_same_refl|].
  intros _ g _ [gs1 ds1] [gs2 ds2] _ HI Hs. cbn [snd] in *. unfold bind_inputs_of in Hs. step Hs fg Hfg. step Hs x Hx. destruct x as [fg1 ds3].
  apply Ret_inj, Ok_inj in Hs as [= <- <-]. eapply all_same_trans; [exact HI|].
  apply (try_fold_inv (fun _ s => all_same ds1 s.2)) in Hx; [done|apply all_same_refl|].
  intros _ i _ [g3 ds4] [g4 ds5] _ HI2 Hs. cbn [snd] in *. apply fg_complex_same in Hs. by eapply all_same_trans.
Qed.

Lemma same_type_lookup d d' i : same_streams d d' -> (ds_type <$> dem_streams d' !! i) = (ds_type <$> dem_streams d !! i).
Proof. intros [_ H]. by rewrite <-!list_lookup_fmap, H. Qed.

Lemma same_typed d d' : same_streams d d' -> typed_input d -> typed_input d'.
Proof.
  intros Hs Ht i st' Hst'. pose proof (same_type_lookup _ _ i Hs) as Hty. rewrite Hst' in Hty.
  destruct (dem_streams d !! i) as [st|] eqn:E; [|done]. injection Hty as Hty. destruct (Ht _ _ E) as (s & p & H1 & H2 & H3).
  exists s, p. destruct Hs as [-> _]. split_and!; congruence.
Qed.

Lemma same_audio d d' : same_streams d d' -> audio_places d' = audio_places d.
Proof.
  intros Hs. unfold audio_places. pose proof Hs as [_ Hl]. apply (f_equal length) in Hl. rewrite !length_fmap in Hl. rewrite Hl.
  apply list_filter_iff. intros i. by rewrite (same_type_lookup _ _ _ Hs).
Qed.

(** ** Connected *)

Lemma convert_outputs_elem job output i o :
  convert_outputs job output !! i = Some o -> exists dir idx c, o = convert_output job dir idx c.
Proof.
  intros H. apply list_elem_of_lookup_2 in H. unfold convert_outputs in H. apply list_elem_of_In, in_concat in H as (l & Hl & Hin).
  apply list_elem_of_In in Hl, Hin. apply elem_of_lookup_imap in Hl as (idx & s & -> & _). apply list_elem_of_fmap in Hin as (c & -> & _).
  by eexists _, _, _.
Qed.

Lemma expand_all_lookup ds muxs muxs' i m :
  expand_all ds muxs = Ret (Ok muxs') -> muxs !! i = Some m -> exists m', expand_stream_maps ds m = Ret (Ok m') /\ muxs' !! i = Some m'.
Proof.
  unfold expand_all. intros H Hi.
  apply (try_fold_inv (fun done s => length s = length done /\ forall j m, done !! j = Some m -> exists m', expand_stream_maps ds m = Ret (Ok m') /\ s !! j = Some m')) in H.
  - destruct H as [_ H]. by apply H.
  - done.
  - intros done x rest s1 s2 _ [H1 H2] Hs. step Hs m1 Hm1. apply Ret_inj, Ok_inj in Hs as <-. split; [rewrite !length_app; cbn; lia|].
    intros j mj [Hj|[Hj Hx]]%lookup_app_Some.
    + destruct (H2 _ _ Hj) as (m' & Hm' & Hl). exists m'. split; [done|]. rewrite lookup_app_l; [done|by eapply lookup_lt_Some].
    + apply list_lookup_singleton_Some in Hx as [Hz <-]. exists m1. split; [done|]. replace j with (length s1) by lia. by apply list_lookup_middle.
Qed.

Lemma fresh_outputs_of f outputs : Forall fresh_muxer (imap (open_output f) outputs).
Proof. apply Forall_lookup. intros i m Hm. rewrite list_lookup_imap in Hm. destruct (outputs !! i); [|done]. injection Hm as <-. by eexists _, _. Qed.

Lemma enabled_converter_maps d idx c : enabled (converter_maps d idx c) = converter_maps d idx c.
Proof.
  unfold converter_maps, enabled. rewrite filter_app. f_equal. induction (audio_places d) as [|s l IH]; [done|].
  cbn [map]. rewrite filter_cons. cbn. by rewrite IH.
Qed.

(** What [new_with_options] did, when it returned a context for the converter. *)
Lemma convert_context_steps job input output f d c :
  typed_input d -> convert_context job input output f d = Ret (Ok c) ->
  exists g graphs d1 demuxs2,
    init_filter_graph 0 (filter_desc job) None = Ok g /\ fg_bind_inputs [g] [d] = Ret (Ok (graphs, [d1])) /\ same_streams d d1 /\
    outputs_bind (imap (open_output f) (convert_outputs job output)) graphs [d1] = Ret (Ok (ctx_muxs c, ctx_filter_graphs c, demuxs2)) /\
    pointwise demuxer_grows demuxs2 (ctx_demuxs c) /\ check_frame_filter_pipeline (ctx_muxs c) (ctx_demuxs c) = Ok tt.
Proof.
  intros Ht. unfold convert_context, new_with_options. cbv zeta. intros H. step H u Hu. step H ds Hds. apply Ret_inj, Ok_inj in Hds as <-.
  step H x Hx. destruct x as [graphs demuxs1]. step H ms Hms. apply Ret_inj, Ok_inj in Hms as <-. step H y Hy. destruct y as [[muxs2 graphs2] demuxs2].
  step H demuxs3 H3. step H u1 Hu1. step H u2 Hu2. step H u3 Hu3. apply Ret_inj, Ok_inj in H as <-. cbn [ctx_muxs ctx_filter_graphs ctx_demuxs].
  step Hx gs Hgs. apply Ret_inj in Hgs. cbn [init_filter_graphs] in Hgs. destruct (init_filter_graph 0 (filter_desc job) None) as [g|] eqn:Eg; [|done].
  cbn [res_bind] in Hgs. apply Ok_inj in Hgs as <-. pose proof (fg_bind_same _ _ _ _ Hx) as Hsame. inversion Hsame as [|? d1 ? l Hd Hl]; subst.
  inversion Hl; subst. exists g, graphs, d1, demuxs2. split_and!; try done; [by eapply correct_all_grows|]. apply Ret_inj in Hu3. by destruct u3.
Qed.

(** The graph's text makes a stream [label] of the input's video scaled to [s]: one of
    its parts scales a stream to this width and height, and another splits the result
    into streams one of which has the label. *)
Definition scaled_to (job : ConvertJob) (label : string) (s : Scale) : Prop :=
  exists (a b : string) (n : Z) (outs : list string),
    ("[" ++ a ++ "]scale=" ++ dec (Convert.width s) ++ ":" ++ dec (Convert.height s) ++ "[" ++ b ++ "]")%string ∈ split ";"%char (filter_desc job) /\
    ("[" ++ b ++ "]split=" ++ dec n ++ sjoin "" (bracket <$> outs))%string ∈ split ";"%char (filter_desc job) /\ label ∈ outs.

Lemma no_semicolon_dec n : contains_char ";"%char (dec n) = false.
Proof. by apply dec_contains. Qed.

Lemma filter_part_split job p :
  p ∈ filter_parts job -> Forall (fun q => contains_char ";"%char q = false) (filter_parts job) ->
  p ∈ split ";"%char (filter_desc job).
Proof.
  unfold filter_desc. generalize (filter_parts job). intros l Hp Hl. revert p Hp.
  induction Hl as [|x l Hx Hl IH]; intros p; [by intros ?%not_elem_of_nil|].
  destruct l as [|y l].
  - intros ->%list_elem_of_singleton. cbn [sjoin]. rewrite split_none by done. by constructor.
  - intros Hp. change (sjoin ";" (x :: y :: l)) with (x ++ String ";" (sjoin ";" (y :: l)))%string.
    rewrite split_app by done. apply elem_of_cons in Hp as [->|Hp]; [constructor|]. apply list_elem_of_further. by apply IH.
Qed.

Lemma parts_have_no_semicolon job : Forall (fun q => contains_char ";"%char q = false) (filter_parts job).
Proof.
  assert (forall l, Forall (fun x => contains_char ";"%char x = false) l -> contains_char ";"%char (sjoin "" l) = false) as Hj.
  { intros l Hl. induction Hl as [|x l Hx Hl IH]; [done|]. destruct l as [|y l]; [done|].
    change (sjoin "" (x :: y :: l)) with (x ++ "" ++ sjoin "" (y :: l))%string. by rewrite !contains_char_app, Hx, IH. }
  assert (forall x, contains_char ";"%char (bracket x) = contains_char ";"%char x) as Hbr.
  { intros x. unfold bracket. rewrite !contains_char_app. by rewrite orb_false_r. }
  unfold filter_parts. constructor; [|apply Forall_app; split].
  - unfold split_scales. rewrite !contains_char_app, no_semicolon_dec, Hj; [done|]. apply Forall_fmap, Forall_forall. intros i _. unfold compose.
    rewrite Hbr. unfold scaled_label. by rewrite contains_char_app, no_semicolon_dec.
  - apply Forall_lookup. intros i x Hx. rewrite list_lookup_imap in Hx.
    destruct (scales_deref (cj_scales job) !! i) as [sc|]; [|done]. injection Hx as <-.
    unfold scale_filter, scaled_label, base_label. rewrite !contains_char_app, !Hbr, !contains_char_app, !no_semicolon_dec. done.
  - apply Forall_lookup. intros i x Hx. rewrite list_lookup_imap in Hx.
    destruct (scales_deref (cj_scales job) !! i) as [sc|]; [|done]. injection Hx as <-.
    unfold split_codecs, base_label. rewrite !contains_char_app, !Hbr, !contains_char_app, !no_semicolon_dec, Hj; [done|].
    apply Forall_fmap, Forall_forall. intros c _. unfold compose. rewrite Hbr. unfold stream_label. rewrite !contains_char_app, no_semicolon_dec. by destruct c.
Qed.

(** The label of an output names the stream of its scale. *)
Lemma stream_label_scaled job idx k s codec :
  scales_deref (cj_scales job) !! idx = Some s -> codecs_deref (cj_codecs job) !! k = Some codec ->
  scaled_to job (stream_label idx codec) s.
Proof.
  intros Hs Hc. exists (scaled_label idx), (base_label idx), (Z.of_nat (length (codecs_deref (cj_codecs job)))),
    (stream_label idx <$> codecs_deref (cj_codecs job)).
  split_and!.
  - apply filter_part_split; [|apply parts_have_no_semicolon]. unfold filter_parts. apply list_elem_of_further, elem_of_app. left.
    apply list_elem_of_lookup. exists idx. rewrite list_lookup_imap, Hs. cbn. f_equal. unfold scale_filter, bracket. by rewrite <-!sapp_assoc.
  - apply filter_part_split; [|apply parts_have_no_semicolon]. unfold filter_parts. apply list_elem_of_further, elem_of_app. right.
    apply list_elem_of_lookup. exists idx. rewrite list_lookup_imap, Hs. cbn. f_equal. unfold split_codecs, bracket at 1.
    rewrite <-!sapp_assoc. rewrite <-list_fmap_compose. done.
  - apply list_elem_of_fmap_2. by apply list_elem_of_lookup_2 in Hc.
Qed.

(** The outputs are made scale by scale, codec by codec. *)
Lemma concat_imap_lookup {A B} (g : nat -> A -> list B) n (l : list A) : forall idx k a x,
  (forall i a, length (g i a) = n) -> l !! idx = Some a -> g idx a !! k = Some x -> concat (imap g l) !! (idx * n + k)%nat = Some x.
Proof.
  revert g. induction l as [|b l IH]; intros g idx k a x Hg Hl Hk; [done|]. destruct idx as [|idx]; cbn [lookup list_lookup] in Hl.
  - injection Hl as ->. cbn. by apply lookup_app_l_Some.
  - cbn [imap concat]. rewrite lookup_app_r by (rewrite Hg; lia). rewrite Hg.
    replace (S idx * n + k - n)%nat with (idx * n + k)%nat by lia. apply (IH (g ∘ S) idx k a x); [by intros; apply Hg|done|done].
Qed.

Lemma convert_outputs_lookup job output idx k s codec :
  scales_deref (cj_scales job) !! idx = Some s -> codecs_deref (cj_codecs job) !! k = Some codec ->
  convert_outputs job output !! (idx * length (codecs_deref (cj_codecs job)) + k)%nat =
    Some (convert_output job (scale_dir output s) idx codec).
Proof.
  intros Hs Hc. unfold convert_outputs. apply (concat_imap_lookup _ _ _ idx k s); [|done|].
  - intros i sc. by rewrite length_fmap.
  - by rewrite list_lookup_fmap, Hc.
Qed.

(** What an output of the converter writes and with which encoder. *)
Lemma open_output_settings f i job dir idx codec :
  url (settings (open_output f i (convert_output job dir idx codec))) = path_join dir (playlist_filename codec (cj_id job)) /\
  video_codec (settings (open_output f i (convert_output job dir idx codec))) = Some (video_encoder codec).
Proof. by destruct codec. Qed.

(** C16. Of a context that is set up for the converter: the output for a scale and a
    codec has its place in the order of scales and codecs, writes the codec's playlist
    in the directory of the scale's width, and encodes with the codec's encoder.  It
    gets the audio streams of the input, in order, and behind them a video stream that
    the graph's text makes by scaling to exactly this scale's width and height. *)
Theorem converter_streams_are_connected (job : ConvertJob) (input output : string) (f : AVOutputFormat) (d : Demuxer) (c : FfmpegContext)
    (idx k : nat) (s : Scale) (codec : ConvertCodec) :
  typed_input d -> convert_context job input output f d = Ret (Ok c) ->
  scales_deref (cj_scales job) !! idx = Some s -> codecs_deref (cj_codecs job) !! k = Some codec ->
  let i := (idx * length (codecs_deref (cj_codecs job)) + k)%nat in
  exists m label, ctx_muxs c !! i = Some m /\ out_fmt_ctx (settings m) = i /\
    url (settings m) = path_join (path_join output (dec (Convert.width s))) (playlist_filename codec (cj_id job)) /\
    video_codec (settings m) = Some (video_encoder codec) /\ scaled_to job label s /\
    (forall j a, audio_places d !! j = Some a -> connected (ctx_filter_graphs c) (ctx_demuxs c) i j (file_map false 0 a)) /\
    connected (ctx_filter_graphs c) (ctx_demuxs c) i (length (audio_places d)) (filter_map label false).
Proof.
  intros Ht H Hsc Hco i. pose proof (convert_outputs_lookup job output idx k s codec Hsc Hco) as Ho. fold i in Ho.
  destruct (convert_context_steps _ _ _ _ _ _ Ht H) as (g & graphs & d1 & demuxs2 & _ & _ & Hsame & Hbind & Hgrow & _).
  apply outputs_bind_connects in Hbind as (muxs1 & Hexp & _ & Hc); [|apply fresh_outputs_of].
  set (dir := scale_dir output s) in *.
  destruct (expand_all_lookup _ _ _ i (open_output f i (convert_output job dir idx codec)) Hexp) as (m1 & Hm1 & Hi1).
  { by rewrite list_lookup_imap, Ho. }
  destruct (expand_converter d1 f i job dir idx codec (same_typed _ _ Hsame Ht)) as (m2 & Hm2 & Hset & Hmaps).
  rewrite Hm1 in Hm2. apply Ret_inj, Ok_inj in Hm2 as <-. destruct (Hc _ _ Hi1) as (m & Hm & Hs & Hmp & Hcon).
  rewrite Hset in Hs. destruct (open_output_settings f i job dir idx codec) as [Hurl Hcodec].
  exists m, (stream_label idx codec). rewrite <-Hs in Hurl, Hcodec.
  assert (out_fmt_ctx (settings m) = i) as Hctx by by rewrite Hs. clearbody i.
  split_and!; [done|done|exact Hurl|exact Hcodec|by eapply stream_label_scaled| |].
  - intros j a Hk. eapply connected_grows; [apply pointwise_refl, graph_grows_refl|exact Hgrow|]. rewrite <-Hctx. apply Hcon.
    rewrite Hmp, Hmaps, enabled_converter_maps. unfold converter_maps. rewrite (same_audio _ _ Hsame).
    apply lookup_app_l_Some. by rewrite list_lookup_fmap, Hk.
  - eapply connected_grows; [apply pointwise_refl, graph_grows_refl|exact Hgrow|]. rewrite <-Hctx. apply Hcon.
    rewrite Hmp, Hmaps, enabled_converter_maps. unfold converter_maps. rewrite (same_audio _ _ Hsame).
    apply list_lookup_middle. by rewrite length_map.
Qed.

(** ** Videos without audio *)

Definition is_video (o : OutputFilter) : Prop := of_media o = AVMEDIA_TYPE_VIDEO.
Definition video_graphs (graphs : list FilterGraph) : Prop := Forall (fun g => Forall is_video (fg_outputs g)) graphs.
Definition video_encoders (m : Muxer) : Prop := Forall (fun e => es_type e = AVMEDIA_TYPE_VIDEO) (enc_streams m).

Lemma ofilter_video mi m g k id enc src m' g' :
  Forall is_video (fg_outputs g) -> ofilter_bind_ost mi m g k id enc src = Ret (Ok (m', g')) -> video_encoders m ->
  video_encoders m' /\ Forall is_video (fg_outputs g').
Proof.
  intros Hg. unfold ofilter_bind_ost. intros H Hm. step H o Ho. apply index_Ret in Ho. step H x Hx. destruct x as [[dest j] m1]. cbv zeta in H.
  step H o2 Ho2. apply Ret_inj, Ok_inj in H as [= <- <-].
  assert (is_video o) as Hv by (rewrite Forall_lookup in Hg; by eapply Hg). split.
  - unfold add_enc_stream in Hx. step Hx y Hy. destruct y as [j1 m0]. apply new_stream_spec in Hy as (_ & _ & _ & _ & He & _).
    apply Ret_inj, Ok_inj in Hx as [= _ _ <-]. assert (video_encoders (push_enc {| es_index := j1; es_type := of_media o; encoder := enc;
      es_vsync_method := if bool_decide (of_media o = AVMEDIA_TYPE_VIDEO)
        then Some (determine_vsync_method (vsync_method (settings m0)) (framerate (settings m0)) (oformat (settings m0)) (copy_ts (settings m0))) else None;
      qscale := if bool_decide (of_media o = AVMEDIA_TYPE_VIDEO) then video_qscale (settings m0)
        else if bool_decide (of_media o = AVMEDIA_TYPE_AUDIO) then audio_qscale (settings m0) else None |} m0)) as Hp.
    { unfold video_encoders. cbn [push_enc enc_streams]. rewrite He. apply Forall_app. split; [done|]. by apply Forall_singleton. }
    destruct src as [[sf ss]|]; exact Hp.
  - cbn [set_outputs fg_outputs]. apply Forall_insert; [done|]. unfold configure_output_filter_opts in Ho2. cbv zeta in Ho2. destruct (negb _); [done|].
    step Ho2 p Hp. by apply Ret_inj, Ok_inj in Ho2 as <-.
Qed.

Lemma bind_label_video mi label l m graphs demuxs b' :
  video_graphs graphs -> video_encoders m -> bind_label mi label (m, graphs, demuxs) l = Ret (Ok b') -> video_encoders b'.1.1 /\ video_graphs b'.1.2.
Proof.
  intros Hg Hm. induction l as [|[j k] l IH]; [done|]. cbn [bind_label]. intros H. step H g Hj. apply index_Ret in Hj. step H o Ho.
  destruct (_ || _); [by apply IH|]. step H c Hc. destruct c as [[id enc]|]; [|by apply IH]. step H x Hx. destruct x as [m1 g1].
  apply Ret_inj, Ok_inj in H as <-. cbn [fst snd]. assert (Forall is_video (fg_outputs g)) as Hv.
  { unfold video_graphs in Hg. rewrite Forall_lookup in Hg. by eapply Hg. }
  destruct (ofilter_video _ _ _ _ _ _ _ _ _ Hv Hx Hm) as [H1 H2]. split; [done|]. by apply Forall_insert.
Qed.

(** A muxer that takes one output of a graph. *)
Definition label_muxer (m : Muxer) : Prop := video_encoders m /\ exists label, stream_maps m = [filter_map label false].

Lemma bind_mux_video muxs graphs demuxs i muxs' graphs' demuxs' :
  Forall label_muxer muxs -> video_graphs graphs -> bind_mux (muxs, graphs, demuxs) i = Ret (Ok (muxs', graphs', demuxs')) ->
  Forall label_muxer muxs' /\ video_graphs graphs'.
Proof.
  intros Hms Hg. unfold bind_mux. intros H. step H m Hm. apply index_Ret in Hm. step H x Hx. destruct x as [[m1 graphs1] demuxs1].
  apply Ret_inj, Ok_inj in H as [= <- <- <-].
  assert (label_muxer m) as [Hv (label & Hl)] by (rewrite Forall_lookup in Hms; by eapply Hms).
  pose proof (output_bind_binds _ _ _ Hx) as (n & (_ & Hmaps & _) & _). cbn [fst] in Hmaps. unfold output_bind in Hx. rewrite Hl in Hx.
  cbn [try_fold] in Hx. step Hx b Hb. apply Ret_inj, Ok_inj in Hx as ->. unfold map_manual in Hb. cbn [disabled linklabel filter_map] in Hb.
  apply bind_label_video in Hb as [H1 H2]; [|done|done]. cbn [fst snd] in *. split; [|done]. apply Forall_insert; [done|]. split; [done|].
  exists label. by rewrite Hmaps.
Qed.

Lemma expand_all_length ds muxs muxs' : expand_all ds muxs = Ret (Ok muxs') -> length muxs' = length muxs.
Proof.
  unfold expand_all. intros H. apply (try_fold_inv (fun done s => length s = length done)) in H; [done|done|].
  intros done x rest s1 s2 _ H1 Hs. step Hs m1 Hm1. apply Ret_inj, Ok_inj in Hs as <-. rewrite !length_app, H1. done.
Qed.

Lemma expand_keeps_encoders ds m m' : expand_stream_maps ds m = Ret (Ok m') -> enc_streams m' = enc_streams m.
Proof. unfold expand_stream_maps. intros H. step H maps Hmp. by apply Ret_inj, Ok_inj in H as <-. Qed.

Lemma converter_label_muxer d f i job dir idx codec m :
  typed_input d -> audio_places d = [] -> expand_stream_maps [d] (open_output f i (convert_output job dir idx codec)) = Ret (Ok m) -> label_muxer m.
Proof.
  intros Ht Ha Hm. destruct (expand_converter d f i job dir idx codec Ht) as (m2 & Hm2 & _ & Hmaps).
  rewrite Hm in Hm2. apply Ret_inj, Ok_inj in Hm2 as <-. split.
  - unfold video_encoders. rewrite (expand_keeps_encoders _ _ _ Hm). apply Forall_nil_2.
  - exists (stream_label idx codec). rewrite Hmaps. unfold converter_maps. by rewrite Ha.
Qed.

Lemma expand_all_label_muxers f d job output muxs1 :
  typed_input d -> audio_places d = [] -> expand_all [d] (imap (open_output f) (convert_outputs job output)) = Ret (Ok muxs1) ->
  Forall label_muxer muxs1.
Proof.
  intros Ht Ha. generalize (convert_outputs_elem job output). generalize (convert_outputs job output). intros outputs Helem Hexp.
  apply Forall_lookup. intros i m Hi. pose proof (expand_all_length _ _ _ Hexp) as Hlen. rewrite length_imap in Hlen.
  destruct (lookup_lt_is_Some_2 outputs i) as [o Ho]; [rewrite <-Hlen; by eapply lookup_lt_Some|].
  destruct (expand_all_lookup _ _ _ i (open_output f i o) Hexp) as (m' & Hm' & Hi'); [by rewrite list_lookup_imap, Ho|].
  rewrite Hi in Hi'. injection Hi' as <-. destruct (Helem _ _ Ho) as (dir & idx & codec & ->). by eapply converter_label_muxer.
Qed.

Lemma outputs_to_video l outs : Forall (fun c => inout_type c = AVMEDIA_TYPE_VIDEO) l -> inouts_to_output_filters l = Ok outs -> Forall is_video outs.
Proof.
  intros Hl. revert outs. induction Hl as [|c l Hc _ IH]; intros outs; cbn [inouts_to_output_filters]; [by intros [= <-]|].
  destruct (inout_label c); [|done]. cbn [res_bind]. destruct (describe_filter_link c); [|done]. cbn [res_bind].
  destruct (inouts_to_output_filters l) as [rest|]; [|done]. intros [= <-]. constructor; [exact Hc|by apply IH].
Qed.

Lemma link_input_video outs graphs x graphs' : link_input outs graphs x = Ret (Ok graphs') -> video_graphs graphs -> video_graphs graphs'.
Proof.
  unfold link_input. destruct x as [[i label] t]. intros H Hg. destruct (is_empty label); [by apply Ret_inj, Ok_inj in H as <-|].
  step H found Hf. destruct found as [[j k]|]; [|by apply Ret_inj, Ok_inj in H as <-]. step H dest Hd. step H g Hj. apply index_Ret in Hj.
  step H o Ho. apply index_Ret in Ho. apply Ret_inj, Ok_inj in H as <-. unfold video_graphs in *. apply Forall_insert; [done|].
  rewrite Forall_lookup in Hg. specialize (Hg _ _ Hj). cbn [set_outputs fg_outputs]. apply Forall_insert; [done|].
  rewrite Forall_lookup in Hg. exact (Hg _ _ Ho).
Qed.

Lemma fg_bind_video graphs ds graphs' ds' : fg_bind_inputs graphs ds = Ret (Ok (graphs', ds')) -> video_graphs graphs -> video_graphs graphs'.
Proof.
  unfold fg_bind_inputs. destruct graphs as [|g0 graphs0]; [by intros [= <- <-]|]. intros H Hg. step H graphs1 H1.
  assert (video_graphs graphs1) as Hg1.
  { unfold bind_fg_inputs_by_fg in H1. cbv zeta in H1. apply (try_fold_inv (fun _ gs => video_graphs gs)) in H1; [done|done|].
    intros _ x _ s1 s2 _ Hs1 Hs. by eapply link_input_video. }
  apply (try_fold_inv (fun _ s => video_graphs s.1)) in H; [done|done|].
  intros _ g _ [gs1 ds1] [gs2 ds2] _ HI Hs. cbn [fst] in *. unfold bind_inputs_of in Hs. step Hs fg Hfg. apply index_Ret in Hfg.
  step Hs x Hx. destruct x as [fg1 ds3]. apply Ret_inj, Ok_inj in Hs as [= <- <-]. apply Forall_insert; [done|].
  apply (try_fold_inv (fun _ s => fg_outputs s.1 = fg_outputs fg)) in Hx.
  - cbn [fst] in Hx. rewrite Hx. unfold video_graphs in HI. rewrite Forall_lookup in HI. by eapply HI.
  - done.
  - intros _ i _ [g3 ds4] [g4 ds5] _ HI2 Hs. cbn [fst] in *. unfold fg_complex_bind_input in Hs. step Hs f Hf. step Hs y Hy. destruct y as [di si].
    step Hs d Hd. step Hs z Hz. destruct z as [g5 d5]. apply Ret_inj, Ok_inj in Hs as [= <- <-]. apply ifilter_keeps_outputs in Hz as (Hz & _). congruence.
Qed.

Lemma convert_outputs_cons job output : exists dir idx c rest, convert_outputs job output = convert_output job dir idx c :: rest.
Proof.
  unfold convert_outputs, scales_deref, codecs_deref, DEFAULT_CODECS, RESOLUTIONS.
  destruct (cj_scales job), (cj_codecs job); cbn; by eexists _, _, _, _.
Qed.

Lemma video_only m :
  video_encoders m -> existsb (fun '(_, t) => bool_decide (t = AVMEDIA_TYPE_AUDIO)) ((fun s => (es_index s, es_type s)) <$> enc_streams m) = false.
Proof.
  unfold video_encoders. induction (enc_streams m) as [|e l IH]; [done|]. intros [He Hl]%Forall_cons. cbn. rewrite He. by apply IH.
Qed.

(** A video without audio cannot be converted: the frame pipeline that reports the
    progress asks every output for an audio stream, which the stream map [0:a?] makes
    optional. *)
Theorem silent_videos_are_refused (job : ConvertJob) (input output : string) (f : AVOutputFormat) (d : Demuxer) (c : FfmpegContext) :
  typed_input d -> audio_places d = [] ->
  (forall ins outs, avfilter_graph_segment (filter_desc job) = Ok (ins, outs) -> Forall (fun e => inout_type e = AVMEDIA_TYPE_VIDEO) outs) ->
  convert_context job input output f d <> Ret (Ok c).
Proof.
  intros Ht Ha Hgraph H. destruct (convert_context_steps _ _ _ _ _ _ Ht H) as (g & graphs & d1 & demuxs2 & Hg & Hfg & Hsame & Hbind & _ & Hcheck).
  assert (video_graphs graphs) as Hv.
  { eapply fg_bind_video; [exact Hfg|]. apply Forall_singleton. unfold init_filter_graph in Hg. destruct (contains_char _ _); [done|].
    destruct (avfilter_graph_segment (filter_desc job)) as [[ins outs]|] eqn:E; [|done]. destruct (inouts_to_input_filters 0 0 ins); [|done].
    cbn [res_bind] in Hg. destruct (inouts_to_output_filters outs) as [[|o l]|] eqn:Eo; [done| |done]. apply Ok_inj in Hg as <-.
    apply (outputs_to_video outs); [by eapply Hgraph|exact Eo]. }
  unfold outputs_bind in Hbind. step Hbind muxs1 Hexp. pose proof Hexp as Hexp'.
  apply (expand_all_label_muxers f d1 job output) in Hexp; [|by eapply same_typed|by rewrite (same_audio _ _ Hsame)].
  apply (try_fold_inv (fun _ s => Forall label_muxer s.1.1 /\ video_graphs s.1.2 /\ (settings <$> s.1.1) = (settings <$> muxs1))) in Hbind.
  - destruct Hbind as (Hmux & _ & Hset). cbn [fst snd] in *. destruct (convert_outputs_cons job output) as (dir & idx & codec & rest & Ho).
    destruct (expand_all_lookup _ _ _ 0 (open_output f 0 (convert_output job dir idx codec)) Hexp') as (m1 & Hm1 & Hi1); [by rewrite Ho|].
    destruct (expand_converter d1 f 0 job dir idx codec (same_typed _ _ Hsame Ht)) as (m2 & Hm2 & Hs & _).
    rewrite Hm1 in Hm2. apply Ret_inj, Ok_inj in Hm2 as <-. assert ((settings <$> ctx_muxs c) !! 0%nat = Some (settings m1)) as Hl.
    { by rewrite Hset, list_lookup_fmap, Hi1. }
    rewrite list_lookup_fmap in Hl. destruct (ctx_muxs c) as [|m ms]; [done|]. cbn in Hl. injection Hl as Hl. apply Forall_cons in Hmux as [[Henc _] _].
    unfold check_frame_filter_pipeline in Hcheck. cbn [check_muxs] in Hcheck. rewrite Hl, Hs in Hcheck.
    replace (default [] (mux_frame_pipelines (settings (open_output f 0 (convert_output job dir idx codec))))) with [progress_pipeline] in Hcheck
      by (destruct codec; reflexivity).
    cbn [check_pipeline progress_pipeline pipeline_stream pipeline_type] in Hcheck.
    by rewrite (video_only _ Henc) in Hcheck.
  - done.
  - intros _ i _ [[ms gs] ds] [[ms2 gs2] ds2] _ (H1 & H2 & H3) Hb. cbn [fst snd] in *. pose proof Hb as Hb2. apply bind_mux_video in Hb as [? ?]; [|done|done].
    split_and!; try done. unfold bind_mux in Hb2. step Hb2 m Hm. apply index_Ret in Hm. step Hb2 x Hx. destruct x as [[m1 graphs1] demuxs1].
    apply Ret_inj, Ok_inj in Hb2 as [= <- <- <-]. apply output_bind_binds in Hx as (n & (Hs & _) & _). cbn [fst] in Hs.
    rewrite list_fmap_insert, Hs, <-H3. apply list_insert_id. by rewrite list_lookup_fmap, Hm.
Qed.

End Converter.

(** ** The code on small inputs *)

(** One scale, both codecs. *)
Definition a_job : ConvertJob := ConvertJob_new "movie" 23 [Scale_new 720 1280] 3.

(** What the filters of [a_job] leave open: the video of the input and a label for
    each codec. *)
Definition job_graphs (desc : string) : result (list AVFilterInOut * list AVFilterInOut) Z :=
  if (desc =? filter_desc a_job)%string
  then Ok ([an_end (Some "0:v") AVMEDIA_TYPE_VIDEO "split"],
           (fun c => an_end (Some (stream_label 0 c)) AVMEDIA_TYPE_VIDEO "copy") <$> DEFAULT_CODECS)
  else simple_graphs desc.

Definition hls : AVOutputFormat := {| format_name := Some "hls"; format_flags := 0; subtitle_codec := 0; has_codec_tags := true |}.

Definition converted (types : list AVMediaType) : outcome (result (FfmpegContext (Lib := libs job_graphs)) Error) :=
  convert_context (Lib := libs job_graphs) (Prof := dev_profile) a_job "in.mp4" "out" hls (input_of job_graphs 0 types).

(** A video without audio is refused, and by the check of the frame pipelines. *)
Example silent_video : converted [AVMEDIA_TYPE_VIDEO] = Ret (Err (Error.FrameFilterTypeNoMatched "output" "AVMEDIA_TYPE_AUDIO")).
Proof. by vm_compute. Qed.

Definition converter_context : FfmpegContext (Lib := libs job_graphs) :=
  match converted av with
  | Ret (Ok c) => c
  | _ => {| independent_readrate := false; ctx_demuxs := []; ctx_filter_graphs := []; ctx_muxs := [] |}
  end.

Lemma converted_av :
  convert_context (Lib := libs job_graphs) (Prof := dev_profile) a_job "in.mp4" "out" hls (input_of job_graphs 0 av) = Ret (Ok converter_context).
Proof. vm_compute. reflexivity. Qed.

Lemma typed_input_of types : typed_input (Lib := libs job_graphs) (input_of job_graphs 0 types).
Proof.
  intros i st H. cbn [input_of dem_streams] in H. rewrite list_lookup_imap in H. destruct (types !! i) as [t|] eqn:E; [|done].
  injection H as <-. cbn [input_of in_fmt_ctx streams ds_type]. rewrite list_lookup_fmap, E. by eexists _, _.
Qed.

Lemma converter_streams_are_connected_witness :
  exists m label, ctx_muxs converter_context !! 0%nat = Some m /\ out_fmt_ctx (settings m) = 0%nat /\
    url (settings m) = path_join (path_join "out" (dec 720)) (playlist_filename Vp9 "movie") /\
    video_codec (settings m) = Some (video_encoder Vp9) /\ scaled_to a_job label (Scale_new 720 1280) /\
    (forall k s, audio_places (Lib := libs job_graphs) (input_of job_graphs 0 av) !! k = Some s ->
      connected (Lib := libs job_graphs) (ctx_filter_graphs converter_context) (ctx_demuxs converter_context) 0 k (file_map false 0 s)) /\
    connected (Lib := libs job_graphs) (ctx_filter_graphs converter_context) (ctx_demuxs converter_context) 0
      (length (audio_places (Lib := libs job_graphs) (input_of job_graphs 0 av))) (filter_map label false).
Proof.
  exact (@converter_streams_are_connected (libs job_graphs) dev_profile a_job "in.mp4" "out" hls (input_of job_graphs 0 av) converter_context
    0 0 (Scale_new 720 1280) Vp9 (typed_input_of av) converted_av eq_refl eq_refl).
Defined.

Lemma silent_videos_are_refused_witness :
  converted [AVMEDIA_TYPE_VIDEO] <> Ret (Ok converter_context).
Proof.
  apply (@silent_videos_are_refused (libs job_graphs) dev_profile a_job "in.mp4" "out" hls (input_of job_graphs 0 [AVMEDIA_TYPE_VIDEO])
    converter_context (typed_input_of _) eq_refl).
  intros ins outs H. vm_compute in H. injection H as <- <-. repeat constructor.
Defined.
