(* ===== verification/Metadata.v ===== *)
(** * Metadata of outputs ([ez-ffmpeg/src/core/metadata/operations.rs],
    [metadata_type.rs], [default_behavior.rs], [process_metadata] of
    [core/context/ffmpeg_context.rs] and the setters of [core/context/output.rs])

    An output's dictionaries get what its user maps from the inputs, then the chapters
    and the metadata that are copied by default, then the user's own entries.  The
    functions of libavutil on dictionaries are the class [AvDict].  A [HashMap] of Rust
    is iterated in an order that the program does not know: the class [HashOrder]. *)

From stdpp Require Import base list option strings gmap.
From Stdlib Require Import ZArith Lia Ascii.
From S2P Require Import Choke.
From S2P Require Import Prelude RustInt RustStr Errors StreamSpec Muxer Binding.

Local Open Scope string_scope.
Local Open Scope Z_scope.
Local Open Scope rust_scope.

(** [dict_null] is the null pointer, which is an empty dictionary; the boolean of
    [av_dict_copy] is [AV_DICT_DONT_OVERWRITE], its first dictionary the destination.
    The tables of chapters may find no memory. *)
Class AvDict `{Lib : Av} := {
  dict_null : Dict;
  av_dict_set : Dict -> string -> option string -> Dict * Z;
  av_dict_copy : bool -> Dict -> Dict -> Dict;
  realloc_chapters : nat -> bool;
  chapter_alloc : nat -> bool
}.

(** The order of [HashMap]'s iterators: any. *)
Class HashOrder := {
  iter_strings : gmap string string -> list (string * string);
  iter_indices : gmap nat (gmap string string) -> list (nat * gmap string string);
  iter_strings_law : forall m, iter_strings m ≡ₚ map_to_list m;
  iter_indices_law : forall m, iter_indices m ≡ₚ map_to_list m
}.

(** ** Which dictionary *)

Inductive MetadataType :=
  | Global
  | Stream (specifier : StreamSpecifier)
  | Chapter (index : Z)
  | Program (index : Z).

(** The first character, with all its bytes. *)
Definition first_char (s : string) : string := stake (slen s - slen (next_char s)) s.

Definition parse_index (kind spec remainder : string) (make : Z -> MetadataType) : outcome (result MetadataType string) :=
  if negb (starts_with ":" remainder) then Ret (Err ("Invalid metadata specifier: " ++ spec))
  else
    let index_str := sdrop 1 remainder in
    match parse_uint 64 index_str with
    | Some index => Ret (Ok (make index))
    | None => Ret (Err ("Invalid " ++ kind ++ " index: " ++ index_str))
    end.

Definition MetadataType_parse (spec : string) : outcome (result MetadataType string) :=
  match spec with
  | "" => Ret (Ok Global)
  | String type_char remainder =>
    match type_char with
    | "g"%char => Ret (if is_empty remainder then Ok Global else Err ("Invalid metadata specifier: " ++ spec))
    | "s"%char =>
      if is_empty remainder then Ret (Ok (Stream specifier_default))
      else match strip_prefix ":" remainder with
           | Some stream_spec =>
             if is_empty stream_spec then Ret (Ok (Stream specifier_default))
             else let? specifier := parse stream_spec in Ret (Ok (Stream specifier))
           | None => Ret (Err ("Invalid metadata specifier: " ++ spec))
           end
    | "c"%char => parse_index "chapter" spec remainder Chapter
    | "p"%char => parse_index "program" spec remainder Program
    | _ => Ret (Err ("Invalid metadata type: " ++ first_char spec))
    end
  end.

Record MetadataMapping := { src_type : MetadataType; dst_type : MetadataType; input_index : nat }.

(** ** What the user asks for: the fields of [Output], and their setters *)

Record MetadataOptions := {
  global_metadata : option (gmap string string);
  stream_metadata : list (string * string * string);
  chapter_metadata : gmap nat (gmap string string);
  program_metadata : gmap nat (gmap string string);
  metadata_map : list MetadataMapping;
  auto_copy_metadata : bool
}.

Definition options_new : MetadataOptions :=
  {| global_metadata := None; stream_metadata := []; chapter_metadata := ∅; program_metadata := ∅; metadata_map := [];
     auto_copy_metadata := true |}.

Definition set_global (g : option (gmap string string)) (o : MetadataOptions) : MetadataOptions :=
  {| global_metadata := g; stream_metadata := stream_metadata o; chapter_metadata := chapter_metadata o;
     program_metadata := program_metadata o; metadata_map := metadata_map o; auto_copy_metadata := auto_copy_metadata o |}.

Definition remove_metadata (key : string) (o : MetadataOptions) : MetadataOptions :=
  match global_metadata o with Some m => set_global (Some (delete key m)) o | None => o end.

Definition add_metadata (key value : string) (o : MetadataOptions) : MetadataOptions :=
  if is_empty value then remove_metadata key o
  else set_global (Some (<[key := value]> (default ∅ (global_metadata o)))) o.

Definition add_metadata_map `{HashOrder} (m : gmap string string) (o : MetadataOptions) : MetadataOptions :=
  fold_left (fun o kv => add_metadata kv.1 kv.2 o) (iter_strings m) o.

Definition clear_all_metadata (o : MetadataOptions) : MetadataOptions :=
  {| global_metadata := None; stream_metadata := []; chapter_metadata := ∅; program_metadata := ∅; metadata_map := [];
     auto_copy_metadata := auto_copy_metadata o |}.

Definition disable_auto_copy_metadata (o : MetadataOptions) : MetadataOptions :=
  {| global_metadata := global_metadata o; stream_metadata := stream_metadata o; chapter_metadata := chapter_metadata o;
     program_metadata := program_metadata o; metadata_map := metadata_map o; auto_copy_metadata := false |}.

Definition add_stream_metadata (stream_spec key value : string) (o : MetadataOptions)
    : outcome (result MetadataOptions string) :=
  let? _ := parse stream_spec in
  Ret (Ok {| global_metadata := global_metadata o; stream_metadata := (stream_metadata o ++ [(stream_spec, key, value)])%list;
             chapter_metadata := chapter_metadata o; program_metadata := program_metadata o; metadata_map := metadata_map o;
             auto_copy_metadata := auto_copy_metadata o |}).

(** The maps of chapters and of programs; [entry(i).or_default()]. *)
Definition add_indexed (i : nat) (key value : string) (m : gmap nat (gmap string string)) : gmap nat (gmap string string) :=
  if is_empty value then match m !! i with Some d => <[i := delete key d]> m | None => m end
  else <[i := <[key := value]> (default ∅ (m !! i))]> m.

Definition add_chapter_metadata (i : nat) (key value : string) (o : MetadataOptions) : MetadataOptions :=
  {| global_metadata := global_metadata o; stream_metadata := stream_metadata o;
     chapter_metadata := add_indexed i key value (chapter_metadata o); program_metadata := program_metadata o;
     metadata_map := metadata_map o; auto_copy_metadata := auto_copy_metadata o |}.

Definition add_program_metadata (i : nat) (key value : string) (o : MetadataOptions) : MetadataOptions :=
  {| global_metadata := global_metadata o; stream_metadata := stream_metadata o; chapter_metadata := chapter_metadata o;
     program_metadata := add_indexed i key value (program_metadata o); metadata_map := metadata_map o;
     auto_copy_metadata := auto_copy_metadata o |}.

Definition map_metadata_from_input (i : nat) (src_type_spec dst_type_spec : string) (o : MetadataOptions)
    : outcome (result MetadataOptions string) :=
  let? s := MetadataType_parse src_type_spec in
  let? d := MetadataType_parse dst_type_spec in
  Ret (Ok {| global_metadata := global_metadata o; stream_metadata := stream_metadata o;
             chapter_metadata := chapter_metadata o; program_metadata := program_metadata o;
             metadata_map := (metadata_map o ++ [{| src_type := s; dst_type := d; input_index := i |}])%list;
             auto_copy_metadata := auto_copy_metadata o |}).

Section Metadata.
  Context `{Dicts : AvDict} `{Hash : HashOrder} `{Prof : Profile}.

(** ** Contexts of libavformat *)

Record AVChapter := { ch_id : Z; ch_time_base : AVRational; ch_start : Z; ch_end : Z; ch_metadata : Dict }.

Record MetaProgram := { mp_program : AVProgram; mp_metadata : Dict }.

(** [AVFormatContext], with the dictionaries of its parts.  There are fewer than 2^32 of
    each of them. *)
Record FormatCtx := {
  fc_metadata : Dict;
  fc_streams : list (option (AVStream (Dict := Dict)));
  fc_programs : list (option MetaProgram);
  fc_groups : list (option AVStreamGroup);
  fc_chapters : list (option AVChapter)
}.

(** What [StreamSpecifier::matches] looks at. *)
Definition fmt_view (c : FormatCtx) : AVFormatContext (Dict := Dict) :=
  {| streams := fc_streams c; programs := option_map mp_program <$> fc_programs c; stream_groups := fc_groups c |}.

Definition with_metadata (d : Dict) (c : FormatCtx) : FormatCtx :=
  {| fc_metadata := d; fc_streams := fc_streams c; fc_programs := fc_programs c; fc_groups := fc_groups c; fc_chapters := fc_chapters c |}.

Definition set_stream_metadata (d : Dict) (s : AVStream (Dict := Dict)) : AVStream (Dict := Dict) :=
  {| st_id := st_id s; st_disposition := st_disposition s; st_codecpar := st_codecpar s; st_metadata := d |}.

Definition with_stream_at (i : nat) (s : AVStream (Dict := Dict)) (c : FormatCtx) : FormatCtx :=
  {| fc_metadata := fc_metadata c; fc_streams := <[i := Some s]> (fc_streams c); fc_programs := fc_programs c;
     fc_groups := fc_groups c; fc_chapters := fc_chapters c |}.

Definition with_chapters (l : list (option AVChapter)) (c : FormatCtx) : FormatCtx :=
  {| fc_metadata := fc_metadata c; fc_streams := fc_streams c; fc_programs := fc_programs c; fc_groups := fc_groups c; fc_chapters := l |}.

Definition set_chapter_metadata (d : Dict) (x : AVChapter) : AVChapter :=
  {| ch_id := ch_id x; ch_time_base := ch_time_base x; ch_start := ch_start x; ch_end := ch_end x; ch_metadata := d |}.

Definition with_program_at (i : nat) (p : MetaProgram) (c : FormatCtx) : FormatCtx :=
  {| fc_metadata := fc_metadata c; fc_streams := fc_streams c; fc_programs := <[i := Some p]> (fc_programs c);
     fc_groups := fc_groups c; fc_chapters := fc_chapters c |}.

(** [slice::from_raw_parts(ptr, nb)] of a table that libavformat allocates with its first
    entry.  A null pointer breaks the function's contract: a build with debug assertions
    aborts, another one goes on with no entries. *)
Definition raw_parts {A} (l : list A) : outcome (list A) :=
  match l with [] => if debug_assertions then Panic else Ret [] | _ => Ret l end.

(** A loop that an error ends; what it did before stays done. *)
Fixpoint each {A S} (f : A -> S -> outcome (result unit string * S)) (l : list A) (s : S) : outcome (result unit string * S) :=
  match l with
  | [] => Ret (Ok tt, s)
  | x :: l =>
    r ← f x s;
    match r with
    | (Ok _, s) => each f l s
    | (Err e, s) => Ret (Err e, s)
    end
  end.

(** One step, then the next. *)
Definition then_ {S} (f g : S -> outcome (result unit string * S)) (s : S) : outcome (result unit string * S) :=
  r ← f s;
  match r with
  | (Ok _, s) => g s
  | (Err e, s) => Ret (Err e, s)
  end.

(** ** [of_add_metadata] *)

Fixpoint nul_position (s : string) : option Z :=
  match s with
  | "" => None
  | String c s => if Ascii.eqb c "000" then Some 0 else Z.succ <$> nul_position s
  end.

(** [CString::new(s)], with the error's message. *)
Definition CString_new (s : string) : result string string :=
  match nul_position s with
  | None => Ok s
  | Some n => Err ("nul byte found in provided data at position: " ++ dec n)
  end.

(** One entry; the code of [av_dict_set] is only logged. *)
Definition set_entry (d : Dict) (key value : string) : result Dict string :=
  let! c_key := map_err (fun e => "Invalid key '" ++ key ++ "': " ++ e) (CString_new key) in
  if is_empty value then Ok (fst (av_dict_set d c_key None))
  else
    let! c_value := map_err (fun e => "Invalid value for key '" ++ key ++ "': " ++ e) (CString_new value) in
    Ok (fst (av_dict_set d c_key (Some c_value))).

Fixpoint put_all (l : list (string * string)) (d : Dict) : result unit string * Dict :=
  match l with
  | [] => (Ok tt, d)
  | (key, value) :: l =>
    match set_entry d key value with
    | Ok d => put_all l d
    | Err e => (Err e, d)
    end
  end.

Definition add_global (metadata : option (gmap string string)) (c : FormatCtx) : outcome (result unit string * FormatCtx) :=
  match metadata with
  | None => Ret (Ok tt, c)
  | Some m => let '(r, d) := put_all (iter_strings m) (fc_metadata c) in Ret (r, with_metadata d c)
  end.

(** The stream at a place, if the specifier matches it. *)
Definition add_to_stream (specifier : StreamSpecifier) (key value : string) (i : nat) (c : FormatCtx)
    : outcome (result unit string * FormatCtx) :=
  match fc_streams c !! i with
  | None | Some None => Ret (Ok tt, c)
  | Some (Some s) =>
    m ← matches av_dict_get specifier (fmt_view c) i;
    if m : bool then
      match set_entry (st_metadata s) key value with
      | Ok d => Ret (Ok tt, with_stream_at i (set_stream_metadata d s) c)
      | Err e => Ret (Err e, c)
      end
    else Ret (Ok tt, c)
  end.

Definition add_stream (entry : string * string * string) (c : FormatCtx) : outcome (result unit string * FormatCtx) :=
  let '(spec_str, key, value) := entry in
  r ← parse spec_str;
  match r with
  | Err e => Ret (Err ("Invalid stream specifier '" ++ spec_str ++ "': " ++ e), c)
  | Ok specifier =>
    l ← raw_parts (fc_streams c);
    each (add_to_stream specifier key value) (seq 0 (length l)) c
  end.

Definition add_chapter (entry : nat * gmap string string) (c : FormatCtx) : outcome (result unit string * FormatCtx) :=
  let '(chapter_idx, metadata) := entry in
  match fc_chapters c !! chapter_idx with
  | None | Some None => Ret (Ok tt, c)
  | Some (Some x) =>
    let '(r, d) := put_all (iter_strings metadata) (ch_metadata x) in
    Ret (r, with_chapters (<[chapter_idx := Some (set_chapter_metadata d x)]> (fc_chapters c)) c)
  end.

Definition add_program (entry : nat * gmap string string) (c : FormatCtx) : outcome (result unit string * FormatCtx) :=
  let '(program_idx, metadata) := entry in
  match fc_programs c !! program_idx with
  | None | Some None => Ret (Ok tt, c)
  | Some (Some p) =>
    let '(r, d) := put_all (iter_strings metadata) (mp_metadata p) in
    Ret (r, with_program_at program_idx {| mp_program := mp_program p; mp_metadata := d |} c)
  end.

(** With the context that it leaves. *)
Definition of_add_metadata (o : MetadataOptions) (oc : FormatCtx) : outcome (result unit string * FormatCtx) :=
  then_ (add_global (global_metadata o))
    (then_ (each add_stream (stream_metadata o))
      (then_ (each add_chapter (iter_indices (chapter_metadata o)))
        (each add_program (iter_indices (program_metadata o))))) oc.

(** ** [copy_metadata] *)

Definition copy_under (d src : Dict) : Dict := av_dict_copy true d src.

Fixpoint first_stream (specifier : StreamSpecifier) (c : FormatCtx) (places : list nat) : outcome (option Dict) :=
  match places with
  | [] => Ret None
  | i :: places =>
    match fc_streams c !! i with
    | Some (Some s) =>
      m ← matches av_dict_get specifier (fmt_view c) i;
      if m : bool then Ret (Some (st_metadata s)) else first_stream specifier c places
    | _ => first_stream specifier c places
    end
  end.

(** The entry of a table at an index of the user's; a null pointer there is read. *)
Definition entry_at {A} (what kind : string) (l : list (option A)) (i : Z) : outcome (result A string) :=
  if Z.of_nat (length l) <=? i then
    Ret (Err ("Invalid " ++ what ++ " " ++ kind ++ " index " ++ dec i ++ ": only " ++ dec (Z.of_nat (length l)) ++ " " ++ kind ++ "s exist"))
  else
    match l !! Z.to_nat i with
    | Some (Some x) => Ret (Ok x)
    | _ => Panic
    end.

(** [None] for no matching stream *)
Definition source_dict (input : FormatCtx) (t : MetadataType) : outcome (result (option Dict) string) :=
  match t with
  | Global => Ret (Ok (Some (fc_metadata input)))
  | Stream specifier =>
    l ← raw_parts (fc_streams input);
    d ← first_stream specifier input (seq 0 (length l));
    Ret (Ok d)
  | Chapter i => let? x := entry_at "source" "chapter" (fc_chapters input) i in Ret (Ok (Some (ch_metadata x)))
  | Program i => let? p := entry_at "source" "program" (fc_programs input) i in Ret (Ok (Some (mp_metadata p)))
  end.

Definition copy_to_stream (specifier : StreamSpecifier) (src_dict : Dict) (c : FormatCtx) (i : nat) : outcome FormatCtx :=
  match fc_streams c !! i with
  | Some (Some s) =>
    m ← matches av_dict_get specifier (fmt_view c) i;
    Ret (if m : bool then with_stream_at i (set_stream_metadata (copy_under (st_metadata s) src_dict) s) c else c)
  | _ => Ret c
  end.

Definition copy_to (output : FormatCtx) (src_dict : Dict) (t : MetadataType) : outcome (result FormatCtx string) :=
  match t with
  | Global => Ret (Ok (with_metadata (copy_under (fc_metadata output) src_dict) output))
  | Stream specifier =>
    l ← raw_parts (fc_streams output);
    c ← foldM (copy_to_stream specifier src_dict) output (seq 0 (length l));
    Ret (Ok c)
  | Chapter i =>
    let? x := entry_at "destination" "chapter" (fc_chapters output) i in
    Ret (Ok (with_chapters (<[Z.to_nat i := Some (set_chapter_metadata (copy_under (ch_metadata x) src_dict) x)]> (fc_chapters output)) output))
  | Program i =>
    let? p := entry_at "destination" "program" (fc_programs output) i in
    Ret (Ok (with_program_at (Z.to_nat i) {| mp_program := mp_program p; mp_metadata := copy_under (mp_metadata p) src_dict |} output))
  end.

(** The output as it is afterwards; an error leaves it as it was. *)
Definition copy_metadata (input : option FormatCtx) (output : FormatCtx) (src dst : MetadataType)
    : outcome (result FormatCtx string) :=
  match input with
  | None => Ret (Err "Input AVFormatContext is null")
  | Some input =>
    let? d := source_dict input src in
    match d with
    | None => Ret (Ok output)
    | Some src_dict => copy_to output src_dict dst
    end
  end.

(** ** [copy_metadata_default] *)

Definition del (d : Dict) (key : string) : Dict := fst (av_dict_set d key None).

Definition default_global (recording_time_set : bool) (input output : FormatCtx) : FormatCtx :=
  let d := copy_under (fc_metadata output) (fc_metadata input) in
  let d := del (del (del (del d "creation_time") "company_name") "product_name") "product_version" in
  with_metadata (if recording_time_set then del d "duration" else d) output.

Definition default_stream (input_ctxs : list (option FormatCtx)) (count : nat) (encoding_streams : list nat) (output : FormatCtx)
    (entry : nat * (nat * nat)) : outcome FormatCtx :=
  let '(output_idx, (input_file_idx, input_stream_idx)) := entry in
  if (count <=? output_idx)%nat then Ret output
  else match input_ctxs !! input_file_idx with
  | None | Some None => Ret output
  | Some (Some input) =>
    if (length (fc_streams input) <=? input_stream_idx)%nat then Ret output
    else
      o ← index (fc_streams output) output_idx;
      match o, fc_streams input !! input_stream_idx with
      | Some out, Some (Some s) =>
        let d := copy_under (st_metadata out) (st_metadata s) in
        let d := if bool_decide (output_idx ∈ encoding_streams) then del d "encoder" else d in
        Ret (with_stream_at output_idx (set_stream_metadata d out) output)
      | _, _ => Ret output
      end
  end.

(** [count] is what the muxer counts, not libavformat. *)
Definition copy_metadata_default (input_ctxs : list (option FormatCtx)) (output : FormatCtx) (count : nat)
    (mapping : list (nat * (nat * nat))) (encoding_streams : list nat)
    (recording_time_set auto_copy_enabled skip_global_copy skip_stream_copy : bool) : outcome FormatCtx :=
  if negb auto_copy_enabled then Ret output
  else
    let output :=
      match skip_global_copy, input_ctxs with
      | false, Some first_input :: _ => default_global recording_time_set first_input output
      | _, _ => output
      end in
    if negb skip_stream_copy && (0 <? count)%nat && negb (bool_decide (fc_streams output = []))
    then foldM (default_stream input_ctxs count encoding_streams) output mapping
    else Ret output.

(** ** [copy_chapters_from_input] *)

Definition i64_min : Z := - 2 ^ 63.

Definition clamp_i128_to_i64 (value : Z) : Z :=
  if i64_max <? value then i64_max else if value <? i64_min then i64_min else value.

(** [a.saturating_add(b)], and with [- b] [a.saturating_sub(b)], on [i64] *)
Definition sat_i64 (x : Z) : Z := clamp_i128_to_i64 x.

(** The offset of the output's times and its duration, in the chapter's time base. *)
Definition chapter_offset (start_time input_ts_offset_us : Z) (x : AVChapter) : Z :=
  av_rescale_q (clamp_i128_to_i64 (start_time - input_ts_offset_us)) AV_TIME_BASE_Q (ch_time_base x).

Definition chapter_duration (recording_time : Z) (x : AVChapter) : Z :=
  if recording_time =? i64_max then i64_max else av_rescale_q recording_time AV_TIME_BASE_Q (ch_time_base x).

Definition shifted (copy_metadata : bool) (ts_off rt : Z) (x : AVChapter) : AVChapter :=
  let start := Z.max 0 (sat_i64 (ch_start x - ts_off)) in
  let e := sat_i64 (ch_end x - ts_off) in
  let e := if rt =? i64_max then e else Z.min e rt in
  {| ch_id := ch_id x; ch_time_base := ch_time_base x; ch_start := start; ch_end := Z.max e start;
     ch_metadata := if copy_metadata then av_dict_copy false dict_null (ch_metadata x) else dict_null |}.

Fixpoint copy_chapters (start_time input_ts_offset_us recording_time : Z) (copy_metadata : bool) (l out : list (option AVChapter))
    : result (list (option AVChapter)) string :=
  match l with
  | [] => Ok out
  | None :: l => copy_chapters start_time input_ts_offset_us recording_time copy_metadata l out
  | Some x :: l =>
    let ts_off := chapter_offset start_time input_ts_offset_us x in
    let rt := chapter_duration recording_time x in
    if ch_end x <? ts_off then copy_chapters start_time input_ts_offset_us recording_time copy_metadata l out
    else if negb (rt =? i64_max) && (sat_i64 (ts_off + rt) <? ch_start x) then Ok out
    else if negb (chapter_alloc (length out)) then Err "Failed to allocate chapter"
    else copy_chapters start_time input_ts_offset_us recording_time copy_metadata l (out ++ [Some (shifted copy_metadata ts_off rt x)])%list
  end.

(** An error leaves the number of chapters as it was. *)
Definition copy_chapters_from_input (input : option FormatCtx) (input_ts_offset_us : Z) (output : FormatCtx)
    (mux_start_time_us mux_recording_time_us : option Z) (copy_metadata : bool) : result FormatCtx string :=
  match input with
  | None => Err "AVFormatContext is null"
  | Some input =>
    match fc_chapters input with
    | [] => Ok output
    | l =>
      if negb (realloc_chapters (Nat.max 1 (length (fc_chapters output) + length l))) then Err "Failed to grow chapter table"
      else
        let! out := copy_chapters (default 0 mux_start_time_us) input_ts_offset_us (default i64_max mux_recording_time_us)
                      copy_metadata l (fc_chapters output) in
        Ok (with_chapters out output)
    end
  end.

(** ** [process_metadata] *)

(** Which kinds of metadata the user maps: the file's, streams', chapters'. *)
Definition mark_manual (marks : bool * bool * bool) (t : MetadataType) : bool * bool * bool :=
  let '(g, s, c) := marks in
  match t with
  | Global => (true, s, c)
  | Stream _ => (g, true, c)
  | Chapter _ => (g, s, true)
  | Program _ => (g, s, c)
  end.

Definition mark_mapping (marks : bool * bool * bool) (m : MetadataMapping) : bool * bool * bool :=
  mark_manual (mark_manual marks (src_type m)) (dst_type m).

(** A warning is all that an error leads to. *)
Definition unless_err {E} (c : FormatCtx) (r : result FormatCtx E) : FormatCtx := match r with Ok c => c | Err _ => c end.

Definition apply_mapping (inputs : list (option FormatCtx)) (output : FormatCtx) (m : MetadataMapping) : outcome FormatCtx :=
  match inputs !! input_index m with
  | None => Ret output
  | Some input => r ← copy_metadata input output (src_type m) (dst_type m); Ret (unless_err output r)
  end.

Definition has_chapters (input : option FormatCtx * Z) : bool :=
  match fst input with Some c => negb (bool_decide (fc_chapters c = [])) | None => false end.

Definition auto_chapters (o : MetadataOptions) (s : MuxSettings) (demuxs : list (option FormatCtx * Z)) (output : FormatCtx) : FormatCtx :=
  match List.find has_chapters demuxs with
  | None => output
  | Some (input, ts_offset) =>
    unless_err output (copy_chapters_from_input input ts_offset output (start_time_us s) (recording_time_us s) true)
  end.

(** A demuxer is its context and [ts_offset]; the output's context is returned. *)
Definition process_metadata (o : MetadataOptions) (mux : Muxer) (demuxs : list (option FormatCtx * Z)) (output : FormatCtx)
    : outcome FormatCtx :=
  let input_ctxs := demuxs.*1 in
  let '(global_manual, streams_manual, chapters_manual) := fold_left mark_mapping (metadata_map o) (false, false, false) in
  output ← foldM (apply_mapping input_ctxs) output (metadata_map o);
  let output := if auto_copy_metadata o && negb chapters_manual then auto_chapters o (settings mux) demuxs output else output in
  output ← (if auto_copy_metadata o then
              copy_metadata_default input_ctxs output (nb_streams mux) (stream_input_mapping (stream_sources mux))
                (encoding_streams (stream_sources mux))
                (match recording_time_us (settings mux) with Some _ => true | None => false end)
                (auto_copy_metadata o) global_manual streams_manual
            else Ret output);
  r ← of_add_metadata o output;
  Ret (snd r).

End Metadata.
