(* ===== verification/MetadataSpec.v ===== *)
(** * What the metadata of an output is: the user's entries come before what is mapped,
    and that before what is copied by default; a stream inherits from the stream that it
    is made of; the chapters are those of the part that is recorded. *)

From stdpp Require Import base list option strings gmap sorting.
From Stdlib Require Import ZArith Lia Ascii.
From S2P Require Import Choke.
From S2P Require Import Prelude RustInt RustStr Errors StreamSpec StreamSpecSpec Muxer Binding Metadata.

Local Open Scope string_scope.
Local Open Scope Z_scope.
Local Open Scope rust_scope.

(** Keys are the same but for the case of ASCII letters. *)
Definition same_key (a b : string) : bool := (to_ascii_lowercase a =? to_ascii_lowercase b)%string.

(** What libavutil documents of its dictionaries, as long as memory lasts.  A dictionary
    has one entry for a key unless [AV_DICT_MULTIKEY] is used. *)
Class DictLaws `{Dicts : AvDict} := {
  single : Dict -> Prop;
  single_null : single dict_null;
  single_set : forall d k v, single d -> single (fst (av_dict_set d k v));
  single_copy : forall b d src, single d -> single (av_dict_copy b d src);
  get_null : forall k, av_dict_get dict_null k = None;
  get_set : forall d k v k', single d -> av_dict_get (fst (av_dict_set d k v)) k' = if same_key k' k then v else av_dict_get d k';
  get_copy : forall d src k, single d ->
    av_dict_get (av_dict_copy true d src) k = match av_dict_get d k with Some v => Some v | None => av_dict_get src k end
}.

Lemma same_key_refl k : same_key k k = true.
Proof. apply String.eqb_refl. Qed.

Lemma same_key_eq a b : same_key a b = true <-> to_ascii_lowercase a = to_ascii_lowercase b.
Proof. apply String.eqb_eq. Qed.

(** ** The metadata types that can be written *)

Definition show_type (t : MetadataType) : string :=
  match t with
  | Global => "g"
  | Stream ss => if bool_decide (show ss = "") then "s" else "s:" ++ show ss
  | Chapter n => "c:" ++ dec n
  | Program n => "p:" ++ dec n
  end.

Definition type_ok (t : MetadataType) : Prop :=
  match t with
  | Global => True
  | Stream ss => ss = specifier_default \/ (well_formed ss /\ meaningless ss = false)
  | Chapter n | Program n => fits 64 n
  end.

(** A metadata type that is written out reads back as itself. *)
Theorem shown_type_parses (t : MetadataType) : type_ok t -> MetadataType_parse (show_type t) = Ret (Ok t).
Proof.
  destruct t as [|ss|n|n]; cbn [show_type type_ok]; [done|..].
  - intros [->|[Hw Hm]]; [done|]. case_bool_decide as E; [by rewrite meaningless_not_shown in Hm|].
    unfold MetadataType_parse. change ("s:" ++ show ss) with (String "s" (String ":" (show ss))). cbn [is_empty strip_prefix].
    change (Ascii.eqb ":" ":") with true. cbn iota.
    assert (is_empty (show ss) = false) as -> by by destruct (show ss). by rewrite shown_specifier_parses.
  - intros Hn. change (parse_index "chapter" (String "c" (":" ++ dec n)) (":" ++ dec n) Chapter = Ret (Ok (Chapter n))).
    unfold parse_index. change (sdrop 1 (":" ++ dec n)) with (dec n). by rewrite parse_dec.
  - intros Hn. change (parse_index "program" (String "p" (":" ++ dec n)) (":" ++ dec n) Program = Ret (Ok (Program n))).
    unfold parse_index. change (sdrop 1 (":" ++ dec n)) with (dec n). by rewrite parse_dec.
Qed.

Section Layers.
  Context `{Laws : DictLaws} `{Hash : HashOrder} `{Prof : Profile}.

(** ** Entries *)

Definition no_nul (s : string) : Prop := nul_position s = None.

(** What an entry of the user makes of its key. *)
Definition entry_value (v : string) : option string := if is_empty v then None else Some v.

Lemma put_value d k v : no_nul k -> no_nul v -> set_entry d k v = Ok (fst (av_dict_set d k (entry_value v))).
Proof. unfold no_nul, set_entry, CString_new, entry_value. intros -> ->. cbn. by destruct (is_empty v). Qed.

Lemma put_all_single l d : single d -> single (snd (put_all l d)).
Proof.
  revert d. induction l as [|[k v] l IH]; intros d Hd; cbn [put_all]; [done|].
  destruct (set_entry d k v) as [d'|e] eqn:E; [|done]. apply IH. revert E. unfold set_entry. destruct (CString_new k); [|done]. cbn [map_err res_bind].
  destruct (is_empty v); [by intros [= <-]; apply single_set|]. destruct (CString_new v); [|done]. cbn [map_err res_bind].
  by intros [= <-]; apply single_set.
Qed.

(** Entries with different keys that have no zero bytes: all of them are set. *)
Lemma put_all_get l d :
  single d -> Forall (fun kv => no_nul kv.1 /\ no_nul kv.2) l -> NoDup (to_ascii_lowercase ∘ fst <$> l) ->
  fst (put_all l d) = Ok tt /\
  forall key, (forall k v, (k, v) ∈ l -> same_key key k = true -> av_dict_get (snd (put_all l d)) key = entry_value v) /\
              ((forall k v, (k, v) ∈ l -> same_key key k = false) -> av_dict_get (snd (put_all l d)) key = av_dict_get d key).
Proof.
  revert d. induction l as [|[k v] l IH]; intros d Hd Hl Hn.
  { split; [done|]. intros key. split; [|done]. by intros ? ? ?%elem_of_nil. }
  cbn [put_all]. apply Forall_cons in Hl as [[Hk Hv] Hl]. cbn [fst snd] in Hk, Hv. rewrite put_value by done.
  rewrite fmap_cons in Hn. apply NoDup_cons in Hn as [Hfresh Hn].
  destruct (IH (fst (av_dict_set d k (entry_value v)))) as [Hok Hget]; [by apply single_set|done..|].
  split; [done|]. intros key. destruct (Hget key) as [Hin Hout]. split.
  - intros k' v' [[= -> ->]|Hl']%elem_of_cons Hsame; [|by eapply Hin]. rewrite Hout; [by rewrite get_set, Hsame|].
    intros k' v' Hl'. apply not_true_iff_false. intros Hs. apply Hfresh. apply same_key_eq in Hsame, Hs. cbn [compose fst].
    apply list_elem_of_fmap. exists (k', v'). split; [|done]. cbn. congruence.
  - intros Hnone. rewrite Hout; [|intros; eapply Hnone; by right]. rewrite get_set by done. by rewrite (Hnone k v) by by left.
Qed.

(** No two keys that differ only in case, and no zero bytes. *)
Definition clear_entries (m : gmap string string) : Prop :=
  (forall k v, m !! k = Some v -> no_nul k /\ no_nul v) /\
  (forall k1 k2, is_Some (m !! k1) -> is_Some (m !! k2) -> same_key k1 k2 = true -> k1 = k2).

Lemma iter_strings_elem m k v : (k, v) ∈ iter_strings m <-> m !! k = Some v.
Proof. by rewrite iter_strings_law, elem_of_map_to_list. Qed.

Lemma clear_iter m : clear_entries m ->
  Forall (fun kv => no_nul kv.1 /\ no_nul kv.2) (iter_strings m) /\ NoDup (to_ascii_lowercase ∘ fst <$> iter_strings m).
Proof.
  intros [Hnul Hdiff]. split.
  - apply Forall_forall. intros [k v] Hkv%iter_strings_elem. by apply Hnul.
  - rewrite list_fmap_compose. apply NoDup_fmap_2_strong.
    + intros k1 k2 ([? v1] & -> & H1)%list_elem_of_fmap ([? v2] & -> & H2)%list_elem_of_fmap Hl. cbn [fst] in *.
      apply Hdiff; [exists v1; by apply iter_strings_elem|exists v2; by apply iter_strings_elem|by apply same_key_eq].
    + rewrite iter_strings_law. apply NoDup_fst_map_to_list.
Qed.

Lemma put_map_get m d :
  single d -> clear_entries m ->
  fst (put_all (iter_strings m) d) = Ok tt /\
  forall key, (forall k v, m !! k = Some v -> same_key key k = true -> av_dict_get (snd (put_all (iter_strings m) d)) key = entry_value v) /\
              ((forall k, is_Some (m !! k) -> same_key key k = false) -> av_dict_get (snd (put_all (iter_strings m) d)) key = av_dict_get d key).
Proof.
  intros Hd [Hf Hn]%clear_iter. destruct (put_all_get (iter_strings m) d Hd Hf Hn) as [Hok Hget]. split; [done|].
  intros key. destruct (Hget key) as [H1 H2]. split.
  - intros k v Hkv. by apply H1, iter_strings_elem.
  - intros Hnone. apply H2. intros k v Hkv%iter_strings_elem. by apply Hnone; exists v.
Qed.

(** ** Steps that return and leave the file's dictionary alone *)

Definition same_file (c c' : FormatCtx) : Prop :=
  fc_metadata c' = fc_metadata c /\ length (fc_streams c') = length (fc_streams c).

Lemma same_file_trans a b c : same_file a b -> same_file b c -> same_file a c.
Proof. intros [H1 H2] [H3 H4]. split; congruence. Qed.

Lemma same_file_refl c : same_file c c.
Proof. by split. Qed.

Lemma same_file_stream i s c : same_file c (with_stream_at i s c).
Proof. split; [done|]. apply length_insert. Qed.

Lemma each_total {A S} (P : S -> Prop) (f : A -> S -> outcome (result unit string * S)) l s :
  P s -> (forall x s, x ∈ l -> P s -> exists r s', f x s = Ret (r, s') /\ P s') ->
  exists r s', each f l s = Ret (r, s') /\ P s'.
Proof.
  revert s. induction l as [|x l IH]; intros s Hs Hf; cbn [each]; [by exists (Ok tt), s|].
  destruct (Hf x s) as (r & s' & -> & Hs'); [by left|done|]. red_bind. destruct r as [[]|e]; [|by exists (Err e), s'].
  apply IH; [done|]. intros; apply Hf; [by right|done].
Qed.

Lemma then_total {S} (P : S -> Prop) (f g : S -> outcome (result unit string * S)) s :
  (exists r s', f s = Ret (r, s') /\ P s') -> (forall s, P s -> exists r s', g s = Ret (r, s') /\ P s') ->
  exists r s', then_ f g s = Ret (r, s') /\ P s'.
Proof.
  intros (r & s' & Hf & Hs) Hg. unfold then_. rewrite Hf. red_bind. destruct r as [[]|e]; [by apply Hg|by exists (Err e), s'].
Qed.

Lemma match_loop_returns ss (f : AVFormatContext (Dict := Dict)) st l n : c_key ss = true -> exists b, match_loop av_dict_get ss f st l n = Ret b.
Proof.
  intros Hk. revert n. induction l as [|[i|] l IH]; intros n; cbn [match_loop]; [by exists false| |done].
  destruct (streams f !! i) as [[c|]|]; [|done..]. destruct (negb (check_media ss c)); [done|].
  assert (exists m, check_meta av_dict_get ss c = Ret m) as [m ->].
  { unfold check_meta, c_key in *. destruct (meta_key ss) as [k|]; [|by exists true]. apply negb_true_iff in Hk as ->.
    destruct (av_dict_get _ _); [|by exists false]. by destruct (meta_val ss); eexists. }
  red_bind. destruct (negb _); [done|]. destruct (st =? i)%nat; [|done]. by eexists.
Qed.

Lemma matches_returns ss (f : AVFormatContext (Dict := Dict)) st : c_key ss = true -> exists b, matches av_dict_get ss f st = Ret b.
Proof.
  intros Hk. unfold matches. destruct (streams f !! st) as [[s|]|]; [|by exists false..].
  destruct (candidates ss f st s) as [l|]; [|by exists false]. by apply match_loop_returns.
Qed.

(** Stream entries with keys that [CString] takes, for an output that has streams. *)
Definition specs_ok (o : MetadataOptions) (c : FormatCtx) : Prop :=
  forall spec k v, (spec, k, v) ∈ stream_metadata o ->
    (fc_streams c <> []) /\ forall ss, parse spec = Ret (Ok ss) -> c_key ss = true.

Lemma add_stream_returns c0 spec k v c :
  fc_streams c0 <> [] -> (forall ss, parse spec = Ret (Ok ss) -> c_key ss = true) -> same_file c0 c ->
  exists r c', add_stream (spec, k, v) c = Ret (r, c') /\ same_file c0 c'.
Proof.
  intros Hne Hkey Hc. unfold add_stream. destruct (specifier_parser_returns spec) as [r Hr]. rewrite Hr. red_bind.
  destruct r as [ss|e]; [|by eexists _, c]. specialize (Hkey ss Hr).
  assert (raw_parts (fc_streams c) = Ret (fc_streams c)) as ->.
  { unfold raw_parts. destruct (fc_streams c) eqn:E; [|done]. destruct Hc as [_ Hl]. rewrite E in Hl. by destruct (fc_streams c0). }
  red_bind. apply (each_total (same_file c0)); [done|]. intros i c1 _ Hc1. unfold add_to_stream.
  destruct (fc_streams c1 !! i) as [[s|]|]; [|by eexists _, c1..].
  destruct (matches_returns ss (fmt_view c1) i Hkey) as [b ->]. red_bind. destruct b; [|by eexists _, c1].
  destruct (set_entry _ _ _) as [d|e]; [|by eexists _, c1]. eexists _, _. split; [done|]. eapply same_file_trans; [done|]. apply same_file_stream.
Qed.

Lemma add_chapter_returns c0 x c : same_file c0 c -> exists r c', add_chapter x c = Ret (r, c') /\ same_file c0 c'.
Proof.
  intros Hc. destruct x as [i m]. unfold add_chapter. destruct (fc_chapters c !! i) as [[y|]|]; [|by eexists _, c..].
  destruct (put_all _ _) as [r d]. by eexists _, _.
Qed.

Lemma add_program_returns c0 x c : same_file c0 c -> exists r c', add_program x c = Ret (r, c') /\ same_file c0 c'.
Proof.
  intros Hc. destruct x as [i m]. unfold add_program. destruct (fc_programs c !! i) as [[y|]|]; [|by eexists _, c..].
  destruct (put_all _ _) as [r d]. by eexists _, _.
Qed.

(** The user's entries for the file, and nothing else changes its dictionary. *)
Lemma of_add_metadata_returns o c :
  specs_ok o c -> clear_entries (default ∅ (global_metadata o)) -> single (fc_metadata c) ->
  exists r c', of_add_metadata o c = Ret (r, c') /\
    fc_metadata c' = snd (put_all (iter_strings (default ∅ (global_metadata o))) (fc_metadata c)).
Proof.
  intros Hs Hm Hd. set (m := default ∅ _). set (d := snd _).
  assert (exists c1, add_global (global_metadata o) c = Ret (Ok tt, c1) /\ same_file (with_metadata d c) c1) as (c1 & Hg & Hc1).
  { destruct (put_map_get m (fc_metadata c) Hd Hm) as [Hok _]. subst d m. unfold add_global in *. destruct (global_metadata o) as [m|].
    - cbn [default id] in *. destruct (put_all _ _) as [r d]. cbn [fst snd] in *. subst r. by eexists.
    - exists c. split; [done|]. split; [|done]. cbn [with_metadata fc_metadata default]. symmetry. pose proof (iter_strings_law ∅) as Hp.
      rewrite map_to_list_empty in Hp. symmetry in Hp. by apply Permutation_nil in Hp as ->. }
  assert (exists r c', of_add_metadata o c = Ret (r, c') /\ same_file (with_metadata d c) c') as (r & c' & Hr & [Hk _]); [|by exists r, c'].
  unfold of_add_metadata. apply then_total; [by exists (Ok tt), c1|]. intros c2 Hc2. apply then_total; [|intros c3 Hc3; apply then_total].
  - apply (each_total (same_file (with_metadata d c))); [done|]. intros [[spec k] v] c3 Hin Hc3. destruct (Hs _ _ _ Hin). by apply add_stream_returns.
  - apply (each_total (same_file (with_metadata d c))); [done|]. intros. by apply add_chapter_returns.
  - intros c4 Hc4. apply (each_total (same_file (with_metadata d c))); [done|]. intros. by apply add_program_returns.
Qed.

(** ** The steps before *)

Lemma default_stream_returns inputs count encs c0 c x :
  length (fc_streams c0) = count -> same_file c0 c -> exists c', default_stream inputs count encs c x = Ret c' /\ same_file c0 c'.
Proof.
  intros Hlen Hc. destruct x as [i [f j]]. unfold default_stream. destruct (count <=? i)%nat eqn:E; [by eexists|]. apply Nat.leb_gt in E.
  destruct (inputs !! f) as [[input|]|]; [|by eexists..]. destruct (_ <=? j)%nat; [by eexists|].
  destruct (index_lt (fc_streams c) i) as (out & -> & _); [destruct Hc; lia|]. red_bind. destruct out as [out|]; [|by eexists].
  destruct (fc_streams input !! j) as [[s|]|]; [|by eexists..]. eexists. split; [done|]. eapply same_file_trans; [done|]. apply same_file_stream.
Qed.

Lemma default_returns inputs c count mapping encs rec auto skip_g skip_s :
  length (fc_streams c) = count ->
  exists c', copy_metadata_default inputs c count mapping encs rec auto skip_g skip_s = Ret c' /\ length (fc_streams c') = count /\
    fc_metadata c' = match auto && negb skip_g, inputs with
                     | true, Some input :: _ => fc_metadata (default_global rec input c)
                     | _, _ => fc_metadata c
                     end.
Proof.
  intros Hlen. unfold copy_metadata_default. destruct auto; cbn [negb andb]; [|by exists c].
  set (c1 := match skip_g, inputs with false, Some i :: _ => _ | _, _ => c end).
  assert (length (fc_streams c1) = count /\ fc_metadata c1 = match negb skip_g, inputs with
            | true, Some input :: _ => fc_metadata (default_global rec input c) | _, _ => fc_metadata c end) as [Hl Hm].
  { subst c1. by destruct skip_g, inputs as [|[input|] inputs]. }
  rewrite <-Hm. destruct (_ && _ && _); [|by exists c1].
  destruct (foldM_total (fun _ => same_file c1) (default_stream inputs count encs) mapping c1) as (c' & Hc' & [Hk1 Hk2]); [done| |].
  - intros _ x _ c2 _ Hc2. by apply default_stream_returns.
  - exists c'. split_and!; [done|lia|done].
Qed.

Lemma auto_chapters_keeps o s demuxs c : same_file c (auto_chapters o s demuxs c).
Proof.
  unfold auto_chapters. destruct (List.find _ _) as [[input off]|]; [|done]. unfold unless_err, copy_chapters_from_input.
  destruct input as [input|]; [|done]. destruct (fc_chapters input); [done|]. destruct (negb _); [done|]. by destruct (copy_chapters _ _ _ _ _ _).
Qed.

(** Mapping keeps the number of streams, and one entry for each key. *)
Lemma mapping_keeps inputs c m c' :
  apply_mapping inputs c m = Ret c' ->
  length (fc_streams c') = length (fc_streams c) /\ (single (fc_metadata c) -> single (fc_metadata c')).
Proof.
  unfold apply_mapping. destruct (inputs !! input_index m) as [[input|]|]; cbn [copy_metadata]; [|by intros [= <-]..].
  destruct (source_dict _ _) as [[[d|]|e]| |]; red_bind; [|by intros [= <-]..|done|done].
  destruct (dst_type m) as [|ss|i|i]; cbn [copy_to].
  - intros [= <-]. split; [done|]. apply single_copy.
  - intros (r & Hr & [= <-])%bind_Ret. apply bind_Ret in Hr as (l & _ & Hr). apply bind_Ret in Hr as (c1 & Hf & [= <-]).
    assert (same_file c c1) as [H1 H2]; [|by cbn [unless_err]; rewrite H1].
    apply (foldM_inv (fun _ => same_file c) (copy_to_stream ss d) (seq 0 (length l)) c c1); [done| |done]. intros _ x _ c2 c3 _ Hc2 Hx. unfold copy_to_stream in Hx.
    destruct (fc_streams c2 !! x) as [[s|]|]; [|by injection Hx as <-..]. apply bind_Ret in Hx as (b & _ & [= <-]).
    destruct b; [|done]. eapply same_file_trans; [done|]. apply same_file_stream.
  - destruct (entry_at _ _ _ _) as [[x|e]| |]; red_bind; [by intros [= <-]..|done|done].
  - destruct (entry_at _ _ _ _) as [[x|e]| |]; red_bind; [by intros [= <-]..|done|done].
Qed.

Lemma mappings_keep inputs l c c' :
  foldM (apply_mapping inputs) c l = Ret c' ->
  length (fc_streams c') = length (fc_streams c) /\ (single (fc_metadata c) -> single (fc_metadata c')).
Proof.
  apply (foldM_inv (fun _ x => length (fc_streams x) = length (fc_streams c) /\ (single (fc_metadata c) -> single (fc_metadata x)))); [done|].
  intros _ x _ c1 c2 _ [Hl Hs] [Hl2 Hs2]%mapping_keeps. split; [congruence|auto].
Qed.

(** ** The file's metadata *)

Definition is_global (t : MetadataType) : bool := match t with Global => true | _ => false end.

(** The user maps the metadata of a file, from or to. *)
Definition maps_file (o : MetadataOptions) : bool := existsb (fun m => is_global (src_type m) || is_global (dst_type m)) (metadata_map o).

Lemma marks_global l g s c : fst (fst (fold_left mark_mapping l (g, s, c))) = g || existsb (fun m => is_global (src_type m) || is_global (dst_type m)) l.
Proof.
  revert g s c. induction l as [|m l IH]; intros g s c; cbn [fold_left existsb]; [by rewrite orb_false_r|].
  unfold mark_mapping at 2. destruct (mark_manual (mark_manual (g, s, c) (src_type m)) (dst_type m)) as [[g' s'] c'] eqn:E. rewrite IH.
  assert (g' = g || (is_global (src_type m) || is_global (dst_type m))) as ->; [|by rewrite !orb_assoc].
  destruct (src_type m), (dst_type m); cbn in E; injection E as <- <- <-; cbn; by rewrite ?orb_true_r, ?orb_false_r.
Qed.

(** The keys that a default copy removes. *)
Definition dropped (recording_time_set : bool) (key : string) : bool :=
  existsb (same_key key) ["creation_time"; "company_name"; "product_name"; "product_version"]
  || (recording_time_set && same_key key "duration").

Definition or_else (a b : option string) : option string := match a with Some v => Some v | None => b end.

Definition has_duration (mux : Muxer) : bool := match recording_time_us (settings mux) with Some _ => true | None => false end.

(** What the output has for a key before the user's entries, if mapping gives [mapped]. *)
Definition inherited (o : MetadataOptions) (mux : Muxer) (demuxs : list (option FormatCtx * Z)) (mapped : option string) (key : string) : option string :=
  match auto_copy_metadata o && negb (maps_file o), demuxs.*1 with
  | true, Some input :: _ =>
    if dropped (has_duration mux) key then None
    else or_else mapped (av_dict_get (fc_metadata input) key)
  | _, _ => mapped
  end.

(** *** What a mapping takes

    The dictionary that a part of an input has: that of the file, of the first stream that
    the specifier matches, of a chapter or of a program.  There may be none. *)
Inductive taken_from (input : FormatCtx) : MetadataType -> option Dict -> Prop :=
  | taken_file : taken_from input Global (Some (fc_metadata input))
  | taken_stream ss i x :
      fc_streams input !! i = Some (Some x) -> matches av_dict_get ss (fmt_view input) i = Ret true ->
      (forall j y, (j < i)%nat -> fc_streams input !! j = Some (Some y) -> matches av_dict_get ss (fmt_view input) j = Ret false) ->
      taken_from input (Stream ss) (Some (st_metadata x))
  | taken_no_stream ss :
      (forall j y, fc_streams input !! j = Some (Some y) -> matches av_dict_get ss (fmt_view input) j = Ret false) ->
      taken_from input (Stream ss) None
  | taken_chapter n x :
      n < Z.of_nat (length (fc_chapters input)) -> fc_chapters input !! Z.to_nat n = Some (Some x) ->
      taken_from input (Chapter n) (Some (ch_metadata x))
  | taken_no_chapter n : Z.of_nat (length (fc_chapters input)) <= n -> taken_from input (Chapter n) None
  | taken_program n x :
      n < Z.of_nat (length (fc_programs input)) -> fc_programs input !! Z.to_nat n = Some (Some x) ->
      taken_from input (Program n) (Some (mp_metadata x))
  | taken_no_program n : Z.of_nat (length (fc_programs input)) <= n -> taken_from input (Program n) None.

(** What a mapping of the user takes from the inputs. *)
Definition mapping_takes (inputs : list (option FormatCtx)) (m : MetadataMapping) (d : option Dict) : Prop :=
  match inputs !! input_index m with
  | Some (Some input) => taken_from input (src_type m) d
  | _ => d = None
  end.

(** The value of the first dictionary that has the key. *)
Fixpoint first_value (dicts : list (option Dict)) (key : string) : option string :=
  match dicts with
  | [] => None
  | Some d :: dicts => or_else (av_dict_get d key) (first_value dicts key)
  | None :: dicts => first_value dicts key
  end.

(** The mappings to the file, in the user's order. *)
Definition file_mappings (o : MetadataOptions) : list MetadataMapping := List.filter (fun m => is_global (dst_type m)) (metadata_map o).

Lemma first_stream_takes ss input n k d :
  (k + n = length (fc_streams input))%nat -> first_stream ss input (seq k n) = Ret d ->
  (forall j y, (j < k)%nat -> fc_streams input !! j = Some (Some y) -> matches av_dict_get ss (fmt_view input) j = Ret false) ->
  taken_from input (Stream ss) d.
Proof.
  revert k. induction n as [|n IH]; intros k Hk; cbn [seq first_stream].
  { intros [= <-] Hno. apply taken_no_stream. intros j y Hj. eapply Hno; [|exact Hj]. apply lookup_lt_Some in Hj. lia. }
  assert (forall i, (i < S k)%nat -> i = k \/ (i < k)%nat) as Hcases by (intros; lia).
  destruct (fc_streams input !! k) as [[x|]|] eqn:Ek.
  - intros (b & Hb & H)%bind_Ret Hno. destruct b.
    + injection H as <-. by eapply taken_stream.
    + apply (IH (S k)); [lia|done|]. intros j y [->|Hj]%Hcases Hy; [done|by eapply Hno].
  - intros H Hno. apply (IH (S k)); [lia|done|]. intros j y [->|Hj]%Hcases Hy; [congruence|by eapply Hno].
  - intros H Hno. apply (IH (S k)); [lia|done|]. intros j y [->|Hj]%Hcases Hy; [congruence|by eapply Hno].
Qed.

Lemma entry_at_takes {A} what kind (l : list (option A)) i r :
  entry_at what kind l i = Ret r ->
  match r with
  | Ok x => i < Z.of_nat (length l) /\ l !! Z.to_nat i = Some (Some x)
  | Err _ => Z.of_nat (length l) <= i
  end.
Proof.
  unfold entry_at. destruct (Z.leb_spec (Z.of_nat (length l)) i); [by intros [= <-]|].
  destruct (l !! Z.to_nat i) as [[x|]|] eqn:E; [|done..]. by intros [= <-].
Qed.

Lemma source_dict_takes input t r :
  source_dict input t = Ret r -> taken_from input t (match r with Ok d => d | Err _ => None end).
Proof.
  destruct t as [|ss|n|n]; cbn [source_dict].
  - intros [= <-]. constructor.
  - intros (l & Hl & (d & Hd & [= <-])%bind_Ret)%bind_Ret. apply (first_stream_takes ss input (length (fc_streams input)) 0); [done| |lia].
    unfold raw_parts in Hl. destruct (fc_streams input); [|by injection Hl as <-]. destruct debug_assertions; [done|by injection Hl as <-].
  - unfold try_bind. destruct (entry_at _ _ _ _) as [[x|e]| |] eqn:E; [| |done|done]; apply entry_at_takes in E; intros [= <-].
    + destruct E. by apply taken_chapter.
    + by apply taken_no_chapter.
  - unfold try_bind. destruct (entry_at _ _ _ _) as [[x|e]| |] eqn:E; [| |done|done]; apply entry_at_takes in E; intros [= <-].
    + destruct E. by apply taken_program.
    + by apply taken_no_program.
Qed.

(** One mapping: what it takes goes under what the file has, if it is meant for the file. *)
Lemma mapping_get inputs c m c' :
  single (fc_metadata c) -> apply_mapping inputs c m = Ret c' ->
  if is_global (dst_type m)
  then exists d, mapping_takes inputs m d /\ forall key, av_dict_get (fc_metadata c') key = or_else (av_dict_get (fc_metadata c) key) (first_value [d] key)
  else fc_metadata c' = fc_metadata c.
Proof.
  intros Hs. unfold apply_mapping, mapping_takes.
  destruct (inputs !! input_index m) as [[input|]|]; cbn [copy_metadata].
  2,3: intros [= <-]; case_match; [exists None; split; [done|]; intros key; cbn; by destruct (av_dict_get _ key)|done].
  destruct (source_dict input (src_type m)) as [r| |] eqn:Er; [|done..]. apply source_dict_takes in Er. destruct r as [[d|]|e]; red_bind.
  2,3: intros [= <-]; case_match; [exists None; split; [done|]; intros key; cbn; by destruct (av_dict_get _ key)|done].
  destruct (dst_type m) as [|ss|i|i]; cbn [copy_to is_global].
  - intros [= <-]. exists (Some d). split; [done|]. intros key. cbn [unless_err with_metadata fc_metadata first_value]. unfold copy_under.
    rewrite get_copy by done. unfold or_else. destruct (av_dict_get (fc_metadata c) key); [done|]. by destruct (av_dict_get d key).
  - intros (r & Hr & [= <-])%bind_Ret. apply bind_Ret in Hr as (l & _ & Hr). apply bind_Ret in Hr as (c1 & Hf & [= <-]).
    cbn [unless_err]. revert Hf. apply (foldM_inv (fun _ x => fc_metadata x = fc_metadata c)); [done|]. intros _ x _ c2 c3 _ Hc2 Hx.
    unfold copy_to_stream in Hx. destruct (fc_streams c2 !! x) as [[s|]|]; [|by injection Hx as <-..]. apply bind_Ret in Hx as (b & _ & [= <-]).
    by destruct b.
  - destruct (entry_at _ _ _ _) as [[x|e]| |]; red_bind; [by intros [= <-]..|done|done].
  - destruct (entry_at _ _ _ _) as [[x|e]| |]; red_bind; [by intros [= <-]..|done|done].
Qed.

Lemma mappings_get inputs l c c' :
  single (fc_metadata c) -> foldM (apply_mapping inputs) c l = Ret c' ->
  exists dicts, Forall2 (mapping_takes inputs) (List.filter (fun m => is_global (dst_type m)) l) dicts /\
    forall key, av_dict_get (fc_metadata c') key = or_else (av_dict_get (fc_metadata c) key) (first_value dicts key).
Proof.
  revert c. induction l as [|m l IH]; intros c Hs; cbn [foldM List.filter].
  { intros [= <-]. exists []. split; [constructor|]. intros key. cbn. by destruct (av_dict_get _ key). }
  intros (c1 & Hm & H)%bind_Ret. pose proof (mapping_keeps _ _ _ _ Hm) as [_ Hs1]. destruct (IH c1 (Hs1 Hs) H) as (dicts & Hd & Hget).
  apply mapping_get in Hm; [|done]. destruct (is_global (dst_type m)).
  - destruct Hm as (d & Htk & Hg). exists (d :: dicts). split; [by constructor|]. intros key. rewrite Hget, Hg.
    destruct d as [d|]; cbn [first_value]; unfold or_else; destruct (av_dict_get (fc_metadata c) key); try done. by destruct (av_dict_get d key).
  - exists dicts. split; [done|]. intros key. by rewrite Hget, Hm.
Qed.

Lemma default_global_get rec input c key :
  single (fc_metadata c) ->
  single (fc_metadata (default_global rec input c)) /\
  av_dict_get (fc_metadata (default_global rec input c)) key =
    if dropped rec key then None else or_else (av_dict_get (fc_metadata c) key) (av_dict_get (fc_metadata input) key).
Proof.
  intros Hs. cbn [default_global with_metadata fc_metadata]. unfold copy_under, del.
  set (d := av_dict_copy true (fc_metadata c) (fc_metadata input)).
  assert (single d) as Hd by by apply single_copy. assert (av_dict_get d key = or_else (av_dict_get (fc_metadata c) key) (av_dict_get (fc_metadata input) key)) as <- by by apply get_copy.
  split; [destruct rec; by repeat apply single_set|]. unfold dropped. cbn [existsb].
  destruct rec; rewrite !get_set by (by repeat apply single_set); cbn [andb]; rewrite ?orb_false_r;
    repeat match goal with |- context[same_key key ?k] => destruct (same_key key k) end; done.
Qed.

(** All steps together: the user's entries over the dictionary of [inherited]. *)
Lemma process_metadata_returns o mux demuxs output mapped :
  foldM (apply_mapping demuxs.*1) output (metadata_map o) = Ret mapped ->
  single (fc_metadata output) -> length (fc_streams output) = nb_streams mux -> specs_ok o output ->
  clear_entries (default ∅ (global_metadata o)) ->
  exists out d, process_metadata o mux demuxs output = Ret out /\ single d /\
    fc_metadata out = snd (put_all (iter_strings (default ∅ (global_metadata o))) d) /\
    forall key, av_dict_get d key = inherited o mux demuxs (av_dict_get (fc_metadata mapped) key) key.
Proof.
  intros Hmap Hs Hlen Hspecs Hclear. pose proof (mappings_keep _ _ _ _ Hmap) as [Hl1 Hs1]. specialize (Hs1 Hs).
  unfold process_metadata. pose proof (marks_global (metadata_map o) false false false) as Hg.
  destruct (fold_left mark_mapping _ _) as [[g st] ch]. cbn [fst orb] in Hg. fold (maps_file o) in Hg. rewrite Hmap. red_bind.
  set (c1 := if _ && _ then _ else mapped).
  assert (same_file mapped c1) as [Hm2 Hl2] by (subst c1; destruct (_ && _); [apply auto_chapters_keeps|done]).
  assert (exists c2, (if auto_copy_metadata o then copy_metadata_default demuxs.*1 c1 (nb_streams mux) (stream_input_mapping (stream_sources mux))
            (encoding_streams (stream_sources mux)) (match recording_time_us (settings mux) with Some _ => true | None => false end)
            (auto_copy_metadata o) g st else Ret c1) = Ret c2 /\ length (fc_streams c2) = nb_streams mux /\
            fc_metadata c2 = match auto_copy_metadata o && negb g, demuxs.*1 with
                             | true, Some input :: _ => fc_metadata (default_global (has_duration mux) input c1) | _, _ => fc_metadata c1 end)
    as (c2 & Hc2 & Hl3 & Hd2).
  { destruct (auto_copy_metadata o) eqn:Ea; [|exists c1; split_and!; [done|lia|done]]. apply default_returns. lia. }
  rewrite Hc2. red_bind. clear Hc2.
  assert (single (fc_metadata c2) /\ forall key, av_dict_get (fc_metadata c2) key = inherited o mux demuxs (av_dict_get (fc_metadata mapped) key) key) as [Hs2 Hget].
  { rewrite Hd2. unfold inherited. rewrite Hg. clearbody c1. destruct (auto_copy_metadata o && negb (maps_file o)), demuxs as [|[[input|] off] demuxs]; cbn [fmap list_fmap fst]; rewrite ?Hm2; try by split.
    split; [|intros key]; destruct (default_global_get (has_duration mux) input c1 "") as [H1 _]; [by rewrite Hm2|done|by rewrite Hm2|].
    destruct (default_global_get (has_duration mux) input c1 key) as [_ ->]; [by rewrite Hm2|]. by rewrite Hm2. }
  destruct (of_add_metadata_returns o c2) as (r & c3 & -> & Hc3); [|done|done|].
  - intros spec k v Hin. destruct (Hspecs _ _ _ Hin) as [Hne Hk]. split; [|done]. intros E. rewrite E in Hl3. cbn in Hl3. destruct (fc_streams output); [done|].
    cbn in Hlen. lia.
  - red_bind. exists c3, (fc_metadata c2). by split_and!.
Qed.


(** ** Entries cannot be taken away *)

(** The options that the setters make. *)
Inductive built : MetadataOptions -> Prop :=
  | built_new : built options_new
  | built_add k v o : built o -> built (add_metadata k v o)
  | built_add_map m o : built o -> built (add_metadata_map m o)
  | built_remove k o : built o -> built (remove_metadata k o)
  | built_clear o : built o -> built (clear_all_metadata o)
  | built_disable o : built o -> built (disable_auto_copy_metadata o)
  | built_stream spec k v o o' : built o -> add_stream_metadata spec k v o = Ret (Ok o') -> built o'
  | built_chapter i k v o : built o -> built (add_chapter_metadata i k v o)
  | built_program i k v o : built o -> built (add_program_metadata i k v o)
  | built_map i s d o o' : built o -> map_metadata_from_input i s d o = Ret (Ok o') -> built o'.

Definition no_empty (m : gmap string string) : Prop := forall k v, m !! k = Some v -> is_empty v = false.

Lemma no_empty_insert k v m : no_empty m -> is_empty v = false -> no_empty (<[k := v]> m).
Proof. intros Hm Hv k' v' [[<- <-]|[_ H]]%lookup_insert_Some; [done|by eapply Hm]. Qed.

Lemma no_empty_delete k m : no_empty m -> no_empty (delete k m).
Proof. intros Hm k' v' [_ H]%lookup_delete_Some. by eapply Hm. Qed.

Lemma no_empty_remove k o : no_empty (default ∅ (global_metadata o)) -> no_empty (default ∅ (global_metadata (remove_metadata k o))).
Proof. unfold remove_metadata. destruct (global_metadata o) eqn:E; cbn; [apply no_empty_delete|by rewrite E]. Qed.

Lemma no_empty_add k v o : no_empty (default ∅ (global_metadata o)) -> no_empty (default ∅ (global_metadata (add_metadata k v o))).
Proof. unfold add_metadata. destruct (is_empty v) eqn:E; [apply no_empty_remove|]. intros H. by apply no_empty_insert. Qed.

Lemma built_no_empty o : built o -> no_empty (default ∅ (global_metadata o)).
Proof.
  induction 1 as [| | | |o H IH| |spec k v o o' H IH E| | |i s d o o' H IH E].
  - by intros k v.
  - by apply no_empty_add.
  - unfold add_metadata_map. generalize dependent o. induction (iter_strings m) as [|x l IH2]; intros o Ho IH; [done|]. cbn [fold_left].
    apply IH2; [by apply built_add|by apply no_empty_add].
  - by apply no_empty_remove.
  - by intros k v.
  - done.
  - unfold add_stream_metadata in E. destruct (parse spec) as [[ss|e]| |]; cbn [try_bind] in E; [|done..]. by injection E as <-.
  - done.
  - done.
  - unfold map_metadata_from_input in E. destruct (MetadataType_parse s) as [[x|e]| |]; cbn [try_bind] in E; [|done..].
    destruct (MetadataType_parse d) as [[y|e]| |]; cbn [try_bind] in E; [|done..]. by injection E as <-.
Qed.

(** What the first input has for a key, the output has it as well, whatever the user does
    with the setters but for switching off the copy or mapping other metadata: an entry of
    an empty value, which should remove the key, removes only earlier entries of the
    user. *)
Theorem inherited_entries_cannot_be_removed o mux demuxs output input off rest key v :
  built o -> auto_copy_metadata o = true -> metadata_map o = [] -> demuxs = (Some input, off) :: rest ->
  single (fc_metadata output) -> length (fc_streams output) = nb_streams mux -> specs_ok o output ->
  clear_entries (default ∅ (global_metadata o)) ->
  av_dict_get (fc_metadata input) key = Some v -> dropped (has_duration mux) key = false ->
  exists out w, process_metadata o mux demuxs output = Ret out /\ av_dict_get (fc_metadata out) key = Some w.
Proof.
  intros Hb Ha Hm Hd Hs Hl Hspecs Hclear Hv Hdrop.
  destruct (process_metadata_returns o mux demuxs output output) as (out & d & Hout & Hsd & Hmd & Hget); [by rewrite Hm|done..|].
  assert (is_Some (av_dict_get (fc_metadata out) key)) as [w Hw]; [|by exists out, w].
  rewrite Hmd. destruct (put_map_get (default ∅ (global_metadata o)) d Hsd Hclear) as [_ Hput]. specialize (Hput key) as [Hin Hout'].
  destruct (List.find (fun kv => same_key key kv.1) (map_to_list (default ∅ (global_metadata o)))) as [[k x]|] eqn:E.
  - apply List.find_some in E as [E Hk]. apply list_elem_of_In, elem_of_map_to_list in E. rewrite (Hin k x E Hk).
    unfold entry_value. rewrite (built_no_empty o Hb k x E). by exists x.
  - rewrite Hout'.
    + rewrite Hget. unfold inherited, maps_file. rewrite Ha, Hm, Hd, Hdrop. cbn [existsb andb negb fmap list_fmap fst]. rewrite Hv. unfold or_else.
      destruct (av_dict_get (fc_metadata output) key) as [w|]; by eexists.
    + intros k [x Hx]. apply (List.find_none _ _ E (k, x)). by apply list_elem_of_In, elem_of_map_to_list.
Qed.

(** ** Streams *)

(** The filled places of a list, with what [f] makes of them; from the place [n] on. *)
Definition numbered_from {A B} (n : nat) (f : A -> B) (r : list (option A)) : list (nat * B) :=
  omap id (imap (fun i (e : option A) => (fun s => ((n + i)%nat, f s)) <$> e) r).

Lemma numbered_from_cons {A B} n (f : A -> B) e r :
  numbered_from n f (e :: r) = (match e with Some s => [(n, f s)] | None => [] end ++ numbered_from (S n) f r)%list.
Proof.
  unfold numbered_from. rewrite imap_cons. cbn [omap list_omap]. rewrite Nat.add_0_r.
  assert (forall i (x : option A), ((fun i (e : option A) => (fun s => ((n + i)%nat, f s)) <$> e) ∘ S) i x = (fun s => ((S n + i)%nat, f s)) <$> x) as H.
  { intros i x. cbn. destruct x; [|done]. cbn. do 3 f_equal. lia. }
  rewrite (imap_ext _ _ r (fun i x _ => H i x)). by destruct e.
Qed.

Lemma numbered_from_elem {A B} n (f : A -> B) r i x :
  ((n + i)%nat, x) ∈ numbered_from n f r <-> exists s, r !! i = Some (Some s) /\ x = f s.
Proof.
  unfold numbered_from. rewrite list_elem_of_omap. split.
  - intros (y & (j & e & -> & Hj)%elem_of_lookup_imap & H). destruct e as [s|]; [|done]. cbn [fmap option_fmap option_map id] in H.
    injection H as Hij <-. assert (j = i) as -> by lia. by exists s.
  - intros (s & Hi & ->). exists (Some ((n + i)%nat, f s)). split; [|done]. apply elem_of_lookup_imap. by exists i, (Some s).
Qed.

Lemma numbered_from_ge {A B} n (f : A -> B) r i x : (i, x) ∈ numbered_from n f r -> (n <= i)%nat.
Proof.
  unfold numbered_from. rewrite list_elem_of_omap. intros (y & (j & e & -> & Hj)%elem_of_lookup_imap & H).
  destruct e as [s|]; [|done]. cbn [fmap option_fmap option_map id] in H. injection H as <- _. lia.
Qed.

Lemma numbered_from_NoDup {A B} n (f : A -> B) r : NoDup (numbered_from n f r).*1.
Proof.
  revert n. induction r as [|e r IH]; intros n; [constructor|]. rewrite numbered_from_cons. destruct e as [s|]; [|apply IH].
  cbn [app]. rewrite fmap_cons. constructor; [|apply IH]. intros ([i x] & Hn & Hin)%list_elem_of_fmap. cbn in Hn. subst i.
  apply numbered_from_ge in Hin. lia.
Qed.

Lemma stream_input_mapping_numbered r :
  stream_input_mapping r = numbered_from 0 (fun s => (input_file_index s, input_stream_index s)) r.
Proof. done. Qed.

Lemma encoding_elem (r : StreamSourceRegistry) i s : r !! i = Some (Some s) -> bool_decide (i ∈ encoding_streams r) = encoded s.
Proof.
  intros Hi. destruct (encoded s) eqn:E; [apply bool_decide_eq_true|apply bool_decide_eq_false]; unfold encoding_streams; rewrite list_elem_of_omap.
  - exists (Some i). split; [|done]. apply elem_of_lookup_imap. exists i, (Some s). by rewrite E.
  - intros (y & (j & e & -> & Hj)%elem_of_lookup_imap & H). destruct e as [x|]; [|done]. cbn [id] in H. destruct (encoded x) eqn:Ex; cbn in H; [|done]. injection H as ->. pose proof (eq_trans (eq_sym Hj) Hi) as [= ->]. by rewrite E in Ex.
Qed.

(** A stream of the output after the default copy, for the stream that it is made of. *)
Definition stream_inherits (src : StreamSource) (s out out' : AVStream (Dict := Dict)) : Prop :=
  st_id out' = st_id out /\ st_codecpar out' = st_codecpar out /\
  forall key, av_dict_get (st_metadata out') key =
    if encoded src && same_key key "encoder" then None else or_else (av_dict_get (st_metadata out) key) (av_dict_get (st_metadata s) key).

Definition stream_of (inputs : list (option FormatCtx)) (src : StreamSource) : option (AVStream (Dict := Dict)) :=
  input ← mjoin (inputs !! input_file_index src); mjoin (fc_streams input !! input_stream_index src).

Lemma default_stream_step inputs count encs c c' i src out s :
  length (fc_streams c) = count -> single (st_metadata out) -> fc_streams c !! i = Some (Some out) -> stream_of inputs src = Some s ->
  bool_decide (i ∈ encs) = encoded src ->
  default_stream inputs count encs c (i, (input_file_index src, input_stream_index src)) = Ret c' ->
  exists out', fc_streams c' = <[i := Some out']> (fc_streams c) /\ stream_inherits src s out out'.
Proof.
  intros Hlen Hs Hi Hsrc He. unfold default_stream. pose proof (lookup_lt_Some _ _ _ Hi). rewrite (proj2 (Nat.leb_gt _ _)) by lia.
  unfold stream_of in Hsrc. destruct (inputs !! input_file_index src) as [[input|]|]; cbn in Hsrc; [|done..].
  destruct (fc_streams input !! input_stream_index src) as [[s'|]|] eqn:Ej; cbn in Hsrc; [|done..]. injection Hsrc as ->.
  pose proof (lookup_lt_Some _ _ _ Ej). rewrite (proj2 (Nat.leb_gt _ _)) by lia. unfold index. rewrite Hi. red_bind. rewrite He. intros [= <-].
  eexists. split; [done|]. split_and!; [done..|]. intros key. cbn [set_stream_metadata st_metadata]. unfold del, copy_under.
  destruct (encoded src); cbn [andb].
  - rewrite get_set by by apply single_copy. destruct (same_key key "encoder"); [done|]. by apply get_copy.
  - by apply get_copy.
Qed.

Lemma default_stream_other inputs count encs c c' x i :
  i <> x.1 -> default_stream inputs count encs c x = Ret c' -> fc_streams c' !! i = fc_streams c !! i /\ length (fc_streams c') = length (fc_streams c).
Proof.
  intros Hi. destruct x as [j [f k]]. unfold default_stream. destruct (count <=? j)%nat; [by intros [= <-]|].
  destruct (inputs !! f) as [[input|]|]; [|by intros [= <-]..]. destruct (_ <=? k)%nat; [by intros [= <-]|].
  intros (o & _ & H)%bind_Ret. destruct o as [out|]; [|by injection H as <-]. destruct (fc_streams input !! k) as [[s|]|]; injection H as <-; [|done..].
  cbn [with_stream_at fc_streams]. rewrite length_insert. split; [|done]. by apply list_lookup_insert_ne.
Qed.

(** The streams at the places [done] have what they inherit, the others are as before. *)
Definition inherited_so_far (inputs : list (option FormatCtx)) (r : StreamSourceRegistry) (c : FormatCtx) (done : list nat) (c' : FormatCtx) : Prop :=
  length (fc_streams c') = length (fc_streams c) /\
  (forall i, i ∉ done -> fc_streams c' !! i = fc_streams c !! i) /\
  forall i src out s, i ∈ done -> r !! i = Some (Some src) -> fc_streams c !! i = Some (Some out) -> stream_of inputs src = Some s ->
    single (st_metadata out) -> exists out', fc_streams c' !! i = Some (Some out') /\ stream_inherits src s out out'.

Lemma mapping_elem r i x : (i, x) ∈ stream_input_mapping r <-> exists s, r !! i = Some (Some s) /\ x = (input_file_index s, input_stream_index s).
Proof. rewrite stream_input_mapping_numbered. apply (numbered_from_elem 0). Qed.

Lemma inherited_step inputs r c done x c2 :
  inherited_so_far inputs r c done c2 -> x.1 ∉ done -> x ∈ stream_input_mapping r ->
  exists c3, default_stream inputs (length (fc_streams c)) (encoding_streams r) c2 x = Ret c3 /\ inherited_so_far inputs r c (done ++ [x.1]) c3.
Proof.
  intros (Hl & Hold & Hnew) Hfresh Hx.
  destruct (default_stream_returns inputs (length (fc_streams c)) (encoding_streams r) c2 c2 x Hl (same_file_refl c2)) as (c3 & Hc3 & _ & Hlen).
  exists c3. split; [done|]. assert (forall i, i <> x.1 -> fc_streams c3 !! i = fc_streams c2 !! i) as Hother by (intros; by eapply default_stream_other).
  split_and!; [lia| |].
  - intros i [Hi Hne]%not_elem_of_app. rewrite Hother by (intros ->; apply Hne; by left). by apply Hold.
  - intros i src out s Hi Hr Ho Hs Hsingle. destruct (decide (i = x.1)) as [->|Hne].
    + destruct x as [i [f j]]. cbn [fst] in *. apply mapping_elem in Hx as (src' & Hr' & [= -> ->]). pose proof (eq_trans (eq_sym Hr') Hr) as [= ->].
      assert (fc_streams c2 !! i = Some (Some out)) as Ho2 by by rewrite Hold.
      destruct (default_stream_step _ _ _ _ _ _ _ _ _ Hl Hsingle Ho2 Hs (encoding_elem r i src Hr) Hc3) as (out' & -> & Hinh).
      exists out'. split; [|done]. apply list_lookup_insert_eq. by eapply lookup_lt_Some.
    + rewrite Hother by done. apply elem_of_app in Hi as [Hi|Hi%list_elem_of_singleton]; [by eapply Hnew|done].
Qed.

Lemma inherited_all inputs r c c1 :
  fc_streams c1 = fc_streams c ->
  exists c', foldM (default_stream inputs (length (fc_streams c)) (encoding_streams r)) c1 (stream_input_mapping r) = Ret c' /\
    inherited_so_far inputs r c (stream_input_mapping r).*1 c'.
Proof.
  intros Hc1. apply (foldM_total (fun done => inherited_so_far inputs r c done.*1)).
  - split_and!; [by rewrite Hc1|by rewrite Hc1|]. by intros ? ? ? ? ?%elem_of_nil.
  - intros done x rest c2 Hsplit Hc2. rewrite fmap_app. apply inherited_step; [done| |rewrite Hsplit; apply elem_of_app; right; by left].
    pose proof (numbered_from_NoDup 0 (fun s => (input_file_index s, input_stream_index s)) r) as Hnd.
    rewrite <-stream_input_mapping_numbered, Hsplit, fmap_app, fmap_cons, NoDup_app in Hnd. destruct Hnd as (_ & Hnd & _).
    intros Hin. apply (Hnd _ Hin). by left.
Qed.

(** Every stream of the output that is made of a stream of an input has its entries,
    under those that it had before, and without the name of the encoder if it is encoded
    anew; all other streams stay as they are. *)
Theorem streams_inherit_from_their_source (inputs : list (option FormatCtx)) (c : FormatCtx) (r : StreamSourceRegistry)
    (recording_time_set skip_global : bool) :
  exists c', copy_metadata_default inputs c (length (fc_streams c)) (stream_input_mapping r) (encoding_streams r)
               recording_time_set true skip_global false = Ret c' /\
  (forall i src out s, r !! i = Some (Some src) -> fc_streams c !! i = Some (Some out) -> stream_of inputs src = Some s ->
     single (st_metadata out) -> exists out', fc_streams c' !! i = Some (Some out') /\ stream_inherits src s out out') /\
  (forall i, (forall src, r !! i <> Some (Some src)) -> fc_streams c' !! i = fc_streams c !! i).
Proof.
  unfold copy_metadata_default. cbn [negb andb]. set (c1 := match skip_global, inputs with false, Some i :: _ => _ | _, _ => c end).
  assert (fc_streams c1 = fc_streams c) as Hc1 by by subst c1; destruct skip_global, inputs as [|[input|] inputs].
  rewrite Hc1. destruct (bool_decide (fc_streams c = [])) eqn:Ee; cbn [negb andb].
  { apply bool_decide_eq_true in Ee. rewrite andb_false_r. exists c1. split; [done|]. rewrite Hc1. split; [|done]. intros i src out s _ Hi. by rewrite Ee in Hi. }
  apply bool_decide_eq_false in Ee. rewrite (proj2 (Nat.ltb_lt 0 _)) by (destruct (fc_streams c); [done|cbn; lia]). cbn [andb].
  destruct (inherited_all inputs r c c1 Hc1) as (c' & Hf & _ & Hno & Hyes). exists c'. split; [done|]. split.
  - intros i src out s Hr. apply (Hyes i src out s); [|done]. apply list_elem_of_fmap. exists (i, (input_file_index src, input_stream_index src)).
    split; [done|]. apply mapping_elem. by exists src.
  - intros i Hi. apply Hno. intros ([j x] & -> & (src & Hr & _)%mapping_elem)%list_elem_of_fmap. by eapply Hi.
Qed.

(** ** Chapters *)

(** The chapter has a part after the start, and begins before the end. *)
Definition in_window (ts_off rt : Z) (x : AVChapter) : bool :=
  (ts_off <=? ch_end x) && ((rt =? i64_max) || (ch_start x <=? sat_i64 (ts_off + rt))).

Definition memory_lasts : Prop := (forall n, realloc_chapters n = true) /\ forall n, chapter_alloc n = true.

Lemma copy_chapters_window start off rec copy ts_off rt (l out : list (option AVChapter)) :
  (forall n, chapter_alloc n = true) ->
  Forall (fun x => chapter_offset start off x = ts_off /\ chapter_duration rec x = rt) (omap id l) ->
  StronglySorted (fun a b => ch_start a <= ch_start b) (omap id l) ->
  copy_chapters start off rec copy l out =
    Ok (out ++ (Some ∘ shifted copy ts_off rt <$> filter (fun x => in_window ts_off rt x = true) (omap id l)))%list.
Proof.
  intros Hmem. revert out. induction l as [|[x|] l IH]; intros out Hl Hsort; cbn [copy_chapters]; [by rewrite app_nil_r| |by apply IH].
  cbn [omap list_omap id] in Hl, Hsort |- *. apply Forall_cons in Hl as [[-> ->] Hl]. apply StronglySorted_inv in Hsort as [Hsort Hx].
  destruct (ch_end x <? ts_off) eqn:E1.
  { rewrite filter_cons_False by (unfold in_window; rewrite Z.leb_antisym, E1; done). by apply IH. }
  destruct (negb (rt =? i64_max) && (sat_i64 (ts_off + rt) <? ch_start x)) eqn:E2.
  - apply andb_true_iff in E2 as [Er E2]. apply negb_true_iff in Er. apply Z.ltb_lt in E2.
    assert (filter (fun x => in_window ts_off rt x = true) (x :: omap id l) = []) as ->; [|by rewrite app_nil_r].
    apply elem_of_nil_inv. intros y [Hw Hy]%list_elem_of_filter. enough (in_window ts_off rt y = false) by congruence. assert (ch_start x <= ch_start y) as Hle.
    { apply elem_of_cons in Hy as [->|Hy]; [lia|]. rewrite Forall_forall in Hx. by apply Hx. }
    unfold in_window. rewrite Er. cbn [orb]. rewrite (proj2 (Z.leb_gt (ch_start y) _)) by lia. by rewrite andb_false_r.
  - rewrite Hmem. cbn [negb]. rewrite IH by done. rewrite filter_cons_True.
    + by rewrite <-app_assoc.
    + unfold in_window. rewrite Z.leb_antisym, E1. cbn [negb andb]. destruct (rt =? i64_max); [done|]. cbn [negb andb orb] in *. rewrite Z.leb_antisym. by rewrite E2.
Qed.

(** Shifted times of a chapter in the window are a part of the recording. *)
Lemma shifted_inside copy ts_off rt x :
  in_window ts_off rt x = true -> signed_fits 64 ts_off -> 0 <= rt ->
  let y := shifted copy ts_off rt x in ch_id y = ch_id x /\ 0 <= ch_start y <= ch_end y /\ (rt <> i64_max -> ch_end y <= rt).
Proof.
  unfold in_window, shifted, sat_i64, clamp_i128_to_i64, signed_fits, i64_min. change i64_max with (2 ^ 63 - 1). change (64 - 1) with 63.
  intros Hw Hoff Hrt. cbn [ch_id ch_start ch_end]. split; [done|]. apply andb_true_iff in Hw as [_ Hw]. split; [lia|]. intros Hne.
  rewrite (proj2 (Z.eqb_neq _ _)) in * by done. cbn [orb] in Hw.
  repeat match goal with |- context[if ?b then _ else _] => destruct b eqn:? | H : context[if ?b then _ else _] |- _ => destruct b eqn:? end; lia.
Qed.

Lemma copy_chapters_from_input_with_memory input output off start_us recording_us copy :
  (forall n, realloc_chapters n = true) ->
  copy_chapters_from_input (Some input) off output start_us recording_us copy =
    let! out := copy_chapters (default 0 start_us) off (default i64_max recording_us) copy (fc_chapters input) (fc_chapters output) in
    Ok (with_chapters out output).
Proof. intros Hre. unfold copy_chapters_from_input. destruct (fc_chapters input); [by destruct output|]. by rewrite Hre. Qed.

(** C20. The chapters that are copied from an input whose chapters have one time base and come
    in the order of their starts: exactly those that have a part in the recording, in this
    order, behind those that the output has; each with its number, and with times
    between the start and the end of the recording. *)
Theorem recorded_chapters_are_copied (input output : FormatCtx) (off : Z) (start_us recording_us : option Z) (copy : bool) (tb : AVRational) :
  let ts_off := av_rescale_q (clamp_i128_to_i64 (default 0 start_us - off)) AV_TIME_BASE_Q tb in
  let rt := match recording_us with Some d => if d =? i64_max then i64_max else av_rescale_q d AV_TIME_BASE_Q tb | None => i64_max end in
  let l := filter (fun x => in_window ts_off rt x = true) (omap id (fc_chapters input)) in
  memory_lasts -> Forall (fun x => ch_time_base x = tb) (omap id (fc_chapters input)) ->
  StronglySorted (fun a b => ch_start a <= ch_start b) (omap id (fc_chapters input)) ->
  signed_fits 64 ts_off -> 0 <= rt ->
  copy_chapters_from_input (Some input) off output start_us recording_us copy =
    Ok (with_chapters (fc_chapters output ++ (Some ∘ shifted copy ts_off rt <$> l)) output) /\
  Forall (fun x => let y := shifted copy ts_off rt x in
    ch_id y = ch_id x /\ 0 <= ch_start y <= ch_end y /\ (rt <> i64_max -> ch_end y <= rt)) l.
Proof.
  intros ts_off rt l [Hre Hal] Htb Hsort Hoff Hrt. split.
  - rewrite copy_chapters_from_input_with_memory, (copy_chapters_window _ _ _ _ ts_off rt) by
      first [done|eapply Forall_impl; [exact Htb|]; intros x <-; split; [done|]; by destruct recording_us]. done.
  - apply Forall_forall. intros x [Hx _]%list_elem_of_filter. by apply shifted_inside.
Qed.

End Layers.

(** ** Dictionaries as lists of entries *)

Definition Entries : Type := list (string * string).

Definition entries_get (d : Entries) (k : string) : option string := snd <$> List.find (fun kv => same_key k kv.1) d.

Definition entries_without (d : Entries) (k : string) : Entries := List.filter (fun kv => negb (same_key k kv.1)) d.

Definition entries_set (d : Entries) (k : string) (v : option string) : Entries :=
  match v with Some v => entries_without d k ++ [(k, v)] | None => entries_without d k end%list.

Definition entries_copy (dont_overwrite : bool) (d src : Entries) : Entries :=
  fold_left (fun d kv => if dont_overwrite && match entries_get d kv.1 with Some _ => true | None => false end then d
                         else entries_set d kv.1 (Some kv.2)) src d.

Lemma same_key_sym a b : same_key a b = same_key b a.
Proof. apply String.eqb_sym. Qed.

(** Equal keys are equal to the same keys. *)
Lemma same_key_swap a b c : same_key a b = true -> same_key a c = same_key b c.
Proof. intros E%same_key_eq. unfold same_key. by rewrite E. Qed.

Lemma entries_get_swap d a b : same_key a b = true -> entries_get d a = entries_get d b.
Proof. intros E. unfold entries_get. induction d as [|[k v] d IH]; [done|]. cbn [List.find fst]. rewrite (same_key_swap a b) by done. by destruct (same_key b k). Qed.

Lemma entries_get_without d k k' : entries_get (entries_without d k) k' = if same_key k' k then None else entries_get d k'.
Proof.
  unfold entries_get, entries_without. induction d as [|[a v] d IH]; cbn [List.filter List.find fst]; [by destruct (same_key k' k)|].
  destruct (same_key k a) eqn:Ea; cbn [negb].
  - rewrite IH. destruct (same_key k' k) eqn:Ek; [done|]. destruct (same_key k' a) eqn:Eka; [|done].
    by rewrite same_key_sym, (same_key_swap k a k' Ea), same_key_sym, Eka in Ek.
  - cbn [List.find fst]. destruct (same_key k' a) eqn:Eka; [|done]. destruct (same_key k' k) eqn:Ek; [|done].
    rewrite (same_key_swap k' k a Ek), Ea in Eka. done.
Qed.

Lemma entries_get_app d d' k : entries_get (d ++ d')%list k = or_else (entries_get d k) (entries_get d' k).
Proof. unfold entries_get. induction d as [|[a v] d IH]; [done|]. cbn [app List.find fst]. by destruct (same_key k a). Qed.

Lemma entries_get_set d k v k' : entries_get (entries_set d k v) k' = if same_key k' k then v else entries_get d k'.
Proof.
  destruct v as [v|]; cbn [entries_set]; [|apply entries_get_without]. rewrite entries_get_app, entries_get_without.
  unfold entries_get at 2. cbn [List.find fst]. destruct (same_key k' k); [done|]. by destruct (entries_get d k').
Qed.

Lemma entries_get_cons a v d k : entries_get ((a, v) :: d) k = if same_key k a then Some v else entries_get d k.
Proof. unfold entries_get. cbn [List.find fst]. by destruct (same_key k a). Qed.

Lemma entries_get_copy d src k : entries_get (entries_copy true d src) k = or_else (entries_get d k) (entries_get src k).
Proof.
  unfold entries_copy. revert d. induction src as [|[a v] src IH]; intros d; cbn [fold_left]; [by destruct (entries_get d k)|].
  rewrite IH, entries_get_cons. cbn [andb fst snd]. destruct (same_key k a) eqn:E.
  - rewrite (entries_get_swap d k a E). destruct (entries_get d a) as [w|] eqn:Ea; [by rewrite (entries_get_swap d k a E), Ea|].
    by rewrite entries_get_set, E.
  - destruct (entries_get d a); [done|]. by rewrite entries_get_set, E.
Qed.

(** The other functions are not called here, but for the rescaling. *)
Definition entries_lib : Av := {|
  Dict := Entries; av_dict_get := entries_get;
  av_guess_codec := fun _ _ _ => 0; avcodec_find_encoder := fun _ => None; avcodec_find_encoder_by_name := fun _ => None;
  avcodec_descriptor_get_by_name := fun _ => None; avcodec_descriptor_get := fun _ => None; av_get_exact_bits_per_sample := fun _ => 0;
  av_rescale_q := fun x a b => x * (num a * den b) / (den a * num b);
  av_inv_q := fun q => {| num := den q; den := num q |}; av_add_q := fun q _ => q; av_guess_frame_rate := fun _ _ => {| num := 25; den := 1 |};
  avformat_new_stream := fun _ _ => None; avcodec_alloc_context3 := fun _ => None; parameters_via_context := Ok; av_codec_get_id := fun _ => 0;
  av_codec_get_tag2 := fun _ => true; av_packet_side_data_new := fun _ _ _ => None; av_channel_layout_copy := Ok;
  av_channel_layout_default := fun n => {| layout_order := 1; layout_channels := n; layout_mask := 0 |};
  supported_pix_formats := fun _ => Ok None; supported_frame_rates := fun _ => Ok None; supported_color_spaces := fun _ => Ok None;
  supported_color_ranges := fun _ => Ok None; supported_sample_formats := fun _ => Ok None; supported_sample_rates := fun _ => Ok None;
  supported_ch_layouts := fun _ => Ok None; avfilter_graph_segment := fun _ => Err (- 22); frame_alloc := true |}.

#[local] Existing Instance entries_lib.

#[export] Instance entries_dict : AvDict (Lib := entries_lib) := {|
  dict_null := ([] : Entries) : Dict (Av := entries_lib);
  av_dict_set := fun d k v => (entries_set d k v, 0);
  av_dict_copy := entries_copy;
  realloc_chapters := fun _ => true;
  chapter_alloc := fun _ => true
|}.

#[export] Instance entries_laws : DictLaws (Dicts := entries_dict).
Proof.
  refine {| single := fun _ => True |}; try done.
  - intros d k v k' _. apply entries_get_set.
  - intros d src k _. apply entries_get_copy.
Defined.

(** Two orders of iteration. *)
Definition some_order : HashOrder.
Proof. by refine {| iter_strings := map_to_list; iter_indices := map_to_list |}. Defined.

Definition other_order : HashOrder.
Proof. refine {| iter_strings := fun m => rev (map_to_list m); iter_indices := map_to_list |}; [|done]. intros m. by rewrite <-Permutation_rev. Defined.

(** ** Examples *)

Definition a_media (m : Entries) : AVStream (Dict := Dict (Av := entries_lib)) :=
  {| st_id := 0; st_disposition := 0; st_codecpar := None; st_metadata := m |}.

Definition a_chapter (id s e : Z) (m : Entries) : AVChapter (Lib := entries_lib) :=
  {| ch_id := id; ch_time_base := {| num := 1; den := 1000 |}; ch_start := s; ch_end := e; ch_metadata := m |}.

Definition a_file (m : Entries) (streams : list Entries) (chapters : list (AVChapter (Lib := entries_lib))) : FormatCtx (Lib := entries_lib) :=
  {| fc_metadata := m; fc_streams := (fun d => Some (a_media d)) <$> streams; fc_programs := []; fc_groups := []; fc_chapters := Some <$> chapters |}.

Definition a_movie : FormatCtx (Lib := entries_lib) :=
  a_file [("title", "Film"); ("artist", "Someone"); ("creation_time", "2020")] [[("language", "eng"); ("encoder", "x264")]; [("language", "deu")]]
    [a_chapter 1 0 1000 []; a_chapter 2 1000 2500 [("title", "Middle")]; a_chapter 3 2500 9000 []].

(** An output with the first stream encoded anew, the second copied. *)
Definition a_mux (start duration : option Z) : Muxer :=
  let s := {| url := "out.mp4"; out_fmt_ctx := 0; oformat := {| format_name := Some "mp4"; format_flags := 0; subtitle_codec := 0; has_codec_tags := true |};
              ctx_url := None; mux_frame_pipelines := None; stream_map_specs := []; video_codec := None; audio_codec := None;
              subtitle_codec_name := None; start_time_us := start; recording_time_us := duration; framerate := None; vsync_method := VsyncAuto;
              audio_sample_rate := None; audio_channels := None; audio_sample_fmt := None; video_qscale := None; audio_qscale := None; copy_ts := false |} in
  {| settings := s; stream_maps := []; out_streams := []; enc_streams := []; queue := true; nb_streams := 2; nb_streams_ready := 0;
     mux_stream_nodes := [];
     stream_sources := [Some {| input_file_index := 0; input_stream_index := 0; encoded := true |};
                        Some {| input_file_index := 0; input_stream_index := 1; encoded := false |}] |}.

Definition a_target : FormatCtx (Lib := entries_lib) := a_file [] [[]; []] [].

Definition processed (h : HashOrder) (p : Profile) (o : MetadataOptions) (m : Muxer) (c : FormatCtx (Lib := entries_lib)) :=
  process_metadata (Dicts := entries_dict) o m [(Some a_movie, 0)] c.

(** One key in two cases: which value stays depends on the order of the iteration. *)
Example case_clash_depends_on_the_order :
  let o := add_metadata "Title" "A" (add_metadata "title" "B" options_new) in
  match processed some_order dev_profile o (a_mux None None) a_target, processed other_order dev_profile o (a_mux None None) a_target with
  | Ret c1, Ret c2 => negb (bool_decide (entries_get (fc_metadata c1) "title" = entries_get (fc_metadata c2) "title"))
  | _, _ => false
  end = true.
Proof. vm_compute. reflexivity. Qed.

(** Clearing all metadata does not keep those of the input away. *)
Example clearing_keeps_the_copy :
  (fun c => entries_get (fc_metadata c) "title") <$>
    processed some_order dev_profile (clear_all_metadata (add_metadata "comment" "x" options_new)) (a_mux None None) a_target = Ret (Some "Film").
Proof. vm_compute. reflexivity. Qed.

(** A metadata entry for streams of an output that has none. *)
Example no_streams_break_the_slice :
  match add_stream_metadata "v:0" "language" "eng" options_new with
  | Ret (Ok o) => processed some_order dev_profile o (a_mux None None) (a_file [] [] []) = Panic
  | _ => False
  end.
Proof. vm_compute. reflexivity. Qed.

(** The second half of the movie for two seconds: chapters 2 and 3. *)
Example chapters_of_a_part :
  (fun c => (fun x => (ch_id x, ch_start x, ch_end x)) <$> omap id (fc_chapters c)) <$>
    processed some_order dev_profile options_new (a_mux (Some 2000000) (Some 2000000)) a_target = Ret [(2, 0, 500); (3, 500, 2000)].
Proof. vm_compute. reflexivity. Qed.

(** ** Witnesses *)

Lemma shown_type_parses_witness :
  MetadataType_parse "s" = Ret (Ok (Stream specifier_default)) /\ MetadataType_parse "c:12" = Ret (Ok (Chapter 12)) /\
  MetadataType_parse "s:v" = Ret (Ok (Stream (set_media AVMEDIA_TYPE_VIDEO specifier_default))).
Proof.
  split; [|split].
  - apply (shown_type_parses (Stream specifier_default)). by left.
  - apply (shown_type_parses (Chapter 12)). cbn. unfold fits. lia.
  - apply (shown_type_parses (Stream (set_media AVMEDIA_TYPE_VIDEO specifier_default))). right. split; [|done].
    split; cbn; try done. lia.
Defined.

(** The user's title, in another case than the input's. *)
Definition with_title : MetadataOptions := add_metadata "TITLE" "Mine" options_new.

Lemma with_title_entries k v : default ∅ (global_metadata with_title) !! k = Some v -> k = "TITLE" /\ v = "Mine".
Proof. cbn. intros [[<- <-]|[_ H]]%lookup_insert_Some; [done|]. by rewrite lookup_empty in H. Qed.

Lemma with_title_clear : clear_entries (default ∅ (global_metadata with_title)).
Proof.
  split.
  - by intros k v [-> ->]%with_title_entries.
  - by intros k1 k2 [v1 [-> _]%with_title_entries] [v2 [-> _]%with_title_entries].
Qed.

Lemma with_title_specs c : specs_ok with_title c.
Proof. by intros spec k v ?%elem_of_nil. Qed.

(** The metadata of the second stream, mapped to the file. *)
Definition with_language : MetadataOptions :=
  match map_metadata_from_input 0 "s:1" "g" with_title with Ret (Ok o) => o | _ => with_title end.

Lemma with_language_maps : exists m, metadata_map with_language = [m] /\ input_index m = 0%nat /\ dst_type m = Global.
Proof. eexists. split; [vm_compute; reflexivity|]. split; reflexivity. Defined.

Definition mapped_language : outcome FormatCtx := foldM (apply_mapping (Dicts := entries_dict) (Prof := dev_profile) [Some a_movie]) a_target (metadata_map with_language).


Lemma inherited_entries_cannot_be_removed_witness :
  exists out w, processed some_order dev_profile (add_metadata "artist" "" with_title) (a_mux None None) a_target = Ret out /\
    entries_get (fc_metadata out) "artist" = Some w.
Proof.
  assert (global_metadata (add_metadata "artist" "" with_title) = global_metadata with_title) as E by (vm_compute; reflexivity).
  apply (inherited_entries_cannot_be_removed (Laws := entries_laws) (Hash := some_order) (Prof := dev_profile) (add_metadata "artist" "" with_title)
    (a_mux None None) [(Some a_movie, 0)] a_target a_movie 0 [] "artist" "Someone"); try reflexivity; try exact I.
  - apply built_add, built_add, built_new.
  - by intros spec k v ?%elem_of_nil.
  - rewrite E. apply with_title_clear.
Defined.

Lemma recorded_chapters_are_copied_witness :
  exists l, copy_chapters_from_input (Dicts := entries_dict) (Some a_movie) 0 a_target (Some 2000000) (Some 2000000) true = Ok (with_chapters l a_target) /\
    (fun x => (ch_id x, ch_start x, ch_end x)) <$> omap id l = [(2, 0, 500); (3, 500, 2000)].
Proof.
  destruct (recorded_chapters_are_copied a_movie a_target 0 (Some 2000000) (Some 2000000) true {| num := 1; den := 1000 |})
    as [H _].
  - by split.
  - by repeat constructor.
  - repeat first [apply SSorted_nil|apply SSorted_cons|apply Forall_nil; exact I|apply Forall_cons; split]; cbn; lia.
  - by vm_compute.
  - by vm_compute.
  - eexists. split; [exact H|]. vm_compute. reflexivity.
Defined.
