(* ===== verification/Pipeline.v ===== *)
(** * Frame pipelines ([ez-ffmpeg/src/core/scheduler/frame_filter_pipeline.rs],
    [core/filter/frame_pipeline.rs], [frame_pipeline_builder.rs])

    The user's filters between a decoder and its destinations, or before an encoder: how
    a pipeline gets between them, and the loop of its thread.  The filters are the user's
    (the class [FrameFilter]); a channel is a number, and what the thread meets in each
    round of its loop is an argument. *)

From stdpp Require Import base list option strings gmap.
From Stdlib Require Import ZArith Lia.
From S2P Require Import Choke.
From S2P Require Import Prelude RustInt Errors StreamSpec Muxer.

Local Open Scope string_scope.
Local Open Scope Z_scope.
Local Open Scope rust_scope.

(** The trait; a filter's methods get its name and the attributes, which they only read,
    and change its own state. *)
Class FrameFilter := {
  Frame : Type;
  Filter : Type;
  AnyValue : Type;
  filter_type : Filter -> AVMediaType;
  init : string -> gmap string AnyValue -> Filter -> result unit string * Filter;
  filter_frame : string -> gmap string AnyValue -> Frame -> Filter -> result (option Frame) string * Filter;
  filter_request : string -> gmap string AnyValue -> Filter -> result (option Frame) string * Filter;
  uninit : string -> gmap string AnyValue -> Filter -> Filter
}.

Section Pipeline.
  Context `{Filters : FrameFilter}.

(** ** [FramePipeline] and its builder *)

Record FilterHolder := { holder_name : string; holder_filter : Filter }.

Record Pipeline := {
  media : AVMediaType;
  pl_stream_index : option nat;
  filters : list FilterHolder;
  attribute_map : gmap string AnyValue
}.

Definition with_filters (l : list FilterHolder) (p : Pipeline) : Pipeline :=
  {| media := media p; pl_stream_index := pl_stream_index p; filters := l; attribute_map := attribute_map p |}.

Definition Pipeline_new (t : AVMediaType) (i : option nat) : Pipeline :=
  {| media := t; pl_stream_index := i; filters := []; attribute_map := ∅ |}.

Definition add_filter (name : string) (f : Filter) (p : Pipeline) : outcome Pipeline :=
  if bool_decide (media p = filter_type f) then Ret (with_filters (filters p ++ [{| holder_name := name; holder_filter := f |}])%list p)
  else Panic.

Definition set_attribute (key : string) (v : AnyValue) (p : Pipeline) : Pipeline :=
  {| media := media p; pl_stream_index := pl_stream_index p; filters := filters p; attribute_map := <[key := v]> (attribute_map p) |}.

(** [downcast_ref] is that of the type that is asked for. *)
Definition get_attribute {T} (downcast_ref : AnyValue -> option T) (key : string) (p : Pipeline) : option T :=
  attribute_map p !! key ≫= downcast_ref.

Record Builder := { b_stream_index : option nat; b_media : AVMediaType; b_filters : list (string * Filter) }.

Definition Builder_new (t : AVMediaType) : Builder := {| b_stream_index := None; b_media := t; b_filters := [] |}.

Definition set_builder_index (i : nat) (b : Builder) : Builder :=
  {| b_stream_index := Some i; b_media := b_media b; b_filters := b_filters b |}.

Definition builder_filter (name : string) (f : Filter) (b : Builder) : outcome Builder :=
  if bool_decide (b_media b = filter_type f) then
    Ret {| b_stream_index := b_stream_index b; b_media := b_media b; b_filters := (b_filters b ++ [(name, f)])%list |}
  else Panic.

Definition build (b : Builder) : outcome Pipeline :=
  foldM (fun p nf => add_filter (fst nf) (snd nf) p) (Pipeline_new (b_media b) (b_stream_index b)) (b_filters b).

(** One filter's method, and the filter afterwards. *)
Definition set_filter (h : FilterHolder) (f : Filter) : FilterHolder := {| holder_name := holder_name h; holder_filter := f |}.

Definition call_init (a : gmap string AnyValue) (h : FilterHolder) : result unit string * FilterHolder :=
  let '(r, f) := init (holder_name h) a (holder_filter h) in (r, set_filter h f).

Definition call_filter (a : gmap string AnyValue) (frame : Frame) (h : FilterHolder) : result (option Frame) string * FilterHolder :=
  let '(r, f) := filter_frame (holder_name h) a frame (holder_filter h) in (r, set_filter h f).

(** [init_filters]: the first error ends the loop. *)
Fixpoint init_list (a : gmap string AnyValue) (l : list FilterHolder) : result unit string * list FilterHolder :=
  match l with
  | [] => (Ok tt, [])
  | h :: l =>
    match call_init a h with
    | (Err e, h) => (Err e, h :: l)
    | (Ok _, h) => let '(r, l) := init_list a l in (r, h :: l)
    end
  end.

Definition init_filters (p : Pipeline) : result unit string * Pipeline :=
  let '(r, l) := init_list (attribute_map p) (filters p) in (r, with_filters l p).

Definition uninit_filters (p : Pipeline) : Pipeline :=
  with_filters ((fun h => set_filter h (uninit (holder_name h) (attribute_map p) (holder_filter h))) <$> filters p) p.

(** A frame through filters: an error ends it, and so does a filter that keeps it. *)
Fixpoint run_list (a : gmap string AnyValue) (frame : Frame) (l : list FilterHolder) : result (option Frame) string * list FilterHolder :=
  match l with
  | [] => (Ok (Some frame), [])
  | h :: l =>
    match call_filter a frame h with
    | (Err e, h) => (Err e, h :: l)
    | (Ok None, h) => (Ok None, h :: l)
    | (Ok (Some frame), h) => let '(r, l) := run_list a frame l in (r, h :: l)
    end
  end.

Definition run_filters (frame : Frame) (p : Pipeline) : result (option Frame) string * Pipeline :=
  let '(r, l) := run_list (attribute_map p) frame (filters p) in (r, with_filters l p).

Definition run_filters_from (start_index : nat) (frame : Frame) (p : Pipeline) : result (option Frame) string * Pipeline :=
  if (length (filters p) <=? start_index)%nat then (Ok (Some frame), p)
  else
    let '(r, l) := run_list (attribute_map p) frame (drop start_index (filters p)) in
    (r, with_filters (take start_index (filters p) ++ l)%list p).

Definition request_frame (i : nat) (p : Pipeline) : outcome (result (option Frame) string * Pipeline) :=
  h ← index (filters p) i;
  let '(r, f) := filter_request (holder_name h) (attribute_map p) (holder_filter h) in
  Ret (r, with_filters (<[i := set_filter h f]> (filters p)) p).

(** ** Where frames go *)

(** A destination: its channel, the number of the input of the filter graph behind it
    ([usize::MAX] for an encoder), and how many flags the graph has for its inputs. *)
Record PipeSender := { chan : nat; fg_input_index : Z; flags : nat }.

(** What a call of [send_frame] meets: the flags that are set, the receivers that are
    there, and whether a frame can be had and filled for a copy. *)
Record World := { flag_set : nat -> Z -> bool; listens : nat -> bool; copied : nat -> result unit Error }.

(** A frame that was sent, with the number of the input in its data. *)
Definition Delivery : Type := nat * Frame * Z.

Definition flagged (w : World) (s : PipeSender) : bool :=
  negb (flags s =? 0)%nat && (fg_input_index s <? Z.of_nat (flags s)) && flag_set w (chan s) (fg_input_index s).

(** The loop over the senders from the place [i] on, of [n]: what was sent, and the
    places of the senders that have finished. *)
Fixpoint send_loop (w : World) (frame : Frame) (n i : nat) (l : list PipeSender) : list Delivery * result (list nat) Error :=
  match l with
  | [] => ([], Ok [])
  | s :: l =>
    let finished := let '(sent, r) := send_loop w frame n (S i) l in (sent, let! places := r in Ok (i :: places)) in
    if flagged w s then finished
    else if (i <? n - 1)%nat then
      match copied w (chan s) with
      | Err e => ([], Err e)
      | Ok _ =>
        if listens w (chan s) then
          let '(sent, r) := send_loop w frame n (S i) l in ((chan s, frame, fg_input_index s) :: sent, r)
        else finished
      end
    else if listens w (chan s) then ([(chan s, frame, fg_input_index s)], Ok []) else ([], Ok [i])
  end.

(** [Vec::remove] *)
Definition vec_remove {A} (l : list A) (i : nat) : outcome (list A) :=
  if (i <? length l)%nat then Ret (take i l ++ drop (S i) l)%list else Panic.

(** What was sent, and the senders that are left, or an error. *)
Definition send_frame (w : World) (senders : list PipeSender) (tmp_frame : option Frame)
    : outcome (list Delivery * result (list PipeSender) Error) :=
  match tmp_frame with
  | None => Ret ([], Ok senders)
  | Some frame =>
    let '(sent, r) := send_loop w frame (length senders) 0 senders in
    match r with
    | Err e => Ret (sent, Err e)
    | Ok finished_senders => l ← foldM vec_remove senders finished_senders; Ret (sent, Ok l)
    end
  end.

(** ** The loop of the thread *)

Inductive PipeReceipt := Timeout | Disconnected | Received (frame : Frame).

(** The status that [wait_until_not_paused] returns, and what the channel gives. *)
Record PipeRound := { round_status : Z; receipt : PipeReceipt }.

(** With all that was sent, and the number of the calls of [send_frame]; what the calls
    meet changes from one to the next. *)
Record Running := { pipe : Pipeline; senders : list PipeSender; src_finished : bool; calls : nat; deliveries : list Delivery }.

Definition with_pipe (p : Pipeline) (st : Running) : Running :=
  {| pipe := p; senders := senders st; src_finished := src_finished st; calls := calls st; deliveries := deliveries st |}.

Definition set_src_finished (st : Running) : Running :=
  {| pipe := pipe st; senders := senders st; src_finished := true; calls := calls st; deliveries := deliveries st |}.

Context (world : nat -> World).

(** A filtered frame is sent, or the error is the thread's. *)
Definition pass_on (r : result (option Frame) string) (st : Running) : outcome (Running * result unit Error) :=
  match r with
  | Err e => Ret (st, Err (Error.FrameFilterProcess e))
  | Ok tmp_frame =>
    '(sent, r) ← send_frame (world (calls st)) (senders st) tmp_frame;
    let left := match r with Ok l => l | Err _ => senders st end in
    Ret ({| pipe := pipe st; senders := left; src_finished := src_finished st; calls := S (calls st);
            deliveries := (deliveries st ++ sent)%list |}, let! _ := r in Ok tt)
  end.

(** The frames that a filter has on its own, through the filters behind it. *)
Fixpoint request_loop (fuel i : nat) (st : Running) : outcome (Running * result unit Error) :=
  match fuel with
  | O => Diverge
  | S fuel =>
    '(r, p) ← request_frame i (pipe st);
    let st := with_pipe p st in
    match r with
    | Err e => Ret (st, Err (Error.FrameFilterRequest e))
    | Ok None => Ret (st, Ok tt)
    | Ok (Some frame) =>
      let '(r, p) := run_filters_from (i + 1) frame (pipe st) in
      '(st, r) ← pass_on r (with_pipe p st);
      match r with
      | Err e => Ret (st, Err e)
      | Ok _ => request_loop fuel i st
      end
    end
  end.

Fixpoint request_all (fuel : nat) (l : list nat) (st : Running) : outcome (Running * result unit Error) :=
  match l with
  | [] => Ret (st, Ok tt)
  | i :: l =>
    '(st, r) ← request_loop fuel i st;
    match r with
    | Err e => Ret (st, Err e)
    | Ok _ => request_all fuel l st
    end
  end.

(** [Some] is a return of [run_pipeline]. *)
Definition ask_filters (fuel : nat) (st : Running) : outcome (Running * option (result unit Error)) :=
  '(st, r) ← request_all fuel (seq 0 (length (filters (pipe st)))) st;
  Ret (st, match r with Err e => Some (Err e) | Ok _ => if bool_decide (length (senders st) = 0%nat) then Some (Ok tt) else None end).

Definition run_round (fuel : nat) (round : PipeRound) (st : Running) : outcome (Running * option (result unit Error)) :=
  if round_status round =? STATUS_END then Ret (st, Some (Ok tt))
  else if src_finished st then ask_filters fuel st
  else
    match receipt round with
    | Disconnected => Ret (set_src_finished st, None)
    | Timeout => ask_filters fuel st
    | Received frame =>
      let '(r, p) := run_filters frame (pipe st) in
      '(st, r) ← pass_on r (with_pipe p st);
      match r with
      | Err e => Ret (st, Some (Err e))
      | Ok _ => if bool_decide (length (senders st) = 0%nat) then Ret (st, Some (Ok tt)) else ask_filters fuel st
      end
    end.

(** The rounds of a thread; [None] when it is still running after them. *)
Fixpoint run_pipeline (fuel : nat) (rounds : list PipeRound) (st : Running) : outcome (Running * option (result unit Error)) :=
  match rounds with
  | [] => Ret (st, None)
  | round :: rounds =>
    '(st, r) ← run_round fuel round st;
    match r with
    | Some r => Ret (st, Some r)
    | None => run_pipeline fuel rounds st
    end
  end.

(** The thread: an error is the scheduler's, and the filters are released in the end. *)
Definition pipeline_thread (fuel : nat) (rounds : list PipeRound) (p : Pipeline) (l : list PipeSender)
    : outcome (Running * option (result unit Error)) :=
  let '(r, p) := init_filters p in
  let st := {| pipe := p; senders := l; src_finished := false; calls := 0; deliveries := [] |} in
  match r with
  | Err e => Ret (with_pipe (uninit_filters p) st, Some (Err (Error.FrameFilterInit e)))
  | Ok _ =>
    '(st, r) ← run_pipeline fuel rounds st;
    match r with
    | Some r => Ret (with_pipe (uninit_filters (pipe st)) st, Some r)
    | None => Ret (st, None)
    end
  end.

(** ** Getting between a stream and its destinations *)

(** A stream of a decoder with its destinations, one of an encoder with its source. *)
Record DecStream := { in_index : nat; in_type : AVMediaType; in_dsts : list PipeSender }.
Record EncStream := { out_index : nat; out_type : AVMediaType; out_src : nat }.

(** A pipeline's thread: where it receives, and to whom it sends. *)
Record PipeThread := { thread_pipeline : Pipeline; thread_source : nat; thread_senders : list PipeSender }.

Definition to_pipeline (c : nat) : PipeSender := {| chan := c; fg_input_index := umax 64; flags := 0 |}.

(** The first stream of the pipeline's index or, without one, of its type. *)
Definition wants_stream (p : Pipeline) (i : nat) (t : AVMediaType) : bool :=
  match pl_stream_index p with
  | Some stream_index => (i =? stream_index)%nat
  | None => bool_decide (t = media p)
  end.

Definition not_matched (tag_cap tag : string) (p : Pipeline) : Error :=
  match pl_stream_index p with
  | Some stream_index => Error.FrameFilterStreamTypeNoMatched tag_cap (Z.of_nat stream_index) (media_debug (media p))
  | None => Error.FrameFilterTypeNoMatched tag (media_debug (media p))
  end.

(** [match_decoder_stream]: the destinations go over to the pipeline, which is the new
    one; [c] is the new channel. *)
Fixpoint match_decoder_stream (p : Pipeline) (c : nat) (l : list DecStream) : result (list PipeSender * list DecStream) Error :=
  match l with
  | [] => Err (not_matched "Input" "input" p)
  | d :: l =>
    if wants_stream p (in_index d) (in_type d) then
      Ok (in_dsts d, {| in_index := in_index d; in_type := in_type d; in_dsts := [to_pipeline c] |} :: l)
    else let! r := match_decoder_stream p c l in Ok (fst r, d :: snd r)
  end.

(** [match_encoder_stream]: the encoder receives from the new channel. *)
Fixpoint match_encoder_stream (p : Pipeline) (c : nat) (l : list EncStream) : result (nat * list EncStream) Error :=
  match l with
  | [] => Err (not_matched "Output" "output" p)
  | e :: l =>
    if wants_stream p (out_index e) (out_type e) then
      Ok (out_src e, {| out_index := out_index e; out_type := out_type e; out_src := c |} :: l)
    else let! r := match_encoder_stream p c l in Ok (fst r, e :: snd r)
  end.

(** The threads that were started, and the streams. *)
Definition input_pipeline_init (p : Pipeline) (c : nat) (threads : list PipeThread) (l : list DecStream)
    : result (list PipeThread * list DecStream) Error :=
  match filters p with
  | [] => Ok (threads, l)
  | _ =>
    let! r := match_decoder_stream p c l in
    Ok (threads ++ [{| thread_pipeline := p; thread_source := c; thread_senders := fst r |}], snd r)%list
  end.

Definition output_pipeline_init (p : Pipeline) (c : nat) (threads : list PipeThread) (l : list EncStream)
    : result (list PipeThread * list EncStream) Error :=
  match filters p with
  | [] => Ok (threads, l)
  | _ =>
    let! r := match_encoder_stream p c l in
    Ok (threads ++ [{| thread_pipeline := p; thread_source := fst r; thread_senders := [to_pipeline c] |}], snd r)%list
  end.

(** The loops of the scheduler over the pipelines of an input and of an output; the new
    channels are [c], [c + 1] and so on. *)
Fixpoint input_pipelines (c : nat) (threads : list PipeThread) (ps : list Pipeline) (l : list DecStream)
    : result (list PipeThread * list DecStream) Error :=
  match ps with
  | [] => Ok (threads, l)
  | p :: ps => let! r := input_pipeline_init p c threads l in input_pipelines (S c) (fst r) ps (snd r)
  end.

Fixpoint output_pipelines (c : nat) (threads : list PipeThread) (ps : list Pipeline) (l : list EncStream)
    : result (list PipeThread * list EncStream) Error :=
  match ps with
  | [] => Ok (threads, l)
  | p :: ps => let! r := output_pipeline_init p c threads l in output_pipelines (S c) (fst r) ps (snd r)
  end.

End Pipeline.

(** ** Sending *)

Section Sending.
  Context `{Filters : FrameFilter}.

(** The sender has a receiver that has not finished. *)
Definition live (w : World) (s : PipeSender) : bool := negb (flagged w s) && listens w (chan s).

Definition deliver (frame : Frame) (s : PipeSender) : Delivery := (chan s, frame, fg_input_index s).

(** Memory for the copies of a frame. *)
Definition copies (w : World) : Prop := forall c, copied w c = Ok tt.

Fixpoint finished_places (w : World) (i : nat) (l : list PipeSender) : list nat :=
  match l with
  | [] => []
  | s :: l => if live w s then finished_places w (S i) l else i :: finished_places w (S i) l
  end.

Lemma send_loop_live w frame n i l :
  copies w -> (i + length l)%nat = n ->
  send_loop w frame n i l = (deliver frame <$> List.filter (live w) l, Ok (finished_places w i l)).
Proof.
  intros Hc. revert i. induction l as [|s l IH]; intros i Hn; cbn [send_loop List.filter finished_places]; [done|]. cbn [length] in Hn.
  rewrite IH by lia. rewrite Hc. change (live w s) with (negb (flagged w s) && listens w (chan s)). destruct (flagged w s); cbn [negb andb]; [done|].
  destruct (i <? n - 1)%nat eqn:E; [by destruct (listens w (chan s))|]. apply Nat.ltb_ge in E.
  destruct l; [|cbn [length] in Hn; lia]. by destruct (listens w (chan s)).
Qed.

Lemma no_finished w i l : finished_places w i l = [] -> List.filter (live w) l = l.
Proof.
  revert i. induction l as [|s l IH]; intros i; cbn [finished_places List.filter]; [done|]. destruct (live w s); [|done].
  intros H. by rewrite (IH (S i)).
Qed.

Lemma one_finished w i l k :
  finished_places w i l = [k] -> (i <= k < i + length l)%nat /\ List.filter (live w) l = (take (k - i) l ++ drop (S (k - i)) l)%list.
Proof.
  revert i. induction l as [|s l IH]; intros i; cbn [finished_places List.filter length]; [done|]. destruct (live w s).
  - intros [Hk Hf]%IH. split; [lia|]. replace (k - i)%nat with (S (k - S i)) by lia. cbn [take drop app]. by rewrite Hf.
  - intros [= -> H]. split; [lia|]. rewrite Nat.sub_diag. by apply no_finished in H.
Qed.

(** A frame reaches every receiver that is there and has not finished, once and in order;
    when no more than one of them has gone, the others are kept. *)
Theorem frames_reach_who_listens (w : World) (senders : list PipeSender) (frame : Frame) :
  copies w -> (length (finished_places w 0 senders) <= 1)%nat ->
  send_frame w senders (Some frame) = Ret (deliver frame <$> List.filter (live w) senders, Ok (List.filter (live w) senders)).
Proof.
  intros Hc Hl. unfold send_frame. rewrite send_loop_live by done. destruct (finished_places w 0 senders) as [|k [|? ?]] eqn:E; [| |cbn in Hl; lia].
  - apply no_finished in E. by rewrite E.
  - apply one_finished in E as [Hk Hf]. cbn [foldM]. unfold vec_remove. rewrite (proj2 (Nat.ltb_lt _ _)) by lia. red_bind. rewrite Hf. by rewrite Nat.sub_0_r.
Qed.

Lemma all_live_places w i l : Forall (fun s => live w s = true) l -> finished_places w i l = [].
Proof. intros H. revert i. induction H as [|s l Hs _ IH]; intros i; cbn [finished_places]; [done|]. by rewrite Hs. Qed.

(** When the first two have gone, the places that are removed are off by one: a sender that
    has gone is kept, and one whose receiver listens is dropped; without a third, the
    thread panics. *)
Theorem two_gone_drop_a_third (w : World) (a b : PipeSender) (rest : list PipeSender) (frame : Frame) :
  copies w -> live w a = false -> live w b = false -> Forall (fun s => live w s = true) rest ->
  send_frame w (a :: b :: rest) (Some frame) =
    match rest with [] => Panic | c :: rest => Ret (deliver frame <$> c :: rest, Ok (b :: rest)) end.
Proof.
  intros Hc Ha Hb Hr. unfold send_frame. rewrite send_loop_live by done. cbn [finished_places List.filter]. rewrite Ha, Hb, all_live_places by done.
  rewrite (no_finished w 0 rest) by by apply all_live_places. cbn [foldM]. unfold vec_remove. cbn [length Nat.ltb Nat.leb]. red_bind. cbn [take drop app length].
  by destruct rest.
Qed.

End Sending.

(** ** Filtering *)

Section Filtering.
  Context `{Filters : FrameFilter} (world : nat -> World) (a : gmap string AnyValue).

(** What filters in a row make of a frame, each with its own state: the first of them that
    fails or keeps the frame ends it, and one that gives a frame hands it to the next. *)
Inductive through : list FilterHolder -> Frame -> result (option Frame) string -> list FilterHolder -> Prop :=
| through_all x : through [] x (Ok (Some x)) []
| through_fails h l x m f : filter_frame (holder_name h) a x (holder_filter h) = (Err m, f) -> through (h :: l) x (Err m) (set_filter h f :: l)
| through_keeps h l x f : filter_frame (holder_name h) a x (holder_filter h) = (Ok None, f) -> through (h :: l) x (Ok None) (set_filter h f :: l)
| through_next h l x y f r l' : filter_frame (holder_name h) a x (holder_filter h) = (Ok (Some y), f) -> through l y r l' -> through (h :: l) x r (set_filter h f :: l').

(** The frames that a filter has on its own, until it has none: what comes out of the
    filters behind it, the error if there is one, and the filters afterwards. *)
Inductive owned : FilterHolder -> list FilterHolder -> list Frame -> option Error -> FilterHolder -> list FilterHolder -> Prop :=
| owned_none h l f : filter_request (holder_name h) a (holder_filter h) = (Ok None, f) -> owned h l [] None (set_filter h f) l
| owned_fails h l m f : filter_request (holder_name h) a (holder_filter h) = (Err m, f) -> owned h l [] (Some (Error.FrameFilterRequest m)) (set_filter h f) l
| owned_frame h l x f o l1 out e h2 l2 :
    filter_request (holder_name h) a (holder_filter h) = (Ok (Some x), f) -> through l x (Ok o) l1 -> owned (set_filter h f) l1 out e h2 l2 ->
    owned h l (option_list o ++ out) e h2 l2
| owned_lost h l x f m l1 :
    filter_request (holder_name h) a (holder_filter h) = (Ok (Some x), f) -> through l x (Err m) l1 -> owned h l [] (Some (Error.FrameFilterProcess m)) (set_filter h f) l1.

(** All filters are asked for frames of their own, in their order. *)
Inductive asked : list FilterHolder -> list Frame -> option Error -> list FilterHolder -> Prop :=
| asked_all : asked [] [] None []
| asked_next h l out1 h1 l1 out2 e l2 : owned h l out1 None h1 l1 -> asked l1 out2 e l2 -> asked (h :: l) (out1 ++ out2) e (h1 :: l2)
| asked_fails h l out e h1 l1 : owned h l out (Some e) h1 l1 -> asked (h :: l) out (Some e) (h1 :: l1).

(** One turn: the frame that came, if there is one, goes through all filters, and then they
    are asked. *)
Inductive turn : option Frame -> list FilterHolder -> list Frame -> option Error -> list FilterHolder -> Prop :=
| turn_idle l out e l' : asked l out e l' -> turn None l out e l'
| turn_frame x l o l1 out e l2 : through l x (Ok o) l1 -> asked l1 out e l2 -> turn (Some x) l (option_list o ++ out) e l2
| turn_fails x l m l1 : through l x (Err m) l1 -> turn (Some x) l [] (Some (Error.FrameFilterProcess m)) l1.

(** What a round brings: a frame or nothing; or the source is gone, behind which no round
    brings anything. *)
Definition brought (gone : bool) (r : PipeRound) : option (option Frame) :=
  if gone then Some None else match receipt r with Disconnected => None | Timeout => Some None | Received x => Some (Some x) end.

(** The rounds: all that comes out of the filters, and the error that ends them. *)
Inductive worked : list PipeRound -> bool -> list FilterHolder -> list Frame -> option Error -> list FilterHolder -> Prop :=
| worked_all gone l : worked [] gone l [] None l
| worked_gone r rounds gone l out e l' : brought gone r = None -> worked rounds true l out e l' -> worked (r :: rounds) gone l out e l'
| worked_next r rounds gone x l out1 l1 out2 e l2 :
    brought gone r = Some x -> turn x l out1 None l1 -> worked rounds gone l1 out2 e l2 -> worked (r :: rounds) gone l (out1 ++ out2) e l2
| worked_fails r rounds gone x l out e l1 : brought gone r = Some x -> turn x l out (Some e) l1 -> worked (r :: rounds) gone l out (Some e) l1.

Lemma through_length l x r l' : through l x r l' -> length l' = length l.
Proof. induction 1; cbn; congruence. Qed.

Lemma owned_length h l out e h' l' : owned h l out e h' l' -> length l' = length l.
Proof. induction 1 as [| |h l x f o l1 out e h2 l2 _ Ht _ IH|h l x f m l1 _ Ht]; [done|done| |]; apply through_length in Ht; congruence. Qed.

(** The code's loop over the filters. *)
Lemma through_run l x r l' : through l x r l' -> run_list a x l = (r, l').
Proof.
  induction 1 as [x|h l x m f H|h l x f H|h l x y f r l' H _ IH]; cbn [run_list]; [done|..]; unfold call_filter; rewrite H; [done..|]. by rewrite IH.
Qed.

Lemma with_own_filters p : with_filters (filters p) p = p.
Proof. by destruct p. Qed.

Lemma through_from pre h l x r l' p :
  through l x r l' -> attribute_map p = a -> filters p = (pre ++ h :: l)%list ->
  run_filters_from (length pre + 1) x p = (r, with_filters (pre ++ h :: l') p).
Proof.
  intros Ht Ha Hp. unfold run_filters_from. rewrite Hp, length_app. destruct (_ <=? _)%nat eqn:E.
  - apply Nat.leb_le in E. cbn [length] in E. destruct l; [|cbn [length] in E; lia]. inversion Ht; subst. rewrite <-Hp. by rewrite with_own_filters.
  - assert (drop (length pre + 1) (pre ++ h :: l) = l) as -> by (rewrite drop_app, drop_ge by lia; by replace (length pre + 1 - length pre)%nat with 1%nat by lia).
    assert (take (length pre + 1) (pre ++ h :: l) = pre ++ [h])%list as -> by (rewrite take_app, take_ge by lia; by replace (length pre + 1 - length pre)%nat with 1%nat by lia).
    rewrite Ha, (through_run _ _ _ _ Ht). by rewrite <-app_assoc.
Qed.

(** Everybody listens at every call. *)
Definition all_listen (l : list PipeSender) : Prop := forall k, copies (world k) /\ Forall (fun s => live (world k) s = true) l.

Lemma send_all k l o : all_listen l -> send_frame (world k) l o = Ret (option_list o ≫= (fun f => deliver f <$> l), Ok l).
Proof.
  intros Hl. destruct (Hl k) as [Hc Hlive]. destruct o as [f|]; [|done]. rewrite frames_reach_who_listens; [|done|rewrite all_live_places by done; cbn; lia].
  rewrite (no_finished (world k) 0 l) by by apply all_live_places. cbn. by rewrite app_nil_r.
Qed.

(** A thread whose filters are now [l], and which has sent [out] to everybody. *)
Definition reached (st : Running) (l : list FilterHolder) (out : list Frame) (st' : Running) : Prop :=
  exists n, st' = {| pipe := with_filters l (pipe st); senders := senders st; src_finished := src_finished st; calls := n;
                     deliveries := (deliveries st ++ (out ≫= fun f => deliver f <$> senders st))%list |}.

Lemma reached_none st l : reached st l [] (with_pipe (with_filters l (pipe st)) st).
Proof. exists (calls st). unfold with_pipe. cbn. by rewrite app_nil_r. Qed.

Lemma reached_trans st l1 out1 st1 l2 out2 st2 : reached st l1 out1 st1 -> reached st1 l2 out2 st2 -> reached st l2 (out1 ++ out2) st2.
Proof. intros [n1 ->] [n2 ->]. exists n2. cbn [pipe senders src_finished deliveries]. by rewrite bind_app, app_assoc. Qed.

Lemma pass_on_reaches o l st st1 :
  all_listen (senders st) -> reached st l [] st1 -> exists st2, pass_on world (Ok o) st1 = Ret (st2, Ok tt) /\ reached st l (option_list o) st2.
Proof.
  intros Hl [n ->]. unfold pass_on. cbn [calls senders pipe src_finished deliveries]. rewrite send_all by done. red_bind. eexists. split; [done|]. exists (S n).
  cbn. by rewrite app_nil_r.
Qed.

Definition answer (e : option Error) : result unit Error := match e with Some e => Err e | None => Ok tt end.

(** One filter is asked. *)
Lemma owned_spec h l out e h' l' :
  owned h l out e h' l' -> forall pre st, all_listen (senders st) -> attribute_map (pipe st) = a -> filters (pipe st) = (pre ++ h :: l)%list ->
  exists k0 st', (forall k, (k0 <= k)%nat -> request_loop world k (length pre) st = Ret (st', answer e)) /\ reached st (pre ++ h' :: l')%list out st'.
Proof.
  assert (forall pre h l st r f, filters (pipe st) = (pre ++ h :: l)%list -> attribute_map (pipe st) = a -> filter_request (holder_name h) a (holder_filter h) = (r, f) ->
    request_frame (length pre) (pipe st) = Ret (r, with_filters (pre ++ set_filter h f :: l) (pipe st))) as Hreq.
  { intros pre h0 l0 st r f Hp Ha Hr. unfold request_frame. rewrite Hp. destruct (index_lt (pre ++ h0 :: l0) (length pre)) as (h1 & -> & Hh1); [rewrite length_app; cbn; lia|].
    rewrite list_lookup_middle in Hh1 by done. injection Hh1 as <-. red_bind. rewrite Ha, Hr. by rewrite insert_app_r_alt, Nat.sub_diag by lia. }
  induction 1 as [h l f Hr|h l m f Hr|h l x f o l1 out e h2 l2 Hr Ht Ho IH|h l x f m l1 Hr Ht]; intros pre st Hl Ha Hp.
  - exists 1%nat. eexists. split; [|apply reached_none]. intros [|k] Hk; [lia|]. cbn [request_loop]. rewrite (Hreq pre h l st _ f Hp Ha Hr). by red_bind.
  - exists 1%nat. eexists. split; [|apply reached_none]. intros [|k] Hk; [lia|]. cbn [request_loop]. rewrite (Hreq pre h l st _ f Hp Ha Hr). by red_bind.
  - set (p1 := with_filters (pre ++ set_filter h f :: l)%list (pipe st)).
    pose proof (through_from pre (set_filter h f) l x (Ok o) l1 p1 Ht Ha eq_refl) as Hfrom.
    set (st1 := with_pipe (with_filters (pre ++ set_filter h f :: l1)%list p1) (with_pipe p1 st)).
    destruct (pass_on_reaches o (pre ++ set_filter h f :: l1)%list st st1 Hl) as (st2 & Hpass & H2). { exists (calls st). unfold st1, with_pipe, p1. cbn. by rewrite app_nil_r. }
    pose proof H2 as [n Hst2]. destruct (IH pre st2) as (k0 & st' & Hk0 & H'); [by rewrite Hst2..|]. exists (S k0), st'. split; [|by eapply reached_trans].
    intros [|k] Hk; [lia|]. cbn [request_loop]. rewrite (Hreq pre h l st _ f Hp Ha Hr). red_bind. cbn [with_pipe pipe]. fold p1. rewrite Hfrom. fold st1. rewrite Hpass. red_bind.
    apply Hk0. lia.
  - set (p1 := with_filters (pre ++ set_filter h f :: l)%list (pipe st)).
    pose proof (through_from pre (set_filter h f) l x (Err m) l1 p1 Ht Ha eq_refl) as Hfrom. exists 1%nat. eexists. split; [|apply (reached_none st)].
    intros [|k] Hk; [lia|]. cbn [request_loop]. rewrite (Hreq pre h l st _ f Hp Ha Hr). red_bind. cbn [with_pipe pipe]. fold p1. rewrite Hfrom. by red_bind.
Qed.

Lemma asked_spec l out e l' :
  asked l out e l' -> forall pre st, all_listen (senders st) -> attribute_map (pipe st) = a -> filters (pipe st) = (pre ++ l)%list ->
  exists k0 st', (forall k, (k0 <= k)%nat -> request_all world k (seq (length pre) (length l)) st = Ret (st', answer e)) /\ reached st (pre ++ l')%list out st'.
Proof.
  induction 1 as [|h l out1 h1 l1 out2 e l2 Ho _ IH|h l out e h1 l1 Ho]; intros pre st Hl Ha Hp.
  - exists 0%nat, st. split; [done|]. exists (calls st). rewrite <-Hp, with_own_filters. cbn. rewrite app_nil_r. by destruct st.
  - destruct (owned_spec _ _ _ _ _ _ Ho pre st Hl Ha Hp) as (k1 & st1 & Hk1 & H1). pose proof H1 as [n Hst1].
    destruct (IH (pre ++ [h1])%list st1) as (k2 & st' & Hk2 & H2); [by rewrite Hst1..|rewrite Hst1; cbn; by rewrite <-app_assoc|].
    exists (Nat.max k1 k2), st'. split; [|rewrite <-app_assoc in H2; by eapply reached_trans]. intros k Hk. cbn [length seq request_all]. rewrite Hk1 by lia. red_bind. cbn [answer].
    specialize (Hk2 k ltac:(lia)). by rewrite length_app, Nat.add_1_r, (owned_length _ _ _ _ _ _ Ho) in Hk2.
  - destruct (owned_spec _ _ _ _ _ _ Ho pre st Hl Ha Hp) as (k1 & st1 & Hk1 & H1). exists k1, st1. split; [|done]. intros k Hk. cbn [length seq request_all].
    rewrite Hk1 by done. by red_bind.
Qed.

Definition ends_with (e : option Error) : option (result unit Error) := match e with Some e => Some (Err e) | None => None end.

Lemma ask_spec l out e l' st :
  asked l out e l' -> all_listen (senders st) -> senders st <> [] -> attribute_map (pipe st) = a -> filters (pipe st) = l ->
  exists k0 st', (forall k, (k0 <= k)%nat -> ask_filters world k st = Ret (st', ends_with e)) /\ reached st l' out st'.
Proof.
  intros Has Hl Hs Ha Hp. destruct (asked_spec _ _ _ _ Has [] st Hl Ha Hp) as (k0 & st' & Hk & Hr). exists k0, st'. split; [|done]. intros k Hle. unfold ask_filters.
  rewrite Hp. rewrite Hk by done. red_bind. destruct e; [done|]. cbn [answer]. destruct Hr as [n ->]. rewrite bool_decide_eq_false_2; [done|]. cbn [senders]. by destruct (senders st).
Qed.

Lemma turn_spec x l out e l' st r :
  turn x l out e l' -> brought (src_finished st) r = Some x -> round_status r <> STATUS_END -> all_listen (senders st) -> senders st <> [] ->
  attribute_map (pipe st) = a -> filters (pipe st) = l ->
  exists k0 st', (forall k, (k0 <= k)%nat -> run_round world k r st = Ret (st', ends_with e)) /\ reached st l' out st'.
Proof.
  unfold brought, run_round. intros Ht Hb Hr Hl Hs Ha Hp. rewrite (proj2 (Z.eqb_neq _ _)) by done.
  assert (forall x, run_filters x (pipe st) = let '(r, l1) := run_list a x l in (r, with_filters l1 (pipe st))) as Hrun by (intros y; unfold run_filters; by rewrite Ha, Hp).
  inversion Ht as [l0 out0 e0 l0' Has|x0 l0 o l1 out0 e0 l2 Hth Has|x0 l0 m l1 Hth]; subst x out e l'; subst l0.
  - assert ((if src_finished st then None else match receipt r with Received y => Some y | _ => None end) = None /\ (src_finished st = true \/ receipt r = Timeout)) as [_ Hc].
    { destruct (src_finished st); [by auto|]. destruct (receipt r); [by auto|done..]. }
    destruct (ask_spec _ _ _ _ st Has) as (k0 & st' & Hk & H'); [done..|]. exists k0, st'. split; [|done]. intros k Hle. destruct Hc as [-> | ->]; [by apply Hk|].
    destruct (src_finished st); by apply Hk.
  - destruct (src_finished st) eqn:Ef; [done|]. destruct (receipt r) as [| |y] eqn:Er; [done..|]. injection Hb as ->. rewrite Hrun, (through_run _ _ _ _ Hth).
    destruct (pass_on_reaches o l1 st (with_pipe (with_filters l1 (pipe st)) st) Hl (reached_none st l1)) as (st1 & Hpass & H1). rewrite Hpass. red_bind. pose proof H1 as [n Hst1].
    rewrite bool_decide_eq_false_2 by (rewrite Hst1; cbn; by destruct (senders st)).
    destruct (ask_spec _ _ _ _ st1 Has) as (k0 & st' & Hk & H'); [by rewrite Hst1..|]. exists k0, st'. split; [by intros k Hle; apply Hk|by eapply reached_trans].
  - destruct (src_finished st) eqn:Ef; [done|]. destruct (receipt r) as [| |y] eqn:Er; [done..|]. injection Hb as ->. rewrite Hrun, (through_run _ _ _ _ Hth).
    exists 0%nat. eexists. split; [by intros k _; cbn [pass_on]; red_bind|apply reached_none].
Qed.


End Filtering.

(** ** The order of several pipelines *)

Section Order.
  Context `{Filters : FrameFilter}.

(** A pipeline reached at a channel, and the channels behind it. *)
Record Link := { at_chan : nat; link_pipeline : Pipeline; behind : list nat }.

(** The pipelines that are met, one after the other, and where that ends. *)
Fixpoint route (fuel : nat) (links : list Link) (ends : list nat) : list Pipeline * list nat :=
  match fuel, ends with
  | S fuel, [c] =>
    match List.find (fun x => (at_chan x =? c)%nat) links with
    | Some x => let '(ps, e) := route fuel links (behind x) in (link_pipeline x :: ps, e)
    | None => ([], ends)
    end
  | _, _ => ([], ends)
  end.

(** Downstream from a decoder, and upstream from an encoder. *)
Definition downstream (t : PipeThread) : Link :=
  {| at_chan := thread_source t; link_pipeline := thread_pipeline t; behind := chan <$> thread_senders t |}.

Definition upstream (t : PipeThread) : Link :=
  {| at_chan := match thread_senders t with s :: _ => chan s | [] => 0 end; link_pipeline := thread_pipeline t; behind := [thread_source t] |}.

Definition below (c : nat) (links : list Link) : Prop := Forall (fun x => (at_chan x < c)%nat /\ Forall (fun d => (d < c)%nat) (behind x)) links.

Lemma route_more fuel links ends c p cur :
  below c links -> Forall (fun d => (d < c)%nat) ends ->
  route fuel (links ++ [{| at_chan := c; link_pipeline := p; behind := cur |}]) ends = route fuel links ends.
Proof.
  intros Hl. revert ends. induction fuel as [|fuel IH]; intros ends He; [done|]. destruct ends as [|d [|? ?]]; [done| |done]. cbn [route].
  apply Forall_cons in He as [Hd _].
  assert (List.find (fun x => (at_chan x =? d)%nat) (links ++ [{| at_chan := c; link_pipeline := p; behind := cur |}]) =
          List.find (fun x => (at_chan x =? d)%nat) links) as ->.
  { clear -Hd. induction links as [|x links IH]; cbn [app List.find at_chan]; [by rewrite (proj2 (Nat.eqb_neq _ _)) by lia|]. by destruct (at_chan x =? d)%nat. }
  destruct (List.find _ links) as [x|] eqn:E; [|done]. rewrite IH; [done|]. apply List.find_some in E as [Hx%list_elem_of_In _].
  unfold below in Hl. rewrite Forall_forall in Hl. by apply Hl.
Qed.

Lemma route_new fuel links c p cur :
  below c links -> Forall (fun d => (d < c)%nat) cur ->
  route (S fuel) (links ++ [{| at_chan := c; link_pipeline := p; behind := cur |}]) [c] =
    (p :: fst (route fuel links cur), snd (route fuel links cur)).
Proof.
  intros Hl Hc. cbn [route].
  assert (List.find (fun x => (at_chan x =? c)%nat) (links ++ [{| at_chan := c; link_pipeline := p; behind := cur |}]) =
          Some {| at_chan := c; link_pipeline := p; behind := cur |}) as ->.
  { induction Hl as [|x links [Hx _] _ IH]; cbn [app List.find at_chan]; [by rewrite Nat.eqb_refl|]. by rewrite (proj2 (Nat.eqb_neq _ _)) by lia. }
  cbn [behind link_pipeline]. rewrite route_more by done. by destruct (route fuel links cur).
Qed.

Lemma below_more c links p cur : below c links -> Forall (fun d => (d < c)%nat) cur -> below (S c) (links ++ [{| at_chan := c; link_pipeline := p; behind := cur |}]).
Proof.
  intros Hl Hc. apply Forall_app. split; [|apply Forall_cons; split; [|by constructor]].
  - eapply Forall_impl; [exact Hl|]. intros x [H1 H2]. split; [lia|]. eapply Forall_impl; [exact H2|]. intros; cbn in *; lia.
  - split; [cbn; lia|]. eapply Forall_impl; [exact Hc|]. intros; cbn in *; lia.
Qed.

(** The pipeline takes the stream at the place [k]. *)
Definition takes (p : Pipeline) (k : nat) (streams : list (nat * AVMediaType)) : Prop :=
  filters p <> [] /\ (exists x, streams !! k = Some x /\ wants_stream p (fst x) (snd x) = true) /\
  forall j x, (j < k)%nat -> streams !! j = Some x -> wants_stream p (fst x) (snd x) = false.

Definition dec_types (l : list DecStream) : list (nat * AVMediaType) := (fun d => (in_index d, in_type d)) <$> l.
Definition enc_types (l : list EncStream) : list (nat * AVMediaType) := (fun d => (out_index d, out_type d)) <$> l.

Lemma match_decoder_takes p c k l :
  takes p k (dec_types l) ->
  exists d, l !! k = Some d /\
    match_decoder_stream p c l = Ok (in_dsts d, <[k := {| in_index := in_index d; in_type := in_type d; in_dsts := [to_pipeline c] |}]> l).
Proof.
  intros (_ & Hk & Hj). revert k Hk Hj. induction l as [|d l IH]; intros k (x & Hk & Hw) Hj; [done|]. destruct k as [|k].
  - injection Hk as <-. exists d. cbn [match_decoder_stream fst snd] in *. by rewrite Hw.
  - cbn [match_decoder_stream]. pose proof (Hj 0%nat (in_index d, in_type d) ltac:(lia) eq_refl) as H0. cbn [fst snd] in H0. rewrite H0.
    destruct (IH k) as (d' & Hd & ->); [by exists x| |by exists d']. intros j y Hjk Hy. apply (Hj (S j)); [lia|done].
Qed.

Lemma match_encoder_takes p c k l :
  takes p k (enc_types l) ->
  exists d, l !! k = Some d /\
    match_encoder_stream p c l = Ok (out_src d, <[k := {| out_index := out_index d; out_type := out_type d; out_src := c |}]> l).
Proof.
  intros (_ & Hk & Hj). revert k Hk Hj. induction l as [|d l IH]; intros k (x & Hk & Hw) Hj; [done|]. destruct k as [|k].
  - injection Hk as <-. exists d. cbn [match_encoder_stream fst snd] in *. by rewrite Hw.
  - cbn [match_encoder_stream]. pose proof (Hj 0%nat (out_index d, out_type d) ltac:(lia) eq_refl) as H0. cbn [fst snd] in H0. rewrite H0.
    destruct (IH k) as (d' & Hd & ->); [by exists x| |by exists d']. intros j y Hjk Hy. apply (Hj (S j)); [lia|done].
Qed.

Lemma insert_types {A B} (f : A -> B) k x y (l : list A) : l !! k = Some y -> f x = f y -> f <$> <[k := x]> l = f <$> l.
Proof. intros Hk Hf. rewrite list_fmap_insert, Hf. apply list_insert_id. by rewrite list_lookup_fmap, Hk. Qed.

(** The order when there are some pipelines already. *)
Lemma input_pipelines_route ps : forall c threads l k d fuel done,
  Forall (fun p => takes p k (dec_types l)) ps -> l !! k = Some d -> below c (downstream <$> threads) ->
  Forall (fun s => (chan s < c)%nat) (in_dsts d) -> fst (route fuel (downstream <$> threads) (chan <$> in_dsts d)) = done ->
  exists threads' l' d', input_pipelines c threads ps l = Ok (threads', l') /\ l' !! k = Some d' /\
    route (length ps + fuel) (downstream <$> threads') (chan <$> in_dsts d') =
      (rev ps ++ done, snd (route fuel (downstream <$> threads) (chan <$> in_dsts d)))%list.
Proof.
  induction ps as [|p ps IH]; intros c threads l k d fuel done Hps Hd Hb Hc Hdone.
  { exists threads, l, d. cbn. split_and!; [done|done|]. subst done. by destruct (route fuel _ _). }
  apply Forall_cons in Hps as [Hp Hps]. cbn [input_pipelines]. unfold input_pipeline_init. pose proof Hp as [Hne _].
  destruct (match_decoder_takes p c k l Hp) as (d0 & Hd0 & Hm). rewrite Hd in Hd0. injection Hd0 as <-. rewrite Hm.
  destruct (filters p) as [|h hs]; [done|]. cbn [res_bind fst snd].
  set (t := {| thread_pipeline := p; thread_source := c; thread_senders := in_dsts d |}).
  set (d1 := {| in_index := in_index d; in_type := in_type d; in_dsts := [to_pipeline c] |}).
  assert (Forall (fun i => (i < c)%nat) (chan <$> in_dsts d)) as Hc' by by apply Forall_fmap.
  assert (downstream <$> threads ++ [t] = ((downstream <$> threads) ++ [{| at_chan := c; link_pipeline := p; behind := chan <$> in_dsts d |}]))%list as Ht by by rewrite fmap_app.
  pose proof (route_new fuel (downstream <$> threads) c p (chan <$> in_dsts d) Hb Hc') as Hroute. rewrite <-Ht in Hroute.
  destruct (IH (S c) (threads ++ [t])%list (<[k := d1]> l) k d1 (S fuel) (p :: done)) as (threads' & l' & d' & He & Hl' & Hr).
  - unfold dec_types. by rewrite (insert_types _ k d1 d).
  - apply list_lookup_insert_eq. by eapply lookup_lt_Some.
  - rewrite Ht. by apply below_more.
  - constructor; [cbn; lia|done].
  - change (chan <$> in_dsts d1) with [c]. rewrite Hroute. cbn [fst]. by rewrite Hdone.
  - exists threads', l', d'. split_and!; [done|done|]. change (chan <$> in_dsts d1) with [c] in Hr. rewrite Hroute in Hr. cbn [snd] in Hr.
    replace (length (p :: ps) + fuel)%nat with (length ps + S fuel)%nat by (cbn; lia). rewrite Hr. cbn [rev]. by rewrite <-app_assoc.
Qed.

(** The pipelines of an input that take the same stream: its frames pass through the last
    one first, and leave the first one for the stream's old destinations. *)
Theorem input_pipelines_run_backwards (ps : list Pipeline) (l : list DecStream) (k c : nat) (d : DecStream) :
  Forall (fun p => takes p k (dec_types l)) ps -> l !! k = Some d -> Forall (fun s => (chan s < c)%nat) (in_dsts d) ->
  exists threads l' d', input_pipelines c [] ps l = Ok (threads, l') /\ l' !! k = Some d' /\
    route (length ps) (downstream <$> threads) (chan <$> in_dsts d') = (rev ps, chan <$> in_dsts d).
Proof.
  intros Hps Hd Hc. destruct (input_pipelines_route ps c [] l k d 0 [] Hps Hd) as (threads & l' & d' & He & Hl & Hr); [constructor|done|done|].
  exists threads, l', d'. split_and!; [done|done|]. rewrite Nat.add_0_r, app_nil_r in Hr. by rewrite Hr.
Qed.

Lemma output_pipelines_route ps : forall c threads l k d fuel done,
  Forall (fun p => takes p k (enc_types l)) ps -> l !! k = Some d -> below c (upstream <$> threads) -> (out_src d < c)%nat ->
  fst (route fuel (upstream <$> threads) [out_src d]) = done ->
  exists threads' l' d', output_pipelines c threads ps l = Ok (threads', l') /\ l' !! k = Some d' /\
    route (length ps + fuel) (upstream <$> threads') [out_src d'] = (rev ps ++ done, snd (route fuel (upstream <$> threads) [out_src d]))%list.
Proof.
  induction ps as [|p ps IH]; intros c threads l k d fuel done Hps Hd Hb Hc Hdone.
  { exists threads, l, d. cbn. split_and!; [done|done|]. subst done. by destruct (route fuel _ _). }
  apply Forall_cons in Hps as [Hp Hps]. cbn [output_pipelines]. unfold output_pipeline_init. pose proof Hp as [Hne _].
  destruct (match_encoder_takes p c k l Hp) as (d0 & Hd0 & Hm). rewrite Hd in Hd0. injection Hd0 as <-. rewrite Hm.
  destruct (filters p) as [|h hs]; [done|]. cbn [res_bind fst snd].
  set (t := {| thread_pipeline := p; thread_source := out_src d; thread_senders := [to_pipeline c] |}).
  set (d1 := {| out_index := out_index d; out_type := out_type d; out_src := c |}).
  assert (Forall (fun i => (i < c)%nat) [out_src d]) as Hc' by by constructor.
  assert (upstream <$> threads ++ [t] = ((upstream <$> threads) ++ [{| at_chan := c; link_pipeline := p; behind := [out_src d] |}]))%list as Ht by by rewrite fmap_app.
  pose proof (route_new fuel (upstream <$> threads) c p [out_src d] Hb Hc') as Hroute. rewrite <-Ht in Hroute.
  destruct (IH (S c) (threads ++ [t])%list (<[k := d1]> l) k d1 (S fuel) (p :: done)) as (threads' & l' & d' & He & Hl' & Hr).
  - unfold enc_types. by rewrite (insert_types _ k d1 d).
  - apply list_lookup_insert_eq. by eapply lookup_lt_Some.
  - rewrite Ht. by apply below_more.
  - cbn. lia.
  - change [out_src d1] with [c]. rewrite Hroute. cbn [fst]. by rewrite Hdone.
  - exists threads', l', d'. split_and!; [done|done|]. change [out_src d1] with [c] in Hr. rewrite Hroute in Hr. cbn [snd] in Hr.
    replace (length (p :: ps) + fuel)%nat with (length ps + S fuel)%nat by (cbn; lia). rewrite Hr. cbn [rev]. by rewrite <-app_assoc.
Qed.

(** Those of an output: going back from the encoder, the last pipeline comes first, so
    that the frames pass through them in their order. *)
Theorem output_pipelines_run_in_order (ps : list Pipeline) (l : list EncStream) (k c : nat) (e : EncStream) :
  Forall (fun p => takes p k (enc_types l)) ps -> l !! k = Some e -> (out_src e < c)%nat ->
  exists threads l' e', output_pipelines c [] ps l = Ok (threads, l') /\ l' !! k = Some e' /\
    route (length ps) (upstream <$> threads) [out_src e'] = (rev ps, [out_src e]).
Proof.
  intros Hps Hd Hc. destruct (output_pipelines_route ps c [] l k e 0 [] Hps Hd) as (threads & l' & d' & He & Hl & Hr); [constructor|done|done|].
  exists threads, l', d'. split_and!; [done|done|]. rewrite Nat.add_0_r, app_nil_r in Hr. by rewrite Hr.
Qed.

End Order.

(** ** Filters over numbers *)

(** A filter that adds its number to a frame, keeps frames that are too large, and fails
    on negative ones. *)
#[export] Instance adders : FrameFilter := {|
  Frame := Z; Filter := Z; AnyValue := Z;
  filter_type := fun _ => AVMEDIA_TYPE_VIDEO;
  init := fun _ _ f => (Ok tt, f);
  filter_frame := fun _ _ x f => (if x <? 0 then Err "negative" else if 100 <? x then Ok None else Ok (Some (x + f)), f);
  filter_request := fun _ _ f => (Ok None, f);
  uninit := fun _ _ f => f
|}.

Definition an_adder (n : Z) : Pipeline :=
  {| media := AVMEDIA_TYPE_VIDEO; pl_stream_index := None; filters := [{| holder_name := "add"; holder_filter := n |}]; attribute_map := ∅ |}.

(** Receivers that are gone. *)
Definition a_world (gone : list nat) : World :=
  {| flag_set := fun _ _ => false; listens := fun c => negb (bool_decide (c ∈ gone)); copied := fun _ => Ok tt |}.

Definition to_chan (c : nat) : PipeSender := {| chan := c; fg_input_index := umax 64; flags := 0 |}.

(** Frames are numbers here. *)
Definition send_number (w : World) (l : list PipeSender) (x : Z) : outcome (list (nat * Z * Z) * result (list PipeSender) Error) :=
  send_frame (Filters := adders) w l (Some x).

Example three_listen : send_number (a_world []) [to_chan 1; to_chan 2; to_chan 3] 7 =
  Ret ([(1%nat, 7, umax 64); (2%nat, 7, umax 64); (3%nat, 7, umax 64)], Ok [to_chan 1; to_chan 2; to_chan 3]).
Proof. vm_compute. reflexivity. Qed.

(** The receivers 1 and 2 are gone: 2 is kept, and 3, which listens, is dropped. *)
Example the_wrong_sender_goes : send_number (a_world [1; 2]%nat) [to_chan 1; to_chan 2; to_chan 3] 7 = Ret ([(3%nat, 7, umax 64)], Ok [to_chan 2]).
Proof. vm_compute. reflexivity. Qed.

Example both_gone_panics : send_number (a_world [1; 2]%nat) [to_chan 1; to_chan 2] 7 = Panic.
Proof. vm_compute. reflexivity. Qed.

Lemma frames_reach_who_listens_witness :
  send_number (a_world [1%nat]) [to_chan 1; to_chan 2; to_chan 3] 7 =
    Ret ([(2%nat, 7, umax 64); (3%nat, 7, umax 64)], Ok [to_chan 2; to_chan 3]).
Proof. apply (frames_reach_who_listens (Filters := adders) (a_world [1%nat]) [to_chan 1; to_chan 2; to_chan 3] 7); [done|vm_compute; lia]. Defined.

Lemma two_gone_drop_a_third_witness :
  send_number (a_world [1; 2]%nat) [to_chan 1; to_chan 2; to_chan 3; to_chan 4] 7 =
    Ret ([(3%nat, 7, umax 64); (4%nat, 7, umax 64)], Ok [to_chan 2; to_chan 4]).
Proof.
  apply (two_gone_drop_a_third (Filters := adders) (a_world [1; 2]%nat) (to_chan 1) (to_chan 2) [to_chan 3; to_chan 4] 7); [done|reflexivity|reflexivity|by repeat constructor].
Defined.

(** A filter that adds its number to a frame, keeps frames that are too large, and gives
    the last one that it has kept when it is asked. *)
#[local] Instance keepers : FrameFilter := {|
  Frame := Z; Filter := Z * option Z; AnyValue := Z;
  filter_type := fun _ => AVMEDIA_TYPE_VIDEO;
  init := fun _ _ f => (Ok tt, f);
  filter_frame := fun _ _ x f => if x <? 0 then (Err "negative", f) else if 100 <? x then (Ok None, (fst f, Some (x - 100))) else (Ok (Some (x + fst f)), f);
  filter_request := fun _ _ f => (Ok (snd f), (fst f, None));
  uninit := fun _ _ f => f
|}.

Definition keeper (n : Z) (k : option Z) : FilterHolder (Filters := keepers) := {| holder_name := "keep"; holder_filter := (n, k) : Filter (FrameFilter := keepers) |}.

Definition kept_rounds : list (PipeRound (Filters := keepers)) :=
  (fun r : option (option Z) => {| round_status := STATUS_RUN; receipt := match r with None => Disconnected | Some None => Timeout | Some (Some x) => Received (x : Frame (FrameFilter := keepers)) end |}) <$>
    [Some (Some 5); Some None; Some (Some 150); None; Some (Some 9)].

Definition kept_start : Running (Filters := keepers) :=
  {| pipe := {| media := AVMEDIA_TYPE_VIDEO; pl_stream_index := None; filters := [keeper 10 None; keeper 1 None]; attribute_map := ∅ |}; senders := [to_chan 1];
     src_finished := false; calls := 0; deliveries := [] |}.


Definition a_decoded (dsts : list PipeSender) : DecStream := {| in_index := 0; in_type := AVMEDIA_TYPE_VIDEO; in_dsts := dsts |}.

Lemma adder_takes n : takes (an_adder n) 0 [(0%nat, AVMEDIA_TYPE_VIDEO)].
Proof. split; [done|]. split; [by exists (0%nat, AVMEDIA_TYPE_VIDEO)|]. intros j x Hj. lia. Qed.

Lemma input_pipelines_run_backwards_witness :
  exists threads l' d', input_pipelines 5 [] [an_adder 1; an_adder 2] [a_decoded [to_chan 1; to_chan 2]] = Ok (threads, l') /\ l' !! 0%nat = Some d' /\
    route 2 (downstream <$> threads) (chan <$> in_dsts d') = ([an_adder 2; an_adder 1], [1; 2]%nat).
Proof.
  apply (input_pipelines_run_backwards [an_adder 1; an_adder 2] [a_decoded [to_chan 1; to_chan 2]] 0 5 (a_decoded [to_chan 1; to_chan 2])).
  - repeat (apply Forall_cons; split; [apply adder_takes|]). by apply Forall_nil.
  - done.
  - repeat (apply Forall_cons; split; [cbn; lia|]). by apply Forall_nil.
Defined.

Lemma output_pipelines_run_in_order_witness :
  exists threads l' e', output_pipelines 5 [] [an_adder 1; an_adder 2] [{| out_index := 0; out_type := AVMEDIA_TYPE_VIDEO; out_src := 1 |}] = Ok (threads, l') /\
    l' !! 0%nat = Some e' /\ route 2 (upstream <$> threads) [out_src e'] = ([an_adder 2; an_adder 1], [1]%nat).
Proof.
  apply (output_pipelines_run_in_order [an_adder 1; an_adder 2] [{| out_index := 0; out_type := AVMEDIA_TYPE_VIDEO; out_src := 1 |}] 0 5
    {| out_index := 0; out_type := AVMEDIA_TYPE_VIDEO; out_src := 1 |}); [|done|cbn; lia].
  repeat (apply Forall_cons; split; [apply adder_takes|]). by apply Forall_nil.
Defined.
