(* ===== verification/Rescale.v ===== *)
(** * Timestamps between time bases ([ez-ffmpeg/src/util/ffmpeg_utils.rs])

    The port of libavutil's [av_rescale_rnd]: [a * b / c] in 64 bits, with the
    rounding modes of libavutil.  The theorem compares it with exact arithmetic. *)

From stdpp Require Import base list.
From Stdlib Require Import ZArith Lia.
From S2P Require Import Prelude RustInt.

Local Open Scope Z_scope.
Local Open Scope rust_scope.

(** [AVRounding] *)
Definition AV_ROUND_ZERO : Z := 0.
Definition AV_ROUND_INF : Z := 1.
Definition AV_ROUND_DOWN : Z := 2.
Definition AV_ROUND_UP : Z := 3.
Definition AV_ROUND_NEAR_INF : Z := 5.
Definition AV_ROUND_PASS_MINMAX : Z := 8192.

Definition I64_MIN : Z := - 2 ^ 63.
Definition I64_MAX : Z := 2 ^ 63 - 1.
Definition INT_MAX : Z := 2 ^ 31 - 1.

Section Rescale.
  Context `{Prof : Profile}.

(** 128 bits; [a], [b], [c] and [r] are not negative. *)
Definition rescale_large (a b c r : Z) : outcome Z :=
  x ← umul 128 a b;
  x ← uadd 128 x r;
  let result := x / c in
  Ret (if I64_MAX <? result then I64_MIN else result).

Definition rounding_term (c rnd : Z) : Z :=
  if rnd =? AV_ROUND_NEAR_INF then Z.quot c 2 else if negb (Z.land rnd 1 =? 0) then c - 1 else 0.

(** Behind the case of a negative [a]. *)
Definition rescale_nonneg (a b c rnd : Z) : outcome Z :=
  let r := rounding_term c rnd in
  if (b <=? INT_MAX) && (c <=? INT_MAX) then
    if a <=? INT_MAX then
      x ← signed 64 (a * b);
      x ← signed 64 (x + r);
      Ret (Z.quot x c)
    else
      let ad := Z.quot a c in
      x ← signed 64 (Z.rem a c * b);
      x ← signed 64 (x + r);
      let a2 := Z.quot x c in
      too_large ← (if (INT_MAX <=? ad) && negb (b =? 0) then y ← signed 64 (I64_MAX - a2); Ret (Z.quot y b <? ad) else Ret false);
      if too_large : bool then Ret I64_MIN
      else x ← signed 64 (ad * b); signed 64 (x + a2)
  else rescale_large a b c r.

Definition bad_arguments (b c rnd : Z) : bool :=
  let mode := Z.ldiff rnd AV_ROUND_PASS_MINMAX in
  (c <=? 0) || (b <? 0) || negb ((mode <=? 5) && negb (mode =? 4)).

(** The recursion for a negative [a] is one deep. *)
Fixpoint rescale_rnd (fuel : nat) (a b c rnd : Z) : outcome Z :=
  match fuel with
  | O => Diverge
  | S fuel =>
    if bad_arguments b c rnd then Ret I64_MIN
    else
      let pass := negb (Z.land rnd AV_ROUND_PASS_MINMAX =? 0) in
      if pass && ((a =? I64_MIN) || (a =? I64_MAX)) then Ret a
      else
        let rnd := if pass then rnd - AV_ROUND_PASS_MINMAX else rnd in
        if a <? 0 then
          neg_a ← signed 64 (- Z.max a (- I64_MAX));
          neg_result ← rescale_rnd fuel neg_a b c (Z.lxor rnd (Z.land (Z.shiftr rnd 1) 1));
          signed 64 (- neg_result)
        else rescale_nonneg a b c rnd
  end.

Definition av_rescale_rnd : Z -> Z -> Z -> Z -> outcome Z := rescale_rnd 2.

(** An [AVRational] as its numerator and denominator, which have 32 bits. *)
Definition av_rescale_q_rnd (a : Z) (bq cq : Z * Z) (rnd : Z) : outcome Z :=
  b ← signed 64 (fst bq * snd cq);
  c ← signed 64 (fst cq * snd bq);
  av_rescale_rnd a b c rnd.

(** ** Exact rounding *)

Definition rounding_mode (mode : Z) : Prop := mode = AV_ROUND_ZERO \/ mode = AV_ROUND_INF \/ mode = AV_ROUND_DOWN \/ mode = AV_ROUND_UP \/ mode = AV_ROUND_NEAR_INF.

(** The rational [n / c], for a positive [c], as an integer: towards zero, away from
    it, down, up, or to the nearest, and away from zero in the middle. *)
Definition rounded (mode n c : Z) : Z :=
  if mode =? AV_ROUND_ZERO then Z.quot n c
  else if mode =? AV_ROUND_INF then Z.sgn n * - (- Z.abs n / c)
  else if mode =? AV_ROUND_DOWN then n / c
  else if mode =? AV_ROUND_UP then - (- n / c)
  else Z.sgn n * ((2 * Z.abs n + c) / (2 * c)).

(** ** Arguments that are not negative *)

(** What the term in the numerator rounds to. *)
Lemma rounding_term_range c mode : 0 < c -> rounding_mode mode -> 0 <= rounding_term c mode < c.
Proof.
  intros Hc [->|[->|[->|[->| ->]]]]; [change (rounding_term c _) with 0|change (rounding_term c _) with (c - 1)|change (rounding_term c _) with 0|
    change (rounding_term c _) with (c - 1)|change (rounding_term c _) with (Z.quot c 2)]; try lia.
  rewrite Z.quot_div_nonneg by lia. pose proof (Z.div_lt_upper_bound c 2 c). pose proof (Z.div_pos c 2). lia.
Qed.

Lemma half_up n c : 0 < c -> (n + c / 2) / c = (2 * n + c) / (2 * c).
Proof.
  intros Hc. symmetry. apply Z.div_unique with ((2 * n + c) mod (2 * c) / 2).
  - left. pose proof (Z.mod_pos_bound (2 * n + c) (2 * c)). split; [apply Z.div_pos; lia|apply Z.div_lt_upper_bound; lia].
  - pose proof (Z.div_mod (2 * n + c) (2 * c)) as H. set (q := (2 * n + c) / (2 * c)) in *. set (m := (2 * n + c) mod (2 * c)) in *.
    assert (m = c + 2 * (n - c * q)) as -> by lia. rewrite (Z.mul_comm 2 (n - c * q)), Z.div_add by lia. lia.
Qed.

Lemma round_up n c : 0 < c -> (n + (c - 1)) / c = - (- n / c).
Proof.
  intros Hc. symmetry. apply Z.div_unique with (c - 1 - (- n) mod c); pose proof (Z.mod_pos_bound (- n) c); [left; lia|].
  pose proof (Z.div_mod (- n) c). lia.
Qed.

Lemma rounded_nonneg mode n c :
  0 < c -> 0 <= n -> rounding_mode mode -> (n + rounding_term c mode) / c = rounded mode n c.
Proof.
  intros Hc Hn [->|[->|[->|[->| ->]]]].
  - change (rounding_term c _) with 0. change (rounded _ n c) with (Z.quot n c). rewrite Z.add_0_r, Z.quot_div_nonneg; lia.
  - change (rounding_term c _) with (c - 1). change (rounded _ n c) with (Z.sgn n * - (- Z.abs n / c)). rewrite round_up, Z.abs_eq by lia.
    destruct (Z.eq_dec n 0) as [->|]; [by rewrite Z.div_0_l by lia|]. rewrite Z.sgn_pos; lia.
  - change (rounding_term c _) with 0. by rewrite Z.add_0_r.
  - change (rounding_term c _) with (c - 1). by apply round_up.
  - change (rounding_term c _) with (Z.quot c 2). change (rounded _ n c) with (Z.sgn n * ((2 * Z.abs n + c) / (2 * c))).
    rewrite Z.quot_div_nonneg, half_up, Z.abs_eq by lia. destruct (Z.eq_dec n 0) as [->|]; [|rewrite Z.sgn_pos; lia].
    by rewrite Z.div_small by lia.
Qed.

(** The quotient, when it has 64 bits. *)
Definition clamped (e : Z) : Z := if I64_MAX <? e then I64_MIN else e.

Lemma signed_64_in x : I64_MIN <= x <= I64_MAX -> signed 64 x = Ret x.
Proof. unfold I64_MIN, I64_MAX. intros H. apply signed_in. unfold signed_fits. change (64 - 1) with 63. lia. Qed.

Lemma small_product a b k : 0 <= a <= k -> 0 <= b <= INT_MAX -> k <= INT_MAX -> 0 <= a * b <= k * INT_MAX.
Proof. intros. nia. Qed.

Lemma rescale_large_spec a b c r :
  0 <= a <= I64_MAX -> 0 <= b <= I64_MAX -> 0 <= r < c -> c <= I64_MAX -> rescale_large a b c r = Ret (clamped ((a * b + r) / c)).
Proof.
  intros Ha Hb Hr Hc. assert (0 <= a * b <= I64_MAX * I64_MAX) as Hab by nia. unfold I64_MAX in *. unfold rescale_large, umul, uadd.
  rewrite arith_fits by (unfold fits; lia). cbn [mbind outcome_bind]. rewrite arith_fits by (unfold fits; lia). done.
Qed.

(** The path with two quotients. *)
Lemma split_quotient a b c r : 0 < c -> (a * b + r) / c = a / c * b + (a mod c * b + r) / c.
Proof.
  intros Hc. rewrite <-Z.div_add_l by lia. f_equal. rewrite (Z.div_mod a c) at 1 by lia. lia.
Qed.

Lemma too_large_spec ad b a2 :
  0 <= ad <= I64_MAX -> 0 <= b <= INT_MAX -> 0 <= a2 <= b ->
  (too_large ← (if (INT_MAX <=? ad) && negb (b =? 0) then y ← signed 64 (I64_MAX - a2); Ret (Z.quot y b <? ad) else Ret false);
   if too_large : bool then Ret I64_MIN else x ← signed 64 (ad * b); signed 64 (x + a2)) = Ret (clamped (ad * b + a2)).
Proof.
  intros Had Hb Ha2. assert (ad * b + a2 <= I64_MAX ->
    (x ← signed 64 (ad * b); signed 64 (x + a2)) = Ret (clamped (ad * b + a2))) as Hin.
  { intros Hle. assert (0 <= ad * b) by nia. rewrite signed_64_in by (unfold I64_MIN; lia). cbn [mbind outcome_bind].
    rewrite signed_64_in by (unfold I64_MIN, I64_MAX in *; lia). unfold clamped. by rewrite (proj2 (Z.ltb_ge _ _)). }
  unfold INT_MAX in *. destruct (_ && _) eqn:E.
  - apply andb_true_iff in E as [E1 E2]. apply Z.leb_le in E1. apply negb_true_iff, Z.eqb_neq in E2.
    rewrite (signed_64_in (I64_MAX - a2)) by (unfold I64_MIN, I64_MAX in *; lia). cbn [mbind outcome_bind].
    rewrite Z.quot_div_nonneg by (unfold I64_MAX; lia). destruct (_ <? ad) eqn:Elt.
    + apply Z.ltb_lt in Elt. unfold clamped. rewrite (proj2 (Z.ltb_lt _ _)); [done|].
      assert (I64_MAX - a2 < b * ad); [|lia]. apply Z.nle_gt. intros Hle. apply Z.div_le_lower_bound in Hle; lia.
    + apply Z.ltb_ge in Elt. apply Hin. assert (b * ad <= I64_MAX - a2); [|lia].
      apply Z.le_trans with (b * ((I64_MAX - a2) / b)); [nia|]. apply Z.mul_div_le. lia.
  - cbn [mbind outcome_bind]. apply Hin. unfold I64_MAX. apply andb_false_iff in E as [E|E].
    + apply Z.leb_gt in E. assert (ad * b <= (2 ^ 31 - 1) * (2 ^ 31 - 1)) by (apply Z.mul_le_mono_nonneg; lia). lia.
    + apply negb_false_iff, Z.eqb_eq in E. subst. lia.
Qed.

Lemma rescale_nonneg_spec a b c mode :
  0 <= a <= I64_MAX -> 0 <= b <= I64_MAX -> 0 < c <= I64_MAX -> rounding_mode mode ->
  rescale_nonneg a b c mode = Ret (clamped (rounded mode (a * b) c)).
Proof.
  intros Ha Hb [Hc0 Hc] Hm. rewrite <-rounded_nonneg by (done || lia || apply Z.mul_nonneg_nonneg; lia). unfold rescale_nonneg. cbv zeta.
  pose proof (rounding_term_range c mode Hc0 Hm) as Hr. set (r := rounding_term c mode) in *.
  destruct (_ && _) eqn:Efast; [|by apply rescale_large_spec]. apply andb_true_iff in Efast as [Eb Ec]. apply Z.leb_le in Eb, Ec.
  destruct (a <=? INT_MAX) eqn:Ea.
  - apply Z.leb_le in Ea. pose proof (small_product a b INT_MAX ltac:(lia) ltac:(lia) ltac:(lia)) as Hab. unfold INT_MAX in *.
    rewrite signed_64_in by (unfold I64_MIN, I64_MAX; lia). cbn [mbind outcome_bind]. rewrite signed_64_in by (unfold I64_MIN, I64_MAX; lia).
    cbn [mbind outcome_bind]. rewrite Z.quot_div_nonneg by lia. unfold clamped. rewrite (proj2 (Z.ltb_ge _ _)); [done|].
    apply Z.le_trans with (a * b + r); [apply Z.div_le_upper_bound; nia|unfold I64_MAX; lia].
  - apply Z.leb_gt in Ea. rewrite split_quotient by lia. rewrite Z.quot_div_nonneg, Z.rem_mod_nonneg by lia.
    pose proof (Z.mod_pos_bound a c Hc0) as Hmod. pose proof (small_product (a mod c) b INT_MAX ltac:(lia) ltac:(lia) ltac:(lia)) as Hab.
    assert (0 <= a mod c * b <= (c - 1) * b) as Hab' by nia. assert (0 <= (a mod c * b + r) / c <= b) as Ha2.
    { split; [apply Z.div_pos; lia|]. apply Z.lt_succ_r, Z.div_lt_upper_bound; nia. }
    assert (0 <= a / c <= I64_MAX) as Had by (split; [apply Z.div_pos; lia|apply Z.le_trans with a; [apply Z.div_le_upper_bound; nia|lia]]).
    set (m := a mod c) in *. set (ad := a / c) in *. clearbody m ad. unfold INT_MAX in *.
    rewrite (signed_64_in (m * b)) by (unfold I64_MIN, I64_MAX; lia). cbn [mbind outcome_bind]. rewrite (signed_64_in (m * b + r)) by (unfold I64_MIN, I64_MAX; lia).
    cbn [mbind outcome_bind]. rewrite (Z.quot_div_nonneg (m * b + r)) by lia. set (a2 := (m * b + r) / c) in *. clearbody a2.
    apply too_large_spec; unfold INT_MAX; lia.
Qed.

(** ** Negative arguments *)

(** [rnd ^ ((rnd >> 1) & 1)]: down and up change places. *)
Definition flipped (mode : Z) : Z := Z.lxor mode (Z.land (Z.shiftr mode 1) 1).

Lemma flipped_rounding mode : rounding_mode mode -> rounding_mode (flipped mode).
Proof. unfold rounding_mode. intros [->|[->|[->|[->| ->]]]]; cbn; intuition. Qed.

Lemma rounded_flipped mode n c : 0 < c -> rounding_mode mode -> rounded (flipped mode) (- n) c = - rounded mode n c.
Proof.
  intros Hc [->|[->|[->|[->| ->]]]].
  - change (Z.quot (- n) c = - Z.quot n c). apply Z.quot_opp_l. lia.
  - change (Z.sgn (- n) * - (- Z.abs (- n) / c) = - (Z.sgn n * - (- Z.abs n / c))). rewrite Z.abs_opp, Z.sgn_opp. lia.
  - change (- (- - n / c) = - (n / c)). by rewrite Z.opp_involutive.
  - change (- n / c = - - (- n / c)). by rewrite Z.opp_involutive.
  - change (Z.sgn (- n) * ((2 * Z.abs (- n) + c) / (2 * c)) = - (Z.sgn n * ((2 * Z.abs n + c) / (2 * c)))). rewrite Z.abs_opp, Z.sgn_opp. lia.
Qed.

Lemma rounded_sign mode n c : 0 < c -> 0 <= n -> rounding_mode mode -> 0 <= rounded mode n c.
Proof. intros Hc Hn Hm. rewrite <-rounded_nonneg by done. pose proof (rounding_term_range c mode Hc Hm). apply Z.div_pos; lia. Qed.

Lemma mode_is_good mode b c : rounding_mode mode -> 0 <= b -> 0 < c -> bad_arguments b c mode = false /\ Z.land mode AV_ROUND_PASS_MINMAX = 0.
Proof.
  unfold bad_arguments. intros Hm Hb Hc. rewrite (proj2 (Z.leb_gt c 0)), (proj2 (Z.ltb_ge b 0)) by lia. by destruct Hm as [->|[->|[->|[->| ->]]]].
Qed.

Lemma mode_with_pass mode b c :
  rounding_mode mode -> 0 <= b -> 0 < c ->
  bad_arguments b c (mode + AV_ROUND_PASS_MINMAX) = false /\ Z.land (mode + AV_ROUND_PASS_MINMAX) AV_ROUND_PASS_MINMAX = AV_ROUND_PASS_MINMAX.
Proof.
  unfold bad_arguments. intros Hm Hb Hc. rewrite (proj2 (Z.leb_gt c 0)), (proj2 (Z.ltb_ge b 0)) by lia. by destruct Hm as [->|[->|[->|[->| ->]]]].
Qed.

(** What the code makes of the exact quotient [e]: a result that has no 64 bits is
    [i64::MIN], and its negation overflows. *)
Definition representable (negative : bool) (e : Z) : outcome Z :=
  if (I64_MIN <? e) && (e <=? I64_MAX) then Ret e
  else if negative && overflow_checks then Panic else Ret I64_MIN.

Lemma clamped_representable e : 0 <= e -> Ret (clamped e) = representable false e.
Proof.
  intros He. unfold clamped, representable. rewrite (proj2 (Z.ltb_lt I64_MIN e)) by (unfold I64_MIN; lia). cbn [andb].
  rewrite Z.leb_antisym. by destruct (I64_MAX <? e).
Qed.

Lemma negated_representable e : 0 <= e -> signed 64 (- clamped e) = representable true (- e).
Proof.
  intros He. unfold clamped, representable. destruct (I64_MAX <? e) eqn:E.
  - apply Z.ltb_lt in E. assert ((I64_MIN <? - e) = false) as -> by (unfold I64_MIN, I64_MAX in *; lia). cbn [andb].
    rewrite signed_out; [by destruct overflow_checks|]. unfold signed_fits, I64_MIN. change (64 - 1) with 63. lia.
  - apply Z.ltb_ge in E. assert ((I64_MIN <? - e) = true) as -> by (unfold I64_MIN, I64_MAX in *; lia).
    assert ((- e <=? I64_MAX) = true) as -> by (unfold I64_MAX in *; lia). apply signed_64_in. unfold I64_MIN, I64_MAX in *. lia.
Qed.

Lemma rescale_mode fuel a b c mode :
  I64_MIN < a <= I64_MAX -> 0 <= b <= I64_MAX -> 0 < c <= I64_MAX -> rounding_mode mode ->
  (if a <? 0 then
     neg_a ← signed 64 (- Z.max a (- I64_MAX));
     neg_result ← rescale_rnd (S fuel) neg_a b c (flipped mode);
     signed 64 (- neg_result)
   else rescale_nonneg a b c mode) = representable (a <? 0) (rounded mode (a * b) c).
Proof.
  intros Ha Hb Hc Hm. assert (forall n, 0 <= n <= I64_MAX -> forall m, rounding_mode m -> rescale_nonneg n b c m = Ret (clamped (rounded m (n * b) c))) as Hnn
    by (intros; by apply rescale_nonneg_spec).
  destruct (a <? 0) eqn:E; [apply Z.ltb_lt in E|apply Z.ltb_ge in E].
  - rewrite signed_64_in by (unfold I64_MIN, I64_MAX in *; lia). rewrite Z.max_l by (unfold I64_MIN, I64_MAX in *; lia). cbn [mbind outcome_bind rescale_rnd].
    destruct (mode_is_good (flipped mode) b c) as [-> ->]; [by apply flipped_rounding|lia|lia|]. cbn [Z.eqb negb andb]. cbv zeta iota.
    rewrite (proj2 (Z.ltb_ge (- a) 0)) by lia. rewrite Hnn by (apply flipped_rounding, Hm || (unfold I64_MIN, I64_MAX in *; lia)). cbn [mbind outcome_bind].
    rewrite negated_representable by (apply rounded_sign; [lia|nia|by apply flipped_rounding]).
    replace (- a * b) with (- (a * b)) by lia. rewrite rounded_flipped by (done || lia). by rewrite Z.opp_involutive.
  - rewrite Hnn by (done || lia). apply clamped_representable. apply rounded_sign; [lia|nia|done].
Qed.

End Rescale.

(** C23. The rescaled timestamp is [a * b / c] in exact arithmetic, rounded as the mode
    says, whichever path the code takes; a quotient of more than 64 bits becomes
    [i64::MIN], or a panic when [a] is negative and the build checks overflow. *)
Theorem rescale_is_exact `{Prof : Profile} (a b c mode : Z) (pass : bool) :
  I64_MIN < a <= I64_MAX -> 0 <= b <= I64_MAX -> 0 < c <= I64_MAX -> rounding_mode mode -> (pass = true -> a <> I64_MAX) ->
  av_rescale_rnd a b c (if pass then mode + AV_ROUND_PASS_MINMAX else mode) = representable (a <? 0) (rounded mode (a * b) c).
Proof.
  intros Ha Hb Hc Hm Hp. rewrite <-(rescale_mode 0) by done. unfold av_rescale_rnd. cbn [rescale_rnd].
  destruct pass.
  - destruct (mode_with_pass mode b c) as [-> ->]; [done|lia|lia|]. cbn [Z.eqb AV_ROUND_PASS_MINMAX negb andb].
    rewrite (proj2 (Z.eqb_neq a I64_MIN)), (proj2 (Z.eqb_neq a I64_MAX)) by (lia || by apply Hp). cbn [orb]. cbv zeta iota.
    by rewrite Z.add_simpl_r.
  - destruct (mode_is_good mode b c) as [-> ->]; [done|lia|lia|]. done.
Qed.

(** With the pass flag the ends of the range stay what they are. *)
Lemma pass_keeps_the_ends `{Prof : Profile} (a b c mode : Z) :
  a = I64_MIN \/ a = I64_MAX -> 0 <= b -> 0 < c -> rounding_mode mode -> av_rescale_rnd a b c (mode + AV_ROUND_PASS_MINMAX) = Ret a.
Proof.
  intros Ha Hb Hc Hm. unfold av_rescale_rnd. cbn [rescale_rnd]. destruct (mode_with_pass mode b c) as [-> ->]; [done..|].
  by destruct Ha as [-> | ->].
Qed.

(** Between time bases of 32 bits. *)
Lemma rescale_q_is_exact `{Prof : Profile} (a bn bd cn cd mode : Z) :
  I64_MIN < a <= I64_MAX -> 0 <= bn <= INT_MAX -> 0 < bd <= INT_MAX -> 0 < cn <= INT_MAX -> 0 <= cd <= INT_MAX -> rounding_mode mode ->
  av_rescale_q_rnd a (bn, bd) (cn, cd) mode = representable (a <? 0) (rounded mode (a * (bn * cd)) (cn * bd)).
Proof.
  intros Ha Hbn Hbd Hcn Hcd Hm. unfold av_rescale_q_rnd. cbn [fst snd].
  pose proof (small_product bn cd INT_MAX ltac:(lia) ltac:(lia) ltac:(lia)) as H1. pose proof (small_product cn bd INT_MAX ltac:(lia) ltac:(lia) ltac:(lia)) as H2.
  assert (0 < cn * bd) by nia. unfold INT_MAX in *. rewrite signed_64_in by (unfold I64_MIN, I64_MAX; lia). cbn [mbind outcome_bind].
  rewrite signed_64_in by (unfold I64_MIN, I64_MAX; lia). cbn [mbind outcome_bind]. apply (rescale_is_exact a _ _ mode false); (done || unfold I64_MAX; lia).
Qed.

(** The nearest integer. *)
Lemma nearest_is_near n c : 0 < c -> 2 * Z.abs (rounded AV_ROUND_NEAR_INF n c * c - n) <= c.
Proof.
  intros Hc. change (rounded _ n c) with (Z.sgn n * ((2 * Z.abs n + c) / (2 * c))).
  pose proof (Z.div_mod (2 * Z.abs n + c) (2 * c)) as H. pose proof (Z.mod_pos_bound (2 * Z.abs n + c) (2 * c)).
  set (q := (2 * Z.abs n + c) / (2 * c)) in *. clearbody q. destruct (Z.lt_trichotomy n 0) as [Hn|[->|Hn]].
  - rewrite Z.sgn_neg by lia. lia.
  - cbn [Z.sgn]. lia.
  - rewrite Z.sgn_pos by lia. lia.
Qed.

(** The tests of the module. *)
Definition checked_profile : Profile := {| overflow_checks := true; debug_assertions := true |}.
Definition unchecked_profile : Profile := {| overflow_checks := false; debug_assertions := false |}.

Example rescale_tests :
  av_rescale_q_rnd (Prof := checked_profile) 1000 (1, 1000) (1, 90000) 5 = Ret 90000 /\
  av_rescale_q_rnd (Prof := checked_profile) I64_MIN (1, 1000) (1, 90000) 8197 = Ret I64_MIN /\
  av_rescale_q_rnd (Prof := checked_profile) I64_MAX (1, 1000) (1, 90000) 8197 = Ret I64_MAX /\
  av_rescale_rnd (Prof := checked_profile) (-1000) 90000 1000 5 = Ret (-90000) /\
  map (fun m => av_rescale_rnd (Prof := checked_profile) 7 3 5 m) [0; 1; 5] = [Ret 4; Ret 5; Ret 4] /\
  av_rescale_rnd (Prof := checked_profile) (INT_MAX + 1000) 1000 1 5 = Ret ((INT_MAX + 1000) * 1000) /\
  map (fun '(b, c, m) => av_rescale_rnd (Prof := checked_profile) 100 b c m) [(100, 0, 5); (-1, 100, 5); (100, 100, 4)] = [Ret I64_MIN; Ret I64_MIN; Ret I64_MIN].
Proof. by vm_compute. Qed.

(** A negative timestamp whose image is out of range: C negates it without a sign, the
    port with one. *)
Example negative_out_of_range_panics :
  av_rescale_rnd (Prof := checked_profile) (- 2 ^ 62) 4 1 5 = Panic /\ av_rescale_rnd (Prof := unchecked_profile) (- 2 ^ 62) 4 1 5 = Ret I64_MIN /\
  av_rescale_rnd (Prof := checked_profile) (2 ^ 62) 4 1 5 = Ret I64_MIN.
Proof. by vm_compute. Qed.

Lemma rescale_is_exact_witness : av_rescale_rnd (Prof := checked_profile) (-7) (2 ^ 40) (3 * 2 ^ 39) (AV_ROUND_DOWN + AV_ROUND_PASS_MINMAX) = Ret (-5).
Proof.
  rewrite (rescale_is_exact (Prof := checked_profile) (-7) (2 ^ 40) (3 * 2 ^ 39) AV_ROUND_DOWN true); [by vm_compute|..].
  - unfold I64_MIN, I64_MAX. lia.
  - unfold I64_MAX. lia.
  - unfold I64_MAX. lia.
  - unfold rounding_mode. auto.
  - unfold I64_MAX. lia.
Defined.
