(* ===== verification/MuxTask.v ===== *)
(** * The muxing task of ez-ffmpeg ([core/scheduler/mux_task.rs])

    What the thread of a muxer does with the packets that it receives: the times of
    copied streams, the order of the decoding times, and the end of the streams.  The
    functions of libav are the class [AvMux] and the results of writing; the channel is
    the list of what is received. *)

From stdpp Require Import base list option strings gmap.
From Stdlib Require Import ZArith Lia.
From S2P Require Import Choke.
From S2P Require Import Prelude RustInt RustStr Errors StreamSpec Muxer.

Local Open Scope Z_scope.
Local Open Scope rust_scope.

(** ** Data *)

Definition AV_TIME_BASE_Q : AVRational := {| num := 1; den := 1000000 |}.
Definition AVFMT_TS_NONSTRICT : Z := 0x20000.

(** The fields of an [AVPacket] that the task reads. *)
Record Packet := {
  pts : Z;
  dts : Z;
  pkt_duration : Z;
  pkt_time_base : AVRational;
  pkt_stream_index : Z;
  key : bool;              (* AV_PKT_FLAG_KEY *)
  pkt_size : Z;
  side_data_elems : Z;
  payload : list Z
}.

Definition set_times (p d duration : Z) (pkt : Packet) : Packet :=
  {| pts := p; dts := d; pkt_duration := duration; pkt_time_base := pkt_time_base pkt; pkt_stream_index := pkt_stream_index pkt;
     key := key pkt; pkt_size := pkt_size pkt; side_data_elems := side_data_elems pkt; payload := payload pkt |}.

Definition set_time_base (tb : AVRational) (pkt : Packet) : Packet :=
  {| pts := pts pkt; dts := dts pkt; pkt_duration := pkt_duration pkt; pkt_time_base := tb; pkt_stream_index := pkt_stream_index pkt;
     key := key pkt; pkt_size := pkt_size pkt; side_data_elems := side_data_elems pkt; payload := payload pkt |}.

Definition set_stream_index (i : Z) (pkt : Packet) : Packet :=
  {| pts := pts pkt; dts := dts pkt; pkt_duration := pkt_duration pkt; pkt_time_base := pkt_time_base pkt; pkt_stream_index := i;
     key := key pkt; pkt_size := pkt_size pkt; side_data_elems := side_data_elems pkt; payload := payload pkt |}.

(** [avcodec] and [avformat], as the task calls them. *)
Class AvMux := {
  Codecpar : Type;
  frame_size : Codecpar -> Z;
  par_sample_rate : Codecpar -> Z;
  rescale_q : Z -> AVRational -> AVRational -> Z;
  (** [av_rescale_delta], with the new value of [last] *)
  av_rescale_delta : AVRational -> Z -> AVRational -> Z -> Z -> AVRational -> Z * Z;
  av_get_audio_frame_duration2 : Codecpar -> Z -> Z;
  (** [av_packet_rescale_ts]: the times [(pts, dts, duration)] in another base *)
  av_packet_rescale_ts : AVRational -> AVRational -> Z * Z * Z -> Z * Z * Z
}.

Section MuxTask.
  Context `{Lib : AvMux} `{Prof : Profile}.

Record PacketData := {
  dts_est : Z;
  pd_type : AVMediaType;
  output_stream_index : Z;
  is_copy : bool;
  pd_codecpar : Codecpar
}.

Record PacketBox := { packet : Packet; packet_data : PacketData }.

(** What the task was started with. *)
Record MuxParams := {
  stream_count : nat;
  oformat_flags : Z;
  mux_start_time_us : option Z;
  mux_recording_time_us : option Z;
  out_time_base : Z -> AVRational      (* of the output's streams *)
}.

(** The variables of the task's loop; [written] are the packets given to
    [av_interleaved_write_frame], [updates] what the calls of [update_locked] saw. *)
Record MuxState := {
  nodes : list MuxStream;
  started : bool;
  rescale_delta_last : gmap Z Z;
  last_dts_map : gmap Z Z;
  nb_done : nat;
  ret : Z;
  written : list Packet;
  updates : list (list MuxStream)
}.

Definition mux_state_new (nodes : list MuxStream) : MuxState :=
  {| nodes := nodes; started := false; rescale_delta_last := ∅; last_dts_map := ∅; nb_done := 0; ret := 0; written := []; updates := [] |}.

Definition set_node (i : nat) (s : MuxStream) (st : MuxState) : MuxState :=
  let l := <[i := s]> (nodes st) in
  {| nodes := l; started := started st; rescale_delta_last := rescale_delta_last st; last_dts_map := last_dts_map st; nb_done := nb_done st;
     ret := ret st; written := written st; updates := (updates st ++ [l])%list |}.

Definition set_nb_done (n : nat) (st : MuxState) : MuxState :=
  {| nodes := nodes st; started := started st; rescale_delta_last := rescale_delta_last st; last_dts_map := last_dts_map st; nb_done := n;
     ret := ret st; written := written st; updates := updates st |}.

Definition set_ret (r : Z) (st : MuxState) : MuxState :=
  {| nodes := nodes st; started := started st; rescale_delta_last := rescale_delta_last st; last_dts_map := last_dts_map st;
     nb_done := nb_done st; ret := r; written := written st; updates := updates st |}.

Definition set_started (b : bool) (st : MuxState) : MuxState :=
  {| nodes := nodes st; started := b; rescale_delta_last := rescale_delta_last st; last_dts_map := last_dts_map st; nb_done := nb_done st;
     ret := ret st; written := written st; updates := updates st |}.

Definition set_maps (delta last : gmap Z Z) (st : MuxState) : MuxState :=
  {| nodes := nodes st; started := started st; rescale_delta_last := delta; last_dts_map := last; nb_done := nb_done st; ret := ret st;
     written := written st; updates := updates st |}.

Definition push_written (p : Packet) (st : MuxState) : MuxState :=
  {| nodes := nodes st; started := started st; rescale_delta_last := rescale_delta_last st; last_dts_map := last_dts_map st;
     nb_done := nb_done st; ret := ret st; written := (written st ++ [p])%list; updates := updates st |}.

(** ** Copied streams *)

Definition streamcopy_rescale (pkt : Packet) (pd : PacketData) (start_time_us recording_time_us : option Z) (started : bool)
    : outcome (Z * Packet * bool) :=
  if negb (is_copy pd) then Ret (0, pkt, started)
  else
    let est := dts_est pd in
    let start_time := default 0 start_time_us in
    past ← match recording_time_us with
           | Some recording => limit ← i64_add recording start_time; Ret (limit <=? est)
           | None => Ret false
           end;
    if past : bool then Ret (AVERROR_EOF, pkt, started)
    else if negb started && negb (key pkt) then Ret (AVERROR_AGAIN, pkt, started)
    else
      let ts_offset := rescale_q start_time AV_TIME_BASE_Q (pkt_time_base pkt) in
      let not_start := if pts pkt =? AV_NOPTS_VALUE then est <? start_time else pts pkt <? ts_offset in
      if negb started && not_start then Ret (AVERROR_AGAIN, pkt, started)
      else
        p ← (if pts pkt =? AV_NOPTS_VALUE then Ret (pts pkt) else i64_sub (pts pkt) ts_offset);
        '(p, d) ← (if dts pkt =? AV_NOPTS_VALUE then Ret (p, rescale_q est AV_TIME_BASE_Q (pkt_time_base pkt))
                   else if bool_decide (pd_type pd = AVMEDIA_TYPE_AUDIO) then p ← i64_sub (dts pkt) ts_offset; Ret (p, dts pkt)
                   else Ret (p, dts pkt));
        d ← i64_sub d ts_offset;
        Ret (0, set_times p d (pkt_duration pkt) pkt, true).

(** ** Times in the base of the output, and in order *)

Definition min3 (a b c : Z) : Z := Z.min a (Z.min b c).
Definition max3 (a b c : Z) : Z := Z.max a (Z.max b c).

(** The times in the base of the output's stream; [last] is that of
    [av_rescale_delta]. *)
Definition rescale_times (p : MuxParams) (pb : PacketBox) (last : Z) : Packet * Z :=
  let pkt := packet pb in let pd := packet_data pb in
  let tb := out_time_base p (output_stream_index pd) in
  if bool_decide (pd_type pd = AVMEDIA_TYPE_AUDIO) && is_copy pd then
    let duration := av_get_audio_frame_duration2 (pd_codecpar pd) (pkt_size pkt) in
    let duration := if duration =? 0 then frame_size (pd_codecpar pd) else duration in
    let '(d, last) := av_rescale_delta (pkt_time_base pkt) (dts pkt) {| num := 1; den := par_sample_rate (pd_codecpar pd) |} duration last tb in
    (set_time_base tb (set_times d d (rescale_q (pkt_duration pkt) (pkt_time_base pkt) tb) pkt), last)
  else
    let '(ts, d, duration) := av_packet_rescale_ts (pkt_time_base pkt) tb (pts pkt, dts pkt, pkt_duration pkt) in
    (set_time_base tb (set_times ts d duration pkt), last).

(** A decoding time behind the presentation time: both become the middle of the two
    and the time after the last. *)
Definition guess_times (last p d : Z) : outcome (Z * Z) :=
  if negb (d =? AV_NOPTS_VALUE) && negb (p =? AV_NOPTS_VALUE) && (p <? d) then
    s ← i64_add p d; s ← i64_add s last; s ← i64_add s 1;
    next ← i64_add last 1;
    s ← i64_sub s (min3 p d next);
    s ← i64_sub s (max3 p d next);
    Ret (s, s)
  else Ret (p, d).

Definition timed (t : AVMediaType) : bool :=
  bool_decide (t = AVMEDIA_TYPE_AUDIO) || bool_decide (t = AVMEDIA_TYPE_VIDEO) || bool_decide (t = AVMEDIA_TYPE_SUBTITLE).

(** Times that do not increase; the difference is computed for the log. *)
Definition order_times (flags : Z) (t : AVMediaType) (last p d : Z) : outcome (Z * Z) :=
  if timed t && negb (d =? AV_NOPTS_VALUE) && negb (last =? AV_NOPTS_VALUE) then
    max ← i64_add last (if Z.land flags AVFMT_TS_NONSTRICT =? 0 then 1 else 0);
    if d <? max then
      _ ← i64_sub max d;
      Ret (if d <=? p then Z.max p max else p, max)
    else Ret (p, d)
  else Ret (p, d).

Definition fix_times (flags : Z) (t : AVMediaType) (last p d : Z) : outcome (Z * Z) :=
  if Z.land flags AVFMT_NOTIMESTAMPS =? 0 then '(p, d) ← guess_times last p d; order_times flags t last p d
  else Ret (p, d).

Definition mux_fixup_ts (params : MuxParams) (pb : PacketBox) (st : MuxState) : outcome (Packet * MuxState) :=
  let i := output_stream_index (packet_data pb) in
  let copied_audio := bool_decide (pd_type (packet_data pb) = AVMEDIA_TYPE_AUDIO) && is_copy (packet_data pb) in
  let '(pkt, delta) := rescale_times params pb (default 0 (rescale_delta_last st !! i)) in
  let last := default AV_NOPTS_VALUE (last_dts_map st !! i) in
  '(p, d) ← fix_times (oformat_flags params) (pd_type (packet_data pb)) last (pts pkt) (dts pkt);
  Ret (set_times p d (pkt_duration pkt) pkt,
       set_maps (if copied_audio then <[i := delta]> (rescale_delta_last st) else rescale_delta_last st) (<[i := d]> (last_dts_map st)) st).

(** [write_ret] is what [av_interleaved_write_frame] returns. *)
Definition write_packet (params : MuxParams) (pb : PacketBox) (write_ret : Z) (st : MuxState) : outcome MuxState :=
  '(pkt, st) ← mux_fixup_ts params pb st;
  Ret (set_ret write_ret (push_written (set_stream_index (output_stream_index (packet_data pb)) pkt) st)).

(** ** The loop *)

Definition update_last_dts (i : nat) (s : MuxStream) (pkt : Packet) (st : MuxState) : outcome MuxState :=
  if dts pkt =? AV_NOPTS_VALUE then Ret st
  else
    d ← i64_add (dts pkt) (pkt_duration pkt);
    Ret (set_node i {| src := src s; last_dts := rescale_q d (pkt_time_base pkt) AV_TIME_BASE_Q; source_finished := source_finished s |} st).

(** What a round of the loop receives, with the status that it reads at first and, at
    the end of a stream, once more. *)
Inductive Receipt := TimedOut | Disconnected | Received (pb : PacketBox) (write_ret : Z).
Record Round := { receipt : Receipt; round_status : Z; end_status : Z }.

Inductive Flow := Continue (st : MuxState) | Break (st : MuxState).

Definition ends_stream (pkt : Packet) : bool := (pkt_size pkt =? 0) && negb (0 <? side_data_elems pkt).

(** A packet of a stream that goes on. *)
Definition mux_packet (params : MuxParams) (i : nat) (s : MuxStream) (pb : PacketBox) (write_ret : Z) (st : MuxState) : outcome Flow :=
  st ← update_last_dts i s (packet pb) st;
  '(skip, pb, st) ← (if is_copy (packet_data pb) then
       '(r, pkt, b) ← streamcopy_rescale (packet pb) (packet_data pb) (mux_start_time_us params) (mux_recording_time_us params) (started st);
       Ret (r =? AVERROR_AGAIN, {| packet := pkt; packet_data := packet_data pb |}, set_ret r (set_started b st))
     else Ret (false, pb, st));
  if skip : bool then Ret (Continue st)
  else if 0 <=? pkt_stream_index (packet pb) then
    st ← write_packet params pb write_ret st;
    if (ret st =? AVERROR_EOF) || (ret st <? 0) then Ret (Break st) else Ret (Continue st)
  else Ret (Continue st).

(** [stream_index as usize] of a negative index is not below any length. *)
Definition mux_round (params : MuxParams) (r : Round) (st : MuxState) : outcome Flow :=
  if is_stopping (round_status r) then Ret (Break st)
  else match receipt r with
  | TimedOut => Ret (Continue st)
  | Disconnected => Ret (Break st)
  | Received pb write_ret =>
    let i := pkt_stream_index (packet pb) in
    if i <? 0 then Ret (Continue st)
    else match nodes st !! Z.to_nat i with
    | None => Ret (Continue st)
    | Some s =>
      if ends_stream (packet pb) then
        if end_status r =? STATUS_ABORT then Ret (Break st)
        else
          let st := set_node (Z.to_nat i) {| src := src s; last_dts := last_dts s; source_finished := true |} (set_nb_done (S (nb_done st)) st) in
          if (nb_done st =? stream_count params)%nat then Ret (Break st) else Ret (Continue st)
      else mux_packet params (Z.to_nat i) s pb write_ret st
    end
  end.

(** The rounds until the loop is left, or no more is known. *)
Fixpoint mux_loop (params : MuxParams) (l : list Round) (st : MuxState) : outcome Flow :=
  match l with
  | [] => Ret (Continue st)
  | r :: l => f ← mux_round params r st; match f with Continue st => mux_loop params l st | Break st => Ret (Break st) end
  end.

(** Behind the loop: the errors that the scheduler is told, in order; it keeps the
    first.  [trailer] is what [av_write_trailer] returns, [None] that it is not called. *)
Definition mux_errors (st : MuxState) (final_status : Z) (trailer : Z) : list Error :=
  ((if (ret st <? 0) && negb (ret st =? AVERROR_EOF)
    then [Error.Muxing (MuxingOperationError.InterleavedWriteError (MuxingError.MuxingError_from (ret st)))] else []) ++
   (if (final_status =? STATUS_ABORT) || (0 <=? trailer) then []
    else [Error.Muxing (MuxingOperationError.TrailerWriteError (MuxingError.MuxingError_from trailer))]))%list.

End MuxTask.
