(* ===== verification/MuxTaskSpec.v ===== *)
(** * The promises of the muxing task

    Decoding times that follow each other increase in the output streams of audio, video
    and subtitles, and are not behind the presentation times; the guess for times that are inconsistent is a middle; encoded packets are
    written in the order of their arrival; and what becomes of copies that are cut. *)

From stdpp Require Import base list option strings gmap sorting.
From Stdlib Require Import ZArith Lia.
From S2P Require Import Choke.
From S2P Require Import Prelude RustInt RustStr Errors StreamSpec Muxer MuxTask.

Local Open Scope Z_scope.
Local Open Scope rust_scope.

Create HintDb mux.

(** ** [i64] *)

Definition fits_i64 (x : Z) : Prop := - 2 ^ 63 <= x < 2 ^ 63.

(** [x as i64]. *)
Definition wrap_i64 (x : Z) : Z := (x + 2 ^ 63) mod 2 ^ 64 - 2 ^ 63.

Lemma wrap_i64_id x : fits_i64 x -> wrap_i64 x = x.
Proof. intros H. unfold wrap_i64, fits_i64 in *. rewrite Z.mod_small; lia. Qed.

Lemma wrap_i64_eq x y k : fits_i64 y -> x = y + k * 2 ^ 64 -> wrap_i64 x = y.
Proof.
  intros Hy ->. unfold wrap_i64, fits_i64 in *. replace (y + k * 2 ^ 64 + 2 ^ 63) with (y + 2 ^ 63 + k * 2 ^ 64) by lia.
  rewrite Z.mod_add, Z.mod_small; lia.
Qed.

Section Spec.
  Context `{Prof : Profile}.

Lemma i64_sub_in a b : fits_i64 (a - b) -> i64_sub a b = Ret (a - b).
Proof. unfold fits_i64, i64_sub. intros H. destruct (_ && _) eqn:E; [done|]. apply andb_false_iff in E as [E|E]; lia. Qed.

Lemma i64_add_in a b : fits_i64 (a + b) -> i64_add a b = Ret (a + b).
Proof. intros H. unfold i64_add. rewrite i64_sub_in; [f_equal; lia|]. by replace (a - - b) with (a + b) by lia. Qed.

(** An operation that returns gives a value of the range, right up to [2^64]. *)
Lemma i64_sub_mod a b x : i64_sub a b = Ret x -> exists k, x = a - b + k * 2 ^ 64.
Proof.
  unfold i64_sub. cbv zeta. destruct (_ && _); [intros <-%Ret_inj; exists 0; lia|].
  destruct overflow_checks; [done|]. intros <-%Ret_inj. exists (- ((a - b + 2 ^ 63) / 2 ^ 64)). rewrite Z.mod_eq by lia. lia.
Qed.

Lemma i64_sub_fits a b x : i64_sub a b = Ret x -> fits_i64 x.
Proof.
  unfold i64_sub, fits_i64. cbv zeta. destruct (_ && _) eqn:E; [intros <-%Ret_inj; lia|].
  destruct overflow_checks; [done|]. intros <-%Ret_inj. pose proof (Z.mod_pos_bound (a - b + 2 ^ 63) (2 ^ 64)). lia.
Qed.

Lemma i64_add_mod a b x : i64_add a b = Ret x -> exists k, x = a + b + k * 2 ^ 64.
Proof. intros [k H]%i64_sub_mod. exists k. lia. Qed.

Lemma i64_add_fits a b x : i64_add a b = Ret x -> fits_i64 x.
Proof. apply i64_sub_fits. Qed.

(** ** Times *)

(** The middle of three. *)
Definition mid3 (a b c : Z) : Z := Z.max (Z.min a b) (Z.min (Z.max a b) c).

(** What the guess is, in builds with overflow checks and without: the middle of the
    two times and the time after the last. *)
Theorem guess_is_the_middle (last p d p' d' : Z) :
  fits_i64 last -> fits_i64 p -> fits_i64 d -> p <> AV_NOPTS_VALUE -> d <> AV_NOPTS_VALUE -> p < d ->
  guess_times last p d = Ret (p', d') -> d' = mid3 p d (wrap_i64 (last + 1)) /\ p' = d'.
Proof.
  intros Hl Hp Hd Np Nd Hlt. unfold guess_times. rewrite (proj2 (Z.eqb_neq d _) Nd), (proj2 (Z.eqb_neq p _) Np), (proj2 (Z.ltb_lt p d) Hlt).
  cbn [negb andb]. intros H. apply bind_Ret in H as (s1 & H1 & H). apply bind_Ret in H as (s2 & H2 & H). apply bind_Ret in H as (s3 & H3 & H).
  apply bind_Ret in H as (next & Hn & H). apply bind_Ret in H as (s4 & H4 & H). apply bind_Ret in H as (s5 & H5 & H).
  apply Ret_inj in H as [= <- <-]. split; [|done].
  apply i64_add_fits in Hn as Fn. apply i64_sub_fits in H5 as F5.
  apply i64_add_mod in H1 as [k1 E1], H2 as [k2 E2], H3 as [k3 E3], Hn as [kn En]. apply i64_sub_mod in H4 as [k4 E4], H5 as [k5 E5].
  assert (wrap_i64 (last + 1) = next) as -> by (apply (wrap_i64_eq _ _ (- kn)); [done|lia]).
  rewrite <-(wrap_i64_id s5) by done. apply (wrap_i64_eq _ _ (k1 + k2 + k3 + k4 + k5 - kn)).
  { unfold mid3, fits_i64 in *. lia. }
  unfold mid3, min3, max3 in *. lia.
Qed.

Lemma guess_consistent last p d p' d' :
  guess_times last p d = Ret (p', d') -> p' = AV_NOPTS_VALUE \/ d' = AV_NOPTS_VALUE \/ d' <= p'.
Proof.
  unfold guess_times. destruct (_ && _) eqn:E.
  - intros H. repeat (apply bind_Ret in H as (? & _ & H)). apply Ret_inj in H as [= <- <-]. right; right. lia.
  - intros [= <- <-]%Ret_inj. destruct (Z.eqb_spec d AV_NOPTS_VALUE) as [|Hd]; [by right; left|]. destruct (Z.eqb_spec p AV_NOPTS_VALUE); [by left|].
    cbn in E. right; right. lia.
Qed.

(** The step between the decoding times of a stream. *)
Definition least_step (flags : Z) : Z := if Z.land flags AVFMT_TS_NONSTRICT =? 0 then 1 else 0.

(** A time that is neither missing nor the last of the range. *)
Definition proper_time (d : Z) : Prop := - 2 ^ 63 < d < 2 ^ 63 - 1.

Lemma order_increases flags t last p d p' d' :
  timed t = true -> proper_time last -> proper_time d' -> order_times flags t last p d = Ret (p', d') -> last + least_step flags <= d'.
Proof.
  intros Ht Hl Hd'. unfold order_times. rewrite Ht. destruct (d =? AV_NOPTS_VALUE) eqn:Ed.
  { cbn [negb andb]. intros [= <- <-]%Ret_inj. unfold proper_time, AV_NOPTS_VALUE in *. lia. }
  assert ((last =? AV_NOPTS_VALUE) = false) as -> by (unfold proper_time, AV_NOPTS_VALUE in *; lia). cbn [negb andb].
  fold (least_step flags). assert (0 <= least_step flags <= 1) by (unfold least_step; destruct (_ =? 0); lia).
  rewrite i64_add_in by (unfold proper_time, fits_i64 in *; lia). cbn [mbind outcome_bind]. destruct (d <? _) eqn:El.
  - intros H1. apply bind_Ret in H1 as (? & _ & H1). apply Ret_inj in H1 as [= <- <-]. lia.
  - intros [= <- <-]%Ret_inj. lia.
Qed.

Lemma order_consistent flags t last p d p' d' :
  p = AV_NOPTS_VALUE \/ d = AV_NOPTS_VALUE \/ d <= p -> order_times flags t last p d = Ret (p', d') ->
  p' = AV_NOPTS_VALUE \/ d' = AV_NOPTS_VALUE \/ d' <= p'.
Proof.
  intros H0. unfold order_times. destruct (_ && _) eqn:E; [|by intros [= <- <-]%Ret_inj].
  intros H. apply bind_Ret in H as (m & _ & H). destruct (d <? m) eqn:El; [|by apply Ret_inj in H as [= <- <-]].
  apply bind_Ret in H as (? & _ & H). apply Ret_inj in H as [= <- <-]. destruct (d <=? p) eqn:Ep; [right; right; lia|].
  destruct H0 as [|[->|]]; [by left| |lia]. rewrite Z.eqb_refl, andb_false_r in E. done.
Qed.

(** Times that the task gives out increase and are consistent. *)
Lemma fix_times_spec flags t last p d p' d' :
  Z.land flags AVFMT_NOTIMESTAMPS = 0 -> fix_times flags t last p d = Ret (p', d') ->
  (p' = AV_NOPTS_VALUE \/ d' = AV_NOPTS_VALUE \/ d' <= p') /\
  (timed t = true -> proper_time last -> proper_time d' -> last + least_step flags <= d').
Proof.
  intros Hf. unfold fix_times. rewrite Hf. cbn [Z.eqb]. intros H. apply bind_Ret in H as ([p1 d1] & H1 & H). split.
  - eapply order_consistent; [by eapply guess_consistent|exact H].
  - intros Ht Hl Hd. by eapply order_increases.
Qed.

(** ** The order in a file *)

(** Neighbours that both have proper times. *)
Definition increasing (step : Z) (ds : list Z) : Prop :=
  forall i a b, ds !! i = Some a -> ds !! S i = Some b -> proper_time a -> proper_time b -> a + step <= b.

Lemma increasing_snoc step ds x : increasing step ds -> (forall a, last ds = Some a -> proper_time a -> proper_time x -> a + step <= x) -> increasing step (ds ++ [x])%list.
Proof.
  intros H Hl i a b Ha Hb. apply lookup_app_Some in Hb as [Hb|[Hle Hb]].
  - rewrite lookup_app_l in Ha by (apply lookup_lt_Some in Hb; lia). by eapply H.
  - apply list_lookup_singleton_Some in Hb as [Hi <-]. rewrite lookup_app_l in Ha by lia. apply Hl. rewrite last_lookup.
    by replace (pred (length ds)) with i by lia.
Qed.

Context `{Lib : AvMux}.

Definition flow_state (f : Flow) : MuxState := match f with Continue st | Break st => st end.

(** The packets that a stream of the output gets. *)
Definition packets_of (s : Z) (st : MuxState) : list Packet := filter (fun p => pkt_stream_index p = s) (written st).

Definition consistent (p : Packet) : Prop := pts p = AV_NOPTS_VALUE \/ dts p = AV_NOPTS_VALUE \/ dts p <= pts p.

(** One packet is written, or none. *)
Definition writes (params : MuxParams) (pb : PacketBox) (st st' : MuxState) : Prop :=
  exists p d pkt, written st' = (written st ++ [pkt])%list /\ pkt_stream_index pkt = output_stream_index (packet_data pb) /\
    payload pkt = payload (packet pb) /\
    fix_times (oformat_flags params) (pd_type (packet_data pb)) (default AV_NOPTS_VALUE (last_dts_map st !! pkt_stream_index pkt)) p d =
      Ret (pts pkt, dts pkt) /\
    last_dts_map st' = <[pkt_stream_index pkt := dts pkt]> (last_dts_map st).

Definition same_output (st st' : MuxState) : Prop := written st' = written st /\ last_dts_map st' = last_dts_map st.

Lemma write_packet_writes params pb w st st' : write_packet params pb w st = Ret st' -> writes params pb st st'.
Proof.
  unfold write_packet, mux_fixup_ts. intros H. apply bind_Ret in H as ([pkt st1] & H & H1). apply Ret_inj in H1 as <-.
  destruct (rescale_times params pb _) as [pkt0 delta] eqn:Er. apply bind_Ret in H as ([p d] & Hf & H). apply Ret_inj in H as [= <- <-].
  assert (payload pkt0 = payload (packet pb)) as Hp.
  { unfold rescale_times in Er. destruct (_ && _).
    - destruct (av_rescale_delta _ _ _ _ _ _) as [d0 l0]. by injection Er as <- _.
    - destruct (av_packet_rescale_ts _ _ _) as [[t0 d0] u0]. by injection Er as <- _. }
  exists (pts pkt0), (dts pkt0). eexists. split; [reflexivity|]. by split_and!.
Qed.

Lemma update_last_same i s pkt st st' : update_last_dts i s pkt st = Ret st' -> same_output st st'.
Proof. unfold update_last_dts. destruct (_ =? _); [by intros <-%Ret_inj|]. intros H. apply bind_Ret in H as (d & _ & H). by apply Ret_inj in H as <-. Qed.

Lemma same_writes params pb st st1 st2 : same_output st st1 -> writes params pb st1 st2 -> writes params pb st st2.
Proof. intros [H1 H2] (p & d & pkt & H). exists p, d, pkt. by rewrite <-H1, <-H2. Qed.

Lemma streamcopy_keeps pkt pd a b started r pkt' started' :
  streamcopy_rescale pkt pd a b started = Ret (r, pkt', started') -> payload pkt' = payload pkt.
Proof.
  unfold streamcopy_rescale. destruct (negb _); [by intros [= <- <- <-]%Ret_inj|]. intros H. apply bind_Ret in H as (past & _ & H).
  destruct past; [by apply Ret_inj in H as [= <- <- <-]|]. destruct (_ && _); [by apply Ret_inj in H as [= <- <- <-]|].
  destruct (_ && _); [by apply Ret_inj in H as [= <- <- <-]|]. apply bind_Ret in H as (p & _ & H). apply bind_Ret in H as ([p1 d1] & _ & H).
  apply bind_Ret in H as (d2 & _ & H). by apply Ret_inj in H as [= <- <- <-].
Qed.

(** What [mux_packet] does to the output: nothing when it skips the packet. *)
Lemma mux_packet_output params i s pb w st f :
  mux_packet params i s pb w st = Ret f -> same_output st (flow_state f) \/ writes params pb st (flow_state f).
Proof.
  unfold mux_packet. intros H. apply bind_Ret in H as (st1 & H1 & H). apply update_last_same in H1.
  apply bind_Ret in H as ([[skip pb1] st2] & H2 & H).
  assert (same_output st st2 /\ packet_data pb1 = packet_data pb /\ payload (packet pb1) = payload (packet pb)) as (Hs & Hd & Hp).
  { destruct (is_copy (packet_data pb)); [|by apply Ret_inj in H2 as [= <- <- <-]].
    apply bind_Ret in H2 as ([[r pkt] b] & Hc & H2). apply Ret_inj in H2 as [= <- <- <-]. by apply streamcopy_keeps in Hc. }
  destruct skip; [by apply Ret_inj in H as <-; left|]. destruct (0 <=? _); [|by apply Ret_inj in H as <-; left]. right.
  apply bind_Ret in H as (st3 & H3 & H). apply write_packet_writes in H3.
  assert (flow_state f = st3) as -> by (by destruct (_ || _); apply Ret_inj in H as <-).
  eapply same_writes; [exact Hs|]. unfold writes in *. by rewrite <-Hd, <-Hp.
Qed.

Lemma mux_round_output params r st f :
  mux_round params r st = Ret f ->
  same_output st (flow_state f) \/ exists pb w, receipt r = Received pb w /\ writes params pb st (flow_state f).
Proof.
  unfold mux_round. destruct (is_stopping _); [by intros <-%Ret_inj; left|].
  destruct (receipt r) as [| |pb w]; [by intros <-%Ret_inj; left..|]. destruct (_ <? 0); [by intros <-%Ret_inj; left|].
  destruct (nodes st !! _) as [s|]; [|by intros <-%Ret_inj; left]. destruct (ends_stream _).
  - left. destruct (_ =? STATUS_ABORT); [by apply Ret_inj in H as <-|]. cbv zeta in H. destruct (_ =? _)%nat; by apply Ret_inj in H as <-.
  - intros H%mux_packet_output. destruct H as [H|H]; [by left|right]. by exists pb, w.
Qed.

(** The streams of type [s] hold audio, video or subtitles. *)
Definition timed_stream (s : Z) (r : Round) : Prop :=
  match receipt r with
  | Received pb _ => output_stream_index (packet_data pb) = s -> timed (pd_type (packet_data pb)) = true
  | _ => True
  end.

(** What is known of a stream of the output: the map holds its last time, and its
    times are in order. *)
Definition in_order (flags s : Z) (st : MuxState) : Prop :=
  let ds := dts <$> packets_of s st in
  default AV_NOPTS_VALUE (last_dts_map st !! s) = default AV_NOPTS_VALUE (last ds) /\
  Forall consistent (packets_of s st) /\ increasing (least_step flags) ds.

Lemma writes_in_order params pb st st' s :
  Z.land (oformat_flags params) AVFMT_NOTIMESTAMPS = 0 ->
  (output_stream_index (packet_data pb) = s -> timed (pd_type (packet_data pb)) = true) ->
  writes params pb st st' -> in_order (oformat_flags params) s st -> in_order (oformat_flags params) s st'.
Proof.
  intros Hf Ht (p & d & pkt & Hw & Hi & _ & Hfix & Hm) (Hlast & Hc & Hinc). unfold in_order, packets_of in *.
  rewrite Hw, Hm, filter_app, filter_cons, filter_nil. apply fix_times_spec in Hfix as [Hcons Hstep]; [|done].
  destruct (decide (pkt_stream_index pkt = s)) as [Hs|Hs].
  - rewrite Hs in *. rewrite lookup_insert_eq. set (ps := filter _ (written st)) in *. rewrite fmap_app. cbn [fmap list_fmap]. rewrite last_snoc.
    split; [done|]. split; [apply Forall_app; split; [done|by apply Forall_singleton]|].
    apply increasing_snoc; [done|]. intros a Ha Hpa Hpd. rewrite Hlast, Ha in Hstep. apply Hstep; [by apply Ht|done|done].
  - rewrite app_nil_r. rewrite lookup_insert_ne by done. by split_and!.
Qed.

(** C34. In a format with timestamps, whatever packets arrive in whatever order: of two
    packets of an audio, video or subtitle stream that are written one behind the other,
    and that both have a decoding time (which is not the last of the range), the second
    one's is larger, or not smaller when the format allows that; and no packet of the
    stream has a decoding time behind its presentation time.  (A packet that is written
    without a decoding time starts the order anew, and streams of data are not put in
    order.) *)
Theorem written_times_increase (params : MuxParams) (ns : list MuxStream) (l : list Round) (f : Flow) (s : Z) :
  Z.land (oformat_flags params) AVFMT_NOTIMESTAMPS = 0 -> Forall (timed_stream s) l -> mux_loop params l (mux_state_new ns) = Ret f ->
  increasing (least_step (oformat_flags params)) (dts <$> packets_of s (flow_state f)) /\ Forall consistent (packets_of s (flow_state f)).
Proof.
  intros Hf Hl. assert (in_order (oformat_flags params) s (mux_state_new ns)) as H0 by (split_and!; [done|by apply Forall_nil|by intros [|i] a b H]).
  revert H0. generalize (mux_state_new ns). induction Hl as [|r l Hr _ IH]; intros st Hst; cbn [mux_loop].
  - intros <-%Ret_inj. by destruct Hst as (_ & Hc & Hi).
  - intros H. apply bind_Ret in H as (g & Hg & H). apply mux_round_output in Hg as Hout.
    assert (in_order (oformat_flags params) s (flow_state g)) as Hg'.
    { destruct Hout as [[H1 H2]|(pb & w & Hrec & Hw)].
      - unfold in_order, packets_of in *. by rewrite H1, H2.
      - unfold timed_stream in Hr. rewrite Hrec in Hr. by eapply writes_in_order. }
    destruct g as [st'|st']; [by apply (IH st')|]. cbv beta iota in H; apply Ret_inj in H as <-. by destruct Hg' as (_ & Hc & Hi).
Qed.

(** ** What is written *)

(** A packet of an encoder, of a stream that the muxer has, that is written. *)
Definition encoded_round (ns : nat) (r : Round) : Prop :=
  exists pb w, receipt r = Received pb w /\ is_stopping (round_status r) = false /\ end_status r <> STATUS_ABORT /\
    0 <= pkt_stream_index (packet pb) /\ (Z.to_nat (pkt_stream_index (packet pb)) < ns)%nat /\
    is_copy (packet_data pb) = false /\ 0 <= w.

Definition round_packet (r : Round) : option Packet := match receipt r with Received pb _ => Some (packet pb) | _ => None end.

Definition data_packets (l : list Round) : list Packet := filter (fun p => ends_stream p = false) (omap round_packet l).
Definition ends (l : list Round) : nat := length (filter (fun p => ends_stream p = true) (omap round_packet l)).

Lemma update_last_keeps i s pkt st st' :
  update_last_dts i s pkt st = Ret st' -> length (nodes st') = length (nodes st) /\ nb_done st' = nb_done st.
Proof.
  unfold update_last_dts. destruct (_ =? _); [by intros <-%Ret_inj|]. intros H. apply bind_Ret in H as (d & _ & H). apply Ret_inj in H as <-.
  cbn. by rewrite length_insert.
Qed.

Lemma encoded_packet params i s pb w st f :
  is_copy (packet_data pb) = false -> 0 <= w -> 0 <= pkt_stream_index (packet pb) -> mux_packet params i s pb w st = Ret f ->
  exists st', f = Continue st' /\ writes params pb st st' /\ length (nodes st') = length (nodes st) /\ nb_done st' = nb_done st.
Proof.
  intros Hc Hw Hi. unfold mux_packet. rewrite Hc. intros H. apply bind_Ret in H as (st1 & H1 & H). cbn [mbind outcome_bind] in H.
  rewrite (proj2 (Z.leb_le 0 _) Hi) in H. apply bind_Ret in H as (st2 & H2 & H). exists st2.
  assert (ret st2 = w /\ nodes st2 = nodes st1 /\ nb_done st2 = nb_done st1) as (Hret & Hn & Hnb).
  { unfold write_packet in H2. apply bind_Ret in H2 as ([pkt st3] & H3 & H2). apply Ret_inj in H2 as <-. unfold mux_fixup_ts in H3.
    destruct (rescale_times _ _ _) as [p0 d0]. apply bind_Ret in H3 as ([p d] & _ & H3). by apply Ret_inj in H3 as [= _ <-]. }
  rewrite Hret in H. assert ((w =? AVERROR_EOF) || (w <? 0) = false) as E by (change AVERROR_EOF with (-541478725); lia).
  rewrite E in H. apply Ret_inj in H as <-. split; [done|]. apply write_packet_writes in H2. rewrite Hn, Hnb.
  split; [|by eapply update_last_keeps]. eapply same_writes; [by eapply update_last_same|done].
Qed.

(** As long as a stream goes on, every packet of the encoders that arrives is written,
    in the order of arrival. *)
Theorem encoded_packets_are_written (params : MuxParams) (ns : list MuxStream) (l : list Round) (f : Flow) :
  Forall (encoded_round (length ns)) l -> (ends l < stream_count params)%nat -> mux_loop params l (mux_state_new ns) = Ret f ->
  (exists st, f = Continue st) /\ payload <$> written (flow_state f) = payload <$> data_packets l.
Proof.
  intros Hl. change (payload <$> data_packets l) with ((payload <$> written (mux_state_new ns)) ++ (payload <$> data_packets l))%list.
  assert (nb_done (mux_state_new ns) + ends l = ends l)%nat as Hnb by done. rewrite <-Hnb. clear Hnb.
  assert (length (nodes (mux_state_new ns)) = length ns) as Hlen by done. revert Hlen. generalize (mux_state_new ns).
  induction Hl as [|r l (pb & w & Hr & Hs & He & Hi & Hlt & Hc & Hw) _ IH]; intros st Hlen Hends; cbn [mux_loop].
  - intros <-%Ret_inj. split; [by exists st|]. cbn. by rewrite app_nil_r.
  - intros H. apply bind_Ret in H as (g & Hg & H). unfold mux_round in Hg. rewrite Hs, Hr in Hg.
    rewrite (proj2 (Z.ltb_ge _ 0) Hi) in Hg. cbv zeta in Hg. destruct (lookup_lt_is_Some_2 (nodes st) (Z.to_nat (pkt_stream_index (packet pb)))) as [s Hs2]; [lia|].
    rewrite Hs2 in Hg. unfold data_packets, ends in *. cbn [omap list_omap] in *. unfold round_packet at 1 in Hends. unfold round_packet at 1.
    rewrite Hr in *. rewrite filter_cons in Hends |- *. destruct (ends_stream (packet pb)) eqn:Ee.
    + rewrite decide_False by done. rewrite decide_True in Hends by done. rewrite (proj2 (Z.eqb_neq _ _) He) in Hg.
      cbn [nb_done set_node set_nb_done length] in Hg, Hends. rewrite (proj2 (Nat.eqb_neq _ _)) in Hg by lia. apply Ret_inj in Hg as <-.
      apply IH in H; [done|cbn; by rewrite length_insert|cbn; lia].
    + rewrite decide_True by done. rewrite decide_False in Hends by done.
      apply encoded_packet in Hg as (st' & -> & (p & d & pkt & Hwr & _ & Hp & _) & Hn & Hnb); [|done..]. apply IH in H; [|congruence|lia].
      destruct H as [H1 H2]. split; [done|]. rewrite H2, Hwr, fmap_app, <-app_assoc. cbn. by rewrite Hp.
Qed.

End Spec.

(** ** The code on small inputs *)

(** Libraries whose time bases are all the same. *)
Definition one_base : AvMux := {|
  Codecpar := unit; frame_size := fun _ => 1024; par_sample_rate := fun _ => 48000;
  rescale_q := fun x _ _ => x;
  av_rescale_delta := fun _ d _ _ last _ => (d, last);
  av_get_audio_frame_duration2 := fun _ _ => 0;
  av_packet_rescale_ts := fun _ _ t => t |}.

Definition a_packet (i p d : Z) (k : bool) (data : list Z) : Packet :=
  {| pts := p; dts := d; pkt_duration := 1; pkt_time_base := AV_TIME_BASE_Q; pkt_stream_index := i; key := k;
     pkt_size := Z.of_nat (length data); side_data_elems := 0; payload := data |}.

Definition boxed (copied : bool) (est : Z) (t : AVMediaType) (p : Packet) : PacketBox (Lib := one_base) :=
  {| packet := p; packet_data := {| dts_est := est; pd_type := t; output_stream_index := pkt_stream_index p; is_copy := copied;
                                    pd_codecpar := tt : Codecpar (AvMux := one_base) |} |}.

Definition running (pb : PacketBox (Lib := one_base)) : Round (Lib := one_base) :=
  {| receipt := Received pb 0; round_status := STATUS_RUN; end_status := STATUS_RUN |}.

Definition video_at (i p d : Z) (data : list Z) : Round (Lib := one_base) := running (boxed false 0 AVMEDIA_TYPE_VIDEO (a_packet i p d true data)).
Definition end_of (i : Z) : Round (Lib := one_base) := running (boxed false 0 AVMEDIA_TYPE_VIDEO (a_packet i 0 0 false [])).
Definition copied_at (i t : Z) (k : bool) : Round (Lib := one_base) := running (boxed true t AVMEDIA_TYPE_VIDEO (a_packet i t t k [7])).

Definition streams_of (n : nat) : list MuxStream := replicate n {| src := Demux 0; last_dts := 0; source_finished := false |}.

Definition an_mp4 (n : nat) (start recording : option Z) : MuxParams :=
  {| stream_count := n; oformat_flags := 0; mux_start_time_us := start; mux_recording_time_us := recording; out_time_base := fun _ => AV_TIME_BASE_Q |}.

Definition muxed (Prof : Profile) (n : nat) (start recording : option Z) (l : list (Round (Lib := one_base))) : outcome Flow :=
  mux_loop (an_mp4 n start recording) l (mux_state_new (streams_of n)).

(** The times of the packets that were written, and the errors of the task. *)
Definition outcome_of (f : outcome Flow) : option (list (Z * Z) * list Error) :=
  match f with
  | Ret f => Some ((fun p => (pts p, dts p)) <$> written (flow_state f), mux_errors (flow_state f) STATUS_RUN 0)
  | _ => None
  end.

Example times_in_order :
  outcome_of (muxed dev_profile 1 None None [video_at 0 5 3 [1]; video_at 0 6 3 [2]; video_at 0 4 9 [3]; end_of 0]) = Some ([(5, 3); (6, 4); (5, 5)], []).
Proof. by vm_compute. Qed.

(** The first packet of a stream, with times below zero and in the wrong order: the
    sum with the missing last time overflows. *)
Example negative_first_times_panic :
  muxed dev_profile 1 None None [video_at 0 (-2) (-1) [1]] = Panic /\
  outcome_of (muxed release_profile 1 None None [video_at 0 (-2) (-1) [1]]) = Some ([(-2, -2)], []).
Proof. by vm_compute. Qed.

(** Copies behind the recording time are written all the same, without the offset of
    the start time. *)
Example recording_time_does_not_cut_copies :
  outcome_of (muxed dev_profile 1 (Some 10) (Some 5) [copied_at 0 10 true; copied_at 0 14 false; copied_at 0 16 false; end_of 0]) =
  Some ([(0, 0); (4, 4); (16, 16)], []).
Proof. by vm_compute. Qed.

(** When the last packet before the end was skipped, the task ends with an error. *)
Example skipped_copy_is_an_error :
  outcome_of (muxed dev_profile 1 (Some 10) None [copied_at 0 5 true; end_of 0]) =
  Some ([], [Error.Muxing (MuxingOperationError.InterleavedWriteError MuxingError.TryAgain)]).
Proof. by vm_compute. Qed.

(** The streams share the flag that says whether they have started: behind the first
    packet of one, another is copied from before the start time, and not from a key. *)
Example one_stream_starts_the_others :
  outcome_of (muxed dev_profile 2 (Some 10) None [copied_at 0 10 true; copied_at 1 5 false; end_of 0; end_of 1]) = Some ([(0, 0); (-5, -5)], []).
Proof. by vm_compute. Qed.

(** A packet that is received when the scheduler stops is not written: what the
    encoders flush behind a stop is lost. *)
Example stop_drops_received_packets :
  outcome_of (muxed dev_profile 1 None None
    [video_at 0 5 3 [1];
     {| receipt := Received (boxed false 0 AVMEDIA_TYPE_VIDEO (a_packet 0 6 4 true [2])) 0; round_status := STATUS_END; end_status := STATUS_END |}]) =
  Some ([(5, 3)], []).
Proof. by vm_compute. Qed.

(** ** Witnesses *)

Definition two_videos : list (Round (Lib := one_base)) := [video_at 0 5 3 [1]; video_at 1 2 2 [9]; end_of 1; video_at 0 6 3 [2]].

Definition two_videos_flow : Flow :=
  match muxed dev_profile 2 None None two_videos with Ret f => f | _ => Break (mux_state_new []) end.

Lemma two_videos_run : mux_loop (Prof := dev_profile) (an_mp4 2 None None) two_videos (mux_state_new (streams_of 2)) = Ret two_videos_flow.
Proof. by vm_compute. Qed.

Lemma written_times_increase_witness :
  dts <$> packets_of 0 (flow_state two_videos_flow) = [3; 4] /\ increasing 1 (dts <$> packets_of 0 (flow_state two_videos_flow)).
Proof.
  split; [reflexivity|].
  apply (@written_times_increase dev_profile one_base (an_mp4 2 None None) (streams_of 2) two_videos two_videos_flow 0 eq_refl); [|exact two_videos_run].
  repeat (apply Forall_cons; split; [intros _; reflexivity|]). by apply Forall_nil.
Defined.

Lemma encoded_packets_are_written_witness :
  payload <$> written (flow_state two_videos_flow) = [[1]; [9]; [2]].
Proof.
  apply (@encoded_packets_are_written dev_profile one_base (an_mp4 2 None None) (streams_of 2) two_videos two_videos_flow);
    [|vm_compute; lia|exact two_videos_run].
  repeat (apply Forall_cons; split; [eexists _, _; split; [reflexivity|]; split_and!; try reflexivity; try discriminate; cbn; lia|]). by apply Forall_nil.
Defined.

Lemma guess_is_the_middle_witness : 5 = mid3 4 9 (wrap_i64 (4 + 1)).
Proof.
  apply (@guess_is_the_middle dev_profile 4 4 9 5 5); [unfold fits_i64; lia..|discriminate|discriminate|lia|reflexivity].
Defined.
