(* ===== verification/Handover.v ===== *)
(** * How the packets of an encoder come to the muxer
    ([send_to_mux] in [core/scheduler/enc_task.rs]; [mux_task_start] and
    [ready_to_init_mux] in [core/scheduler/mux_task.rs])

    Before the muxer has started, an encoder sends to a queue of its own; the thread
    that starts the muxer moves what it finds there to the muxer's queue, drops the
    receiver and then sets the flag.  The two threads are steps in any order.  A send
    that blocks on a full queue is a send that comes later.  Packets keep their order,
    and none is lost but those sent between the last look into the encoder's queue and
    the drop of its receiver. *)

From stdpp Require Import base list option.
From Stdlib Require Import ZArith Lia.
From S2P Require Import Choke.
From S2P Require Import Prelude.

Local Open Scope Z_scope.

(** ** When the muxer starts *)

(** A round of the thread of [ready_to_init_mux]: no message within 100 ms, all
    senders gone, or a stream that is ready; with the status that it reads. *)
Inductive ReadyMessage := NotReady | SendersGone | StreamReady.

(** What the thread does: it starts the muxer, or ends without; the flag says that it
    sets the status to [STATUS_END] because it was the last thread. *)
Inductive ReadyFlow := Waiting (nb_streams_ready : nat) | Starts | EndsUnstarted (sets_end : bool).

Definition ready_round (stream_count : nat) (all_threads_done : bool) (r : ReadyMessage * Z) (nb_streams_ready : nat) : ReadyFlow :=
  let '(message, status) := r in
  if is_stopping status then EndsUnstarted false
  else match message with
  | SendersGone => EndsUnstarted all_threads_done
  | NotReady => Waiting nb_streams_ready
  | StreamReady => if (nb_streams_ready + 1 =? stream_count)%nat then Starts else Waiting (nb_streams_ready + 1)
  end.

Fixpoint ready_loop (stream_count : nat) (all_threads_done : bool) (l : list (ReadyMessage * Z)) (nb_streams_ready : nat) : ReadyFlow :=
  match l with
  | [] => Waiting nb_streams_ready
  | r :: l =>
    match ready_round stream_count all_threads_done r nb_streams_ready with
    | Waiting n => ready_loop stream_count all_threads_done l n
    | f => f
    end
  end.

(** ** The two threads *)

Section Handover.
  Context {P : Type}.

(** An encoder in [send_to_mux]: about to read the flag, to send to one queue or the
    other, or at one of the rounds left of its loop. *)
Inductive Sender := Idle | Loading (p : P) | ToPre (p : P) | Retrying (p : P) (rounds : nat) | ToQueue (p : P).

(** The starting thread: about to take from the encoder's queue, with a packet in its
    hand, behind the last look, with the receiver dropped, with the flag set. *)
Inductive Starter := Draining | Moving (p : P) | Drained | Dropped | Started.

(** [accepted] are the packets for which [send_to_mux] returned [Ok], in order, [failed]
    the others; [lost] went down with the receiver; [gap] were sent behind the last
    look. *)
Record Handover := {
  sender : Sender;
  starter : Starter;
  pre : list P;
  pre_open : bool;
  queue : list P;
  received : list P;
  mux_started : bool;
  accepted : list P;
  failed : list P;
  lost : list P;
  gap : list P
}.

Definition handover_new : Handover :=
  {| sender := Idle; starter := Draining; pre := []; pre_open := true; queue := []; received := []; mux_started := false;
     accepted := []; failed := []; lost := []; gap := [] |}.

Inductive HandoverEvent :=
  | Call (p : P) | Load | Send | Retry       (* the encoder *)
  | Take | Move | DropReceiver | SetStarted  (* the starting thread *)
  | Receive.                                 (* the muxer *)

Definition set_sender (s : Sender) (h : Handover) : Handover :=
  {| sender := s; starter := starter h; pre := pre h; pre_open := pre_open h; queue := queue h; received := received h;
     mux_started := mux_started h; accepted := accepted h; failed := failed h; lost := lost h; gap := gap h |}.

Definition set_starter (s : Starter) (l : list P) (h : Handover) : Handover :=
  {| sender := sender h; starter := s; pre := l; pre_open := pre_open h; queue := queue h; received := received h;
     mux_started := mux_started h; accepted := accepted h; failed := failed h; lost := lost h; gap := gap h |}.

(** [pkt_sender.send] and [pre_pkt_sender.send] of a packet, returning [Ok]. *)
Definition send_queue (p : P) (h : Handover) : Handover :=
  {| sender := Idle; starter := starter h; pre := pre h; pre_open := pre_open h; queue := queue h ++ [p]; received := received h;
     mux_started := mux_started h; accepted := accepted h ++ [p]; failed := failed h; lost := lost h; gap := gap h |}.

Definition send_pre (p : P) (h : Handover) : Handover :=
  {| sender := Idle; starter := starter h; pre := pre h ++ [p]; pre_open := pre_open h; queue := queue h; received := received h;
     mux_started := mux_started h; accepted := accepted h ++ [p]; failed := failed h; lost := lost h;
     gap := match starter h with Drained => gap h ++ [p] | _ => gap h end |}.

Definition stop_retrying (p : P) (h : Handover) : Handover :=
  {| sender := Idle; starter := starter h; pre := pre h; pre_open := pre_open h; queue := queue h; received := received h;
     mux_started := mux_started h; accepted := accepted h; failed := failed h ++ [p]; lost := lost h; gap := gap h |}.

(** [queue_sender.send(packet_box)] of the starting thread. *)
Definition move_queue (p : P) (h : Handover) : Handover :=
  {| sender := sender h; starter := Draining; pre := pre h; pre_open := pre_open h; queue := queue h ++ [p]; received := received h;
     mux_started := mux_started h; accepted := accepted h; failed := failed h; lost := lost h; gap := gap h |}.

Definition drop_receiver (h : Handover) : Handover :=
  {| sender := sender h; starter := Dropped; pre := []; pre_open := false; queue := queue h; received := received h;
     mux_started := mux_started h; accepted := accepted h; failed := failed h; lost := lost h ++ pre h; gap := gap h |}.

Definition store_started (h : Handover) : Handover :=
  {| sender := sender h; starter := Started; pre := pre h; pre_open := pre_open h; queue := queue h; received := received h;
     mux_started := true; accepted := accepted h; failed := failed h; lost := lost h; gap := gap h |}.

Definition receive (p : P) (l : list P) (h : Handover) : Handover :=
  {| sender := sender h; starter := starter h; pre := pre h; pre_open := pre_open h; queue := l; received := received h ++ [p];
     mux_started := mux_started h; accepted := accepted h; failed := failed h; lost := lost h; gap := gap h |}.

(** The rounds of the loop in [send_to_mux]. *)
Definition RETRIES : nat := 64.

(** One step, where it can be taken. *)
Definition handover_step (e : HandoverEvent) (h : Handover) : option Handover :=
  match e with
  | Call p => match sender h with Idle => Some (set_sender (Loading p) h) | _ => None end
  | Load => match sender h with Loading p => Some (set_sender (if mux_started h then ToQueue p else ToPre p) h) | _ => None end
  | Send =>
    match sender h with
    | ToPre p => Some (if pre_open h then send_pre p h else set_sender (Retrying p RETRIES) h)
    | ToQueue p => Some (send_queue p h)
    | _ => None
    end
  | Retry =>
    match sender h with
    | Retrying p 0 => Some (stop_retrying p h)
    | Retrying p (S n) => Some (set_sender (if mux_started h then ToQueue p else Retrying p n) h)
    | _ => None
    end
  | Take =>
    match starter h with
    | Draining => Some (match pre h with p :: l => set_starter (Moving p) l h | [] => set_starter Drained [] h end)
    | _ => None
    end
  | Move => match starter h with Moving p => Some (move_queue p h) | _ => None end
  | DropReceiver => match starter h with Drained => Some (drop_receiver h) | _ => None end
  | SetStarted => match starter h with Dropped => Some (store_started h) | _ => None end
  | Receive => match queue h with p :: l => Some (receive p l h) | [] => None end
  end.

Fixpoint handover_run (l : list HandoverEvent) (h : Handover) : option Handover :=
  match l with
  | [] => Some h
  | e :: l => match handover_step e h with Some h => handover_run l h | None => None end
  end.

(** ** Order and loss *)

(** What has come to the muxer's queue. *)
Definition delivered (h : Handover) : list P := received h ++ queue h.

Definition in_hand (h : Handover) : list P := match starter h with Moving p => [p] | _ => [] end.

Definition before_drop (h : Handover) : Prop := match starter h with Draining | Moving _ | Drained => True | _ => False end.

(** Before the receiver is dropped, what was accepted is on its way; behind it, what
    was delivered is what was accepted without the lost packets, which lie between
    those that the starting thread moved and those that were sent later. *)
Definition handed (h : Handover) : Prop :=
  match starter h with
  | Draining | Moving _ => lost h = [] /\ gap h = [] /\ accepted h = delivered h ++ in_hand h ++ pre h
  | Drained => lost h = [] /\ pre h = gap h /\ accepted h = delivered h ++ pre h
  | Dropped | Started => pre h = [] /\ lost h = gap h /\ exists moved later, delivered h = moved ++ later /\ accepted h = moved ++ lost h ++ later
  end.

Record handover_ok (h : Handover) : Prop := {
  ok_handed : handed h;
  ok_open : pre_open h = true <-> before_drop h;
  ok_started : mux_started h = true <-> starter h = Started;
  ok_queue : forall p, sender h = ToQueue p -> mux_started h = true
}.

Lemma handover_new_ok : handover_ok handover_new.
Proof. split; [by split_and!|done|done|done]. Qed.

(** A step that changes the sender only. *)
Lemma set_sender_ok s h : (forall p, s = ToQueue p -> mux_started h = true) -> handover_ok h -> handover_ok (set_sender s h).
Proof. intros Hs [H1 H2 H3 _]. by split. Qed.

Lemma send_queue_ok p h : sender h = ToQueue p -> handover_ok h -> handover_ok (send_queue p h).
Proof.
  intros Hs [H1 H2 H3 H4]. pose proof (proj1 H3 (H4 _ Hs)) as Hst. split; [|done|done|done].
  unfold handed in *. cbn [send_queue starter pre lost gap accepted] in *. rewrite Hst in *.
  destruct H1 as (Hp & Hl & moved & later & Hd & Ha). split_and!; [done|done|]. exists moved, (later ++ [p]).
  unfold delivered in *. cbn [send_queue received queue]. rewrite Ha, !app_assoc, Hd. by rewrite <-!app_assoc.
Qed.

Lemma send_pre_ok p h : pre_open h = true -> handover_ok h -> handover_ok (send_pre p h).
Proof.
  intros Ho [H1 H2 H3 H4]. apply H2 in Ho. split; [|done|done|done].
  unfold handed, before_drop, in_hand, delivered in *. cbn [send_pre starter pre lost gap accepted received queue] in *.
  destruct (starter h); try done; destruct H1 as (Hl & Hg & Ha).
  - split_and!; [done|done|]. by rewrite Ha, <-!app_assoc.
  - split_and!; [done|done|]. by rewrite Ha, <-!app_assoc.
  - split_and!; [done|by rewrite Hg|]. by rewrite Ha, <-!app_assoc.
Qed.

Lemma stop_retrying_ok p h : handover_ok h -> handover_ok (stop_retrying p h).
Proof. intros [H1 H2 H3 H4]. by split. Qed.

Lemma take_ok h : starter h = Draining -> handover_ok h ->
  handover_ok (match pre h with p :: l => set_starter (Moving p) l h | [] => set_starter Drained [] h end).
Proof.
  intros Hs [H1 H2 H3 H4]. unfold handed, in_hand, delivered, before_drop in *. rewrite Hs in *. destruct H1 as (Hl & Hg & Ha).
  assert (mux_started h <> true) as Hno by (intros [=]%H3).
  destruct (pre h) as [|p l] eqn:Ep; (split; [split_and!; try done|done|split; [done|done]|done]).
Qed.

Lemma move_ok p h : starter h = Moving p -> handover_ok h -> handover_ok (move_queue p h).
Proof.
  intros Hs [H1 H2 H3 H4]. unfold handed, in_hand, delivered, before_drop in *. rewrite Hs in *. destruct H1 as (Hl & Hg & Ha).
  assert (mux_started h <> true) as Hno by (intros [=]%H3). split; [|done|done|done].
  unfold handed, in_hand, delivered. cbn [move_queue starter lost gap accepted received queue pre]. split_and!; [done|done|].
  rewrite Ha. by rewrite <-!app_assoc.
Qed.

Lemma drop_ok h : starter h = Drained -> handover_ok h -> handover_ok (drop_receiver h).
Proof.
  intros Hs [H1 H2 H3 H4]. unfold handed, delivered, before_drop in *. rewrite Hs in *. destruct H1 as (Hl & Hg & Ha).
  assert (mux_started h <> true) as Hno by (intros [=]%H3). split; [|done|done|done].
  unfold handed, delivered. cbn [drop_receiver starter lost gap accepted received queue pre]. rewrite Hl. split_and!; [done|done|].
  exists (received h ++ queue h), []. by rewrite !app_nil_r.
Qed.

Lemma start_ok h : starter h = Dropped -> handover_ok h -> handover_ok (store_started h).
Proof. intros Hs [H1 H2 H3 H4]. unfold handed, before_drop in *. rewrite Hs in *. split; [exact H1|done|done|done]. Qed.

Lemma receive_ok p l h : queue h = p :: l -> handover_ok h -> handover_ok (receive p l h).
Proof.
  intros Hq [H1 H2 H3 H4]. split; [|done|done|done]. unfold handed, in_hand, delivered in *. rewrite Hq in *.
  assert (received h ++ p :: l = (received h ++ [p]) ++ l) as E by by rewrite <-app_assoc. cbn [receive starter lost gap accepted received queue pre].
  by rewrite E in H1.
Qed.

Lemma handover_step_ok e h h' : handover_ok h -> handover_step e h = Some h' -> handover_ok h'.
Proof.
  intros Hok. destruct e; cbn [handover_step].
  - destruct (sender h); try done. intros [= <-]. by apply set_sender_ok.
  - destruct (sender h); try done. intros [= <-]. apply set_sender_ok; [|done]. intros q. by destruct (mux_started h).
  - destruct (sender h) eqn:Es; try done; [|intros [= <-]; by apply send_queue_ok]. intros [= <-].
    destruct (pre_open h) eqn:Eo; [by apply send_pre_ok|by apply set_sender_ok].
  - destruct (sender h) as [| | |p [|n]|] eqn:Es; try done; intros [= <-]; [by apply stop_retrying_ok|]. apply set_sender_ok; [|done].
    intros q. by destruct (mux_started h).
  - destruct (starter h) eqn:Es; try done. intros [= <-]. by apply take_ok.
  - destruct (starter h) eqn:Es; try done. intros [= <-]. by apply move_ok.
  - destruct (starter h) eqn:Es; try done. intros [= <-]. by apply drop_ok.
  - destruct (starter h) eqn:Es; try done. intros [= <-]. by apply start_ok.
  - destruct (queue h) eqn:Eq; try done. intros [= <-]. by apply receive_ok.
Qed.

Lemma handover_run_ok l h h' : handover_ok h -> handover_run l h = Some h' -> handover_ok h'.
Proof.
  revert h. induction l as [|e l IH]; intros h Hok; cbn [handover_run]; [by intros [= <-]|].
  destruct (handover_step e h) eqn:E; [|done]. apply IH. by eapply handover_step_ok.
Qed.

(** C36. However the two threads run: behind the start of the muxer, its queue has got the
    packets that the encoder's sends accepted, in their order and without any but
    those that were sent between the last look into the encoder's queue and the drop
    of its receiver. *)
Theorem handover_keeps_order (l : list HandoverEvent) (h : Handover) :
  handover_run l handover_new = Some h -> starter h = Started ->
  lost h = gap h /\ exists moved later, delivered h = moved ++ later /\ accepted h = moved ++ lost h ++ later.
Proof.
  intros H Hs. apply handover_run_ok in H as [H _ _ _]; [|apply handover_new_ok]. unfold handed in H. rewrite Hs in H. tauto.
Qed.

End Handover.

Arguments Handover : clear implicits.
Arguments HandoverEvent : clear implicits.

(** ** The code on small inputs *)

Definition calm : list (HandoverEvent nat) :=
  [Call 1; Load; Send; Take; Move; Take; DropReceiver; Call 2; Load; Send; Retry; SetStarted; Retry; Send; Receive; Call 3; Load; Send]%nat.

Definition calm_end : Handover nat := default handover_new (handover_run calm handover_new).

Example calm_delivers : (delivered calm_end, lost calm_end) = ([1; 2; 3]%nat, []).
Proof. reflexivity. Qed.

(** A packet that is sent behind the last look is accepted, and lost. *)
Example packet_in_the_gap_is_lost :
  (fun h => (delivered h, accepted h, lost h)) <$> handover_run [Take; Call 1; Load; Send; DropReceiver; SetStarted; Call 2; Load; Send]%nat handover_new =
  Some ([2], [1; 2], [1])%nat.
Proof. reflexivity. Qed.

Lemma handover_keeps_order_witness :
  lost calm_end = gap calm_end /\ exists moved later, delivered calm_end = moved ++ later /\ accepted calm_end = moved ++ lost calm_end ++ later.
Proof. apply (handover_keeps_order calm calm_end); vm_compute; reflexivity. Defined.
