(* ===== verification/EncTask.v ===== *)
(** * The encoding task of ez-ffmpeg ([core/scheduler/enc_task.rs])

    How the frames that a filter or decoder sends come to the codec, and the codec's
    packets to the muxer: the queue that cuts audio into frames of the codec's size,
    the limits, the flush and the packet that ends the stream.  The codec and the
    buffers of frames are classes; subtitles are not modelled. *)

From stdpp Require Import base list option.
From Stdlib Require Import ZArith Lia.
From S2P Require Import Choke.
From S2P Require Import Prelude RustInt Errors StreamSpec Muxer.

Local Open Scope Z_scope.
Local Open Scope rust_scope.

(** [i32]: [x] is the result of an operation. *)
Definition i32 `{Profile} (x : Z) : outcome Z := signed 32 x.

(** [assert!] *)
Definition assert (b : bool) : outcome unit := if b then Ret tt else Panic.

(** ** Frames *)

(** A sample of every channel, as bytes. *)
Definition Sample : Type := list Z.

(** The fields of an [AVFrame] that the task reads; a video frame is one sample. *)
Record Frame := {
  samples : list Sample;
  data_ptr : Z;
  linesize : Z;
  planar : bool;
  bytes_per_sample : Z;
  channels : Z;
  rate : Z;
  frame_time_base : AVRational;
  frame_pts : Z;
  frame_duration : Z
}.

(** What the task uses of the codec and of libavutil. *)
Class AvEnc := {
  (** [data] and [linesize] of a new buffer for so many samples *)
  new_buffer : Z -> Z * Z;
  enc_rescale_q : Z -> AVRational -> AVRational -> Z;
  av_compare_ts : Z -> AVRational -> Z -> AVRational -> Z;
  (** the codec's context, its packets, and its two functions *)
  Enc : Type;
  Pkt : Type;
  enc_channels : Enc -> Z;
  param_change : Enc -> bool;
  avcodec_send_frame : Enc -> option Frame -> Z * Enc;
  avcodec_receive_packet : Enc -> (Z + Pkt) * Enc
}.

Section EncTask.
  Context `{Lib : AvEnc} `{Prof : Profile}.

Definition nb_samples (f : Frame) : Z := Z.of_nat (length (samples f)).

(** The duration of [n] samples in the base of the frame. *)
Definition samples_duration (n : Z) (f : Frame) : Z := enc_rescale_q n {| num := 1; den := rate f |} (frame_time_base f).

Definition set_samples (l : list Sample) (data line p duration : Z) (f : Frame) : Frame :=
  {| samples := l; data_ptr := data; linesize := line; planar := planar f; bytes_per_sample := bytes_per_sample f; channels := channels f;
     rate := rate f; frame_time_base := frame_time_base f; frame_pts := p; frame_duration := duration |}.

Definition set_duration (f : Frame) : Frame :=
  set_samples (samples f) (data_ptr f) (linesize f) (frame_pts f) (samples_duration (nb_samples f) f) f.

(** [offset_audio]: the first [n] samples are gone. *)
Definition offset_audio (n : nat) (f : Frame) : outcome Frame :=
  offset ← i32 (Z.of_nat n * bytes_per_sample f);
  offset ← i32 (offset * (if planar f then 1 else channels f));
  _ ← assert (0 <? bytes_per_sample f);
  _ ← assert (Z.of_nat n <? nb_samples f);
  line ← i32 (linesize f - offset);
  let rest := drop n (samples f) in
  p ← i64_add (frame_pts f) (samples_duration (Z.of_nat n) f);
  Ret (set_samples rest (data_ptr f + offset) line p (samples_duration (Z.of_nat (length rest)) f) f).

Definition frame_is_aligned (align_mask : Z) (f : Frame) : outcome bool :=
  _ ← assert (0 <? nb_samples f);
  _ ← assert (0 <? align_mask);
  Ret ((Z.land (data_ptr f) align_mask =? 0) && (Z.land (linesize f) align_mask =? 0) && (align_mask <? linesize f)).

(** ** The queue of audio frames *)

(** The variables of the task; a frame that is null is [None]. *)
Record EncState := {
  opened : bool;
  frame_samples : Z;
  align_mask : Z;
  samples_queued : Z;
  audio_frame_queue : list (option Frame);
  samples_sent : Z;
  frames_sent : Z;
  is_finished : bool
}.

Definition enc_state_new : EncState :=
  {| opened := false; frame_samples := 0; align_mask := 0; samples_queued := 0; audio_frame_queue := []; samples_sent := 0;
     frames_sent := 0; is_finished := false |}.

Definition set_opened (n mask : Z) (st : EncState) : EncState :=
  {| opened := true; frame_samples := n; align_mask := mask; samples_queued := samples_queued st;
     audio_frame_queue := audio_frame_queue st; samples_sent := samples_sent st; frames_sent := frames_sent st; is_finished := is_finished st |}.

Definition set_queue (queued : Z) (q : list (option Frame)) (st : EncState) : EncState :=
  {| opened := opened st; frame_samples := frame_samples st; align_mask := align_mask st; samples_queued := queued;
     audio_frame_queue := q; samples_sent := samples_sent st; frames_sent := frames_sent st; is_finished := is_finished st |}.

Definition set_sent (s f : Z) (st : EncState) : EncState :=
  {| opened := opened st; frame_samples := frame_samples st; align_mask := align_mask st; samples_queued := samples_queued st;
     audio_frame_queue := audio_frame_queue st; samples_sent := s; frames_sent := f; is_finished := is_finished st |}.

Definition set_finished (b : bool) (st : EncState) : EncState :=
  {| opened := opened st; frame_samples := frame_samples st; align_mask := align_mask st; samples_queued := samples_queued st;
     audio_frame_queue := audio_frame_queue st; samples_sent := samples_sent st; frames_sent := frames_sent st; is_finished := b |}.

(** [while dst.nb_samples < nb_samples]: [acc] has been copied. *)
Fixpoint copy_samples (nb : nat) (acc : list Sample) (q : list (option Frame)) (queued : Z) : outcome (list Sample * list (option Frame) * Z) :=
  if (nb <=? length acc)%nat then Ret (acc, q, queued)
  else match q with
  | Some f :: q =>
    let to_copy := Nat.min (nb - length acc) (length (samples f)) in
    queued ← i32 (queued - Z.of_nat to_copy);
    if (to_copy <? length (samples f))%nat then f' ← offset_audio to_copy f; Ret ((acc ++ take to_copy (samples f))%list, Some f' :: q, queued)
    else copy_samples nb (acc ++ samples f)%list q queued
  | _ => Panic
  end.

(** [receive_samples]: [alloc] is the code of a call that failed to get memory. *)
Definition receive_samples (nb : nat) (alloc : option Z) (st : EncState) : outcome (result (Frame * EncState) Z) :=
  _ ← assert (Z.of_nat nb <=? samples_queued st);
  match alloc with
  | Some ret => Ret (Err ret)
  | None =>
    match audio_frame_queue st with
    | Some src :: q =>
      aligned ← (if Z.of_nat nb <? nb_samples src then frame_is_aligned (align_mask st) src else Ret false);
      if aligned : bool then
        src' ← offset_audio nb src;
        queued ← i32 (samples_queued st - Z.of_nat nb);
        let dst := set_samples (take nb (samples src)) (data_ptr src) (linesize src) (frame_pts src) (samples_duration (Z.of_nat nb) src) src in
        Ret (Ok (dst, set_queue queued (Some src' :: q) st))
      else
        '(l, q, queued) ← copy_samples nb [] (audio_frame_queue st) (samples_queued st);
        let '(data, line) := new_buffer (Z.of_nat nb) in
        Ret (Ok (set_samples l data line (frame_pts src) (samples_duration (Z.of_nat nb) src) src, set_queue queued q st))
    | _ => Panic
    end
  end.

(** A frame of the codec's size, when there are enough samples or no more come. *)
Inductive Processed := PFrame (f : option Frame) (st : EncState) | PNone (st : EncState) | PErr (e : Error) (st : EncState).

Definition process_audio_queue (alloc : option Z) (st : EncState) : outcome Processed :=
  match audio_frame_queue st with
  | [] => Ret (PNone st)
  | peek :: q =>
    if (frame_samples st <=? samples_queued st) || is_finished st then
      let nb := if is_finished st then Z.min (frame_samples st) (samples_queued st) else frame_samples st in
      sent ← i64_add (samples_sent st) nb;
      let st := set_sent sent (Z.quot sent (frame_samples st)) st in
      match peek with
      | None => if is_finished st then Ret (PFrame None (set_queue (samples_queued st) q st)) else Panic
      | Some f =>
        whole ← (if nb =? nb_samples f then frame_is_aligned (align_mask st) f else Ret false);
        if whole : bool then
          queued ← i32 (samples_queued st - nb_samples f);
          Ret (PFrame (Some f) (set_queue queued q st))
        else
          r ← receive_samples (Z.to_nat nb) alloc st;
          match r with
          | Ok (f, st) => Ret (PFrame (Some f) st)
          | Err ret => Ret (PErr (Error.Encoding (EncodingOperationError.ReceiveAudioError (EncodingError.EncodingError_from ret))) st)
          end
      end
    else Ret (PNone st)
  end.

(** ** Receiving a frame *)

(** What the channel gives within 100 ms, and whether the scheduler is stopping. *)
Inductive FrameReceipt := FrameIn (f : option Frame) | FrameTimeout | FrameDisconnected | FrameStopping.

Inductive SyncFrame := FrameBox (f : option Frame) (st : EncState) | SContinue (st : EncState) | SBreak (e : option Error) (st : EncState).

(** The codec's frame size when it opens, for audio ([None] for other types), or why
    it does not. *)
Definition opening : Type := result (option Z) Error.

Definition of_processed (p : Processed) : SyncFrame :=
  match p with PFrame f st => FrameBox f st | PNone st => SContinue st | PErr e st => SBreak (Some e) st end.

(** Behind the receipt of a frame. *)
Definition accept_frame (alloc : option Z) (f : option Frame) (st : EncState) : outcome SyncFrame :=
  if 0 <? frame_samples st then
    let st := set_finished (bool_decide (f = None)) st in
    queued ← match f with Some f => i32 (samples_queued st + nb_samples f) | None => Ret (samples_queued st) end;
    let st := set_queue queued (audio_frame_queue st ++ [set_duration <$> f])%list st in
    if (samples_queued st <? frame_samples st) && negb (is_finished st) then Ret (SContinue st)
    else p ← process_audio_queue alloc st; Ret (of_processed p)
  else
    n ← i64_add (frames_sent st) 1;
    Ret (FrameBox f (set_sent (samples_sent st) n st)).

(** [receive_frame], with what is left of the receipts. *)
Definition receive_frame (open : Frame -> opening) (max_align : Z) (alloc : option Z) (st : EncState) (l : list FrameReceipt)
    : outcome (SyncFrame * list FrameReceipt) :=
  queued ← (if opened st && (0 <? frame_samples st) then process_audio_queue alloc st else Ret (PNone st));
  match queued with
  | PNone st =>
    match l with
    | [] => Ret (SContinue st, [])
    | FrameTimeout :: l => Ret (SContinue st, l)
    | FrameDisconnected :: l | FrameStopping :: l => Ret (SBreak None st, l)
    | FrameIn f :: l =>
      if opened st then s ← accept_frame alloc f st; Ret (s, l)
      else match f with
      | None => Ret (SBreak None st, l)
      | Some frame =>
        match open frame with
        | Err e => Ret (SBreak (Some e) st, l)
        | Ok size =>
          let st := match size with Some n => set_opened n (max_align - 1) st | None => set_opened 0 0 st end in
          s ← accept_frame alloc f st; Ret (s, l)
        end
      end
    end
  | p => Ret (of_processed p, l)
  end.

(** ** The codec *)

(** What goes to the muxer: the packets of the codec and the empty one at the end. *)
Inductive Output_ := Data (p : Pkt) | EndPacket.

(** The codec's context, what was sent to the muxer, which takes as many packets as
    [room] says, and the frames that were submitted. *)
Record CodecState := { ctx : Enc; out : list Output_; room : option nat; submitted : list (option Frame) }.

(** [send_to_mux], as its caller sees it. *)
Definition send_to_mux (o : Output_) (c : CodecState) : option CodecState :=
  match room c with
  | Some 0%nat => None
  | Some (S n) => Some {| ctx := ctx c; out := out c ++ [o]; room := Some n; submitted := submitted c |}
  | None => Some {| ctx := ctx c; out := out c ++ [o]; room := None; submitted := submitted c |}
  end.

Definition set_ctx (e : Enc) (c : CodecState) : CodecState := {| ctx := e; out := out c; room := room c; submitted := submitted c |}.

Definition submit (f : option Frame) (e : Enc) (c : CodecState) : CodecState :=
  {| ctx := e; out := out c; room := room c; submitted := submitted c ++ [f] |}.

(** The packets that the codec has, until it wants a frame ([Ok false]) or has ended. *)
Fixpoint drain (fuel : nat) (c : CodecState) : outcome (result bool Error * CodecState) :=
  match fuel with
  | O => Diverge
  | S fuel =>
    let '(r, e) := avcodec_receive_packet (ctx c) in
    let c := set_ctx e c in
    match r with
    | inl ret =>
      if ret =? AVERROR_AGAIN then Ret (Ok false, c)
      else if ret =? AVERROR_EOF then Ret (Ok true, c)
      else Ret (Err (Error.Encoding (EncodingOperationError.ReceivePacketError (EncodingError.EncodingError_from ret))), c)
    | inr p =>
      match send_to_mux (Data p) c with
      | Some c => drain fuel c
      | None => Ret (Err (Error.Encoding EncodingOperationError.MuxerFinished), c)
      end
    end
  end.

Definition encode_frame (fuel : nat) (f : option Frame) (c : CodecState) : outcome (result bool Error * CodecState) :=
  let '(ret, e) := avcodec_send_frame (ctx c) f in
  let c := submit f e c in
  if (ret <? 0) && negb ((ret =? AVERROR_EOF) && bool_decide (f = None))
  then Ret (Err (Error.Encoding (EncodingOperationError.SendFrameError (EncodingError.EncodingError_from ret))), c)
  else drain fuel c.

(** The limits and settings of an encoder. *)
Record EncParams := {
  is_video : bool;
  recording_time : option Z;
  max_frames : option Z;
  open_codec : Frame -> opening;
  cpu_max_align : Z
}.

(** [frame_encode] of a stream that has no subtitles. *)
Definition frame_encode (params : EncParams) (fuel : nat) (f : option Frame) (c : CodecState) : outcome (result bool Error * CodecState) :=
  match f with
  | Some frame =>
    if match recording_time params with
       | Some t => 0 <=? av_compare_ts (frame_pts frame) (frame_time_base frame) t {| num := 1; den := 1000000 |}
       | None => false
       end
    then Ret (Ok true, c)
    else if negb (is_video params) && negb (param_change (ctx c)) && negb (enc_channels (ctx c) =? channels frame) then Ret (Ok false, c)
    else encode_frame fuel f c
  | None => encode_frame fuel f c
  end.

(** The loop, with fuel for its rounds and for the packets between two frames: the state, the receipts that are left, whether the encoder has finished,
    and the errors that the scheduler is told. *)
Record EncEnd := { end_codec : CodecState; finished : bool; enc_errors : list Error; receipts : list FrameReceipt }.

Fixpoint enc_loop (params : EncParams) (packets fuel : nat) (st : EncState) (c : CodecState) (l : list FrameReceipt) : outcome EncEnd :=
  match fuel with
  | O => Diverge
  | S fuel =>
    '(s, l) ← receive_frame (open_codec params) (cpu_max_align params) None st l;
    match s with
    | SContinue st => enc_loop params packets fuel st c l
    | SBreak e st => Ret {| end_codec := c; finished := false; enc_errors := match e with Some e => [e] | None => [] end; receipts := l |}
    | FrameBox f st =>
      '(r, c) ← frame_encode params packets f c;
      match r with
      | Err e => Ret {| end_codec := c; finished := false; enc_errors := [e]; receipts := l |}
      | Ok ended =>
        if match max_frames params with Some m => m <=? frames_sent st | None => false end
        then Ret {| end_codec := c; finished := true; enc_errors := []; receipts := l |}
        else if ended : bool then Ret {| end_codec := c; finished := true; enc_errors := []; receipts := l |}
        else enc_loop params packets fuel st c l
      end
    end
  end.

(** The flush of an encoder that was left early: its errors are logged only. *)
Definition flush (fuel : nat) (c : CodecState) : outcome CodecState :=
  let '(ret, e) := avcodec_send_frame (ctx c) None in
  let c := submit None e c in
  if (ret <? 0) && negb (ret =? AVERROR_EOF) then Ret c
  else '(_, c) ← drain fuel c; Ret c.

(** Behind the loop, with the status that is read there. *)
Definition enc_finish (fuel : nat) (status : Z) (r : EncEnd) : outcome (CodecState * list Error) :=
  c ← (if negb (finished r) && negb (status =? STATUS_ABORT) then flush fuel (end_codec r) else Ret (end_codec r));
  match send_to_mux EndPacket c with
  | Some c => Ret (c, enc_errors r)
  | None => Ret (c, enc_errors r ++ [Error.Encoding EncodingOperationError.MuxerFinished])
  end.

(** The body of the encoder's thread. *)
Definition enc_task (params : EncParams) (packets fuel : nat) (status : Z) (c : CodecState) (l : list FrameReceipt) : outcome (CodecState * list Error) :=
  r ← enc_loop params packets fuel enc_state_new c l;
  enc_finish packets status r.

Definition codec_state_new (e : Enc) : CodecState := {| ctx := e; out := []; room := None; submitted := [] |}.

End EncTask.
