(* ===== verification/EncTaskSpec.v ===== *)
(** * The promises of the encoding task

    The samples of the frames that arrive reach the codec in their order, in frames of
    its size; and every packet that the codec makes of them goes to the muxer, before
    the packet that ends the stream.  The codec is any one that can be driven over the
    frames without an error.  A limit loses the packets that the codec still
    holds. *)

From stdpp Require Import base list option.
From Stdlib Require Import ZArith Lia.
From S2P Require Import Choke.
From S2P Require Import Prelude RustInt Errors StreamSpec Muxer EncTask.

Local Open Scope Z_scope.
Local Open Scope rust_scope.

Section Queue.
  Context `{Lib : AvEnc} `{Prof : Profile}.

  (** The builds that the server ships do not check overflow. *)
  Hypothesis no_checks : overflow_checks = false.

(** ** Operations that return *)

Lemma i32_in x : - 2 ^ 31 <= x < 2 ^ 31 -> i32 x = Ret x.
Proof. apply (signed_in 32). Qed.

Lemma i32_returns x : exists y, i32 x = Ret y.
Proof. unfold i32, signed. rewrite no_checks. destruct (_ && _); by eexists. Qed.

Lemma i64_add_returns a b : exists y, i64_add a b = Ret y.
Proof. unfold i64_add, i64_sub. cbv zeta. rewrite no_checks. destruct (_ && _); by eexists. Qed.

  (** The channels of the frames. *)
  Variable ch : Z.

(** A frame with samples whose size is known. *)
Definition good_frame (f : Frame) : Prop := samples f <> [] /\ 0 < bytes_per_sample f /\ channels f = ch.

Lemma good_size f : good_frame f -> 0 < nb_samples f.
Proof. intros [H _]. unfold nb_samples. destruct (samples f); [done|cbn; lia]. Qed.

Lemma aligned_returns mask f : good_frame f -> 0 < mask -> exists b, frame_is_aligned mask f = Ret b.
Proof.
  intros Hf Hm. unfold frame_is_aligned, assert. rewrite (proj2 (Z.ltb_lt 0 _) (good_size _ Hf)), (proj2 (Z.ltb_lt 0 _) Hm). by eexists.
Qed.

Lemma offset_returns n f :
  good_frame f -> (n < length (samples f))%nat -> exists f', offset_audio n f = Ret f' /\ samples f' = drop n (samples f) /\ good_frame f'.
Proof.
  intros (Hs & Hb & Hch) Hn. unfold offset_audio.
  destruct (i32_returns (Z.of_nat n * bytes_per_sample f)) as [x ->]. cbn [mbind outcome_bind].
  destruct (i32_returns (x * (if planar f then 1 else channels f))) as [y ->]. cbn [mbind outcome_bind]. unfold assert.
  rewrite (proj2 (Z.ltb_lt 0 _) Hb). assert ((Z.of_nat n <? nb_samples f) = true) as -> by (unfold nb_samples; lia). cbn [mbind outcome_bind].
  destruct (i32_returns (linesize f - y)) as [z ->]. cbn [mbind outcome_bind]. cbv zeta.
  destruct (i64_add_returns (frame_pts f) (samples_duration (Z.of_nat n) f)) as [p ->]. cbn [mbind outcome_bind].
  eexists. split; [reflexivity|]. split; [done|]. split; [|done]. cbn. intros H. apply (f_equal length) in H. rewrite length_drop in H. cbn in H. lia.
Qed.

(** ** The contents of the queue *)

Definition content (fs : list Frame) : list Sample := concat (samples <$> fs).

Lemma content_cons f fs : content (f :: fs) = (samples f ++ content fs)%list.
Proof. done. Qed.

Lemma content_app fs gs : content (fs ++ gs)%list = (content fs ++ content gs)%list.
Proof. unfold content. by rewrite fmap_app, concat_app. Qed.

(** The queue: frames, and the null frame behind them when no more come. *)
Definition queue_of (fs : list Frame) (tail : list (option Frame)) : list (option Frame) := ((Some <$> fs) ++ tail)%list.

Lemma copy_spec nb acc fs tail queued :
  Forall good_frame fs -> (length acc <= nb)%nat -> (nb - length acc <= length (content fs))%nat ->
  0 <= queued - Z.of_nat (nb - length acc) -> queued < 2 ^ 31 ->
  exists fs' queued', copy_samples nb acc (queue_of fs tail) queued = Ret ((acc ++ take (nb - length acc) (content fs))%list, queue_of fs' tail, queued') /\
    content fs' = drop (nb - length acc) (content fs) /\ Forall good_frame fs' /\ queued' = queued - Z.of_nat (nb - length acc).
Proof.
  revert acc queued. induction fs as [|f fs IH]; intros acc queued Hg Ha Hl Hq Hq2.
  - cbn [content fmap list_fmap concat] in *. exists [], queued. assert (nb = length acc) as -> by (cbn in Hl; lia).
    rewrite Nat.sub_diag. cbn [take drop]. rewrite app_nil_r. split_and!; [|done|constructor|lia]. unfold queue_of. cbn [fmap list_fmap app].
    destruct tail; cbn [copy_samples]; rewrite (leb_correct (length acc)) by lia; done.
  - apply Forall_cons_1 in Hg as [Hf Hg]. unfold queue_of at 1. cbn [fmap list_fmap app copy_samples]. rewrite content_cons in *. rewrite length_app in Hl.
    destruct (nb <=? length acc)%nat eqn:E.
    { apply Nat.leb_le in E. replace (nb - length acc)%nat with 0%nat by lia. exists (f :: fs), queued. cbn [take drop]. rewrite app_nil_r.
      split_and!; [done|by rewrite content_cons|by constructor|lia]. }
    apply Nat.leb_gt in E. cbv zeta. set (k := Nat.min (nb - length acc) (length (samples f))).
    rewrite (i32_in (queued - Z.of_nat k)) by (unfold k; lia). cbn [mbind outcome_bind]. destruct (k <? length (samples f))%nat eqn:Ek.
    + apply Nat.ltb_lt in Ek. assert (k = (nb - length acc)%nat) as Hk by lia. destruct (offset_returns k f Hf Ek) as (f' & -> & Hs & Hf').
      cbn [mbind outcome_bind]. rewrite Hk in *. exists (f' :: fs), (queued - Z.of_nat (nb - length acc)). split_and!.
      * f_equal. f_equal. f_equal. rewrite take_app_le by lia. done.
      * rewrite content_cons, Hs, drop_app_le by lia. done.
      * by constructor.
      * lia.
    + apply Nat.ltb_ge in Ek. assert (length (samples f) <= nb - length acc)%nat as Hle by (unfold k in *; lia).
      assert (k = length (samples f)) as -> by (unfold k in *; lia).
      destruct (IH (acc ++ samples f)%list (queued - Z.of_nat (length (samples f)))) as (fs' & q' & Hc & Hd & Hg' & Hq'); [done|rewrite ?length_app; lia..|].
      rewrite length_app in *. exists fs', q'. split_and!; [|rewrite Hd|done|lia].
      * etransitivity; [exact Hc|]. f_equal. f_equal. f_equal. rewrite <-app_assoc. f_equal. rewrite take_app_ge by lia.
        by replace (nb - length acc - length (samples f))%nat with (nb - (length acc + length (samples f)))%nat by lia.
      * rewrite drop_app_ge by lia. f_equal. lia.
Qed.

(** What [process_audio_queue] is about: the queue of an encoder whose frames have [n]
    samples. *)
Record queue_ok (n : nat) (fs : list Frame) (tail : list (option Frame)) (st : EncState) : Prop := {
  q_opened : opened st = true;
  q_samples : frame_samples st = Z.of_nat n;
  q_positive : (0 < n)%nat;
  q_mask : 0 < align_mask st;
  q_queue : audio_frame_queue st = queue_of fs tail;
  q_good : Forall good_frame fs;
  q_queued : samples_queued st = Z.of_nat (length (content fs));
  q_small : Z.of_nat (length (content fs)) < 2 ^ 31
}.

Lemma set_sent_queue_ok n fs tail a b st : queue_ok n fs tail st -> queue_ok n fs tail (set_sent a b st).
Proof. intros []. by split. Qed.

Lemma set_queue_ok n fs fs' tail queued st k :
  queue_ok n fs tail st -> content fs' = drop k (content fs) -> Forall good_frame fs' -> (k <= length (content fs))%nat ->
  queued = samples_queued st - Z.of_nat k -> queue_ok n fs' tail (set_queue queued (queue_of fs' tail) st).
Proof.
  intros [] Hc Hg Hk ->. split; try done; cbn [set_queue samples_queued]; rewrite Hc, length_drop; lia.
Qed.

(** What a frame that is cut off the queue is. *)
Definition cut (n nb : nat) (fs : list Frame) (tail : list (option Frame)) (st : EncState) (f : Frame) (st' : EncState) : Prop :=
  channels f = ch /\ exists fs', samples f = take nb (content fs) /\ content fs' = drop nb (content fs) /\ queue_ok n fs' tail st' /\ is_finished st' = is_finished st.

Lemma copy_cut n fs tail st nb :
  queue_ok n fs tail st -> (nb <= length (content fs))%nat ->
  exists l q queued, copy_samples nb [] (audio_frame_queue st) (samples_queued st) = Ret (l, q, queued) /\
    forall f, samples f = l -> channels f = ch -> cut n nb fs tail st f (set_queue queued q st).
Proof.
  intros Hok Hle. pose proof Hok as []. rewrite q_queue0.
  destruct (copy_spec nb [] fs tail (samples_queued st)) as (fs' & q' & Hc & Hd & Hg' & Hq'); cbn [length] in *; [done|lia..|].
  rewrite Nat.sub_0_r in *. eexists _, _, _. split; [exact Hc|]. intros f Hf Hch. split; [done|]. exists fs'. split_and!; [done|done|by eapply set_queue_ok|done].
Qed.

Lemma receive_spec n fs tail st nb :
  queue_ok n fs tail st -> (0 < nb <= length (content fs))%nat ->
  exists f st', receive_samples nb None st = Ret (Ok (f, st')) /\ cut n nb fs tail st f st'.
Proof.
  intros Hok [Hnb Hle]. destruct (copy_cut _ _ _ _ _ Hok Hle) as (l & q & queued & Hcopy & Hcut). pose proof Hok as [].
  unfold receive_samples, assert. rewrite (proj2 (Z.leb_le (Z.of_nat nb) _)) by lia. cbn [mbind outcome_bind]. rewrite Hcopy.
  destruct fs as [|f fs]; [cbn in Hle; lia|]. rewrite q_queue0. unfold queue_of. cbn [fmap list_fmap app].
  pose proof q_good0 as [Hf Hg]%Forall_cons_1.
  assert (forall b : bool, exists b', (if b then frame_is_aligned (align_mask st) f else Ret false) = Ret (b && b')) as Ha.
  { intros []; [|by exists true]. destruct (aligned_returns (align_mask st) f Hf q_mask0) as [b ->]. by exists b. }
  destruct (Ha (Z.of_nat nb <? nb_samples f)) as [b ->]. cbn [mbind outcome_bind]. destruct (_ && b) eqn:E.
  - apply andb_true_iff in E as [E _]. assert (nb < length (samples f))%nat as Hlt by (unfold nb_samples in E; lia).
    destruct (offset_returns nb f Hf Hlt) as (f' & -> & Hs & Hf').
    cbn [mbind outcome_bind]. rewrite i32_in by lia. cbn [mbind outcome_bind]. cbv zeta. eexists _, _. split; [reflexivity|]. split; [apply Hf|]. exists (f' :: fs).
    cbn [set_samples samples]. rewrite !content_cons, Hs, drop_app_le, take_app_le by lia. split_and!; [done|done| |done].
    change (Some f' :: (Some <$> fs) ++ tail)%list with (queue_of (f' :: fs) tail). eapply set_queue_ok; [exact Hok| | |exact Hle|lia].
    + by rewrite !content_cons, Hs, drop_app_le by lia.
    + by constructor.
  - cbn [mbind outcome_bind]. destruct (new_buffer (Z.of_nat nb)) as [d li]. eexists _, _. split; [reflexivity|]. apply Hcut; [done|apply Hf].
Qed.

(** How many samples the next frame has. *)
Definition next_size (n : nat) (fs : list Frame) (st : EncState) : nat := if is_finished st then Nat.min n (length (content fs)) else n.

Lemma process_spec n fs tail st :
  queue_ok n fs tail st -> (0 < next_size n fs st <= length (content fs))%nat ->
  exists f st', process_audio_queue None st = Ret (PFrame (Some f) st') /\ cut n (next_size n fs st) fs tail st f st'.
Proof.
  intros Hok [Hnb Hle]. pose proof Hok as []. unfold process_audio_queue.
  destruct fs as [|f fs]; [cbn in Hle; unfold next_size in *; cbn in *; lia|]. rewrite q_queue0. unfold queue_of. cbn [fmap list_fmap app].
  assert ((frame_samples st <=? samples_queued st) || is_finished st = true) as ->.
  { unfold next_size in *. destruct (is_finished st); [apply orb_true_r|]. apply orb_true_iff. left. lia. }
  assert ((if is_finished st then Z.min (frame_samples st) (samples_queued st) else frame_samples st) = Z.of_nat (next_size n (f :: fs) st)) as ->.
  { unfold next_size. destruct (is_finished st); lia. }
  cbv zeta. destruct (i64_add_returns (samples_sent st) (Z.of_nat (next_size n (f :: fs) st))) as [sent ->]. cbn [mbind outcome_bind].
  set (st1 := set_sent sent _ st). assert (queue_ok n (f :: fs) tail st1) as Hok1 by by apply set_sent_queue_ok.
  pose proof q_good0 as [Hf Hg]%Forall_cons_1.
  assert (forall b : bool, exists b', (if b then frame_is_aligned (align_mask st1) f else Ret false) = Ret (b && b')) as Ha.
  { intros []; [|by exists true]. destruct (aligned_returns (align_mask st1) f Hf q_mask0) as [b ->]. by exists b. }
  destruct (Ha (Z.of_nat (next_size n (f :: fs) st) =? nb_samples f)) as [b ->]. cbn [mbind outcome_bind]. destruct (_ && b) eqn:E.
  - apply andb_true_iff in E as [E _]. assert (next_size n (f :: fs) st = length (samples f)) as Hsz by (unfold nb_samples in E; lia).
    rewrite i32_in by (cbn [st1 set_sent samples_queued]; unfold nb_samples; rewrite content_cons, length_app in *; lia). cbn [mbind outcome_bind].
    eexists _, _. split; [reflexivity|]. split; [apply Hf|]. exists fs. rewrite Hsz, content_cons, take_app_length, drop_app_length. split_and!; [done|done| |done].
    eapply set_queue_ok; [exact Hok1|by rewrite content_cons, drop_app_length|done|rewrite content_cons, length_app; lia|].
    unfold nb_samples. lia.
  - rewrite Nat2Z.id. destruct (receive_spec n (f :: fs) tail st1 (next_size n (f :: fs) st)) as (g & st' & -> & Hcut); [done|lia|].
    cbn [mbind outcome_bind]. by eexists _, _.
Qed.

(** ** Receiving *)

(** The receipts of frames, and of the null frame behind them. *)
Definition receipts_of (gs : list Frame) : list FrameReceipt := (((fun g => FrameIn (Some g)) <$> gs) ++ [FrameIn None])%list.

Lemma process_waits n fs st :
  queue_ok n fs [] st -> is_finished st = false -> (length (content fs) < n)%nat -> process_audio_queue None st = Ret (PNone st).
Proof.
  intros [] Hf Hlt. unfold process_audio_queue. rewrite q_queue0, Hf, orb_false_r.
  destruct (queue_of fs []); [done|]. by rewrite (proj2 (Z.leb_gt _ _)) by lia.
Qed.

Lemma good_duration g : good_frame g -> good_frame (set_duration g).
Proof. done. Qed.

(** A frame that is received while there are too few samples: the task waits for more,
    or cuts a frame. *)
Lemma accept_frame_spec n fs st g :
  queue_ok n fs [] st -> (length (content fs) < n)%nat -> good_frame g -> Z.of_nat (length (content (fs ++ [g])%list)) < 2 ^ 31 ->
  exists s, accept_frame None (Some g) st = Ret s /\
    ((exists st', s = SContinue st' /\ queue_ok n (fs ++ [set_duration g])%list [] st' /\ is_finished st' = false) \/
     (exists f st1 st', s = FrameBox (Some f) st' /\ cut n n (fs ++ [set_duration g])%list [] st1 f st' /\ is_finished st1 = false /\
        (n <= length (content (fs ++ [g])%list))%nat)).
Proof.
  intros Hok Hlt Hg Hsm. pose proof Hok as []. unfold accept_frame. rewrite (proj2 (Z.ltb_lt 0 _)) by lia. cbv zeta.
  rewrite bool_decide_eq_false_2 by done. rewrite content_app, length_app in Hsm. cbn [content fmap list_fmap concat] in Hsm. rewrite app_nil_r in Hsm.
  cbn [set_finished samples_queued audio_frame_queue]. rewrite i32_in by (unfold nb_samples; lia). cbn [mbind outcome_bind].
  set (st1 := set_queue _ _ _). assert (queue_ok n (fs ++ [set_duration g])%list [] st1) as Hok1.
  { split; try done; cbn [st1 set_queue set_finished samples_queued audio_frame_queue].
    - rewrite q_queue0. unfold queue_of. by rewrite fmap_app, !app_nil_r.
    - apply Forall_app. split; [done|]. by constructor.
    - rewrite content_app, length_app. cbn. rewrite app_nil_r. unfold nb_samples. lia.
    - rewrite content_app, length_app. cbn. rewrite app_nil_r. lia. }
  assert (is_finished st1 = false) as Hf1 by done. rewrite Hf1, andb_true_r. destruct (samples_queued st1 <? frame_samples st1) eqn:E.
  - eexists. split; [reflexivity|]. left. by exists st1.
  - assert (n <= length (content (fs ++ [set_duration g])%list))%nat as Hn by (destruct Hok1; lia).
    destruct (process_spec n (fs ++ [set_duration g])%list [] st1 Hok1) as (f & st' & -> & Hcut); [unfold next_size; rewrite Hf1; lia|].
    cbn [mbind outcome_bind of_processed]. eexists. split; [reflexivity|]. right. exists f, st1, st'. unfold next_size in Hcut. rewrite Hf1 in Hcut.
    rewrite content_app in *. by split_and!.
Qed.

(** Behind the null frame: a cut while there are samples, and then the null frame. *)
Lemma finishing_spec n fs st :
  queue_ok n fs [None] st -> is_finished st = true ->
  exists p, process_audio_queue None st = Ret p /\
    ((fs = [] /\ exists st', p = PFrame None st') \/
     (exists f st', p = PFrame (Some f) st' /\ (0 < next_size n fs st <= length (content fs))%nat /\ cut n (next_size n fs st) fs [None] st f st')).
Proof.
  intros Hok Hf. destruct fs as [|f fs].
  - pose proof Hok as []. unfold process_audio_queue. rewrite q_queue0, Hf, orb_true_r. cbv zeta.
    destruct (i64_add_returns (samples_sent st) (Z.min (frame_samples st) (samples_queued st))) as [x Hx]. cbn [queue_of fmap list_fmap app].
    rewrite Hx. cbn [mbind outcome_bind set_sent is_finished]. rewrite Hf. eexists. split; [reflexivity|]. left. split; [done|]. by eexists.
  - assert (0 < next_size n (f :: fs) st <= length (content (f :: fs)))%nat as Hn.
    { pose proof Hok as []. apply Forall_cons_1 in q_good0 as [Hgf _]. apply good_size in Hgf. unfold nb_samples in Hgf. unfold next_size. rewrite Hf.
      rewrite content_cons, length_app. lia. }
    destruct (process_spec _ _ _ _ Hok Hn) as (g & st' & -> & Hcut). eexists. split; [reflexivity|]. right. by exists g, st'.
Qed.

(** The null frame. *)
Lemma accept_null n fs st :
  queue_ok n fs [] st -> accept_frame None None st =
    (p ← process_audio_queue None (set_queue (samples_queued st) (queue_of fs [None]) (set_finished true st)); Ret (of_processed p)) /\
  queue_ok n fs [None] (set_queue (samples_queued st) (queue_of fs [None]) (set_finished true st)).
Proof.
  intros Hok. pose proof Hok as []. split; [|by split].
  unfold accept_frame. rewrite (proj2 (Z.ltb_lt 0 _)) by lia. cbv zeta. cbn [mbind outcome_bind set_finished samples_queued audio_frame_queue fmap option_fmap option_map].
  rewrite bool_decide_eq_true_2 by done. cbn [set_queue is_finished]. rewrite andb_false_r, q_queue0. unfold queue_of. by rewrite app_nil_r.
Qed.

End Queue.

(** ** The codec *)

Section Codec.
  Context `{Lib : AvEnc}.

(** A codec that is asked for packets until it wants a frame, or has ended. *)
Inductive gives : Enc -> list Pkt -> bool -> Enc -> Prop :=
| gives_again e e' : avcodec_receive_packet e = (inl AVERROR_AGAIN, e') -> gives e [] false e'
| gives_eof e e' : avcodec_receive_packet e = (inl AVERROR_EOF, e') -> gives e [] true e'
| gives_packet e p e1 ps ended e' : avcodec_receive_packet e = (inr p, e1) -> gives e1 ps ended e' -> gives e (p :: ps) ended e'.

(** A codec that is driven over frames, as libavcodec documents it, by a task with these
    parameters: it takes a frame, whose channels are its own unless it is a video codec
    or one that takes changes, and is asked for packets until it wants the next one; at
    the end it takes the null frame, and is drained until it has ended. *)
Inductive encoded (params : EncParams) : Enc -> list Frame -> list Pkt -> Enc -> Prop :=
| encoded_end e ret e1 ps e' : avcodec_send_frame e None = (ret, e1) -> 0 <= ret \/ ret = AVERROR_EOF -> gives e1 ps true e' -> encoded params e [] ps e'
| encoded_frame e f ret e1 ps e2 os ps' e' :
    is_video params = true \/ param_change e = true \/ enc_channels e = channels f -> avcodec_send_frame e (Some f) = (ret, e1) -> 0 <= ret ->
    gives e1 ps false e2 -> encoded params e2 os ps' e' -> encoded params e (f :: os) (ps ++ ps') e'.

(** What became of a codec with its outputs. *)
Definition moved_on (e : Enc) (ps : list Pkt) (fs : list (option Frame)) (c : CodecState) : CodecState :=
  {| ctx := e; out := out c ++ (Data <$> ps); room := None; submitted := submitted c ++ fs |}.

Lemma drain_spec e ps ended e' :
  gives e ps ended e' -> forall c, ctx c = e -> room c = None ->
  exists k0, forall k, (k0 <= k)%nat -> drain k c = Ret (Ok ended, moved_on e' ps [] c).
Proof.
  induction 1 as [e e' Hr|e e' Hr|e p e1 ps ended e' Hr _ IH]; intros c Hc Hroom.
  1,2: exists 1%nat; intros [|k] Hk; [lia|]; cbn [drain]; rewrite Hc, Hr; unfold moved_on; cbn; rewrite !app_nil_r, <-Hroom; done.
  destruct (IH {| ctx := e1; out := out c ++ [Data p]; room := None; submitted := submitted c |}) as (k0 & Hk0); [done..|]. exists (S k0).
  intros [|k] Hk; [lia|]. cbn [drain]. rewrite Hc, Hr. unfold send_to_mux. cbn [set_ctx room ctx out submitted]. rewrite Hroom, Hk0 by lia.
  unfold moved_on. cbn. by rewrite <-app_assoc.
Qed.

End Codec.

Section Encoding.
  Context `{Lib : AvEnc} `{Prof : Profile}.

(** ** The loop *)

  Context (params : EncParams) (no_recording_time : recording_time params = None) (no_max_frames : max_frames params = None).

Local Abbreviation receive := (receive_frame (open_codec params) (cpu_max_align params) None).

(** The frames that the receipts give the codec, up to the null frame. *)
Inductive yields : EncState -> list FrameReceipt -> list Frame -> Prop :=
| yields_continue st l st' l' os : receive st l = Ret (SContinue st', l') -> yields st' l' os -> yields st l os
| yields_frame st l f st' l' os : receive st l = Ret (FrameBox (Some f) st', l') -> yields st' l' os -> yields st l (f :: os)
| yields_null st l st' l' : receive st l = Ret (FrameBox None st', l') -> yields st l [].

(** The loop drives the codec over them. *)
Lemma loop_spec st l os :
  yields st l os -> forall c ps e', encoded params (ctx c) os ps e' -> room c = None ->
  exists K N l', forall packets fuel, (K <= packets)%nat -> (N <= fuel)%nat -> enc_loop params packets fuel st c l =
    Ret {| end_codec := moved_on e' ps ((Some <$> os) ++ [None]) c; finished := true; enc_errors := []; receipts := l' |}.
Proof.
  induction 1 as [st l st' l' os Hr _ IH|st l f st' l' os Hr _ IH|st l st' l' Hr]; intros c ps e' He Hroom.
  - destruct (IH c ps e' He Hroom) as (K & N & l2 & H). exists K, (S N), l2. intros packets [|fuel] HK HN; [lia|]. cbn [enc_loop]. rewrite Hr.
    cbn [mbind outcome_bind]. apply H; lia.
  - inversion He as [|? ? ret e1 ps1 e2 ? ps2 ? Hch Hs Hret Hg He2]; subst. destruct (drain_spec _ _ _ _ Hg (submit (Some f) e1 c)) as (k0 & Hd); [done..|].
    destruct (IH (moved_on e2 ps1 [Some f] c) ps2 e') as (K & N & l2 & H); [done..|]. exists (Nat.max k0 K), (S N), l2. intros packets [|fuel] HK HN; [lia|].
    cbn [enc_loop]. rewrite Hr. cbn [mbind outcome_bind]. unfold frame_encode. rewrite no_recording_time.
    assert (negb (is_video params) && negb (param_change (ctx c)) && negb (enc_channels (ctx c) =? channels f) = false) as ->.
    { destruct Hch as [->|[->| ->]]; [done|by rewrite andb_false_r|by rewrite Z.eqb_refl, andb_false_r]. }
    unfold encode_frame. rewrite Hs, (proj2 (Z.ltb_ge ret 0)) by done. cbn [andb]. rewrite Hd by lia. cbn [mbind outcome_bind]. rewrite no_max_frames.
    assert (moved_on e2 ps1 [] (submit (Some f) e1 c) = moved_on e2 ps1 [Some f] c) as -> by (unfold moved_on; cbn; by rewrite app_nil_r).
    rewrite H by lia. f_equal. f_equal. unfold moved_on. cbn. by rewrite fmap_app, <-!app_assoc.
  - inversion He as [? ret e1 ? ? Hs Hret Hg|]; subst. destruct (drain_spec _ _ _ _ Hg (submit None e1 c)) as (k0 & Hd); [done..|].
    exists k0, 1%nat, l'. intros packets [|fuel] HK HN; [lia|]. cbn [enc_loop]. rewrite Hr. cbn [mbind outcome_bind frame_encode]. unfold encode_frame. rewrite Hs.
    rewrite bool_decide_eq_true_2 by done. rewrite andb_true_r. assert ((ret <? 0) && negb (ret =? AVERROR_EOF) = false) as ->.
    { destruct Hret as [Hret| ->]; [by rewrite (proj2 (Z.ltb_ge ret 0) Hret)|done]. }
    rewrite Hd by lia. cbn [mbind outcome_bind]. rewrite no_max_frames. f_equal. f_equal. unfold moved_on. cbn. by rewrite app_nil_r.
Qed.

(** ** Audio *)

(** Frames of [n] samples, except the last one, which may be shorter. *)
Fixpoint pieces (n : nat) (os : list Frame) : Prop :=
  match os with
  | [] => True
  | [f] => (0 < length (samples f) <= n)%nat
  | f :: os => length (samples f) = n /\ pieces n os
  end.

Lemma pieces_cons n f os :
  (0 < n)%nat -> pieces n os -> (length (samples f) = n \/ ((0 < length (samples f) <= n)%nat /\ content os = [])) -> pieces n (f :: os).
Proof.
  intros Hn Hos [Hf|[Hf Hc]]; [destruct os; cbn; [lia|done]|].
  destruct os as [|g os]; [done|]. rewrite content_cons in Hc. apply app_nil in Hc as [Hg _].
  destruct os; cbn in Hos; rewrite Hg in Hos; cbn in Hos; lia.
Qed.

  Context (no_checks : overflow_checks = false) (n : nat) (ch : Z).

(** All the samples [rest] are given to the codec, in pieces. *)
Definition samples_cut (st : EncState) (l : list FrameReceipt) (rest : list Sample) : Prop :=
  exists os, yields st l os /\ content os = rest /\ pieces n os /\ Forall (fun f => channels f = ch) os.

Lemma samples_cut_cons st l f st' l' rest :
  (0 < n)%nat -> receive st l = Ret (FrameBox (Some f) st', l') -> channels f = ch ->
  (length (samples f) = n \/ ((0 < length (samples f) <= n)%nat /\ rest = [])) -> samples_cut st' l' rest -> samples_cut st l (samples f ++ rest)%list.
Proof.
  intros Hn Hr Hch Hf (os & Hy & <- & Hp & Hos). exists (f :: os). split_and!; [by eapply yields_frame|done|by apply pieces_cons|by constructor].
Qed.

Local Abbreviation queue_ok := (queue_ok ch n).

(** Behind the null frame the task cuts frames until no samples are left. *)
Lemma flush_cuts fs st st0 l0 :
  queue_ok fs [None] st -> is_finished st = true ->
  receive st0 l0 = (p ← process_audio_queue None st; Ret (of_processed p, [])) -> samples_cut st0 l0 (content fs).
Proof.
  remember (length (content fs)) as m eqn:Hm. revert fs Hm st st0 l0.
  induction m as [m IH] using lt_wf_ind. intros fs -> st st0 l0 Hok Hfin Hr.
  pose proof (q_positive _ _ _ _ _ Hok) as Hn.
  destruct (finishing_spec no_checks _ _ _ _ Hok Hfin) as (p & Hp & [(-> & st' & ->)|(f & st' & -> & Hsz & Hch & fs' & Hs & Hfs' & Hok' & Hf')]);
    rewrite Hp in Hr; cbn [mbind outcome_bind of_processed] in Hr.
  - exists []. by split_and!; [eapply yields_null| | |].
  - assert (is_finished st' = true) as Hfin' by by rewrite Hf'.
    assert (receive st' [] = (p ← process_audio_queue None st'; Ret (of_processed p, []))) as Hr'.
    { unfold receive_frame at 1. rewrite (q_opened _ _ _ _ _ Hok'), (q_samples _ _ _ _ _ Hok'), (proj2 (Z.ltb_lt 0 _)) by lia. cbn [andb].
      destruct (finishing_spec no_checks _ _ _ _ Hok' Hfin') as (p & -> & [(_ & ? & ->)|(? & ? & -> & _)]); done. }
    pose proof (IH (length (content fs')) ltac:(rewrite Hfs', length_drop; lia) fs' eq_refl st' st' [] Hok' Hfin' Hr') as H.
    rewrite <-(take_drop (next_size n fs st) (content fs)), <-Hs, <-Hfs'. eapply samples_cut_cons; [done|exact Hr|done| |exact H].
    rewrite Hs, Hfs', length_take, Nat.min_l by lia. destruct (decide (next_size n fs st = n)) as [->|Hne]; [by left|right]. unfold next_size in *.
    rewrite Hfin in *. split; [lia|]. apply drop_ge. lia.
Qed.

(** While there are enough samples, the task cuts frames without looking at the
    channel. *)
Lemma receive_cuts fs st l :
  queue_ok fs [] st -> is_finished st = false -> (n <= length (content fs))%nat ->
  exists f st', receive st l = Ret (FrameBox (Some f) st', l) /\ cut (ch) n n fs [] st f st'.
Proof.
  intros Hok Hfin Hle. pose proof (q_positive _ _ _ _ _ Hok) as Hn.
  destruct (process_spec no_checks _ _ _ _ _ Hok) as (f & st' & Hp & Hcut); [unfold next_size; rewrite Hfin; lia|].
  unfold next_size in Hcut. rewrite Hfin in Hcut. exists f, st'. split; [|done]. unfold receive_frame.
  rewrite (q_opened _ _ _ _ _ Hok), (q_samples _ _ _ _ _ Hok), (proj2 (Z.ltb_lt 0 _)) by lia. cbn [andb]. by rewrite Hp.
Qed.

Lemma receive_waits fs st l f :
  queue_ok fs [] st -> is_finished st = false -> (length (content fs) < n)%nat ->
  receive st (FrameIn f :: l) = (s ← accept_frame None f st; Ret (s, l)).
Proof.
  intros Hok Hfin Hlt. pose proof (process_waits _ _ _ _ Hok Hfin Hlt) as Hp. pose proof (q_positive _ _ _ _ _ Hok) as Hn. unfold receive_frame.
  rewrite (q_opened _ _ _ _ _ Hok), (q_samples _ _ _ _ _ Hok), (proj2 (Z.ltb_lt 0 _)) by lia.
  cbn [andb]. rewrite Hp. cbn [mbind outcome_bind]. by rewrite (q_opened _ _ _ _ _ Hok).
Qed.

Lemma audio_queue_is_cut gs fs st :
  queue_ok fs [] st -> is_finished st = false -> Forall (good_frame ch) gs ->
  Z.of_nat (length (content (fs ++ gs)%list)) < 2 ^ 31 -> samples_cut st (receipts_of gs) (content (fs ++ gs)%list).
Proof.
  remember (length (content (fs ++ gs)%list) + length gs)%nat as m eqn:Hm. revert gs fs Hm st.
  induction m as [m IH] using lt_wf_ind. intros gs fs -> st Hok Hfin Hgs Hsm.
  pose proof (q_positive _ _ _ _ _ Hok) as Hn.
  assert (forall gs1 all st1 f st' l, receive st l = Ret (FrameBox (Some f) st', receipts_of gs1) -> cut ch n n all [] st1 f st' ->
    is_finished st1 = false -> (n <= length (content all))%nat -> Forall (good_frame ch) gs1 -> content (all ++ gs1)%list = content (fs ++ gs)%list ->
    (length gs1 <= length gs)%nat -> samples_cut st l (content (fs ++ gs)%list)) as Hcut.
  { intros gs1 all st1 f st' l Hr (Hch & fs' & Hs & Hfs' & Hok' & Hf') Hfin1 Hle Hgs1 Heq Hlen. rewrite <-Heq, content_app, <-(take_drop n (content all)), <-app_assoc, <-Hs, <-Hfs', <-content_app.
    assert (length (content (fs' ++ gs1)%list) + n = length (content (fs ++ gs)%list))%nat as Hsize.
    { rewrite <-Heq, !content_app, !length_app, Hfs', length_drop. lia. }
    eapply samples_cut_cons; [done|exact Hr|done|left; rewrite Hs, length_take; lia|].
    apply (IH (length (content (fs' ++ gs1)%list) + length gs1)%nat ltac:(lia) gs1 fs' eq_refl); [done|by rewrite Hf'|done|lia]. }
  destruct (decide (n <= length (content fs))%nat) as [Hle|Hlt%Nat.nle_gt].
  { destruct (receive_cuts fs st (receipts_of gs) Hok Hfin Hle) as (f & st' & Hr & Hst). by eapply (Hcut gs fs st). }
  destruct gs as [|g gs].
  - destruct (accept_null _ _ _ _ Hok) as [Ha Hok']. rewrite app_nil_r. eapply flush_cuts; [exact Hok'|done|].
    cbn [receipts_of fmap list_fmap app]. rewrite (receive_waits fs) by done. rewrite Ha. by destruct (process_audio_queue None _).
  - apply Forall_cons_1 in Hgs as [Hg Hgs].
    assert (content (fs ++ g :: gs)%list = content ((fs ++ [set_duration g]) ++ gs)%list) as Heq.
    { rewrite <-app_assoc. cbn [app]. by rewrite !content_app, !content_cons. }
    destruct (accept_frame_spec no_checks _ _ _ _ _ Hok Hlt Hg) as (s & Ha & Hcase).
    { rewrite !content_app, !content_cons, !length_app in *. cbn [content fmap list_fmap concat length]. lia. }
    assert (receive st (receipts_of (g :: gs)) = Ret (s, receipts_of gs)) as Hr.
    { cbn [receipts_of fmap list_fmap app]. rewrite (receive_waits fs) by done. by rewrite Ha. }
    destruct Hcase as [(st' & -> & Hok' & Hfin')|(f & st1 & st' & -> & Hst & Hfin1 & Hle)].
    + rewrite Heq in *. destruct (IH (length (content ((fs ++ [set_duration g]) ++ gs)%list) + length gs)%nat ltac:(cbn [length]; lia) gs _ eq_refl st') as (os & Hy & Hos); [done..|].
      exists os. split; [by eapply yields_continue|done].
    + eapply (Hcut gs (fs ++ [set_duration g])%list st1); try done; [|cbn; lia]. by rewrite content_app in *.
Qed.

(** ** Video *)

(** A frame that is not cut is submitted as it is. *)
Lemma receive_video st l f :
  opened st = true -> frame_samples st = 0 ->
  exists st', receive st (FrameIn f :: l) = Ret (FrameBox f st', l) /\ opened st' = true /\ frame_samples st' = 0.
Proof.
  intros Ho Hn. unfold receive_frame, accept_frame. rewrite Ho, Hn. change (0 <? 0) with false. cbn [andb mbind outcome_bind].
  rewrite ?Ho, ?Hn. change (0 <? 0) with false. cbv iota.
  destruct (i64_add_returns no_checks (frames_sent st) 1) as [m ->]. cbn [mbind outcome_bind]. eexists. split; [reflexivity|]. done.
Qed.

Lemma video_yields gs st : opened st = true -> frame_samples st = 0 -> yields st (receipts_of gs) gs.
Proof.
  revert st. induction gs as [|g gs IH]; intros st Ho Hn; cbn [receipts_of fmap list_fmap app].
  - destruct (receive_video st [] None Ho Hn) as (st' & Hr & _). by eapply yields_null.
  - destruct (receive_video st (receipts_of gs) (Some g) Ho Hn) as (st' & Hr & Ho' & Hn'). eapply yields_frame; [exact Hr|]. by apply IH.
Qed.

(** ** The task *)

Definition opened_state (size : option Z) : EncState :=
  match size with Some m => set_opened m (cpu_max_align params - 1) enc_state_new | None => set_opened 0 0 enc_state_new end.

(** The first frame opens the codec. *)
Lemma receive_opens g l size :
  open_codec params g = Ok size -> receive enc_state_new (FrameIn (Some g) :: l) = receive (opened_state size) (FrameIn (Some g) :: l).
Proof.
  intros Ho. unfold receive_frame at 1. cbn [enc_state_new opened andb mbind outcome_bind]. rewrite Ho. unfold receive_frame, opened_state.
  destruct size as [m|]; cbn [set_opened opened frame_samples andb].
  - destruct (0 <? m); [|done]. done.
  - done.
Qed.

Lemma yields_opened g l size os :
  open_codec params g = Ok size -> yields (opened_state size) (FrameIn (Some g) :: l) os -> yields enc_state_new (FrameIn (Some g) :: l) os.
Proof.
  intros Ho Hy. pose proof (receive_opens g l size Ho) as Hr.
  inversion Hy as [? ? st' l' ? H Hy'|? ? f st' l' ? H Hy'|? ? st' l' H]; subst; rewrite <-Hr in H; [by eapply yields_continue|by eapply yields_frame|by eapply yields_null].
Qed.

(** What the task sends of the frames [os] when the codec makes [ps] of them. *)
Lemma task_encodes l os e ps e' status :
  yields enc_state_new l os -> encoded params e os ps e' ->
  exists K N c, (forall packets fuel, (K <= packets)%nat -> (N <= fuel)%nat -> enc_task params packets fuel status (codec_state_new e) l = Ret (c, [])) /\
    submitted c = ((Some <$> os) ++ [None])%list /\ out c = ((Data <$> ps) ++ [EndPacket])%list /\ ctx c = e'.
Proof.
  intros Hy He. destruct (loop_spec _ _ _ Hy (codec_state_new e) ps e' He eq_refl) as (K & N & l' & H). exists K, N. eexists. split.
  - intros packets fuel HK HN. unfold enc_task. rewrite (H packets fuel HK HN). cbn [mbind outcome_bind]. unfold enc_finish. cbn [finished negb andb mbind outcome_bind].
    unfold send_to_mux. reflexivity.
  - done.
Qed.

End Encoding.


(** The same for video, whose frames are not cut. *)
Theorem video_frames_are_encoded `{Lib : AvEnc} `{Prof : Profile} params e ps e' g gs status :
  overflow_checks = false -> recording_time params = None -> max_frames params = None -> open_codec params g = Ok None -> encoded params e (g :: gs) ps e' ->
  exists K N c, (forall packets fuel, (K <= packets)%nat -> (N <= fuel)%nat ->
      enc_task params packets fuel status (codec_state_new e) (receipts_of (g :: gs)) = Ret (c, [])) /\
    submitted c = ((Some <$> g :: gs) ++ [None])%list /\ out c = ((Data <$> ps) ++ [EndPacket])%list /\ ctx c = e'.
Proof.
  intros Hov Hrt Hmf Ho He. apply task_encodes; [done|done| |done]. apply (yields_opened params g (receipts_of gs) None); [done|].
  change (FrameIn (Some g) :: receipts_of gs) with (receipts_of (g :: gs)). by apply video_yields.
Qed.

(** ** A codec that holds a frame back *)

(** The frames whose packets were given, the ones it holds, and whether it flushes.  A
    packet is the samples of its frame. *)
Record Held := { gone : list Frame; held : list Frame; flushes : bool }.

Definition one_behind (e : Held) : (Z + list Sample) * Held :=
  match held e with
  | f :: (_ :: _) as q => (inr (samples f), {| gone := gone e ++ [f]; held := q; flushes := flushes e |})
  | [f] => if flushes e then (inr (samples f), {| gone := gone e ++ [f]; held := []; flushes := true |}) else (inl AVERROR_AGAIN, e)
  | [] => (inl (if flushes e then AVERROR_EOF else AVERROR_AGAIN), e)
  end.

#[export] Instance delaying : AvEnc := {|
  new_buffer := fun n => (4096, n * 2);
  enc_rescale_q := fun x _ _ => x;
  av_compare_ts := fun a _ b _ => a - b;
  Enc := Held;
  Pkt := list Sample;
  enc_channels := fun _ => 1;
  param_change := fun _ => false;
  avcodec_send_frame := fun e f =>
    (0, match f with
        | Some f => {| gone := gone e; held := held e ++ [f]; flushes := flushes e |}
        | None => {| gone := gone e; held := held e; flushes := true |}
        end);
  avcodec_receive_packet := one_behind
|}.

(** Frames of 16-bit samples in one channel. *)
Definition audio (l : list Z) : Frame :=
  {| samples := (fun x => [x]) <$> l; data_ptr := 64; linesize := Z.of_nat (length l) * 2; planar := false; bytes_per_sample := 2; channels := 1; rate := 8;
     frame_time_base := {| num := 1; den := 8 |}; frame_pts := 0; frame_duration := Z.of_nat (length l) |}.

Definition video (p : Z) : Frame :=
  {| samples := [[p]]; data_ptr := 0; linesize := 1; planar := true; bytes_per_sample := 1; channels := 0; rate := 1; frame_time_base := {| num := 1; den := 25 |};
     frame_pts := p; frame_duration := 1 |}.

Definition audio_params : EncParams :=
  {| is_video := false; recording_time := None; max_frames := None; open_codec := fun _ => Ok (Some 4); cpu_max_align := 32 |}.

Definition video_params (t m : option Z) : EncParams :=
  {| is_video := true; recording_time := t; max_frames := m; open_codec := fun _ => Ok None; cpu_max_align := 32 |}.

Definition release_profile : Profile := {| overflow_checks := false; debug_assertions := false |}.

Definition new_encoder : Held := {| gone := []; held := []; flushes := false |}.

(** What goes to the muxer, and the errors of the task. *)
Definition sent_of (params : EncParams) (gs : list Frame) : option (list (Output_ (Lib := delaying)) * list Error) :=
  match enc_task (Prof := release_profile) params 20 20 STATUS_RUN (codec_state_new (Lib := delaying) new_encoder) (receipts_of gs) with
  | Ret (c, errs) => Some (out c, errs)
  | _ => None
  end.

Example audio_is_cut :
  sent_of audio_params [audio [1; 2; 3]; audio [4; 5]; audio [6; 7; 8; 9; 10]] =
  Some ([Data [[1]; [2]; [3]; [4]]; Data [[5]; [6]; [7]; [8]]; Data [[9]; [10]]; EndPacket], []).
Proof. by vm_compute. Qed.

Example video_is_not_cut : sent_of (video_params None None) [video 0; video 1; video 2] = Some ([Data [[0]]; Data [[1]]; Data [[2]]; EndPacket], []).
Proof. by vm_compute. Qed.

(** The task counts as finished when it reaches a limit, and the codec is not flushed:
    the packets that it holds back are lost. *)
Example limits_lose_delayed_frames :
  sent_of (video_params None (Some 2)) [video 0; video 1; video 2] = Some ([Data [[0]]; EndPacket], []) /\
  sent_of (video_params (Some 2) None) [video 0; video 1; video 2] = Some ([Data [[0]]; EndPacket], []).
Proof. by vm_compute. Qed.

(** A task whose channel is gone flushes the codec. *)
Example a_lost_channel_flushes :
  match enc_task (Prof := release_profile) (video_params None None) 20 20 STATUS_RUN (codec_state_new (Lib := delaying) new_encoder)
          [FrameIn (Some (video 0)); FrameIn (Some (video 1)); FrameDisconnected] with
  | Ret (c, errs) => out c = [Data [[0]]; Data [[1]]; EndPacket] /\ errs = []
  | _ => False
  end.
Proof. by vm_compute. Qed.

(** Audio that still waits in the queue is not part of that flush. *)
Example a_lost_channel_loses_queued_audio :
  match enc_task (Prof := release_profile) audio_params 20 20 STATUS_RUN (codec_state_new (Lib := delaying) new_encoder)
          [FrameIn (Some (audio [1; 2; 3; 4; 5; 6])); FrameDisconnected] with
  | Ret (c, errs) => out c = [Data [[1]; [2]; [3]; [4]]; EndPacket] /\ errs = []
  | _ => False
  end.
Proof. by vm_compute. Qed.

(** ** Witnesses *)

(** The codec that holds a frame back makes a packet of every frame. *)
Lemma delaying_encodes params os (e : Held) :
  flushes e = false -> (length (held e) <= 1)%nat -> Forall (fun f => is_video params = true \/ channels f = 1) os ->
  exists e', encoded (Lib := delaying) params e os (samples <$> (held e ++ os)%list : list (Pkt (AvEnc := delaying))) e'.
Proof.
  revert e. induction os as [|f os IH]; intros [d h fl] Hfl Hh Hos; cbn [flushes held] in *; subst fl.
  - rewrite app_nil_r. destruct h as [|x [|y h]]; cbn [length] in Hh; [| |lia]; eexists.
    + eapply (encoded_end (Lib := delaying)); [reflexivity|left; lia|]. by apply (gives_eof (Lib := delaying)).
    + eapply (encoded_end (Lib := delaying)); [reflexivity|left; lia|]. eapply (gives_packet (Lib := delaying)); [reflexivity|]. by apply (gives_eof (Lib := delaying)).
  - apply Forall_cons_1 in Hos as [Hf Hos].
    assert (forall d', exists e', encoded (Lib := delaying) params {| gone := d'; held := [f]; flushes := false |} os (samples <$> ([f] ++ os)%list : list (Pkt (AvEnc := delaying))) e') as Hrest.
    { intros d'. apply (IH {| gone := d'; held := [f]; flushes := false |}); [done|cbn; lia|done]. }
    destruct h as [|x [|y h]]; cbn [length] in Hh; [| |lia].
    + destruct (Hrest d) as [e' He']. exists e'. change (samples <$> ([] ++ f :: os)%list) with ([] ++ (samples <$> ([f] ++ os)%list))%list.
      eapply (encoded_frame (Lib := delaying)); [|reflexivity|lia|by apply (gives_again (Lib := delaying))|exact He']. destruct Hf; [by left|by right; right].
    + destruct (Hrest (d ++ [x])%list) as [e' He']. exists e'. change (samples <$> ([x] ++ f :: os)%list) with ([samples x] ++ (samples <$> ([f] ++ os)%list))%list.
      eapply (encoded_frame (Lib := delaying)); [|reflexivity|lia| |exact He']; [destruct Hf; [by left|by right; right]|].
      eapply (gives_packet (Lib := delaying)); [reflexivity|]. by apply (gives_again (Lib := delaying)).
Qed.


Lemma video_frames_are_encoded_witness :
  exists K N c, (forall packets fuel, (K <= packets)%nat -> (N <= fuel)%nat ->
      enc_task (Lib := delaying) (Prof := release_profile) (video_params None None) packets fuel STATUS_RUN (codec_state_new (Lib := delaying) new_encoder)
        (receipts_of [video 0; video 1]) = Ret (c, [])) /\
    submitted c = [Some (video 0); Some (video 1); None] /\ out c = [Data (Lib := delaying) ([[0]] : Pkt (AvEnc := delaying)); Data (Lib := delaying) ([[1]] : Pkt (AvEnc := delaying)); EndPacket].
Proof.
  destruct (delaying_encodes (video_params None None) [video 0; video 1] new_encoder) as [e' Henc]; [done|cbn; lia|by repeat (constructor; [by left|])|].
  destruct (@video_frames_are_encoded delaying release_profile (video_params None None) new_encoder (samples <$> [video 0; video 1] : list (Pkt (AvEnc := delaying))) e' (video 0) [video 1] STATUS_RUN) as (K & N & c & H & Hs & Ho & _);
    [reflexivity|reflexivity|reflexivity|reflexivity|exact Henc|]. exists K, N, c. split; [exact H|]. split; [exact Hs|exact Ho].
Defined.
