(* ===== verification/DemuxTimes.v ===== *)
(** * Timestamps of an input ([ez-ffmpeg/src/core/scheduler/demux_task.rs])

    What the demuxing task does to the times of a packet that was read: wrapped
    timestamps, the offset of the input, loops, discontinuities, and the prediction of
    the next decoding time of each stream. *)

From stdpp Require Import base list option.
From Stdlib Require Import ZArith Lia.
From S2P Require Import Choke.
From S2P Require Import Prelude RustInt Float64 StreamSpec Muxer Rescale MuxTask.

Local Open Scope Z_scope.
Local Open Scope rust_scope.

Definition AV_TIME_BASE : Z := 1000000.

(** What the task reads of an [AVStream] and its [codecpar]. *)
Record InStream := {
  st_time_base : AVRational;
  pts_wrap_bits : Z;
  avg_frame_rate : AVRational;
  st_type : AVMediaType;
  video_delay : Z;
  st_sample_rate : Z;
  st_frame_size : Z;
  st_framerate : AVRational;
  fields_codec : bool;        (* AV_CODEC_PROP_FIELDS of the codec's descriptor *)
  parser_repeat : option Z    (* repeat_pict of the stream's parser *)
}.

(** The input: its streams, and AVFMT_TS_DISCONT of its format. *)
Record InFormat := { in_streams : list InStream; ts_discont : bool }.

(** [av_compare_ts] and the arithmetic of fractions. *)
Class AvDemux `{Lib : AvMux} := {
  compare_ts : Z -> AVRational -> Z -> AVRational -> Z;
  av_inv_q : AVRational -> AVRational;
  av_mul_q : AVRational -> AVRational -> AVRational
}.

Record Timestamp := { ts : Z; tb : AVRational }.

Definition Timestamp_default : Timestamp := {| ts := AV_NOPTS_VALUE; tb := {| num := 1; den := 1 |} |}.

(** [1 << n] for an [i64], and for a [u64] that becomes an [i64]. *)
Definition one_shl `{Profile} (n : Z) : outcome Z :=
  let cast x := if x =? 2 ^ 63 then - 2 ^ 63 else x in
  if (0 <=? n) && (n <? 64) then Ret (cast (2 ^ n)) else if overflow_checks then Panic else Ret (cast (2 ^ (n mod 64))).

Definition i64_abs `{Profile} (x : Z) : outcome Z := signed 64 (Z.abs x).

Section Times.
  Context `{Lib : AvDemux} `{Prof : Profile}.

Record DemuxStreamParamter := {
  dp_type : AVMediaType;
  dp_index : nat;
  dp_codecpar : Codecpar;
  wrap_correction_done : bool;
  saw_first_ts : bool;
  first_dts : Z;
  next_dts : Z;
  dp_dts : Z
}.

Definition set_wrap (b : bool) (ds : DemuxStreamParamter) : DemuxStreamParamter :=
  {| dp_type := dp_type ds; dp_index := dp_index ds; dp_codecpar := dp_codecpar ds; wrap_correction_done := b; saw_first_ts := saw_first_ts ds;
     first_dts := first_dts ds; next_dts := next_dts ds; dp_dts := dp_dts ds |}.

Definition set_dts (saw : bool) (first next d : Z) (ds : DemuxStreamParamter) : DemuxStreamParamter :=
  {| dp_type := dp_type ds; dp_index := dp_index ds; dp_codecpar := dp_codecpar ds; wrap_correction_done := wrap_correction_done ds; saw_first_ts := saw;
     first_dts := first; next_dts := next; dp_dts := d |}.

(** The fields that the timestamps need. *)
Record DemuxTimes := {
  have_audio_dec : bool;
  ts_offset_discont : Z;
  last_ts : Z;
  effective_start : Z;
  in_ts_offset : Z;
  end_pts : Timestamp;
  duration : Timestamp;
  min_pts : Timestamp;
  max_pts : Timestamp;
  demux_streams : list DemuxStreamParamter
}.

Definition set_discont (offset last : Z) (t : DemuxTimes) : DemuxTimes :=
  {| have_audio_dec := have_audio_dec t; ts_offset_discont := offset; last_ts := last; effective_start := effective_start t; in_ts_offset := in_ts_offset t;
     end_pts := end_pts t; duration := duration t; min_pts := min_pts t; max_pts := max_pts t; demux_streams := demux_streams t |}.

Definition set_bounds (e d mn mx : Timestamp) (t : DemuxTimes) : DemuxTimes :=
  {| have_audio_dec := have_audio_dec t; ts_offset_discont := ts_offset_discont t; last_ts := last_ts t; effective_start := effective_start t;
     in_ts_offset := in_ts_offset t; end_pts := e; duration := d; min_pts := mn; max_pts := mx; demux_streams := demux_streams t |}.

Definition set_stream (i : nat) (ds : DemuxStreamParamter) (t : DemuxTimes) : DemuxTimes :=
  {| have_audio_dec := have_audio_dec t; ts_offset_discont := ts_offset_discont t; last_ts := last_ts t; effective_start := effective_start t;
     in_ts_offset := in_ts_offset t; end_pts := end_pts t; duration := duration t; min_pts := min_pts t; max_pts := max_pts t;
     demux_streams := <[i := ds]> (demux_streams t) |}.

(** ** One packet *)

(** [if t != AV_NOPTS_VALUE { t += x }] *)
Definition shift (x t : Z) : outcome Z := if t =? AV_NOPTS_VALUE then Ret t else i64_add t x.

Definition set_pts_dts (p d : Z) (pkt : Packet) : Packet := set_times p d (pkt_duration pkt) pkt.

(** A timestamp that is more than half the range behind the start has wrapped. *)
Definition unwrap_time (stime stime2 bits t : Z) : outcome (Z * bool) :=
  if (stime <? stime2) && negb (t =? AV_NOPTS_VALUE) then
    half ← one_shl (bits - 1);
    limit ← i64_add stime half;
    if limit <? t then range ← one_shl bits; t ← i64_sub t range; Ret (t, true) else Ret (t, false)
  else Ret (t, false).

Definition correct_wrap (start_time : Z) (ist : InStream) (ds : DemuxStreamParamter) (pkt : Packet) : outcome (DemuxStreamParamter * Packet) :=
  if negb (wrap_correction_done ds) && negb (start_time =? AV_NOPTS_VALUE) && (pts_wrap_bits ist <? 64) then
    let stime := rescale_q start_time AV_TIME_BASE_Q (pkt_time_base pkt) in
    range ← one_shl (pts_wrap_bits ist);
    stime2 ← i64_add stime range;
    '(d, wrapped_dts) ← unwrap_time stime stime2 (pts_wrap_bits ist) (dts pkt);
    '(p, wrapped_pts) ← unwrap_time stime stime2 (pts_wrap_bits ist) (pts pkt);
    Ret (set_wrap (negb (wrapped_dts || wrapped_pts)) ds, set_pts_dts p d pkt)
  else Ret (ds, pkt).

(** The difference to the expected time is taken out of the packet. *)
Definition take_out (delta : Z) (pkt : Packet) : outcome Packet :=
  let x := rescale_q delta AV_TIME_BASE_Q (pkt_time_base pkt) in
  d ← i64_sub (dts pkt) x;
  p ← (if pts pkt =? AV_NOPTS_VALUE then Ret (pts pkt) else i64_sub (pts pkt) x);
  Ret (set_pts_dts p d pkt).

Definition DTS_DELTA_THRESHOLD : Z := 10.
Definition DTS_ERROR_THRESHOLD : Z := 108000.

Definition to_time_base (t : Z) (pkt : Packet) : outcome Z :=
  av_rescale_q_rnd t (num (pkt_time_base pkt), den (pkt_time_base pkt)) (1, AV_TIME_BASE) AV_ROUND_NEAR_INF.

(** With [copy_ts] nothing is corrected, unless a wrap explains the jump. *)
Definition correction_disabled (fmt : InFormat) (ist : InStream) (next pkt_dts : Z) (pkt : Packet) (copy_ts : bool) : outcome bool :=
  if copy_ts && negb (next =? AV_NOPTS_VALUE) && ts_discont fmt && (pts_wrap_bits ist <? 60) then
    range ← one_shl (pts_wrap_bits ist);
    wrapped ← i64_add (dts pkt) range;
    wrap_dts ← to_time_base wrapped pkt;
    x ← i64_sub wrap_dts next; x ← i64_abs x;
    y ← i64_sub pkt_dts next; y ← i64_abs y;
    Ret (copy_ts && negb (x <? Z.quot y 10))
  else Ret copy_ts.

(** A format with discontinuities: the jump becomes part of the offset. *)
Definition correct_jump (delta pkt_dts : Z) (ds : DemuxStreamParamter) (pkt : Packet) (t : DemuxTimes) : outcome (DemuxTimes * Packet) :=
  a ← i64_abs delta;
  jump ← (if DTS_DELTA_THRESHOLD * AV_TIME_BASE <? a then Ret true else x ← i64_add pkt_dts (Z.quot AV_TIME_BASE 10); Ret (x <? dp_dts ds));
  if jump : bool then
    offset ← i64_sub (ts_offset_discont t) delta;
    pkt ← take_out delta pkt;
    Ret (set_discont offset (last_ts t) t, pkt)
  else Ret (t, pkt).

(** Other formats: times that are far off are dropped. *)
Definition drop_times (delta next : Z) (pkt : Packet) : outcome Packet :=
  a ← i64_abs delta;
  let pkt := if DTS_ERROR_THRESHOLD * AV_TIME_BASE <? a then set_pts_dts (pts pkt) AV_NOPTS_VALUE pkt else pkt in
  if pts pkt =? AV_NOPTS_VALUE then Ret pkt
  else
    delta ← i64_sub (rescale_q (pts pkt) (pkt_time_base pkt) AV_TIME_BASE_Q) next;
    a ← i64_abs delta;
    Ret (if DTS_ERROR_THRESHOLD * AV_TIME_BASE <? a then set_pts_dts AV_NOPTS_VALUE (dts pkt) pkt else pkt).

(** The first packet of a stream is compared with the last packet of any stream. *)
Definition correct_first (delta : Z) (pkt : Packet) (t : DemuxTimes) : outcome (DemuxTimes * Packet) :=
  a ← i64_abs delta;
  if DTS_DELTA_THRESHOLD * AV_TIME_BASE <? a then
    offset ← i64_sub (ts_offset_discont t) delta;
    pkt ← take_out delta pkt;
    Ret (set_discont offset (last_ts t) t, pkt)
  else Ret (t, pkt).

Definition ts_discontinuity_detect (fmt : InFormat) (ist : InStream) (ds : DemuxStreamParamter) (copy_ts : bool) (pkt : Packet) (t : DemuxTimes)
    : outcome (DemuxTimes * Packet) :=
  pkt_dts ← to_time_base (dts pkt) pkt;
  disabled ← correction_disabled fmt ist (next_dts ds) pkt_dts pkt copy_ts;
  '(t, pkt) ←
    (if negb (next_dts ds =? AV_NOPTS_VALUE) && negb disabled then
       delta ← i64_sub pkt_dts (next_dts ds);
       if ts_discont fmt then correct_jump delta pkt_dts ds pkt t else pkt ← drop_times delta (next_dts ds) pkt; Ret (t, pkt)
     else if (next_dts ds =? AV_NOPTS_VALUE) && negb copy_ts && ts_discont fmt && negb (last_ts t =? AV_NOPTS_VALUE) then
       delta ← i64_sub pkt_dts (last_ts t); correct_first delta pkt t
     else Ret (t, pkt));
  Ret (set_discont (ts_offset_discont t) (rescale_q (dts pkt) (pkt_time_base pkt) AV_TIME_BASE_Q) t, pkt).

Definition ts_discontinuity_process (fmt : InFormat) (ist : InStream) (ds : DemuxStreamParamter) (copy_ts : bool) (pkt : Packet) (t : DemuxTimes)
    : outcome (DemuxTimes * Packet) :=
  let offset := rescale_q (ts_offset_discont t) AV_TIME_BASE_Q (pkt_time_base pkt) in
  d ← shift offset (dts pkt);
  p ← shift offset (pts pkt);
  let pkt := set_pts_dts p d pkt in
  if (bool_decide (st_type ist = AVMEDIA_TYPE_VIDEO) || bool_decide (st_type ist = AVMEDIA_TYPE_AUDIO)) && negb (dts pkt =? AV_NOPTS_VALUE)
  then ts_discontinuity_detect fmt ist ds copy_ts pkt t
  else Ret (t, pkt).

(** ** The expected times of a stream *)

(** [(-video_delay * AV_TIME_BASE) as f64 / av_q2d(avg_frame_rate)) as i64] *)
Definition delay_dts (ist : InStream) : outcome Z :=
  d ← signed 32 (- video_delay ist);
  d ← signed 32 (d * AV_TIME_BASE);
  Ret (f64_to_sint 64 (fdiv (f64_of_Z d) (fdiv (f64_of_Z (num (avg_frame_rate ist))) (f64_of_Z (den (avg_frame_rate ist)))))).

(** The first packet of a stream. *)
Definition first_dts_update (ist : InStream) (pkt : Packet) (ds : DemuxStreamParamter) : outcome DemuxStreamParamter :=
  if saw_first_ts ds then Ret ds
  else
    d ← (if num (avg_frame_rate ist) =? 0 then Ret 0 else delay_dts ist);
    d ← (if pts pkt =? AV_NOPTS_VALUE then Ret d else i64_add d (rescale_q (pts pkt) (pkt_time_base pkt) AV_TIME_BASE_Q));
    Ret (set_dts true d (next_dts ds) d ds).

(** When the packet behind this one is expected. *)
Definition expected_dts (ist : InStream) (pkt : Packet) (next : Z) : outcome Z :=
  let packet_time := rescale_q (pkt_duration pkt) (pkt_time_base pkt) AV_TIME_BASE_Q in
  match st_type ist with
  | AVMEDIA_TYPE_AUDIO =>
    if st_sample_rate ist =? 0 then i64_add next packet_time
    else i64_add next (Z.quot (AV_TIME_BASE * st_frame_size ist) (st_sample_rate ist))
  | AVMEDIA_TYPE_VIDEO =>
    if negb (num (avg_frame_rate ist) =? 0) then
      let frame := rescale_q next AV_TIME_BASE_Q (av_inv_q (avg_frame_rate ist)) in
      frame ← i64_add frame 1;
      Ret (rescale_q frame (av_inv_q (avg_frame_rate ist)) AV_TIME_BASE_Q)
    else if negb (pkt_duration pkt =? 0) then i64_add next packet_time
    else if negb (num (st_framerate ist) =? 0) then
      let field_rate := av_mul_q (st_framerate ist) {| num := 2; den := 1 |} in
      fields ← match parser_repeat ist with Some n => if fields_codec ist then signed 32 (1 + n) else Ret 2 | None => Ret 2 end;
      i64_add next (rescale_q fields (av_inv_q field_rate) AV_TIME_BASE_Q)
    else Ret next
  | _ => Ret next
  end.

Definition ist_dts_update (ist : InStream) (pkt : Packet) (ds : DemuxStreamParamter) : outcome DemuxStreamParamter :=
  ds ← first_dts_update ist pkt ds;
  let next := if next_dts ds =? AV_NOPTS_VALUE then dp_dts ds else next_dts ds in
  let next := if dts pkt =? AV_NOPTS_VALUE then next else rescale_q (dts pkt) (pkt_time_base pkt) AV_TIME_BASE_Q in
  expected ← expected_dts ist pkt next;
  Ret (set_dts true (first_dts ds) expected next ds).

(** ** A packet that was read *)

(** The largest and the smallest timestamp, for the length of a loop. *)
Definition update_bounds (pkt : Packet) (t : DemuxTimes) : outcome DemuxTimes :=
  x ← i64_add (pts pkt) (if have_audio_dec t then 0 else pkt_duration pkt);
  let base := pkt_time_base pkt in
  let mx := if (ts (max_pts t) =? AV_NOPTS_VALUE) || (compare_ts (ts (max_pts t)) (tb (max_pts t)) x base <? 0) then {| ts := x; tb := base |} else max_pts t in
  let mn := if (ts (min_pts t) =? AV_NOPTS_VALUE) || (0 <? compare_ts (ts (min_pts t)) (tb (min_pts t)) (pts pkt) base)
            then {| ts := pts pkt; tb := base |} else min_pts t in
  Ret (set_bounds (end_pts t) (duration t) mn mx t).

Definition ts_fixup (fmt : InFormat) (copy_ts : bool) (pkt : Packet) (t : DemuxTimes) : outcome (DemuxTimes * Packet) :=
  let i := Z.to_nat (pkt_stream_index pkt) in
  ist ← index (in_streams fmt) i;
  let pkt := set_time_base (st_time_base ist) pkt in
  ds ← index (demux_streams t) i;
  '(ds, pkt) ← correct_wrap (effective_start t) ist ds pkt;
  let t := set_stream i ds t in
  let offset := rescale_q (in_ts_offset t) AV_TIME_BASE_Q (pkt_time_base pkt) in
  d ← shift offset (dts pkt);
  p ← shift offset (pts pkt);
  let length := rescale_q (ts (duration t)) (tb (duration t)) (pkt_time_base pkt) in
  t_p ← (if p =? AV_NOPTS_VALUE then Ret (t, p) else p ← i64_add p length; t ← update_bounds (set_pts_dts p d pkt) t; Ret (t, p));
  let '(t, p) := t_p in
  d ← shift length d;
  '(t, pkt) ← ts_discontinuity_process fmt ist ds copy_ts (set_pts_dts p d pkt) t;
  ds ← ist_dts_update ist pkt ds;
  Ret (set_stream i ds t, pkt).

(** ** The start of another loop *)

(** [seek_to_start] behind a seek with the result [seek_ret]; the caller holds the
    number of loops that are left. *)
Definition seek_to_start (seek_ret stream_loop : Z) (t : DemuxTimes) : outcome (Z * Z * DemuxTimes) :=
  if seek_ret <? 0 then Ret (seek_ret, stream_loop, t)
  else
    let late := compare_ts (ts (max_pts t)) (tb (max_pts t)) (ts (end_pts t)) (tb (end_pts t)) <? 0 in
    let mx := if (negb (ts (end_pts t) =? AV_NOPTS_VALUE) && (ts (max_pts t) =? AV_NOPTS_VALUE)) || late then end_pts t else max_pts t in
    d ← (if ts mx =? AV_NOPTS_VALUE then Ret (ts (duration t))
         else i64_sub (ts mx) (rescale_q (if ts (min_pts t) =? AV_NOPTS_VALUE then 0 else ts (min_pts t)) (tb (min_pts t)) (tb mx)));
    let t := set_bounds (end_pts t) {| ts := d; tb := tb mx |} (min_pts t) mx t in
    Ret (seek_ret, if 0 <? stream_loop then stream_loop - 1 else stream_loop, t).

End Times.
