(* ===== verification/DemuxTask.v ===== *)
(** * The demuxing task of ez-ffmpeg ([core/scheduler/demux_task.rs])

    The thread of an input: the packets that it reads go to the decoders and, as
    copies, to the muxers; loops, limits, the end, and the errors of reading.  The
    sleeps that keep a rate, and the wait while the input is choked ([ChokeSpec]), are
    not part of it. *)

From stdpp Require Import base list option.
From Stdlib Require Import ZArith Lia.
From S2P Require Import Choke.
From S2P Require Import Prelude RustInt Errors StreamSpec Muxer Rescale MuxTask DemuxTimes.

Local Open Scope Z_scope.
Local Open Scope rust_scope.

Definition AVERROR_EXIT : Z := FFERRTAG 69 88 73 84.

Section Demux.
  Context `{Lib : AvDemux} `{Prof : Profile}.
  (** [codecpar] where the code has a null pointer *)
  Context (null_codecpar : Codecpar).

(** ** Destinations *)

(** A place of [dsts], with its flag of [dsts_finished] and its channel: what was sent,
    and how many packets it still takes before its receiver is gone. *)
Record Destination := {
  input_stream : nat;
  output_stream : option nat;
  dst_finished : bool;
  sent : list PacketBox;
  dst_room : option nat
}.

Definition finish_dst (d : Destination) : Destination :=
  {| input_stream := input_stream d; output_stream := output_stream d; dst_finished := true; sent := sent d; dst_room := dst_room d |}.

(** [packet_dst.send] *)
Definition send_packet (pb : PacketBox) (d : Destination) : option Destination :=
  let deliver room := {| input_stream := input_stream d; output_stream := output_stream d; dst_finished := dst_finished d; sent := sent d ++ [pb]; dst_room := room |} in
  match dst_room d with
  | Some O => None
  | Some (S n) => Some (deliver (Some n))
  | None => Some (deliver None)
  end.

(** What a destination gets: a muxer a copy for its own stream. *)
Definition addressed (d : Destination) (pb : PacketBox) : PacketBox :=
  match output_stream d with
  | Some o =>
    {| packet := set_stream_index (Z.of_nat o) (packet pb);
       packet_data := {| dts_est := dts_est (packet_data pb); pd_type := pd_type (packet_data pb); output_stream_index := Z.of_nat o; is_copy := true;
                         pd_codecpar := pd_codecpar (packet_data pb) |} |}
  | None => pb
  end.

(** [demux_stream_send_to_dst], with DEMUX_SEND_STREAMCOPY_EOF of the flags. *)
Definition demux_stream_send_to_dst (copy_eof : bool) (pb : PacketBox) (d : Destination) : Z * Destination :=
  if dst_finished d then (AVERROR_EOF, d)
  else
    let ends := bool_decide (is_Some (output_stream d)) && copy_eof in
    let pb := if ends then {| packet := set_stream_index (-1) (packet pb); packet_data := packet_data pb |} else pb in
    let d := if ends then finish_dst d else d in
    let pb := addressed d pb in
    if dst_finished d then (AVERROR_EOF, default d (send_packet pb d))
    else match send_packet pb d with
    | Some d => (0, d)
    | None => (AVERROR_EOF, finish_dst d)
    end.

(** The destinations of a stream; all but the last get a reference, which [ref_ret]
    says the result of. *)
Fixpoint send_each (copy_eof : bool) (stream ref_ret : Z) (pb : PacketBox) (l : list Destination) : list Destination * result nat Z :=
  match l with
  | [] => ([], Ok 0%nat)
  | d :: l =>
    if Z.of_nat (input_stream d) =? stream then
      if (ref_ret <? 0) && existsb (fun d => Z.of_nat (input_stream d) =? stream) l then (d :: l, Err ref_ret)
      else
        let '(ret, d) := demux_stream_send_to_dst copy_eof pb d in
        if (ret <? 0) && negb (ret =? AVERROR_EOF) then (d :: l, Err ret)
        else
          let '(l, r) := send_each copy_eof stream ref_ret pb l in
          (d :: l, match r with Ok n => Ok (if ret =? AVERROR_EOF then S n else n) | Err e => Err e end)
    else let '(l, r) := send_each copy_eof stream ref_ret pb l in (d :: l, r)
  end.

Definition demux_send_for_stream (copy_eof : bool) (ref_ret : Z) (pb : PacketBox) (l : list Destination) : Z * list Destination :=
  let '(l', r) := send_each copy_eof (pkt_stream_index (packet pb)) ref_ret pb l in
  (match r with Ok nb_done => if (nb_done =? length l)%nat then AVERROR_EOF else 0 | Err e => e end, l').

(** A packet without data. *)
Definition empty_packet : Packet :=
  {| pts := AV_NOPTS_VALUE; dts := AV_NOPTS_VALUE; pkt_duration := 0; pkt_time_base := {| num := 0; den := 1 |}; pkt_stream_index := -1; key := false;
     pkt_size := 0; side_data_elems := 0; payload := [] |}.

Definition flush_box : PacketBox :=
  {| packet := empty_packet; packet_data := {| dts_est := 0; pd_type := AVMEDIA_TYPE_UNKNOWN; output_stream_index := 0; is_copy := false; pd_codecpar := null_codecpar |} |}.

(** [demux_flush]: the decoders are told that the input starts again. *)
Fixpoint demux_flush (l : list Destination) : Z * list Destination :=
  match l with
  | [] => (0, [])
  | d :: l =>
    if bool_decide (is_Some (output_stream d)) then let '(r, l) := demux_flush l in (r, d :: l)
    else match send_packet flush_box d with
    | Some d => let '(r, l) := demux_flush l in (r, d :: l)
    | None => (AVERROR_EOF, d :: l)
    end
  end.

(** [demux_send] behind the wait for the input's turn. *)
Definition demux_send (stopping copy_eof : bool) (ref_ret : Z) (pb : PacketBox) (l : list Destination) : Z * list Destination :=
  if stopping then (AVERROR_EXIT, l)
  else if pkt_stream_index (packet pb) =? -1 then demux_flush l
  else demux_send_for_stream copy_eof ref_ret pb l.

(** [demux_done]: every destination of every stream gets an empty packet. *)
Definition end_box (ds : DemuxStreamParamter) : PacketBox :=
  {| packet := empty_packet;
     packet_data := {| dts_est := dp_dts ds; pd_type := dp_type ds; output_stream_index := 0; is_copy := false; pd_codecpar := dp_codecpar ds |} |}.

Definition done_stream (ds : DemuxStreamParamter) (l : list Destination) : list Destination :=
  map (fun d => if (dp_index ds =? input_stream d)%nat then snd (demux_stream_send_to_dst false (end_box ds) d) else d) l.

Definition demux_done (streams : list DemuxStreamParamter) (l : list Destination) : list Destination := fold_left (fun l ds => done_stream ds l) streams l.

(** ** The loop *)

(** How the task was started. *)
Record DemuxParams := {
  in_format : InFormat;
  in_copy_ts : bool;
  in_start_time_us : option Z;
  in_recording_time_us : option Z;
  exit_on_error : bool
}.

Record DemuxState := {
  times : DemuxTimes;
  stream_loop : Z;
  is_started : bool;
  destinations : list Destination;
  demux_errors : list Error
}.

(** The packet of [av_read_frame], or its error; a packet may be corrupt. *)
Inductive ReadFrame := Frame_ (pkt : Packet) (corrupt : bool) | ReadError (ret seek_ret : Z).

(** One round: what was read, whether the scheduler is stopping behind the read and
    before the send, and the result of the references. *)
Record DemuxRound := { read : ReadFrame; stops_read : bool; stops_send : bool; ref_result : Z }.

Inductive DemuxFlow := DContinue (st : DemuxState) | DBreak (st : DemuxState).

Definition set_progress (t : DemuxTimes) (loops : Z) (l : list Destination) (st : DemuxState) : DemuxState :=
  {| times := t; stream_loop := loops; is_started := is_started st; destinations := l; demux_errors := demux_errors st |}.

(** [DemuxerParamter::new]: the destinations that the binding has made, and for every
    stream of the input its type and [codecpar].  An audio stream with a destination,
    a decoder or not, counts as an audio decoder. *)
Definition DemuxStreamParamter_new (i : nat) (s : AVMediaType * Codecpar) : DemuxStreamParamter :=
  {| dp_type := fst s; dp_index := i; dp_codecpar := snd s; wrap_correction_done := false; saw_first_ts := false; first_dts := AV_NOPTS_VALUE;
     next_dts := AV_NOPTS_VALUE; dp_dts := 0 |}.

Definition destination_new (d : PacketDst * nat * option nat) (room : option nat) : Destination :=
  {| input_stream := snd (fst d); output_stream := snd d; dst_finished := false; sent := []; dst_room := room |}.

Definition DemuxerParamter_new (streams : list (AVMediaType * Codecpar)) (dsts : list (PacketDst * nat * option nat)) (start offset loops : Z)
    : outcome DemuxState :=
  audio ← mapM_out (fun d => s ← index streams (snd (fst d)); Ret (bool_decide (fst s = AVMEDIA_TYPE_AUDIO))) dsts;
  Ret {| times :=
           {| have_audio_dec := existsb id audio; ts_offset_discont := 0; last_ts := 0; effective_start := start; in_ts_offset := offset;
              end_pts := Timestamp_default; duration := {| ts := 0; tb := {| num := 1; den := 1 |} |}; min_pts := Timestamp_default;
              max_pts := Timestamp_default; demux_streams := imap DemuxStreamParamter_new streams |};
         stream_loop := loops; is_started := false; destinations := (fun d => destination_new d None) <$> dsts; demux_errors := [] |}.

Definition start_input (st : DemuxState) : DemuxState :=
  {| times := times st; stream_loop := stream_loop st; is_started := true; destinations := destinations st; demux_errors := demux_errors st |}.

(** The end of the input, or an error: the next loop, or the end of the task.  The
    result of the seek is lost. *)
Definition read_failed (params : DemuxParams) (r : DemuxRound) (ret seek_ret : Z) (st : DemuxState) : outcome DemuxFlow :=
  let ret := if ret =? AVERROR_EOF then ret else if negb (is_started st) || exit_on_error params then ret else 0 in
  let ret := if ret =? AVERROR_EOF then 0 else ret in
  let fail st := DBreak (if ret =? 0 then st else
    {| times := times st; stream_loop := stream_loop st; is_started := is_started st; destinations := destinations st;
       demux_errors := demux_errors st ++ [Error.Demuxing (DemuxingOperationError.ReadFrameError (DemuxingError.DemuxingError_from ret))] |}) in
  if stream_loop st =? 0 then Ret (fail st)
  else
    let '(sent, l) := demux_send (stops_send r) false (ref_result r) flush_box (destinations st) in
    let st := set_progress (times st) (stream_loop st) l st in
    if 0 <=? sent then
      '(seeked, loops, t) ← seek_to_start seek_ret (stream_loop st) (times st);
      let st := set_progress t loops l st in
      Ret (if 0 <=? seeked then DContinue st else fail st)
    else Ret (fail st).

(** [input_packet_process]: the packet, and whether copies of it are the last. *)
Definition input_packet_process (params : DemuxParams) (pkt : Packet) (t : DemuxTimes) : outcome (DemuxTimes * Packet * bool) :=
  '(t, pkt) ← ts_fixup (in_format params) (in_copy_ts params) pkt t;
  match in_recording_time_us params with
  | Some recording_time_us =>
    if recording_time_us =? I64_MAX then Ret (t, pkt, false)
    else
      ds ← index (demux_streams t) (Z.to_nat (pkt_stream_index pkt));
      limit ← i64_add recording_time_us (if in_copy_ts params then default 0 (in_start_time_us params) else 0);
      Ret (t, pkt, limit <=? dp_dts ds)
  | None => Ret (t, pkt, false)
  end.

Definition packet_read (params : DemuxParams) (r : DemuxRound) (pkt : Packet) (corrupt : bool) (st : DemuxState) : outcome DemuxFlow :=
  let t := times st in
  let t := set_bounds {| ts := pts pkt; tb := pkt_time_base pkt |} (duration t) (min_pts t) (max_pts t) t in
  let st := set_progress t (stream_loop st) (destinations st) st in
  if corrupt && exit_on_error params then Ret (DBreak st)
  else if (pkt_stream_index pkt <? 0) || (Z.of_nat (length (demux_streams t)) <=? pkt_stream_index pkt) then Ret (DContinue st)
  else
    let st := start_input st in
    '(t, pkt, copy_eof) ← input_packet_process params pkt t;
    ds ← index (demux_streams t) (Z.to_nat (pkt_stream_index pkt));
    let pb := {| packet := pkt; packet_data := {| dts_est := dp_dts ds; pd_type := dp_type ds; output_stream_index := 0; is_copy := false; pd_codecpar := dp_codecpar ds |} |} in
    let '(ret, l) := demux_send (stops_send r) copy_eof (ref_result r) pb (destinations st) in
    let st := set_progress t (stream_loop st) l st in
    Ret (if ret <? 0 then DBreak st else DContinue st).

Definition demux_round (params : DemuxParams) (r : DemuxRound) (st : DemuxState) : outcome DemuxFlow :=
  if stops_read r then Ret (DBreak st)
  else match read r with
  | ReadError ret seek_ret => if ret =? AVERROR_AGAIN then Ret (DContinue st) else read_failed params r ret seek_ret st
  | Frame_ pkt corrupt => packet_read params r pkt corrupt st
  end.

(** The rounds of a task, until it ends or no more are given. *)
Fixpoint demux_loop (params : DemuxParams) (l : list DemuxRound) (st : DemuxState) : outcome DemuxFlow :=
  match l with
  | [] => Ret (DContinue st)
  | r :: l =>
    flow ← demux_round params r st;
    match flow with DContinue st => demux_loop params l st | DBreak st => Ret (DBreak st) end
  end.

Definition demux_finish (st : DemuxState) : DemuxState :=
  if is_started st then set_progress (times st) (stream_loop st) (demux_done (demux_streams (times st)) (destinations st)) st else st.

Definition demux_task (params : DemuxParams) (l : list DemuxRound) (st : DemuxState) : outcome (option DemuxState) :=
  flow ← demux_loop params l st;
  Ret (match flow with DContinue _ => None | DBreak st => Some (demux_finish st) end).

End Demux.
