(* ===== verification/DemuxSpec.v ===== *)
(** * The promises of the demuxing task

    Every destination of an input gets the packets of its stream, all of them and in
    their order, and then an empty one.  A jump of the timestamps is corrected up to
    rounding.  Limits leave muxers without the packet that ends their stream. *)

From stdpp Require Import base list option.
From Stdlib Require Import ZArith Lia.
From S2P Require Import Choke.
From S2P Require Import Prelude RustInt Errors StreamSpec Muxer Rescale MuxTask DemuxTimes DemuxTask.

Local Open Scope Z_scope.
Local Open Scope rust_scope.

(** ** Computations that only an overflow stops *)

Section Overflow.
  Context `{Prof : Profile}.

Definition only_overflow {A} (o : outcome A) (P : A -> Prop) : Prop :=
  match o with Ret a => P a | Panic => overflow_checks = true | Diverge => False end.

Lemma oo_bind {A B} (o : outcome A) (f : A -> outcome B) (P : A -> Prop) (Q : B -> Prop) :
  only_overflow o P -> (forall a, P a -> only_overflow (f a) Q) -> only_overflow (a ← o; f a) Q.
Proof. destruct o; cbn; auto. Qed.

Lemma oo_mono {A} (o : outcome A) (P Q : A -> Prop) : only_overflow o P -> (forall a, P a -> Q a) -> only_overflow o Q.
Proof. destruct o; cbn; auto. Qed.

Lemma oo_signed w x : only_overflow (signed w x) (fun _ => True).
Proof. unfold signed. destruct (_ && _); [done|]. by destruct overflow_checks eqn:E. Qed.

Lemma oo_sub a b : only_overflow (i64_sub a b) (fun _ => True).
Proof. unfold i64_sub. cbv zeta. destruct (_ && _); [done|]. by destruct overflow_checks eqn:E. Qed.

Lemma oo_add a b : only_overflow (i64_add a b) (fun _ => True).
Proof. apply oo_sub. Qed.

Lemma oo_arith w x : only_overflow (arith w x) (fun _ => True).
Proof. unfold arith. destruct (fitsb w x); [done|]. by destruct overflow_checks eqn:E. Qed.

Lemma oo_shl n : only_overflow (one_shl n) (fun _ => True).
Proof. unfold one_shl. destruct (_ && _); [done|]. by destruct overflow_checks eqn:E. Qed.

Lemma oo_abs x : only_overflow (i64_abs x) (fun _ => True).
Proof. apply oo_signed. Qed.

End Overflow.

(** Steps through arithmetic that may overflow, and through the branches. *)
Ltac oo_step :=
  match goal with
  | |- only_overflow (mbind _ _) _ => eapply oo_bind; [first [apply oo_signed | apply oo_sub | apply oo_add | apply oo_arith | apply oo_shl | apply oo_abs | eassumption]|intros ? _]
  | |- only_overflow (Ret _) _ => cbn [only_overflow]
  | |- only_overflow (if ?b then _ else _) _ => destruct b
  | |- only_overflow (signed _ _) _ => apply oo_signed
  | |- only_overflow (i64_sub _ _) _ => apply oo_sub
  | |- only_overflow (i64_add _ _) _ => apply oo_add
  | |- True => exact I
  end.

Section Rescaling.
  Context `{Prof : Profile}.

Lemma oo_rescale_nonneg a b c rnd : only_overflow (rescale_nonneg a b c rnd) (fun _ => True).
Proof.
  unfold rescale_nonneg, rescale_large. cbv zeta. repeat oo_step.
  eapply (oo_bind _ _ (fun _ => True)); [repeat oo_step|]. intros [] _; repeat oo_step.
Qed.

Lemma oo_rescale_q a bq cq rnd : only_overflow (av_rescale_q_rnd a bq cq rnd) (fun _ => True).
Proof.
  unfold av_rescale_q_rnd, av_rescale_rnd. do 2 oo_step. cbn [rescale_rnd]. destruct (bad_arguments _ _ _); [done|]. cbv zeta.
  destruct (_ && _); [done|]. destruct (a <? 0) eqn:Ea; [|apply oo_rescale_nonneg]. rewrite signed_64_in by (unfold I64_MIN, I64_MAX; lia).
  cbn [mbind outcome_bind]. eapply (oo_bind _ _ (fun _ => True)); [|intros ? _; apply oo_signed].
  destruct (bad_arguments _ _ _); [done|]. destruct (_ && _); [done|]. rewrite (proj2 (Z.ltb_ge _ 0)) by (unfold I64_MAX; lia). apply oo_rescale_nonneg.
Qed.

Lemma oo_to_time_base `{Lib : AvDemux} t pkt : only_overflow (to_time_base t pkt) (fun _ => True).
Proof. apply oo_rescale_q. Qed.

End Rescaling.

(** ** What the times leave alone *)

(** The rest of a packet. *)
Definition same_frame (a b : Packet) : Prop :=
  pkt_stream_index b = pkt_stream_index a /\ key b = key a /\ pkt_size b = pkt_size a /\ side_data_elems b = side_data_elems a /\ payload b = payload a.

#[export] Instance same_frame_refl : Reflexive same_frame.
Proof. by intros p. Qed.

#[export] Instance same_frame_trans : Transitive same_frame.
Proof. intros a b c (A1 & A2 & A3 & A4 & A5) (B1 & B2 & B3 & B4 & B5). unfold same_frame. split_and!; congruence. Qed.

Lemma same_set_pts_dts p d pkt : same_frame pkt (set_pts_dts p d pkt).
Proof. done. Qed.

Section Times.
  Context `{Lib : AvDemux} `{Prof : Profile}.

(** What identifies the streams of the input. *)
Definition stream_id (ds : DemuxStreamParamter) : nat * AVMediaType * Codecpar := (dp_index ds, dp_type ds, dp_codecpar ds).
Definition stream_ids (t : DemuxTimes) : list (nat * AVMediaType * Codecpar) := stream_id <$> demux_streams t.

(** The packet changes in its times only, and the streams stay what they are. *)
Definition keeps_streams (t : DemuxTimes) (pkt : Packet) (r : DemuxTimes * Packet) : Prop :=
  demux_streams (fst r) = demux_streams t /\ same_frame pkt (snd r).

Lemma oo_shift x y : only_overflow (shift x y) (fun _ => True).
Proof. unfold shift. destruct (_ =? _); [done|apply oo_add]. Qed.

Lemma oo_unwrap a b c d : only_overflow (unwrap_time a b c d) (fun _ => True).
Proof. unfold unwrap_time. destruct (_ && _); [|done]. do 2 oo_step. destruct (_ <? d); [|done]. by do 2 oo_step. Qed.

Lemma oo_correct_wrap start ist ds pkt :
  only_overflow (correct_wrap start ist ds pkt) (fun r => stream_id (fst r) = stream_id ds /\ same_frame pkt (snd r)).
Proof.
  unfold correct_wrap. destruct (_ && _); [|done]. cbv zeta. do 2 oo_step.
  eapply oo_bind; [apply oo_unwrap|]. intros [d w1] _. eapply oo_bind; [apply oo_unwrap|]. by intros [p w2] _.
Qed.

Lemma oo_take_out delta pkt : only_overflow (take_out delta pkt) (same_frame pkt).
Proof. unfold take_out. cbv zeta. oo_step. eapply (oo_bind _ _ (fun _ => True)); [by repeat oo_step|]. done. Qed.

Lemma oo_correct_jump delta d ds pkt t : only_overflow (correct_jump delta d ds pkt t) (keeps_streams t pkt).
Proof.
  unfold correct_jump. oo_step. eapply (oo_bind _ _ (fun _ => True)); [by repeat oo_step|]. intros [] _; [|done]. oo_step.
  eapply oo_bind; [apply oo_take_out|]. by intros pkt' Hs.
Qed.

Lemma oo_correct_first delta pkt t : only_overflow (correct_first delta pkt t) (keeps_streams t pkt).
Proof.
  unfold correct_first. oo_step. destruct (_ <? _); [|done]. oo_step. eapply oo_bind; [apply oo_take_out|]. by intros pkt' Hs.
Qed.

Lemma oo_drop_times delta next pkt : only_overflow (drop_times delta next pkt) (same_frame pkt).
Proof.
  unfold drop_times. oo_step. cbv zeta. destruct (_ <? a); (destruct (_ =? AV_NOPTS_VALUE); [done|]); do 2 oo_step; by destruct (_ <? _).
Qed.

Lemma oo_disabled fmt ist next d pkt copy_ts : only_overflow (correction_disabled fmt ist next d pkt copy_ts) (fun _ => True).
Proof.
  unfold correction_disabled. destruct (_ && _); [|done]. do 2 oo_step. eapply oo_bind; [apply oo_to_time_base|]. intros w _. by repeat oo_step.
Qed.

Lemma oo_detect fmt ist ds copy_ts pkt t : only_overflow (ts_discontinuity_detect fmt ist ds copy_ts pkt t) (keeps_streams t pkt).
Proof.
  unfold ts_discontinuity_detect. eapply oo_bind; [apply oo_to_time_base|]. intros d _. eapply oo_bind; [apply oo_disabled|]. intros off _.
  eapply (oo_bind _ _ (keeps_streams t pkt)); [|by intros [t' pkt'] [Hs Hf]].
  destruct (_ && _); [|destruct (_ && _); [|done]]; oo_step; [|apply oo_correct_first].
  destruct (ts_discont fmt); [apply oo_correct_jump|]. eapply oo_bind; [apply oo_drop_times|]. done.
Qed.

Lemma oo_process fmt ist ds copy_ts pkt t : only_overflow (ts_discontinuity_process fmt ist ds copy_ts pkt t) (keeps_streams t pkt).
Proof.
  unfold ts_discontinuity_process. cbv zeta. eapply oo_bind; [apply oo_shift|]. intros d _. eapply oo_bind; [apply oo_shift|]. intros p _.
  destruct (_ && _); [|done]. eapply oo_mono; [apply oo_detect|]. done.
Qed.

Lemma oo_expected ist pkt next : only_overflow (expected_dts ist pkt next) (fun _ => True).
Proof.
  unfold expected_dts. cbv zeta. destruct (st_type ist); try done; repeat oo_step.
  eapply (oo_bind _ _ (fun _ => True)); [|by intros; repeat oo_step]. destruct (parser_repeat ist); by repeat oo_step.
Qed.

Lemma oo_dts_update ist pkt ds : only_overflow (ist_dts_update ist pkt ds) (fun ds' => stream_id ds' = stream_id ds).
Proof.
  unfold ist_dts_update, first_dts_update, delay_dts.
  eapply (oo_bind _ _ (fun ds' => stream_id ds' = stream_id ds)).
  - destruct (saw_first_ts ds); [done|]. eapply (oo_bind _ _ (fun _ => True)); [by repeat oo_step|]. intros d _.
    eapply (oo_bind _ _ (fun _ => True)); [by repeat oo_step|]. done.
  - intros ds' Hds. cbv zeta. eapply oo_bind; [apply oo_expected|]. done.
Qed.

Lemma oo_bounds pkt t : only_overflow (update_bounds pkt t) (fun t' => demux_streams t' = demux_streams t).
Proof. unfold update_bounds. by repeat oo_step. Qed.

Lemma stream_ids_insert t i ds ds' :
  demux_streams t !! i = Some ds -> stream_id ds' = stream_id ds -> stream_id <$> <[i := ds']> (demux_streams t) = stream_ids t.
Proof. intros Hi Heq. unfold stream_ids. rewrite list_fmap_insert. apply list_insert_id. rewrite list_lookup_fmap, Hi, Heq. done. Qed.

(** A packet of one of the streams. *)
Lemma oo_fixup fmt copy_ts pkt t :
  (Z.to_nat (pkt_stream_index pkt) < length (in_streams fmt))%nat -> (Z.to_nat (pkt_stream_index pkt) < length (demux_streams t))%nat ->
  only_overflow (ts_fixup fmt copy_ts pkt t) (fun r => stream_ids (fst r) = stream_ids t /\ same_frame pkt (snd r)).
Proof.
  intros Hf Ht. unfold ts_fixup. cbv zeta. set (i := Z.to_nat (pkt_stream_index pkt)) in *.
  destruct (lookup_lt_is_Some_2 _ _ Hf) as [ist Hist]. destruct (lookup_lt_is_Some_2 _ _ Ht) as [ds Hds].
  unfold index. rewrite Hist, Hds. cbn [mbind outcome_bind].
  eapply oo_bind; [apply oo_correct_wrap|]. intros [ds1 pkt1] [Hid Hs1]. eapply oo_bind; [apply oo_shift|]. intros d _.
  eapply oo_bind; [apply oo_shift|]. intros p _. cbn [fst snd] in *. set (t1 := set_stream i ds1 t).
  assert (demux_streams t1 = <[i := ds1]> (demux_streams t)) as Ht1 by done.
  eapply (oo_bind _ _ (fun r => demux_streams (fst r) = demux_streams t1)).
  { destruct (p =? AV_NOPTS_VALUE); [done|]. oo_step. eapply oo_bind; [apply oo_bounds|]. done. }
  intros [t2 p2] Ht2. eapply oo_bind; [apply oo_shift|]. intros d2 _. eapply oo_bind; [apply oo_process|]. intros [t3 pkt3] [Ht3 Hs3].
  eapply oo_bind; [apply oo_dts_update|]. intros ds2 Hid2. cbn [only_overflow fst snd] in *. split.
  - unfold stream_ids, set_stream. cbn [demux_streams]. rewrite Ht3, Ht2, Ht1, list_insert_insert, decide_True by done.
    apply (stream_ids_insert t i ds); [done|congruence].
  - transitivity pkt1; [|by transitivity (set_pts_dts p2 d2 pkt1)]. by transitivity (set_time_base (st_time_base ist) pkt).
Qed.

End Times.

(** ** Destinations *)

Section Destinations.
  Context `{Lib : AvDemux} `{Prof : Profile} (null_codecpar : Codecpar).

(** A destination that takes everything and is not finished. *)
Definition open_dst (d : Destination) : Prop := dst_finished d = false /\ dst_room d = None.

(** It got the packets [bs]. *)
Definition gets (bs : list PacketBox) (d : Destination) : Destination :=
  {| input_stream := input_stream d; output_stream := output_stream d; dst_finished := dst_finished d; sent := sent d ++ (addressed d <$> bs);
     dst_room := dst_room d |}.

Lemma gets_nil d : gets [] d = d.
Proof. destruct d. unfold gets. cbn. by rewrite app_nil_r. Qed.

Lemma gets_app bs cs d : gets cs (gets bs d) = gets (bs ++ cs) d.
Proof. unfold gets. cbn. by rewrite fmap_app, app_assoc. Qed.

Lemma send_open pb d : open_dst d -> demux_stream_send_to_dst false pb d = (0, gets [pb] d).
Proof. destruct d. intros [Hf Hr]. cbn in Hf, Hr. subst. unfold demux_stream_send_to_dst. cbn [DemuxTask.dst_finished]. rewrite andb_false_r. done. Qed.

(** The packets of a stream. *)
Definition of_stream (s : nat) (bs : list PacketBox) : list PacketBox := filter (fun b => pkt_stream_index (packet b) = Z.of_nat s) bs.

Definition distributed (bs : list PacketBox) (l : list Destination) : list Destination := (fun d => gets (of_stream (input_stream d) bs) d) <$> l.

Lemma distributed_app bs cs l : distributed cs (distributed bs l) = distributed (bs ++ cs) l.
Proof. unfold distributed. rewrite <-list_fmap_compose. apply list_fmap_ext. intros i d _. cbn. unfold of_stream. by rewrite gets_app, list.filter_app. Qed.

Lemma distributed_nil l : distributed [] l = l.
Proof. unfold distributed. rewrite <-(list_fmap_id l) at 2. apply list_fmap_ext. intros i d _. apply gets_nil. Qed.

Lemma distributed_open bs l : Forall open_dst l -> Forall open_dst (distributed bs l).
Proof. intros H. by apply Forall_fmap. Qed.

Lemma send_each_open ref_ret pb l :
  0 <= ref_ret -> Forall open_dst l -> send_each false (pkt_stream_index (packet pb)) ref_ret pb l = (distributed [pb] l, Ok 0%nat).
Proof.
  intros Hr. induction l as [|d l IH]; [done|]. intros [Hd Hl]%Forall_cons_1. cbn [send_each]. rewrite (IH Hl).
  change (distributed [pb] (d :: l)) with (gets (of_stream (input_stream d) [pb]) d :: distributed [pb] l).
  destruct (Z.of_nat (input_stream d) =? pkt_stream_index (packet pb)) eqn:E.
  - apply Z.eqb_eq in E. rewrite (proj2 (Z.ltb_ge ref_ret 0)) by lia. cbn [andb]. rewrite send_open by done.
    unfold of_stream. rewrite filter_cons_True by (by rewrite E). done.
  - apply Z.eqb_neq in E. unfold of_stream. rewrite filter_cons_False by (by intros ?; apply E). by rewrite gets_nil.
Qed.

(** The empty packets at the end. *)
Lemma demux_done_app ss1 ss2 l : demux_done (ss1 ++ ss2) l = demux_done ss2 (demux_done ss1 l).
Proof. apply fold_left_app. Qed.

Lemma done_open ss l :
  Forall open_dst l ->
  demux_done ss l = (fun d => gets (end_box <$> filter (fun ds => dp_index ds = input_stream d) ss) d) <$> l.
Proof.
  revert l. induction ss as [|ds ss IH]; intros l Hl; cbn [demux_done fold_left].
  - rewrite <-(list_fmap_id l) at 1. apply list_fmap_ext. intros i d _. by rewrite gets_nil.
  - assert (done_stream ds l = (fun d => gets (end_box <$> filter (fun ds => dp_index ds = input_stream d) [ds]) d) <$> l) as ->.
    { apply list_fmap_ext. intros i d Hd. pose proof (Forall_lookup_1 _ _ _ _ Hl Hd) as Ho. destruct (Nat.eqb_spec (dp_index ds) (input_stream d)) as [E|E].
      - rewrite send_open by done. by rewrite filter_cons_True by done.
      - rewrite filter_cons_False by done. by rewrite gets_nil. }
    change (fold_left _ ss ?x) with (demux_done ss x). rewrite IH by (by apply Forall_fmap). rewrite <-list_fmap_compose.
    apply list_fmap_ext. intros i d _. cbn [compose]. rewrite gets_app, <-fmap_app. f_equal. f_equal.
    symmetry. apply (list.filter_app _ [ds] ss).
Qed.

Lemma filter_none {A} (P : A -> Prop) `{forall x, Decision (P x)} (l : list A) : (forall x, x ∈ l -> ~ P x) -> filter P l = [].
Proof. induction l as [|x l IH]; intros Hl; [done|]. rewrite filter_cons_False by (apply Hl; by left). apply IH. intros y Hy. apply Hl. by right. Qed.

(** An input has one stream of each number. *)
Lemma one_of_each k s (ss : list DemuxStreamParamter) :
  dp_index <$> ss = seq k (length ss) -> (k <= s < k + length ss)%nat -> exists ds, filter (fun ds => dp_index ds = s) ss = [ds].
Proof.
  revert k. induction ss as [|ds ss IH]; intros k Hss Hs; cbn [length] in *; [lia|]. cbn in Hss. injection Hss as Hds Hss.
  destruct (decide (dp_index ds = s)) as [E|E].
  - exists ds. rewrite filter_cons_True by done. f_equal. apply filter_none.
    intros x Hx Heq. assert (s ∈ dp_index <$> ss) as Hin by (apply list_elem_of_fmap; by exists x). rewrite Hss, elem_of_seq in Hin. lia.
  - rewrite filter_cons_False by done. apply (IH (S k)); [done|lia].
Qed.

End Destinations.

(** ** The loop *)

Section Loop.
  Context `{Lib : AvDemux} `{Prof : Profile} (null_codecpar : Codecpar) (params : DemuxParams).
  Context (no_limit : in_recording_time_us params = None).

(** A round that reads a packet of one of [n] streams. *)
Definition ordinary (n : nat) (r : DemuxRound) : Prop :=
  stops_read r = false /\ stops_send r = false /\ 0 <= ref_result r /\
  exists pkt corrupt, read r = Frame_ pkt corrupt /\ corrupt && exit_on_error params = false /\ 0 <= pkt_stream_index pkt < Z.of_nat n.

(** The packet of a round as it is sent: with other times. *)
Definition read_as (r : DemuxRound) (b : PacketBox) : Prop :=
  exists pkt corrupt, read r = Frame_ pkt corrupt /\ same_frame pkt (packet b) /\ is_copy (packet_data b) = false.

(** The task goes on, and the packets [bs] went to their destinations. *)
Definition goes_on (st : DemuxState) (bs : list PacketBox) (st' : DemuxState) : Prop :=
  destinations st' = distributed bs (destinations st) /\ stream_ids (times st') = stream_ids (times st) /\
  demux_errors st' = demux_errors st /\ stream_loop st' = stream_loop st.

Record input_ok (n : nat) (st : DemuxState) : Prop := {
  i_format : length (in_streams (in_format params)) = n;
  i_streams : length (stream_ids (times st)) = n;
  i_open : Forall open_dst (destinations st);
  i_some : destinations st <> []
}.

Lemma goes_on_ok n st bs st' : input_ok n st -> goes_on st bs st' -> input_ok n st'.
Proof.
  intros [] (Hd & Hs & _). split; [done|by rewrite Hs|rewrite Hd; by apply distributed_open|]. rewrite Hd. by destruct (destinations st).
Qed.

Lemma round_goes_on n r st :
  input_ok n st -> ordinary n r ->
  only_overflow (demux_round null_codecpar params r st) (fun flow =>
    exists st' b, flow = DContinue st' /\ read_as r b /\ goes_on st [b] st' /\ is_started st' = true).
Proof.
  intros [] (Hr & Hs & Href & pkt & corrupt & Hread & Hc & Hi). unfold demux_round. rewrite Hr, Hread. unfold packet_read. rewrite Hc. cbv zeta.
  unfold stream_ids in i_streams0. rewrite length_fmap in i_streams0. cbn [set_progress times set_bounds demux_streams]. rewrite (proj2 (Z.ltb_ge _ 0)), (proj2 (Z.leb_gt _ (pkt_stream_index pkt))) by lia. cbn [orb].
  unfold input_packet_process. rewrite no_limit. cbn [start_input set_progress times destinations stream_loop].
  eapply (oo_bind _ _ (fun r => (stream_ids (fst (fst r)) = stream_ids (times st) /\ same_frame pkt (snd (fst r))) /\ snd r = false)).
  { eapply oo_bind; [apply oo_fixup; [rewrite i_format0; lia|cbn [set_bounds demux_streams]; lia]|]. by intros [t pkt'] Hk. }
  intros [[t pkt'] eof] [[Ht Hf] Heof]. cbn [fst snd] in *. subst eof.
  assert (length (demux_streams t) = n) as Hn by (apply (f_equal length) in Ht; unfold stream_ids in Ht; rewrite !length_fmap in Ht; lia).
  destruct (lookup_lt_is_Some_2 (demux_streams t) (Z.to_nat (pkt_stream_index pkt'))) as [ds Hds]; [destruct Hf as [-> _]; lia|].
  unfold index. rewrite Hds. cbn [mbind outcome_bind]. unfold demux_send. rewrite Hs. cbn [packet].
  rewrite (proj2 (Z.eqb_neq (pkt_stream_index pkt') (-1))) by (destruct Hf as [-> _]; lia). unfold demux_send_for_stream.
  set (b := {| packet := pkt'; packet_data := _ |}). rewrite (send_each_open (ref_result r) b) by done.
  destruct (0 =? length (destinations st))%nat eqn:E; [apply Nat.eqb_eq in E; by destruct (destinations st)|]. cbn [only_overflow Z.ltb Z.compare].
  eexists _, b. split; [reflexivity|]. split; [by exists pkt, corrupt|]. done.
Qed.

Lemma loop_goes_on n l st :
  input_ok n st -> Forall (ordinary n) l ->
  only_overflow (demux_loop null_codecpar params l st) (fun flow =>
    exists st' bs, flow = DContinue st' /\ Forall2 read_as l bs /\ goes_on st bs st' /\ is_started st' = (is_started st || negb (length l =? 0)%nat)).
Proof.
  revert st. induction l as [|r l IH]; intros st Hok Hl; cbn [demux_loop].
  - exists st, []. split_and!; [done|constructor|split_and!; [by rewrite distributed_nil|done..]|by rewrite orb_false_r].
  - apply Forall_cons_1 in Hl as [Hr Hl]. eapply oo_bind; [by apply (round_goes_on n)|]. intros flow (st1 & b & -> & Hb & Hg & Hst1).
    eapply oo_mono; [apply IH; [by eapply goes_on_ok|done]|]. intros flow (st' & bs & -> & Hbs & (Hd & Hs & He & Hlo) & Hst').
    destruct Hg as (Hd1 & Hs1 & He1 & Hlo1). exists st', (b :: bs). split_and!; [done|by constructor|split_and!; [|congruence..]|].
    + by rewrite Hd, Hd1, distributed_app.
    + by rewrite Hst', Hst1, orb_true_r.
Qed.

Lemma demux_loop_app l1 l2 st :
  demux_loop null_codecpar params (l1 ++ l2) st =
    (flow ← demux_loop null_codecpar params l1 st; match flow with DContinue st => demux_loop null_codecpar params l2 st | DBreak st => Ret (DBreak st) end).
Proof.
  revert st. induction l1 as [|r l1 IH]; intros st; [done|]. cbn [app demux_loop]. destruct (demux_round _ _ r st) as [[st'|st']| |]; cbn [mbind outcome_bind]; [apply IH|done..].
Qed.

End Loop.

(** The end of the input, without another loop. *)
Definition end_of_input `{Lib : AvDemux} : DemuxRound := {| read := ReadError AVERROR_EOF 0; stops_read := false; stops_send := false; ref_result := 0 |}.

Section Ending.
  Context `{Lib : AvDemux} `{Prof : Profile} (null_codecpar : Codecpar) (params : DemuxParams).

Lemma input_ends n l st :
  in_recording_time_us params = None -> input_ok params n st -> Forall (ordinary params n) l -> stream_loop st = 0 ->
  only_overflow (demux_loop null_codecpar params (l ++ [end_of_input]) st) (fun flow =>
    exists st' bs, flow = DBreak st' /\ Forall2 read_as l bs /\ goes_on st bs st' /\ is_started st' = (is_started st || negb (length l =? 0)%nat)).
Proof.
  intros Hlim Hok Hl Hloop. rewrite demux_loop_app. eapply oo_bind; [by apply (loop_goes_on null_codecpar params Hlim n)|].
  intros flow (st1 & bs & -> & Hbs & Hg & Hst1). pose proof Hg as (_ & _ & _ & Hlo). cbn [demux_loop]. unfold demux_round, end_of_input.
  cbn [stops_read read]. unfold read_failed. rewrite Hlo, Hloop. change (AVERROR_EOF =? AVERROR_AGAIN) with false.
  change (AVERROR_EOF =? AVERROR_EOF) with true. cbn [Z.eqb mbind outcome_bind only_overflow]. by exists st1, bs.
Qed.

End Ending.

(** ** The whole task *)

Section Task.
  Context `{Lib : AvDemux} `{Prof : Profile} (null_codecpar : Codecpar).

Lemma new_streams streams : dp_index <$> imap DemuxStreamParamter_new streams = seq 0 (length streams).
Proof.
  apply list_eq. intros i. rewrite list_lookup_fmap, list_lookup_imap. destruct (streams !! i) as [s|] eqn:E; cbn.
  - apply lookup_lt_Some in E. symmetry. by apply lookup_seq_lt.
  - apply lookup_ge_None in E. symmetry. by apply lookup_seq_ge.
Qed.

(** What the binding gives the task. *)
Lemma new_task streams dsts start offset loops st :
  DemuxerParamter_new streams dsts start offset loops = Ret st ->
  Forall (fun d => (snd (fst d) < length streams)%nat) dsts /\ destinations st = (fun d => destination_new d None) <$> dsts /\
  dp_index <$> demux_streams (times st) = seq 0 (length streams) /\ stream_loop st = loops /\ is_started st = false /\ demux_errors st = [].
Proof.
  unfold DemuxerParamter_new. intros (audio & Ha & H)%bind_Ret. apply Ret_inj in H as <-. cbn [destinations times demux_streams stream_loop is_started demux_errors].
  split_and!; [|done|apply new_streams|done..].
  revert audio Ha. induction dsts as [|d dsts IH]; intros audio Ha; [constructor|]. cbn [mapM_out] in Ha.
  apply bind_Ret in Ha as (x & Hx & Ha). apply bind_Ret in Ha as (xs & Hxs & _). apply Forall_cons; [|by eapply IH].
  apply bind_Ret in Hx as (s & Hs & _). apply index_Ret in Hs. by apply lookup_lt_Some in Hs.
Qed.

Lemma ids_index t t' : stream_ids t' = stream_ids t -> dp_index <$> demux_streams t' = dp_index <$> demux_streams t.
Proof.
  intros H. apply (f_equal (fmap (fun x : nat * AVMediaType * Codecpar => fst (fst x)))) in H. unfold stream_ids in H.
  by rewrite <-!list_fmap_compose in H.
Qed.

End Task.


(** ** Jumps of the timestamps *)

Lemma near_bound n c k : 0 < c -> Z.abs n <= k * c -> 0 <= k -> Z.abs (rounded AV_ROUND_NEAR_INF n c) <= k + 1.
Proof.
  intros Hc Hn Hk. pose proof (nearest_is_near n c Hc) as H. set (e := rounded _ n c) in *. clearbody e.
  apply Z.abs_le. assert (Z.abs (e * c) <= k * c + c) as He by lia. rewrite Z.abs_mul, (Z.abs_eq c) in He by lia.
  assert (Z.abs e <= k + 1) by (apply Z.mul_le_mono_pos_r with c; lia). lia.
Qed.

Lemma near_representable `{Prof : Profile} b e : Z.abs e < 2 ^ 63 -> representable b e = Ret e.
Proof.
  intros He. unfold representable. assert ((I64_MIN <? e) && (e <=? I64_MAX) = true) as ->; [|done].
  apply andb_true_iff. unfold I64_MIN, I64_MAX. split; [apply Z.ltb_lt|apply Z.leb_le]; lia.
Qed.

Section Jumps.
  Context `{Lib : AvDemux} `{Prof : Profile}.

  (** libavutil's own [av_rescale_q] is what was ported. *)
  Hypothesis rescale_q_is_the_port : forall a bq cq,
    av_rescale_q_rnd (Prof := unchecked_profile) a (num bq, den bq) (num cq, den cq) AV_ROUND_NEAR_INF = Ret (rescale_q a bq cq).

(** The base of a packet. *)
Definition proper_base (q : AVRational) : Prop := 0 < num q <= INT_MAX /\ 0 < den q <= INT_MAX.

(** [x] in the base [q] and [y] in microseconds are the same time; [apart] is their
    difference, in units of [1 / (den q * 1000000)] seconds. *)
Definition apart (q : AVRational) (x y : Z) : Z := Z.abs (x * (num q * AV_TIME_BASE) - y * den q).

(** A time that has 62 bits in both bases. *)
Definition moderate (q : AVRational) (x : Z) : Prop := Z.abs x <= 2 ^ 61 /\ Z.abs x * (num q * AV_TIME_BASE) <= 2 ^ 61 * den q.

Lemma to_time_base_near pkt x :
  proper_base (pkt_time_base pkt) -> moderate (pkt_time_base pkt) x ->
  exists y, to_time_base x pkt = Ret y /\ 2 * apart (pkt_time_base pkt) x y <= den (pkt_time_base pkt) /\ Z.abs y <= 2 ^ 61 + 1.
Proof.
  intros [Hn Hd] [Hx1 Hx2]. unfold to_time_base, apart. set (q := pkt_time_base pkt) in *. unfold AV_TIME_BASE in *.
  rewrite rescale_q_is_exact by (unfold I64_MIN, I64_MAX, INT_MAX, rounding_mode in *; auto || lia). rewrite Z.mul_1_l.
  pose proof (nearest_is_near (x * (num q * 1000000)) (den q) ltac:(lia)) as Hnear.
  pose proof (near_bound (x * (num q * 1000000)) (den q) (2 ^ 61) ltac:(lia)) as Hb. rewrite Z.abs_mul, (Z.abs_eq (num q * 1000000)) in Hb by lia.
  specialize (Hb Hx2 ltac:(lia)). set (y := rounded _ _ (den q)) in *. clearbody y. exists y. split_and!; [apply near_representable; lia| |done].
  rewrite <-Z.abs_opp. by replace (- (x * (num q * 1000000) - y * den q)) with (y * den q - x * (num q * 1000000)) by lia.
Qed.

Lemma from_time_base_near q y :
  proper_base q -> Z.abs y < 2 ^ 63 -> Z.abs y * den q <= 2 ^ 62 * (num q * AV_TIME_BASE) ->
  2 * apart q (rescale_q y AV_TIME_BASE_Q q) y <= num q * AV_TIME_BASE /\ Z.abs (rescale_q y AV_TIME_BASE_Q q) <= 2 ^ 62 + 1.
Proof.
  intros [Hn Hd] Hy1 Hy2. pose proof (rescale_q_is_the_port y AV_TIME_BASE_Q q) as H. unfold apart. cbn [AV_TIME_BASE_Q num den] in H. unfold AV_TIME_BASE in *.
  rewrite rescale_q_is_exact in H by (unfold I64_MIN, I64_MAX, INT_MAX, rounding_mode in *; auto || lia). rewrite Z.mul_1_l in H.
  pose proof (nearest_is_near (y * den q) (num q * 1000000) ltac:(lia)) as Hnear.
  pose proof (near_bound (y * den q) (num q * 1000000) (2 ^ 62) ltac:(lia)) as Hb. rewrite Z.abs_mul, (Z.abs_eq (den q)) in Hb by lia.
  specialize (Hb Hy2 ltac:(lia)). set (x := rounded _ _ (num q * 1000000)) in *. clearbody x. rewrite near_representable in H by lia.
  apply Ret_inj in H as <-. done.
Qed.

(** Taking a jump out of the packet leaves it next to the expected time. *)
Lemma jump_taken_out q x y next z :
  proper_base q -> 2 * apart q x y <= den q -> 2 * apart q z (y - next) <= num q * AV_TIME_BASE -> 2 * apart q (x - z) next <= den q + num q * AV_TIME_BASE.
Proof. unfold apart, proper_base. intros. set (D := num q * AV_TIME_BASE) in *. lia. Qed.

(** A stream whose next decoding time is expected, and a packet of it. *)
Record expecting (ds : DemuxStreamParamter) (pkt : Packet) (t : DemuxTimes) : Prop := {
  e_base : proper_base (pkt_time_base pkt);
  e_dts : moderate (pkt_time_base pkt) (dts pkt);
  e_next : Z.abs (next_dts ds) <= 2 ^ 61 /\ Z.abs (next_dts ds) * den (pkt_time_base pkt) <= 2 ^ 60 * (num (pkt_time_base pkt) * AV_TIME_BASE);
  e_pts : pts pkt = AV_NOPTS_VALUE \/ Z.abs (pts pkt) <= 2 ^ 61;
  e_offset : Z.abs (ts_offset_discont t) <= 2 ^ 61
}.

(** [y] is the time [x] of the base [q] in microseconds, to the nearest one. *)
Definition micros (q : AVRational) (x y : Z) : Prop := 2 * apart q x y <= den q.

(** The time [y] is more than ten seconds from the expected one, or more than a tenth of
    a second before the last packet of the stream. *)
Definition jumps (ds : DemuxStreamParamter) (y : Z) : Prop := 10000000 < Z.abs (y - next_dts ds) \/ y + 100000 < dp_dts ds.

(** The packet is right at the expected time, and its presentation time went with it;
    nothing else of it changed. *)
Definition moved (ds : DemuxStreamParamter) (pkt pkt' : Packet) : Prop :=
  let q := pkt_time_base pkt in
  2 * apart q (dts pkt') (next_dts ds) <= den q + num q * AV_TIME_BASE /\
  (pts pkt = AV_NOPTS_VALUE -> pts pkt' = AV_NOPTS_VALUE) /\ (pts pkt <> AV_NOPTS_VALUE -> pts pkt' - dts pkt' = pts pkt - dts pkt) /\
  pkt' = set_pts_dts (pts pkt') (dts pkt') pkt.

(** A packet at [y] microseconds is moved exactly if it jumps; the jump goes into the
    offset of the packets that follow. *)
Definition corrected (ds : DemuxStreamParamter) (y : Z) (pkt pkt' : Packet) (t t' : DemuxTimes) : Prop :=
  let last := rescale_q (dts pkt') (pkt_time_base pkt) AV_TIME_BASE_Q in
  (jumps ds y /\ moved ds pkt pkt' /\ t' = set_discont (ts_offset_discont t - (y - next_dts ds)) last t) \/
  (~ jumps ds y /\ pkt' = pkt /\ t' = set_discont (ts_offset_discont t) last t).

Lemma signed_small x : Z.abs x < 2 ^ 63 -> signed 64 x = Ret x.
Proof. intros. apply signed_64_in. unfold I64_MIN, I64_MAX. lia. Qed.

Lemma sub_small a b : Z.abs (a - b) < 2 ^ 63 -> i64_sub a b = Ret (a - b).
Proof. intros. unfold i64_sub. cbv zeta. destruct (_ && _) eqn:E; [done|]. apply andb_false_iff in E as [E|E]; lia. Qed.

(** Where a format with discontinuities takes a difference out. *)
Lemma jump_spec delta y ds pkt t :
  Z.abs delta < 2 ^ 63 -> Z.abs y <= 2 ^ 61 + 1 ->
  correct_jump delta y ds pkt t =
    if (10000000 <? Z.abs delta) || (y + 100000 <? dp_dts ds) then
      offset ← i64_sub (ts_offset_discont t) delta; pkt ← take_out delta pkt; Ret (set_discont offset (last_ts t) t, pkt)
    else Ret (t, pkt).
Proof.
  intros Hd Hy. unfold correct_jump, i64_abs. rewrite signed_small by lia. cbn [mbind outcome_bind]. change (DTS_DELTA_THRESHOLD * AV_TIME_BASE) with 10000000.
  destruct (10000000 <? Z.abs delta); [done|]. change (Z.quot AV_TIME_BASE 10) with 100000. unfold i64_add. change (- (100000)) with (-100000). rewrite (sub_small y (-100000)) by lia.
  cbn [mbind outcome_bind orb]. replace (y - -100000) with (y + 100000) by lia. done.
Qed.

Lemma take_out_spec ds pkt t y :
  expecting ds pkt t -> 2 * apart (pkt_time_base pkt) (dts pkt) y <= den (pkt_time_base pkt) -> Z.abs y <= 2 ^ 61 + 1 ->
  exists pkt', take_out (y - next_dts ds) pkt = Ret pkt' /\ moved ds pkt pkt'.
Proof.
  intros [Hq [Hd1 Hd2] [Hn1 Hn2] Hp Ho] Hy Hy2. unfold take_out, moved. cbv zeta. set (q := pkt_time_base pkt) in *.
  assert (Z.abs (y - next_dts ds) * den q <= 2 ^ 62 * (num q * AV_TIME_BASE)) as Hdelta.
  { destruct Hq as [Hqn Hqd]. unfold apart, INT_MAX, AV_TIME_BASE in *. set (D := num q * 1000000) in *. assert (1000000 <= D) by lia.
    assert (Z.abs (y * den q) <= Z.abs (dts pkt) * D + den q) as Hyd by (rewrite <-(Z.abs_eq D) at 1 by lia; rewrite <-Z.abs_mul; lia).
    assert (Z.abs (dts pkt) * D <= 2 ^ 61 * D) by (apply Z.mul_le_mono_nonneg_r; lia).
    rewrite <-(Z.abs_eq (den q)) at 1 by lia. rewrite <-Z.abs_mul, Z.mul_sub_distr_r. rewrite <-(Z.abs_eq (den q)) in Hn2 at 1 by lia. rewrite <-Z.abs_mul in Hn2. lia. }
  destruct (from_time_base_near q (y - next_dts ds) Hq ltac:(lia) Hdelta) as [Hz Hz2]. set (z := rescale_q _ _ q) in *. clearbody z.
  rewrite (sub_small (dts pkt) z) by lia. cbn [mbind outcome_bind]. pose proof (jump_taken_out q (dts pkt) y (next_dts ds) z Hq Hy Hz) as Hj.
  destruct (Z.eqb_spec (pts pkt) AV_NOPTS_VALUE) as [E|E]; cbn [mbind outcome_bind].
  - eexists. split; [reflexivity|]. by split_and!.
  - destruct Hp as [?|Hp]; [done|]. rewrite sub_small by lia. cbn [mbind outcome_bind]. eexists. split; [reflexivity|].
    split_and!; [done|done| |done]. intros _. cbn [set_pts_dts set_times pts dts]. lia.
Qed.

End Jumps.

(** C22. In formats whose timestamps may jump, without copy_ts, a packet of a stream
    whose next decoding time is expected is moved exactly if its decoding time, in
    microseconds to the nearest, is more than ten seconds from the expected one or more
    than a tenth of a second before the last packet: then it is at the expected time, up
    to the rounding of the two time bases, its presentation time with it, and the jump
    goes into the offset of later packets.  Any other packet stays as it is.  No build
    panics while the times have some bits to spare. *)
Theorem jumps_are_corrected `{Lib : AvDemux} `{Prof : Profile} fmt ist ds pkt t :
  (forall a bq cq, av_rescale_q_rnd (Prof := unchecked_profile) a (num bq, den bq) (num cq, den cq) AV_ROUND_NEAR_INF = Ret (rescale_q a bq cq)) ->
  ts_discont fmt = true -> expecting ds pkt t ->
  exists y t' pkt', micros (pkt_time_base pkt) (dts pkt) y /\ ts_discontinuity_detect fmt ist ds false pkt t = Ret (t', pkt') /\ corrected ds y pkt pkt' t t'.
Proof.
  intros Hport Hfmt Hexp. pose proof Hexp as [Hq Hd [Hn1 Hn2] Hp Ho]. unfold ts_discontinuity_detect, correction_disabled. cbn [andb mbind outcome_bind].
  destruct (to_time_base_near pkt (dts pkt) Hq Hd) as (y & -> & Hy & Hy2). cbn [mbind outcome_bind]. exists y.
  rewrite (proj2 (Z.eqb_neq (next_dts ds) AV_NOPTS_VALUE)) by (unfold AV_NOPTS_VALUE; lia). cbn [negb andb]. rewrite (sub_small y) by lia.
  cbn [mbind outcome_bind]. rewrite Hfmt. destruct (take_out_spec Hport ds pkt t y Hexp Hy Hy2) as (pkt' & Ht & Hc).
  rewrite (jump_spec (y - next_dts ds) y ds pkt t) by lia. cbn [mbind outcome_bind].
  assert (base' : forall p, moved ds pkt p -> pkt_time_base p = pkt_time_base pkt) by (intros p (_ & _ & _ & ->); done).
  destruct (_ || _) eqn:E.
  - rewrite sub_small by lia. cbn [mbind outcome_bind]. rewrite Ht. cbn [mbind outcome_bind]. rewrite (base' _ Hc).
    eexists _, pkt'. split_and!; [done|reflexivity|]. left. apply orb_true_iff in E as [E|E]; apply Z.ltb_lt in E; (split_and!; [|done|reflexivity]); [left|right]; done.
  - cbn [mbind outcome_bind]. eexists _, pkt. split_and!; [done|reflexivity|]. right. apply orb_false_iff in E as [E1%Z.ltb_ge E2%Z.ltb_ge].
    split_and!; [intros [?|?]; lia|done|reflexivity].
Qed.

(** ** The code on small inputs *)

Definition port (a : Z) (bq cq : AVRational) : Z :=
  match av_rescale_q_rnd (Prof := unchecked_profile) a (num bq, den bq) (num cq, den cq) AV_ROUND_NEAR_INF with Ret x => x | _ => I64_MIN end.

(** A library whose [av_rescale_q] is the port. *)
#[export] Instance ported : AvMux := {|
  Codecpar := unit; frame_size := fun _ => 1024; par_sample_rate := fun _ => 48000;
  rescale_q := port;
  av_rescale_delta := fun _ d _ _ last _ => (d, last);
  av_get_audio_frame_duration2 := fun _ _ => 0;
  av_packet_rescale_ts := fun _ _ x => x |}.

#[export] Instance ported_demux : AvDemux := {|
  compare_ts := fun a p b q => Z.sgn (a * num p * den q - b * num q * den p);
  av_inv_q := fun q => {| num := den q; den := num q |};
  av_mul_q := fun p q => {| num := num p * num q; den := den p * den q |} |}.

Lemma ported_is_the_port a bq cq :
  av_rescale_q_rnd (Prof := unchecked_profile) a (num bq, den bq) (num cq, den cq) AV_ROUND_NEAR_INF = Ret (rescale_q a bq cq).
Proof.
  pose proof (oo_rescale_q (Prof := unchecked_profile) a (num bq, den bq) (num cq, den cq) AV_ROUND_NEAR_INF) as H.
  cbn [rescale_q ported]. unfold port. by destruct (av_rescale_q_rnd _ _ _ _).
Qed.

Definition thousand : AVRational := {| num := 1; den := 1000 |}.

Definition a_stream (t : AVMediaType) : InStream :=
  {| st_time_base := thousand; pts_wrap_bits := 64; avg_frame_rate := {| num := 0; den := 1 |}; st_type := t; video_delay := 0; st_sample_rate := 0;
     st_frame_size := 0; st_framerate := {| num := 0; den := 1 |}; fields_codec := false; parser_repeat := None |}.

Definition a_frame (s x : Z) (data : list Z) : DemuxRound :=
  {| read := Frame_ {| pts := x; dts := x; pkt_duration := 40; pkt_time_base := thousand; pkt_stream_index := s; key := true;
                       pkt_size := Z.of_nat (length data); side_data_elems := 0; payload := data |} false;
     stops_read := false; stops_send := false; ref_result := 0 |}.

Definition a_failure (ret seek_ret : Z) : DemuxRound := {| read := ReadError ret seek_ret; stops_read := false; stops_send := false; ref_result := 0 |}.

(** Video and audio, of a format without jumps or with them. *)
Definition av_input (jumps : bool) (recording : option Z) : DemuxParams :=
  {| in_format := {| in_streams := [a_stream AVMEDIA_TYPE_VIDEO; a_stream AVMEDIA_TYPE_AUDIO]; ts_discont := jumps |}; in_copy_ts := false;
     in_start_time_us := None; in_recording_time_us := recording; exit_on_error := false |}.

Definition types : list (AVMediaType * Codecpar) := [(AVMEDIA_TYPE_VIDEO, tt); (AVMEDIA_TYPE_AUDIO, tt)].

(** What every destination got: the times and the data of each packet. *)
Definition demuxed (params : DemuxParams) (dsts : list (PacketDst * nat * option nat)) (loops : Z) (l : list DemuxRound) : option (list (list (Z * list Z)) * list Error) :=
  match st ← DemuxerParamter_new types dsts AV_NOPTS_VALUE 0 loops; demux_task (Prof := checked_profile) (tt : Codecpar) params l st with
  | Ret (Some st) => Some ((fun d => (fun b => (pts (packet b), payload (packet b))) <$> sent d) <$> destinations st, demux_errors st)
  | _ => None
  end.

Definition to_both : list (PacketDst * nat * option nat) := [(ToDecoder 0, 0%nat, None); (ToMuxer 0, 1%nat, Some 1%nat)].

Example packets_are_distributed :
  demuxed (av_input false None) to_both 0 [a_frame 0 0 [1]; a_frame 1 0 [7]; a_frame 0 40 [2]; end_of_input] =
  Some ([[(0, [1]); (40, [2]); (AV_NOPTS_VALUE, [])]; [(0, [7]); (AV_NOPTS_VALUE, [])]], []).
Proof. by vm_compute. Qed.

(** The second pass of a loop follows the first. *)
Example loops_follow :
  demuxed (av_input false None) [(ToMuxer 0, 0%nat, Some 0%nat)] 1 [a_frame 0 0 [1]; a_frame 0 40 [2]; a_failure AVERROR_EOF 0; a_frame 0 0 [1]; a_frame 0 40 [2]; end_of_input] =
  Some ([[(0, [1]); (40, [2]); (80, [1]); (120, [2]); (AV_NOPTS_VALUE, [])]], []).
Proof. by vm_compute. Qed.

(** A seek that fails ends the input without an error. *)
Example failed_seek_is_silent :
  demuxed (av_input false None) [(ToMuxer 0, 0%nat, Some 0%nat)] 1 [a_frame 0 0 [1]; a_failure AVERROR_EOF (-5)] = Some ([[(0, [1]); (AV_NOPTS_VALUE, [])]], []).
Proof. by vm_compute. Qed.

(** A copy that has reached its limit gets one packet more, and never the empty packet
    that ends its stream in the muxer.  The input stops when its only destination is
    done; with two of them it is read on, to nobody. *)
Example limit_without_an_end :
  demuxed (av_input false (Some 40000)) [(ToMuxer 0, 0%nat, Some 0%nat)] 0 [a_frame 0 0 [1]; a_frame 0 40 [2]] = Some ([[(0, [1]); (40, [2])]], []) /\
  demuxed (av_input false (Some 40000)) [(ToMuxer 0, 0%nat, Some 0%nat); (ToMuxer 0, 1%nat, Some 1%nat)] 0
    [a_frame 0 0 [1]; a_frame 0 40 [2]; a_frame 1 80 [7]; a_frame 0 80 [3]; a_frame 1 120 [8]] = None /\
  demuxed (av_input false (Some 40000)) [(ToMuxer 0, 0%nat, Some 0%nat); (ToMuxer 0, 1%nat, Some 1%nat)] 0
    [a_frame 0 0 [1]; a_frame 0 40 [2]; a_frame 1 80 [7]; a_frame 0 80 [3]; a_frame 1 120 [8]; end_of_input] = Some ([[(0, [1]); (40, [2])]; [(80, [7])]], []).
Proof. by vm_compute. Qed.

(** A copied audio stream counts as a decoder: the length of the last video frame is
    not part of the loop. *)
Example copied_audio_shortens_loops :
  demuxed (av_input false None) [(ToMuxer 0, 0%nat, Some 0%nat); (ToMuxer 0, 1%nat, Some 1%nat)] 1
    [a_frame 0 0 [1]; a_frame 0 40 [2]; a_failure AVERROR_EOF 0; a_frame 0 0 [1]; end_of_input] =
  Some ([[(0, [1]); (40, [2]); (40, [1]); (AV_NOPTS_VALUE, [])]; [(AV_NOPTS_VALUE, [])]], []).
Proof. by vm_compute. Qed.

(** Twenty seconds are taken out. *)
Example jump_is_taken_out :
  demuxed (av_input true None) [(ToMuxer 0, 0%nat, Some 0%nat)] 0 [a_frame 0 0 [1]; a_frame 0 20000 [2]; a_frame 0 20040 [3]; end_of_input] =
  Some ([[(0, [1]); (40, [2]); (80, [3]); (AV_NOPTS_VALUE, [])]], []).
Proof. by vm_compute. Qed.

(** ** Witnesses *)

Definition one_frame : list DemuxRound := [a_frame 1 0 [7]].

Definition started_task : DemuxState :=
  {| times :=
       {| have_audio_dec := true; ts_offset_discont := 0; last_ts := 0; effective_start := AV_NOPTS_VALUE; in_ts_offset := 0; end_pts := Timestamp_default;
          duration := {| ts := 0; tb := {| num := 1; den := 1 |} |}; min_pts := Timestamp_default; max_pts := Timestamp_default;
          demux_streams := [DemuxStreamParamter_new 0 (AVMEDIA_TYPE_VIDEO, tt); DemuxStreamParamter_new 1 (AVMEDIA_TYPE_AUDIO, tt)] |};
     stream_loop := 0; is_started := false; destinations := (fun d => destination_new d None) <$> to_both; demux_errors := [] |}.

Lemma one_frame_ordinary : Forall (ordinary (av_input false None) 2) one_frame.
Proof. apply Forall_cons; [|by apply Forall_nil]. split_and!; [reflexivity|reflexivity|cbn; lia|]. eexists _, _. split_and!; [reflexivity|reflexivity|cbn; lia|cbn; lia]. Qed.


Definition a_late_packet : Packet :=
  {| pts := AV_NOPTS_VALUE; dts := 20000; pkt_duration := 40; pkt_time_base := thousand; pkt_stream_index := 0; key := true; pkt_size := 1; side_data_elems := 0;
     payload := [1] |}.

Definition a_video_stream : DemuxStreamParamter :=
  {| dp_type := AVMEDIA_TYPE_VIDEO; dp_index := 0; dp_codecpar := tt : Codecpar; wrap_correction_done := false; saw_first_ts := true; first_dts := 0;
     next_dts := 40000; dp_dts := 0 |}.

(** A packet that goes back: 300 ms before the last one. *)
Definition back_stream : DemuxStreamParamter :=
  {| dp_type := AVMEDIA_TYPE_VIDEO; dp_index := 0; dp_codecpar := tt : Codecpar; wrap_correction_done := false; saw_first_ts := true; first_dts := 0;
     next_dts := 20340000; dp_dts := 20300000 |}.

(** A packet that is where it is expected. *)
Definition next_stream : DemuxStreamParamter :=
  {| dp_type := AVMEDIA_TYPE_VIDEO; dp_index := 0; dp_codecpar := tt : Codecpar; wrap_correction_done := false; saw_first_ts := true; first_dts := 0;
     next_dts := 20000000; dp_dts := 19960000 |}.

Definition detected (ds : DemuxStreamParamter) : outcome (DemuxTimes * Packet) :=
  ts_discontinuity_detect (Prof := checked_profile) (in_format (av_input true None)) (a_stream AVMEDIA_TYPE_VIDEO) ds false a_late_packet (times started_task).

Lemma jumps_are_corrected_witness :
  Forall (fun ds => exists y t' pkt', micros thousand 20000 y /\ detected ds = Ret (t', pkt') /\ corrected ds y a_late_packet pkt' (times started_task) t')
    [a_video_stream; back_stream; next_stream] /\
  (fun ds => match detected ds with Ret (t, p) => Some (dts p, ts_offset_discont t) | _ => None end) <$> [a_video_stream; back_stream; next_stream] =
    [Some (40, -19960000); Some (20340, 340000); Some (20000, 0)].
Proof.
  split; [|reflexivity].
  assert (forall ds, expecting ds a_late_packet (times started_task) ->
    exists y t' pkt', micros thousand 20000 y /\ detected ds = Ret (t', pkt') /\ corrected ds y a_late_packet pkt' (times started_task) t') as H.
  { intros ds Hds. exact (@jumps_are_corrected ported ported_demux checked_profile (in_format (av_input true None)) (a_stream AVMEDIA_TYPE_VIDEO) ds a_late_packet
      (times started_task) ported_is_the_port eq_refl Hds). }
  repeat apply Forall_cons; [| | |by apply Forall_nil]; apply H; (split; [| | |by left|]); unfold proper_base, moderate; split_and?; vm_compute; (reflexivity || discriminate).
Defined.
