(* ===== verification/Lifecycle.v ===== *)
(** * The life of a job ([core/scheduler/ffmpeg_scheduler.rs] and
    [util/thread_synchronizer.rs] of ez-ffmpeg)

    What the owner of a scheduler calls, and what the threads of the muxers and the
    tasks that fail do meanwhile: every load, store and lock is a step, and a run is
    any order of them.  Only muxers are counted by the synchronizer. *)

From stdpp Require Import base list option.
From Stdlib Require Import ZArith Lia.
From S2P Require Import Choke.
From S2P Require Import Prelude Errors.

Local Open Scope Z_scope.

(** ** State *)

(** The thread of a muxer, towards its end: it runs; it has called [thread_done]; it
    found that all are done; it is gone. *)
Inductive MuxPhase := MuxRuns | MuxCounted | MuxLast | MuxExited.

(** What a call comes to. *)
Inductive CallResult := WaitResult (r : option Error) | Aborted | Stopped | Dropped.

(** What follows [wait_for_all_threads]. *)
Inductive After := AfterWait | AfterStop | AfterDrop (r : CallResult).

(** The owner: it holds a running or paused scheduler, or it is inside a call, with
    the status that it has loaded as stopping or not. *)
Inductive Owner :=
  | Holds (paused : bool)
  | PauseWith (stopping : bool)
  | ResumeWith (stopping : bool)
  | WaitWith (stopping : bool)
  | WaitThreads (next : After)
  | WaitStores
  | Takes
  | Drops (r : CallResult)
  | DropWith (stopping : bool) (r : CallResult)
  | PollWith (stopping : bool)
  | PollSets
  | PollPending
  | Returned (r : CallResult).

(** [counter] and [waker] of the synchronizer, the status and the result of the
    scheduler, and whether a reporter of an error holds the result's lock.  The owner
    is [asleep] on the condition or, as a future, until it is woken.  [recorded] and
    [taken] are history: the errors that were stored, and those stored before the
    result was taken. *)
Record Job := {
  job_status : Z;
  counter : nat;
  muxers : list MuxPhase;
  result : option Error;
  reporting : bool;
  waker : bool;
  asleep : bool;
  owner : Owner;
  recorded : list Error;
  taken : option (list Error)
}.

(** [start] of a job with [n] outputs. *)
Definition job_started (n : nat) : Job :=
  {| job_status := STATUS_RUN; counter := n; muxers := replicate n MuxRuns; result := None; reporting := false; waker := false; asleep := false;
     owner := Holds false; recorded := []; taken := None |}.

Definition set_job_status (s : Z) (j : Job) : Job :=
  {| job_status := s; counter := counter j; muxers := muxers j; result := result j; reporting := reporting j; waker := waker j; asleep := asleep j;
     owner := owner j; recorded := recorded j; taken := taken j |}.

Definition set_owner (o : Owner) (j : Job) : Job :=
  {| job_status := job_status j; counter := counter j; muxers := muxers j; result := result j; reporting := reporting j; waker := waker j; asleep := asleep j;
     owner := o; recorded := recorded j; taken := taken j |}.

Definition set_asleep (w b : bool) (j : Job) : Job :=
  {| job_status := job_status j; counter := counter j; muxers := muxers j; result := result j; reporting := reporting j; waker := w; asleep := b;
     owner := owner j; recorded := recorded j; taken := taken j |}.

Definition set_muxer (m : nat) (p : MuxPhase) (n : nat) (j : Job) : Job :=
  {| job_status := job_status j; counter := n; muxers := <[m := p]> (muxers j); result := result j; reporting := reporting j; waker := waker j;
     asleep := asleep j; owner := owner j; recorded := recorded j; taken := taken j |}.

(** ** The synchronizer *)

(** [thread_done], under the lock of the counter; the condition has one waiter. *)
Definition thread_done (m : nat) (j : Job) : option Job :=
  match counter j with
  | O => None
  | S n =>
    let j := set_muxer m MuxCounted n j in
    Some (if (n =? 0)%nat then
      set_asleep false (match owner j with WaitThreads _ => false | PollPending => asleep j && negb (waker j) | _ => asleep j end) j
      else j)
  end.

Definition is_all_threads_done (j : Job) : bool := (counter j =? 0)%nat.

(** [wait_for_all_threads], from one look at the counter to the next. *)
Definition wait_for_all_threads (next : Job -> Job) (j : Job) : Job := if is_all_threads_done j then next j else set_asleep (waker j) true j.

(** ** Errors *)

(** [set_scheduler_error], up to the store of the status. *)
Definition report_error (e : Error) (j : Job) : Job :=
  match result j with
  | Some _ => j
  | None =>
    {| job_status := job_status j; counter := counter j; muxers := muxers j; result := Some e; reporting := true; waker := waker j; asleep := asleep j;
       owner := owner j; recorded := recorded j ++ [e]; taken := taken j |}
  end.

Definition report_store (j : Job) : Job :=
  {| job_status := STATUS_END; counter := counter j; muxers := muxers j; result := result j; reporting := false; waker := waker j; asleep := asleep j;
     owner := owner j; recorded := recorded j; taken := taken j |}.

(** [self.result.lock().unwrap().take()] *)
Definition take_result (j : Job) : Job :=
  {| job_status := job_status j; counter := counter j; muxers := muxers j; result := None; reporting := reporting j; waker := waker j; asleep := asleep j;
     owner := Drops (WaitResult (result j)); recorded := recorded j; taken := Some (recorded j) |}.

(** ** Calls *)

Inductive Call := CPause | CResume | CWait | CAbort | CStop | CDrop | CPoll.

(** The calls of [FfmpegScheduler<Running>] and [FfmpegScheduler<Paused>], up to their
    second step. *)
Definition call (c : Call) (j : Job) : option Job :=
  match owner j, c with
  | Holds false, CPause => Some (set_owner (PauseWith (is_stopping (job_status j))) j)
  | Holds true, CResume => Some (set_owner (ResumeWith (is_stopping (job_status j))) j)
  | Holds false, CWait => Some (set_owner (WaitWith (is_stopping (job_status j))) j)
  | Holds _, CAbort => Some (set_owner (Drops Aborted) (set_job_status STATUS_ABORT j))
  | Holds false, CStop => Some (set_owner (WaitThreads AfterStop) (set_job_status STATUS_END j))
  | Holds _, CDrop => Some (set_owner (Drops Dropped) j)
  | Holds false, CPoll => Some (set_owner (PollWith (is_stopping (job_status j))) j)
  | _, _ => None
  end.

(** The next step of a call.  [wait], [abort] and [stop] consume the scheduler: its
    guard is dropped at their end. *)
Definition owner_step (j : Job) : option Job :=
  if asleep j then None
  else match owner j with
  | Holds _ | Returned _ => None
  | PauseWith stopping => Some (set_owner (Holds true) (if stopping then j else set_job_status STATUS_PAUSE j))
  | ResumeWith stopping => Some (set_owner (Holds false) (if stopping then j else set_job_status STATUS_RUN j))
  | WaitWith stopping => Some (set_owner (if stopping then Takes else WaitThreads AfterWait) j)
  | WaitThreads AfterWait => Some (wait_for_all_threads (set_owner WaitStores) j)
  | WaitThreads AfterStop => Some (wait_for_all_threads (set_owner (Drops Stopped)) j)
  | WaitThreads (AfterDrop r) => Some (wait_for_all_threads (set_owner (Returned r)) j)
  | WaitStores => Some (set_owner Takes (set_job_status STATUS_END j))
  | Takes => if reporting j then None else Some (take_result j)
  | Drops r => Some (set_owner (DropWith (is_stopping (job_status j)) r) j)
  | DropWith stopping r => Some (set_owner (WaitThreads (AfterDrop r)) (if stopping then j else set_job_status STATUS_END j))
  | PollWith stopping => Some (set_owner (if stopping then Takes else PollSets) j)
  | PollSets => Some (set_owner PollPending (set_asleep true true j))
  | PollPending => Some (set_owner (PollWith (is_stopping (job_status j))) j)
  end.

(** ** Runs *)

Inductive JobEvent :=
  | ThreadDone (m : nat)       (* [thread_sync.thread_done()] *)
  | CheckAll (m : nat)         (* [if thread_sync.is_all_threads_done()] *)
  | StoreEnd (m : nat)         (* [scheduler_status.store(STATUS_END)] *)
  | Leaves (m : nat)           (* a muxer that was stopped before its start does not look *)
  | Reports (e : Error)
  | ReportStores
  | Calls (c : Call)
  | OwnerStep
  | Spurious.                  (* the condition wakes without a reason *)

Definition job_step (e : JobEvent) (j : Job) : option Job :=
  match e with
  | ThreadDone m => match muxers j !! m with Some MuxRuns => thread_done m j | _ => None end
  | CheckAll m =>
    match muxers j !! m with
    | Some MuxCounted => Some (set_muxer m (if is_all_threads_done j then MuxLast else MuxExited) (counter j) j)
    | _ => None
    end
  | StoreEnd m => match muxers j !! m with Some MuxLast => Some (set_job_status STATUS_END (set_muxer m MuxExited (counter j) j)) | _ => None end
  | Leaves m => match muxers j !! m with Some MuxCounted => Some (set_muxer m MuxExited (counter j) j) | _ => None end
  | Reports e => if reporting j then None else Some (report_error e j)
  | ReportStores => if reporting j then Some (report_store j) else None
  | Calls c => call c j
  | OwnerStep => owner_step j
  | Spurious => match owner j with WaitThreads _ => Some (set_asleep (waker j) false j) | _ => None end
  end.

Fixpoint job_run (l : list JobEvent) (j : Job) : option Job :=
  match l with
  | [] => Some j
  | e :: l => match job_step e j with Some j => job_run l j | None => None end
  end.

(** What a run of a job with [n] outputs comes to. *)
Definition job_after (n : nat) (l : list JobEvent) : option Job := job_run l (job_started n).

(** A muxer whose thread has counted down. *)
Definition muxer_done (p : MuxPhase) : Prop := p <> MuxRuns.

(** The steps that the owner takes alone. *)
Fixpoint owner_steps (n : nat) (j : Job) : Job :=
  match n with O => j | S n => match owner_step j with Some j => owner_steps n j | None => j end end.
