(* ===== verification/LifecycleSpec.v ===== *)
(** * The promises of a job's life

    A call that waits returns only when every muxer is done, and it does return then,
    behind a task that is just reporting an error; [wait] gives the first error.  Two
    races of the owner with the last muxer: a future that is never woken, and a pause
    that revives an ended job. *)

From stdpp Require Import base list option.
From Stdlib Require Import ZArith Lia.
From S2P Require Import Choke.
From S2P Require Import Prelude Errors Lifecycle.

Local Open Scope Z_scope.

(** ** The invariant *)

#[export] Instance MuxPhase_eq_dec : EqDecision MuxPhase.
Proof. solve_decision. Defined.

Definition running_muxers (l : list MuxPhase) : nat := length (filter (fun p => p = MuxRuns) l).

(** What the call in progress will return, once that is known. *)
Definition known_result (o : Owner) : option CallResult :=
  match o with
  | Drops r | DropWith _ r | WaitThreads (AfterDrop r) | Returned r => Some r
  | _ => None
  end.

Definition history_ok (j : Job) : Prop :=
  match taken j with
  | None => result j = head (recorded j) /\ forall r, known_result (owner j) <> Some (WaitResult r)
  | Some l => l `prefix_of` recorded j /\ known_result (owner j) = Some (WaitResult (head l))
  end.

Record job_ok (j : Job) : Prop := {
  j_counter : counter j = running_muxers (muxers j);
  j_asleep : asleep j = true -> owner j = PollPending \/ (exists next, owner j = WaitThreads next) /\ counter j <> 0%nat;
  j_past : match owner j with WaitStores | Returned _ => counter j = 0%nat | _ => True end;
  j_history : history_ok j
}.

Lemma running_insert l m p q :
  l !! m = Some p -> (running_muxers (<[m := q]> l) + (if decide (p = MuxRuns) then 1 else 0) = running_muxers l + (if decide (q = MuxRuns) then 1 else 0))%nat.
Proof.
  unfold running_muxers. revert m. induction l as [|x l IH]; intros [|m] Hm; cbn in Hm; try done.
  - injection Hm as ->. cbn [insert list_insert]. rewrite !filter_cons. destruct (decide (p = MuxRuns)), (decide (q = MuxRuns)); cbn [length]; lia.
  - change (<[S m := q]> (x :: l)) with (x :: <[m := q]> l). rewrite !filter_cons. specialize (IH m Hm). destruct (decide (x = MuxRuns)); cbn [length]; lia.
Qed.

Lemma running_same l m p q : l !! m = Some p -> p <> MuxRuns -> q <> MuxRuns -> running_muxers (<[m := q]> l) = running_muxers l.
Proof. intros Hm Hp Hq. pose proof (running_insert l m p q Hm) as H. rewrite !decide_False in H by done. lia. Qed.

Lemma running_none l : running_muxers l = 0%nat -> Forall muxer_done l.
Proof.
  unfold running_muxers. induction l as [|p l IH]; [constructor|]. rewrite filter_cons. destruct (decide (p = MuxRuns)); [done|]. intros H.
  apply Forall_cons; [done|by apply IH].
Qed.

Lemma none_running l : Forall muxer_done l -> running_muxers l = 0%nat.
Proof.
  unfold running_muxers. induction l as [|p l IH]; [done|]. intros [Hp Hl]%Forall_cons_1. rewrite filter_cons, decide_False by done. by apply IH.
Qed.

Lemma started_ok n : job_ok (job_started n).
Proof.
  split; [|done|done|by split]. cbn [job_started counter muxers]. unfold running_muxers. induction n as [|n IH]; [done|].
  cbn [replicate]. rewrite filter_cons_True by done. cbn [length]. by rewrite <-IH.
Qed.

(** ** The steps *)

Lemma thread_done_ok m j j' : job_ok j -> muxers j !! m = Some MuxRuns -> thread_done m j = Some j' -> job_ok j'.
Proof.
  intros [Hc Ha Hp Hh] Hm. unfold thread_done. pose proof (running_insert _ m MuxRuns MuxCounted Hm) as Hr. rewrite decide_True, decide_False in Hr by done.
  destruct (counter j) as [|n] eqn:En; [done|]. intros [= <-]. destruct (n =? 0)%nat eqn:E0.
  - split; cbn [set_asleep set_muxer counter muxers asleep owner]; [lia| | |done].
    + destruct (owner j) eqn:Eo; try done; intros Has; try (by left); destruct (Ha Has) as [?|[[? ?] _]]; done.
    + destruct (owner j); try done.
  - apply Nat.eqb_neq in E0. split; cbn [set_muxer counter muxers asleep owner]; [lia| | |done].
    + intros Has. destruct (Ha Has) as [?|[? _]]; [by left|by right].
    + destruct (owner j); done.
Qed.

Lemma set_muxer_ok m p q j :
  job_ok j -> muxers j !! m = Some p -> p <> MuxRuns -> q <> MuxRuns -> job_ok (set_muxer m q (counter j) j).
Proof. intros [Hc Ha Hp Hh] Hm Hpp Hq. split; [|done..]. cbn [set_muxer counter muxers]. by rewrite (running_same _ _ p). Qed.

Lemma status_ok s j : job_ok j -> job_ok (set_job_status s j).
Proof. by intros []. Qed.

Lemma report_ok e j : job_ok j -> job_ok (report_error e j).
Proof.
  intros [Hc Ha Hp Hh]. unfold report_error. destruct (result j) eqn:E; [by split|]. split; [done..|].
  unfold history_ok in *. cbn [taken result recorded owner]. destruct (taken j) as [l|].
  - destruct Hh as [Hl Ho]. split; [|done]. by apply prefix_app_r.
  - destruct Hh as [Hl Ho]. split; [|done]. rewrite E in Hl. by destruct (recorded j).
Qed.

Lemma take_result_ok j : job_ok j -> owner j = Takes -> asleep j = false -> job_ok (take_result j).
Proof.
  intros [Hc Ha Hp Hh] Ho Has. split; [done|cbn [take_result asleep]; by rewrite Has|done|]. unfold history_ok in *. cbn [take_result taken recorded owner known_result].
  split; [done|]. rewrite Ho in Hh. destruct (taken j); [by destruct Hh|]. by destruct Hh as [-> _].
Qed.

(** A step of the owner that neither sleeps nor takes the result. *)
Definition goes_to (j : Job) (o : Owner) : Prop :=
  (known_result o = known_result (owner j) \/ (known_result (owner j) = None /\ forall r, known_result o <> Some (WaitResult r))) /\
  match o with WaitStores | Returned _ => counter j = 0%nat | _ => True end.

Lemma set_owner_ok o j : job_ok j -> asleep j = false -> goes_to j o -> job_ok (set_owner o j).
Proof.
  intros [Hc Ha Hp Hh] Has [Hk Ho]. split; [done|cbn [set_owner asleep]; by rewrite Has|done|]. unfold history_ok in *. cbn [set_owner taken result recorded owner].
  destruct Hk as [->|[Hn Hk]]; [done|]. destruct (taken j); [destruct Hh; congruence|]. by destruct Hh.
Qed.

Lemma wait_ok o j : job_ok j -> asleep j = false -> (exists next, owner j = WaitThreads next) -> (counter j = 0%nat -> goes_to j o) ->
  job_ok (wait_for_all_threads (set_owner o) j).
Proof.
  intros Hok Has Hw Hg. unfold wait_for_all_threads, is_all_threads_done. destruct (counter j =? 0)%nat eqn:E0.
  - apply set_owner_ok; [done|done|]. apply Hg. by apply Nat.eqb_eq.
  - apply Nat.eqb_neq in E0. destruct Hok. split; [done| |done|done]. intros _. by right.
Qed.

Lemma owner_step_ok j j' : job_ok j -> owner_step j = Some j' -> job_ok j'.
Proof.
  intros Hok. unfold owner_step. destruct (asleep j) eqn:Has; [done|].
  assert (forall o, goes_to j o -> job_ok (set_owner o j)) as Hset by (intros; by apply set_owner_ok).
  assert (forall s o, goes_to j o -> job_ok (set_owner o (set_job_status s j))) as Hst by (intros; apply set_owner_ok; [by apply status_ok|done|done]).
  pose proof (fun o => wait_ok o j Hok Has) as Hwait. unfold goes_to in *.
  destruct (owner j) as [b|b|b|b|[| |r]| | |r|b r|b| | |r] eqn:Eo; intros H; try discriminate; try (injection H as <-).
  all: try (destruct b; cbv iota; first [apply Hst | apply Hset]; (split; [by left|done])).
  - apply Hwait; [by eexists|]. intros. by split; [left|].
  - apply Hwait; [by eexists|]. intros. by split; [right|].
  - apply Hwait; [by eexists|]. intros. by split; [left|].
  - apply Hst. by split; [left|].
  - destruct (reporting j); [done|]. injection H as <-. by apply take_result_ok.
  - apply Hset. by split; [left|].
  - destruct Hok as [Hc Ha Hp Hh]. split; [done|by left|done|]. unfold history_ok in *. by rewrite Eo in Hh.
  - apply Hset. by split; [left|].
Qed.

Lemma call_ok c j j' : job_ok j -> call c j = Some j' -> job_ok j'.
Proof.
  intros Hok. unfold call. destruct (owner j) as [b| | | | | | | | | | | |] eqn:Eo; try done.
  assert (asleep j = false) as Has.
  { destruct Hok as [_ Ha _ _]. destruct (asleep j); [|done]. destruct (Ha eq_refl) as [?|[[? ?] _]]; congruence. }
  assert (forall o, goes_to j o -> job_ok (set_owner o j)) as Hset by (intros; by apply set_owner_ok).
  assert (forall s o, goes_to j o -> job_ok (set_owner o (set_job_status s j))) as Hst by (intros; apply set_owner_ok; [by apply status_ok|done|done]).
  unfold goes_to in *. rewrite Eo in *. destruct b, c; intros H; try discriminate; injection H as <-; first [apply Hst | apply Hset]; first [by split; [left|] | by split; [right; split|]].
Qed.

Lemma job_step_ok e j j' : job_ok j -> job_step e j = Some j' -> job_ok j'.
Proof.
  intros Hok. destruct e as [m|m|m|m|err| |c| |]; cbn [job_step].
  - destruct (muxers j !! m) as [[| | |]|] eqn:Em; try done. by apply thread_done_ok.
  - destruct (muxers j !! m) as [[| | |]|] eqn:Em; try done. intros [= <-]. apply (set_muxer_ok m MuxCounted); try done. by destruct (is_all_threads_done j).
  - destruct (muxers j !! m) as [[| | |]|] eqn:Em; try done. intros [= <-]. apply status_ok. by apply (set_muxer_ok m MuxLast).
  - destruct (muxers j !! m) as [[| | |]|] eqn:Em; try done. intros [= <-]. by apply (set_muxer_ok m MuxCounted).
  - destruct (reporting j); [done|]. intros [= <-]. by apply report_ok.
  - destruct (reporting j); [|done]. intros [= <-]. by destruct Hok.
  - by apply call_ok.
  - by apply owner_step_ok.
  - destruct (owner j) eqn:Eo; try done. intros [= <-]. by destruct Hok.
Qed.

Lemma job_run_ok l j j' : job_ok j -> job_run l j = Some j' -> job_ok j'.
Proof.
  revert j. induction l as [|e l IH]; intros j Hok; cbn [job_run]; [by intros [= <-]|].
  destruct (job_step e j) eqn:E; [|done]. apply IH. by eapply job_step_ok.
Qed.

(** ** The promises *)

(** However the owner, the muxers and the tasks that fail run: a call that waits has
    returned only when all muxers are done, and [wait] returns the first error of the
    job, or none when none was stored before it took the result. *)
Theorem calls_return_when_all_is_done (n : nat) (l : list JobEvent) (j : Job) (r : CallResult) :
  job_after n l = Some j -> owner j = Returned r ->
  Forall muxer_done (muxers j) /\
  (forall e, r = WaitResult (Some e) -> head (recorded j) = Some e) /\ (r = WaitResult None -> taken j = Some []).
Proof.
  intros Hrun Ho. pose proof (job_run_ok _ _ _ (started_ok n) Hrun) as [Hc _ Hp Hh]. rewrite Ho in Hp. split_and!.
  - apply running_none. congruence.
  - intros e ->. unfold history_ok in Hh. rewrite Ho in Hh. destruct (taken j) as [t|]; [|by destruct Hh as [_ H]; destruct (H (Some e))].
    destruct Hh as [[k ->] [= H]]. by destruct t.
  - intros ->. unfold history_ok in Hh. rewrite Ho in Hh. destruct (taken j) as [t|]; [|by destruct Hh as [_ H]; destruct (H None)].
    destruct Hh as [_ [= H]]. by destruct t.
Qed.

(** A call that waits and has not returned. *)
Definition blocked (o : Owner) : Prop :=
  match o with WaitWith _ | WaitThreads _ | WaitStores | Takes | Drops _ | DropWith _ _ => True | _ => False end.

(** A task that has stored an error, and holds the lock of the result, stores the status
    and lets go. *)
Definition reporter_lets_go (j : Job) : Job := if reporting j then report_store j else j.

Lemma reporter_steps j : reporting j = true -> job_step ReportStores j = Some (reporter_lets_go j).
Proof. unfold reporter_lets_go. cbn [job_step]. by intros ->. Qed.

(** C38. When all muxers are done, a call of [wait], [stop], [abort] or the end of the
    scheduler that has not returned does not sleep, whatever happened before, and it
    returns in seven steps of its own, as soon as a task that is reporting an error, if
    there is one, has made the one step that it still has to make.  (The future of a job
    is another matter: it can sleep for ever.) *)
Theorem waiting_calls_return (n : nat) (l : list JobEvent) (j : Job) :
  job_after n l = Some j -> Forall muxer_done (muxers j) -> blocked (owner j) ->
  asleep j = false /\ exists r, owner (owner_steps 7 (reporter_lets_go j)) = Returned r.
Proof.
  intros Hrun Hd Hb. pose proof (job_run_ok _ _ _ (started_ok n) Hrun) as [Hc Ha _ _]. rewrite (none_running _ Hd) in Hc.
  assert (asleep j = false) as Has.
  { destruct (asleep j); [|done]. destruct (Ha eq_refl) as [Ho|[_ ?]]; [by rewrite Ho in Hb|done]. }
  split; [done|]. clear Ha Hrun Hd. destruct j as [s c ms re rep w a o rc t]. cbn in *. subst. unfold reporter_lets_go. cbn [reporting].
  destruct rep, o as [b|b|b|[]|[| |r]| | |r|[] r|b| | |r]; try done; cbn; try (by eexists); destruct (is_stopping _); by eexists.
Qed.

(** A future that sleeps when the last muxer is gone sleeps for ever. *)
Lemma never_woken (l : list JobEvent) (j j' : Job) :
  Forall (fun p => p = MuxExited) (muxers j) -> owner j = PollPending -> asleep j = true -> job_run l j = Some j' ->
  owner j' = PollPending /\ asleep j' = true.
Proof.
  revert j. induction l as [|e l IH]; intros j Hm Ho Ha; cbn [job_run]; [by intros [= <-]|].
  assert (forall m p, muxers j !! m = Some p -> p = MuxExited) as Hp by (intros m p Hmp; exact (Forall_lookup_1 _ _ _ _ Hm Hmp)).
  destruct (job_step e j) as [j1|] eqn:E; [|done].
  assert (muxers j1 = muxers j /\ owner j1 = PollPending /\ asleep j1 = true) as (Hm1 & Ho1 & Ha1).
  { destruct e as [m|m|m|m|err| |c| |]; cbn [job_step] in E;
      try (destruct (muxers j !! m) as [p|] eqn:Em; [|done]; rewrite (Hp m p Em) in E; done).
    - destruct (reporting j); [done|]. injection E as <-. unfold report_error. by destruct (result j).
    - destruct (reporting j); [|done]. by injection E as <-.
    - unfold call in E. by rewrite Ho in E.
    - unfold owner_step in E. by rewrite Ha in E.
    - by rewrite Ho in E. }
  apply IH; [by rewrite Hm1|done|done].
Qed.

(** ** Runs *)

(** What is seen of a job. *)
Definition seen (n : nat) (l : list JobEvent) : option (Z * list MuxPhase * Owner * bool) :=
  j ← job_after n l; Some (job_status j, muxers j, owner j, asleep j).

(** The last muxer ends between the load of the status and the waker: the future is
    never woken. *)
Example future_is_never_woken :
  seen 1 [Calls CPoll; ThreadDone 0; CheckAll 0; StoreEnd 0; OwnerStep; OwnerStep] = Some (STATUS_END, [MuxExited], PollPending, true).
Proof. by vm_compute. Qed.

(** The waker is called before the status says that the job has ended: the future looks
    once more, too early. *)
Example future_is_woken_too_early :
  seen 1 [Calls CPoll; OwnerStep; OwnerStep; ThreadDone 0; OwnerStep; OwnerStep; OwnerStep; CheckAll 0; StoreEnd 0] = Some (STATUS_END, [MuxExited], PollPending, true).
Proof. by vm_compute. Qed.

(** The job ends while it is being paused: it is paused, and not ended. *)
Example pause_revives_an_ended_job :
  seen 1 [Calls CPause; ThreadDone 0; CheckAll 0; StoreEnd 0; OwnerStep] = Some (STATUS_PAUSE, [MuxExited], Holds true, false).
Proof. by vm_compute. Qed.

(** [abort] drops the guard of the scheduler, which waits for the muxers. *)
Example abort_waits : seen 1 [Calls CAbort; OwnerStep; OwnerStep; OwnerStep] = Some (STATUS_ABORT, [MuxRuns], WaitThreads (AfterDrop Aborted), true).
Proof. by vm_compute. Qed.

(** [wait] of a job with two outputs, of which one fails. *)
Definition a_failed_wait : list JobEvent :=
  [Calls CWait; OwnerStep; OwnerStep; Reports Error.EOF; ReportStores; Reports Error.Exit; ThreadDone 0; CheckAll 0; Spurious; OwnerStep; ThreadDone 1;
   OwnerStep; OwnerStep; OwnerStep; OwnerStep; OwnerStep; OwnerStep].

Definition failed_job : Job := default (job_started 2) (job_after 2 a_failed_wait).

Lemma calls_return_when_all_is_done_witness :
  owner failed_job = Returned (WaitResult (Some Error.EOF)) /\ Forall muxer_done (muxers failed_job) /\
  (forall e, WaitResult (Some Error.EOF) = WaitResult (Some e) -> head (recorded failed_job) = Some e) /\
  (WaitResult (Some Error.EOF) = WaitResult None -> taken failed_job = Some []).
Proof. split; [by vm_compute|]. apply (calls_return_when_all_is_done 2 a_failed_wait); by vm_compute. Defined.

(** [wait] sleeps while the muxer runs, and a task stores an error. *)
Definition a_sleeping_wait : list JobEvent := [Calls CWait; OwnerStep; OwnerStep; Reports Error.EOF; ThreadDone 0].

Definition waiting_job : Job := default (job_started 1) (job_after 1 a_sleeping_wait).

Lemma waiting_calls_return_witness : asleep waiting_job = false /\ exists r, owner (owner_steps 7 (reporter_lets_go waiting_job)) = Returned r.
Proof.
  apply (waiting_calls_return 1 a_sleeping_wait); [by vm_compute| |exact I].
  apply Forall_cons; [by vm_compute|by apply Forall_nil].
Defined.
