(* ===== verification/DecTimes.v ===== *)
(** * Timestamps of decoded frames ([ez-ffmpeg/src/core/scheduler/dec_task.rs])

    What the decoding task does to a frame that its codec gave: the presentation time
    of a video frame and the guess of its duration, the clock of audio that survives a
    change of the sample rate, hardware frames and cropping.  The decoder's context and
    the functions on frames are the class [AvDec]. *)

From stdpp Require Import base list option.
From Stdlib Require Import ZArith Lia.
From S2P Require Import Choke.
From S2P Require Import Prelude RustInt Errors StreamSpec Muxer Rescale MuxTask DemuxTimes.

Local Open Scope Z_scope.
Local Open Scope rust_scope.

(** ** Frames *)

(** The fields of an [AVFrame] that the task reads; [has_buf] says whether [buf[0]] is
    there, and [content] is what the buffers hold. *)
Record AVFrame := {
  f_pts : Z;
  best_effort_timestamp : Z;
  f_duration : Z;
  f_time_base : AVRational;
  repeat_pict : Z;
  f_sample_rate : Z;
  f_nb_samples : Z;
  f_format : Z;
  f_width : Z;
  f_height : Z;
  decode_error_flags : Z;
  corrupt : bool;              (* AV_FRAME_FLAG_CORRUPT *)
  f_opaque : Z;
  f_sar : AVRational;
  has_buf : bool;
  content : list Z
}.

(** A frame of the pool. *)
Definition new_frame : AVFrame :=
  {| f_pts := AV_NOPTS_VALUE; best_effort_timestamp := AV_NOPTS_VALUE; f_duration := 0; f_time_base := {| num := 0; den := 1 |}; repeat_pict := 0;
     f_sample_rate := 0; f_nb_samples := 0; f_format := -1; f_width := 0; f_height := 0; decode_error_flags := 0; corrupt := false; f_opaque := 0;
     f_sar := {| num := 0; den := 1 |}; has_buf := false; content := [] |}.

Definition set_frame_times (p d : Z) (base : AVRational) (f : AVFrame) : AVFrame :=
  {| f_pts := p; best_effort_timestamp := best_effort_timestamp f; f_duration := d; f_time_base := base; repeat_pict := repeat_pict f;
     f_sample_rate := f_sample_rate f; f_nb_samples := f_nb_samples f; f_format := f_format f; f_width := f_width f; f_height := f_height f;
     decode_error_flags := decode_error_flags f; corrupt := corrupt f; f_opaque := f_opaque f; f_sar := f_sar f; has_buf := has_buf f; content := content f |}.

Definition set_frame_pts (p : Z) (f : AVFrame) : AVFrame := set_frame_times p (f_duration f) (f_time_base f) f.

Definition set_frame_base (base : AVRational) (f : AVFrame) : AVFrame := set_frame_times (f_pts f) (f_duration f) base f.

Definition set_frame_sar (sar : AVRational) (f : AVFrame) : AVFrame :=
  {| f_pts := f_pts f; best_effort_timestamp := best_effort_timestamp f; f_duration := f_duration f; f_time_base := f_time_base f; repeat_pict := repeat_pict f;
     f_sample_rate := f_sample_rate f; f_nb_samples := f_nb_samples f; f_format := f_format f; f_width := f_width f; f_height := f_height f;
     decode_error_flags := decode_error_flags f; corrupt := corrupt f; f_opaque := f_opaque f; f_sar := sar; has_buf := has_buf f; content := content f |}.

(** What the task knows of its packets, beyond their data: whether they have a buffer,
    and the mark of the demuxer. *)
Record DecPacket := { dec_packet : Packet; packet_buf : bool; packet_opaque : Z }.

(** The decoder, as the task calls it. *)
Class AvDec `{Dmx : AvDemux} := {
  av_gcd : Z -> Z -> Z;
  (** the transfer of a hardware frame to a frame of the given format, and the copy of
      the properties; an error, or the frame *)
  av_hwframe_transfer_data : Z -> AVFrame -> Z + AVFrame;
  av_frame_copy_props : AVFrame -> AVFrame -> Z + AVFrame;
  av_frame_apply_cropping : AVFrame -> Z * AVFrame;
  (** the codec's context: its fields and its functions *)
  Dec : Type;
  codec_type : Dec -> AVMediaType;
  dec_framerate : Dec -> AVRational;
  pkt_timebase : Dec -> AVRational;
  bits_per_raw_sample : Dec -> Z;
  dec_width : Dec -> Z;
  dec_height : Dec -> Z;
  dec_subtitle_header : Dec -> list Z;
  avcodec_send_packet : Dec -> option Packet -> Z * Dec;
  avcodec_receive_frame : Dec -> (Z + AVFrame) * Dec;
  avcodec_flush_buffers : Dec -> Dec;
  (** the result, [got_output] with the subtitle *)
  avcodec_decode_subtitle2 : Dec -> Packet -> Z * option (list Z) * Dec
}.

Section Times.
  Context `{Lib : AvDec} `{Prof : Profile}.

(** ** The state *)

Record DecoderParameter := {
  frames_decoded : Z;
  samples_decoded : Z;
  decode_errors : Z;
  sar_override : AVRational;
  framerate_in : AVRational;
  apply_cropping : Z;
  hwaccel_output_format : Z;
  hwaccel_pix_fmt : Z;
  last_frame_pts : Z;
  last_frame_duration_est : Z;
  last_frame_tb : AVRational;
  last_filter_in_rescale_delta : Z;
  last_frame_sample_rate : Z
}.

(** [DecoderParameter::new], with AV_PIX_FMT_NONE. *)
Definition DecoderParameter_new (sar framerate : AVRational) (output_format : Z) : DecoderParameter :=
  {| frames_decoded := 0; samples_decoded := 0; decode_errors := 0; sar_override := sar; framerate_in := framerate; apply_cropping := 0;
     hwaccel_output_format := output_format; hwaccel_pix_fmt := -1; last_frame_pts := 0; last_frame_duration_est := 0;
     last_frame_tb := {| num := 1; den := 1 |}; last_filter_in_rescale_delta := 0; last_frame_sample_rate := 0 |}.

Definition set_counts (frames samples errors : Z) (dp : DecoderParameter) : DecoderParameter :=
  {| frames_decoded := frames; samples_decoded := samples; decode_errors := errors; sar_override := sar_override dp; framerate_in := framerate_in dp;
     apply_cropping := apply_cropping dp; hwaccel_output_format := hwaccel_output_format dp; hwaccel_pix_fmt := hwaccel_pix_fmt dp;
     last_frame_pts := last_frame_pts dp; last_frame_duration_est := last_frame_duration_est dp; last_frame_tb := last_frame_tb dp;
     last_filter_in_rescale_delta := last_filter_in_rescale_delta dp; last_frame_sample_rate := last_frame_sample_rate dp |}.

Definition set_last (p est : Z) (base : AVRational) (dp : DecoderParameter) : DecoderParameter :=
  {| frames_decoded := frames_decoded dp; samples_decoded := samples_decoded dp; decode_errors := decode_errors dp; sar_override := sar_override dp;
     framerate_in := framerate_in dp; apply_cropping := apply_cropping dp; hwaccel_output_format := hwaccel_output_format dp;
     hwaccel_pix_fmt := hwaccel_pix_fmt dp; last_frame_pts := p; last_frame_duration_est := est; last_frame_tb := base;
     last_filter_in_rescale_delta := last_filter_in_rescale_delta dp; last_frame_sample_rate := last_frame_sample_rate dp |}.

Definition set_rescale (delta rate : Z) (dp : DecoderParameter) : DecoderParameter :=
  {| frames_decoded := frames_decoded dp; samples_decoded := samples_decoded dp; decode_errors := decode_errors dp; sar_override := sar_override dp;
     framerate_in := framerate_in dp; apply_cropping := apply_cropping dp; hwaccel_output_format := hwaccel_output_format dp;
     hwaccel_pix_fmt := hwaccel_pix_fmt dp; last_frame_pts := last_frame_pts dp; last_frame_duration_est := last_frame_duration_est dp;
     last_frame_tb := last_frame_tb dp; last_filter_in_rescale_delta := delta; last_frame_sample_rate := rate |}.

(** Where the frame behind the last one starts. *)
Definition predicted (dp : DecoderParameter) : outcome Z :=
  if last_frame_pts dp =? AV_NOPTS_VALUE then Ret 0 else i64_add (last_frame_pts dp) (last_frame_duration_est dp).

(** ** Video *)

(** The duration of so many fields, when the codec has a frame rate. *)
Definition field_duration (ctx : Dec) (f : AVFrame) : outcome Z :=
  if negb (den (dec_framerate ctx) =? 0) && negb (num (dec_framerate ctx) =? 0) then
    fields ← signed 32 (repeat_pict f + 2);
    Ret (rescale_q fields (av_inv_q (av_mul_q (dec_framerate ctx) {| num := 2; den := 1 |})) (f_time_base f))
  else Ret 0.

(** The guesses behind the reliable duration of the frame, in their order. *)
Definition guess_duration (dp : DecoderParameter) (ts_diff codec_duration : Z) (f : AVFrame) : Z :=
  let average := rescale_q 1 (av_inv_q (framerate_in dp)) (f_time_base f) in
  if 0 <? ts_diff then ts_diff
  else if 0 <? f_duration f then f_duration f
  else if 0 <? codec_duration then codec_duration
  else if negb (num (framerate_in dp) =? 0) && negb (den (framerate_in dp) =? 0) && (0 <? average) then average
  else Z.max (last_frame_duration_est dp) 1.

Definition video_duration_estimate (ctx : Dec) (dp : DecoderParameter) (f : AVFrame) : outcome Z :=
  ts_diff ← (if negb (f_pts f =? AV_NOPTS_VALUE) && negb (last_frame_pts dp =? AV_NOPTS_VALUE) then i64_sub (f_pts f) (last_frame_pts dp) else Ret (-1));
  let duration_unreliable := (f_duration f =? 1) && (2 * f_duration f <? ts_diff) in
  if (0 <? f_duration f) && negb duration_unreliable then Ret (f_duration f)
  else
    codec_duration ← field_duration ctx f;
    Ret (guess_duration dp ts_diff codec_duration f).

(** [hwaccel_retrieve_data]; its callers have failed before when the pool has no frame. *)
Definition hwaccel_retrieve_data (dp : DecoderParameter) (input : AVFrame) : Z + AVFrame :=
  if f_format input =? hwaccel_output_format dp then inr input
  else match av_hwframe_transfer_data (hwaccel_output_format dp) input with
  | inl err => inl err
  | inr output => av_frame_copy_props output input
  end.

(** The mask of outputs that the function also sets is not used. *)
Definition video_frame_process (ctx : Dec) (dp : DecoderParameter) (f : AVFrame) : outcome (result AVFrame Error * DecoderParameter) :=
  match (if f_format f =? hwaccel_pix_fmt dp then hwaccel_retrieve_data dp f else inr f) with
  | inl err => Ret (Err (Error.Decoding (DecodingOperationError.HWRetrieveDataError (DecodingError.DecodingError_from err))), dp)
  | inr f =>
    p ← (if best_effort_timestamp f =? AV_NOPTS_VALUE then predicted dp else Ret (best_effort_timestamp f));
    let f := set_frame_pts p f in
    est ← video_duration_estimate ctx dp f;
    let dp := set_last (f_pts f) est (f_time_base f) dp in
    let f := if num (sar_override dp) =? 0 then f else set_frame_sar (sar_override dp) f in
    let '(ret, f) := if apply_cropping dp =? 0 then (0, f) else av_frame_apply_cropping f in
    if ret <? 0 then Ret (Err (Error.Decoding (DecodingOperationError.CroppingError (DecodingError.DecodingError_from ret))), dp)
    else Ret (Ok f, dp)
  end.

(** ** Audio *)

(** [a / b] and [a % b], where the operands rule an overflow out. *)
Definition checked_quot (a b : Z) : outcome Z := if b =? 0 then Panic else Ret (Z.quot a b).
Definition checked_rem (a b : Z) : outcome Z := if b =? 0 then Panic else Ret (Z.rem a b).

(** The least common multiple of the sample rates seen so far, or of all common ones. *)
Definition common_base (prev sr : Z) : outcome AVRational :=
  q ← checked_quot prev (av_gcd prev sr);
  limit ← checked_quot INT_MAX sr;
  if limit <=? q then Ret {| num := 1; den := 28224000 |}
  else d ← signed 32 (as_i32 q * sr); Ret {| num := 1; den := d |}.

Definition audio_samplerate_update (dp : DecoderParameter) (f : AVFrame) : outcome DecoderParameter :=
  if f_sample_rate f =? last_frame_sample_rate dp then Ret dp
  else
    tb_new ← common_base (den (last_frame_tb dp)) (f_sample_rate f);
    keep ← (if (num (f_time_base f) =? 1) && (den tb_new <? den (f_time_base f)) then r ← checked_rem (den (f_time_base f)) (den tb_new); Ret (r =? 0)
            else Ret false);
    let tb_new := if keep : bool then f_time_base f else tb_new in
    let p := if last_frame_pts dp =? AV_NOPTS_VALUE then last_frame_pts dp else rescale_q (last_frame_pts dp) (last_frame_tb dp) tb_new in
    let est := rescale_q (last_frame_duration_est dp) (last_frame_tb dp) tb_new in
    Ret (set_rescale (last_filter_in_rescale_delta dp) (f_sample_rate f) (set_last p est tb_new dp)).

Definition audio_ts_process (dp : DecoderParameter) (f : AVFrame) : outcome (AVFrame * DecoderParameter) :=
  let tb_filter := {| num := 1; den := f_sample_rate f |} in
  dp ← audio_samplerate_update dp f;
  let tb := last_frame_tb dp in
  pts_pred ← predicted dp;
  f_delta ← (if f_pts f =? AV_NOPTS_VALUE then Ret (set_frame_times pts_pred (f_duration f) tb f, last_filter_in_rescale_delta dp)
             else if last_frame_pts dp =? AV_NOPTS_VALUE then Ret (f, last_filter_in_rescale_delta dp)
             else
               limit ← av_rescale_q_rnd pts_pred (num tb, den tb) (num (f_time_base f), den (f_time_base f)) AV_ROUND_UP;
               Ret (f, if limit <? f_pts f then AV_NOPTS_VALUE else last_filter_in_rescale_delta dp));
  let '(f, delta) := f_delta in
  let '(p, delta) := av_rescale_delta (f_time_base f) (f_pts f) tb (f_nb_samples f) delta tb in
  let dp := set_rescale delta (last_frame_sample_rate dp) (set_last p (rescale_q (f_nb_samples f) tb_filter tb) tb dp) in
  Ret (set_frame_times (rescale_q p tb tb_filter) (f_nb_samples f) tb_filter f, dp).

(** ** A decoded frame *)

Definition add_error (dp : DecoderParameter) : outcome DecoderParameter :=
  n ← uadd 64 (decode_errors dp) 1; Ret (set_counts (frames_decoded dp) (samples_decoded dp) n dp).

Definition add_frame (dp : DecoderParameter) : outcome DecoderParameter :=
  n ← uadd 64 (frames_decoded dp) 1; Ret (set_counts n (samples_decoded dp) (decode_errors dp) dp).

(** The times of a frame, by the type of the codec, and its count. *)
Definition process_frame (ctx : Dec) (dp : DecoderParameter) (f : AVFrame) : outcome (result AVFrame Error * DecoderParameter) :=
  let f := set_frame_base (pkt_timebase ctx) f in
  '(r, dp) ← (if bool_decide (codec_type ctx = AVMEDIA_TYPE_AUDIO) then
                n ← uadd 64 (samples_decoded dp) (wrap 64 (f_nb_samples f));
                '(f, dp) ← audio_ts_process (set_counts (frames_decoded dp) n (decode_errors dp) dp) f;
                Ret (Ok f, dp)
              else video_frame_process ctx dp f);
  match r with
  | Ok f => dp ← add_frame dp; Ret (Ok f, dp)
  | Err e => Ret (Err e, dp)
  end.

End Times.
