(* ===== verification/DecTask.v ===== *)
(** * The decoding task of ez-ffmpeg ([core/scheduler/dec_task.rs])

    How the packets of a demuxer come to the codec, and the frames of the codec to the
    filters and encoders: the loop of the thread, the codec's loop, the destinations
    and their flags, subtitles, and the frames that tell the end.  The times of a frame
    are in [DecTimes]. *)

From stdpp Require Import base list option.
From Stdlib Require Import ZArith Lia.
From S2P Require Import Choke.
From S2P Require Import Prelude RustInt Errors StreamSpec Muxer Rescale MuxTask DemuxTimes DecTimes.

Local Open Scope Z_scope.
Local Open Scope rust_scope.

(** [PacketOpaque] and [FrameOpaque::Eof] *)
Definition PktOpaqueSubHeartbeat : Z := 1.
Definition PktOpaqueFixSubDuration : Z := 2.
Definition FrameOpaque_Eof : Z := 2.

Definition USIZE_MAX : Z := umax 64.

(** ** Destinations *)

(** What goes with a frame. *)
Record FrameData := {
  fd_framerate : option AVRational;
  fd_bits_per_raw_sample : Z;
  input_stream_width : Z;
  input_stream_height : Z;
  subtitle_header : list Z;
  fg_input_index : Z
}.

Definition set_input_index (i : Z) (d : FrameData) : FrameData :=
  {| fd_framerate := fd_framerate d; fd_bits_per_raw_sample := fd_bits_per_raw_sample d; input_stream_width := input_stream_width d;
     input_stream_height := input_stream_height d; subtitle_header := subtitle_header d; fg_input_index := i |}.

(** A frame that is null is [None]. *)
Record FrameBox := { frame : option AVFrame; frame_data : FrameData }.

(** A place of [FrameSenders]: the input of the filter graph, the flags of the graph
    (how many, and how often the one of this input is still read as unset), the
    channel: how many frames it takes before its receiver is gone, and what was sent. *)
Record FrameSender := {
  input_index : nat;
  flags : nat;
  unset_reads : option nat;
  receiver_room : option nat;
  received : list FrameBox
}.

Definition set_reads (n : option nat) (d : FrameSender) : FrameSender :=
  {| input_index := input_index d; flags := flags d; unset_reads := n; receiver_room := receiver_room d; received := received d |}.

(** The test of the finished flag. *)
Definition read_finished (d : FrameSender) : bool * FrameSender :=
  if (0 <? flags d)%nat && (input_index d <? flags d)%nat then
    match unset_reads d with
    | Some O => (true, d)
    | Some (S n) => (false, set_reads (Some n) d)
    | None => (false, d)
    end
  else (false, d).

(** [sender.send] *)
Definition send_frame (b : FrameBox) (d : FrameSender) : option FrameSender :=
  let deliver room := {| input_index := input_index d; flags := flags d; unset_reads := unset_reads d; receiver_room := room; received := received d ++ [b] |} in
  match receiver_room d with
  | Some O => None
  | Some (S n) => Some (deliver (Some n))
  | None => Some (deliver None)
  end.

(** What the pools and libavutil have no memory for, while a packet is processed. *)
Inductive Memory := Enough | NoFrame | NoReference | NoPacket | NoSubtitle.

#[export] Instance Memory_eq_dec : EqDecision Memory.
Proof. solve_decision. Defined.

Definition out_of_memory (op : DecodingError.DecodingError -> DecodingOperationError.DecodingOperationError) : Error :=
  Error.Decoding (op DecodingError.OutOfMemory).

(** A reference to the frame, or a frame with its properties only. *)
Definition copy_frame (f : AVFrame) : AVFrame :=
  if has_buf f then f
  else {| f_pts := f_pts f; best_effort_timestamp := best_effort_timestamp f; f_duration := f_duration f; f_time_base := f_time_base f;
          repeat_pict := repeat_pict f; f_sample_rate := f_sample_rate f; f_nb_samples := 0; f_format := -1; f_width := 0; f_height := 0;
          decode_error_flags := decode_error_flags f; corrupt := corrupt f; f_opaque := f_opaque f; f_sar := f_sar f; has_buf := false; content := [] |}.

Definition copy_box (mem : Memory) (f : AVFrame) (data : FrameData) (i : nat) : result FrameBox Error :=
  match mem with
  | NoFrame => Err (out_of_memory DecodingOperationError.FrameAllocationError)
  | NoReference => Err (out_of_memory (if has_buf f then DecodingOperationError.FrameRefError else DecodingOperationError.FrameCopyPropsError))
  | _ => Ok {| frame := Some (copy_frame f); frame_data := set_input_index (Z.of_nat i) data |}
  end.

(** The loop of [dec_send] over the senders that are left: how many are done. *)
Fixpoint send_all (mem : Memory) (f : AVFrame) (data : FrameData) (l : list FrameSender) : result nat Error * list FrameSender :=
  match l with
  | [] => (Ok 0%nat, [])
  | d :: l =>
    let '(finished, d) := read_finished d in
    let continue (done : nat) (d : FrameSender) :=
      let '(r, l) := send_all mem f data l in (match r with Ok n => Ok (done + n)%nat | Err e => Err e end, d :: l) in
    if finished then continue 1%nat d
    else match l with
    | _ :: _ =>
      match copy_box mem f data (input_index d) with
      | Err e => (Err e, d :: l)
      | Ok b => match send_frame b d with Some d => continue 0%nat d | None => continue 1%nat d end
      end
    | [] =>
      match send_frame {| frame := Some f; frame_data := set_input_index (Z.of_nat (input_index d)) data |} d with
      | Some d => (Ok 0%nat, [d])
      | None => (Ok 1%nat, [d])
      end
    end
  end.

Definition dec_send (mem : Memory) (f : AVFrame) (data : FrameData) (l : list FrameSender) : result unit Error * list FrameSender :=
  let '(r, l) := send_all mem f data l in
  (match r with Ok n => if (n =? length l)%nat then Err Error.EOF else Ok tt | Err e => Err e end, l).

(** [EOF] from the destinations ends the task. *)
Definition eof_exits (r : result unit Error) : result unit Error :=
  match r with Err e => Err (if error_eq e Error.EOF then Error.Exit else e) | Ok _ => Ok tt end.

Section DecTask.
  Context `{Lib : AvDec} `{Prof : Profile}.

(** ** The state of the task *)

Record DecState := { parameter : DecoderParameter; context : Dec; senders : list FrameSender }.

Definition set_parameter (dp : DecoderParameter) (st : DecState) : DecState := {| parameter := dp; context := context st; senders := senders st |}.
Definition set_context (ctx : Dec) (st : DecState) : DecState := {| parameter := parameter st; context := ctx; senders := senders st |}.
Definition set_senders (l : list FrameSender) (st : DecState) : DecState := {| parameter := parameter st; context := context st; senders := l |}.

(** [dec_frame_to_box] *)
Definition frame_data_of (ctx : Dec) : FrameData :=
  {| fd_framerate := Some (dec_framerate ctx); fd_bits_per_raw_sample := bits_per_raw_sample ctx; input_stream_width := dec_width ctx;
     input_stream_height := dec_height ctx; subtitle_header := dec_subtitle_header ctx; fg_input_index := USIZE_MAX |}.

Definition send_to_all (mem : Memory) (f : AVFrame) (st : DecState) : result unit Error * DecState :=
  let '(r, l) := dec_send mem f (frame_data_of (context st)) (senders st) in (r, set_senders l st).

(** ** Frames of the codec *)

(** A frame that the codec gave: [Ok] when the loop goes on. *)
Definition decoded_frame (exit_on_error : bool) (mem : Memory) (f : AVFrame) (st : DecState) : outcome (result unit Error * DecState) :=
  if (negb (decode_error_flags f =? 0) || corrupt f) && exit_on_error then Ret (Err (Error.Decoding DecodingOperationError.CorruptFrame), st)
  else
    '(r, dp) ← process_frame (context st) (parameter st) f;
    let st := set_parameter dp st in
    match r with
    | Err e => Ret (Err e, st)
    | Ok f => let '(r, st) := send_to_all mem f st in Ret (eof_exits r, st)
    end.

(** The loop of [packet_decode]: until the codec wants a packet, or has ended. *)
Fixpoint receive_frames (exit_on_error : bool) (mem : Memory) (fuel : nat) (st : DecState) : outcome (result unit Error * DecState) :=
  match fuel with
  | O => Diverge
  | S fuel =>
    if bool_decide (mem = NoFrame) then Ret (Err (out_of_memory DecodingOperationError.FrameAllocationError), st)
    else
      let '(r, ctx) := avcodec_receive_frame (context st) in
      let st := set_context ctx st in
      match r with
      | inl ret =>
        if ret =? AVERROR_AGAIN then Ret (Ok tt, st)
        else if ret =? AVERROR_EOF then Ret (Err Error.EOF, st)
        else
          dp ← add_error (parameter st);
          let st := set_parameter dp st in
          if exit_on_error then Ret (Err (Error.Decoding (DecodingOperationError.ReceiveFrameError (DecodingError.DecodingError_from ret))), st)
          else receive_frames exit_on_error mem fuel st
      | inr f =>
        '(r, st) ← decoded_frame exit_on_error mem f st;
        match r with
        | Ok _ => receive_frames exit_on_error mem fuel st
        | Err e => Ret (Err e, st)
        end
      end
  end.

(** ** Subtitles *)

(** [size] zero and no data *)
Definition blank_packet : Packet :=
  {| pts := AV_NOPTS_VALUE; dts := AV_NOPTS_VALUE; pkt_duration := 0; pkt_time_base := {| num := 0; den := 1 |}; pkt_stream_index := 0; key := false;
     pkt_size := 0; side_data_elems := 0; payload := [] |}.

(** The frame that wraps a subtitle. *)
Definition subtitle_frame (ctx : Dec) (subtitle : list Z) : AVFrame :=
  {| f_pts := AV_NOPTS_VALUE; best_effort_timestamp := AV_NOPTS_VALUE; f_duration := 0; f_time_base := {| num := 0; den := 1 |}; repeat_pict := 0;
     f_sample_rate := 0; f_nb_samples := 0; f_format := -1; f_width := dec_width ctx; f_height := dec_height ctx; decode_error_flags := 0;
     corrupt := false; f_opaque := 0; f_sar := {| num := 0; den := 1 |}; has_buf := true; content := subtitle |}.

Definition heartbeat_frame (pkt : DecPacket) : AVFrame :=
  {| f_pts := pts (dec_packet pkt); best_effort_timestamp := AV_NOPTS_VALUE; f_duration := 0; f_time_base := pkt_time_base (dec_packet pkt); repeat_pict := 0;
     f_sample_rate := 0; f_nb_samples := 0; f_format := -1; f_width := 0; f_height := 0; decode_error_flags := 0; corrupt := false;
     f_opaque := PktOpaqueSubHeartbeat; f_sar := {| num := 0; den := 1 |}; has_buf := false; content := [] |}.

(** The packet that the codec gets, and [packet_is_eof]. *)
Definition subtitle_packet (mem : Memory) (pkt : option DecPacket) : result (Packet * bool) Error :=
  match pkt with
  | Some p =>
    if 0 <=? pkt_stream_index (dec_packet p) then
      match mem with NoPacket => Err (out_of_memory DecodingOperationError.PacketAllocationError) | _ => Ok (blank_packet, true) end
    else Ok (dec_packet p, false)
  | None => match mem with NoPacket => Err (out_of_memory DecodingOperationError.PacketAllocationError) | _ => Ok (blank_packet, true) end
  end.

(** Behind the marks of the demuxer. *)
Definition decode_subtitle (exit_on_error : bool) (mem : Memory) (pkt : option DecPacket) (st : DecState) : outcome (result unit Error * DecState) :=
  match subtitle_packet mem pkt with
  | Err e => Ret (Err e, st)
  | Ok (p, packet_is_eof) =>
    let '(ret, got_output, ctx) := avcodec_decode_subtitle2 (context st) p in
    let st := set_context ctx st in
    if ret <? 0 then
      dp ← add_error (parameter st);
      Ret (if exit_on_error then Err (Error.Decoding (DecodingOperationError.DecodeSubtitleError (DecodingError.DecodingError_from ret))) else Ok tt, set_parameter dp st)
    else match got_output with
    | None => Ret (if packet_is_eof then Err Error.EOF else Ok tt, st)
    | Some subtitle =>
      dp ← add_frame (parameter st);
      let st := set_parameter dp st in
      match mem with
      | NoFrame => Ret (Err (out_of_memory DecodingOperationError.FrameAllocationError), st)
      | NoSubtitle => Ret (Err (out_of_memory DecodingOperationError.SubtitleAllocationError), st)
      | _ => let '(r, st) := send_to_all mem (subtitle_frame (context st) subtitle) st in Ret (eof_exits r, st)
      end
    end
  end.

Definition transcode_subtitles (exit_on_error : bool) (mem : Memory) (pkt : option DecPacket) (st : DecState) : outcome (result unit Error * DecState) :=
  match pkt with
  | Some p =>
    if (0 <=? pkt_stream_index (dec_packet p)) && (packet_opaque p =? PktOpaqueSubHeartbeat) then
      if bool_decide (mem = NoFrame) then Ret (Err (out_of_memory DecodingOperationError.FrameAllocationError), st)
      else let '(r, st) := send_to_all mem (heartbeat_frame p) st in Ret (eof_exits r, st)
    else if (0 <=? pkt_stream_index (dec_packet p)) && (packet_opaque p =? PktOpaqueFixSubDuration) then Ret (Ok tt, st)
    else decode_subtitle exit_on_error mem pkt st
  | None => decode_subtitle exit_on_error mem pkt st
  end.

(** ** One packet *)

(** A null packet of a codec other than for subtitles is dereferenced. *)
Definition packet_decode (exit_on_error : bool) (mem : Memory) (fuel : nat) (pkt : option DecPacket) (st : DecState) : outcome (result unit Error * DecState) :=
  if bool_decide (codec_type (context st) = AVMEDIA_TYPE_SUBTITLE) then transcode_subtitles exit_on_error mem pkt st
  else match pkt with
  | None => Panic
  | Some p =>
    let is_eof := pkt_stream_index (dec_packet p) <? 0 in
    if negb is_eof && (pkt_size (dec_packet p) =? 0) then Ret (Ok tt, st)
    else
      let '(ret, ctx) := avcodec_send_packet (context st) (if is_eof then None else Some (dec_packet p)) in
      let st := set_context ctx st in
      let error := Error.Decoding (DecodingOperationError.SendPacketError (DecodingError.DecodingError_from ret)) in
      if (ret <? 0) && negb ((ret =? AVERROR_EOF) && is_eof) then
        if ret =? AVERROR_AGAIN then Ret (Err Error.Bug, st)
        else if ret =? AVERROR_EOF then Ret (Err error, st)
        else dp ← add_error (parameter st); Ret (if exit_on_error then Err error else Ok tt, set_parameter dp st)
      else receive_frames exit_on_error mem fuel st
  end.

(** ** The thread *)

(** What the channel gives within 100 ms; a stop is seen behind every receipt. *)
Inductive PacketReceipt := PacketIn (mem : Memory) (pkt : option DecPacket) | PacketTimeout | PacketDisconnected | DecoderStopping.

Definition have_data (pkt : option DecPacket) : bool :=
  match pkt with
  | Some p => packet_buf p || negb (side_data_elems (dec_packet p) =? 0) || (packet_opaque p =? PktOpaqueSubHeartbeat) || (packet_opaque p =? PktOpaqueFixSubDuration)
  | None => false
  end.

(** How the loop goes on behind [packet_decode]. *)
Inductive DecFlow := DecContinue (st : DecState) | DecBreak (st : DecState) (errors : list Error).

Definition after_packet (pkt : option DecPacket) (r : result unit Error) (st : DecState) : DecFlow :=
  match r with
  | Ok _ => DecContinue st
  | Err e =>
    let flush_buffers := negb (have_data pkt) && negb (error_eq e Error.Exit) in
    if error_eq e Error.Exit || error_eq e Error.EOF then
      if flush_buffers then DecContinue (set_context (avcodec_flush_buffers (context st)) st) else DecBreak st []
    else DecBreak st [e]
  end.

(** The loop; the channel is closed behind the receipts. *)
Fixpoint dec_loop (exit_on_error : bool) (fuel : nat) (st : DecState) (l : list PacketReceipt) : outcome (DecState * list Error) :=
  match l with
  | [] | PacketDisconnected :: _ | DecoderStopping :: _ => Ret (st, [])
  | PacketTimeout :: l => dec_loop exit_on_error fuel st l
  | PacketIn mem pkt :: l =>
    '(r, st) ← packet_decode exit_on_error mem fuel pkt st;
    match after_packet pkt r st with
    | DecContinue st => dec_loop exit_on_error fuel st l
    | DecBreak st errors => Ret (st, errors)
    end
  end.

(** The frame without data whose time is the end of the last one. *)
Definition eof_frame (dp : DecoderParameter) : outcome AVFrame :=
  p ← (if last_frame_pts dp =? AV_NOPTS_VALUE then Ret AV_NOPTS_VALUE else i64_add (last_frame_pts dp) (last_frame_duration_est dp));
  Ret {| f_pts := p; best_effort_timestamp := AV_NOPTS_VALUE; f_duration := 0; f_time_base := last_frame_tb dp; repeat_pict := 0; f_sample_rate := 0;
         f_nb_samples := 0; f_format := -1; f_width := 0; f_height := 0; decode_error_flags := 0; corrupt := false; f_opaque := FrameOpaque_Eof;
         f_sar := {| num := 0; den := 1 |}; has_buf := false; content := [] |}.

(** [dec_done]: a null frame for everyone who listens. *)
Definition null_box (ctx : Dec) (d : FrameSender) : FrameBox :=
  {| frame := None; frame_data := set_input_index (Z.of_nat (input_index d)) (frame_data_of ctx) |}.

Definition done_sender (ctx : Dec) (d : FrameSender) : FrameSender :=
  let '(finished, d) := read_finished d in
  if finished then d else default d (send_frame (null_box ctx d) d).

Definition dec_done (st : DecState) : DecState := set_senders (map (done_sender (context st)) (senders st)) st.

(** Behind the loop.  The rate of errors is only logged. *)
Definition dec_finish (mem : Memory) (errors : list Error) (st : DecState) : outcome (DecState * list Error) :=
  match errors with
  | [] =>
    if bool_decide (mem = NoFrame) then Panic
    else
      f ← eof_frame (parameter st);
      let '(r, st) := send_to_all mem f st in
      match r with
      | Err e => if error_eq e Error.EOF then Ret (dec_done st, []) else Ret (st, [e])
      | Ok _ => Ret (dec_done st, [])
      end
  | _ => Ret (dec_done st, errors)
  end.

Definition dec_task (exit_on_error : bool) (fuel : nat) (mem : Memory) (st : DecState) (l : list PacketReceipt) : outcome (DecState * list Error) :=
  '(st, errors) ← dec_loop exit_on_error fuel st l;
  dec_finish mem errors st.

End DecTask.
