(* ===== verification/DecTimesSpec.v ===== *)
(** * The times of decoded frames

    A video frame without a timestamp comes behind its predecessor; the clock of an
    audio decoder does not drift, whatever sample rates its frames have. *)

From stdpp Require Import base list option.
From Stdlib Require Import ZArith Znumtheory Lia.
From S2P Require Import Choke.
From S2P Require Import Prelude RustInt Errors StreamSpec Muxer Rescale MuxTask MuxTaskSpec DemuxTimes DecTimes.

Local Open Scope Z_scope.
Local Open Scope rust_scope.

Section Times.
  Context `{Lib : AvDec} `{Prof : Profile}.

(** The frames of a codec, one behind the other. *)
Fixpoint frame_times (ctx : Dec) (dp : DecoderParameter) (fs : list AVFrame) : outcome (result (list AVFrame) Error * DecoderParameter) :=
  match fs with
  | [] => Ret (Ok [], dp)
  | f :: fs =>
    '(r, dp) ← process_frame ctx dp f;
    match r with
    | Err e => Ret (Err e, dp)
    | Ok g =>
      '(r, dp) ← frame_times ctx dp fs;
      Ret (match r with Ok gs => Ok (g :: gs) | Err e => Err e end, dp)
    end
  end.

Lemma frame_times_cons ctx dp f fs gs dp' :
  frame_times ctx dp (f :: fs) = Ret (Ok gs, dp') ->
  exists g dp1 gs', process_frame ctx dp f = Ret (Ok g, dp1) /\ frame_times ctx dp1 fs = Ret (Ok gs', dp') /\ gs = g :: gs'.
Proof.
  cbn [frame_times]. intros H. apply bind_Ret in H as ([r dp1] & Hp & H). destruct r as [g|e]; [|by apply Ret_inj in H].
  apply bind_Ret in H as ([r dp2] & Hf & H). apply Ret_inj in H as [= Hr <-]. destruct r as [gs'|e]; [|done]. apply Ok_inj in Hr as <-. by exists g, dp1, gs'.
Qed.

Lemma frame_times_app ctx dp fs1 fs2 gs dp' :
  frame_times ctx dp (fs1 ++ fs2) = Ret (Ok gs, dp') ->
  exists gs1 dp1 gs2, frame_times ctx dp fs1 = Ret (Ok gs1, dp1) /\ frame_times ctx dp1 fs2 = Ret (Ok gs2, dp') /\ gs = (gs1 ++ gs2)%list.
Proof.
  revert dp gs. induction fs1 as [|f fs1 IH]; intros dp gs H; [by exists [], dp, gs|].
  cbn [app] in H. apply frame_times_cons in H as (g & dp1 & gs' & Hp & Hf & ->). apply IH in Hf as (gs1 & dp2 & gs2 & H1 & H2 & ->).
  exists (g :: gs1), dp2, gs2. split_and!; [|done|done]. cbn [frame_times]. rewrite Hp. cbn [mbind outcome_bind]. by rewrite H1.
Qed.

(** ** Video *)

Lemma guess_positive dp d codec f : 1 <= guess_duration dp d codec f.
Proof.
  unfold guess_duration. cbv zeta. destruct (0 <? d) eqn:E1; [lia|]. destruct (0 <? f_duration f) eqn:E2; [lia|]. destruct (0 <? codec) eqn:E3; [lia|].
  destruct (_ && _) eqn:E4; [|lia]. apply andb_true_iff in E4 as [_ E4]. lia.
Qed.

Lemma estimate_positive ctx dp f d : video_duration_estimate ctx dp f = Ret d -> 1 <= d.
Proof.
  unfold video_duration_estimate. intros H. apply bind_Ret in H as (x & _ & H). cbv zeta in H. destruct (_ && _) eqn:E.
  - apply Ret_inj in H as <-. apply andb_true_iff in E as [E _]. lia.
  - apply bind_Ret in H as (y & _ & H). apply Ret_inj in H as <-. apply guess_positive.
Qed.

(** Frames that the task does not change otherwise: no hardware, and no cropping of its
    own. *)
Definition plain_video (ctx : Dec) (dp : DecoderParameter) (fs : list AVFrame) : Prop :=
  codec_type ctx <> AVMEDIA_TYPE_AUDIO /\ apply_cropping dp = 0 /\ Forall (fun f => f_format f <> hwaccel_pix_fmt dp) fs.

(** What a frame becomes, and what is remembered of it. *)
Definition timed_video (dp : DecoderParameter) (f g : AVFrame) (dp' : DecoderParameter) : Prop :=
  last_frame_pts dp' = f_pts g /\ 1 <= last_frame_duration_est dp' /\ apply_cropping dp' = 0 /\ hwaccel_pix_fmt dp' = hwaccel_pix_fmt dp /\
  content g = content f /\ has_buf g = has_buf f /\
  (best_effort_timestamp f <> AV_NOPTS_VALUE -> f_pts g = best_effort_timestamp f) /\
  (best_effort_timestamp f = AV_NOPTS_VALUE -> predicted dp = Ret (f_pts g)).

Lemma process_video ctx dp f fs r dp' :
  plain_video ctx dp (f :: fs) -> process_frame ctx dp f = Ret (r, dp') -> exists g, r = Ok g /\ timed_video dp f g dp' /\ plain_video ctx dp' fs.
Proof.
  intros (Ht & Hc & [Hf Hfs]%Forall_cons_1) H. unfold process_frame in H. rewrite bool_decide_false in H by done.
  apply bind_Ret in H as ([r1 dp1] & Hv & H). unfold video_frame_process in Hv. cbn [set_frame_base set_frame_times f_format] in Hv.
  rewrite (proj2 (Z.eqb_neq _ _) Hf) in Hv. apply bind_Ret in Hv as (p & Hp & Hv). apply bind_Ret in Hv as (est & Hest & Hv).
  apply estimate_positive in Hest. cbn [set_last apply_cropping] in Hv. rewrite Hc in Hv. cbn [Z.eqb] in Hv. cbv zeta iota in Hv. apply Ret_inj in Hv as [= <- <-].
  apply bind_Ret in H as (dp2 & Ha & H). apply Ret_inj in H as [= <- <-]. unfold add_frame in Ha. apply bind_Ret in Ha as (n & _ & Ha). apply Ret_inj in Ha as <-.
  destruct (num (sar_override _) =? 0).
  all: eexists; (split; [reflexivity|]).
  all: split; [|by split_and!].
  all: split_and!; try done; intros Hb; cbn [best_effort_timestamp set_frame_base set_frame_times] in Hp.
  1,3: by rewrite (proj2 (Z.eqb_neq _ _) Hb) in Hp; apply Ret_inj in Hp as <-.
  all: by rewrite Hb, Z.eqb_refl in Hp.
Qed.

(** The frame behind [g]. *)
Lemma without_time_advances dp f g g' dp' :
  overflow_checks = true -> last_frame_pts dp = f_pts g -> 1 <= last_frame_duration_est dp -> f_pts g <> AV_NOPTS_VALUE ->
  best_effort_timestamp f = AV_NOPTS_VALUE -> timed_video dp f g' dp' -> f_pts g < f_pts g'.
Proof.
  intros Hov Hl Hd Hn Hb (_ & _ & _ & _ & _ & _ & _ & Hp). specialize (Hp Hb). unfold predicted in Hp. rewrite Hl, (proj2 (Z.eqb_neq _ _) Hn) in Hp.
  unfold i64_add, i64_sub in Hp. cbv zeta in Hp. rewrite Hov in Hp. destruct (_ && _); [|done]. apply Ret_inj in Hp. lia.
Qed.

Lemma predicted_fits dp p : predicted dp = Ret p -> fits_i64 p.
Proof. unfold predicted. destruct (_ =? _); [intros <-%Ret_inj; unfold fits_i64; lia|]. apply i64_add_fits. Qed.

(** Every frame has a time. *)
Lemma timed_video_has_time dp f g dp' :
  overflow_checks = true -> fits_i64 (last_frame_pts dp) -> 0 <= last_frame_duration_est dp -> timed_video dp f g dp' -> f_pts g <> AV_NOPTS_VALUE.
Proof.
  intros Hov Hfit Hd (_ & _ & _ & _ & _ & _ & Hb & Hp). destruct (decide (best_effort_timestamp f = AV_NOPTS_VALUE)) as [E|E]; [|by rewrite (Hb E)].
  specialize (Hp E). unfold predicted in Hp. unfold fits_i64 in *. destruct (_ =? _) eqn:E1; [apply Ret_inj in Hp as <-; done|].
  apply Z.eqb_neq in E1. unfold AV_NOPTS_VALUE in *. unfold i64_add, i64_sub in Hp. cbv zeta in Hp. rewrite Hov in Hp. destruct (_ && _); [|done]. apply Ret_inj in Hp. lia.
Qed.

(** A build that does not check overflow always computes the times. *)
Lemma i64_sub_returns a b : overflow_checks = false -> exists x, i64_sub a b = Ret x.
Proof. intros Hov. unfold i64_sub. cbv zeta. rewrite Hov. destruct (_ && _); by eexists. Qed.

Lemma uadd_returns w a b : overflow_checks = false -> exists x, uadd w a b = Ret x.
Proof. intros Hov. unfold uadd, arith. rewrite Hov. destruct (fitsb _ _); by eexists. Qed.

Lemma estimate_returns ctx dp f : overflow_checks = false -> exists est, video_duration_estimate ctx dp f = Ret est.
Proof.
  intros Hov. unfold video_duration_estimate, field_duration, signed. rewrite Hov.
  destruct (negb (f_pts f =? _) && _); [destruct (i64_sub_returns (f_pts f) (last_frame_pts dp) Hov) as [x ->]|]; cbn [mbind outcome_bind];
    (destruct (_ && negb _); [by eexists|]); (destruct (_ && _); [destruct (_ && _)|]); cbn [mbind outcome_bind]; by eexists.
Qed.

Lemma video_process_returns ctx dp f :
  overflow_checks = false -> apply_cropping dp = 0 -> f_format f <> hwaccel_pix_fmt dp -> exists r dp1, video_frame_process ctx dp f = Ret (Ok r, dp1).
Proof.
  intros Hov Hc Hfmt. unfold video_frame_process. rewrite (proj2 (Z.eqb_neq _ _) Hfmt).
  assert (exists p, (if best_effort_timestamp f =? AV_NOPTS_VALUE then predicted dp else Ret (best_effort_timestamp f)) = Ret p) as [q ->].
  { unfold predicted, i64_add. destruct (_ =? _); [|by eexists]. destruct (_ =? _); [by eexists|by apply i64_sub_returns]. }
  cbn [mbind outcome_bind]. destruct (estimate_returns ctx dp (set_frame_pts q f) Hov) as [est ->]. cbn [mbind outcome_bind set_last apply_cropping]. rewrite Hc.
  by eexists _, _.
Qed.

Lemma plain_video_is_timed ctx dp fs :
  overflow_checks = false -> plain_video ctx dp fs -> Forall (fun f => has_buf f = true) fs ->
  exists gs dp', frame_times ctx dp fs = Ret (Ok gs, dp') /\ Forall (fun g => has_buf g = true) gs.
Proof.
  intros Hov. revert dp. induction fs as [|f fs IH]; intros dp Hpl Hb; [by exists [], dp|]. apply Forall_cons_1 in Hb as [Hf Hb].
  pose proof Hpl as (Ht & Hc & [Hfmt _]%Forall_cons_1). assert (exists r dp1, process_frame ctx dp f = Ret (r, dp1)) as (r & dp1 & Hp).
  { unfold process_frame. rewrite bool_decide_false by done. destruct (video_process_returns ctx dp (set_frame_base (pkt_timebase ctx) f) Hov Hc Hfmt) as (r & dp1 & ->).
    cbn [mbind outcome_bind]. unfold add_frame. destruct (uadd_returns 64 (frames_decoded dp1) 1 Hov) as [y ->]. by eexists _, _. }
  destruct (process_video _ _ _ fs _ _ Hpl Hp) as (g & -> & (_ & _ & _ & _ & _ & Hg & _) & Hpl'). destruct (IH dp1 Hpl' Hb) as (gs & dp' & Hrest & Hgs).
  exists (g :: gs), dp'. cbn [frame_times]. rewrite Hp. cbn [mbind outcome_bind]. rewrite Hrest. split; [done|]. apply Forall_cons; [by rewrite Hg|done].
Qed.

(** A decoded video frame that the codec gives no timestamp is placed behind the
    frame before it, and every frame leaves with a timestamp (in a build that checks
    overflow; one that does not agrees with it as long as no timestamp overflows). *)
Theorem video_times_advance ctx dp fs gs dp' :
  overflow_checks = true -> plain_video ctx dp fs -> fits_i64 (last_frame_pts dp) -> 0 <= last_frame_duration_est dp ->
  Forall (fun f => fits_i64 (best_effort_timestamp f)) fs -> frame_times ctx dp fs = Ret (Ok gs, dp') ->
  Forall (fun g => f_pts g <> AV_NOPTS_VALUE) gs /\ content <$> gs = content <$> fs /\
  forall i f g g', fs !! S i = Some f -> best_effort_timestamp f = AV_NOPTS_VALUE -> gs !! i = Some g -> gs !! S i = Some g' -> f_pts g < f_pts g'.
Proof.
  intros Hov. revert dp gs. induction fs as [|f fs IH]; intros dp gs Hpl Hl Hd Hfit H.
  - cbn [frame_times] in H. apply Ret_inj in H as [= <- <-]. done.
  - apply frame_times_cons in H as (g & dp1 & gs' & Hp & Hrest & ->). destruct (process_video _ _ _ fs _ _ Hpl Hp) as (g0 & Hg & Ht & Hpl').
    apply Ok_inj in Hg as <-. apply Forall_cons_1 in Hfit as [Hf Hfit]. pose proof (timed_video_has_time _ _ _ _ Hov Hl Hd Ht) as Hn.
    pose proof Ht as (Hlast & Hest & _ & _ & Hc & _ & Hb & Hpred).
    assert (fits_i64 (f_pts g)) as Hg by (destruct (decide (best_effort_timestamp f = AV_NOPTS_VALUE)) as [E|E]; [eapply predicted_fits; eauto|by rewrite Hb]).
    destruct (IH dp1 gs') as (Ha & Hcs & Hadv); [done|by rewrite Hlast|lia|done|done|]. split_and!; [by constructor|cbn; by rewrite Hc, Hcs|].
    intros [|i] f1 g1 g2 Hf1 Hb1 Hg1 Hg2; cbn [lookup list_lookup] in *; [|by eapply Hadv].
    injection Hg1 as <-. destruct fs as [|f2 fs]; [done|]. injection Hf1 as ->. apply frame_times_cons in Hrest as (g3 & dp2 & gs2 & Hp2 & _ & ->).
    injection Hg2 as <-. destruct (process_video _ _ _ fs _ _ Hpl' Hp2) as (g4 & Hg4 & Ht2 & _). apply Ok_inj in Hg4 as <-. by eapply without_time_advances.
Qed.
End Times.

(** ** Audio *)

(** What libavutil promises: the greatest common divisor, scaling that is exact where
    it can be, and a change of base that changes nothing between equal bases. *)
Class RescaleLaws `{Lib : AvDec} := {
  gcd_law : forall a b, 0 < a -> 0 < b -> av_gcd a b = Z.gcd a b;
  rescale_exact : forall x b c q, 0 <= x -> 0 < b -> 0 < c -> q * b = x * c -> q < 2 ^ 63 -> rescale_q x {| num := 1; den := b |} {| num := 1; den := c |} = q;
  delta_law : forall d x n last, 0 < d -> 0 <= x ->
    let base := {| num := 1; den := d |} in fst (av_rescale_delta base x base n last base) = x
}.

Section Audio.
  Context `{Laws : RescaleLaws} `{Prof : Profile}.

  Hypothesis no_checks : overflow_checks = false.

  (** All rates divide [M]. *)
  Variable M : Z.
  Hypothesis M_positive : 0 < M.
  Hypothesis M_small : 2 * M <= INT_MAX.

(** The common base of two rates is their least common multiple. *)
Lemma common_base_lcm a b :
  0 < a -> 0 < b -> (a | M) -> (b | M) -> exists d, common_base a b = Ret {| num := 1; den := d |} /\ 0 < d /\ (a | d) /\ (b | d) /\ (d | M).
Proof.
  intros Ha Hb HaM HbM. unfold common_base, checked_quot. rewrite gcd_law by done.
  assert (0 < Z.gcd a b) as Hg by (pose proof (Z.gcd_nonneg a b); assert (Z.gcd a b <> 0) by (intros [-> _]%Z.gcd_eq_0; lia); lia).
  rewrite (proj2 (Z.eqb_neq (Z.gcd a b) 0)) by lia. cbn [mbind outcome_bind]. rewrite (proj2 (Z.eqb_neq b 0)) by lia.
  cbn [mbind outcome_bind]. rewrite !Z.quot_div_nonneg by (unfold INT_MAX; lia).
  set (q := a / Z.gcd a b). assert (q * b = Z.lcm a b) as Hq.
  { unfold q. rewrite Z.lcm_equiv2 by lia. unfold Z.lcm. rewrite Z.abs_eq, <-Z.lcm_equiv1; [done|lia|]. apply Z.mul_nonneg_nonneg; [lia|apply Z.div_pos; lia]. }
  assert (Z.lcm a b | M) as Hl by by apply Z.lcm_least. pose proof (Z.divide_pos_le _ _ M_positive Hl) as Hle. pose proof (Z.divide_pos_le _ _ M_positive HbM).
  assert (0 < q) as Hq0. { unfold q. pose proof (Z.gcd_divide_l a b) as [k Hk]. rewrite Hk at 1. rewrite Z.div_mul by lia. nia. }
  assert (q + 1 <= INT_MAX / b) as Hlim by (apply Z.div_le_lower_bound; nia). rewrite (proj2 (Z.leb_gt _ _)) by lia.
  assert (q <= INT_MAX) by nia. unfold as_i32. unfold INT_MAX in *. cbv zeta. rewrite wrap_id by (unfold fits; lia). rewrite (proj2 (Z.ltb_lt q _)) by lia.
  rewrite signed_in by (unfold signed_fits; change (32 - 1) with 31; lia). cbn [mbind outcome_bind]. rewrite Hq. exists (Z.lcm a b).
  split_and!; [done|nia|apply Z.divide_lcm_l|apply Z.divide_lcm_r|done].
Qed.

(** The clock of a decoder, in units of [1 / M]: where its last frame ends. *)
Definition clock (dp : DecoderParameter) (t : Z) : Prop :=
  exists d, last_frame_tb dp = {| num := 1; den := d |} /\ 0 < d /\ (d | M) /\ 0 <= last_frame_pts dp /\ 0 <= last_frame_duration_est dp /\
    (last_frame_pts dp + last_frame_duration_est dp) * M = t * d /\
    (last_frame_sample_rate dp = 0 \/ 0 < last_frame_sample_rate dp /\ (last_frame_sample_rate dp | d)).

Lemma clock_bound dp t : clock dp t -> last_frame_pts dp + last_frame_duration_est dp <= t /\ 0 <= t.
Proof. intros (d & _ & Hd & HdM & Hp & He & Heq & _). pose proof (Z.divide_pos_le _ _ M_positive HdM). nia. Qed.

(** Frames without timestamps, whose rates are common, and their length in units of
    [1 / M]. *)
Definition untimed (f : AVFrame) : Prop := f_pts f = AV_NOPTS_VALUE /\ 0 < f_sample_rate f /\ (f_sample_rate f | M) /\ 0 <= f_nb_samples f.

Definition ticks (fs : list AVFrame) : Z := foldr (fun f n => f_nb_samples f * (M / f_sample_rate f) + n) 0 fs.

Lemma rescale_up x d k : 0 <= x -> 0 < d -> 0 < k -> x * k < 2 ^ 63 -> rescale_q x {| num := 1; den := d |} {| num := 1; den := k * d |} = x * k.
Proof. intros. apply rescale_exact; nia. Qed.

(** Another rate does not move the clock. *)
Lemma update_keeps_clock dp t f :
  clock dp t -> t < 2 ^ 63 -> 0 < f_sample_rate f -> (f_sample_rate f | M) -> (num (f_time_base f) = 1 -> (den (f_time_base f) | M)) ->
  exists dp', audio_samplerate_update dp f = Ret dp' /\ clock dp' t /\ last_frame_sample_rate dp' = f_sample_rate f.
Proof.
  intros Hc Ht Hr HrM Hbase. pose proof (clock_bound _ _ Hc) as Hb. destruct Hc as (d & Htb & Hd & HdM & Hp & He & Heq & Hlast).
  unfold audio_samplerate_update. destruct (_ =? _) eqn:E; [apply Z.eqb_eq in E; exists dp; split_and!; [done| |done]; by exists d; split_and!|].
  rewrite Htb. cbn [den]. destruct (common_base_lcm d (f_sample_rate f)) as (d1 & -> & Hd1 & Hdiv & Hrdiv & Hd1M); [done..|]. cbn [mbind outcome_bind den].
  assert (exists d2 keep, ((if (num (f_time_base f) =? 1) && (d1 <? den (f_time_base f)) then r ← checked_rem (den (f_time_base f)) d1; Ret (r =? 0)
    else Ret false) = Ret keep) /\ (if keep : bool then f_time_base f else {| num := 1; den := d1 |}) = {| num := 1; den := d2 |} /\ 0 < d2 /\ (d1 | d2) /\ (d2 | M))
    as (d2 & keep & -> & Hk & Hd2 & Hd12 & Hd2M).
  { destruct (_ && _) eqn:Ek; [|exists d1, false; by split_and!]. apply andb_true_iff in Ek as [En%Z.eqb_eq Ed%Z.ltb_lt].
    unfold checked_rem. rewrite (proj2 (Z.eqb_neq d1 0)) by lia. cbn [mbind outcome_bind]. destruct (_ =? 0) eqn:Er; [|exists d1, false; by split_and!].
    apply Z.eqb_eq, Z.rem_divide in Er; [|lia]. exists (den (f_time_base f)), true. split_and!; [done| |lia|done|auto]. destruct (f_time_base f). cbn in *. by subst. }
  cbn [mbind outcome_bind]. rewrite Hk. assert (d | d2) as [k Hdk] by by etransitivity. assert (0 < k) by nia.
  assert (last_frame_pts dp <> AV_NOPTS_VALUE) as Hn by (unfold AV_NOPTS_VALUE; lia). rewrite (proj2 (Z.eqb_neq _ _) Hn). rewrite Hdk.
  pose proof (Z.divide_pos_le _ _ M_positive Hd2M) as Hle.
  assert ((last_frame_pts dp + last_frame_duration_est dp) * k <= t) as Hbound by nia.
  rewrite !rescale_up by nia. eexists. split; [reflexivity|]. split; [|done]. exists (k * d).
  cbn [set_rescale set_last last_frame_tb last_frame_pts last_frame_duration_est last_frame_sample_rate]. split_and!; [done|nia|by rewrite <-Hdk|nia|nia|nia|].
  right. split; [done|]. rewrite <-Hdk. by etransitivity.
Qed.

(** One frame. *)
Definition timed_audio (t : Z) (f g : AVFrame) : Prop :=
  f_duration g = f_nb_samples f /\ f_time_base g = {| num := 1; den := f_sample_rate f |} /\ content g = content f /\ has_buf g = has_buf f /\
  forall q, q * M = t * f_sample_rate f -> f_pts g = q.

Lemma frame_ticks f : untimed f -> f_nb_samples f * (M / f_sample_rate f) * f_sample_rate f = f_nb_samples f * M /\ 0 <= f_nb_samples f * (M / f_sample_rate f).
Proof.
  intros (_ & Hr & HrM & Hn). rewrite <-Z.mul_assoc, (Z.mul_comm (M / _)), <-Z.divide_div_mul_exact, (Z.mul_comm (f_sample_rate f)), Z.div_mul by (done || lia).
  split; [done|]. apply Z.mul_nonneg_nonneg; [done|]. apply Z.div_pos; lia.
Qed.

Lemma ts_process_clock dp t f :
  clock dp t -> untimed f -> t + f_nb_samples f * (M / f_sample_rate f) < 2 ^ 63 -> (num (f_time_base f) = 1 -> (den (f_time_base f) | M)) ->
  exists g dp', audio_ts_process dp f = Ret (g, dp') /\ clock dp' (t + f_nb_samples f * (M / f_sample_rate f)) /\ timed_audio t f g.
Proof.
  intros Hc Hf Ht Hbase. destruct (frame_ticks f Hf) as [Hticks Hticks0]. pose proof Hf as (Hn & Hr & HrM & Hnb).
  set (n := f_nb_samples f * (M / f_sample_rate f)) in *. pose proof (Z.divide_pos_le _ _ M_positive HrM) as HrleM.
  destruct (update_keeps_clock dp t f) as (dp1 & Hu & Hc1 & Hrate); [done|lia|done..|]. unfold audio_ts_process. rewrite Hu. cbn [mbind outcome_bind].
  pose proof (clock_bound _ _ Hc1) as Hb. destruct Hc1 as (d & Htb & Hd & HdM & Hp & He & Heq & Hlast).
  assert ((f_sample_rate f | d)) as [k Hk] by (rewrite <-Hrate; destruct Hlast as [|[_ ?]]; [lia|done]). assert (0 < k) by nia.
  pose proof (Z.divide_pos_le _ _ M_positive HdM) as HdleM.
  unfold predicted. rewrite (proj2 (Z.eqb_neq (last_frame_pts dp1) _)) by (unfold AV_NOPTS_VALUE; lia).
  rewrite i64_add_in by (unfold fits_i64; lia). cbn [mbind outcome_bind]. rewrite Hn, Z.eqb_refl. cbn [mbind outcome_bind set_frame_times f_time_base f_pts f_nb_samples].
  rewrite Htb in *.
  pose proof (delta_law d (last_frame_pts dp1 + last_frame_duration_est dp1) (f_nb_samples f) (last_filter_in_rescale_delta dp1) Hd ltac:(lia)) as Hdelta.
  cbv zeta in Hdelta.
  destruct (av_rescale_delta _ _ _ _ _ _) as [p delta]. cbn [fst] in Hdelta. subst p.
  assert (f_nb_samples f * k * M = n * d) as Hnk by nia.
  rewrite (rescale_exact (f_nb_samples f) (f_sample_rate f) d (f_nb_samples f * k)) by nia.
  eexists _, _. split; [reflexivity|]. split.
  - exists d. cbn [set_rescale set_last last_frame_tb last_frame_pts last_frame_duration_est last_frame_sample_rate].
    split_and!; [done|done|done|lia|nia|nia|]. rewrite Hrate. right. split; [done|]. by exists k.
  - split_and!; try done. intros q Hq. cbn [set_frame_times f_pts]. apply rescale_exact; try lia.
    + apply (Z.mul_cancel_r _ _ M); [lia|]. nia.
    + assert (q <= t) by nia. lia.
Qed.

Lemma counts_clock a b c dp t : clock (set_counts a b c dp) t <-> clock dp t.
Proof. done. Qed.

Lemma process_audio ctx dp t f :
  codec_type ctx = AVMEDIA_TYPE_AUDIO -> (num (pkt_timebase ctx) = 1 -> (den (pkt_timebase ctx) | M)) ->
  clock dp t -> untimed f -> t + f_nb_samples f * (M / f_sample_rate f) < 2 ^ 63 ->
  exists g dp', process_frame ctx dp f = Ret (Ok g, dp') /\ clock dp' (t + f_nb_samples f * (M / f_sample_rate f)) /\ timed_audio t f g.
Proof.
  intros Hty Hbase Hc Hf Ht. unfold process_frame. rewrite bool_decide_true by done.
  destruct (uadd_returns 64 (samples_decoded dp) (wrap 64 (f_nb_samples (set_frame_base (pkt_timebase ctx) f))) no_checks) as [n ->]. cbn [mbind outcome_bind].
  destruct (ts_process_clock (set_counts (frames_decoded dp) n (decode_errors dp) dp) t (set_frame_base (pkt_timebase ctx) f)) as (g & dp' & -> & Hc' & Hg);
    [done..|]. cbn [mbind outcome_bind]. unfold add_frame. destruct (uadd_returns 64 (frames_decoded dp') 1 no_checks) as [m ->]. cbn [mbind outcome_bind].
  by eexists _, _.
Qed.

(** The clock of an audio decoder is exact: the frames of the codec that carry no
    timestamps follow each other without a gap, an overlap or a drift, however often
    the sample rate changes between rates that divide [M] (28224000 for all the common
    ones).  A frame whose start its own rate can express gets that start; its duration
    is the number of its samples. *)
Theorem audio_clock_is_exact ctx dp t fs :
  codec_type ctx = AVMEDIA_TYPE_AUDIO -> (num (pkt_timebase ctx) = 1 -> (den (pkt_timebase ctx) | M)) ->
  clock dp t -> Forall untimed fs -> t + ticks fs < 2 ^ 63 ->
  exists gs dp', frame_times ctx dp fs = Ret (Ok gs, dp') /\ clock dp' (t + ticks fs) /\ length gs = length fs /\
    forall i f g, fs !! i = Some f -> gs !! i = Some g -> timed_audio (t + ticks (take i fs)) f g.
Proof.
  intros Hty Hbase. revert dp t. induction fs as [|f fs IH]; intros dp t Hc Hfs Ht.
  - exists [], dp. cbn [ticks foldr] in *. rewrite Z.add_0_r. by split_and!.
  - apply Forall_cons_1 in Hfs as [Hf Hfs]. cbn [ticks foldr] in Ht |- *. change (foldr _ 0 fs) with (ticks fs) in *. assert (0 <= ticks fs) as Hpos.
    { clear -Hfs M_positive. induction Hfs as [|g gs Hg _ IHg]; [done|]. cbn [ticks foldr]. pose proof (frame_ticks g Hg) as [_ ?]. change (foldr _ 0 gs) with (ticks gs). lia. }
    destruct (process_audio ctx dp t f Hty Hbase Hc Hf ltac:(lia)) as (g & dp1 & Hp & Hc1 & Hg).
    destruct (IH dp1 (t + f_nb_samples f * (M / f_sample_rate f))) as (gs & dp' & Hrest & Hc' & Hlen & Hall); [done|done|lia|].
    exists (g :: gs), dp'. cbn [frame_times length]. rewrite Hp. cbn [mbind outcome_bind]. rewrite Hrest. rewrite <-Z.add_assoc in Hc'. split_and!; [done|done|by rewrite Hlen|].
    intros [|i] f1 g1 Hf1 Hg1; cbn [lookup list_lookup take] in *.
    + injection Hf1 as <-. injection Hg1 as <-. cbn [ticks foldr]. by rewrite Z.add_0_r.
    + cbn [ticks foldr]. change (foldr _ 0 (take i fs)) with (ticks (take i fs)). rewrite Z.add_assoc. by eapply Hall.
Qed.
End Audio.

(** ** A decoder that holds a packet back *)

(** Exact scaling, rounded down. *)
Definition scaled (x : Z) (p q : AVRational) : Z := x * num p * den q / (den p * num q).

#[export] Instance scaling : AvMux := {|
  Codecpar := unit; frame_size := fun _ => 0; par_sample_rate := fun _ => 0;
  rescale_q := scaled;
  MuxTask.av_rescale_delta := fun ib x _ _ last ob => (if (num ib =? num ob) && (den ib =? den ob) then x else scaled x ib ob, last);
  av_get_audio_frame_duration2 := fun _ _ => 0;
  av_packet_rescale_ts := fun _ _ x => x |}.

#[export] Instance scaling_demux : AvDemux := {|
  compare_ts := fun a p b q => Z.sgn (a * num p * den q - b * num q * den p);
  av_inv_q := fun q => {| num := den q; den := num q |};
  av_mul_q := fun p q => {| num := num p * num q; den := den p * den q |} |}.

(** The packets whose frames were handed out, those it holds, and whether it drains. *)
Record Toy := { toy_type : AVMediaType; toy_rate : AVRational; toy_base : AVRational; gone : list Packet; held : list Packet; drains : bool }.

Definition set_toy (g h : list Packet) (b : bool) (e : Toy) : Toy :=
  {| toy_type := toy_type e; toy_rate := toy_rate e; toy_base := toy_base e; gone := g; held := h; drains := b |}.

(** The first byte of a packet is its sample rate in 100 Hz; there is a byte for each
    sample. *)
Definition frame_of (p : Packet) : AVFrame :=
  {| f_pts := pts p; best_effort_timestamp := pts p; f_duration := pkt_duration p; f_time_base := {| num := 0; den := 1 |}; repeat_pict := 0;
     f_sample_rate := 100 * default 0 (head (payload p)); f_nb_samples := Z.of_nat (length (payload p)); f_format := 0; f_width := 2; f_height := 2;
     decode_error_flags := 0; corrupt := false; f_opaque := 0; f_sar := {| num := 1; den := 1 |}; has_buf := true; content := payload p |}.

Definition toy_receive (e : Toy) : (Z + AVFrame) * Toy :=
  match held e with
  | p :: (_ :: _) as q => (inr (frame_of p), set_toy (gone e ++ [p]) q (drains e) e)
  | [p] => if drains e then (inr (frame_of p), set_toy (gone e ++ [p]) [] true e) else (inl AVERROR_AGAIN, e)
  | [] => (inl (if drains e then AVERROR_EOF else AVERROR_AGAIN), e)
  end.

#[export] Instance toy : AvDec := {|
  av_gcd := Z.gcd;
  av_hwframe_transfer_data := fun _ f => inr f;
  av_frame_copy_props := fun dst _ => inr dst;
  av_frame_apply_cropping := fun f => (0, f);
  Dec := Toy;
  codec_type := toy_type;
  dec_framerate := toy_rate;
  pkt_timebase := toy_base;
  bits_per_raw_sample := fun _ => 0;
  dec_width := fun _ => 2;
  dec_height := fun _ => 2;
  dec_subtitle_header := fun _ => [];
  avcodec_send_packet := fun e p => (0, set_toy (gone e) (held e ++ option_list p) (bool_decide (p = None)) e);
  avcodec_receive_frame := toy_receive;
  avcodec_flush_buffers := fun e => set_toy [] [] false e;
  avcodec_decode_subtitle2 := fun e p => (0, match payload p with [] => None | l => Some l end, e)
|}.

#[export] Instance scaling_laws : RescaleLaws (Lib := toy).
Proof.
  split; [done|..].
  - intros x b c q Hx Hb Hc Hq _. unfold scaled. change (x * 1 * c / (b * 1) = q). rewrite !Z.mul_1_r, <-Hq. apply Z.div_mul. lia.
  - intros d x n last Hd Hx. cbn. by rewrite Z.eqb_refl.
Qed.

Definition toy_new (t : AVMediaType) (rate base : AVRational) : Toy :=
  {| toy_type := t; toy_rate := rate; toy_base := base; gone := []; held := []; drains := false |}.

Definition toy_packet (p : Z) (l : list Z) : Packet :=
  {| pts := p; dts := p; pkt_duration := 0; pkt_time_base := {| num := 1; den := 90000 |}; pkt_stream_index := 0; key := true; pkt_size := Z.of_nat (length l);
     side_data_elems := 0; payload := l |}.

Definition toy_parameter : DecoderParameter := DecoderParameter_new {| num := 0; den := 1 |} {| num := 25; den := 1 |} 0.

Definition toy_video : Toy := toy_new AVMEDIA_TYPE_VIDEO {| num := 25; den := 1 |} {| num := 1; den := 90000 |}.
Definition toy_audio : Toy := toy_new AVMEDIA_TYPE_AUDIO {| num := 0; den := 1 |} {| num := 1; den := 8000 |}.

(** The times of the frames of some packets. *)
Definition toy_times `{Profile} (e : Toy) (ps : list Packet) : option (list Z) :=
  match frame_times (Lib := toy) e toy_parameter (frame_of <$> ps) with Ret (Ok gs, _) => Some (f_pts <$> gs) | _ => None end.

Definition checked_profile : Profile := {| overflow_checks := true; debug_assertions := true |}.

(** The parameters start with a last frame at time 0, and not with none: the difference
    to it passes for the duration of the first frame.  A stream of 25 frames per second
    that starts after ten seconds has its second frame, if that has no timestamp, at
    the twentieth second. *)
Example first_duration_is_the_start_time :
  toy_times (H := checked_profile) toy_video [toy_packet 900000 [1]; toy_packet AV_NOPTS_VALUE [2]; toy_packet AV_NOPTS_VALUE [3]] = Some [900000; 1800000; 2700000] /\
  toy_times (H := checked_profile) toy_video [toy_packet 0 [1]; toy_packet AV_NOPTS_VALUE [2]; toy_packet AV_NOPTS_VALUE [3]] = Some [0; 3600; 7200].
Proof. by vm_compute. Qed.

(** 8 samples at 8000 Hz, 2 at 1000 Hz, 8 at 4000 Hz, 1 at 8000 Hz. *)
Example rates_change :
  toy_times (H := release_profile) toy_audio (toy_packet AV_NOPTS_VALUE <$> [[80; 0; 0; 0; 0; 0; 0; 0]; [10; 0]; [40; 0; 0; 0; 0; 0; 0; 0]; [80]]) = Some [0; 1; 12; 40].
Proof. by vm_compute. Qed.

(** ** Witnesses *)

Definition two_frames : list AVFrame := frame_of <$> [toy_packet 900 [1]; toy_packet AV_NOPTS_VALUE [2]].

Lemma video_times_advance_witness :
  exists g g', (f_pts g <> AV_NOPTS_VALUE /\ f_pts g < f_pts g') /\ content g' = [2].
Proof.
  destruct (frame_times (Lib := toy) (Prof := checked_profile) toy_video toy_parameter two_frames) as [[[gs|e] dp']|  |] eqn:E; [|by vm_compute in E..].
  destruct (@video_times_advance _ _ toy checked_profile toy_video toy_parameter two_frames gs dp' eq_refl) as (Hn & Hc & Hadv);
    [split_and!; [by vm_compute|done|by repeat constructor; vm_compute]|by vm_compute|by vm_compute|by repeat constructor; vm_compute|done|].
  destruct gs as [|g [|g' [|]]]; try done. exists g, g'. apply Forall_cons_1 in Hn as [Hg _]. injection Hc as _ Hc. split; [|done]. split; [done|].
  by apply (Hadv 0%nat (frame_of (toy_packet AV_NOPTS_VALUE [2])) g g').
Defined.

Lemma audio_clock_is_exact_witness :
  exists gs dp', frame_times (Lib := toy) (Prof := release_profile) toy_audio toy_parameter (frame_of ∘ toy_packet AV_NOPTS_VALUE <$> [[80; 0; 0; 0; 0; 0; 0; 0]; [10; 0]]) = Ret (Ok gs, dp') /\
    clock 28224000 dp' 84672 /\ length gs = 2%nat.
Proof.
  destruct (@audio_clock_is_exact _ _ toy scaling_laws release_profile eq_refl 28224000 ltac:(lia) ltac:(unfold INT_MAX; lia) toy_audio toy_parameter 0
    (frame_of ∘ toy_packet AV_NOPTS_VALUE <$> [[80; 0; 0; 0; 0; 0; 0; 0]; [10; 0]])) as (gs & dp' & H & Hc & Hl & _).
  - done.
  - intros _. by exists 3528.
  - exists 1. split_and!; [done|lia|by exists 28224000|done|done|done|by left].
  - apply Forall_cons; [split_and!; [done|by vm_compute|by exists 3528|by vm_compute]|apply Forall_cons; [split_and!; [done|by vm_compute|by exists 28224|by vm_compute]|apply Forall_nil; done]].
  - by vm_compute.
  - exists gs, dp'. split; [done|]. split; [|done]. exact Hc.
Defined.
