(* ===== verification/DecSpec.v ===== *)
(** * The promises of the decoding task

    Everyone who listens gets the frames of the codec, all of them and in their order,
    through every flush, and then the two frames that tell the end; the flags of
    finished inputs are respected; whatever goes wrong, the end is told while there is
    memory for it.  The codec is any one that can be driven as libavcodec documents it;
    its calls may fail. *)

From stdpp Require Import base list option.
From Stdlib Require Import ZArith Lia.
From S2P Require Import Choke.
From S2P Require Import Prelude RustInt Errors StreamSpec Muxer Rescale MuxTask MuxTaskSpec DemuxTimes DecTimes DecTask DecTimesSpec.

Local Open Scope Z_scope.
Local Open Scope rust_scope.

(** ** Destinations *)

(** What a destination gets of a frame. *)
Definition addressed_box (f : AVFrame) (data : FrameData) (d : FrameSender) : FrameBox :=
  {| frame := Some f; frame_data := set_input_index (Z.of_nat (input_index d)) data |}.

(** One destination: nothing when its flag is set or its receiver is gone. *)
Definition deliver (b : FrameSender -> FrameBox) (d : FrameSender) : FrameSender :=
  let '(finished, d) := read_finished d in if finished then d else default d (send_frame (b d) d).

Lemma deliver_eq b d : deliver b d = let '(finished, d) := read_finished d in if finished then d else default d (send_frame (b d) d).
Proof. done. Qed.

Definition is_done (d : FrameSender) : bool := fst (read_finished d) || bool_decide (receiver_room d = Some O).

Lemma read_finished_keeps d : let d' := snd (read_finished d) in input_index d' = input_index d /\ receiver_room d' = receiver_room d /\ received d' = received d.
Proof. unfold read_finished. destruct (_ && _); [|done]. by destruct (unset_reads d) as [[|n]|]. Qed.

Lemma send_frame_room b d : send_frame b d = None <-> receiver_room d = Some O.
Proof. unfold send_frame. destruct (receiver_room d) as [[|n]|]; split; congruence. Qed.

Lemma send_all_spec f data l :
  copy_frame f = f -> send_all Enough f data l = (Ok (length (filter is_done l)), map (deliver (addressed_box f data)) l).
Proof.
  intros Hf. induction l as [|d l IH]; [done|]. cbn [send_all map]. rewrite IH. rewrite filter_cons.
  rewrite (deliver_eq (addressed_box f data) d).
  pose proof (read_finished_keeps d) as (Hi & Hr & _). assert (is_done d = fst (read_finished d) || bool_decide (receiver_room d = Some O)) as Hd by done.
  destruct (read_finished d) as [[|] d'] eqn:E; cbn [fst snd orb] in *; rewrite Hd.
  { by rewrite decide_True by done. }
  unfold copy_box. rewrite Hf. fold (addressed_box f data d'). pose proof (send_frame_room (addressed_box f data d') d') as Hroom. rewrite Hr in Hroom.
  destruct (send_frame _ d') as [d''|] eqn:Es; cbn [default].
  - rewrite decide_False by (rewrite bool_decide_spec; by intros H%Hroom). by destruct l.
  - rewrite decide_True by (rewrite bool_decide_spec; by apply Hroom). by destruct l.
Qed.

(** A decoded frame goes to every destination that still takes frames, with the
    index of that destination's own input; those whose input is finished, or whose
    receiver is gone, get nothing.  The decoder is told that nobody is left exactly
    when nobody is. *)
Theorem frames_reach_everyone f data l :
  copy_frame f = f ->
  dec_send Enough f data l = (if forallb is_done l then Err Error.EOF else Ok tt, map (deliver (addressed_box f data)) l).
Proof.
  intros Hf. unfold dec_send. rewrite send_all_spec by done. rewrite length_map. f_equal.
  assert ((length (filter is_done l) =? length l)%nat = forallb is_done l) as ->; [|done].
  induction l as [|d l IH]; [done|]. cbn [forallb length]. rewrite filter_cons. destruct (is_done d) eqn:E; cbn [andb].
  - rewrite decide_True by done. cbn [length]. done.
  - rewrite decide_False by (by intros H). pose proof (length_filter is_done l). apply Nat.eqb_neq. lia.
Qed.

(** A destination that takes everything. *)
Definition listening (d : FrameSender) : Prop := read_finished d = (false, d) /\ receiver_room d = None.

(** What it has, when so many frames were sent. *)
Definition pushed (b : FrameSender -> list FrameBox) (d : FrameSender) : FrameSender :=
  {| input_index := input_index d; flags := flags d; unset_reads := unset_reads d; receiver_room := receiver_room d; received := received d ++ b d |}.

(** Frames with what goes with each. *)
Definition boxes (gs : list (AVFrame * FrameData)) (d : FrameSender) : list FrameBox := (fun g => addressed_box (fst g) (snd g) d) <$> gs.

Lemma pushed_listening b d : listening d -> listening (pushed b d).
Proof.
  unfold listening, read_finished, pushed. cbn [flags input_index unset_reads receiver_room]. intros [H ->].
  destruct (_ && _); [|done]. destruct (unset_reads d) as [[|n]|] eqn:E; [discriminate| |by split].
  apply (f_equal (unset_reads ∘ snd)) in H. cbn in H. rewrite E in H. injection H. lia.
Qed.

Lemma deliver_listening b d : listening d -> deliver b d = pushed (fun d => [b d]) d.
Proof. intros [Hf Hr]. rewrite deliver_eq, Hf. unfold send_frame, pushed. by rewrite Hr. Qed.

Lemma listening_not_done d : listening d -> is_done d = false.
Proof. intros [Hf Hr]. unfold is_done. by rewrite Hf, Hr. Qed.

Lemma pushed_twice data gs g d : pushed (fun d => [addressed_box g data d]) (pushed (boxes gs) d) = pushed (boxes (gs ++ [(g, data)])) d.
Proof. unfold pushed, boxes. cbn [received input_index flags unset_reads receiver_room]. by rewrite fmap_app, app_assoc. Qed.

(** ** The codec *)

(** What the demuxer sends: packets with data, packets without any, and the empty one at
    the end of the input or of a loop. *)
Definition data_packet (p : DecPacket) : Prop := 0 <= pkt_stream_index (dec_packet p) /\ pkt_size (dec_packet p) <> 0.
Definition blank (p : DecPacket) : Prop := 0 <= pkt_stream_index (dec_packet p) /\ pkt_size (dec_packet p) = 0.
Definition flush_packet (p : DecPacket) : Prop := pkt_stream_index (dec_packet p) < 0 /\ have_data (Some p) = false.

Section Codec.
  Context `{Lib : AvDec}.

(** What happens while a codec is driven: it gives a frame, and is then in the given
    state, or a call fails. *)
Inductive CodecEvent := Gave (e : Dec) (f : AVFrame) | Failed.

(** A codec that is asked for frames until it wants a packet, or has ended.  A call that
    fails in another way is made again. *)
Inductive gives : Dec -> list CodecEvent -> bool -> Dec -> Prop :=
| gives_again e e' : avcodec_receive_frame e = (inl AVERROR_AGAIN, e') -> gives e [] false e'
| gives_eof e e' : avcodec_receive_frame e = (inl AVERROR_EOF, e') -> gives e [] true e'
| gives_frame e f e1 evs ended e' : avcodec_receive_frame e = (inr f, e1) -> gives e1 evs ended e' -> gives e (Gave e1 f :: evs) ended e'
| gives_error e ret e1 evs ended e' :
    avcodec_receive_frame e = (inl ret, e1) -> ret <> AVERROR_AGAIN -> ret <> AVERROR_EOF -> gives e1 evs ended e' -> gives e (Failed :: evs) ended e'.

(** A video or audio codec that is driven over packets, as libavcodec documents it: it
    takes a packet or refuses it; behind every packet that it took it is asked for
    frames until it wants the next one; at an empty packet it is drained until it has
    ended, and then flushed, so that it takes packets again. *)
Inductive driven : Dec -> list DecPacket -> list CodecEvent -> Dec -> Prop :=
| driven_nil e : driven e [] [] e
| driven_blank e p ps evs e' : codec_type e <> AVMEDIA_TYPE_SUBTITLE -> blank p -> driven e ps evs e' -> driven e (p :: ps) evs e'
| driven_data e p ps ret e1 evs1 e2 evs2 e' :
    codec_type e <> AVMEDIA_TYPE_SUBTITLE -> data_packet p -> avcodec_send_packet e (Some (dec_packet p)) = (ret, e1) -> 0 <= ret ->
    gives e1 evs1 false e2 -> driven e2 ps evs2 e' -> driven e (p :: ps) (evs1 ++ evs2) e'
| driven_refused e p ps ret e1 evs e' :
    codec_type e <> AVMEDIA_TYPE_SUBTITLE -> data_packet p -> avcodec_send_packet e (Some (dec_packet p)) = (ret, e1) ->
    ret < 0 -> ret <> AVERROR_AGAIN -> ret <> AVERROR_EOF -> driven e1 ps evs e' -> driven e (p :: ps) (Failed :: evs) e'
| driven_flush e p ps ret e1 evs1 e2 evs2 e' :
    codec_type e <> AVMEDIA_TYPE_SUBTITLE -> flush_packet p -> avcodec_send_packet e None = (ret, e1) -> 0 <= ret \/ ret = AVERROR_EOF ->
    gives e1 evs1 true e2 -> driven (avcodec_flush_buffers e2) ps evs2 e' -> driven e (p :: ps) (evs1 ++ evs2) e'.

(** Nothing that ends a task with [exit_on_error]. *)
Definition clean (ev : CodecEvent) : Prop :=
  match ev with Gave _ f => decode_error_flags f = 0 /\ corrupt f = false | Failed => False end.

(** The frames of a codec with their times, and what goes with them; failures are
    counted. *)
Fixpoint with_times `{Prof : Profile} (dp : DecoderParameter) (evs : list CodecEvent) : outcome (result (list (AVFrame * FrameData)) Error * DecoderParameter) :=
  match evs with
  | [] => Ret (Ok [], dp)
  | Failed :: evs => dp ← add_error dp; with_times dp evs
  | Gave e f :: evs =>
    '(r, dp) ← process_frame e dp f;
    match r with
    | Err err => Ret (Err err, dp)
    | Ok g => '(r, dp) ← with_times dp evs; Ret (match r with Ok gs => Ok ((g, frame_data_of e) :: gs) | Err err => Err err end, dp)
    end
  end.

Lemma timed_app `{Prof : Profile} dp evs1 evs2 gs dp' :
  with_times dp (evs1 ++ evs2) = Ret (Ok gs, dp') ->
  exists gs1 dp1 gs2, with_times dp evs1 = Ret (Ok gs1, dp1) /\ with_times dp1 evs2 = Ret (Ok gs2, dp') /\ gs = (gs1 ++ gs2)%list.
Proof.
  revert dp gs. induction evs1 as [|[e f|] evs1 IH]; intros dp gs H; [by exists [], dp, gs| |]; cbn [app with_times] in *.
  - apply bind_Ret in H as ([[g|err] dp1] & Hp & H); [|by apply Ret_inj in H]. apply bind_Ret in H as ([[gs'|err] dp2] & Hf & H); [|by apply Ret_inj in H].
    apply Ret_inj in H as [= <- <-]. apply IH in Hf as (gs1 & dp3 & gs2 & H1 & H2 & ->). exists ((g, frame_data_of e) :: gs1), dp3, gs2. split_and!; [|done|done].
    rewrite Hp. cbn [mbind outcome_bind]. by rewrite H1.
  - apply bind_Ret in H as (dp1 & -> & H). by apply IH in H.
Qed.

End Codec.

Section Decoding.
  Context `{Lib : AvDec} `{Prof : Profile}.

  (** The task as it was started. *)
  Variables (exit_on_error : bool) (dp0 : DecoderParameter) (l0 : list FrameSender).
  Hypothesis someone : l0 <> [].
  Hypothesis all_listen : Forall listening l0.

(** Events whose frames have times that can be computed, and keep their data, and which
    do not end the task. *)
Definition fine (evs : list CodecEvent) : Prop :=
  (exit_on_error = true -> Forall clean evs) /\ exists gs dp, with_times dp0 evs = Ret (Ok gs, dp) /\ Forall (fun g => has_buf (fst g) = true) gs.

Lemma fine_prefix evs evs' : fine (evs ++ evs') -> fine evs.
Proof.
  intros (Hc & gs & dp & H & Hgs). apply timed_app in H as (gs1 & dp1 & gs2 & H1 & _ & ->). apply Forall_app in Hgs as [? _]. split; [|by exists gs1, dp1].
  intros He. by apply Hc, Forall_app in He as [? _].
Qed.

(** A task whose codec is [e], and whose destinations have got the frames of [evs]. *)
Definition delivered (evs : list CodecEvent) (e : Dec) (st : DecState) : Prop :=
  context st = e /\ exists gs, with_times dp0 evs = Ret (Ok gs, parameter st) /\ senders st = map (pushed (boxes gs)) l0.

Lemma nobody_is_done b : forallb is_done (map (pushed b) l0) = false.
Proof.
  destruct l0 as [|d l]; [done|]. cbn [map forallb]. apply Forall_cons_1 in all_listen as [Hd _]. by rewrite listening_not_done by by apply pushed_listening.
Qed.

Lemma send_to_listeners g gs st :
  copy_frame g = g -> senders st = map (pushed (boxes gs)) l0 ->
  send_to_all Enough g st = (Ok tt, set_senders (map (pushed (boxes (gs ++ [(g, frame_data_of (context st))]))) l0) st).
Proof.
  intros Hg Hs. unfold send_to_all. rewrite frames_reach_everyone by done. rewrite Hs, nobody_is_done. f_equal. f_equal. rewrite map_map. apply map_ext_in.
  intros d Hin. pose proof (proj1 (Forall_forall _ _) all_listen d Hin) as Hd'. rewrite deliver_listening by by apply pushed_listening. apply pushed_twice.
Qed.

Lemma decoded_frame_spec evs e f st :
  delivered evs e st -> fine (evs ++ [Gave e f]) ->
  exists st', decoded_frame exit_on_error Enough f st = Ret (Ok tt, st') /\ delivered (evs ++ [Gave e f]) e st'.
Proof.
  intros (Hctx & gs & Ht & Hs) (Hc & gs' & dp' & Ht' & Hbuf). pose proof Ht' as Happ. apply timed_app in Happ as (gs1 & dp1 & gs2 & H1 & H2 & ->).
  rewrite Ht in H1. apply Ret_inj in H1 as [= <- <-]. cbn [with_times] in H2. apply bind_Ret in H2 as ([[g|err] dp2] & Hp & H2); [|by apply Ret_inj in H2].
  cbn [mbind outcome_bind] in H2. apply Ret_inj in H2 as [= <- <-]. apply Forall_app in Hbuf as [_ [Hg _]%Forall_cons_1]. cbn [fst] in Hg. unfold decoded_frame.
  assert ((negb (decode_error_flags f =? 0) || corrupt f) && exit_on_error = false) as ->.
  { destruct exit_on_error; [|by rewrite andb_false_r]. destruct (Forall_app clean evs [Gave e f]) as [Hcl _]. destruct (Hcl (Hc eq_refl)) as [_ [[-> ->] _]%Forall_cons_1]. done. }
  rewrite Hctx, Hp. cbn [mbind outcome_bind]. cbv zeta. rewrite (send_to_listeners g gs) by (done || (unfold copy_frame; by rewrite Hg)). cbn [eof_exits].
  eexists. split; [reflexivity|]. split; [done|]. exists (gs ++ [(g, frame_data_of e)])%list. split; [done|]. cbn [set_senders senders set_parameter context]. by rewrite Hctx.
Qed.

Lemma delivered_context evs e st e' : delivered evs e st -> delivered evs e' (set_context e' st).
Proof. intros (Hc & H). by split. Qed.

Lemma fine_failed evs : fine (evs ++ [Failed]) -> exit_on_error = false.
Proof. intros [Hc _]. destruct exit_on_error; [|done]. by apply Forall_app in Hc as [_ [[] _]%Forall_cons_1]. Qed.

(** A failure is counted. *)
Lemma failed_step evs e e1 st :
  delivered evs e st -> fine (evs ++ [Failed]) ->
  exists dp, add_error (parameter st) = Ret dp /\ delivered (evs ++ [Failed]) e1 (set_parameter dp (set_context e1 st)).
Proof.
  intros (_ & gs & Ht & Hs) (_ & gs' & dp' & Ht' & _). pose proof Ht' as Happ. apply timed_app in Happ as (gs1 & dp1 & gs2 & H1 & H2 & ->).
  rewrite Ht in H1. apply Ret_inj in H1 as [= <- <-]. cbn [with_times] in H2. apply bind_Ret in H2 as (dp & Ha & [= <- <-]%Ret_inj). exists dp. split; [done|].
  split; [done|]. exists gs. by rewrite app_nil_r in Ht'.
Qed.

Lemma event_app (pre : list CodecEvent) ev evs : (pre ++ ev :: evs)%list = ((pre ++ [ev]) ++ evs)%list.
Proof. by rewrite <-app_assoc. Qed.

(** The codec's loop hands everything on that the codec gives. *)
Lemma gives_spec e evs ended e' :
  gives e evs ended e' -> forall pre st, delivered pre e st -> fine (pre ++ evs) ->
  exists k0 st', (forall k, (k0 <= k)%nat -> receive_frames exit_on_error Enough k st = Ret (if ended then Err Error.EOF else Ok tt, st')) /\
    delivered (pre ++ evs) e' st'.
Proof.
  induction 1 as [e e' Hr|e e' Hr|e f e1 evs ended e' Hr Hg IH|e ret e1 evs ended e' Hr Hn1 Hn2 Hg IH]; intros pre st Hd Hf; pose proof (proj1 Hd) as Hctx.
  - exists 1%nat, (set_context e' st). rewrite app_nil_r. split; [|by eapply delivered_context].
    intros [|k] Hle; [lia|]. cbn [receive_frames]. by rewrite bool_decide_false, Hctx, Hr by done.
  - exists 1%nat, (set_context e' st). rewrite app_nil_r. split; [|by eapply delivered_context].
    intros [|k] Hle; [lia|]. cbn [receive_frames]. by rewrite bool_decide_false, Hctx, Hr by done.
  - rewrite event_app in Hf |- *. destruct (decoded_frame_spec pre e1 f (set_context e1 st)) as (st1 & H1 & Hd1); [by eapply delivered_context|by eapply fine_prefix|].
    destruct (IH _ st1 Hd1 Hf) as (k0 & st' & Hk & Hd'). exists (S k0), st'. split; [|done].
    intros [|k] Hle; [lia|]. cbn [receive_frames]. rewrite bool_decide_false, Hctx, Hr, H1 by done. cbn [mbind outcome_bind]. by rewrite Hk by lia.
  - rewrite event_app in Hf |- *. pose proof (fine_prefix _ _ Hf) as Hf1. destruct (failed_step pre e e1 st Hd Hf1) as (dp & Ha & Hd1).
    destruct (IH _ _ Hd1 Hf) as (k0 & st' & Hk & Hd'). exists (S k0), st'. split; [|done].
    intros [|k] Hle; [lia|]. cbn [receive_frames]. rewrite bool_decide_false, Hctx, Hr, (proj2 (Z.eqb_neq ret _) Hn1), (proj2 (Z.eqb_neq ret _) Hn2) by done.
    cbn [set_context parameter]. rewrite Ha. cbn [mbind outcome_bind]. rewrite (fine_failed _ Hf1) in Hk |- *. by rewrite Hk by lia.
Qed.

Definition receipts_of (ps : list DecPacket) : list PacketReceipt := (fun p => PacketIn Enough (Some p)) <$> ps.

(** A codec that takes a packet. *)
Lemma packet_taken p e ret e1 pre evs1 ended e2 st :
  codec_type e <> AVMEDIA_TYPE_SUBTITLE ->
  data_packet p /\ avcodec_send_packet e (Some (dec_packet p)) = (ret, e1) /\ 0 <= ret \/
    flush_packet p /\ avcodec_send_packet e None = (ret, e1) /\ (0 <= ret \/ ret = AVERROR_EOF) ->
  gives e1 evs1 ended e2 -> delivered pre e st -> fine (pre ++ evs1) ->
  exists k0 st', (forall k, (k0 <= k)%nat -> packet_decode exit_on_error Enough k (Some p) st = Ret (if ended then Err Error.EOF else Ok tt, st')) /\
    delivered (pre ++ evs1) e2 st'.
Proof.
  intros Ht Hp Hg Hd Hf. pose proof (proj1 Hd) as Hctx. destruct (gives_spec _ _ _ _ Hg pre (set_context e1 st)) as (k0 & st' & Hk & Hd'); [by eapply delivered_context|done|].
  exists k0, st'. split; [|done]. intros k Hle. unfold packet_decode. rewrite bool_decide_false by (by rewrite Hctx).
  destruct Hp as [([Hi Hz] & Hs & Hret)|([Hi _] & Hs & Hret)].
  - rewrite (proj2 (Z.ltb_ge _ 0) Hi), (proj2 (Z.eqb_neq _ 0) Hz), Hctx. cbn [negb andb]. cbv zeta. rewrite Hs, (proj2 (Z.ltb_ge ret 0) Hret). cbn [andb]. by apply Hk.
  - rewrite (proj2 (Z.ltb_lt _ 0) Hi), Hctx. cbn [negb andb]. cbv zeta. rewrite Hs. assert ((ret <? 0) && negb ((ret =? AVERROR_EOF) && true) = false) as ->; [|by apply Hk].
    destruct Hret as [Hret| ->]; [by rewrite (proj2 (Z.ltb_ge ret 0) Hret)|done].
Qed.

(** The thread drives the codec. *)
Lemma driven_spec e ps evs e' :
  driven e ps evs e' -> forall pre st, delivered pre e st -> fine (pre ++ evs) ->
  exists k0 st', (forall k, (k0 <= k)%nat -> dec_loop exit_on_error k st (receipts_of ps) = Ret (st', [])) /\ delivered (pre ++ evs) e' st'.
Proof.
  induction 1 as [e|e p ps evs e' Ht [Hi Hz] Hdr IH|e p ps ret e1 evs1 e2 evs2 e' Ht Hp Hs Hret Hg Hdr IH|e p ps ret e1 evs e' Ht [Hi Hz] Hs Hret Hn1 Hn2 Hdr IH|
    e p ps ret e1 evs1 e2 evs2 e' Ht Hp Hs Hret Hg Hdr IH]; intros pre st Hd Hf; cbn [receipts_of fmap list_fmap dec_loop].
  - exists 0%nat, st. rewrite app_nil_r. split; [done|done].
  - destruct (IH pre st Hd Hf) as (k0 & st' & Hk & Hd'). exists k0, st'. split; [|done]. intros k Hle. unfold packet_decode.
    rewrite bool_decide_false by (by rewrite (proj1 Hd)). rewrite (proj2 (Z.ltb_ge _ 0) Hi), Hz. cbn [negb andb Z.eqb mbind outcome_bind after_packet]. by apply Hk.
  - rewrite app_assoc in Hf |- *. destruct (packet_taken p e ret e1 pre evs1 false e2 st Ht ltac:(by left) Hg Hd (fine_prefix _ _ Hf)) as (k1 & st1 & Hk1 & Hd1).
    destruct (IH _ st1 Hd1 Hf) as (k2 & st' & Hk2 & Hd'). exists (Nat.max k1 k2), st'. split; [|done]. intros k Hle. rewrite Hk1 by lia.
    cbn [mbind outcome_bind after_packet]. apply Hk2. lia.
  - rewrite event_app in Hf |- *. pose proof (fine_prefix _ _ Hf) as Hf1. destruct (failed_step pre e e1 st Hd Hf1) as (dp & Ha & Hd1).
    destruct (IH _ _ Hd1 Hf) as (k0 & st' & Hk & Hd'). exists k0, st'. split; [|done]. intros k Hle. unfold packet_decode. rewrite (proj1 Hd).
    rewrite bool_decide_false by done. rewrite (proj2 (Z.ltb_ge _ 0) Hi), (proj2 (Z.eqb_neq _ 0) Hz). cbn [negb andb]. cbv zeta.
    rewrite Hs, (proj2 (Z.ltb_lt ret 0) Hret), (proj2 (Z.eqb_neq ret _) Hn1), (proj2 (Z.eqb_neq ret _) Hn2). cbn [negb andb set_context parameter]. rewrite Ha.
    cbn [mbind outcome_bind]. rewrite (fine_failed _ Hf1) in Hk |- *. cbn [after_packet]. by apply Hk.
  - rewrite app_assoc in Hf |- *. destruct (packet_taken p e ret e1 pre evs1 true e2 st Ht ltac:(by right) Hg Hd (fine_prefix _ _ Hf)) as (k1 & st1 & Hk1 & Hd1).
    destruct (IH _ (set_context (avcodec_flush_buffers e2) st1) (delivered_context _ _ _ _ Hd1) Hf) as (k2 & st' & Hk2 & Hd'). exists (Nat.max k1 k2), st'.
    split; [|done]. intros k Hle. rewrite Hk1 by lia. cbn [mbind outcome_bind after_packet]. destruct Hp as [_ ->]. cbn [error_eq negb andb orb]. rewrite (proj1 Hd1). apply Hk2. lia.
Qed.

End Decoding.


(** ** Whatever happens *)

(** The last thing that a destination has got is the null frame, or it no longer takes
    frames. *)
Definition told (d : FrameSender) : Prop :=
  (exists b, list.last (received d) = Some b /\ frame b = None) \/ receiver_room d = Some O \/ fst (read_finished d) = true.

Lemma read_finished_again d : fst (read_finished d) = true -> read_finished (snd (read_finished d)) = (true, d).
Proof.
  unfold read_finished. destruct (_ && _) eqn:E; [|done]. destruct (unset_reads d) as [[|n]|] eqn:Eu; [|done..]. intros _. cbn [snd]. by rewrite E, Eu.
Qed.

Lemma done_is_told `{Lib : AvDec} e d : told (done_sender e d).
Proof.
  unfold done_sender. pose proof (read_finished_again d) as Hagain. pose proof (read_finished_keeps d) as (_ & Hr & _).
  destruct (read_finished d) as [[|] d'] eqn:E; cbn [fst snd] in *.
  - right. right. by rewrite (Hagain eq_refl).
  - unfold send_frame. destruct (receiver_room d') as [[|n]|] eqn:Er; cbn [default]; [by right; left|..]; left; eexists; (split; [cbn; apply last_snoc|done]).
Qed.

Lemma dec_done_told `{Lib : AvDec} st : Forall told (senders (dec_done st)).
Proof. unfold dec_done. cbn [set_senders senders]. apply Forall_map. apply Forall_true. intros d. apply done_is_told. Qed.

(** With memory for it, a frame is sent or nobody is left. *)
Lemma send_all_memory mem f data l r l' :
  mem <> NoFrame -> has_buf f = false -> send_all mem f data l = (r, l') ->
  (exists n, r = Ok n) \/ (mem = NoReference /\ r = Err (out_of_memory DecodingOperationError.FrameCopyPropsError)).
Proof.
  intros Hmem Hb. revert r l'. induction l as [|d l IH]; intros r l' H; [injection H as <- _; left; by eexists|].
  cbn [send_all] in H. destruct (read_finished d) as [fin d1]. destruct (send_all mem f data l) as [r1 l1] eqn:E. specialize (IH r1 l1 eq_refl).
  assert (forall n (d2 : FrameSender), (match r1 with Ok m => Ok (n + m)%nat | Err e => Err e end, d2 :: l1) = (r, l') ->
    (exists n, r = Ok n) \/ (mem = NoReference /\ r = Err (out_of_memory DecodingOperationError.FrameCopyPropsError))) as Hgo.
  { intros n d2 [= <- _]. destruct IH as [[m ->]|[-> ->]]; [left; by eexists|by right]. }
  destruct fin; [by eapply Hgo|]. destruct l as [|d' l].
  - destruct (send_frame _ d1); injection H as <- _; left; by eexists.
  - unfold copy_box in H. destruct mem; try done; try (destruct (send_frame _ d1); by eapply Hgo). rewrite Hb in H. injection H as <- _. by right.
Qed.

(** The frame that carries the end of the last one. *)
Lemma eof_send `{Lib : AvDec} `{Prof : Profile} mem dp z st r st' :
  mem <> NoFrame -> eof_frame dp = Ret z -> send_to_all mem z st = (r, st') ->
  forall e, r = Err e -> e = Error.EOF \/ (mem = NoReference /\ e = out_of_memory DecodingOperationError.FrameCopyPropsError).
Proof.
  intros Hmem Hz Hs e ->. apply bind_Ret in Hz as (p & _ & <-%Ret_inj). unfold send_to_all in Hs. destruct (dec_send _ _ _ _) as [r l] eqn:E. injection Hs as -> _.
  unfold dec_send in E. destruct (send_all _ _ _ _) as [r1 l1] eqn:E1. apply send_all_memory in E1; [|done|done].
  destruct E1 as [[n ->]|[-> ->]]; [destruct (n =? length l1)%nat; [|discriminate]|]; injection E as <- _; [by left|by right].
Qed.

(** The loop reports at most one error. *)
Lemma loop_errors `{Lib : AvDec} `{Prof : Profile} exit_on_error fuel st l st1 errs :
  dec_loop exit_on_error fuel st l = Ret (st1, errs) -> (length errs <= 1)%nat.
Proof.
  revert st. induction l as [|[mem pkt| | |] l IH]; intros st Hloop; cbn [dec_loop] in Hloop; [by apply Ret_inj in Hloop as [= _ <-]; cbn; lia| |by eapply IH|..];
    [|by apply Ret_inj in Hloop as [= _ <-]; cbn; lia..]. apply bind_Ret in Hloop as ([r st2] & _ & Hloop).
  destruct (after_packet pkt r st2) as [st3|st3 es] eqn:Ea; [by eapply IH|]. apply Ret_inj in Hloop as [= _ <-].
  unfold after_packet in Ea. destruct r as [|e]; [done|]. destruct (_ || _); [destruct (_ && _); [done|]|]; injection Ea as _ <-; cbn; lia.
Qed.

Lemma eof_frame_returns `{Lib : AvDec} `{Prof : Profile} dp : eof_frame dp <> Diverge.
Proof.
  unfold eof_frame, i64_add, i64_sub. destruct (_ =? _); [done|]. cbv zeta. destruct (_ && _); [done|]. by destruct overflow_checks.
Qed.

(** C35. When the task returns, after a stop, the end of the input, or an error, at most one
    error is reported, and every destination that still takes frames is told the end
    with a null frame.  The one exception is a task that ends without an error and has
    no memory for the references to the frame that carries the end: it reports that,
    and the null frames are not sent (the channels close).  Where not even a frame can
    be allocated, only a task that ends with an error returns, and its destinations are
    told; any other one panics. *)
Theorem the_end_is_told `{Lib : AvDec} `{Prof : Profile} exit_on_error fuel mem st l :
  match dec_task exit_on_error fuel mem st l with
  | Ret (st', errors) =>
    (length errors <= 1)%nat /\ (mem = NoFrame -> errors <> []) /\
    (Forall told (senders st') \/ (mem = NoReference /\ errors = [out_of_memory DecodingOperationError.FrameCopyPropsError]))
  | Panic =>
    dec_loop exit_on_error fuel st l = Panic \/
    exists st1, dec_loop exit_on_error fuel st l = Ret (st1, []) /\ (mem = NoFrame \/ eof_frame (parameter st1) = Panic)
  | Diverge => dec_loop exit_on_error fuel st l = Diverge
  end.
Proof.
  unfold dec_task. destruct (dec_loop exit_on_error fuel st l) as [[st1 errs]| |] eqn:Hloop; cbn [mbind outcome_bind]; [|by left|done].
  pose proof (loop_errors _ _ _ _ _ _ Hloop) as Hlen. unfold dec_finish. destruct errs as [|e errs].
  - destruct (decide (mem = NoFrame)) as [->|Hmem]; [rewrite bool_decide_true by done; right; by eexists; split; [|left]|]. rewrite bool_decide_false by done.
    destruct (eof_frame (parameter st1)) as [z| |] eqn:Hz; cbn [mbind outcome_bind]; [|right; by eexists; split; [|right]|by apply eof_frame_returns in Hz].
    destruct (send_to_all mem z st1) as [r st2] eqn:Hs. pose proof (eof_send _ _ _ _ _ _ Hmem Hz Hs) as Hr.
    destruct r as [u|e]; [|destruct (Hr e eq_refl) as [->|[-> ->]]; cbn [error_eq]]; (split_and!; [cbn; lia|done|]); [left; apply dec_done_told..|by right].
  - split_and!; [done|done|left; apply dec_done_told].
Qed.

(** ** Subtitles *)

(** The test for the end of the stream is the wrong way around: the codec gets an empty
    packet in the place of every packet with data. *)
Lemma subtitle_data_is_not_decoded `{Lib : AvDec} `{Prof : Profile} exit_on_error mem p st :
  0 <= pkt_stream_index (dec_packet p) -> packet_opaque p <> PktOpaqueSubHeartbeat -> packet_opaque p <> PktOpaqueFixSubDuration ->
  transcode_subtitles exit_on_error mem (Some p) st = transcode_subtitles exit_on_error mem None st.
Proof.
  intros Hi H1 H2. unfold transcode_subtitles, decode_subtitle, subtitle_packet. rewrite (proj2 (Z.leb_le 0 _) Hi), (proj2 (Z.eqb_neq _ _) H1), (proj2 (Z.eqb_neq _ _) H2).
  done.
Qed.

(** ** The decoder that holds a packet back *)

Definition sender (i : nat) (n : option nat) (room : option nat) : FrameSender :=
  {| input_index := i; flags := 4; unset_reads := n; receiver_room := room; received := [] |}.

Definition data (p : Z) (l : list Z) : DecPacket := {| dec_packet := toy_packet p l; packet_buf := true; packet_opaque := 0 |}.

Definition flush : DecPacket := {| dec_packet := set_stream_index (-1) (toy_packet AV_NOPTS_VALUE []); packet_buf := false; packet_opaque := 0 |}.

Definition toy_state (e : Toy) (l : list FrameSender) : DecState (Lib := toy) := {| parameter := toy_parameter; context := e; senders := l |}.

(** What the destinations have: the input, and the frame's time and data. *)
Definition log (d : FrameSender) : list (Z * option (Z * list Z)) :=
  (fun b => (fg_input_index (frame_data b), (fun f => (f_pts f, content f)) <$> frame b)) <$> received d.

Definition run `{Profile} (e : Toy) (l : list FrameSender) (rs : list PacketReceipt) : option (list (list (Z * option (Z * list Z))) * nat) :=
  match dec_task (Lib := toy) false 10 Enough (toy_state e l) rs with Ret (st, errs) => Some (log <$> senders st, length errs) | _ => None end.

(** Two loops of an input; the second destination finishes its input, the third leaves. *)
Example two_loops :
  run (H := release_profile) toy_video [sender 0 None None; sender 1 (Some 1%nat) None; sender 2 None (Some 2%nat)]
    (receipts_of [data 0 [1]; data 3600 [2]; flush; data 7200 [3]; flush]) =
  Some ([[(0, Some (0, [1])); (0, Some (3600, [2])); (0, Some (7200, [3])); (0, Some (10800, [])); (0, None)]; [(1, Some (0, [1]))];
         [(2, Some (0, [1])); (2, Some (3600, [2]))]], 0%nat).
Proof. by vm_compute. Qed.

(** The codec's last frame is lost when the demuxer's thread ends without an empty
    packet. *)
Example no_flush_loses_a_frame :
  run (H := release_profile) toy_video [sender 0 None None] (receipts_of [data 0 [1]; data 3600 [2]]) =
  Some ([[(0, Some (0, [1])); (0, Some (3600, [])); (0, None)]], 0%nat).
Proof. by vm_compute. Qed.

(** The first packet of a subtitle stream ends the task: the codec makes nothing of the
    empty packet, which passes for the end of the stream. *)
Example the_first_subtitle_ends_the_task :
  run (H := release_profile) (toy_new AVMEDIA_TYPE_SUBTITLE {| num := 0; den := 1 |} {| num := 1; den := 1000 |}) [sender 0 None None]
    (receipts_of [data 0 [1; 2; 3]; data 5 [4; 5; 6]]) = Some ([[(0, Some (0, [])); (0, None)]], 0%nat).
Proof. by vm_compute. Qed.

(** ** Witnesses *)

Lemma frames_reach_everyone_witness :
  dec_send Enough (frame_of (toy_packet 0 [1])) (frame_data_of (Lib := toy) toy_video) [sender 0 None None; sender 3 (Some O) None] =
  (Ok tt, map (deliver (addressed_box (frame_of (toy_packet 0 [1])) (frame_data_of (Lib := toy) toy_video))) [sender 0 None None; sender 3 (Some O) None]).
Proof. by apply (frames_reach_everyone (frame_of (toy_packet 0 [1])) (frame_data_of (Lib := toy) toy_video) [sender 0 None None; sender 3 (Some O) None]). Defined.

(** The toy decoder, which refuses the packet with the byte 9, and fails once when it has
    handed the frame of the byte 2 out. *)
#[local] Instance failing : AvDec := {|
  av_gcd := av_gcd (AvDec := toy);
  av_hwframe_transfer_data := av_hwframe_transfer_data (AvDec := toy);
  av_frame_copy_props := av_frame_copy_props (AvDec := toy);
  av_frame_apply_cropping := av_frame_apply_cropping (AvDec := toy);
  Dec := Toy * bool;
  codec_type := fun e => toy_type (fst e);
  dec_framerate := fun e => toy_rate (fst e);
  pkt_timebase := fun e => toy_base (fst e);
  bits_per_raw_sample := fun e => bits_per_raw_sample (AvDec := toy) (fst e);
  dec_width := fun e => dec_width (AvDec := toy) (fst e);
  dec_height := fun e => dec_height (AvDec := toy) (fst e);
  dec_subtitle_header := fun e => dec_subtitle_header (AvDec := toy) (fst e);
  avcodec_send_packet := fun e p =>
    if bool_decide (payload <$> p = Some [9]) then (-1094995529, e)
    else let '(r, t) := avcodec_send_packet (AvDec := toy) (fst e) p in (r, (t, snd e));
  avcodec_receive_frame := fun e =>
    if snd e then (inl (-5), (fst e, false))
    else let '(r, t) := toy_receive (fst e) in
         (r, (t, match r with inr f => bool_decide (content f = [2]) | inl _ => false end));
  avcodec_flush_buffers := fun e => (avcodec_flush_buffers (AvDec := toy) (fst e), snd e);
  avcodec_decode_subtitle2 := fun e p => let '(r, t) := avcodec_decode_subtitle2 (AvDec := toy) (fst e) p in (r, (t, snd e)) |}.

