(* ===== verification/HwDevice.v ===== *)
(** * Hardware devices and the choice of a decoder

    The list of hardware devices ([ez-ffmpeg/src/core/hwaccel.rs]), the device and the
    pixel format of a decoder ([core/scheduler/dec_task.rs]), and the decoder and the
    acceleration of a stream ([core/context/demuxer.rs]).  The devices themselves and
    the lists of libavcodec are the class [AvHw]; the messages of the log are left out. *)

From stdpp Require Import base list option strings.
From Stdlib Require Import ZArith Lia Ascii String.
From S2P Require Import Choke.
From S2P Require Import Prelude RustInt RustStr Errors StreamSpec Muxer.

Local Open Scope string_scope.
Local Open Scope Z_scope.
Local Open Scope rust_scope.

Definition AV_HWDEVICE_TYPE_NONE : Z := 0.
Definition AV_HWDEVICE_TYPE_QSV : Z := 5.
Definition AVERROR_EINVAL : Z := AVERROR 22.
Definition AVERROR_ENOMEM : Z := AVERROR 12.

(** [AVCodecHWConfig], with AV_CODEC_HW_CONFIG_METHOD_HW_DEVICE_CTX of its methods. *)
Record HwConfig := { config_type : Z; config_device_ctx : bool; config_pix_fmt : Z }.

(** An [AVCodec]. *)
Record AVDecoder := { codec_name : string; codec_id : Z; is_decoder : bool; codec_media : AVMediaType; hw_configs : list HwConfig }.

Class AvHw := {
  (** AV_HWDEVICE_TYPE_NONE for a name that is not known *)
  av_hwdevice_find_type_by_name : string -> Z;
  av_hwdevice_get_type_name : Z -> option string;
  av_hwdevice_iterate_types : Z -> Z;
  (** a reference to a new device of a type, with a device's name and options *)
  av_hwdevice_ctx_create : Z -> option string -> option string -> result Z Z;
  av_hwdevice_ctx_create_derived : Z -> Z -> result Z Z;
  av_dict_parse_string : string -> Z;
  av_buffer_ref : Z -> option Z;
  (** AV_PIX_FMT_FLAG_HWACCEL of a format's descriptor *)
  pix_fmt_hwaccel : Z -> option bool;
  av_get_pix_fmt : string -> Z;
  AV_PIX_FMT_CUDA : Z;
  AV_PIX_FMT_QSV : Z;
  AV_PIX_FMT_MEDIACODEC : Z;
  (** the codecs in the order of [av_codec_iterate], and three searches *)
  av_codecs : list AVDecoder;
  avcodec_find_decoder : Z -> option AVDecoder;
  avcodec_find_decoder_by_name : string -> option AVDecoder;
  avcodec_descriptor_get_by_name : string -> option Z
}.

Section HwDevice.
  Context `{Hw : AvHw}.

(** ** The types *)

Record HWAccelInfo := { info_name : string; hw_device_type : Z }.

(** [get_hwaccels], with fuel for the types. *)
Fixpoint hwaccels_from (fuel : nat) (t : Z) : outcome (list HWAccelInfo) :=
  match fuel with
  | O => Diverge
  | S fuel =>
    let t := av_hwdevice_iterate_types t in
    if t =? AV_HWDEVICE_TYPE_NONE then Ret []
    else match av_hwdevice_get_type_name t with
    | None => Panic
    | Some name => l ← hwaccels_from fuel t; Ret ({| info_name := name; hw_device_type := t |} :: l)
    end
  end.

Definition get_hwaccels (fuel : nat) : outcome (list HWAccelInfo) := hwaccels_from fuel AV_HWDEVICE_TYPE_NONE.

(** ** The list of devices *)

Inductive HWAccelID := HwaccelNone | HwaccelAuto | HwaccelGeneric.

#[export] Instance HWAccelID_eq_dec : EqDecision HWAccelID.
Proof. solve_decision. Defined.

(** [device_ref] is null when the device was freed. *)
Record HWDevice := { name : string; device_type : Z; device_ref : option Z }.

(** HW_DEVICES and FILTER_HW_DEVICE. *)
Record Devices := { hw_devices : list HWDevice; filter_hw_device : option (option HWDevice) }.

Definition hw_device_get_by_name (n : string) (ds : Devices) : option HWDevice := List.find (fun d => String.eqb (name d) n) (hw_devices ds).

(** Behind [found] devices of the type. *)
Fixpoint by_type (t : Z) (found : option HWDevice) (l : list HWDevice) : option HWDevice :=
  match l with
  | [] => found
  | d :: l => if device_type d =? t then (if found is Some _ then None else by_type t (Some d) l) else by_type t found l
  end.

Definition hw_device_get_by_type (t : Z) (ds : Devices) : option HWDevice := by_type t None (hw_devices ds).

Definition add_hw_device (d : HWDevice) (ds : Devices) : Devices :=
  {| hw_devices := (hw_devices ds ++ [d])%list; filter_hw_device := filter_hw_device ds |}.

(** The first free number; [index + n] is the limit. *)
Fixpoint free_name (type_name : string) (n index : nat) (ds : Devices) : option string :=
  match n with
  | O => None
  | S n =>
    let candidate := type_name ++ dec (Z.of_nat index) in
    match hw_device_get_by_name candidate ds with
    | None => Some candidate
    | Some _ => free_name type_name n (S index) ds
    end
  end.

Definition hw_device_default_name (t : Z) (ds : Devices) : option string :=
  match av_hwdevice_get_type_name t with
  | None => None
  | Some type_name => free_name type_name 1000 0 ds
  end.

Definition hw_device_init_from_type (t : Z) (device : option string) (ds : Devices) : (Z * option HWDevice) * Devices :=
  match hw_device_default_name t ds with
  | None => ((AVERROR_ENOMEM, None), ds)
  | Some n =>
    if if device is Some d then contains_char NUL d else false then ((AVERROR_EINVAL, None), ds)
    else match av_hwdevice_ctx_create t device None with
    | Err err => ((err, None), ds)
    | Ok r => let dev := {| name := n; device_type := t; device_ref := Some r |} in ((0, Some dev), add_hw_device dev ds)
    end
  end.

(** [str.find] of some characters; the place is counted in bytes. *)
Fixpoint find_any (cs : list ascii) (s : string) : option nat :=
  match s with
  | "" => None
  | String c s => if existsb (Ascii.eqb c) cs then Some 0%nat else S <$> find_any cs s
  end.

(** The device of the rest [p] of a specification. *)
Definition create_device (t : Z) (p : string) (ds : Devices) : result Z Z :=
  if is_empty p then av_hwdevice_ctx_create t None None
  else if starts_with ":" p then
    match find_any [","%char] p with
    | Some comma_pos =>
      let v := sdrop (comma_pos + 1) p in
      if contains_char NUL v then Err AVERROR_EINVAL
      else if av_dict_parse_string v <? 0 then Err AVERROR_EINVAL
      else
        let device_name := if (0 <? comma_pos)%nat then Some (stake comma_pos p) else None in
        if if device_name is Some d then contains_char NUL d else false then Err AVERROR_EINVAL
        else av_hwdevice_ctx_create t device_name (Some v)
    | None => if contains_char NUL p then Err AVERROR_EINVAL else av_hwdevice_ctx_create t (Some p) None
    end
  else match strip_prefix "@" p with
  | Some src_name =>
    match hw_device_get_by_name src_name ds with
    | None => Err AVERROR_EINVAL
    | Some src => av_hwdevice_ctx_create_derived t (default 0 (device_ref src))
    end
  | None =>
    match strip_prefix "," p with
    | Some v =>
      if contains_char NUL v then Err AVERROR_EINVAL
      else if av_dict_parse_string v <? 0 then Err AVERROR_EINVAL
      else av_hwdevice_ctx_create t None (Some v)
    | None => Err AVERROR_EINVAL
    end
  end.

(** The name that the specification gives, or a free one, and what is left; [None] for
    a name that is taken. *)
Definition device_name (t : Z) (p : string) (ds : Devices) : option (option string * string) :=
  if starts_with "=" p then
    let name_end := default (slen p - 1)%nat (find_any [":"; "@"; ","]%char (sdrop 1 p)) in
    let n := stake name_end (sdrop 1 p) in
    match hw_device_get_by_name n ds with
    | Some _ => None
    | None => Some (Some n, sdrop (1 + name_end) p)
    end
  else Some (hw_device_default_name t ds, p).

Definition hw_device_init_from_string (arg : string) (ds : Devices) : outcome ((Z * option HWDevice) * Devices) :=
  let k := default (slen arg) (find_any [":"; "="; "@"]%char arg) in
  let p := sdrop k arg in
  if contains_char NUL p then Ret ((AVERROR_ENOMEM, None), ds)
  else
    let t := av_hwdevice_find_type_by_name p in
    if t =? AV_HWDEVICE_TYPE_NONE then Ret ((AVERROR_EINVAL, None), ds)
    else match device_name t p ds with
    | None => Ret ((AVERROR_EINVAL, None), ds)
    | Some (n, p) =>
      match create_device t p ds with
      | Err err => Ret ((err, None), ds)
      | Ok r =>
        match n with
        | None => Panic
        | Some n => let dev := {| name := n; device_type := t; device_ref := Some r |} in Ret ((0, Some dev), add_hw_device dev ds)
        end
      end
    end.

Definition set_filter_device (d : option HWDevice) (ds : Devices) : Devices := {| hw_devices := hw_devices ds; filter_hw_device := Some d |}.

Definition init_filter_hw_device (hw_device : string) (ds : Devices) : outcome (Z * Devices) :=
  match filter_hw_device ds with
  | Some _ => Ret (0, ds)
  | None =>
    '(r, ds) ← hw_device_init_from_string hw_device ds;
    Ret (match r with
         | (0, Some dev) => (0, set_filter_device (Some dev) ds)
         | _ => (AVERROR_EINVAL, set_filter_device None ds)
         end)
  end.

Definition hw_device_for_filter (ds : Devices) : option HWDevice :=
  match filter_hw_device ds with
  | Some (Some dev) => Some dev
  | _ => list.last (hw_devices ds)
  end.

Definition hw_device_match_by_codec (configs : list HwConfig) (ds : Devices) : option HWDevice :=
  list.head (omap (fun c => if config_device_ctx c then hw_device_get_by_type (config_type c) ds else None) configs).

(** At the end of the process. *)
Definition free_device (d : HWDevice) : HWDevice := {| name := name d; device_type := device_type d; device_ref := None |}.

Definition hw_device_free_all (ds : Devices) : Devices :=
  {| hw_devices := []; filter_hw_device := option_map (option_map free_device) (filter_hw_device ds) |}.

(** ** The device of a decoder *)

(** The fields of [DecoderParameter] that are about hardware. *)
Record HwParameter := { hwaccel_id : HWAccelID; hwaccel_device_type : Z; hwaccel_device : option string; hw_pix_fmt : Z }.

Definition set_hwaccel (id : HWAccelID) (t : Z) (hp : HwParameter) : HwParameter :=
  {| hwaccel_id := id; hwaccel_device_type := t; hwaccel_device := hwaccel_device hp; hw_pix_fmt := hw_pix_fmt hp |}.

(** What the first part finds. *)
Inductive DeviceChoice :=
  | ChooseAuto
  | NothingToDo (ret : Z)
  | Chosen (t err : Z) (dev : option HWDevice).

Definition choose_device (configs : list HwConfig) (hp : HwParameter) (ds : Devices) : outcome (DeviceChoice * HwParameter * Devices) :=
  match hwaccel_device hp with
  | Some n =>
    match hw_device_get_by_name n ds with
    | None =>
      match hwaccel_id hp with
      | HwaccelAuto => Ret (ChooseAuto, hp, ds)
      | HwaccelGeneric => let '((err, dev), ds) := hw_device_init_from_type (hwaccel_device_type hp) (Some n) ds in Ret (Chosen (hwaccel_device_type hp) err dev, hp, ds)
      | HwaccelNone => Ret (NothingToDo 0, hp, ds)
      end
    | Some dev =>
      if bool_decide (hwaccel_id hp = HwaccelAuto) then Ret (Chosen AV_HWDEVICE_TYPE_NONE 0 (Some dev), set_hwaccel HwaccelAuto (device_type dev) hp, ds)
      else if hwaccel_device_type hp =? device_type dev then Ret (Chosen AV_HWDEVICE_TYPE_NONE 0 (Some dev), hp, ds)
      else match av_hwdevice_get_type_name (device_type dev), av_hwdevice_get_type_name (hwaccel_device_type hp) with
      | Some _, Some _ => Ret (NothingToDo AVERROR_EINVAL, hp, ds)
      | _, _ => Panic
      end
    end
  | None =>
    match hwaccel_id hp with
    | HwaccelAuto => Ret (ChooseAuto, hp, ds)
    | HwaccelGeneric =>
      let t := hwaccel_device_type hp in
      let dev := hw_device_get_by_type t ds in
      let dev := if bool_decide (dev = None) && (t =? AV_HWDEVICE_TYPE_QSV) then hw_device_get_by_name "__qsv_device" ds else dev in
      match dev with
      | Some dev => Ret (Chosen t 0 (Some dev), hp, ds)
      | None => let '((err, dev), ds) := hw_device_init_from_type t None ds in Ret (Chosen t err dev, hp, ds)
      end
    | HwaccelNone =>
      match hw_device_match_by_codec configs ds with
      | None => Ret (NothingToDo 0, hp, ds)
      | Some dev => Ret (Chosen AV_HWDEVICE_TYPE_NONE 0 (Some dev), hp, ds)
      end
    end
  end.

(** The first loop: a device that is there. *)
Fixpoint existing_device (configs : list HwConfig) (t : Z) (dev : option HWDevice) (ds : Devices) : outcome (Z * option HWDevice) :=
  match configs with
  | [] => Ret (t, dev)
  | c :: configs =>
    match hw_device_get_by_type (config_type c) ds with
    | Some d => if bool_decide (av_hwdevice_get_type_name (config_type c) = None) then Panic else Ret (config_type c, Some d)
    | None => existing_device configs (config_type c) None ds
    end
  end.

(** The second loop, which does not look at what the first one found. *)
Fixpoint new_device (configs : list HwConfig) (device : option string) (t err : Z) (dev : option HWDevice) (ds : Devices) : outcome (Z * Z * option HWDevice * Devices) :=
  match configs with
  | [] => Ret (t, err, dev, ds)
  | c :: configs =>
    let '((err, dev), ds) := hw_device_init_from_type (config_type c) device ds in
    if err <? 0 then new_device configs device (config_type c) err dev ds
    else if bool_decide (av_hwdevice_get_type_name (config_type c) = None) then Panic
    else Ret (config_type c, err, dev, ds)
  end.

(** [hw_device_setup_for_decode]: the result, the reference that the context gets, the
    parameters and the devices. *)
Definition hw_device_setup_for_decode (configs : list HwConfig) (hp : HwParameter) (ds : Devices) : outcome ((Z * option Z) * HwParameter * Devices) :=
  let attach t err (dev : option HWDevice) hp ds :=
    match dev with
    | None => if bool_decide (av_hwdevice_get_type_name t = None) then Panic else Ret ((err, None), hp, ds)
    | Some dev =>
      Ret (match av_buffer_ref (default 0 (device_ref dev)) with Some r => (0, Some r) | None => (AVERROR_ENOMEM, None) end, hp, ds)
    end in
  '(choice, hp, ds) ← choose_device configs hp ds;
  match choice with
  | NothingToDo ret => Ret ((ret, None), hp, ds)
  | Chosen t err dev => attach t err dev hp ds
  | ChooseAuto =>
    match configs with
    | [] => Ret ((0, None), hp, ds)
    | _ =>
      '(t, dev) ← existing_device configs AV_HWDEVICE_TYPE_NONE None ds;
      '(t, err, dev, ds) ← new_device configs (hwaccel_device hp) t 0 dev ds;
      match dev with
      | Some _ => attach t err dev (set_hwaccel (hwaccel_id hp) t hp) ds
      | None => Ret ((0, None), set_hwaccel HwaccelNone (hwaccel_device_type hp) hp, ds)
      end
    end
  end.

(** ** Opening a decoder *)

(** What the calls of libavcodec give; the context's own cropping and its frames for
    hardware, behind [avcodec_open2]. *)
Record OpenCalls := {
  context_allocated : bool;
  parameters_ret : Z;
  options_ret : Z;
  open_ret : Z;
  ctx_apply_cropping : Z;
  ctx_extra_hw_frames : Z
}.

(** The context, and the parameters that the task starts with; the task crops in the
    place of the codec. *)
Record Opened := { opened_hw : HwParameter; opened_cropping : Z; hw_device_ctx : option Z; extra_hw_frames : Z }.

(** [dec_open], whose caller passes no frame for the parameters. *)
Definition dec_open `{Profile} (calls : OpenCalls) (configs : list HwConfig) (hp : HwParameter) (ds : Devices) : outcome (result Opened Error * Devices) :=
  let fail e ds := Ret (Err (Error.OpenDecoder e), ds) in
  if negb (context_allocated calls) then fail (OpenDecoderOperationError.ContextAllocationError OpenDecoderError.OutOfMemory) ds
  else if parameters_ret calls <? 0 then fail (OpenDecoderOperationError.ParameterApplicationError (OpenDecoderError.OpenDecoderError_from (parameters_ret calls))) ds
  else
    '((ret, hw_ctx), hp, ds) ← hw_device_setup_for_decode configs hp ds;
    if ret <? 0 then fail (OpenDecoderOperationError.HwSetupError (OpenDecoderError.OpenDecoderError_from ret)) ds
    else if options_ret calls <? 0 then fail (OpenDecoderOperationError.ParameterApplicationError (OpenDecoderError.OpenDecoderError_from (options_ret calls))) ds
    else if open_ret calls <? 0 then fail (OpenDecoderOperationError.DecoderOpenError (OpenDecoderError.OpenDecoderError_from (open_ret calls))) ds
    else
      extra ← (if hw_ctx is Some _ then
                 if 0 <=? ctx_extra_hw_frames calls then signed 32 (ctx_extra_hw_frames calls + 8) else Ret 8
               else Ret (ctx_extra_hw_frames calls));
      Ret (Ok {| opened_hw := hp; opened_cropping := ctx_apply_cropping calls; hw_device_ctx := hw_ctx; extra_hw_frames := extra |}, ds).

(** ** The pixel format of a decoder *)

(** The inner loop of [get_format_callback]. *)
Definition device_config (fmt : Z) (configs : list HwConfig) : option HwConfig :=
  List.find (fun c => config_device_ctx c && (config_pix_fmt c =? fmt)) configs.

(** The formats behind the ones that were passed over; AV_PIX_FMT_NONE ends the list. *)
Fixpoint get_format_callback (configs : list HwConfig) (fmts : list Z) (hp : HwParameter) : Z * HwParameter :=
  match fmts with
  | [] => (AV_PIX_FMT_NONE, hp)
  | fmt :: fmts =>
    if bool_decide (pix_fmt_hwaccel fmt = Some true) then
      let config := if bool_decide (hwaccel_id hp = HwaccelNone) then None else device_config fmt configs in
      if if config is Some c then config_type c =? hwaccel_device_type hp else false
      then (fmt, {| hwaccel_id := hwaccel_id hp; hwaccel_device_type := hwaccel_device_type hp; hwaccel_device := hwaccel_device hp; hw_pix_fmt := fmt |})
      else get_format_callback configs fmts hp
    else (fmt, hp)
  end.

(** ** The decoder of a stream *)

Definition get_codec_name (t : AVMediaType) (video_codec audio_codec subtitle_codec : option string) : option string :=
  match t with
  | AVMEDIA_TYPE_VIDEO => video_codec
  | AVMEDIA_TYPE_AUDIO => audio_codec
  | AVMEDIA_TYPE_SUBTITLE => subtitle_codec
  | _ => None
  end.

Definition decoder_not_found : Error := Error.OpenInputStream (OpenInputError.OpenInputError_from (FFERRTAG 0xF8 68 69 67)).

(** The decoder, and the codec that [codecpar] then has. *)
Definition choose_decoder (name_ : option string) (t : AVMediaType) (id : Z) (accel : HWAccelID) (device_type_ : Z) : result (option AVDecoder * Z) Error :=
  match name_ with
  | Some n =>
    if contains_char NUL n then Err (nul_error n)
    else
      let found := match avcodec_find_decoder_by_name n with
                   | Some c => Some c
                   | None => avcodec_descriptor_get_by_name n ≫= avcodec_find_decoder
                   end in
      match found with
      | None => Err decoder_not_found
      | Some c => if bool_decide (codec_media c = t) then Ok (Some c, codec_id c) else Err (Error.OpenInputStream OpenInputError.InvalidArgument)
      end
  | None =>
    let accelerated :=
      if bool_decide (t = AVMEDIA_TYPE_VIDEO) && bool_decide (accel = HwaccelGeneric) && negb (device_type_ =? AV_HWDEVICE_TYPE_NONE)
      then List.find (fun c => (codec_id c =? id) && is_decoder c && existsb (fun g => config_type g =? device_type_) (hw_configs c)) av_codecs
      else None in
    Ok (match accelerated with Some c => Some c | None => avcodec_find_decoder id end, id)
  end.

(** The format of the frames that are taken from the device. *)
Definition output_format (hwaccel hwaccel_output_format : option string) : result Z Error :=
  match hwaccel_output_format with
  | Some f => if contains_char NUL f then Err (nul_error f) else Ok (av_get_pix_fmt f)
  | None =>
    Ok match hwaccel with
       | Some "cuvid" => AV_PIX_FMT_CUDA
       | Some "qsv" => AV_PIX_FMT_QSV
       | Some "mediacodec" => AV_PIX_FMT_MEDIACODEC
       | _ => AV_PIX_FMT_NONE
       end
  end.

(** [find_hwaccel]; the loop that should list the types runs only for a name that is
    not known, and then ends at once. *)
Definition find_hwaccel (t : AVMediaType) (hwaccel device hwaccel_output_format : option string) : result (HWAccelID * Z * option string * Z) Error :=
  if bool_decide (t = AVMEDIA_TYPE_VIDEO) then
    match output_format hwaccel hwaccel_output_format with
    | Err e => Err e
    | Ok fmt =>
      match hwaccel with
      | None => Ok (HwaccelNone, AV_HWDEVICE_TYPE_NONE, device, fmt)
      | Some h =>
        let h := if String.eqb h "nvdec" || String.eqb h "cuvid" then "cuda" else h in
        if String.eqb h "none" then Ok (HwaccelNone, AV_HWDEVICE_TYPE_NONE, device, fmt)
        else if String.eqb h "auto" then Ok (HwaccelAuto, AV_HWDEVICE_TYPE_NONE, device, fmt)
        else if contains_char NUL h then Err (nul_error h)
        else
          let found := av_hwdevice_find_type_by_name h in
          if found =? AV_HWDEVICE_TYPE_NONE then Err (Error.OpenInputStream (OpenInputError.OpenInputError_from AVERROR_EINVAL))
          else Ok (HwaccelGeneric, found, device, fmt)
      end
    end
  else Ok (HwaccelNone, AV_HWDEVICE_TYPE_NONE, None, AV_PIX_FMT_NONE).

End HwDevice.
