(* ===== verification/HwSpec.v ===== *)
(** * The promises about hardware devices

    The names of the devices are unique; a decoder's set-up adds at most one device; the
    format that a decoder chooses fits its device; a specification of a device for
    filters is never understood. *)

From stdpp Require Import base list option strings.
From Stdlib Require Import ZArith Lia Ascii String.
From S2P Require Import Choke.
From S2P Require Import Prelude RustInt RustStr Errors StreamSpec Muxer HwDevice.

Local Open Scope string_scope.
Local Open Scope Z_scope.
Local Open Scope rust_scope.

Section Devices.
  Context `{Hw : AvHw}.

(** ** Names *)

Definition names (ds : Devices) : list string := name <$> hw_devices ds.

Definition unique_names (ds : Devices) : Prop := NoDup (names ds).

Lemma get_by_name_none n ds : hw_device_get_by_name n ds = None <-> (n ∉ names ds).
Proof.
  unfold hw_device_get_by_name, names. induction (hw_devices ds) as [|d l IH]; cbn [List.find fmap list_fmap]; [split; [intros _ H; by apply elem_of_nil in H|done]|].
  rewrite elem_of_cons. destruct (String.eqb_spec (name d) n) as [->|Hn]; [split; [done|intros H; exfalso; apply H; by left]|].
  rewrite IH. split; [intros H [->|H']; [done|by apply H]|intros H H'; apply H; by right].
Qed.

Lemma free_name_spec t n i ds s : free_name t n i ds = Some s -> (s ∉ names ds) /\ exists k, (i <= k < i + n)%nat /\ (s = t ++ dec (Z.of_nat k))%string.
Proof.
  revert i. induction n as [|n IH]; intros i; cbn [free_name]; [done|]. destruct (hw_device_get_by_name _ ds) eqn:E.
  - intros (Hs & k & Hk & ->)%IH. split; [done|]. exists k. split; [lia|done].
  - intros [= <-]. split; [by apply get_by_name_none|]. exists i. split; [lia|done].
Qed.

Lemma free_name_none t n i ds : free_name t n i ds = None -> forall k, (i <= k < i + n)%nat -> (t ++ dec (Z.of_nat k))%string ∈ names ds.
Proof.
  revert i. induction n as [|n IH]; intros i; cbn [free_name]; [lia|]. destruct (hw_device_get_by_name _ ds) eqn:E; [|done].
  intros Hn k Hk. destruct (decide (k = i)) as [->|]; [|by apply (IH (S i)); [|lia]].
  destruct (decide ((t ++ dec (Z.of_nat i))%string ∈ names ds)) as [|H]; [done|]. apply get_by_name_none in H. congruence.
Qed.

Lemma sapp_inj_l s a b : (s ++ a)%string = (s ++ b)%string -> a = b.
Proof. induction s as [|c s IH]; [done|]. intros [= H]. auto. Qed.

(** There is a free name as long as there are fewer than a thousand devices. *)
Lemma default_name_exists t tn ds :
  av_hwdevice_get_type_name t = Some tn -> (List.length (hw_devices ds) < 1000)%nat -> exists n, hw_device_default_name t ds = Some n /\ (n ∉ names ds).
Proof.
  intros Ht Hl. unfold hw_device_default_name. rewrite Ht. destruct (free_name tn 1000 0 ds) as [n|] eqn:E; [exists n; split; [done|by apply free_name_spec in E as [? _]]|].
  exfalso. pose proof (free_name_none _ _ _ _ E) as Hall.
  assert (List.length ((fun k : nat => (tn ++ dec (Z.of_nat k))%string) <$> seq 0 1000) <= List.length (names ds))%nat as Hle.
  { apply submseteq_length, NoDup_submseteq.
    - apply NoDup_fmap_2_strong; [|apply NoDup_seq]. intros a b Ha Hb Heq%sapp_inj_l. apply elem_of_seq in Ha, Hb. apply (f_equal (parse_digits 64)) in Heq.
      rewrite !parse_digits_dec in Heq by (unfold fits; lia). injection Heq. lia.
    - intros x (k & -> & Hk)%list_elem_of_fmap. apply Hall. apply elem_of_seq in Hk. lia. }
  unfold names in Hle. rewrite !length_fmap, length_seq in Hle. lia.
Qed.

Lemma init_from_type_cases t device ds r ds' :
  hw_device_init_from_type t device ds = (r, ds') ->
  (ds' = ds /\ snd r = None) \/ exists d, r = (0, Some d) /\ ds' = add_hw_device d ds /\ (name d ∉ names ds) /\ device_type d = t.
Proof.
  unfold hw_device_init_from_type, hw_device_default_name. destruct (av_hwdevice_get_type_name t) as [tn|]; [|intros [= <- <-]; by left].
  destruct (free_name _ _ _ _) as [n|] eqn:E; [|intros [= <- <-]; by left]. apply free_name_spec in E as [Hn _].
  destruct (match device with Some _ => _ | None => _ end); [intros [= <- <-]; by left|].
  destruct (av_hwdevice_ctx_create _ _ _) as [ref|err]; intros [= <- <-]; [right|by left]. by eexists.
Qed.

(** What a decoder's set-up may do to the list. *)
Definition extended (ds ds' : Devices) : Prop :=
  filter_hw_device ds' = filter_hw_device ds /\
  (hw_devices ds' = hw_devices ds \/ exists d, hw_devices ds' = (hw_devices ds ++ [d])%list /\ name d ∉ names ds).

Lemma extended_refl ds : extended ds ds.
Proof. split; [done|by left]. Qed.

Lemma init_extends t device ds r ds' : hw_device_init_from_type t device ds = (r, ds') -> extended ds ds' /\ (snd r = None -> ds' = ds).
Proof.
  intros [[-> Hr]|(d & -> & -> & Hn & _)]%init_from_type_cases; [split; [apply extended_refl|done]|]. split; [|done]. split; [done|]. right. by exists d.
Qed.

Lemma extended_unique ds ds' : extended ds ds' -> unique_names ds -> unique_names ds'.
Proof.
  intros [_ [H|(d & H & Hn)]]; unfold unique_names, names in *; rewrite H; [done|]. intros Hu. rewrite fmap_app. apply NoDup_app. split_and!; [done| |apply NoDup_singleton].
  intros x Hx Hd. cbn in Hd. apply list_elem_of_singleton in Hd as ->. done.
Qed.

Lemma choose_device_extends configs hp ds c hp' ds' :
  choose_device configs hp ds = Ret (c, hp', ds') -> extended ds ds' /\ (c = ChooseAuto -> ds' = ds).
Proof.
  unfold choose_device. intros H.
  assert (forall t d r0 ds0, hw_device_init_from_type t d ds = (r0, ds0) -> extended ds ds0) as Hi by (intros; by eapply init_extends).
  repeat match goal with
  | H : Ret _ = Ret _ |- _ => apply Ret_inj in H; injection H as <- <- <-
  | H : context [hw_device_init_from_type ?t ?d ds] |- _ => let E := fresh "E" in destruct (hw_device_init_from_type t d ds) as [[? ?] ?] eqn:E; apply Hi in E
  | H : context [match ?x with _ => _ end] |- _ => destruct x
  | H : context [if ?x then _ else _] |- _ => destruct x
  end; try done; (split; [done || apply extended_refl|done]).
Qed.

Lemma new_device_extends configs device t err dev ds t' err' dev' ds' :
  new_device configs device t err dev ds = Ret (t', err', dev', ds') -> extended ds ds'.
Proof.
  revert t err dev. induction configs as [|c configs IH]; intros t err dev; cbn [new_device]; [intros [= _ _ _ <-]%Ret_inj; apply extended_refl|].
  destruct (hw_device_init_from_type _ _ _) as [[err1 dev1] ds1] eqn:E. pose proof (init_extends _ _ _ _ _ E) as [Hext _].
  apply init_from_type_cases in E as [[-> _]|(d & [= -> ->] & _ & _)].
  - destruct (err1 <? 0); [apply IH|]. destruct (bool_decide _); [done|by intros [= _ _ _ <-]%Ret_inj].
  - cbn [Z.ltb Z.compare]. destruct (bool_decide _); [done|by intros [= _ _ _ <-]%Ret_inj].
Qed.

Lemma setup_extends configs hp ds r hp' ds' : hw_device_setup_for_decode configs hp ds = Ret (r, hp', ds') -> extended ds ds'.
Proof.
  intros H. unfold hw_device_setup_for_decode in H. cbv zeta in H. apply bind_Ret in H as ([[c hp1] ds1] & Hc & H). apply choose_device_extends in Hc as [He Hsame].
  destruct c as [|ret|t err dev].
  - rewrite (Hsame eq_refl) in *. destruct configs as [|g configs]; [by apply Ret_inj in H as [= _ _ <-]|].
    apply bind_Ret in H as ([t dev] & _ & H). apply bind_Ret in H as ([[[t' err] dev'] ds2] & Hn & H). apply new_device_extends in Hn.
    destruct dev' as [dev'|]; [destruct (av_buffer_ref _)|]; apply Ret_inj in H; by injection H as _ _ <-.
  - by apply Ret_inj in H as [= _ _ <-].
  - destruct dev as [dev|]; [by apply Ret_inj in H; injection H as _ _ <-|]. destruct (bool_decide _); [done|]. by apply Ret_inj in H; injection H as _ _ <-.
Qed.

(** The set-up of a decoder adds at most one device to the list, under a name that
    nobody has; so the names of the devices stay unique. *)
Theorem setup_keeps_names_unique configs hp ds r hp' ds' :
  unique_names ds -> hw_device_setup_for_decode configs hp ds = Ret (r, hp', ds') -> unique_names ds' /\ extended ds ds'.
Proof. intros Hu H%setup_extends. split; [by eapply extended_unique|done]. Qed.

(** The same holds for the opening of a decoder, whether it works or not. *)
Lemma open_keeps_names_unique `{Profile} calls configs hp ds r ds' :
  unique_names ds -> dec_open calls configs hp ds = Ret (r, ds') -> unique_names ds' /\ extended ds ds'.
Proof.
  intros Hu H1. assert (extended ds ds') as Hext; [|split; [by eapply extended_unique|done]].
  unfold dec_open in H1. cbv zeta in H1. destruct (negb _); [apply Ret_inj in H1 as [= _ <-]; apply extended_refl|].
  destruct (_ <? 0); [apply Ret_inj in H1 as [= _ <-]; apply extended_refl|]. apply bind_Ret in H1 as ([[[ret ctx] hp1] ds1] & Hs & H1).
  apply setup_extends in Hs. destruct (ret <? 0); [by apply Ret_inj in H1 as [= _ <-]|]. destruct (_ <? 0); [by apply Ret_inj in H1 as [= _ <-]|].
  destruct (_ <? 0); [by apply Ret_inj in H1 as [= _ <-]|]. apply bind_Ret in H1 as (x & _ & H1). by apply Ret_inj in H1 as [= _ <-].
Qed.

(** ** Devices of a type *)

Definition of_type (t : Z) (l : list HWDevice) : list HWDevice := List.filter (fun d => device_type d =? t) l.

Lemma by_type_spec t found l : by_type t found l = match found, of_type t l with None, [d] => Some d | Some d, [] => Some d | _, _ => None end.
Proof.
  revert found. unfold of_type. induction l as [|d l IH]; intros found; cbn [by_type List.filter]; [by destruct found|].
  destruct (device_type d =? t); [|apply IH]. destruct found as [d'|]; [done|]. rewrite IH. by destruct (List.filter _ l).
Qed.

(** A type stands for a device when it is the only one of that type. *)
Lemma get_by_type_unique t ds d : hw_device_get_by_type t ds = Some d <-> of_type t (hw_devices ds) = [d].
Proof. unfold hw_device_get_by_type. rewrite by_type_spec. destruct (of_type _ _) as [|a [|b l]]; naive_solver. Qed.

(** ** The format of a decoder *)

Definition software (fmt : Z) : Prop := pix_fmt_hwaccel fmt <> Some true.

(** A format of the decoder's device. *)
Definition fits_device (configs : list HwConfig) (hp : HwParameter) (fmt : Z) : Prop :=
  hwaccel_id hp <> HwaccelNone /\ pix_fmt_hwaccel fmt = Some true /\
  exists c, device_config fmt configs = Some c /\ config_device_ctx c = true /\ config_pix_fmt c = fmt /\ config_type c = hwaccel_device_type hp.

Definition set_pix_fmt (fmt : Z) (hp : HwParameter) : HwParameter :=
  {| hwaccel_id := hwaccel_id hp; hwaccel_device_type := hwaccel_device_type hp; hwaccel_device := hwaccel_device hp; hw_pix_fmt := fmt |}.

(** Of the formats that the codec offers, the decoder takes the first that is a
    software format or a format of its own device; only in the second case it takes the
    frames for frames of the device; it takes none when there is no such format. *)
Theorem format_fits_device configs fmts hp fmt hp' :
  get_format_callback configs fmts hp = (fmt, hp') ->
  (exists before after, fmts = (before ++ fmt :: after)%list /\ Forall (fun f => ~ software f /\ ~ fits_device configs hp f) before /\
     (software fmt /\ hp' = hp \/ fits_device configs hp fmt /\ hp' = set_pix_fmt fmt hp)) \/
  (Forall (fun f => ~ software f /\ ~ fits_device configs hp f) fmts /\ fmt = AV_PIX_FMT_NONE /\ hp' = hp).
Proof.
  induction fmts as [|f fmts IH]; cbn [get_format_callback]; [intros [= <- <-]; right; by split_and!|].
  case_bool_decide as Hf; [|intros [= <- <-]; left; exists [], fmts; split_and!; [done..|left; by split]].
  assert (~ software f) as Hs by (unfold software; naive_solver).
  set (config := if bool_decide _ then None else _). destruct (match config with Some c => _ | None => _ end) eqn:E.
  - intros [= <- <-]. left. exists [], fmts. split_and!; [done..|]. right. subst config. case_bool_decide as Hid; [done|].
    destruct (device_config f configs) as [c|] eqn:Ec; [|done]. pose proof Ec as Ec'. apply List.find_some in Ec' as [_ [Hctx Hfmt]%andb_true_iff].
    apply Z.eqb_eq in E, Hfmt. split; [|done]. split_and!; [done|done|]. by exists c.
  - assert (~ fits_device configs hp f) as Hno.
    { intros (Hid & _ & c & Hc & _ & _ & Ht). subst config. rewrite bool_decide_false, Hc in E by done. apply Z.eqb_neq in E. done. }
    intros H. apply IH in H as [(before & after & -> & Hb & H)|(Hb & -> & ->)]; [left; exists (f :: before), after; split_and!; [done| |done]|right; split_and!; [|done..]];
      by constructor.
Qed.
End Devices.

(** ** Devices for filters *)

(** The names of the types in libavutil: none is empty, and none has a separator. *)
Class TypeNames `{Hw : AvHw} :=
  type_names : forall n, av_hwdevice_find_type_by_name n <> AV_HWDEVICE_TYPE_NONE -> n <> "" /\ find_any [":"; "="; "@"]%char n = None.

Lemma find_any_rest cs s k : find_any cs s = Some k -> find_any cs (sdrop k s) = Some 0%nat.
Proof.
  revert k. induction s as [|c s IH]; intros k; cbn [find_any]; [done|]. destruct (existsb _ cs) eqn:E; [intros [= <-]; cbn [sdrop find_any]; by rewrite E|].
  destruct (find_any cs s) as [k'|] eqn:Ek; [|done]. intros [= <-]. cbn [sdrop]. by apply IH.
Qed.

Lemma sdrop_all s : sdrop (slen s) s = "".
Proof. by induction s. Qed.

(** The part of the specification behind the name of the type is looked up as its name. *)
Lemma specification_is_not_understood `{Names : TypeNames} arg ds :
  exists err, hw_device_init_from_string arg ds = Ret ((err, None), ds) /\ (err = AVERROR_EINVAL \/ err = AVERROR_ENOMEM).
Proof.
  unfold hw_device_init_from_string. cbv zeta. set (p := sdrop _ arg). destruct (contains_char NUL p); [by exists AVERROR_ENOMEM; split; [|right]|].
  assert (av_hwdevice_find_type_by_name p = AV_HWDEVICE_TYPE_NONE) as ->; [|by exists AVERROR_EINVAL; split; [|left]].
  destruct (decide (av_hwdevice_find_type_by_name p = AV_HWDEVICE_TYPE_NONE)) as [|H]; [done|]. apply type_names in H as [Hne Hsep]. exfalso. unfold p in *.
  destruct (find_any _ arg) as [k|] eqn:E; cbn [default from_option id] in *; [apply find_any_rest in E; congruence|by rewrite sdrop_all in Hne].
Qed.

(** No specification of a device for filters is understood, not even the name of a
    type that is there: the first graph with a device fails, and later ones start, with
    the last device of the decoders in the place of theirs. *)
Theorem filter_devices_never_open `{Names : TypeNames} arg ds :
  filter_hw_device ds = None ->
  exists ds', init_filter_hw_device arg ds = Ret (AVERROR_EINVAL, ds') /\ hw_devices ds' = hw_devices ds /\
    (forall arg', init_filter_hw_device arg' ds' = Ret (0, ds')) /\ hw_device_for_filter ds' = list.last (hw_devices ds).
Proof.
  intros Hf. unfold init_filter_hw_device at 1. rewrite Hf. destruct (specification_is_not_understood arg ds) as (err & -> & Herr). cbn [mbind outcome_bind].
  exists (set_filter_device None ds). split_and!; [by destruct Herr as [->| ->]|done..].
Qed.

(** ** The decoder of a stream *)

(** What the lists of libavcodec promise. *)
Class CodecLists `{Hw : AvHw} := {
  find_decoder_law : forall id c, avcodec_find_decoder id = Some c -> codec_id c = id /\ is_decoder c = true;
  find_by_name_law : forall n c, avcodec_find_decoder_by_name n = Some c -> is_decoder c = true
}.

(** A stream gets a decoder for its codec; a name that was asked for gives a decoder of
    the stream's type, whose codec the stream then has. *)
Lemma chosen_decoder_fits `{Lists : CodecLists} n t id accel dt c id' :
  choose_decoder n t id accel dt = Ok (Some c, id') -> is_decoder c = true /\ codec_id c = id' /\ (n = None -> id' = id) /\ (n <> None -> codec_media c = t).
Proof.
  unfold choose_decoder. destruct n as [n|].
  - destruct (contains_char NUL n); [done|]. destruct (avcodec_find_decoder_by_name n) as [c'|] eqn:E.
    + case_bool_decide; [|done]. intros [= <- <-]. apply find_by_name_law in E. by split_and!.
    + destruct (avcodec_descriptor_get_by_name n ≫= avcodec_find_decoder) as [c'|] eqn:E2; [|done]. case_bool_decide; [|done]. intros [= <- <-].
      apply bind_Some in E2 as (i & _ & E2). apply find_decoder_law in E2 as [_ ?]. by split_and!.
  - set (accelerated := if _ && _ && _ then _ else @None AVDecoder). destruct accelerated as [c'|] eqn:E.
    + intros [= <- <-]. subst accelerated. destruct (_ && _); [|done]. apply List.find_some in E as [_ [[Hi Hd]%andb_true_iff _]%andb_true_iff]. apply Z.eqb_eq in Hi. by split_and!.
    + intros [= H <-]. apply find_decoder_law in H as [Hi Hd]. by split_and!.
Qed.

(** ** Two types *)

(** CUDA and QSV; of QSV no device can be made. *)
#[export] Instance two_types : AvHw := {|
  av_hwdevice_find_type_by_name := fun n => if String.eqb n "cuda" then 2 else if String.eqb n "qsv" then 5 else 0;
  av_hwdevice_get_type_name := fun t => if t =? 2 then Some "cuda" else if t =? 5 then Some "qsv" else None;
  av_hwdevice_iterate_types := fun t => if t =? 0 then 2 else if t =? 2 then 5 else 0;
  av_hwdevice_ctx_create := fun t _ _ => if t =? 2 then Ok 77 else Err (-1);
  av_hwdevice_ctx_create_derived := fun _ _ => Err (-1);
  av_dict_parse_string := fun _ => 0;
  av_buffer_ref := fun r => Some r;
  pix_fmt_hwaccel := fun f : Z => Some (100 <=? f);
  av_get_pix_fmt := fun _ => -1;
  AV_PIX_FMT_CUDA := 117; AV_PIX_FMT_QSV := 114; AV_PIX_FMT_MEDIACODEC := 165;
  av_codecs := [];
  avcodec_find_decoder := fun _ => None;
  avcodec_find_decoder_by_name := fun _ => None;
  avcodec_descriptor_get_by_name := fun _ => None
|}.

#[export] Instance two_names : TypeNames (Hw := two_types).
Proof.
  intros n Hn. cbn in Hn. destruct (String.eqb n "cuda") eqn:E1; [by apply String.eqb_eq in E1 as ->|].
  destruct (String.eqb n "qsv") eqn:E2; [by apply String.eqb_eq in E2 as ->|done].
Qed.

Definition no_devices : Devices := {| hw_devices := []; filter_hw_device := None |}.

Definition one_device (t : Z) (n : string) : Devices := {| hw_devices := [{| name := n; device_type := t; device_ref := Some 7 |}]; filter_hw_device := None |}.

Definition auto_parameter : HwParameter := {| hwaccel_id := HwaccelAuto; hwaccel_device_type := 0; hwaccel_device := None; hw_pix_fmt := -1 |}.

Definition config (t : Z) : HwConfig := {| config_type := t; config_device_ctx := true; config_pix_fmt := 100 + t |}.

Example types_are_listed : get_hwaccels (Hw := two_types) 5 = Ret [{| info_name := "cuda"; hw_device_type := 2 |}; {| info_name := "qsv"; hw_device_type := 5 |}].
Proof. by vm_compute. Qed.

(** In the automatic mode the device that is there is found, and then forgotten: a
    second one is made of its type. *)
Example auto_makes_a_second_device :
  match hw_device_setup_for_decode (Hw := two_types) [config 2] auto_parameter (one_device 2 "cuda0") with
  | Ret (r, hp, ds) => r = (0, Some 77) /\ name <$> hw_devices ds = ["cuda0"; "cuda1"]
  | _ => False
  end.
Proof. by vm_compute. Qed.

(** When no second one can be made, the decoder does without hardware. *)
Example auto_loses_a_device :
  match hw_device_setup_for_decode (Hw := two_types) [config 5] auto_parameter (one_device 5 "qsv0") with
  | Ret (r, hp, ds) => r = (0, None) /\ hwaccel_id hp = HwaccelNone
  | _ => False
  end.
Proof. by vm_compute. Qed.

(** The documentation's own example of a device for a filter graph. *)
Example set_hw_device_cuda_fails : init_filter_hw_device (Hw := two_types) "cuda" no_devices = Ret (AVERROR_EINVAL, set_filter_device None no_devices).
Proof. by vm_compute. Qed.

(** A device's name without an acceleration: the message about the wrong type reads the
    name of no type, which is a null pointer. *)
Example device_without_acceleration :
  hw_device_setup_for_decode (Hw := two_types) [config 2]
    {| hwaccel_id := HwaccelNone; hwaccel_device_type := 0; hwaccel_device := Some "cuda0"; hw_pix_fmt := -1 |} (one_device 2 "cuda0") = Panic.
Proof. by vm_compute. Qed.

(** ** Witnesses *)

Lemma setup_keeps_names_unique_witness :
  exists r hp ds, hw_device_setup_for_decode (Hw := two_types) [config 2] auto_parameter (one_device 2 "cuda0") = Ret (r, hp, ds) /\
    unique_names ds /\ extended (one_device 2 "cuda0") ds.
Proof.
  eexists _, _, _. split; [vm_compute; reflexivity|]. eapply (@setup_keeps_names_unique two_types [config 2] auto_parameter (one_device 2 "cuda0")); [|vm_compute; reflexivity].
  apply NoDup_singleton.
Defined.

Lemma format_fits_device_witness :
  exists fmt hp, get_format_callback (Hw := two_types) [config 2] [105; 102; 0] {| hwaccel_id := HwaccelGeneric; hwaccel_device_type := 2; hwaccel_device := None; hw_pix_fmt := -1 |} = (fmt, hp) /\
    fmt = 102 /\ hw_pix_fmt hp = 102.
Proof.
  eexists _, _. split; [vm_compute; reflexivity|].
  edestruct (@format_fits_device two_types [config 2] [105; 102; 0] {| hwaccel_id := HwaccelGeneric; hwaccel_device_type := 2; hwaccel_device := None; hw_pix_fmt := -1 |});
    [vm_compute; reflexivity|done|done].
Defined.

Lemma filter_devices_never_open_witness :
  exists ds, init_filter_hw_device (Hw := two_types) "qsv=hw:1" (one_device 2 "cuda0") = Ret (AVERROR_EINVAL, ds) /\
    option_map name (hw_device_for_filter ds) = Some "cuda0".
Proof.
  destruct (@filter_devices_never_open two_types two_names "qsv=hw:1" (one_device 2 "cuda0") eq_refl) as (ds & H & _ & _ & Hl). exists ds. split; [exact H|]. by rewrite Hl.
Defined.
