(* ===== verification/FilterSync.v ===== *)
(** * The times of filtered frames ([ez-ffmpeg/src/core/scheduler/filter_task.rs])

    What an output of a filter graph does to the times of its frames: the time base, the
    synchronization of video (which frames are repeated or dropped, and the time of the
    next one), and the times of audio.  The functions of libavfilter are in [FilterTask]. *)

From stdpp Require Import base list option.
From Stdlib Require Import ZArith Lia.
From S2P Require Import Choke.
From S2P Require Import Prelude RustInt Float64 Errors StreamSpec Muxer Rescale MuxTask DemuxTimes.

Local Open Scope Z_scope.
Local Open Scope rust_scope.

(** ** Frames *)

(** The properties that configure an input of a graph. *)
Record FrameParams := {
  p_format : Z;
  p_width : Z;
  p_height : Z;
  p_sar : AVRational;
  p_color_space : Z;
  p_color_range : Z;
  p_sample_rate : Z;
  p_ch_layout : AVChannelLayout;
  p_hw_frames : option Z;          (* the data of hw_frames_ctx *)
  p_matrix : option (list Z)       (* the side data of a display matrix *)
}.

Record FilterFrame := {
  ff_pts : Z;
  ff_duration : Z;
  ff_time_base : AVRational;
  ff_key : bool;
  ff_nb_samples : Z;
  ff_params : FrameParams;
  ff_buf : bool;                   (* buf[0] is there *)
  ff_content : list Z
}.

Definition set_ff_times (p d : Z) (base : AVRational) (f : FilterFrame) : FilterFrame :=
  {| ff_pts := p; ff_duration := d; ff_time_base := base; ff_key := ff_key f; ff_nb_samples := ff_nb_samples f; ff_params := ff_params f;
     ff_buf := ff_buf f; ff_content := ff_content f |}.

Definition set_ff_key (k : bool) (f : FilterFrame) : FilterFrame :=
  {| ff_pts := ff_pts f; ff_duration := ff_duration f; ff_time_base := ff_time_base f; ff_key := k; ff_nb_samples := ff_nb_samples f; ff_params := ff_params f;
     ff_buf := ff_buf f; ff_content := ff_content f |}.

Definition set_ff_pts (p : Z) (f : FilterFrame) : FilterFrame := set_ff_times p (ff_duration f) (ff_time_base f) f.

(** ** The state of an output *)

(** The last frame is [None] while there was none: the frame that is there at the
    beginning has no buffer. *)
Record FPSConvContext := {
  last_frame : option FilterFrame;
  frame_number : Z;
  frames_prev_hist : Z * Z * Z;
  last_dropped : Z;
  dropped_keyframe : bool;
  fps_framerate : AVRational;
  framerate_max : AVRational
}.

Definition no_rational : AVRational := {| num := 0; den := 0 |}.

Definition FPSConvContext_new (rate : AVRational) : FPSConvContext :=
  {| last_frame := None; frame_number := 0; frames_prev_hist := (0, 0, 0); last_dropped := 0; dropped_keyframe := false; fps_framerate := rate;
     framerate_max := no_rational |}.

Definition set_last_frame (f : option FilterFrame) (c : FPSConvContext) : FPSConvContext :=
  {| last_frame := f; frame_number := frame_number c; frames_prev_hist := frames_prev_hist c; last_dropped := last_dropped c;
     dropped_keyframe := dropped_keyframe c; fps_framerate := fps_framerate c; framerate_max := framerate_max c |}.

Definition set_frame_number (n : Z) (c : FPSConvContext) : FPSConvContext :=
  {| last_frame := last_frame c; frame_number := n; frames_prev_hist := frames_prev_hist c; last_dropped := last_dropped c;
     dropped_keyframe := dropped_keyframe c; fps_framerate := fps_framerate c; framerate_max := framerate_max c |}.

Definition set_dropped (dropped : Z) (key : bool) (c : FPSConvContext) : FPSConvContext :=
  {| last_frame := last_frame c; frame_number := frame_number c; frames_prev_hist := frames_prev_hist c; last_dropped := dropped;
     dropped_keyframe := key; fps_framerate := fps_framerate c; framerate_max := framerate_max c |}.

(** [copy_within(0..2, 1)], and the first place *)
Definition push_hist (n : Z) (c : FPSConvContext) : FPSConvContext :=
  {| last_frame := last_frame c; frame_number := frame_number c; frames_prev_hist := let '(a, b, _) := frames_prev_hist c in (n, a, b);
     last_dropped := last_dropped c; dropped_keyframe := dropped_keyframe c; fps_framerate := fps_framerate c; framerate_max := framerate_max c |}.

Definition set_fps_framerate (r : AVRational) (c : FPSConvContext) : FPSConvContext :=
  {| last_frame := last_frame c; frame_number := frame_number c; frames_prev_hist := frames_prev_hist c; last_dropped := last_dropped c;
     dropped_keyframe := dropped_keyframe c; fps_framerate := r; framerate_max := framerate_max c |}.

(** What the times need of an output. *)
Record OutputTimes := {
  media_type : AVMediaType;
  vsync_method : option VSyncMethod;
  ts_offset : option Z;
  fpsconv_context : FPSConvContext;
  tb_out : AVRational;
  next_pts : Z
}.

Definition set_fps (c : FPSConvContext) (o : OutputTimes) : OutputTimes :=
  {| media_type := media_type o; vsync_method := vsync_method o; ts_offset := ts_offset o; fpsconv_context := c; tb_out := tb_out o; next_pts := next_pts o |}.

Definition set_next_pts (p : Z) (o : OutputTimes) : OutputTimes :=
  {| media_type := media_type o; vsync_method := vsync_method o; ts_offset := ts_offset o; fpsconv_context := fpsconv_context o; tb_out := tb_out o; next_pts := p |}.

Definition set_tb_out (base : AVRational) (o : OutputTimes) : OutputTimes :=
  {| media_type := media_type o; vsync_method := vsync_method o; ts_offset := ts_offset o; fpsconv_context := fpsconv_context o; tb_out := base; next_pts := next_pts o |}.

(** ** Arithmetic *)

Definition av_clip (x min_val max_val : Z) : Z := Z.max min_val (Z.min x max_val).

(** The one in the middle. *)
Definition mid_pred (a b c : Z) : Z :=
  if b <? a then (if c <? b then b else if c <? a then c else a)
  else if c <? a then a
  else if c <? b then c
  else b.

(** [av_q2d] *)
Definition q2d (q : AVRational) : f64 := fdiv (f64_of_Z (num q)) (f64_of_Z (den q)).

Class AvSync `{Dmx : AvDemux} := {
  av_log2 : Z -> Z
}.

Section Sync.
  Context `{Lib : AvSync} `{Prof : Profile}.

(** The time of a frame in the base of the output, with a fraction; the frame gets the
    whole part. *)
Definition adjust_frame_pts_to_encoder_tb (f : FilterFrame) (tb_dst : AVRational) (start_time : Z) : outcome (f64 * FilterFrame) :=
  bits ← signed 32 (29 - av_log2 (wrap 32 (den tb_dst)));
  let extra_bits := av_clip bits 0 16 in
  if ff_pts f =? AV_NOPTS_VALUE then Ret (f64_of_Z AV_NOPTS_VALUE, f)
  else
    let fine := {| num := num tb_dst; den := as_i32 (den tb_dst * 2 ^ extra_bits) |} in
    let float_pts := fsub (f64_of_Z (rescale_q (ff_pts f) (ff_time_base f) fine)) (f64_of_Z (rescale_q start_time AV_TIME_BASE_Q fine)) in
    let float_pts := fdiv float_pts (f64_of_Z (2 ^ extra_bits)) in
    let float_pts := if feq float_pts (f64_round float_pts) then float_pts
                     else fadd float_pts (fdiv (fmul (f64_signum float_pts) (f64_of_Z 1)) (f64_of_Z (2 ^ 17))) in
    p ← i64_sub (rescale_q (ff_pts f) (ff_time_base f) tb_dst) (rescale_q start_time AV_TIME_BASE_Q tb_dst);
    Ret (float_pts, set_ff_times p (ff_duration f) tb_dst f).

(** ** Video *)

(** How many frames are sent, how many of them are the last one again, the output and
    the frame. *)
Definition Sync : Type := Z * Z * OutputTimes * option FilterFrame.

(** The end of both paths of [video_sync_process]. *)
Definition sync_finish (nb nb_prev : Z) (f : option FilterFrame) (c : FPSConvContext) : FPSConvContext :=
  let c := push_hist nb_prev c in
  let dropped := (nb =? nb_prev) && bool_decide (is_Some f) in
  let key := if f is Some f then ff_key f else false in
  set_dropped (if dropped then 1 else 0) (dropped_keyframe c || (dropped && key)) c.

(** No frame: as many repetitions as the middle one of the last three. *)
Definition sync_end (o : OutputTimes) : outcome Sync :=
  let c := fpsconv_context o in
  let '(a, b, d) := frames_prev_hist c in
  let nb := mid_pred a b d in
  c ← (if (nb =? 0) && (0 <? last_dropped c) then n ← signed 32 (last_dropped c + 1); Ret (set_dropped n (dropped_keyframe c) c) else Ret c);
  Ret (nb, nb, set_fps (sync_finish nb nb None c) o, None).

(** What a method makes of the difference to the expected time: the number of frames,
    of repetitions, the next time and the frame's duration. *)
Definition sync_method (m : VSyncMethod) (frame_number_ next : Z) (sync_ipts duration delta0 delta : f64) (frame_duration_ : Z) : Z * Z * Z * Z :=
  match m with
  | VsyncVscfr =>
    if (frame_number_ =? 0) && fle (f64_lit 1 2) delta0 then (1, 0, f64_to_sint 64 (f64_round sync_ipts), frame_duration_) else (1, 0, next, frame_duration_)
  | VsyncCfr =>
    if flt delta (fopp (f64_lit 11 10)) then (0, 0, next, 1)
    else if flt (f64_lit 11 10) delta then
      (f64_to_sint 64 (f64_round delta),
       if flt (f64_lit 11 10) delta0 then f64_to_sint 64 (f64_round (fsub delta0 (f64_lit 6 10))) else 0, next, 1)
    else (1, 0, next, 1)
  | VsyncVfr =>
    let d := f64_to_sint 64 (f64_round duration) in
    if fle delta (fopp (f64_lit 6 10)) then (0, 0, next, d)
    else if flt (f64_lit 6 10) delta then (1, 0, f64_to_sint 64 (f64_round sync_ipts), d)
    else (1, 0, next, d)
  | VsyncPassthrough => (1, 0, f64_to_sint 64 (f64_round sync_ipts), f64_to_sint 64 (f64_round duration))
  | VsyncAuto => (1, 0, next, frame_duration_)
  end.

Definition video_sync_process (f : option FilterFrame) (nb_frames : Z) (o : OutputTimes) : outcome Sync :=
  match vsync_method o with
  | None => Ret (nb_frames, 0, o, f)
  | Some m =>
    match f with
    | None => sync_end o
    | Some f =>
      let duration := fdiv (fmul (f64_of_Z (ff_duration f)) (q2d (ff_time_base f))) (q2d (tb_out o)) in
      '(sync_ipts, f) ← adjust_frame_pts_to_encoder_tb f (tb_out o) (default 0 (ts_offset o));
      let delta0 := fsub sync_ipts (f64_of_Z (next_pts o)) in
      let delta := fadd delta0 duration in
      let clip := flt delta0 (f64_of_Z 0) && flt (f64_of_Z 0) delta && bool_decide (m <> VsyncPassthrough) in
      let sync_ipts := if clip then f64_of_Z (next_pts o) else sync_ipts in
      let duration := if clip then fadd duration delta0 else duration in
      let delta0 := if clip then f64_of_Z 0 else delta0 in
      let '(nb, nb_prev, next, d) := sync_method m (frame_number (fpsconv_context o)) (next_pts o) sync_ipts duration delta0 delta (ff_duration f) in
      let f := set_ff_times (ff_pts f) d (ff_time_base f) f in
      Ret (nb, nb_prev, set_next_pts next (set_fps (sync_finish nb nb_prev (Some f) (fpsconv_context o)) o), Some f)
    end
  end.

(** ** The base of the output *)

Definition positive_q (q : AVRational) : bool := (0 <? num q) && (0 <? den q).

(** [choose_out_timebase], with the frame rate of the buffer sink; the test of the
    denominator is as in the code. *)
Definition choose_out_timebase (sink_rate : AVRational) (f : FilterFrame) (o : OutputTimes) : OutputTimes :=
  if bool_decide (media_type o = AVMEDIA_TYPE_AUDIO) then set_tb_out {| num := 1; den := p_sample_rate (ff_params f) |} o
  else
    let c := fpsconv_context o in
    let fr := fps_framerate c in
    let fr := if (num fr =? 0) && positive_q sink_rate then sink_rate else fr in
    let constant := match vsync_method o with Some VsyncCfr | Some VsyncVscfr => true | _ => false end in
    let fr := if constant && (num fr =? 0) && (num (framerate_max c) =? 0) then {| num := 25; den := 1 |} else fr in
    let fr := if constant && negb (num (framerate_max c) =? 0) && (flt (q2d (framerate_max c)) (q2d fr) || negb (den fr =? 0)) then framerate_max c else fr in
    let tb := if positive_q (av_inv_q fr) then av_inv_q fr else ff_time_base f in
    set_tb_out tb (set_fps (set_fps_framerate fr c) o).

(** ** Audio *)

(** The time of an audio frame in the base of the output. *)
Definition audio_output_times (f : FilterFrame) (o : OutputTimes) : outcome (FilterFrame * OutputTimes) :=
  p ← (if ff_pts f =? AV_NOPTS_VALUE then Ret (next_pts o)
       else i64_sub (rescale_q (ff_pts f) (ff_time_base f) (tb_out o)) (rescale_q (default 0 (ts_offset o)) AV_TIME_BASE_Q (tb_out o)));
  let d := rescale_q (ff_nb_samples f) {| num := 1; den := p_sample_rate (ff_params f) |} (tb_out o) in
  next ← i64_add p d;
  Ret (set_ff_times p d (tb_out o) f, set_next_pts next o).

End Sync.
