(* ===== verification/FilterConfig.v ===== *)
(** * Building a filter graph ([ez-ffmpeg/src/core/scheduler/filter_task.rs])

    The description is parsed and its options are applied; every open input gets a
    buffer source, the filters that turn the picture and a trim filter, every open
    output a trim filter, a filter for the formats of the encoder and a sink.
    libavfilter is the class [AvGraph]: its graph is a value that is threaded through
    the calls, and a filter of a graph is a number.  [Panic] also stands for undefined
    behaviour.  First the option strings of the filters that the task adds: the formats
    that an encoder takes, the parameters of a buffer source, and the filters that turn
    a picture upright. *)

From stdpp Require Import base list option strings.
From Stdlib Require Import ZArith Lia Ascii String SpecFloat.
From S2P Require Import Choke.
From S2P Require Import Prelude RustInt RustStr Float64 Errors StreamSpec Muxer Rescale MuxTask DemuxTimes DecTask FilterSync.

Local Open Scope string_scope.
Local Open Scope Z_scope.
Local Open Scope rust_scope.

(** What libavutil knows of formats and layouts, and [atan2]. *)
Class AvNames `{Sync : AvSync} := {
  av_get_sample_fmt_name : Z -> option string;
  av_get_pix_fmt_name : Z -> option string;
  av_color_space_name : Z -> option string;
  av_color_range_name : Z -> option string;
  av_channel_layout_check : AVChannelLayout -> bool;
  av_channel_layout_describe : AVChannelLayout -> string;
  f64_atan2 : f64 -> f64 -> f64
}.

(** [bprint.len -= 1], when there is something *)
Definition remove_last (s : string) : string := stake (slen s - 1) s.

(** [%s] of a C string that may be null *)
Definition c_string (s : option string) : string := default "(null)" s.

Section Args.
  Context `{Lib : AvNames}.

(** ** The formats of an encoder *)

(** What all of the functions for a list of names do: each name that is known with a
    bar behind it, and the last character of the whole buffer is removed. *)
Definition choose_names (print : Z -> option string) (l : list Z) (bprint : string) : string :=
  remove_last (fold_left (fun s x => match print x with Some n => s ++ n ++ "|" | None => s end) l bprint).

(** One value, or the list. *)
Definition choose_values (option_name : string) (print : Z -> option string) (unset value : Z) (values : list Z) (bprint : string) : string :=
  if (value =? unset) && bool_decide (values = []) then bprint
  else
    let bprint := bprint ++ option_name ++ "=" in
    (if negb (value =? unset) then bprint ++ default "" (print value) else choose_names print values bprint) ++ ":".

Definition choose_sample_fmts (format : Z) (formats : option (list Z)) (bprint : string) : string :=
  choose_values "sample_fmts" av_get_sample_fmt_name AV_SAMPLE_FMT_NONE format (default [] formats) bprint.

Definition choose_sample_rates (rate : Z) (rates : option (list Z)) (bprint : string) : string :=
  choose_values "sample_rates" (fun r => Some (dec_i32 r)) 0 rate (default [] rates) bprint.

Definition choose_pix_fmts (format : Z) (formats : option (list Z)) (bprint : string) : string :=
  choose_values "pix_fmts" av_get_pix_fmt_name AV_PIX_FMT_NONE format (default [] formats) bprint.

Definition choose_color_spaces (color_space : Z) (color_spaces : list Z) (bprint : string) : string :=
  choose_values "color_spaces" av_color_space_name AVCOL_SPC_UNSPECIFIED color_space color_spaces bprint.

Definition choose_color_ranges (color_range : Z) (color_ranges : list Z) (bprint : string) : string :=
  choose_values "color_ranges" av_color_range_name AVCOL_RANGE_UNSPECIFIED color_range color_ranges bprint.

(** Until a layout without channels. *)
Fixpoint describe_layouts (l : list AVChannelLayout) (bprint : string) : string :=
  match l with
  | [] => bprint
  | x :: l => if layout_channels x =? 0 then bprint else describe_layouts l (bprint ++ av_channel_layout_describe x ++ "|")
  end.

Definition choose_channel_layouts (layout : AVChannelLayout) (layouts : option (list AVChannelLayout)) (bprint : string) : string :=
  if av_channel_layout_check layout then bprint ++ "channel_layouts=" ++ av_channel_layout_describe layout ++ ":"
  else match layouts with
  | None | Some [] => bprint
  | Some l => remove_last (describe_layouts l (bprint ++ "channel_layouts=")) ++ ":"
  end.

(** The arguments of the filter in front of a sink. *)
Definition audio_format_args (o : OutputFilterOptions) : string :=
  choose_channel_layouts (ch_layout o) (ch_layouts o)
    (choose_sample_rates (ofo_sample_rate o) (sample_rates o) (choose_sample_fmts (audio_format o) (audio_formats o) "")).

Definition video_format_args (o : OutputFilterOptions) : string :=
  choose_color_ranges AVCOL_RANGE_UNSPECIFIED (default [] (color_ranges o))
    (choose_color_spaces AVCOL_SPC_UNSPECIFIED (default [] (color_spaces o)) (choose_pix_fmts AV_PIX_FMT_NONE (formats o) "")).

(** ** Buffer sources *)

Definition audio_source_args (base : AVRational) (p : FrameParams) : string :=
  "time_base=" ++ dec_i32 (num base) ++ "/" ++ dec_i32 (den base) ++ ":sample_rate=" ++ dec_i32 (p_sample_rate p) ++
  ":sample_fmt=" ++ c_string (av_get_sample_fmt_name (p_format p)) ++
  (if av_channel_layout_check (p_ch_layout p) && negb (layout_order (p_ch_layout p) =? AV_CHANNEL_ORDER_UNSPEC)
   then ":channel_layout=" ++ av_channel_layout_describe (p_ch_layout p)
   else ":channels=" ++ dec_i32 (layout_channels (p_ch_layout p))).

Definition video_source_args (base framerate : AVRational) (p : FrameParams) : string :=
  let sar := if den (p_sar p) =? 0 then {| num := 0; den := 1 |} else p_sar p in
  "video_size=" ++ dec_i32 (p_width p) ++ "x" ++ dec_i32 (p_height p) ++ ":pix_fmt=" ++ dec_i32 (p_format p) ++
  ":time_base=" ++ dec_i32 (num base) ++ "/" ++ dec_i32 (den base) ++ ":pixel_aspect=" ++ dec_i32 (num sar) ++ "/" ++ dec_i32 (den sar) ++
  ":colorspace=" ++ dec_i32 (p_color_space p) ++ ":range=" ++ dec_i32 (p_color_range p) ++
  (if negb (num framerate =? 0) && negb (den framerate =? 0) then ":frame_rate=" ++ dec_i32 (num framerate) ++ "/" ++ dec_i32 (den framerate) else "").

(** ** Rotation *)

Definition f64_int (n : Z) : f64 := f64_of_Z n.

(** [std::f64::consts::PI] *)
Definition f64_PI : f64 := S754_finite false 7074237752028440 (- 51).

Definition conv_fp (value : Z) : f64 := fdiv (f64_int value) (f64_int (2 ^ 30)).

Definition hypot (x y : f64) : f64 := f64_sqrt (fadd (fmul x x) (fmul y y)).

(** The angle of a display matrix of nine numbers, in degrees. *)
Definition display_rotation_get (matrix : list Z) : f64 :=
  let m i := conv_fp (nth i matrix 0) in
  let scale0 := hypot (m 0%nat) (m 3%nat) in
  let scale1 := hypot (m 1%nat) (m 4%nat) in
  if feq scale0 (f64_int 0) || feq scale1 (f64_int 0) then S754_nan
  else fopp (fdiv (fmul (f64_atan2 (fdiv (m 1%nat) scale1) (fdiv (m 0%nat) scale0)) (f64_int 180)) f64_PI).

(** The odd angle is only a warning. *)
Definition get_rotation (matrix : list Z) : f64 :=
  let theta := fopp (f64_round (display_rotation_get matrix)) in
  fsub theta (fmul (f64_int 360) (f64_floor (fadd (fdiv theta (f64_int 360)) (fdiv (f64_lit 9 10) (f64_int 360))))).

(** [{:.6}] *)
Definition pad6 (s : string) : string := stake (6 - slen s) "000000" ++ s.

Definition fmt_fixed6 (x : f64) : string :=
  let digits n := dec (n / 10 ^ 6) ++ "." ++ pad6 (dec (n mod 10 ^ 6)) in
  match x with
  | S754_nan => "NaN"
  | S754_infinity s => if s then "-inf" else "inf"
  | S754_zero s => (if s then "-" else "") ++ digits 0
  | S754_finite s m e =>
    let q := Z.pos m * 10 ^ 6 in
    let d := 2 ^ (- e) in
    let n := if 0 <=? e then q * 2 ^ e
             else if (2 * (q mod d) <? d) || ((2 * (q mod d) =? d) && Z.even (q / d)) then q / d else q / d + 1 in
    (if s then "-" else "") ++ digits n
  end.

(** The filters for an angle, each with its arguments. *)
Definition rotation_filters (theta : f64) (matrix : list Z) : list (string * option string) :=
  let near x := flt (f64_abs (fsub theta (f64_int x))) (f64_int 1) in
  let m i := nth i matrix 0 in
  if near 90 then [("transpose", Some (if 0 <? m 3%nat then "cclock_flip" else "clock"))]
  else if near 180 then
    ((if m 0%nat <? 0 then [("hflip", None)] else []) ++ (if m 4%nat <? 0 then [("vflip", None)] else []))%list
  else if near 270 then [("transpose", Some (if m 3%nat <? 0 then "clock_flip" else "cclock"))]
  else if flt (f64_int 1) (f64_abs theta) then [("rotate", Some (fmt_fixed6 theta ++ "*PI/180"))]
  else if flt (f64_abs theta) (f64_int 1) && (m 4%nat <? 0) then [("vflip", None)]
  else [].

End Args.

Example fixed_examples : fmt_fixed6 (f64_lit 45 1) = "45.000000" /\ fmt_fixed6 (f64_lit (-1) 3) = "-0.333333" /\ fmt_fixed6 (f64_lit 5 100) = "0.050000".
Proof. repeat split. Qed.


Definition AVERROR_BUG : Z := FFERRTAG 66 85 71 33.
Definition AVERROR_FILTER_NOT_FOUND : Z := FFERRTAG 248 70 73 76.

(** An [AVFilterContext] of a graph, with the flags of its filter. *)
Record FilterContext := { fc_id : nat; fc_name : string; fc_inputs : nat; fc_outputs : nat; metadata_only : bool; hwdevice_flag : bool }.

(** A filter of a parsed description, with its options. *)
Record FilterParams := { fp_filter : option nat; fp_opts : list (string * string) }.

(** An open end of the graph: a filter and one of its pads. *)
Record InOut := { filter_ctx : nat; pad_index : Z }.

Class AvGraph `{Names : AvNames} := {
  FGraph : Type;
  avfilter_graph_alloc : FGraph;
  graph_filters : FGraph -> list FilterContext;
  avfilter_get_by_name : string -> bool;
  (** a filter by its name, the name of the instance and its arguments: an error, or
      the filter *)
  avfilter_graph_create_filter : string -> string -> option string -> FGraph -> (Z + nat) * FGraph;
  avfilter_graph_alloc_filter : string -> string -> FGraph -> option nat * FGraph;
  avfilter_init_str : nat -> FGraph -> Z * FGraph;
  avfilter_link : nat -> Z -> nat -> Z -> FGraph -> Z * FGraph;
  avfilter_pad_get_type : nat -> Z -> FGraph -> AVMediaType;
  av_opt_set_int : nat -> string -> Z -> FGraph -> Z * FGraph;
  av_opt_set : nat -> string -> string -> FGraph -> Z * FGraph;
  av_opt_set_bin : nat -> string -> list Z -> FGraph -> Z * FGraph;
  (** an option of a filter, and whether it is binary *)
  av_opt_find : nat -> string -> FGraph -> option bool;
  av_buffersrc_parameters_set : nat -> option Z -> FGraph -> Z * FGraph;
  avfilter_graph_config : FGraph -> Z * FGraph;
  (** a description *)
  Segment : Type;
  avfilter_graph_segment_parse : string -> FGraph -> (Z + Segment) * FGraph;
  avfilter_graph_segment_create_filters : Segment -> FGraph -> Z * Segment * FGraph;
  segment_chains : Segment -> list (list FilterParams);
  free_opts : Segment -> Segment;
  avfilter_graph_segment_apply : Segment -> FGraph -> (Z + list InOut * list InOut) * FGraph;
  (** hardware *)
  set_hw_device_ctx : nat -> Z -> FGraph -> FGraph;
  av_buffer_ref : Z -> option Z;
  pix_fmt_hwaccel : Z -> option bool;
  (** files: whether one opens for reading; its size and what a read gives *)
  avio_open : string -> Z;
  avio_size : string -> Z;
  avio_read : string -> Z -> Z * list Z;
  (** enough memory *)
  parameters_alloc : bool;
  bprint_complete : bool
}.

(** ** Calls that may fail *)

Section Conf.
  Context `{Lib : AvGraph}.

(** A call on the graph: the code of an error, or a value. *)
Definition Conf (A : Type) : Type := FGraph -> outcome ((Z + A) * FGraph).

Definition conf_ret {A} (a : A) : Conf A := fun g => Ret (inr a, g).

Definition conf_fail {A} (ret : Z) : Conf A := fun g => Ret (inl ret, g).

Definition conf_bind {A B} (m : Conf A) (k : A -> Conf B) : Conf B := fun g =>
  '(r, g) ← m g;
  match r with inl ret => Ret (inl ret, g) | inr a => k a g end.

(** [if ret < 0 { return ret; }] *)
Definition checked (f : FGraph -> Z * FGraph) : Conf unit := fun g =>
  let '(ret, g) := f g in Ret (if ret <? 0 then inl ret else inr tt, g).

Definition created {A} (f : FGraph -> (Z + A) * FGraph) : Conf A := fun g => Ret (f g).

(** [CString::new(s)] with [unwrap] *)
Definition c_unwrap (s : string) : Conf unit := fun g => if contains_char NUL s then Panic else Ret (inr tt, g).

(** The loop over a list, until an error. *)
Fixpoint conf_fold {A S} (f : S -> A -> Conf S) (s : S) (l : list A) : Conf S :=
  match l with
  | [] => conf_ret s
  | x :: l => conf_bind (f s x) (fun s => conf_fold f s l)
  end.

End Conf.

Notation "'let*' x ':=' m 'in' k" := (conf_bind m (fun x => k)) (at level 10, x pattern, m at level 100, k at level 200) : rust_scope.

Section Config.
  Context `{Lib : AvGraph}.

(** ** Filters in a row *)

(** The last filter of the row and its pad. *)
Definition Last : Type := nat * Z.

Definition insert_filter (l : Last) (f : string * option string) : Conf Last :=
  let '(filter_name, args) := f in
  let* _ := c_unwrap filter_name in
  if negb (avfilter_get_by_name filter_name) then conf_fail AVERROR_BUG
  else
    let* _ := c_unwrap (default "" args) in
    let* ctx := created (avfilter_graph_create_filter filter_name filter_name args) in
    let* _ := checked (avfilter_link (fst l) (snd l) ctx 0) in
    conf_ret (ctx, 0).

Definition set_option (ctx : nat) (option_name : string) (v : option Z) : Conf unit :=
  match v with None => conf_ret tt | Some v => checked (av_opt_set_int ctx option_name v) end.

Definition insert_trim (start_time duration : option Z) (filter_name : string) (l : Last) : Conf Last :=
  match start_time, duration with
  | None, None => conf_ret l
  | _, _ => fun g =>
    let f := if bool_decide (avfilter_pad_get_type (fst l) (snd l) g = AVMEDIA_TYPE_VIDEO) then "trim" else "atrim" in
    if negb (avfilter_get_by_name f) then Ret (inl AVERROR_FILTER_NOT_FOUND, g)
    else if contains_char NUL filter_name then Panic
    else match avfilter_graph_alloc_filter f filter_name g with
    | (None, g) => Ret (inl AVERROR_OUT_OF_MEMORY, g)
    | (Some ctx, g) =>
      (let* _ := set_option ctx "durationi" duration in
       let* _ := set_option ctx "starti" start_time in
       let* _ := checked (avfilter_init_str ctx) in
       let* _ := checked (avfilter_link (fst l) (snd l) ctx 0) in
       conf_ret (ctx, 0)) g
    end
  end.

(** ** Outputs *)

(** What an output sends; a frame that is null is [None]. *)
Record FilterBox := { fb_frame : option FilterFrame; fb_data : FrameData }.

(** A channel: how many frames it takes before its receiver is gone, and what was
    sent. *)
Record FilterSender := { room : option nat; sent : list FilterBox }.

(** [OutputFilterParameter]; of the flags of the graph that the frames go to: how many
    there are, and how often the one of this output is still read as unset.  The method
    of synchronization and the offset, of the options, are in [op_times]. *)
Record OutputFilterParameter := {
  op_times : OutputTimes;
  op_opts : OutputFilterOptions;
  op_dst : option FilterSender;
  op_input_index : nat;
  op_flags : nat;
  op_unset_reads : option nat;
  op_filter : option nat;
  op_name : string;
  op_eof : bool;
  op_format : Z;
  op_width : Z;
  op_height : Z;
  op_color_space : Z;
  op_color_range : Z;
  op_sar : AVRational;
  op_sample_rate : Z
}.

(** The filter for the formats, when there are some. *)
Definition insert_format (format_filter name args : string) (l : Last) : Conf Last :=
  if negb bprint_complete then conf_fail AVERROR_OUT_OF_MEMORY
  else if String.eqb args "" then conf_ret l
  else if contains_char NUL name then conf_fail AVERROR_OUT_OF_MEMORY
  else
    let* filter := created (avfilter_graph_create_filter format_filter name (Some args)) in
    let* _ := checked (avfilter_link (fst l) (snd l) filter 0) in
    conf_ret (filter, 0).

(** Behind the sink: the formats, the trim filter, and the link. *)
Definition finish_output (sink : nat) (format_filter name args : string) (ofp : OutputFilterParameter) (output : InOut) : Conf nat :=
  let* l := insert_format format_filter name args (filter_ctx output, pad_index output) in
  let* l := insert_trim (trim_start_us (op_opts ofp)) (trim_duration_us (op_opts ofp)) ("trim_out_" ++ op_name ofp) l in
  let* _ := checked (avfilter_link (fst l) (snd l) sink 0) in
  conf_ret sink.

(** The filter of the output. *)
Definition configure_output_audio_filter (ofp : OutputFilterParameter) (output : InOut) : Conf nat :=
  let name := "out_" ++ ofo_name (op_opts ofp) in
  if contains_char NUL name then conf_fail AVERROR_OUT_OF_MEMORY
  else
    let* sink := created (avfilter_graph_create_filter "abuffersink" name None) in
    let* _ := checked (av_opt_set_int sink "all_channel_counts" 1) in
    finish_output sink "aformat" ("format_out_" ++ op_name ofp) (audio_format_args (op_opts ofp)) ofp output.

Definition configure_output_video_filter (ofp : OutputFilterParameter) (output : InOut) : Conf nat :=
  let name := "out_" ++ ofo_name (op_opts ofp) in
  if contains_char NUL name then conf_fail AVERROR_OUT_OF_MEMORY
  else
    let* sink := created (avfilter_graph_create_filter "buffersink" name None) in
    finish_output sink "format" "format" (video_format_args (op_opts ofp)) ofp output.

Definition set_op_filter (f : option nat) (o : OutputFilterParameter) : OutputFilterParameter :=
  {| op_times := op_times o; op_opts := op_opts o; op_dst := op_dst o; op_input_index := op_input_index o; op_flags := op_flags o;
     op_unset_reads := op_unset_reads o; op_filter := f; op_name := op_name o; op_eof := op_eof o;
     op_format := op_format o; op_width := op_width o; op_height := op_height o; op_color_space := op_color_space o; op_color_range := op_color_range o;
     op_sar := op_sar o; op_sample_rate := op_sample_rate o |}.

Definition configure_output_filter (ofp : OutputFilterParameter) (output : InOut) : Conf OutputFilterParameter :=
  match media_type (op_times ofp) with
  | AVMEDIA_TYPE_VIDEO => let* sink := configure_output_video_filter ofp output in conf_ret (set_op_filter (Some sink) ofp)
  | AVMEDIA_TYPE_AUDIO => let* sink := configure_output_audio_filter ofp output in conf_ret (set_op_filter (Some sink) ofp)
  | _ => conf_ret ofp
  end.

(** ** Inputs *)

Definition empty_layout : AVChannelLayout := {| layout_order := AV_CHANNEL_ORDER_UNSPEC; layout_channels := 0; layout_mask := 0 |}.

(** [InputFilterParameter]; of [ip_params] the matrix is [displaymatrix_present] only,
    and [displaymatrix] keeps the last one that was there. *)
Record InputFilterParameter := {
  ip_index : nat;
  ip_name : string;
  ip_type : AVMediaType;
  ip_opts : InputFilterOptions;
  ip_fallback : FilterFrame;
  ip_time_base : AVRational;
  ip_params : FrameParams;
  displaymatrix_applied : bool;
  displaymatrix : list Z;
  ip_filter : option nat;
  frame_queue : list FilterFrame;
  ip_eof : bool
}.

Definition no_params : FrameParams :=
  {| p_format := - 1; p_width := 0; p_height := 0; p_sar := {| num := 0; den := 1 |}; p_color_space := AVCOL_SPC_UNSPECIFIED;
     p_color_range := AVCOL_RANGE_UNSPECIFIED; p_sample_rate := 0; p_ch_layout := empty_layout; p_hw_frames := None; p_matrix := None |}.

Definition InputFilterParameter_new (i : nat) (name : string) (t : AVMediaType) (opts : InputFilterOptions) (fallback : FilterFrame) : InputFilterParameter :=
  {| ip_index := i; ip_name := name; ip_type := t; ip_opts := opts; ip_fallback := fallback; ip_time_base := {| num := 0; den := 1 |};
     ip_params := no_params; displaymatrix_applied := false; displaymatrix := repeat 0 9; ip_filter := None; frame_queue := []; ip_eof := false |}.

Definition displaymatrix_present (ifp : InputFilterParameter) : bool := bool_decide (is_Some (p_matrix (ip_params ifp))).

Definition set_ip_filter (f : option nat) (applied : bool) (i : InputFilterParameter) : InputFilterParameter :=
  {| ip_index := ip_index i; ip_name := ip_name i; ip_type := ip_type i; ip_opts := ip_opts i; ip_fallback := ip_fallback i; ip_time_base := ip_time_base i;
     ip_params := ip_params i; displaymatrix_applied := applied; displaymatrix := displaymatrix i; ip_filter := f; frame_queue := frame_queue i;
     ip_eof := ip_eof i |}.

Definition set_ip_params (base : AVRational) (p : FrameParams) (matrix : list Z) (i : InputFilterParameter) : InputFilterParameter :=
  {| ip_index := ip_index i; ip_name := ip_name i; ip_type := ip_type i; ip_opts := ip_opts i; ip_fallback := ip_fallback i; ip_time_base := base;
     ip_params := p; displaymatrix_applied := displaymatrix_applied i; displaymatrix := matrix; ip_filter := ip_filter i; frame_queue := frame_queue i;
     ip_eof := ip_eof i |}.

Definition set_ip_queue (q : list FilterFrame) (eof : bool) (i : InputFilterParameter) : InputFilterParameter :=
  {| ip_index := ip_index i; ip_name := ip_name i; ip_type := ip_type i; ip_opts := ip_opts i; ip_fallback := ip_fallback i; ip_time_base := ip_time_base i;
     ip_params := ip_params i; displaymatrix_applied := displaymatrix_applied i; displaymatrix := displaymatrix i; ip_filter := ip_filter i;
     frame_queue := q; ip_eof := eof |}.

(** The trim filter and the link to the graph. *)
Definition finish_input (ifp : InputFilterParameter) (input : InOut) (l : Last) : Conf unit :=
  let* l := insert_trim (ifo_trim_start_us (ip_opts ifp)) (ifo_trim_end_us (ip_opts ifp)) ("trim_in_" ++ ip_name ifp) l in
  checked (avfilter_link (fst l) 0 (filter_ctx input) (pad_index input)).

Definition configure_input_audio_filter (fg_index : nat) (ifp : InputFilterParameter) (input : InOut) : Conf InputFilterParameter :=
  let name := "graph_" ++ dec (Z.of_nat fg_index) ++ "_in_" ++ ifo_name (ip_opts ifp) in
  let* _ := c_unwrap name in
  let* filter := created (avfilter_graph_create_filter "abuffer" name (Some (audio_source_args (ip_time_base ifp) (ip_params ifp)))) in
  let* _ := finish_input ifp input (filter, 0) in
  conf_ret (set_ip_filter (Some filter) (displaymatrix_applied ifp) ifp).

(** The descriptor of a format that is not known is dereferenced, if the pictures of
    the input are to be turned. *)
Definition rotates (ifp : InputFilterParameter) : Conf bool := fun g =>
  if autorotate (ip_opts ifp) then
    match pix_fmt_hwaccel (p_format (ip_params ifp)) with None => Panic | Some hw => Ret (inr (negb hw), g) end
  else Ret (inr false, g).

Definition configure_input_video_filter (fg_index : nat) (ifp : InputFilterParameter) (input : InOut) : Conf InputFilterParameter :=
  if negb parameters_alloc then conf_fail AVERROR_OUT_OF_MEMORY
  else
    let name := "graph " ++ dec (Z.of_nat fg_index) ++ " input from stream " ++ ifo_name (ip_opts ifp) in
    if contains_char NUL name then conf_fail AVERROR_OUT_OF_MEMORY
    else
      let args := video_source_args (ip_time_base ifp) (ifo_framerate (ip_opts ifp)) (ip_params ifp) in
      let* filter := created (avfilter_graph_create_filter "buffer" name (Some args)) in
      let* _ := checked (av_buffersrc_parameters_set filter (p_hw_frames (ip_params ifp))) in
      let* turn := rotates ifp in
      let filters := if turn : bool then rotation_filters (get_rotation (displaymatrix ifp)) (displaymatrix ifp) else [] in
      let* l := conf_fold insert_filter (filter, 0) filters in
      let* _ := finish_input ifp input l in
      conf_ret (set_ip_filter (Some filter) turn ifp).

Definition configure_input_filter (fg_index : nat) (ifp : InputFilterParameter) (input : InOut) : Conf InputFilterParameter :=
  match ip_type ifp with
  | AVMEDIA_TYPE_VIDEO => configure_input_video_filter fg_index ifp input
  | AVMEDIA_TYPE_AUDIO => configure_input_audio_filter fg_index ifp input
  | _ => conf_ret ifp
  end.

(** The loops over the open ends: the parameters in their order, and the surplus on
    either side is left. *)
Fixpoint configure_all {P} (configure : P -> InOut -> Conf P) (ps : list P) (ends : list InOut) : Conf (list P) :=
  match ends, ps with
  | e :: ends, p :: ps => let* p := configure p e in let* ps := configure_all configure ps ends in conf_ret (p :: ps)
  | _, _ => conf_ret ps
  end.

(** ** Lemmas *)

Lemma conf_bind_inr {A B} (m : Conf A) (k : A -> Conf B) g b g' :
  conf_bind m k g = Ret (inr b, g') <-> exists a g1, m g = Ret (inr a, g1) /\ k a g1 = Ret (inr b, g').
Proof.
  unfold conf_bind. rewrite bind_Ret. split.
  - intros ([[e|a] g1] & Hm & H); [by apply Ret_inj in H|]. by exists a, g1.
  - intros (a & g1 & Hm & H). by exists (inr a, g1).
Qed.

Lemma conf_ret_inr {A} (a b : A) g g' : conf_ret a g = Ret (inr b, g') <-> b = a /\ g' = g.
Proof. unfold conf_ret. split; [by intros [= -> ->]|by intros [-> ->]]. Qed.

End Config.

(** ** Parsing a filter graph

    The description is parsed into a segment, its filters are created, those that work
    on hardware get the device, their options are set, and the segment is linked.  An
    option whose name starts with a slash has its value in a file. *)

Section Parse.
  Context `{Lib : AvGraph}.

(** ** Values from files *)

(** The data of a file.  What is not read in full is freed with [av_freep], which takes
    the address of a pointer and gets the pointer. *)
Definition read_binary (path : string) : outcome (Z + list Z) :=
  let ret := avio_open path in
  if ret <? 0 then Ret (inl ret)
  else
    let fsize := avio_size path in
    if fsize <? 0 then Ret (inl AVERROR_IO_ERROR)
    else if negb parameters_alloc then Ret (inl AVERROR_OUT_OF_MEMORY)
    else
      let '(read_size, data) := avio_read path (as_i32 fsize) in
      if negb (read_size =? as_i32 fsize) then Panic else Ret (inr data).

(** The text of a file: [av_bprint_init] gets a null pointer. *)
Definition file_read (filename : string) : outcome (option string) := if avio_open filename <? 0 then Ret None else Panic.

(** The data that was set is freed with [av_freep], too. *)
Definition set_from_file (f : nat) (key value : string) (binary : bool) : Conf unit := fun g =>
  if binary then
    r ← read_binary value;
    match r with
    | inl e => Ret (inl e, g)
    | inr data => let '(_, _) := av_opt_set_bin f key data g in Panic
    end
  else
    r ← file_read value;
    match r with
    | None => Ret (inl AVERROR_IO_ERROR, g)
    | Some data => checked (av_opt_set f key data) g
    end.

Definition filter_opt_apply (f : nat) (key value : string) : Conf unit := fun g =>
  let '(ret, g) := av_opt_set f key value g in
  if 0 <=? ret then Ret (inr tt, g)
  else match key with
  | String c key =>
    if (ret =? AVERROR_OPTION_NOT_FOUND) && Ascii.eqb c "/" then
      match av_opt_find f key g with
      | None => Ret (inl ret, g)
      | Some binary => set_from_file f key value binary g
      end
    else Ret (inl ret, g)
  | EmptyString => Ret (inl ret, g)
  end.

(** ** The description *)

(** The options of a filter; a filter that was not created is an assertion. *)
Definition apply_filter_opts (p : FilterParams) : Conf unit :=
  match fp_filter p with
  | None => fun g => Panic
  | Some f => conf_fold (fun _ o => filter_opt_apply f (fst o) (snd o)) tt (fp_opts p)
  end.

Definition graph_opts_apply (seg : Segment) : Conf Segment :=
  let* _ := conf_fold (fun _ chain => conf_fold (fun _ p => apply_filter_opts p) tt chain) tt (segment_chains seg) in
  conf_ret (free_opts seg).

(** The filters that work on a device get a reference to it. *)
Definition give_device (device : Z) (c : FilterContext) : Conf unit := fun g =>
  if hwdevice_flag c then
    match av_buffer_ref device with
    | None => Ret (inl AVERROR_OUT_OF_MEMORY, g)
    | Some r => Ret (inr tt, set_hw_device_ctx (fc_id c) r g)
    end
  else Ret (inr tt, g).

Definition give_devices (device : option (option Z)) : Conf unit := fun g =>
  match device with
  | None => Ret (inr tt, g)
  | Some None => if existsb hwdevice_flag (graph_filters g) then Panic else Ret (inr tt, g)
  | Some (Some d) => conf_fold (fun _ c => give_device d c) tt (graph_filters g) g
  end.

(** The open inputs and outputs. *)
Definition graph_parse (graph_desc : string) (device : option (option Z)) : Conf (list InOut * list InOut) :=
  let* _ := c_unwrap graph_desc in
  let* seg := created (avfilter_graph_segment_parse graph_desc) in
  let* seg := (fun g => let '(ret, seg, g) := avfilter_graph_segment_create_filters seg g in Ret (if ret <? 0 then inl ret else inr seg, g)) in
  let* _ := give_devices device in
  let* seg := graph_opts_apply seg in
  created (avfilter_graph_segment_apply seg).

End Parse.
