(* ===== verification/FilterOutput.v ===== *)
(** * The outputs of a filter graph ([ez-ffmpeg/src/core/scheduler/filter_task.rs])

    What the sinks of a graph give is synchronized ([FilterSync]) and sent; the end of
    an output is told with a null frame, behind a frame without data if there was none
    at all; and the graph is read until it wants a frame. *)

From stdpp Require Import base list option strings.
From Stdlib Require Import ZArith Lia Ascii String.
From S2P Require Import Choke.
From S2P Require Import Prelude RustInt RustStr Float64 Errors StreamSpec Muxer Rescale MuxTask DemuxTimes DecTask FilterSync FilterConfig.

Local Open Scope Z_scope.
Local Open Scope rust_scope.

(** A graph that is configured, as the task uses it: its sources, its sinks and what
    makes it work.  A null frame is the end of an input. *)
Class AvFilter `{Gr : AvGraph} := {
  av_channel_layout_compare : AVChannelLayout -> AVChannelLayout -> Z;
  (** with AV_BUFFERSRC_FLAG_PUSH, or without flags *)
  av_buffersrc_add_frame_flags : bool -> nat -> option FilterFrame -> FGraph -> Z * FGraph;
  av_buffersrc_close : nat -> Z -> FGraph -> Z * FGraph;
  av_buffersrc_get_nb_failed_requests : nat -> FGraph -> Z;
  avfilter_graph_request_oldest : FGraph -> Z * FGraph;
  av_buffersink_get_frame : nat -> FGraph -> (Z + FilterFrame) * FGraph;
  sink_format : nat -> FGraph -> Z;
  sink_w : nat -> FGraph -> Z;
  sink_h : nat -> FGraph -> Z;
  sink_colorspace : nat -> FGraph -> Z;
  sink_color_range : nat -> FGraph -> Z;
  sink_time_base : nat -> FGraph -> AVRational;
  sink_sar : nat -> FGraph -> AVRational;
  sink_sample_rate : nat -> FGraph -> Z;
  sink_frame_rate : nat -> FGraph -> AVRational;
  sink_ch_layout : nat -> FGraph -> Z * AVChannelLayout
}.

Section FilterTask.
  Context `{Lib : AvFilter} `{Prof : Profile}.

(** ** The state *)

Record FilterGraphParameter := { next_in : nat; got_frame : bool; nb_outputs_done : nat; is_meta : bool }.

Definition FilterGraphParameter_default : FilterGraphParameter := {| next_in := 0; got_frame := false; nb_outputs_done := 0; is_meta := false |}.

Definition set_next_in (i : nat) (p : FilterGraphParameter) : FilterGraphParameter :=
  {| next_in := i; got_frame := got_frame p; nb_outputs_done := nb_outputs_done p; is_meta := is_meta p |}.
Definition set_got_frame (p : FilterGraphParameter) : FilterGraphParameter :=
  {| next_in := next_in p; got_frame := true; nb_outputs_done := nb_outputs_done p; is_meta := is_meta p |}.
Definition output_done (p : FilterGraphParameter) : FilterGraphParameter :=
  {| next_in := next_in p; got_frame := got_frame p; nb_outputs_done := S (nb_outputs_done p); is_meta := is_meta p |}.
Definition set_is_meta (b : bool) (p : FilterGraphParameter) : FilterGraphParameter :=
  {| next_in := next_in p; got_frame := got_frame p; nb_outputs_done := nb_outputs_done p; is_meta := b |}.

Definition set_op_times (t : OutputTimes) (o : OutputFilterParameter) : OutputFilterParameter :=
  {| op_times := t; op_opts := op_opts o; op_dst := op_dst o; op_input_index := op_input_index o; op_flags := op_flags o;
     op_unset_reads := op_unset_reads o; op_filter := op_filter o; op_name := op_name o; op_eof := op_eof o; op_format := op_format o;
     op_width := op_width o; op_height := op_height o; op_color_space := op_color_space o; op_color_range := op_color_range o; op_sar := op_sar o;
     op_sample_rate := op_sample_rate o |}.

Definition set_op_dst (d : option FilterSender) (eof : bool) (unset : option nat) (o : OutputFilterParameter) : OutputFilterParameter :=
  {| op_times := op_times o; op_opts := op_opts o; op_dst := d; op_input_index := op_input_index o; op_flags := op_flags o; op_unset_reads := unset;
     op_filter := op_filter o; op_name := op_name o; op_eof := eof; op_format := op_format o; op_width := op_width o; op_height := op_height o;
     op_color_space := op_color_space o; op_color_range := op_color_range o; op_sar := op_sar o; op_sample_rate := op_sample_rate o |}.

Definition set_op_eof (o : OutputFilterParameter) : OutputFilterParameter := set_op_dst (op_dst o) true (op_unset_reads o) o.

Definition set_opts_layout (l : AVChannelLayout) (o : OutputFilterOptions) : OutputFilterOptions :=
  {| ofo_name := ofo_name o; ofo_enc := ofo_enc o; formats := formats o; audio_format := audio_format o; audio_formats := audio_formats o;
     ofo_framerate := ofo_framerate o; framerates := framerates o; color_spaces := color_spaces o; color_ranges := color_ranges o;
     ofo_vsync_method := ofo_vsync_method o; ofo_sample_rate := ofo_sample_rate o; sample_rates := sample_rates o; ch_layout := l;
     ch_layouts := ch_layouts o; trim_start_us := trim_start_us o; trim_duration_us := trim_duration_us o; ofo_ts_offset := ofo_ts_offset o;
     ofo_flags := ofo_flags o |}.

(** What a configured sink has selected; of the options only the channel layout. *)
Definition set_op_sink (g : FGraph) (f : nat) (o : OutputFilterParameter) : OutputFilterParameter :=
  {| op_times := set_tb_out (sink_time_base f g) (op_times o); op_opts := set_opts_layout (snd (sink_ch_layout f g)) (op_opts o); op_dst := op_dst o; op_input_index := op_input_index o;
     op_flags := op_flags o; op_unset_reads := op_unset_reads o; op_filter := op_filter o; op_name := op_name o; op_eof := op_eof o;
     op_format := sink_format f g; op_width := sink_w f g; op_height := sink_h f g; op_color_space := sink_colorspace f g;
     op_color_range := sink_color_range f g; op_sar := sink_sar f g; op_sample_rate := sink_sample_rate f g |}.

(** [OutputFilterParameter::new] *)
Definition OutputFilterParameter_new (t : AVMediaType) (opts : OutputFilterOptions) (dst : option FilterSender) (input_index flags : nat)
    (unset_reads : option nat) : OutputFilterParameter :=
  {| op_times := {| media_type := t; vsync_method := ofo_vsync_method opts; ts_offset := ofo_ts_offset opts;
                    fpsconv_context := FPSConvContext_new (ofo_framerate opts); tb_out := no_rational; next_pts := 0 |};
     op_opts := opts; op_dst := dst; op_input_index := input_index; op_flags := flags; op_unset_reads := unset_reads; op_filter := None; op_name := "";
     op_eof := false; op_format := AV_PIX_FMT_NONE; op_width := 0; op_height := 0; op_color_space := 0; op_color_range := AVCOL_RANGE_UNSPECIFIED;
     op_sar := no_rational; op_sample_rate := 0 |}.

(** ** Sending *)

(** The test of the finished flag. *)
Definition output_finished (o : OutputFilterParameter) : bool * OutputFilterParameter :=
  if (0 <? op_flags o)%nat && (op_input_index o <? op_flags o)%nat then
    match op_unset_reads o with
    | Some O => (true, o)
    | Some (S n) => (false, set_op_dst (op_dst o) (op_eof o) (Some n) o)
    | None => (false, o)
    end
  else (false, o).

Definition send_filtered (b : FilterBox) (d : FilterSender) : option FilterSender :=
  match room d with
  | Some O => None
  | Some (S n) => Some {| room := Some n; sent := sent d ++ [b] |}
  | None => Some {| room := None; sent := sent d ++ [b] |}
  end.

Definition output_data (rate : option AVRational) (o : OutputFilterParameter) : FrameData :=
  {| fd_framerate := rate; fd_bits_per_raw_sample := 0; input_stream_width := 0; input_stream_height := 0; subtitle_header := [];
     fg_input_index := Z.of_nat (op_input_index o) |}.

(** The frame rate of the options, unless its denominator is zero. *)
Definition option_framerate (o : OutputFilterParameter) : option AVRational :=
  if den (ofo_framerate (op_opts o)) =? 0 then None else Some (ofo_framerate (op_opts o)).

(** A frame to the receiver, if the output has one; [None] when the receiver is gone. *)
Definition send_out (f : option FilterFrame) (rate : option AVRational) (o : OutputFilterParameter) : option OutputFilterParameter :=
  match op_dst o with
  | None => Some o
  | Some d =>
    match send_filtered {| fb_frame := f; fb_data := output_data rate o |} d with
    | None => None
    | Some d => Some (set_op_dst (Some d) (op_eof o) (op_unset_reads o) o)
    end
  end.

(** ** The frames of an output *)

Definition fps (o : OutputFilterParameter) : FPSConvContext := fpsconv_context (op_times o).

Definition update_fps (c : FPSConvContext) (o : OutputFilterParameter) : OutputFilterParameter := set_op_times (set_fps c (op_times o)) o.

(** The frame that is sent in the place [i]: the last one again, or this one. *)
Definition frame_in (i nb_prev : Z) (f : option FilterFrame) (o : OutputFilterParameter) : option FilterFrame :=
  match last_frame (fps o) with
  | Some p => if (i <? nb_prev) && ff_buf p then Some p else f
  | None => f
  end.

(** The copy that is sent of it. *)
Definition video_out (f : FilterFrame) (o : OutputFilterParameter) : FilterFrame * OutputFilterParameter :=
  let c := fps o in
  (set_ff_key (dropped_keyframe c || ff_key f) (set_ff_pts (next_pts (op_times o)) f), update_fps (set_dropped (last_dropped c) false c) o).

(** Behind a video frame that was sent. *)
Definition count_video (o : OutputFilterParameter) : outcome OutputFilterParameter :=
  n ← uadd 64 (frame_number (fps o)) 1;
  p ← i64_add (next_pts (op_times o)) 1;
  Ret (set_op_times (set_next_pts p (set_fps (set_frame_number n (fps o)) (op_times o))) o).

(** How the loop over the frames ends: behind the last one or at a null frame, with a
    result, or with a receiver that is gone. *)
Inductive SendEnd := Sent (f : option FilterFrame) | Failed (ret : Z) | Gone.

Definition video_output (o : OutputFilterParameter) : bool := bool_decide (media_type (op_times o) = AVMEDIA_TYPE_VIDEO).

(** One round: the copy, or how the loop ends. *)
Definition make_frame (mem : Memory) (i nb_prev : Z) (f : option FilterFrame) (o : OutputFilterParameter)
    : outcome ((SendEnd + FilterFrame * option FilterFrame) * OutputFilterParameter) :=
  if video_output o then
    match frame_in i nb_prev f o with
    | None => Ret (inl (Sent f), o)
    | Some x =>
      match mem with
      | Enough => let '(out, o) := video_out x o in Ret (inr (out, f), o)
      | _ => Ret (inl (Failed AVERROR_OUT_OF_MEMORY), o)
      end
    end
  else
    match mem with
    | NoFrame => Ret (inl (Failed AVERROR_OUT_OF_MEMORY), o)
    | _ =>
      match f with
      | None => Panic
      | Some f =>
        '(f, t) ← audio_output_times f (op_times o);
        let o := set_op_times t o in
        Ret (if bool_decide (mem = Enough) then inr (f, Some f) else inl (Failed AVERROR_OUT_OF_MEMORY), o)
      end
    end.

(** The loop for [n] more frames. *)
Fixpoint send_frames (mem : Memory) (n : nat) (i nb_prev : Z) (f : option FilterFrame) (p : FilterGraphParameter) (o : OutputFilterParameter)
    : outcome (SendEnd * FilterGraphParameter * OutputFilterParameter) :=
  match n with
  | O => Ret (Sent f, p, o)
  | S n =>
    '(r, o) ← make_frame mem i nb_prev f o;
    match r with
    | inl e => Ret (e, p, o)
    | inr (out, f) =>
      match send_out (Some out) (option_framerate o) o with
      | None => Ret (Gone, if op_eof o then p else output_done p, set_op_eof o)
      | Some o =>
        o ← (if video_output o then count_video o else Ret o);
        let f := if video_output o && (i =? nb_prev) then option_map (set_ff_key false) f else f in
        send_frames mem n (i + 1) nb_prev f (set_got_frame p) o
      end
    end
  end.

(** The frame of an output that never had one.  Its channel layout is copied from
    itself. *)
Definition dummy_frame (o : OutputFilterParameter) : FilterFrame :=
  {| ff_pts := AV_NOPTS_VALUE; ff_duration := 0; ff_time_base := tb_out (op_times o); ff_key := false; ff_nb_samples := 0;
     ff_params := {| p_format := op_format o; p_width := op_width o; p_height := op_height o; p_sar := op_sar o; p_color_space := AVCOL_SPC_UNSPECIFIED;
                     p_color_range := AVCOL_RANGE_UNSPECIFIED; p_sample_rate := op_sample_rate o; p_ch_layout := empty_layout; p_hw_frames := None;
                     p_matrix := None |};
     ff_buf := false; ff_content := [] |}.

(** [AVERROR(EOF)] with the [EOF] of the C library *)
Definition AVERROR_of_EOF : Z := AVERROR (- 1).

Definition close_output (mem : Memory) (p : FilterGraphParameter) (o : OutputFilterParameter) : Z * OutputFilterParameter :=
  let finish (o : OutputFilterParameter) :=
    let o := set_op_eof o in
    match send_out None None o with None => (AVERROR_of_EOF, o) | Some o => (0, o) end in
  if got_frame p then finish o
  else if bool_decide (mem = NoFrame) then (AVERROR_OUT_OF_MEMORY, o)
  else match send_out (Some (dummy_frame o)) (option_framerate o) o with None => (AVERROR_of_EOF, o) | Some o => finish o end.

(** [video_sync_process], for video that has frames; the loop; and what is kept. *)
Definition fg_output_frame (mem : Memory) (f : option FilterFrame) (p : FilterGraphParameter) (o : OutputFilterParameter)
    : outcome (Z * FilterGraphParameter * OutputFilterParameter) :=
  let '(finished, o) := output_finished o in
  if finished then Ret (0, output_done p, set_op_eof o)
  else
    let nb := if f is Some _ then 1 else 0 in
    '(nb, nb_prev, t, f) ← (if video_output o && (bool_decide (is_Some f) || got_frame p) then video_sync_process f nb (op_times o)
                            else Ret (nb, 0, op_times o, f));
    '(e, p, o) ← send_frames mem (Z.to_nat nb) 0 nb_prev f p (set_op_times t o);
    match e with
    | Failed ret => Ret (ret, p, o)
    | Gone => Ret (0, p, o)
    | Sent None => let '(ret, o) := close_output mem p o in Ret (ret, p, o)
    | Sent (Some f) => Ret (0, p, if video_output o then update_fps (set_last_frame (Some f) (fps o)) o else o)
    end.

(** ** Reading the graph *)

(** Null pointers of filters are dereferenced. *)
Definition need {A} (x : option A) : outcome A := match x with Some a => Ret a | None => Panic end.

(** The duration of a frame of video that has none. *)
Definition sink_duration (rate : AVRational) (o : OutputFilterParameter) (f : FilterFrame) : FilterFrame :=
  if video_output o && (ff_duration f =? 0) && positive_q rate then set_ff_times (ff_pts f) (rescale_q 1 (av_inv_q rate) (ff_time_base f)) (ff_time_base f) f else f.

(** A frame that came from a sink with that rate and that base. *)
Definition sink_output (mem : Memory) (rate base : AVRational) (f : FilterFrame) (p : FilterGraphParameter) (o : OutputFilterParameter)
    : outcome (Z * FilterGraphParameter * OutputFilterParameter) :=
  let o := set_op_times (choose_out_timebase rate f (op_times o)) o in
  fg_output_frame mem (Some (sink_duration rate o (set_ff_times (ff_pts f) (ff_duration f) base f))) p o.

(** What one output and the graph become. *)
Definition fg_output_step (mem : Memory) (g : FGraph) (p : FilterGraphParameter) (o : OutputFilterParameter)
    : outcome (Z * FGraph * FilterGraphParameter * OutputFilterParameter) :=
  if bool_decide (mem = NoFrame) then Ret (AVERROR_OUT_OF_MEMORY, g, p, o)
  else
    sink ← need (op_filter o);
    let '(r, g) := av_buffersink_get_frame sink g in
    match r with
    | inl ret =>
      if (ret =? AVERROR_EOF) && negb (op_eof o) then
        '(ret, p, o) ← fg_output_frame mem None p o;
        Ret (if ret <? 0 then ret else 1, g, p, o)
      else if (ret =? AVERROR_AGAIN) || (ret =? AVERROR_EOF) then Ret (1, g, p, o)
      else Ret (ret, g, p, o)
    | inr f =>
      if op_eof o then Ret (0, g, p, o)
      else
        '(ret, p, o) ← sink_output mem (sink_frame_rate sink g) (sink_time_base sink g) f p o;
        Ret (if ret <? 0 then ret else 0, g, p, o)
    end.

(** One output, until it has nothing more: zero, or the code of an error. *)
Fixpoint drain_output (mem : Memory) (fuel : nat) (g : FGraph) (p : FilterGraphParameter) (o : OutputFilterParameter)
    : outcome (Z * FGraph * FilterGraphParameter * OutputFilterParameter) :=
  match fuel with
  | O => Diverge
  | S fuel =>
    '(ret, g, p, o) ← fg_output_step mem g p o;
    if ret <? 0 then Ret (ret, g, p, o)
    else if ret =? 0 then drain_output mem fuel g p o
    else Ret (0, g, p, o)
  end.

Fixpoint drain_outputs (mem : Memory) (fuel : nat) (g : FGraph) (p : FilterGraphParameter) (ofps : list OutputFilterParameter)
    : outcome (Z * FGraph * FilterGraphParameter * list OutputFilterParameter) :=
  match ofps with
  | [] => Ret (0, g, p, [])
  | o :: ofps =>
    '(ret, g, p, o) ← drain_output mem fuel g p o;
    if ret <? 0 then Ret (ret, g, p, o :: ofps)
    else '(ret, g, p, ofps) ← drain_outputs mem fuel g p ofps; Ret (ret, g, p, o :: ofps)
  end.

(** The input that is wanted most, of those that have not ended. *)
Definition choose_step (g : FGraph) (best : Z * Z) (ifp : InputFilterParameter) : outcome (Z * Z) :=
  if ip_eof ifp then Ret best
  else
    src ← need (ip_filter ifp);
    let nb_requests := as_i32 (av_buffersrc_get_nb_failed_requests src g) in
    Ret (if fst best <? nb_requests then (nb_requests, as_i32 (Z.of_nat (ip_index ifp))) else best).

Definition choose_input (g : FGraph) (ifps : list InputFilterParameter) : outcome nat :=
  best ← foldM (choose_step g) (- 1, - 1) ifps;
  if 0 <=? snd best then Ret (Z.to_nat (snd best)) else Panic.

(** The loop of [fg_read_frames]. *)
Fixpoint read_loop (mem : Memory) (fuel : nat) (g : FGraph) (p : FilterGraphParameter) (ifps : list InputFilterParameter) (ofps : list OutputFilterParameter)
    : outcome (Z * FGraph * FilterGraphParameter * list OutputFilterParameter) :=
  match fuel with
  | O => Diverge
  | S fuel =>
    let finish p := if (nb_outputs_done p =? List.length ofps)%nat then AVERROR_EOF else 0 in
    if (List.length ofps <=? nb_outputs_done p)%nat then Ret (finish p, g, p, ofps)
    else
      let '(ret, g) := avfilter_graph_request_oldest g in
      if ret =? AVERROR_AGAIN then
        i ← choose_input g ifps;
        Ret (finish p, g, set_next_in i p, ofps)
      else if ret <? 0 then Ret (ret, g, p, ofps)
      else
        '(ret, g, p, ofps) ← drain_outputs mem fuel g p ofps;
        if ret <? 0 then Ret (ret, g, p, ofps) else read_loop mem fuel g p ifps ofps
  end.

End FilterTask.
