(* ===== verification/FilterTask.v ===== *)
(** * The filtering task ([ez-ffmpeg/src/core/scheduler/filter_task.rs])

    The thread of a filter graph: the frames of the inputs are queued until every input
    has a format, then the graph is built and gets them; a frame with other properties
    rebuilds it.  The graph is built in [FilterConfig], and read in [FilterOutput]. *)

From stdpp Require Import base list option strings.
From Stdlib Require Import ZArith Lia Ascii String.
From S2P Require Import Choke.
From S2P Require Import Prelude RustInt RustStr Float64 Errors StreamSpec Muxer Rescale MuxTask DemuxTimes DecTask HwDevice FilterSync FilterConfig FilterOutput.

Local Open Scope Z_scope.
Local Open Scope rust_scope.

Section FilterTask.
  Context `{Lib : AvFilter} `{Prof : Profile}.

(** ** The state *)

Record FilterState := {
  fs_graph : option FGraph;
  fgp : FilterGraphParameter;
  ifps : list InputFilterParameter;
  ofps : list OutputFilterParameter
}.

Definition set_graph (g : option FGraph) (st : FilterState) : FilterState := {| fs_graph := g; fgp := fgp st; ifps := ifps st; ofps := ofps st |}.
Definition set_fgp (p : FilterGraphParameter) (st : FilterState) : FilterState := {| fs_graph := fs_graph st; fgp := p; ifps := ifps st; ofps := ofps st |}.
Definition set_ifps (l : list InputFilterParameter) (st : FilterState) : FilterState := {| fs_graph := fs_graph st; fgp := fgp st; ifps := l; ofps := ofps st |}.
Definition set_ofps (l : list OutputFilterParameter) (st : FilterState) : FilterState := {| fs_graph := fs_graph st; fgp := fgp st; ifps := ifps st; ofps := l |}.

Definition no_graph (st : FilterState) : bool := match fs_graph st with None => true | Some _ => false end.

Definition ifilter_has_all_input_formats (l : list InputFilterParameter) : bool := forallb (fun i => 0 <=? p_format (ip_params i)) l.

Definition graph_error (e : FilterGraphOperationError.FilterGraphOperationError) : Error := Error.FilterGraph e.

Definition parse_error (ret : Z) : Error := graph_error (FilterGraphOperationError.ParseError (FilterGraphParseError.FilterGraphParseError_from ret)).

Definition add_frame_error (ret : Z) : Error := graph_error (FilterGraphOperationError.BufferSourceAddFrameError (FilterGraphError.FilterGraphError_from ret)).

(** ** Building the graph *)

Definition set_hw_frames (h : option Z) (p : FrameParams) : FrameParams :=
  {| p_format := p_format p; p_width := p_width p; p_height := p_height p; p_sar := p_sar p; p_color_space := p_color_space p;
     p_color_range := p_color_range p; p_sample_rate := p_sample_rate p; p_ch_layout := p_ch_layout p; p_hw_frames := h; p_matrix := p_matrix p |}.

(** The filter of an input is gone, and the frames' context of its hardware, too. *)
Definition cleanup_input (i : InputFilterParameter) : InputFilterParameter :=
  set_ip_filter None (displaymatrix_applied i) (set_ip_params (ip_time_base i) (set_hw_frames None (ip_params i)) (displaymatrix i) i).

Definition cleanup_filtergraph (st : FilterState) : FilterState :=
  {| fs_graph := None; fgp := fgp st; ifps := map cleanup_input (ifps st); ofps := map (set_op_filter None) (ofps st) |}.

(** [graph_is_meta] and [filter_is_buffersrc] *)
Definition filter_is_buffersrc (c : FilterContext) : bool := (fc_inputs c =? 0)%nat && (String.eqb (fc_name c) "buffer" || String.eqb (fc_name c) "abuffer").

Definition graph_is_meta (g : FGraph) : bool :=
  forallb (fun c => metadata_only c || (fc_outputs c =? 0)%nat || filter_is_buffersrc c) (graph_filters g).

(** The open ends are configured and the graph, too. *)
Definition build_graph (fg_index : nat) (graph_desc : string) (device : option (option Z)) (st : FilterState)
    : Conf (list InputFilterParameter * list OutputFilterParameter) :=
  let* ends := graph_parse graph_desc device in
  let* ifps := configure_all (configure_input_filter fg_index) (ifps st) (fst ends) in
  let* ofps := configure_all configure_output_filter (ofps st) (snd ends) in
  let* _ := checked avfilter_graph_config in
  conf_ret (ifps, ofps).

(** The loop over the sinks; [ret] is the last result. *)
Fixpoint read_sinks (g : FGraph) (l : list OutputFilterParameter) : outcome (Z * list OutputFilterParameter) :=
  match l with
  | [] => Ret (0, [])
  | o :: l =>
    f ← need (op_filter o);
    let ret := fst (sink_ch_layout f g) in
    let o := set_op_sink g f o in
    if ret <? 0 then Ret (ret, o :: l)
    else
      '(last, rest) ← read_sinks g l;
      Ret (if l is [] then ret else last, o :: rest)
  end.

(** The queue of one input; the frames behind one that the source does not take are
    tried, too, and [ret] is the result of the last. *)
Fixpoint flush_queue (src : option nat) (q : list FilterFrame) (ret : Z) (g : FGraph) : outcome (Z * FGraph) :=
  match q with
  | [] => Ret (ret, g)
  | f :: q =>
    s ← need src;
    let '(ret, g) := av_buffersrc_add_frame_flags false s (Some f) g in
    flush_queue src q ret g
  end.

Definition is_subtitle (i : InputFilterParameter) : bool := bool_decide (ip_type i = AVMEDIA_TYPE_SUBTITLE).

Definition flush_input (st : Z * FGraph) (i : InputFilterParameter) : outcome (Z * FGraph) :=
  if is_subtitle i then Ret st else flush_queue (ip_filter i) (frame_queue i) (fst st) (snd st).

(** The inputs that have ended; with the code of an error, or whether there are some. *)
Fixpoint send_ends (l : list InputFilterParameter) (some : bool) (g : FGraph) : outcome ((Z + bool) * FGraph) :=
  match l with
  | [] => Ret (inr some, g)
  | i :: l =>
    if ip_eof i then
      s ← need (ip_filter i);
      let '(ret, g) := av_buffersrc_add_frame_flags false s None g in
      if ret <? 0 then Ret (inl ret, g) else send_ends l true g
    else send_ends l some g
  end.

Definition empty_queue (i : InputFilterParameter) : InputFilterParameter := set_ip_queue [] (ip_eof i) i.

(** The ends are sent, and they go through the graph. *)
Definition start_ends (st : FilterState) (g : FGraph) : outcome (result unit Error * FilterState) :=
  '(r, g) ← send_ends (ifps st) false g;
  match r with
  | inl ret => Ret (Err (add_frame_error ret), cleanup_filtergraph st)
  | inr false => Ret (Ok tt, set_graph (Some g) st)
  | inr true =>
    let '(ret, g) := avfilter_graph_request_oldest g in
    if (ret <? 0) && negb (ret =? AVERROR_AGAIN) && negb (ret =? AVERROR_EOF) then
      Ret (Err (graph_error (FilterGraphOperationError.RequestOldestError (FilterGraphError.FilterGraphError_from ret))), cleanup_filtergraph st)
    else Ret (Ok tt, set_graph (Some g) st)
  end.

(** Behind [avfilter_graph_config]: the sinks are read, the queued frames are sent.
    Without memory for a frame of a queue the graph stays. *)
Definition start_graph (mem : Memory) (st : FilterState) (g : FGraph) : outcome (result unit Error * FilterState) :=
  let st := set_fgp (set_is_meta (graph_is_meta g) (fgp st)) (set_graph (Some g) st) in
  '(ret, ofps') ← read_sinks g (ofps st);
  let st := set_ofps ofps' st in
  if ret <? 0 then Ret (Err (parse_error ret), cleanup_filtergraph st)
  else if negb (bool_decide (mem = Enough)) && existsb (fun i => negb (is_subtitle i) && negb (bool_decide (frame_queue i = []))) (ifps st) then
    Ret (Err (add_frame_error AVERROR_OUT_OF_MEMORY), st)
  else
    '(ret, g) ← foldM flush_input (ret, g) (ifps st);
    let st := set_ifps (map empty_queue (ifps st)) (set_graph (Some g) st) in
    if ret <? 0 then Ret (Err (add_frame_error ret), cleanup_filtergraph st) else start_ends st g.

Definition configure_filtergraph (fg_index : nat) (graph_desc : string) (device : option (option Z)) (mem : Memory) (st : FilterState)
    : outcome (result unit Error * FilterState) :=
  let st := cleanup_filtergraph st in
  '(r, g) ← build_graph fg_index graph_desc device st avfilter_graph_alloc;
  match r with
  | inl ret => Ret (Err (parse_error ret), st)
  | inr (ifps, ofps) => start_graph mem (set_ofps ofps (set_ifps ifps st)) g
  end.

(** ** Reading *)

(** The first input that has neither a format nor ended. *)
Fixpoint input_without_format (l : list InputFilterParameter) : option nat :=
  match l with
  | [] => None
  | i :: l => if (p_format (ip_params i) <? 0) && negb (ip_eof i) then Some (ip_index i) else input_without_format l
  end.

Definition fg_read_frames (mem : Memory) (fuel : nat) (st : FilterState) : outcome (Z * FilterState) :=
  match fs_graph st with
  | None =>
    match input_without_format (ifps st) with
    | Some i => Ret (0, set_fgp (set_next_in i (fgp st)) st)
    | None => Ret (AVERROR_BUG, st)
    end
  | Some g =>
    '(ret, g, p, l) ← read_loop mem fuel g (fgp st) (ifps st) (ofps st);
    Ret (ret, set_ofps l (set_fgp p (set_graph (Some g) st)))
  end.

(** ** Frames of an input *)

(** What of the input a frame changes. *)
Definition VIDEO_CHANGED : Z := 1.
Definition AUDIO_CHANGED : Z := 2.
Definition MATRIX_CHANGED : Z := 4.
Definition HWACCEL_CHANGED : Z := 8.

Definition media_changed (i : InputFilterParameter) (f : FilterFrame) : Z :=
  let p := ip_params i in
  let q := ff_params f in
  match ip_type i with
  | AVMEDIA_TYPE_AUDIO =>
    if negb (p_format p =? p_format q) || negb (p_sample_rate p =? p_sample_rate q)
       || negb (av_channel_layout_compare (p_ch_layout p) (p_ch_layout q) =? 0) then AUDIO_CHANGED else 0
  | AVMEDIA_TYPE_VIDEO =>
    if negb (p_format p =? p_format q) || negb (p_width p =? p_width q) || negb (p_height p =? p_height q)
       || negb (p_color_space p =? p_color_space q) || negb (p_color_range p =? p_color_range q) then VIDEO_CHANGED else 0
  | _ => 0
  end.

Definition matrix_changed (i : InputFilterParameter) (f : FilterFrame) : Z :=
  match p_matrix (ff_params f) with
  | Some m => if negb (displaymatrix_present i) || negb (bool_decide (m = displaymatrix i)) then MATRIX_CHANGED else 0
  | None => if displaymatrix_present i then MATRIX_CHANGED else 0
  end.

Definition hwaccel_changed (i : InputFilterParameter) (f : FilterFrame) : Z :=
  if bool_decide (p_hw_frames (ip_params i) = p_hw_frames (ff_params f)) then 0 else HWACCEL_CHANGED.

Definition need_reinit (i : InputFilterParameter) (f : FilterFrame) : Z :=
  Z.lor (Z.lor (media_changed i f) (matrix_changed i f)) (hwaccel_changed i f).

(** A reference to the frames' context of another hardware needs memory; the matrix is
    kept when there is none. *)
Definition ifilter_parameters_from_frame (mem : Memory) (f : FilterFrame) (i : InputFilterParameter) : result InputFilterParameter Error :=
  let hw := p_hw_frames (ff_params f) in
  if negb (bool_decide (mem = Enough)) && bool_decide (is_Some hw) && negb (bool_decide (hw = p_hw_frames (ip_params i))) then
    Err (graph_error (FilterGraphOperationError.BufferReplaceoseError FilterGraphError.OutOfMemory))
  else
    let base := if bool_decide (ip_type i = AVMEDIA_TYPE_AUDIO) then {| num := 1; den := p_sample_rate (ff_params f) |} else ff_time_base f in
    Ok (set_ip_params base (ff_params f) (default (displaymatrix i) (p_matrix (ff_params f))) i).

(** The reasons that are printed: [CString::new], with [unwrap], of literals that end in
    a zero byte. *)
Definition with_nul (s : string) : string := (s ++ String NUL "")%string.

Definition change_messages : list (Z * string) :=
  [(AUDIO_CHANGED, with_nul "audio parameters changed to %d Hz, "); (VIDEO_CHANGED, with_nul "video parameters changed to %s(%s, %s), %dx%d, ");
   (MATRIX_CHANGED, with_nul "display matrix changed, "); (HWACCEL_CHANGED, with_nul "hwaccel changed, ")].

Definition describe_change (changed : Z) : outcome unit :=
  foldM (fun _ m => if Z.land changed (fst m) =? 0 then Ret tt else if contains_char NUL (snd m) then Panic else Ret tt) tt change_messages.

(** The frame as its source gets it. *)
Definition source_frame (i : InputFilterParameter) (f : FilterFrame) : FilterFrame :=
  let f := set_ff_times (rescale_q (ff_pts f) (ff_time_base f) (ip_time_base i)) (rescale_q (ff_duration f) (ff_time_base f) (ip_time_base i)) (ip_time_base i) f in
  if displaymatrix_applied i then
    let p := ff_params f in
    {| ff_pts := ff_pts f; ff_duration := ff_duration f; ff_time_base := ff_time_base f; ff_key := ff_key f; ff_nb_samples := ff_nb_samples f;
       ff_params := {| p_format := p_format p; p_width := p_width p; p_height := p_height p; p_sar := p_sar p; p_color_space := p_color_space p;
                       p_color_range := p_color_range p; p_sample_rate := p_sample_rate p; p_ch_layout := p_ch_layout p; p_hw_frames := p_hw_frames p;
                       p_matrix := None |};
       ff_buf := ff_buf f; ff_content := ff_content f |}
  else f.

Definition add_to_source (n : nat) (f : FilterFrame) (st : FilterState) : outcome (result unit Error * FilterState) :=
  i ← index (ifps st) n;
  src ← need (ip_filter i);
  g ← need (fs_graph st);
  let '(ret, g) := av_buffersrc_add_frame_flags true src (Some (source_frame i f)) g in
  Ret (if ret <? 0 then Err (add_frame_error ret) else Ok tt, set_graph (Some g) st).

(** What is left in the old graph is read before it goes. *)
Definition drain_graph (mem : Memory) (fuel : nat) (changed : Z) (st : FilterState) : outcome (result unit Error * FilterState) :=
  match fs_graph st with
  | None => Ret (Ok tt, st)
  | Some _ =>
    '(ret, st) ← fg_read_frames mem fuel st;
    if ret <? 0 then Ret (Err (graph_error (FilterGraphOperationError.ProcessFramesError (FilterGraphError.FilterGraphError_from ret))), st)
    else _ ← describe_change changed; Ret (Ok tt, st)
  end.

(** The input has the properties of the frame now. *)
Definition reinit (fg_index : nat) (graph_desc : string) (device : option (option Z)) (mem : Memory) (fuel n : nat) (changed : Z) (f : FilterFrame)
    (i : InputFilterParameter) (st : FilterState) : outcome (result unit Error * FilterState) :=
  let st := set_ifps (<[n := i]> (ifps st)) st in
  if negb (ifilter_has_all_input_formats (ifps st)) then
    Ret (Ok tt, set_ifps (<[n := set_ip_queue (frame_queue i ++ [f]) (ip_eof i) i]> (ifps st)) st)
  else
    '(r, st) ← drain_graph mem fuel changed st;
    match r with
    | Err e => Ret (Err e, st)
    | Ok _ =>
      '(r, st) ← configure_filtergraph fg_index graph_desc device mem st;
      match r with Err e => Ret (Err e, st) | Ok _ => add_to_source n f st end
    end.

Definition fg_send_frame (fg_index : nat) (graph_desc : string) (device : option (option Z)) (mem : Memory) (fuel n : nat) (f : FilterFrame) (st : FilterState)
    : outcome (result unit Error * FilterState) :=
  i ← index (ifps st) n;
  if negb (need_reinit i f =? 0) || no_graph st then
    match ifilter_parameters_from_frame mem f i with
    | Err e => Ret (Err e, st)
    | Ok i' => reinit fg_index graph_desc device mem fuel n (need_reinit i f) f i' st
    end
  else add_to_source n f st.

(** ** The end of an input *)

Definition q_pair (q : AVRational) : Z * Z := (num q, den q).

(** A graph was never built: the parameters of the decoder. *)
Definition fallback_params (i : InputFilterParameter) : InputFilterParameter :=
  let p := ip_params i in
  let q := ff_params (ip_fallback i) in
  set_ip_params (ff_time_base (ip_fallback i))
    {| p_format := p_format q; p_width := p_width q; p_height := p_height q; p_sar := p_sar q; p_color_space := p_color_space q;
       p_color_range := p_color_range q; p_sample_rate := p_sample_rate q; p_ch_layout := p_ch_layout q; p_hw_frames := p_hw_frames p;
       p_matrix := p_matrix p |} (displaymatrix i) i.

(** The time of a null frame is read, when the input has a filter. *)
Definition close_source (src n : nat) (f : option FilterFrame) (i : InputFilterParameter) (st : FilterState) : outcome (result unit Error * FilterState) :=
  f ← need f;
  p ← av_rescale_q_rnd (ff_pts f) (q_pair (ff_time_base f)) (q_pair (ip_time_base i)) (Z.lor AV_ROUND_NEAR_INF AV_ROUND_PASS_MINMAX);
  g ← need (fs_graph st);
  let '(ret, g) := av_buffersrc_close src p g in
  Ret (if ret <? 0 then Err (graph_error (FilterGraphOperationError.BufferSourceCloseError (FilterGraphError.FilterGraphError_from ret))) else Ok tt,
       set_graph (Some g) st).

Definition format_is_known (n : nat) (st : FilterState) : outcome (result unit Error * FilterState) :=
  i ← index (ifps st) n;
  Ret (if p_format (ip_params i) <? 0 then Err (graph_error FilterGraphOperationError.InvalidData) else Ok tt, st).

Definition fg_send_eof (fg_index : nat) (graph_desc : string) (device : option (option Z)) (mem : Memory) (n : nat) (f : option FilterFrame) (st : FilterState)
    : outcome (result unit Error * FilterState) :=
  i ← index (ifps st) n;
  if ip_eof i then Ret (Ok tt, st)
  else
    let i := set_ip_queue (frame_queue i) true i in
    let st := set_ifps (<[n := i]> (ifps st)) st in
    match ip_filter i with
    | Some src => close_source src n f i st
    | None =>
      if p_format (ip_params i) <? 0 then
        let st := set_ifps (<[n := fallback_params i]> (ifps st)) st in
        if ifilter_has_all_input_formats (ifps st) then
          '(r, st) ← configure_filtergraph fg_index graph_desc device mem st;
          match r with Err e => Ret (Err e, st) | Ok _ => format_is_known n st end
        else format_is_known n st
      else format_is_known n st
    end.

(** ** The thread *)

(** What the channel gives within 100 ms: a frame for an input; whether the task is to
    stop when the frame was sent.  A stop is seen behind every receipt. *)
Inductive FilterReceipt :=
  | FrameIn (mem : Memory) (input : nat) (f : option FilterFrame) (stops : bool)
  | FrameTimeout
  | FrameDisconnected
  | FilterStopping.

(** The state, the flags of the inputs, the wish that the controller knows of and those
    it was told, and the errors. *)
Record ThreadState := {
  task : FilterState;
  finished_flags : list bool;
  best_input : nat;
  wishes : list nat;
  errors : list Error
}.

Definition set_filter_state (st : FilterState) (t : ThreadState) : ThreadState :=
  {| task := st; finished_flags := finished_flags t; best_input := best_input t; wishes := wishes t; errors := errors t |}.
Definition add_task_error (e : Error) (t : ThreadState) : ThreadState :=
  {| task := task t; finished_flags := finished_flags t; best_input := best_input t; wishes := wishes t; errors := errors t ++ [e] |}.
Definition filter_receive_finish (n : nat) (t : ThreadState) : outcome ThreadState :=
  l ← update (finished_flags t) n true;
  Ret {| task := task t; finished_flags := l; best_input := best_input t; wishes := wishes t; errors := errors t |}.

(** The controller is told which input is wanted, when that has changed. *)
Definition update_wish (t : ThreadState) : ThreadState :=
  let i := next_in (fgp (task t)) in
  if (i =? best_input t)%nat then t
  else {| task := task t; finished_flags := finished_flags t; best_input := i; wishes := wishes t ++ [i]; errors := errors t |}.

Definition source_ended (e : Error) : bool :=
  match e with
  | Error.FilterGraph (FilterGraphOperationError.BufferSourceAddFrameError FilterGraphError.EOF) => true
  | _ => false
  end.

(** A frame without a buffer is the end of its input. *)
Definition receive_filtered (fg_index : nat) (graph_desc : string) (device : option (option Z)) (mem : Memory) (fuel n : nat) (f : option FilterFrame)
    (st : FilterState) : outcome (result unit Error * FilterState) :=
  i ← index (ifps st) n;
  if is_subtitle i then Ret (Ok tt, st)
  else match f with
  | Some x => if ff_buf x then fg_send_frame fg_index graph_desc device mem fuel n x st else fg_send_eof fg_index graph_desc device mem n f st
  | None => fg_send_eof fg_index graph_desc device mem n f st
  end.

(** Behind a frame that was sent, the graph is read: whether the loop goes on. *)
Definition read_graph (mem : Memory) (fuel : nat) (t : ThreadState) : outcome (bool * ThreadState) :=
  '(ret, st) ← fg_read_frames mem fuel (task t);
  let t := set_filter_state st t in
  Ret (if ret =? AVERROR_EOF then (false, t)
       else if ret <? 0 then
         (false, add_task_error (graph_error (FilterGraphOperationError.ProcessFramesError (FilterGraphError.FilterGraphError_from ret)))
                   (set_filter_state (cleanup_filtergraph st) t))
       else (true, t)).

(** One frame: whether the loop goes on. *)
Definition one_frame (fg_index : nat) (graph_desc : string) (device : option (option Z)) (fuel : nat) (mem : Memory) (n : nat) (f : option FilterFrame)
    (stops : bool) (t : ThreadState) : outcome (bool * ThreadState) :=
  done ← index (finished_flags t) n;
  if done : bool then Ret (true, t)
  else
    '(r, st) ← receive_filtered fg_index graph_desc device mem fuel n f (task t);
    let t := set_filter_state st t in
    match r with
    | Err e =>
      if source_ended e then
        t ← filter_receive_finish n t;
        if stops then Ret (false, t) else read_graph mem fuel t
      else Ret (false, add_task_error e t)
    | Ok _ => if stops then Ret (false, t) else read_graph mem fuel t
    end.

(** The loop; the channel is closed behind the receipts. *)
Fixpoint filter_loop (fg_index : nat) (graph_desc : string) (device : option (option Z)) (fuel : nat) (t : ThreadState) (l : list FilterReceipt)
    : outcome ThreadState :=
  let t := update_wish t in
  match l with
  | [] | FrameDisconnected :: _ | FilterStopping :: _ => Ret t
  | FrameTimeout :: l => filter_loop fg_index graph_desc device fuel t l
  | FrameIn mem n f stops :: l =>
    '(goes_on, t) ← one_frame fg_index graph_desc device fuel mem n f stops t;
    if goes_on : bool then filter_loop fg_index graph_desc device fuel t l else Ret t
  end.

(** [filter_graph_init]: the inputs with their fallback frames; the outputs with their
    channels and flags. *)
Definition input_parameters (g : FilterGraph) (fallbacks : list FilterFrame) : list InputFilterParameter :=
  zip_with (fun '(n, i) f => InputFilterParameter_new n (if_name i) (if_media i) (if_opts i) f) (imap (fun n i => (n, i)) (fg_inputs g)) fallbacks.

Definition output_parameters (g : FilterGraph) (dsts : list (option FilterSender * nat * option nat)) : list OutputFilterParameter :=
  zip_with (fun o '(d, flags, unset) => OutputFilterParameter_new (of_media o) (of_opts o) d (of_fg_input_index o) flags unset) (fg_outputs g) dsts.

Definition thread_start (g : FilterGraph) (fallbacks : list FilterFrame) (dsts : list (option FilterSender * nat * option nat)) : ThreadState :=
  {| task := {| fs_graph := None; fgp := FilterGraphParameter_default; ifps := input_parameters g fallbacks; ofps := output_parameters g dsts |};
     finished_flags := repeat false (List.length (fg_inputs g)); best_input := match fg_node g with Filter _ best => best | Demux _ => 0%nat end;
     wishes := []; errors := [] |}.

Definition filter_graph_init `{Hw : AvHw} (g : FilterGraph) (fallbacks : list FilterFrame) (dsts : list (option FilterSender * nat * option nat)) (ds : Devices)
    : outcome (result ThreadState Error * Devices) :=
  '(err, ds) ← (match hw_device g with Some d => init_filter_hw_device d ds | None => Ret (0, ds) end);
  Ret (if err <? 0 then Err (parse_error err) else Ok (thread_start g fallbacks dsts), ds).

(** Behind the loop: a null frame to every output, also to those that have ended. *)
Fixpoint end_outputs (mem : Memory) (p : FilterGraphParameter) (l : list OutputFilterParameter) : outcome (Z * FilterGraphParameter * list OutputFilterParameter) :=
  match l with
  | [] => Ret (0, p, [])
  | o :: l =>
    '(ret, p, o) ← fg_output_frame mem None p o;
    if ret <? 0 then Ret (ret, p, o :: l)
    else '(ret, p, l) ← end_outputs mem p l; Ret (ret, p, o :: l)
  end.

Definition filter_finish (mem : Memory) (t : ThreadState) : outcome ThreadState :=
  let st := task t in
  '(ret, p, l) ← end_outputs mem (fgp st) (ofps st);
  let t := set_filter_state (cleanup_filtergraph (set_ofps l (set_fgp p st))) t in
  Ret (if ret <? 0 then add_task_error (graph_error (FilterGraphOperationError.SendFramesError (FilterGraphError.FilterGraphError_from ret))) t else t).

Definition filter_task (fg_index : nat) (graph_desc : string) (device : option (option Z)) (fuel : nat) (mem : Memory) (t : ThreadState) (l : list FilterReceipt)
    : outcome ThreadState :=
  t ← filter_loop fg_index graph_desc device fuel t l;
  filter_finish mem t.

End FilterTask.
