(* ===== verification/FilterToy.v ===== *)
(** * A small filter graph

    An executable libavfilter on which the promises of the filtering task are tried: its
    graph hands every frame of its sources to its sinks, and remembers what was done. *)

From stdpp Require Import base list option.
From Stdlib Require Import ZArith Lia Ascii String SpecFloat.
From S2P Require Import Choke.
From S2P Require Import Prelude RustInt RustStr Float64 Errors StreamSpec Muxer Rescale MuxTask DemuxTimes DecTimes DecTask DecTimesSpec FilterSync FilterConfig FilterOutput FilterTask.

Local Open Scope string_scope.
Local Open Scope Z_scope.

#[export] Instance toy_sync : AvSync (Dmx := scaling_demux) := {| av_log2 := Z.log2 |}.

(** The angles of the axes. *)
Definition toy_atan2 (y x : f64) : f64 :=
  let half := fdiv f64_PI (f64_of_Z 2) in
  if feq y (f64_of_Z 0) then if flt x (f64_of_Z 0) then f64_PI else f64_of_Z 0
  else if flt y (f64_of_Z 0) then fopp half else half.

#[export] Instance toy_names : AvNames (Sync := toy_sync) := {|
  av_get_sample_fmt_name := fun f => if f =? 1 then Some "s16" else if f =? 8 then Some "fltp" else None;
  av_get_pix_fmt_name := fun f => if f =? 0 then Some "yuv420p" else if f =? 23 then Some "nv12" else None;
  av_color_space_name := fun c => if c =? 1 then Some "bt709" else None;
  av_color_range_name := fun c => if c =? 1 then Some "tv" else None;
  av_channel_layout_check := fun l => 0 <? layout_channels l;
  av_channel_layout_describe := fun l => if layout_channels l =? 2 then "stereo" else "mono";
  f64_atan2 := toy_atan2
|}.

(** The filters that were made, with their arguments; the links; what the sources were
    given; what waits in the graph; and what the sink has. *)
Record ToyGraph := {
  made : list (string * option string);
  wires : list (nat * nat);
  given : list (nat * option FilterFrame);
  waiting : list (option FilterFrame);
  at_sink : list FilterFrame;
  sink_ended : bool
}.

Definition toy_graph : ToyGraph := {| made := []; wires := []; given := []; waiting := []; at_sink := []; sink_ended := false |}.

Definition toy_create (f : string) (args : option string) (g : ToyGraph) : ToyGraph :=
  {| made := made g ++ [(f, args)]; wires := wires g; given := given g; waiting := waiting g; at_sink := at_sink g; sink_ended := sink_ended g |}.

Definition toy_link (a b : nat) (g : ToyGraph) : ToyGraph :=
  {| made := made g; wires := wires g ++ [(a, b)]; given := given g; waiting := waiting g; at_sink := at_sink g; sink_ended := sink_ended g |}.

Definition toy_add (s : nat) (f : option FilterFrame) (g : ToyGraph) : ToyGraph :=
  {| made := made g; wires := wires g; given := given g ++ [(s, f)]; waiting := waiting g ++ [f]; at_sink := at_sink g; sink_ended := sink_ended g |}.

Definition toy_request (g : ToyGraph) : Z * ToyGraph :=
  match waiting g with
  | [] => (if sink_ended g then AVERROR_EOF else AVERROR_AGAIN, g)
  | f :: l =>
    (0, {| made := made g; wires := wires g; given := given g; waiting := l; at_sink := at_sink g ++ option_list f;
           sink_ended := sink_ended g || bool_decide (f = None) |})
  end.

Definition toy_take (g : ToyGraph) : (Z + FilterFrame) * ToyGraph :=
  match at_sink g with
  | [] => (inl (if sink_ended g then AVERROR_EOF else AVERROR_AGAIN), g)
  | f :: l => (inr f, {| made := made g; wires := wires g; given := given g; waiting := waiting g; at_sink := l; sink_ended := sink_ended g |})
  end.

#[export] Instance toy_av : AvGraph (Names := toy_names) := {|
  FGraph := ToyGraph;
  avfilter_graph_alloc := toy_graph;
  graph_filters := fun g => [];
  avfilter_get_by_name := fun _ => true;
  avfilter_graph_create_filter := fun f _ args g => (inr (List.length (made g)), toy_create f args g);
  avfilter_graph_alloc_filter := fun f _ g => (Some (List.length (made g)), toy_create f None g);
  avfilter_init_str := fun _ g => (0, g);
  avfilter_link := fun a _ b _ g => (0, toy_link a b g);
  avfilter_pad_get_type := fun _ _ _ => AVMEDIA_TYPE_VIDEO;
  av_opt_set_int := fun _ _ _ g => (0, g);
  av_opt_set := fun _ key _ g => (if String.eqb key "scale" then 0 else AVERROR_OPTION_NOT_FOUND, g);
  av_opt_set_bin := fun _ _ _ g => (0, g);
  av_opt_find := fun _ key _ => if String.eqb key "text" then Some false else if String.eqb key "blob" then Some true else None;
  av_buffersrc_parameters_set := fun _ _ g => (0, g);
  avfilter_graph_config := fun g => (0, g);
  Segment := unit;
  avfilter_graph_segment_parse := fun _ g => (inr tt, g);
  avfilter_graph_segment_create_filters := fun s g => (0, s, toy_create "null" None g);
  segment_chains := fun _ => [];
  free_opts := fun s => s;
  avfilter_graph_segment_apply := fun _ g => (inr ([{| filter_ctx := 0; pad_index := 0 |}], [{| filter_ctx := 0; pad_index := 0 |}]), g);
  set_hw_device_ctx := fun _ _ g => g;
  av_buffer_ref := fun d => Some d;
  pix_fmt_hwaccel := fun f => Some (f =? 117);
  avio_open := fun path => if String.eqb path "missing" then AVERROR 2 else 0;
  avio_size := fun _ => 3;
  avio_read := fun _ n => (n, [1; 2; 3]);
  parameters_alloc := true;
  bprint_complete := true
|}.

#[export] Instance toy_filter : AvFilter (Gr := toy_av) := {|
  av_channel_layout_compare := fun a b => if layout_channels a =? layout_channels b then 0 else 1;
  av_buffersrc_add_frame_flags := fun _ s f g => (0, toy_add s f g);
  av_buffersrc_close := fun s _ g => (0, toy_add s None g);
  av_buffersrc_get_nb_failed_requests := fun s g => Z.of_nat (List.length (List.filter (fun x => (fst x =? s)%nat) (given g)));
  avfilter_graph_request_oldest := toy_request;
  av_buffersink_get_frame := fun _ g => toy_take g;
  sink_format := fun _ _ => 0;
  sink_w := fun _ _ => 640;
  sink_h := fun _ _ => 360;
  sink_colorspace := fun _ _ => 1;
  sink_color_range := fun _ _ => 1;
  sink_time_base := fun _ _ => {| num := 1; den := 1000 |};
  sink_sar := fun _ _ => {| num := 1; den := 1 |};
  sink_sample_rate := fun _ _ => 48000;
  sink_frame_rate := fun _ _ => {| num := 25; den := 1 |};
  sink_ch_layout := fun _ _ => (0, {| layout_order := 1; layout_channels := 2; layout_mask := 3 |})
|}.

(** ** Frames, inputs and outputs *)

Definition video_params (format : Z) (hw : option Z) : FrameParams :=
  {| p_format := format; p_width := 640; p_height := 360; p_sar := {| num := 1; den := 1 |}; p_color_space := 1; p_color_range := 1; p_sample_rate := 0;
     p_ch_layout := empty_layout; p_hw_frames := hw; p_matrix := None |}.

Definition video_frame (p : Z) (l : list Z) : FilterFrame :=
  {| ff_pts := p; ff_duration := 40; ff_time_base := {| num := 1; den := 1000 |}; ff_key := true; ff_nb_samples := 0; ff_params := video_params 0 None;
     ff_buf := true; ff_content := l |}.

Definition set_frame_params (q : FrameParams) (f : FilterFrame) : FilterFrame :=
  {| ff_pts := ff_pts f; ff_duration := ff_duration f; ff_time_base := ff_time_base f; ff_key := ff_key f; ff_nb_samples := ff_nb_samples f; ff_params := q;
     ff_buf := ff_buf f; ff_content := ff_content f |}.

Definition toy_input_options : InputFilterOptions := if_opts (InputFilter_new "" AVMEDIA_TYPE_VIDEO "in" "0:v").

Definition toy_input (n : nat) : InputFilterParameter :=
  InputFilterParameter_new n "in" AVMEDIA_TYPE_VIDEO toy_input_options (set_frame_params no_params (video_frame AV_NOPTS_VALUE [])).

Definition toy_options (m : VSyncMethod) : OutputFilterOptions :=
  let o := OutputFilterOptions_new in
  {| ofo_name := "out"; ofo_enc := None; formats := Some [0; 23]; audio_format := audio_format o; audio_formats := audio_formats o;
     ofo_framerate := {| num := 25; den := 1 |}; framerates := framerates o; color_spaces := color_spaces o; color_ranges := color_ranges o;
     ofo_vsync_method := Some m; ofo_sample_rate := 0; sample_rates := sample_rates o; ch_layout := ch_layout o; ch_layouts := ch_layouts o;
     trim_start_us := None; trim_duration_us := None; ofo_ts_offset := None; ofo_flags := 0 |}.

Definition listener : option FilterSender := Some {| room := None; sent := [] |}.

Definition toy_output (m : VSyncMethod) : OutputFilterParameter := OutputFilterParameter_new AVMEDIA_TYPE_VIDEO (toy_options m) listener 0 0 None.

Definition toy_state (m : VSyncMethod) : FilterState :=
  {| fs_graph := None; fgp := FilterGraphParameter_default; ifps := [toy_input 0]; ofps := [toy_output m] |}.

Definition toy_thread (m : VSyncMethod) : ThreadState :=
  {| task := toy_state m; finished_flags := [false]; best_input := 0; wishes := []; errors := [] |}.

(** The times and the contents that were sent, and a null frame as [None]. *)
Definition shown (b : FilterBox) : option (Z * list Z) := option_map (fun f => (ff_pts f, ff_content f)) (fb_frame b).

Definition toy_log (t : ThreadState) : list (list (option (Z * list Z))) * list Error :=
  (map (fun o => map shown (match op_dst o with Some d => sent d | None => [] end)) (ofps (task t)), errors t).

Definition toy_desc : string := "null".

Definition toy_run (m : VSyncMethod) (l : list FilterReceipt) : option (list (list (option (Z * list Z))) * list Error) :=
  match filter_task (Prof := release_profile) 0 toy_desc None 20 Enough (toy_thread m) l with Ret t => Some (toy_log t) | _ => None end.

Definition receipt (f : FilterFrame) : FilterReceipt := FrameIn Enough 0 (Some f) false.
