(* ===== verification/FilterBuildSpec.v ===== *)
(** * The filters that are added to a graph

    The buffer source of an input, the filters that turn its pictures and its trim
    filter stand in a row that ends at the input of the graph; the filter for the formats
    of an output and its trim filter, in a row that ends at its sink.  Nothing is assumed
    of libavfilter.  An option whose value is in a file is never set. *)

From stdpp Require Import base list option strings relations.
From Stdlib Require Import ZArith Lia Ascii String.
From S2P Require Import Choke.
From S2P Require Import Prelude RustInt RustStr Float64 Errors StreamSpec Muxer Rescale MuxTask DemuxTimes DecTimesSpec DecTask FilterSync FilterConfig FilterOutput FilterTask FilterToy.

Local Open Scope string_scope.
Local Open Scope Z_scope.
Local Open Scope rust_scope.

Section Built.
  Context `{Lib : AvGraph}.

(** ** What was done to a graph *)

(** The calls of libavfilter that succeeded. *)
Inductive Step :=
| Made (kind : string) (args : option string) (c : nat)
| Linked (a : nat) (p : Z) (b : nat) (q : Z)
| Optioned (c : nat) (k : string) (v : Z)
| Initialised (c : nat)
| Parametrised (c : nat) (h : option Z).

Definition called (s : Step) (g g' : FGraph) : Prop :=
  match s with
  | Made kind args c =>
    (exists n, avfilter_graph_create_filter kind n args g = (inr c, g')) \/ (args = None /\ exists n, avfilter_graph_alloc_filter kind n g = (Some c, g'))
  | Linked a p b q => exists ret, avfilter_link a p b q g = (ret, g') /\ 0 <= ret
  | Optioned c k v => exists ret, av_opt_set_int c k v g = (ret, g') /\ 0 <= ret
  | Initialised c => exists ret, avfilter_init_str c g = (ret, g') /\ 0 <= ret
  | Parametrised c h => exists ret, av_buffersrc_parameters_set c h g = (ret, g') /\ 0 <= ret
  end.

(** [g'] is what these calls, one behind the other, make of [g]. *)
Fixpoint built (ss : list Step) (g g' : FGraph) : Prop :=
  match ss with [] => g' = g | s :: ss => exists g1, called s g g1 /\ built ss g1 g' end.

Lemma built_app ss1 ss2 g g1 g' : built ss1 g g1 -> built ss2 g1 g' -> built (ss1 ++ ss2)%list g g'.
Proof. revert g. induction ss1 as [|s ss1 IH]; intros g; [by intros -> H|]. intros (g2 & Hc & Hb) H. exists g2. split; [done|by apply IH]. Qed.

(** The filters that were made, and the links. *)
Definition filters_of (ss : list Step) : list (string * option string * nat) := ss ≫= fun s => match s with Made kind args c => [(kind, args, c)] | _ => [] end.
Definition links_of (ss : list Step) : list (nat * Z * (nat * Z)) := ss ≫= fun s => match s with Linked a p b q => [(a, p, (b, q))] | _ => [] end.

Lemma filters_app ss1 ss2 : filters_of (ss1 ++ ss2)%list = (filters_of ss1 ++ filters_of ss2)%list.
Proof. unfold filters_of. apply bind_app. Qed.

Lemma links_app ss1 ss2 : links_of (ss1 ++ ss2)%list = (links_of ss1 ++ links_of ss2)%list.
Proof. unfold links_of. apply bind_app. Qed.

(** ** Rows *)

(** The links of a row: each filter to the next, from the pad [l] on. *)
Fixpoint chain (l : Last) (cs : list nat) : list (nat * Z * (nat * Z)) := match cs with [] => [] | c :: cs => (l, (c, 0)) :: chain (c, 0) cs end.

(** The pad at its end. *)
Fixpoint tail_of (l : Last) (cs : list nat) : Last := match cs with [] => l | c :: cs => tail_of (c, 0) cs end.

Lemma chain_app l cs1 cs2 : chain l (cs1 ++ cs2)%list = (chain l cs1 ++ chain (tail_of l cs1) cs2)%list.
Proof. revert l. induction cs1 as [|c cs1 IH]; intros l; [done|]. cbn [app chain tail_of]. by rewrite IH. Qed.

Lemma tail_app l cs1 cs2 : tail_of l (cs1 ++ cs2)%list = tail_of (tail_of l cs1) cs2.
Proof. revert l. induction cs1 as [|c cs1 IH]; intros l; [done|]. apply IH. Qed.

(** The calls put the filters [fs], which are [cs], in a row behind [l]. *)
Definition row (l : Last) (fs : list (string * option string)) (cs : list nat) (g g' : FGraph) : Prop :=
  List.length fs = List.length cs /\ exists ss, built ss g g' /\ filters_of ss = zip fs cs /\ links_of ss = chain l cs.

Lemma row_none l g : row l [] [] g g.
Proof. split; [done|]. by exists []. Qed.

Lemma row_app l fs1 cs1 fs2 cs2 g g1 g' : row l fs1 cs1 g g1 -> row (tail_of l cs1) fs2 cs2 g1 g' -> row l (fs1 ++ fs2)%list (cs1 ++ cs2)%list g g'.
Proof.
  intros (H1 & ss1 & Hb1 & Hf1 & Hl1) (H2 & ss2 & Hb2 & Hf2 & Hl2). split; [rewrite !length_app; lia|]. exists (ss1 ++ ss2)%list.
  split_and!; [by eapply built_app|by rewrite filters_app, Hf1, Hf2, zip_with_app|by rewrite links_app, chain_app, Hl1, Hl2].
Qed.

(** One filter: calls that make it, and link it last. *)
Lemma row_one l f c ss g g' :
  built ss g g' -> filters_of ss = [(f, c)] -> links_of ss = [(l, (c, 0))] -> row l [f] [c] g g'.
Proof. intros Hb Hf Hl. split; [done|]. exists ss. split_and!; [done|by rewrite Hf; destruct f|done]. Qed.

(** ** Calls *)

Lemma checked_inr f g u g' : checked f g = Ret (inr u, g') -> exists ret, f g = (ret, g') /\ 0 <= ret.
Proof. unfold checked. destruct (f g) as [ret g1]. destruct (ret <? 0) eqn:E; [done|]. intros [= _ <-]. exists ret. split; [done|lia]. Qed.

Lemma c_unwrap_inr s g u g' : c_unwrap s g = Ret (inr u, g') -> g' = g.
Proof. unfold c_unwrap. destruct (contains_char _ _); [done|]. by intros [= _ <-]. Qed.

Lemma created_inr {A} (f : FGraph -> (Z + A) * FGraph) g c g' : created f g = Ret (inr c, g') -> f g = (inr c, g').
Proof. unfold created. by intros [= H]. Qed.

Lemma set_option_built c k v g u g' :
  set_option c k v g = Ret (inr u, g') -> exists ss, built ss g g' /\ filters_of ss = [] /\ links_of ss = [].
Proof.
  unfold set_option. destruct v as [v|]; [|intros [= _ <-]; by exists []]. intros (ret & H & Hr)%checked_inr. exists [Optioned c k v].
  split; [|done]. exists g'. split; [by exists ret|done].
Qed.

(** A filter that is created with arguments, and linked. *)
Lemma make_and_link kind n args l c g g1 u g2 :
  avfilter_graph_create_filter kind n args g = (inr c, g1) -> checked (avfilter_link (fst l) (snd l) c 0) g1 = Ret (inr u, g2) -> row l [(kind, args)] [c] g g2.
Proof.
  intros Hc (ret & Hl & Hr)%checked_inr. apply (row_one l (kind, args) c [Made kind args c; Linked (fst l) (snd l) c 0]); [|done|by destruct l].
  exists g1. split; [left; by exists n|]. exists g2. split; [by exists ret|done].
Qed.

Lemma insert_filter_row l f g l' g' : insert_filter l f g = Ret (inr l', g') -> exists c, row l [f] [c] g g' /\ l' = (c, 0).
Proof.
  unfold insert_filter. destruct f as [n args]. intros (u1 & g1 & ->%c_unwrap_inr & H)%conf_bind_inr.
  destruct (negb _); [done|]. apply conf_bind_inr in H as (u2 & g2 & ->%c_unwrap_inr & H).
  apply conf_bind_inr in H as (c & g3 & H3%created_inr & H). apply conf_bind_inr in H as (u4 & g4 & H4 & H). injection H as <- <-. exists c. split; [|done].
  by eapply make_and_link.
Qed.

Lemma filters_row fs l g l' g' : conf_fold insert_filter l fs g = Ret (inr l', g') -> exists cs, row l fs cs g g' /\ l' = tail_of l cs.
Proof.
  revert l g. induction fs as [|f fs IH]; intros l g; cbn [conf_fold]; [intros [= <- <-]; exists []; split; [apply row_none|done]|].
  intros (l1 & g1 & (c & H1 & ->)%insert_filter_row & H)%conf_bind_inr. apply IH in H as (cs & H & ->). exists (c :: cs). split; [|done].
  by apply (row_app l [f] [c] fs cs g g1).
Qed.

(** The trim filter, when there is a start or a duration: for video or audio. *)
Definition trim_filters (s d : option Z) (fs : list (string * option string)) : Prop :=
  match s, d with None, None => fs = [] | _, _ => fs = [("trim", None)] \/ fs = [("atrim", None)] end.

Lemma trim_row s d n l g l' g' : insert_trim s d n l g = Ret (inr l', g') -> exists fs cs, trim_filters s d fs /\ row l fs cs g g' /\ l' = tail_of l cs.
Proof.
  intros H. unfold insert_trim in H. unfold trim_filters.
  assert ((s = None /\ d = None /\ l' = l /\ g' = g) \/ exists k c g1, (s <> None \/ d <> None) /\ (k = "trim" \/ k = "atrim") /\ avfilter_graph_alloc_filter k n g = (Some c, g1) /\
    (let* _ := set_option c "durationi" d in let* _ := set_option c "starti" s in let* _ := checked (avfilter_init_str c) in
     let* _ := checked (avfilter_link (fst l) (snd l) c 0) in conf_ret (c, 0)) g1 = Ret (inr l', g')) as [(-> & -> & -> & ->)|(k & c & g1 & Hsd & Hk & Ha & Hrest)].
  { destruct s, d; try (left; by injection H as -> ->); right; revert H; (destruct (bool_decide _); (destruct (negb _); [done|]; destruct (contains_char _ _); [done|])); cbv zeta;
      match goal with |- context [avfilter_graph_alloc_filter ?k n g] => destruct (avfilter_graph_alloc_filter k n g) as [[c|] g1] eqn:E; [|done]; intros H; exists k, c, g1 end;
      split_and!; auto. }
  { exists [], []. split; [done|]. split; [apply row_none|done]. }
  exists [(k, None)], [c]. split; [destruct s, d; (destruct Hk as [->| ->]; auto); by destruct Hsd|].
  apply conf_bind_inr in Hrest as (u1 & g2 & (ss1 & Hb1 & Hf1 & Hl1)%set_option_built & H1). apply conf_bind_inr in H1 as (u2 & g3 & (ss2 & Hb2 & Hf2 & Hl2)%set_option_built & H2).
  apply conf_bind_inr in H2 as (u3 & g4 & (r3 & H3 & Hr3)%checked_inr & H4). apply conf_bind_inr in H4 as (u4 & g5 & (r5 & H5 & Hr5)%checked_inr & H6). injection H6 as <- <-.
  split; [|done]. apply (row_one l (k, None) c (Made k None c :: (ss1 ++ ss2 ++ [Initialised c; Linked (fst l) (snd l) c 0]))).
  - exists g1. split; [right; split; [done|by exists n]|]. eapply built_app; [done|]. eapply built_app; [done|]. exists g4. split; [by exists r3|]. exists g5. split; [by exists r5|done].
  - change (Made k None c :: ?x) with ([Made k None c] ++ x)%list. by rewrite !filters_app, Hf1, Hf2.
  - change (Made k None c :: ?x) with ([Made k None c] ++ x)%list. rewrite !links_app, Hl1, Hl2. by destruct l.
Qed.

Definition format_filters (f args : string) : list (string * option string) := if String.eqb args "" then [] else [(f, Some args)].

Lemma format_row f n args l g l' g' : insert_format f n args l g = Ret (inr l', g') -> exists cs, row l (format_filters f args) cs g g' /\ l' = tail_of l cs.
Proof.
  unfold insert_format, format_filters. destruct (negb _); [done|]. destruct (String.eqb args ""); [intros [= <- <-]; exists []; split; [apply row_none|done]|].
  destruct (contains_char _ _); [done|]. intros (c & g1 & H1%created_inr & H)%conf_bind_inr. apply conf_bind_inr in H as (u & g2 & H2 & H).
  injection H as <- <-. exists [c]. split; [by eapply make_and_link|done].
Qed.

(** ** Ends *)

(** What was done to the graph: the filter [first] of the task's own end was made, and
    then the filters [fs], which stand in a row from [start] to [stop]. *)
Definition in_a_row (first : string * option string * nat) (start : Last) (fs : list (string * option string)) (stop : nat * Z) (g g' : FGraph) : Prop :=
  exists ss cs, built ss g g' /\ List.length fs = List.length cs /\ filters_of ss = first :: zip fs cs /\ links_of ss = (chain start cs ++ [(tail_of start cs, stop)])%list.

Lemma row_joined kind n args c start fs cs stop ss g g1 g2 g3 u g' :
  avfilter_graph_create_filter kind n args g = (inr c, g1) -> built ss g1 g2 -> filters_of ss = [] -> links_of ss = [] -> row start fs cs g2 g3 ->
  checked (avfilter_link (fst (tail_of start cs)) (snd (tail_of start cs)) (fst stop) (snd stop)) g3 = Ret (inr u, g') ->
  in_a_row (kind, args, c) start fs stop g g'.
Proof.
  intros Hc Hb Hf Hl (Hlen & ss2 & Hb2 & Hf2 & Hl2) (ret & Hlast & Hret)%checked_inr.
  set (t := tail_of start cs) in *. exists (Made kind args c :: (ss ++ ss2 ++ [Linked (fst t) (snd t) (fst stop) (snd stop)]))%list, cs.
  change (Made kind args c :: ?x) with ([Made kind args c] ++ x)%list. split_and!; [|done|rewrite !filters_app, Hf, Hf2; cbn; by rewrite app_nil_r|rewrite !links_app, Hl, Hl2; unfold t in *; clear; by destruct stop, (tail_of start cs)].
  exists g1. split; [left; by exists n|]. change ([] ++ ?x)%list with x. eapply built_app; [done|]. eapply built_app; [done|]. exists g'. split; [by exists ret|done].
Qed.

(** The pads of a row that starts at a filter's first pad are first pads. *)
Lemma tail_pad c cs : snd (tail_of (c, 0) cs) = 0.
Proof. revert c. induction cs as [|c' cs IH]; intros c; [done|apply IH]. Qed.

(** The filters between the source of an input and the graph: the rotation of pictures
    that are not in a device, and the trim. *)
Definition input_filters (i : InputFilterParameter) (fs : list (string * option string)) : Prop :=
  exists turns trims, fs = (turns ++ trims)%list /\ trim_filters (ifo_trim_start_us (ip_opts i)) (ifo_trim_end_us (ip_opts i)) trims /\
    turns = if bool_decide (ip_type i = AVMEDIA_TYPE_VIDEO) && autorotate (ip_opts i) && negb (default true (pix_fmt_hwaccel (p_format (ip_params i))))
            then rotation_filters (get_rotation (displaymatrix i)) (displaymatrix i) else [].

(** The source of an input. *)
Definition source_filter (i : InputFilterParameter) : string * option string :=
  if bool_decide (ip_type i = AVMEDIA_TYPE_VIDEO) then ("buffer", Some (video_source_args (ip_time_base i) (ifo_framerate (ip_opts i)) (ip_params i)))
  else ("abuffer", Some (audio_source_args (ip_time_base i) (ip_params i))).

(** The filters between the graph and the sink of an output. *)
Definition output_filters (o : OutputFilterParameter) (fs : list (string * option string)) : Prop :=
  exists trims, trim_filters (trim_start_us (op_opts o)) (trim_duration_us (op_opts o)) trims /\
    fs = ((if bool_decide (media_type (op_times o) = AVMEDIA_TYPE_VIDEO) then format_filters "format" (video_format_args (op_opts o))
           else format_filters "aformat" (audio_format_args (op_opts o))) ++ trims)%list.

Definition sink_filter (o : OutputFilterParameter) : string * option string :=
  (if bool_decide (media_type (op_times o) = AVMEDIA_TYPE_VIDEO) then "buffersink" else "abuffersink", None).

Lemma finish_output_row kind n args sink f fn fargs o e ss g g1 g2 s g' :
  avfilter_graph_create_filter kind n args g = (inr sink, g1) -> built ss g1 g2 -> filters_of ss = [] -> links_of ss = [] ->
  finish_output sink f fn fargs o e g2 = Ret (inr s, g') ->
  s = sink /\ exists trims, trim_filters (trim_start_us (op_opts o)) (trim_duration_us (op_opts o)) trims /\
    in_a_row (kind, args, sink) (filter_ctx e, pad_index e) (format_filters f fargs ++ trims)%list (sink, 0) g g'.
Proof.
  intros Hc Hb Hf Hl. unfold finish_output. intros (l1 & g3 & (cs1 & H1 & ->)%format_row & H)%conf_bind_inr.
  apply conf_bind_inr in H as (l2 & g4 & (fs2 & cs2 & Ht & H2 & ->)%trim_row & H). apply conf_bind_inr in H as (u & g5 & H3 & H). injection H as <- <-. split; [done|].
  exists fs2. split; [done|]. rewrite <-tail_app in H3. eapply row_joined; [done..|by eapply row_app|exact H3].
Qed.

Lemma output_is_connected o e g o' g' :
  (media_type (op_times o) = AVMEDIA_TYPE_VIDEO \/ media_type (op_times o) = AVMEDIA_TYPE_AUDIO) -> configure_output_filter o e g = Ret (inr o', g') ->
  exists sink fs, op_filter o' = Some sink /\ output_filters o fs /\ in_a_row (sink_filter o, sink) (filter_ctx e, pad_index e) fs (sink, 0) g g'.
Proof.
  unfold configure_output_filter, output_filters, sink_filter. intros [Ht|Ht]; rewrite Ht; intros (s & g1 & H & Hr)%conf_bind_inr; injection Hr as <- <-; revert H.
  - unfold configure_output_video_filter. cbv zeta. destruct (contains_char _ _); [done|]. intros (sink & g2 & Hc%created_inr & H)%conf_bind_inr.
    apply (finish_output_row "buffersink" _ None sink _ _ _ o e [] _ _ _ _ _ Hc) in H as (-> & trims & Htr & Hj); [|done..]. exists sink. eexists. split; [done|]. split; [by exists trims|exact Hj].
  - unfold configure_output_audio_filter. cbv zeta. destruct (contains_char _ _); [done|]. intros (sink & g2 & Hc%created_inr & H)%conf_bind_inr.
    apply conf_bind_inr in H as (u & g3 & (ret & Ho & Hret)%checked_inr & H).
    apply (finish_output_row "abuffersink" _ None sink _ _ _ o e [Optioned sink "all_channel_counts" 1] _ _ _ _ _ Hc) in H as (-> & trims & Htr & Hj);
      [|exists g3; split; [by exists ret|done]|done|done]. exists sink. eexists. split; [done|]. split; [by exists trims|exact Hj].
Qed.

Lemma finish_input_row kind n args src i e turns cs ss g g1 g2 g3 u g' :
  avfilter_graph_create_filter kind n args g = (inr src, g1) -> built ss g1 g2 -> filters_of ss = [] -> links_of ss = [] -> row (src, 0) turns cs g2 g3 ->
  finish_input i e (tail_of (src, 0) cs) g3 = Ret (inr u, g') ->
  exists trims, trim_filters (ifo_trim_start_us (ip_opts i)) (ifo_trim_end_us (ip_opts i)) trims /\
    in_a_row (kind, args, src) (src, 0) (turns ++ trims)%list (filter_ctx e, pad_index e) g g'.
Proof.
  intros Hc Hb Hf Hl Hr. unfold finish_input. intros (l1 & g4 & (fs2 & cs2 & Ht & H2 & ->)%trim_row & H)%conf_bind_inr. exists fs2. split; [done|].
  rewrite <-tail_app in H. eapply row_joined; [done..|by eapply row_app|]. rewrite tail_pad. exact H.
Qed.

(** C30. Both ends of a graph.  When a video or audio input was configured, exactly this was
    added to the graph: its buffer source, the filters that turn its pictures, and its
    trim filter if it has a start or an end; and exactly these were linked, each with the
    next, the source to the first of them and the last one to the open end of the graph.
    When an output was configured: its sink, the filter for its formats if there are
    some, and its trim filter; linked in a row from the open end to the sink. *)
Theorem configured_ends_are_connected fg i o e g i' o' g' :
  (ip_type i = AVMEDIA_TYPE_VIDEO \/ ip_type i = AVMEDIA_TYPE_AUDIO) ->
  (media_type (op_times o) = AVMEDIA_TYPE_VIDEO \/ media_type (op_times o) = AVMEDIA_TYPE_AUDIO) ->
  (configure_input_filter fg i e g = Ret (inr i', g') ->
   exists src fs, ip_filter i' = Some src /\ input_filters i fs /\ in_a_row (source_filter i, src) (src, 0) fs (filter_ctx e, pad_index e) g g') /\
  (configure_output_filter o e g = Ret (inr o', g') ->
   exists sink fs, op_filter o' = Some sink /\ output_filters o fs /\ in_a_row (sink_filter o, sink) (filter_ctx e, pad_index e) fs (sink, 0) g g').
Proof.
  intros Hi Ho. split; [|by apply output_is_connected]. unfold configure_input_filter, input_filters, source_filter. destruct Hi as [Ht|Ht]; rewrite Ht.
  - unfold configure_input_video_filter. destruct (negb _); [done|]. cbv zeta. destruct (contains_char _ _); [done|]. intros (src & g1 & Hc%created_inr & H)%conf_bind_inr.
    apply conf_bind_inr in H as (u & g2 & (ret & Hp & Hret)%checked_inr & H). apply conf_bind_inr in H as (turn & g3 & Hturn & H).
    apply conf_bind_inr in H as (l & g4 & (cs & Hrow & ->)%filters_row & H). apply conf_bind_inr in H as (u5 & g5 & H5 & H). injection H as <- <-.
    assert (g3 = g2 /\ turn = autorotate (ip_opts i) && negb (default true (pix_fmt_hwaccel (p_format (ip_params i))))) as [-> ->].
    { revert Hturn. unfold rotates. destruct (autorotate (ip_opts i)); [|by intros [= <- <-]]. destruct (pix_fmt_hwaccel _); [|done]. by intros [= <- <-]. }
    pose proof (fun turns => finish_input_row _ _ _ src i e turns cs [Parametrised src (p_hw_frames (ip_params i))] g g1 g2 g4 u5 g5 Hc) as Hfin.
    edestruct Hfin as (trims & Htr & Hj); [exists g2; split; [by exists ret|done]|done|done|exact Hrow|exact H5|].
    exists src. eexists. split; [done|]. split; [|exact Hj]. eexists _, trims. split; [done|]. by split.
  - unfold configure_input_audio_filter. cbv zeta. intros (u & g1 & ->%c_unwrap_inr & H)%conf_bind_inr. apply conf_bind_inr in H as (src & g2 & Hc%created_inr & H).
    apply conf_bind_inr in H as (u3 & g3 & H3 & H). injection H as <- <-.
    destruct (finish_input_row _ _ _ src i e [] [] [] g g2 g2 g2 u3 g3 Hc) as (trims & Htr & Hj); [done..|apply row_none|exact H3|].
    exists src. eexists. split; [done|]. split; [|exact Hj]. by exists [], trims.
Qed.

End Built.

(** ** Options from files *)

(** An option of that name is found in no filter, but for its slash. *)
Theorem file_options_are_never_set `{Lib : AvGraph} f key value binary g g1 ret :
  av_opt_set f (String "/" key) value g = (ret, g1) -> ret = AVERROR_OPTION_NOT_FOUND -> av_opt_find f key g1 = Some binary ->
  (avio_open value < 0 -> exists e, filter_opt_apply f (String "/" key) value g = Ret (inl e, g1) /\ e < 0) /\
  (0 <= avio_open value -> 0 <= avio_size value -> parameters_alloc = true -> filter_opt_apply f (String "/" key) value g = Panic).
Proof.
  intros Hset -> Hfind. unfold filter_opt_apply. rewrite Hset. rewrite (proj2 (Z.leb_gt 0 AVERROR_OPTION_NOT_FOUND)) by done. cbn [Ascii.eqb Bool.eqb andb]. rewrite Z.eqb_refl. cbn [andb].
  rewrite Hfind. unfold set_from_file, read_binary, file_read. cbv zeta. destruct binary; split.
  - intros Ho. rewrite (proj2 (Z.ltb_lt _ 0)) by done. by exists (avio_open value).
  - intros Ho Hs Ha. rewrite !(proj2 (Z.ltb_ge _ 0)) by done. rewrite Ha. cbn [negb]. destruct (avio_read value _) as [n data]. destruct (negb _); [done|].
    cbn [mbind outcome_bind]. by destruct (av_opt_set_bin f key data g1).
  - intros Ho. rewrite (proj2 (Z.ltb_lt _ 0)) by done. exists AVERROR_IO_ERROR. by split.
  - intros Ho _ _. by rewrite (proj2 (Z.ltb_ge _ 0)) by done.
Qed.

Lemma file_options_are_never_set_witness :
  filter_opt_apply (Lib := toy_av) 0 "/text" "fonts.txt" toy_graph = Panic /\ filter_opt_apply (Lib := toy_av) 0 "/blob" "table.bin" toy_graph = Panic.
Proof.
  split.
  - apply (file_options_are_never_set (Lib := toy_av) 0 "text" "fonts.txt" false toy_graph toy_graph AVERROR_OPTION_NOT_FOUND); [reflexivity|reflexivity|reflexivity|vm_compute; congruence|vm_compute; congruence|reflexivity].
  - apply (file_options_are_never_set (Lib := toy_av) 0 "blob" "table.bin" true toy_graph toy_graph AVERROR_OPTION_NOT_FOUND); [reflexivity|reflexivity|reflexivity|vm_compute; congruence|vm_compute; congruence|reflexivity].
Defined.

(** ** Examples *)

(** An input whose pictures are turned, with a trim filter. *)
Definition turned_input : InputFilterParameter :=
  let o := toy_input_options in
  set_ip_params {| num := 1; den := 1000 |} (video_params 0 None) [0; 65536; 0; -65536; 0; 0; 0; 0; 1073741824]
    (InputFilterParameter_new 0 "in" AVMEDIA_TYPE_VIDEO
       {| ifo_name := ifo_name o; ifo_trim_start_us := Some 0; ifo_trim_end_us := None; ifo_framerate := ifo_framerate o; sub2video_width := 0; sub2video_height := 0;
          autorotate := true; fallback := None |} (video_frame 0 [])).

Lemma configured_ends_are_connected_witness :
  exists i' g' fs, configure_input_filter (Lib := toy_av) 0 turned_input {| filter_ctx := 0; pad_index := 0 |} (toy_create "null" None toy_graph) = Ret (inr i', g') /\
    map fst (made g') = ["null"; "buffer"; "transpose"; "trim"] /\ wires g' = [(1, 2); (2, 3); (3, 0)]%nat /\
    in_a_row (Lib := toy_av) (source_filter (Names := toy_names) turned_input, 1%nat) (1%nat, 0) fs (0%nat, 0) (toy_create "null" None toy_graph) g'.
Proof.
  destruct (configure_input_filter (Lib := toy_av) 0 turned_input {| filter_ctx := 0; pad_index := 0 |} (toy_create "null" None toy_graph))
    as [[[ret|i'] g']| |] eqn:E; [vm_compute in E; discriminate| |vm_compute in E; discriminate..].
  destruct (proj1 (@configured_ends_are_connected _ _ _ _ toy_av 0 turned_input (toy_output VsyncCfr) {| filter_ctx := 0; pad_index := 0 |}
    (toy_create "null" None toy_graph) i' (toy_output VsyncCfr) g' (or_introl eq_refl) (or_introl eq_refl)) E) as (src & fs & Hs & _ & Hc).
  exists i', g', fs. split; [done|]. vm_compute in E. injection E as <- <-. split; [reflexivity|]. split; [reflexivity|]. injection Hs as <-. exact Hc.
Defined.

(** The four ways to hold a camera. *)
Example upright_pictures :
  let filters m := rotation_filters (get_rotation (Lib := toy_names) m) m in
  let u := 65536 in
  filters [u; 0; 0; 0; u; 0; 0; 0; 1073741824] = [] /\ filters [0; u; 0; -u; 0; 0; 0; 0; 1073741824] = [("transpose", Some "clock")] /\
  filters [-u; 0; 0; 0; -u; 0; 0; 0; 1073741824] = [("hflip", None); ("vflip", None)] /\
  filters [0; -u; 0; u; 0; 0; 0; 0; 1073741824] = [("transpose", Some "cclock")] /\ filters (repeat 0 9) = [].
Proof. cbv zeta. repeat split; vm_compute; reflexivity. Qed.

Example format_arguments :
  video_format_args (toy_options VsyncCfr) = "pix_fmts=yuv420p|nv12:" /\ choose_pix_fmts AV_PIX_FMT_NONE (Some [99]) "" = "pix_fmts:".
Proof. repeat split; vm_compute; reflexivity. Qed.
