(* ===== verification/FilterOutputSpec.v ===== *)
(** * The promises of an output of a filter graph

    Whatever is repeated or dropped, the frames keep their order; with a constant rate
    the times of the video are consecutive; and behind the task every output that
    listens was told the end. *)

From stdpp Require Import base list option numbers.
From Stdlib Require Import ZArith Lia.
From S2P Require Import Choke.
From S2P Require Import Prelude RustInt RustStr Float64 Errors StreamSpec Muxer Rescale MuxTask DemuxTimes DecTimesSpec DecTask FilterSync FilterConfig FilterOutput FilterTask FilterToy.

Local Open Scope Z_scope.
Local Open Scope rust_scope.

(** Of three numbers, the one with another on either side. *)
Theorem mid_pred_is_the_median a b c :
  let m := mid_pred a b c in
  (m = a \/ m = b \/ m = c) /\
  2 <= Z.of_nat (length (filter (fun x : Z => x <= m) [a; b; c])) /\ 2 <= Z.of_nat (length (filter (fun x : Z => m <= x) [a; b; c])).
Proof.
  cbv zeta. unfold mid_pred. repeat match goal with |- context [?x <? ?y] => destruct (x <? y) eqn:? end; (split; [tauto|]); rewrite !filter_cons, !filter_nil;
    repeat case_decide; cbn [length]; lia.
Qed.

Section Output.
  Context `{Lib : AvFilter} `{Prof : Profile}.

(** ** Outputs that listen *)

(** The receiver is there, and the flag of the input it feeds is never set. *)
Definition open_output (o : OutputFilterParameter) : Prop :=
  op_unset_reads o = None /\ exists d, op_dst o = Some d /\ room d = None.

Lemma open_not_finished o : open_output o -> output_finished o = (false, o).
Proof. intros [H _]. unfold output_finished. destruct (_ && _); [|done]. by rewrite H. Qed.

Definition sent_boxes (o : OutputFilterParameter) : list FilterBox := match op_dst o with Some d => sent d | None => [] end.

(** The frames that were sent, in their order. *)
Definition sent_frames (o : OutputFilterParameter) : list FilterFrame := omap fb_frame (sent_boxes o).

(** An output that has sent more, and is otherwise the same but for its times. *)
Definition pushed_output (bs : list FilterBox) (o o' : OutputFilterParameter) : Prop :=
  open_output o' /\ sent_boxes o' = (sent_boxes o ++ bs)%list /\ op_opts o' = op_opts o /\
  media_type (op_times o') = media_type (op_times o) /\ vsync_method (op_times o') = vsync_method (op_times o).

Lemma pushed_trans bs1 bs2 o1 o2 o3 : pushed_output bs1 o1 o2 -> pushed_output bs2 o2 o3 -> pushed_output (bs1 ++ bs2) o1 o3.
Proof. unfold pushed_output. intros (_ & -> & -> & -> & ->) (? & -> & -> & -> & ->). split_and!; [done|by rewrite app_assoc|done..]. Qed.

Lemma pushed_times t o :
  open_output o -> media_type t = media_type (op_times o) -> vsync_method t = vsync_method (op_times o) -> pushed_output [] o (set_op_times t o).
Proof. intros Ho Hm Hv. unfold pushed_output. split_and!; [done|by rewrite app_nil_r|done..]. Qed.

Lemma send_out_open f rate o :
  open_output o ->
  exists o', send_out f rate o = Some o' /\ pushed_output [{| fb_frame := f; fb_data := output_data rate o |}] o o' /\ op_times o' = op_times o /\ op_eof o' = op_eof o.
Proof.
  intros (Hu & d & Hd & Hr). unfold send_out, send_filtered. rewrite Hd, Hr. eexists. split; [done|]. split_and!; [|done..].
  unfold pushed_output, sent_boxes, open_output. cbn [set_op_dst op_dst op_unset_reads op_opts op_times room sent]. rewrite Hd. split_and!; eauto.
Qed.

(** ** The loop over the frames *)

(** Whether the last frame is sent in the place [i]. *)
Definition repeats (i nb_prev : Z) (prev : option FilterFrame) : bool :=
  match prev with Some p => (i <? nb_prev) && ff_buf p | None => false end.

(** What is sent for [n] frames from the place [i] on: copies of the last frame, and
    then copies of this one. *)
Definition is_copies (i nb_prev : Z) (n : nat) (prev : option FilterFrame) (f : FilterFrame) (ys : list FilterFrame) : Prop :=
  exists a b, (a + b = n)%nat /\ map ff_content ys = (repeat (ff_content (default f prev)) a ++ repeat (ff_content f) b)%list /\
  (repeats i nb_prev prev = false -> a = 0%nat).

Lemma repeats_before i nb_prev prev : repeats i nb_prev prev = false -> repeats (i + 1) nb_prev prev = false.
Proof. unfold repeats. destruct prev as [p|]; [|done]. destruct (ff_buf p); rewrite ?andb_false_r; [|done]. rewrite !andb_true_r. lia. Qed.

Lemma is_copies_S i nb_prev n prev f f' ys y :
  ff_content f' = ff_content f -> ff_content y = ff_content (if repeats i nb_prev prev then default f prev else f) ->
  is_copies (i + 1) nb_prev n prev f' ys -> is_copies i nb_prev (S n) prev f (y :: ys).
Proof.
  intros Hf Hy (a & b & Hab & Hc & Ha). unfold is_copies. cbn [map]. rewrite Hy, Hc, Hf.
  assert (repeat (ff_content (default f' prev)) a = repeat (ff_content (default f prev)) a) as -> by (by destruct prev; cbn [default from_option]; rewrite ?Hf).
  destruct (repeats i nb_prev prev) eqn:E.
  - exists (S a), b. split_and!; [lia|done|done].
  - assert (a = 0%nat) as -> by (by apply Ha, repeats_before). exists 0%nat, (S b). split_and!; [lia|done|done].
Qed.

Lemma count_video_spec o o' :
  count_video o = Ret o' ->
  exists t, o' = set_op_times t o /\ media_type t = media_type (op_times o) /\ vsync_method t = vsync_method (op_times o) /\
    last_frame (fpsconv_context t) = last_frame (fps o) /\ i64_add (next_pts (op_times o)) 1 = Ret (next_pts t).
Proof.
  unfold count_video. intros H. apply bind_Ret in H as (n & Hn & H). apply bind_Ret in H as (p & Hp & H). apply Ret_inj in H as <-.
  eexists. split; [done|]. by split_and!.
Qed.

Lemma i64_add_small a b : - 2 ^ 63 <= a + b < 2 ^ 63 -> i64_add a b = Ret (a + b).
Proof. intros H. unfold i64_add, i64_sub. cbv zeta. replace (a - - b) with (a + b) by lia. rewrite (proj2 (andb_true_iff _ _)); [done|lia]. Qed.

Lemma frame_in_spec i nb_prev f o :
  frame_in i nb_prev (Some f) o = Some (if repeats i nb_prev (last_frame (fps o)) then default f (last_frame (fps o)) else f).
Proof. unfold frame_in, repeats. destruct (last_frame (fps o)) as [p|]; [|done]. by destruct (_ && _). Qed.

(** The copy that is sent of a frame. *)
Definition copy_of (i nb_prev : Z) (f : FilterFrame) (o : OutputFilterParameter) : FilterFrame :=
  let x := if repeats i nb_prev (last_frame (fps o)) then default f (last_frame (fps o)) else f in
  set_ff_key (dropped_keyframe (fps o) || ff_key x) (set_ff_pts (next_pts (op_times o)) x).

(** One more frame of video. *)
Lemma make_video_frame i nb_prev f o :
  video_output o = true ->
  make_frame Enough i nb_prev (Some f) o = Ret (inr (copy_of i nb_prev f o, Some f), update_fps (set_dropped (last_dropped (fps o)) false (fps o)) o).
Proof. intros Hv. unfold make_frame. rewrite Hv, frame_in_spec. done. Qed.

Definition boxed (ys : list FilterFrame) (bs : list FilterBox) : Prop := map fb_frame bs = map Some ys.

(** Unless the times leave their 64 bits. *)
Definition consecutive (n : nat) (ys : list FilterFrame) (o o' : OutputFilterParameter) : Prop :=
  let start := next_pts (op_times o) in
  - 2 ^ 63 <= start -> start + Z.of_nat n < 2 ^ 63 -> map ff_pts ys = seqZ start (Z.of_nat n) /\ next_pts (op_times o') = start + Z.of_nat n.

Lemma consecutive_S n y ys o o1 o2 :
  ff_pts y = next_pts (op_times o) -> i64_add (next_pts (op_times o)) 1 = Ret (next_pts (op_times o1)) -> consecutive n ys o1 o2 ->
  consecutive (S n) (y :: ys) o o2.
Proof.
  unfold consecutive. cbv zeta. intros Hy Hadd IH Hlo Hhi. rewrite i64_add_small in Hadd by lia. apply Ret_inj in Hadd.
  destruct IH as [Hys Hnext]; [lia..|]. cbn [map]. rewrite Hy, Hys, Hnext, <- Hadd. rewrite (seqZ_cons (next_pts (op_times o))) by lia.
  split; [f_equal; f_equal; lia|lia].
Qed.

Lemma send_video n i nb_prev f p o e p' o' :
  video_output o = true -> open_output o -> send_frames Enough n i nb_prev (Some f) p o = Ret (e, p', o') ->
  exists f' ys bs, e = Sent (Some f') /\ ff_content f' = ff_content f /\ boxed ys bs /\ pushed_output bs o o' /\
    is_copies i nb_prev n (last_frame (fps o)) f ys /\ consecutive n ys o o' /\ last_frame (fps o') = last_frame (fps o).
Proof.
  revert i f p o. induction n as [|n IH]; intros i f p o Hv Ho H.
  - cbn [send_frames] in H. apply Ret_inj in H as [= <- <- <-]. exists f, [], []. split_and!; try done.
    + unfold pushed_output. split_and!; [done|by rewrite app_nil_r|done..].
    + exists 0%nat, 0%nat. by split_and!.
    + intros _ _. split; [done|lia].
  - cbn [send_frames] in H. rewrite make_video_frame in H by done. cbn [mbind outcome_bind] in H.
    set (o1 := update_fps _ o) in H. assert (open_output o1) as Ho1 by done.
    destruct (send_out_open (Some (copy_of i nb_prev f o)) (option_framerate o1) o1 Ho1) as (o2 & Hs & Hp & Ht & _). rewrite Hs in H.
    assert (video_output o2 = true) as Hv2 by (unfold video_output; rewrite Ht; done). rewrite Hv2 in H.
    apply bind_Ret in H as (o3 & H3 & H). apply count_video_spec in H3 as (t & -> & Hm & Hvs & Hl & Hn). unfold fps in Hl. rewrite Ht in Hm, Hvs, Hl, Hn.
    cbn [o1 update_fps set_op_times op_times set_fps next_pts media_type vsync_method fpsconv_context set_dropped last_frame] in Hm, Hvs, Hl, Hn.
    assert (video_output (set_op_times t o2) = true) as Hv3 by (unfold video_output; cbn [set_op_times op_times]; by rewrite Hm). rewrite Hv3 in H.
    set (f1 := if true && (i =? nb_prev) then _ else _) in H.
    assert (exists g, f1 = Some g /\ ff_content g = ff_content f) as (g & -> & Hg) by (unfold f1; destruct (_ && _); by eexists).
    destruct (IH (i + 1) g (set_got_frame p) (set_op_times t o2)) as (f' & ys & bs & -> & Hc & Hb & Hp' & Hcp & Hpts & Hlf); try done.
    { destruct Hp as (Hopen & _). exact Hopen. }
    unfold fps in Hcp, Hlf. cbn [set_op_times op_times] in Hcp, Hlf. rewrite Hl in Hcp, Hlf.
    exists f', (copy_of i nb_prev f o :: ys), ({| fb_frame := Some (copy_of i nb_prev f o); fb_data := output_data (option_framerate o1) o1 |} :: bs).
    split_and!; try done; [by rewrite Hc|..].
    + unfold boxed. cbn [map fb_frame]. by rewrite Hb.
    + change (?x :: bs) with ([x] ++ bs)%list. eapply pushed_trans; [|exact Hp']. clear Hp'.
      destruct Hp as (Hopen & Hsent & Hopts & _ & _). unfold pushed_output. cbn [set_op_times op_times]. split_and!; [exact Hopen|exact Hsent|exact Hopts|done|done].
    + eapply is_copies_S; [exact Hg| |exact Hcp]. done.
    + apply (consecutive_S n _ _ o (set_op_times t o2)); [done|exact Hn|exact Hpts].
Qed.


(** ** One frame *)

(** What the synchronization leaves. *)
Lemma adjust_keeps f tb_dst start x g : adjust_frame_pts_to_encoder_tb f tb_dst start = Ret (x, g) -> ff_content g = ff_content f.
Proof.
  unfold adjust_frame_pts_to_encoder_tb. intros H. apply bind_Ret in H as (bits & _ & H). cbv zeta in H. destruct (ff_pts f =? AV_NOPTS_VALUE).
  - by apply Ret_inj in H as [= _ <-].
  - apply bind_Ret in H as (p & _ & H). by apply Ret_inj in H as [= _ <-].
Qed.

Lemma sync_method_next n next ipts d delta0 delta fd : (sync_method VsyncCfr n next ipts d delta0 delta fd).1.2 = next.
Proof. unfold sync_method. by repeat case_match. Qed.

Lemma sync_keeps f nb t nb' nb_prev t' f' :
  video_sync_process (Some f) nb t = Ret (nb', nb_prev, t', f') ->
  (exists g, f' = Some g /\ ff_content g = ff_content f) /\ media_type t' = media_type t /\ vsync_method t' = vsync_method t /\
  last_frame (fpsconv_context t') = last_frame (fpsconv_context t) /\ (vsync_method t = Some VsyncCfr -> next_pts t' = next_pts t).
Proof.
  unfold video_sync_process. destruct (vsync_method t) as [m|] eqn:Em.
  - cbv zeta. intros H. apply bind_Ret in H as ([x g] & Ha & H). apply adjust_keeps in Ha. cbv beta iota zeta in H.
    destruct (sync_method m _ _ _ _ _ _ _) as [[[a b] next] d] eqn:Es. apply Ret_inj in H as [= <- <- <- <-].
    split_and!; [by eexists|done|done| |].
    + cbn [set_next_pts set_fps fpsconv_context]. unfold sync_finish, push_hist. by destruct (frames_prev_hist _) as [[? ?] ?].
    + intros [= ->]. apply (f_equal (fun z => z.1.2)) in Es. rewrite sync_method_next in Es. by cbn in Es |- *.
  - intros H. apply Ret_inj in H as [= <- <- <- <-]. split_and!; eauto.
Qed.

(** A frame of video that comes from a sink. *)
Lemma output_video f p o ret p' o' :
  video_output o = true -> open_output o -> fg_output_frame Enough (Some f) p o = Ret (ret, p', o') ->
  ret = 0 /\ video_output o' = true /\ exists g ys bs n next, last_frame (fps o') = Some g /\ ff_content g = ff_content f /\ boxed ys bs /\
    pushed_output bs o o' /\ is_copies 0 next n (last_frame (fps o)) f ys /\
    (vsync_method (op_times o) = Some VsyncCfr -> consecutive n ys o o').
Proof.
  intros Hv Ho H. unfold fg_output_frame in H. rewrite open_not_finished, Hv in H by done. cbn [andb orb] in H. rewrite bool_decide_true in H by by eexists.
  cbn [orb] in H. apply bind_Ret in H as ([[[nb nb_prev] t] f1] & Hs & H). apply sync_keeps in Hs as ((f1' & -> & Hc1) & Hm & Hvs & Hl & Hn).
  apply bind_Ret in H as ([[e p1] o1] & Hf & H). apply send_video in Hf as (g & ys & bs & -> & Hg & Hb & Hp & Hcp & Hcs & Hlf).
  2:{ unfold video_output in *. cbn [set_op_times op_times]. by rewrite Hm. }
  2:{ done. }
  assert (video_output o1 = true) as Hv1. { unfold video_output in *. destruct Hp as (_ & _ & _ & -> & _). cbn [set_op_times op_times]. by rewrite Hm. }
  rewrite Hv1 in H. apply Ret_inj in H as [= <- <- <-]. split; [done|]. split; [exact Hv1|].
  exists g, ys, bs, (Z.to_nat nb), nb_prev. unfold fps in Hcp. cbn [set_op_times op_times] in Hcp. rewrite Hl in Hcp. split_and!; [done|congruence|done|..].
  - destruct Hp as (Hopen & Hsent & Hopts & Hm1 & Hv1'). unfold pushed_output. split_and!; [exact Hopen|exact Hsent|exact Hopts|..].
    + cbn [update_fps set_op_times op_times set_fps media_type] in *. congruence.
    + cbn [update_fps set_op_times op_times set_fps vsync_method] in *. congruence.
  - unfold is_copies in *. rewrite Hc1 in Hcp. destruct Hcp as (a & b & Hab & Hys & Ha). exists a, b. split_and!; [done| |done]. rewrite Hys. f_equal.
    unfold fps. by destruct (last_frame (fpsconv_context (op_times o))); cbn [default from_option]; rewrite ?Hc1.
  - intros Hcfr. unfold consecutive in *. cbn [set_op_times op_times update_fps set_fps next_pts] in *. rewrite Hn in Hcs by done. exact Hcs.
Qed.

Lemma choose_keeps rate f t :
  let t' := choose_out_timebase rate f t in
  media_type t' = media_type t /\ vsync_method t' = vsync_method t /\ next_pts t' = next_pts t /\ last_frame (fpsconv_context t') = last_frame (fpsconv_context t).
Proof. cbv zeta. unfold choose_out_timebase. case_bool_decide; [by split_and!|]. cbv zeta. by split_and!. Qed.

Lemma sink_duration_content rate o f : ff_content (sink_duration rate o f) = ff_content f.
Proof. unfold sink_duration. by destruct (_ && _). Qed.

(** The same of a frame as the sink gives it. *)
Lemma sink_video rate base f p o ret p' o' :
  video_output o = true -> open_output o -> sink_output Enough rate base f p o = Ret (ret, p', o') ->
  ret = 0 /\ video_output o' = true /\ exists g ys bs n next, last_frame (fps o') = Some g /\ ff_content g = ff_content f /\ boxed ys bs /\
    pushed_output bs o o' /\ is_copies 0 next n (last_frame (fps o)) f ys /\
    (vsync_method (op_times o) = Some VsyncCfr -> consecutive n ys o o').
Proof.
  intros Hv Ho H. unfold sink_output in H. cbv zeta in H. pose proof (choose_keeps rate f (op_times o)) as (Hm & Hvs & Hn & Hl).
  apply output_video in H as (-> & Hv' & g & ys & bs & n & nbp & Hlg & Hg & Hb & Hp & Hcp & Hcs); [|by unfold video_output in *; cbn [set_op_times op_times]; rewrite Hm|done].
  rewrite sink_duration_content in Hg. split; [done|]. split; [done|]. exists g, ys, bs, n, nbp. split_and!; [done|done|done|..].
  - destruct Hp as (? & ? & ? & Hm' & Hvs'). unfold pushed_output. cbn [set_op_times op_times] in Hm', Hvs'. split_and!; [done|done|done|congruence|congruence].
  - unfold fps in Hcp. cbn [set_op_times op_times] in Hcp. rewrite Hl in Hcp. unfold is_copies in *. rewrite !sink_duration_content in Hcp.
    destruct Hcp as (a & b & Hab & Hys & Ha). exists a, b. split_and!; [done| |done]. rewrite Hys. f_equal. unfold fps.
    destruct (last_frame (fpsconv_context (op_times o))); cbn [default from_option]; rewrite ?sink_duration_content; done.
  - intros Hcfr. unfold consecutive in *. cbn [set_op_times op_times] in Hcs. rewrite Hn, Hvs in Hcs. by apply Hcs.
Qed.

(** The frames of a sink, one behind the other. *)
Fixpoint output_frames (rate base : AVRational) (fs : list FilterFrame) (p : FilterGraphParameter) (o : OutputFilterParameter) : outcome (Z * FilterGraphParameter * OutputFilterParameter) :=
  match fs with
  | [] => Ret (0, p, o)
  | f :: fs =>
    '(ret, p, o) ← sink_output Enough rate base f p o;
    if ret <? 0 then Ret (ret, p, o) else output_frames rate base fs p o
  end.


Definition copies (ns : list nat) (fs : list FilterFrame) : list (list Z) := concat (zip_with (fun n f => repeat (ff_content f) n) ns fs).

Lemma pushed_nil o : open_output o -> pushed_output [] o o.
Proof. intros Ho. unfold pushed_output. split_and!; [done|by rewrite app_nil_r|done..]. Qed.

Lemma boxed_app ys1 ys2 bs1 bs2 : boxed ys1 bs1 -> boxed ys2 bs2 -> boxed (ys1 ++ ys2) (bs1 ++ bs2).
Proof. unfold boxed. rewrite !map_app. congruence. Qed.

(** The same, from any last frame: it may be repeated first. *)
Lemma output_frames_copies rate base fs p o ret p' o' :
  video_output o = true -> open_output o -> output_frames rate base fs p o = Ret (ret, p', o') ->
  ret = 0 /\ exists ys bs a ns, boxed ys bs /\ pushed_output bs o o' /\ length ns = length fs /\
    map ff_content ys = (repeat (default [] (ff_content <$> last_frame (fps o))) a ++ copies ns fs)%list /\ (last_frame (fps o) = None -> a = 0%nat).
Proof.
  revert p o. induction fs as [|f fs IH]; intros p o Hv Ho H.
  { cbn [output_frames] in H. apply Ret_inj in H as [= <- <- <-]. split; [done|]. exists [], [], 0%nat, []. split_and!; try done. by apply pushed_nil. }
  cbn [output_frames] in H. apply bind_Ret in H as ([[r1 p1] o1] & Hf & H). apply sink_video in Hf as (-> & Hv1 & g & ys & bs & n & nbp & Hl & Hg & Hb & Hp & Hcp & _); [|done..].
  cbn in H. destruct (IH p1 o1) as (-> & ys2 & bs2 & a2 & ns & Hb2 & Hp2 & Hns & Hys2 & _); [done|by destruct Hp as (? & _)|done|].
  split; [done|]. destruct Hcp as (a & b & _ & Hys & Ha). exists (ys ++ ys2)%list, (bs ++ bs2)%list, a, ((b + a2)%nat :: ns). split_and!.
  - by apply boxed_app.
  - by eapply pushed_trans.
  - cbn [length]. by rewrite Hns.
  - rewrite map_app, Hys, Hys2, Hl. cbn [fmap option_fmap option_map default from_option]. unfold copies. cbn [zip_with concat]. rewrite Hg, repeat_app, <- !app_assoc.
    destruct (last_frame (fps o)) as [pr|] eqn:E; cbn [default from_option fmap option_fmap option_map]; [done|]. by rewrite Ha.
  - intros E. apply Ha. unfold repeats. by rewrite E.
Qed.

(** C25. Whatever the synchronization of video repeats or drops: what an output sends is
    each of the frames of its sink, so and so many times, in their order. *)
Theorem frames_keep_their_order rate base fs p o ret p' o' :
  video_output o = true -> open_output o -> last_frame (fps o) = None -> output_frames rate base fs p o = Ret (ret, p', o') ->
  ret = 0 /\ exists ys bs ns, boxed ys bs /\ pushed_output bs o o' /\ length ns = length fs /\ map ff_content ys = copies ns fs.
Proof.
  intros Hv Ho Hl H. apply output_frames_copies in H as (-> & ys & bs & a & ns & Hb & Hp & Hns & Hys & Ha); [|done..].
  split; [done|]. exists ys, bs, ns. split_and!; [done..|]. by rewrite Hys, Ha.
Qed.

Lemma consecutive_app n1 n2 ys1 ys2 o1 o2 o3 :
  length ys1 = n1 -> consecutive n1 ys1 o1 o2 -> consecutive n2 ys2 o2 o3 -> consecutive (n1 + n2) (ys1 ++ ys2) o1 o3.
Proof.
  unfold consecutive. cbv zeta. intros Hn H1 H2 Hlo Hhi. destruct H1 as [Hy1 Hp1]; [lia..|]. destruct H2 as [Hy2 Hp2]; [lia..|].
  rewrite map_app, Hy1, Hy2, Hp1. split; [|lia]. rewrite Nat2Z.inj_add, seqZ_app by lia. done.
Qed.

Lemma is_copies_length i nbp n prev f ys : is_copies i nbp n prev f ys -> length ys = n.
Proof. intros (a & b & <- & Hys & _). apply (f_equal length) in Hys. by rewrite length_map, length_app, !repeat_length in Hys. Qed.

(** C26. With a constant rate the times of the frames that are sent are consecutive numbers,
    whatever the times of the frames of the sink: as long as they have 64 bits. *)
Theorem constant_rate_is_constant rate base fs p o ret p' o' :
  video_output o = true -> open_output o -> vsync_method (op_times o) = Some VsyncCfr -> output_frames rate base fs p o = Ret (ret, p', o') ->
  let start := next_pts (op_times o) in
  exists ys bs, boxed ys bs /\ pushed_output bs o o' /\
    (- 2 ^ 63 <= start -> start + Z.of_nat (length ys) < 2 ^ 63 -> map ff_pts ys = seqZ start (Z.of_nat (length ys)) /\
     next_pts (op_times o') = start + Z.of_nat (length ys)).
Proof.
  cbv zeta. intros Hv Ho Hm H. enough (exists ys bs, boxed ys bs /\ pushed_output bs o o' /\ consecutive (length ys) ys o o') as (ys & bs & ? & ? & ?) by (by exists ys, bs).
  revert p o Hv Ho Hm H. induction fs as [|f fs IH]; intros p o Hv Ho Hm H.
  { cbn [output_frames] in H. apply Ret_inj in H as [= <- <- <-]. exists [], []. split_and!; [done|by apply pushed_nil|]. intros _ _. cbn [length]. split; [done|lia]. }
  cbn [output_frames] in H. apply bind_Ret in H as ([[r1 p1] o1] & Hf & H). apply sink_video in Hf as (-> & Hv1 & g & ys & bs & n & nbp & Hl & Hg & Hb & Hp & Hcp & Hcs); [|done..].
  cbn in H. destruct (IH p1 o1) as (ys2 & bs2 & Hb2 & Hp2 & Hcs2); [done|by destruct Hp as (? & _)|destruct Hp as (_ & _ & _ & _ & ->); done|done|].
  apply is_copies_length in Hcp as Hn. exists (ys ++ ys2)%list, (bs ++ bs2)%list. split_and!; [by apply boxed_app|by eapply pushed_trans|].
  rewrite length_app, Hn. eapply consecutive_app; [done|by apply Hcs|done].
Qed.


(** ** The end *)

(** A build without overflow checks, as for a release. *)
Context (Hrelease : overflow_checks = false).

Lemma i64_add_total a b : exists x, i64_add a b = Ret x.
Proof. unfold i64_add, i64_sub. cbv zeta. rewrite Hrelease. destruct (_ && _); by eexists. Qed.

Lemma count_video_total o : exists o', count_video o = Ret o'.
Proof.
  unfold count_video. assert (exists n, uadd 64 (frame_number (fps o)) 1 = Ret n) as [n ->] by (unfold uadd, arith; rewrite Hrelease; destruct (fitsb _ _); by eexists).
  cbn [mbind outcome_bind]. destruct (i64_add_total (next_pts (op_times o)) 1) as [x ->]. by eexists.
Qed.

Lemma sync_end_total nb t : exists n n' t', video_sync_process None nb t = Ret (n, n', t', None) /\ media_type t' = media_type t /\
  vsync_method t' = vsync_method t /\ last_frame (fpsconv_context t') = last_frame (fpsconv_context t).
Proof.
  unfold video_sync_process. destruct (vsync_method t) eqn:E; [|by exists nb, 0, t]. unfold sync_end. cbv zeta.
  destruct (frames_prev_hist (fpsconv_context t)) as [[a b] d] eqn:Eh.
  assert (exists c, (if (mid_pred a b d =? 0) && (0 <? last_dropped (fpsconv_context t))
    then n ← signed 32 (last_dropped (fpsconv_context t) + 1); Ret (set_dropped n (dropped_keyframe (fpsconv_context t)) (fpsconv_context t))
    else Ret (fpsconv_context t)) = Ret c /\ last_frame c = last_frame (fpsconv_context t) /\ frames_prev_hist c = (a, b, d)) as (c & -> & Hl & Hh).
  { destruct (_ && _); [|by eexists]. assert (exists n, signed 32 (last_dropped (fpsconv_context t) + 1) = Ret n) as [n ->]; [|by eexists].
    unfold signed. rewrite Hrelease. destruct (_ && _); by eexists. }
  cbn [mbind outcome_bind]. do 3 eexists. split; [done|]. split_and!; [done|done|]. cbn [set_fps fpsconv_context]. unfold sync_finish, push_hist. by rewrite Hh.
Qed.

(** Copies of the last frame only. *)
Definition repeated (o : OutputFilterParameter) (b : FilterBox) : Prop :=
  exists y, fb_frame b = Some y /\ last_frame (fps o) <> None /\ Some (ff_content y) = ff_content <$> last_frame (fps o).

Lemma repeat_frames n i nb_prev p o :
  video_output o = true -> open_output o ->
  exists p' o' bs, send_frames Enough n i nb_prev None p o = Ret (Sent None, p', o') /\ pushed_output bs o o' /\ Forall (repeated o) bs /\
    (got_frame p = true -> got_frame p' = true).
Proof.
  revert i p o. induction n as [|n IH]; intros i p o Hv Ho.
  { exists p, o, []. split_and!; [done|by apply pushed_nil|by constructor|done]. }
  cbn [send_frames]. unfold make_frame. rewrite Hv. destruct (frame_in i nb_prev None o) as [x|] eqn:Ex.
  2:{ exists p, o, []. split_and!; [done|by apply pushed_nil|by constructor|done]. }
  assert (last_frame (fps o) = Some x) as Hlast. { revert Ex. unfold frame_in. destruct (last_frame (fps o)) as [y|]; [|done]. by destruct (_ && _); intros [= ->]. }
  cbn [video_out mbind outcome_bind]. unfold video_out. cbv zeta. cbn [mbind outcome_bind]. set (o1 := update_fps _ o). assert (open_output o1) as Ho1 by done.
  set (y := set_ff_key _ _). destruct (send_out_open (Some y) (option_framerate o1) o1 Ho1) as (o2 & -> & Hp & Ht & _).
  assert (video_output o2 = true) as -> by (unfold video_output; by rewrite Ht). destruct (count_video_total o2) as [o3 H3]. rewrite H3.
  apply count_video_spec in H3 as (t & -> & Hm & Hvs & Hl & _). unfold fps in Hl. rewrite Ht in Hm, Hvs, Hl. cbn [mbind outcome_bind option_map].
  assert (video_output (set_op_times t o2) = true) as Hv3 by (unfold video_output; cbn [set_op_times op_times]; by rewrite Hm).
  destruct (IH (i + 1) (set_got_frame p) (set_op_times t o2)) as (p' & o' & bs & Hs & Hp' & Hr & Hg); [done|by destruct Hp as (? & _)|].
  exists p', o', ({| fb_frame := Some y; fb_data := output_data (option_framerate o1) o1 |} :: bs).
  split; [by destruct (video_output (set_op_times t o2) && (i =? nb_prev))|]. split_and!; [| |by intros _; apply Hg].
  - change (?x :: bs) with ([x] ++ bs)%list. eapply pushed_trans; [|exact Hp']. destruct Hp as (Hopen & Hsent & Hopts & _ & _).
    unfold pushed_output. split_and!; [exact Hopen|exact Hsent|exact Hopts|exact Hm|exact Hvs].
  - apply Forall_cons; [|revert Hr; apply Forall_impl; unfold repeated, fps; cbn [set_op_times op_times]; rewrite Hl; done].
    exists y. rewrite Hlast. by split_and!.
Qed.

(** Behind the frames, the null frame. *)
Lemma close_open p o :
  open_output o -> exists o' bs b, close_output Enough p o = (0, o') /\ pushed_output (bs ++ [b]) o o' /\ fb_frame b = None /\ op_eof o' = true /\
    (length bs <= 1)%nat /\ (got_frame p = true -> bs = []).
Proof.
  intros Ho. unfold close_output. cbv zeta.
  assert (forall o, open_output o -> exists o' b, send_out None None (set_op_eof o) = Some o' /\ pushed_output [b] o o' /\ fb_frame b = None /\ op_eof o' = true) as Hend.
  { intros x Hx. destruct (send_out_open None None (set_op_eof x)) as (o' & Hs & Hp & _ & He); [done|]. exists o'. eexists. split_and!; [done|exact Hp|done|done]. }
  destruct (got_frame p) eqn:Eg.
  { destruct (Hend o Ho) as (o' & b & -> & Hp & Hb & He). exists o', [], b. split_and!; [done|exact Hp|done|done|cbn; lia|done]. }
  rewrite bool_decide_false by done. destruct (send_out_open (Some (dummy_frame o)) (option_framerate o) o Ho) as (o1 & -> & Hp1 & _ & _).
  destruct (Hend o1) as (o' & b & -> & Hp & Hb & He); [by destruct Hp1 as (? & _)|]. exists o'. eexists [_], b.
  split_and!; [done|by eapply pushed_trans|done|done|done|done].
Qed.

Lemma end_of_output p o :
  open_output o -> exists p' o' bs b, fg_output_frame Enough None p o = Ret (0, p', o') /\ pushed_output (bs ++ [b]) o o' /\ fb_frame b = None /\ op_eof o' = true.
Proof.
  intros Ho. unfold fg_output_frame. rewrite open_not_finished by done. rewrite bool_decide_false by by intros [].
  destruct (video_output o && (false || got_frame p)) eqn:E.
  - apply andb_true_iff in E as [Hv _]. destruct (sync_end_total 0 (op_times o)) as (n & n' & t & -> & Hm & Hvs & Hl). cbn [mbind outcome_bind].
    destruct (repeat_frames (Z.to_nat n) 0 n' p (set_op_times t o)) as (p1 & o1 & bs1 & -> & Hp1 & _ & _); [by unfold video_output in *; cbn [set_op_times op_times]; rewrite Hm|done|].
    cbn [mbind outcome_bind]. destruct (close_open p1 o1) as (o' & bs & b & -> & Hp & Hb & He & _); [by destruct Hp1 as (? & _)|].
    exists p1, o', (bs1 ++ bs)%list, b. split_and!; [done| |done|done]. rewrite <- app_assoc. eapply pushed_trans; [|exact Hp].
    destruct Hp1 as (Hopen & Hsent & Hopts & Hm1 & Hv1). unfold pushed_output. cbn [set_op_times op_times] in Hm1, Hv1. split_and!; [done|done|done|congruence|congruence].
  - cbn [mbind outcome_bind]. change (Z.to_nat 0) with O. cbn [send_frames mbind outcome_bind]. destruct (close_open p (set_op_times (op_times o) o)) as (o' & bs & b & -> & Hp & Hb & He & _); [done|].
    exists p, o', bs, b. split_and!; [done|exact Hp|done|done].
Qed.

Lemma end_of_outputs p l :
  Forall open_output l -> exists p' l', end_outputs Enough p l = Ret (0, p', l') /\
    Forall2 (fun o o' => op_eof o' = true /\ exists bs b, sent_boxes o' = (sent_boxes o ++ bs ++ [b])%list /\ fb_frame b = None) l l'.
Proof.
  revert p. induction l as [|o l IH]; intros p Hl; [by exists p, []|]. apply Forall_cons_1 in Hl as [Ho Hl]. cbn [end_outputs].
  destruct (end_of_output p o Ho) as (p1 & o1 & bs & b & -> & (_ & Hs & _) & Hb & He). cbn [mbind outcome_bind].
  destruct (IH p1 Hl) as (p2 & l2 & H2 & Hl2). rewrite (proj2 (Z.ltb_ge 0 0)) by lia. rewrite H2. exists p2, (o1 :: l2). split; [done|].
  constructor; [|done]. split; [done|]. by exists bs, b.
Qed.

(** C27. In a build without overflow checks, while there is memory for frames and every
    output takes what it is sent: however the loop of the task ended, the end of the
    task returns without another error, and the last that every output gets is the null
    frame, which is its end; what it had got before stays.  (Without memory for the frame
    that opens an encoder which has got none, an output ends the round of the outputs
    with an error, and the ones behind it are not told; one that is gone does so too.) *)
Theorem every_output_is_told t :
  Forall open_output (ofps (task t)) ->
  exists t', filter_finish Enough t = Ret t' /\ errors t' = errors t /\
    Forall2 (fun o o' => op_eof o' = true /\ exists bs b, sent_boxes o' = (sent_boxes o ++ bs ++ [b])%list /\ fb_frame b = None)
      (ofps (task t)) (ofps (task t')).
Proof.
  intros Ho. unfold filter_finish. cbv zeta. destruct (end_of_outputs (fgp (task t)) _ Ho) as (p & l & -> & Hl). cbn [mbind outcome_bind].
  rewrite (proj2 (Z.ltb_ge 0 0)) by lia. eexists. split; [done|]. split; [done|]. cbn [set_filter_state task cleanup_filtergraph ofps].
  apply Forall2_fmap_r. revert Hl. apply Forall2_impl. intros o o' H. exact H.
Qed.

End Output.

(** ** Examples *)

(** What each method makes of a gap and of a frame that comes too early. *)
Example four_methods :
  let frames := map receipt [video_frame 0 [1]; video_frame 160 [2]; video_frame 170 [3]; video_frame 240 [4]] in
  let times m := option_map (fun r => map (omap (option_map fst)) (fst r)) (toy_run m frames) in
  let contents m := option_map (fun r => map (omap (option_map snd)) (fst r)) (toy_run m frames) in
  times VsyncCfr = Some [[0; 1; 2; 3; 4; 5; 6]] /\ contents VsyncCfr = Some [[[1]; [1]; [1]; [2]; [2]; [3]; [4]]] /\
  times VsyncVfr = Some [[0; 4; 5; 6]] /\ times VsyncVscfr = Some [[0; 1; 2; 3]] /\ times VsyncPassthrough = Some [[0; 4; 4; 6]].
Proof. cbv zeta. repeat split; vm_compute; reflexivity. Qed.

(** The frame without a buffer that a decoder sends at its end. *)
Definition eof_marker : FilterFrame :=
  {| ff_pts := 80; ff_duration := 0; ff_time_base := {| num := 1; den := 1000 |}; ff_key := false; ff_nb_samples := 0; ff_params := no_params;
     ff_buf := false; ff_content := [] |}.

(** An output that has ended is told so again when the task ends. *)
Example the_end_is_told_twice :
  toy_run VsyncCfr (map receipt [video_frame 0 [1]; video_frame 40 [2]; eof_marker]) = Some ([[Some (0, [1]); Some (1, [2]); None; None]], []).
Proof. vm_compute. reflexivity. Qed.

(** A decoder that fails sends the null frame only, whose time is read. *)
Example null_frame_is_read : toy_run VsyncCfr [receipt (video_frame 0 [1]); FrameIn Enough 0 None false] = None.
Proof. vm_compute. reflexivity. Qed.

Definition toy_frames : list FilterFrame := [video_frame 0 [1]; video_frame 160 [2]; video_frame 240 [3]].

Lemma toy_output_open m : open_output (toy_output m).
Proof. split; [reflexivity|]. exists {| room := None; sent := [] |}. split; reflexivity. Qed.

Lemma frames_keep_their_order_witness :
  exists ret p' o', output_frames (Sync0 := toy_sync) (Prof := release_profile) {| num := 25; den := 1 |} {| num := 1; den := 1000 |} toy_frames
      FilterGraphParameter_default (toy_output VsyncVfr) = Ret (ret, p', o') /\ length (sent_boxes o') = 3%nat /\
    exists ys bs ns, boxed ys bs /\ pushed_output bs (toy_output VsyncVfr) o' /\ length ns = 3%nat /\ map ff_content ys = copies ns toy_frames.
Proof.
  destruct (output_frames (Sync0 := toy_sync) (Prof := release_profile) {| num := 25; den := 1 |} {| num := 1; den := 1000 |} toy_frames
      FilterGraphParameter_default (toy_output VsyncVfr)) as [[[ret p'] o']| |] eqn:E; [|vm_compute in E; discriminate..].
  exists ret, p', o'. split; [done|].
  destruct (frames_keep_their_order (Sync0 := toy_sync) (Prof := release_profile) {| num := 25; den := 1 |} {| num := 1; den := 1000 |} toy_frames
      FilterGraphParameter_default (toy_output VsyncVfr) ret p' o') as (Hret & H);
    [reflexivity|apply toy_output_open|reflexivity|exact E|]. split; [|exact H]. clear H Hret. vm_compute in E. injection E as _ _ <-. reflexivity.
Defined.

Lemma constant_rate_is_constant_witness :
  exists ret p' o', output_frames (Sync0 := toy_sync) (Prof := release_profile) {| num := 25; den := 1 |} {| num := 1; den := 1000 |} toy_frames
      FilterGraphParameter_default (toy_output VsyncCfr) = Ret (ret, p', o') /\
    exists ys bs, boxed ys bs /\ pushed_output bs (toy_output VsyncCfr) o' /\ map ff_pts ys = [0; 1; 2; 3; 4; 5; 6].
Proof.
  destruct (output_frames (Sync0 := toy_sync) (Prof := release_profile) {| num := 25; den := 1 |} {| num := 1; den := 1000 |} toy_frames
      FilterGraphParameter_default (toy_output VsyncCfr)) as [[[ret p'] o']| |] eqn:E; [|vm_compute in E; discriminate..].
  exists ret, p', o'. split; [done|].
  destruct (constant_rate_is_constant (Sync0 := toy_sync) (Prof := release_profile) {| num := 25; den := 1 |} {| num := 1; den := 1000 |} toy_frames
      FilterGraphParameter_default (toy_output VsyncCfr) ret p' o') as (ys & bs & Hb & Hp & H);
    [reflexivity|apply toy_output_open|reflexivity|exact E|]. exists ys, bs. split; [done|]. split; [done|].
  assert (length ys = 7%nat) as Hlen.
  { apply (f_equal length) in Hb. rewrite !length_map in Hb. rewrite <- Hb. destruct Hp as (_ & Hs & _). apply (f_equal length) in Hs. revert Hs. vm_compute in E. injection E as _ _ <-.
    vm_compute. by intros [= ->]. }
  rewrite Hlen in H. destruct H as [H _]; [vm_compute; congruence|vm_compute; congruence|]. rewrite H. reflexivity.
Defined.

(** What the theorem needs of a state, and what is to be seen of it. *)
Definition open_outputs (l : list OutputFilterParameter) : list (option nat * option (option nat)) := map (fun o => (op_unset_reads o, option_map room (op_dst o))) l.

Lemma open_outputs_spec l n : open_outputs l = repeat (None, Some None) n -> Forall open_output l.
Proof.
  revert n. induction l as [|o l IH]; intros n H; [by apply Forall_nil|]. destruct n as [|n]; [done|]. cbn [open_outputs map repeat] in H. injection H as Hu Hd Hl.
  apply Forall_cons; [|by eapply IH]. split; [done|]. destruct (op_dst o) as [d|]; [|done]. injection Hd as Hd. by exists d.
Qed.

Definition toy_loop : outcome (ThreadState (Gr := toy_av)) :=
  filter_loop (Lib := toy_filter) (Prof := release_profile) 0 toy_desc None 20 (toy_thread VsyncCfr) (map receipt toy_frames).

Lemma toy_loop_open : option_map (fun t => (open_outputs (ofps (task t)), errors t)) (match toy_loop with Ret t => Some t | _ => None end) = Some ([(None, Some None)], []).
Proof. vm_compute. reflexivity. Qed.

Lemma every_output_is_told_witness :
  exists t t', toy_loop = Ret t /\ filter_finish (Prof := release_profile) Enough t = Ret t' /\ errors t' = [] /\ Forall (fun o => op_eof o = true) (ofps (task t')).
Proof.
  pose proof toy_loop_open as Ho. destruct toy_loop as [t| |]; [|discriminate Ho..]. cbn [option_map] in Ho. injection Ho as Ho He.
  destruct (every_output_is_told (Gr := toy_av) (Prof := release_profile) eq_refl t (open_outputs_spec _ 1 Ho)) as (t' & Hf & He' & Ht).
  exists t, t'. split; [reflexivity|]. split; [exact Hf|]. split; [by rewrite He'|].
  clear -Ht. induction Ht as [|o o' l l' [H _] _ IH]; [by apply Forall_nil|by apply Forall_cons].
Defined.
