(* ===== verification/FilterSpec.v ===== *)
(** * The promises of the filtering task

    Which input is asked for a frame; that reading a graph ends; that the frames which
    come before the graph is built reach it; and what a change of the properties of the
    frames does. *)

From stdpp Require Import base list option numbers.
From Stdlib Require Import ZArith Lia.
From S2P Require Import Choke.
From S2P Require Import Prelude RustInt RustStr Float64 Errors StreamSpec Muxer Rescale MuxTask DemuxTimes DecTimesSpec DecTask FilterSync FilterConfig FilterOutput FilterTask FilterToy.

Local Open Scope Z_scope.
Local Open Scope rust_scope.

Section Filtering.
  Context `{Lib : AvFilter} `{Prof : Profile}.

(** ** The wanted input *)

(** The failed requests of an input, as the code compares them. *)
Definition requests (g : FGraph) (i : InputFilterParameter) : Z :=
  match ip_filter i with Some s => as_i32 (av_buffersrc_get_nb_failed_requests s g) | None => 0 end.

(** The best input among the first ones. *)
Definition best_of (g : FGraph) (l : list InputFilterParameter) (best : Z * Z) : Prop :=
  (best = (- 1, - 1) /\ forall j, j ∈ l -> ip_eof j = false -> requests g j <= - 1) \/
  exists n i, l !! n = Some i /\ ip_eof i = false /\ best = (requests g i, Z.of_nat n) /\ 0 <= requests g i /\
    forall m j, l !! m = Some j -> ip_eof j = false -> requests g j <= requests g i /\ ((m < n)%nat -> requests g j < requests g i).

Lemma best_skip g l best x : best_of g l best -> (ip_eof x = false -> requests g x <= fst best) -> best_of g (l ++ [x]) best.
Proof.
  intros [[-> Hl]|(n & i & Hn & Hi & -> & Hpos & Hmax)] Hx.
  - left. split; [done|]. intros j [Hj| ->%list_elem_of_singleton]%elem_of_app; [by apply Hl|done].
  - right. exists n, i. split_and!; [by apply lookup_app_l_Some|done|done|done|]. intros m j Hm Hj. apply lookup_app_Some in Hm as [Hm|[Hlen Hm]]; [by apply Hmax|].
    apply list_lookup_singleton_Some in Hm as [Hm <-]. apply lookup_lt_Some in Hn. split; [by apply Hx|lia].
Qed.

Lemma best_take g l best x : best_of g l best -> ip_eof x = false -> fst best < requests g x -> best_of g (l ++ [x]) (requests g x, Z.of_nat (List.length l)).
Proof.
  intros Hb Hx Hlt. right. exists (List.length l), x. split_and!; [|done|done| |].
  - rewrite lookup_app_r, Nat.sub_diag by lia. done.
  - destruct Hb as [[-> _]|(n & i & _ & _ & -> & Hpos & _)]; cbn [fst] in Hlt; lia.
  - intros m j Hm Hj. apply lookup_app_Some in Hm as [Hm|[Hlen Hm]].
    + assert (requests g j < requests g x); [|lia]. destruct Hb as [[-> Hl]|(n & i & _ & _ & -> & _ & Hmax)]; cbn [fst] in Hlt.
      * apply list_elem_of_lookup_2 in Hm. specialize (Hl j Hm Hj). lia.
      * specialize (Hmax m j Hm Hj). lia.
    + apply list_lookup_singleton_Some in Hm as [Hm <-]. split; [done|lia].
Qed.

Lemma as_i32_small x : 0 <= x < 2 ^ 31 -> as_i32 x = x.
Proof. intros H. unfold as_i32. cbv zeta. rewrite wrap_id by (unfold fits; lia). by rewrite (proj2 (Z.ltb_lt x _)) by lia. Qed.

(** Of the inputs that have not ended, the one whose source failed most often to give a
    frame is asked next: the first of them, if there are several. *)
Theorem starving_input_is_asked g l :
  (forall n i, l !! n = Some i -> ip_index i = n) -> Z.of_nat (List.length l) <= 2 ^ 31 ->
  (forall i, i ∈ l -> ip_eof i = false -> is_Some (ip_filter i)) -> (exists i, i ∈ l /\ ip_eof i = false /\ 0 <= requests g i) ->
  exists n i, choose_input g l = Ret n /\ l !! n = Some i /\ ip_eof i = false /\
    forall m j, l !! m = Some j -> ip_eof j = false -> requests g j <= requests g i /\ ((m < n)%nat -> requests g j < requests g i).
Proof.
  intros Hindex Hlen Hfilter (i0 & Hi0 & He0 & Hr0). unfold choose_input.
  destruct (foldM_total (best_of g) (choose_step g) l (- 1, - 1)) as (best & Hfold & Hbest).
  - left. split; [done|]. intros j Hj. by apply elem_of_nil in Hj.
  - intros done x rest s1 -> Hs. unfold choose_step. assert ((done ++ x :: rest) !! length done = Some x) as Hx by (by rewrite lookup_app_r, Nat.sub_diag by lia).
    destruct (ip_eof x) eqn:Ex; [exists s1; split; [done|]; apply best_skip; [done|]; by rewrite Ex|].
    destruct (Hfilter x) as [s Hs']; [by eapply list_elem_of_lookup_2|done|]. rewrite Hs'. cbn [need mbind outcome_bind]. cbv zeta.
    assert (as_i32 (av_buffersrc_get_nb_failed_requests s g) = requests g x) as -> by (unfold requests; by rewrite Hs').
    rewrite (Hindex _ _ Hx). rewrite length_app in Hlen. cbn [List.length] in Hlen. rewrite as_i32_small by lia. destruct (fst s1 <? requests g x) eqn:E.
    + eexists. split; [done|]. eapply best_take; [exact Hs|done|lia].
    + exists s1. split; [done|]. apply best_skip; [done|]. intros _. lia.
  - rewrite Hfold. cbn [mbind outcome_bind]. destruct Hbest as [[-> Hl]|(n & i & Hn & Hi & -> & Hpos & Hmax)].
    + specialize (Hl i0 Hi0 He0). lia.
    + cbn [snd]. rewrite (proj2 (Z.leb_le 0 (Z.of_nat n))) by lia. exists n, i. split_and!; [by rewrite Nat2Z.id|done|done|done].
Qed.

(** ** Frames with other properties *)

Lemma media_changed_values i f : media_changed i f = 0 \/ media_changed i f = VIDEO_CHANGED \/ media_changed i f = AUDIO_CHANGED.
Proof. unfold media_changed. cbv zeta. destruct (ip_type i); try tauto; destruct (_ || _); tauto. Qed.

Lemma matrix_changed_values i f : matrix_changed i f = 0 \/ matrix_changed i f = MATRIX_CHANGED.
Proof. unfold matrix_changed. destruct (p_matrix _); [destruct (_ || _)|destruct (displaymatrix_present i)]; tauto. Qed.

Lemma hwaccel_changed_values i f : hwaccel_changed i f = 0 \/ hwaccel_changed i f = HWACCEL_CHANGED.
Proof. unfold hwaccel_changed. case_bool_decide; tauto. Qed.

Lemma change_is_described i f : need_reinit i f <> 0 -> describe_change (need_reinit i f) = Panic.
Proof.
  unfold need_reinit. destruct (media_changed_values i f) as [->|[->| ->]], (matrix_changed_values i f) as [->| ->], (hwaccel_changed_values i f) as [->| ->];
    intros H; [by exfalso|..]; vm_compute; done.
Qed.

Lemma formats_insert l n i i' :
  l !! n = Some i -> 0 <= p_format (ip_params i') -> ifilter_has_all_input_formats l = true -> ifilter_has_all_input_formats (<[n := i']> l) = true.
Proof.
  unfold ifilter_has_all_input_formats. rewrite !forallb_forall. intros Hn Hi Hl x Hx. apply list_elem_of_In in Hx.
  apply list_elem_of_lookup in Hx as [m Hm]. destruct (decide (n = m)) as [<-|Hne].
  - rewrite list_lookup_insert_eq in Hm by (by eapply lookup_lt_Some). injection Hm as <-. lia.
  - rewrite list_lookup_insert_ne in Hm by done. apply Hl. apply list_elem_of_In. by eapply list_elem_of_lookup_2.
Qed.

(** A graph is never rebuilt: when a frame comes that has another format, size, rate,
    layout, matrix or hardware than its input, what is left in the graph is read, and
    then the thread panics, for the reason that it would print ends in a zero byte. *)
Theorem changed_frames_panic fg_index desc device fuel n f i g st :
  fs_graph st = Some g -> ifps st !! n = Some i -> need_reinit i f <> 0 -> 0 <= p_format (ff_params f) -> ifilter_has_all_input_formats (ifps st) = true ->
  exists i', ifilter_parameters_from_frame Enough f i = Ok i' /\
    fg_send_frame fg_index desc device Enough fuel n f st =
      match fg_read_frames Enough fuel (set_ifps (<[n := i']> (ifps st)) st) with
      | Ret (ret, st') =>
        if ret <? 0 then Ret (Err (graph_error (FilterGraphOperationError.ProcessFramesError (FilterGraphError.FilterGraphError_from ret))), st') else Panic
      | Panic => Panic
      | Diverge => Diverge
      end.
Proof.
  intros Hg Hi Hneed Hf Hall. destruct (ifilter_parameters_from_frame Enough f i) as [i'|e] eqn:Hp; [|done]. exists i'. split; [done|].
  unfold fg_send_frame. rewrite (proj2 (index_Ret _ _ _) Hi). cbn [mbind outcome_bind].
  rewrite (proj2 (negb_true_iff _) (proj2 (Z.eqb_neq _ _) Hneed)). cbn [orb]. rewrite Hp. unfold reinit. cbv zeta. cbn [set_ifps ifps].
  rewrite (formats_insert _ _ i i'); [|done| |done].
  2:{ apply Ok_inj in Hp as <-. exact Hf. }
  cbn [negb]. unfold drain_graph. cbn [set_ifps fs_graph]. rewrite Hg.
  destruct (fg_read_frames _ _ _) as [[ret st']| |]; [|done|done]. cbn [mbind outcome_bind]. destruct (ret <? 0); [done|]. by rewrite change_is_described.
Qed.


(** ** Hardware *)

(** The configuration of an input sets its filter. *)
Lemma configure_input_keeps fg i e g i' g' : configure_input_filter fg i e g = Ret (inr i', g') -> ip_params i' = ip_params i.
Proof.
  unfold configure_input_filter. destruct (ip_type i); try by intros [-> _]%conf_ret_inr.
  - unfold configure_input_video_filter. destruct (negb _); [done|]. cbv zeta. destruct (contains_char _ _); [done|].
    intros (a1 & g1 & _ & H)%conf_bind_inr. apply conf_bind_inr in H as (a2 & g2 & _ & H). apply conf_bind_inr in H as (a3 & g3 & _ & H).
    apply conf_bind_inr in H as (a4 & g4 & _ & H). apply conf_bind_inr in H as (a5 & g5 & _ & H). by apply conf_ret_inr in H as [-> _].
  - unfold configure_input_audio_filter. cbv zeta.
    intros (a1 & g1 & _ & H)%conf_bind_inr. apply conf_bind_inr in H as (a2 & g2 & _ & H). apply conf_bind_inr in H as (a3 & g3 & _ & H).
    by apply conf_ret_inr in H as [-> _].
Qed.

Lemma configure_inputs_keep fg ps ends g ps' g' : configure_all (configure_input_filter fg) ps ends g = Ret (inr ps', g') -> map ip_params ps' = map ip_params ps.
Proof.
  revert ends g ps' g'. induction ps as [|p ps IH]; intros [|e ends] g ps' g'; cbn [configure_all]; try by intros [-> _]%conf_ret_inr.
  intros (p' & g1 & Hp & H)%conf_bind_inr. apply conf_bind_inr in H as (ps1 & g2 & Hps & H).
  apply conf_ret_inr in H as [-> _]. cbn [map]. f_equal; [by eapply configure_input_keeps|exact (IH _ _ _ _ Hps)].
Qed.

(** What holds of the inputs of a graph: they have formats, and no hardware frames. *)
Definition software_inputs (ps : list FrameParams) : Prop := Forall (fun p => 0 <= p_format p /\ p_hw_frames p = None) ps.

Definition no_hardware (st : FilterState) : Prop := fs_graph st = None \/ software_inputs (map ip_params (ifps st)).

Lemma software_cleanup st : ifilter_has_all_input_formats (ifps st) = true -> software_inputs (map ip_params (ifps (cleanup_filtergraph st))).
Proof.
  unfold ifilter_has_all_input_formats, software_inputs. cbn [cleanup_filtergraph ifps]. rewrite forallb_forall, map_map, Forall_fmap. intros H.
  apply Forall_forall. intros i Hi. specialize (H i Hi). cbn. split; [lia|done].
Qed.

Lemma build_graph_keeps fg desc device st g l l' g' : build_graph fg desc device st g = Ret (inr (l, l'), g') -> map ip_params l = map ip_params (ifps st).
Proof.
  unfold build_graph. intros (ends & g1 & _ & H)%conf_bind_inr. apply conf_bind_inr in H as (l1 & g2 & Hl & H). apply conf_bind_inr in H as (l2 & g3 & _ & H).
  apply conf_bind_inr in H as (u & g4 & _ & H). apply conf_ret_inr in H as [[= -> ->] _]. by eapply configure_inputs_keep.
Qed.

Lemma start_ends_inputs st g r st' : start_ends st g = Ret (r, st') -> software_inputs (map ip_params (ifps st)) -> no_hardware st'.
Proof.
  unfold start_ends. intros H Hs. apply bind_Ret in H as ([[ret|[|]] g1] & _ & H).
  - apply Ret_inj in H as [= _ <-]. by left.
  - destruct (avfilter_graph_request_oldest g1) as [ret g2]. destruct (_ && _); apply Ret_inj in H as [= _ <-]; [by left|by right].
  - apply Ret_inj in H as [= _ <-]. by right.
Qed.

Lemma configured_inputs fg desc device mem st r st' :
  configure_filtergraph fg desc device mem st = Ret (r, st') -> ifilter_has_all_input_formats (ifps st) = true -> no_hardware st'.
Proof.
  unfold configure_filtergraph. cbv zeta. intros H Hf. apply software_cleanup in Hf. apply bind_Ret in H as ([[ret|[l l']] g] & Hb & H).
  { apply Ret_inj in H as [= _ <-]. by left. }
  apply build_graph_keeps in Hb. rewrite <- Hb in Hf. unfold start_graph in H. cbv zeta in H. apply bind_Ret in H as ([ret ofps'] & _ & H).
  destruct (ret <? 0); [apply Ret_inj in H as [= _ <-]; by left|]. destruct (_ && _); [apply Ret_inj in H as [= _ <-]; by right|].
  apply bind_Ret in H as ([ret' g'] & _ & H). destruct (ret' <? 0); [apply Ret_inj in H as [= _ <-]; by left|].
  eapply start_ends_inputs; [exact H|]. cbn [set_ifps ifps set_graph]. rewrite map_map. exact Hf.
Qed.

Lemma read_frames_inputs mem fuel st ret st' :
  fg_read_frames mem fuel st = Ret (ret, st') -> ifps st' = ifps st /\ (fs_graph st' = None <-> fs_graph st = None).
Proof.
  unfold fg_read_frames. destruct (fs_graph st) as [g|] eqn:E.
  - intros H. apply bind_Ret in H as ([[[ret' g'] p] l] & _ & H). by apply Ret_inj in H as [= _ <-].
  - destruct (input_without_format _); intros H; apply Ret_inj in H as [= _ <-]; by rewrite ?E.
Qed.

Lemma add_to_source_inputs n f st r st' : add_to_source n f st = Ret (r, st') -> ifps st' = ifps st /\ is_Some (fs_graph st).
Proof.
  unfold add_to_source. intros H. apply bind_Ret in H as (i & _ & H). apply bind_Ret in H as (s & _ & H). apply bind_Ret in H as (g & Hg & H).
  destruct (av_buffersrc_add_frame_flags _ _ _ _). apply Ret_inj in H as [= _ <-]. split; [done|]. by destruct (fs_graph st).
Qed.

Lemma add_to_source_software n f st r st' : no_hardware st -> add_to_source n f st = Ret (r, st') -> no_hardware st'.
Proof. intros [Hg|Hs] H; apply add_to_source_inputs in H as [Hi [g Hg']]; [congruence|]. right. by rewrite Hi. Qed.

Lemma software_formats st : fs_graph st <> None -> no_hardware st -> ifilter_has_all_input_formats (ifps st) = true.
Proof.
  intros Hg [H|H]; [done|]. unfold ifilter_has_all_input_formats. rewrite forallb_forall. unfold software_inputs in H. rewrite Forall_fmap, Forall_forall in H.
  intros i Hi. specialize (H i Hi). cbn in H. lia.
Qed.


(** The results behind which the loop goes on. *)
Definition goes_on (r : result unit Error) : Prop := match r with Ok _ => True | Err e => source_ended e = true end.

Lemma send_frame_software fg desc device mem fuel n f st r st' :
  no_hardware st -> 0 <= p_format (ff_params f) -> fg_send_frame fg desc device mem fuel n f st = Ret (r, st') -> goes_on r -> no_hardware st'.
Proof.
  intros Hs Hf H Hr. unfold fg_send_frame in H. apply bind_Ret in H as (i & Hi%index_Ret & H). destruct (_ || _) eqn:E; [|by eapply add_to_source_software].
  destruct (ifilter_parameters_from_frame mem f i) as [i'|e] eqn:Hp; [|by apply Ret_inj in H as [= _ <-]].
  assert (p_format (ip_params i') = p_format (ff_params f)) as Hi'. { revert Hp. unfold ifilter_parameters_from_frame. cbv zeta. by destruct (_ && _); [|intros <-%Ok_inj]. }
  unfold reinit in H. cbv zeta in H. cbn [set_ifps ifps] in H. destruct (ifilter_has_all_input_formats (<[n:=i']> (ifps st))) eqn:Ha; cbn [negb] in H.
  - apply bind_Ret in H as ([r1 st1] & Hd & H). unfold drain_graph in Hd. cbn [set_ifps fs_graph] in Hd. destruct (fs_graph st) as [g|] eqn:Hg.
    + apply bind_Ret in Hd as ([ret st2] & _ & Hd). destruct (ret <? 0); [apply Ret_inj in Hd as [= <- <-]; by apply Ret_inj in H as [= <- _]|].
      apply bind_Ret in Hd as ([] & Hd & _). rewrite change_is_described in Hd; [done|]. unfold no_graph in E. rewrite Hg, orb_false_r in E. lia.
    + apply Ret_inj in Hd as [= <- <-]. apply bind_Ret in H as ([r2 st2] & Hc & H). apply configured_inputs in Hc; [|done].
      destruct r2; [by eapply add_to_source_software|]. by apply Ret_inj in H as [= _ <-].
  - apply Ret_inj in H as [= _ <-]. destruct (fs_graph st) as [g|] eqn:Hg; [|by left]. exfalso.
    rewrite (formats_insert _ _ i i') in Ha; [done|done|lia|]. apply software_formats; [by rewrite Hg|done].
Qed.

Lemma insert_params l n i i' : l !! n = Some i -> ip_params i' = ip_params i -> map ip_params (<[n := i']> l) = map ip_params l.
Proof.
  intros Hn Hp. apply list_eq. intros m. rewrite !list_lookup_fmap. destruct (decide (n = m)) as [<-|Hne].
  - rewrite list_lookup_insert_eq by (by eapply lookup_lt_Some). rewrite Hn. cbn. by rewrite Hp.
  - by rewrite list_lookup_insert_ne by done.
Qed.

Lemma send_eof_software fg desc device mem n f st r st' : no_hardware st -> fg_send_eof fg desc device mem n f st = Ret (r, st') -> no_hardware st'.
Proof.
  intros Hs H. unfold fg_send_eof in H. apply bind_Ret in H as (i & Hi%index_Ret & H). destruct (ip_eof i); [by apply Ret_inj in H as [= _ <-]|].
  cbv zeta in H. cbn [set_ip_queue set_ifps ifps ip_filter ip_params] in H. set (i' := set_ip_queue (frame_queue i) true i) in H. set (st1 := set_ifps _ st) in H.
  assert (no_hardware st1) as Hs1. { destruct Hs as [Hg|Hs]; [by left|right]. cbn [st1 set_ifps ifps]. by rewrite (insert_params _ _ i). }
  destruct (ip_filter i) as [s|].
  - unfold close_source in H. apply bind_Ret in H as (x & _ & H). apply bind_Ret in H as (p & _ & H). apply bind_Ret in H as (g & Hg & H).
    destruct (av_buffersrc_close s p g). apply Ret_inj in H as [= _ <-]. destruct Hs1 as [Hn|Hs1]; [by rewrite Hn in Hg|by right].
  - assert (forall st2 r2 st3, format_is_known n st2 = Ret (r2, st3) -> st3 = st2) as Hk.
    { intros st2 r2 st3 H2. unfold format_is_known in H2. apply bind_Ret in H2 as (x & _ & H2). by apply Ret_inj in H2 as [= _ <-]. }
    destruct (p_format (ip_params i) <? 0) eqn:E; [|by apply Hk in H as ->]. destruct (ifilter_has_all_input_formats _) eqn:Ha.
    + apply bind_Ret in H as ([r2 st2] & Hc & H). apply configured_inputs in Hc; [|done]. destruct r2; [by apply Hk in H as ->|by apply Ret_inj in H as [= _ <-]].
    + apply Hk in H as ->. left. cbn [set_ifps fs_graph st1]. destruct Hs as [Hg|Hs]; [done|]. unfold software_inputs in Hs. rewrite Forall_fmap in Hs.
      eapply Forall_lookup_1 in Hs; [|exact Hi]. cbn in Hs. lia.
Qed.

(** Frames have formats. *)
Definition formatted (r : FilterReceipt) : Prop := match r with FrameIn _ _ (Some f) _ => 0 <= p_format (ff_params f) | _ => True end.

Lemma one_frame_software fg desc device fuel mem n f stops t t' :
  no_hardware (task t) -> formatted (FrameIn mem n f stops) -> one_frame fg desc device fuel mem n f stops t = Ret (true, t') -> no_hardware (task t').
Proof.
  intros Hs Hf H. unfold one_frame in H. apply bind_Ret in H as (done & _ & H). destruct done; [by apply Ret_inj in H as [= <-]|].
  apply bind_Ret in H as ([r st] & Hr & H). cbv zeta in H.
  assert (goes_on r -> no_hardware st) as Hst.
  { intros Hgo. unfold receive_filtered in Hr. apply bind_Ret in Hr as (i & _ & Hr). destruct (is_subtitle i); [by apply Ret_inj in Hr as [= _ <-]|].
    destruct f as [x|]; [|by eapply send_eof_software]. destruct (ff_buf x); [by eapply send_frame_software|by eapply send_eof_software]. }
  assert (forall t1, no_hardware (task t1) -> (if stops then Ret (false, t1) else read_graph mem fuel t1) = Ret (true, t') -> no_hardware (task t')) as Hread.
  { intros t1 Ht1 H1. destruct stops; [done|]. unfold read_graph in H1. apply bind_Ret in H1 as ([ret st1] & Hrd & H1). apply read_frames_inputs in Hrd as [Hi Hg].
    cbv zeta in H1. destruct (ret =? AVERROR_EOF); [done|]. destruct (ret <? 0); [done|]. apply Ret_inj in H1 as [= <-].
    destruct Ht1 as [Hn|Ht1]; [left; by apply Hg|right; cbn [set_filter_state task]; by rewrite Hi]. }
  destruct r as [u|e]; [by eapply Hread; [|exact H]; apply Hst|]. destruct (source_ended e) eqn:Ee; [|done].
  apply bind_Ret in H as (t1 & Ht1 & H). eapply Hread; [|exact H]. unfold filter_receive_finish in Ht1. apply bind_Ret in Ht1 as (l & _ & Ht1).
  apply Ret_inj in Ht1 as <-. by apply Hst.
Qed.

(** The states that the loop reaches behind so many receipts. *)
Inductive runs fg desc device fuel : list FilterReceipt -> ThreadState -> ThreadState -> Prop :=
  | runs_nil t : runs fg desc device fuel [] t t
  | runs_timeout l t t' : runs fg desc device fuel l (update_wish t) t' -> runs fg desc device fuel (FrameTimeout :: l) t t'
  | runs_frame mem n f stops l t t1 t' :
    one_frame fg desc device fuel mem n f stops (update_wish t) = Ret (true, t1) -> runs fg desc device fuel l t1 t' ->
    runs fg desc device fuel (FrameIn mem n f stops :: l) t t'.

Lemma runs_loop fg desc device fuel l1 l2 t t' :
  runs fg desc device fuel l1 t t' -> filter_loop fg desc device fuel t (l1 ++ l2) = filter_loop fg desc device fuel t' l2.
Proof.
  induction 1 as [t|l t t' _ IH|mem n f stops l t t1 t' H _ IH]; [done|exact IH|]. cbn [app filter_loop]. rewrite H. exact IH.
Qed.

Lemma update_wish_task t : task (update_wish t) = task t.
Proof. unfold update_wish. cbv zeta. by destruct (_ =? _)%nat. Qed.

Lemma runs_software fg desc device fuel l t t' : runs fg desc device fuel l t t' -> Forall formatted l -> no_hardware (task t) -> no_hardware (task t').
Proof.
  induction 1 as [t|l t t' _ IH|mem n f stops l t t1 t' H _ IH]; intros Hl Hs; [done|..]; apply Forall_cons_1 in Hl as [Hf Hl]; apply IH; try done.
  - by rewrite update_wish_task.
  - eapply one_frame_software; [|exact Hf|exact H]. by rewrite update_wish_task.
Qed.

(** C31. The context of the hardware's frames is dropped when a graph is built, just before
    its sources are made.  So with every further frame of hardware the graph is to be
    rebuilt, and the task ends: the loop never goes on behind such a frame. *)
Theorem hardware_frames_end_the_task fg desc device fuel l t t' g n i f stops :
  runs fg desc device fuel l t t' -> Forall formatted l -> fs_graph (task t) = None ->
  fs_graph (task t') = Some g -> ifps (task t') !! n = Some i -> is_subtitle i = false -> finished_flags t' !! n = Some false ->
  ff_buf f = true -> 0 <= p_format (ff_params f) -> is_Some (p_hw_frames (ff_params f)) ->
  forall t2, one_frame fg desc device fuel Enough n (Some f) stops t' <> Ret (true, t2).
Proof.
  intros Hrun Hl H0 Hg Hi Hsub Hfin Hbuf Hf [h Hh] t2. assert (no_hardware (task t')) as Hs by (eapply runs_software; [exact Hrun|done|by left]).
  assert (ifilter_has_all_input_formats (ifps (task t')) = true) as Ha by (apply software_formats; [by rewrite Hg|done]).
  assert (need_reinit i f <> 0) as Hneed.
  { destruct Hs as [Hs|Hs]; [congruence|]. unfold software_inputs in Hs. rewrite Forall_fmap in Hs. eapply Forall_lookup_1 in Hs as [_ Hn]; [|exact Hi].
    unfold need_reinit, hwaccel_changed. rewrite bool_decide_false by congruence. rewrite !Z.lor_eq_0_iff. intros [_ Hz]. done. }
  destruct (changed_frames_panic fg desc device fuel n f i g (task t')) as (i' & _ & Heq); [done..|].
  unfold one_frame. rewrite (proj2 (index_Ret _ _ _) Hfin). cbn [mbind outcome_bind]. unfold receive_filtered. rewrite (proj2 (index_Ret _ _ _) Hi). cbn [mbind outcome_bind].
  rewrite Hsub, Hbuf, Heq. destruct (fg_read_frames _ _ _) as [[ret st]| |]; [|done|done]. destruct (ret <? 0); [|done]. cbn [mbind outcome_bind]. by cbv zeta.
Qed.

End Filtering.

(** ** Examples *)

(** Three inputs: the second was given more than the others, and the third has ended. *)
Definition fed_graph : ToyGraph := toy_add 2 None (toy_add 2 None (toy_add 1 None (toy_add 0 None toy_graph))).

Definition fed_inputs : list InputFilterParameter :=
  [set_ip_filter (Some 1%nat) false (toy_input 0); set_ip_filter (Some 2%nat) false (toy_input 1); set_ip_queue [] true (set_ip_filter (Some 2%nat) false (toy_input 2))].

Lemma starving_input_is_asked_witness :
  choose_input (Lib := toy_filter) fed_graph fed_inputs = Ret 1%nat.
Proof.
  destruct (starving_input_is_asked (Lib := toy_filter) fed_graph fed_inputs) as (n & i & Hc & Hi & He & Hmax).
  - intros [|[|[|n]]] i; [by intros [= <-]..|done].
  - vm_compute. congruence.
  - intros i Hi _. unfold fed_inputs in Hi. rewrite !elem_of_cons in Hi. destruct Hi as [->|[->|[->|Hi%elem_of_nil]]]; [by eexists..|done].
  - exists (set_ip_filter (Some 1%nat) false (toy_input 0)). split; [by left|]. split; [done|vm_compute; congruence].
  - rewrite Hc. f_equal. destruct n as [|[|[|n]]]; [|done|by injection Hi as <-|done]. injection Hi as <-.
    exfalso. destruct (Hmax 1%nat _ eq_refl eq_refl) as [H _]. vm_compute in H. by apply H.
Defined.

(** The state behind the first frame, whose graph is built. *)
Definition warm (f : FilterFrame) : FilterState (Gr := toy_av) :=
  match fg_send_frame (Lib := toy_filter) (Prof := release_profile) 0 toy_desc None Enough 20 0 f (toy_state VsyncCfr) with
  | Ret (_, st) => st
  | _ => toy_state VsyncCfr
  end.

Definition first_input (st : FilterState (Gr := toy_av)) : InputFilterParameter := match ifps st with i :: _ => i | [] => toy_input 0 end.

Definition built_graph (st : FilterState (Gr := toy_av)) : ToyGraph := match fs_graph st with Some g => g | None => toy_graph end.

(** The same picture in another format. *)
Definition other_format : FilterFrame := set_frame_params (video_params 23 None) (video_frame 40 [2]).

Lemma changed_frames_panic_witness :
  fs_graph (warm (video_frame 0 [1])) <> None /\
  fg_send_frame (Lib := toy_filter) (Prof := release_profile) 0 toy_desc None Enough 20 0 other_format (warm (video_frame 0 [1])) = Panic.
Proof.
  split; [vm_compute; congruence|].
  destruct (changed_frames_panic (Lib := toy_filter) (Prof := release_profile) 0 toy_desc None 20 0 other_format (first_input (warm (video_frame 0 [1])))
    (built_graph (warm (video_frame 0 [1]))) (warm (video_frame 0 [1]))) as (i' & Hp & Heq);
    [vm_compute; reflexivity|vm_compute; reflexivity|vm_compute; congruence|vm_compute; congruence|vm_compute; reflexivity|].
  rewrite Heq. vm_compute in Hp. injection Hp as <-. vm_compute. reflexivity.
Defined.

(** Frames of a device. *)
Definition hw_frame (p : Z) : FilterFrame := set_frame_params (video_params 117 (Some 7)) (video_frame p [1]).

Definition hw_thread : ThreadState (Gr := toy_av) :=
  match one_frame (Lib := toy_filter) (Prof := release_profile) 0 toy_desc None 20 Enough 0 (Some (hw_frame 0)) false (update_wish (toy_thread VsyncCfr)) with
  | Ret (_, t) => t
  | _ => toy_thread VsyncCfr
  end.

Lemma hardware_frames_end_the_task_witness :
  (exists t, one_frame (Lib := toy_filter) (Prof := release_profile) 0 toy_desc None 20 Enough 0 (Some (hw_frame 0)) false (toy_thread VsyncCfr) = Ret (true, t)) /\
  forall t2, one_frame (Lib := toy_filter) (Prof := release_profile) 0 toy_desc None 20 Enough 0 (Some (hw_frame 40)) false hw_thread <> Ret (true, t2).
Proof.
  split; [eexists; vm_compute; reflexivity|].
  apply (hardware_frames_end_the_task (Lib := toy_filter) (Prof := release_profile) 0 toy_desc None 20 [receipt (hw_frame 0)] (toy_thread VsyncCfr) hw_thread
    (built_graph (task hw_thread)) 0 (first_input (task hw_thread)) (hw_frame 40) false).
  - apply (runs_frame 0 toy_desc None 20 Enough 0 (Some (hw_frame 0)) false [] (toy_thread VsyncCfr) hw_thread hw_thread); [vm_compute; reflexivity|apply runs_nil].
  - apply Forall_cons; [vm_compute; congruence|by apply Forall_nil].
  - reflexivity.
  - vm_compute. reflexivity.
  - vm_compute. reflexivity.
  - vm_compute. reflexivity.
  - vm_compute. reflexivity.
  - reflexivity.
  - vm_compute. congruence.
  - exists 7. reflexivity.
Defined.

(** A change of the format, in the middle: the thread panics, and no end is told. *)
Example a_change_is_a_panic : toy_run VsyncCfr [receipt (video_frame 0 [1]); receipt other_format] = None.
Proof. vm_compute. reflexivity. Qed.
