(* ===== verification/FilterGraphSpec.v ===== *)
(** * What the filtering task does with a graph

    Reading a graph goes on only as long as the graph gives something; the frames that
    were queued for an input are given to its source, in their order and before
    everything else.  Nothing is assumed of libavfilter. *)

From stdpp Require Import base list option numbers relations.
From Stdlib Require Import ZArith Lia.
From S2P Require Import Choke.
From S2P Require Import Prelude RustInt RustStr Float64 Errors StreamSpec Muxer Rescale MuxTask DemuxTimes DecTimesSpec DecTask FilterSync FilterConfig FilterOutput FilterTask FilterToy FilterSpec.

Local Open Scope Z_scope.
Local Open Scope rust_scope.

Section Graph.
  Context `{Lib : AvFilter} `{Prof : Profile}.

(** A frame, or a code that is no error. *)
Definition succeeds (r : Z + FilterFrame) : Prop := match r with inl ret => 0 <= ret | inr _ => True end.

(** What the task asks a graph for, one call behind the other: [yields n g] is a sequence
    of calls with [n] answers that are frames or successes. *)
Inductive yields : nat -> FGraph -> Prop :=
| yields_none g : yields 0 g
| yields_request n g ret g' : avfilter_graph_request_oldest g = (ret, g') -> 0 <= ret -> yields n g' -> yields (S n) g
| yields_frame n s g r g' : av_buffersink_get_frame s g = (r, g') -> succeeds r -> yields n g' -> yields (S n) g
| yields_failure n s g ret g' : av_buffersink_get_frame s g = (inl ret, g') -> ret < 0 -> yields n g' -> yields n g.

Lemma yields_less n m g : (m <= n)%nat -> yields n g -> yields m g.
Proof.
  intros Hle Hy. revert m Hle. induction Hy as [g|n g ret g' Hr Hret Hy IH|n s g r g' Hr Hs Hy IH|n s g ret g' Hr Hret Hy IH]; intros m Hle.
  - replace m with 0%nat by lia. constructor.
  - destruct m as [|m]; [constructor|]. eapply yields_request; [done..|apply IH; lia].
  - destruct m as [|m]; [constructor|]. eapply yields_frame; [done|done|apply IH; lia].
  - eapply yields_failure; [done|done|by apply IH].
Qed.

(** ** Reading ends *)

Lemma i64_sub_ends a b : i64_sub a b <> Diverge.
Proof. unfold i64_sub. cbv zeta. destruct (_ && _); [done|]. by destruct overflow_checks. Qed.

Lemma signed_ends w x : signed w x <> Diverge.
Proof. unfold signed. destruct (_ && _); [done|]. by destruct overflow_checks. Qed.

Lemma sync_ends f nb t : video_sync_process f nb t <> Diverge.
Proof.
  unfold video_sync_process. destruct (vsync_method t); [|done]. destruct f as [f|].
  - cbv zeta. apply bind_not_Diverge.
    + unfold adjust_frame_pts_to_encoder_tb. apply bind_not_Diverge; [apply signed_ends|]. intros b _. cbv zeta. destruct (_ =? _); [done|].
      apply bind_not_Diverge; [apply i64_sub_ends|done].
    + intros [x g] _. cbv beta iota. by destruct (sync_method _ _ _ _ _ _ _ _) as [[[? ?] ?] ?].
  - unfold sync_end. cbv zeta. destruct (frames_prev_hist _) as [[? ?] ?]. apply bind_not_Diverge; [|done].
    destruct (_ && _); [|done]. apply bind_not_Diverge; [apply signed_ends|done].
Qed.

Lemma make_frame_ends mem i nbp f o : make_frame mem i nbp f o <> Diverge.
Proof.
  unfold make_frame. destruct (video_output o).
  - destruct (frame_in i nbp f o); [|done]. by destruct mem.
  - destruct mem, f; try done; (apply bind_not_Diverge; [|by intros [? ?] _]); unfold audio_output_times; (apply bind_not_Diverge; [destruct (_ =? _); [done|apply i64_sub_ends]|]);
      intros x _; cbv zeta; (apply bind_not_Diverge; [apply i64_sub_ends|done]).
Qed.

Lemma send_frames_ends mem n i nbp f p o : send_frames mem n i nbp f p o <> Diverge.
Proof.
  revert i f p o. induction n as [|n IH]; intros i f p o; cbn [send_frames]; [done|]. apply bind_not_Diverge; [apply make_frame_ends|].
  intros [[e|[out f']] o1] _; [done|]. destruct (send_out _ _ _) as [o2|]; [|done]. apply bind_not_Diverge; [|intros o3 _; apply IH].
  destruct (video_output o2); [|done]. unfold count_video. apply bind_not_Diverge; [apply arith_not_Diverge|]. intros x _.
  apply bind_not_Diverge; [apply i64_sub_ends|done].
Qed.

Lemma output_frame_ends mem f p o : fg_output_frame mem f p o <> Diverge.
Proof.
  unfold fg_output_frame. destruct (output_finished o) as [[|] o1]; [done|]. cbv zeta. apply bind_not_Diverge; [destruct (_ && _); [apply sync_ends|done]|].
  intros [[[nb nbp] t] f1] _. apply bind_not_Diverge; [apply send_frames_ends|]. intros [[e p1] o2] _. destruct e as [[x|]| |]; try done.
  by destruct (close_output _ _ _).
Qed.

(** A result behind which the graph gives [k] answers: it gives one more before a result of
    zero. *)
Definition used (g g' : FGraph) (n : nat) : Prop := forall k, yields k g' -> yields (n + k) g.

Lemma used_none g : used g g 0.
Proof. by intros k Hk. Qed.

Lemma used_less g g' n m : (m <= n)%nat -> used g g' n -> used g g' m.
Proof. intros Hle Hu k Hk. eapply yields_less; [|by apply Hu]. lia. Qed.

Lemma used_trans g1 g2 g3 n m : used g1 g2 n -> used g2 g3 m -> used g1 g3 (n + m).
Proof. intros H1 H2 k Hk. rewrite <-Nat.add_assoc. by apply H1, H2. Qed.

(** One step: a result of zero is a frame of the graph. *)
Lemma output_step_ends mem g p o :
  fg_output_step mem g p o <> Diverge /\
  forall ret g' p' o', fg_output_step mem g p o = Ret (ret, g', p', o') -> used g g' (if ret =? 0 then 1 else 0).
Proof.
  unfold fg_output_step. destruct (bool_decide (mem = NoFrame)); [split; [done|]; intros ? ? ? ? [= <- <- _ _]; apply used_none|].
  destruct (op_filter o) as [s|]; [|done]. cbn [need mbind outcome_bind]. destruct (av_buffersink_get_frame s g) as [r g1] eqn:Er.
  destruct r as [ret|f].
  - assert (used g g1 0) as Hu.
    { intros k Hk. destruct (decide (ret < 0)); [by eapply yields_failure|]. eapply (yields_less (S k)); [lia|]. eapply yields_frame; [done|cbn; lia|done]. }
    destruct ((ret =? AVERROR_EOF) && negb (op_eof o)).
    + split; [apply bind_not_Diverge; [apply output_frame_ends|by intros [[? ?] ?] _]|]. intros r' g' p' o' H. apply bind_Ret in H as ([[x p1] o1] & _ & H).
      apply Ret_inj in H as [= <- <- _ _]. rewrite (proj2 (Z.eqb_neq _ 0)); [done|]. destruct (x <? 0) eqn:E; lia.
    + destruct (_ || _); (split; [done|]); intros r' g' p' o' [= <- <- _ _]; [done|]. destruct (ret =? 0) eqn:E; [|done].
      intros k Hk. eapply yields_frame; [done|cbn; lia|done].
  - assert (used g g1 1) as Hu by (intros k Hk; by eapply (yields_frame k s g (inr f))). assert (forall n, (n <= 1)%nat -> used g g1 n) as Hu' by (intros n Hn; by eapply used_less).
    destruct (op_eof o); [split; [done|]; intros r' g' p' o' [= <- <- _ _]; by apply Hu'|].
    split; [apply bind_not_Diverge; [apply output_frame_ends|by intros [[? ?] ?] _]|]. intros r' g' p' o' H. apply bind_Ret in H as ([[x p1] o1] & _ & H).
    apply Ret_inj in H as [= <- <- _ _]. apply Hu'. destruct (_ =? _); lia.
Qed.

Lemma drain_output_ends mem fuel g p o :
  (drain_output mem fuel g p o = Diverge -> yields fuel g) /\ forall ret g' p' o', drain_output mem fuel g p o = Ret (ret, g', p', o') -> used g g' 0.
Proof.
  revert g p o. induction fuel as [|fuel IH]; intros g p o; [split; [constructor|done]|]. cbn [drain_output]. destruct (output_step_ends mem g p o) as [He Hs].
  destruct (fg_output_step mem g p o) as [[[[ret g1] p1] o1]| |]; cbn [mbind outcome_bind]; [|by split|done]. specialize (Hs _ _ _ _ eq_refl).
  destruct (ret <? 0) eqn:En; [split; [done|]; intros r' g' p' o' [= _ <- _ _]; by eapply used_less, Hs; lia|].
  destruct (ret =? 0) eqn:E; [|split; [done|]; by intros r' g' p' o' [= _ <- _ _]]. destruct (IH g1 p1 o1) as [Hd Hr]. split.
  - intros H%Hd. by apply Hs.
  - intros r' g' p' o' H%Hr. eapply (used_less _ _ (1 + 0)); [lia|]. by eapply used_trans.
Qed.

Lemma drain_outputs_ends mem fuel l g p :
  (drain_outputs mem fuel g p l = Diverge -> yields fuel g) /\ forall ret g' p' l', drain_outputs mem fuel g p l = Ret (ret, g', p', l') -> used g g' 0.
Proof.
  revert g p. induction l as [|o l IH]; intros g p; cbn [drain_outputs]; [split; [done|]; intros ? ? ? ? [= _ <- _ _]; apply used_none|].
  destruct (drain_output_ends mem fuel g p o) as [He Hs]. destruct (drain_output mem fuel g p o) as [[[[ret g1] p1] o1]| |]; cbn [mbind outcome_bind];
    [|by split|split; [by intros _; apply He|done]]. specialize (Hs _ _ _ _ eq_refl).
  destruct (ret <? 0); [split; [done|]; by intros r' g' p' l' [= _ <- _ _]|].
  destruct (IH g1 p1) as [Hd Hr]. destruct (drain_outputs mem fuel g1 p1 l) as [[[[ret2 g2] p2] l2]| |]; cbn [mbind outcome_bind]; [|by split|split; [|done]].
  - split; [done|]. intros r' g' p' l' [= _ <- _ _]. eapply (used_trans _ g1 _ 0 0); [done|]. by eapply Hr.
  - intros _. apply Hs. by apply Hd.
Qed.

Lemma read_loop_ends mem fuel g p l os : read_loop mem fuel g p l os = Diverge -> yields fuel g.
Proof.
  revert g p os. induction fuel as [|fuel IH]; intros g p os; [constructor|]. cbn [read_loop]. cbv zeta. destruct (_ <=? _)%nat; [done|].
  destruct (avfilter_graph_request_oldest g) as [ret g1] eqn:Er. destruct (ret =? AVERROR_AGAIN).
  - intros H. exfalso. revert H. apply bind_not_Diverge; [|done]. unfold choose_input. apply bind_not_Diverge; [|intros b _; by destruct (0 <=? _)].
    apply foldM_not_Diverge. intros s x. unfold choose_step. destruct (ip_eof x); [done|]. apply bind_not_Diverge; [by destruct (ip_filter x)|done].
  - destruct (ret <? 0) eqn:En; [done|]. apply Z.ltb_ge in En. intros H. eapply yields_request; [done..|].
    destruct (drain_outputs_ends mem fuel os g1 p) as [He Hs]. destruct (drain_outputs mem fuel g1 p os) as [[[[ret2 g2] p2] l2]| |]; cbn [mbind outcome_bind] in H; [|done|by apply He].
    destruct (ret2 <? 0); [done|]. apply (Hs _ _ _ _ eq_refl). by eapply IH.
Qed.

(** C29. Reading a graph ends as soon as the graph has nothing more to give: a reading that
    is not done in [fuel] rounds has had [fuel] frames and successful requests from the
    graph, whatever the outputs do with the frames.  No failure, no end of a sink and no
    finished output is asked for again and again. *)
Theorem reading_a_graph_ends mem fuel st :
  (forall g, fs_graph st = Some g -> ~ yields fuel g) -> fg_read_frames mem fuel st <> Diverge.
Proof.
  intros Hw. unfold fg_read_frames. destruct (fs_graph st) as [g|]; [|by destruct (input_without_format _)].
  apply bind_not_Diverge; [|by intros [[[? ?] ?] ?] _]. intros H%read_loop_ends. by apply (Hw g).
Qed.

(** ** Frames that come before the graph *)

Lemma last_cons_default {A} (x : A) l d : List.last (x :: l) d = List.last l x.
Proof. revert x d. induction l as [|y l IH]; intros x d; [done|]. change (List.last (y :: l) d = List.last (y :: l) x). by rewrite (IH y d), (IH y x). Qed.

Lemma last_app_default {A} (l1 l2 : list A) d : List.last (l1 ++ l2) d = List.last l2 (List.last l1 d).
Proof. revert d. induction l1 as [|x l1 IH]; intros d; [done|]. rewrite <-app_comm_cons, !last_cons_default. apply IH. Qed.

Lemma last_default_Forall {A} (P : A -> Prop) l d : P d -> Forall P l -> P (List.last l d).
Proof. intros Hd Hl. revert d Hd. induction Hl as [|x l Hx _ IH]; intros d Hd; [done|]. rewrite last_cons_default. by apply IH. Qed.

(** Frames (or ends) that are given to sources, one behind the other: what the sources
    answer, and the graph then. *)
Fixpoint given_to (xs : list (nat * option FilterFrame)) (g : FGraph) : list Z * FGraph :=
  match xs with
  | [] => ([], g)
  | (s, f) :: xs => let '(ret, g) := av_buffersrc_add_frame_flags false s f g in let '(rets, g) := given_to xs g in (ret :: rets, g)
  end.

Lemma given_app xs ys g : given_to (xs ++ ys) g = (fst (given_to xs g) ++ fst (given_to ys (snd (given_to xs g))), snd (given_to ys (snd (given_to xs g))))%list.
Proof.
  revert g. induction xs as [|[s f] xs IH]; intros g; cbn [app given_to fst snd]; [by destruct (given_to ys g)|]. destruct (av_buffersrc_add_frame_flags false s f g) as [ret g1].
  rewrite IH. by destruct (given_to xs g1).
Qed.

Definition source (i : InputFilterParameter) : nat := default 0%nat (ip_filter i).

(** The frames that wait for the graph, input by input; those of subtitles stay out. *)
Definition waiting_frames (l : list InputFilterParameter) : list (nat * option FilterFrame) :=
  l ≫= fun i => if is_subtitle i then [] else (fun f => (source i, Some f)) <$> frame_queue i.

(** The ends of the inputs that have ended. *)
Definition ends_of (l : list InputFilterParameter) : list (nat * option FilterFrame) := l ≫= fun i => if ip_eof i then [(source i, None)] else [].

Lemma flush_queue_gives s q ret g :
  flush_queue (Some s) q ret g = Ret (List.last (fst (given_to ((fun f => (s, Some f)) <$> q) g)) ret, snd (given_to ((fun f => (s, Some f)) <$> q) g)).
Proof.
  revert ret g. induction q as [|f q IH]; intros ret g; [done|]. cbn [flush_queue need mbind outcome_bind fmap list_fmap given_to].
  destruct (av_buffersrc_add_frame_flags false s (Some f) g) as [ret1 g1]. rewrite IH. destruct (given_to _ g1) as [rets g2]. cbn [fst snd]. by rewrite last_cons_default.
Qed.

Definition has_source (i : InputFilterParameter) : Prop := is_Some (ip_filter i).

Lemma flush_inputs_give l ret g :
  Forall has_source l -> foldM flush_input (ret, g) l = Ret (List.last (fst (given_to (waiting_frames l) g)) ret, snd (given_to (waiting_frames l) g)).
Proof.
  revert ret g. induction l as [|i l IH]; intros ret g Hl; [done|]. apply Forall_cons_1 in Hl as [[s Hi] Hl]. cbn [foldM].
  change (waiting_frames (i :: l)) with ((if is_subtitle i then [] else (fun f => (source i, Some f)) <$> frame_queue i) ++ waiting_frames l)%list.
  assert (flush_input (ret, g) i = if is_subtitle i then Ret (ret, g) else flush_queue (Some s) (frame_queue i) ret g) as -> by (unfold flush_input; by rewrite Hi).
  destruct (is_subtitle i); [by apply IH|]. unfold source. rewrite Hi, flush_queue_gives. cbn [mbind outcome_bind default].
  rewrite IH by done. rewrite given_app. cbn [fst snd]. by rewrite last_app_default.
Qed.

Lemma send_ends_give l some g :
  Forall has_source l -> let '(rets, g') := given_to (ends_of l) g in
  exists r g1, send_ends l some g = Ret (r, g1) /\
    ((Forall (Z.le 0) rets /\ r = inr (some || negb (bool_decide (ends_of l = []))) /\ g1 = g') \/ (Exists (fun ret => ret < 0) rets /\ exists ret, r = inl ret)).
Proof.
  revert some g. induction l as [|i l IH]; intros some g Hl; cbn [send_ends].
  { cbn. exists (inr some), g. split; [done|left]. by rewrite orb_false_r. }
  apply Forall_cons_1 in Hl as [[s Hi] Hl]. change (ends_of (i :: l)) with ((if ip_eof i then [(source i, None)] else []) ++ ends_of l)%list.
  destruct (ip_eof i); [|by apply IH]. unfold source. rewrite Hi. cbn [default id need mbind outcome_bind app given_to].
  destruct (av_buffersrc_add_frame_flags false s None g) as [ret g1]. specialize (IH true g1 Hl). destruct (given_to (ends_of l) g1) as [rets g2].
  cbv beta iota. destruct (ret <? 0) eqn:E.
  - eexists _, g1. split; [done|right]. split; [left; lia|by eexists].
  - destruct IH as (r & g3 & -> & [(Hr & -> & ->)|(Hr & e & ->)]); eexists _, _; (split; [done|]); [left|right].
    + split; [apply Forall_cons; split; [lia|done]|]. by rewrite orb_true_r.
    + split; [by right|by eexists].
Qed.

Lemma sources_empty l : Forall has_source l -> Forall has_source (map empty_queue l).
Proof. intros H. apply Forall_fmap. exact H. Qed.

Lemma ends_empty l : ends_of (map empty_queue l) = ends_of l.
Proof. induction l as [|i l IH]; [done|]. unfold ends_of in *. cbn [map]. cbn. by rewrite IH. Qed.

Lemma bad_request ret :
  (ret <? 0) && negb (ret =? AVERROR_AGAIN) && negb (ret =? AVERROR_EOF) = true -> ~ (0 <= ret \/ ret = AVERROR_AGAIN \/ ret = AVERROR_EOF).
Proof. intros [[H1 H2]%andb_true_iff H3]%andb_true_iff [H|[H|H]]; [lia|by rewrite H in H2|by rewrite H in H3]. Qed.

(** The answers of a graph that takes what waits for it. *)
Definition takes_all (xs : list (nat * option FilterFrame)) (g : FGraph) : Prop := Forall (Z.le 0) (fst (given_to xs g)).

(** The graph behind the ends: asked once, so that they go through. *)
Definition ended_graph (ends : list (nat * option FilterFrame)) (g : FGraph) : FGraph :=
  match ends with [] => g | _ => snd (avfilter_graph_request_oldest g) end.

Definition request_goes_well (ends : list (nat * option FilterFrame)) (g : FGraph) : Prop :=
  ends = [] \/ let ret := fst (avfilter_graph_request_oldest g) in 0 <= ret \/ ret = AVERROR_AGAIN \/ ret = AVERROR_EOF.

(** C28. When a graph is started, whose sources are there and whose sinks can be read, and
    there is memory: the sources of its video and audio inputs are given the frames that
    came before there was a graph, all of them and in their order, input by input, and
    then the ends of the inputs that have ended; with an end the graph is asked once.
    Behind a start that succeeds the graph is the one to which exactly this was given,
    it took every end, and nothing stays in the queues.  The start succeeds when
    nothing is refused. *)
Theorem early_frames_reach_the_graph st g ret os :
  Forall has_source (ifps st) -> read_sinks g (ofps st) = Ret (ret, os) -> 0 <= ret ->
  let '(frames, ends) := (waiting_frames (ifps st), ends_of (ifps st)) in
  let g1 := snd (given_to frames g) in let g2 := snd (given_to ends g1) in
  exists r st', start_graph Enough st g = Ret (r, st') /\
    (r = Ok tt -> fs_graph st' = Some (ended_graph ends g2) /\ takes_all ends g1 /\ Forall (fun i => frame_queue i = []) (ifps st')) /\
    (takes_all frames g -> takes_all ends g1 -> request_goes_well ends g2 -> r = Ok tt).
Proof.
  intros Hl Hs Hret. cbv zeta. unfold start_graph, takes_all. cbv zeta. cbn [set_fgp set_graph ofps]. rewrite Hs. cbn [mbind outcome_bind].
  rewrite (proj2 (Z.ltb_ge ret 0)) by done. rewrite bool_decide_true by done. cbn [negb andb set_ofps set_fgp set_graph ifps]. rewrite flush_inputs_give by done.
  set (rets := fst (given_to (waiting_frames (ifps st)) g)). set (g1 := snd (given_to (waiting_frames (ifps st)) g)). cbn [mbind outcome_bind].
  destruct (List.last rets ret <? 0) eqn:E.
  { eexists _, _. split; [done|]. split; [done|]. intros Hr _ _. exfalso. apply Z.ltb_lt in E. assert (0 <= List.last rets ret); [|lia]. by apply last_default_Forall. }
  unfold start_ends. cbn [set_ifps set_graph ifps]. pose proof (send_ends_give (map empty_queue (ifps st)) false g1 (sources_empty _ Hl)) as He. rewrite ends_empty in He.
  destruct (given_to (ends_of (ifps st)) g1) as [rets2 g2]. cbn [fst snd] in *. destruct He as (r & g3 & -> & [(Hr & -> & ->)|(Hr & e & ->)]); cbn [mbind outcome_bind orb].
  - assert (Forall (fun i => frame_queue i = []) (map empty_queue (ifps st))) as Hq by (apply Forall_fmap, Forall_true; done).
    unfold ended_graph, request_goes_well. destruct (ends_of (ifps st)) as [|x xs]; [eexists _, _; by split_and!|]. rewrite bool_decide_false by done. cbn [negb].
    destruct (avfilter_graph_request_oldest g2) as [r g3]. cbn [fst snd]. destruct (_ && _) eqn:Eq.
    + eexists _, _. split; [done|]. split; [done|]. intros _ _ [?|Hgo]; [done|]. exfalso. by destruct (bad_request r Eq).
    + eexists _, _. split; [done|]. split; [done|done].
  - eexists _, _. split; [done|]. split; [done|]. intros _ Hok _. exfalso. apply Exists_exists in Hr as (x & Hx & Hneg). rewrite Forall_forall in Hok. specialize (Hok x Hx). cbv beta in *. lia.
Qed.

End Graph.

(** ** Examples *)

(** Frames that wait count twice: they go to the sink first. *)
Definition toy_weight (g : ToyGraph) : nat := 2 * length (waiting g) + length (at_sink g).

Definition toy_fed (s : nat) (g : ToyGraph) : list (option FilterFrame) := omap (fun x => if (fst x =? s)%nat then Some (snd x) else None) (given g).

Lemma toy_yields n (g : ToyGraph) : yields (Lib := toy_filter) n g -> (n <= toy_weight g)%nat.
Proof.
  induction 1 as [g|n g ret g' Hr Hret Hy IH|n s g r g' Hr Hs Hy IH|n s g ret g' Hr Hret Hy IH]; [lia|..]; cbn in Hr; unfold toy_weight in *.
  - unfold toy_request in Hr. destruct (waiting g) as [|f l]; injection Hr as <- <-; [exfalso; revert Hret; destruct (sink_ended g); vm_compute; intros H; by apply H|].
    cbn [waiting at_sink] in IH. rewrite length_app in IH. destruct f; simpl length in *; lia.
  - unfold toy_take in Hr. destruct (at_sink g) as [|x l]; injection Hr as <- <-; [exfalso; revert Hs; by destruct (sink_ended g)|]. simpl length in *. lia.
  - unfold toy_take in Hr. destruct (at_sink g) as [|x l] eqn:E; [|done]. injection Hr as _ <-. rewrite E in IH. exact IH.
Qed.

(** Two frames wait in the graph. *)
Definition busy_graph : ToyGraph := toy_add 1 (Some (video_frame 40 [2])) (toy_add 1 (Some (video_frame 0 [1])) (toy_create toy_desc None toy_graph)).

Definition busy_state : FilterState (Gr := toy_av) :=
  {| fs_graph := Some busy_graph; fgp := FilterGraphParameter_default; ifps := [set_ip_filter (Some 1%nat) false (toy_input 0)];
     ofps := [set_op_filter (Some 2%nat) (toy_output VsyncCfr)] |}.

Lemma reading_a_graph_ends_witness :
  toy_weight busy_graph = 4%nat /\ fg_read_frames (Lib := toy_filter) (Prof := release_profile) Enough 5 busy_state <> Diverge.
Proof.
  split; [reflexivity|]. apply (reading_a_graph_ends (Lib := toy_filter) (Prof := release_profile) Enough 5 busy_state).
  intros g Hg Hy. injection Hg as <-. apply toy_yields in Hy. vm_compute in Hy. lia.
Defined.

(** Two frames came before the graph, and the end. *)
Definition early_state : FilterState (Gr := toy_av) :=
  {| fs_graph := None; fgp := FilterGraphParameter_default;
     ifps := [set_ip_queue [video_frame 0 [1]; video_frame 40 [2]] true (set_ip_filter (Some 1%nat) false (toy_input 0))];
     ofps := [set_op_filter (Some 2%nat) (toy_output VsyncCfr)] |}.

Lemma early_sinks : match read_sinks (Gr := toy_av) toy_graph (ofps early_state) with Ret (ret, _) => 0 <=? ret | _ => false end = true.
Proof. vm_compute. reflexivity. Qed.

Lemma early_frames_reach_the_graph_witness :
  exists st', start_graph (Lib := toy_filter) Enough early_state toy_graph = Ret (Ok tt, st') /\ Forall (fun i => frame_queue i = []) (ifps st') /\
    option_map (toy_fed 1) (fs_graph st') = Some [Some (video_frame 0 [1]); Some (video_frame 40 [2]); None].
Proof.
  pose proof early_sinks as Hs. destruct (read_sinks (Gr := toy_av) toy_graph (ofps early_state)) as [[ret os]| |] eqn:E; [|discriminate Hs..]. apply Z.leb_le in Hs.
  destruct (early_frames_reach_the_graph (Lib := toy_filter) early_state toy_graph ret os) as (r & st' & Hst & Hok & Hall).
  - apply Forall_cons. split; [by exists 1%nat|by apply Forall_nil].
  - exact E.
  - exact Hs.
  - assert (r = Ok tt) as ->.
    { apply Hall; [vm_compute; repeat constructor; discriminate|vm_compute; repeat constructor; discriminate|right; vm_compute; left; discriminate]. }
    destruct (Hok eq_refl) as (Hg & _ & Hq). exists st'. split; [exact Hst|]. split; [exact Hq|]. rewrite Hg. vm_compute. reflexivity.
Defined.
